(* ===== verification/_CoqProject ===== *)
-Q . S2P
Prelude.v
Memory.v
Paths.v
Binding.v
ProcLinks.v
Canon.v
Lookup.v
Sysnum.v
Regs.v
Translate.v
Heap.v
Chain.v
PipeShadow.v
Seccomp.v
SysVIpc.v
NetRules.v
Control.v
Dns.v
NetPolicy.v
Tracees.v
Events.v
FakeId.v
Mem.v
SysArgs.v
Mounts.v
Netlink.v
Enter.v
Sockets.v
Sigsys.v
Exit.v
Aoxp.v
Shebang.v
Elf.v
Loader.v
Ldso.v
Execve.v
