(* ===== verification/Prelude.v ===== *)
(** * PRoot: a verification development

    PRoot (proot/src in the repository) runs a program, the tracee, as if the
    directory of a "guest" root file-system were its "/": it stops the tracee at
    its system calls with ptrace(2), rewrites their arguments, mostly paths, and
    rewrites their results.  No privilege is involved: the confinement of a
    tracee, and the emulation of what it cannot do, rest on the code below.
    Everything is modelled for the architecture the program is built for first,
    AArch64 with 32-bit ARM tracees.

    ** The parts of the program and the files that model them

    - [Prelude]: the error monad [res] ([Ok], [Err errno], [Stuck] for a failed
      assertion, an access out of bounds or a lack of fuel), machine words as
      [Z] with their wrap-around written out, C strings as lists of bytes, errno
      values, tactics and hint databases.
    - [Paths] (src/path/path.c, src/path/canon.c): operations on paths as
      strings: join_paths, normalize_guest_path, chop_finality, compare_paths,
      substitute_path_prefix, next_component, pop_component.  Specification
      side: a path is a list of components ([components], [render], [resolve]).
    - [Binding] (src/path/binding.c): a binding maps a guest path to a host path.
      [FileSystemNameSpace] holds the lists of bindings, sorted for each side by
      insort_binding; get_binding, substitute_binding, check_binding_access,
      copy_binding read and extend them.  [fs_wf] is the invariant.
    - [ProcLinks] (src/path/proc.c, src/path/path.c): the emulated links of
      /proc (readlink_proc) and detranslate_path, from host to guest.
    - [Canon] (src/path/canon.c, src/path/glue.c, src/path/f2fs-bug.c):
      canonicalize, which walks over a guest path, looks every component up on
      the host and follows symlinks recursively, and build_glue.  State: the
      record [Tracee], in the monad [M].  The host is the class [Kernel] (with
      [KernelLaws], what readlink(2) documents), what the extensions answer is
      the class [Extensions]; both thread a world of any type.
    - [Lookup]: total correctness of canonicalize where there is no symlink.
    - [Translate] (src/path/path.c): translate_path, which composes all of the
      above with the check of the access mode of bindings.  The network policy
      is the class [PathPolicy], the notified extensions [PathEvents].
    - [Sysnum] (src/syscall/sysnum.c, sysnums-arm64.h, sysnums-arm.h): the
      complete tables of system call numbers of both ABIs and the translations.
    - [Regs] (src/tracee/reg.c, src/tracee/abi.h): the banks of registers of a
      tracee as 32-bit words of memory, seen through the layout of either ABI;
      peek_reg, poke_reg, save_current_regs, push_regs, get_sysnum, set_sysnum.
    - [Heap] (src/syscall/heap.c): brk(2) emulated with mmap(2) and mremap(2).
    - [Chain] (src/syscall/chain.c): the queue of system calls PRoot has a tracee
      execute after the one it asked for.
    - [PipeShadow] (src/syscall/pipe_shadow.c): descriptors PRoot keeps open.
    - [Seccomp] (src/syscall/seccomp.c): the BPF program that selects the system
      calls PRoot is told about.  The machine that executes it is the class
      [BpfMachine]; [bpf_interpreter] is an instance.
    - [SysVIpc] (src/extension/sysvipc/): message queues and semaphores shared by
      tracees.  State: the record [Ipc] (the name-space, a [SysVIpcConfig] per
      tracee, their memory, a parameter of the class [TraceeMemory]); the
      handlers, sysvipc_syscall_common and the events at entry and exit are its
      operations, [ipc_step] and [ipc_reaches] the interleaving of tracees.
    - [Memory]: little-endian and big-endian words in lists of bytes, slices.
    - [NetRules] (src/extension/net_policy/net_policy.c, virtual_net.c): the
      static policy: the text of rules, the pinning of domains, the matching of
      destinations, the decision on a socket call (check_operation) and the
      configuration.  State: the record [StaticPolicy].  The resolver and the
      text of addresses (inet_pton, getaddrinfo) are arguments.
    - [Control] (net_policy.c): the protocol with the controller: frames,
      commands, the tables of rules and shadows, the requests that wait for a
      decision, the filtering of directories.  State: [NetPolicyConfig].  What
      the kernel does with the channel is a list of answers; past its end the
      peer has closed.
    - [Dns] (net_policy.c): the emulated name server: the parsing of names, the
      answers, the tables of queries and leases, five system calls.  [DnsState].
    - [NetPolicy] (net_policy.c): the callback at the entry and exit of a system
      call, each step a function on [NetState]; it composes the three above.
    - [Tracees] (src/tracee/tracee.c): the list of tracees and the hash table by
      pid, nodes in a store whose links are pointers that may dangle.  [Table]
      is its specification, a list of pids.
    - [Events] (src/tracee/event.c, src/syscall/syscall.c, src/tracee/seccomp.c):
      the state machine of a tracee: handle_tracee_event, translate_syscall,
      restart_tracee.  What the kernel, the handlers and the extensions answer
      during an event is the record [Answers].  [Phase] and [next] are the model
      of the stops of the kernel, [step] puts both together.
    - [FakeId] (src/extension/fake_id0/, src/execve/auxv.c): the identity a tracee
      believes it has.  State: [Config] (its eight identifiers and flags),
      [FakeTracee] (registers and memory of the tracee), [Host] (what the kernel
      answers).  [linux] is the specification of the set*id family.

    - [Mem] (src/tracee/mem.c): reading and writing the memory of a tracee with
      process_vm_readv(2), process_vm_writev(2) or ptrace(2), the class
      [VmKernel]; its refinement to the plain memory of [TraceeMemory].
    - [SysArgs] (src/syscall/syscall.c): the arguments of system calls that are
      paths, and the monad [HM] of the handlers: registers, memory, the tracee
      of [Canon], flags.
    - [Mounts] (src/syscall/enter.c): mount, umount and pivot_root emulated on the
      bindings of a tracee.
    - [Netlink] (src/syscall/enter.c, exit.c): the socket PRoot answers on in place
      of the kernel where AF_NETLINK is refused.
    - [Enter] (src/syscall/enter.c): translate_syscall_enter, what is done with
      every system call before the kernel sees it; one definition per case of
      its switch, on the state of [SysArgs], over [Translate], [Regs], [Mounts]
      and [Netlink].  What it calls in other files (execve, ptrace, wait, brk,
      the addresses of sockets, the shadows of pipes) is the class
      [SysServices].
    - [Sockets] (src/syscall/socket.c): the translation of the paths of AF_UNIX
      addresses, at the entry and the exit of the calls on sockets.
    - [Sigsys] (src/tracee/seccomp.c, src/tracee/statx.c): the calls that the
      filter of an outer sandbox rejects, reported as SIGSYS: the switch that
      replaces each of them with another call, or with a result;
      handle_statx_syscall.
    - [Exit] (src/syscall/exit.c, src/syscall/rlimit.c): translate_syscall_exit,
      what is done with the result of every system call; one definition per
      case, as in [Enter].
    - [Aoxp] (src/execve/aoxp.c, src/tracee/mem.c): the arrays of pointers to
      strings (argv[]) in the memory of a tracee, read, edited and written back.
    - [Shebang] (src/execve/shebang.c): the interpreter of a script, looked for
      until a program that is not a script.
    - [Elf] (src/execve/elf.c, elf.h, enter.c): the headers of ELF files, the
      mappings of their segments (add_mapping, extract_load_info) and the
      addresses of position-independent programs.
    - [Ldso] (src/execve/ldso.c, enter.c): the runner of foreign programs, with the
      environment and the libraries it needs; the part of a tracee that execve(2)
      changes, the record [ExecState] and its monad [XM].
    - [Loader] (src/execve/exit.c, src/loader/): the script left on the stack of
      a new process (transfer_load_script) and the loader that interprets it:
      it maps the program and its interpreter, fixes the auxiliary vectors and
      jumps.  The address space and the system calls of the loader are the class
      [LoaderVm], with the laws of [LoaderVmLaws].
    - [Execve] (src/execve/enter.c, exit.c, auxv.c): translate_execve_enter and
      translate_execve_exit, which compose [Shebang], [Ldso], [Elf] and [Loader];
      the loader that is extracted, the notification that the loader makes for a
      ptracer, the auxiliary vectors bound over /proc/<pid>/auxv.  The temporary
      files, the signal and the limit are the class [ExecFiles].

    Definitions keep the names of the C functions; a function that is long in C
    is cut where its comments cut it (for instance [walk_component], [walk_step]
    and [walk] are the loop of canonicalize).  What is not under src/ (system
    calls, the kernel's BPF machine) is always a parameter.

    ** What the theorems show

    - Confinement: [translate_path_confined] (whatever a tracee asks for and
      whatever its symlinks contain, the host path is the one of the canonical
      guest path through its deepest binding, below the host side of this binding;
      the guest path is kept where that one would not fit,
      [substitute_binding_overflow]), built on [canonicalize_canonical] (no "." nor
      ".." survives, no access out of bounds) and [substitute_binding_confined].
    - Function: [canonicalize_lexical], [normalize_guest_path_resolves]; also the
      lemmas [get_binding_deepest], [join_paths_components],
      [compare_paths_components], [readlink_proc_emulates].
    - System calls: [path_arguments_translated] (when the entry of a system call
      succeeds, each of its path arguments is the address of the host path the
      guest path stands for, resolved from the right directory, with its last
      symlink followed or not as the call wants), [namespaces_never_reach_kernel]
      (no call that would make or enter a name-space is let through),
      [refused_syscalls_fail]; [mem_refines], the accesses to memory they rest on.
      At the exit, [exit_results_reported] (what the tracee sees of a call),
      [readlink_detranslated] and the lemma [rename_moves_cwd].  Sockets:
      [unix_addresses_translated], [sockname_in_bounds].  Under another sandbox:
      [rejected_calls_replaced] (each rejected call is replaced with one that has
      the same effect, its arguments moved to their places), [statx_emulated].
    - Executing a program: [program_executed] (from the load information that the
      entry of execve(2) prepared to the jump to the program, with all its segments
      in memory) and [execve_prepared] (this load information is the one of the
      program that Linux would execute, and the kernel is asked for the loader),
      which compose the others: [shebang_parsed] (the first line of a script is read as
      a grammar says), [scripts_interpreted] (the program that is executed is not a script, and
      its arguments are those of each script on the way), [push_fetch_roundtrip]
      (argv[] written is argv[] read), [runner_expanded] (what a runner gets instead), [segments_mapped] (every byte of the
      image that the program headers describe is mapped from the file or is
      zero, with its rights), [program_loaded] (the loader, run on the script PRoot
      left, ends in a jump to the entry with that image in memory, the auxiliary
      vectors fixed and the rest of the stack kept, or it exits with 182).
    - Access modes: [translate_path_enforces] and the lemmas
      [check_binding_access_deepest] and [copy_binding_keeps_mode].
    - Mounts: [mount_binds] and the lemmas [pivot_root_preserves] (for a put_old
      without a final "/") and [umount_undoes_mount].
    - Netlink: [netlink_reply_parses] and the lemmas [netlink_datagrams] and
      [netlink_fds_kept].
    - Lemmas on bindings and numbers: [insort_binding2_preserves],
      [detranslate_path_root], [sysnum_roundtrip].
    - Registers and emulation: [peek_poke], [push_regs_restores], [chain_fifo]
      and [brk_refines], a refinement of an abstract heap.
    - Seccomp: [seccomp_filter_decides] (the verdict of the program on every
      architecture and number) and the lemma [filtering_reports_flags].
    - System V IPC: [sysvipc_safe] (no assertion of the wait mechanism fails,
      whatever the interleaving), and the lemmas [msg_accounting],
      [msgrcv_takes_first], [sem_check_atomic], [semget_finds].
    - Events, for the handlers that ask for an exit with its restart ([answers_ok],
      [reports_fork]): [stages_agree] (PRoot and the kernel agree on the stage of every
      system call, no assertion fails, before and since Linux 4.8),
      [stops_restarted] (every stop is answered by a restart that awaits the
      exits it must), [tracee_table_refines] (the list, the hash table and the
      pids of tracees are one table).
    - Identity: [dropped_root_stays_dropped] (no sequence of events makes a tracee
      that dropped its three identifiers root again, exec of a set-user-ID
      program apart), [setids_as_linux] (the set*id family agrees with the kernel's
      rules where it is meant to), [sendmsg_in_bounds] (the copy of ancillary
      data stays in its buffer).
    - Network: [check_operation_enforces], [destination_matches_refines],
      the lemmas [domains_pinned] and [policy_bounded]; with a controller
      [net_access_authorised], [path_access_authorised],
      [control_fails_closed], [set_rule_applies], [getdents_hides],
      [control_config_typed]; [dns_answers_pinned] (an answer that waits is the one
      of a question that was sent, with pinned addresses only), [dns_read_name_decodes]
      and the lemma [dns_prepare_answers]; and [connect_authorised], which composes them.
    - Termination: [canonicalize_terminates], and the lemma [dns_names_terminate].
    - Behaviours that differ from what the code means to do:
      [translate_path_symlink_bypass], [canonicalize_four_links],
      [chop_finality_eats_final_dot], [substitute_binding_overflow],
      [translate_sysnum_overrun], [pipe_shadow_never_active] (next to
      [pipe_shadow_latched], what the table does once it is active),
      [msgrcv_retry_aborts], [semop_lost_wakeups], [first_tracee_dangles],
      [ficlone_takes_exit_for_entry], [fork_forgets_exit],
      [sysnum_refusal_unseen], [sendmsg_overflows_stack], [exec_setid_any_owner],
      [temporary_drop_is_privileged], [setreuid_keeps_saved],
      [setfsuid_query_changes], [setreuid16_unset], [chroot_reads_unset_path],
      [bind_mount_escapes_ro], [umount_removes_startup_binding],
      [pivot_root_forgets_mode], [pivot_root_keeps_finality], [read_path_short],
      [last_symlinks_followed], [chdir_accepts_null],
      [readlink_counts_terminator], [readlink_proc_fd_untranslated],
      [renameat2_keeps_cwd], [shebang_character_lost], [shebang_argument_lost],
      [page_past_the_end_cleared], [nothing_to_load], [far_headers_skipped],
      [clear_same_word], [root_program_name], [static_program_base],
      [runner_needs_argv0], [segment_of_strings_unset], [end_of_segment_found].

    ** Fuel and bounds

    canonicalize takes a number of levels: the recursion level increases at each
    call and 4 is refused, so 5 are enough; its loop and the one of
    normalize_guest_path have one iteration per byte of the path at most; the
    BPF interpreter has one step per instruction, since jumps are forward.
    A name of the DNS takes 17 times the length of its message plus one, since 16
    pointers at most are followed; a walk over a bucket of tracees takes one step
    per live tracee; the loop over ancillary data one per byte of it at most; a
    string is read in one chunk per byte of its maximal size at most; the loops
    over the attributes and the messages of netlink advance by one byte at least.
    The scripts that interpret scripts are as many as expand_shebang allows; the
    loader takes one step per statement, and its loops over strings, environment
    and vectors one per byte or word ([program_loaded] gives the sum).
    [Stuck NoFuel] is never reached ([canonicalize_terminates] and the lemmas
    named [.._fueled]).  PATH_MAX is 4096, NAME_MAX 255, and the overflow of every
    buffer is either the code's own error or a theorem.

    ** What is not modelled

    The command line (cli/), with the creation of bindings it asks for
    (new_binding, initialize_bindings) and which(); the mapping of the loader
    itself by execve(2), which the kernel does; the emulation of ptrace(2) and wait(2); the creation of
    children (new_child, attach_child); the workaround for a kernel whose
    PTRACE_POKEDATA fails; the probe of AF_NETLINK on the host (a parameter); the
    supervisor; and the extensions other than net_policy, sysvipc and fake_id0
    (the shared memory of sysvipc and the files of meta-data of fake_id0, which no
    build enables, are not modelled; of virtual_net only the classification of
    addresses is). *)

From Stdlib Require Export ZArith Lia.
From stdpp Require Export base option numbers strings sets list.

Open Scope Z_scope.

(** ** Results of C functions

    A C function that fails returns [-errno]; a failed [assert] aborts; an
    access outside an object is undefined behaviour; a loop modelled with
    fuel may run out of it.  The last three are the [Stuck] outcomes, and the
    theorems show that they do not happen. *)

Inductive stuck := AssertFailed | OutOfBounds | NoFuel.

Inductive res (A : Type) :=
  | Ok (a : A)
  | Err (errno : Z)
  | Stuck (why : stuck).
Arguments Ok {A} a.
Arguments Err {A} errno.
Arguments Stuck {A} why.

Definition res_bind {A B} (m : res A) (k : A -> res B) : res B :=
  match m with
  | Ok a => k a
  | Err e => Err e
  | Stuck w => Stuck w
  end.

Declare Scope res_scope.
Delimit Scope res_scope with res.
Notation "'let!' x ':=' m 'in' k" := (res_bind m (fun x => k))
  (at level 10, x pattern, m at level 100, k at level 200) : res_scope.
Notation "'check!' b 'else' w 'in' k" := (if b then k else Stuck w)
  (at level 10, b at level 100, w at level 100, k at level 200) : res_scope.
Open Scope res_scope.

Definition is_ok {A} (m : res A) : Prop := exists a, m = Ok a.
Definition not_stuck {A} (m : res A) : Prop := forall w, m <> Stuck w.

(** The outcome of a computation whose result satisfies [P] when it succeeds and
    which never leaves its objects nor runs out of fuel. *)
Definition outcome {A} (P : A -> Prop) (m : res A) : Prop :=
  match m with Ok a => P a | Err _ => True | Stuck w => w = AssertFailed end.

Lemma outcome_bind {A B} (P : A -> Prop) (Q : B -> Prop) (m : res A) (k : A -> res B) :
  outcome P m -> (forall a, P a -> outcome Q (k a)) -> outcome Q (res_bind m k).
Proof. destruct m; simpl; auto. Qed.

Lemma outcome_impl {A} (P Q : A -> Prop) (m : res A) :
  outcome P m -> (forall a, P a -> Q a) -> outcome Q m.
Proof. destruct m; simpl; auto. Qed.

Lemma not_stuck_bind {A B} (m : res A) (k : A -> res B) :
  not_stuck m -> (forall a, m = Ok a -> not_stuck (k a)) ->
  not_stuck (res_bind m k).
Proof.
  intros Hm Hk w. destruct m as [a|e|w']; simpl.
  - apply (Hk a eq_refl).
  - discriminate.
  - exfalso. exact (Hm w' eq_refl).
Qed.

Lemma res_bind_ok {A B} (m : res A) (k : A -> res B) b :
  res_bind m k = Ok b -> exists a, m = Ok a /\ k a = Ok b.
Proof. destruct m; simpl; intros H; try discriminate. eauto. Qed.

(** [errno] values (Linux, <asm-generic/errno.h>). *)
Definition EPERM := 1.
Definition ENOENT := 2.
Definition EIO := 5.
Definition E2BIG := 7.
Definition EBADF := 9.
Definition ENOMEM := 12.
Definition EACCES := 13.
Definition EFAULT := 14.
Definition ENOTDIR := 20.
Definition EEXIST := 17.
Definition EINVAL := 22.
Definition ENOSPC := 28.
Definition EROFS := 30.
Definition ERANGE := 34.
Definition ENAMETOOLONG := 36.
Definition ELOOP := 40.
Definition ENOTSOCK := 88.
Definition EAFNOSUPPORT := 97.

(** ** Bytes and C strings

    A byte is a [Z] in [0, 256); a C string is the list of its bytes without
    the terminator, so that [length] is [strlen]. *)

Abbreviation cstr := (list Z).

Fixpoint bs (s : string) : cstr :=
  match s with
  | EmptyString => []
  | String a s' => Z.of_N (Ascii.N_of_ascii a) :: bs s'
  end.

Arguments bs _ : simpl never.

(** [s[i]] of a C string: the terminator at [strlen s]. *)
Definition chr (s : cstr) (i : nat) : Z := nth i s 0.

Definition str_eqb (a b : cstr) : bool := bool_decide (a = b).

Lemma str_eqb_eq a b : str_eqb a b = true <-> a = b.
Proof. unfold str_eqb. apply bool_decide_eq_true. Qed.

Lemma str_eqb_neq a b : str_eqb a b = false <-> a <> b.
Proof. unfold str_eqb. apply bool_decide_eq_false. Qed.

Lemma str_eqb_refl a : str_eqb a a = true.
Proof. by apply str_eqb_eq. Qed.

Definition SLASH := 47.
Definition DOT := 46.

(** ** Machine words *)

Definition word_bits := 64.
Definition wrap (w z : Z) : Z := z mod 2 ^ w.
Definition wrap64 (z : Z) : Z := wrap 64 z.
Definition wrap32 (z : Z) : Z := wrap 32 z.
(** The conversion of an unsigned value to a signed [w]-bit integer. *)
Definition sgn (w z : Z) : Z :=
  let u := z mod 2 ^ w in if u <? 2 ^ (w - 1) then u else u - 2 ^ w.

Definition zlen {A} (l : list A) : Z := Z.of_nat (length l).

Lemma wrap_small w z : 0 <= z < 2 ^ w -> wrap w z = z.
Proof. apply Z.mod_small. Qed.

Lemma zlen_nonneg {A} (l : list A) : 0 <= zlen l.
Proof. unfold zlen. lia. Qed.

Lemma zlen_app {A} (l k : list A) : zlen (l ++ k) = zlen l + zlen k.
Proof. unfold zlen. rewrite length_app. lia. Qed.

Lemma zlen_cons {A} (x : A) (l : list A) : zlen (x :: l) = 1 + zlen l.
Proof. unfold zlen. simpl. lia. Qed.

Lemma zlen_nil {A} : zlen (@nil A) = 0.
Proof. done. Qed.

(** ** Automation *)

Create HintDb proot.
Create Rewrite HintDb zlen.
#[export] Hint Resolve zlen_nonneg str_eqb_refl : proot.
#[export] Hint Rewrite @zlen_app @zlen_cons @zlen_nil : zlen.

Ltac zlen := autorewrite with zlen in *; pose proof @zlen_nonneg; try lia.

(** Split on the boolean tests of the goal and turn them into facts. *)
Ltac case_bool :=
  match goal with
  | |- context [if ?b then _ else _] =>
      let H := fresh "Hb" in destruct b eqn:H
  end.

Ltac case_bool_in H :=
  match type of H with
  | context [if ?b then _ else _] =>
      let E := fresh "Hb" in destruct b eqn:E
  end.

Ltac bool_facts :=
  repeat match goal with
  | H : (_ && _) = true |- _ => apply andb_true_iff in H as [? ?]
  | H : (_ || _) = false |- _ => apply orb_false_iff in H as [? ?]
  | H : negb _ = true |- _ => apply negb_true_iff in H
  | H : negb _ = false |- _ => apply negb_false_iff in H
  | H : str_eqb _ _ = true |- _ => apply str_eqb_eq in H
  | H : str_eqb _ _ = false |- _ => apply str_eqb_neq in H
  | H : (_ <=? _) = true |- _ => apply Z.leb_le in H
  | H : (_ <=? _) = false |- _ => apply Z.leb_gt in H
  | H : (_ <? _) = true |- _ => apply Z.ltb_lt in H
  | H : (_ <? _) = false |- _ => apply Z.ltb_ge in H
  | H : (_ =? _) = true |- _ => apply Z.eqb_eq in H
  | H : (_ =? _) = false |- _ => apply Z.eqb_neq in H
  end.

Ltac res_inv :=
  repeat match goal with
  | H : res_bind _ _ = Ok _ |- _ => apply res_bind_ok in H as (? & ? & H)
  | H : Ok _ = Ok _ |- _ => injection H as H
  | H : Ok _ = Err _ |- _ => discriminate H
  | H : Err _ = Ok _ |- _ => discriminate H
  | H : Stuck _ = Ok _ |- _ => discriminate H
  end.

(** ** Lists: the pieces of a C string delimited by a character *)

(** [span f l]: the longest prefix of [l] that satisfies [f] and the rest. *)
Fixpoint span {A} (f : A -> bool) (l : list A) : list A * list A :=
  match l with
  | [] => ([], [])
  | x :: l' => if f x then let '(a, b) := span f l' in (x :: a, b) else ([], l)
  end.

Lemma span_app {A} (f : A -> bool) l a b : span f l = (a, b) -> l = a ++ b.
Proof.
  revert a b. induction l as [|x l IH]; simpl; intros a b H.
  - by simplify_eq.
  - destruct (f x); [|by simplify_eq].
    destruct (span f l) as [a' b'] eqn:E. simplify_eq/=. f_equal. by apply IH.
Qed.

Lemma span_all {A} (f : A -> bool) a x b :
  Forall (fun y => f y = true) a -> f x = false -> span f (a ++ x :: b) = (a, x :: b).
Proof.
  induction 1 as [|y a Hy Ha IH]; intros Hx; simpl.
  - by rewrite Hx.
  - by rewrite Hy, (IH Hx).
Qed.

Lemma span_all_nil {A} (f : A -> bool) a :
  Forall (fun y => f y = true) a -> span f a = (a, []).
Proof. induction 1 as [|y a Hy Ha IH]; simpl; [done|]. by rewrite Hy, IH. Qed.

Lemma span_fst {A} (f : A -> bool) l a b :
  span f l = (a, b) -> Forall (fun y => f y = true) a.
Proof.
  revert a b. induction l as [|x l IH]; simpl; intros a b H.
  - by simplify_eq.
  - destruct (f x) eqn:Ef; [|by simplify_eq].
    destruct (span f l) as [a' b'] eqn:E. simplify_eq/=.
    constructor; [done|]. by eapply IH.
Qed.

Lemma span_snd {A} (f : A -> bool) l a b x :
  span f l = (a, x :: b) -> f x = false.
Proof.
  revert a b. induction l as [|y l IH]; simpl; intros a b H.
  - by simplify_eq.
  - destruct (f y) eqn:Ef; [|by simplify_eq].
    destruct (span f l) as [a' b'] eqn:E. simplify_eq/=. by eapply IH.
Qed.

Lemma span_length {A} (f : A -> bool) l a b :
  span f l = (a, b) -> (length b <= length l)%nat.
Proof. intros ->%span_app. rewrite length_app. lia. Qed.

Lemma list_filter_id {A} (P : A -> Prop) {HD : forall x, Decision (P x)} (l : list A) :
  (forall x, x ∈ l -> P x) -> filter P l = l.
Proof.
  induction l as [|x l IH]; intros Hall; [done|].
  rewrite filter_cons_True by (apply Hall; apply list_elem_of_here).
  f_equal. apply IH. intros y Hy. apply Hall. by apply list_elem_of_further.
Qed.
