(* ===== verification/Memory.v ===== *)
(** * The memory of tracees (the interface of src/tracee/mem.c)

    PRoot reads and writes the memory of a tracee with process_vm_readv(2),
    process_vm_writev(2) or ptrace(2).  The components that do so are written
    against this interface; tracees are named by their index. *)

From S2P Require Import Prelude.

Class TraceeMemory (Mem : Type) := {
  read_data : Mem -> nat -> Z -> Z -> list Z + Z;
  write_data : Mem -> nat -> Z -> list Z -> Mem * option Z
}.

(** read_data() fills its buffer, and a failure is a negated errno. *)
Class TraceeMemoryLaws (Mem : Type) (TM : TraceeMemory Mem) : Prop := {
  read_data_length m i a n bytes : read_data m i a n = inl bytes -> 0 <= n -> zlen bytes = n;
  write_data_errno m i a bytes m' e : write_data m i a bytes = (m', Some e) -> 0 < e
}.

(** read_string(): the bytes before the terminator, or errno.  The C function
    returns their number plus one; without a terminator in the first [n] bytes it
    gives these [n] bytes. *)
Class TraceeStrings (Mem : Type) := { read_string : Mem -> nat -> Z -> Z -> cstr + Z }.

(** The memory of a tracee has some bytes at an address. *)
Class MemoryContents (Mem : Type) := { holds_at : Mem -> nat -> Z -> list Z -> Prop }.

(** What is written is there, until something else is written at the same place;
    what is read was there. *)
Class MemoryContentsLaws (Mem : Type) (TM : TraceeMemory Mem) (TS : TraceeStrings Mem) (MC : MemoryContents Mem) : Prop := {
  written m i a bytes m' : write_data m i a bytes = (m', None) -> holds_at m' i a bytes;
  kept m i a bytes m' e b l : write_data m i a bytes = (m', e) -> holds_at m i b l ->
    b + zlen l <= a \/ a + zlen bytes <= b -> holds_at m' i b l;
  read_string_held m i a n s s' : holds_at m i a (s ++ [0]) -> Forall (fun b => b <> 0) s -> zlen s < n ->
    read_string m i a n = inl s' -> s' = s;
  read_string_content m i a n s : read_string m i a n = inl s -> 0 <= n -> Forall (fun b => b <> 0) s /\ zlen s <= n
}.

(** What a memory has is one list of bytes, and what is read is what it has. *)
Class MemoryReadsLaws (Mem : Type) (TM : TraceeMemory Mem) (MC : MemoryContents Mem) : Prop := {
  holds_app m i a l k : holds_at m i a (l ++ k) <-> holds_at m i a l /\ holds_at m i (a + zlen l) k;
  holds_unique m i a l k : holds_at m i a l -> holds_at m i a k -> zlen l = zlen k -> l = k;
  read_holds m i a n l : read_data m i a n = inl l -> 0 <= n -> zlen l = n /\ holds_at m i a l
}.

(** ** Bytes of machine words *)

(** The little-endian value of bytes. *)
Fixpoint of_le (bytes : list Z) : Z :=
  match bytes with [] => 0 | b :: bytes => b + 256 * of_le bytes end.

(** The big-endian one, as in the headers of the network. *)
Definition of_be (bytes : list Z) : Z := fold_left (fun n b => 256 * n + b) bytes 0.

(** [n] bytes of a word, the lowest one first. *)
Fixpoint to_le (n : nat) (v : Z) : list Z :=
  match n with O => [] | S n => v mod 256 :: to_le n (v / 256) end.

(** The bytes [i] to [i + n] of a buffer. *)
Definition slice (i n : nat) (l : list Z) : list Z := take n (drop i l).

Definition is_byte (b : Z) : Prop := 0 <= b < 256.

Lemma of_le_to_le n : forall v, 0 <= v < 256 ^ Z.of_nat n -> of_le (to_le n v) = v.
Proof.
  induction n as [|n IH]; intros v Hv; cbn [of_le to_le].
  { change (256 ^ Z.of_nat 0) with 1 in Hv. lia. }
  rewrite Nat2Z.inj_succ, Z.pow_succ_r in Hv by lia. rewrite IH.
  - pose proof (Z.div_mod v 256). lia.
  - split; [apply Z.div_pos; lia|apply Z.div_lt_upper_bound; lia].
Qed.

Lemma length_to_le n : forall v, length (to_le n v) = n.
Proof. induction n as [|n IH]; intros v; cbn; [done|]. by rewrite IH. Qed.

Lemma to_le_bytes n : forall v, Forall is_byte (to_le n v).
Proof.
  induction n as [|n IH]; intros v; cbn; [done|]. constructor; [|apply IH].
  unfold is_byte. pose proof (Z.mod_pos_bound v 256). lia.
Qed.

Lemma of_le_range l : Forall is_byte l -> 0 <= of_le l < 256 ^ Z.of_nat (length l).
Proof.
  induction 1 as [|b l Hb _ IH]; cbn [of_le length]; [done|]. unfold is_byte in Hb.
  rewrite Nat2Z.inj_succ, Z.pow_succ_r by lia. lia.
Qed.

Lemma to_le_of_le l : Forall is_byte l -> to_le (length l) (of_le l) = l.
Proof.
  induction 1 as [|b l Hb _ IH]; cbn [of_le to_le length]; [done|]. unfold is_byte in Hb.
  rewrite (Z.mul_comm 256), Z.mod_add, Z.div_add, Z.mod_small, (Z.div_small b) by lia.
  by rewrite Z.add_0_l, IH.
Qed.

Lemma of_be_app l k : of_be (l ++ k) = of_be l * 256 ^ Z.of_nat (length k) + of_be k.
Proof.
  unfold of_be. rewrite fold_left_app. generalize (fold_left (fun n b => 256 * n + b) l 0). intros a.
  revert a. induction k as [|b k IH] using rev_ind; intros a; cbn [fold_left length]; [lia|].
  rewrite !fold_left_app, length_app, Nat2Z.inj_add, Z.pow_add_r, IH by lia.
  cbn [fold_left]. change (256 ^ Z.of_nat (length [b])) with 256. lia.
Qed.

Lemma of_be_range l : Forall is_byte l -> 0 <= of_be l < 256 ^ Z.of_nat (length l).
Proof.
  induction l as [|b l IH] using rev_ind; [done|]. intros [Hl Hb]%Forall_app.
  apply Forall_cons in Hb as [Hb _]. unfold is_byte in Hb. specialize (IH Hl).
  rewrite of_be_app, length_app, Nat2Z.inj_add, Z.pow_add_r by lia.
  change (of_be [b]) with b. change (256 ^ Z.of_nat (length [b])) with 256. lia.
Qed.

Lemma length_slice i n (l : list Z) : (i + n <= length l)%nat -> length (slice i n l) = n.
Proof. intros H. unfold slice. rewrite length_take, length_drop. lia. Qed.

Lemma slice_app_l i n (l k : list Z) : (i + n <= length l)%nat -> slice i n (l ++ k) = slice i n l.
Proof. intros H. unfold slice. rewrite drop_app_le by lia. rewrite take_app_le; [done|]. rewrite length_drop. lia. Qed.

Lemma slice_app_r i n (l k : list Z) : (length l <= i)%nat -> slice i n (l ++ k) = slice (i - length l) n k.
Proof. intros H. unfold slice. by rewrite drop_app_ge by lia. Qed.

Lemma slice_all n (l : list Z) : length l = n -> slice 0 n l = l.
Proof. intros <-. unfold slice. by rewrite drop_0, firstn_all. Qed.

Lemma is_byte_forallb l : forallb (fun b => (0 <=? b) && (b <? 256)) l = true -> Forall is_byte l.
Proof.
  induction l as [|b l IH]; intros H; [constructor|]. cbn in H. bool_facts. constructor; [unfold is_byte; lia|by apply IH].
Qed.

(** ** A memory to compute with *)

(** What was written, the last one first. *)
Definition DemoMemory : Type := list (nat * Z * list Z).

Fixpoint demo_read (m : DemoMemory) (i : nat) (a n : Z) : list Z + Z :=
  match m with
  | [] => inr EFAULT
  | (j, b, bytes) :: m =>
      if (i =? j)%nat && (a =? b) then inl (resize (Z.to_nat n) 0 bytes) else demo_read m i a n
  end.

#[export] Instance demo_memory : TraceeMemory DemoMemory := {
  read_data := demo_read;
  write_data m i a bytes := ((i, a, bytes) :: m, None)
}.

#[export] Instance demo_memory_laws : TraceeMemoryLaws DemoMemory demo_memory.
Proof.
  split; [|done]. intros m i a n bytes H Hn. cbn in H. induction m as [|[[j b] x] m IH]; cbn in H; [done|].
  case_bool_in H; [|by apply IH]. injection H as <-. unfold zlen. rewrite length_resize. lia.
Qed.

(** The bytes of a string, at most [n]. *)
Fixpoint until_nul (n : nat) (l : list Z) : cstr :=
  match n, l with
  | S n, b :: l => if b =? 0 then [] else b :: until_nul n l
  | _, _ => []
  end.

#[export] Instance demo_strings : TraceeStrings DemoMemory := {
  read_string m i a n :=
    match List.find (fun '(j, b, _) => (i =? j)%nat && (a =? b)) m with
    | Some (_, bytes) => inl (until_nul (Z.to_nat n) bytes)
    | None => inr EFAULT
    end
}.
