(* ===== verification/Paths.v ===== *)
(** * Lexical path operations (src/path/path.c, src/path/canon.c)

    Joining, normalising, comparing and rewriting paths: pure string
    functions.  The specification side works on lists of path components:
    [render] prints a component list as an absolute canonical path. *)

From S2P Require Import Prelude.

Definition PATH_MAX := 4096.
Definition NAME_MAX := 255.

(** Path ending type. *)
Inductive Finality := NOT_FINAL | FINAL_NORMAL | FINAL_SLASH | FINAL_DOT.

Definition IS_FINAL (a : Finality) : bool :=
  match a with NOT_FINAL => false | _ => true end.

(** Comparison between two paths. *)
Inductive Comparison :=
  | PATHS_ARE_EQUAL
  | PATH1_IS_PREFIX
  | PATH2_IS_PREFIX
  | PATHS_ARE_NOT_COMPARABLE.

#[export] Instance Comparison_eq_dec : EqDecision Comparison.
Proof. solve_decision. Defined.
#[export] Instance Finality_eq_dec : EqDecision Finality.
Proof. solve_decision. Defined.

Definition is_slash (c : Z) : bool := c =? SLASH.

(** [path[0] == '/'] *)
Definition absolute (path : cstr) : bool := is_slash (chr path 0).

(** ** Operations *)

(** join_paths(): [result] is the output buffer, [paths] the remaining
    variadic arguments, [None] a NULL pointer. *)
Fixpoint join_loop (result : cstr) (paths : list (option cstr)) : res cstr :=
  match paths with
  | [] => Ok result
  | None :: paths => join_loop result paths
  | Some path :: paths =>
      let length := zlen result in
      let path_length := zlen path in
      let last_is_slash := is_slash (chr result (List.length result - 1)) in
      if (0 <? length) && negb last_is_slash && negb (absolute path) then
        let new_length := length + path_length + 1 in
        if PATH_MAX <=? new_length + 1 then Err ENAMETOOLONG
        else join_loop (result ++ [SLASH] ++ path) paths
      else if (0 <? length) && last_is_slash && absolute path then
        let new_length := length + path_length - 1 in
        if PATH_MAX <=? new_length + 1 then Err ENAMETOOLONG
        else join_loop (result ++ tail path) paths
      else
        let new_length := length + path_length in
        if PATH_MAX <=? new_length + 1 then Err ENAMETOOLONG
        else join_loop (result ++ path) paths
  end.

Definition join_paths (paths : list (option cstr)) : res cstr := join_loop [] paths.

Definition join2 (a b : cstr) : res cstr := join_paths [Some a; Some b].

(** The [".."] case of normalize_guest_path(): [out] is moved back over the
    last character, then to just after the previous separator. *)
Fixpoint drop_component (rev_out : cstr) : cstr :=
  match rev_out with
  | c :: rev_out' => if is_slash c then rev_out else drop_component rev_out'
  | [] => []
  end.

Definition out_up (out : cstr) : cstr :=
  if 1 <? zlen out then rev (drop_component (tail (rev out))) else out.

Fixpoint normalize_loop (fuel : nat) (cursor out : cstr) : res cstr :=
  match fuel with
  | O => Stuck NoFuel
  | S fuel =>
      match cursor with
      | [] => Ok out
      | _ =>
          let '(_, cursor) := span is_slash cursor in
          let '(component, rest) := span (fun c => negb (is_slash c)) cursor in
          if bool_decide (component = []) then Ok out
          else if NAME_MAX <=? zlen component then Err ENAMETOOLONG
          else if str_eqb component (bs ".") then normalize_loop fuel rest out
          else if str_eqb component (bs "..") then
            normalize_loop fuel rest (out_up out)
          else
            let used := zlen out in
            let out' := if (1 <? used) && negb (is_slash (chr out (length out - 1)))
                        then out ++ [SLASH] else out in
            if PATH_MAX <? used + zlen component + 2 then Err ENAMETOOLONG
            else normalize_loop fuel rest (out' ++ component)
      end
  end.

Definition normalize_guest_path (path : cstr) : res cstr :=
  if negb (absolute path) then Err EINVAL
  else
    let! out := normalize_loop (S (length path)) path [SLASH] in
    Ok (if (1 <? zlen out) && is_slash (chr out (length out - 1))
        then take (length out - 1) out else out).

(** The two backward scans of pop_component(). *)
Fixpoint scan_back (stop_at_slash : bool) (path : cstr) (offset : nat) : nat :=
  match offset with
  | S o =>
      if (1 <? offset)%nat && xorb stop_at_slash (is_slash (chr path offset))
      then scan_back stop_at_slash path o else offset
  | O => O
  end.

Definition pop_component (path : cstr) : res cstr :=
  match length path with
  | O => Stuck AssertFailed
  | S O => if is_slash (chr path 0) then Ok path else Stuck AssertFailed
  | S offset =>
      let offset := scan_back false path offset in
      let offset := scan_back true path offset in
      if is_slash (chr path 0) then Ok (take offset path)
      else Stuck AssertFailed
  end.

(** next_component(): the component, the updated cursor and the finality. *)
Definition next_component (cursor : cstr) : res (cstr * cstr * Finality) :=
  let '(_, cursor) := span is_slash cursor in
  let '(component, cursor) := span (fun c => negb (is_slash c)) cursor in
  if NAME_MAX <=? zlen component then Err ENAMETOOLONG
  else
    let want_dir := absolute cursor in
    let '(_, cursor) := span is_slash cursor in
    Ok (component, cursor,
        match cursor with
        | [] => if want_dir then FINAL_SLASH else FINAL_NORMAL
        | _ => NOT_FINAL
        end).

(** Remove the trailing "/" or "/.". *)
Definition chop_finality (path : cstr) : res cstr :=
  match length path with
  | O => Stuck OutOfBounds
  | S n =>
      if chr path n =? DOT then
        match n with
        | O => Stuck AssertFailed
        | S O => Ok (take 1 path)
        | _ => Ok (take (n - 1) path)
        end
      else if is_slash (chr path n) then
        Ok (if (0 <? n)%nat then take n path else path)
      else Ok path
  end.

Definition strip_trailing (path : cstr) (length : nat) : nat :=
  if is_slash (chr path (length - 1)) then (length - 1)%nat else length.

Definition compare_paths2 (path1 : cstr) (length1 : nat) (path2 : cstr) (length2 : nat)
  : res Comparison :=
  if ((length1 =? 0) || (length2 =? 0))%nat then Stuck AssertFailed
  else
    let length1 := strip_trailing path1 length1 in
    let length2 := strip_trailing path2 length2 in
    let '(length_min, sentinel) :=
      if (length1 <? length2)%nat then (length1, chr path2 length1)
      else (length2, chr path1 length2) in
    if negb (is_slash sentinel) && negb (sentinel =? 0) then Ok PATHS_ARE_NOT_COMPARABLE
    else if negb (str_eqb (take length_min path1) (take length_min path2))
    then Ok PATHS_ARE_NOT_COMPARABLE
    else if (length1 =? length2)%nat then Ok PATHS_ARE_EQUAL
    else if (length1 <? length2)%nat then Ok PATH1_IS_PREFIX
    else Ok PATH2_IS_PREFIX.

Definition compare_paths (path1 path2 : cstr) : res Comparison :=
  compare_paths2 path1 (length path1) path2 (length path2).

(** substitute_path_prefix(): the updated path.  [Err ENAMETOOLONG] leaves
    the path unchanged. *)
Definition substitute_path_prefix (path : cstr) (old_prefix_length : nat)
    (new_prefix : cstr) (new_prefix_length : nat) : res cstr :=
  let path_length := length path in
  if negb ((Z.of_nat old_prefix_length <? PATH_MAX)
           && (Z.of_nat new_prefix_length <? PATH_MAX)) then Stuck AssertFailed
  else if (new_prefix_length =? 1)%nat then
    if (path_length <? old_prefix_length)%nat then Stuck OutOfBounds
    else if (path_length - old_prefix_length =? 0)%nat then Ok [SLASH]
    else if PATH_MAX <=? Z.of_nat (path_length - old_prefix_length) then Stuck AssertFailed
    else Ok (drop old_prefix_length path)
  else if (old_prefix_length =? 1)%nat then
    let new_length := (new_prefix_length + path_length)%nat in
    if PATH_MAX <=? Z.of_nat new_length then Err ENAMETOOLONG
    else if (1 <? path_length)%nat then Ok (take new_prefix_length new_prefix ++ path)
    else Ok (take new_prefix_length new_prefix)
  else
    if (path_length + new_prefix_length <? old_prefix_length)%nat then Err ENAMETOOLONG
    else if (path_length <? old_prefix_length)%nat then Stuck OutOfBounds
    else
      let new_length := (path_length - old_prefix_length + new_prefix_length)%nat in
      if PATH_MAX <=? Z.of_nat new_length then Err ENAMETOOLONG
      else Ok (take new_prefix_length new_prefix ++ drop old_prefix_length path).

(** ** Component lists: the specification side *)

(** A component: non-empty and without separator; [comp_ok] also excludes "."
    and "..". *)
Definition plain (c : cstr) : Prop := c <> [] /\ Forall (fun b => is_slash b = false) c.
Definition nul_free (s : cstr) : Prop := Forall (fun b => b <> 0) s.
(** A file name: a proper component that is a C string. *)
Definition name_ok (c : cstr) : Prop := plain c /\ nul_free c.
Definition comp_ok (c : cstr) : Prop := name_ok c /\ c <> bs "." /\ c <> bs "..".

Definition joined (cs : list cstr) : cstr := concat (map (cons SLASH) cs).
Definition render (cs : list cstr) : cstr :=
  match cs with [] => [SLASH] | _ => joined cs end.

Definition canonical (p : cstr) : Prop := exists cs, Forall comp_ok cs /\ p = render cs.

(** The components of a path, "." and ".." included. *)
Fixpoint split_acc (path cur : cstr) : list cstr :=
  match path with
  | [] => if bool_decide (cur = []) then [] else [cur]
  | c :: path =>
      if is_slash c then
        if bool_decide (cur = []) then split_acc path [] else cur :: split_acc path []
      else split_acc path (cur ++ [c])
  end.
Definition components (path : cstr) : list cstr := split_acc path [].

(** The stack machine that ".." and "." mean. *)
Definition resolve_step (stack : list cstr) (c : cstr) : list cstr :=
  if str_eqb c (bs ".") then stack
  else if str_eqb c (bs "..") then removelast stack
  else stack ++ [c].
Definition resolve (cs : list cstr) : list cstr := fold_left resolve_step cs [].

(** ** Lemmas on component lists *)

Definition not_slash (c : Z) : bool := negb (is_slash c).

Lemma plain_not_slash c : plain c -> Forall (fun b => not_slash b = true) c.
Proof.
  intros [_ H]. eapply Forall_impl; [exact H|]. intros b Hb. unfold not_slash. by rewrite Hb.
Qed.

Lemma not_slash_plain c : c <> [] -> Forall (fun b => not_slash b = true) c -> plain c.
Proof.
  intros Hc H. split; [done|]. eapply Forall_impl; [exact H|].
  intros b Hb. unfold not_slash in Hb. by apply negb_true_iff.
Qed.

Lemma comp_ok_name cs : Forall comp_ok cs -> Forall name_ok cs.
Proof. intros H. eapply Forall_impl; [exact H|]. by intros c [? _]. Qed.
Lemma name_ok_plain cs : Forall name_ok cs -> Forall plain cs.
Proof. intros H. eapply Forall_impl; [exact H|]. by intros c [? _]. Qed.
Lemma comp_ok_plain cs : Forall comp_ok cs -> Forall plain cs.
Proof. intros H. by apply name_ok_plain, comp_ok_name. Qed.
#[export] Hint Resolve plain_not_slash comp_ok_plain comp_ok_name name_ok_plain : proot.

(** A suffix of a path that starts at a component boundary. *)
Definition boundary (x : cstr) : Prop := x = [] \/ exists y, x = SLASH :: y.

Lemma boundary_nil : boundary [].
Proof. by left. Qed.
Lemma boundary_slash y : boundary (SLASH :: y).
Proof. right. by exists y. Qed.
#[export] Hint Resolve boundary_nil boundary_slash : proot.

Lemma span_component c x :
  plain c -> boundary x -> span not_slash (c ++ x) = (c, x).
Proof.
  intros Hc [-> | [y ->]].
  - rewrite app_nil_r. apply span_all_nil. by apply plain_not_slash.
  - apply span_all; [by apply plain_not_slash | done].
Qed.

Lemma span_boundary p c x : span not_slash p = (c, x) -> boundary x.
Proof.
  intros H. destruct x as [|b x]; [apply boundary_nil|].
  apply span_snd in H. unfold not_slash, is_slash in H. bool_facts. subst. apply boundary_slash.
Qed.

Lemma joined_app a b : joined (a ++ b) = joined a ++ joined b.
Proof. unfold joined. by rewrite map_app, concat_app. Qed.

Lemma joined_cons c cs : joined (c :: cs) = SLASH :: c ++ joined cs.
Proof. done. Qed.

Lemma joined_snoc cs c : joined (cs ++ [c]) = joined cs ++ SLASH :: c.
Proof. rewrite joined_app, joined_cons. simpl. by rewrite app_nil_r. Qed.

Lemma joined_boundary cs : boundary (joined cs).
Proof. destruct cs; [apply boundary_nil | apply boundary_slash]. Qed.
#[export] Hint Resolve joined_boundary : proot.

Lemma render_joined cs : cs <> [] -> render cs = joined cs.
Proof. by destruct cs. Qed.

Lemma render_snoc cs c : render (cs ++ [c]) = joined cs ++ SLASH :: c.
Proof. rewrite render_joined, joined_snoc; [done|]. by destruct cs. Qed.

Lemma joined_nil_inv cs : joined cs = [] -> cs = [].
Proof. by destruct cs. Qed.

Lemma chr_app_l a b i : (i < length a)%nat -> chr (a ++ b) i = chr a i.
Proof. intros H. unfold chr. by rewrite app_nth1. Qed.

Lemma chr_app_r a b i : (length a <= i)%nat -> chr (a ++ b) i = chr b (i - length a).
Proof. intros H. unfold chr. by rewrite app_nth2. Qed.

Lemma chr_end a i : (length a <= i)%nat -> chr a i = 0.
Proof. apply nth_overflow. Qed.

Lemma plain_last c : plain c -> is_slash (chr c (length c - 1)) = false.
Proof.
  intros [Hne Hc]. rewrite List.Forall_forall in Hc. apply Hc.
  apply nth_In. destruct c; simpl; [done|lia].
Qed.

(** The last character of a canonical path other than the root. *)
Lemma joined_last cs :
  cs <> [] -> Forall plain cs -> is_slash (chr (joined cs) (length (joined cs) - 1)) = false.
Proof.
  intros Hne H. destruct cs as [|c cs _] using rev_ind; [done|].
  apply Forall_app in H as [_ Hc]. inversion Hc as [|? ? Hp _]; subst.
  rewrite joined_snoc, length_app, chr_app_r by (simpl; lia). simpl length.
  replace (length (joined cs) + S (length c) - 1 - length (joined cs))%nat
    with (S (length c - 1)).
  - change (chr (SLASH :: c) (S (length c - 1))) with (chr c (length c - 1)).
    by apply plain_last.
  - destruct Hp as [Hn _]. destruct c; simpl; [done|lia].
Qed.

Lemma absolute_render cs : absolute (render cs) = true.
Proof. by destruct cs. Qed.
#[export] Hint Resolve absolute_render : proot.

(** Two component lists whose renderings agree up to a boundary. *)
Lemma joined_prefix a b x :
  Forall plain a -> Forall plain b -> boundary x ->
  joined a ++ x = joined b -> exists b', b = a ++ b' /\ x = joined b'.
Proof.
  intros Ha. revert b. induction Ha as [|c a Hc Ha IH]; intros b Hb Hx E.
  - exists b. by split.
  - destruct b as [|d b]; [done|]. inversion Hb as [|? ? Hd Hb']; subst.
    rewrite !joined_cons in E. injection E as E. rewrite <- app_assoc in E.
    assert (Hs1 := span_component c (joined a ++ x) Hc).
    assert (Hs2 := span_component d (joined b) Hd (joined_boundary b)).
    rewrite <- E, Hs1 in Hs2.
    + injection Hs2 as -> E'. destruct (IH b Hb' Hx E') as (b' & -> & ->). by exists b'.
    + destruct a as [|e a]; [by apply Hx|]. rewrite joined_cons. apply boundary_slash.
Qed.

Lemma joined_inj a b : Forall plain a -> Forall plain b -> joined a = joined b -> a = b.
Proof.
  intros Ha Hb E. destruct (joined_prefix a b [] Ha Hb boundary_nil) as (b' & -> & E').
  - by rewrite app_nil_r.
  - symmetry in E'. apply joined_nil_inv in E' as ->. by rewrite app_nil_r.
Qed.

Lemma length_joined_pos cs : cs <> [] -> (0 < length (joined cs))%nat.
Proof. destruct cs; [done|]. rewrite joined_cons. simpl. lia. Qed.

Lemma joined_plain_length c cs : plain c -> (2 <= length (joined (cs ++ [c])))%nat.
Proof.
  intros [Hc _]. rewrite joined_snoc, length_app. destruct c; simpl in *; [done|lia].
Qed.

(** ** components() by spans *)

Lemma split_acc_span path cur :
  cur <> [] ->
  split_acc path cur =
    (let '(a, b) := span not_slash path in (cur ++ a) :: split_acc b []).
Proof.
  revert cur. induction path as [|c path IH]; simpl; intros cur Hc.
  - rewrite bool_decide_eq_false_2 by done. by rewrite app_nil_r.
  - unfold not_slash. destruct (is_slash c) eqn:Es; simpl.
    + rewrite Es, (bool_decide_eq_false_2 (cur = [])) by done. by rewrite app_nil_r.
    + rewrite IH by (by destruct cur). fold not_slash.
      destruct (span not_slash path). by rewrite <- app_assoc.
Qed.

Lemma components_slash p : components (SLASH :: p) = components p.
Proof. done. Qed.

Lemma components_skip p : components p = components (snd (span is_slash p)).
Proof.
  induction p as [|c p IH]; [done|]. simpl. destruct (is_slash c) eqn:Es; [|done].
  unfold is_slash in Es. bool_facts. subst. rewrite components_slash, IH.
  by destruct (span is_slash p).
Qed.

Lemma components_cons c x :
  plain c -> boundary x -> components (c ++ x) = c :: components x.
Proof.
  intros Hc Hx. assert (Hs := span_component c x Hc Hx).
  destruct c as [|b c]; [by destruct Hc|]. unfold components. simpl.
  destruct Hc as [_ Hc]. inversion Hc as [|? ? Hb Hc']; subst. rewrite Hb. simpl.
  rewrite split_acc_span by done. simpl in Hs. unfold not_slash at 1 in Hs. rewrite Hb in Hs.
  simpl in Hs. destruct (span not_slash (c ++ x)). by simplify_eq.
Qed.

Lemma components_joined cs : Forall plain cs -> components (joined cs) = cs.
Proof.
  induction 1 as [|c cs Hc Hcs IH]; [done|].
  rewrite joined_cons, components_slash, components_cons by auto with proot. by rewrite IH.
Qed.

Lemma components_render cs : Forall plain cs -> components (render cs) = cs.
Proof. intros H. destruct cs; [done|]. rewrite render_joined by done. by apply components_joined. Qed.

(** One step of every component loop of the code: skip the separators, take
    the component, leave the rest at a boundary. *)
Lemma component_step p :
  let cursor := snd (span is_slash p) in
  let '(c, rest) := span not_slash cursor in
  (c = [] /\ cursor = [] /\ components p = []) \/
  (plain c /\ boundary rest /\ components p = c :: components rest
   /\ cursor = c ++ rest).
Proof.
  simpl. destruct (span is_slash p) as [sl cursor] eqn:E1. simpl.
  destruct (span not_slash cursor) as [c rest] eqn:E2.
  assert (Hb := span_boundary _ _ _ E2). assert (Hc := span_fst _ _ _ _ E2).
  assert (Ha := span_app _ _ _ _ E2).
  rewrite components_skip, E1. simpl.
  destruct c as [|b c].
  - left. simpl in Ha. subst cursor. split; [done|].
    destruct Hb as [-> | [y ->]]; [done|]. apply span_snd in E1. done.
  - right. assert (plain (b :: c)) by (by apply not_slash_plain).
    subst cursor. rewrite components_cons by done. done.
Qed.

Lemma components_plain_len n p : (length p <= n)%nat -> Forall plain (components p).
Proof.
  revert p. induction n as [|n IH]; intros p Hn.
  - destruct p; simpl in Hn; [constructor | lia].
  - pose proof (component_step p) as Hs. cbv zeta in Hs.
    destruct (span is_slash p) as [sl cursor] eqn:E1. simpl in Hs.
    destruct (span not_slash cursor) as [c rest] eqn:E2.
    destruct Hs as [(-> & _ & ->) | (Hc & Hb & -> & ->)]; [constructor|].
    constructor; [done|]. apply IH.
    apply span_length in E1. rewrite length_app in E1. destruct Hc as [Hc _].
    destruct c; simpl in *; [done|lia].
Qed.

Lemma components_plain p : Forall plain (components p).
Proof. by apply components_plain_len with (length p). Qed.
#[export] Hint Resolve components_plain : proot.

Lemma components_in c p : In c (components p) -> incl c p.
Proof.
  assert (H : forall cur, In c (split_acc p cur) -> incl c (cur ++ p)).
  { induction p as [|b p IH]; intros cur Hin; simpl in Hin.
    - destruct (bool_decide (cur = [])); [done|]. destruct Hin as [-> | []].
      rewrite app_nil_r. apply incl_refl.
    - destruct (is_slash b).
      + assert (Hr : In c (split_acc p []) -> incl c (cur ++ b :: p)).
        { intros H. apply IH in H. simpl in H. intros x Hx. apply in_app_iff. right. right. auto. }
        destruct (bool_decide (cur = [])); [auto|]. destruct Hin as [-> | Hin]; [|auto].
        intros x Hx. apply in_app_iff. by left.
      + apply IH in Hin. by rewrite <- app_assoc in Hin. }
  intros Hin. by apply (H []).
Qed.

Lemma components_name p : nul_free p -> Forall name_ok (components p).
Proof.
  intros Hp. apply List.Forall_forall. intros c Hc. split.
  - pose proof (components_plain p) as H. rewrite List.Forall_forall in H. auto.
  - apply components_in in Hc. unfold nul_free in *. rewrite List.Forall_forall in *. auto.
Qed.
#[export] Hint Resolve components_name : proot.

(** ** normalize_guest_path() *)

(** What the output buffer of normalize_guest_path() holds for a stack. *)
Definition out_rep (out : cstr) (st : list cstr) : Prop :=
  out = render st \/ (st <> [] /\ out = joined st ++ [SLASH]).

Lemma rev_drop_component c pre :
  Forall (fun b => is_slash b = false) c ->
  drop_component (rev c ++ SLASH :: pre) = SLASH :: pre.
Proof.
  intros H. apply Forall_rev in H.
  induction H as [|b c' Hb H IH]; simpl; [done|]. by rewrite Hb.
Qed.

Lemma joined_snoc_slash_rep cs :
  out_rep (joined cs ++ [SLASH]) cs.
Proof. destruct cs; [by left | right; done]. Qed.

Lemma zlen_joined_snoc cs c : zlen (joined (cs ++ [c])) = zlen (joined cs) + 1 + zlen c.
Proof. rewrite joined_snoc. zlen. Qed.

Lemma plain_len c : plain c -> 1 <= zlen c.
Proof. intros [H _]. destruct c; [done|]. zlen. specialize (zlen_nonneg c). lia. Qed.

Lemma out_up_rep out st :
  Forall plain st -> out_rep out st ->
  out_rep (out_up out) (removelast st) /\ zlen (out_up out) <= zlen out.
Proof.
  intros Hst Hrep. unfold out_up.
  destruct st as [|c st _] using rev_ind.
  { destruct Hrep as [-> | [[] _]]; [|done]. simpl. by split; [left|]. }
  rewrite removelast_last. apply Forall_app in Hst as [_ Hc].
  inversion Hc as [|? ? Hp _]; subst. pose proof (plain_len c Hp) as Hlen.
  assert (Hr : rev (joined st ++ [SLASH]) = SLASH :: rev (joined st)) by by rewrite rev_app_distr.
  destruct Hrep as [-> | [_ ->]].
  - rewrite render_snoc. destruct Hp as [Hne Hp].
    assert (Hb : (1 <? zlen (joined st ++ SLASH :: c)) = true).
    { apply Z.ltb_lt. autorewrite with zlen. pose proof (zlen_nonneg (joined st)). lia. }
    rewrite Hb. rewrite rev_app_distr. simpl rev.
    destruct c as [|b c _] using rev_ind; [done|].
    apply Forall_app in Hp as [Hp _].
    rewrite rev_app_distr. simpl. rewrite <- app_assoc. simpl.
    rewrite rev_drop_component by done. simpl. rewrite rev_involutive.
    split; [apply joined_snoc_slash_rep|]. autorewrite with zlen.
    pose proof (zlen_nonneg c). lia.
  - assert (Hb : (1 <? zlen (joined (st ++ [c]) ++ [SLASH])) = true).
    { apply Z.ltb_lt. rewrite zlen_app, zlen_joined_snoc. autorewrite with zlen.
      pose proof (zlen_nonneg (joined st)). lia. }
    rewrite Hb. rewrite rev_app_distr. simpl. rewrite joined_snoc, rev_app_distr. simpl.
    rewrite <- app_assoc. simpl. destruct Hp as [_ Hp].
    rewrite rev_drop_component by done. simpl. rewrite rev_involutive.
    split; [apply joined_snoc_slash_rep|]. autorewrite with zlen.
    pose proof (zlen_nonneg c). lia.
Qed.

Lemma out_push_rep out st c :
  Forall plain st -> plain c -> out_rep out st ->
  let out' := if (1 <? zlen out) && negb (is_slash (chr out (length out - 1)))
              then out ++ [SLASH] else out in
  out' ++ c = render (st ++ [c]).
Proof.
  intros Hst Hc Hrep. cbv zeta. rewrite render_snoc.
  destruct Hrep as [-> | [Hne ->]].
  - destruct st as [|d st']; [done|]. rewrite render_joined by done.
    rewrite joined_last by done. rewrite andb_true_r.
    assert (Hb : (1 <? zlen (joined (d :: st'))) = true).
    { apply Z.ltb_lt. rewrite joined_cons. inversion Hst as [|? ? Hd _]; subst.
      apply plain_len in Hd. autorewrite with zlen. pose proof (zlen_nonneg (joined st')). lia. }
    rewrite Hb. by rewrite <- app_assoc.
  - rewrite chr_app_r by (rewrite length_app; simpl; lia).
    rewrite length_app. simpl length.
    replace (length (joined st) + 1 - 1 - length (joined st))%nat with O by lia.
    simpl. rewrite andb_false_r. by rewrite <- app_assoc.
Qed.

(** Room left in the output buffer while the input is consumed. *)
Definition room (cursor out : cstr) : Prop :=
  zlen out + zlen cursor <= PATH_MAX /\
  (out = [SLASH] \/ zlen out + zlen cursor <= PATH_MAX - 1).

Definition short (c : cstr) : bool := zlen c <? NAME_MAX.

Lemma normalize_loop_spec fuel cursor out st :
  (length cursor < fuel)%nat -> boundary cursor -> Forall plain st ->
  out_rep out st -> room cursor out ->
  if forallb short (components cursor)
  then exists out', normalize_loop fuel cursor out = Ok out'
         /\ out_rep out' (fold_left resolve_step (components cursor) st)
  else normalize_loop fuel cursor out = Err ENAMETOOLONG.
Proof.
  revert cursor out st. induction fuel as [|fuel IH]; intros cursor out st Hf Hb Hst Hrep Hroom;
    [lia|].
  destruct cursor as [|b0 cursor0]; [simpl; eauto|]. remember (b0 :: cursor0) as cursor eqn:Ecur.
  pose proof (component_step cursor) as Hs. cbv zeta in Hs.
  assert (Heq : normalize_loop (S fuel) cursor out =
    let '(_, cursor) := span is_slash cursor in
    let '(component, rest) := span not_slash cursor in
    if bool_decide (component = []) then Ok out
    else if NAME_MAX <=? zlen component then Err ENAMETOOLONG
    else if str_eqb component (bs ".") then normalize_loop fuel rest out
    else if str_eqb component (bs "..") then normalize_loop fuel rest (out_up out)
    else if PATH_MAX <? zlen out + zlen component + 2 then Err ENAMETOOLONG
    else normalize_loop fuel rest
      ((if (1 <? zlen out) && negb (is_slash (chr out (length out - 1)))
        then out ++ [SLASH] else out) ++ component)) by by subst cursor.
  rewrite Heq. clear Heq.
  assert (Hslash : 1 <= zlen cursor - zlen (snd (span is_slash cursor))).
  { destruct Hb as [-> | [y Hy]]; [by subst|]. rewrite Hy. simpl.
    destruct (span is_slash y) as [u v] eqn:E. simpl. apply span_length in E.
    autorewrite with zlen. unfold zlen. lia. }
  destruct (span is_slash cursor) as [sl cur] eqn:E1. simpl in Hs, Hslash.
  destruct (span not_slash cur) as [c rest] eqn:E2.
  destruct Hs as [(-> & _ & ->) | (Hc & Hb' & -> & ->)]; [simpl; eauto|].
  rewrite bool_decide_eq_false_2 by apply Hc. rewrite zlen_app in Hslash.
  pose proof (plain_len c Hc) as Hcl.
  assert (Hlt : (length rest < fuel)%nat).
  { subst cursor. unfold zlen in *. simpl in *. lia. }
  cbn [forallb]. unfold short at 1. rewrite Z.ltb_antisym.
  destruct (NAME_MAX <=? zlen c) eqn:En; [done|]. cbn [negb andb fold_left].
  apply Z.leb_gt in En. destruct Hroom as [Hr1 Hr2].
  unfold resolve_step at 2. destruct (str_eqb c (bs ".")) eqn:Ed.
  { apply IH; auto. split; [lia|]. destruct Hr2; [by left | right; lia]. }
  destruct (out_up_rep out st Hst Hrep) as [Hup Hupl].
  destruct (str_eqb c (bs "..")) eqn:Edd.
  { apply IH; auto.
    - apply List.Forall_forall. intros x Hx. rewrite List.Forall_forall in Hst. apply Hst.
      destruct st as [|y st' _] using rev_ind; [done|]. rewrite removelast_last in Hx.
      apply in_app_iff. by left.
    - split; [lia|]. destruct Hr2 as [-> | Hr2]; [by left | right; lia]. }
  assert (Hnov : (PATH_MAX <? zlen out + zlen c + 2) = false).
  { apply Z.ltb_ge. unfold NAME_MAX, PATH_MAX in *. destruct Hr2 as [-> | Hr2].
    - unfold zlen at 1. simpl. lia.
    - pose proof (zlen_nonneg rest). lia. }
  rewrite Hnov. pose proof (out_push_rep out st c Hst Hc Hrep) as Hpush. cbv zeta in Hpush.
  assert (Hgrow : zlen out + zlen c <= zlen (render (st ++ [c])) <= zlen out + 1 + zlen c).
  { rewrite <- Hpush. case_bool; autorewrite with zlen; lia. }
  rewrite Hpush. apply IH; auto.
  - apply Forall_app. split; [done | by constructor].
  - by left.
  - pose proof (zlen_nonneg rest). unfold room, PATH_MAX in *.
    destruct Hr2 as [-> | ?]; [|split; [lia | right; lia]].
    change (zlen [SLASH]) with 1 in *.
    assert (zlen (render (st ++ [c])) = 1 + zlen c)
      by (rewrite <- Hpush; simpl; autorewrite with zlen; reflexivity).
    split; [lia | right; lia].
Qed.

Lemma chop_slash_rep out st :
  Forall plain st -> out_rep out st ->
  (if (1 <? zlen out) && is_slash (chr out (length out - 1))
   then take (length out - 1) out else out) = render st.
Proof.
  intros Hst [-> | [Hne ->]].
  - destruct st as [|c st]; [done|]. rewrite render_joined, joined_last by done.
    by rewrite andb_false_r.
  - assert (Hb : (1 <? zlen (joined st ++ [SLASH])) = true).
    { apply Z.ltb_lt. pose proof (length_joined_pos st Hne). unfold zlen.
      rewrite length_app. simpl. lia. }
    rewrite Hb, chr_app_r by (rewrite length_app; simpl; lia).
    rewrite length_app. simpl length.
    replace (length (joined st) + 1 - 1 - length (joined st))%nat with O by lia. simpl.
    replace (length (joined st) + 1 - 1)%nat with (length (joined st)) by lia.
    rewrite take_app_length. by rewrite render_joined.
Qed.

Lemma resolve_plain cs st :
  Forall name_ok cs -> Forall comp_ok st -> Forall comp_ok (fold_left resolve_step cs st).
Proof.
  intros Hcs. revert st. induction Hcs as [|c cs Hc Hcs IH]; intros st Hst; [done|].
  simpl. apply IH. unfold resolve_step.
  destruct (str_eqb c (bs ".")) eqn:Ed; [done|]. destruct (str_eqb c (bs "..")) eqn:Edd.
  - destruct st as [|y st' _] using rev_ind; [done|]. rewrite removelast_last.
    by apply Forall_app in Hst as [? _].
  - apply Forall_app. split; [done|]. bool_facts. by repeat constructor; try apply Hc.
Qed.

Lemma resolve_comp_ok p : nul_free p -> Forall comp_ok (resolve (components p)).
Proof. intros H. apply resolve_plain; [by apply components_name | constructor]. Qed.

Lemma resolve_id cs : Forall comp_ok cs -> resolve cs = cs.
Proof.
  assert (H : forall st, Forall comp_ok cs -> fold_left resolve_step cs st = st ++ cs).
  { induction cs as [|c cs IH]; intros st Hcs; simpl; [by rewrite app_nil_r|].
    inversion Hcs as [|? ? (Hp & Hd & Hdd) Hcs']; subst. rewrite IH by done.
    unfold resolve_step. apply str_eqb_neq in Hd, Hdd. rewrite Hd, Hdd. by rewrite <- app_assoc. }
  apply H.
Qed.

Lemma absolute_cons p : absolute p = true -> exists y, p = SLASH :: y.
Proof.
  unfold absolute, is_slash, chr. destruct p as [|b p]; simpl; [done|]. intros H.
  bool_facts. subst. by exists p.
Qed.

Lemma absolute_boundary p : absolute p = true -> boundary p.
Proof. intros [y ->]%absolute_cons. apply boundary_slash. Qed.

Lemma normalize_eq p :
  absolute p = true -> nul_free p -> zlen p < PATH_MAX ->
  normalize_guest_path p =
    if forallb short (components p) then Ok (render (resolve (components p)))
    else Err ENAMETOOLONG.
Proof.
  intros Ha Hnf Hl. unfold normalize_guest_path. rewrite Ha. simpl negb. cbv iota.
  pose proof (normalize_loop_spec (S (length p)) p [SLASH] []) as H.
  destruct (forallb short (components p)); revert H.
  - intros H. destruct H as (out & -> & Hrep).
    + lia.
    + by apply absolute_boundary.
    + constructor.
    + by left.
    + split; [|by left]. unfold zlen in *. simpl. lia.
    + cbn [res_bind]. f_equal. apply chop_slash_rep; [|done].
      apply comp_ok_plain. apply resolve_plain; auto with proot.
  - intros ->; [done| | | | | ]; auto with proot.
    + by apply absolute_boundary.
    + by left.
    + split; [|by left]. unfold zlen in *. simpl. lia.
Qed.

Lemma zlen_joined_removelast st : zlen (joined (removelast st)) <= zlen (joined st).
Proof.
  destruct st as [|c st _] using rev_ind; [done|]. rewrite removelast_last, zlen_joined_snoc.
  pose proof (zlen_nonneg c). lia.
Qed.

Lemma zlen_joined_resolve cs st :
  zlen (joined (fold_left resolve_step cs st)) <= zlen (joined st) + zlen (joined cs).
Proof.
  revert st. induction cs as [|c cs IH]; intros st; simpl; [autorewrite with zlen; lia|].
  etrans; [apply IH|]. rewrite joined_cons. autorewrite with zlen.
  pose proof (zlen_nonneg c). unfold resolve_step.
  destruct (str_eqb _ _); [lia|]. destruct (str_eqb _ _).
  - pose proof (zlen_joined_removelast st). lia.
  - rewrite zlen_joined_snoc. lia.
Qed.

Lemma zlen_joined_components n p :
  (length p <= n)%nat -> boundary p -> zlen (joined (components p)) <= zlen p.
Proof.
  revert p. induction n as [|n IH]; intros p Hn Hb.
  - destruct p; simpl in Hn; [done|lia].
  - pose proof (component_step p) as Hs. cbv zeta in Hs.
    destruct (span is_slash p) as [sl cursor] eqn:E1. simpl in Hs.
    destruct (span not_slash cursor) as [c rest] eqn:E2.
    destruct Hs as [(-> & _ & ->) | (Hc & Hb' & -> & ->)]; [apply zlen_nonneg|].
    assert (H1 : 1 + zlen (c ++ rest) <= zlen p).
    { destruct Hb as [-> | [y ->]].
      - simpl in E1. destruct Hc. destruct c; by simplify_eq.
      - simpl in E1. destruct (span is_slash y) as [u v] eqn:E. simplify_eq.
        apply span_length in E. rewrite zlen_cons. unfold zlen. lia. }
    pose proof (plain_len c Hc). rewrite joined_cons. rewrite zlen_app in H1.
    autorewrite with zlen. assert (IH' := IH rest). unfold zlen in *. 
    assert (length rest <= n)%nat by lia. specialize (IH' ltac:(done) Hb'). lia.
Qed.

Lemma zlen_render_resolve p :
  absolute p = true -> zlen (render (resolve (components p))) <= zlen p.
Proof.
  intros Ha. assert (Hb := absolute_boundary p Ha).
  pose proof (zlen_joined_components (length p) p ltac:(lia) Hb) as H1.
  pose proof (zlen_joined_resolve (components p) []) as H2. change (zlen (joined [])) with 0 in H2.
  unfold resolve. destruct (fold_left resolve_step (components p) []) eqn:E.
  - simpl. destruct p; [done|]. autorewrite with zlen. pose proof (zlen_nonneg p). lia.
  - rewrite render_joined by done. lia.
Qed.

Lemma short_resolve cs st :
  forallb short cs = true -> forallb short st = true ->
  forallb short (fold_left resolve_step cs st) = true.
Proof.
  revert st. induction cs as [|c cs IH]; intros st H Hst; [done|].
  simpl in H. bool_facts. simpl. apply IH; [done|]. unfold resolve_step.
  destruct (str_eqb _ _); [done|]. destruct (str_eqb _ _).
  - destruct st as [|y st' _] using rev_ind; [done|]. rewrite removelast_last.
    rewrite forallb_app in Hst. by bool_facts.
  - rewrite forallb_app, Hst. simpl. by rewrite andb_true_r.
Qed.

(** ** join_paths() *)

Lemma split_acc_app a b cur :
  split_acc (a ++ SLASH :: b) cur = split_acc a cur ++ split_acc b [].
Proof.
  revert cur. induction a as [|c a IH]; intros cur; simpl.
  - by destruct (bool_decide (cur = [])).
  - destruct (is_slash c); [|by rewrite IH]. destruct (bool_decide (cur = [])); by rewrite IH.
Qed.

Lemma components_app a b : components (a ++ SLASH :: b) = components a ++ components b.
Proof. apply split_acc_app. Qed.

Lemma components_app_boundary a b :
  boundary b -> components (a ++ b) = components a ++ components b.
Proof.
  intros [-> | [y ->]]; [by rewrite !app_nil_r|]. by rewrite components_app, components_slash.
Qed.

(** The last character of a non-empty string, split off. *)
Lemma last_chr a : a <> [] -> exists b, a = b ++ [chr a (length a - 1)].
Proof.
  intros Ha. destruct a as [|c a _] using rev_ind; [done|]. exists a. f_equal. f_equal.
  rewrite chr_app_r by (rewrite length_app; simpl; lia). rewrite length_app. simpl.
  by replace (length a + 1 - 1 - length a)%nat with O by lia.
Qed.

Lemma is_slash_eq c : is_slash c = true -> c = SLASH.
Proof. unfold is_slash. intros. by bool_facts. Qed.

Lemma zlen_pos_neq {A} (a : list A) : (0 <? zlen a) = bool_decide (a <> []).
Proof. destruct a; [done|]. by rewrite bool_decide_eq_true_2. Qed.

Lemma join_paths_first a paths :
  join_paths (Some a :: paths) =
    if PATH_MAX <=? zlen a + 1 then Err ENAMETOOLONG else join_loop a paths.
Proof. done. Qed.

Lemma join2_components a b p :
  join2 a b = Ok p ->
  components p = components a ++ components b /\ zlen p + 1 < PATH_MAX.
Proof.
  unfold join2. rewrite join_paths_first. destruct (PATH_MAX <=? zlen a + 1); [done|].
  intros Hj. simpl in Hj. rewrite zlen_pos_neq in Hj.
  destruct (bool_decide (a <> [])) eqn:Ea; simpl in Hj.
  - apply bool_decide_eq_true in Ea. destruct (last_chr a Ea) as [a' Ha'].
    set (k := chr a (length a - 1)) in *. clearbody k.
    destruct (is_slash k) eqn:Ek; simpl in Hj.
    + apply is_slash_eq in Ek as ->. destruct (absolute b) eqn:Eb.
      * apply absolute_cons in Eb as [y ->]; simpl in Hj.
        case_bool_in Hj; [done|]. bool_facts. simplify_eq. rewrite components_slash.
        rewrite <- !app_assoc. simpl. rewrite !components_app. rewrite app_nil_r.
        split; [done|]. autorewrite with zlen in *. lia.
      * case_bool_in Hj; [done|]. bool_facts. simplify_eq. rewrite <- !app_assoc. simpl.
        rewrite !components_app, app_nil_r. split; [done|]. autorewrite with zlen in *. lia.
    + destruct (absolute b) eqn:Eb; simpl in Hj; (case_bool_in Hj; [done|]); bool_facts; injection Hj as <-.
      * apply absolute_boundary in Eb. split; [by apply components_app_boundary|].
        rewrite zlen_app. lia.
      * split; [apply components_app|]. autorewrite with zlen. lia.
  - apply bool_decide_eq_false in Ea. assert (a = []) as -> by (by destruct a; [|destruct Ea]).
    case_bool_in Hj; [done|]. bool_facts. injection Hj as <-. split; [done|].
    unfold zlen in *. simpl in *. lia.
Qed.

Lemma join2_render a c :
  Forall plain a -> plain c ->
  join2 (render a) c =
    if PATH_MAX <=? zlen (render (a ++ [c])) + 1 then Err ENAMETOOLONG
    else Ok (render (a ++ [c])).
Proof.
  intros Ha Hc. pose proof (plain_len c Hc) as Hcl.
  assert (Hca : absolute c = false).
  { destruct Hc as [Hne Hc]. unfold absolute, chr. destruct c; [done|]. by inversion Hc. }
  unfold join2. rewrite join_paths_first. cbn [join_loop].
  destruct (PATH_MAX <=? zlen (render a) + 1) eqn:E1; bool_facts.
  { assert (H : (PATH_MAX <=? zlen (render (a ++ [c])) + 1) = true); [|by rewrite H].
    apply Z.leb_le. rewrite render_snoc. destruct a as [|d a]; [|rewrite render_joined in E1 by done];
      autorewrite with zlen in *; pose proof (zlen_nonneg c); [|lia].
    change (zlen (render [])) with 1 in E1. change (zlen (joined [])) with 0. lia. }
  rewrite zlen_pos_neq, bool_decide_eq_true_2 by (by destruct a).
  rewrite Hca. cbn [andb negb]. rewrite andb_true_r, andb_false_r.
  destruct a as [|d a].
  - simpl. change (zlen [SLASH]) with 1. rewrite joined_cons. simpl. rewrite app_nil_r.
    by autorewrite with zlen.
  - rewrite render_joined by done. rewrite joined_last by done. cbn [negb].
    rewrite render_snoc. autorewrite with zlen.
    replace (zlen (joined (d :: a)) + (1 + zlen c) + 1)
      with (zlen (joined (d :: a)) + zlen c + 1 + 1) by lia. done.
Qed.

(** ** pop_component() and next_component() *)

Lemma chr_plain_in c x i : plain c -> (i < length c)%nat -> is_slash (chr (c ++ x) i) = false.
Proof.
  intros [_ Hc] Hi. rewrite chr_app_l by done. rewrite List.Forall_forall in Hc.
  apply Hc. by apply nth_In.
Qed.

(** The second scan of pop_component() stops at the separator before the last
    component. *)
Lemma scan_back_component pre c j :
  plain c -> (j < length c)%nat ->
  scan_back true (pre ++ SLASH :: c) (length pre + 1 + j) = Nat.max 1 (length pre).
Proof.
  intros Hc. induction j as [|j IH]; intros Hj.
  - replace (length pre + 1 + 0)%nat with (S (length pre)) by lia. cbn [scan_back].
    destruct (1 <? S (length pre))%nat eqn:E.
    + apply Nat.ltb_lt in E. rewrite chr_app_r by lia.
      replace (S (length pre) - length pre)%nat with 1%nat by lia.
      change (chr (SLASH :: c) 1) with (chr c 0).
      assert (Hs := chr_plain_in c [] 0 Hc Hj). rewrite app_nil_r in Hs. rewrite Hs. cbn [xorb andb].
      destruct (length pre) as [|n] eqn:En; [lia|]. cbn [scan_back].
      rewrite chr_app_r by lia. rewrite En, Nat.sub_diag.
      change (is_slash (chr (SLASH :: c) 0)) with true. rewrite andb_false_r. lia.
    + apply Nat.ltb_ge in E. assert (length pre = 0)%nat by lia. rewrite H. done.
  - replace (length pre + 1 + S j)%nat with (S (length pre + 1 + j)) by lia. cbn [scan_back].
    assert (E : (1 <? S (length pre + 1 + j))%nat = true) by (apply Nat.ltb_lt; lia). rewrite E.
    rewrite chr_app_r by lia.
    replace (S (length pre + 1 + j) - length pre)%nat with (S (S j)) by lia.
    change (chr (SLASH :: c) (S (S j))) with (chr c (S j)).
    assert (Hs := chr_plain_in c [] (S j) Hc Hj). rewrite app_nil_r in Hs. rewrite Hs.
    cbn [xorb andb]. apply IH. lia.
Qed.

Lemma pop_render cs c :
  Forall plain cs -> plain c -> pop_component (render (cs ++ [c])) = Ok (render cs).
Proof.
  intros Hcs Hc. rewrite render_snoc. unfold pop_component.
  assert (Hl : length (joined cs ++ SLASH :: c) = S (length (joined cs) + 1 + (length c - 1))).
  { rewrite length_app. simpl. destruct Hc as [Hc _]. destruct c; [done|]. simpl. lia. }
  rewrite Hl. destruct Hc as [Hne Hc']. assert (Hc : plain c) by done.
  assert (Hcl : (length c <> 0)%nat) by by destruct c.
  remember (length (joined cs) + 1 + (length c - 1))%nat as off eqn:Eoff.
  destruct off as [|off]; [lia|].
  assert (H1 : scan_back false (joined cs ++ SLASH :: c) (S off) = S off).
  { cbn [scan_back]. rewrite chr_app_r by lia. rewrite Eoff.
    replace (length (joined cs) + 1 + (length c - 1) - length (joined cs))%nat
      with (S (length c - 1)) by lia.
    change (chr (SLASH :: c) (S (length c - 1))) with (chr c (length c - 1)).
    rewrite plain_last by done. by rewrite andb_false_r. }
  rewrite H1, Eoff, scan_back_component by (done || lia).
  assert (H2 : is_slash (chr (joined cs ++ SLASH :: c) 0) = true) by by destruct cs.
  rewrite H2. f_equal. destruct cs as [|d cs]; [done|].
  rewrite render_joined by done. pose proof (length_joined_pos (d :: cs) ltac:(done)).
  rewrite Nat.max_r by lia. apply take_app_length.
Qed.

Lemma pop_root : pop_component (render []) = Ok (render []).
Proof. done. Qed.

Lemma components_nonempty b p : is_slash b = false -> components (b :: p) <> [].
Proof.
  intros Hb. unfold components. simpl. rewrite Hb. simpl. rewrite split_acc_span by done.
  by destruct (span not_slash p).
Qed.

Lemma next_component_spec p :
  match components p with
  | [] => next_component p = Ok ([], [], FINAL_NORMAL)
  | c :: cs =>
      if short c
      then exists cursor fin, next_component p = Ok (c, cursor, fin)
             /\ components cursor = cs /\ IS_FINAL fin = bool_decide (cs = [])
             /\ (length cursor < length p)%nat
      else next_component p = Err ENAMETOOLONG
  end.
Proof.
  pose proof (component_step p) as Hs. cbv zeta in Hs. unfold next_component.
  destruct (span is_slash p) as [sl cursor] eqn:E1. simpl in Hs.
  change (fun c => negb (is_slash c)) with not_slash.
  destruct (span not_slash cursor) as [c rest] eqn:E2.
  destruct Hs as [(-> & -> & ->) | (Hc & Hb & -> & ->)].
  { simpl in E2. by simplify_eq. }
  unfold short. rewrite Z.ltb_antisym. destruct (NAME_MAX <=? zlen c); simpl; [done|].
  destruct (span is_slash rest) as [sl' rest'] eqn:E3. eexists _, _. split; [done|].
  assert (Hcr : components rest = components rest').
  { rewrite (components_skip rest), E3. done. }
  split; [done|]. split.
  - rewrite Hcr. destruct rest' as [|b rest'].
    + simpl. by destruct (absolute rest).
    + simpl. symmetry. apply bool_decide_eq_false_2. apply span_snd in E3.
      by apply components_nonempty.
  - apply span_length in E1, E3. rewrite length_app in E1. destruct Hc as [Hc _].
    destruct c; simpl in *; [done|lia].
Qed.

(** ** compare_paths() *)

Definition comps_prefix (a b : list cstr) : bool := bool_decide (a `prefix_of` b).

(** The comparison on component lists that compare_paths() implements. *)
Definition compare_components (a b : list cstr) : Comparison :=
  if bool_decide (a = b) then PATHS_ARE_EQUAL
  else if comps_prefix a b then PATH1_IS_PREFIX
  else if comps_prefix b a then PATH2_IS_PREFIX
  else PATHS_ARE_NOT_COMPARABLE.

Lemma strip_render cs :
  Forall plain cs -> strip_trailing (render cs) (length (render cs)) = length (joined cs).
Proof.
  intros H. destruct cs as [|c cs]; [done|]. rewrite render_joined by done.
  unfold strip_trailing. by rewrite joined_last.
Qed.

Lemma render_take cs n :
  (n <= length (joined cs))%nat -> take n (render cs) = take n (joined cs).
Proof. destruct cs; [|done]. simpl. intros H. by replace n with O by lia. Qed.

Lemma render_chr cs n :
  (n < length (joined cs))%nat -> chr (render cs) n = chr (joined cs) n.
Proof. destruct cs; [|done]. simpl. lia. Qed.

Lemma render_chr_end cs :
  is_slash (chr (render cs) (length (joined cs))) = true \/
  chr (render cs) (length (joined cs)) = 0.
Proof.
  destruct cs; [by left | right]. rewrite render_joined by done. by apply chr_end.
Qed.

Lemma length_render_pos cs : (length (render cs) =? 0)%nat = false.
Proof. by destruct cs. Qed.

Lemma joined_nul_free cs : Forall name_ok cs -> ~ In 0 (joined cs).
Proof.
  induction 1 as [|c cs [_ Hc] Hcs IH]; [by intros []|]. rewrite joined_cons.
  intros [H|H]; [done|]. apply in_app_iff in H as [H|H]; [|done].
  unfold nul_free in Hc. rewrite List.Forall_forall in Hc. by apply (Hc 0).
Qed.

(** The string test of compare_paths2() for a shorter (or equal) first path. *)
Lemma prefix_test a b :
  Forall plain a -> Forall name_ok b -> (length (joined a) <= length (joined b))%nat ->
  (is_slash (chr (render b) (length (joined a))) = true \/
   chr (render b) (length (joined a)) = 0) ->
  take (length (joined a)) (render a) = take (length (joined a)) (render b) ->
  a `prefix_of` b.
Proof.
  intros Ha Hb Hle Hs E. rewrite !render_take in E by lia.
  rewrite take_ge in E by lia.
  assert (Hj : joined a ++ drop (length (joined a)) (joined b) = joined b).
  { rewrite E at 1. apply take_drop. }
  destruct (joined_prefix a b (drop (length (joined a)) (joined b)) Ha) as (b' & -> & _);
    [by apply name_ok_plain| |done|by exists b'].
  destruct (drop (length (joined a)) (joined b)) as [|x y] eqn:Ed; [apply boundary_nil|].
  assert (Hlt : (length (joined a) < length (joined b))%nat).
  { assert (H := length_drop (joined b) (length (joined a))). rewrite Ed in H. simpl in H. lia. }
  rewrite render_chr in Hs by done. rewrite <- Hj in Hs.
  rewrite chr_app_r, Nat.sub_diag in Hs by lia. unfold chr in Hs. simpl in Hs.
  destruct Hs as [Hs | ->].
  - apply is_slash_eq in Hs as ->. apply boundary_slash.
  - exfalso. assert (Hin : In 0 (joined b)).
    { rewrite <- Hj. apply in_app_iff. right. by left. }
    by apply (joined_nul_free b) in Hin.
Qed.

Lemma prefix_take a b :
  a `prefix_of` b ->
  (length (joined a) <= length (joined b))%nat /\
  take (length (joined a)) (render a) = take (length (joined a)) (render b) /\
  (is_slash (chr (render b) (length (joined a))) = true \/
   chr (render b) (length (joined a)) = 0).
Proof.
  intros [s ->]. rewrite joined_app, length_app. split; [lia|]. split.
  - rewrite !render_take by (rewrite ?joined_app, ?length_app; lia).
    by rewrite joined_app, take_app_length, take_ge by lia.
  - destruct s as [|c s].
    + rewrite app_nil_r. apply render_chr_end.
    + left. rewrite render_joined by (by destruct a). rewrite joined_app.
      by rewrite chr_app_r, Nat.sub_diag by lia.
Qed.

Lemma prefix_length_eq a b :
  Forall plain a -> Forall plain b -> a `prefix_of` b ->
  length (joined a) = length (joined b) -> a = b.
Proof.
  intros Ha Hb [s ->] Hl. rewrite joined_app, length_app in Hl.
  destruct (joined s) eqn:E; [|simpl in Hl; lia].
  apply joined_nil_inv in E as ->. by rewrite app_nil_r.
Qed.

(** compare_paths() on canonical paths is the comparison of their component
    lists: its byte comparison with a sentinel never confuses "/a" with a
    prefix of "/ab". *)
Lemma compare_render a b :
  Forall name_ok a -> Forall name_ok b ->
  compare_paths (render a) (render b) = Ok (compare_components a b).
Proof.
  intros Ha Hb. pose proof (name_ok_plain a Ha) as Pa. pose proof (name_ok_plain b Hb) as Pb.
  unfold compare_paths, compare_paths2. rewrite !length_render_pos. simpl orb. cbv iota.
  rewrite !strip_render by done. unfold compare_components, comps_prefix.
  destruct (Nat.ltb_spec (length (joined a)) (length (joined b))) as [Hlt|Hge].
  - rewrite (bool_decide_eq_false_2 (a = b)) by (intros ->; lia).
    rewrite (bool_decide_eq_false_2 (b `prefix_of` a)).
    2: { intros (Hl & _)%prefix_take. lia. }
    destruct (bool_decide (a `prefix_of` b)) eqn:E.
    + apply bool_decide_eq_true, prefix_take in E as (_ & -> & Hs). rewrite str_eqb_refl.
      assert (Hn : (length (joined a) =? length (joined b))%nat = false) by (apply Nat.eqb_neq; lia).
      rewrite Hn. destruct Hs as [-> | ->]; done.
    + apply bool_decide_eq_false in E. case_bool; [done|]. case_bool; [done|]. exfalso. apply E.
      apply prefix_test; auto; [lia| |by bool_facts].
      apply andb_false_iff in Hb0 as [H|H]; bool_facts; auto.
  - destruct (bool_decide (b `prefix_of` a)) eqn:E.
    + apply bool_decide_eq_true in E. pose proof (prefix_take b a E) as (_ & Ht & Hs).
      rewrite Ht, str_eqb_refl.
      assert (Hs' : negb (is_slash (chr (render a) (length (joined b)))) && negb (chr (render a) (length (joined b)) =? 0) = false).
      { destruct Hs as [-> | ->]; done. }
      rewrite Hs'. simpl. destruct (Nat.eqb_spec (length (joined a)) (length (joined b))) as [El|El].
      * assert (b = a) as -> by by apply prefix_length_eq. by rewrite bool_decide_eq_true_2.
      * rewrite (bool_decide_eq_false_2 (a = b)) by (by intros ->).
        rewrite (bool_decide_eq_false_2 (a `prefix_of` b)); [done|].
        intros (Hl & _)%prefix_take. lia.
    + apply bool_decide_eq_false in E.
      rewrite (bool_decide_eq_false_2 (a = b)) by (intros ->; by apply E).
      rewrite (bool_decide_eq_false_2 (a `prefix_of` b)).
      2: { intros Hp. pose proof (prefix_take a b Hp) as (Hl & _). apply E.
           assert (a = b) as -> by (apply prefix_length_eq; auto; lia). done. }
      case_bool; [done|]. case_bool; [done|]. exfalso. apply E.
      apply prefix_test; auto; [|by bool_facts].
      apply andb_false_iff in Hb0 as [H|H]; bool_facts; auto.
Qed.

(** ** substitute_path_prefix() *)

Lemma render_length_one cs : Forall plain cs -> (length (render cs) =? 1)%nat = bool_decide (cs = []).
Proof.
  intros H. destruct cs as [|c cs _] using rev_ind; [done|].
  rewrite bool_decide_eq_false_2 by by destruct cs.
  apply Forall_app in H as [_ H]. inversion H; subst.
  apply Nat.eqb_neq. rewrite render_joined by by destruct cs.
  pose proof (joined_plain_length c cs ltac:(done)). lia.
Qed.

Lemma render_length_le cs : (length (joined cs) <= length (render cs))%nat.
Proof. destruct cs; [simpl; lia | done]. Qed.

Lemma substitute_render a b s :
  Forall plain a -> Forall plain b -> Forall plain s -> (a <> [] \/ b <> []) ->
  zlen (render (a ++ s)) < PATH_MAX -> zlen (render b) + zlen (render s) < PATH_MAX ->
  substitute_path_prefix (render (a ++ s)) (length (render a)) (render b) (length (render b))
  = Ok (render (b ++ s)).
Proof.
  intros Ha Hb Hs Hab Hl1 Hl2. unfold substitute_path_prefix.
  rewrite !render_length_one by done.
  assert (Hla : Z.of_nat (length (render a)) < PATH_MAX).
  { unfold zlen in *. destruct a as [|c a]; [done|].
    rewrite !render_joined in * by done. rewrite joined_app, length_app in Hl1. lia. }
  assert (Hlb : Z.of_nat (length (render b)) < PATH_MAX) by (unfold zlen in Hl2; lia).
  rewrite (proj2 (Z.ltb_lt _ _) Hla), (proj2 (Z.ltb_lt _ _) Hlb).
  simpl negb. cbv iota. unfold zlen in Hl2.
  assert (Hss : s = [] \/ (1 < length (joined s))%nat /\ render s = joined s).
  { destruct s as [|c s _] using rev_ind; [by left | right]. apply Forall_app in Hs as [_ Hc].
    inversion Hc; subst. split; [by apply joined_plain_length|].
    apply render_joined. by destruct s. }
  case_bool; bool_facts; [apply bool_decide_eq_true in Hb0 as -> | apply bool_decide_eq_false in Hb0].
  - destruct Hab as [Hab|[]]; [|done].
    rewrite !render_joined by (by destruct a). rewrite joined_app, length_app.
    rewrite (proj2 (Nat.ltb_ge _ _)) by lia. rewrite drop_app_length.
    replace (length (joined a) + length (joined s) - length (joined a))%nat
      with (length (joined s)) by lia. cbn [app].
    destruct Hss as [-> | [Hss ->]]; [done|].
    rewrite (proj2 (Nat.eqb_neq _ _)) by lia. rewrite (proj2 (Z.leb_gt _ _)); [done|].
    unfold zlen in Hl1. rewrite render_joined, joined_app, length_app in Hl1 by (by destruct a). lia.
  - rewrite (render_joined (b ++ s)) by by destruct b.
    rewrite joined_app, (take_ge (render b)) by lia. rewrite (render_joined b) in * by done.
    destruct (bool_decide (a = [])) eqn:Ea.
    + apply bool_decide_eq_true in Ea as ->. cbn [app].
      destruct Hss as [-> | [Hss E]].
      * rewrite (proj2 (Z.leb_gt _ _)) by (simpl in *; lia). by rewrite app_nil_r.
      * rewrite E in *. rewrite (proj2 (Z.leb_gt _ _)) by lia.
        by rewrite (proj2 (Nat.ltb_lt _ _)) by lia.
    + apply bool_decide_eq_false in Ea. rewrite !(render_joined a), (render_joined (a ++ s)) by (by destruct a).
      rewrite joined_app, length_app, drop_app_length.
      rewrite (proj2 (Nat.ltb_ge _ _)) by lia. rewrite (proj2 (Nat.ltb_ge _ _)) by lia.
      rewrite (proj2 (Z.leb_gt _ _)); [done|].
      destruct Hss as [-> | [Hss E]]; [simpl in *; lia | rewrite E in *; lia].
Qed.

(** The failing case: the rewritten path does not fit in a [PATH_MAX] buffer. *)
Lemma substitute_overflow a b s :
  Forall plain a -> Forall plain b -> a <> [] -> b <> [] ->
  zlen (render (a ++ s)) < PATH_MAX -> zlen (render b) < PATH_MAX ->
  PATH_MAX <= zlen (render (b ++ s)) ->
  substitute_path_prefix (render (a ++ s)) (length (render a)) (render b) (length (render b))
  = Err ENAMETOOLONG.
Proof.
  intros Ha Hb Hna Hnb Hl1 Hl2 Hl3. unfold substitute_path_prefix.
  rewrite !render_length_one by done. rewrite !bool_decide_eq_false_2 by done. unfold zlen in *.
  rewrite !(render_joined (_ ++ _)) in * by (by destruct a, b).
  rewrite !(render_joined a), !(render_joined b) in * by done.
  rewrite !joined_app, !length_app in *.
  rewrite (proj2 (Z.ltb_lt _ _)) by lia. rewrite (proj2 (Z.ltb_lt _ _)) by lia. simpl negb. cbv iota.
  case_bool; [done|]. rewrite (proj2 (Nat.ltb_ge _ _)) by lia.
  by rewrite (proj2 (Z.leb_le _ _)) by lia.
Qed.

(** Whatever the lengths, the path is rewritten or the call fails. *)
Lemma substitute_total a b s :
  Forall plain a -> Forall plain b -> Forall plain s -> (a <> [] \/ b <> []) ->
  zlen (render (a ++ s)) < PATH_MAX -> zlen (render b) < PATH_MAX ->
  substitute_path_prefix (render (a ++ s)) (length (render a)) (render b) (length (render b))
  ∈ [Ok (render (b ++ s)); Err ENAMETOOLONG].
Proof.
  intros Ha Hb Hs Hab Hl1 Hl2.
  destruct (decide (zlen (render b) + zlen (render s) < PATH_MAX)) as [Hl|Hl].
  { rewrite substitute_render by done. apply list_elem_of_here. }
  destruct (decide (b = [])) as [->|Hnb].
  { rewrite substitute_render; [apply list_elem_of_here | done..|].
    destruct a as [|c a]; [by destruct Hab|]. rewrite render_joined in Hl1 by done.
    rewrite joined_app, joined_cons in Hl1. inversion Ha as [|? ? Hc]; subst.
    pose proof (plain_len c Hc). pose proof (render_length_le s). change (zlen (render [])) with 1.
    destruct s; [done|]. autorewrite with zlen in Hl1. rewrite render_joined by done. 
    pose proof (zlen_nonneg (joined a)). lia. }
  unfold substitute_path_prefix. rewrite !render_length_one by done.
  assert (Hla : Z.of_nat (length (render a)) < PATH_MAX).
  { unfold zlen in *. destruct a as [|c a]; [done|].
    rewrite !render_joined in * by done. rewrite joined_app, length_app in Hl1. lia. }
  unfold zlen in Hl2. rewrite (proj2 (Z.ltb_lt _ _) Hla), (proj2 (Z.ltb_lt _ _) Hl2).
  rewrite (bool_decide_eq_false_2 _ Hnb). simpl negb. cbv iota.
  case_bool; [apply bool_decide_eq_true in Hb0 as -> | apply bool_decide_eq_false in Hb0].
  - rewrite (proj2 (Z.leb_le _ _)); [set_solver|]. unfold zlen in *. simpl. lia.
  - rewrite !(render_joined (_ ++ _)), !(render_joined a), !(render_joined b) by (by destruct a, b).
    rewrite !joined_app, !length_app, drop_app_length, take_ge by lia.
    rewrite !(proj2 (Nat.ltb_ge _ _)) by lia. case_bool; set_solver.
Qed.

(** substitute_path_prefix() never overflows its buffer. *)
Lemma substitute_bound p o np q :
  substitute_path_prefix p o np (length np) = Ok q -> zlen q < PATH_MAX.
Proof.
  unfold substitute_path_prefix. rewrite take_ge by lia. intros H.
  repeat (case_bool_in H; try discriminate H); simplify_eq; bool_facts;
    unfold zlen in *; rewrite ?length_app, ?length_drop in *; unfold PATH_MAX in *; simpl; try lia.
Qed.

(** ** Totality on arbitrary strings *)

(** What a path read from a tracee or from a symlink is. *)
Definition nice (s : cstr) : Prop := s <> [] /\ nul_free s /\ zlen s < PATH_MAX.

Lemma compare_paths2_total p n q m :
  (0 < n)%nat -> (0 < m)%nat -> exists c, compare_paths2 p n q m = Ok c
    /\ (c = PATHS_ARE_EQUAL -> strip_trailing p n = strip_trailing q m)
    /\ (c = PATH1_IS_PREFIX -> (strip_trailing p n < strip_trailing q m)%nat).
Proof.
  intros Hn Hm. unfold compare_paths2.
  rewrite (proj2 (Nat.eqb_neq n 0)), (proj2 (Nat.eqb_neq m 0)) by lia. cbn [orb].
  set (a := strip_trailing p n). set (b := strip_trailing q m).
  destruct (if (a <? b)%nat then _ else _) as [l s].
  repeat case_bool; eexists; (split; [done|]); (split; intros ?; try done);
    by first [apply Nat.eqb_eq | apply Nat.ltb_lt].
Qed.

Lemma compare_paths_total p q :
  p <> [] -> q <> [] -> exists c, compare_paths p q = Ok c
    /\ (c = PATHS_ARE_EQUAL -> strip_trailing p (length p) = strip_trailing q (length q))
    /\ (c = PATH1_IS_PREFIX -> (strip_trailing p (length p) < strip_trailing q (length q))%nat).
Proof. intros Hp Hq. apply compare_paths2_total; [by destruct p; simpl; [|lia] | by destruct q; simpl; [|lia]]. Qed.

Lemma strip_trailing_le p n : (strip_trailing p n <= n)%nat.
Proof. unfold strip_trailing. case_bool; lia. Qed.

Lemma nul_free_app a b : nul_free (a ++ b) <-> nul_free a /\ nul_free b.
Proof. apply Forall_app. Qed.

Lemma nul_free_render cs : Forall name_ok cs -> nul_free (render cs).
Proof.
  intros H. destruct cs as [|c cs]; [by repeat constructor|]. rewrite render_joined by done.
  apply List.Forall_forall. intros x Hx ->. by apply (joined_nul_free (c :: cs)).
Qed.

Lemma nice_render cs : Forall name_ok cs -> zlen (render cs) < PATH_MAX -> nice (render cs).
Proof. intros H Hl. split; [by destruct cs|]. split; [by apply nul_free_render | done]. Qed.

(** ** Properties *)

(** normalize_guest_path() on an absolute path of less than [PATH_MAX]
    bytes is exactly the stack machine that ".." and "." mean: it prints the
    resolved component list when every component is shorter than [NAME_MAX],
    and fails with ENAMETOOLONG otherwise.  In particular it terminates, never
    overflows its buffer, and never climbs above the root. *)
Theorem normalize_guest_path_resolves (p : cstr) :
  absolute p = true -> nul_free p -> zlen p < PATH_MAX ->
  normalize_guest_path p =
    if forallb short (components p) then Ok (render (resolve (components p)))
    else Err ENAMETOOLONG.
Proof. apply normalize_eq. Qed.

Lemma normalize_guest_path_resolves_witness :
  normalize_guest_path (bs "/a/./b//../../../c/") = Ok (bs "/c").
Proof.
  rewrite (normalize_guest_path_resolves (bs "/a/./b//../../../c/"));
    [reflexivity | reflexivity | by apply (bool_decide_unpack _) | reflexivity].
Defined.

(** The result of normalize_guest_path() is canonical, not longer than its
    input, and a fixed point of normalize_guest_path(). *)
Theorem normalize_guest_path_canonical (p q : cstr) :
  nul_free p -> zlen p < PATH_MAX -> normalize_guest_path p = Ok q ->
  canonical q /\ zlen q <= zlen p /\ normalize_guest_path q = Ok q.
Proof.
  intros Hnf Hl H. destruct (absolute p) eqn:Ha.
  2: { unfold normalize_guest_path in H. by rewrite Ha in H. }
  rewrite normalize_eq in H by done. destruct (forallb short (components p)) eqn:Hs; [|done].
  injection H as <-. pose proof (resolve_comp_ok p Hnf) as Hok.
  pose proof (zlen_render_resolve p Ha) as Hlen.
  split; [by eexists|]. split; [done|]. rewrite normalize_eq.
  - rewrite components_render by auto with proot. rewrite (resolve_id (resolve (components p))) by done.
    unfold resolve. by rewrite short_resolve.
  - apply absolute_render.
  - destruct (resolve (components p)) eqn:E; [by constructor|].
    rewrite <- E, render_joined by by rewrite E. rewrite <- E in Hok. clear -Hok.
    apply List.Forall_forall. intros b Hb ->. revert Hb. apply joined_nul_free. auto with proot.
  - lia.
Qed.

Lemma normalize_guest_path_canonical_witness :
  canonical (bs "/b") /\ normalize_guest_path (bs "/b") = Ok (bs "/b").
Proof.
  destruct (normalize_guest_path_canonical (bs "/a/../b/.") (bs "/b")) as (H1 & _ & H2).
  - by apply (bool_decide_unpack _).
  - reflexivity.
  - reflexivity.
  - by split.
Defined.

(** join_paths() of two paths has the components of the first followed by
    those of the second, whatever separators end or start them, and leaves room
    for the terminator. *)
Theorem join_paths_components (a b p : cstr) :
  join_paths [Some a; Some b] = Ok p ->
  components p = components a ++ components b /\ zlen p + 1 < PATH_MAX.
Proof. apply join2_components. Qed.

Lemma join_paths_components_witness :
  components (bs "/a//b/c") = [bs "a"; bs "b"; bs "c"].
Proof.
  destruct (join_paths_components (bs "/a/") (bs "/b/c") (bs "/a/b/c")) as [H _]; [reflexivity|].
  reflexivity.
Defined.

(** compare_paths() on canonical paths compares their component lists: the
    byte comparison with its sentinel never takes "/usr" for a prefix of
    "/usr2". *)
Theorem compare_paths_components (a b : list cstr) :
  Forall name_ok a -> Forall name_ok b ->
  compare_paths (render a) (render b) = Ok (compare_components a b).
Proof. apply compare_render. Qed.

Definition names (l : list string) : list cstr := map bs l.

Lemma compare_paths_components_witness :
  compare_paths (bs "/usr") (bs "/usr2") = Ok PATHS_ARE_NOT_COMPARABLE
  /\ compare_paths (bs "/usr") (bs "/usr/lib") = Ok PATH1_IS_PREFIX.
Proof.
  split.
  - apply (compare_paths_components (names ["usr"%string]) (names ["usr2"%string]));
      repeat constructor; try done; by apply (bool_decide_unpack _).
  - apply (compare_paths_components (names ["usr"%string]) (names ["usr"; "lib"]%string));
      repeat constructor; try done; by apply (bool_decide_unpack _).
Defined.

(** chop_finality() removes one byte too many from a path whose last
    component merely ends with a dot: it tests the last byte only, not "/." *)
Theorem chop_finality_eats_final_dot (cs : list cstr) (c : cstr) :
  Forall plain cs -> plain c -> zlen c >= 2 ->
  chop_finality (render (cs ++ [c ++ [DOT]])) = Ok (render (cs ++ [removelast c])).
Proof.
  intros Hcs Hc Hl. rewrite !render_snoc. unfold chop_finality.
  destruct c as [|x c _] using rev_ind; [done|]. rewrite removelast_last.
  assert (Hlen : length (joined cs ++ SLASH :: (c ++ [x]) ++ [DOT])
                 = S (length (joined cs ++ SLASH :: c) + 1)).
  { rewrite !length_app. simpl. rewrite !length_app. simpl. lia. }
  rewrite Hlen. 
  replace (joined cs ++ SLASH :: (c ++ [x]) ++ [DOT])
    with ((joined cs ++ SLASH :: c) ++ [x] ++ [DOT]) by (rewrite <- !app_assoc; done).
  rewrite chr_app_r by lia. replace (_ + 1 - _)%nat with 1%nat by lia.
  change (chr ([x] ++ [DOT]) 1 =? DOT) with true. cbv iota.
  autorewrite with zlen in Hl. destruct c as [|y c]; [done|].
  destruct (length (joined cs ++ SLASH :: y :: c) + 1)%nat as [|[|n]] eqn:E;
    [lia | rewrite length_app in E; simpl in E; lia|].
  f_equal. replace (S (S n) - 1)%nat with (length (joined cs ++ SLASH :: y :: c)) by lia.
  apply take_app_length.
Qed.

Lemma chop_finality_eats_final_dot_witness :
  chop_finality (bs "/etc/foo.") = Ok (bs "/etc/fo").
Proof.
  apply (chop_finality_eats_final_dot (names ["etc"%string]) (bs "foo"));
    [repeat constructor; done | repeat constructor; done | done].
Defined.
