(* ===== verification/Binding.v ===== *)
(** * Bindings (src/path/binding.c)

    The three lists of bindings of a file-system name-space, the lookup of the
    binding a path belongs to, and the substitution of its prefix. *)

From stdpp Require Import sorting.
From S2P Require Import Prelude Paths.

(** ** Data *)

Inductive BindingAccess :=
  | BINDING_ACCESS_RW
  | BINDING_ACCESS_RO
  | BINDING_ACCESS_WO
  | BINDING_ACCESS_MASK.

Inductive BindingType := BINDING_TYPE_REGULAR | BINDING_TYPE_MBIND | BINDING_TYPE_SHADOW.

(** Path point-of-view. *)
Inductive Side := GUEST | HOST | PENDING.

#[export] Instance BindingAccess_eq_dec : EqDecision BindingAccess.
Proof. solve_decision. Defined.
#[export] Instance Side_eq_dec : EqDecision Side.
Proof. solve_decision. Defined.
#[export] Instance BindingType_eq_dec : EqDecision BindingType.
Proof. solve_decision. Defined.

(** Path with its cached length. *)
Record Path := mkPath { path : cstr; plength : nat }.

(** [b_addr] is the address of the C object: it is what CIRCLEQ_REMOVE works on. *)
Record Binding := mkBinding {
  b_addr : nat;
  host : Path;
  guest : Path;
  need_substitution : bool;
  must_exist : bool;
  access_mode : BindingAccess;
  b_type : BindingType
}.

#[export] Instance Path_eq_dec : EqDecision Path.
Proof. solve_decision. Defined.
#[export] Instance Binding_eq_dec : EqDecision Binding.
Proof. solve_decision. Defined.

(** A file-system name-space; [None] is a list head that is not allocated. *)
Record FileSystemNameSpace := mkFs {
  bindings_pending : option (list Binding);
  bindings_guest : option (list Binding);
  bindings_host : option (list Binding);
  cwd : cstr
}.

Definition HEAD (fs : FileSystemNameSpace) (side : Side) : option (list Binding) :=
  match side with
  | GUEST => bindings_guest fs
  | HOST => bindings_host fs
  | PENDING => bindings_pending fs
  end.

Definition set_HEAD (fs : FileSystemNameSpace) (side : Side) (l : list Binding)
  : FileSystemNameSpace :=
  match side with
  | GUEST => mkFs (bindings_pending fs) (Some l) (bindings_host fs) (cwd fs)
  | HOST => mkFs (bindings_pending fs) (bindings_guest fs) (Some l) (cwd fs)
  | PENDING => mkFs (Some l) (bindings_guest fs) (bindings_host fs) (cwd fs)
  end.

(** Dereference of a list head. *)
Definition list_of (fs : FileSystemNameSpace) (side : Side) : res (list Binding) :=
  match HEAD fs side with Some l => Ok l | None => Stuck OutOfBounds end.

(** The path a side's list is sorted by. *)
Definition side_path (side : Side) (b : Binding) : Path :=
  match side with HOST => host b | _ => guest b end.

(** ** Operations *)

(** get_root(): [Ok None] is a NULL result. *)
Definition get_root (fs : FileSystemNameSpace) : res (option cstr) :=
  match bindings_guest fs with
  | None =>
      match bindings_pending fs with
      | None => Ok None
      | Some l =>
          match last l with
          | None => Ok None
          | Some binding =>
              let! comparison := compare_paths (path (guest binding)) (bs "/") in
              if bool_decide (comparison <> PATHS_ARE_EQUAL) then Ok None
              else Ok (Some (path (host binding)))
          end
      end
  | Some l =>
      match last l with
      | None => Stuck AssertFailed
      | Some binding =>
          if str_eqb (path (guest binding)) (bs "/") then Ok (Some (path (host binding)))
          else Stuck AssertFailed
      end
  end.

(** The use of get_root() as a string: NULL is not checked by the callers. *)
Definition root_string (fs : FileSystemNameSpace) : res cstr :=
  let! root := get_root fs in
  match root with Some r => Ok r | None => Stuck OutOfBounds end.

(** src/path/path.c *)
Definition belongs_to_guestfs (fs : FileSystemNameSpace) (host_path : cstr) : res bool :=
  let! root := root_string fs in
  let! comparison := compare_paths root host_path in
  Ok (bool_decide (comparison = PATHS_ARE_EQUAL) || bool_decide (comparison = PATH1_IS_PREFIX)).

(** The guard of the HOST lookup: a prefix of the rootfs is not a binding. *)
Definition guard_skip_all (fs : FileSystemNameSpace) (p : cstr) : res bool :=
  let! root := root_string fs in
  let! comparison := compare_paths root (bs "/") in
  if bool_decide (comparison <> PATHS_ARE_EQUAL) then belongs_to_guestfs fs p else Ok false.

Fixpoint get_binding_loop (fs : FileSystemNameSpace) (side : Side) (p : cstr)
    (l : list Binding) : res (option Binding) :=
  match l with
  | [] => Ok None
  | binding :: l =>
      match side with
      | PENDING => Stuck AssertFailed
      | _ =>
          let ref := side_path side binding in
          let! comparison := compare_paths2 (path ref) (plength ref) p (length p) in
          if bool_decide (comparison <> PATHS_ARE_EQUAL)
             && bool_decide (comparison <> PATH1_IS_PREFIX)
          then get_binding_loop fs side p l
          else if bool_decide (side = HOST) then
            let! skip := guard_skip_all fs p in
            if skip then Ok None else Ok (Some binding)
          else Ok (Some binding)
      end
  end.

Definition get_binding (fs : FileSystemNameSpace) (side : Side) (p : cstr)
  : res (option Binding) :=
  if negb (absolute p) then Stuck AssertFailed
  else
    let! l := list_of fs side in
    get_binding_loop fs side p l.

Definition get_path_binding (fs : FileSystemNameSpace) (side : Side) (p : cstr)
  : res (option cstr) :=
  let! binding := get_binding fs side p in
  match binding with
  | None => Ok None
  | Some binding =>
      match side with
      | GUEST => Ok (Some (path (guest binding)))
      | HOST => Ok (Some (path (host binding)))
      | PENDING => Stuck AssertFailed
      end
  end.

(** substitute_binding(): status 0 or 1 and the updated path.  The status of
    substitute_path_prefix() is ignored: on ENAMETOOLONG the path is unchanged. *)
Definition substitute_binding (fs : FileSystemNameSpace) (side : Side) (p : cstr)
  : res (Z * cstr) :=
  let! binding := get_binding fs side p in
  match binding with
  | None => Err ENOENT
  | Some binding =>
      if negb (need_substitution binding) then Ok (0, p)
      else
        match side with
        | PENDING => Stuck AssertFailed
        | _ =>
            let ref := match side with GUEST => guest binding | _ => host binding end in
            let reverse_ref := match side with GUEST => host binding | _ => guest binding end in
            match substitute_path_prefix p (plength ref) (path reverse_ref) (plength reverse_ref) with
            | Ok p' => Ok (1, p')
            | Err _ => Ok (1, p)
            | Stuck w => Stuck w
            end
        end
  end.

Definition remove_addr (b : Binding) (l : list Binding) : list Binding :=
  filter (fun x => b_addr x <> b_addr b) l.

Definition remove_binding_from_all_lists (fs : FileSystemNameSpace) (b : Binding)
  : FileSystemNameSpace :=
  mkFs (remove_addr b <$> bindings_pending fs)
       (remove_addr b <$> bindings_guest fs)
       (remove_addr b <$> bindings_host fs)
       (cwd fs).

(** CIRCLEQ_INSERT_AFTER and CIRCLEQ_INSERT_BEFORE. *)
Fixpoint insert_after (previous binding : Binding) (l : list Binding) : list Binding :=
  match l with
  | [] => []
  | x :: l => if decide (b_addr x = b_addr previous) then x :: binding :: l
              else x :: insert_after previous binding l
  end.

Fixpoint insert_before (next binding : Binding) (l : list Binding) : list Binding :=
  match l with
  | [] => []
  | x :: l => if decide (b_addr x = b_addr next) then binding :: x :: l
              else x :: insert_before next binding l
  end.

(** The outcome of the scan of insort_binding(): the binding to replace, or
    where to insert ([None] for [next] is the list head itself). *)
Inductive insort_scan :=
  | Replace (iterator : Binding)
  | Position (previous next : option Binding).

Fixpoint insort_loop (side : Side) (binding : Binding) (l : list Binding)
    (previous next : option Binding) : res insort_scan :=
  match l with
  | [] => Ok (Position previous next)
  | iterator :: l =>
      let binding_path := side_path side binding in
      let iterator_path := side_path side iterator in
      let! comparison := compare_paths2 (path binding_path) (plength binding_path)
                           (path iterator_path) (plength iterator_path) in
      match comparison with
      | PATHS_ARE_EQUAL =>
          match side with
          | HOST => insort_loop side binding l (Some iterator) next
          | _ => Ok (Replace iterator)
          end
      | PATH1_IS_PREFIX => insort_loop side binding l (Some iterator) next
      | PATH2_IS_PREFIX =>
          insort_loop side binding l previous
            (match next with None => Some iterator | Some _ => next end)
      | PATHS_ARE_NOT_COMPARABLE => insort_loop side binding l previous next
      end
  end.

Definition insort_binding (fs : FileSystemNameSpace) (side : Side) (binding : Binding)
  : res FileSystemNameSpace :=
  let! l := list_of fs side in
  let! scan := insort_loop side binding l None (head l) in
  match scan with
  | Replace iterator =>
      Ok (remove_binding_from_all_lists
            (set_HEAD fs side (insert_after iterator binding l)) iterator)
  | Position (Some previous) _ => Ok (set_HEAD fs side (insert_after previous binding l))
  | Position None (Some next) => Ok (set_HEAD fs side (insert_before next binding l))
  | Position None None => Ok (set_HEAD fs side (binding :: l))
  end.

(** insort_binding2(): also the binding with its final [need_substitution]. *)
Definition insort_binding2 (fs : FileSystemNameSpace) (binding : Binding)
  : res (Binding * FileSystemNameSpace) :=
  let! comparison := compare_paths (path (host binding)) (path (guest binding)) in
  let binding := mkBinding (b_addr binding) (host binding) (guest binding)
                   (bool_decide (comparison <> PATHS_ARE_EQUAL)) (must_exist binding)
                   (access_mode binding) (b_type binding) in
  let! fs := insort_binding fs GUEST binding in
  let! fs := insort_binding fs HOST binding in
  Ok (binding, fs).

Definition new_path (p : cstr) : Path := mkPath p (length p).

(** [addr] is the address talloc_zero() returned. *)
Definition insort_binding3_with_mode (fs : FileSystemNameSpace) (addr : nat)
    (host_path guest_path : cstr) (mode : BindingAccess) : res (Binding * FileSystemNameSpace) :=
  insort_binding2 fs (mkBinding addr (new_path host_path) (new_path guest_path)
                        false false mode BINDING_TYPE_REGULAR).

Definition insort_binding3 (fs : FileSystemNameSpace) (addr : nat)
    (host_path guest_path : cstr) : res (Binding * FileSystemNameSpace) :=
  insort_binding3_with_mode fs addr host_path guest_path BINDING_ACCESS_RW.

(** An update of the fields of a linked binding is seen by the three lists. *)
Definition update_binding (f : Binding -> Binding) (addr : nat) (fs : FileSystemNameSpace)
  : FileSystemNameSpace :=
  let upd := map (fun b => if decide (b_addr b = addr) then f b else b) in
  mkFs (upd <$> bindings_pending fs) (upd <$> bindings_guest fs)
       (upd <$> bindings_host fs) (cwd fs).

Definition copy_fields (source b : Binding) : Binding :=
  mkBinding (b_addr b) (host b) (guest b) (need_substitution b)
    (must_exist source) (access_mode source) (b_type source).

Definition copy_binding (fs : FileSystemNameSpace) (addr : nat) (source : Binding)
  : res (Binding * FileSystemNameSpace) :=
  let! (binding, fs) := insort_binding3 fs addr (path (host source)) (path (guest source)) in
  Ok (copy_fields source binding, update_binding (copy_fields source) addr fs).

(** check_binding_mode(): 0, -EROFS or -EACCES. *)
Definition check_binding_mode (binding : option Binding) (is_write : bool) : res unit :=
  match binding with
  | None => Ok ()
  | Some binding =>
      if decide (access_mode binding = BINDING_ACCESS_MASK) then Err EACCES
      else if is_write && bool_decide (access_mode binding = BINDING_ACCESS_RO) then Err EROFS
      else if negb is_write && bool_decide (access_mode binding = BINDING_ACCESS_WO)
      then Err EACCES
      else Ok ()
  end.

Definition check_binding_access (fs : FileSystemNameSpace) (guest_path : cstr)
    (is_write : bool) : res unit :=
  if negb (absolute guest_path) then Ok ()
  else
    let! binding := get_binding fs GUEST guest_path in
    check_binding_mode binding is_write.

Fixpoint readonly_descendant_loop (p : cstr) (l : list Binding) : res bool :=
  match l with
  | [] => Ok false
  | binding :: l =>
      if bool_decide (access_mode binding = BINDING_ACCESS_RO) then
        let! comparison := compare_paths2 p (length p) (path (guest binding))
                             (plength (guest binding)) in
        if bool_decide (comparison = PATH1_IS_PREFIX) then Ok true
        else readonly_descendant_loop p l
      else readonly_descendant_loop p l
  end.

Definition binding_has_readonly_descendant (fs : FileSystemNameSpace) (p : cstr) : res bool :=
  match bindings_guest fs with
  | None => Ok false
  | Some l => readonly_descendant_loop p l
  end.

(** ** Well-formed lists *)

(** The key a side's list is sorted by, as a component list. *)
Definition key (side : Side) (b : Binding) : list cstr := components (path (side_path side b)).

Definition wf_path (p : Path) : Prop :=
  path p = render (components (path p)) /\ plength p = length (path p)
  /\ Forall name_ok (components (path p)).

(** A binding never hides a deeper binding that comes after it: the deepest
    containers come first.  Only the HOST list may hold equal keys. *)
Definition precedes (side : Side) (x y : Binding) : Prop :=
  ~ key side x `prefix_of` key side y \/ (side = HOST /\ key side x = key side y).

Record side_ok (side : Side) (l : list Binding) : Prop := {
  side_paths : Forall (fun b => wf_path (side_path side b)) l;
  side_nodup : NoDup (b_addr <$> l);
  side_sorted : StronglySorted (precedes side) l
}.

Definition fs_ok (fs : FileSystemNameSpace) : Prop :=
  forall side l, HEAD fs side = Some l -> side_ok side l.

Lemma wf_new_path cs : Forall name_ok cs -> wf_path (new_path (render cs)).
Proof.
  intros H. split; simpl; rewrite components_render by auto with proot; auto.
Qed.

Lemma compare2_wf p q :
  wf_path p -> wf_path q ->
  compare_paths2 (path p) (plength p) (path q) (plength q)
  = Ok (compare_components (components (path p)) (components (path q))).
Proof.
  intros (Hp & Hlp & Np) (Hq & Hlq & Nq). rewrite Hlp, Hlq.
  fold (compare_paths (path p) (path q)). rewrite Hp, Hq at 1. by apply compare_render.
Qed.

Lemma compare2_key p cs :
  wf_path p -> Forall name_ok cs ->
  compare_paths2 (path p) (plength p) (render cs) (length (render cs))
  = Ok (compare_components (components (path p)) cs).
Proof.
  intros Hp Hcs. pose proof (compare2_wf p (new_path (render cs)) Hp (wf_new_path cs Hcs)) as H.
  simpl in H. by rewrite components_render in H by auto with proot.
Qed.

(** What the four outcomes of the comparison mean. *)
Lemma compare_components_spec a b :
  match compare_components a b with
  | PATHS_ARE_EQUAL => a = b
  | PATH1_IS_PREFIX => a `prefix_of` b /\ a <> b
  | PATH2_IS_PREFIX => b `prefix_of` a /\ a <> b /\ ~ a `prefix_of` b
  | PATHS_ARE_NOT_COMPARABLE => ~ a `prefix_of` b /\ ~ b `prefix_of` a
  end.
Proof.
  unfold compare_components, comps_prefix.
  repeat case_bool_decide; auto.
Qed.

Lemma compare_components_equal a b : compare_components a b = PATHS_ARE_EQUAL <-> a = b.
Proof.
  split; [|intros ->; unfold compare_components; by rewrite bool_decide_eq_true_2].
  intros E. pose proof (compare_components_spec a b) as H. by rewrite E in H.
Qed.

Lemma prefix_comparable {A} (a b p : list A) :
  a `prefix_of` p -> b `prefix_of` p -> a `prefix_of` b \/ b `prefix_of` a.
Proof. apply prefix_weak_total. Qed.

Lemma prefix_eq {A} (a b : list A) : a `prefix_of` b -> b `prefix_of` a -> a = b.
Proof. intros H1 H2. by apply (anti_symm (prefix (A:=A))). Qed.

Lemma in_addr (l : list Binding) x : x ∈ l -> b_addr x ∈ b_addr <$> l.
Proof. intros H. by apply list_elem_of_fmap_2. Qed.

(** *** Insertion by address *)

Lemma insert_after_app l1 x b l2 :
  NoDup (b_addr <$> l1 ++ x :: l2) ->
  insert_after x b (l1 ++ x :: l2) = l1 ++ x :: b :: l2.
Proof.
  induction l1 as [|y l1 IH]; simpl; intros H; [by rewrite decide_True|].
  apply NoDup_cons in H as [Hy H]. rewrite decide_False; [by rewrite IH|].
  intros E. apply Hy. rewrite E. apply in_addr. set_solver.
Qed.

Lemma remove_addr_app l1 x l2 :
  NoDup (b_addr <$> l1 ++ x :: l2) -> remove_addr x (l1 ++ x :: l2) = l1 ++ l2.
Proof.
  intros H. unfold remove_addr. rewrite fmap_app, fmap_cons in H.
  apply NoDup_app in H as (_ & Hd & H). apply NoDup_cons in H as [Hx _].
  rewrite filter_app, filter_cons_False by auto. f_equal; apply list_filter_id.
  - intros y Hy E. apply (Hd (b_addr y)); [by apply in_addr|]. rewrite E. apply list_elem_of_here.
  - intros y Hy E. apply Hx. rewrite <- E. by apply in_addr.
Qed.

Lemma remove_addr_sublist x l : remove_addr x l `sublist_of` l.
Proof. apply sublist_filter. Qed.

Lemma Forall_sublist {A} (P : A -> Prop) l k : k `sublist_of` l -> Forall P l -> Forall P k.
Proof.
  rewrite !Forall_forall. intros Hs Hl x Hx. apply Hl. by eapply elem_of_sublist.
Qed.

Lemma StronglySorted_sublist {A} (R : A -> A -> Prop) l k :
  k `sublist_of` l -> StronglySorted R l -> StronglySorted R k.
Proof.
  intros Hs Hl. induction Hs as [|x k l Hs IH|x k l Hs IH]; [constructor| |].
  - inversion Hl; subst. constructor; [auto|]. eapply Forall_sublist; eauto.
  - inversion Hl; subst; auto.
Qed.

Lemma side_ok_sublist side l k : k `sublist_of` l -> side_ok side l -> side_ok side k.
Proof.
  intros Hs [H1 H2 H3]. split.
  - by eapply Forall_sublist.
  - eapply sublist_NoDup; [exact H2|]. by apply fmap_sublist.
  - by eapply StronglySorted_sublist.
Qed.

(** ** insort_binding() keeps the lists well-formed *)

Definition contains (side : Side) (b x : Binding) : Prop := key side b `prefix_of` key side x.

(** What a scan without a replacement returns: the last contained binding, if
    any. *)
Record scan_post (side : Side) (b : Binding) (l : list Binding)
    (p n p' n' : option Binding) : Prop := {
  scan_next : is_Some n \/ l = [] -> n' = n;
  scan_previous :
    (p' = p /\ forall x, x ∈ l -> ~ contains side b x) \/
    (exists l1 x l2, p' = Some x /\ l = l1 ++ x :: l2 /\ contains side b x
       /\ forall y, y ∈ l2 -> ~ contains side b y);
  scan_fresh : side <> HOST -> forall x, x ∈ l -> key side x <> key side b
}.

Lemma scan_post_contained side b it l p n p' n' :
  contains side b it -> (side <> HOST -> key side it <> key side b) ->
  scan_post side b l (Some it) n p' n' -> scan_post side b (it :: l) p n p' n'.
Proof.
  intros Hc Hk [H1 H2 H3]. split.
  - intros [Hn|Hn]; [auto|done].
  - right. destruct H2 as [[-> H2] | (l1 & x & l2 & -> & -> & H4 & H5)].
    + by exists [], it, l.
    + by exists (it :: l1), x, l2.
  - intros Hs x Hx. apply elem_of_cons in Hx as [-> | Hx]; auto.
Qed.

Lemma scan_post_skip side b it l p n n0 p' n' :
  ~ contains side b it -> (is_Some n -> n0 = n) ->
  scan_post side b l p n0 p' n' -> scan_post side b (it :: l) p n p' n'.
Proof.
  intros Hc Hn [H1 H2 H3]. split.
  - intros [Hs|Hs]; [|done]. specialize (Hn Hs). subst n0. auto.
  - destruct H2 as [[-> H2] | (l1 & x & l2 & -> & -> & H4 & H5)].
    + left. split; [done|]. intros x Hx. apply elem_of_cons in Hx as [-> | Hx]; auto.
    + right. by exists (it :: l1), x, l2.
  - intros Hs x Hx. apply elem_of_cons in Hx as [-> | Hx]; auto.
    intros E. apply Hc. unfold contains. by rewrite E.
Qed.

Lemma insort_loop_ok side b l p n :
  Forall (fun b => wf_path (side_path side b)) l -> wf_path (side_path side b) ->
  (exists p' n', insort_loop side b l p n = Ok (Position p' n') /\ scan_post side b l p n p' n')
  \/ (exists it, insort_loop side b l p n = Ok (Replace it) /\ it ∈ l /\ side <> HOST
       /\ key side it = key side b).
Proof.
  intros Hl Hb. revert p n. induction Hl as [|it l Hit Hl IH]; intros p n; simpl.
  { left. exists p, n. split; [done|]. split; set_solver. }
  rewrite compare2_wf by done. simpl. fold (key side b) (key side it).
  pose proof (compare_components_spec (key side b) (key side it)) as Hc.
  assert (Hlift : forall p0 n0,
    (forall p' n', scan_post side b l p0 n0 p' n' -> scan_post side b (it :: l) p n p' n') ->
    (exists p' n', insort_loop side b l p0 n0 = Ok (Position p' n')
       /\ scan_post side b (it :: l) p n p' n')
    \/ (exists x, insort_loop side b l p0 n0 = Ok (Replace x) /\ x ∈ it :: l /\ side <> HOST
         /\ key side x = key side b)).
  { intros p0 n0 Hpost. destruct (IH p0 n0) as [(p' & n' & H1 & H2) | (x & H1 & H2 & H3)].
    - left. exists p', n'. auto.
    - right. exists x. set_solver. }
  destruct (compare_components (key side b) (key side it)).
  - destruct side; [right | apply Hlift | right].
    1, 3: (exists it; set_solver).
    intros p' n'. apply scan_post_contained; [|done]. unfold contains. by rewrite Hc.
  - apply Hlift. intros p' n'. apply scan_post_contained; [apply Hc|]. intros _ E. by apply Hc.
  - apply Hlift. intros p' n'. apply scan_post_skip; [apply Hc|]. by destruct n; [|intros []].
  - apply Hlift. intros p' n'. apply scan_post_skip; [apply Hc | done].
Qed.

Lemma side_ok_head side b l :
  side_ok side l -> wf_path (side_path side b) -> b_addr b ∉ b_addr <$> l ->
  (forall x, x ∈ l -> ~ contains side b x) -> side_ok side (b :: l).
Proof.
  intros [H1 H2 H3] Hb Ha Hc. split.
  - by constructor.
  - by constructor.
  - constructor; [done|]. apply Forall_forall. intros x Hx. left. by apply Hc.
Qed.

Lemma side_ok_middle side b l1 x l2 :
  side_ok side (l1 ++ x :: l2) -> wf_path (side_path side b) ->
  b_addr b ∉ b_addr <$> l1 ++ x :: l2 -> contains side b x ->
  (side = HOST \/ key side x <> key side b) ->
  (forall y, y ∈ l2 -> ~ contains side b y) -> side_ok side (l1 ++ x :: b :: l2).
Proof.
  intros [H1 H2 H3] Hb Ha Hc Hk Hl2.
  assert (Hp : l1 ++ x :: b :: l2 ≡ₚ b :: l1 ++ x :: l2) by (rewrite (Permutation_swap b x l2); symmetry; apply Permutation_middle).
  split.
  - rewrite Hp. by constructor.
  - rewrite Hp. by constructor.
  - apply StronglySorted_app in H3 as (H4 & H5 & H6).
    inversion H6 as [|? ? H7 H8]; subst. rewrite Forall_forall in H8.
    assert (Hbefore : forall z, z ∈ l1 ++ [x] -> precedes side z b).
    { intros z Hz. destruct (decide (key side z = key side b)) as [E|E].
      - right. split; [|done]. destruct Hk as [Hk|Hk]; [done|].
        apply elem_of_app in Hz as [Hz|Hz]; [|set_solver].
        destruct (H4 z x Hz ltac:(set_solver)) as [Hn|[? ?]]; [|done]. destruct Hn. by rewrite E.
      - left. intros Hzb. apply E. apply prefix_eq; [done|].
        assert (Hzx : key side z `prefix_of` key side x) by (by trans (key side b)).
        apply elem_of_app in Hz as [Hz|Hz].
        + destruct (H4 z x Hz ltac:(set_solver)) as [Hn|[? Ez]]; [done|]. by rewrite Ez.
        + apply list_elem_of_singleton in Hz as ->. done. }
    apply StronglySorted_app. split; [|split; [done|]].
    + intros z y Hz Hy. apply elem_of_cons in Hy as [-> | Hy]; [apply H4; set_solver|].
      apply elem_of_cons in Hy as [-> | Hy]; [apply Hbefore; set_solver | apply H4; set_solver].
    + constructor; [constructor; [done|]|].
      * apply Forall_forall. intros y Hy. left. by apply Hl2.
      * constructor; [apply Hbefore; set_solver|]. by apply Forall_forall.
Qed.

(** Replacing a binding by one with the same key. *)
Lemma side_ok_replace side b l1 x l2 :
  side_ok side (l1 ++ x :: l2) -> wf_path (side_path side b) ->
  b_addr b ∉ b_addr <$> l1 ++ x :: l2 -> key side x = key side b ->
  side_ok side (l1 ++ b :: l2).
Proof.
  intros [H1 H2 H3] Hb Ha Hk.
  rewrite fmap_app, fmap_cons in *. apply NoDup_app in H2 as (N1 & N2 & N3).
  apply Forall_app in H1 as [F1 F2]. apply StronglySorted_app in H3 as (S1 & S2 & S3).
  inversion F2; inversion S3 as [|? ? S4 S5]; subst. rewrite Forall_forall in S5.
  apply NoDup_cons in N3 as [N3 N4]. split.
  - apply Forall_app. split; [done | by constructor].
  - rewrite fmap_app, fmap_cons. apply NoDup_app. split; [done|]. split; [set_solver|].
    apply NoDup_cons. set_solver.
  - unfold precedes in *. apply StronglySorted_app. split; [|split; [done|]].
    + intros z y Hz Hy. apply elem_of_cons in Hy as [-> | Hy]; [|apply S1; set_solver].
      rewrite <- Hk. apply S1; set_solver.
    + constructor; [done|]. apply Forall_forall. intros y Hy. rewrite <- Hk. by apply S5.
Qed.

Lemma HEAD_set fs side l side' :
  HEAD (set_HEAD fs side l) side' = if decide (side' = side) then Some l else HEAD fs side'.
Proof. by destruct side, side'. Qed.

Lemma HEAD_remove fs x side :
  HEAD (remove_binding_from_all_lists fs x) side = remove_addr x <$> HEAD fs side.
Proof. by destruct side. Qed.

Lemma set_HEAD_ok fs side l : fs_ok fs -> side_ok side l -> fs_ok (set_HEAD fs side l).
Proof.
  intros Hfs Hl side' l' E. rewrite HEAD_set in E. case_decide; [|by apply Hfs].
  by simplify_eq.
Qed.

(** The list a binding is inserted into: what it holds afterwards. *)
Definition inserted (side : Side) (b : Binding) (l l' : list Binding) : Prop :=
  forall x, x ∈ l' <-> x = b \/ (x ∈ l /\ (side = HOST \/ key side x <> key side b)).

(** GUEST and PENDING lists hold a key once. *)
Lemma side_ok_unique side l1 it l2 x :
  side <> HOST -> side_ok side (l1 ++ it :: l2) -> x ∈ l1 ++ l2 -> key side x <> key side it.
Proof.
  intros Hs [_ _ H] Hx E. apply StronglySorted_app in H as (H1 & _ & H2).
  inversion H2 as [|? ? _ H3]; subst. rewrite Forall_forall in H3.
  apply elem_of_app in Hx as [Hx|Hx].
  - destruct (H1 x it Hx ltac:(set_solver)) as [Hn|[? _]]; [|done]. apply Hn. by rewrite E.
  - destruct (H3 x Hx) as [Hn|[? _]]; [|done]. apply Hn. by rewrite E.
Qed.

Lemma insort_binding_spec fs side b l :
  fs_ok fs -> HEAD fs side = Some l -> wf_path (side_path side b) ->
  b_addr b ∉ b_addr <$> l ->
  exists fs' l', insort_binding fs side b = Ok fs' /\ fs_ok fs' /\ HEAD fs' side = Some l'
    /\ inserted side b l l'
    /\ exists D : list nat, (side = HOST -> D = []) /\
         forall side', side' <> side ->
           HEAD fs' side' = filter (fun x => b_addr x ∉ D) <$> HEAD fs side'.
Proof.
  intros Hfs Hl Hb Ha. pose proof (Hfs side l Hl) as Hok. pose proof Hok as [Hwf Hnd Hs].
  unfold insort_binding, list_of. rewrite Hl. simpl.
  assert (Hframe : forall l', exists D : list nat, (side = HOST -> D = []) /\
    forall side', side' <> side -> HEAD (set_HEAD fs side l') side'
      = filter (fun x => b_addr x ∉ D) <$> HEAD fs side').
  { intros l'. exists []. split; [done|]. intros side' Hne. rewrite HEAD_set, decide_False by done.
    destruct (HEAD fs side') as [k|]; [|done]. simpl. f_equal. symmetry.
    apply list_filter_id. intros. apply not_elem_of_nil. }
  destruct (insort_loop_ok side b l None (head l) Hwf Hb)
    as [(p' & n' & -> & [Hn Hp Hf]) | (it & -> & Hin & Hside & Hk)]; simpl.
  - destruct Hp as [[-> Hnone] | (l1 & x & l2 & -> & -> & Hcx & Hl2)].
    + assert (Hres : exists l', Ok (set_HEAD fs side l') =
        match n' with
        | Some next => Ok (set_HEAD fs side (insert_before next b l))
        | None => Ok (set_HEAD fs side (b :: l))
        end /\ l' = b :: l).
      { destruct l as [|h l0]; [rewrite Hn by auto; eauto|].
        rewrite Hn by (left; eauto). simpl. rewrite decide_True by done. eauto. }
      destruct Hres as (l' & <- & ->). eexists _, _. split; [done|]. split.
      { apply set_HEAD_ok; [done|]. by apply side_ok_head. }
      rewrite HEAD_set, decide_True by done. split; [done|]. split; [|apply Hframe].
      intros x. rewrite elem_of_cons. split; [|tauto]. intros [->|Hx]; [auto|].
      right. split; [done|]. destruct (decide (side = HOST)); auto.
    + rewrite insert_after_app by done. eexists _, _. split; [done|]. 
      assert (Hkx : side = HOST \/ key side x <> key side b).
      { destruct (decide (side = HOST)); [auto|]. right. apply Hf; set_solver. }
      split.
      { apply set_HEAD_ok; [done|]. by apply side_ok_middle. }
      rewrite HEAD_set, decide_True by done. split; [done|]. split; [|apply Hframe].
      intros y. rewrite !elem_of_app, !elem_of_cons.
      destruct (decide (side = HOST)) as [|Hns]; [tauto|]. specialize (Hf Hns y).
      rewrite elem_of_app, elem_of_cons in Hf. tauto.
  - apply list_elem_of_split in Hin as (l1 & l2 & ->).
    rewrite insert_after_app by done.
    assert (Hrm : remove_addr it (l1 ++ it :: b :: l2) = l1 ++ b :: l2).
    { apply remove_addr_app. rewrite !fmap_app, !fmap_cons in *. simpl in *.
      rewrite NoDup_app, !NoDup_cons in *. set_solver. }
    eexists _, _. split; [done|]. split.
    { intros side' k E. rewrite HEAD_remove, HEAD_set in E. case_decide; simplify_eq/=.
      - rewrite Hrm. by eapply side_ok_replace.
      - apply fmap_Some in E as (k' & E & ->). 
        eapply side_ok_sublist; [apply remove_addr_sublist|]. by apply Hfs. }
    rewrite HEAD_remove, HEAD_set, decide_True by done. simpl. split; [done|]. rewrite Hrm. split.
    + intros x. rewrite !elem_of_app, !elem_of_cons. split.
      * intros Hx. destruct (decide (x = b)) as [->|Hxb]; [auto|]. right.
        split; [tauto|]. right. rewrite <- Hk. eapply side_ok_unique; eauto. set_solver.
      * intros [->|[Hx [?|Hne]]]; [auto|done|]. destruct Hx as [?|[->|?]]; [auto|done|auto].
    + exists [b_addr it]. split; [done|]. intros side' Hne. rewrite HEAD_remove, HEAD_set, decide_False by done.
      destruct (HEAD fs side'); [|done]. simpl. f_equal. unfold remove_addr.
      apply list_filter_iff. intros y. by rewrite list_elem_of_singleton.
Qed.

(** ** Lookup *)

(** [b] is the binding a canonical path belongs to: the deepest container. *)
Definition deepest (side : Side) (l : list Binding) (p : list cstr) (b : Binding) : Prop :=
  b ∈ l /\ key side b `prefix_of` p /\
  forall b', b' ∈ l -> key side b' `prefix_of` p -> key side b' `prefix_of` key side b.

Definition not_bound (side : Side) (l : list Binding) (p : list cstr) : Prop :=
  forall b, b ∈ l -> ~ key side b `prefix_of` p.

Lemma sorted_first_deepest side l1 b l2 p :
  StronglySorted (precedes side) (l1 ++ b :: l2) -> not_bound side l1 p ->
  key side b `prefix_of` p -> deepest side (l1 ++ b :: l2) p b.
Proof.
  intros Hs Hn Hp. split; [set_solver|]. split; [done|]. intros b' Hin Hb'.
  apply StronglySorted_app in Hs as (_ & _ & Hs). inversion Hs as [|? ? _ Hs']; subst.
  rewrite Forall_forall in Hs'.
  apply elem_of_app in Hin as [Hin|Hin]; [by destruct (Hn b' Hin)|].
  apply elem_of_cons in Hin as [-> | Hin]; [done|].
  destruct (Hs' b' Hin) as [H|[_ H]]; [|by rewrite H].
  by destruct (prefix_comparable _ _ _ Hp Hb') as [?|?].
Qed.

Lemma deepest_unique side l p b b' :
  deepest side l p b -> deepest side l p b' -> key side b = key side b'.
Proof. intros (H1 & H2 & H3) (H4 & H5 & H6). apply prefix_eq; auto. Qed.

(** The test of the lookup loop. *)
Lemma lookup_test a p :
  bool_decide (compare_components a p <> PATHS_ARE_EQUAL)
  && bool_decide (compare_components a p <> PATH1_IS_PREFIX)
  = negb (comps_prefix a p).
Proof.
  unfold compare_components, comps_prefix. destruct (bool_decide (a = p)) eqn:E1.
  - apply bool_decide_eq_true in E1 as ->. by rewrite (bool_decide_eq_true_2 (p `prefix_of` p)).
  - destruct (bool_decide (a `prefix_of` p)); [done|]. by destruct (bool_decide (p `prefix_of` a)).
Qed.

Lemma get_binding_loop_guest fs l0 l p :
  Forall (fun b => wf_path (guest b)) l -> Forall name_ok p ->
  StronglySorted (precedes GUEST) (l0 ++ l) -> not_bound GUEST l0 p ->
  (exists b, get_binding_loop fs GUEST (render p) l = Ok (Some b) /\ deepest GUEST (l0 ++ l) p b)
  \/ (get_binding_loop fs GUEST (render p) l = Ok None /\ not_bound GUEST (l0 ++ l) p).
Proof.
  intros Hl Hp. revert l0. induction Hl as [|b l Hb Hl IH]; intros l0 Hs Hn; simpl.
  - right. by rewrite app_nil_r.
  - rewrite compare2_key by done. cbn [res_bind]. rewrite lookup_test.
    unfold comps_prefix. case_bool_decide as E; cbn [negb].
    + left. exists b. split; [done|]. by apply sorted_first_deepest.
    + specialize (IH (l0 ++ [b])). rewrite <- app_assoc in IH. apply IH; [done|].
      intros x Hx. apply elem_of_app in Hx as [Hx|Hx]; [by apply Hn|].
      apply list_elem_of_singleton in Hx as ->. done.
Qed.

Lemma get_binding_guest fs l p :
  fs_ok fs -> bindings_guest fs = Some l -> Forall name_ok p ->
  (exists b, get_binding fs GUEST (render p) = Ok (Some b) /\ deepest GUEST l p b)
  \/ (get_binding fs GUEST (render p) = Ok None /\ not_bound GUEST l p).
Proof.
  intros Hfs Hl Hp. destruct (Hfs GUEST l Hl) as [H1 _ H3].
  unfold get_binding, list_of. rewrite absolute_render. simpl. rewrite Hl. simpl.
  apply (get_binding_loop_guest fs [] l p); auto. by intros b Hb%elem_of_nil.
Qed.

(** The deepest binding is unique, hence it is the one get_binding() returns. *)
Lemma get_binding_the fs l p b :
  fs_ok fs -> bindings_guest fs = Some l -> Forall name_ok p -> deepest GUEST l p b ->
  get_binding fs GUEST (render p) = Ok (Some b).
Proof.
  intros Hok Hl Hp Hd.
  destruct (get_binding_guest fs l p Hok Hl Hp) as [(b' & -> & Hd') | (_ & Hn)].
  2: { destruct Hd as (Hin & Hpre & _). by destruct (Hn b Hin). }
  assert (b' = b) as ->.
  { pose proof (deepest_unique _ _ _ _ _ Hd Hd') as Hk. destruct Hd as (Hb & _), Hd' as (Hb' & _).
    destruct (decide (b' = b)) as [|Hne]; [done|]. exfalso.
    apply list_elem_of_split in Hb as (l1 & l2 & ->).
    eapply (side_ok_unique GUEST l1 b l2 b'); [done|by apply Hok| |by rewrite Hk].
    set_solver. }
  done.
Qed.

(** The root of a name-space whose bindings are initialised. *)
Definition rooted (fs : FileSystemNameSpace) (root : list cstr) : Prop :=
  exists l b, bindings_guest fs = Some l /\ last l = Some b /\ path (guest b) = bs "/"
    /\ path (host b) = render root /\ Forall name_ok root.

Lemma root_string_ok fs root : rooted fs root -> root_string fs = Ok (render root).
Proof.
  intros (l & b & Hl & Hb & Hg & Hh & _). unfold root_string, get_root. rewrite Hl, Hb, Hg, Hh.
  done.
Qed.

Lemma belongs_to_guestfs_ok fs root p :
  rooted fs root -> Forall name_ok p ->
  belongs_to_guestfs fs (render p) = Ok (comps_prefix root p).
Proof.
  intros Hr Hp. unfold belongs_to_guestfs. rewrite (root_string_ok fs root Hr). cbn [res_bind].
  destruct Hr as (_ & _ & _ & _ & _ & _ & Hroot). rewrite compare_render by done. cbn [res_bind].
  f_equal. unfold compare_components, comps_prefix. destruct (bool_decide (root = p)) eqn:E1.
  - apply bool_decide_eq_true in E1 as ->. by rewrite (bool_decide_eq_true_2 (p `prefix_of` p)).
  - destruct (bool_decide (root `prefix_of` p)); [done|].
    by destruct (bool_decide (p `prefix_of` root)).
Qed.

Lemma guard_skip_all_ok fs root p :
  rooted fs root -> Forall name_ok p ->
  guard_skip_all fs (render p) = Ok (bool_decide (root <> []) && comps_prefix root p).
Proof.
  intros Hr Hp. unfold guard_skip_all. rewrite (root_string_ok fs root Hr). cbn [res_bind].
  assert (Hroot : Forall name_ok root) by by destruct Hr as (_ & _ & _ & _ & _ & _ & ?).
  change (bs "/") with (render []). rewrite (compare_render root []) by auto. cbn [res_bind].
  rewrite (belongs_to_guestfs_ok fs root) by done. destruct root as [|c root]; [done|].
  assert (E : compare_components (c :: root) [] = PATH2_IS_PREFIX).
  { unfold compare_components, comps_prefix.
    rewrite (bool_decide_eq_false_2 (_ = _)) by done.
    rewrite (bool_decide_eq_false_2 (_ `prefix_of` [])) by (by intros [? ?]).
    by rewrite bool_decide_eq_true_2 by apply prefix_nil. }
  by rewrite E.
Qed.

Lemma get_binding_loop_host fs root l0 l p :
  rooted fs root -> Forall (fun b => wf_path (host b)) l -> Forall name_ok p ->
  StronglySorted (precedes HOST) (l0 ++ l) -> not_bound HOST l0 p ->
  (exists b, get_binding_loop fs HOST (render p) l
             = Ok (if bool_decide (root <> []) && comps_prefix root p then None else Some b)
             /\ deepest HOST (l0 ++ l) p b)
  \/ (get_binding_loop fs HOST (render p) l = Ok None /\ not_bound HOST (l0 ++ l) p).
Proof.
  intros Hr Hl Hp. revert l0. induction Hl as [|b l Hb Hl IH]; intros l0 Hs Hn; simpl.
  - right. by rewrite app_nil_r.
  - rewrite compare2_key by done. cbn [res_bind]. rewrite lookup_test.
    destruct (comps_prefix (components (path (host b))) p) eqn:E; cbn [negb];
      [apply bool_decide_eq_true in E | apply bool_decide_eq_false in E].
    + left. exists b. rewrite (guard_skip_all_ok fs root) by done. cbn [res_bind].
      split; [|by apply sorted_first_deepest]. by destruct (_ && _).
    + specialize (IH (l0 ++ [b])). rewrite <- app_assoc in IH. apply IH; [done|].
      intros x Hx. apply elem_of_app in Hx as [Hx|Hx]; [by apply Hn|].
      apply list_elem_of_singleton in Hx as ->. done.
Qed.

Lemma get_binding_host fs root l p :
  rooted fs root -> fs_ok fs -> bindings_host fs = Some l -> Forall name_ok p ->
  (exists b, get_binding fs HOST (render p)
             = Ok (if bool_decide (root <> []) && comps_prefix root p then None else Some b)
             /\ deepest HOST l p b)
  \/ (get_binding fs HOST (render p) = Ok None /\ not_bound HOST l p).
Proof.
  intros Hr Hfs Hl Hp. destruct (Hfs HOST l Hl) as [H1 _ H3].
  unfold get_binding, list_of. rewrite absolute_render. simpl. rewrite Hl. simpl.
  apply (get_binding_loop_host fs root [] l p); auto. by intros b Hb%elem_of_nil.
Qed.

(** ** Substitution *)

Definition binding_wf (b : Binding) : Prop :=
  wf_path (host b) /\ wf_path (guest b)
  /\ need_substitution b = bool_decide (key HOST b <> key GUEST b).

Definition fs_wf (fs : FileSystemNameSpace) : Prop :=
  fs_ok fs /\ forall side l, side <> PENDING -> HEAD fs side = Some l -> Forall binding_wf l.

(** The other point of view. *)
Definition opposite (side : Side) : Side := match side with GUEST => HOST | _ => GUEST end.

Definition rewrite_key (side : Side) (b : Binding) (p : list cstr) : list cstr :=
  key (opposite side) b ++ drop (length (key side b)) p.

Lemma prefix_drop {A} (a p : list A) : a `prefix_of` p -> p = a ++ drop (length a) p.
Proof. intros [k ->]. by rewrite drop_app_length. Qed.

Lemma Forall_prefix {A} (P : A -> Prop) a p : a `prefix_of` p -> Forall P p -> Forall P a.
Proof. intros [k ->] H. by apply Forall_app in H as [? _]. Qed.

(** One substitution by a known binding. *)
Lemma substitute_by side b p :
  side <> PENDING -> binding_wf b -> Forall name_ok p -> key side b `prefix_of` p ->
  need_substitution b = true -> zlen (render p) < PATH_MAX ->
  zlen (path (side_path (opposite side) b))
    + zlen (render (drop (length (key side b)) p)) < PATH_MAX ->
  substitute_path_prefix (render p) (plength (side_path side b))
    (path (side_path (opposite side) b)) (plength (side_path (opposite side) b))
  = Ok (render (rewrite_key side b p)).
Proof.
  intros Hside (Hh & Hg & Hn) Hp Hpre Hneed Hl1 Hl2. rewrite Hn in Hneed.
  apply bool_decide_eq_true in Hneed.
  assert (Hw : forall s, s <> PENDING -> wf_path (side_path s b)) by by intros [].
  destruct (Hw side Hside) as (E1 & L1 & N1).
  destruct (Hw (opposite side) ltac:(by destruct side)) as (E2 & L2 & N2).
  rewrite L1, L2, E1, E2 in *. rewrite (prefix_drop _ _ Hpre) at 1.
  unfold rewrite_key, key in *. apply substitute_render; auto with proot.
  - apply name_ok_plain. by apply Forall_drop.
  - destruct (components (path (side_path side b))) eqn:Ea; [|by left]. right. intros Eb.
    destruct side; simpl in *; [by rewrite Ea, Eb in Hneed | by rewrite Ea, Eb in Hneed | done].
  - by rewrite <- (prefix_drop _ _ Hpre).
Qed.

Lemma rewrite_key_symmetric side b p :
  side <> PENDING -> binding_wf b -> key side b `prefix_of` p -> need_substitution b = false ->
  rewrite_key side b p = p.
Proof.
  intros Hs (_ & _ & Hn) Hp Hf. rewrite Hn in Hf. apply bool_decide_eq_false in Hf.
  apply dec_stable in Hf. unfold rewrite_key. rewrite (prefix_drop _ _ Hp) at 2.
  destruct side; simpl; congruence.
Qed.

Lemma substitute_binding_by fs side b p :
  side <> PENDING -> binding_wf b -> Forall name_ok p -> key side b `prefix_of` p ->
  get_binding fs side (render p) = Ok (Some b) -> zlen (render p) < PATH_MAX ->
  zlen (path (side_path (opposite side) b))
    + zlen (render (drop (length (key side b)) p)) < PATH_MAX ->
  substitute_binding fs side (render p)
  = Ok (if need_substitution b then 1 else 0, render (rewrite_key side b p)).
Proof.
  intros Hs Hb Hp Hpre Hget Hl1 Hl2. unfold substitute_binding. rewrite Hget. cbn [res_bind].
  destruct (need_substitution b) eqn:Hn; cbn [negb].
  - pose proof (substitute_by side b p Hs Hb Hp Hpre Hn Hl1 Hl2) as H.
    destruct side; [| |done]; simpl in *; by rewrite H.
  - by rewrite rewrite_key_symmetric.
Qed.

(** The cached paths of a binding fit in their buffers. *)
Definition sized (b : Binding) : Prop :=
  zlen (path (host b)) < PATH_MAX /\ zlen (path (guest b)) < PATH_MAX.

Definition fs_sized (fs : FileSystemNameSpace) : Prop :=
  forall side l, HEAD fs side = Some l -> Forall sized l.

(** Whatever the lengths, the result of a substitution is a path of names. *)
Lemma substitute_binding_total fs side b p :
  side <> PENDING -> binding_wf b -> sized b -> Forall name_ok p -> key side b `prefix_of` p ->
  get_binding fs side (render p) = Ok (Some b) -> zlen (render p) < PATH_MAX ->
  exists q, substitute_binding fs side (render p)
            = Ok (if need_substitution b then 1 else 0, render q)
    /\ Forall name_ok q /\ zlen (render q) < PATH_MAX /\ q ∈ [rewrite_key side b p; p].
Proof.
  intros Hs Hb Hsz Hp Hpre Hget Hl. unfold substitute_binding. rewrite Hget. cbn [res_bind].
  destruct (need_substitution b) eqn:Hn; cbn [negb].
  2: { exists p. repeat (split; [done|]). set_solver. }
  pose proof Hb as (Wh & Wg & Hneed). rewrite Hn in Hneed. symmetry in Hneed.
  apply bool_decide_eq_true in Hneed.
  assert (Hw : forall s, wf_path (side_path s b)) by by intros [].
  assert (Hz : forall s, zlen (path (side_path s b)) < PATH_MAX) by (destruct Hsz; by intros []).
  assert (Hk : Forall name_ok (rewrite_key side b p)).
  { apply Forall_app. split; [apply Hw | by apply Forall_drop]. }
  destruct (Hw side) as (E1 & L1 & N1), (Hw (opposite side)) as (E2 & L2 & N2).
  assert (Hsub : exists q, substitute_path_prefix (render p) (plength (side_path side b))
    (path (side_path (opposite side) b)) (plength (side_path (opposite side) b))
    ∈ [Ok (render q); Err ENAMETOOLONG] /\ q = rewrite_key side b p).
  { eexists. split; [|done]. rewrite L1, L2, E1 at 1. rewrite E2 at 1 2.
    rewrite (prefix_drop _ _ Hpre) at 1.
    apply substitute_total; auto with proot.
    - by apply name_ok_plain, Forall_drop.
    - destruct (components (path (side_path side b))) eqn:Ea; [|by left]. right. intros Eb.
      unfold key in Hneed. destruct side; simpl in *; congruence.
    - fold (key side b). by rewrite <- (prefix_drop _ _ Hpre).
    - rewrite <- E2. apply Hz. }
  destruct Hsub as (q & Hsub & Hq).
  assert (Hres : forall r, substitute_path_prefix (render p) (plength (side_path side b))
    (path (side_path (opposite side) b)) (plength (side_path (opposite side) b)) = Ok r ->
    zlen r < PATH_MAX).
  { intros r. rewrite L2. apply substitute_bound. }
  rewrite !elem_of_cons in Hsub. destruct Hsub as [Hsub | [Hsub | Hsub%elem_of_nil]]; [| |done].
  - exists q. destruct side; [| |done]; simpl in Hsub; rewrite Hsub; subst q;
      (split; [done|]; split; [done|]; split; [by apply Hres|]; set_solver).
  - exists p. destruct side; [| |done]; simpl in Hsub; rewrite Hsub; repeat (split; [done|]); set_solver.
Qed.

(** ** Totality on arbitrary absolute paths *)

Lemma absolute_nonempty p : absolute p = true -> p <> [].
Proof. by destruct p. Qed.

Lemma wf_path_nonempty p : wf_path p -> path p <> [].
Proof. intros (-> & _). by destruct (components (path p)). Qed.

(** A container is not longer than what it contains. *)
Lemma container_length cs p c :
  Forall plain cs -> p <> [] -> compare_paths (render cs) p = Ok c ->
  c = PATHS_ARE_EQUAL \/ c = PATH1_IS_PREFIX -> (length (render cs) <= length p)%nat.
Proof.
  intros Hcs Hp E Hc.
  destruct (compare_paths_total (render cs) p) as (c' & E' & H1 & H2); [by destruct cs | done|].
  rewrite E in E'. injection E' as <-. rewrite strip_render in H1, H2 by done.
  pose proof (strip_trailing_le p (length p)).
  assert (Hle : (length (joined cs) <= length p)%nat) by (destruct Hc; subst; intuition lia).
  destruct cs; [destruct p; simpl; [done|lia] | done].
Qed.

Lemma root_string_nonempty fs root : rooted fs root -> root_string fs = Ok (render root) /\ render root <> [].
Proof. intros H. split; [by apply root_string_ok | by destruct root]. Qed.

Lemma belongs_to_guestfs_total fs root p :
  rooted fs root -> p <> [] -> exists b, belongs_to_guestfs fs p = Ok b.
Proof.
  intros Hr Hp. unfold belongs_to_guestfs. rewrite (root_string_ok fs root Hr). cbn [res_bind].
  destruct (compare_paths_total (render root) p) as (c & -> & _); [by destruct root | done |].
  by eexists.
Qed.

Lemma guard_skip_all_total fs root p :
  rooted fs root -> p <> [] -> exists b, guard_skip_all fs p = Ok b.
Proof.
  intros Hr Hp. unfold guard_skip_all. rewrite (root_string_ok fs root Hr). cbn [res_bind].
  destruct (compare_paths_total (render root) (bs "/")) as (c & -> & _); [by destruct root | done |].
  cbn [res_bind]. case_bool; [|by eexists]. by apply (belongs_to_guestfs_total fs root).
Qed.

Lemma get_binding_loop_total fs root side p l :
  rooted fs root -> side <> PENDING -> p <> [] -> Forall (fun b => wf_path (side_path side b)) l ->
  exists o, get_binding_loop fs side p l = Ok o
    /\ forall b, o = Some b -> b ∈ l /\ (length (path (side_path side b)) <= length p)%nat.
Proof.
  intros Hr Hs Hp. induction 1 as [|b l Hb Hl IH]; [by exists None|].
  simpl. destruct Hb as (E & L & N).
  destruct (compare_paths_total (path (side_path side b)) p) as (c & Ec & _);
    [by rewrite E; destruct (components _) | done |].
  rewrite L. unfold compare_paths in Ec. rewrite Ec. cbn [res_bind].
  assert (Hlen : c = PATHS_ARE_EQUAL \/ c = PATH1_IS_PREFIX ->
                 (length (path (side_path side b)) <= length p)%nat).
  { rewrite E in Ec |- *. apply container_length; auto with proot; by apply name_ok_plain. }
  destruct (guard_skip_all_total fs root p Hr Hp) as [k Hk].
  assert (IH' : exists o, get_binding_loop fs side p l = Ok o /\
    forall b', o = Some b' -> b' ∈ b :: l /\ (length (path (side_path side b')) <= length p)%nat).
  { destruct IH as (o & -> & H). exists o. split; [done|]. intros b' Hb'.
    destruct (H b' Hb'). set_solver. }
  destruct side; [| |done]; (destruct c; [| |exact IH'|exact IH']); simpl;
    rewrite ?Hk; cbn [res_bind]; try (destruct k); eexists; (split; [done|]);
    intros b' Hb'; simplify_eq; split; auto; set_solver.
Qed.

Lemma get_binding_total fs root side l p :
  rooted fs root -> fs_ok fs -> HEAD fs side = Some l -> side <> PENDING -> absolute p = true ->
  exists o, get_binding fs side p = Ok o
    /\ forall b, o = Some b -> b ∈ l /\ (length (path (side_path side b)) <= length p)%nat.
Proof.
  intros Hr Hok Hl Hs Hp. unfold get_binding, list_of. rewrite Hp, Hl. simpl.
  apply (get_binding_loop_total fs root); auto using absolute_nonempty. by apply Hok.
Qed.

(** substitute_binding() is total on any absolute path: it returns a path that
    fits and keeps the bytes it does not replace. *)
Lemma substitute_binding_nice fs root side l p :
  rooted fs root -> fs_wf fs -> fs_sized fs -> HEAD fs side = Some l -> side <> PENDING ->
  absolute p = true -> nice p ->
  substitute_binding fs side p = Err ENOENT
  \/ exists st q, substitute_binding fs side p = Ok (st, q) /\ nice q /\ (st = 0 -> q = p)
       /\ (st = 0 \/ st = 1).
Proof.
  intros Hr [Hok Hwf] Hsz Hl Hs Hp (Hne & Hnul & Hlen). unfold substitute_binding.
  destruct (get_binding_total fs root side l p) as (o & -> & Ho); auto. cbn [res_bind].
  destruct o as [b|]; [right | by left]. destruct (Ho b eq_refl) as [Hin Hle].
  destruct (need_substitution b); cbn [negb]; [|exists 0, p; repeat split; auto].
  specialize (Hsz side l Hl). specialize (Hwf side l Hs Hl). rewrite !Forall_forall in *.
  destruct (Hsz b Hin) as [Z1 Z2], (Hwf b Hin) as (W1 & W2 & _).
  assert (Hw : forall s, wf_path (side_path s b)) by by intros [].
  assert (Hz : forall s, zlen (path (side_path s b)) < PATH_MAX) by by intros [].
  destruct (substitute_path_prefix p (plength (side_path side b))
    (path (side_path (opposite side) b)) (plength (side_path (opposite side) b)))
    as [q|e|w] eqn:E.
  - exists 1, q. split; [destruct side; simpl in E; by rewrite ?E|].
    split; [|split; auto; done].
    destruct (Hw side) as (E1 & L1 & N1), (Hw (opposite side)) as (E2 & L2 & N2).
    assert (Hn2 : nul_free (path (side_path (opposite side) b)))
      by (rewrite E2; by apply nul_free_render).
    pose proof (wf_path_nonempty _ (Hw (opposite side))) as Hne2.
    rewrite L2 in E. pose proof (substitute_bound _ _ _ _ E). split; [|split; [|done]];
    revert E; unfold substitute_path_prefix; rewrite take_ge by lia; intros E;
    repeat (case_bool_in E; try discriminate E); injection E as <-; try done;
      try (apply nul_free_app; split; auto); try (by apply Forall_drop); try (by repeat constructor).
    + intros H0. apply (f_equal length) in H0. rewrite length_drop in H0.
      apply Nat.eqb_neq in Hb2. simpl in H0. lia.
    + by destruct (path (side_path (opposite side) b)).
    + by destruct (path (side_path (opposite side) b)).
  - exists 1, p. split; [destruct side; simpl in E; by rewrite ?E|]. split; [done|]. auto.
  - exfalso. destruct (Hw side) as (E1 & L1 & N1), (Hw (opposite side)) as (E2 & L2 & N2).
    rewrite L1, L2 in E. unfold substitute_path_prefix, zlen in *.
    pose proof (Hz side) as Q1. pose proof (Hz (opposite side)) as Q2.
    rewrite (proj2 (Z.ltb_lt _ _) Q1), (proj2 (Z.ltb_lt _ _) Q2) in E. cbn [andb negb] in E.
    rewrite (proj2 (Nat.ltb_ge _ _) Hle) in E.
    repeat (case_bool_in E; try discriminate E). bool_facts. lia.
Qed.

(** ** Preservation of the name-space invariant *)

Lemma filter_addr_fresh (D : list nat) b (l : list Binding) :
  b_addr b ∉ b_addr <$> l -> b_addr b ∉ b_addr <$> filter (fun x => b_addr x ∉ D) l.
Proof.
  intros H Hin. apply H. apply list_elem_of_fmap in Hin as (x & -> & Hx).
  apply list_elem_of_filter in Hx as [_ Hx]. by apply in_addr.
Qed.

Lemma inserted_Forall (P : Binding -> Prop) side b l l' :
  inserted side b l l' -> P b -> Forall P l -> Forall P l'.
Proof.
  intros H Hb Hl. rewrite Forall_forall in *. intros x Hx.
  apply H in Hx as [-> | [Hx _]]; auto.
Qed.

(** One insertion of a well-formed binding. *)
Lemma insort_binding_wf fs side b l :
  side <> PENDING -> fs_wf fs -> HEAD fs side = Some l -> binding_wf b ->
  b_addr b ∉ b_addr <$> l ->
  exists fs' l', insort_binding fs side b = Ok fs' /\ fs_wf fs' /\ HEAD fs' side = Some l'
    /\ inserted side b l l'
    /\ exists D : list nat, (side = HOST -> D = []) /\
         forall side', side' <> side ->
           HEAD fs' side' = filter (fun x => b_addr x ∉ D) <$> HEAD fs side'.
Proof.
  intros Hs [Hok Hwf] Hl Hb Ha.
  destruct (insort_binding_spec fs side b l) as (fs' & l' & E & Hok' & Hl' & Hins & D & HD & Hfr);
    auto.
  { destruct Hb as (? & ? & _). by destruct side. }
  exists fs', l'. split; [done|]. split; [|by eauto]. split; [done|].
  intros side' k Hs' Hk. destruct (decide (side' = side)) as [->|Hne].
  - simplify_eq. eapply inserted_Forall; eauto.
  - rewrite Hfr in Hk by done. apply fmap_Some in Hk as (k' & Hk & ->).
    eapply Forall_sublist; [apply sublist_filter|]. eauto.
Qed.

Definition set_need (b : Binding) (n : bool) : Binding :=
  mkBinding (b_addr b) (host b) (guest b) n (must_exist b) (access_mode b) (b_type b).

Lemma insort_binding2_wf fs b l k :
  fs_wf fs -> bindings_guest fs = Some l -> bindings_host fs = Some k ->
  wf_path (host b) -> wf_path (guest b) ->
  b_addr b ∉ b_addr <$> l -> b_addr b ∉ b_addr <$> k ->
  let b' := set_need b (bool_decide (key HOST b <> key GUEST b)) in
  exists fs' l', insort_binding2 fs b = Ok (b', fs') /\ fs_wf fs'
    /\ bindings_guest fs' = Some l' /\ inserted GUEST b' l l'.
Proof.
  intros Hfs Hl Hk Hh Hg Hal Hak b'. unfold insort_binding2.
  pose proof Hh as (Eh & Lh & Nh). pose proof Hg as (Eg & Lg & Ng).
  assert (Hc : compare_paths (path (host b)) (path (guest b))
               = Ok (compare_components (key HOST b) (key GUEST b))).
  { rewrite Eh, Eg at 1. by apply compare_render. }
  rewrite Hc. cbn [res_bind].
  assert (Hn : bool_decide (compare_components (key HOST b) (key GUEST b) <> PATHS_ARE_EQUAL)
               = bool_decide (key HOST b <> key GUEST b)).
  { apply bool_decide_ext. by rewrite compare_components_equal. }
  rewrite Hn. fold (set_need b (bool_decide (key HOST b <> key GUEST b))). fold b'.
  assert (Hb' : binding_wf b') by done.
  destruct (insort_binding_wf fs GUEST b' l) as (fs1 & l1 & -> & Hfs1 & Hl1 & Hins1 & D1 & _ & Hfr1);
    auto.
  cbn [res_bind]. specialize (Hfr1 HOST ltac:(done)). simpl in Hfr1. rewrite Hk in Hfr1.
  destruct (insort_binding_wf fs1 HOST b' (filter (fun x => b_addr x ∉ D1) k))
    as (fs2 & l2 & -> & Hfs2 & Hl2 & Hins2 & D2 & HD2 & Hfr2); auto.
  { by apply filter_addr_fresh. }
  cbn [res_bind]. exists fs2, l1. split; [done|]. split; [done|]. split; [|done].
  specialize (Hfr2 GUEST ltac:(done)). simpl in Hfr2, Hl1. rewrite Hl1, (HD2 eq_refl) in Hfr2.
  rewrite Hfr2. simpl. f_equal. apply list_filter_id. intros. apply not_elem_of_nil.
Qed.

(** ** Decidability of the invariants *)

#[export] Instance name_ok_dec c : Decision (name_ok c).
Proof. unfold name_ok, plain, nul_free. apply _. Defined.
#[export] Instance comp_ok_dec c : Decision (comp_ok c).
Proof. unfold comp_ok. apply _. Defined.
#[export] Instance wf_path_dec p : Decision (wf_path p).
Proof. unfold wf_path. apply _. Defined.
#[export] Instance precedes_dec side x y : Decision (precedes side x y).
Proof. unfold precedes. apply _. Defined.
#[export] Instance binding_wf_dec b : Decision (binding_wf b).
Proof. unfold binding_wf. apply _. Defined.

Definition side_okb (fs : FileSystemNameSpace) (side : Side) : bool :=
  match HEAD fs side with
  | None => true
  | Some l =>
      bool_decide (Forall (fun b => wf_path (side_path side b)) l)
      && bool_decide (NoDup (b_addr <$> l))
      && bool_decide (StronglySorted (precedes side) l)
      && (bool_decide (side = PENDING) || bool_decide (Forall binding_wf l))
  end.

(** A decision procedure for the invariant, used on concrete name-spaces. *)
Definition fs_wfb (fs : FileSystemNameSpace) : bool :=
  side_okb fs GUEST && side_okb fs HOST && side_okb fs PENDING.

Lemma fs_wfb_sound fs : fs_wfb fs = true -> fs_wf fs.
Proof.
  unfold fs_wfb. intros H. bool_facts.
  assert (Hall : forall side, side_okb fs side = true) by by intros [].
  split; intros side l; [intros Hl | intros Hs Hl]; specialize (Hall side);
    unfold side_okb in Hall; rewrite Hl in Hall.
  - bool_facts. rewrite bool_decide_eq_true in *. by split.
  - rewrite (bool_decide_eq_false_2 (side = PENDING)) in Hall by done.
    rewrite orb_false_l in Hall. apply andb_true_iff in Hall as [_ Hall].
    by apply bool_decide_eq_true in Hall.
Qed.

(** ** Properties *)

Definition mk_demo (addr : nat) (h g : string) (m : BindingAccess) : Binding :=
  mkBinding addr (new_path (bs h)) (new_path (bs g)) (bool_decide (h <> g)) false m
    BINDING_TYPE_REGULAR.

(** The name-space of [-r /data/root -b /sdcard:/mnt/sd:ro -b /tmp:/mnt/sd/tmp]. *)
Definition demo_root := mk_demo 1 "/data/root" "/" BINDING_ACCESS_RW.
Definition demo_sd := mk_demo 2 "/sdcard" "/mnt/sd" BINDING_ACCESS_RO.
Definition demo_tmp := mk_demo 3 "/tmp" "/mnt/sd/tmp" BINDING_ACCESS_RW.
Definition demo_fs : FileSystemNameSpace :=
  mkFs None (Some [demo_tmp; demo_sd; demo_root]) (Some [demo_tmp; demo_sd; demo_root]) (bs "/").

(** insort_binding2() keeps a well-formed name-space well-formed: both lists
    stay sorted with the deepest containers first, the GUEST list holds each
    guest path once, and the new binding replaces exactly the binding of the
    same guest path. *)
Theorem insort_binding2_preserves fs b l k :
  fs_wf fs -> bindings_guest fs = Some l -> bindings_host fs = Some k ->
  wf_path (host b) -> wf_path (guest b) ->
  b_addr b ∉ b_addr <$> l -> b_addr b ∉ b_addr <$> k ->
  let b' := set_need b (bool_decide (key HOST b <> key GUEST b)) in
  exists fs' l', insort_binding2 fs b = Ok (b', fs') /\ fs_wf fs'
    /\ bindings_guest fs' = Some l'
    /\ forall x, x ∈ l' <-> x = b' \/ (x ∈ l /\ key GUEST x <> key GUEST b').
Proof.
  intros Hfs Hl Hk Hh Hg Hal Hak b'.
  destruct (insort_binding2_wf fs b l k Hfs Hl Hk Hh Hg Hal Hak) as (fs' & l' & E & Hw & Hl' & Hi).
  exists fs', l'. split; [done|]. split; [done|]. split; [done|].
  intros x. fold b' in Hi. rewrite (Hi x). naive_solver.
Qed.

Definition demo_new := mk_demo 4 "/opt" "/mnt/sd" BINDING_ACCESS_RW.

Lemma insort_binding2_preserves_witness :
  exists fs', insort_binding2 demo_fs demo_new = Ok (demo_new, fs') /\ fs_wf fs'
    /\ bindings_guest fs' = Some [demo_tmp; demo_new; demo_root].
Proof.
  destruct (insort_binding2_preserves demo_fs demo_new [demo_tmp; demo_sd; demo_root]
              [demo_tmp; demo_sd; demo_root]) as (fs' & l' & E & Hw & Hl' & _);
    [by apply fs_wfb_sound; vm_compute | done | done
    | by apply (bool_decide_unpack _); vm_compute
    | by apply (bool_decide_unpack _); vm_compute
    | by apply (bool_decide_unpack _); vm_compute
    | by apply (bool_decide_unpack _); vm_compute |].
  vm_compute in E. injection E as E. exists fs'. split; [vm_compute; by rewrite E|].
  split; [done|]. by rewrite <- E.
Defined.

(** in a well-formed name-space get_binding(GUEST) finds the deepest binding
    that contains a canonical path, and NULL only when none does. *)
Theorem get_binding_deepest fs l p :
  fs_wf fs -> bindings_guest fs = Some l -> Forall name_ok p ->
  (exists b, get_binding fs GUEST (render p) = Ok (Some b) /\ deepest GUEST l p b)
  \/ (get_binding fs GUEST (render p) = Ok None /\ not_bound GUEST l p).
Proof. intros [Hok _]. by apply get_binding_guest. Qed.

Ltac decide_witness := first [by apply fs_wfb_sound; vm_compute
  | by apply (bool_decide_unpack _); vm_compute | done | by vm_compute].

Lemma get_binding_deepest_witness :
  get_binding demo_fs GUEST (bs "/mnt/sd/tmpfile") = Ok (Some demo_sd)
  /\ deepest GUEST [demo_tmp; demo_sd; demo_root] (names ["mnt"; "sd"; "tmpfile"]%string) demo_sd.
Proof.
  split; [vm_compute; done|].
  destruct (get_binding_deepest demo_fs [demo_tmp; demo_sd; demo_root]
    (names ["mnt"; "sd"; "tmpfile"]%string)) as [(b & E & H) | (E & _)]; [decide_witness..| |].
  - vm_compute in E. injection E as <-. exact H.
  - vm_compute in E. discriminate E.
Defined.

(** C22: confinement.  When the rewritten path fits, substitute_binding(GUEST)
    maps a canonical guest path to the host path of the deepest binding that
    contains it followed by the rest of the path: the result cannot leave the
    host side of that binding. *)
Theorem substitute_binding_confined fs l p b :
  fs_wf fs -> bindings_guest fs = Some l -> Forall name_ok p ->
  deepest GUEST l p b -> zlen (render p) < PATH_MAX ->
  zlen (path (host b)) + zlen (render (drop (length (key GUEST b)) p)) < PATH_MAX ->
  substitute_binding fs GUEST (render p)
    = Ok (if need_substitution b then 1 else 0,
          render (key HOST b ++ drop (length (key GUEST b)) p)).
Proof.
  intros Hfs Hl Hp Hd Hlen Hfit. pose proof Hfs as [Hok Hwf].
  pose proof (get_binding_the fs l p b Hok Hl Hp Hd) as E.
  specialize (Hwf GUEST l ltac:(done) Hl). rewrite Forall_forall in Hwf.
  pose proof Hd as (Hb & Hpre & _).
  apply (substitute_binding_by fs GUEST b p); auto.
Qed.

Lemma substitute_binding_confined_witness :
  substitute_binding demo_fs GUEST (bs "/mnt/sd/a/b") = Ok (1, bs "/sdcard/a/b").
Proof.
  apply (substitute_binding_confined demo_fs [demo_tmp; demo_sd; demo_root]
    (names ["mnt"; "sd"; "a"; "b"]%string) demo_sd).
  - decide_witness.
  - decide_witness.
  - decide_witness.
  - split; [set_solver|]. split; [decide_witness|].
    intros b Hb Hp. rewrite !elem_of_cons in Hb.
    destruct Hb as [-> | [-> | [-> | Hb]]]; [| | |by apply elem_of_nil in Hb].
    + exfalso. revert Hp. decide_witness.
    + decide_witness.
    + decide_witness.
  - decide_witness.
  - decide_witness.
Defined.

(** The status of substitute_path_prefix() is dropped: when the rewritten
    path does not fit in a [PATH_MAX] buffer, substitute_binding() reports a
    substitution but leaves the guest path as it is, which then names a host
    file outside of the binding. *)
Theorem substitute_binding_overflow fs l p b :
  fs_wf fs -> bindings_guest fs = Some l -> Forall name_ok p ->
  get_binding fs GUEST (render p) = Ok (Some b) -> b ∈ l -> key GUEST b `prefix_of` p ->
  need_substitution b = true -> key GUEST b <> [] -> key HOST b <> [] ->
  zlen (render p) < PATH_MAX -> zlen (path (host b)) < PATH_MAX ->
  PATH_MAX <= zlen (render (key HOST b ++ drop (length (key GUEST b)) p)) ->
  substitute_binding fs GUEST (render p) = Ok (1, render p).
Proof.
  intros [_ Hwf] Hl Hp Hget Hb Hpre Hneed Hg Hh Hl1 Hl2 Hl3.
  specialize (Hwf GUEST l ltac:(done) Hl). rewrite Forall_forall in Hwf.
  destruct (Hwf b Hb) as ((E1 & L1 & N1) & (E2 & L2 & N2) & _).
  unfold substitute_binding. rewrite Hget. cbn [res_bind]. rewrite Hneed. cbn [negb].
  rewrite L1, L2, E1, E2 in *. unfold key in *; simpl in *.
  rewrite (prefix_drop _ _ Hpre) at 1. rewrite substitute_overflow; auto with proot.
  by rewrite <- (prefix_drop _ _ Hpre).
Qed.

Definition long_dir : cstr := repeat 97 200.
Definition long_path : list cstr := bs "in" :: repeat long_dir 20.
Definition long_fs : FileSystemNameSpace :=
  let d := mk_demo 2 "/a/very/long/host/directory/of/some/host/application/that/is/bound/below/in/its/root" "/in" BINDING_ACCESS_RW in
  mkFs None (Some [d; demo_root]) (Some [d; demo_root]) (bs "/").

Lemma substitute_binding_overflow_witness :
  substitute_binding long_fs GUEST (render long_path) = Ok (1, render long_path).
Proof.
  eapply (substitute_binding_overflow long_fs); [decide_witness | done | decide_witness
    | vm_compute; reflexivity | set_solver | decide_witness | done | done | done
    | vm_compute; reflexivity | vm_compute; reflexivity | vm_compute; discriminate].
Defined.

(** detranslation undoes translation: when the rewritten path belongs, on
    the host side, to the same binding, substituting back gives the guest path
    again. *)
Theorem substitute_binding_roundtrip fs b p st q :
  binding_wf b -> Forall name_ok p -> key GUEST b `prefix_of` p ->
  get_binding fs GUEST (render p) = Ok (Some b) ->
  q = rewrite_key GUEST b p ->
  zlen (path (host b)) + zlen (path (guest b)) + zlen (render (drop (length (key GUEST b)) p))
    < PATH_MAX -> zlen (render p) < PATH_MAX -> zlen (render q) < PATH_MAX ->
  substitute_binding fs GUEST (render p) = Ok (st, render q) ->
  get_binding fs HOST (render q) = Ok (Some b) ->
  substitute_binding fs HOST (render q) = Ok (st, render p).
Proof.
  intros Hb Hp Hpre Hg Hq Hfit Hlp Hlq Hs Hh.
  pose proof (zlen_nonneg (path (host b))) as Z1. pose proof (zlen_nonneg (path (guest b))) as Z2.
  rewrite (substitute_binding_by fs GUEST b p) in Hs; auto; simpl; [|lia].
  injection Hs as <-. pose proof Hb as ((_ & _ & N1) & (_ & _ & N2) & _).
  assert (Hpq : key HOST b `prefix_of` q) by (subst q; by eexists).
  assert (Hdq : drop (length (key HOST b)) q = drop (length (key GUEST b)) p).
  { subst q. unfold rewrite_key. simpl. by rewrite drop_app_length. }
  rewrite (substitute_binding_by fs HOST b q); auto; simpl.
  - f_equal. f_equal. f_equal. unfold rewrite_key. simpl. rewrite Hdq.
    symmetry. by apply prefix_drop.
  - subst q. apply Forall_app. split; [done | by apply Forall_drop].
  - rewrite Hdq. lia.
Qed.

Lemma substitute_binding_roundtrip_witness :
  substitute_binding demo_fs GUEST (bs "/mnt/sd/x") = Ok (1, bs "/sdcard/x") /\
  substitute_binding demo_fs HOST (bs "/sdcard/x") = Ok (1, bs "/mnt/sd/x").
Proof.
  split; [vm_compute; done|].
  apply (substitute_binding_roundtrip demo_fs demo_sd (names ["mnt"; "sd"; "x"]%string) 1
           (names ["sdcard"; "x"]%string)); decide_witness.
Defined.

(** the access mode that check_binding_access() applies to a canonical path
    is the one of the deepest binding that contains it: masked bindings refuse
    everything, read-only ones refuse writes with EROFS, write-only ones refuse
    reads with EACCES. *)
Theorem check_binding_access_deepest fs l p b is_write :
  fs_wf fs -> bindings_guest fs = Some l -> Forall name_ok p -> deepest GUEST l p b ->
  check_binding_access fs (render p) is_write =
    match access_mode b, is_write with
    | BINDING_ACCESS_MASK, _ => Err EACCES
    | BINDING_ACCESS_RO, true => Err EROFS
    | BINDING_ACCESS_WO, false => Err EACCES
    | _, _ => Ok ()
    end.
Proof.
  intros [Hok _] Hl Hp Hd. unfold check_binding_access. rewrite absolute_render. simpl negb. cbv iota.
  rewrite (get_binding_the fs l p b Hok Hl Hp Hd).
  simpl. unfold check_binding_mode. by destruct (access_mode b), is_write.
Qed.

Lemma check_binding_access_deepest_witness :
  check_binding_access demo_fs (bs "/mnt/sd/x") true = Err EROFS.
Proof.
  apply (check_binding_access_deepest demo_fs [demo_tmp; demo_sd; demo_root]
           (names ["mnt"; "sd"; "x"]%string) demo_sd true); [decide_witness..|].
  split; [set_solver|]. split; [decide_witness|].
  intros b Hb Hp. rewrite !elem_of_cons in Hb.
  destruct Hb as [-> | [-> | [-> | Hb]]]; [| | |by apply elem_of_nil in Hb].
  - exfalso. revert Hp. decide_witness.
  - decide_witness.
  - decide_witness.
Defined.

(** copy_binding() keeps the access mode, the type and the paths of its
    source: inheriting a read-only binding never makes it writable. *)
Theorem copy_binding_keeps_mode fs source addr l k :
  fs_wf fs -> bindings_guest fs = Some l -> bindings_host fs = Some k ->
  wf_path (host source) -> wf_path (guest source) ->
  addr ∉ b_addr <$> l -> addr ∉ b_addr <$> k ->
  exists b fs' l', copy_binding fs addr source = Ok (b, fs')
    /\ bindings_guest fs' = Some l' /\ b ∈ l'
    /\ access_mode b = access_mode source /\ b_type b = b_type source
    /\ path (host b) = path (host source) /\ path (guest b) = path (guest source)
    /\ forall x, x ∈ l' -> key GUEST x = key GUEST source -> x = b.
Proof.
  intros Hfs Hl Hk Hh Hg Hal Hak. unfold copy_binding, insort_binding3, insort_binding3_with_mode.
  set (b0 := mkBinding _ _ _ _ _ _ _).
  destruct (insort_binding2_wf fs b0 l k Hfs Hl Hk) as (fs1 & l1 & -> & Hw1 & Hl1 & Hi1); auto.
  { destruct Hh as (E & _ & N). unfold b0. simpl. rewrite E. by apply wf_new_path. }
  { destruct Hg as (E & _ & N). unfold b0. simpl. rewrite E. by apply wf_new_path. }
  cbn [res_bind]. set (b1 := set_need b0 _) in *.
  set (upd := map (fun b => if decide (b_addr b = addr) then copy_fields source b else b)).
  exists (copy_fields source b1), (update_binding (copy_fields source) addr fs1), (upd l1).
  split; [done|]. split; [simpl; by rewrite Hl1|].
  assert (Hupd : forall x, x ∈ l1 -> (if decide (b_addr x = addr) then copy_fields source x else x)
                 = if decide (x = b1) then copy_fields source b1 else x).
  { intros x Hx. apply Hi1 in Hx as [-> | [Hx _]]; [by rewrite !decide_True|].
    rewrite !decide_False; [done| |].
    - intros ->. apply Hal. by apply (in_addr l b1).
    - intros <-. apply Hal. by apply in_addr. }
  split.
  { unfold upd. apply list_elem_of_In, in_map_iff. exists b1.
    split; [by rewrite decide_True|]. apply list_elem_of_In, Hi1. by left. }
  repeat (split; [done|]). intros x Hx Hkx. unfold upd in Hx.
  apply list_elem_of_In, in_map_iff in Hx as (y & <- & Hy). apply list_elem_of_In in Hy.
  rewrite Hupd in * by done. case_decide; [done|]. exfalso.
  apply Hi1 in Hy as [-> | [_ [?|Hy]]]; [done|done|]. by apply Hy.
Qed.

Lemma copy_binding_keeps_mode_witness :
  exists b fs', copy_binding demo_fs 9 demo_sd = Ok (b, fs') /\ access_mode b = BINDING_ACCESS_RO.
Proof.
  destruct (copy_binding_keeps_mode demo_fs demo_sd 9 [demo_tmp; demo_sd; demo_root]
    [demo_tmp; demo_sd; demo_root]) as (b & fs' & l' & E & _ & _ & M & _); [decide_witness..|].
  exists b, fs'. split; [done|]. by rewrite M.
Defined.
