(* ===== verification/ProcLinks.v ===== *)
(** * Emulated links of /proc and detranslation (src/path/proc.c, src/path/path.c)

    readlink_proc() and readlink_proc2(), which answer the links of /proc that
    depend on the tracee, and detranslate_path(), which turns a host path back
    into a guest path.  The decimal conversions of the C library they use come
    first. *)

From S2P Require Import Prelude Paths Binding.

(** ** Decimal conversions of the C library *)

Definition is_digit (c : Z) : bool := (48 <=? c) && (c <=? 57).
Definition is_space (c : Z) : bool := (c =? 32) || ((9 <=? c) && (c <=? 13)).

Fixpoint digits (fuel : nat) (n : Z) : cstr :=
  match fuel with
  | O => []
  | S fuel => if n <? 10 then [48 + n] else digits fuel (n / 10) ++ [48 + n mod 10]
  end.

(** snprintf("%d"): an [int] has at most ten digits. *)
Definition itoa (n : Z) : cstr := if n <? 0 then 45 :: digits 10 (- n) else digits 10 n.

(** The value of a string of digits. *)
Definition undigits (acc : Z) (s : cstr) : Z := fold_left (fun a c => 10 * a + (c - 48)) s acc.

Definition LONG_MAX := 2 ^ 63 - 1.
Definition LONG_MIN := - 2 ^ 63.

(** strtol(s, _, 10): the value, whether a number was found (otherwise
    [end_ptr == s]) and whether it is out of range (errno = ERANGE). *)
Definition strtol10 (s : cstr) : Z * bool * bool :=
  let s := snd (span is_space s) in
  let '(negative, s) := match s with
                        | 45 :: s => (true, s)
                        | 43 :: s => (false, s)
                        | _ => (false, s)
                        end in
  let ds := fst (span is_digit s) in
  let v := if negative : bool then - undigits 0 ds else undigits 0 ds in
  (Z.max LONG_MIN (Z.min LONG_MAX v), negb (bool_decide (ds = [])),
   (v <? LONG_MIN) || (LONG_MAX <? v)).

(** atoi(): strtol() converted to [int]. *)
Definition atoi (s : cstr) : Z := sgn 32 (fst (fst (strtol10 s))).

(** ** Operations *)

Inductive Action := DEFAULT | CANONICALIZE | DONT_CANONICALIZE.

#[export] Instance Action_eq_dec : EqDecision Action.
Proof. solve_decision. Defined.

(** What readlink_proc() reads of a tracee found by its pid. *)
Record KnownTracee := mkKnown { exe : option cstr; known_fs : FileSystemNameSpace }.

(** What it reads of the current tracee: its pid, and the table of tracees as
    tracee_lookup_readonly() sees it. *)
Record ProcView := mkView { pid : Z; tracee_lookup_readonly : Z -> option KnownTracee }.

(** The bound of a snprintf() into a buffer of [size] bytes. *)
Definition snprintf (size : Z) (s : cstr) : res cstr :=
  if size <=? zlen s then Err EPERM else Ok s.

(** The SUBSTITUTE macro, once the name of the link matches. *)
Definition SUBSTITUTE (string : option cstr) : res (Action * cstr) :=
  match string with
  | None => Stuck OutOfBounds
  | Some s => if PATH_MAX <=? zlen s then Err EPERM else Ok (CANONICALIZE, s)
  end.

(** The links of "/proc/<PID>/". *)
Definition readlink_proc_pid (known_tracee : option KnownTracee) (component : cstr)
  : res (Action * cstr) :=
  match known_tracee with
  | None => Ok (DEFAULT, [])
  | Some k =>
      if str_eqb component (bs "exe") then SUBSTITUTE (exe k)
      else if str_eqb component (bs "cwd") then SUBSTITUTE (Some (cwd (known_fs k)))
      else if str_eqb component (bs "root") then
        let! root := get_root (known_fs k) in SUBSTITUTE root
      else Ok (DEFAULT, [])
  end.

(** The links of "/proc/<PID>/fd/". *)
Definition readlink_proc_fd (base component : cstr) : res (Action * cstr) :=
  let '(_, found, erange) := strtol10 component in
  if erange || negb found then Err EPERM
  else let! result := snprintf PATH_MAX (base ++ SLASH :: component) in
       Ok (DONT_CANONICALIZE, result).

(** "/proc/self..." stands for "/proc/<pid>...". *)
Definition normalize_self (t : ProcView) (base : cstr) : res cstr :=
  if str_eqb (take 4 (drop 6 base)) (bs "self")
     && (is_slash (chr base 10) || (chr base 10 =? 0))
  then snprintf PATH_MAX (bs "/proc/" ++ itoa (pid t) ++ drop 10 base)
  else Ok base.

(** The links of "/proc/<PID>/" and below, once "self" is replaced. *)
Definition readlink_proc_base (t : ProcView) (base component : cstr) : res (Action * cstr) :=
  let pid := atoi (drop 6 base) in
  if pid =? 0 then Ok (DEFAULT, [])
  else
    let! proc_path := snprintf 64 (bs "/proc/" ++ itoa pid) in
    let! comparison := compare_paths proc_path base in
    match comparison with
    | PATHS_ARE_EQUAL => readlink_proc_pid (tracee_lookup_readonly t pid) component
    | PATH1_IS_PREFIX =>
        let! proc_path := snprintf 64 (bs "/proc/" ++ itoa pid ++ bs "/fd") in
        let! comparison := compare_paths proc_path base in
        match comparison with
        | PATHS_ARE_EQUAL => readlink_proc_fd base component
        | _ => Ok (DEFAULT, [])
        end
    | _ => Ok (DEFAULT, [])
    end.

(** readlink_proc(): the action and the content of [result]. *)
Definition readlink_proc (t : ProcView) (base component : cstr) (comparison : Comparison)
  : res (Action * cstr) :=
  match comparison with
  | PATHS_ARE_EQUAL =>
      if negb (str_eqb component (bs "self")) then Ok (DEFAULT, [])
      else let! result := snprintf PATH_MAX (bs "/proc/" ++ itoa (pid t)) in
           Ok (CANONICALIZE, result)
  | PATH1_IS_PREFIX =>
      let! base := normalize_self t base in
      readlink_proc_base t base component
  | _ => Ok (DEFAULT, [])
  end.

(** strrchr(path, '/'): what precedes the last separator and what follows it. *)
Definition split_last (path : cstr) : option (cstr * cstr) :=
  let '(rev_component, rev_base) := span not_slash (rev path) in
  match rev_base with
  | [] => None
  | _ :: rev_base => Some (rev rev_base, rev rev_component)
  end.

(** readlink_proc2(): [Some result] when the link was emulated ([result] is
    then not empty), [None] for 0.  The errors of readlink_proc() are dropped.
    When [referer] is "/proc/<component>" the code compares the bytes that
    follow the terminator of "/proc" in its buffer, which are [component]; both
    there and here the action is then DEFAULT. *)
Definition readlink_proc2 (t : ProcView) (referer : cstr) : res (option cstr) :=
  if PATH_MAX <=? zlen referer then Err ENAMETOOLONG
  else
    let! comparison := compare_paths (bs "/proc") referer in
    if negb (bool_decide (comparison = PATH1_IS_PREFIX)) then Stuck AssertFailed
    else
      match split_last referer with
      | None => Stuck AssertFailed
      | Some (base, component) =>
          if bool_decide (base = []) then Stuck AssertFailed
          else if bool_decide (component = []) then Ok None
          else
            match readlink_proc t base component PATH1_IS_PREFIX with
            | Ok (CANONICALIZE, result) =>
                Ok (if bool_decide (result = []) then None else Some result)
            | Ok _ => Ok None
            | Err _ => Ok None
            | Stuck w => Stuck w
            end
      end.

(** The removal of the leading "root" part. *)
Definition strip_root (fs : FileSystemNameSpace) (sanity_check : bool) (p : cstr)
  : res (Z * cstr) :=
  let! root := root_string fs in
  let! comparison := compare_paths root p in
  match comparison with
  | PATH1_IS_PREFIX =>
      let prefix_length := if (length root =? 1)%nat then 0%nat else length root in
      let p := drop prefix_length p in
      Ok (zlen p + 1, p)
  | PATHS_ARE_EQUAL => Ok (2, [SLASH])
  | _ => if sanity_check then Err EPERM else Ok (0, p)
  end.

(** Whether a symlink at [t_referrer] that points to [p] is seen through the
    bindings: only if both belong to the same one. *)
Definition same_binding (fs : FileSystemNameSpace) (p t_referrer : cstr) : res bool :=
  let! binding_referree := get_path_binding fs HOST p in
  let! binding_referrer := get_path_binding fs HOST t_referrer in
  match binding_referrer, binding_referree with
  | None, _ => Stuck AssertFailed
  | Some _, None => Ok false
  | Some r, Some e =>
      let! comparison := compare_paths e r in
      Ok (bool_decide (comparison = PATHS_ARE_EQUAL))
  end.

(** The end of detranslate_path(), [follow_binding] being known. *)
Definition detranslate_with (fs : FileSystemNameSpace) (sanity_check follow_binding : bool)
    (p : cstr) : res (Z * cstr) :=
  if follow_binding then
    match substitute_binding fs HOST p with
    | Ok (0, _) => Ok (0, p)
    | Ok (_, p) => Ok (zlen p + 1, p)
    | Err _ => strip_root fs sanity_check p
    | Stuck w => Stuck w
    end
  else strip_root fs sanity_check p.

(** detranslate_path(): the returned size and the updated path. *)
Definition detranslate_path (t : ProcView) (fs : FileSystemNameSpace) (p : cstr)
    (t_referrer : option cstr) : res (Z * cstr) :=
  if PATH_MAX <=? zlen p then Err ENAMETOOLONG
  else if negb (absolute p) then Ok (0, p)
  else
    match t_referrer with
    | None => detranslate_with fs true true p
    | Some t_referrer =>
        let! comparison := compare_paths (bs "/proc") t_referrer in
        if bool_decide (comparison = PATH1_IS_PREFIX) then
          let! emulated := readlink_proc2 t t_referrer in
          match emulated with
          | Some result => Ok (zlen result + 1, result)
          | None => detranslate_with fs false true p
          end
        else
          let! belongs := belongs_to_guestfs fs t_referrer in
          if belongs then detranslate_with fs false false p
          else
            let! follow_binding := same_binding fs p t_referrer in
            detranslate_with fs false follow_binding p
    end.

(** ** Lemmas on decimal numbers *)

Lemma undigits_app acc s k : undigits acc (s ++ k) = undigits (undigits acc s) k.
Proof. apply fold_left_app. Qed.

Lemma digits_value fuel n :
  0 <= n < 10 ^ Z.of_nat fuel -> undigits 0 (digits fuel n) = n.
Proof.
  revert n. induction fuel as [|fuel IH]; intros n Hn; [simpl in *; lia|].
  cbn [digits]. destruct (n <? 10) eqn:E; bool_facts; [unfold undigits; simpl; lia|].
  rewrite undigits_app, IH.
  - unfold undigits. simpl. pose proof (Z.div_mod n 10). lia.
  - rewrite Nat2Z.inj_succ, Z.pow_succ_r in Hn by lia.
    split; [apply Z.div_pos; lia | apply Z.div_lt_upper_bound; lia].
Qed.

Lemma is_digit_range c : is_digit c = true <-> 48 <= c <= 57.
Proof. unfold is_digit. rewrite andb_true_iff, !Z.leb_le. done. Qed.

Lemma digits_digits fuel n : 0 <= n -> Forall (fun c => is_digit c = true) (digits fuel n).
Proof.
  revert n. induction fuel as [|fuel IH]; intros n Hn; simpl; [done|].
  destruct (n <? 10) eqn:E; bool_facts.
  - constructor; [apply is_digit_range; lia | done].
  - apply Forall_app. split; [apply IH, Z.div_pos; lia|].
    constructor; [|done]. apply is_digit_range. pose proof (Z.mod_pos_bound n 10). lia.
Qed.

Lemma digits_nonempty fuel n : digits (S fuel) n <> [].
Proof. simpl. destruct (n <? 10); [done|]. by destruct (digits fuel (n / 10)). Qed.

Lemma digits_length fuel n : (length (digits fuel n) <= fuel)%nat.
Proof.
  revert n. induction fuel as [|fuel IH]; intros n; simpl; [lia|].
  destruct (n <? 10); simpl; [lia|]. rewrite length_app. specialize (IH (n / 10)). simpl. lia.
Qed.

(** A digit is neither a sign nor a blank. *)
Lemma digit_case c : is_digit c = true ->
  c = 48 \/ c = 49 \/ c = 50 \/ c = 51 \/ c = 52 \/ c = 53 \/ c = 54 \/ c = 55 \/ c = 56
  \/ c = 57 \/ False.
Proof. rewrite is_digit_range. lia. Qed.

Lemma strtol10_digits ds rest :
  ds <> [] -> Forall (fun c => is_digit c = true) ds ->
  match rest with c :: _ => is_digit c = false | [] => True end ->
  undigits 0 ds <= LONG_MAX -> 0 <= undigits 0 ds ->
  strtol10 (ds ++ rest) = (undigits 0 ds, true, false).
Proof.
  intros Hne Hd Hrest Hmax Hmin.
  assert (Hs : span is_digit (ds ++ rest) = (ds, rest)).
  { destruct rest as [|c rest]; [rewrite app_nil_r; by apply span_all_nil | by apply span_all]. }
  destruct ds as [|d ds]; [done|]. inversion Hd as [|? ? Hdig _]; subst. unfold strtol10.
  assert (Hsp : snd (span is_space ((d :: ds) ++ rest)) = (d :: ds) ++ rest).
  { apply digit_case in Hdig. cbn [app span]. repeat (destruct Hdig as [-> | Hdig]; [reflexivity|]). done. }
  rewrite Hsp.
  assert (Hsign : match (d :: ds) ++ rest with
                  | 45 :: s => (true, s) | 43 :: s => (false, s)
                  | _ => (false, (d :: ds) ++ rest) end = (false, (d :: ds) ++ rest)).
  { apply digit_case in Hdig. cbn [app]. repeat (destruct Hdig as [-> | Hdig]; [reflexivity|]). done. }
  rewrite Hsign, Hs. cbn [fst]. rewrite bool_decide_eq_false_2 by done.
  assert (Hl : LONG_MIN <= 0) by (by vm_compute).
  f_equal; [f_equal|]; [lia|]. apply orb_false_iff. split; apply Z.ltb_ge; lia.
Qed.

Lemma itoa_digits n : 0 <= n -> itoa n = digits 10 n.
Proof. intros H. unfold itoa. by rewrite (proj2 (Z.ltb_ge _ _)). Qed.

(** atoi() undoes snprintf("%d"), whatever follows the number. *)
Lemma atoi_itoa n rest :
  0 <= n < 2 ^ 31 -> match rest with c :: _ => is_digit c = false | [] => True end ->
  atoi (itoa n ++ rest) = n.
Proof.
  intros Hn Hrest. unfold atoi. rewrite itoa_digits by lia.
  assert (Hv : undigits 0 (digits 10 n) = n) by (apply digits_value; lia).
  rewrite strtol10_digits; [|apply digits_nonempty | apply digits_digits; lia | done | rewrite Hv; unfold LONG_MAX; lia | lia].
  cbn [fst]. rewrite Hv. unfold sgn. rewrite Z.mod_small by lia.
  by rewrite (proj2 (Z.ltb_lt _ _)) by lia.
Qed.

Lemma itoa_comp_ok n : comp_ok (itoa n).
Proof.
  assert (H : exists ds, ds <> [] /\ Forall (fun c => is_digit c = true) ds
                 /\ (itoa n = ds \/ itoa n = 45 :: ds)).
  { unfold itoa. exists (digits 10 (Z.abs n)). split; [apply digits_nonempty|].
    split; [apply digits_digits; lia|]. destruct (n <? 0) eqn:E; bool_facts; [right|left];
      repeat f_equal; lia. }
  destruct H as (ds & Hne & Hd & H).
  assert (Hp : Forall (fun c => is_slash c = false) ds /\ nul_free ds).
  { split; (eapply Forall_impl; [exact Hd|]); intros c Hc; apply is_digit_range in Hc;
      [apply Z.eqb_neq; unfold SLASH|]; lia. }
  destruct Hp as [Hp Hn]. destruct ds as [|d ds]; [done|].
  inversion Hd as [|? ? Hdig _]; subst. apply is_digit_range in Hdig.
  destruct H as [-> | ->]; (split; [split; [split|]|]); try done; try (by constructor);
    split; unfold bs; simpl; intros E; injection E as E; lia.
Qed.

Lemma zlen_itoa n : zlen (itoa n) <= 11.
Proof.
  unfold zlen, itoa. pose proof (digits_length 10 n). pose proof (digits_length 10 (- n)).
  destruct (n <? 0); cbn [length]; lia.
Qed.

(** ** Lemmas on the links of /proc *)

Definition proc_path (cs : list cstr) : cstr := render (bs "proc" :: cs).

Lemma proc_path_cons x rest : proc_path (x :: rest) = bs "/proc/" ++ x ++ joined rest.
Proof. unfold proc_path. rewrite render_joined by done. by rewrite !joined_cons. Qed.

Lemma proc_path_snoc cs c : proc_path cs ++ SLASH :: c = proc_path (cs ++ [c]).
Proof. unfold proc_path. rewrite !render_joined by done. apply (eq_sym (joined_snoc (bs "proc" :: cs) c)). Qed.

Lemma proc_name_ok : name_ok (bs "proc").
Proof. split; [split; [done|]|]; repeat constructor; done. Qed.

(** A component is determined by its first bytes up to a boundary. *)
Lemma self_test x rest :
  name_ok x -> Forall name_ok rest ->
  str_eqb (take 4 (x ++ joined rest)) (bs "self")
  && (is_slash (chr (x ++ joined rest) 4) || (chr (x ++ joined rest) 4 =? 0))
  = str_eqb x (bs "self").
Proof.
  intros [Hx Hnx] Hr. apply eq_true_iff_eq. rewrite andb_true_iff, orb_true_iff, !str_eqb_eq.
  split.
  2: { intros ->. split; [done|]. change (bs "self" ++ joined rest) with (bs "self" ++ joined rest).
       rewrite chr_app_r by done. simpl. destruct (joined_boundary rest) as [-> | [y ->]]; auto. }
  intros [Ht Hc]. set (s := x ++ joined rest) in *.
  assert (Hs : s = bs "self" ++ drop 4 s) by (rewrite <- Ht; symmetry; apply take_drop).
  assert (Hb : boundary (drop 4 s)).
  { rewrite Hs, chr_app_r in Hc by done. simpl in Hc.
    assert (Hn : ~ In 0 (drop 4 s)).
    { intros H. assert (Hin : In 0 s) by (rewrite Hs; apply in_app_iff; by right).
      unfold s in Hin. apply in_app_iff in Hin as [Hin|Hin]; [|by apply joined_nul_free in Hin].
      unfold nul_free in Hnx. rewrite List.Forall_forall in Hnx. by apply (Hnx 0). }
    destruct (drop 4 s) as [|c y]; [apply boundary_nil|]. destruct Hc as [Hc|Hc].
    - apply is_slash_eq in Hc. unfold chr in Hc. simpl in Hc. subst. apply boundary_slash.
    - apply Z.eqb_eq in Hc. unfold chr in Hc. simpl in Hc. subst. destruct Hn. by left. }
  assert (H1 : span not_slash s = (x, joined rest)).
  { apply span_component; [done | apply joined_boundary]. }
  rewrite Hs, span_component in H1; [by injection H1 | | done].
  split; [done | repeat constructor].
Qed.

Lemma normalize_self_path t x rest :
  name_ok x -> Forall name_ok rest ->
  normalize_self t (proc_path (x :: rest)) =
    if str_eqb x (bs "self") then snprintf PATH_MAX (proc_path (itoa (pid t) :: rest))
    else Ok (proc_path (x :: rest)).
Proof.
  intros Hx Hr. rewrite !proc_path_cons. unfold normalize_self.
  change (drop 6 (bs "/proc/" ++ x ++ joined rest)) with (x ++ joined rest).
  change (chr (bs "/proc/" ++ x ++ joined rest) 10) with (chr (x ++ joined rest) 4).
  change (drop 10 (bs "/proc/" ++ x ++ joined rest)) with (drop 4 (x ++ joined rest)).
  rewrite self_test by done. destruct (str_eqb x (bs "self")) eqn:E; [|done].
  by apply str_eqb_eq in E as ->.
Qed.

(** The part of readlink_proc() that follows the normalisation, on component
    lists: [n] is the number the component after "proc" starts with. *)
Definition proc_links (t : ProcView) (x : cstr) (rest : list cstr) (c : cstr)
  : res (Action * cstr) :=
  let n := atoi (x ++ joined rest) in
  if n =? 0 then Ok (DEFAULT, [])
  else if bool_decide (itoa n = x) then
    match rest with
    | [] => readlink_proc_pid (tracee_lookup_readonly t n) c
    | [f] => if bool_decide (f = bs "fd") then readlink_proc_fd (proc_path [x; f]) c
             else Ok (DEFAULT, [])
    | _ => Ok (DEFAULT, [])
    end
  else Ok (DEFAULT, []).

Lemma snprintf_small size s : zlen s < size -> snprintf size s = Ok s.
Proof. intros H. unfold snprintf. by rewrite (proj2 (Z.leb_gt _ _)) by lia. Qed.

Lemma compare_singleton_path a x rest :
  name_ok a -> name_ok x -> Forall name_ok rest ->
  compare_paths (proc_path [a]) (proc_path (x :: rest))
  = Ok (if bool_decide (a = x) then
          if bool_decide (rest = []) then PATHS_ARE_EQUAL else PATH1_IS_PREFIX
        else compare_components [bs "proc"; a] (bs "proc" :: x :: rest)).
Proof.
  intros Ha Hx Hr. pose proof proc_name_ok. unfold proc_path. rewrite compare_render by auto.
  f_equal. case_bool_decide as E; [subst a | done]. unfold compare_components, comps_prefix.
  rewrite (bool_decide_eq_true_2 (_ `prefix_of` _)) by (by exists rest).
  destruct rest as [|r rest]; [by rewrite !bool_decide_eq_true_2|].
  by rewrite !bool_decide_eq_false_2 by congruence.
Qed.

(** Paths that differ at the pid are neither equal nor prefix of one another. *)
Lemma compare_other a x rest :
  a <> x -> compare_components [bs "proc"; a] (bs "proc" :: x :: rest) = PATHS_ARE_NOT_COMPARABLE.
Proof.
  intros Hne. unfold compare_components, comps_prefix.
  assert (H1 : [bs "proc"; a] <> bs "proc" :: x :: rest) by congruence.
  assert (H2 : ~ [bs "proc"; a] `prefix_of` bs "proc" :: x :: rest)
    by (intros [k Hk]; injection Hk as Hk; congruence).
  assert (H3 : ~ bs "proc" :: x :: rest `prefix_of` [bs "proc"; a])
    by (intros [k Hk]; injection Hk as Hk; congruence).
  by rewrite !bool_decide_eq_false_2.
Qed.

Lemma readlink_proc_base_path t x rest c :
  name_ok x -> Forall name_ok rest ->
  readlink_proc_base t (proc_path (x :: rest)) c = proc_links t x rest c.
Proof.
  intros Hx Hr. unfold readlink_proc_base, proc_links.
  replace (drop 6 (proc_path (x :: rest))) with (x ++ joined rest) by by rewrite proc_path_cons.
  set (n := atoi (x ++ joined rest)). clearbody n. destruct (n =? 0); [done|].
  pose proof (zlen_itoa n) as Hl. pose proof (proj1 (itoa_comp_ok n)) as Hi.
  assert (H6 : zlen (bs "/proc/") = 6) by done. assert (H3 : zlen (bs "/fd") = 3) by done.
  rewrite snprintf_small by (autorewrite with zlen; lia). cbn [res_bind].
  replace (bs "/proc/" ++ itoa n) with (proc_path [itoa n])
    by (rewrite proc_path_cons; simpl; by rewrite app_nil_r).
  rewrite compare_singleton_path by done. cbn [res_bind].
  case_bool_decide as E; [subst x | by rewrite compare_other].
  case_bool_decide as E; [by subst rest|].
  rewrite snprintf_small by (autorewrite with zlen; lia). cbn [res_bind].
  replace (bs "/proc/" ++ itoa n ++ bs "/fd") with (proc_path [itoa n; bs "fd"])
    by (rewrite proc_path_cons; simpl; done).
  assert (Hfd : name_ok (bs "fd")) by (split; [split; [done|]|]; repeat constructor; done).
  pose proof proc_name_ok. unfold proc_path at 1 2. rewrite compare_render by auto.
  cbn [res_bind].
  destruct rest as [|f rest]; [done|]. unfold compare_components.
  destruct rest as [|g rest].
  - case_bool_decide as E1; [simplify_eq; by rewrite bool_decide_eq_true_2|].
    rewrite (bool_decide_eq_false_2 (f = bs "fd")) by congruence.
    by repeat case_bool.
  - rewrite bool_decide_eq_false_2 by congruence. by repeat case_bool.
Qed.

(** readlink_proc() below "/proc/<component>", on component lists. *)
Lemma readlink_proc_path t x rest c :
  name_ok x -> Forall name_ok rest ->
  readlink_proc t (proc_path (x :: rest)) c PATH1_IS_PREFIX =
    if str_eqb x (bs "self") then
      if PATH_MAX <=? zlen (proc_path (itoa (pid t) :: rest)) then Err EPERM
      else proc_links t (itoa (pid t)) rest c
    else proc_links t x rest c.
Proof.
  intros Hx Hr. unfold readlink_proc. rewrite normalize_self_path by done.
  destruct (str_eqb x (bs "self")); cbn [res_bind]; [|by apply readlink_proc_base_path].
  unfold snprintf. case_bool; [done|]. cbn [res_bind].
  apply readlink_proc_base_path; [apply itoa_comp_ok | done].
Qed.

(** ** Well-formed views *)

Definition known_ok (k : KnownTracee) : Prop :=
  (exists e, exe k = Some e /\ e <> [] /\ nul_free e) /\ cwd (known_fs k) <> [] /\ nul_free (cwd (known_fs k))
  /\ exists root, rooted (known_fs k) root.

Definition view_ok (t : ProcView) : Prop :=
  forall n k, tracee_lookup_readonly t n = Some k -> known_ok k.

(** What the callers of readlink_proc() rely on: a target to canonicalize is a
    proper string, and a path that must not be dereferenced is
    "/proc/<x>/fd/<component>". *)
Definition action_ok (x : cstr) (rest : list cstr) (c : cstr) (r : res (Action * cstr)) : Prop :=
  match r with
  | Ok (CANONICALIZE, s) => nice s
  | Ok (DONT_CANONICALIZE, s) =>
      rest = [bs "fd"] /\ s = proc_path [x; bs "fd"; c] /\ zlen s < PATH_MAX
      /\ (exists n, x = itoa n) /\ c <> []
  | Ok (DEFAULT, _) => True
  | Err _ => True
  | Stuck _ => False
  end.

Lemma SUBSTITUTE_ok x rest c s :
  s <> [] -> nul_free s -> action_ok x rest c (SUBSTITUTE (Some s)).
Proof. intros Hne Hn. unfold SUBSTITUTE. case_bool; [done|]. bool_facts. by split. Qed.

Lemma readlink_proc_pid_ok t n x rest c :
  view_ok t -> action_ok x rest c (readlink_proc_pid (tracee_lookup_readonly t n) c).
Proof.
  intros Ht. destruct (tracee_lookup_readonly t n) as [k|] eqn:E; [|done].
  destruct (Ht n k E) as ((e & He & Hne & Hen) & Hc & Hcn & root & Hr). simpl.
  rewrite He. case_bool; [by apply SUBSTITUTE_ok|]. case_bool; [by apply SUBSTITUTE_ok|].
  case_bool; [|done]. pose proof (root_string_ok _ _ Hr) as Hs. unfold root_string in Hs.
  destruct (get_root (known_fs k)) as [[s|]| |]; simplify_eq/=. apply SUBSTITUTE_ok; [by destruct root|].
  destruct Hr as (_ & _ & _ & _ & _ & _ & Hr). by apply nul_free_render.
Qed.

Lemma readlink_proc_fd_ok x c :
  (exists n, x = itoa n) -> action_ok x [bs "fd"] c (readlink_proc_fd (proc_path [x; bs "fd"]) c).
Proof.
  intros Hx. unfold readlink_proc_fd. destruct (strtol10 c) as [[v found] erange] eqn:Es.
  case_bool; [done|]. unfold snprintf. case_bool; [done|]. bool_facts.
  rewrite proc_path_snoc in *. repeat (split; [done|]).
  intros ->. vm_compute in Es. injection Es as <- <- <-. discriminate.
Qed.

Lemma proc_links_ok t x rest c :
  view_ok t -> action_ok x rest c (proc_links t x rest c).
Proof.
  intros Ht. unfold proc_links. case_bool; [done|]. case_bool_decide as E; [|done].
  destruct rest as [|f [|g rest]]; [by apply readlink_proc_pid_ok | | done].
  case_bool_decide as F; [subst f | done]. apply readlink_proc_fd_ok. eauto.
Qed.

(** The general contract of readlink_proc() for a base below "/proc". *)
Lemma readlink_proc_ok t x rest c :
  view_ok t -> name_ok x -> Forall name_ok rest ->
  exists x', action_ok x' rest c (readlink_proc t (proc_path (x :: rest)) c PATH1_IS_PREFIX).
Proof.
  intros Ht Hx Hr. rewrite readlink_proc_path by done.
  destruct (str_eqb x (bs "self")); [|eexists; by apply proc_links_ok].
  case_bool; [by exists []|]. eexists. by apply proc_links_ok.
Qed.

(** ** Detranslation *)

Lemma strip_root_render fs root sanity p :
  rooted fs root -> Forall name_ok p ->
  strip_root fs sanity (render p) =
    if comps_prefix root p
    then Ok (zlen (render (drop (length root) p)) + 1, render (drop (length root) p))
    else if sanity then Err EPERM else Ok (0, render p).
Proof.
  intros Hr Hp. unfold strip_root. rewrite (root_string_ok fs root Hr). cbn [res_bind].
  destruct Hr as (_ & _ & _ & _ & _ & _ & Hroot). rewrite compare_render by done. cbn [res_bind].
  unfold compare_components, comps_prefix. case_bool_decide as E.
  { subst p. rewrite bool_decide_eq_true_2 by done. by rewrite drop_all. }
  case_bool_decide as E'; [|by case_bool].
  destruct E' as [s ->]. rewrite drop_app_length, render_length_one by auto with proot.
  destruct root as [|c root]; [done|]. rewrite bool_decide_eq_false_2 by done.
  destruct s as [|d s]; [by rewrite app_nil_r in E|].
  rewrite !render_joined by done. rewrite joined_app, drop_app_length. done.
Qed.

(** A host path of the rootfs is never taken for the one of a binding. *)
Lemma substitute_binding_host_root fs root l p :
  rooted fs root -> fs_ok fs -> bindings_host fs = Some l -> Forall name_ok p ->
  (root <> [] /\ root `prefix_of` p) \/ not_bound HOST l p ->
  substitute_binding fs HOST (render p) = Err ENOENT.
Proof.
  intros Hr Hok Hl Hp H. unfold substitute_binding.
  destruct (get_binding_host fs root l p Hr Hok Hl Hp) as [(b & -> & Hd)|(-> & _)]; [|done].
  destruct H as [[Hne Hpre]|H].
  - unfold comps_prefix. by rewrite !bool_decide_eq_true_2.
  - destruct Hd as (Hb & Hpre & _). by destruct (H b Hb).
Qed.

Lemma strip_root_nice fs root sanity p :
  rooted fs root -> absolute p = true -> nice p ->
  exists r, strip_root fs sanity p = r /\
    match r with Ok (_, q) => nice q | Err e => e = EPERM /\ sanity = true | Stuck _ => False end.
Proof.
  intros Hr Hp (Hne & Hn & Hl). eexists. split; [done|]. unfold strip_root.
  rewrite (root_string_ok fs root Hr). cbn [res_bind].
  destruct (compare_paths_total (render root) p) as (c & Ec & H1 & H2); [by destruct root | done |].
  rewrite Ec. cbn [res_bind]. destruct c; [| | by destruct sanity | by destruct sanity].
  { split; [done|]. split; [by repeat constructor|done]. }
  specialize (H2 eq_refl). pose proof (strip_trailing_le p (length p)).
  destruct Hr as (_ & _ & _ & _ & _ & _ & Hroot). rewrite strip_render in H2 by auto with proot.
  rewrite render_length_one by auto with proot. case_bool_decide as E; [subst; by repeat split|].
  rewrite render_joined by done. split; [|split].
  - intros H0. apply (f_equal length) in H0. rewrite length_drop in H0. simpl in H0. lia.
  - by apply Forall_drop.
  - unfold zlen in *. rewrite length_drop. lia.
Qed.

Lemma detranslate_with_nice fs root l sanity follow p :
  rooted fs root -> fs_wf fs -> fs_sized fs -> bindings_host fs = Some l ->
  absolute p = true -> nice p ->
  match detranslate_with fs sanity follow p with
  | Ok (_, q) => nice q | Err e => e = EPERM /\ sanity = true | Stuck _ => False end.
Proof.
  intros Hr Hwf Hsz Hl Hp Hn. unfold detranslate_with.
  destruct (strip_root_nice fs root sanity p Hr Hp Hn) as (r & -> & H).
  destruct follow; [|done].
  destruct (substitute_binding_nice fs root HOST l p) as [-> | (st & q & -> & Hq & H0 & Hst)]; auto.
  by destruct Hst as [-> | ->].
Qed.

(** strrchr() on a canonical path. *)
Lemma split_last_path cs c :
  name_ok c -> split_last (proc_path (cs ++ [c])) = Some (proc_path cs, c).
Proof.
  intros [Hc _]. rewrite <- proc_path_snoc. unfold split_last. rewrite rev_app_distr.
  cbn [rev]. rewrite <- app_assoc. cbn [app].
  rewrite span_all; [by rewrite !rev_involutive | | done].
  apply List.Forall_forall. intros x Hx. apply in_rev in Hx.
  pose proof (plain_not_slash c Hc) as H. rewrite List.Forall_forall in H. by apply H.
Qed.

Lemma compare_proc h :
  Forall name_ok h ->
  compare_paths (bs "/proc") (render h) = Ok (compare_components [bs "proc"] h).
Proof.
  intros Hh. pose proof proc_name_ok. change (bs "/proc") with (render [bs "proc"]).
  by apply compare_render; auto.
Qed.

Lemma compare_proc_prefix h c :
  compare_components [bs "proc"] h = c -> c = PATHS_ARE_EQUAL \/ c = PATH1_IS_PREFIX ->
  exists rest, h = bs "proc" :: rest /\ (c = PATHS_ARE_EQUAL <-> rest = []).
Proof.
  intros <-. unfold compare_components, comps_prefix.
  case_bool_decide as E; [subst h; intros _; by exists []|].
  case_bool_decide as E'; [|case_bool; by intros [|]].
  destruct E' as [rest ->]. intros _. exists rest. split; [done|]. split; [done|]. by intros ->.
Qed.

Lemma readlink_proc2_outcome t h :
  view_ok t -> Forall name_ok h ->
  outcome (fun r => forall s, r = Some s -> nice s) (readlink_proc2 t (render h)).
Proof.
  intros Ht Hh. unfold readlink_proc2. case_bool; [done|]. rewrite compare_proc by done.
  cbn [res_bind]. case_bool_decide as E; [|done]. cbn [negb].
  destruct (compare_proc_prefix h _ E (or_intror eq_refl)) as (rest & -> & Hrest).
  destruct rest as [|c rest _] using rev_ind; [by discriminate (proj2 Hrest eq_refl)|].
  inversion Hh as [|? ? _ Hr]; subst. apply Forall_app in Hr as [Hr Hc]. inversion Hc; subst.
  change (render (bs "proc" :: rest ++ [c])) with (proc_path (rest ++ [c])).
  rewrite split_last_path by done. case_bool; [done|]. case_bool; [done|].
  destruct rest as [|x rest]; [done|]. inversion Hr; subst.
  destruct (readlink_proc_ok t x rest c) as [x' H]; [done..|].
  destruct (readlink_proc t _ c _) as [[[] s]| |]; simpl; try done.
  intros s'. case_bool; [done|]. by intros [= <-].
Qed.

(** detranslate_path() on the target of a symlink, or on a path of the kernel:
    the result is again a proper string. *)
Lemma detranslate_path_outcome t fs root l p referrer :
  view_ok t -> rooted fs root -> fs_wf fs -> fs_sized fs -> bindings_host fs = Some l ->
  nice p -> (forall r, referrer = Some r -> exists h, r = render h /\ Forall name_ok h) ->
  outcome (fun '(_, q) => nice q) (detranslate_path t fs p referrer).
Proof.
  intros Ht Hr Hwf Hsz Hl Hp Href. unfold detranslate_path.
  case_bool; [done|]. case_bool; [done|]. bool_facts.
  assert (Hwith : forall s f, outcome (fun '(_, q) => nice q) (detranslate_with fs s f p)).
  { intros s f. pose proof (detranslate_with_nice fs root l s f p) as H.
    destruct (detranslate_with fs s f p) as [[? ?]| |]; simpl; auto. by destruct H. }
  destruct referrer as [r|]; [|apply Hwith].
  destruct (Href r eq_refl) as (h & -> & Hh). rewrite compare_proc by done. cbn [res_bind].
  case_bool.
  - eapply outcome_bind; [by apply readlink_proc2_outcome|].
    intros [s|] Hs; [by apply Hs | apply Hwith].
  - destruct (belongs_to_guestfs_total fs root (render h)) as (b & ->); [done | by destruct h |].
    cbn [res_bind]. destruct b; [apply Hwith|]. eapply (outcome_bind (fun _ => True)); [|by intros].
    unfold same_binding, get_path_binding.
    destruct (get_binding_total fs root HOST l p) as (o & -> & Ho); auto; [by destruct Hwf|].
    destruct (get_binding_total fs root HOST l (render h)) as (o' & -> & Ho'); auto;
      [by destruct Hwf | apply absolute_render|].
    destruct Hwf as [_ Hwf]. specialize (Hwf HOST l ltac:(done) Hl). rewrite Forall_forall in Hwf.
    assert (Hne : forall b, b ∈ l -> path (host b) <> []).
    { intros b Hin. apply wf_path_nonempty. by apply Hwf. }
    destruct o as [b|], o' as [b'|]; cbn [res_bind]; try done.
    destruct (compare_paths_total (path (host b)) (path (host b'))) as (c & -> & _); [| |done];
      apply Hne; [by apply Ho | by apply Ho'].
Qed.

(** ** Properties *)

(** the emulation of "/proc/<pid>": for the pid of a tracee, the links
    "exe", "cwd" and "root" give what PRoot knows of that tracee and not what
    the kernel says, the entries of "fd" are left to the kernel, anything else
    and any other process is not emulated; and "self" is the pid of the caller. *)
Theorem readlink_proc_emulates t n c rest :
  0 < n < 2 ^ 31 -> name_ok c -> Forall name_ok rest ->
  readlink_proc t (proc_path [itoa n]) c PATH1_IS_PREFIX
    = readlink_proc_pid (tracee_lookup_readonly t n) c
  /\ readlink_proc t (proc_path [itoa n; bs "fd"]) c PATH1_IS_PREFIX
    = readlink_proc_fd (proc_path [itoa n; bs "fd"]) c
  /\ (0 < pid t < 2 ^ 31 -> zlen (proc_path (itoa (pid t) :: rest)) < PATH_MAX ->
      readlink_proc t (proc_path (bs "self" :: rest)) c PATH1_IS_PREFIX
      = readlink_proc t (proc_path (itoa (pid t) :: rest)) c PATH1_IS_PREFIX).
Proof.
  intros Hn Hc Hrest.
  assert (Hself : forall m, str_eqb (itoa m) (bs "self") = false).
  { intros m. apply str_eqb_neq. intros E. unfold itoa in E.
    pose proof (digits_digits 10 (Z.abs m) ltac:(lia)) as Hd.
    destruct (m <? 0) eqn:Em; bool_facts; [by injection E|].
    rewrite Z.abs_eq, E in Hd by lia. by inversion Hd. }
  assert (Hok : forall m, name_ok (itoa m)) by (intros m; apply itoa_comp_ok).
  assert (Hfd : name_ok (bs "fd")) by (split; [split; [done|]|]; repeat constructor; done).
  assert (Hdig : forall r, match joined r with c :: _ => is_digit c = false | [] => True end).
  { intros r. by destruct (joined_boundary r) as [-> | [y ->]]. }
  rewrite !readlink_proc_path by auto. rewrite Hself. unfold proc_links.
  rewrite !atoi_itoa by first [lia | apply Hdig]. rewrite (proj2 (Z.eqb_neq _ _)) by lia.
  rewrite !bool_decide_eq_true_2 by done. split; [done|]. split; [done|].
  intros Hp Hl. 
  assert (Hs : name_ok (bs "self")) by decide_witness.
  rewrite !readlink_proc_path by auto.
  rewrite Hself, str_eqb_refl. by rewrite (proj2 (Z.leb_gt _ _)) by lia.
Qed.

Definition demo_view : ProcView :=
  mkView 7 (fun n => if n =? 7 then Some (mkKnown (Some (bs "/bin/sh")) demo_fs) else None).

Lemma readlink_proc_emulates_witness :
  readlink_proc demo_view (bs "/proc/self") (bs "exe") PATH1_IS_PREFIX
    = Ok (CANONICALIZE, bs "/bin/sh")
  /\ readlink_proc demo_view (bs "/proc/8") (bs "exe") PATH1_IS_PREFIX = Ok (DEFAULT, []).
Proof.
  assert (Hexe : name_ok (bs "exe")) by decide_witness.
  split.
  - destruct (readlink_proc_emulates demo_view 7 (bs "exe") []) as (H1 & _ & H2); [lia | done | done |].
    specialize (H2 ltac:(simpl; lia) ltac:(by vm_compute)).
    change (proc_path [bs "self"]) with (bs "/proc/self") in H2.
    rewrite H2. change (itoa (pid demo_view)) with (itoa 7). rewrite H1. by vm_compute.
  - destruct (readlink_proc_emulates demo_view 8 (bs "exe") []) as (H1 & _ & _); [lia | done | done |].
    change (proc_path [itoa 8]) with (bs "/proc/8") in H1. rewrite H1. by vm_compute.
Defined.

(** a host path is given back to the guest only when the guest may name it:
    in a rootfs other than "/", detranslate_path() strips the rootfs from the
    paths below it (even when a binding covers the rootfs), and refuses with
    EPERM a path that is neither in the rootfs nor in a binding. *)
Theorem detranslate_path_root t fs root l p :
  rooted fs root -> fs_ok fs -> bindings_host fs = Some l -> root <> [] -> Forall name_ok p ->
  zlen (render p) < PATH_MAX ->
  (forall b, b ∈ l -> key HOST b `prefix_of` p -> root `prefix_of` p) ->
  detranslate_path t fs (render p) None =
    if comps_prefix root p
    then Ok (zlen (render (drop (length root) p)) + 1, render (drop (length root) p))
    else Err EPERM.
Proof.
  intros Hr Hok Hl Hne Hp Hlen Hb. unfold detranslate_path, detranslate_with.
  rewrite (proj2 (Z.leb_gt _ _)) by lia. rewrite absolute_render. cbn [negb].
  rewrite (substitute_binding_host_root fs root l p); auto.
  - by apply strip_root_render.
  - destruct (decide (root `prefix_of` p)) as [|Hn]; [by left | right].
    intros b Hin Hpre. apply Hn. by apply (Hb b).
Qed.

Lemma detranslate_path_root_witness :
  detranslate_path demo_view demo_fs (bs "/data/root/etc") None = Ok (5, bs "/etc")
  /\ detranslate_path demo_view demo_fs (bs "/data/other") None = Err EPERM.
Proof.
  assert (Hr : rooted demo_fs (names ["data"; "root"]%string)).
  { exists [demo_tmp; demo_sd; demo_root], demo_root. repeat (split; [done|]).
    decide_witness. }
  assert (Hok : fs_ok demo_fs) by (by apply fs_wfb_sound; vm_compute).
  split.
  - apply (detranslate_path_root demo_view demo_fs _ [demo_tmp; demo_sd; demo_root]
      (names ["data"; "root"; "etc"]%string) Hr Hok); [done | done | decide_witness | by vm_compute |].
    intros b _ _. decide_witness.
  - apply (detranslate_path_root demo_view demo_fs _ [demo_tmp; demo_sd; demo_root]
      (names ["data"; "other"]%string) Hr Hok); [done | done | decide_witness | by vm_compute |].
    intros b Hb Hpre. exfalso. rewrite !elem_of_cons in Hb.
    destruct Hb as [-> | [-> | [-> | Hb%elem_of_nil]]]; [| | |done]; revert Hpre; decide_witness.
Defined.
