(* ===== verification/Canon.v ===== *)
(** * Canonicalization (src/path/canon.c, src/path/glue.c, src/path/f2fs-bug.c)

    canonicalize() walks over a guest path component by component, resolving
    the bindings and the symlinks; during the initialization of a binding,
    build_glue() creates the missing components.  The kernel and the
    extensions are interfaces. *)

From S2P Require Import Prelude Paths Binding ProcLinks.

(** ** File modes *)

Definition S_IFMT := 0xF000.
Definition S_IFDIR := 0x4000.
Definition S_IFLNK := 0xA000.
Definition S_IFREG := 0x8000.
Definition S_ISDIR (mode : Z) : bool := Z.land mode S_IFMT =? S_IFDIR.
Definition S_ISLNK (mode : Z) : bool := Z.land mode S_IFMT =? S_IFLNK.

(** ** Interfaces *)

(** What code outside of the component returns: a value or an [errno]. *)
Definition status (A : Type) : Type := (A + Z)%type.
Definition of_status {A} (s : status A) : res A :=
  match s with inl a => Ok a | inr e => Err e end.

(** The state of the host, [W], and the system calls canonicalize() makes on it.
    [listdir] is opendir() and readdir(). *)
Class Kernel (W : Type) := {
  lstat : W -> cstr -> status Z;
  readlink : W -> cstr -> status cstr;
  listdir : W -> cstr -> option (list cstr);
  mkdir : W -> cstr -> Z -> W * status unit;
  mknod : W -> cstr -> Z -> W * status unit;
  create_temp_directory : W -> W * option cstr;
  set_placeholder_destructor : W -> cstr -> W;
  PROOT_DONT_POLLUTE_ROOTFS : bool;
  f2fs_bug_detected : bool
}.

(** What the extensions, the shadows of the network policy among them, answer:
    [inr e] for a negative status. *)
Class Extensions (W : Type) := {
  net_policy_shadow_access : W -> cstr -> W * status unit;
  notify_HOST_PATH : W -> cstr -> bool -> W * status unit;
  notify_SYMLINK_DEREFERENCED : W -> cstr -> cstr -> W * status unit
}.

(** readlink(2): the content of a symlink is a string of 1 to [PATH_MAX] bytes. *)
Class KernelLaws (W : Type) (K : Kernel W) : Prop := {
  readlink_content : forall w p s, readlink w p = inl s -> s <> [] /\ nul_free s /\ zlen s <= PATH_MAX
}.

(** The part of a tracee that path translation uses. *)
Record Tracee (W : Type) := mkTracee {
  fs : FileSystemNameSpace;
  glue : option cstr;
  glue_type : Z;
  next_addr : nat;
  view : ProcView;
  world : W
}.
Arguments mkTracee {W}.
Arguments fs {W}.
Arguments glue {W}.
Arguments glue_type {W}.
Arguments next_addr {W}.
Arguments view {W}.
Arguments world {W}.

(** ** The monad of the tracee's state and of errors *)

Definition M (W A : Type) : Type := Tracee W -> Tracee W * res A.

Definition ret {W A} (a : A) : M W A := fun t => (t, Ok a).
Definition lift {W A} (r : res A) : M W A := fun t => (t, r).
Definition get {W A} (f : Tracee W -> A) : M W A := fun t => (t, Ok (f t)).
Definition fail {W A} (e : Z) : M W A := fun t => (t, Err e).
Definition bind {W A B} (m : M W A) (k : A -> M W B) : M W B :=
  fun t => match m t with
           | (t, Ok a) => k a t
           | (t, Err e) => (t, Err e)
           | (t, Stuck w) => (t, Stuck w)
           end.
(** A failure is a value: the caller tests the status. *)
Definition attempt {W A} (m : M W A) : M W (status A) :=
  fun t => match m t with
           | (t, Stuck w) => (t, Stuck w)
           | (t, Ok a) => (t, Ok (inl a))
           | (t, Err e) => (t, Ok (inr e))
           end.
Definition on_world {W A} (f : W -> W * status A) : M W A :=
  fun t => let '(w, r) := f (world t) in
           (mkTracee (fs t) (glue t) (glue_type t) (next_addr t) (view t) w, of_status r).

Notation "'do!' x ':=' m 'in' k" := (bind m (fun x => k))
  (at level 10, x pattern, m at level 100, k at level 200) : res_scope.

Section Canonicalize.

Context {W : Type} {K : Kernel W} {E : Extensions W}.

Definition set_glue (g : option cstr) : M W unit :=
  fun t => (mkTracee (fs t) g (glue_type t) (next_addr t) (view t) (world t), Ok ()).
Definition set_glue_type (ty : Z) : M W unit :=
  fun t => (mkTracee (fs t) (glue t) ty (next_addr t) (view t) (world t), Ok ()).

(** insort_binding3() on the name-space of the tracee. *)
Definition insort_binding3_m (host_path guest_path : cstr) : M W unit :=
  fun t => match insort_binding3 (fs t) (next_addr t) host_path guest_path with
           | Ok (_, f) => (mkTracee f (glue t) (glue_type t) (S (next_addr t)) (view t) (world t), Ok ())
           | Err e => (t, Err e)
           | Stuck w => (t, Stuck w)
           end.

(** ** f2fs-bug.c *)

Definition dirname (p : cstr) : cstr :=
  match split_last p with
  | None => bs "."
  | Some (base, _) => if bool_decide (base = []) then [SLASH] else base
  end.
Definition basename (p : cstr) : cstr :=
  match split_last p with None => p | Some (_, component) => component end.

Definition should_skip_file_access_due_to_f2fs_bug (p : cstr) : M W bool :=
  if negb f2fs_bug_detected then ret false
  else if negb (zlen p <? PATH_MAX - 1) then lift (Stuck AssertFailed)
  else
    do! w := get world in
    match listdir w (dirname p) with
    | None => ret false
    | Some entries => ret (negb (existsb (str_eqb (basename p)) entries))
    end.

(** ** glue.c *)

Definition ensure_glue : M W (option cstr) :=
  do! g := get glue in
  match g with
  | Some _ => ret g
  | None =>
      do! g := on_world (fun w => let '(w, g) := create_temp_directory w in (w, inl g)) in
      do! _ := set_glue g in
      ret g
  end.

(** The [create_binding] label. *)
Definition create_glue_binding (g guest_path : cstr) (type : Z) : M W Z :=
  if (PATH_MAX <=? zlen g) || (PATH_MAX <=? zlen guest_path) then ret 0
  else
    do! _ := insort_binding3_m g guest_path in
    ret type.

(** build_glue(): the type of the component, 0 on error. *)
Definition build_glue (guest_path host_path : cstr) (finality : Finality) : M W Z :=
  do! ty := get glue_type in
  if ty =? 0 then lift (Stuck AssertFailed)
  else
    do! g := ensure_glue in
    match g with
    | None => ret 0
    | Some g =>
        do! comparison := lift (compare_paths g host_path) in
        let belongs_to_gluefs :=
          bool_decide (comparison = PATHS_ARE_EQUAL) || bool_decide (comparison = PATH1_IS_PREFIX) in
        let type := if IS_FINAL finality then ty else S_IFDIR in
        let mode := if IS_FINAL finality then if belongs_to_gluefs then 0x1FF else 0 else 0x1FF in
        if PROOT_DONT_POLLUTE_ROOTFS && negb belongs_to_gluefs
        then create_glue_binding g guest_path type
        else
          do! status := attempt (if S_ISDIR type
                                 then on_world (fun w => mkdir w host_path mode)
                                 else on_world (fun w => mknod w host_path (Z.lor mode type))) in
          match status with
          | inl _ =>
              do! _ := (if belongs_to_gluefs then ret ()
                        else on_world (fun w => (set_placeholder_destructor w host_path, inl ()))) in
              ret type
          | inr e =>
              if (e =? EEXIST) || IS_FINAL finality then ret type
              else if belongs_to_gluefs then ret 0
              else create_glue_binding g guest_path type
          end
    end.

(** ** canon.c *)

(** lstat() with the exception for /linkerconfig: the mode, 0 on error. *)
Definition lstat_mode (host_path : cstr) : M W (bool * Z) :=
  do! skip := should_skip_file_access_due_to_f2fs_bug host_path in
  if skip then ret (false, 0)
  else
    do! w := get world in
    match lstat w host_path with
    | inl mode => ret (true, mode)
    | inr e => if (e =? EACCES) && str_eqb host_path (bs "/linkerconfig")
               then ret (true, S_IFDIR) else ret (false, 0)
    end.

(** substitute_binding_stat(): the host path, and whether it is a symlink. *)
Definition substitute_binding_stat (finality : Finality) (recursion_level : Z)
    (guest_path : cstr) : M W (cstr * bool) :=
  do! f := get fs in
  do! (_, host_path) := lift (substitute_binding f GUEST guest_path) in
  do! _ := on_world (fun w => net_policy_shadow_access w guest_path) in
  do! ty := get glue_type in
  do! _ := (if ty =? 0
            then on_world (fun w => notify_HOST_PATH w host_path
                                      (IS_FINAL finality && (recursion_level =? 0)))
            else ret ()) in
  do! (found, mode) := lstat_mode host_path in
  do! (found, mode) := (if negb found && negb (ty =? 0)
                        then do! mode := build_glue guest_path host_path finality in
                             ret (found, mode)
                        else ret (found, mode)) in
  if negb (IS_FINAL finality) && negb (S_ISDIR mode) && negb (S_ISLNK mode)
  then fail (if found then ENOTDIR else ENOENT)
  else ret (host_path, S_ISLNK mode).

(** The comparison that decides whether the links of [guest_path] are emulated:
    "/proc" itself, or an alias of it by a binding. *)
Definition proc_base_of (guest_path : cstr) : M W (Comparison * cstr) :=
  do! comparison := lift (compare_paths (bs "/proc") guest_path) in
  if bool_decide (comparison <> PATHS_ARE_EQUAL) && bool_decide (comparison <> PATH1_IS_PREFIX)
  then
    do! f := get fs in
    do! sub := attempt (lift (substitute_binding f GUEST guest_path)) in
    let alias_base := match sub with inl (_, p) => p | inr _ => guest_path end in
    if str_eqb alias_base guest_path then ret (comparison, guest_path)
    else
      do! comparison := lift (compare_paths (bs "/proc") alias_base) in
      ret (comparison, alias_base)
  else ret (comparison, guest_path).

(** The action of readlink_proc() for a component that is a link. *)
Definition proc_action (guest_path component : cstr) : M W (Action * cstr) :=
  do! (comparison, proc_base) := proc_base_of guest_path in
  match comparison with
  | PATHS_ARE_EQUAL | PATH1_IS_PREFIX =>
      do! v := get view in
      lift (readlink_proc v proc_base component comparison)
  | _ => ret (DEFAULT, [])
  end.

(** readlink(), the notification of the extensions and the detranslation. *)
Definition read_symlink (host_path : cstr) : M W cstr :=
  do! w := get world in
  do! scratch_path := lift (of_status (readlink w host_path)) in
  if zlen scratch_path =? PATH_MAX then fail ENAMETOOLONG
  else
    do! ty := get glue_type in
    do! _ := (if ty =? 0
              then on_world (fun w => notify_SYMLINK_DEREFERENCED w host_path scratch_path)
              else ret ()) in
    do! f := get fs in
    do! v := get view in
    do! (_, scratch_path) := lift (detranslate_path v f scratch_path (Some host_path)) in
    ret scratch_path.

(** sscanf(path, "/proc/%*d/fd/%d"): both numbers are found. *)
Definition scan_int (s : cstr) : option cstr :=
  let s := snd (span is_space s) in
  let s := match s with 45 :: s => s | 43 :: s => s | _ => s end in
  let '(ds, rest) := span is_digit s in
  if bool_decide (ds = []) then None else Some rest.

Definition is_proc_fd (p : cstr) : bool :=
  if negb (str_eqb (take 6 p) (bs "/proc/")) then false
  else match scan_int (drop 6 p) with
       | None => false
       | Some p => if negb (str_eqb (take 4 p) (bs "/fd/")) then false
                   else match scan_int (drop 4 p) with None => false | Some _ => true end
       end.

(** The check of the path a caller spells against the shadows. *)
Definition check_shadow (user_path guest_path : cstr) : M W unit :=
  let shadow_path := if absolute user_path
                     then Ok (take (Z.to_nat (PATH_MAX - 1)) user_path)
                     else join2 guest_path user_path in
  match shadow_path with
  | Stuck w => lift (Stuck w)
  | Err _ => fail ENAMETOOLONG
  | Ok shadow_path =>
      match normalize_guest_path shadow_path with
      | Stuck w => lift (Stuck w)
      | Err _ => fail ENAMETOOLONG
      | Ok shadow_path =>
          do! status := attempt (on_world (fun w => net_policy_shadow_access w shadow_path)) in
          match status with inr _ => fail ENOENT | inl _ => ret () end
      end
  end.

(** How the body of the loop ends: with the next [guest_path] and [finality],
    or with the function returning. *)
Inductive step_result :=
  | Continue (guest_path : cstr) (finality : Finality) (symlinks_followed : Z)
  | Return (guest_path : cstr).

Section Walk.

(** The recursive calls: canonicalize(_, user_path, true, guest_path, level). *)
Variable canonicalize_rec : cstr -> cstr -> Z -> M W cstr.

(** A component that is neither "." nor "..". *)
Definition walk_component (deref_final : bool) (recursion_level symlinks_followed : Z)
    (guest_path component : cstr) (finality : Finality) : M W step_result :=
  do! scratch_path := lift (join2 guest_path component) in
  do! (host_path, is_link) := substitute_binding_stat finality recursion_level scratch_path in
  if negb is_link || (bool_decide (finality = FINAL_NORMAL) && negb deref_final)
  then
    do! guest_path := lift (join2 guest_path component) in
    ret (Continue guest_path finality symlinks_followed)
  else
    do! (action, result) := proc_action guest_path component in
    if bool_decide (action = DONT_CANONICALIZE) && bool_decide (finality = FINAL_NORMAL)
    then ret (Return result)
    else
      do! scratch_path := (if bool_decide (action = CANONICALIZE) then ret result
                           else read_symlink host_path) in
      do! guest_path := canonicalize_rec scratch_path guest_path
                          (recursion_level + (symlinks_followed + 1)) in
      do! (_, is_link) := substitute_binding_stat finality recursion_level guest_path in
      if is_link && negb (is_proc_fd guest_path) then lift (Stuck AssertFailed)
      else ret (Continue guest_path finality (symlinks_followed + 1)).

(** One iteration: the component at [cursor]. *)
Definition walk_step (deref_final : bool) (recursion_level symlinks_followed : Z)
    (guest_path component : cstr) (finality : Finality) : M W step_result :=
  if str_eqb component (bs ".")
  then ret (Continue guest_path (if IS_FINAL finality then FINAL_DOT else finality)
              symlinks_followed)
  else if str_eqb component (bs "..")
  then
    do! guest_path := lift (pop_component guest_path) in
    ret (Continue guest_path (if IS_FINAL finality then FINAL_SLASH else finality)
           symlinks_followed)
  else walk_component deref_final recursion_level symlinks_followed guest_path component finality.

(** The loop; [None] when the function returned from within it. *)
Fixpoint walk (fuel : nat) (deref_final : bool) (recursion_level symlinks_followed : Z)
    (guest_path cursor : cstr) : M W (cstr * option Finality) :=
  match fuel with
  | O => lift (Stuck NoFuel)
  | S fuel =>
      do! (component, cursor, finality) := lift (next_component cursor) in
      do! step := walk_step deref_final recursion_level symlinks_followed
                    guest_path component finality in
      match step with
      | Return guest_path => ret (guest_path, None)
      | Continue guest_path finality symlinks_followed =>
          if IS_FINAL finality then ret (guest_path, Some finality)
          else walk fuel deref_final recursion_level symlinks_followed guest_path cursor
      end
  end.

End Walk.

(** The end of the first level: the terminating "/" or "." is put back. *)
Definition restore_finality (recursion_level : Z) (guest_path : cstr) (finality : Finality)
  : res cstr :=
  if recursion_level =? 0 then
    match finality with
    | FINAL_NORMAL => Ok guest_path
    | FINAL_SLASH => join2 guest_path []
    | FINAL_DOT => join2 guest_path (bs ".")
    | NOT_FINAL => Stuck AssertFailed
    end
  else Ok guest_path.

(** canonicalize(): the new content of [guest_path].  [levels] bounds the
    recursion: the level increases at each call and 4 is refused. *)
Fixpoint canonicalize (levels : nat) (user_path : cstr) (deref_final : bool)
    (guest_path : cstr) (recursion_level : Z) : M W cstr :=
  match levels with
  | O => lift (Stuck NoFuel)
  | S levels =>
      if 3 <? recursion_level then fail ELOOP
      else if PATH_MAX <=? zlen guest_path then fail ENAMETOOLONG
      else
        do! _ := check_shadow user_path guest_path in
        if negb (absolute user_path) && negb (absolute guest_path) then fail EINVAL
        else
          let guest_path := if absolute user_path then [SLASH] else guest_path in
          do! (guest_path, finality) :=
            walk (fun user_path guest_path level => canonicalize levels user_path true guest_path level)
              (S (length user_path)) deref_final recursion_level 0 guest_path user_path in
          match finality with
          | None => ret guest_path
          | Some finality => lift (restore_finality recursion_level guest_path finality)
          end
  end.

End Canonicalize.

(** ** Reasoning on the monad *)

(** [holds I S m Q]: from a state of [I], [m] ends in a state of [I]; a value
    satisfies [Q], and a computation that is stuck is so for a reason of [S]. *)
Definition holds {W A} (I : Tracee W -> Prop) (S : stuck -> Prop) (m : M W A) (Q : A -> Prop) : Prop :=
  forall t, I t -> I (fst (m t)) /\
    match snd (m t) with Ok a => Q a | Err _ => True | Stuck w => S w end.

Section Holds.

Context {W : Type} (I : Tracee W -> Prop) (S : stuck -> Prop).

Lemma holds_ret {A} (a : A) (Q : A -> Prop) : Q a -> holds I S (ret a) Q.
Proof. intros H t Ht. by split. Qed.

Lemma holds_fail {A} e (Q : A -> Prop) : holds I S (fail e) Q.
Proof. intros t Ht. by split. Qed.

Lemma holds_lift {A} (r : res A) (Q : A -> Prop) :
  match r with Ok a => Q a | Err _ => True | Stuck w => S w end -> holds I S (lift r) Q.
Proof. intros H t Ht. by split. Qed.

Lemma holds_get {A} (f : Tracee W -> A) (Q : A -> Prop) :
  (forall t, I t -> Q (f t)) -> holds I S (get f) Q.
Proof. intros H t Ht. split; [done|]. by apply H. Qed.

Lemma holds_weaken {A} (m : M W A) (P Q : A -> Prop) :
  holds I S m P -> (forall a, P a -> Q a) -> holds I S m Q.
Proof.
  intros Hm H t Ht. destruct (Hm t Ht) as [Hi Hr]. split; [done|].
  destruct (snd (m t)); auto.
Qed.

Lemma holds_bind {A B} (m : M W A) (k : A -> M W B) (P : A -> Prop) (Q : B -> Prop) :
  holds I S m P -> (forall a, P a -> holds I S (k a) Q) -> holds I S (bind m k) Q.
Proof.
  intros Hm Hk t Ht. unfold bind. specialize (Hm t Ht).
  destruct (m t) as [t' [a|e|w]]; simpl in *; [|done|done].
  apply Hk; by destruct Hm.
Qed.

Lemma holds_attempt {A} (m : M W A) (Q : status A -> Prop) :
  holds I S m (fun a => Q (inl a)) -> (forall e, Q (inr e)) -> holds I S (attempt m) Q.
Proof.
  intros Hm He t Ht. unfold attempt. specialize (Hm t Ht).
  destruct (m t) as [t' [a|e|w]]; simpl in *; [done| |done]. by destruct Hm.
Qed.

Lemma holds_world {A} (f : W -> W * status A) (Q : A -> Prop) :
  (forall t w, I t -> I (mkTracee (fs t) (glue t) (glue_type t) (next_addr t) (view t) w)) ->
  (forall w a, snd (f w) = inl a -> Q a) -> holds I S (on_world f) Q.
Proof.
  intros HI HQ t Ht. unfold on_world. specialize (HQ (world t)).
  destruct (f (world t)) as [w s]. simpl in *. split; [by apply HI|].
  destruct s; simpl; auto.
Qed.

End Holds.

(** ** Termination *)

(** A computation that does not run out of fuel. *)
Definition fueled {A} (r : res A) : Prop := r <> Stuck NoFuel.
Definition fueled_m {W A} (m : M W A) : Prop := forall t, fueled (snd (m t)).

Create HintDb fuel.

Lemma fueled_bind {A B} (r : res A) (k : A -> res B) :
  fueled r -> (forall a, fueled (k a)) -> fueled (res_bind r k).
Proof. unfold fueled. destruct r as [a|e|w]; simpl; intros H Hk; auto. intros [= ->]. by apply H. Qed.

Lemma fueled_m_bind {W A B} (m : M W A) (k : A -> M W B) :
  fueled_m m -> (forall a, fueled_m (k a)) -> fueled_m (bind m k).
Proof.
  intros Hm Hk t. unfold bind. specialize (Hm t). destruct (m t) as [t' [a|e|w]]; simpl in *.
  - apply Hk.
  - done.
  - intros [= ->]. by apply Hm.
Qed.

Lemma fueled_m_attempt {W A} (m : M W A) : fueled_m m -> fueled_m (attempt m).
Proof.
  intros Hm t. unfold attempt. specialize (Hm t). destruct (m t) as [t' [a|e|w]]; simpl in *; try done.
  intros [= ->]. by apply Hm.
Qed.

Lemma fueled_m_lift {W A} (r : res A) : fueled r -> fueled_m (W := W) (lift r).
Proof. intros H t. exact H. Qed.

Lemma fueled_m_world {W A} (f : W -> W * status A) : fueled_m (on_world f).
Proof. intros t. unfold on_world. destruct (f (world t)) as [w [a|e]]; done. Qed.

Ltac fueled :=
  repeat first
    [ progress intros
    | solve [auto with fuel]
    | match goal with
      | |- fueled (Ok _) => discriminate
      | |- fueled (Err _) => discriminate
      | |- fueled (Stuck _) => discriminate
      | |- fueled_m (ret _) => by intros ?
      | |- fueled_m (fail _) => by intros ?
      | |- fueled_m (get _) => by intros ?
      | |- fueled_m (on_world _) => apply fueled_m_world
      | |- fueled_m (lift _) => apply fueled_m_lift
      | |- fueled_m (attempt _) => apply fueled_m_attempt
      | |- fueled_m (bind _ _) => apply fueled_m_bind
      | |- fueled (res_bind _ _) => apply fueled_bind
      end
    | progress (cbv zeta)
    | case_match ].

(** The outcome of a call that the code tests. *)
Ltac fueled_stuck :=
  match goal with
  | H : ?r = Stuck _ |- fueled (Stuck _) =>
      let F := fresh in
      assert (F : fueled r) by auto with fuel; rewrite H in F; intros [= ->]; by apply F
  end.

Lemma join_loop_fueled l : forall r, fueled (join_loop r l).
Proof. induction l as [|[p|] l IH]; intros r; simpl; fueled. Qed.
Lemma join2_fueled a b : fueled (join2 a b).
Proof. apply join_loop_fueled. Qed.
Lemma pop_component_fueled p : fueled (pop_component p).
Proof. unfold pop_component. fueled. Qed.
Lemma next_component_fueled p : fueled (next_component p).
Proof. unfold next_component. fueled. Qed.
Lemma compare_paths2_fueled p n q m : fueled (compare_paths2 p n q m).
Proof. unfold compare_paths2. fueled. Qed.
Lemma compare_paths_fueled p q : fueled (compare_paths p q).
Proof. apply compare_paths2_fueled. Qed.
Lemma substitute_path_prefix_fueled p n q m : fueled (substitute_path_prefix p n q m).
Proof. unfold substitute_path_prefix. fueled. Qed.
#[export] Hint Resolve join2_fueled pop_component_fueled next_component_fueled compare_paths2_fueled
  compare_paths_fueled substitute_path_prefix_fueled : fuel.

Lemma get_root_fueled f : fueled (get_root f).
Proof. unfold get_root. fueled. Qed.
#[export] Hint Resolve get_root_fueled : fuel.
Lemma root_string_fueled f : fueled (root_string f).
Proof. unfold root_string. fueled. Qed.
#[export] Hint Resolve root_string_fueled : fuel.
Lemma belongs_to_guestfs_fueled f p : fueled (belongs_to_guestfs f p).
Proof. unfold belongs_to_guestfs. fueled. Qed.
#[export] Hint Resolve belongs_to_guestfs_fueled : fuel.
Lemma guard_skip_all_fueled f p : fueled (guard_skip_all f p).
Proof. unfold guard_skip_all. fueled. Qed.
#[export] Hint Resolve guard_skip_all_fueled : fuel.
Lemma get_binding_loop_fueled f side p l : fueled (get_binding_loop f side p l).
Proof. induction l; simpl; fueled. Qed.
#[export] Hint Resolve get_binding_loop_fueled : fuel.
Lemma get_binding_fueled f side p : fueled (get_binding f side p).
Proof. unfold get_binding, list_of. fueled. Qed.
#[export] Hint Resolve get_binding_fueled : fuel.
Lemma get_path_binding_fueled f side p : fueled (get_path_binding f side p).
Proof. unfold get_path_binding. fueled. Qed.
Lemma substitute_binding_fueled f side p : fueled (substitute_binding f side p).
Proof.
  unfold substitute_binding. fueled; fueled_stuck.
Qed.
#[export] Hint Resolve get_path_binding_fueled substitute_binding_fueled : fuel.
Lemma insort_loop_fueled side b l : forall p n, fueled (insort_loop side b l p n).
Proof. induction l; intros p n; simpl; fueled. Qed.
#[export] Hint Resolve insort_loop_fueled : fuel.
Lemma insort_binding_fueled f side b : fueled (insort_binding f side b).
Proof. unfold insort_binding, list_of. fueled. Qed.
#[export] Hint Resolve insort_binding_fueled : fuel.
Lemma insort_binding3_fueled f n h g : fueled (insort_binding3 f n h g).
Proof. unfold insort_binding3, insort_binding3_with_mode, insort_binding2. fueled. Qed.
#[export] Hint Resolve insort_binding3_fueled : fuel.

Lemma SUBSTITUTE_fueled s : fueled (SUBSTITUTE s).
Proof. unfold SUBSTITUTE. fueled. Qed.
#[export] Hint Resolve SUBSTITUTE_fueled : fuel.
Lemma readlink_proc_pid_fueled k c : fueled (readlink_proc_pid k c).
Proof. unfold readlink_proc_pid. fueled. Qed.
Lemma readlink_proc_fd_fueled b c : fueled (readlink_proc_fd b c).
Proof. unfold readlink_proc_fd, snprintf. fueled. Qed.
#[export] Hint Resolve readlink_proc_pid_fueled readlink_proc_fd_fueled : fuel.
Lemma readlink_proc_fueled t b c cmp : fueled (readlink_proc t b c cmp).
Proof. unfold readlink_proc, readlink_proc_base, normalize_self, snprintf. fueled. Qed.
#[export] Hint Resolve readlink_proc_fueled : fuel.

Lemma readlink_proc2_fueled t r : fueled (readlink_proc2 t r).
Proof. unfold readlink_proc2. fueled. fueled_stuck. Qed.
Lemma strip_root_fueled f s p : fueled (strip_root f s p).
Proof. unfold strip_root. fueled. Qed.
Lemma same_binding_fueled f p r : fueled (same_binding f p r).
Proof. unfold same_binding. fueled. Qed.
#[export] Hint Resolve readlink_proc2_fueled strip_root_fueled same_binding_fueled : fuel.
Lemma detranslate_with_fueled f s b p : fueled (detranslate_with f s b p).
Proof. unfold detranslate_with. fueled. fueled_stuck. Qed.
#[export] Hint Resolve detranslate_with_fueled : fuel.
Lemma detranslate_path_fueled t f p r : fueled (detranslate_path t f p r).
Proof. unfold detranslate_path. fueled. Qed.

Lemma normalize_loop_fueled fuel : forall cursor out,
  (length cursor < fuel)%nat -> fueled (normalize_loop fuel cursor out).
Proof.
  induction fuel as [|fuel IH]; intros cursor out Hlen; [lia|]. cbn [normalize_loop].
  destruct cursor as [|x cursor]; [done|].
  destruct (span is_slash (x :: cursor)) as [a c1] eqn:E1.
  destruct (span (fun c => negb (is_slash c)) c1) as [c rest] eqn:E2.
  apply span_length in E1. apply span_app in E2. subst c1. rewrite length_app in E1.
  case_bool_decide as Hc; [done|].
  assert (Hrest : (length rest < fuel)%nat) by (destruct c; simpl in *; [done|lia]).
  repeat case_bool; auto; discriminate.
Qed.

Lemma normalize_guest_path_fueled p : fueled (normalize_guest_path p).
Proof.
  unfold normalize_guest_path. case_bool; [done|]. apply fueled_bind; [|done].
  apply normalize_loop_fueled. lia.
Qed.
#[export] Hint Resolve detranslate_path_fueled normalize_guest_path_fueled : fuel.

Section Termination.

Context {W : Type} {K : Kernel W} {E : Extensions W}.

Lemma insort_binding3_m_fueled h g : fueled_m (insort_binding3_m (W := W) h g).
Proof.
  intros t. unfold insort_binding3_m. pose proof (insort_binding3_fueled (fs t) (next_addr t) h g) as H.
  destruct (insort_binding3 _ _ _ _) as [[b f]|e|w]; try done. intros [= ->]. by apply H.
Qed.
Hint Resolve insort_binding3_m_fueled : fuel.

Lemma build_glue_fueled g h f : fueled_m (build_glue g h f).
Proof. unfold build_glue, ensure_glue, create_glue_binding, set_glue. fueled; by intros ?. Qed.
Hint Resolve build_glue_fueled : fuel.

Lemma substitute_binding_stat_fueled f n g : fueled_m (substitute_binding_stat f n g).
Proof.
  unfold substitute_binding_stat, lstat_mode, should_skip_file_access_due_to_f2fs_bug. fueled.
Qed.

Lemma proc_action_fueled g c : fueled_m (W := W) (proc_action g c).
Proof. unfold proc_action, proc_base_of. fueled. Qed.

Lemma read_symlink_fueled h : fueled_m (read_symlink h).
Proof. unfold read_symlink. fueled. unfold of_status. by destruct (readlink _ _). Qed.

Lemma check_shadow_fueled u g : fueled_m (check_shadow u g).
Proof.
  unfold check_shadow. fueled; fueled_stuck.
Qed.
Hint Resolve substitute_binding_stat_fueled proc_action_fueled read_symlink_fueled
  check_shadow_fueled : fuel.

(** next_component() moves the cursor unless it was the last component. *)
Lemma next_component_progress p c cursor fin :
  next_component p = Ok (c, cursor, fin) -> IS_FINAL fin = true \/ (length cursor < length p)%nat.
Proof.
  unfold next_component.
  destruct (span is_slash p) as [a c1] eqn:E1. destruct (span _ c1) as [d c2] eqn:E2.
  destruct (NAME_MAX <=? zlen d); [done|]. destruct (span is_slash c2) as [b c3] eqn:E3.
  intros [= -> -> <-]. destruct cursor as [|x cursor]; [by case_bool; left|]. right.
  pose proof (span_app _ _ _ _ E3) as ->. pose proof (span_app _ _ _ _ E2) as ->.
  apply span_length in E1. rewrite !length_app in E1.
  destruct c as [|y c]; [|simpl in *; lia]. destruct b as [|z b]; [|simpl in *; lia].
  exfalso. apply span_snd in E2, E3. simpl in *. unfold not_slash in *. by rewrite E3 in E2.
Qed.

Abbreviation terminates m Q := (holds (fun _ => True) (fun w => w <> NoFuel) m Q).

Lemma fueled_holds {A} (m : M W A) : fueled_m m <-> terminates m (fun _ => True).
Proof.
  split.
  - intros H t _. split; [done|]. specialize (H t). destruct (snd (m t)); try done.
    intros ->. by apply H.
  - intros H t. destruct (H t Logic.I) as [_ Hr]. destruct (snd (m t)); try done.
    by intros [= ->].
Qed.

(** An iteration keeps the finality and counts the symlinks. *)
Definition step_progress (fin : Finality) (followed : Z) (r : step_result) : Prop :=
  match r with
  | Continue _ fin' followed' => IS_FINAL fin' = IS_FINAL fin /\ followed <= followed'
  | Return _ => True
  end.

Lemma walk_component_terminates (rec : cstr -> cstr -> Z -> M W cstr) deref level followed g c fin :
  (forall u g, fueled_m (rec u g (level + (followed + 1)))) ->
  terminates (walk_component rec deref level followed g c fin) (step_progress fin followed).
Proof.
  intros Hrec. unfold walk_component.
  assert (Hany : forall A (m : M W A), fueled_m m -> terminates m (fun _ => True))
    by (intros A m; apply fueled_holds).
  eapply holds_bind; [apply Hany; fueled|]. intros scratch _.
  eapply holds_bind; [apply Hany; fueled|]. intros [host is_link] _. case_bool.
  { eapply holds_bind; [apply Hany; fueled|]. intros g' _. by apply holds_ret. }
  eapply holds_bind; [apply Hany; fueled|]. intros [action result] _. case_bool; [by apply holds_ret|].
  eapply holds_bind; [apply Hany; fueled|]. intros s _.
  eapply holds_bind; [apply Hany; fueled|]. intros g' _.
  eapply holds_bind; [apply Hany; fueled|]. intros [_ is_link'] _.
  case_bool; [by apply holds_lift|]. apply holds_ret. simpl. split; [done|lia].
Qed.

Lemma walk_step_terminates (rec : cstr -> cstr -> Z -> M W cstr) deref level followed g c fin :
  (forall u g, fueled_m (rec u g (level + (followed + 1)))) ->
  terminates (walk_step rec deref level followed g c fin) (step_progress fin followed).
Proof.
  intros Hrec. unfold walk_step. case_bool; [apply holds_ret; simpl; by destruct fin|].
  case_bool; [|by apply walk_component_terminates].
  eapply holds_bind; [apply fueled_holds; fueled|]. intros g' _.
  apply holds_ret. simpl. by destruct fin.
Qed.

Lemma walk_terminates (rec : cstr -> cstr -> Z -> M W cstr) deref level fuel :
  (forall u g n, level < n -> fueled_m (rec u g n)) ->
  forall followed guest cursor, 0 <= followed -> (length cursor < fuel)%nat ->
  fueled_m (walk rec fuel deref level followed guest cursor).
Proof.
  intros Hrec. induction fuel as [|fuel IH]; intros followed guest cursor Hf Hlen; [lia|].
  apply fueled_holds. cbn [walk].
  apply (holds_bind _ _ _ _ (fun '(c, rest, fin) => IS_FINAL fin = true \/ (length rest < fuel)%nat)).
  { apply holds_lift. pose proof (next_component_fueled cursor) as Hn.
    destruct (next_component cursor) as [[[c rest] fin]|e|w] eqn:En; [|done|by intros ->].
    apply next_component_progress in En. destruct En; [by left | right; lia]. }
  intros [[c rest] fin] Hp. eapply holds_bind.
  { apply walk_step_terminates. intros u g. apply Hrec. lia. }
  intros [g' fin' followed'|g'] Hs; [|by apply holds_ret]. destruct Hs as [Hfin Hfo].
  case_bool; [by apply holds_ret|]. apply fueled_holds, IH; [lia|].
  rewrite <- Hfin in Hp. by destruct Hp.
Qed.

Lemma canonicalize_fueled levels : forall user_path deref guest_path level,
  0 <= level -> 5 <= Z.of_nat levels + level -> (0 < levels)%nat ->
  fueled_m (canonicalize levels user_path deref guest_path level).
Proof.
  induction levels as [|levels IH]; intros u deref g level Hl Hlv H0; [lia|].
  cbn [canonicalize]. case_bool; [by intros ?|]. bool_facts. case_bool; [by intros ?|].
  apply fueled_m_bind; [fueled|]. intros _. case_bool; [by intros ?|]. cbv zeta.
  apply fueled_m_bind.
  - apply walk_terminates; [|lia|lia]. intros u' g' n Hn. apply IH; lia.
  - intros [g' [fin|]]; [|by intros ?]. apply fueled_m_lift. unfold restore_finality. fueled.
Qed.

End Termination.

(** ** The result of a canonicalization *)

(** A path to canonicalize: a string that names something. *)
Definition spellable (u : cstr) : Prop := nul_free u /\ (absolute u = true \/ components u <> []).

Lemma nice_spellable s : nice s -> spellable s.
Proof.
  intros (Hne & Hn & _). split; [done|]. destruct s as [|x s]; [done|].
  destruct (is_slash x) eqn:E; [by left | right]. by apply components_nonempty.
Qed.

(** A canonical guest path that fits. *)
Definition guest_ok (p : cstr) : Prop :=
  exists cs, Forall comp_ok cs /\ p = render cs /\ zlen p < PATH_MAX.

(** A host path made of names that fits. *)
Definition host_ok (p : cstr) : Prop :=
  exists cs, Forall name_ok cs /\ p = render cs /\ zlen p < PATH_MAX.

Lemma guest_host_ok p : guest_ok p -> host_ok p.
Proof. intros (cs & H & E & L). exists cs. split; [by apply comp_ok_name | done]. Qed.

Lemma next_component_suffix p c rest fin :
  next_component p = Ok (c, rest, fin) -> exists s, p = s ++ rest.
Proof.
  unfold next_component.
  destruct (span is_slash p) as [a c1] eqn:E1. destruct (span _ c1) as [d c2] eqn:E2.
  destruct (NAME_MAX <=? zlen d); [done|]. destruct (span is_slash c2) as [b c3] eqn:E3.
  intros [= -> -> <-]. apply span_app in E1, E2, E3. subst. exists (a ++ c ++ b).
  by rewrite <- !app_assoc.
Qed.

(** A canonical path with the ending that canonicalize() gives back to the
    paths of the first level. *)
Definition with_finality (cs : list cstr) (fin : Finality) : cstr :=
  match fin with
  | FINAL_SLASH => joined cs ++ [SLASH]
  | FINAL_DOT => joined cs ++ bs "/."
  | _ => render cs
  end.

Definition result_ok (p : cstr) : Prop :=
  exists cs fin, Forall comp_ok cs /\ p = with_finality cs fin /\ zlen p < PATH_MAX.

Lemma join2_slash cs :
  Forall plain cs ->
  outcome (fun p => p = with_finality cs FINAL_SLASH /\ zlen p < PATH_MAX) (join2 (render cs) []).
Proof.
  intros Hcs. unfold join2. rewrite join_paths_first. case_bool; [done|]. cbn [join_loop].
  rewrite zlen_pos_neq, bool_decide_eq_true_2 by (by destruct cs). cbn [andb absolute negb].
  destruct cs as [|c cs]; [done|]. rewrite render_joined, joined_last by done. simpl.
  rewrite zlen_nil. case_bool; [done|]. bool_facts. split; [done|].
  change (zlen (joined (c :: cs) ++ [SLASH]) < PATH_MAX). rewrite zlen_app. change (zlen [SLASH]) with 1. lia.
Qed.

Lemma dot_plain : plain (bs ".").
Proof. split; [done|]. by repeat constructor. Qed.

Lemma join2_dot cs :
  Forall plain cs ->
  outcome (fun p => p = with_finality cs FINAL_DOT /\ zlen p < PATH_MAX) (join2 (render cs) (bs ".")).
Proof.
  intros Hcs. rewrite join2_render by auto using dot_plain. case_bool; [done|]. bool_facts.
  rewrite render_snoc in *. split; [done|]. lia.
Qed.

Lemma normalize_loop_stuck fuel : forall cursor out,
  normalize_loop fuel cursor out <> Stuck OutOfBounds.
Proof.
  induction fuel as [|fuel IH]; intros cursor out; [done|]. cbn [normalize_loop].
  destruct cursor as [|x cursor]; [done|].
  destruct (span is_slash (x :: cursor)) as [a c1].
  destruct (span (fun c => negb (is_slash c)) c1) as [c rest].
  repeat case_bool; auto; discriminate.
Qed.

Lemma join_loop_stuck l : forall r w, join_loop r l <> Stuck w.
Proof.
  induction l as [|[p|] l IH]; intros r w; simpl; [done | | apply IH].
  repeat case_bool; auto; discriminate.
Qed.

Section Result.

Context {W : Type} {K : Kernel W} {E : Extensions W} {L : KernelLaws W K}.
Context (f : FileSystemNameSpace) (root : list cstr) (l k : list Binding) (v : ProcView).
Hypothesis Hroot : rooted f root.
Hypothesis Hwf : fs_wf f.
Hypothesis Hsz : fs_sized f.
Hypothesis Hl : bindings_guest f = Some l.
Hypothesis Hk : bindings_host f = Some k.
Hypothesis Hv : view_ok v.

(** Outside of the initialization of a binding, the name-space does not change. *)
Definition stable (t : Tracee W) : Prop := fs t = f /\ view t = v /\ glue_type t = 0.

Abbreviation ok m Q := (holds stable (fun w => w <> OutOfBounds) m Q).

Lemma lift_outcome {A} (r : res A) (Q : A -> Prop) : outcome Q r -> ok (lift r) Q.
Proof. intros H. apply holds_lift. destruct r; [done..|]. by rewrite H. Qed.

Lemma on_world_ok {A} (g : W -> W * status A) : ok (on_world g) (fun _ => True).
Proof. by apply holds_world. Qed.

Lemma get_fs_ok : ok (get fs) (fun x => x = f).
Proof. apply holds_get. by intros t []. Qed.
Lemma get_glue_type_ok : ok (get glue_type) (fun x => x = 0).
Proof. apply holds_get. by intros t (_ & _ & ?). Qed.
Lemma get_view_ok : ok (get view) (fun x => x = v).
Proof. apply holds_get. by intros t (_ & ? & _). Qed.
Lemma get_world_ok : ok (get world) (fun _ => True).
Proof. by apply holds_get. Qed.

(** Bindings never lead out of proper paths. *)
Lemma substitute_guest_ok p :
  host_ok p -> outcome (fun '(_, h) => host_ok h) (substitute_binding f GUEST p).
Proof.
  intros (cs & Hcs & -> & Hlen).
  destruct (get_binding_guest f l cs) as [(b & Hg & Hd)|[Hg _]]; auto; [by destruct Hwf| |].
  - destruct Hd as (Hin & Hpre & _). destruct Hwf as [_ Hw].
    specialize (Hw GUEST l ltac:(done) Hl). specialize (Hsz GUEST l Hl). rewrite Forall_forall in *.
    destruct (substitute_binding_total f GUEST b cs) as (q & -> & Hq & Hlq & _); auto.
    simpl. by exists q.
  - unfold substitute_binding. by rewrite Hg.
Qed.

Lemma lstat_mode_ok h : ok (lstat_mode h) (fun _ => True).
Proof.
  unfold lstat_mode, should_skip_file_access_due_to_f2fs_bug.
  eapply (holds_bind _ _ _ _ (fun _ => True)).
  - case_bool; [by apply holds_ret|]. case_bool; [by apply holds_lift|].
    eapply holds_bind; [apply get_world_ok|]. intros w _. by destruct (listdir w _); apply holds_ret.
  - intros [] _; [by apply holds_ret|]. eapply holds_bind; [apply get_world_ok|]. intros w _.
    destruct (lstat w h); [by apply holds_ret|]. case_bool; by apply holds_ret.
Qed.

Lemma substitute_binding_stat_ok fin level p :
  host_ok p -> ok (substitute_binding_stat fin level p) (fun '(h, _) => host_ok h).
Proof.
  intros Hp. unfold substitute_binding_stat.
  eapply holds_bind; [apply get_fs_ok|]. intros ? ->.
  eapply holds_bind; [apply lift_outcome, substitute_guest_ok, Hp|]. intros [st h] Hh.
  eapply holds_bind; [apply on_world_ok|]. intros _ _.
  eapply holds_bind; [apply get_glue_type_ok|]. intros ? ->. cbn [Z.eqb negb].
  eapply holds_bind; [apply on_world_ok|]. intros _ _.
  eapply holds_bind; [apply lstat_mode_ok|]. intros [found mode] _.
  rewrite andb_false_r. eapply (holds_bind _ _ _ _ (fun _ => True)); [by apply holds_ret|].
  intros [found' mode'] _. case_bool; [apply holds_fail | by apply holds_ret].
Qed.

(** What the walk does with a component: it is pushed, or the path is "/". *)
Definition pushable (g : list cstr) (c : cstr) : Prop := comp_ok c \/ (c = [] /\ g = []).

Lemma join_component g c :
  Forall comp_ok g -> pushable g c -> outcome guest_ok (join2 (render g) c).
Proof.
  intros Hg [Hc | [-> ->]].
  - rewrite join2_render; [|by apply comp_ok_plain | by destruct Hc as [[]]].
    case_bool; [done|]. bool_facts. exists (g ++ [c]). rewrite Forall_app. repeat split; auto. lia.
  - by exists [].
Qed.

Lemma proc_base_of_ok p :
  guest_ok p ->
  ok (proc_base_of p) (fun '(cmp, b) => exists bs', Forall name_ok bs' /\ b = render bs'
                        /\ (cmp = PATHS_ARE_EQUAL \/ cmp = PATH1_IS_PREFIX ->
                            cmp = compare_components [bs "proc"] bs')).
Proof.
  intros Hp. pose proof (guest_host_ok p Hp) as Hh. destruct Hp as (g & Hg & -> & Hlen).
  unfold proc_base_of. eapply (holds_bind _ _ _ _ (fun c => c = compare_components [bs "proc"] g)).
  { apply lift_outcome. rewrite compare_proc by by apply comp_ok_name. done. }
  intros cmp ->. case_bool; [|apply holds_ret; exists g; auto using comp_ok_name].
  eapply holds_bind; [apply get_fs_ok|]. intros ? ->.
  eapply (holds_bind _ _ _ _ (fun s => match s with inl (_, h) => host_ok h | inr _ => True end)).
  { apply holds_attempt; [|done]. by apply lift_outcome, substitute_guest_ok. }
  intros s Hs. set (alias := match s with inl (_, p) => p | inr _ => render g end).
  assert (Ha : host_ok alias) by (destruct s as [[? ?]|]; done).
  case_bool; [apply holds_ret; exists g; auto using comp_ok_name|].
  destruct Ha as (bs' & Hbs & -> & _).
  eapply (holds_bind _ _ _ _ (fun c => c = compare_components [bs "proc"] bs')).
  { apply lift_outcome. by rewrite compare_proc. }
  intros ? ->. apply holds_ret. by exists bs'.
Qed.

Definition action_result_ok (r : Action * cstr) : Prop :=
  match r with
  | (CANONICALIZE, s) => nice s
  | (DONT_CANONICALIZE, s) => guest_ok s
  | (DEFAULT, _) => True
  end.

Lemma readlink_proc_self_ok c :
  outcome action_result_ok (readlink_proc v (bs "/proc") c PATHS_ARE_EQUAL).
Proof.
  unfold readlink_proc. case_bool; [done|]. unfold snprintf. case_bool; [done|]. bool_facts.
  cbn [res_bind outcome action_result_ok].
  replace (bs "/proc/" ++ itoa (pid v)) with (proc_path [itoa (pid v)]) in *
    by (rewrite proc_path_cons; simpl; by rewrite app_nil_r).
  apply nice_render; [|done]. constructor; [apply proc_name_ok|].
  constructor; [apply itoa_comp_ok | done].
Qed.

Lemma proc_action_ok g c :
  guest_ok (render g) -> pushable g c -> ok (proc_action (render g) c) action_result_ok.
Proof.
  intros Hg Hc. unfold proc_action. eapply holds_bind; [by apply proc_base_of_ok|].
  intros [cmp b] (bs' & Hbs & -> & Hcmp).
  assert (Hrp : cmp = PATHS_ARE_EQUAL \/ cmp = PATH1_IS_PREFIX ->
    ok (do! v' := get view in lift (readlink_proc v' (render bs') c cmp)) action_result_ok).
  { intros Heq. pose proof (Hcmp Heq) as E1.
    destruct (compare_proc_prefix bs' cmp (eq_sym E1) Heq) as (rest & -> & Hrest).
    eapply holds_bind; [apply get_view_ok|]. intros ? ->. apply lift_outcome.
    destruct Heq as [-> | ->]; [rewrite (proj1 Hrest eq_refl); apply readlink_proc_self_ok|].
    destruct rest as [|x rest]; [by discriminate (proj2 Hrest eq_refl)|].
    inversion Hbs as [|? ? _ Hx]; subst. inversion Hx as [|? ? Hx' Hr]; subst.
    destruct (readlink_proc_ok v x rest c) as (x' & H); [done..|].
    change (render (bs "proc" :: x :: rest)) with (proc_path (x :: rest)).
    destruct (readlink_proc v (proc_path (x :: rest)) c _) as [[[] s]| |]; simpl in *; try done.
    destruct H as (_ & -> & Hlen & (n & ->) & Hne).
    eexists. split; [|by split]. destruct Hc as [Hc | [-> _]]; [|done].
    repeat (apply Forall_cons; split); auto using itoa_comp_ok; decide_witness. }
  destruct cmp; [by apply Hrp; left | by apply Hrp; right | by apply holds_ret | by apply holds_ret].
Qed.

Lemma read_symlink_ok h : host_ok h -> ok (read_symlink h) nice.
Proof.
  intros (hs & Hhs & -> & Hlen). unfold read_symlink. eapply holds_bind; [apply get_world_ok|]. intros w _.
  eapply (holds_bind _ _ _ _ (fun s => s <> [] /\ nul_free s /\ zlen s <= PATH_MAX)).
  { apply holds_lift. pose proof (readlink_content w (render hs)) as H.
    destruct (readlink w (render hs)) as [s|e]; simpl; [by apply H | done]. }
  intros s (Hne & Hn & Hsl). case_bool; [apply holds_fail|]. bool_facts.
  eapply holds_bind; [apply get_glue_type_ok|]. intros ? ->. cbn [Z.eqb].
  eapply holds_bind; [apply on_world_ok|]. intros _ _.
  eapply holds_bind; [apply get_fs_ok|]. intros ? ->.
  eapply holds_bind; [apply get_view_ok|]. intros ? ->.
  eapply holds_bind.
  { apply lift_outcome. eapply (detranslate_path_outcome v f root k); eauto.
    - repeat split; auto. lia.
    - intros r [= <-]. eauto. }
  intros [n q] Hq. by apply holds_ret.
Qed.

Definition step_ok (fin : Finality) (followed : Z) (r : step_result) : Prop :=
  step_progress fin followed r /\
  match r with Continue g _ _ => guest_ok g | Return g => guest_ok g end.

Definition rec_ok (level : Z) (rec : cstr -> cstr -> Z -> M W cstr) : Prop :=
  forall u g n, spellable u -> guest_ok g -> level < n -> ok (rec u g n) guest_ok.

Lemma walk_component_ok rec deref level followed g c fin :
  rec_ok level rec -> 0 <= followed -> guest_ok (render g) -> Forall comp_ok g -> pushable g c ->
  ok (walk_component rec deref level followed (render g) c fin) (step_ok fin followed).
Proof.
  intros Hrec Hf Hgo Hg Hc. unfold walk_component.
  pose proof (join_component g c Hg Hc) as Hj.
  eapply holds_bind; [by apply lift_outcome|]. intros p Hp.
  eapply holds_bind; [by apply substitute_binding_stat_ok, guest_host_ok|]. intros [h is_link] Hh.
  case_bool.
  { eapply holds_bind; [by apply lift_outcome|]. intros p' Hp'. by apply holds_ret. }
  eapply holds_bind; [by apply proc_action_ok|]. intros [a r] Hr. case_bool.
  { apply andb_true_iff in Hb0 as [Ha _]. apply bool_decide_eq_true in Ha as ->.
    by apply holds_ret. }
  eapply (holds_bind _ _ _ _ nice).
  { case_bool; [|by apply read_symlink_ok]. apply bool_decide_eq_true in Hb1 as ->.
    by apply holds_ret. }
  intros s Hs. eapply holds_bind.
  { apply Hrec; [by apply nice_spellable | done | lia]. }
  intros g' Hg'. eapply holds_bind; [by apply substitute_binding_stat_ok, guest_host_ok|].
  intros [_ is_link'] _. case_bool; [by apply holds_lift|].
  apply holds_ret. split; [|done]. simpl. split; [done | lia].
Qed.

Lemma walk_step_ok rec deref level followed g c fin :
  rec_ok level rec -> 0 <= followed -> guest_ok g -> nul_free c ->
  name_ok c \/ (c = [] /\ g = [SLASH]) ->
  ok (walk_step rec deref level followed g c fin) (step_ok fin followed).
Proof.
  intros Hrec Hf Hg Hcn Hc. unfold walk_step. case_bool; [apply holds_ret; split; [by destruct fin | done]|]. bool_facts.
  pose proof Hg as (cs & Hcs & -> & Hlen). case_bool.
  - eapply (holds_bind _ _ _ _ guest_ok); [|intros g' Hg'; apply holds_ret; split; [by destruct fin | done]].
    apply lift_outcome. destruct cs as [|x cs _] using rev_ind; [done|].
    apply Forall_app in Hcs as [Hcs Hx]. inversion Hx as [|? ? Hxc]; subst.
    rewrite pop_render by (by apply comp_ok_plain || apply Hxc).
    exists cs. split; [done|]. split; [done|].
    pose proof (zlen_joined_snoc cs x) as Hz. rewrite render_joined in Hlen by by destruct cs.
    pose proof (zlen_nonneg x). destruct cs; [done|]. rewrite render_joined by done. lia.
  - bool_facts. apply walk_component_ok; auto. destruct Hc as [Hc | [-> Hc]]; [by left | right].
    split; [done|]. apply (f_equal components) in Hc.
    by rewrite components_render in Hc by by apply comp_ok_plain.
Qed.

Lemma walk_ok rec deref level fuel :
  rec_ok level rec -> forall followed g cursor,
  0 <= followed -> guest_ok g -> nul_free cursor -> components cursor <> [] \/ g = [SLASH] ->
  ok (walk rec fuel deref level followed g cursor) (fun '(g, _) => guest_ok g).
Proof.
  intros Hrec. induction fuel as [|fuel IH]; intros followed g cursor Hf Hg Hn Hc;
    [by apply holds_lift|]. cbn [walk].
  apply (holds_bind _ _ _ _ (fun '(c, rest, fin) => nul_free rest /\ nul_free c
    /\ (name_ok c \/ (c = [] /\ g = [SLASH])) /\ (IS_FINAL fin = false -> components rest <> []))).
  { apply holds_lift. pose proof (next_component_spec cursor) as Hs.
    pose proof (components_name cursor Hn) as Hnames.
    destruct (components cursor) as [|c cs] eqn:Ec.
    { rewrite Hs. split; [by apply Forall_nil|]. split; [by apply Forall_nil|].
      split; [right; split; [done|] | done]. by destruct Hc. }
    destruct (short c); [|by rewrite Hs]. destruct Hs as (rest & fin & E1 & E2 & E3 & _).
    rewrite E1. inversion Hnames as [|? ? Hcn _]; subst. split; [|split; [apply (proj2 Hcn)|]].
    - destruct (next_component_suffix _ _ _ _ E1) as [s ->]. by apply nul_free_app in Hn as [_ ?].
    - split; [by left|]. rewrite E3. intros Hd. by apply bool_decide_eq_false in Hd. }
  intros [[c rest] fin] (Hnr & Hnc & Hname & Hrest).
  eapply holds_bind; [by apply walk_step_ok|]. intros [g' fin' followed'|g'] [Hp Hs]; [|by apply holds_ret].
  destruct Hp as [Hfin Hfo]. case_bool; [by apply holds_ret|].
  apply IH; [lia | done | done | left]. apply Hrest. congruence.
Qed.

Lemma check_shadow_ok u g : ok (check_shadow u g) (fun _ => True).
Proof.
  unfold check_shadow.
  assert (Hns : forall p w, normalize_guest_path p = Stuck w -> w <> OutOfBounds).
  { intros p w. pose proof (normalize_loop_stuck (S (length p)) p [SLASH]) as H.
    unfold normalize_guest_path. case_bool; [done|].
    destruct (normalize_loop _ _ _); simpl; [done..|]. intros [= <-]. congruence. }
  destruct (if absolute u then _ else _) as [p|e|w] eqn:Ej; [|apply holds_fail|].
  - destruct (normalize_guest_path p) as [q|e|w] eqn:En;
      [|apply holds_fail | by apply holds_lift, (Hns p)].
    eapply (holds_bind _ _ _ _ (fun _ => True)); [by apply holds_attempt; [apply on_world_ok|]|].
    intros [] _; [by apply holds_ret | apply holds_fail].
  - destruct (absolute u); [done|]. by apply join_loop_stuck in Ej.
Qed.

Lemma restore_finality_ok level g fin :
  guest_ok g -> outcome result_ok (restore_finality level g fin).
Proof.
  intros (cs & Hcs & -> & Hlen). pose proof (comp_ok_plain cs Hcs) as Hp.
  unfold restore_finality. case_bool; [|by exists cs, FINAL_NORMAL].
  destruct fin; [done | by exists cs, FINAL_NORMAL | |].
  - eapply outcome_impl; [by apply join2_slash|]. intros p [-> Hl']. by exists cs, FINAL_SLASH.
  - eapply outcome_impl; [by apply join2_dot|]. intros p [-> Hl']. by exists cs, FINAL_DOT.
Qed.

Lemma restore_finality_deep level g fin :
  level <> 0 -> guest_ok g -> outcome guest_ok (restore_finality level g fin).
Proof. intros Hl0 Hg. unfold restore_finality. by rewrite (proj2 (Z.eqb_neq _ _)). Qed.

(** canonicalize() after its first checks. *)
Lemma canonicalize_walk levels u deref g level (Q : cstr -> Prop) :
  rec_ok level (fun u g n => canonicalize levels u true g n) -> spellable u -> guest_ok g ->
  (forall p fin, guest_ok p -> outcome Q (restore_finality level p fin)) ->
  (forall p, guest_ok p -> Q p) ->
  ok (canonicalize (S levels) u deref g level) Q.
Proof.
  intros Hrec [Hun Hu] Hg HQ1 HQ2. cbn [canonicalize].
  case_bool; [apply holds_fail|]. case_bool; [apply holds_fail|].
  eapply holds_bind; [apply check_shadow_ok|]. intros _ _.
  case_bool; [apply holds_fail|]. cbv zeta.
  eapply holds_bind.
  { apply walk_ok; [exact Hrec | done | | done |].
    - destruct (absolute u); [|done]. by exists [].
    - destruct (absolute u); [by right | left]. by destruct Hu. }
  intros [p [fin|]] Hp; [|apply holds_ret; auto]. apply lift_outcome. auto.
Qed.

Lemma canonicalize_rec_ok levels : forall level, 0 <= level ->
  rec_ok level (fun u g n => canonicalize levels u true g n).
Proof.
  induction levels as [|levels IH]; intros level Hl0 u g n Hu Hg Hn; [by apply holds_lift|].
  apply canonicalize_walk; auto; [apply IH; lia|].
  intros p fin Hp. apply restore_finality_deep; [lia | done].
Qed.

Lemma canonicalize_ok levels u deref g level :
  0 <= level -> spellable u -> guest_ok g ->
  ok (canonicalize levels u deref g level) result_ok.
Proof.
  intros Hl0 Hu Hg. destruct levels as [|levels]; [by apply holds_lift|].
  apply canonicalize_walk; auto using canonicalize_rec_ok.
  - intros p fin Hp. by apply restore_finality_ok.
  - intros p (cs & Hcs & -> & Hlen). by exists cs, FINAL_NORMAL.
Qed.

End Result.

(** ** Properties *)

(** What the translation of a path relies on: bindings that are initialised and
    well formed, and no binding being initialised. *)
Definition tracee_ok {W} (t : Tracee W) : Prop :=
  (exists root, rooted (fs t) root) /\ fs_wf (fs t) /\ fs_sized (fs t)
  /\ (exists k, bindings_host (fs t) = Some k) /\ view_ok (view t) /\ glue_type t = 0.

(** C19: canonicalize() terminates, whatever the file-system, the symlinks and
    the extensions do: five levels of recursion and one iteration per byte of
    the path are always enough. *)
Theorem canonicalize_terminates {W} (K : Kernel W) (E : Extensions W)
    (t : Tracee W) user_path deref_final guest_path :
  snd (canonicalize 5 user_path deref_final guest_path 0 t) <> Stuck NoFuel.
Proof. apply canonicalize_fueled; lia. Qed.

(** C18: canonicalize() gives a canonical path: whatever the symlinks contain,
    the result is an absolute path without "." nor ".." (but for the ending of
    the requested path), which fits in its buffer; no access is out of bounds,
    and the name-space is left as it is. *)
Theorem canonicalize_canonical {W} (K : Kernel W) (E : Extensions W) (L : KernelLaws W K)
    (t : Tracee W) levels user_path deref_final guest_path level :
  tracee_ok t -> spellable user_path -> guest_ok guest_path -> 0 <= level ->
  let '(t', r) := canonicalize levels user_path deref_final guest_path level t in
  fs t' = fs t /\ view t' = view t /\ glue_type t' = 0 /\
  match r with Ok p => result_ok p | Err _ => True | Stuck w => w <> OutOfBounds end.
Proof.
  intros ((root & Hr) & Hwf & Hsz & (k & Hk) & Hv & Hg0) Hu Hg Hl.
  pose proof Hr as (l & _ & Hlist & _).
  pose proof (canonicalize_ok (fs t) root l k (view t) Hr Hwf Hsz Hlist Hk Hv levels user_path
                deref_final guest_path level Hl Hu Hg t) as H.
  destruct (canonicalize _ _ _ _ _ t) as [t' r]. simpl in H.
  destruct H as [(H1 & H2 & H3) Hres]; [by repeat split|]. auto.
Qed.

(** A file-system of directories and of the given symlinks. *)
#[local] Instance demo_kernel (links : list (cstr * cstr)) : Kernel unit := {
  lstat _ p := inl (if existsb (fun '(q, _) => str_eqb p q) links then S_IFLNK else S_IFDIR);
  readlink _ p := match find (fun '(q, _) => str_eqb p q) links with
                  | Some (_, s) => inl s | None => inr EINVAL end;
  listdir _ _ := None;
  mkdir w _ _ := (w, inr EROFS);
  mknod w _ _ := (w, inr EROFS);
  create_temp_directory w := (w, None);
  set_placeholder_destructor w _ := w;
  PROOT_DONT_POLLUTE_ROOTFS := false;
  f2fs_bug_detected := false
}.

#[local] Instance quiet_extensions : Extensions unit := {
  net_policy_shadow_access w _ := (w, inl ());
  notify_HOST_PATH w _ _ := (w, inl ());
  notify_SYMLINK_DEREFERENCED w _ _ := (w, inl ())
}.

Definition demo_tracee : Tracee unit := mkTracee demo_fs None 0 10 demo_view ().

(** [root]/link is a symlink that tries to climb out of the rootfs. *)
Definition demo_links : list (cstr * cstr) :=
  [(bs "/data/root/link", bs "../../../../etc/../sdcard//x/.")].

Definition link_content_ok (s : cstr) : Prop := s <> [] /\ nul_free s /\ zlen s <= PATH_MAX.

Lemma demo_laws links : Forall (fun x => link_content_ok (snd x)) links -> KernelLaws unit (demo_kernel links).
Proof.
  intros H. split. intros w p s. simpl. destruct (find _ links) as [[q s']|] eqn:E; [|done].
  intros [= <-]. apply find_some in E as [Hin _]. rewrite List.Forall_forall in H. by apply H in Hin.
Qed.

Lemma demo_tracee_ok : tracee_ok demo_tracee.
Proof.
  split; [|split; [|split; [|split; [|split]]]].
  - exists (names ["data"; "root"]%string), [demo_tmp; demo_sd; demo_root], demo_root.
    repeat (split; [done|]). decide_witness.
  - by apply fs_wfb_sound; vm_compute.
  - intros [] l; simpl; intros [= <-]; repeat constructor; by vm_compute.
  - by eexists.
  - intros n kn. simpl. case_bool; [|done]. intros [= <-]. split; [by exists (bs "/bin/sh"); repeat constructor|].
    split; [done|]. split; [by repeat constructor|].
    exists (names ["data"; "root"]%string), [demo_tmp; demo_sd; demo_root], demo_root.
    repeat (split; [done|]). decide_witness.
  - done.
Qed.

Lemma canonicalize_canonical_witness :
  snd (canonicalize (K := demo_kernel demo_links) 5 (bs "/a/../link/y/") true (bs "/") 0 demo_tracee)
    = Ok (bs "/sdcard/x/y/") /\ result_ok (bs "/sdcard/x/y/").
Proof.
  pose proof (canonicalize_canonical (demo_kernel demo_links) quiet_extensions
    (demo_laws demo_links ltac:(by repeat constructor)) demo_tracee 5 (bs "/a/../link/y/") true (bs "/") 0
    demo_tracee_ok) as H.
  assert (E : canonicalize (K := demo_kernel demo_links) 5 (bs "/a/../link/y/") true (bs "/") 0 demo_tracee
              = (demo_tracee, Ok (bs "/sdcard/x/y/"))) by by vm_compute.
  rewrite E in *. split; [done|]. apply H; [| |done].
  - split; [by repeat constructor | by left].
  - exists []. split; [done|]. split; by vm_compute.
Defined.

(** At most three symlinks are followed in one path: the level of recursion
    counts the symlinks of the path and not only the nested ones, and 4 is
    refused with ELOOP, where the kernel accepts 40. *)
Theorem canonicalize_four_links :
  let K := demo_kernel [(bs "/data/root/l", bs ".")] in
  snd (canonicalize (K := K) 5 (bs "/l/l/l/x") true (bs "/") 0 demo_tracee) = Ok (bs "/x")
  /\ snd (canonicalize (K := K) 5 (bs "/l/l/l/l/x") true (bs "/") 0 demo_tracee) = Err ELOOP.
Proof. split; by vm_compute. Qed.
