(* ===== verification/Lookup.v ===== *)
(** * Canonicalization where there is no symlink (src/path/canon.c)

    On a tree of directories, canonicalize() always succeeds and is the lexical
    resolution of "." and "..", with the ending of the path put back. *)

From S2P Require Import Prelude Paths Binding ProcLinks Canon.

(** ** Total correctness in the monad *)

Section Yields.

Context {W : Type} (I : Tracee W -> Prop).

Definition yields {A} (m : M W A) (Q : A -> Prop) : Prop :=
  forall t, I t -> exists t' a, m t = (t', Ok a) /\ I t' /\ Q a.

Lemma yields_ret {A} (a : A) (Q : A -> Prop) : Q a -> yields (ret a) Q.
Proof. intros H t Ht. by exists t, a. Qed.

Lemma yields_lift {A} (r : res A) a (Q : A -> Prop) : r = Ok a -> Q a -> yields (lift r) Q.
Proof. intros -> H t Ht. by exists t, a. Qed.

Lemma yields_get {A} (g : Tracee W -> A) (Q : A -> Prop) :
  (forall t, I t -> Q (g t)) -> yields (get g) Q.
Proof. intros H t Ht. exists t, (g t). auto. Qed.

Lemma yields_bind {A B} (m : M W A) (k : A -> M W B) (P : A -> Prop) (Q : B -> Prop) :
  yields m P -> (forall a, P a -> yields (k a) Q) -> yields (bind m k) Q.
Proof.
  intros Hm Hk t Ht. destruct (Hm t Ht) as (t' & a & E & Ht' & Ha). unfold bind. rewrite E.
  by apply Hk.
Qed.

Lemma yields_attempt {A} (m : M W A) (P : A -> Prop) :
  yields m P -> yields (attempt m) (fun s => match s with inl a => P a | inr _ => False end).
Proof.
  intros Hm t Ht. destruct (Hm t Ht) as (t' & a & E & Ht' & Ha). unfold attempt. rewrite E.
  by exists t', (inl a).
Qed.

End Yields.

(** ** The ending of a path *)

Definition ends_slash (p : cstr) : bool :=
  match last p with Some b => is_slash b | None => false end.

(** The finality canonicalize() ends with, in terms of the path. *)
Definition finality_of (p : cstr) : Finality :=
  match last (components p) with
  | None => FINAL_NORMAL
  | Some c => if str_eqb c (bs ".") then FINAL_DOT
              else if str_eqb c (bs "..") then FINAL_SLASH
              else if ends_slash p then FINAL_SLASH else FINAL_NORMAL
  end.

Lemma ends_slash_app s p : p <> [] -> ends_slash (s ++ p) = ends_slash p.
Proof.
  intros Hp. unfold ends_slash. destruct p as [|x p _] using rev_ind; [done|].
  by rewrite app_assoc, !last_snoc.
Qed.

Lemma next_component_final p c rest fin :
  next_component p = Ok (c, rest, fin) -> c <> [] -> IS_FINAL fin = true ->
  fin = if ends_slash p then FINAL_SLASH else FINAL_NORMAL.
Proof.
  unfold next_component. destruct (span is_slash p) as [a c1] eqn:E1.
  destruct (span _ c1) as [d c2] eqn:E2. destruct (NAME_MAX <=? zlen d); [done|].
  destruct (span is_slash c2) as [b c3] eqn:E3. intros [= <- <- <-] Hd Hf.
  destruct c3; [|done]. pose proof (span_fst _ _ _ _ E3) as Hb. pose proof (span_fst _ _ _ _ E2) as Hds.
  apply span_app in E1, E2, E3. subst. rewrite app_nil_r in *. 
  destruct b as [|x b _] using rev_ind.
  - rewrite app_nil_r, ends_slash_app by done. destruct d as [|y d _] using rev_ind; [done|].
    apply Forall_app in Hds as [_ Hy]. inversion Hy as [|? ? Hy']; subst.
    unfold ends_slash. rewrite last_snoc. by destruct (is_slash y).
  - rewrite app_assoc, ends_slash_app by (by destruct b). apply Forall_app in Hb as [Hb Hx].
    inversion Hx as [|? ? Hx' _]; subst. unfold ends_slash. rewrite last_snoc, Hx'.
    destruct b as [|z b]; [cbn [app]; change (absolute [x]) with (is_slash x); by rewrite Hx'|].
    inversion Hb as [|? ? Hz _]; subst. cbn [app]. change (absolute (z :: b ++ [x])) with (is_slash z).
    by rewrite Hz.
Qed.

(** ** A tree of directories *)

Class PlainTree (W : Type) (K : Kernel W) (E : Extensions W) : Prop := {
  tree_directory : forall w p, exists mode, lstat w p = inl mode /\ S_ISDIR mode = true;
  tree_shadow : forall w p, exists w', net_policy_shadow_access w p = (w', inl ());
  tree_notify : forall w p final, exists w', notify_HOST_PATH w p final = (w', inl ());
  tree_f2fs : f2fs_bug_detected = false
}.

Lemma directory_not_link mode : S_ISDIR mode = true -> S_ISLNK mode = false.
Proof. unfold S_ISDIR, S_ISLNK. intros E%Z.eqb_eq. by rewrite E. Qed.

Section Lexical.

Context {W : Type} {K : Kernel W} {E : Extensions W} {T : PlainTree W K E}.
Context (f : FileSystemNameSpace) (root : list cstr) (l : list Binding) (v : ProcView).
Hypothesis Hroot : rooted f root.
Hypothesis Hwf : fs_wf f.
Hypothesis Hsz : fs_sized f.
Hypothesis Hl : bindings_guest f = Some l.

Abbreviation total m Q := (yields (@stable W f v) m Q).

Lemma on_world_total {A} (g : W -> W * status A) a (Q : A -> Prop) :
  (forall w, exists w', g w = (w', inl a)) -> Q a -> total (on_world g) Q.
Proof.
  intros Hg HQ t (Hf & Hv & Ht). destruct (Hg (world t)) as [w' E']. unfold on_world. rewrite E'.
  eexists _, a. split; [done|]. by split.
Qed.

(** Every path belongs to a binding, the root at least. *)
Lemma substitute_guest_total p :
  Forall name_ok p -> zlen (render p) < PATH_MAX ->
  exists st h, substitute_binding f GUEST (render p) = Ok (st, h).
Proof.
  intros Hp Hlen. destruct (get_binding_guest f l p) as [(b & Hg & Hd)|[_ Hn]]; auto; [by destruct Hwf| |].
  - destruct Hd as (Hin & Hpre & _). destruct Hwf as [_ Hw].
    specialize (Hw GUEST l ltac:(done) Hl). specialize (Hsz GUEST l Hl). rewrite Forall_forall in *.
    destruct (substitute_binding_total f GUEST b p) as (q & -> & _); eauto.
  - destruct Hroot as (l' & b & Hl' & Hlast & Hb & _). simplify_eq.
    destruct (Hn b); [by apply last_Some_elem_of|]. unfold key. cbn [side_path]. rewrite Hb.
    apply prefix_nil.
Qed.

Lemma substitute_binding_stat_total fin level p :
  Forall name_ok p -> zlen (render p) < PATH_MAX ->
  total (substitute_binding_stat fin level (render p)) (fun '(_, is_link) => is_link = false).
Proof.
  intros Hp Hlen. destruct (substitute_guest_total p Hp Hlen) as (st & h & Es).
  unfold substitute_binding_stat.
  eapply (yields_bind _ _ _ (fun x => x = f)); [by apply yields_get; intros t []|]. intros ? ->.
  eapply (yields_bind _ _ _ (fun r => r = (st, h))); [by eapply yields_lift|]. intros ? ->.
  eapply (yields_bind _ _ _ (fun _ => True)); [by apply on_world_total with (); [intros w; apply tree_shadow|]|].
  intros _ _. eapply (yields_bind _ _ _ (fun x => x = 0)); [by apply yields_get; intros t (_ & _ & ?)|]. intros ? ->.
  cbn [Z.eqb negb]. eapply (yields_bind _ _ _ (fun _ => True)).
  { by apply on_world_total with (); [intros w; apply tree_notify|]. }
  intros _ _. eapply (yields_bind _ _ _ (fun '(found, mode) => found = true /\ S_ISDIR mode = true)).
  { unfold lstat_mode, should_skip_file_access_due_to_f2fs_bug. rewrite tree_f2fs. cbn [negb].
    eapply (yields_bind _ _ _ (fun b => b = false)); [by apply yields_ret|]. intros ? ->.
    eapply (yields_bind _ _ _ (fun _ => True)); [by apply yields_get|]. intros w _.
    destruct (tree_directory w h) as (mode & -> & Hm). by apply yields_ret. }
  intros [found mode] [-> Hm]. cbn [negb andb].
  eapply (yields_bind _ _ _ (fun r => r = (true, mode))); [by apply yields_ret|]. intros ? ->.
  rewrite Hm. cbn [negb]. rewrite andb_false_r. cbn [andb]. apply yields_ret. by apply directory_not_link.
Qed.

(** One component of the walk. *)
Lemma walk_step_lexical rec deref level followed st c fin :
  Forall comp_ok st -> name_ok c -> zlen (joined st) + zlen c + 2 < PATH_MAX ->
  total (walk_step rec deref level followed (render st) c fin)
    (fun r => exists fin', r = Continue (render (resolve_step st c)) fin' followed
       /\ IS_FINAL fin' = IS_FINAL fin
       /\ (IS_FINAL fin = true -> fin' = if str_eqb c (bs ".") then FINAL_DOT
             else if str_eqb c (bs "..") then FINAL_SLASH else fin)).
Proof.
  intros Hst Hc Hlen. unfold walk_step, resolve_step. destruct (str_eqb c (bs ".")) eqn:Ed.
  { apply yields_ret. eexists; split; [done|]. by destruct fin. }
  destruct (str_eqb c (bs "..")) eqn:Edd.
  { eapply (yields_bind _ _ _ (fun g => g = render (removelast st))).
    - eapply yields_lift; [|done]. destruct st as [|x st _] using rev_ind; [done|].
      rewrite removelast_last. apply Forall_app in Hst as [Hst Hx]. inversion Hx as [|? ? Hxc]; subst.
      apply pop_render; [by apply comp_ok_plain | apply Hxc].
    - intros ? ->. apply yields_ret. eexists; split; [done|]. by destruct fin. }
  apply str_eqb_neq in Ed, Edd. assert (Hco : comp_ok c) by done.
  assert (Hj : join2 (render st) c = Ok (render (st ++ [c]))).
  { rewrite join2_render by (by apply comp_ok_plain || apply Hc).
    rewrite render_snoc, zlen_app, zlen_cons. case_bool; [bool_facts; lia | done]. }
  unfold walk_component.
  eapply (yields_bind _ _ _ (fun g => g = render (st ++ [c]))); [by eapply yields_lift|]. intros ? ->.
  eapply yields_bind.
  { apply substitute_binding_stat_total.
    - apply comp_ok_name, Forall_app. split; [done|]. by apply Forall_singleton.
    - rewrite render_snoc, zlen_app, zlen_cons. lia. }
  intros [h is_link] ->. cbn [negb orb].
  eapply (yields_bind _ _ _ (fun g => g = render (st ++ [c]))); [by eapply yields_lift|]. intros ? ->.
  apply yields_ret. by eexists.
Qed.

Lemma finality_of_cons p c rest fin :
  next_component p = Ok (c, rest, fin) -> components p = c :: components rest -> c <> [] ->
  rest <> [] -> components rest <> [] -> finality_of p = finality_of rest.
Proof.
  intros En Ec Hc Hr Hcr. destruct (next_component_suffix _ _ _ _ En) as [s Es].
  assert (El : last (c :: components rest) = last (components rest)) by (by destruct (components rest)).
  unfold finality_of. rewrite Ec, El. by rewrite Es, ends_slash_app.
Qed.

Lemma walk_lexical rec deref level followed fuel : forall st cursor,
  (length cursor < fuel)%nat -> Forall comp_ok st -> nul_free cursor ->
  forallb short (components cursor) = true -> components cursor <> [] ->
  zlen (joined st) + zlen (joined (components cursor)) + 1 < PATH_MAX ->
  total (walk rec fuel deref level followed (render st) cursor)
    (fun r => r = (render (fold_left resolve_step (components cursor) st), Some (finality_of cursor))).
Proof.
  induction fuel as [|fuel IH]; intros st cursor Hfu Hst Hn Hs Hc Hlen; [lia|]. cbn [walk].
  pose proof (next_component_spec cursor) as Hspec. pose proof (components_name cursor Hn) as Hnames.
  destruct (components cursor) as [|c cs] eqn:Ec; [done|]. simpl in Hs. apply andb_true_iff in Hs as [Hs1 Hs].
  rewrite Hs1 in Hspec. destruct Hspec as (rest & fin & En & Er & Ef & Hr).
  inversion Hnames as [|? ? Hcn Hnames']; subst. rewrite joined_cons, zlen_cons, zlen_app in Hlen.
  pose proof (zlen_nonneg (joined (components rest))). pose proof (zlen_nonneg (joined st)).
  eapply (yields_bind _ _ _ (fun r => r = (c, rest, fin))); [by eapply yields_lift|]. intros ? ->.
  eapply yields_bind; [apply walk_step_lexical; [done|done|lia]|].
  intros ? (fin' & -> & Efin & Hfin'). cbn [fold_left]. rewrite Efin.
  destruct (decide (components rest = [])) as [E0|E0].
  - rewrite E0, bool_decide_eq_true_2 in Ef by done. rewrite Ef. apply yields_ret. rewrite E0. cbn [fold_left].
    rewrite (Hfin' Ef). do 2 f_equal. unfold finality_of. rewrite Ec, E0. cbn [last].
    by rewrite <- (next_component_final _ _ _ _ En (proj1 (proj1 Hcn)) Ef).
  - rewrite bool_decide_eq_false_2 in Ef by done. rewrite Ef.
    rewrite (finality_of_cons _ _ _ _ En) by (done || apply Hcn || by intros ->).
    apply IH; try done; [lia| | |].
    + by apply (resolve_plain [c]); [apply Forall_singleton|].
    + destruct (next_component_suffix _ _ _ _ En) as [s ->]. by apply nul_free_app in Hn as [_ ?].
    + pose proof (zlen_joined_resolve [c] st) as Hz. cbn [fold_left] in Hz.
      rewrite joined_cons, zlen_cons, zlen_app in Hz. change (zlen (joined [])) with 0 in Hz. lia.
Qed.

(** A path without components, like "//", is the root. *)
Lemma walk_root rec deref level followed fuel cursor :
  components cursor = [] ->
  total (walk rec (S fuel) deref level followed (bs "/") cursor)
    (fun r => r = (bs "/", Some FINAL_NORMAL)).
Proof.
  intros Ec. pose proof (next_component_spec cursor) as Hspec. rewrite Ec in Hspec. cbn [walk].
  eapply (yields_bind _ _ _ (fun r => r = ([], [], FINAL_NORMAL))); [by eapply yields_lift|]. intros ? ->.
  eapply (yields_bind _ _ _ (fun r => r = Continue (bs "/") FINAL_NORMAL followed)); [|by intros ? ->; apply yields_ret].
  change (walk_step _ deref level followed (bs "/") [] FINAL_NORMAL)
    with (walk_component rec deref level followed (render []) [] FINAL_NORMAL).
  unfold walk_component.
  eapply (yields_bind _ _ _ (fun g => g = render [])); [by eapply yields_lift|]. intros ? ->.
  eapply yields_bind; [by apply substitute_binding_stat_total; [constructor|]|].
  intros [h is_link] ->. cbn [negb orb].
  eapply (yields_bind _ _ _ (fun g => g = render [])); [by eapply yields_lift|]. intros ? ->.
  by apply yields_ret.
Qed.

Lemma restore_finality_total cs fin :
  Forall comp_ok cs -> fin <> NOT_FINAL -> zlen (render cs) + 3 < PATH_MAX ->
  restore_finality 0 (render cs) fin = Ok (with_finality cs fin).
Proof.
  intros Hcs Hfin Hlen. apply comp_ok_plain in Hcs. unfold restore_finality. cbn [Z.eqb].
  destruct fin; [done..| |].
  - unfold join2. rewrite join_paths_first, (proj2 (Z.leb_gt _ _)) by lia. cbn [join_loop].
    rewrite zlen_pos_neq, bool_decide_eq_true_2 by (by destruct cs). cbn [andb absolute negb].
    destruct cs as [|c cs]; [done|]. rewrite render_joined, joined_last by done. simpl.
    rewrite zlen_nil, (proj2 (Z.leb_gt _ _)); [done|]. rewrite render_joined in Hlen by done. lia.
  - rewrite join2_render by auto using dot_plain. rewrite render_snoc, zlen_app.
    change (zlen (SLASH :: bs ".")) with 2.
    assert (zlen (joined cs) <= zlen (render cs)) by (by destruct cs).
    rewrite (proj2 (Z.leb_gt _ _)) by lia. done.
Qed.

Lemma canonicalize_total levels u deref :
  absolute u = true -> nul_free u -> zlen u + 3 < PATH_MAX -> forallb short (components u) = true ->
  total (canonicalize (S levels) u deref (bs "/") 0)
    (fun p => p = with_finality (resolve (components u)) (finality_of u)).
Proof.
  intros Ha Hn Hlen Hs. cbn [canonicalize].
  change (3 <? 0) with false. change (PATH_MAX <=? zlen (bs "/")) with false. cbv iota.
  eapply (yields_bind _ _ _ (fun _ => True)).
  { unfold check_shadow. rewrite Ha, take_ge by (unfold zlen in Hlen; lia).
    rewrite normalize_eq, Hs by (done || lia).
    eapply yields_bind.
    - apply yields_attempt. apply (on_world_total _ () (fun _ => True)); [|done]. intros w. apply tree_shadow.
    - intros [] ?; [by apply yields_ret | done]. }
  intros _ _. rewrite Ha. cbn [negb andb]. cbv zeta.
  pose proof (zlen_render_resolve u Ha) as Hzr.
  eapply (yields_bind _ _ _ (fun r => r = (render (resolve (components u)), Some (finality_of u)))).
  { destruct (decide (components u = [])) as [E0|E0].
    - unfold finality_of. rewrite E0. by apply walk_root.
    - apply (walk_lexical _ _ _ _ _ []); try done; [lia|].
      pose proof (zlen_joined_components (length u) u ltac:(lia) (absolute_boundary u Ha)).
      change (zlen (joined [])) with 0. lia. }
  intros ? ->. eapply yields_lift; [|done]. apply restore_finality_total; [by apply resolve_comp_ok| |lia].
  unfold finality_of. by repeat case_match.
Qed.

End Lexical.

(** ** Properties *)

(** C20: where there are only directories, canonicalize() of an absolute path
    that fits, with components of less than [NAME_MAX] bytes, always succeeds:
    the result is the lexical resolution that normalize_guest_path() computes,
    followed by the "/" or "/." the path asked for, and the tracee is left as it
    is. *)
Theorem canonicalize_lexical {W} (K : Kernel W) (E : Extensions W) (T : PlainTree W K E)
    (t : Tracee W) levels u deref_final :
  tracee_ok t -> absolute u = true -> nul_free u -> zlen u + 3 < PATH_MAX ->
  forallb short (components u) = true ->
  exists t', canonicalize (S levels) u deref_final (bs "/") 0 t
             = (t', Ok (with_finality (resolve (components u)) (finality_of u)))
    /\ normalize_guest_path u = Ok (render (resolve (components u)))
    /\ fs t' = fs t /\ glue_type t' = 0.
Proof.
  intros ((root & Hr) & Hwf & Hsz & _ & _ & Hg) Ha Hn Hlen Hs.
  pose proof Hr as (l & _ & Hl & _).
  destruct (canonicalize_total (fs t) root l (view t) Hr Hwf Hsz Hl levels u deref_final Ha Hn Hlen Hs t)
    as (t' & p & E' & (Hf & _ & Ht) & ->); [done|].
  exists t'. split; [done|]. rewrite normalize_eq, Hs by (done || lia). by repeat split.
Qed.

#[local] Instance tree_kernel : Kernel unit := {
  lstat _ _ := inl S_IFDIR;
  readlink _ _ := inr EINVAL;
  listdir _ _ := None;
  mkdir w _ _ := (w, inr EROFS);
  mknod w _ _ := (w, inr EROFS);
  create_temp_directory w := (w, None);
  set_placeholder_destructor w _ := w;
  PROOT_DONT_POLLUTE_ROOTFS := false;
  f2fs_bug_detected := false
}.

Lemma plain_tree : PlainTree unit tree_kernel quiet_extensions.
Proof. split; [by eexists|by eexists|by eexists|done]. Qed.

Lemma canonicalize_lexical_witness :
  exists t', canonicalize (K := tree_kernel) (E := quiet_extensions) 1 (bs "/a/./b//../../../mnt/sd/.") true (bs "/") 0
               demo_tracee = (t', Ok (bs "/mnt/sd/.")).
Proof.
  destruct (canonicalize_lexical tree_kernel quiet_extensions plain_tree demo_tracee 0
              (bs "/a/./b//../../../mnt/sd/.") true demo_tracee_ok) as (t' & E & _);
    [done|by repeat constructor|by vm_compute|by vm_compute|].
  exists t'. exact E.
Defined.
