(* ===== verification/Sysnum.v ===== *)
(** * System call numbers (src/syscall/sysnum.c)

    The neutral numbering of the system calls, the tables of AArch64
    (ABI_DEFAULT) and of 32-bit ARM (ABI_2), and the translations between
    them. *)

From S2P Require Import Prelude.

(** Sysnum: the neutral system call numbers, in the order of sysnums.list. *)

Definition Sysnum := Z.

Definition PR_void : Sysnum := 0.
Definition PR_ARM_BASE : Sysnum := 1.
Definition PR_ARM_breakpoint : Sysnum := 2.
Definition PR_ARM_cacheflush : Sysnum := 3.
Definition PR_ARM_set_tls : Sysnum := 4.
Definition PR_ARM_usr26 : Sysnum := 5.
Definition PR_ARM_usr32 : Sysnum := 6.
Definition PR_X32_SYSCALL_BIT : Sysnum := 7.
Definition PR__llseek : Sysnum := 8.
Definition PR__newselect : Sysnum := 9.
Definition PR__sysctl : Sysnum := 10.
Definition PR_accept : Sysnum := 11.
Definition PR_accept4 : Sysnum := 12.
Definition PR_access : Sysnum := 13.
Definition PR_acct : Sysnum := 14.
Definition PR_add_key : Sysnum := 15.
Definition PR_adjtimex : Sysnum := 16.
Definition PR_afs_syscall : Sysnum := 17.
Definition PR_alarm : Sysnum := 18.
Definition PR_arch_prctl : Sysnum := 19.
Definition PR_arch_specific_syscall : Sysnum := 20.
Definition PR_arm_fadvise64_64 : Sysnum := 21.
Definition PR_arm_sync_file_range : Sysnum := 22.
Definition PR_bdflush : Sysnum := 23.
Definition PR_bind : Sysnum := 24.
Definition PR_bpf : Sysnum := 25.
Definition PR_break : Sysnum := 26.
Definition PR_brk : Sysnum := 27.
Definition PR_cacheflush : Sysnum := 28.
Definition PR_capget : Sysnum := 29.
Definition PR_capset : Sysnum := 30.
Definition PR_chdir : Sysnum := 31.
Definition PR_chmod : Sysnum := 32.
Definition PR_chown : Sysnum := 33.
Definition PR_chown32 : Sysnum := 34.
Definition PR_chroot : Sysnum := 35.
Definition PR_clock_adjtime : Sysnum := 36.
Definition PR_clock_getres : Sysnum := 37.
Definition PR_clock_gettime : Sysnum := 38.
Definition PR_clock_nanosleep : Sysnum := 39.
Definition PR_clock_settime : Sysnum := 40.
Definition PR_clone : Sysnum := 41.
Definition PR_clone3 : Sysnum := 42.
Definition PR_close : Sysnum := 43.
Definition PR_connect : Sysnum := 44.
Definition PR_copy_file_range : Sysnum := 45.
Definition PR_creat : Sysnum := 46.
Definition PR_create_module : Sysnum := 47.
Definition PR_delete_module : Sysnum := 48.
Definition PR_dup : Sysnum := 49.
Definition PR_dup2 : Sysnum := 50.
Definition PR_dup3 : Sysnum := 51.
Definition PR_epoll_create : Sysnum := 52.
Definition PR_epoll_create1 : Sysnum := 53.
Definition PR_epoll_ctl : Sysnum := 54.
Definition PR_epoll_ctl_old : Sysnum := 55.
Definition PR_epoll_pwait : Sysnum := 56.
Definition PR_epoll_wait : Sysnum := 57.
Definition PR_epoll_wait_old : Sysnum := 58.
Definition PR_eventfd : Sysnum := 59.
Definition PR_eventfd2 : Sysnum := 60.
Definition PR_execve : Sysnum := 61.
Definition PR_execveat : Sysnum := 62.
Definition PR_exit : Sysnum := 63.
Definition PR_exit_group : Sysnum := 64.
Definition PR_faccessat : Sysnum := 65.
Definition PR_faccessat2 : Sysnum := 66.
Definition PR_fadvise64 : Sysnum := 67.
Definition PR_fadvise64_64 : Sysnum := 68.
Definition PR_fallocate : Sysnum := 69.
Definition PR_fanotify_init : Sysnum := 70.
Definition PR_fanotify_mark : Sysnum := 71.
Definition PR_fchdir : Sysnum := 72.
Definition PR_fchmod : Sysnum := 73.
Definition PR_fchmodat : Sysnum := 74.
Definition PR_fchmodat2 : Sysnum := 75.
Definition PR_fchown : Sysnum := 76.
Definition PR_fchown32 : Sysnum := 77.
Definition PR_fchownat : Sysnum := 78.
Definition PR_fcntl : Sysnum := 79.
Definition PR_fcntl64 : Sysnum := 80.
Definition PR_fdatasync : Sysnum := 81.
Definition PR_fgetxattr : Sysnum := 82.
Definition PR_finit_module : Sysnum := 83.
Definition PR_flistxattr : Sysnum := 84.
Definition PR_flock : Sysnum := 85.
Definition PR_fork : Sysnum := 86.
Definition PR_fremovexattr : Sysnum := 87.
Definition PR_fsconfig : Sysnum := 88.
Definition PR_fsetxattr : Sysnum := 89.
Definition PR_fsmount : Sysnum := 90.
Definition PR_fsopen : Sysnum := 91.
Definition PR_fspick : Sysnum := 92.
Definition PR_fstat : Sysnum := 93.
Definition PR_fstat64 : Sysnum := 94.
Definition PR_fstatat64 : Sysnum := 95.
Definition PR_fstatfs : Sysnum := 96.
Definition PR_fstatfs64 : Sysnum := 97.
Definition PR_fsync : Sysnum := 98.
Definition PR_ftime : Sysnum := 99.
Definition PR_ftruncate : Sysnum := 100.
Definition PR_ftruncate64 : Sysnum := 101.
Definition PR_futex : Sysnum := 102.
Definition PR_futimesat : Sysnum := 103.
Definition PR_get_kernel_syms : Sysnum := 104.
Definition PR_get_mempolicy : Sysnum := 105.
Definition PR_get_robust_list : Sysnum := 106.
Definition PR_get_thread_area : Sysnum := 107.
Definition PR_getcpu : Sysnum := 108.
Definition PR_getcwd : Sysnum := 109.
Definition PR_getdents : Sysnum := 110.
Definition PR_getdents64 : Sysnum := 111.
Definition PR_getegid : Sysnum := 112.
Definition PR_getegid32 : Sysnum := 113.
Definition PR_geteuid : Sysnum := 114.
Definition PR_geteuid32 : Sysnum := 115.
Definition PR_getgid : Sysnum := 116.
Definition PR_getgid32 : Sysnum := 117.
Definition PR_getgroups : Sysnum := 118.
Definition PR_getgroups32 : Sysnum := 119.
Definition PR_getitimer : Sysnum := 120.
Definition PR_getpeername : Sysnum := 121.
Definition PR_getpgid : Sysnum := 122.
Definition PR_getpgrp : Sysnum := 123.
Definition PR_getpid : Sysnum := 124.
Definition PR_getpmsg : Sysnum := 125.
Definition PR_getppid : Sysnum := 126.
Definition PR_getpriority : Sysnum := 127.
Definition PR_getrandom : Sysnum := 128.
Definition PR_getresgid : Sysnum := 129.
Definition PR_getresgid32 : Sysnum := 130.
Definition PR_getresuid : Sysnum := 131.
Definition PR_getresuid32 : Sysnum := 132.
Definition PR_getrlimit : Sysnum := 133.
Definition PR_getrusage : Sysnum := 134.
Definition PR_getsid : Sysnum := 135.
Definition PR_getsockname : Sysnum := 136.
Definition PR_getsockopt : Sysnum := 137.
Definition PR_gettid : Sysnum := 138.
Definition PR_gettimeofday : Sysnum := 139.
Definition PR_getuid : Sysnum := 140.
Definition PR_getuid32 : Sysnum := 141.
Definition PR_getxattr : Sysnum := 142.
Definition PR_gtty : Sysnum := 143.
Definition PR_idle : Sysnum := 144.
Definition PR_init_module : Sysnum := 145.
Definition PR_inotify_add_watch : Sysnum := 146.
Definition PR_inotify_init : Sysnum := 147.
Definition PR_inotify_init1 : Sysnum := 148.
Definition PR_inotify_rm_watch : Sysnum := 149.
Definition PR_io_cancel : Sysnum := 150.
Definition PR_io_destroy : Sysnum := 151.
Definition PR_io_getevents : Sysnum := 152.
Definition PR_io_setup : Sysnum := 153.
Definition PR_io_submit : Sysnum := 154.
Definition PR_ioctl : Sysnum := 155.
Definition PR_ioperm : Sysnum := 156.
Definition PR_iopl : Sysnum := 157.
Definition PR_ioprio_get : Sysnum := 158.
Definition PR_ioprio_set : Sysnum := 159.
Definition PR_ipc : Sysnum := 160.
Definition PR_kcmp : Sysnum := 161.
Definition PR_kexec_file_load : Sysnum := 162.
Definition PR_kexec_load : Sysnum := 163.
Definition PR_keyctl : Sysnum := 164.
Definition PR_kill : Sysnum := 165.
Definition PR_lchown : Sysnum := 166.
Definition PR_lchown32 : Sysnum := 167.
Definition PR_lgetxattr : Sysnum := 168.
Definition PR_link : Sysnum := 169.
Definition PR_linkat : Sysnum := 170.
Definition PR_listen : Sysnum := 171.
Definition PR_listxattr : Sysnum := 172.
Definition PR_llistxattr : Sysnum := 173.
Definition PR_lock : Sysnum := 174.
Definition PR_lookup_dcookie : Sysnum := 175.
Definition PR_lremovexattr : Sysnum := 176.
Definition PR_lseek : Sysnum := 177.
Definition PR_lsetxattr : Sysnum := 178.
Definition PR_lstat : Sysnum := 179.
Definition PR_lstat64 : Sysnum := 180.
Definition PR_madvise : Sysnum := 181.
Definition PR_mbind : Sysnum := 182.
Definition PR_membarrier : Sysnum := 183.
Definition PR_memfd_create : Sysnum := 184.
Definition PR_migrate_pages : Sysnum := 185.
Definition PR_mincore : Sysnum := 186.
Definition PR_mkdir : Sysnum := 187.
Definition PR_mkdirat : Sysnum := 188.
Definition PR_mknod : Sysnum := 189.
Definition PR_mknodat : Sysnum := 190.
Definition PR_mlock : Sysnum := 191.
Definition PR_mlock2 : Sysnum := 192.
Definition PR_mlockall : Sysnum := 193.
Definition PR_mmap : Sysnum := 194.
Definition PR_mmap2 : Sysnum := 195.
Definition PR_modify_ldt : Sysnum := 196.
Definition PR_mount : Sysnum := 197.
Definition PR_mount_setattr : Sysnum := 198.
Definition PR_move_mount : Sysnum := 199.
Definition PR_move_pages : Sysnum := 200.
Definition PR_mprotect : Sysnum := 201.
Definition PR_mpx : Sysnum := 202.
Definition PR_mq_getsetattr : Sysnum := 203.
Definition PR_mq_notify : Sysnum := 204.
Definition PR_mq_open : Sysnum := 205.
Definition PR_mq_timedreceive : Sysnum := 206.
Definition PR_mq_timedsend : Sysnum := 207.
Definition PR_mq_unlink : Sysnum := 208.
Definition PR_mremap : Sysnum := 209.
Definition PR_msgctl : Sysnum := 210.
Definition PR_msgget : Sysnum := 211.
Definition PR_msgrcv : Sysnum := 212.
Definition PR_msgsnd : Sysnum := 213.
Definition PR_msync : Sysnum := 214.
Definition PR_munlock : Sysnum := 215.
Definition PR_munlockall : Sysnum := 216.
Definition PR_munmap : Sysnum := 217.
Definition PR_name_to_handle_at : Sysnum := 218.
Definition PR_nanosleep : Sysnum := 219.
Definition PR_newfstatat : Sysnum := 220.
Definition PR_nfsservctl : Sysnum := 221.
Definition PR_nice : Sysnum := 222.
Definition PR_oldfstat : Sysnum := 223.
Definition PR_oldlstat : Sysnum := 224.
Definition PR_oldolduname : Sysnum := 225.
Definition PR_oldstat : Sysnum := 226.
Definition PR_olduname : Sysnum := 227.
Definition PR_open : Sysnum := 228.
Definition PR_open_by_handle_at : Sysnum := 229.
Definition PR_open_tree : Sysnum := 230.
Definition PR_open_tree_attr : Sysnum := 231.
Definition PR_openat : Sysnum := 232.
Definition PR_openat2 : Sysnum := 233.
Definition PR_pause : Sysnum := 234.
Definition PR_pciconfig_iobase : Sysnum := 235.
Definition PR_pciconfig_read : Sysnum := 236.
Definition PR_pciconfig_write : Sysnum := 237.
Definition PR_perf_event_open : Sysnum := 238.
Definition PR_personality : Sysnum := 239.
Definition PR_pidfd_open : Sysnum := 240.
Definition PR_pipe : Sysnum := 241.
Definition PR_pipe2 : Sysnum := 242.
Definition PR_pivot_root : Sysnum := 243.
Definition PR_pkey_alloc : Sysnum := 244.
Definition PR_pkey_free : Sysnum := 245.
Definition PR_pkey_mprotect : Sysnum := 246.
Definition PR_poll : Sysnum := 247.
Definition PR_ppoll : Sysnum := 248.
Definition PR_prctl : Sysnum := 249.
Definition PR_pread64 : Sysnum := 250.
Definition PR_preadv : Sysnum := 251.
Definition PR_preadv2 : Sysnum := 252.
Definition PR_prlimit64 : Sysnum := 253.
Definition PR_process_vm_readv : Sysnum := 254.
Definition PR_process_vm_writev : Sysnum := 255.
Definition PR_prof : Sysnum := 256.
Definition PR_profil : Sysnum := 257.
Definition PR_pselect6 : Sysnum := 258.
Definition PR_ptrace : Sysnum := 259.
Definition PR_putpmsg : Sysnum := 260.
Definition PR_pwrite64 : Sysnum := 261.
Definition PR_pwritev : Sysnum := 262.
Definition PR_pwritev2 : Sysnum := 263.
Definition PR_query_module : Sysnum := 264.
Definition PR_quotactl : Sysnum := 265.
Definition PR_read : Sysnum := 266.
Definition PR_readahead : Sysnum := 267.
Definition PR_readdir : Sysnum := 268.
Definition PR_readlink : Sysnum := 269.
Definition PR_readlinkat : Sysnum := 270.
Definition PR_readv : Sysnum := 271.
Definition PR_reboot : Sysnum := 272.
Definition PR_recv : Sysnum := 273.
Definition PR_recvfrom : Sysnum := 274.
Definition PR_recvmmsg : Sysnum := 275.
Definition PR_recvmsg : Sysnum := 276.
Definition PR_remap_file_pages : Sysnum := 277.
Definition PR_removexattr : Sysnum := 278.
Definition PR_rename : Sysnum := 279.
Definition PR_renameat : Sysnum := 280.
Definition PR_renameat2 : Sysnum := 281.
Definition PR_request_key : Sysnum := 282.
Definition PR_restart_syscall : Sysnum := 283.
Definition PR_rmdir : Sysnum := 284.
Definition PR_rt_sigaction : Sysnum := 285.
Definition PR_rt_sigpending : Sysnum := 286.
Definition PR_rt_sigprocmask : Sysnum := 287.
Definition PR_rt_sigqueueinfo : Sysnum := 288.
Definition PR_rt_sigreturn : Sysnum := 289.
Definition PR_rt_sigsuspend : Sysnum := 290.
Definition PR_rt_sigtimedwait : Sysnum := 291.
Definition PR_rt_tgsigqueueinfo : Sysnum := 292.
Definition PR_sched_get_priority_max : Sysnum := 293.
Definition PR_sched_get_priority_min : Sysnum := 294.
Definition PR_sched_getaffinity : Sysnum := 295.
Definition PR_sched_getattr : Sysnum := 296.
Definition PR_sched_getparam : Sysnum := 297.
Definition PR_sched_getscheduler : Sysnum := 298.
Definition PR_sched_rr_get_interval : Sysnum := 299.
Definition PR_sched_setaffinity : Sysnum := 300.
Definition PR_sched_setattr : Sysnum := 301.
Definition PR_sched_setparam : Sysnum := 302.
Definition PR_sched_setscheduler : Sysnum := 303.
Definition PR_sched_yield : Sysnum := 304.
Definition PR_seccomp : Sysnum := 305.
Definition PR_security : Sysnum := 306.
Definition PR_select : Sysnum := 307.
Definition PR_semctl : Sysnum := 308.
Definition PR_semget : Sysnum := 309.
Definition PR_semop : Sysnum := 310.
Definition PR_semtimedop : Sysnum := 311.
Definition PR_send : Sysnum := 312.
Definition PR_sendfile : Sysnum := 313.
Definition PR_sendfile64 : Sysnum := 314.
Definition PR_sendmmsg : Sysnum := 315.
Definition PR_sendmsg : Sysnum := 316.
Definition PR_sendto : Sysnum := 317.
Definition PR_set_mempolicy : Sysnum := 318.
Definition PR_set_robust_list : Sysnum := 319.
Definition PR_set_thread_area : Sysnum := 320.
Definition PR_set_tid_address : Sysnum := 321.
Definition PR_setdomainname : Sysnum := 322.
Definition PR_setfsgid : Sysnum := 323.
Definition PR_setfsgid32 : Sysnum := 324.
Definition PR_setfsuid : Sysnum := 325.
Definition PR_setfsuid32 : Sysnum := 326.
Definition PR_setgid : Sysnum := 327.
Definition PR_setgid32 : Sysnum := 328.
Definition PR_setgroups : Sysnum := 329.
Definition PR_setgroups32 : Sysnum := 330.
Definition PR_sethostname : Sysnum := 331.
Definition PR_setitimer : Sysnum := 332.
Definition PR_setns : Sysnum := 333.
Definition PR_setpgid : Sysnum := 334.
Definition PR_setpriority : Sysnum := 335.
Definition PR_setregid : Sysnum := 336.
Definition PR_setregid32 : Sysnum := 337.
Definition PR_setresgid : Sysnum := 338.
Definition PR_setresgid32 : Sysnum := 339.
Definition PR_setresuid : Sysnum := 340.
Definition PR_setresuid32 : Sysnum := 341.
Definition PR_setreuid : Sysnum := 342.
Definition PR_setreuid32 : Sysnum := 343.
Definition PR_setrlimit : Sysnum := 344.
Definition PR_setsid : Sysnum := 345.
Definition PR_setsockopt : Sysnum := 346.
Definition PR_settimeofday : Sysnum := 347.
Definition PR_setuid : Sysnum := 348.
Definition PR_setuid32 : Sysnum := 349.
Definition PR_setxattr : Sysnum := 350.
Definition PR_sgetmask : Sysnum := 351.
Definition PR_shmat : Sysnum := 352.
Definition PR_shmctl : Sysnum := 353.
Definition PR_shmdt : Sysnum := 354.
Definition PR_shmget : Sysnum := 355.
Definition PR_shutdown : Sysnum := 356.
Definition PR_sigaction : Sysnum := 357.
Definition PR_sigaltstack : Sysnum := 358.
Definition PR_signal : Sysnum := 359.
Definition PR_signalfd : Sysnum := 360.
Definition PR_signalfd4 : Sysnum := 361.
Definition PR_sigpending : Sysnum := 362.
Definition PR_sigprocmask : Sysnum := 363.
Definition PR_sigreturn : Sysnum := 364.
Definition PR_sigsuspend : Sysnum := 365.
Definition PR_socket : Sysnum := 366.
Definition PR_socketcall : Sysnum := 367.
Definition PR_socketpair : Sysnum := 368.
Definition PR_splice : Sysnum := 369.
Definition PR_ssetmask : Sysnum := 370.
Definition PR_stat : Sysnum := 371.
Definition PR_stat64 : Sysnum := 372.
Definition PR_statfs : Sysnum := 373.
Definition PR_statfs64 : Sysnum := 374.
Definition PR_statx : Sysnum := 375.
Definition PR_stime : Sysnum := 376.
Definition PR_stty : Sysnum := 377.
Definition PR_swapoff : Sysnum := 378.
Definition PR_swapon : Sysnum := 379.
Definition PR_symlink : Sysnum := 380.
Definition PR_symlinkat : Sysnum := 381.
Definition PR_sync : Sysnum := 382.
Definition PR_sync_file_range : Sysnum := 383.
Definition PR_sync_file_range2 : Sysnum := 384.
Definition PR_syncfs : Sysnum := 385.
Definition PR_sysfs : Sysnum := 386.
Definition PR_sysinfo : Sysnum := 387.
Definition PR_syslog : Sysnum := 388.
Definition PR_tee : Sysnum := 389.
Definition PR_tgkill : Sysnum := 390.
Definition PR_time : Sysnum := 391.
Definition PR_timer_create : Sysnum := 392.
Definition PR_timer_delete : Sysnum := 393.
Definition PR_timer_getoverrun : Sysnum := 394.
Definition PR_timer_gettime : Sysnum := 395.
Definition PR_timer_settime : Sysnum := 396.
Definition PR_timerfd_create : Sysnum := 397.
Definition PR_timerfd_gettime : Sysnum := 398.
Definition PR_timerfd_settime : Sysnum := 399.
Definition PR_times : Sysnum := 400.
Definition PR_tkill : Sysnum := 401.
Definition PR_truncate : Sysnum := 402.
Definition PR_truncate64 : Sysnum := 403.
Definition PR_tuxcall : Sysnum := 404.
Definition PR_ugetrlimit : Sysnum := 405.
Definition PR_ulimit : Sysnum := 406.
Definition PR_umask : Sysnum := 407.
Definition PR_umount : Sysnum := 408.
Definition PR_umount2 : Sysnum := 409.
Definition PR_uname : Sysnum := 410.
Definition PR_unlink : Sysnum := 411.
Definition PR_unlinkat : Sysnum := 412.
Definition PR_unshare : Sysnum := 413.
Definition PR_uselib : Sysnum := 414.
Definition PR_userfaultfd : Sysnum := 415.
Definition PR_ustat : Sysnum := 416.
Definition PR_utime : Sysnum := 417.
Definition PR_utimensat : Sysnum := 418.
Definition PR_utimes : Sysnum := 419.
Definition PR_vfork : Sysnum := 420.
Definition PR_vhangup : Sysnum := 421.
Definition PR_vm86 : Sysnum := 422.
Definition PR_vm86old : Sysnum := 423.
Definition PR_vmsplice : Sysnum := 424.
Definition PR_vserver : Sysnum := 425.
Definition PR_wait4 : Sysnum := 426.
Definition PR_waitid : Sysnum := 427.
Definition PR_waitpid : Sysnum := 428.
Definition PR_write : Sysnum := 429.
Definition PR_writev : Sysnum := 430.
Definition PR_x32_execve : Sysnum := 431.
Definition PR_x32_get_robust_list : Sysnum := 432.
Definition PR_x32_ioctl : Sysnum := 433.
Definition PR_x32_kexec_load : Sysnum := 434.
Definition PR_x32_move_pages : Sysnum := 435.
Definition PR_x32_mq_notify : Sysnum := 436.
Definition PR_x32_preadv : Sysnum := 437.
Definition PR_x32_process_vm_readv : Sysnum := 438.
Definition PR_x32_process_vm_writev : Sysnum := 439.
Definition PR_x32_ptrace : Sysnum := 440.
Definition PR_x32_pwritev : Sysnum := 441.
Definition PR_x32_readv : Sysnum := 442.
Definition PR_x32_recvfrom : Sysnum := 443.
Definition PR_x32_recvmmsg : Sysnum := 444.
Definition PR_x32_recvmsg : Sysnum := 445.
Definition PR_x32_rt_sigaction : Sysnum := 446.
Definition PR_x32_rt_sigpending : Sysnum := 447.
Definition PR_x32_rt_sigqueueinfo : Sysnum := 448.
Definition PR_x32_rt_sigreturn : Sysnum := 449.
Definition PR_x32_rt_sigtimedwait : Sysnum := 450.
Definition PR_x32_rt_tgsigqueueinfo : Sysnum := 451.
Definition PR_x32_sendmmsg : Sysnum := 452.
Definition PR_x32_sendmsg : Sysnum := 453.
Definition PR_x32_set_robust_list : Sysnum := 454.
Definition PR_x32_sigaltstack : Sysnum := 455.
Definition PR_x32_timer_create : Sysnum := 456.
Definition PR_x32_vmsplice : Sysnum := 457.
Definition PR_x32_waitid : Sysnum := 458.
Definition PR_x32_writev : Sysnum := 459.
Definition PR_NB_SYSNUM : Sysnum := 460.

Definition arm64_entries_0 : list (nat * Sysnum) := [
  (0%nat, PR_io_setup); (1%nat, PR_io_destroy); (2%nat, PR_io_submit); (3%nat, PR_io_cancel);
  (4%nat, PR_io_getevents); (5%nat, PR_setxattr); (6%nat, PR_lsetxattr); (7%nat, PR_fsetxattr);
  (8%nat, PR_getxattr); (9%nat, PR_lgetxattr); (10%nat, PR_fgetxattr); (11%nat, PR_listxattr);
  (12%nat, PR_llistxattr); (13%nat, PR_flistxattr); (14%nat, PR_removexattr);
  (15%nat, PR_lremovexattr); (16%nat, PR_fremovexattr); (17%nat, PR_getcwd);
  (18%nat, PR_lookup_dcookie); (19%nat, PR_eventfd2); (20%nat, PR_epoll_create1);
  (21%nat, PR_epoll_ctl); (22%nat, PR_epoll_pwait); (23%nat, PR_dup); (24%nat, PR_dup3);
  (25%nat, PR_fcntl); (26%nat, PR_inotify_init1); (27%nat, PR_inotify_add_watch);
  (28%nat, PR_inotify_rm_watch); (29%nat, PR_ioctl); (30%nat, PR_ioprio_set);
  (31%nat, PR_ioprio_get); (32%nat, PR_flock); (33%nat, PR_mknodat); (34%nat, PR_mkdirat);
  (35%nat, PR_unlinkat); (36%nat, PR_symlinkat); (37%nat, PR_linkat); (38%nat, PR_renameat);
  (39%nat, PR_umount2); (40%nat, PR_mount); (41%nat, PR_pivot_root); (42%nat, PR_nfsservctl);
  (43%nat, PR_statfs); (44%nat, PR_fstatfs); (45%nat, PR_truncate); (46%nat, PR_ftruncate);
  (47%nat, PR_fallocate); (48%nat, PR_faccessat); (49%nat, PR_chdir); (50%nat, PR_fchdir);
  (51%nat, PR_chroot); (52%nat, PR_fchmod); (53%nat, PR_fchmodat); (54%nat, PR_fchownat);
  (55%nat, PR_fchown); (56%nat, PR_openat); (57%nat, PR_close); (58%nat, PR_vhangup);
  (59%nat, PR_pipe2); (60%nat, PR_quotactl); (61%nat, PR_getdents64); (62%nat, PR_lseek);
  (63%nat, PR_read); (64%nat, PR_write); (65%nat, PR_readv); (66%nat, PR_writev);
  (67%nat, PR_pread64); (68%nat, PR_pwrite64); (69%nat, PR_preadv); (70%nat, PR_pwritev);
  (71%nat, PR_sendfile); (72%nat, PR_pselect6); (73%nat, PR_ppoll); (74%nat, PR_signalfd4);
  (75%nat, PR_vmsplice); (76%nat, PR_splice); (77%nat, PR_tee); (78%nat, PR_readlinkat);
  (79%nat, PR_fstatat64); (80%nat, PR_fstat); (81%nat, PR_sync); (82%nat, PR_fsync);
  (83%nat, PR_fdatasync); (84%nat, PR_sync_file_range); (85%nat, PR_timerfd_create);
  (86%nat, PR_timerfd_settime); (87%nat, PR_timerfd_gettime); (88%nat, PR_utimensat);
  (89%nat, PR_acct); (90%nat, PR_capget); (91%nat, PR_capset); (92%nat, PR_personality);
  (93%nat, PR_exit); (94%nat, PR_exit_group); (95%nat, PR_waitid);
  (96%nat, PR_set_tid_address); (97%nat, PR_unshare); (98%nat, PR_futex);
  (99%nat, PR_set_robust_list); (100%nat, PR_get_robust_list); (101%nat, PR_nanosleep);
  (102%nat, PR_getitimer); (103%nat, PR_setitimer); (104%nat, PR_kexec_load);
  (105%nat, PR_init_module); (106%nat, PR_delete_module); (107%nat, PR_timer_create);
  (108%nat, PR_timer_gettime); (109%nat, PR_timer_getoverrun); (110%nat, PR_timer_settime);
  (111%nat, PR_timer_delete); (112%nat, PR_clock_settime); (113%nat, PR_clock_gettime);
  (114%nat, PR_clock_getres); (115%nat, PR_clock_nanosleep); (116%nat, PR_syslog);
  (117%nat, PR_ptrace); (118%nat, PR_sched_setparam); (119%nat, PR_sched_setscheduler);
  (120%nat, PR_sched_getscheduler); (121%nat, PR_sched_getparam);
  (122%nat, PR_sched_setaffinity); (123%nat, PR_sched_getaffinity); (124%nat, PR_sched_yield);
  (125%nat, PR_sched_get_priority_max); (126%nat, PR_sched_get_priority_min);
  (127%nat, PR_sched_rr_get_interval); (128%nat, PR_restart_syscall); (129%nat, PR_kill);
  (130%nat, PR_tkill); (131%nat, PR_tgkill); (132%nat, PR_sigaltstack);
  (133%nat, PR_rt_sigsuspend); (134%nat, PR_rt_sigaction); (135%nat, PR_rt_sigprocmask);
  (136%nat, PR_rt_sigpending); (137%nat, PR_rt_sigtimedwait); (138%nat, PR_rt_sigqueueinfo);
  (139%nat, PR_rt_sigreturn)].

Definition arm64_entries_1 : list (nat * Sysnum) := [
  (140%nat, PR_setpriority); (141%nat, PR_getpriority); (142%nat, PR_reboot);
  (143%nat, PR_setregid); (144%nat, PR_setgid); (145%nat, PR_setreuid); (146%nat, PR_setuid);
  (147%nat, PR_setresuid); (148%nat, PR_getresuid); (149%nat, PR_setresgid);
  (150%nat, PR_getresgid); (151%nat, PR_setfsuid); (152%nat, PR_setfsgid); (153%nat, PR_times);
  (154%nat, PR_setpgid); (155%nat, PR_getpgid); (156%nat, PR_getsid); (157%nat, PR_setsid);
  (158%nat, PR_getgroups); (159%nat, PR_setgroups); (160%nat, PR_uname);
  (161%nat, PR_sethostname); (162%nat, PR_setdomainname); (163%nat, PR_getrlimit);
  (164%nat, PR_setrlimit); (165%nat, PR_getrusage); (166%nat, PR_umask); (167%nat, PR_prctl);
  (168%nat, PR_getcpu); (169%nat, PR_gettimeofday); (170%nat, PR_settimeofday);
  (171%nat, PR_adjtimex); (172%nat, PR_getpid); (173%nat, PR_getppid); (174%nat, PR_getuid);
  (175%nat, PR_geteuid); (176%nat, PR_getgid); (177%nat, PR_getegid); (178%nat, PR_gettid);
  (179%nat, PR_sysinfo); (180%nat, PR_mq_open); (181%nat, PR_mq_unlink);
  (182%nat, PR_mq_timedsend); (183%nat, PR_mq_timedreceive); (184%nat, PR_mq_notify);
  (185%nat, PR_mq_getsetattr); (186%nat, PR_msgget); (187%nat, PR_msgctl);
  (188%nat, PR_msgrcv); (189%nat, PR_msgsnd); (190%nat, PR_semget); (191%nat, PR_semctl);
  (192%nat, PR_semtimedop); (193%nat, PR_semop); (194%nat, PR_shmget); (195%nat, PR_shmctl);
  (196%nat, PR_shmat); (197%nat, PR_shmdt); (198%nat, PR_socket); (199%nat, PR_socketpair);
  (200%nat, PR_bind); (201%nat, PR_listen); (202%nat, PR_accept); (203%nat, PR_connect);
  (204%nat, PR_getsockname); (205%nat, PR_getpeername); (206%nat, PR_sendto);
  (207%nat, PR_recvfrom); (208%nat, PR_setsockopt); (209%nat, PR_getsockopt);
  (210%nat, PR_shutdown); (211%nat, PR_sendmsg); (212%nat, PR_recvmsg);
  (213%nat, PR_readahead); (214%nat, PR_brk); (215%nat, PR_munmap); (216%nat, PR_mremap);
  (217%nat, PR_add_key); (218%nat, PR_request_key); (219%nat, PR_keyctl); (220%nat, PR_clone);
  (221%nat, PR_execve); (222%nat, PR_mmap); (223%nat, PR_fadvise64); (224%nat, PR_swapon);
  (225%nat, PR_swapoff); (226%nat, PR_mprotect); (227%nat, PR_msync); (228%nat, PR_mlock);
  (229%nat, PR_munlock); (230%nat, PR_mlockall); (231%nat, PR_munlockall);
  (232%nat, PR_mincore); (233%nat, PR_madvise); (234%nat, PR_remap_file_pages);
  (235%nat, PR_mbind); (236%nat, PR_get_mempolicy); (237%nat, PR_set_mempolicy);
  (238%nat, PR_migrate_pages); (239%nat, PR_move_pages); (240%nat, PR_rt_tgsigqueueinfo);
  (241%nat, PR_perf_event_open); (242%nat, PR_accept4); (243%nat, PR_recvmmsg);
  (244%nat, PR_arch_specific_syscall); (260%nat, PR_wait4); (261%nat, PR_prlimit64);
  (262%nat, PR_fanotify_init); (263%nat, PR_fanotify_mark); (264%nat, PR_name_to_handle_at);
  (265%nat, PR_open_by_handle_at); (266%nat, PR_clock_adjtime); (267%nat, PR_syncfs);
  (268%nat, PR_setns); (269%nat, PR_sendmmsg); (270%nat, PR_process_vm_readv);
  (271%nat, PR_process_vm_writev); (272%nat, PR_kcmp); (273%nat, PR_finit_module);
  (274%nat, PR_sched_setattr); (275%nat, PR_sched_getattr); (276%nat, PR_renameat2);
  (277%nat, PR_seccomp); (278%nat, PR_getrandom); (279%nat, PR_memfd_create);
  (280%nat, PR_bpf); (281%nat, PR_execveat); (282%nat, PR_userfaultfd);
  (283%nat, PR_membarrier); (284%nat, PR_mlock2); (285%nat, PR_copy_file_range);
  (286%nat, PR_preadv2); (287%nat, PR_pwritev2); (288%nat, PR_pkey_mprotect);
  (289%nat, PR_pkey_alloc); (290%nat, PR_pkey_free); (291%nat, PR_statx);
  (428%nat, PR_open_tree); (429%nat, PR_move_mount); (430%nat, PR_fsopen)].

Definition arm64_entries_2 : list (nat * Sysnum) := [
  (431%nat, PR_fsconfig); (432%nat, PR_fsmount); (433%nat, PR_fspick);
  (434%nat, PR_pidfd_open); (435%nat, PR_clone3); (437%nat, PR_openat2);
  (439%nat, PR_faccessat2); (442%nat, PR_mount_setattr); (452%nat, PR_fchmodat2);
  (467%nat, PR_open_tree_attr)].

Definition arm64_entries : list (nat * Sysnum) :=
  arm64_entries_0 ++ arm64_entries_1 ++ arm64_entries_2.

Definition arm_entries_0 : list (nat * Sysnum) := [
  (0%nat, PR_restart_syscall); (1%nat, PR_exit); (2%nat, PR_fork); (3%nat, PR_read);
  (4%nat, PR_write); (5%nat, PR_open); (6%nat, PR_close); (8%nat, PR_creat); (9%nat, PR_link);
  (10%nat, PR_unlink); (11%nat, PR_execve); (12%nat, PR_chdir); (14%nat, PR_mknod);
  (15%nat, PR_chmod); (16%nat, PR_lchown); (19%nat, PR_lseek); (20%nat, PR_getpid);
  (21%nat, PR_mount); (23%nat, PR_setuid); (24%nat, PR_getuid); (26%nat, PR_ptrace);
  (29%nat, PR_pause); (30%nat, PR_utime); (33%nat, PR_access); (34%nat, PR_nice);
  (36%nat, PR_sync); (37%nat, PR_kill); (38%nat, PR_rename); (39%nat, PR_mkdir);
  (40%nat, PR_rmdir); (41%nat, PR_dup); (42%nat, PR_pipe); (43%nat, PR_times);
  (45%nat, PR_brk); (46%nat, PR_setgid); (47%nat, PR_getgid); (49%nat, PR_geteuid);
  (50%nat, PR_getegid); (51%nat, PR_acct); (52%nat, PR_umount2); (54%nat, PR_ioctl);
  (55%nat, PR_fcntl); (57%nat, PR_setpgid); (60%nat, PR_umask); (61%nat, PR_chroot);
  (62%nat, PR_ustat); (63%nat, PR_dup2); (64%nat, PR_getppid); (65%nat, PR_getpgrp);
  (66%nat, PR_setsid); (67%nat, PR_sigaction); (70%nat, PR_setreuid); (71%nat, PR_setregid);
  (72%nat, PR_sigsuspend); (73%nat, PR_sigpending); (74%nat, PR_sethostname);
  (75%nat, PR_setrlimit); (77%nat, PR_getrusage); (78%nat, PR_gettimeofday);
  (79%nat, PR_settimeofday); (80%nat, PR_getgroups); (81%nat, PR_setgroups);
  (83%nat, PR_symlink); (85%nat, PR_readlink); (86%nat, PR_uselib); (87%nat, PR_swapon);
  (88%nat, PR_reboot); (91%nat, PR_munmap); (92%nat, PR_truncate); (93%nat, PR_ftruncate);
  (94%nat, PR_fchmod); (95%nat, PR_fchown); (96%nat, PR_getpriority); (97%nat, PR_setpriority);
  (99%nat, PR_statfs); (100%nat, PR_fstatfs); (103%nat, PR_syslog); (104%nat, PR_setitimer);
  (105%nat, PR_getitimer); (106%nat, PR_stat); (107%nat, PR_lstat); (108%nat, PR_fstat);
  (111%nat, PR_vhangup); (114%nat, PR_wait4); (115%nat, PR_swapoff); (116%nat, PR_sysinfo);
  (118%nat, PR_fsync); (119%nat, PR_sigreturn); (120%nat, PR_clone);
  (121%nat, PR_setdomainname); (122%nat, PR_uname); (124%nat, PR_adjtimex);
  (125%nat, PR_mprotect); (126%nat, PR_sigprocmask); (128%nat, PR_init_module);
  (129%nat, PR_delete_module); (131%nat, PR_quotactl); (132%nat, PR_getpgid);
  (133%nat, PR_fchdir); (134%nat, PR_bdflush); (135%nat, PR_sysfs); (136%nat, PR_personality);
  (138%nat, PR_setfsuid); (139%nat, PR_setfsgid); (140%nat, PR__llseek);
  (141%nat, PR_getdents); (142%nat, PR__newselect); (143%nat, PR_flock); (144%nat, PR_msync);
  (145%nat, PR_readv); (146%nat, PR_writev); (147%nat, PR_getsid); (148%nat, PR_fdatasync);
  (149%nat, PR__sysctl); (150%nat, PR_mlock); (151%nat, PR_munlock); (152%nat, PR_mlockall);
  (153%nat, PR_munlockall); (154%nat, PR_sched_setparam); (155%nat, PR_sched_getparam);
  (156%nat, PR_sched_setscheduler); (157%nat, PR_sched_getscheduler);
  (158%nat, PR_sched_yield); (159%nat, PR_sched_get_priority_max);
  (160%nat, PR_sched_get_priority_min); (161%nat, PR_sched_rr_get_interval);
  (162%nat, PR_nanosleep); (163%nat, PR_mremap); (164%nat, PR_setresuid);
  (165%nat, PR_getresuid); (168%nat, PR_poll); (169%nat, PR_nfsservctl);
  (170%nat, PR_setresgid); (171%nat, PR_getresgid); (172%nat, PR_prctl);
  (173%nat, PR_rt_sigreturn); (174%nat, PR_rt_sigaction); (175%nat, PR_rt_sigprocmask);
  (176%nat, PR_rt_sigpending); (177%nat, PR_rt_sigtimedwait)].

Definition arm_entries_1 : list (nat * Sysnum) := [
  (178%nat, PR_rt_sigqueueinfo); (179%nat, PR_rt_sigsuspend); (180%nat, PR_pread64);
  (181%nat, PR_pwrite64); (182%nat, PR_chown); (183%nat, PR_getcwd); (184%nat, PR_capget);
  (185%nat, PR_capset); (186%nat, PR_sigaltstack); (187%nat, PR_sendfile); (190%nat, PR_vfork);
  (191%nat, PR_ugetrlimit); (192%nat, PR_mmap2); (193%nat, PR_truncate64);
  (194%nat, PR_ftruncate64); (195%nat, PR_stat64); (196%nat, PR_lstat64);
  (197%nat, PR_fstat64); (198%nat, PR_lchown32); (199%nat, PR_getuid32);
  (200%nat, PR_getgid32); (201%nat, PR_geteuid32); (202%nat, PR_getegid32);
  (203%nat, PR_setreuid32); (204%nat, PR_setregid32); (205%nat, PR_getgroups32);
  (206%nat, PR_setgroups32); (207%nat, PR_fchown32); (208%nat, PR_setresuid32);
  (209%nat, PR_getresuid32); (210%nat, PR_setresgid32); (211%nat, PR_getresgid32);
  (212%nat, PR_chown32); (213%nat, PR_setuid32); (214%nat, PR_setgid32);
  (215%nat, PR_setfsuid32); (216%nat, PR_setfsgid32); (217%nat, PR_getdents64);
  (218%nat, PR_pivot_root); (219%nat, PR_mincore); (220%nat, PR_madvise);
  (221%nat, PR_fcntl64); (222%nat, PR_void); (224%nat, PR_gettid); (225%nat, PR_readahead);
  (226%nat, PR_setxattr); (227%nat, PR_lsetxattr); (228%nat, PR_fsetxattr);
  (229%nat, PR_getxattr); (230%nat, PR_lgetxattr); (231%nat, PR_fgetxattr);
  (232%nat, PR_listxattr); (233%nat, PR_llistxattr); (234%nat, PR_flistxattr);
  (235%nat, PR_removexattr); (236%nat, PR_lremovexattr); (237%nat, PR_fremovexattr);
  (238%nat, PR_tkill); (239%nat, PR_sendfile64); (240%nat, PR_futex);
  (241%nat, PR_sched_setaffinity); (242%nat, PR_sched_getaffinity); (243%nat, PR_io_setup);
  (244%nat, PR_io_destroy); (245%nat, PR_io_getevents); (246%nat, PR_io_submit);
  (247%nat, PR_io_cancel); (248%nat, PR_exit_group); (249%nat, PR_lookup_dcookie);
  (250%nat, PR_epoll_create); (251%nat, PR_epoll_ctl); (252%nat, PR_epoll_wait);
  (253%nat, PR_remap_file_pages); (256%nat, PR_set_tid_address); (257%nat, PR_timer_create);
  (258%nat, PR_timer_settime); (259%nat, PR_timer_gettime); (260%nat, PR_timer_getoverrun);
  (261%nat, PR_timer_delete); (262%nat, PR_clock_settime); (263%nat, PR_clock_gettime);
  (264%nat, PR_clock_getres); (265%nat, PR_clock_nanosleep); (266%nat, PR_statfs64);
  (267%nat, PR_fstatfs64); (268%nat, PR_tgkill); (269%nat, PR_utimes);
  (270%nat, PR_arm_fadvise64_64); (271%nat, PR_pciconfig_iobase); (272%nat, PR_pciconfig_read);
  (273%nat, PR_pciconfig_write); (274%nat, PR_mq_open); (275%nat, PR_mq_unlink);
  (276%nat, PR_mq_timedsend); (277%nat, PR_mq_timedreceive); (278%nat, PR_mq_notify);
  (279%nat, PR_mq_getsetattr); (280%nat, PR_waitid); (281%nat, PR_socket); (282%nat, PR_bind);
  (283%nat, PR_connect); (284%nat, PR_listen); (285%nat, PR_accept); (286%nat, PR_getsockname);
  (287%nat, PR_getpeername); (288%nat, PR_socketpair); (289%nat, PR_send);
  (290%nat, PR_sendto); (291%nat, PR_recv); (292%nat, PR_recvfrom); (293%nat, PR_shutdown);
  (294%nat, PR_setsockopt); (295%nat, PR_getsockopt); (296%nat, PR_sendmsg);
  (297%nat, PR_recvmsg); (298%nat, PR_semop); (299%nat, PR_semget); (300%nat, PR_semctl);
  (301%nat, PR_msgsnd); (302%nat, PR_msgrcv); (303%nat, PR_msgget); (304%nat, PR_msgctl);
  (305%nat, PR_shmat); (306%nat, PR_shmdt); (307%nat, PR_shmget); (308%nat, PR_shmctl);
  (309%nat, PR_add_key); (310%nat, PR_request_key); (311%nat, PR_keyctl);
  (312%nat, PR_semtimedop); (313%nat, PR_vserver); (314%nat, PR_ioprio_set);
  (315%nat, PR_ioprio_get); (316%nat, PR_inotify_init); (317%nat, PR_inotify_add_watch);
  (318%nat, PR_inotify_rm_watch); (319%nat, PR_mbind); (320%nat, PR_get_mempolicy);
  (321%nat, PR_set_mempolicy); (322%nat, PR_openat)].

Definition arm_entries_2 : list (nat * Sysnum) := [
  (323%nat, PR_mkdirat); (324%nat, PR_mknodat); (325%nat, PR_fchownat);
  (326%nat, PR_futimesat); (327%nat, PR_fstatat64); (328%nat, PR_unlinkat);
  (329%nat, PR_renameat); (330%nat, PR_linkat); (331%nat, PR_symlinkat);
  (332%nat, PR_readlinkat); (333%nat, PR_fchmodat); (334%nat, PR_faccessat);
  (335%nat, PR_pselect6); (336%nat, PR_ppoll); (337%nat, PR_unshare);
  (338%nat, PR_set_robust_list); (339%nat, PR_get_robust_list); (340%nat, PR_splice);
  (341%nat, PR_arm_sync_file_range); (342%nat, PR_tee); (343%nat, PR_vmsplice);
  (344%nat, PR_move_pages); (345%nat, PR_getcpu); (346%nat, PR_epoll_pwait);
  (347%nat, PR_kexec_load); (348%nat, PR_utimensat); (349%nat, PR_signalfd);
  (350%nat, PR_timerfd_create); (351%nat, PR_eventfd); (352%nat, PR_fallocate);
  (353%nat, PR_timerfd_settime); (354%nat, PR_timerfd_gettime); (355%nat, PR_signalfd4);
  (356%nat, PR_eventfd2); (357%nat, PR_epoll_create1); (358%nat, PR_dup3); (359%nat, PR_pipe2);
  (360%nat, PR_inotify_init1); (361%nat, PR_preadv); (362%nat, PR_pwritev);
  (363%nat, PR_rt_tgsigqueueinfo); (364%nat, PR_perf_event_open); (365%nat, PR_recvmmsg);
  (366%nat, PR_accept4); (367%nat, PR_fanotify_init); (368%nat, PR_fanotify_mark);
  (369%nat, PR_prlimit64); (370%nat, PR_name_to_handle_at); (371%nat, PR_open_by_handle_at);
  (372%nat, PR_clock_adjtime); (373%nat, PR_syncfs); (374%nat, PR_sendmmsg);
  (375%nat, PR_setns); (376%nat, PR_process_vm_readv); (377%nat, PR_process_vm_writev);
  (378%nat, PR_kcmp); (379%nat, PR_finit_module); (380%nat, PR_sched_setattr);
  (381%nat, PR_sched_getattr); (382%nat, PR_renameat2); (383%nat, PR_seccomp);
  (384%nat, PR_getrandom); (385%nat, PR_memfd_create); (386%nat, PR_bpf);
  (387%nat, PR_execveat); (388%nat, PR_userfaultfd); (389%nat, PR_membarrier);
  (390%nat, PR_mlock2); (391%nat, PR_copy_file_range); (392%nat, PR_preadv2);
  (393%nat, PR_pwritev2); (394%nat, PR_pkey_mprotect); (395%nat, PR_pkey_alloc);
  (396%nat, PR_pkey_free); (397%nat, PR_statx); (428%nat, PR_open_tree);
  (429%nat, PR_move_mount); (430%nat, PR_fsopen); (431%nat, PR_fsconfig);
  (432%nat, PR_fsmount); (433%nat, PR_fspick); (439%nat, PR_faccessat2); (435%nat, PR_clone3);
  (437%nat, PR_openat2); (442%nat, PR_mount_setattr); (452%nat, PR_fchmodat2);
  (467%nat, PR_open_tree_attr)].

Definition arm_entries : list (nat * Sysnum) :=
  arm_entries_0 ++ arm_entries_1 ++ arm_entries_2.

(** A designated initializer: the entries that are not named are 0, PR_void. *)
Definition table_length (entries : list (nat * Sysnum)) : nat :=
  foldr (fun '(i, _) n => Nat.max (S i) n) 0%nat entries.

Definition table_of (entries : list (nat * Sysnum)) : list Sysnum :=
  foldr (fun '(i, s) t => <[i := s]> t) (replicate (table_length entries) PR_void) entries.

Definition sysnums_arm64 : list Sysnum := Eval vm_compute in table_of arm64_entries.
Definition sysnums_arm : list Sysnum := Eval vm_compute in table_of arm_entries.

(** ** ABIs (src/tracee/abi.h, src/arch.h) *)

Inductive Abi := ABI_DEFAULT | ABI_2 | ABI_3.

#[export] Instance Abi_eq_dec : EqDecision Abi.
Proof. solve_decision. Defined.

(** The "void" system call: [(word_t) -1]. *)
Definition SYSCALL_AVOIDER := 2 ^ 64 - 1.

Record Sysnums := mkSysnums { table : list Sysnum; table_offset : Z; table_count : Z }.

(** ** Operations *)

Definition get_sysnums (abi : Abi) : res Sysnums :=
  match abi with
  | ABI_DEFAULT => Ok (mkSysnums sysnums_arm64 0 (zlen sysnums_arm64))
  | ABI_2 => Ok (mkSysnums sysnums_arm 0 (zlen sysnums_arm))
  | ABI_3 => Stuck AssertFailed
  end.

(** The access [sysnums.table[index]]. *)
Definition table_get (t : list Sysnum) (index : Z) : res Sysnum :=
  match t !! Z.to_nat index with Some s => Ok s | None => Stuck OutOfBounds end.

Definition translate_sysnum (abi : Abi) (sysnum : Z) : res Sysnum :=
  let! sysnums := get_sysnums abi in
  if sysnum <? table_offset sysnums then Ok PR_void
  else
    let index := sysnum - table_offset sysnums in
    if table_count sysnums <? index then Ok PR_void
    else table_get (table sysnums) index.

(** The search of detranslate_sysnum(). *)
Fixpoint find_sysnum (t : list Sysnum) (sysnum : Sysnum) (i : Z) : option Z :=
  match t with
  | [] => None
  | s :: t => if negb (s =? sysnum) then find_sysnum t sysnum (i + 1) else Some i
  end.

Definition detranslate_sysnum (abi : Abi) (sysnum : Sysnum) : res Z :=
  if sysnum =? PR_void then Ok SYSCALL_AVOIDER
  else
    let! sysnums := get_sysnums abi in
    match find_sysnum (table sysnums) sysnum 0 with
    | Some i => Ok (i + table_offset sysnums)
    | None => Ok SYSCALL_AVOIDER
    end.

(** ** Lemmas *)

Lemma find_sysnum_some t s i j :
  find_sysnum t s i = Some j -> i <= j < i + zlen t /\ t !! Z.to_nat (j - i) = Some s.
Proof.
  revert i. induction t as [|x t IH]; intros i; [done|]. cbn [find_sysnum]. rewrite zlen_cons.
  destruct (x =? s) eqn:E; cbn [negb].
  - apply Z.eqb_eq in E as ->. intros [= <-]. rewrite Z.sub_diag. pose proof (zlen_nonneg t).
    split; [lia | done].
  - intros H. apply IH in H as [H1 H2]. split; [lia|].
    replace (Z.to_nat (j - i)) with (S (Z.to_nat (j - (i + 1)))) by lia. done.
Qed.

Lemma find_sysnum_none t s i : find_sysnum t s i = None <-> s ∉ t.
Proof.
  revert i. induction t as [|x t IH]; intros i; cbn [find_sysnum]; [set_solver|].
  destruct (x =? s) eqn:E; cbn [negb].
  - apply Z.eqb_eq in E as ->. split; [done | set_solver].
  - apply Z.eqb_neq in E. rewrite IH. set_solver.
Qed.

Lemma find_sysnum_first t s i j :
  find_sysnum t s i = Some j -> forall n, (n < Z.to_nat (j - i))%nat -> t !! n <> Some s.
Proof.
  revert i. induction t as [|x t IH]; intros i; [done|]. cbn [find_sysnum].
  destruct (x =? s) eqn:E; cbn [negb]; [intros [= <-] n; lia|].
  intros H n Hn. apply Z.eqb_neq in E. pose proof (find_sysnum_some _ _ _ _ H) as [Hj _].
  destruct n as [|n]; [simpl; congruence|]. apply (IH (i + 1) H n). lia.
Qed.

Lemma get_sysnums_ok abi :
  abi <> ABI_3 -> exists t, get_sysnums abi = Ok (mkSysnums t 0 (zlen t))
    /\ (abi = ABI_DEFAULT /\ t = sysnums_arm64 \/ abi = ABI_2 /\ t = sysnums_arm).
Proof. destruct abi; intros H; [..|done]; eauto. Qed.

(** The number of a system call, for the ABIs of the architecture. *)
Definition sysnum_table (abi : Abi) : list Sysnum :=
  match abi with ABI_DEFAULT => sysnums_arm64 | ABI_2 => sysnums_arm | ABI_3 => [] end.

Lemma get_sysnums_table abi :
  abi <> ABI_3 -> get_sysnums abi = Ok (mkSysnums (sysnum_table abi) 0 (zlen (sysnum_table abi))).
Proof. by destruct abi. Qed.

(** No system call has two numbers in a table. *)
Definition uniqueb (t : list Sysnum) : bool :=
  bool_decide (NoDup (filter (fun s => s <> PR_void) t)).

Lemma unique_index (t : list Sysnum) s i j :
  uniqueb t = true -> s <> PR_void -> t !! i = Some s -> t !! j = Some s -> i = j.
Proof.
  intros Hu%bool_decide_eq_true Hs. revert i j.
  induction t as [|x t IH]; intros [|i] [|j] Hi Hj; simpl in *; simplify_eq; try done.
  - exfalso. rewrite filter_cons_True in Hu by done. inversion Hu as [|? ? Hn]; subst.
    apply Hn, list_elem_of_filter. split; [done | by eapply list_elem_of_lookup_2].
  - exfalso. rewrite filter_cons_True in Hu by done. inversion Hu as [|? ? Hn]; subst.
    apply Hn, list_elem_of_filter. split; [done | by eapply list_elem_of_lookup_2].
  - f_equal. apply IH; auto. rewrite filter_cons in Hu. case_decide; [by inversion Hu | done].
Qed.

Lemma tables_unique abi : uniqueb (sysnum_table abi) = true.
Proof. destruct abi; by vm_compute. Qed.

(** The number written for a system call: its index in the table. *)
Lemma detranslate_cases abi s :
  abi <> ABI_3 -> s <> PR_void ->
  (exists n, detranslate_sysnum abi s = Ok n /\ 0 <= n < zlen (sysnum_table abi)
     /\ sysnum_table abi !! Z.to_nat n = Some s)
  \/ (detranslate_sysnum abi s = Ok SYSCALL_AVOIDER /\ s ∉ sysnum_table abi).
Proof.
  intros Habi Hs. unfold detranslate_sysnum. rewrite (proj2 (Z.eqb_neq _ _) Hs), get_sysnums_table by done.
  cbn [res_bind table table_offset]. destruct (find_sysnum _ _ _) as [i|] eqn:E; [left | right].
  - apply find_sysnum_some in E as [Hi E]. rewrite Z.sub_0_r in E. exists i. rewrite Z.add_0_r.
    split; [done|]. split; [lia | done].
  - by apply find_sysnum_none in E.
Qed.

Lemma table_small abi : zlen (sysnum_table abi) <= 512.
Proof. destruct abi; by vm_compute. Qed.

(** ** Properties *)

(** the translations of system call numbers are inverse of one another: a
    neutral number is written as a number that reads back as itself, or as the
    "void" call when the ABI does not have it, and a number of the ABI that has
    a meaning is the only one written for it. *)
Theorem sysnum_roundtrip abi :
  abi <> ABI_3 ->
  (forall s, s <> PR_void -> exists n, detranslate_sysnum abi s = Ok n /\
     if bool_decide (s ∈ sysnum_table abi)
     then translate_sysnum abi n = Ok s
     else n = SYSCALL_AVOIDER /\ translate_sysnum abi n = Ok PR_void)
  /\ (forall n s, 0 <= n -> translate_sysnum abi n = Ok s -> s <> PR_void ->
     detranslate_sysnum abi s = Ok n).
Proof.
  intros Habi. unfold detranslate_sysnum, translate_sysnum.
  rewrite (get_sysnums_table abi Habi). cbn [res_bind table_offset table_count table].
  set (t := sysnum_table abi). pose proof (tables_unique abi) as Hu. fold t in Hu.
  assert (Hsmall : zlen t < SYSCALL_AVOIDER) by (by destruct abi; vm_compute).
  assert (Hread : forall n, 0 <= n ->
    (if n <? 0 then Ok PR_void else
     if zlen t <? n - 0 then Ok PR_void else table_get t (n - 0))
    = if zlen t <? n then Ok PR_void else table_get t n).
  { intros n Hn. rewrite (proj2 (Z.ltb_ge _ _)) by lia. by rewrite Z.sub_0_r. }
  split.
  - intros s Hs. rewrite (proj2 (Z.eqb_neq _ _) Hs).
    destruct (find_sysnum t s 0) as [i|] eqn:E.
    + apply find_sysnum_some in E as [Hi E]. rewrite Z.sub_0_r in E. exists (i + 0). split; [done|].
      rewrite bool_decide_eq_true_2 by (by eapply list_elem_of_lookup_2).
      rewrite Z.add_0_r, Hread, (proj2 (Z.ltb_ge _ _)) by lia. unfold table_get. by rewrite E.
    + apply find_sysnum_none in E. exists SYSCALL_AVOIDER. split; [done|].
      rewrite bool_decide_eq_false_2 by done. split; [done|].
      by rewrite Hread, (proj2 (Z.ltb_lt _ _)) by (by unfold SYSCALL_AVOIDER).
  - intros n s Hn. rewrite Hread by done. intros E Hs. case_bool_in E; [by injection E|]. bool_facts.
    unfold table_get in E. destruct (t !! Z.to_nat n) as [s'|] eqn:Et; [|done]. injection E as ->.
    rewrite (proj2 (Z.eqb_neq _ _) Hs). destruct (find_sysnum t s 0) as [i|] eqn:Ef.
    + apply find_sysnum_some in Ef as [Hi Ef]. rewrite Z.sub_0_r in Ef.
      pose proof (unique_index t s _ _ Hu Hs Et Ef). f_equal. lia.
    + apply find_sysnum_none in Ef. destruct Ef. by eapply list_elem_of_lookup_2.
Qed.

Lemma sysnum_roundtrip_witness :
  detranslate_sysnum ABI_DEFAULT PR_openat = Ok 56 /\ translate_sysnum ABI_DEFAULT 56 = Ok PR_openat.
Proof.
  destruct (sysnum_roundtrip ABI_DEFAULT ltac:(done)) as [H1 H2].
  destruct (H1 PR_openat ltac:(done)) as (n & E & H). rewrite bool_decide_eq_true_2 in H
    by (by apply (bool_decide_unpack _); vm_compute).
  assert (n = 56) as -> by (vm_compute in E; congruence). done.
Defined.

(** translate_sysnum() tests [index > length] where it means [index >=
    length]: the first number after the end of a table is read out of bounds;
    every other number is safe. *)
Theorem translate_sysnum_overrun abi n :
  abi <> ABI_3 -> 0 <= n ->
  if n =? zlen (sysnum_table abi) then translate_sysnum abi n = Stuck OutOfBounds
  else exists s, translate_sysnum abi n = Ok s.
Proof.
  intros Habi Hn. unfold translate_sysnum. rewrite (get_sysnums_table abi Habi).
  cbn [res_bind table_offset table_count table]. set (t := sysnum_table abi).
  rewrite (proj2 (Z.ltb_ge n 0)), Z.sub_0_r by lia. case_bool; bool_facts; unfold table_get.
  - rewrite (proj2 (Z.ltb_ge _ _)) by lia. rewrite lookup_ge_None_2; [done|]. unfold zlen in *. lia.
  - case_bool; [by eexists|]. bool_facts.
    destruct (lookup_lt_is_Some_2 t (Z.to_nat n)) as [s ->]; [unfold zlen in *; lia | by eexists].
Qed.

Lemma translate_sysnum_overrun_witness : translate_sysnum ABI_DEFAULT 468 = Stuck OutOfBounds.
Proof. apply (translate_sysnum_overrun ABI_DEFAULT 468 ltac:(done) ltac:(lia)). Defined.
