(* ===== verification/Regs.v ===== *)
(** * Register banks (src/tracee/reg.c, src/tracee/abi.h)

    The cached registers of an AArch64 tracee, which may be a 32-bit ARM
    process: the banks are stored as 32-bit words, since the 32-bit layout
    packs its registers four bytes apart in the same memory. *)

From S2P Require Import Prelude Sysnum.

(** ** Data *)

Inductive Reg :=
  | SYSARG_NUM | SYSARG_1 | SYSARG_2 | SYSARG_3 | SYSARG_4 | SYSARG_5 | SYSARG_6
  | SYSARG_RESULT | STACK_POINTER | INSTR_POINTER | RTLD_FINI | STATE_FLAGS | USERARG_1.

#[export] Instance Reg_eq_dec : EqDecision Reg.
Proof. solve_decision. Defined.

Inductive RegVersion := CURRENT | ORIGINAL | MODIFIED | ORIGINAL_SECCOMP_REWRITE.

#[export] Instance RegVersion_eq_dec : EqDecision RegVersion.
Proof. solve_decision. Defined.

(** struct user_regs_struct: 31 registers, sp, pc and pstate, as 32-bit words. *)
Abbreviation Bank := (list Z).
Definition BANK_WORDS : nat := 68.

Record Regs := mkRegs {
  banks : RegVersion -> Bank;
  is_aarch32 : bool;
  regs_were_changed : bool;
  restore_original_regs : bool;
  restore_original_regs_after_seccomp_event : bool;
  syscall_change_unsupported : bool
}.

(** The offsets, in 32-bit words; the registers a table does not name are at 0. *)
Definition reg_offset (reg : Reg) : nat :=
  match reg with
  | SYSARG_NUM => 16
  | SYSARG_1 => 0
  | SYSARG_2 => 2
  | SYSARG_3 => 4
  | SYSARG_4 => 6
  | SYSARG_5 => 8
  | SYSARG_6 => 10
  | SYSARG_RESULT => 0
  | STACK_POINTER => 62
  | INSTR_POINTER => 64
  | RTLD_FINI => 0
  | STATE_FLAGS => 0
  | USERARG_1 => 0
  end.

Definition reg_offset_armeabi (reg : Reg) : nat :=
  match reg with
  | SYSARG_NUM => 7
  | SYSARG_1 => 0
  | SYSARG_2 => 1
  | SYSARG_3 => 2
  | SYSARG_4 => 3
  | SYSARG_5 => 4
  | SYSARG_6 => 5
  | SYSARG_RESULT => 0
  | STACK_POINTER => 13
  | INSTR_POINTER => 15
  | RTLD_FINI => 0
  | STATE_FLAGS => 0
  | USERARG_1 => 0
  end.

(** ** Operations *)

(** A [word_t] at an offset of a bank. *)
Definition load (b : Bank) (o : nat) : Z := chr b o + 2 ^ 32 * chr b (S o).
Definition store32 (b : Bank) (o : nat) (v : Z) : Bank := <[o := wrap32 v]> b.
Definition store (b : Bank) (o : nat) (v : Z) : Bank :=
  <[S o := wrap32 (Z.shiftr v 32)]> (<[o := wrap32 v]> b).

(** The offset of the REG macro. *)
Definition slot (t : Regs) (reg : Reg) : nat :=
  if is_aarch32 t then reg_offset_armeabi reg else reg_offset reg.

Definition REG (t : Regs) (version : RegVersion) (reg : Reg) : Z :=
  load (banks t version) (slot t reg).

Definition set_bank (t : Regs) (version : RegVersion) (b : Bank) : Regs :=
  mkRegs (fun v => if decide (v = version) then b else banks t v)
    (is_aarch32 t) (regs_were_changed t) (restore_original_regs t)
    (restore_original_regs_after_seccomp_event t) (syscall_change_unsupported t).

Definition set_changed (t : Regs) (c : bool) : Regs :=
  mkRegs (banks t) (is_aarch32 t) c (restore_original_regs t)
    (restore_original_regs_after_seccomp_event t) (syscall_change_unsupported t).

Definition set_restore (t : Regs) (c : bool) : Regs :=
  mkRegs (banks t) (is_aarch32 t) (regs_were_changed t) c
    (restore_original_regs_after_seccomp_event t) (syscall_change_unsupported t).

Definition is_32on64_mode (t : Regs) : bool := is_aarch32 t.
Definition get_abi (t : Regs) : Abi := if is_aarch32 t then ABI_2 else ABI_DEFAULT.

Definition peek_reg (t : Regs) (version : RegVersion) (reg : Reg) : Z :=
  let result := REG t version reg in
  if is_32on64_mode t then Z.land result 0xFFFFFFFF else result.

Definition poke_reg (t : Regs) (reg : Reg) (value : Z) : Regs :=
  if peek_reg t CURRENT reg =? value then t
  else
    let b := banks t CURRENT in
    let b := if is_32on64_mode t then store32 b (slot t reg) value
             else store b (slot t reg) value in
    set_changed (set_bank t CURRENT b) true.

Definition save_current_regs (t : Regs) (version : RegVersion) : Regs :=
  let t := if decide (version = ORIGINAL) then set_changed t false else t in
  set_bank t version (banks t CURRENT).

(** sysnum.c *)
Definition get_sysnum (t : Regs) (version : RegVersion) : res Sysnum :=
  translate_sysnum (get_abi t) (peek_reg t version SYSARG_NUM).

Definition set_sysnum (t : Regs) (sysnum : Sysnum) : res Regs :=
  let! n := detranslate_sysnum (get_abi t) sysnum in
  Ok (poke_reg t SYSARG_NUM n).

(** The RESTORE macro: the comparison is made on the 64-bit offsets. *)
Definition RESTORE (restore_from : RegVersion) (sysarg : Reg) (t : Regs) : Regs :=
  if (reg_offset SYSARG_RESULT =? reg_offset sysarg)%nat then t
  else set_bank t CURRENT (store (banks t CURRENT) (slot t sysarg) (REG t restore_from sysarg)).

Definition restored_regs : list Reg :=
  [SYSARG_NUM; SYSARG_1; SYSARG_2; SYSARG_3; SYSARG_4; SYSARG_5; SYSARG_6; STACK_POINTER].

Definition restore_all (restore_from : RegVersion) (t : Regs) : Regs :=
  fold_left (fun t reg => RESTORE restore_from reg t) restored_regs t.

(** The two requests push_specific_regs() makes. *)
Inductive PtraceRequest :=
  | SET_SYSTEM_CALL (sysnum : Z)
  | SET_PRSTATUS (regs : Bank).

Definition clear_seccomp_event (t : Regs) : Regs :=
  mkRegs (banks t) (is_aarch32 t) (regs_were_changed t) (restore_original_regs t) false
    (syscall_change_unsupported t).
Definition set_unsupported (t : Regs) : Regs :=
  mkRegs (banks t) (is_aarch32 t) (regs_were_changed t) (restore_original_regs t)
    (restore_original_regs_after_seccomp_event t) true.

(** push_specific_regs(): the requests made, in order, the new state and the
    status.  [ptrace] answers a request: [None] for success. *)
Definition push_specific_regs (ptrace : PtraceRequest -> option Z) (t : Regs)
    (including_sysnum : bool) : list PtraceRequest * Regs * res unit :=
  if regs_were_changed t
     || (restore_original_regs t && restore_original_regs_after_seccomp_event t)
  then
    let t := if restore_original_regs t
             then if restore_original_regs_after_seccomp_event t
                  then restore_all ORIGINAL_SECCOMP_REWRITE (clear_seccomp_event t)
                  else restore_all ORIGINAL t
             else t in
    let current_sysnum := REG t CURRENT SYSARG_NUM in
    let '(log, t) :=
      if including_sysnum && negb (current_sysnum =? REG t ORIGINAL SYSARG_NUM)
      then match ptrace (SET_SYSTEM_CALL current_sysnum) with
           | None => ([SET_SYSTEM_CALL current_sysnum], t)
           | Some _ => ([SET_SYSTEM_CALL current_sysnum], set_unsupported t)
           end
      else ([], t) in
    let request := SET_PRSTATUS (banks t CURRENT) in
    (log ++ [request], t,
     match ptrace request with None => Ok () | Some e => Err e end)
  else ([], t, Ok ()).

Definition push_regs (ptrace : PtraceRequest -> option Z) (t : Regs)
  : list PtraceRequest * Regs * res unit := push_specific_regs ptrace t true.

(** The size of the trap instruction; bit 5 of the byte at 0x40 is the Thumb bit
    of the 32-bit status register. *)
Definition get_systrap_size (t : Regs) : Z :=
  if is_aarch32 t && negb (Z.land (chr (banks t CURRENT) 16) 0x20 =? 0) then 2 else 4.

(** ** Lemmas *)

Definition bank_ok (b : Bank) : Prop :=
  length b = BANK_WORDS /\ Forall (fun w => 0 <= w < 2 ^ 32) b.

Definition regs_ok (t : Regs) : Prop := forall version, bank_ok (banks t version).

(** Registers that share their storage. *)
Definition same_slot (r r' : Reg) : bool := (reg_offset r =? reg_offset r')%nat.

Lemma same_slot_armeabi r r' :
  (reg_offset_armeabi r =? reg_offset_armeabi r')%nat = same_slot r r'.
Proof. by destruct r, r'. Qed.

Lemma slot_bound t r : (S (slot t r) < BANK_WORDS)%nat.
Proof. unfold slot, BANK_WORDS. destruct (is_aarch32 t), r; simpl; lia. Qed.

Lemma chr_insert_eq b o v : (o < length b)%nat -> chr (<[o := v]> b) o = v.
Proof. intros H. unfold chr. apply nth_lookup_Some. by apply list_lookup_insert_eq. Qed.

Lemma chr_insert_ne b o o' v : o <> o' -> chr (<[o := v]> b) o' = chr b o'.
Proof. intros H. unfold chr. rewrite !nth_lookup. by rewrite list_lookup_insert_ne. Qed.

Lemma chr_range b o : bank_ok b -> 0 <= chr b o < 2 ^ 32.
Proof.
  intros [_ H]. unfold chr. destruct (decide (o < length b)%nat).
  - rewrite List.Forall_forall in H. apply H, nth_In. done.
  - rewrite nth_overflow by lia. lia.
Qed.

Lemma wrap32_range v : 0 <= wrap32 v < 2 ^ 32.
Proof. unfold wrap32, wrap. apply Z.mod_pos_bound. lia. Qed.

Lemma insert_bank_ok b o v : bank_ok b -> 0 <= v < 2 ^ 32 -> bank_ok (<[o := v]> b).
Proof. intros [H1 H2] Hv. split; [by rewrite length_insert | by apply Forall_insert]. Qed.

Lemma store_bank_ok b o v : bank_ok b -> bank_ok (store b o v).
Proof. intros H. unfold store. auto using insert_bank_ok, wrap32_range. Qed.

Lemma store32_bank_ok b o v : bank_ok b -> bank_ok (store32 b o v).
Proof. intros H. unfold store32. auto using insert_bank_ok, wrap32_range. Qed.

Lemma wrap64_split v : wrap32 v + 2 ^ 32 * wrap32 (Z.shiftr v 32) = wrap64 v.
Proof.
  unfold wrap32, wrap64, wrap. rewrite Z.shiftr_div_pow2 by lia.
  change (2 ^ 64) with (2 ^ 32 * 2 ^ 32).
  rewrite (Z.rem_mul_r v (2 ^ 32) (2 ^ 32)) by lia. lia.
Qed.

Lemma load_store b o v :
  bank_ok b -> (S o < BANK_WORDS)%nat -> load (store b o v) o = wrap64 v.
Proof.
  intros [Hl _] Ho. unfold load, store.
  rewrite chr_insert_ne, chr_insert_eq, chr_insert_eq by (rewrite ?length_insert; lia).
  apply wrap64_split.
Qed.

Lemma load_store_ne b o o' v :
  o' <> o -> o' <> S o -> S o' <> o -> load (store b o v) o' = load b o'.
Proof. intros. unfold load, store. by rewrite !chr_insert_ne by lia. Qed.

Lemma land_mask v : Z.land v 0xFFFFFFFF = wrap32 v.
Proof. change 0xFFFFFFFF with (Z.ones 32). by rewrite Z.land_ones. Qed.

Lemma load_mask b o : bank_ok b -> Z.land (load b o) 0xFFFFFFFF = chr b o.
Proof.
  intros Hb. rewrite land_mask. unfold load, wrap32, wrap.
  rewrite Z.mul_comm, Z_mod_plus_full. apply Z.mod_small. by apply chr_range.
Qed.

(** The width of a register of the tracee. *)
Definition reg_bits (t : Regs) : Z := if is_aarch32 t then 32 else 64.

(** peek_reg() on a bank, without the layout. *)
Lemma peek_reg_chr t version r :
  regs_ok t -> peek_reg t version r =
    if is_aarch32 t then chr (banks t version) (reg_offset_armeabi r)
    else load (banks t version) (reg_offset r).
Proof.
  intros H. unfold peek_reg, REG, slot, is_32on64_mode.
  destruct (is_aarch32 t); [|done]. by apply load_mask.
Qed.

Lemma peek_reg_range t version r : regs_ok t -> 0 <= peek_reg t version r < 2 ^ reg_bits t.
Proof.
  intros H. rewrite peek_reg_chr by done. unfold reg_bits, load. specialize (H version).
  pose proof (chr_range _ (reg_offset r) H). pose proof (chr_range _ (S (reg_offset r)) H).
  destruct (is_aarch32 t); [by apply chr_range | lia].
Qed.

Lemma poke_reg_ok t r v : regs_ok t -> regs_ok (poke_reg t r v).
Proof.
  intros H. unfold poke_reg. case_bool; [done|]. intros version. simpl.
  case_decide; [|apply H]. destruct (is_32on64_mode t); [apply store32_bank_ok | apply store_bank_ok]; apply H.
Qed.

Lemma poke_reg_mode t r v : is_aarch32 (poke_reg t r v) = is_aarch32 t.
Proof. unfold poke_reg. by case_bool. Qed.

Lemma poke_reg_frame t r v version r' :
  version <> CURRENT -> peek_reg (poke_reg t r v) version r' = peek_reg t version r'.
Proof.
  intros Hv. unfold poke_reg. case_bool; [done|]. unfold peek_reg, REG, slot, is_32on64_mode. simpl.
  by rewrite decide_False.
Qed.

(** A write is seen by the registers that share the storage and by no other. *)
Lemma peek_poke_reg t r v r' :
  regs_ok t ->
  peek_reg (poke_reg t r v) CURRENT r' =
    if same_slot r r' then wrap (reg_bits t) v else peek_reg t CURRENT r'.
Proof.
  intros H. pose proof (peek_reg_range t CURRENT r H) as Hrange.
  destruct (peek_reg t CURRENT r =? v) eqn:E.
  - unfold poke_reg. rewrite E. apply Z.eqb_eq in E. destruct (same_slot r r') eqn:Es; [|done].
    unfold wrap. rewrite Z.mod_small by lia. rewrite <- E, !peek_reg_chr by done.
    pose proof Es as Es'. rewrite <- same_slot_armeabi in Es'. apply Nat.eqb_eq in Es, Es'.
    by rewrite Es, Es'.
  - pose proof (poke_reg_ok t r v H) as H'. rewrite peek_reg_chr, poke_reg_mode by done.
    rewrite (peek_reg_chr t) by done. unfold poke_reg. rewrite E. unfold is_32on64_mode, slot, reg_bits. simpl.
    pose proof (H CURRENT) as [Hlen _].
    assert (Hb : (reg_offset_armeabi r < BANK_WORDS)%nat) by (destruct r; simpl; unfold BANK_WORDS; lia).
    assert (Hb' : (S (reg_offset r) < BANK_WORDS)%nat) by (destruct r; simpl; unfold BANK_WORDS; lia).
    destruct (is_aarch32 t).
    + rewrite <- same_slot_armeabi. unfold store32. destruct (_ =? _)%nat eqn:Es.
      * apply Nat.eqb_eq in Es. rewrite <- Es, chr_insert_eq by lia. done.
      * apply Nat.eqb_neq in Es. by rewrite chr_insert_ne.
    + unfold same_slot. destruct (_ =? _)%nat eqn:Es.
      * apply Nat.eqb_eq in Es. rewrite <- Es. by apply load_store.
      * apply load_store_ne; destruct r, r'; simpl in *; try done; lia.
Qed.

Lemma save_current_regs_peek t version version' r :
  peek_reg (save_current_regs t version) version' r =
    if decide (version' = version) then peek_reg t CURRENT r else peek_reg t version' r.
Proof.
  unfold save_current_regs, peek_reg, REG, slot, is_32on64_mode, set_changed, set_bank.
  destruct (decide (version = ORIGINAL)); simpl; by destruct (decide (version' = version)).
Qed.

Lemma save_current_regs_ok t version : regs_ok t -> regs_ok (save_current_regs t version).
Proof.
  intros H v. unfold save_current_regs. destruct (decide (version = ORIGINAL)); simpl;
    case_decide; apply H.
Qed.

(** ** Restoration of the registers *)

(** The storage that RESTORE copies for a register. *)
Definition covers (aarch32 : bool) (i : nat) (r : Reg) : bool :=
  let o := if aarch32 then reg_offset_armeabi r else reg_offset r in
  negb (reg_offset r =? 0)%nat && ((i =? o) || (i =? S o))%nat.

Lemma wrap32_load_low b o : bank_ok b -> wrap32 (load b o) = chr b o.
Proof. intros H. rewrite <- land_mask. by apply load_mask. Qed.

Lemma wrap32_load_high b o : bank_ok b -> wrap32 (Z.shiftr (load b o) 32) = chr b (S o).
Proof.
  intros H. unfold load, wrap32, wrap. rewrite Z.shiftr_div_pow2 by lia.
  pose proof (chr_range b o H). pose proof (chr_range b (S o) H).
  rewrite Z.mul_comm, Z.div_add, (Z.div_small (chr b o)) by lia. apply Z.mod_small. lia.
Qed.

Lemma chr_store_load b b' o i :
  bank_ok b -> bank_ok b' -> (S o < BANK_WORDS)%nat ->
  chr (store b o (load b' o)) i = if ((i =? o) || (i =? S o))%nat then chr b' i else chr b i.
Proof.
  intros [Hl _] Hb' Ho. unfold store. rewrite wrap32_load_low, wrap32_load_high by done.
  destruct (decide (i = S o)) as [->|H1].
  { rewrite chr_insert_eq by (rewrite length_insert; lia). by rewrite Nat.eqb_refl, orb_true_r. }
  rewrite chr_insert_ne by done. rewrite (proj2 (Nat.eqb_neq i (S o))), orb_false_r by done.
  destruct (decide (i = o)) as [->|H2].
  - rewrite chr_insert_eq by lia. by rewrite Nat.eqb_refl.
  - rewrite chr_insert_ne by done. by rewrite (proj2 (Nat.eqb_neq i o)).
Qed.

Lemma RESTORE_spec v r t :
  v <> CURRENT -> regs_ok t ->
  let t' := RESTORE v r t in
  regs_ok t' /\ is_aarch32 t' = is_aarch32 t
  /\ (forall v', v' <> CURRENT -> banks t' v' = banks t v')
  /\ forall i, chr (banks t' CURRENT) i
       = if covers (is_aarch32 t) i r then chr (banks t v) i else chr (banks t CURRENT) i.
Proof.
  intros Hv H t'. unfold t', RESTORE, covers. change (reg_offset SYSARG_RESULT) with 0%nat.
  rewrite (Nat.eqb_sym 0). destruct (reg_offset r =? 0)%nat; [done|]. cbn [negb andb].
  assert (Hs : bank_ok (store (banks t CURRENT) (slot t r) (REG t v r))) by apply store_bank_ok, H.
  split; [|split; [done | split]].
  - intros v'. simpl. case_decide; [done | apply H].
  - intros v' Hv'. simpl. by rewrite decide_False.
  - intros i. simpl. unfold REG. rewrite chr_store_load; [|apply H | apply H | apply slot_bound].
    unfold slot. by destruct (is_aarch32 t).
Qed.

Lemma restore_fold v rs : v <> CURRENT -> forall t, regs_ok t ->
  let t' := fold_left (fun t reg => RESTORE v reg t) rs t in
  regs_ok t' /\ is_aarch32 t' = is_aarch32 t
  /\ (forall v', v' <> CURRENT -> banks t' v' = banks t v')
  /\ forall i, chr (banks t' CURRENT) i
       = if existsb (covers (is_aarch32 t) i) rs then chr (banks t v) i
         else chr (banks t CURRENT) i.
Proof.
  intros Hv. induction rs as [|r rs IH]; intros t H; [done|]. cbn [fold_left existsb].
  destruct (RESTORE_spec v r t Hv H) as (H1 & H2 & H3 & H4).
  destruct (IH (RESTORE v r t) H1) as (I1 & I2 & I3 & I4). rewrite H2 in *.
  split; [done|]. split; [done|]. split; [by intros v' Hv'; rewrite I3, H3|].
  intros i. rewrite I4, H4, H3 by done. destruct (covers _ i r), (existsb _ rs); done.
Qed.

(** Whether RESTORE gives a register its former value back. *)
Definition restored (r : Reg) : bool :=
  negb (same_slot r SYSARG_RESULT) && negb (bool_decide (r = INSTR_POINTER)).

Lemma restore_all_peek v t r :
  v <> CURRENT -> regs_ok t ->
  peek_reg (restore_all v t) CURRENT r
  = if restored r then peek_reg t v r else peek_reg t CURRENT r.
Proof.
  intros Hv H. destruct (restore_fold v restored_regs Hv t H) as (H1 & H2 & H3 & H4).
  fold (restore_all v t) in *. rewrite !peek_reg_chr by done. rewrite H2. unfold load.
  rewrite !H4. by destruct (is_aarch32 t), r.
Qed.

(** ** Properties *)

(** poke_reg() and peek_reg(): a register reads back as the value written,
    truncated to the width of the tracee, so do the registers that share its
    storage (the result and the first argument), and no other register nor
    bank changes, in both layouts. *)
Theorem peek_poke t r v :
  regs_ok t ->
  regs_ok (poke_reg t r v)
  /\ (forall r', peek_reg (poke_reg t r v) CURRENT r' =
        if same_slot r r' then wrap (reg_bits t) v else peek_reg t CURRENT r')
  /\ (forall version r', version <> CURRENT ->
        peek_reg (poke_reg t r v) version r' = peek_reg t version r').
Proof.
  intros H. split; [by apply poke_reg_ok|]. split.
  - intros r'. by apply peek_poke_reg.
  - intros. by apply poke_reg_frame.
Qed.

Definition demo_bank (v : Z) : Bank := replicate BANK_WORDS v.
Definition demo_regs (aarch32 : bool) : Regs :=
  mkRegs (fun v => demo_bank (match v with CURRENT => 1 | ORIGINAL => 2 | MODIFIED => 3
                              | ORIGINAL_SECCOMP_REWRITE => 4 end))
    aarch32 true true false false.

Lemma demo_regs_ok aarch32 : regs_ok (demo_regs aarch32).
Proof.
  intros v. split; [by destruct v|]. apply Forall_replicate. destruct v; lia.
Qed.

Lemma peek_poke_witness :
  peek_reg (poke_reg (demo_regs true) SYSARG_2 (2 ^ 40 + 7)) CURRENT SYSARG_2 = 7
  /\ peek_reg (poke_reg (demo_regs false) SYSARG_2 (2 ^ 40 + 7)) CURRENT SYSARG_2 = 2 ^ 40 + 7.
Proof.
  split.
  - destruct (peek_poke (demo_regs true) SYSARG_2 (2 ^ 40 + 7) (demo_regs_ok true)) as (_ & H & _).
    rewrite H. by vm_compute.
  - destruct (peek_poke (demo_regs false) SYSARG_2 (2 ^ 40 + 7) (demo_regs_ok false)) as (_ & H & _).
    rewrite H. by vm_compute.
Defined.

(** at the end of a system call whose registers must be restored, the tracee
    gets back every argument, the number and the stack pointer it had (or had
    before the rewriting for seccomp), and keeps only its result and its
    instruction pointer; that state is what is written to the tracee. *)
Theorem push_regs_restores ptrace t including_sysnum :
  regs_ok t -> restore_original_regs t = true -> regs_were_changed t = true ->
  let from := if restore_original_regs_after_seccomp_event t
              then ORIGINAL_SECCOMP_REWRITE else ORIGINAL in
  let '(log, t', status) := push_specific_regs ptrace t including_sysnum in
  last log = Some (SET_PRSTATUS (banks t' CURRENT))
  /\ restore_original_regs_after_seccomp_event t' = false
  /\ forall r, peek_reg t' CURRENT r
       = if restored r then peek_reg t from r else peek_reg t CURRENT r.
Proof.
  intros H Hr Hc from. unfold push_specific_regs. rewrite Hr, Hc. cbn [orb].
  set (t1 := if restore_original_regs_after_seccomp_event t then _ else _).
  assert (H1 : restore_original_regs_after_seccomp_event t1 = false
               /\ forall r, peek_reg t1 CURRENT r
                    = if restored r then peek_reg t from r else peek_reg t CURRENT r).
  { assert (Hev : forall v rs t, restore_original_regs_after_seccomp_event
        (fold_left (fun t reg => RESTORE v reg t) rs t) = restore_original_regs_after_seccomp_event t).
    { intros v rs. induction rs as [|r rs IH]; intros t0; [done|]. cbn [fold_left]. rewrite IH.
      unfold RESTORE. by case_bool. }
    subst from t1. destruct (restore_original_regs_after_seccomp_event t) eqn:Ee.
    - split; [unfold restore_all; by rewrite Hev|]. intros r. by rewrite restore_all_peek.
    - split; [unfold restore_all; by rewrite Hev|]. intros r. by rewrite restore_all_peek. }
  destruct H1 as [H1 H2]. destruct (_ && _); [destruct (ptrace _)|]; cbn [app];
    rewrite ?last_snoc; by repeat split.
Qed.

Lemma push_regs_restores_witness :
  let '(_, t', _) := push_regs (fun _ => None) (poke_reg (demo_regs true) SYSARG_1 99) in
  peek_reg t' CURRENT SYSARG_2 = 2 /\ peek_reg t' CURRENT SYSARG_RESULT = 99.
Proof.
  pose proof (push_regs_restores (fun _ => None) (poke_reg (demo_regs true) SYSARG_1 99) true
    (poke_reg_ok _ _ _ (demo_regs_ok true)) ltac:(done) ltac:(done)) as H.
  unfold push_regs. destruct (push_specific_regs _ _ _) as [[log t'] st].
  destruct H as (_ & _ & H). rewrite !H. by vm_compute.
Defined.
