(* ===== verification/Translate.v ===== *)
(** * Translation of paths (src/path/path.c)

    translate_path() turns what a tracee passes to a system call into a host
    path: the base is found, the path is canonicalised in the guest, the access
    mode of its binding is checked and the bindings are substituted. *)

From S2P Require Import Prelude Paths Binding ProcLinks Canon Lookup Sysnum Regs.

(** ** Interfaces *)

Inductive NetControlPathOperation :=
  | NET_CONTROL_PATH_READ | NET_CONTROL_PATH_WRITE | NET_CONTROL_PATH_CREATE
  | NET_CONTROL_PATH_DELETE | NET_CONTROL_PATH_RENAME | NET_CONTROL_PATH_METADATA.

Inductive NetControlPathReason :=
  | NET_CONTROL_REASON_STATIC_RO | NET_CONTROL_REASON_MASKED_SHADOW
  | NET_CONTROL_REASON_HIDDEN_SHADOW | NET_CONTROL_REASON_STATIC_POLICY.

#[export] Instance NetControlPathOperation_eq_dec : EqDecision NetControlPathOperation.
Proof. solve_decision. Defined.

(** What the extensions answer to the two notifications of translate_path(),
    with the new content of the path: for [GUEST_PATH], [true] is a positive
    status. *)
Class PathEvents (W : Type) := {
  notify_GUEST_PATH : W -> cstr -> cstr -> W * status (bool * cstr);
  notify_TRANSLATED_PATH : W -> cstr -> W * status cstr
}.

(** What the network policy answers about a path. *)
Class PathPolicy (W : Type) := {
  net_policy_path_operation_override : W -> option NetControlPathOperation;
  net_policy_path_requires_control : W -> cstr -> NetControlPathOperation -> bool;
  net_policy_path_rule_precheck : W -> cstr -> NetControlPathOperation -> W * status Z;
  net_policy_path_access :
    W -> cstr -> NetControlPathOperation -> NetControlPathReason -> W * status unit
}.

(** ** Data *)

Definition AT_FDCWD := -100.
Definition O_WRONLY := 0x1.
Definition O_RDWR := 0x2.
Definition O_CREAT := 0x40.
Definition O_TRUNC := 0x200.

(** What a system call does to a path. *)
Record Access := mkAccess {
  is_write : bool;
  metadata_only : bool;
  operation : NetControlPathOperation
}.

Definition open_access (flags : Z) : Access :=
  let is_write :=
    negb (Z.land flags (Z.lor (Z.lor (Z.lor O_WRONLY O_RDWR) O_CREAT) O_TRUNC) =? 0) in
  mkAccess is_write false
    (if negb (Z.land flags O_CREAT =? 0) then NET_CONTROL_PATH_CREATE
     else if is_write then NET_CONTROL_PATH_WRITE else NET_CONTROL_PATH_READ).

Definition sysnum_in (sysnum : Sysnum) (l : list Sysnum) : bool := existsb (Z.eqb sysnum) l.

(** The switch on the system call. *)
Definition access_of (sysnum : Sysnum) (arg2 arg3 : Z) : Access :=
  if sysnum =? PR_open then open_access arg2
  else if sysnum =? PR_creat then mkAccess true false NET_CONTROL_PATH_CREATE
  else if sysnum =? PR_openat then open_access arg3
  else if sysnum =? PR_truncate then mkAccess true false NET_CONTROL_PATH_WRITE
  else if sysnum_in sysnum [PR_mkdir; PR_mkdirat] then mkAccess true false NET_CONTROL_PATH_CREATE
  else if sysnum_in sysnum [PR_rmdir; PR_unlink; PR_unlinkat]
  then mkAccess true false NET_CONTROL_PATH_DELETE
  else if sysnum_in sysnum [PR_rename; PR_renameat; PR_renameat2]
  then mkAccess true false NET_CONTROL_PATH_RENAME
  else if sysnum_in sysnum [PR_symlink; PR_symlinkat; PR_link; PR_linkat; PR_mknod; PR_mknodat]
  then mkAccess true false NET_CONTROL_PATH_CREATE
  else if sysnum_in sysnum [PR_chmod; PR_fchmod; PR_fchmodat; PR_chown; PR_chown32; PR_lchown;
            PR_lchown32; PR_fchownat; PR_utime; PR_utimes; PR_futimesat; PR_utimensat]
  then mkAccess true false NET_CONTROL_PATH_METADATA
  else if sysnum_in sysnum [PR_stat; PR_stat64; PR_lstat; PR_lstat64; PR_oldstat; PR_oldlstat;
            PR_newfstatat; PR_fstatat64; PR_statx; PR_statfs; PR_statfs64]
  then mkAccess false true NET_CONTROL_PATH_METADATA
  else mkAccess false false NET_CONTROL_PATH_READ.

Section Translate.

Context {W : Type} {K : Kernel W} {E : Extensions W} {V : PathEvents W} {N : PathPolicy W}.

(** ** Operations *)

(** getcwd2() of a tracee. *)
Definition getcwd2 : M W cstr :=
  do! f := get fs in
  if PATH_MAX <=? zlen (cwd f) then fail ENAMETOOLONG else ret (cwd f).

Definition readlink_proc_pid_fd (pid fd : Z) : M W cstr :=
  let link := bs "/proc/" ++ itoa pid ++ bs "/fd/" ++ itoa fd in
  if 32 <=? zlen link then fail EBADF
  else
    do! w := get world in
    match readlink w link with
    | inr _ => fail EBADF
    | inl p => if PATH_MAX <=? zlen p then fail ENAMETOOLONG else ret p
    end.

(** The directory [user_path] is relative to. *)
Definition base_of (dir_fd : Z) (user_path : cstr) : M W cstr :=
  if absolute user_path then ret (bs "/")
  else if negb (dir_fd =? AT_FDCWD) then
    do! v := get view in
    do! result := readlink_proc_pid_fd (pid v) dir_fd in
    if negb (absolute result) then fail ENOTDIR
    else
      do! f := get fs in
      do! (_, result) := lift (detranslate_path v f result None) in
      ret result
  else getcwd2.

(** What check_binding_mode() and the network policy decide on a path whose
    binding is known. *)
Definition check_mode (binding : option Binding) (requires_control : bool) (p : cstr) (a : Access)
    (operation : NetControlPathOperation) : M W unit :=
  let masked := match binding with
                | Some b => bool_decide (access_mode b = BINDING_ACCESS_MASK)
                | None => false
                end in
  if metadata_only a && masked then ret ()
  else
    match check_binding_mode binding (is_write a) with
    | Ok _ => ret ()
    | Stuck w => lift (Stuck w)
    | Err e =>
        if requires_control then fail e
        else
          do! dynamic := attempt (on_world (fun w => net_policy_path_access w p operation
            (if e =? EROFS then NET_CONTROL_REASON_STATIC_RO
             else if masked then NET_CONTROL_REASON_MASKED_SHADOW
             else NET_CONTROL_REASON_STATIC_POLICY))) in
          match dynamic with inr _ => fail e | inl _ => ret () end
    end.

(** The check of the access mode of the binding of the requested path. *)
Definition check_access (regs : Regs) (requested_guest_path : cstr) : M W unit :=
  do! sysnum := lift (get_sysnum regs CURRENT) in
  let a := access_of sysnum (peek_reg regs CURRENT SYSARG_2) (peek_reg regs CURRENT SYSARG_3) in
  do! w := get world in
  let operation := match net_policy_path_operation_override w with
                   | Some override => override
                   | None => operation a
                   end in
  do! f := get fs in
  do! binding := lift (get_binding f GUEST requested_guest_path) in
  do! w := get world in
  let requires_control := net_policy_path_requires_control w requested_guest_path operation in
  do! proactive_decision := on_world (fun w => net_policy_path_rule_precheck w requested_guest_path operation) in
  do! _ := (if requires_control && (proactive_decision =? 0)
            then on_world (fun w => net_policy_path_access w requested_guest_path operation
                                      NET_CONTROL_REASON_STATIC_POLICY)
            else ret ()) in
  check_mode binding requires_control requested_guest_path a operation.

(** translate_path(): the content of [result].  [canonicalize] is called at its
    first level, for which five levels of recursion are enough. *)
Definition translate_path (regs : Regs) (dir_fd : Z) (user_path : cstr) (deref_final : bool) : M W cstr :=
  do! result := base_of dir_fd user_path in
  do! (skip, result) := on_world (fun w => notify_GUEST_PATH w result user_path) in
  do! result :=
    (if skip then ret result
     else if negb (absolute result) then lift (Stuck AssertFailed)
     else
       do! guest_path := lift (join2 result user_path) in
       do! requested_guest_path := lift (normalize_guest_path guest_path) in
       do! result := canonicalize 5 guest_path deref_final (bs "/") 0 in
       do! _ := check_access regs requested_guest_path in
       do! f := get fs in
       do! (_, result) := lift (substitute_binding f GUEST result) in
       ret result) in
  on_world (fun w => notify_TRANSLATED_PATH w result).

(** realpath2() of a tracee. *)
Definition realpath2 (regs : Regs) (p : cstr) (deref_final : bool) : M W cstr :=
  translate_path regs AT_FDCWD p deref_final.

End Translate.

(** ** Paths with a final separator *)

(** A path, with or without a final "/". *)
Definition spelled (slash : bool) (cs : list cstr) : cstr :=
  if slash then joined cs ++ [SLASH] else render cs.

Lemma strip_slash cs : cs <> [] -> Forall plain cs ->
  strip_trailing (joined cs ++ [SLASH]) (length (joined cs ++ [SLASH]))
  = strip_trailing (render cs) (length (render cs)).
Proof.
  intros Hne Hcs. rewrite strip_render by done. unfold strip_trailing. rewrite length_app. simpl length.
  replace (length (joined cs) + 1 - 1)%nat with (length (joined cs)) by lia.
  by rewrite chr_app_r, Nat.sub_diag by lia.
Qed.

(** compare_paths2() does not see the final "/". *)
Lemma compare_slash p n cs : cs <> [] -> Forall plain cs ->
  compare_paths2 p n (joined cs ++ [SLASH]) (length (joined cs ++ [SLASH]))
  = compare_paths2 p n (render cs) (length (render cs)).
Proof.
  intros Hne Hcs. unfold compare_paths2. rewrite strip_slash, strip_render, render_joined by done.
  rewrite length_app. simpl length.
  assert (Hl : (length (joined cs) =? 0)%nat = false).
  { apply Nat.eqb_neq. destruct cs; [done|]. simpl. lia. }
  assert (Hl' : (length (joined cs) + 1 =? 0)%nat = false) by (apply Nat.eqb_neq; lia).
  rewrite Hl, Hl'. destruct ((n =? 0)%nat || false); [done|].
  set (m := strip_trailing p n). destruct (Nat.ltb_spec m (length (joined cs))).
  - rewrite chr_app_l by lia. by rewrite take_app_le by lia.
  - by rewrite take_app_le by lia.
Qed.

Lemma get_binding_slash f cs : cs <> [] -> Forall plain cs ->
  get_binding f GUEST (joined cs ++ [SLASH]) = get_binding f GUEST (render cs).
Proof.
  intros Hne Hcs. unfold get_binding. rewrite absolute_render.
  assert (Ha : absolute (joined cs ++ [SLASH]) = true) by (by destruct cs). rewrite Ha. cbn [negb].
  destruct (list_of f GUEST) as [l| |]; [|done..]. cbn [res_bind].
  induction l as [|b l IH]; [done|]. cbn [get_binding_loop]. rewrite compare_slash by done.
  destruct (compare_paths2 _ _ _ _) as [c| |]; [|done..]. cbn [res_bind]. by rewrite IH.
Qed.

Lemma zlen_spelled slash cs : zlen (spelled slash cs) = zlen (joined cs) + (if slash || bool_decide (cs = []) then 1 else 0).
Proof. unfold spelled. destruct slash; [by rewrite zlen_app|]. destruct cs; [done|]. rewrite render_joined by done. simpl. lia. Qed.

(** The prefix is replaced, or the result does not fit. *)
Lemma substitute_spelled slash a b s :
  Forall plain a -> Forall plain b -> Forall plain s -> a <> [] \/ b <> [] -> (slash = true -> a ++ s <> []) ->
  zlen (spelled slash (a ++ s)) < PATH_MAX -> zlen (render b) < PATH_MAX ->
  let r := substitute_path_prefix (spelled slash (a ++ s)) (length (render a)) (render b) (length (render b)) in
  r = Ok (spelled slash (b ++ s)) \/ r = Err ENAMETOOLONG /\ PATH_MAX <= zlen (render b) + zlen (spelled slash s).
Proof.
  intros Ha Hb Hs Hab Hne Hl1 Hl2 r. unfold r, substitute_path_prefix. rewrite !render_length_one by done. clear r.
  assert (Hra : a <> [] -> render a = joined a) by apply render_joined. assert (Hrb : b <> [] -> render b = joined b) by apply render_joined.
  assert (Hla : zlen (render a) < PATH_MAX).
  { destruct a as [|c a]; [done|]. rewrite Hra by done. rewrite zlen_spelled, joined_app, zlen_app in Hl1. pose proof (zlen_nonneg (joined s)). destruct (slash || _); lia. }
  assert (Hsp : forall c, c <> [] -> spelled slash (c ++ s) = joined c ++ (joined s ++ if slash then [SLASH] else [])).
  { intros c Hc. unfold spelled. destruct slash; [by rewrite joined_app, app_assoc|]. rewrite app_nil_r, render_joined; [by rewrite joined_app|by destruct c]. }
  rewrite zlen_spelled in *. unfold zlen in *. rewrite (proj2 (Z.ltb_lt (Z.of_nat (length (render a))) _)), (proj2 (Z.ltb_lt (Z.of_nat (length (render b))) _)) by lia. cbn [andb negb].
  set (tail := joined s ++ if slash then [SLASH] else []) in *. assert (Ht : Z.of_nat (length tail) = Z.of_nat (length (joined s)) + if slash then 1 else 0) by (unfold tail; rewrite length_app; destruct slash; simpl; lia).
  assert (Hjs : s <> [] -> (0 < length (joined s))%nat) by (destruct s; [done|simpl; lia]).
  assert (Hts : s <> [] \/ slash = true -> spelled slash s = tail).
  { unfold spelled, tail. intros H. destruct slash; [done|]. destruct H as [H|H]; [|done]. by rewrite app_nil_r, render_joined. }
  destruct (decide (b = [])) as [->|Hb0].
  - left. rewrite bool_decide_eq_true_2 by done. destruct Hab as [Ha1|]; [|done]. rewrite Hra, Hsp by done. cbn [app] in *.
    rewrite length_app, (proj2 (Nat.ltb_ge _ _)) by lia. replace (length (joined a) + length tail - length (joined a))%nat with (length tail) by lia. rewrite drop_app_length.
    rewrite joined_app, length_app in Hl1. assert (0 < length (joined a))%nat by (destruct a; [done|simpl; lia]).
    destruct (Nat.eqb_spec (length tail) 0) as [E|E].
    + destruct (decide (s = [])) as [->|Hs0]; [|pose proof (Hjs Hs0); destruct slash; lia]. destruct slash; [rewrite E in Ht; cbn in Ht; lia|done].
    + rewrite (proj2 (Z.leb_gt _ _)) by (destruct slash; cbn [orb] in *; [lia|destruct (bool_decide _); lia]). rewrite Hts; [done|]. destruct s; [right|by left]. destruct slash; [done|]. by destruct E.
  - rewrite (bool_decide_eq_false_2 (b = [])) by done. rewrite Hrb in * by done. rewrite (Hsp b Hb0). destruct (decide (a = [])) as [->|Ha1].
    + rewrite bool_decide_eq_true_2 by done. cbn [app] in *. destruct (decide (s = [])) as [->|Hs0].
      * destruct slash; [by destruct (Hne eq_refl)|]. cbn [spelled render app length] in *. case_bool; [right; split; [done|]; bool_facts; cbn in *; lia|]. left. cbn [Nat.ltb Nat.leb].
        by rewrite firstn_all, app_nil_r.
      * rewrite Hts by by left. assert (1 < length tail)%nat.
        { destruct s as [|c s]; [done|]. apply Forall_inv in Hs as [Hc _]. destruct c; [done|]. unfold tail. cbn. lia. }
        case_bool; [right; split; [done|]; bool_facts; destruct slash; cbn [orb] in *; [lia|destruct (bool_decide _); lia]|].
        rewrite (proj2 (Nat.ltb_lt _ _)) by lia. left. by rewrite firstn_all.
    + rewrite bool_decide_eq_false_2, Hra, Hsp by done. rewrite length_app. rewrite joined_app, length_app in Hl1. rewrite !(proj2 (Nat.ltb_ge _ _)) by lia.
      replace (length (joined a) + length tail - length (joined a))%nat with (length tail) by lia. rewrite drop_app_length.
      case_bool; [right; split; [done|]; bool_facts; destruct slash; cbn [orb] in *; [lia|destruct (bool_decide (s = [])); lia]|]. left. by rewrite firstn_all.
Qed.

(** The names of a host path that a guest path is confined to. *)
Definition host_names (b : Binding) (ps : list cstr) : list cstr :=
  key HOST b ++ drop (length (key GUEST b)) ps.

(** [p] is the host path of the guest path [ps]: the host side of the deepest
    binding that contains it, followed by the rest.  When this does not fit a path,
    the guest path is kept. *)
Definition confined (l : list Binding) (ps : list cstr) (slash : bool) (p : cstr) : Prop :=
  zlen (spelled slash ps) < PATH_MAX
  /\ exists b, deepest GUEST l ps b
    /\ ((exists slash', p = spelled slash' (host_names b ps))
        \/ PATH_MAX <= zlen (path (host b)) + zlen (spelled slash (drop (length (key GUEST b)) ps)) /\ p = spelled slash ps).

Lemma zlen_spelled_ge slash cs : zlen (joined cs) <= zlen (spelled slash cs).
Proof. destruct slash; unfold spelled; [rewrite zlen_app; change (zlen [SLASH]) with 1; lia|]. by destruct cs. Qed.

Lemma zlen_spelled_drop slash n ps : zlen (render (drop n ps)) <= zlen (spelled slash ps).
Proof.
  pose proof (zlen_spelled_ge slash ps) as Hge.
  assert (Hj : zlen (joined (drop n ps)) <= zlen (joined ps)).
  { rewrite <- (take_drop n ps) at 2. rewrite joined_app, zlen_app.
    pose proof (zlen_nonneg (joined (take n ps))). lia. }
  assert (H1 : 1 <= zlen (spelled slash ps)).
  { unfold spelled. destruct slash; [rewrite zlen_app; change (zlen [SLASH]) with 1; pose proof (zlen_nonneg (joined ps)); lia|].
    pose proof (length_render_pos ps) as Hp. apply Nat.eqb_neq in Hp. unfold zlen. lia. }
  destruct (drop n ps) eqn:Ed; [done|]. rewrite render_joined by done. lia.
Qed.

Lemma substitute_confined f l ps slash st p :
  fs_wf f -> bindings_guest f = Some l -> Forall name_ok ps -> zlen (spelled slash ps) < PATH_MAX ->
  substitute_binding f GUEST (spelled slash ps) = Ok (st, p) ->
  confined l ps slash p.
Proof.
  intros Hwf Hl Hps Hlen Es. pose proof Hwf as [Hok Hw].
  specialize (Hw GUEST l ltac:(done) Hl). rewrite Forall_forall in Hw.
  assert (Hsp : spelled slash ps = render ps \/ (slash = true /\ ps <> [])) by (destruct slash, ps; auto).
  assert (Hg : get_binding f GUEST (spelled slash ps) = get_binding f GUEST (render ps)).
  { destruct Hsp as [->|[-> Hne]]; [done|]. apply get_binding_slash; auto with proot. }
  unfold substitute_binding in Es. rewrite Hg in Es.
  destruct (get_binding_guest f l ps Hok Hl Hps) as [(b & Eg & Hd)|[Eg _]]; rewrite Eg in Es; [|done].
  split; [done|]. exists b. split; [done|]. destruct Hd as (Hin & Hpre & _). specialize (Hw b Hin). cbn [res_bind] in Es.
  destruct (need_substitution b) eqn:Hn; cbn [negb] in Es.
  2: { left. exists slash. injection Es as _ <-. unfold host_names.
       pose proof (rewrite_key_symmetric GUEST b ps ltac:(done) Hw Hpre Hn) as Hr. unfold rewrite_key in Hr.
       cbn [opposite] in Hr. by rewrite Hr. }
  destruct Hw as ((Eh & Lh & Nh) & (Eg' & Lg & Ng) & Hneed). rewrite Hn in Hneed. symmetry in Hneed. apply bool_decide_eq_true in Hneed.
  unfold host_names, key in *. cbn [side_path] in *. rewrite Lg, Lh in Es. destruct Hpre as [s ->]. rewrite drop_app_length.
  set (a := components (path (guest b))) in *. set (h := components (path (host b))) in *. rewrite Eg', Eh in Es. rewrite Eh.
  apply Forall_app in Hps as [Ha Hs].
  set (slash0 := slash && negb (bool_decide (a ++ s = []))).
  assert (Hsl : spelled slash (a ++ s) = spelled slash0 (a ++ s)) by (unfold slash0; destruct slash; [|done]; by destruct (a ++ s)).
  assert (Hlh : zlen (render h) < PATH_MAX).
  { destruct (Z.ltb_spec (zlen (render h)) PATH_MAX) as [|Hge]; [done|]. unfold substitute_path_prefix in Es. unfold zlen in Hge.
    rewrite (proj2 (Z.ltb_ge (Z.of_nat (length (render h))) _) Hge), andb_false_r in Es. done. }
  destruct (substitute_spelled slash0 a h s) as [Er|[Er Hlen']]; auto using name_ok_plain.
  - destruct a eqn:Ea; [right|by left]. intros Eb. by rewrite Eb in Hneed.
  - unfold slash0. intros [_ H]%andb_true_iff. apply negb_true_iff, bool_decide_eq_false in H. done.
  - by rewrite <- Hsl.
  - rewrite Hsl, Er in Es. injection Es as _ <-. left. by exists slash0.
  - rewrite Hsl, Er in Es. injection Es as _ <-. right. split; [|done]. etrans; [exact Hlen'|]. rewrite !zlen_spelled. unfold slash0. destruct slash; [|done]. cbn [andb orb]. destruct (negb _ || _); lia.
Qed.

Lemma substitute_prefix_safe p n q m :
  (n <= length p)%nat -> substitute_path_prefix p n q m <> Stuck OutOfBounds.
Proof.
  intros H. unfold substitute_path_prefix. rewrite (proj2 (Nat.ltb_ge (length p) n) H).
  repeat case_bool; discriminate.
Qed.

(** ** What translate_path() returns *)

(** Extensions that do not substitute paths. *)
Class TransparentEvents (W : Type) (V : PathEvents W) : Prop := {
  guest_path_untouched : forall w p u w' r, notify_GUEST_PATH w p u = (w', inl r) -> r = (false, p);
  translated_path_untouched : forall w p w' r, notify_TRANSLATED_PATH w p = (w', inl r) -> r = p
}.

Lemma join2_spell a u p :
  join2 a u = Ok p -> absolute a = true -> nul_free a -> nul_free u ->
  absolute p = true /\ nul_free p /\ zlen p < PATH_MAX.
Proof.
  unfold join2, join_paths. intros H Ha Hna Hnu. cbn [join_loop] in H.
  change (0 <? zlen []) with false in H. cbn [andb] in H. case_bool_in H; [done|]. cbn [app] in H.
  assert (Hz : 0 < zlen a) by (destruct a; [done|]; rewrite zlen_cons; pose proof (zlen_nonneg a); lia).
  assert (Hab : forall s, absolute (a ++ s) = true) by (intros s; by destruct a).
  assert (Ht : nul_free (tail u)) by (destruct u; [done|]; by inversion Hnu).
  assert (Hs : nul_free (SLASH :: u)) by (by constructor).
  assert (Hzt : zlen (tail u) <= zlen u) by (destruct u; simpl tail; rewrite ?zlen_cons; lia).
  assert (Hztl : absolute u = true -> zlen (tail u) = zlen u - 1).
  { destruct u; [done|]. intros _. cbn [tail]. rewrite zlen_cons. lia. }
  repeat case_bool_in H; try discriminate H; injection H as <-; (split; [apply Hab|]);
    (split; [rewrite nul_free_app; by split|]); rewrite zlen_app, ?zlen_cons; bool_facts;
    rewrite ?Hztl by done; lia.
Qed.

(** The ending of a canonicalised path is a final "." or a final "/". *)
Lemma with_finality_spelled cs fin : Forall comp_ok cs ->
  exists ps slash, with_finality cs fin = spelled slash ps /\ Forall name_ok ps /\ bs ".." ∉ ps.
Proof.
  intros Hcs. assert (Hdd : bs ".." ∉ cs).
  { intros Hin. rewrite Forall_forall in Hcs. by destruct (Hcs _ Hin) as (_ & _ & ?). }
  assert (Hd : name_ok (bs ".")) by (split; [apply dot_plain|by repeat constructor]).
  pose proof (comp_ok_name cs Hcs) as Hn.
  destruct fin; [by exists cs, false|by exists cs, false|by exists cs, true|].
  exists (cs ++ [bs "."]), false. split; [|split].
  - unfold spelled. rewrite render_snoc. done.
  - apply Forall_app. split; [done|]. by apply Forall_singleton.
  - rewrite elem_of_app, list_elem_of_singleton. by intros [?|?].
Qed.

Section Confinement.

Context {W : Type} {K : Kernel W} {E : Extensions W} {L : KernelLaws W K}.
Context {V : PathEvents W} {N : PathPolicy W} {TE : TransparentEvents W V}.
Context (f : FileSystemNameSpace) (root : list cstr) (l k : list Binding) (v : ProcView).
Hypothesis Hroot : rooted f root.
Hypothesis Hwf : fs_wf f.
Hypothesis Hsz : fs_sized f.
Hypothesis Hl : bindings_guest f = Some l.
Hypothesis Hk : bindings_host f = Some k.
Hypothesis Hv : view_ok v.
Hypothesis Hcwd : nul_free (cwd f) /\ cwd f <> [].

Abbreviation ok m Q := (holds (@stable W f v) (fun w => w <> OutOfBounds) m Q).

Lemma events_ok {A} (g : W -> W * status A) (Q : A -> Prop) :
  (forall w w' a, g w = (w', inl a) -> Q a) -> ok (on_world g) Q.
Proof.
  intros H. apply holds_world; [by intros t w (? & ? & ?)|]. intros w a. specialize (H w).
  destruct (g w) as [w' s]. simpl. intros ->. by eapply H.
Qed.

Lemma base_of_ok dir_fd u : nul_free u -> ok (base_of dir_fd u) nice.
Proof.
  intros Hu. unfold base_of. case_bool; [apply holds_ret; split; [done|]; split; [by repeat constructor|done]|].
  case_bool.
  - eapply holds_bind; [apply get_view_ok|]. intros ? ->.
    eapply (holds_bind _ _ _ _ nice).
    + unfold readlink_proc_pid_fd. case_bool; [apply holds_fail|].
      eapply holds_bind; [apply get_world_ok|]. intros w _.
      destruct (readlink w _) as [p|e] eqn:Er; [|apply holds_fail]. apply readlink_content in Er as (H1 & H2 & _).
      case_bool; [apply holds_fail|]. apply holds_ret. bool_facts. by repeat split.
    + intros p Hp. case_bool; [apply holds_fail|]. eapply holds_bind; [apply get_fs_ok|]. intros ? ->.
      eapply holds_bind.
      { apply lift_outcome. by eapply (detranslate_path_outcome v f root k). }
      intros [st q] Hq. by apply holds_ret.
  - unfold getcwd2. eapply holds_bind; [apply get_fs_ok|]. intros ? ->.
    case_bool; [apply holds_fail|]. apply holds_ret. bool_facts. by destruct Hcwd.
Qed.

Lemma check_mode_ok b rc p a op : ok (check_mode b rc p a op) (fun _ => True).
Proof.
  unfold check_mode. case_bool; [by apply holds_ret|]. destruct (check_binding_mode b _) as [?|e|w] eqn:Em.
  - by apply holds_ret.
  - case_bool; [apply holds_fail|]. eapply (holds_bind _ _ _ _ (fun _ => True)).
    + apply holds_attempt; [|done]. by apply events_ok.
    + intros [] _; [by apply holds_ret|apply holds_fail].
  - unfold check_binding_mode in Em. destruct b; [|done]. repeat case_match; done.
Qed.

Lemma check_access_ok regs s cs :
  get_sysnum regs CURRENT = Ok s -> Forall name_ok cs -> ok (check_access regs (render cs)) (fun _ => True).
Proof.
  intros Hs Hcs. unfold check_access. rewrite Hs.
  eapply (holds_bind _ _ _ _ (fun _ => True)); [by apply holds_lift|]. intros s' _.
  eapply holds_bind; [apply get_world_ok|]. intros w _. eapply holds_bind; [apply get_fs_ok|]. intros ? ->.
  eapply (holds_bind _ _ _ _ (fun _ => True)).
  { apply holds_lift. destruct Hwf as [Hok _].
    by destruct (get_binding_guest f l cs Hok Hl Hcs) as [(b & -> & _)|[-> _]]. }
  intros b _. eapply holds_bind; [apply get_world_ok|]. intros w' _.
  eapply (holds_bind _ _ _ _ (fun _ => True)); [by apply events_ok|]. intros d _.
  eapply (holds_bind _ _ _ _ (fun _ => True)).
  { case_bool; [by apply events_ok|by apply holds_ret]. }
  intros _ _. apply check_mode_ok.
Qed.

Lemma substitute_spelled_ok ps slash :
  Forall name_ok ps -> zlen (spelled slash ps) < PATH_MAX ->
  ok (lift (substitute_binding f GUEST (spelled slash ps))) (fun r => confined l ps slash r.2).
Proof.
  intros Hps Hlen. apply holds_lift.
  destruct (substitute_binding f GUEST (spelled slash ps)) as [[st p]|e|w] eqn:Es; [|done|].
  { by eapply substitute_confined. }
  intros ->. assert (Hg : get_binding f GUEST (spelled slash ps) = get_binding f GUEST (render ps)).
  { unfold spelled. destruct slash; [|done]. destruct ps as [|c ps]; [done|].
    apply get_binding_slash; auto with proot. }
  unfold substitute_binding in Es. rewrite Hg in Es. pose proof Hwf as [Hok Hw].
  destruct (get_binding_guest f l ps Hok Hl Hps) as [(b & Eg & Hd)|[Eg _]]; rewrite Eg in Es; [|done].
  cbn [res_bind] in Es. case_bool_in Es; [done|]. destruct Hd as (Hin & Hpre & _).
  specialize (Hw GUEST l ltac:(done) Hl). rewrite Forall_forall in Hw.
  destruct (Hw b Hin) as (_ & (Eg' & Lg & _) & _).
  destruct (substitute_path_prefix _ _ _ _) eqn:Ep; [done|done|]. injection Es as ->.
  eapply substitute_prefix_safe; [|exact Ep]. rewrite Lg, Eg'.
  pose proof (zlen_spelled_ge slash ps) as Hge. unfold key in Hpre. cbn [side_path] in Hpre.
  destruct Hpre as [s ->]. rewrite joined_app, zlen_app in Hge.
  pose proof (zlen_spelled_drop slash 0 (components (path (guest b)) ++ s)) as Hz.
  destruct (components (path (guest b))) as [|c cs] eqn:Ec; unfold zlen in *.
  - pose proof (length_render_pos (drop 0 s)) as Hp. apply Nat.eqb_neq in Hp. simpl in *. lia.
  - rewrite render_joined by done. lia.
Qed.

(** The guest path that canonicalize() makes of the path [u], relative to the
    directory [dir_fd]. *)
Definition guest_of (dir_fd : Z) (u : cstr) (deref : bool) (q : cstr) : Prop :=
  exists t1 base p t2, stable f v t1 /\ snd (base_of dir_fd u t1) = Ok base /\ join2 base u = Ok p
    /\ stable f v t2 /\ snd (canonicalize (W := W) 5 p deref (bs "/") 0 t2) = Ok q.

(** The result of a translation: the host path of this guest path, which has no
    "..". *)
Definition translated (dir_fd : Z) (u : cstr) (deref : bool) (p : cstr) : Prop :=
  exists ps slash, Forall name_ok ps /\ bs ".." ∉ ps /\ guest_of dir_fd u deref (spelled slash ps) /\ confined l ps slash p.

(** A result comes from a state. *)
Lemma ok_run {A} (m : M W A) (Q : A -> Prop) : ok m Q -> ok m (fun a => Q a /\ exists t, stable f v t /\ snd (m t) = Ok a).
Proof. intros H t Ht. destruct (H t Ht) as [H1 H2]. split; [done|]. destruct (m t) as [t' [a|e|w]] eqn:Em; try done. split; [done|]. exists t. by rewrite Em. Qed.

Lemma translate_path_ok regs s dir_fd u deref :
  get_sysnum regs CURRENT = Ok s -> nul_free u ->
  ok (translate_path regs dir_fd u deref) (translated dir_fd u deref).
Proof.
  intros Hs Hu. unfold translate_path. eapply holds_bind; [by apply ok_run, base_of_ok|]. intros base ((Hb1 & Hb2 & Hb3) & t1 & Ht1 & Eb).
  eapply (holds_bind _ _ _ _ (fun r => r = (false, base))).
  { apply events_ok. intros w w' r. apply guest_path_untouched. }
  intros ? ->. eapply (holds_bind _ _ _ _ (translated dir_fd u deref)).
  2: { intros p Hp. apply events_ok. intros w w' r Er. apply translated_path_untouched in Er as ->. done. }
  case_bool; [by apply holds_lift|]. bool_facts.
  eapply (holds_bind _ _ _ _ (fun p => join2 base u = Ok p /\ absolute p = true /\ nul_free p /\ zlen p < PATH_MAX)).
  { apply holds_lift. destruct (join2 base u) as [p|e|w] eqn:Ej; [|done|].
    - split; [done|]. by eapply join2_spell.
    - by apply join_loop_stuck in Ej. }
  intros p (Ej & Hp1 & Hp2 & Hp3).
  eapply (holds_bind _ _ _ _ (fun q => q = render (resolve (components p)))).
  { apply holds_lift. rewrite normalize_eq by done. by destruct (forallb _ _). }
  intros ? ->. eapply holds_bind.
  { apply ok_run. eapply (canonicalize_ok f root l k v); try done; [by split; [|left]|]. exists []. by vm_compute. }
  intros q ((cs & fin & Hcs & -> & Hq) & t2 & Ht2 & Ec). eapply holds_bind; [eapply check_access_ok; [done|]|].
  { by apply comp_ok_name, resolve_comp_ok. }
  intros _ _. eapply holds_bind; [apply get_fs_ok|]. intros ? ->.
  destruct (with_finality_spelled cs fin Hcs) as (ps & slash & Esp & Hps & Hdd). rewrite Esp in *.
  eapply holds_bind; [by apply substitute_spelled_ok|]. intros [st r] Hr. apply holds_ret.
  exists ps, slash. split_and!; try done. by exists t1, base, p, t2.
Qed.

Lemma never {A} {S : stuck -> Prop} (m : M W A) : holds (@stable W f v) S m (fun _ => False) -> forall t, stable f v t -> forall a, snd (m t) <> Ok a.
Proof. intros H t Ht a Em. destruct (H t Ht) as [_ H2]. by rewrite Em in H2. Qed.

(** A policy that grants nothing by itself. *)
Definition denies : Prop :=
  forall w p op reason, exists w' e, net_policy_path_access w p op reason = (w', inr e).

(** The mode of a binding forbids an access. *)
Definition forbidden (b : Binding) (a : Access) : Prop :=
  (exists e, check_binding_mode (Some b) (is_write a) = Err e)
  /\ ~ (metadata_only a = true /\ access_mode b = BINDING_ACCESS_MASK).

Lemma check_access_denied regs s cs b :
  denies -> get_sysnum regs CURRENT = Ok s -> Forall name_ok cs -> deepest GUEST l cs b ->
  forbidden b (access_of s (peek_reg regs CURRENT SYSARG_2) (peek_reg regs CURRENT SYSARG_3)) ->
  ok (check_access regs (render cs)) (fun _ => False).
Proof.
  intros Hden Hs Hcs Hd [(e & He) Hm]. unfold check_access. rewrite Hs.
  eapply (holds_bind _ _ _ _ (fun s' => s' = s)); [by apply holds_lift|]. intros ? ->.
  set (a := access_of _ _ _) in *.
  eapply holds_bind; [apply get_world_ok|]. intros w _. eapply holds_bind; [apply get_fs_ok|]. intros ? ->.
  rewrite (get_binding_the f l cs b) by (by destruct Hwf).
  eapply (holds_bind _ _ _ _ (fun b' => b' = Some b)); [by apply holds_lift|]. intros ? ->.
  eapply holds_bind; [apply get_world_ok|]. intros w' _.
  eapply (holds_bind _ _ _ _ (fun _ => True)); [by apply events_ok|]. intros d _.
  eapply (holds_bind _ _ _ _ (fun _ => True)).
  { case_bool; [by apply events_ok|by apply holds_ret]. }
  intros _ _. unfold check_mode. case_bool.
  { destruct Hm. apply andb_true_iff in Hb as [H1 H2]. by apply bool_decide_eq_true in H2. }
  rewrite He. case_bool; [apply holds_fail|].
  eapply (holds_bind _ _ _ _ (fun s' => exists e', s' = inr e')); [|intros ? (e' & ->); apply holds_fail].
  apply holds_attempt; [|by eexists]. apply events_ok. intros w1 w2 [] E1.
  match type of E1 with net_policy_path_access w1 ?p ?op ?r = _ => destruct (Hden w1 p op r) as (? & ? & E2) end.
  congruence.
Qed.

Lemma translate_path_denied regs s dir_fd u deref b base (t : Tracee W) :
  denies -> get_sysnum regs CURRENT = Ok s -> nul_free u -> stable f v t ->
  snd (base_of dir_fd u t) = Ok base -> deepest GUEST l (resolve (components base ++ components u)) b ->
  forbidden b (access_of s (peek_reg regs CURRENT SYSARG_2) (peek_reg regs CURRENT SYSARG_3)) ->
  forall p, snd (translate_path regs dir_fd u deref t) <> Ok p.
Proof.
  intros Hden Hs Hu Ht Eb Hd Hf. unfold translate_path, bind at 1. destruct (base_of_ok dir_fd u Hu t Ht) as [Ht' Hb].
  destruct (base_of dir_fd u t) as [t' r]. cbn [fst snd] in *. subst r. destruct Hb as (Hb1 & Hb2 & Hb3). revert t' Ht'. apply (never (S := fun w => w <> OutOfBounds)).
  eapply (holds_bind _ _ _ _ (fun r => r = (false, base))).
  { apply events_ok. intros w w' r. apply guest_path_untouched. }
  intros ? ->. eapply (holds_bind _ _ _ _ (fun _ => False)); [|done]. case_bool; [by apply holds_lift|]. bool_facts.
  eapply (holds_bind _ _ _ _ (fun p => absolute p = true /\ nul_free p /\ zlen p < PATH_MAX
                                       /\ components p = components base ++ components u)).
  { apply holds_lift. destruct (join2 base u) as [p|e|w] eqn:Ej; [|done|by apply join_loop_stuck in Ej].
    destruct (join2_spell _ _ _ Ej) as (H1 & H2 & H3); [done..|]. by apply join2_components in Ej as [Ec _]. }
  intros p (Hp1 & Hp2 & Hp3 & Ec).
  eapply (holds_bind _ _ _ _ (fun q => q = render (resolve (components base ++ components u)))).
  { apply holds_lift. rewrite normalize_eq, <- Ec by done. by destruct (forallb _ _). }
  intros ? ->. eapply holds_bind.
  { eapply (canonicalize_ok f root l k v); try done; [by split; [|left]|]. exists []. by vm_compute. }
  intros q _. eapply (holds_bind _ _ _ _ (fun _ => False)); [|done]. eapply check_access_denied; try done.
  rewrite <- Ec. by apply comp_ok_name, resolve_comp_ok.
Qed.

End Confinement.

(** ** Computations that leave the name-space as it is *)

Definition steady {W A} (m : M W A) : Prop := forall f v, holds (stable f v) (fun _ => True) m (fun _ => True).

Section Steady.

Context {W : Type}.

Lemma steady_bind {A B} (m : M W A) (k : A -> M W B) : steady m -> (forall a, steady (k a)) -> steady (bind m k).
Proof. intros Hm Hk f v. eapply holds_bind; [apply Hm|]. intros a _. apply Hk. Qed.
Lemma steady_attempt {A} (m : M W A) : steady m -> steady (attempt m).
Proof. intros Hm f v. apply holds_attempt; [apply Hm|done]. Qed.
Lemma steady_world {A} (g : W -> W * status A) : steady (on_world g).
Proof. intros f v. by apply holds_world. Qed.
Lemma steady_lift {A} (r : res A) : steady (W := W) (lift r).
Proof. intros f v. apply holds_lift. by destruct r. Qed.
Lemma steady_get {A} (g : Tracee W -> A) : steady (get g).
Proof. intros f v. by apply holds_get. Qed.
Lemma steady_glue {B} (k : Z -> M W B) : steady (k 0) -> steady (bind (get glue_type) k).
Proof. intros Hk f v. eapply (holds_bind _ _ _ _ (fun x => x = 0)); [by apply holds_get; intros t (_ & _ & ?)|]. intros ? ->. apply Hk. Qed.

End Steady.

Create HintDb steady.
#[export] Hint Resolve steady_world steady_lift steady_get : steady.

Ltac steady :=
  repeat first
    [ progress intros
    | solve [auto with steady]
    | match goal with
      | |- steady (ret _) => by intros ???
      | |- steady (fail _) => by intros ???
      | |- steady (attempt _) => apply steady_attempt
      | |- steady (bind (get glue_type) _) => apply steady_glue; cbn [Z.eqb negb andb]
      | |- steady (bind _ _) => apply steady_bind
      end
    | progress (cbv zeta)
    | progress (rewrite andb_false_r)
    | case_match ].

Section SteadyPaths.

Context {W : Type} {K : Kernel W} {E : Extensions W} {V : PathEvents W} {N : PathPolicy W}.

Lemma substitute_binding_stat_steady f n g : steady (substitute_binding_stat f n g).
Proof. unfold substitute_binding_stat, lstat_mode, should_skip_file_access_due_to_f2fs_bug. steady. Qed.
Hint Resolve substitute_binding_stat_steady : steady.

Lemma walk_steady (rec : cstr -> cstr -> Z -> M W cstr) deref level fuel : (forall u g n, steady (rec u g n)) ->
  forall followed guest cursor, steady (walk rec fuel deref level followed guest cursor).
Proof.
  intros Hrec. induction fuel as [|fuel IH]; intros followed guest cursor; cbn [walk]; [by intros ???|].
  unfold walk_step, walk_component, proc_action, proc_base_of, read_symlink. steady.
Qed.

Lemma canonicalize_steady levels : forall u deref g level, steady (canonicalize levels u deref g level).
Proof.
  induction levels as [|levels IH]; intros u deref g level; cbn [canonicalize]; [by intros ???|]. unfold check_shadow.
  steady; by apply walk_steady.
Qed.
Hint Resolve canonicalize_steady : steady.

Lemma base_of_steady dir_fd u : steady (base_of dir_fd u).
Proof. unfold base_of, readlink_proc_pid_fd, getcwd2. steady. Qed.
Hint Resolve base_of_steady : steady.

Lemma translate_path_steady regs dir_fd u deref : steady (translate_path regs dir_fd u deref).
Proof. unfold translate_path, check_access, check_mode. steady. Qed.
Hint Resolve translate_path_steady : steady.

End SteadyPaths.
#[export] Hint Resolve canonicalize_steady base_of_steady translate_path_steady : steady.

(** ** Properties *)

(** The current directory of a tracee is a string. *)
Definition cwd_ok (f : FileSystemNameSpace) : Prop := nul_free (cwd f) /\ cwd f <> [].

(** C1: confinement of a tracee.  Whatever path a tracee passes, relative to
    whatever descriptor, and whatever its symlinks contain, when translate_path()
    succeeds canonicalize() made of this path a guest path without "..", and the
    host path given to the kernel is the host side of the deepest binding of that
    guest path followed by the rest of it.  The only exception is a rewritten path
    that does not fit PATH_MAX: the guest path is then kept, as
    [substitute_binding_overflow] shows.  No access is out of bounds and the
    name-space does not change.  No extension substitutes paths. *)
Theorem translate_path_confined {W} (K : Kernel W) (E : Extensions W) (L : KernelLaws W K)
    (V : PathEvents W) (N : PathPolicy W) (TE : TransparentEvents W V) (t : Tracee W) l
    regs s dir_fd user_path deref_final :
  tracee_ok t -> bindings_guest (fs t) = Some l -> cwd_ok (fs t) ->
  get_sysnum regs CURRENT = Ok s -> nul_free user_path ->
  let '(t', r) := translate_path regs dir_fd user_path deref_final t in
  fs t' = fs t
  /\ match r with Ok p => translated (fs t) l (view t) dir_fd user_path deref_final p | Err _ => True | Stuck w => w <> OutOfBounds end.
Proof.
  intros ((root & Hr) & Hwf & Hsz & (k & Hk) & Hv & Hg0) Hl Hc Hs Hu.
  pose proof (translate_path_ok (fs t) root l k (view t) Hr Hwf Hsz Hl Hk Hv Hc regs s dir_fd user_path
                deref_final Hs Hu t) as H.
  destruct (translate_path _ _ _ _ t) as [t' r]. destruct H as [(H1 & _) H2]; [by repeat split|]. done.
Qed.

#[local] Instance quiet_events : PathEvents unit := {
  notify_GUEST_PATH w p _ := (w, inl (false, p));
  notify_TRANSLATED_PATH w p := (w, inl p)
}.

(** No controller is attached: nothing requires one, nothing is granted. *)
#[local] Instance static_policy : PathPolicy unit := {
  net_policy_path_operation_override _ := None;
  net_policy_path_requires_control _ _ _ := false;
  net_policy_path_rule_precheck w _ _ := (w, inl 0);
  net_policy_path_access w _ _ _ := (w, inr EACCES)
}.

Lemma quiet_transparent : TransparentEvents unit quiet_events.
Proof. split; simpl; intros; by simplify_eq. Qed.

(** openat(_, _, O_WRONLY) *)
Definition write_regs : Regs :=
  poke_reg (poke_reg (demo_regs false) SYSARG_NUM 56) SYSARG_3 O_WRONLY.

(** [root]/out is a symlink to a file of the read-only binding. *)
Definition escape_links : list (cstr * cstr) := [(bs "/data/root/out", bs "/mnt/sd/x")].

Lemma translate_path_confined_witness :
  let '(t', r) := translate_path (K := demo_kernel demo_links) (E := quiet_extensions) write_regs AT_FDCWD
                    (bs "link/y/") true demo_tracee in
  r = Ok (bs "/data/root/sdcard/x/y/")
  /\ translated (K := demo_kernel demo_links) (E := quiet_extensions) (fs demo_tracee) [demo_tmp; demo_sd; demo_root] (view demo_tracee) AT_FDCWD (bs "link/y/") true (bs "/data/root/sdcard/x/y/").
Proof.
  pose proof (translate_path_confined (demo_kernel demo_links) quiet_extensions
    (demo_laws demo_links ltac:(by repeat constructor)) quiet_events static_policy quiet_transparent demo_tracee
    [demo_tmp; demo_sd; demo_root] write_regs PR_openat AT_FDCWD (bs "link/y/") true demo_tracee_ok) as H.
  assert (E : translate_path (K := demo_kernel demo_links) (E := quiet_extensions) write_regs AT_FDCWD
                (bs "link/y/") true demo_tracee = (demo_tracee, Ok (bs "/data/root/sdcard/x/y/"))) by by vm_compute.
  rewrite E in *. split; [done|]. apply H; [done|split; [by repeat constructor|done]|by vm_compute|by repeat constructor].
Defined.

(** C21: enforcement of the access modes.  If the path a tracee spells, relative to
    the directory it names, resolves, "." and ".." included, into a binding whose
    mode forbids what the system call does, and the network policy grants nothing,
    then translate_path() gives no path, wherever the symlinks lead. *)
Theorem translate_path_enforces {W} (K : Kernel W) (E : Extensions W) (L : KernelLaws W K)
    (V : PathEvents W) (N : PathPolicy W) (TE : TransparentEvents W V) (t : Tracee W) l b
    regs s dir_fd user_path deref_final base :
  tracee_ok t -> bindings_guest (fs t) = Some l -> cwd_ok (fs t) ->
  denies (N := N) -> get_sysnum regs CURRENT = Ok s -> nul_free user_path ->
  snd (base_of dir_fd user_path t) = Ok base ->
  deepest GUEST l (resolve (components base ++ components user_path)) b ->
  forbidden b (access_of s (peek_reg regs CURRENT SYSARG_2) (peek_reg regs CURRENT SYSARG_3)) ->
  forall p, snd (translate_path regs dir_fd user_path deref_final t) <> Ok p.
Proof.
  intros ((root & Hr) & Hwf & Hsz & (k & Hk) & Hv & Hg0) Hl Hc Hden Hs Hu Hb Hd Hf.
  by eapply (translate_path_denied (fs t) root l k (view t) Hr Hwf Hsz Hl Hk Hv Hc).
Qed.

(** The current directory is /, and the path is relative. *)
Lemma translate_path_enforces_witness :
  snd (translate_path (K := demo_kernel escape_links) (E := quiet_extensions) write_regs AT_FDCWD
         (bs "tmp/../mnt/sd/x") true demo_tracee) = Err EROFS
  /\ forall p, snd (translate_path (K := demo_kernel escape_links) (E := quiet_extensions) write_regs AT_FDCWD
                 (bs "tmp/../mnt/sd/x") true demo_tracee) <> Ok p.
Proof.
  split; [by vm_compute|].
  apply (translate_path_enforces (demo_kernel escape_links) quiet_extensions
    (demo_laws escape_links ltac:(by repeat constructor)) quiet_events static_policy quiet_transparent demo_tracee
    [demo_tmp; demo_sd; demo_root] demo_sd write_regs PR_openat AT_FDCWD (bs "tmp/../mnt/sd/x") true (cwd (fs demo_tracee)) demo_tracee_ok).
  - done.
  - split; [by repeat constructor|done].
  - intros w p op reason. by eexists _, _.
  - by vm_compute.
  - by repeat constructor.
  - by vm_compute.
  - change (resolve (components (cwd (fs demo_tracee)) ++ components (bs "tmp/../mnt/sd/x"))) with (names ["mnt"; "sd"; "x"]%string).
    split; [set_solver|]. split; [decide_witness|].
    intros b Hb Hp. rewrite !elem_of_cons in Hb.
    destruct Hb as [-> | [-> | [-> | Hb]]]; [| | |by apply elem_of_nil in Hb].
    + exfalso. revert Hp. decide_witness.
    + decide_witness.
    + decide_witness.
  - split; [by eexists; vm_compute|]. by intros [? _].
Defined.

(** the mode is checked on the path the tracee spells and not on the one its
    symlinks lead to: a write through a symlink to a file of a read-only binding
    is translated to that file, although the same write is refused with EROFS
    when the file is named directly. *)
Theorem translate_path_symlink_bypass :
  let translate u := snd (translate_path (K := demo_kernel escape_links) (E := quiet_extensions)
                            write_regs AT_FDCWD u true demo_tracee) in
  translate (bs "/mnt/sd/x") = Err EROFS
  /\ translate (bs "/out") = Ok (bs "/sdcard/x")
  /\ access_mode demo_sd = BINDING_ACCESS_RO.
Proof. split_and!; by vm_compute. Qed.
