(* ===== verification/Heap.v ===== *)
(** * Emulation of brk(2) (src/syscall/heap.c)

    The heap of a tracee is a private mapping: the first brk(2) becomes mmap(2)
    and the next ones mremap(2).  The first page of the mapping is not part of
    the heap, so that the heap can be empty. *)

From S2P Require Import Prelude Sysnum Regs.

(** ** Data *)

Record Mapping := mkMapping { addr : Z; map_length : Z }.

(** A tracee: its registers, its heap, and the static [heap_offset]. *)
Record HeapTracee := mkHeapTracee {
  regs : Regs;
  base : Z;
  size : Z;
  disabled : bool;
  heap_offset : Z
}.

Definition set_regs (s : HeapTracee) (t : Regs) : HeapTracee :=
  mkHeapTracee t (base s) (size s) (disabled s) (heap_offset s).
Definition set_heap (s : HeapTracee) (b n : Z) : HeapTracee :=
  mkHeapTracee (regs s) b n (disabled s) (heap_offset s).

Definition PROT_READ_WRITE := 3.
Definition MAP_PRIVATE_ANONYMOUS := 0x22.

(** ** Operations *)

(** The initialization of [heap_offset]; [page_size] is sysconf(_SC_PAGE_SIZE). *)
Definition init_heap_offset (page_size : Z) (s : HeapTracee) : HeapTracee :=
  if heap_offset s =? 0 then
    let o := wrap64 page_size in
    mkHeapTracee (regs s) (base s) (size s) (disabled s)
      (if sgn 32 o <=? 0 then 0x1000 else o)
  else s.

Definition poke_args (t : Regs) (args : list (Reg * Z)) : Regs :=
  fold_left (fun t '(r, v) => poke_reg t r v) args t.

Definition translate_brk_enter (page_size : Z) (mappings : list Mapping) (s : HeapTracee)
  : res HeapTracee :=
  if disabled s then Ok s
  else
    let s := init_heap_offset page_size s in
    let t := regs s in
    let new_brk_address := peek_reg t CURRENT SYSARG_1 in
    if base s =? 0 then
      if negb (new_brk_address =? 0) then Ok s
      else
        match last mappings with
        | None => Stuck OutOfBounds
        | Some bss =>
            let new_brk_address := wrap64 (addr bss + map_length bss) in
            let! mmap2 := detranslate_sysnum (get_abi t) PR_mmap2 in
            let sysnum := if negb (mmap2 =? SYSCALL_AVOIDER) then PR_mmap2 else PR_mmap in
            let! t := set_sysnum t sysnum in
            Ok (set_regs s (poke_args t
              [(SYSARG_1, new_brk_address); (SYSARG_2, heap_offset s); (SYSARG_3, PROT_READ_WRITE);
               (SYSARG_4, MAP_PRIVATE_ANONYMOUS); (SYSARG_5, wrap64 (-1)); (SYSARG_6, 0)]))
        end
    else if new_brk_address <? base s then
      let! t := set_sysnum t PR_void in Ok (set_regs s t)
    else
      let new_heap_size := new_brk_address - base s in
      let! t := set_sysnum t PR_mremap in
      Ok (set_regs s (poke_args t
        [(SYSARG_1, wrap64 (base s - heap_offset s));
         (SYSARG_2, wrap64 (size s + heap_offset s));
         (SYSARG_3, wrap64 (new_heap_size + heap_offset s));
         (SYSARG_4, 0); (SYSARG_5, 0)])).

(** [tracee_errno < 0 && tracee_errno > -4096] *)
Definition is_error (result : Z) : bool :=
  let tracee_errno := sgn 32 result in (tracee_errno <? 0) && (-4096 <? tracee_errno).

Definition return_brk (s : HeapTracee) : HeapTracee :=
  set_regs s (poke_reg (regs s) SYSARG_RESULT (wrap64 (base s + size s))).

Definition translate_brk_exit (s : HeapTracee) : res HeapTracee :=
  if disabled s then Ok s
  else if heap_offset s <=? 0 then Stuck AssertFailed
  else
    let t := regs s in
    let! sysnum := get_sysnum t MODIFIED in
    let result := peek_reg t CURRENT SYSARG_RESULT in
    if sysnum =? PR_void then Ok (return_brk s)
    else if (sysnum =? PR_mmap) || (sysnum =? PR_mmap2) then
      if is_error result then Ok (set_regs s (poke_reg t SYSARG_RESULT 0))
      else Ok (return_brk (set_heap s (wrap64 (result + heap_offset s)) 0))
    else if sysnum =? PR_mremap then
      if is_error result || negb (base s =? wrap64 (result + heap_offset s)) then Ok (return_brk s)
      else Ok (return_brk (set_heap s (base s)
                 (wrap64 (peek_reg t MODIFIED SYSARG_3 - heap_offset s))))
    else if sysnum =? PR_brk then
      if result =? peek_reg t ORIGINAL SYSARG_1
      then Ok (mkHeapTracee t (base s) (size s) true (heap_offset s))
      else Ok s
    else Stuck AssertFailed.

(** The system call as the tracee sees it (translate_syscall() in
    src/syscall/syscall.c): the entry, the kernel, the exit.  [kernel] gives the
    result of a system call from its number and first three arguments. *)
Definition brk_syscall (page_size : Z) (mappings : list Mapping)
    (kernel : Sysnum -> Z -> Z -> Z -> Z) (s : HeapTracee) : res HeapTracee :=
  let s := set_regs s (save_current_regs (regs s) ORIGINAL) in
  let! s := translate_brk_enter page_size mappings s in
  let t := save_current_regs (regs s) MODIFIED in
  let! sysnum := get_sysnum t MODIFIED in
  let result := kernel sysnum (peek_reg t MODIFIED SYSARG_1) (peek_reg t MODIFIED SYSARG_2)
                  (peek_reg t MODIFIED SYSARG_3) in
  translate_brk_exit (set_regs s (poke_reg t SYSARG_RESULT result)).

(** ** The abstract heap *)

(** A heap is nothing yet, or a start and a size. *)
Inductive AbsHeap := NoHeap | HeapAt (start len : Z).

(** What brk(2) promises: the break moves to the requested address if the
    kernel can resize the heap in place, otherwise it does not move; the
    result is the break. *)
Definition brk_spec (mmap : option Z) (resize : Z -> Z -> bool) (h : AbsHeap) (request : Z) : AbsHeap * Z :=
  match h with
  | NoHeap => match mmap with None => (NoHeap, 0) | Some start => (HeapAt start 0, start) end
  | HeapAt start len =>
      if request <? start then (h, start + len)
      else if resize len (request - start) then (HeapAt start (request - start), request)
      else (h, start + len)
  end.

(** ** Lemmas *)

Lemma poke_args_ok args : forall t, regs_ok t -> regs_ok (poke_args t args).
Proof. induction args as [|[r v] args IH]; intros t H; [done|]. apply IH. by apply poke_reg_ok. Qed.

Lemma poke_args_mode args : forall t, is_aarch32 (poke_args t args) = is_aarch32 t.
Proof.
  induction args as [|[r v] args IH]; intros t; [done|]. cbn [poke_args fold_left].
  etrans; [apply IH | apply poke_reg_mode].
Qed.

Lemma poke_args_frame args version r : forall t, version <> CURRENT ->
  peek_reg (poke_args t args) version r = peek_reg t version r.
Proof.
  induction args as [|[r' v] args IH]; intros t Hv; [done|]. cbn [poke_args fold_left].
  etrans; [by apply IH | by apply poke_reg_frame].
Qed.

(** The last write to a storage wins. *)
Lemma peek_poke_args args r : forall t, regs_ok t ->
  peek_reg (poke_args t args) CURRENT r =
    foldl (fun old '(r', v) => if same_slot r' r then wrap (reg_bits t) v else old)
      (peek_reg t CURRENT r) args.
Proof.
  induction args as [|[r' v] args IH]; intros t H; [done|]. cbn [poke_args fold_left foldl].
  etrans; [apply IH; by apply poke_reg_ok|]. rewrite peek_poke_reg by done.
  unfold reg_bits. by rewrite poke_reg_mode.
Qed.

(** A system call number that the ABI has reads back after set_sysnum(). *)
Definition callable (aarch32 : bool) (s : Sysnum) : bool :=
  let abi := if aarch32 then ABI_2 else ABI_DEFAULT in
  match detranslate_sysnum abi s with
  | Ok n => match translate_sysnum abi (wrap (if aarch32 then 32 else 64) n) with
            | Ok s' => s' =? s
            | _ => false
            end
  | _ => false
  end.

Lemma set_sysnum_callable t s :
  callable (is_aarch32 t) s = true -> regs_ok t ->
  exists t', set_sysnum t s = Ok t' /\ regs_ok t' /\ is_aarch32 t' = is_aarch32 t
    /\ translate_sysnum (get_abi t) (peek_reg t' CURRENT SYSARG_NUM) = Ok s
    /\ (forall v r, v <> CURRENT -> peek_reg t' v r = peek_reg t v r)
    /\ forall r, r <> SYSARG_NUM -> peek_reg t' CURRENT r = peek_reg t CURRENT r.
Proof.
  intros Hc H. unfold callable in Hc. unfold set_sysnum, get_abi.
  destruct (detranslate_sysnum _ s) as [n| |]; try done. cbn [res_bind].
  eexists. split; [done|]. split; [by apply poke_reg_ok|]. split; [apply poke_reg_mode|].
  rewrite peek_poke_reg by done. change (same_slot SYSARG_NUM SYSARG_NUM) with true. cbv iota. unfold reg_bits.
  split; [|split].
  - destruct (translate_sysnum _ _) as [s'| |]; try done. by apply Z.eqb_eq in Hc as ->.
  - intros. by apply poke_reg_frame.
  - intros r Hr. rewrite peek_poke_reg by done. by destruct r.
Qed.

(** ** Refinement of the abstract heap *)

(** The heap of a tracee as brk(2) sees it. *)
Definition abs_heap (s : HeapTracee) : AbsHeap :=
  if base s =? 0 then NoHeap else HeapAt (base s) (size s).

Record heap_ok (s : HeapTracee) : Prop := {
  ho_regs : regs_ok (regs s);
  ho_enabled : disabled s = false;
  ho_offset : 0 < heap_offset s < 2 ^ 31;
  ho_base : base s = 0 \/ heap_offset s <= base s;
  ho_size : 0 <= size s;
  ho_end : base s + size s + heap_offset s < 2 ^ reg_bits (regs s)
}.

Lemma reg_bits_small t v : 0 <= v < 2 ^ reg_bits t -> wrap (reg_bits t) v = v /\ wrap64 v = v.
Proof.
  intros H. split; [by apply wrap_small|]. apply wrap_small. unfold reg_bits in H.
  destruct (is_aarch32 t); [|done]. lia.
Qed.

(** The kernel between the entry and the exit, when the call is [sysnum]. *)
Lemma brk_exit_stage s t sysnum result :
  regs_ok t -> disabled s = false -> 0 < heap_offset s ->
  translate_sysnum (get_abi t) (peek_reg t CURRENT SYSARG_NUM) = Ok sysnum ->
  let t' := poke_reg (save_current_regs t MODIFIED) SYSARG_RESULT result in
  regs_ok t' /\ is_aarch32 t' = is_aarch32 t
  /\ get_sysnum t' MODIFIED = Ok sysnum
  /\ peek_reg t' CURRENT SYSARG_RESULT = wrap (reg_bits t) result
  /\ forall r, peek_reg t' MODIFIED r = peek_reg t CURRENT r.
Proof.
  intros H Hd Ho Hs t'. pose proof (save_current_regs_ok t MODIFIED H) as Hsv.
  assert (Hm : is_aarch32 (save_current_regs t MODIFIED) = is_aarch32 t) by done.
  split; [by apply poke_reg_ok|]. split; [unfold t'; by rewrite poke_reg_mode|].
  assert (Hp : forall r, peek_reg t' MODIFIED r = peek_reg t CURRENT r).
  { intros r. unfold t'. rewrite poke_reg_frame by done. by rewrite save_current_regs_peek. }
  split; [|split; [|done]].
  - unfold get_sysnum. rewrite Hp. unfold get_abi, t'. by rewrite poke_reg_mode.
  - unfold t'. rewrite peek_poke_reg by done. by change (same_slot SYSARG_RESULT SYSARG_RESULT) with true.
Qed.

Lemma return_brk_peek s :
  regs_ok (regs s) ->
  peek_reg (regs (return_brk s)) CURRENT SYSARG_RESULT
    = wrap (reg_bits (regs s)) (wrap64 (base s + size s)).
Proof.
  intros H. unfold return_brk. simpl. rewrite peek_poke_reg by done.
  by change (same_slot SYSARG_RESULT SYSARG_RESULT) with true.
Qed.

Section Refinement.

Context (kernel : Sysnum -> Z -> Z -> Z -> Z) (page_size : Z) (mappings : list Mapping) (bss : Mapping).
Hypothesis Hbss : last mappings = Some bss.

(** The number of mmap() on the ABI of a tracee. *)
Definition mmap_sysnum (t : Regs) : Sysnum := if is_aarch32 t then PR_mmap2 else PR_mmap.

(** What the tracee reads as the result of the kernel. *)
Definition mmap_result (s : HeapTracee) : Z :=
  let t := regs s in
  wrap (reg_bits t)
    (kernel (mmap_sysnum t) (wrap (reg_bits t) (wrap64 (addr bss + map_length bss)))
       (heap_offset s) PROT_READ_WRITE).
Definition mremap_result (s : HeapTracee) (len new : Z) : Z :=
  wrap (reg_bits (regs s))
    (kernel PR_mremap (base s - heap_offset s) (len + heap_offset s) (new + heap_offset s)).

(** The answers of the kernel, for the abstract heap. *)
Definition mmap_answer (s : HeapTracee) : option Z :=
  let r := mmap_result s in if is_error r then None else Some (r + heap_offset s).
Definition resize_answer (s : HeapTracee) (len new : Z) : bool :=
  let r := mremap_result s len new in
  negb (is_error r) && (base s =? wrap64 (r + heap_offset s)).

(** mmap(2) does not return the null page nor the end of the address space. *)
Definition mmap_sane (s : HeapTracee) : Prop :=
  is_error (mmap_result s) = true
  \/ mmap_result s + 2 * heap_offset s < 2 ^ reg_bits (regs s).

(** The part of [brk_syscall] that follows the entry. *)
Definition after_entry (s : HeapTracee) : res HeapTracee :=
  let t := save_current_regs (regs s) MODIFIED in
  let! sysnum := get_sysnum t MODIFIED in
  let result := kernel sysnum (peek_reg t MODIFIED SYSARG_1) (peek_reg t MODIFIED SYSARG_2)
                  (peek_reg t MODIFIED SYSARG_3) in
  translate_brk_exit (set_regs s (poke_reg t SYSARG_RESULT result)).

(** The state that the entry leaves, when the call becomes [sysnum]. *)
Lemma brk_finish s t sysnum a1 a2 a3 :
  regs_ok t -> is_aarch32 t = is_aarch32 (regs s) -> disabled s = false -> 0 < heap_offset s ->
  translate_sysnum (get_abi t) (peek_reg t CURRENT SYSARG_NUM) = Ok sysnum ->
  peek_reg t CURRENT SYSARG_1 = a1 -> peek_reg t CURRENT SYSARG_2 = a2 ->
  peek_reg t CURRENT SYSARG_3 = a3 ->
  exists t', regs_ok t' /\ is_aarch32 t' = is_aarch32 (regs s)
    /\ get_sysnum t' MODIFIED = Ok sysnum
    /\ peek_reg t' CURRENT SYSARG_RESULT = wrap (reg_bits (regs s)) (kernel sysnum a1 a2 a3)
    /\ peek_reg t' MODIFIED SYSARG_3 = a3
    /\ after_entry (set_regs s t)
       = translate_brk_exit (set_regs s t').
Proof.
  intros H Hm Hd Ho Hs H1 H2 H3. set (r := kernel sysnum a1 a2 a3).
  destruct (brk_exit_stage s t sysnum r H Hd Ho Hs) as (T1 & T2 & T3 & T4 & T5).
  eexists. split; [exact T1|]. split; [congruence|]. split; [exact T3|].
  split; [rewrite T4; unfold reg_bits; by rewrite Hm|]. split; [by rewrite T5|].
  unfold after_entry. change (regs (set_regs s t)) with t. unfold get_sysnum. rewrite !save_current_regs_peek.
  rewrite !decide_True by done. change (get_abi (save_current_regs t MODIFIED)) with (get_abi t).
  rewrite Hs. cbn [res_bind]. by rewrite H1, H2, H3.
Qed.

Lemma return_brk_ok s v :
  regs_ok (regs s) -> base s + size s = v -> 0 <= v < 2 ^ reg_bits (regs s) ->
  peek_reg (regs (return_brk s)) CURRENT SYSARG_RESULT = v.
Proof.
  intros H <- Hr. rewrite return_brk_peek by done.
  destruct (reg_bits_small (regs s) _ Hr) as [E1 E2]. by rewrite E2, E1.
Qed.

Lemma init_heap_offset_id s : 0 < heap_offset s -> init_heap_offset page_size s = s.
Proof. intros H. unfold init_heap_offset. by rewrite (proj2 (Z.eqb_neq _ _)) by lia. Qed.

Lemma mmap2_choice t :
  exists n, detranslate_sysnum (get_abi t) PR_mmap2 = Ok n
    /\ (if negb (n =? SYSCALL_AVOIDER) then PR_mmap2 else PR_mmap) = mmap_sysnum t.
Proof. unfold get_abi, mmap_sysnum. destruct (is_aarch32 t); eexists; split; by vm_compute. Qed.

(** The state after the entry of brk(2), in the three cases. *)
Lemma enter_first s :
  heap_ok s -> base s = 0 -> peek_reg (regs s) CURRENT SYSARG_1 = 0 ->
  exists t, translate_brk_enter page_size mappings s = Ok (set_regs s t)
    /\ regs_ok t /\ is_aarch32 t = is_aarch32 (regs s)
    /\ translate_sysnum (get_abi t) (peek_reg t CURRENT SYSARG_NUM) = Ok (mmap_sysnum (regs s))
    /\ peek_reg t CURRENT SYSARG_1 = wrap (reg_bits (regs s)) (wrap64 (addr bss + map_length bss))
    /\ peek_reg t CURRENT SYSARG_2 = heap_offset s
    /\ peek_reg t CURRENT SYSARG_3 = PROT_READ_WRITE.
Proof.
  intros [Hr Hd Ho Hb Hs He] H0 Hreq. unfold translate_brk_enter.
  rewrite Hd, init_heap_offset_id, H0, Hreq, Hbss by lia. cbn [Z.eqb negb].
  destruct (mmap2_choice (regs s)) as (n & -> & E). cbn [res_bind]. rewrite E.
  assert (Hc : callable (is_aarch32 (regs s)) (mmap_sysnum (regs s)) = true).
  { unfold mmap_sysnum. destruct (is_aarch32 (regs s)); by vm_compute. }
  destruct (set_sysnum_callable (regs s) _ Hc Hr) as (t & -> & T1 & T2 & T3 & _ & T5).
  cbn [res_bind]. eexists. split; [done|]. split; [by apply poke_args_ok|].
  split; [by rewrite poke_args_mode|]. unfold get_abi. rewrite poke_args_mode, !peek_poke_args by done.
  simpl. unfold reg_bits. rewrite T2. split; [done|]. split; [done|].
  assert (Hw : forall v, 0 <= v < 2 ^ 31 -> wrap (if is_aarch32 (regs s) then 32 else 64) v = v).
  { intros v Hv. apply wrap_small. destruct (is_aarch32 (regs s)); lia. }
  split; apply Hw; [lia | by vm_compute].
Qed.

Lemma enter_negative s req :
  heap_ok s -> base s <> 0 -> peek_reg (regs s) CURRENT SYSARG_1 = req -> req < base s ->
  exists t, translate_brk_enter page_size mappings s = Ok (set_regs s t)
    /\ regs_ok t /\ is_aarch32 t = is_aarch32 (regs s)
    /\ translate_sysnum (get_abi t) (peek_reg t CURRENT SYSARG_NUM) = Ok PR_void.
Proof.
  intros [Hr Hd Ho Hb Hs He] H0 Hreq Hlt. unfold translate_brk_enter.
  rewrite Hd, init_heap_offset_id, (proj2 (Z.eqb_neq _ _) H0), Hreq, (proj2 (Z.ltb_lt _ _)) by lia.
  assert (Hc : callable (is_aarch32 (regs s)) PR_void = true)
    by (destruct (is_aarch32 (regs s)); by vm_compute).
  destruct (set_sysnum_callable (regs s) _ Hc Hr) as (t & -> & T1 & T2 & T3 & _).
  cbn [res_bind]. exists t. unfold get_abi in *. rewrite T2. auto.
Qed.

Lemma enter_resize s req :
  heap_ok s -> base s <> 0 -> peek_reg (regs s) CURRENT SYSARG_1 = req -> base s <= req ->
  req + heap_offset s < 2 ^ reg_bits (regs s) ->
  exists t, translate_brk_enter page_size mappings s = Ok (set_regs s t)
    /\ regs_ok t /\ is_aarch32 t = is_aarch32 (regs s)
    /\ translate_sysnum (get_abi t) (peek_reg t CURRENT SYSARG_NUM) = Ok PR_mremap
    /\ peek_reg t CURRENT SYSARG_1 = base s - heap_offset s
    /\ peek_reg t CURRENT SYSARG_2 = size s + heap_offset s
    /\ peek_reg t CURRENT SYSARG_3 = req - base s + heap_offset s.
Proof.
  intros [Hr Hd Ho Hb Hs He] H0 Hreq Hle Hfit. unfold translate_brk_enter.
  rewrite Hd, init_heap_offset_id, (proj2 (Z.eqb_neq _ _) H0), Hreq, (proj2 (Z.ltb_ge _ _)) by lia.
  assert (Hc : callable (is_aarch32 (regs s)) PR_mremap = true)
    by (destruct (is_aarch32 (regs s)); by vm_compute).
  destruct (set_sysnum_callable (regs s) _ Hc Hr) as (t & -> & T1 & T2 & T3 & _).
  cbn [res_bind]. eexists. split; [done|]. split; [by apply poke_args_ok|].
  split; [by rewrite poke_args_mode|]. unfold get_abi in *. rewrite poke_args_mode, !peek_poke_args by done.
  rewrite <- T2 in T3. simpl. split; [done|].
  assert (Hw : forall v, 0 <= v < 2 ^ reg_bits (regs s) -> wrap (reg_bits t) (wrap64 v) = v).
  { intros v Hv. destruct (reg_bits_small (regs s) v Hv) as [E1 E2]. rewrite E2.
    unfold reg_bits in *. by rewrite T2. }
  destruct Hb as [Hb|Hb]; [done|]. split; [|split]; apply Hw; lia.
Qed.

(** The exit, in each case. *)
Lemma exit_void s t :
  heap_ok s -> base s <> 0 -> regs_ok t -> is_aarch32 t = is_aarch32 (regs s) ->
  get_sysnum t MODIFIED = Ok PR_void ->
  translate_brk_exit (set_regs s t) = Ok (return_brk (set_regs s t)).
Proof.
  intros [Hr Hd Ho Hb Hs He] H0 H Hm Hn. unfold translate_brk_exit. simpl.
  rewrite Hd, (proj2 (Z.leb_gt _ _)) by lia. rewrite Hn. done.
Qed.

(** What one brk(2) must establish, from the state its entry starts with. *)
Definition brk_step (s : HeapTracee) (req : Z) (r : res HeapTracee) : Prop :=
  exists s', r = Ok s' /\ heap_ok s' /\
    (abs_heap s', peek_reg (regs s') CURRENT SYSARG_RESULT)
    = brk_spec (mmap_answer s) (resize_answer s) (abs_heap s) req.

(** A heap that is returned as it is. *)
Lemma return_unchanged s t req :
  heap_ok s -> base s <> 0 -> regs_ok t -> is_aarch32 t = is_aarch32 (regs s) ->
  brk_spec (mmap_answer s) (resize_answer s) (abs_heap s) req = (abs_heap s, base s + size s) ->
  brk_step s req (Ok (return_brk (set_regs s t))).
Proof.
  intros [Hr Hd Ho Hb Hs He] H0 H Hm Hspec. eexists. split; [done|].
  assert (Hbits : reg_bits (poke_reg t SYSARG_RESULT (wrap64 (base s + size s))) = reg_bits (regs s)).
  { unfold reg_bits. by rewrite poke_reg_mode, Hm. }
  split.
  - split; simpl; auto; [by apply poke_reg_ok | by rewrite Hbits].
  - rewrite Hspec. f_equal. apply return_brk_ok; [done | done |]. simpl. unfold reg_bits in *.
    rewrite Hm. destruct Hb; [done|]. lia.
Qed.

Lemma brk_first s :
  heap_ok s -> base s = 0 -> peek_reg (regs s) CURRENT SYSARG_1 = 0 -> mmap_sane s ->
  brk_step s 0 (let! s := translate_brk_enter page_size mappings s in after_entry s).
Proof.
  intros Hok H0 Hreq Hsane. pose proof Hok as [Hr Hd Ho Hb Hs He].
  destruct (enter_first s Hok H0 Hreq) as (t & -> & T1 & T2 & T3 & T4 & T5 & T6). cbn [res_bind].
  destruct (brk_finish s t _ _ _ _ T1 T2 Hd ltac:(lia) T3 T4 T5 T6) as (t' & U1 & U2 & U3 & U4 & U5 & U6).
  rewrite U6. clear U6. fold (mmap_result s) in U4.
  unfold translate_brk_exit, brk_step, brk_spec, abs_heap, mmap_answer. cbn [disabled heap_offset set_regs regs].
  rewrite Hd, (proj2 (Z.leb_gt _ _)), U3, U4, H0 by lia. cbn [res_bind Z.eqb].
  assert (Hn : (mmap_sysnum (regs s) =? PR_void) = false
               /\ (mmap_sysnum (regs s) =? PR_mmap) || (mmap_sysnum (regs s) =? PR_mmap2) = true).
  { unfold mmap_sysnum. by destruct (is_aarch32 (regs s)). }
  destruct Hn as [-> ->].
  assert (Hpos : 0 <= mmap_result s < 2 ^ reg_bits (regs s)).
  { unfold mmap_result, wrap. apply Z.mod_pos_bound. unfold reg_bits. destruct (is_aarch32 (regs s)); lia. }
  destruct (is_error (mmap_result s)) eqn:Eerr.
  - eexists. split; [done|]. split.
    + split; simpl; auto; [by apply poke_reg_ok|]. unfold reg_bits in *. by rewrite poke_reg_mode, U2.
    + simpl. rewrite H0. simpl. f_equal. rewrite peek_poke_reg by done.
      change (same_slot SYSARG_RESULT SYSARG_RESULT) with true. cbv iota. apply wrap_small.
      unfold reg_bits. destruct (is_aarch32 t'); lia.
  - destruct Hsane as [Hsane|Hsane]; [congruence|].
    assert (Hw : wrap64 (mmap_result s + heap_offset s) = mmap_result s + heap_offset s)
      by (apply (reg_bits_small (regs s)); lia).
    rewrite Hw. set (b := mmap_result s + heap_offset s) in *. eexists. split; [done|]. split.
    + split; simpl; auto; [by apply poke_reg_ok | lia | lia |].
      unfold reg_bits in *. rewrite poke_reg_mode, U2. lia.
    + simpl. rewrite (proj2 (Z.eqb_neq b 0)) by lia. f_equal.
      apply (return_brk_ok (set_heap (set_regs s t') b 0)); [done | simpl; lia |].
      simpl. unfold reg_bits in *. rewrite U2. lia.
Qed.

Lemma brk_resize s req :
  heap_ok s -> base s <> 0 -> peek_reg (regs s) CURRENT SYSARG_1 = req ->
  req + heap_offset s < 2 ^ reg_bits (regs s) ->
  brk_step s req (let! s := translate_brk_enter page_size mappings s in after_entry s).
Proof.
  intros Hok H0 Hreq Hfit. pose proof Hok as [Hr Hd Ho Hb Hs He].
  destruct (decide (req < base s)) as [Hlt|Hge].
  { destruct (enter_negative s req Hok H0 Hreq Hlt) as (t & -> & T1 & T2 & T3). cbn [res_bind].
    edestruct (brk_finish s t) as (t' & U1 & U2 & U3 & _ & _ & U6); eauto; [lia|].
    rewrite U6, exit_void by done.
    apply return_unchanged; auto. unfold brk_spec, abs_heap.
    by rewrite (proj2 (Z.eqb_neq _ _) H0), (proj2 (Z.ltb_lt _ _) Hlt). }
  destruct (enter_resize s req Hok H0 Hreq ltac:(lia) Hfit) as (t & -> & T1 & T2 & T3 & T4 & T5 & T6).
  cbn [res_bind].
  destruct (brk_finish s t _ _ _ _ T1 T2 Hd ltac:(lia) T3 T4 T5 T6) as (t' & U1 & U2 & U3 & U4 & U5 & U6).
  rewrite U6. clear U6. fold (mremap_result s (size s) (req - base s)) in U4.
  unfold translate_brk_exit. cbn [disabled heap_offset base set_regs regs].
  rewrite Hd, (proj2 (Z.leb_gt _ _)), U3, U4, U5 by lia. cbn [res_bind].
  change (PR_mremap =? PR_void) with false. change (PR_mremap =? PR_mmap) with false.
  change (PR_mremap =? PR_mmap2) with false. change (PR_mremap =? PR_mremap) with true. cbv iota. cbn [orb].
  set (r := mremap_result s (size s) (req - base s)).
  assert (Hspec : brk_spec (mmap_answer s) (resize_answer s) (abs_heap s) req =
    if is_error r || negb (base s =? wrap64 (r + heap_offset s)) then (abs_heap s, base s + size s)
    else (HeapAt (base s) (req - base s), req)).
  { unfold brk_spec, abs_heap, resize_answer.
    rewrite (proj2 (Z.eqb_neq _ _) H0), (proj2 (Z.ltb_ge _ _)) by lia.
    fold r. by destruct (is_error r), (base s =? wrap64 (r + heap_offset s)). }
  revert Hspec. destruct (is_error r || negb (base s =? wrap64 (r + heap_offset s))); intros Hspec;
    [by apply return_unchanged|].
  destruct (reg_bits_small (regs s) (req - base s)) as [_ Hw]; [lia|].
  replace (req - base s + heap_offset s - heap_offset s) with (req - base s) by lia. rewrite Hw.
  eexists. split; [done|]. split.
  - split; simpl; auto; [by apply poke_reg_ok | lia |]. unfold reg_bits in *. rewrite poke_reg_mode, U2. lia.
  - rewrite Hspec. unfold abs_heap. simpl. rewrite (proj2 (Z.eqb_neq _ _) H0). f_equal.
    apply (return_brk_ok (set_heap (set_regs s t') (base s) (req - base s))); [done | simpl; lia |].
    simpl. unfold reg_bits in *. rewrite U2. lia.
Qed.

End Refinement.

(** ** Properties *)

(** C24: brk(2) is emulated: whatever the kernel answers to mmap(2) and mremap(2),
    one system call of the tracee moves the break as the abstract heap does and
    returns it, on 64-bit and on 32-bit tracees: the first call maps the heap,
    the next ones resize it in place or leave it unchanged, never below its
    start. *)
Theorem brk_refines kernel page_size mappings bss s req :
  last mappings = Some bss -> heap_ok s -> peek_reg (regs s) CURRENT SYSARG_1 = req ->
  (base s = 0 -> req = 0) -> req + heap_offset s < 2 ^ reg_bits (regs s) ->
  mmap_sane kernel bss s ->
  exists s', brk_syscall page_size mappings kernel s = Ok s' /\ heap_ok s' /\
    (abs_heap s', peek_reg (regs s') CURRENT SYSARG_RESULT)
    = brk_spec (mmap_answer kernel bss s) (resize_answer kernel s) (abs_heap s) req.
Proof.
  intros Hbss Hok Hreq Hfirst Hfit Hsane.
  set (s0 := set_regs s (save_current_regs (regs s) ORIGINAL)).
  assert (Hok0 : heap_ok s0).
  { destruct Hok as [Hr Hd Ho Hb Hs He]. split; try done. by apply save_current_regs_ok. }
  assert (Hreq0 : peek_reg (regs s0) CURRENT SYSARG_1 = req).
  { simpl. rewrite save_current_regs_peek. by rewrite decide_False. }
  change (brk_step kernel bss s0 req (brk_syscall page_size mappings kernel s)).
  destruct (decide (base s = 0)) as [H0|H0].
  - rewrite (Hfirst H0) in *. apply (brk_first kernel page_size mappings bss Hbss s0); done.
  - apply (brk_resize kernel page_size mappings bss s0); done.
Qed.

Definition demo_heap : HeapTracee :=
  mkHeapTracee (poke_reg (demo_regs false) SYSARG_1 0x30000) 0x20000 0x100 false 0x1000.

Definition demo_kernel (n : Sysnum) (a b c : Z) : Z := if n =? PR_mremap then a else 0.

Lemma brk_refines_witness :
  exists s', brk_syscall 0x1000 [mkMapping 0x10000 0xf000] demo_kernel demo_heap = Ok s'
    /\ base s' = 0x20000 /\ size s' = 0x10000
    /\ peek_reg (regs s') CURRENT SYSARG_RESULT = 0x30000.
Proof.
  destruct (brk_refines demo_kernel 0x1000 [mkMapping 0x10000 0xf000] (mkMapping 0x10000 0xf000)
              demo_heap 0x30000) as (s' & E & _ & H); [done | | | done | | |].
  - split; [apply poke_reg_ok, demo_regs_ok | done | by vm_compute | by right; vm_compute | done | by vm_compute].
  - by vm_compute.
  - by vm_compute.
  - right. by vm_compute.
  - exists s'. split; [exact E|]. vm_compute in E. injection E as <-. by vm_compute.
Defined.
