(* ===== verification/Chain.v ===== *)
(** * Chained system calls (src/syscall/chain.c)

    System calls that PRoot makes a tracee execute after its own: a FIFO that
    is drained at the exit of each of them. *)

From S2P Require Import Prelude Sysnum Regs Heap.

(** ** Data *)

Record ChainedSyscall := mkChained { c_sysnum : Sysnum; sysargs : list Z }.

Inductive WorkaroundState :=
  | SYSNUM_WORKAROUND_INACTIVE
  | SYSNUM_WORKAROUND_PROCESS_FAULTY_CALL
  | SYSNUM_WORKAROUND_PROCESS_REPLACED_CALL.

#[export] Instance WorkaroundState_eq_dec : EqDecision WorkaroundState.
Proof. solve_decision. Defined.

(** A tracee: its registers and its [chain] field; [None] is a list that is not
    allocated. *)
Record ChainTracee := mkChain {
  c_regs : Regs;
  syscalls : option (list ChainedSyscall);
  force_final_result : bool;
  final_result : Z;
  sysnum_workaround_state : WorkaroundState;
  restart_syscall : bool
}.

(** ** Operations *)

Definition register_chained_syscall_internal (at_front : bool) (s : ChainTracee)
    (sysnum : Sysnum) (args : list Z) : ChainTracee :=
  let l := default [] (syscalls s) in
  let syscall := mkChained sysnum args in
  mkChain (c_regs s) (Some (if at_front then syscall :: l else l ++ [syscall]))
    (force_final_result s) (final_result s) (sysnum_workaround_state s) (restart_syscall s).

Definition register_chained_syscall : ChainTracee -> Sysnum -> list Z -> ChainTracee :=
  register_chained_syscall_internal false.

Definition sysarg_regs : list Reg := [SYSARG_1; SYSARG_2; SYSARG_3; SYSARG_4; SYSARG_5; SYSARG_6].

Definition chain_next_syscall (s : ChainTracee) : res ChainTracee :=
  match syscalls s with
  | None => Stuck AssertFailed
  | Some [] =>
      let t := if force_final_result s then poke_reg (c_regs s) SYSARG_RESULT (final_result s)
               else c_regs s in
      Ok (mkChain t None false 0 (sysnum_workaround_state s) (restart_syscall s))
  | Some (syscall :: l) =>
      let t := set_restore (c_regs s) false in
      let t := poke_args t (zip sysarg_regs (sysargs syscall)) in
      let! sysnum := detranslate_sysnum (get_abi t) (c_sysnum syscall) in
      let t := poke_reg t SYSARG_NUM sysnum in
      let instr_pointer := peek_reg t CURRENT INSTR_POINTER in
      let t := poke_reg t INSTR_POINTER (wrap64 (instr_pointer - get_systrap_size t)) in
      Ok (mkChain t (Some l) (force_final_result s) (final_result s)
            (sysnum_workaround_state s) true)
  end.

Definition force_chain_final_result (s : ChainTracee) (forced_result : Z) : ChainTracee :=
  mkChain (c_regs s) (syscalls s) true forced_result (sysnum_workaround_state s) (restart_syscall s).

Definition peek_args (t : Regs) (version : RegVersion) : list Z :=
  map (peek_reg t version) sysarg_regs.

Definition restart_original_syscall (s : ChainTracee) : res ChainTracee :=
  let! sysnum := get_sysnum (c_regs s) ORIGINAL in
  Ok (register_chained_syscall s sysnum (peek_args (c_regs s) ORIGINAL)).

Definition restart_current_syscall_as_chained (s : ChainTracee) : res ChainTracee :=
  if negb (bool_decide (sysnum_workaround_state s = SYSNUM_WORKAROUND_INACTIVE))
  then Stuck AssertFailed
  else
    let s := mkChain (c_regs s) (syscalls s) (force_final_result s) (final_result s)
               SYSNUM_WORKAROUND_PROCESS_FAULTY_CALL (restart_syscall s) in
    let! sysnum := get_sysnum (c_regs s) CURRENT in
    Ok (register_chained_syscall_internal true s sysnum (peek_args (c_regs s) CURRENT)).

(** ** Lemmas *)

(** A chained call the ABI of the tracee can express. *)
Definition expressible (aarch32 : bool) (c : ChainedSyscall) : Prop :=
  callable aarch32 (c_sysnum c) = true /\ length (sysargs c) = 6%nat
  /\ Forall (fun v => 0 <= v < 2 ^ (if aarch32 then 32 else 64)) (sysargs c).

(** The call a tracee is about to execute. *)
Definition pending_call (t : Regs) : res ChainedSyscall :=
  let! sysnum := get_sysnum t CURRENT in Ok (mkChained sysnum (peek_args t CURRENT)).

Lemma set_restore_ok t c : regs_ok t -> regs_ok (set_restore t c).
Proof. done. Qed.

Lemma poke_sysargs_peek t args r :
  regs_ok t -> length args = 6%nat -> Forall (fun v => 0 <= v < 2 ^ reg_bits t) args ->
  r ∉ sysarg_regs -> same_slot SYSARG_1 r = false ->
  peek_args (poke_args t (zip sysarg_regs args)) CURRENT = args
  /\ peek_reg (poke_args t (zip sysarg_regs args)) CURRENT r = peek_reg t CURRENT r.
Proof.
  intros H Hlen Hrange Hr Hs.
  destruct args as [|a1 [|a2 [|a3 [|a4 [|a5 [|a6 [|]]]]]]]; try done.
  rewrite !Forall_cons in Hrange. destruct Hrange as (?&?&?&?&?&?&_).
  unfold peek_args, sysarg_regs. cbn [map zip zip_with]. rewrite !peek_poke_args by done. simpl.
  rewrite !wrap_small by done. split; [done|]. set_unfold. rewrite Hs. by destruct r; try done; naive_solver.
Qed.

Lemma systrap_poke t r v : get_systrap_size (poke_reg t r v) = get_systrap_size t.
Proof.
  unfold get_systrap_size. rewrite poke_reg_mode. unfold poke_reg.
  destruct (peek_reg t CURRENT r =? v); [done|].
  unfold is_32on64_mode, slot. destruct (is_aarch32 t) eqn:E; [|done]. simpl.
  unfold store32. rewrite chr_insert_ne; [done|]. by destruct r.
Qed.

Lemma systrap_poke_args args : forall t, get_systrap_size (poke_args t args) = get_systrap_size t.
Proof.
  induction args as [|[r v] args IH]; intros t; [done|]. cbn [poke_args fold_left].
  etrans; [apply IH | apply systrap_poke].
Qed.

Lemma wrap_wrap64 t v : wrap (reg_bits t) (wrap64 v) = wrap (reg_bits t) v.
Proof.
  unfold reg_bits, wrap64, wrap. destruct (is_aarch32 t); [|by rewrite Z.mod_mod].
  rewrite Z.mod_mod_divide; [done|]. by exists (2 ^ 32).
Qed.

Lemma peek_args_frame t t' v :
  (forall r, r <> SYSARG_NUM -> r <> INSTR_POINTER -> peek_reg t' v r = peek_reg t v r) ->
  peek_args t' v = peek_args t v.
Proof.
  intros H. unfold peek_args. apply map_ext_in. intros r Hr. apply H; intros ->;
    by apply list_elem_of_In in Hr; set_unfold; naive_solver.
Qed.

(** One step of the drain: the tracee is about to execute the head of the list
    again at its trap. *)
Lemma chain_next_syscall_step s c l :
  syscalls s = Some (c :: l) -> regs_ok (c_regs s) -> expressible (is_aarch32 (c_regs s)) c ->
  exists s', chain_next_syscall s = Ok s' /\ regs_ok (c_regs s')
    /\ is_aarch32 (c_regs s') = is_aarch32 (c_regs s) /\ syscalls s' = Some l
    /\ force_final_result s' = force_final_result s /\ final_result s' = final_result s
    /\ pending_call (c_regs s') = Ok c
    /\ peek_reg (c_regs s') CURRENT INSTR_POINTER
       = wrap (reg_bits (c_regs s)) (peek_reg (c_regs s) CURRENT INSTR_POINTER
                                     - get_systrap_size (c_regs s)).
Proof.
  intros Hs H (Hc & Hlen & Hrange). unfold chain_next_syscall. rewrite Hs.
  set (t1 := poke_args (set_restore (c_regs s) false) (zip sysarg_regs (sysargs c))).
  assert (H1 : regs_ok t1) by by apply poke_args_ok.
  assert (M1 : is_aarch32 t1 = is_aarch32 (c_regs s)) by (unfold t1; by rewrite poke_args_mode).
  destruct (poke_sysargs_peek (set_restore (c_regs s) false) (sysargs c) INSTR_POINTER) as [A1 A2];
    [done | done | done | set_solver | done |]. fold t1 in A1, A2.
  rewrite <- M1 in Hc. destruct (set_sysnum_callable t1 _ Hc H1) as (t2 & E & H2 & M2 & N2 & _ & F2).
  unfold set_sysnum in E. destruct (detranslate_sysnum (get_abi t1) (c_sysnum c)) as [n| |]; try done.
  cbn [res_bind] in *. injection E as E. rewrite E.
  set (ip := peek_reg t2 CURRENT INSTR_POINTER - get_systrap_size t2).
  eexists. split; [done|]. simpl. split; [by apply poke_reg_ok|].
  split; [rewrite poke_reg_mode; congruence|]. repeat (split; [done|]).
  assert (Hip : ip = peek_reg (c_regs s) CURRENT INSTR_POINTER - get_systrap_size (c_regs s)).
  { unfold ip. rewrite F2, A2 by done. f_equal. rewrite <- E, systrap_poke. unfold t1.
    by rewrite systrap_poke_args. }
  split.
  - unfold pending_call, get_sysnum, get_abi. rewrite poke_reg_mode, peek_poke_reg by done.
    change (same_slot INSTR_POINTER SYSARG_NUM) with false. cbv iota.
    unfold get_abi in N2. rewrite M2, N2. cbn [res_bind].
    rewrite (peek_args_frame t1); [rewrite A1; by destruct c|].
    intros r Hr1 Hr2. rewrite peek_poke_reg, F2 by done. by destruct r.
  - rewrite peek_poke_reg by done. change (same_slot INSTR_POINTER INSTR_POINTER) with true. cbv iota.
    rewrite wrap_wrap64, Hip. unfold reg_bits. by rewrite M2, M1.
Qed.

(** ** The drain *)

(** The life of a chain: at each exit stage the next call is forged, then the
    kernel executes it ([kernel], which may change any register but not the
    mode); the calls the tracee executes are collected. *)
Fixpoint drain (fuel : nat) (kernel : Regs -> Regs) (s : ChainTracee)
  : res (list ChainedSyscall * ChainTracee) :=
  match fuel with
  | O => Stuck NoFuel
  | S fuel =>
      let! s := chain_next_syscall s in
      match syscalls s with
      | None => Ok ([], s)
      | Some _ =>
          let! c := pending_call (c_regs s) in
          let! (cs, s) := drain fuel kernel
            (mkChain (kernel (c_regs s)) (syscalls s) (force_final_result s) (final_result s)
               (sysnum_workaround_state s) (restart_syscall s)) in
          Ok (c :: cs, s)
      end
  end.

Lemma drain_S fuel kernel s :
  drain (S fuel) kernel s =
    let! s := chain_next_syscall s in
    match syscalls s with
    | None => Ok ([], s)
    | Some _ =>
        let! c := pending_call (c_regs s) in
        let! (cs, s) := drain fuel kernel
          (mkChain (kernel (c_regs s)) (syscalls s) (force_final_result s) (final_result s)
             (sysnum_workaround_state s) (restart_syscall s)) in
        Ok (c :: cs, s)
    end.
Proof. done. Qed.

Definition kernel_ok (kernel : Regs -> Regs) : Prop :=
  forall t, regs_ok t -> regs_ok (kernel t) /\ is_aarch32 (kernel t) = is_aarch32 t.

(** ** Properties *)

(** the chain is a FIFO that is drained completely: the registered calls are
    executed once each, in the order of their registration, whatever the kernel
    answers; then the list is freed and the tracee gets the forced result, if
    any. *)
Theorem chain_fifo kernel s l :
  syscalls s = Some l -> regs_ok (c_regs s) -> kernel_ok kernel ->
  Forall (expressible (is_aarch32 (c_regs s))) l ->
  exists s', drain (S (length l)) kernel s = Ok (l, s')
    /\ syscalls s' = None /\ force_final_result s' = false
    /\ (force_final_result s = true ->
        peek_reg (c_regs s') CURRENT SYSARG_RESULT
        = wrap (reg_bits (c_regs s)) (final_result s)).
Proof.
  intros Hs H Hk Hl. revert s Hs H Hl. induction l as [|c l IH]; intros s Hs H Hl.
  - cbn [drain length]. unfold chain_next_syscall. rewrite Hs. cbn [res_bind syscalls].
    eexists. split; [done|]. split; [done|]. split; [done|]. simpl. intros ->.
    rewrite peek_poke_reg by done. by change (same_slot SYSARG_RESULT SYSARG_RESULT) with true.
  - inversion Hl as [|? ? Hc Hl']; subst. cbn [length]. rewrite drain_S.
    destruct (chain_next_syscall_step s c l Hs H Hc) as (s1 & -> & H1 & M1 & S1 & F1 & R1 & P1 & _).
    cbn [res_bind]. rewrite S1, P1. cbn [res_bind].
    destruct (Hk _ H1) as [H2 M2].
    destruct (IH (mkChain (kernel (c_regs s1)) (Some l) (force_final_result s1) (final_result s1)
      (sysnum_workaround_state s1) (restart_syscall s1))) as (s' & -> & E1 & E2 & E3); simpl.
    + done.
    + done.
    + by rewrite M2, M1.
    + cbn [res_bind]. exists s'. split; [done|]. split; [done|]. split; [done|].
      intros Hf. rewrite E3 by (simpl; congruence). simpl. unfold reg_bits. by rewrite M2, M1, R1.
Qed.

Definition demo_chain : ChainTracee :=
  force_chain_final_result
    (register_chained_syscall
       (register_chained_syscall (mkChain (demo_regs false) None false 0 SYSNUM_WORKAROUND_INACTIVE false)
          PR_close [3; 0; 0; 0; 0; 0])
       PR_chdir [0x7000; 0; 0; 0; 0; 0]) 42.

Lemma chain_fifo_witness :
  exists s', drain 3 (fun t => poke_reg t SYSARG_RESULT 0) demo_chain
    = Ok ([mkChained PR_close [3; 0; 0; 0; 0; 0]; mkChained PR_chdir [0x7000; 0; 0; 0; 0; 0]], s')
    /\ peek_reg (c_regs s') CURRENT SYSARG_RESULT = 42.
Proof.
  destruct (chain_fifo (fun t => poke_reg t SYSARG_RESULT 0) demo_chain
    [mkChained PR_close [3; 0; 0; 0; 0; 0]; mkChained PR_chdir [0x7000; 0; 0; 0; 0; 0]])
    as (s' & E & _ & _ & R).
  - done.
  - apply demo_regs_ok.
  - intros t Ht. split; [by apply poke_reg_ok | apply poke_reg_mode].
  - repeat constructor; by vm_compute.
  - exists s'. split; [exact E|]. rewrite R; by vm_compute.
Defined.
