(* ===== verification/PipeShadow.v ===== *)
(** * Shadow pipes (src/syscall/pipe_shadow.c)

    The references PRoot keeps on the read ends of the pipes its tracees close,
    so that their writers do not get EPIPE. *)

From S2P Require Import Prelude.

Definition MAX_SHADOW_PIPES : nat := 32.

(** ** Data *)

(** The static variables of the file. *)
Record ShadowState := mkShadow {
  shadow_fds : list Z;
  shadow_fds_initialised : bool;
  shadow_active : bool
}.

(** Statically allocated objects are 0. *)
Definition initial : ShadowState := mkShadow (replicate MAX_SHADOW_PIPES 0) false false.

(** What the kernel answers about a descriptor of a tracee: the target of
    "/proc/<pid>/fd/<fd>", the lines of "/proc/<pid>/fdinfo/<fd>", and the
    descriptor that opening the former gives. *)
Record ProcFd := mkProcFd {
  fd_link : option cstr;
  fdinfo : option (list cstr);
  fd_open : option Z
}.

(** The effects on the descriptors of PRoot. *)
Inductive Effect := Opened (fd : Z) | Closed (fd : Z).

Definition O_ACCMODE := 3.
Definition O_RDONLY := 0.

(** ** Operations *)

Definition ensure_init (s : ShadowState) : ShadowState :=
  if shadow_fds_initialised s then s
  else mkShadow (replicate MAX_SHADOW_PIPES (-1)) true (shadow_active s).

(** sscanf(_, " %lo"): an octal number, if there is one. *)
Definition is_octal (c : Z) : bool := (48 <=? c) && (c <=? 55).
Definition is_blank (c : Z) : bool := (c =? 32) || ((9 <=? c) && (c <=? 13)).
Definition scan_octal (s : cstr) : option Z :=
  let ds := fst (span is_octal (snd (span is_blank s))) in
  if bool_decide (ds = []) then None
  else Some (fold_left (fun a c => 8 * a + (c - 48)) ds 0).

(** The loop over the lines of fdinfo. *)
Fixpoint scan_flags (lines : list cstr) : Z :=
  match lines with
  | [] => 1
  | line :: lines =>
      if str_eqb (take 6 line) (bs "flags:") then default 1 (scan_octal (drop 6 line))
      else scan_flags lines
  end.

Fixpoint free_slot (fds : list Z) : option nat :=
  match fds with
  | [] => None
  | fd :: fds => if fd =? -1 then Some 0%nat else S <$> free_slot fds
  end.

(** The fd is an anonymous pipe and its read end. *)
Definition is_pipe_read_end (p : ProcFd) : bool :=
  match fd_link p, fdinfo p with
  | Some link, Some lines =>
      str_eqb (take 6 (take 31 link)) (bs "pipe:[")
      && (Z.land (scan_flags lines) O_ACCMODE =? O_RDONLY)
  | _, _ => false
  end.

Definition shadow_pipe_read_end (p : ProcFd) (s : ShadowState) : ShadowState * list Effect :=
  let s := ensure_init s in
  if negb (shadow_active s) then (s, [])
  else if negb (is_pipe_read_end p) then (s, [])
  else
    let s := mkShadow (shadow_fds s) (shadow_fds_initialised s) true in
    match free_slot (shadow_fds s) with
    | None => (s, [])
    | Some i =>
        match fd_open p with
        | None => (s, [])
        | Some fd => (mkShadow (<[i := fd]> (shadow_fds s)) (shadow_fds_initialised s) true, [Opened fd])
        end
    end.

(** The loop of shadow_pipes_close_eof(); [hup] is poll(2) with POLLHUP. *)
Fixpoint close_eof_loop (hup : Z -> bool) (fds : list Z) : list Z * list Effect :=
  match fds with
  | [] => ([], [])
  | fd :: fds =>
      let '(fds', log) := close_eof_loop hup fds in
      if fd <? 0 then (fd :: fds', log)
      else if hup fd then (-1 :: fds', Closed fd :: log)
      else (fd :: fds', log)
  end.

Definition shadow_pipes_close_eof (hup : Z -> bool) (s : ShadowState) : ShadowState * list Effect :=
  if negb (shadow_active s) then (s, [])
  else if negb (shadow_fds_initialised s) then (s, [])
  else
    let '(fds, log) := close_eof_loop hup (shadow_fds s) in
    (mkShadow fds (shadow_fds_initialised s) (shadow_active s), log).

(** ** The life of PRoot *)

Inductive Event := ReadEndClosed (p : ProcFd) | Poll (hup : Z -> bool).

Definition step (e : Event) (s : ShadowState) : ShadowState * list Effect :=
  match e with
  | ReadEndClosed p => shadow_pipe_read_end p s
  | Poll hup => shadow_pipes_close_eof hup s
  end.

Fixpoint run (events : list Event) (s : ShadowState) : ShadowState * list Effect :=
  match events with
  | [] => (s, [])
  | e :: events =>
      let '(s, log) := step e s in
      let '(s, log') := run events s in
      (s, log ++ log')
  end.

(** The descriptors a log leaves open. *)
Definition effect_on (open : list Z) (e : Effect) : list Z :=
  match e with Opened fd => open ++ [fd] | Closed fd => filter (fun x => x <> fd) open end.

(** ** Lemmas *)

Lemma step_inactive e s :
  shadow_active s = false -> shadow_active (fst (step e s)) = false /\ snd (step e s) = [].
Proof.
  intros H. destruct e as [p|hup]; cbn [step].
  - unfold shadow_pipe_read_end.
    assert (He : shadow_active (ensure_init s) = false) by (unfold ensure_init; by case_bool).
    by rewrite He.
  - unfold shadow_pipes_close_eof. by rewrite H.
Qed.

(** The descriptors held in the table. *)
Definition held (s : ShadowState) : list Z := filter (fun fd => 0 <= fd) (shadow_fds s).

Lemma free_slot_spec fds i :
  free_slot fds = Some i -> exists l1 l2, fds = l1 ++ (-1) :: l2 /\ length l1 = i.
Proof.
  revert i. induction fds as [|fd fds IH]; intros i; cbn [free_slot]; [done|].
  destruct (fd =? -1) eqn:E.
  - apply Z.eqb_eq in E as ->. intros [= <-]. by exists [], fds.
  - intros H. apply fmap_Some in H as (j & Hj & ->). destruct (IH j Hj) as (l1 & l2 & -> & <-).
    by exists (fd :: l1), l2.
Qed.

Lemma free_slot_none fds : free_slot fds = None -> -1 ∉ fds.
Proof.
  induction fds as [|fd fds IH]; cbn [free_slot]; [set_solver|].
  destruct (fd =? -1) eqn:E; [done|]. apply Z.eqb_neq in E.
  intros H. apply fmap_None in H. set_solver.
Qed.

(** ** Properties *)

(** The latch never closes: [shadow_active] is tested before the only
    statement that sets it, so from the initial state no sequence of closed
    read ends and of polls ever opens (nor closes) a shadow descriptor, and the
    protection against EPIPE never happens. *)
Theorem pipe_shadow_never_active events :
  shadow_active (fst (run events initial)) = false /\ snd (run events initial) = [].
Proof.
  assert (H : forall s, shadow_active s = false ->
    shadow_active (fst (run events s)) = false /\ snd (run events s) = []); [|by apply H].
  induction events as [|e events IH]; intros s Hs; [done|]. cbn [run].
  destruct (step_inactive e s Hs) as [H1 H2]. destruct (step e s) as [s1 log]. simpl in *. subst log.
  destruct (IH s1 H1) as [H3 H4]. by destruct (run events s1) as [s2 log].
Qed.

(** Were the latch closed, a read end that is closed would be shadowed: the
    descriptor that is opened goes to a free slot of the table, none of the
    held descriptors is lost, and it is released by the first poll that sees
    no writer left. *)
Theorem pipe_shadow_latched s p fd :
  shadow_active s = true -> shadow_fds_initialised s = true -> -1 ∈ shadow_fds s ->
  is_pipe_read_end p = true -> fd_open p = Some fd -> 0 <= fd ->
  let '(s', log) := shadow_pipe_read_end p s in
  log = [Opened fd] /\ held s' ≡ₚ fd :: held s
  /\ forall hup, hup fd = true ->
     Closed fd ∈ snd (shadow_pipes_close_eof hup s') /\
     held (fst (shadow_pipes_close_eof hup s')) ≡ₚ filter (fun x => hup x = false) (held s').
Proof.
  intros Ha Hi Hfree Hp Ho Hfd. unfold shadow_pipe_read_end, ensure_init. rewrite Hi, Ha. cbn [negb].
  rewrite Hp. cbn [negb shadow_fds]. rewrite Ho.
  destruct (free_slot (shadow_fds s)) as [i|] eqn:E; [|by apply free_slot_none in E].
  apply free_slot_spec in E as (l1 & l2 & El & Hlen). split; [done|].
  assert (Hloop : forall hup l, filter (fun x => 0 <= x) (fst (close_eof_loop hup l))
    = filter (fun x => hup x = false) (filter (fun x => 0 <= x) l)
    /\ forall x, x ∈ l -> 0 <= x -> hup x = true -> Closed x ∈ snd (close_eof_loop hup l)).
  { intros hup l. induction l as [|x l [IH1 IH2]]; [split; [done | set_solver]|]. cbn [close_eof_loop].
    destruct (close_eof_loop hup l) as [fds log]. cbn [fst snd] in *.
    destruct (x <? 0) eqn:Ex; bool_facts.
    - cbn [fst snd]. rewrite !(filter_cons_False _ x) by lia. split; [done|]. intros y Hy. set_unfold. 
      intros. destruct Hy as [->|]; [lia | auto].
    - rewrite (filter_cons_True _ x l) by done. destruct (hup x) eqn:Eh; cbn [fst snd].
      + rewrite filter_cons_False, filter_cons_False by (lia || congruence). split; [done|]. set_solver.
      + rewrite !filter_cons_True by (lia || congruence). split; [by rewrite IH1|].
        intros y Hy. set_unfold. intros. destruct Hy as [->|]; [congruence | auto]. }
  rewrite El, <- Hlen, insert_app_r_alt, Nat.sub_diag by lia.
  change (<[0%nat:=fd]> (-1 :: l2)) with (fd :: l2).
  split.
  - unfold held. rewrite El. cbn [shadow_fds]. rewrite !filter_app.
    rewrite (filter_cons_True _ fd l2), (filter_cons_False _ (-1) l2) by lia.
    by rewrite Permutation_middle.
  - intros hup Hup. unfold shadow_pipes_close_eof. cbn [shadow_active shadow_fds_initialised negb].
    rewrite Hi. cbn [negb shadow_fds].
    destruct (Hloop hup (l1 ++ fd :: l2)) as [H1 H2]. unfold held. cbn [shadow_fds].
    destruct (close_eof_loop hup (l1 ++ fd :: l2)) as [fds log]. cbn [fst snd shadow_fds] in *.
    split; [apply H2; [set_solver | done | done]|].
    by apply reflexive_eq.
Qed.

Definition demo_proc : ProcFd :=
  mkProcFd (Some (bs "pipe:[1234]")) (Some [bs "pos: 0"; bs "flags:	0100000"]) (Some 9).

Lemma pipe_shadow_latched_witness :
  snd (shadow_pipe_read_end demo_proc (mkShadow (replicate MAX_SHADOW_PIPES (-1)) true true)) = [Opened 9].
Proof.
  pose proof (pipe_shadow_latched (mkShadow (replicate MAX_SHADOW_PIPES (-1)) true true) demo_proc 9
    ltac:(done) ltac:(done) ltac:(set_solver) ltac:(by vm_compute) ltac:(done) ltac:(done)) as H.
  destruct (shadow_pipe_read_end _ _) as [s' log]. by destruct H as (-> & _).
Defined.
