(* ===== verification/Seccomp.v ===== *)
(** * Seccomp filters (src/syscall/seccomp.c)

    The BPF program PRoot gives to the kernel so that only the system calls it
    handles are reported to it, and the merge of the lists of these calls.  The
    machine that executes BPF programs is an interface. *)

From stdpp Require Import sorting.
From S2P Require Import Prelude Sysnum.

(** ** Data *)

Record FilteredSysnum := filtered { value : Sysnum; flags : Z }.

#[export] Instance FilteredSysnum_eq_dec : EqDecision FilteredSysnum.
Proof. solve_decision. Defined.

Definition FILTER_SYSEXIT := 1.

Record SeccompArch := mkArch { arch_value : Z; abis : list Abi }.

(** SECCOMP_ARCHS of AArch64 (src/arch.h). *)
Definition AUDIT_ARCH_AARCH64 := 0xC00000B7.
Definition AUDIT_ARCH_ARM := 0x40000028.
Definition SECCOMP_ARCHS : list SeccompArch :=
  [mkArch AUDIT_ARCH_AARCH64 [ABI_DEFAULT]; mkArch AUDIT_ARCH_ARM [ABI_2]].

(** <linux/seccomp.h> and <linux/filter.h> *)
Definition SECCOMP_RET_KILL := 0.
Definition SECCOMP_RET_TRACE := 0x7ff00000.
Definition SECCOMP_RET_ALLOW := 0x7fff0000.

Definition BPF_LD := 0x00.
Definition BPF_JMP := 0x05.
Definition BPF_RET := 0x06.
Definition BPF_W := 0x00.
Definition BPF_ABS := 0x20.
Definition BPF_JA := 0x00.
Definition BPF_JEQ := 0x10.
Definition BPF_K := 0x00.

Record sock_filter := mkFilter { code : Z; jt : Z; jf : Z; k : Z }.
Definition BPF_STMT (c v : Z) : sock_filter := mkFilter c 0 0 v.
Definition BPF_JUMP (c v t f : Z) : sock_filter := mkFilter c t f v.

(** struct seccomp_data: the fields the filter reads, at their offsets. *)
Record seccomp_data := mkData { nr : Z; arch : Z }.
Definition syscall_offset := 0.
Definition arch_offset := 4.

(** struct sock_fprog: [len] is an unsigned short. *)
Record sock_fprog := mkProg { len : Z; filter : list sock_filter }.

Definition UINT32_MAX := 2 ^ 32 - 1.

(** ** Operations *)

Definition new_program_filter : sock_fprog := mkProg 0 [].

Definition add_statements (program : sock_fprog) (statements : list sock_filter) : sock_fprog :=
  mkProg (len program) (filter program ++ statements).

Definition LENGTH_TRACE_SYSCALL := 2.
Definition LENGTH_END_SECTION := 1.

Definition add_trace_syscall (program : sock_fprog) (syscall flag : Z) : res sock_fprog :=
  if UINT32_MAX <? syscall then Err ERANGE
  else Ok (add_statements program
    [BPF_JUMP (BPF_JMP + BPF_JEQ + BPF_K) syscall 0 1;
     BPF_STMT (BPF_RET + BPF_K) (SECCOMP_RET_TRACE + flag)]).

Definition end_arch_section (program : sock_fprog) (nb_traced_syscalls : Z) : res sock_fprog :=
  let program := add_statements program [BPF_STMT (BPF_RET + BPF_K) SECCOMP_RET_ALLOW] in
  if negb (zlen (filter program) - len program
           =? LENGTH_END_SECTION + nb_traced_syscalls * LENGTH_TRACE_SYSCALL)
  then Err ERANGE else Ok program.

Definition start_arch_section (program : sock_fprog) (arch nb_traced_syscalls : Z) : res sock_fprog :=
  let section_length := LENGTH_END_SECTION + nb_traced_syscalls * LENGTH_TRACE_SYSCALL in
  if (UINT32_MAX <? arch_offset) || (UINT32_MAX <? syscall_offset)
     || (UINT32_MAX - 1 <? section_length)
  then Err ERANGE
  else
    let program := add_statements program
      [BPF_STMT (BPF_LD + BPF_W + BPF_ABS) arch_offset;
       BPF_JUMP (BPF_JMP + BPF_JEQ + BPF_K) arch 1 0;
       BPF_STMT (BPF_JMP + BPF_JA + BPF_K) (section_length + 1);
       BPF_STMT (BPF_LD + BPF_W + BPF_ABS) syscall_offset] in
    Ok (mkProg (wrap 16 (zlen (filter program))) (filter program)).

Definition finalize_program_filter (program : sock_fprog) : sock_fprog :=
  let program := add_statements program [BPF_STMT (BPF_RET + BPF_K) SECCOMP_RET_KILL] in
  mkProg (wrap 16 (zlen (filter program))) (filter program).

(** qsort() with compare_sysnum(). *)
Definition compare_sysnum (a b : FilteredSysnum) : Prop := value a <= value b.
#[export] Instance compare_sysnum_dec a b : Decision (compare_sysnum a b).
Proof. unfold compare_sysnum. apply _. Defined.
Definition sort_filtered_sysnums (sysnums : list FilteredSysnum) : list FilteredSysnum :=
  merge_sort compare_sysnum sysnums.

(** The number of filtered system calls an ABI has. *)
Fixpoint count_traced (abi : Abi) (sysnums : list FilteredSysnum) : res Z :=
  match sysnums with
  | [] => Ok 0
  | s :: sysnums =>
      let! syscall := detranslate_sysnum abi (value s) in
      let! n := count_traced abi sysnums in
      Ok (if negb (syscall =? SYSCALL_AVOIDER) then n + 1 else n)
  end.

Fixpoint count_abis (abis : list Abi) (sysnums : list FilteredSysnum) : res Z :=
  match abis with
  | [] => Ok 0
  | abi :: abis =>
      let! n := count_traced abi sysnums in
      let! m := count_abis abis sysnums in
      Ok (n + m)
  end.

Fixpoint trace_sysnums (abi : Abi) (sysnums : list FilteredSysnum) (program : sock_fprog)
  : res sock_fprog :=
  match sysnums with
  | [] => Ok program
  | s :: sysnums =>
      let! syscall := detranslate_sysnum abi (value s) in
      if syscall =? SYSCALL_AVOIDER then trace_sysnums abi sysnums program
      else
        let! program := add_trace_syscall program syscall (flags s) in
        trace_sysnums abi sysnums program
  end.

Fixpoint trace_abis (abis : list Abi) (sysnums : list FilteredSysnum) (program : sock_fprog)
  : res sock_fprog :=
  match abis with
  | [] => Ok program
  | abi :: abis =>
      let! program := trace_sysnums abi sysnums program in
      trace_abis abis sysnums program
  end.

(** One iteration of the loop over the architectures. *)
Definition arch_section (a : SeccompArch) (sysnums : list FilteredSysnum) (program : sock_fprog)
  : res sock_fprog :=
  let! nb_traced_syscalls := count_abis (abis a) sysnums in
  let! program := start_arch_section program (arch_value a) nb_traced_syscalls in
  let! program := trace_abis (abis a) sysnums program in
  end_arch_section program nb_traced_syscalls.

Fixpoint arch_sections (archs : list SeccompArch) (sysnums : list FilteredSysnum)
    (program : sock_fprog) : res sock_fprog :=
  match archs with
  | [] => Ok program
  | a :: archs =>
      let! program := arch_section a sysnums program in
      arch_sections archs sysnums program
  end.

(** set_seccomp_filters(): the program given to prctl(2); [prctl] answers the
    two calls. *)
Definition set_seccomp_filters (prctl : option sock_fprog -> option Z)
    (sysnums : list FilteredSysnum) : res sock_fprog :=
  let sysnums := sort_filtered_sysnums sysnums in
  let! program := arch_sections SECCOMP_ARCHS sysnums new_program_filter in
  let program := finalize_program_filter program in
  match prctl None with
  | Some e => Err e
  | None => match prctl (Some program) with
            | Some e => Err e
            | None => Ok program
            end
  end.

(** List of sysnums handled by PRoot (on Android, AArch64). *)
Definition proot_sysnums : list FilteredSysnum := [
  filtered PR_accept FILTER_SYSEXIT; filtered PR_accept4 FILTER_SYSEXIT; filtered PR_access 0;
  filtered PR_acct 0; filtered PR_bind 0; filtered PR_brk FILTER_SYSEXIT;
  filtered PR_chdir FILTER_SYSEXIT; filtered PR_chmod 0; filtered PR_chown 0;
  filtered PR_chown32 0; filtered PR_chroot 0; filtered PR_clone 0; filtered PR_clone3 0;
  filtered PR_close 0; filtered PR_connect 0; filtered PR_creat 0; filtered PR_recvfrom 0;
  filtered PR_recvmsg 0; filtered PR_sendmmsg 0; filtered PR_sendmsg 0; filtered PR_sendto 0;
  filtered PR_socket 0; filtered PR_execve FILTER_SYSEXIT; filtered PR_execveat FILTER_SYSEXIT;
  filtered PR_faccessat 0; filtered PR_faccessat2 0; filtered PR_fchdir FILTER_SYSEXIT;
  filtered PR_fchmodat 0; filtered PR_fchmodat2 0; filtered PR_fchownat 0;
  filtered PR_fsconfig 0; filtered PR_fsmount 0; filtered PR_fsopen 0; filtered PR_fspick 0;
  filtered PR_fstatat64 0; filtered PR_futimesat 0; filtered PR_getcwd FILTER_SYSEXIT;
  filtered PR_getpeername FILTER_SYSEXIT; filtered PR_getsockname FILTER_SYSEXIT;
  filtered PR_getxattr 0; filtered PR_inotify_add_watch 0; filtered PR_ioctl 0;
  filtered PR_lchown 0; filtered PR_lchown32 0; filtered PR_lgetxattr 0; filtered PR_link 0;
  filtered PR_linkat 0; filtered PR_listxattr 0; filtered PR_llistxattr 0;
  filtered PR_lremovexattr 0; filtered PR_lsetxattr 0; filtered PR_lstat 0;
  filtered PR_lstat64 0; filtered PR_memfd_create 0; filtered PR_mkdir 0;
  filtered PR_mkdirat 0; filtered PR_mknod 0; filtered PR_mknodat 0;
  filtered PR_mount FILTER_SYSEXIT; filtered PR_mount_setattr 0; filtered PR_move_mount 0;
  filtered PR_name_to_handle_at 0; filtered PR_newfstatat 0; filtered PR_oldlstat 0;
  filtered PR_oldstat 0; filtered PR_open 0; filtered PR_open_tree 0;
  filtered PR_open_tree_attr 0; filtered PR_openat 0; filtered PR_openat2 0;
  filtered PR_pivot_root FILTER_SYSEXIT; filtered PR_prctl 0;
  filtered PR_prlimit64 FILTER_SYSEXIT; filtered PR_ptrace FILTER_SYSEXIT;
  filtered PR_readlink FILTER_SYSEXIT; filtered PR_readlinkat FILTER_SYSEXIT;
  filtered PR_removexattr 0; filtered PR_rename FILTER_SYSEXIT;
  filtered PR_renameat FILTER_SYSEXIT; filtered PR_renameat2 0; filtered PR_rmdir 0;
  filtered PR_setrlimit FILTER_SYSEXIT; filtered PR_setxattr 0;
  filtered PR_socketcall FILTER_SYSEXIT; filtered PR_stat 0; filtered PR_stat64 0;
  filtered PR_statfs FILTER_SYSEXIT; filtered PR_statfs64 FILTER_SYSEXIT;
  filtered PR_statx FILTER_SYSEXIT; filtered PR_swapoff 0; filtered PR_swapon 0;
  filtered PR_symlink 0; filtered PR_symlinkat 0; filtered PR_truncate 0;
  filtered PR_truncate64 0; filtered PR_umount FILTER_SYSEXIT;
  filtered PR_umount2 FILTER_SYSEXIT; filtered PR_uname 0; filtered PR_unshare FILTER_SYSEXIT;
  filtered PR_setns FILTER_SYSEXIT; filtered PR_unlink 0; filtered PR_unlinkat 0;
  filtered PR_uselib 0; filtered PR_utime FILTER_SYSEXIT; filtered PR_utimensat 0;
  filtered PR_utimes 0; filtered PR_wait4 FILTER_SYSEXIT; filtered PR_waitpid FILTER_SYSEXIT].

(** The inner loop of merge_filtered_sysnums(). *)
Fixpoint merge_one (sysnums : list FilteredSysnum) (new : FilteredSysnum) : list FilteredSysnum :=
  match sysnums with
  | [] => [new]
  | s :: sysnums =>
      if value s =? value new
      then filtered (value s) (Z.lor (flags s) (flags new)) :: sysnums
      else s :: merge_one sysnums new
  end.

(** merge_filtered_sysnums(); the lists are without their terminator. *)
Definition merge_filtered_sysnums (sysnums new_sysnums : list FilteredSysnum) : list FilteredSysnum :=
  fold_left merge_one new_sysnums sysnums.

(** The lists of the extensions, [None] for a NULL pointer. *)
Definition Extensions := list (option (list FilteredSysnum)).

Definition all_filtered_sysnums (extensions : Extensions) : list FilteredSysnum :=
  fold_left (fun l e => match e with Some new => merge_filtered_sysnums l new | None => l end)
    extensions (merge_filtered_sysnums [] proot_sysnums).

Definition enable_syscall_filtering (prctl : option sock_fprog -> option Z) (extensions : Extensions)
  : res sock_fprog :=
  set_seccomp_filters prctl (all_filtered_sysnums extensions).

Definition add_flags (sysnum : Sysnum) (f : Z) (s : FilteredSysnum) : Z :=
  if value s =? sysnum then Z.lor f (flags s) else f.

Definition filtered_sysnum_flags (extensions : Extensions) (sysnum : Sysnum) : Z :=
  fold_left (fun f e => match e with Some l => fold_left (add_flags sysnum) l f | None => f end)
    extensions (fold_left (add_flags sysnum) proot_sysnums 0).

(** ** The machine *)

(** The word of struct seccomp_data at an offset. *)
Definition data_at (d : seccomp_data) (o : Z) : Z :=
  if o =? syscall_offset then nr d else arch d.

(** A machine that executes the four kinds of instructions PRoot emits, as
    classic BPF does: [bpf_exec program pc accumulator data]. *)
Class BpfMachine := {
  bpf_exec : list sock_filter -> nat -> Z -> seccomp_data -> option Z;
  bpf_ret prog pc a d v :
    prog !! pc = Some (BPF_STMT (BPF_RET + BPF_K) v) -> bpf_exec prog pc a d = Some v;
  bpf_ld prog pc a d o :
    prog !! pc = Some (BPF_STMT (BPF_LD + BPF_W + BPF_ABS) o) ->
    bpf_exec prog pc a d = bpf_exec prog (S pc) (data_at d o) d;
  bpf_jeq prog pc a d v t f :
    prog !! pc = Some (BPF_JUMP (BPF_JMP + BPF_JEQ + BPF_K) v t f) ->
    bpf_exec prog pc a d = bpf_exec prog (S pc + Z.to_nat (if Z.eqb a v then t else f)) a d;
  bpf_ja prog pc a d v :
    prog !! pc = Some (BPF_STMT (BPF_JMP + BPF_JA + BPF_K) v) ->
    bpf_exec prog pc a d = bpf_exec prog (S pc + Z.to_nat v) a d
}.

(** An interpreter: every jump is forward, so the length of the program bounds
    the number of steps. *)
Fixpoint interpret (fuel : nat) (prog : list sock_filter) (pc : nat) (a : Z) (d : seccomp_data)
  : option Z :=
  match fuel with
  | O => None
  | S fuel =>
      match prog !! pc with
      | None => None
      | Some i =>
          if code i =? BPF_RET + BPF_K then Some (k i)
          else if code i =? BPF_LD + BPF_W + BPF_ABS then interpret fuel prog (S pc) (data_at d (k i)) d
          else if code i =? BPF_JMP + BPF_JEQ + BPF_K
          then interpret fuel prog (S pc + Z.to_nat (if a =? k i then jt i else jf i)) a d
          else if code i =? BPF_JMP + BPF_JA + BPF_K
          then interpret fuel prog (S pc + Z.to_nat (k i)) a d
          else None
      end
  end.

Lemma interpret_fuel prog : forall fuel fuel' pc a d,
  (length prog <= fuel + pc)%nat -> (length prog <= fuel' + pc)%nat ->
  interpret fuel prog pc a d = interpret fuel' prog pc a d.
Proof.
  induction fuel as [|fuel IH]; intros fuel' pc a d H1 H2.
  - destruct fuel' as [|fuel']; [done|]. simpl. by rewrite lookup_ge_None_2 by lia.
  - destruct fuel' as [|fuel']; simpl; [by rewrite lookup_ge_None_2 by lia|].
    destruct (prog !! pc) as [i|]; [|done]. repeat (case_bool; [try done; apply IH; lia|]). done.
Qed.

(** One step, with the fuel put back to the length of the program. *)
Lemma interpret_step prog pc a d i : prog !! pc = Some i ->
  interpret (length prog) prog pc a d =
    if code i =? BPF_RET + BPF_K then Some (k i)
    else if code i =? BPF_LD + BPF_W + BPF_ABS
    then interpret (length prog) prog (S pc) (data_at d (k i)) d
    else if code i =? BPF_JMP + BPF_JEQ + BPF_K
    then interpret (length prog) prog (S pc + Z.to_nat (if a =? k i then jt i else jf i)) a d
    else if code i =? BPF_JMP + BPF_JA + BPF_K
    then interpret (length prog) prog (S pc + Z.to_nat (k i)) a d
    else None.
Proof.
  intros H. pose proof (lookup_lt_Some _ _ _ H) as Hl.
  transitivity (interpret (S (length prog)) prog pc a d); [apply interpret_fuel; lia|].
  cbn [interpret]. by rewrite H.
Qed.

#[export] Instance bpf_interpreter : BpfMachine.
Proof.
  refine {| bpf_exec prog pc a d := interpret (length prog) prog pc a d |};
    intros * H; rewrite (interpret_step _ _ _ _ _ H); reflexivity.
Defined.

(** ** Closed form of the program *)

(** The numbers an ABI traces, with their flags, in the order of the list. *)
Definition traced_number (abi : Abi) (s : FilteredSysnum) : option (Z * Z) :=
  match detranslate_sysnum abi (value s) with
  | Ok n => if n =? SYSCALL_AVOIDER then None else Some (n, flags s)
  | _ => None
  end.
Definition traced (abi : Abi) (sysnums : list FilteredSysnum) : list (Z * Z) :=
  omap (traced_number abi) sysnums.

Definition trace_stmts (p : Z * Z) : list sock_filter :=
  [BPF_JUMP (BPF_JMP + BPF_JEQ + BPF_K) p.1 0 1;
   BPF_STMT (BPF_RET + BPF_K) (SECCOMP_RET_TRACE + p.2)].

Definition section_stmts (a : Z) (l : list (Z * Z)) : list sock_filter :=
  [BPF_STMT (BPF_LD + BPF_W + BPF_ABS) arch_offset;
   BPF_JUMP (BPF_JMP + BPF_JEQ + BPF_K) a 1 0;
   BPF_STMT (BPF_JMP + BPF_JA + BPF_K) (LENGTH_END_SECTION + zlen l * LENGTH_TRACE_SYSCALL + 1);
   BPF_STMT (BPF_LD + BPF_W + BPF_ABS) syscall_offset]
  ++ concat (map trace_stmts l) ++ [BPF_STMT (BPF_RET + BPF_K) SECCOMP_RET_ALLOW].

(** A list of filtered system calls as enable_syscall_filtering() builds it. *)
Definition sysnums_ok (l : list FilteredSysnum) : Prop :=
  NoDup (value <$> l) /\ Forall (fun s => value s <> PR_void) l.

Lemma count_traced_ok abi l :
  abi <> ABI_3 -> Forall (fun s => value s <> PR_void) l ->
  count_traced abi l = Ok (zlen (traced abi l)).
Proof.
  intros Ha. induction 1 as [|s l Hs Hl IH]; [done|]. cbn [count_traced traced omap list_omap].
  unfold traced_number at 1.
  destruct (detranslate_cases abi (value s) Ha Hs) as [(n & -> & Hn & _)|[-> _]];
    cbn [res_bind]; rewrite IH; cbn [res_bind].
  - pose proof (table_small abi). assert (Hne : n <> SYSCALL_AVOIDER) by (unfold SYSCALL_AVOIDER; lia).
    rewrite (proj2 (Z.eqb_neq _ _) Hne). cbn [negb]. fold (traced abi l). rewrite zlen_cons. f_equal. lia.
  - done.
Qed.

Lemma trace_sysnums_ok abi l : abi <> ABI_3 -> Forall (fun s => value s <> PR_void) l ->
  forall p, trace_sysnums abi l p
            = Ok (mkProg (len p) (filter p ++ concat (map trace_stmts (traced abi l)))).
Proof.
  intros Ha. induction 1 as [|s l Hs Hl IH]; intros p.
  { destruct p. cbn. by rewrite app_nil_r. }
  cbn [trace_sysnums traced omap list_omap]. unfold traced_number at 1.
  destruct (detranslate_cases abi (value s) Ha Hs) as [(n & -> & Hn & _)|[-> _]]; cbn [res_bind].
  - pose proof (table_small abi). assert (Hne : n <> SYSCALL_AVOIDER) by (unfold SYSCALL_AVOIDER; lia).
    rewrite (proj2 (Z.eqb_neq _ _) Hne). fold (traced abi l). unfold add_trace_syscall.
    rewrite (proj2 (Z.ltb_ge _ _)) by (unfold UINT32_MAX; lia). cbn [res_bind]. rewrite IH.
    cbn [add_statements len filter map concat trace_stmts fst snd]. by rewrite <- app_assoc.
  - apply IH.
Qed.

(** A number is traced once at most. *)
Lemma traced_nodup abi l : abi <> ABI_3 -> sysnums_ok l -> NoDup ((traced abi l).*1).
Proof.
  intros Ha [Hn Hv]. induction Hv as [|s l Hs Hl IH]; [apply NoDup_nil_2|].
  inversion Hn as [|? ? Hnot Hn']; subst. cbn [traced omap list_omap]. fold (traced abi l).
  destruct (traced_number abi s) as [[n fl]|] eqn:E; [|auto]. cbn [fmap list_fmap fst].
  apply NoDup_cons. split; [|auto]. intros Hin. apply Hnot.
  apply list_elem_of_fmap in Hin as ([n' fl'] & En & Hin). simpl in En. subst n'.
  unfold traced in Hin. apply list_elem_of_omap in Hin as (s' & Hs' & E').
  apply list_elem_of_fmap. exists s'. split; [|done].
  rewrite Forall_forall in Hl. specialize (Hl s' Hs'). unfold traced_number in E, E'.
  destruct (detranslate_cases abi (value s) Ha Hs) as [(n1 & E1 & R1 & T1)|[E1 _]]; rewrite E1 in E; [|done].
  destruct (detranslate_cases abi (value s') Ha Hl) as [(n2 & E2 & R2 & T2)|[E2 _]]; rewrite E2 in E'; [|done].
  case_bool_in E; [done|]. case_bool_in E'; [done|]. injection E as <- <-. injection E' as ? ?. congruence.
Qed.

Lemma traced_range abi l : abi <> ABI_3 -> Forall (fun s => value s <> PR_void) l ->
  forall p, p ∈ traced abi l -> 0 <= p.1 < 512.
Proof.
  intros Ha Hl [n fl] Hin. unfold traced in Hin. apply list_elem_of_omap in Hin as (s & Hs & E).
  rewrite Forall_forall in Hl. unfold traced_number in E. pose proof (table_small abi).
  destruct (detranslate_cases abi (value s) Ha (Hl s Hs)) as [(n1 & E1 & R1 & T1)|[E1 _]];
    rewrite E1 in E; [|done]. case_bool_in E; [done|]. injection E as <- <-. simpl. lia.
Qed.

Lemma traced_length abi l : abi <> ABI_3 -> sysnums_ok l -> zlen (traced abi l) <= 512.
Proof.
  intros Ha Hl. pose proof (traced_nodup abi l Ha Hl) as Hn. destruct Hl as [_ Hl].
  assert (Hsub : (traced abi l).*1 ⊆+ seqZ 0 512).
  { apply NoDup_submseteq; [done|]. intros n Hin. apply list_elem_of_fmap in Hin as (p & -> & Hp).
    apply elem_of_seqZ. pose proof (traced_range abi l Ha Hl p Hp). lia. }
  apply submseteq_length in Hsub. rewrite length_fmap, length_seqZ in Hsub. unfold zlen. lia.
Qed.

Definition whole_program (l : list FilteredSysnum) : list sock_filter :=
  section_stmts AUDIT_ARCH_AARCH64 (traced ABI_DEFAULT l)
  ++ section_stmts AUDIT_ARCH_ARM (traced ABI_2 l)
  ++ [BPF_STMT (BPF_RET + BPF_K) SECCOMP_RET_KILL].

Lemma concat_stmts_length l : length (concat (map trace_stmts l)) = (2 * length l)%nat.
Proof. induction l as [|p l IH]; [done|]. simpl. rewrite IH. lia. Qed.

Lemma section_length a l : length (section_stmts a l) = (5 + 2 * length l)%nat.
Proof. unfold section_stmts. rewrite !length_app, concat_stmts_length. simpl. lia. Qed.

Lemma arch_section_ok a abi l p :
  abis a = [abi] -> abi <> ABI_3 -> sysnums_ok l -> zlen (filter p) <= 60000 ->
  exists n, arch_section a l p
            = Ok (mkProg n (filter p ++ section_stmts (arch_value a) (traced abi l))).
Proof.
  intros Ha Habi Hl Hp. pose proof (traced_length abi l Habi Hl) as Hn. destruct Hl as [Hd Hv].
  pose proof (zlen_nonneg (traced abi l)) as H0.
  unfold arch_section. rewrite Ha. cbn [count_abis]. rewrite count_traced_ok by done. cbn [res_bind].
  rewrite Z.add_0_r. unfold start_arch_section.
  assert (E : (UINT32_MAX <? arch_offset) || (UINT32_MAX <? syscall_offset)
     || (UINT32_MAX - 1 <? LENGTH_END_SECTION + zlen (traced abi l) * LENGTH_TRACE_SYSCALL) = false).
  { unfold UINT32_MAX, arch_offset, syscall_offset, LENGTH_END_SECTION, LENGTH_TRACE_SYSCALL. lia. }
  rewrite E. cbn [res_bind trace_abis]. rewrite trace_sysnums_ok by done.
  cbn [res_bind len filter add_statements]. unfold end_arch_section. cbn [len filter add_statements].
  rewrite wrap_small.
  2: { rewrite zlen_app. unfold zlen in *. simpl length. split; [lia|]. change (2 ^ 16) with 65536. lia. }
  rewrite (proj2 (Z.eqb_eq _ _)).
  2: { unfold zlen, LENGTH_END_SECTION, LENGTH_TRACE_SYSCALL. rewrite !length_app, concat_stmts_length.
       simpl length. lia. }
  cbn [negb]. eexists. unfold section_stmts, add_statements. cbn [len filter]. by rewrite <- !app_assoc.
Qed.

Lemma sections_ok l : sysnums_ok l ->
  exists program, arch_sections SECCOMP_ARCHS l new_program_filter = Ok program
    /\ finalize_program_filter program = mkProg (zlen (whole_program l)) (whole_program l).
Proof.
  intros Hl. pose proof (traced_length ABI_DEFAULT l ltac:(done) Hl) as H1.
  pose proof (traced_length ABI_2 l ltac:(done) Hl) as H2. unfold SECCOMP_ARCHS. cbn [arch_sections].
  destruct (arch_section_ok (mkArch AUDIT_ARCH_AARCH64 [ABI_DEFAULT]) ABI_DEFAULT l new_program_filter)
    as [n1 ->]; [done|done|done|by vm_compute|]. cbn [res_bind].
  destruct (arch_section_ok (mkArch AUDIT_ARCH_ARM [ABI_2]) ABI_2 l
    (mkProg n1 (filter new_program_filter ++ section_stmts AUDIT_ARCH_AARCH64 (traced ABI_DEFAULT l))))
    as [n2 E2]; [done|done|done| |].
  { cbn [filter new_program_filter]. unfold zlen in *. cbn [app]. rewrite section_length. lia. }
  cbn [arch_value]. cbn [arch_value filter new_program_filter app] in E2 |- *. rewrite E2.
  cbn [res_bind]. eexists; split; [done|].
  unfold finalize_program_filter, whole_program. cbn [filter add_statements].
  rewrite <- !app_assoc, wrap_small; [done|].
  unfold zlen in *. rewrite !length_app, !section_length. simpl length.
  change (2 ^ 16) with 65536. lia.
Qed.

(** ** Execution of the program *)

Section Execution.
Context {Hmachine : BpfMachine}.

Lemma exec_traces : forall l pre post d, NoDup l.*1 ->
  bpf_exec (pre ++ concat (map trace_stmts l) ++ BPF_STMT (BPF_RET + BPF_K) SECCOMP_RET_ALLOW :: post)
    (length pre) (nr d) d
  = Some (match List.find (fun p => nr d =? p.1) l with
          | Some p => SECCOMP_RET_TRACE + p.2
          | None => SECCOMP_RET_ALLOW
          end).
Proof.
  induction l as [|[n f] l IH]; intros pre post d Hn.
  - cbn [map concat app]. apply bpf_ret. by rewrite list_lookup_middle.
  - cbn [map concat List.find fst snd]. rewrite <- app_assoc. cbn [app trace_stmts fst snd].
    erewrite bpf_jeq by (by rewrite list_lookup_middle).
    cbn [fmap list_fmap fst] in Hn. apply NoDup_cons in Hn as [_ Hn].
    destruct (nr d =? n).
    + apply bpf_ret. rewrite lookup_app_r by lia. by replace (_ - _)%nat with 1%nat by lia.
    + specialize (IH (pre ++ trace_stmts (n, f)) post d Hn).
      rewrite <- app_assoc, length_app in IH. cbn [trace_stmts app length fst snd] in IH.
      rewrite <- IH. f_equal. lia.
Qed.

Lemma exec_section v l pre post acc d : NoDup l.*1 ->
  bpf_exec (pre ++ section_stmts v l ++ post) (length pre) acc d
  = if arch d =? v
    then Some (match List.find (fun p => nr d =? p.1) l with
               | Some p => SECCOMP_RET_TRACE + p.2
               | None => SECCOMP_RET_ALLOW
               end)
    else bpf_exec (pre ++ section_stmts v l ++ post) (length (pre ++ section_stmts v l)) (arch d) d.
Proof.
  intros Hn. unfold section_stmts at 1. rewrite <- app_assoc. cbn [app].
  erewrite bpf_ld by (by rewrite list_lookup_middle). unfold data_at. cbn [Z.eqb arch_offset syscall_offset].
  erewrite bpf_jeq.
  2: { rewrite lookup_app_r by lia. by replace (S (length pre) - length pre)%nat with 1%nat by lia. }
  destruct (arch d =? v).
  - change (Z.to_nat 1) with 1%nat. erewrite bpf_ld.
    2: { rewrite lookup_app_r by lia. by replace (_ - _)%nat with 3%nat by lia. }
    unfold data_at. cbn [Z.eqb arch_offset syscall_offset].
    pose proof (exec_traces l (pre ++ take 4 (section_stmts v l)) post d Hn) as E.
    rewrite <- app_assoc, length_app in E. cbn [take section_stmts app length] in E.
    rewrite take_0 in E. cbn [app length] in E.
    rewrite <- E. rewrite <- app_assoc. cbn [app]. f_equal. lia.
  - change (Z.to_nat 0) with 0%nat. erewrite bpf_ja.
    2: { rewrite lookup_app_r by lia. by replace (_ - _)%nat with 2%nat by lia. }
    f_equal. rewrite length_app, section_length.
    unfold zlen, LENGTH_END_SECTION, LENGTH_TRACE_SYSCALL. lia.
Qed.
End Execution.

(** ** Sorting and merging the lists *)

Lemma sort_permutation l : sort_filtered_sysnums l ≡ₚ l.
Proof. apply merge_sort_Permutation. Qed.

Lemma sysnums_ok_proper l l' : l ≡ₚ l' -> sysnums_ok l -> sysnums_ok l'.
Proof. intros E [H1 H2]. split; by rewrite <- E. Qed.

(** The flags of a system call in a list. *)
Definition flags_in (l : list FilteredSysnum) (sysnum : Sysnum) : option Z :=
  flags <$> List.find (fun s => value s =? sysnum) l.

Lemma flags_in_some l sysnum f : NoDup (value <$> l) ->
  flags_in l sysnum = Some f <-> filtered sysnum f ∈ l.
Proof.
  unfold flags_in. induction l as [|[v g] l IH]; intros Hn; [split; [done|by intros ?%elem_of_nil]|].
  cbn [List.find value fmap list_fmap]. cbn [fmap list_fmap value] in Hn.
  apply NoDup_cons in Hn as [Hnot Hn]. rewrite elem_of_cons. destruct (Z.eqb_spec v sysnum) as [->|Hne].
  - cbn [option_fmap option_map fmap flags]. split; [intros [= ->]; auto|]. intros [[= ->]|Hin]; [done|].
    destruct Hnot. apply list_elem_of_fmap. by exists (filtered sysnum f).
  - rewrite IH by done. split; [auto|]. intros [E|]; [injection E as -> ->; done|done].
Qed.

Lemma merge_one_values l new :
  value <$> merge_one l new = if bool_decide (value new ∈ value <$> l) then value <$> l
                              else (value <$> l) ++ [value new].
Proof.
  induction l as [|s l IH]; [done|]. cbn [merge_one fmap list_fmap].
  destruct (Z.eqb_spec (value s) (value new)) as [E|E].
  - rewrite bool_decide_eq_true_2; [done|]. rewrite E. left.
  - cbn [fmap list_fmap]. change (list_fmap _ _ value) with (fmap (M:=list) value). rewrite IH.
    destruct (decide (value new ∈ value <$> l)) as [H|H].
    + rewrite !bool_decide_eq_true_2; [done|by right|done].
    + rewrite !bool_decide_eq_false_2; [done| |done]. intros [H'|H']%elem_of_cons; congruence.
Qed.

Lemma merge_one_ok l new : sysnums_ok l -> value new <> PR_void -> sysnums_ok (merge_one l new).
Proof.
  intros [Hn Hv] Hnew. split.
  - rewrite merge_one_values. case_bool_decide as H; [done|]. apply NoDup_app. split; [done|].
    split; [|apply NoDup_singleton]. intros x Hx ->%list_elem_of_singleton. done.
  - induction Hv as [|s l Hs Hv IH]; [by apply Forall_singleton|]. cbn [merge_one].
    cbn [fmap list_fmap] in Hn. apply NoDup_cons in Hn as [_ Hn].
    case_bool; constructor; auto.
Qed.

Lemma merge_one_flags l new sysnum :
  flags_in (merge_one l new) sysnum
  = if value new =? sysnum
    then Some (Z.lor (default 0 (flags_in l sysnum)) (flags new)) else flags_in l sysnum.
Proof.
  unfold flags_in. induction l as [|s l IH]; cbn [merge_one List.find value].
  { by destruct (Z.eqb_spec (value new) sysnum). }
  destruct (Z.eqb_spec (value s) (value new)) as [E|E]; cbn [List.find value].
  - rewrite E. by destruct (Z.eqb_spec (value new) sysnum).
  - destruct (Z.eqb_spec (value s) sysnum) as [E'|E'].
    + by rewrite (proj2 (Z.eqb_neq (value new) sysnum)) by congruence.
    + apply IH.
Qed.

Lemma merge_flags new l sysnum :
  default 0 (flags_in (merge_filtered_sysnums l new) sysnum)
  = fold_left (add_flags sysnum) new (default 0 (flags_in l sysnum)).
Proof.
  revert l. induction new as [|s new IH]; intros l; [done|].
  unfold merge_filtered_sysnums in *. cbn [fold_left]. rewrite IH, merge_one_flags. f_equal.
  unfold add_flags. by destruct (value s =? sysnum).
Qed.

Lemma merge_ok new l : sysnums_ok l -> Forall (fun s => value s <> PR_void) new ->
  sysnums_ok (merge_filtered_sysnums l new).
Proof.
  intros Hl Hnew. revert l Hl. induction Hnew as [|s new Hs Hnew IH]; intros l Hl; [done|].
  apply IH. by apply merge_one_ok.
Qed.

(** The lists of the extensions end at PR_void, so it is in none of them. *)
Definition extensions_ok (extensions : Extensions) : Prop :=
  Forall (fun e => Forall (fun s => value s <> PR_void) (default [] e)) extensions.

Lemma all_ok extensions : extensions_ok extensions -> sysnums_ok (all_filtered_sysnums extensions).
Proof.
  unfold all_filtered_sysnums. intros H.
  assert (H0 : sysnums_ok (merge_filtered_sysnums [] proot_sysnums)).
  { apply merge_ok; [split; [apply NoDup_nil_2|constructor]|]. repeat constructor; by vm_compute. }
  revert H0. generalize (merge_filtered_sysnums [] proot_sysnums). clear -H.
  induction H as [|e ext He Hext IH]; intros l Hl; [done|]. cbn [fold_left]. apply IH.
  destruct e; [by apply merge_ok|done].
Qed.

Lemma all_flags extensions sysnum :
  default 0 (flags_in (all_filtered_sysnums extensions) sysnum) = filtered_sysnum_flags extensions sysnum.
Proof.
  unfold all_filtered_sysnums, filtered_sysnum_flags.
  rewrite <- (merge_flags proot_sysnums [] sysnum : default 0 _ = fold_left _ _ 0).
  generalize (merge_filtered_sysnums [] proot_sysnums).
  induction extensions as [|[e|] ext IH]; intros l; [done| |apply IH].
  cbn [fold_left]. rewrite IH. by rewrite merge_flags.
Qed.

(** ** What the program decides *)

#[local] Instance stuck_eq_dec : EqDecision stuck.
Proof. solve_decision. Defined.
#[local] Instance res_eq_dec `{EqDecision A} : EqDecision (res A).
Proof. solve_decision. Defined.

Lemma traced_elem abi l n f : abi <> ABI_3 -> sysnums_ok l ->
  (n, f) ∈ traced abi l <-> exists s, s ∈ l /\ detranslate_sysnum abi (value s) = Ok n
                                      /\ n <> SYSCALL_AVOIDER /\ flags s = f.
Proof.
  intros Ha [_ Hl]. unfold traced. rewrite list_elem_of_omap. split.
  - intros (s & Hs & E). exists s. rewrite Forall_forall in Hl. unfold traced_number in E.
    destruct (detranslate_cases abi (value s) Ha (Hl s Hs)) as [(m & Em & _)|[Em _]]; rewrite Em in E |- *;
      [|done]. case_bool_in E; [done|]. injection E as <- <-. split_and!; try done. lia.
  - intros (s & Hs & E & Hne & <-). exists s. split; [done|]. unfold traced_number. rewrite E.
    by rewrite (proj2 (Z.eqb_neq _ _)).
Qed.

Lemma find_pair (l : list (Z * Z)) n f : NoDup l.*1 -> (n, f) ∈ l ->
  List.find (fun p => n =? p.1) l = Some (n, f).
Proof.
  induction l as [|[m g] l IH]; intros Hn Hin; [by apply elem_of_nil in Hin|].
  cbn [fmap list_fmap fst] in Hn. apply NoDup_cons in Hn as [Hnot Hn]. cbn [List.find fst].
  apply elem_of_cons in Hin as [[= -> ->]|Hin]; [by rewrite Z.eqb_refl|].
  destruct (Z.eqb_spec n m) as [->|]; [|auto]. destruct Hnot. apply list_elem_of_fmap. by exists (m, f).
Qed.

(** The verdict on a number of an architecture's only ABI. *)
Definition verdict (abi : Abi) (l : list FilteredSysnum) (n : Z) : Z :=
  match List.find (fun p => n =? p.1) (traced abi l) with
  | Some p => SECCOMP_RET_TRACE + p.2
  | None => SECCOMP_RET_ALLOW
  end.

Lemma verdict_traced abi l s n : abi <> ABI_3 -> sysnums_ok l -> n <> SYSCALL_AVOIDER ->
  s ∈ l -> detranslate_sysnum abi (value s) = Ok n -> verdict abi l n = SECCOMP_RET_TRACE + flags s.
Proof.
  intros Ha Hl Hne Hs E. unfold verdict.
  rewrite (find_pair _ n (flags s)); [done|by apply traced_nodup|].
  apply traced_elem; [done..|]. by exists s.
Qed.

Lemma verdict_other abi l n : abi <> ABI_3 -> sysnums_ok l ->
  (forall s, s ∈ l -> detranslate_sysnum abi (value s) <> Ok n) -> verdict abi l n = SECCOMP_RET_ALLOW.
Proof.
  intros Ha Hl Hno. unfold verdict. destruct (List.find _ _) as [[m f]|] eqn:E; [|done].
  apply find_some in E as [Hin E]. apply list_elem_of_In in Hin. simpl in E. apply Z.eqb_eq in E as ->.
  apply traced_elem in Hin as (s & Hs & E & _); [|done..]. by destruct (Hno s).
Qed.

Lemma verdict_proper abi l l' n : abi <> ABI_3 -> l ≡ₚ l' -> sysnums_ok l -> n <> SYSCALL_AVOIDER ->
  verdict abi l n = verdict abi l' n.
Proof.
  intros Ha Hp Hl Hne. pose proof (sysnums_ok_proper _ _ Hp Hl) as Hl'.
  destruct (decide (Exists (fun s => detranslate_sysnum abi (value s) = Ok n) l)) as [Hex|Hno].
  - apply Exists_exists in Hex as (s & Hs & E).
    rewrite (verdict_traced abi l s n), (verdict_traced abi l' s n); try done. by rewrite <- Hp.
  - assert (H : forall s, s ∈ l -> detranslate_sysnum abi (value s) <> Ok n).
    { intros s Hs E. apply Hno, Exists_exists. by exists s. }
    rewrite !verdict_other; try done. intros s Hs. apply H. by rewrite Hp.
Qed.

Lemma exec_whole `{BpfMachine} l d : sysnums_ok l ->
  bpf_exec (whole_program l) 0 0 d
  = Some (if arch d =? AUDIT_ARCH_AARCH64 then verdict ABI_DEFAULT l (nr d)
          else if arch d =? AUDIT_ARCH_ARM then verdict ABI_2 l (nr d) else SECCOMP_RET_KILL).
Proof.
  intros Hl. unfold whole_program.
  assert (Hn : forall abi, abi <> ABI_3 -> NoDup (traced abi l).*1) by (intros; by apply traced_nodup).
  pose proof (exec_section AUDIT_ARCH_AARCH64 (traced ABI_DEFAULT l) []
    (section_stmts AUDIT_ARCH_ARM (traced ABI_2 l) ++ [BPF_STMT (BPF_RET + BPF_K) SECCOMP_RET_KILL])
    0 d (Hn ABI_DEFAULT ltac:(done))) as E.
  cbn [app length] in E. rewrite E. clear E. case_bool; [done|].
  rewrite (exec_section AUDIT_ARCH_ARM) by (by apply Hn). case_bool; [done|].
  apply bpf_ret. rewrite app_assoc. by rewrite list_lookup_middle.
Qed.

(** ** Properties *)

(** C23: when prctl(2) accepts it, the filter installed for a list of system
    calls fits the 16-bit length of struct sock_fprog and decides, on any
    machine that executes BPF, as intended: on the architecture of either ABI,
    the number of a system call of the list stops in PRoot with the flags of
    the list, any other number runs untraced, and any other architecture is
    killed. *)
Theorem seccomp_filter_decides `{BpfMachine} prctl sysnums :
  sysnums_ok sysnums -> (forall p, prctl p = None) ->
  exists program, set_seccomp_filters prctl sysnums = Ok program
    /\ len program = zlen (filter program) /\ len program < 2 ^ 16
    /\ forall d, 0 <= nr d < 2 ^ 32 ->
      (forall a abi, (a, abi) ∈ [(AUDIT_ARCH_AARCH64, ABI_DEFAULT); (AUDIT_ARCH_ARM, ABI_2)] ->
         arch d = a ->
         (forall s, s ∈ sysnums -> detranslate_sysnum abi (value s) = Ok (nr d) ->
            bpf_exec (filter program) 0 0 d = Some (SECCOMP_RET_TRACE + flags s))
         /\ ((forall s, s ∈ sysnums -> detranslate_sysnum abi (value s) <> Ok (nr d)) ->
            bpf_exec (filter program) 0 0 d = Some SECCOMP_RET_ALLOW))
      /\ (arch d <> AUDIT_ARCH_AARCH64 -> arch d <> AUDIT_ARCH_ARM ->
            bpf_exec (filter program) 0 0 d = Some SECCOMP_RET_KILL).
Proof.
  intros Hl Hprctl. pose proof (sysnums_ok_proper _ _ (symmetry (sort_permutation sysnums)) Hl) as Hl'.
  destruct (sections_ok _ Hl') as (p & E & Ef). eexists. unfold set_seccomp_filters.
  rewrite E. cbn [res_bind]. rewrite !Hprctl, Ef. split; [done|]. cbn [len filter]. split; [done|].
  split.
  { pose proof (traced_length ABI_DEFAULT _ ltac:(done) Hl'). pose proof (traced_length ABI_2 _ ltac:(done) Hl').
    unfold whole_program, zlen in *. rewrite !length_app, !section_length. simpl length.
    change (2 ^ 16) with 65536. lia. }
  intros d Hd. rewrite exec_whole by done.
  assert (Hne : nr d <> SYSCALL_AVOIDER) by (unfold SYSCALL_AVOIDER; lia).
  split; [intros a abi Hin Ha | intros Ha1 Ha2].
  - assert (abi <> ABI_3 /\ (if arch d =? AUDIT_ARCH_AARCH64 then
      verdict ABI_DEFAULT (sort_filtered_sysnums sysnums) (nr d) else if arch d =? AUDIT_ARCH_ARM
      then verdict ABI_2 (sort_filtered_sysnums sysnums) (nr d) else SECCOMP_RET_KILL)
      = verdict abi sysnums (nr d)) as [Habi ->].
    { rewrite Ha. apply elem_of_cons in Hin as [[= -> ->]|Hin];
        [|apply list_elem_of_singleton in Hin as [= -> ->]];
        (split; [done|]; cbn [Z.eqb]; apply verdict_proper; [done|apply sort_permutation|done|done]). }
    split; [intros s Hs Es | intros Hno]; f_equal; [by apply verdict_traced | by apply verdict_other].
  - by rewrite (proj2 (Z.eqb_neq _ _) Ha1), (proj2 (Z.eqb_neq _ _) Ha2).
Qed.

Lemma seccomp_filter_decides_witness :
  exists program, set_seccomp_filters (fun _ => None) [filtered PR_openat 0; filtered PR_brk 1] = Ok program
    /\ bpf_exec (filter program) 0 0 (mkData 214 AUDIT_ARCH_AARCH64) = Some (SECCOMP_RET_TRACE + 1).
Proof.
  assert (Hok : sysnums_ok [filtered PR_openat 0; filtered PR_brk 1]).
  { split; [apply (bool_decide_unpack _); by vm_compute|repeat constructor; by vm_compute]. }
  destruct (seccomp_filter_decides (fun _ => None) _ Hok (fun _ => eq_refl)) as (p & E & _ & _ & Hp).
  exists p. split; [exact E|].
  destruct (Hp (mkData 214 AUDIT_ARCH_AARCH64)) as [Ha _]; [by vm_compute|].
  destruct (Ha AUDIT_ARCH_AARCH64 ABI_DEFAULT) as [Ht _]; [by left|done|].
  apply (Ht (filtered PR_brk 1)); [by right; left|by vm_compute].
Defined.

(** once filtering is enabled, the flags the kernel reports for a system
    call PRoot or an extension filters are those filtered_sysnum_flags()
    computes from the same lists, on both architectures; this is what lets
    handle_tracee_event() replace the message of a kernel that loses it. *)
Theorem filtering_reports_flags `{BpfMachine} prctl extensions sysnum f d :
  extensions_ok extensions -> (forall p, prctl p = None) ->
  filtered sysnum f ∈ all_filtered_sysnums extensions ->
  0 <= nr d < 2 ^ 32 ->
  (arch d = AUDIT_ARCH_AARCH64 /\ detranslate_sysnum ABI_DEFAULT sysnum = Ok (nr d)
   \/ arch d = AUDIT_ARCH_ARM /\ detranslate_sysnum ABI_2 sysnum = Ok (nr d)) ->
  exists program, enable_syscall_filtering prctl extensions = Ok program
    /\ bpf_exec (filter program) 0 0 d
       = Some (SECCOMP_RET_TRACE + filtered_sysnum_flags extensions sysnum).
Proof.
  intros Hext Hprctl Hin Hd Harch. set (l := all_filtered_sysnums extensions) in *.
  pose proof (all_ok _ Hext) as Hl. fold l in Hl.
  pose proof (sysnums_ok_proper _ _ (symmetry (sort_permutation l)) Hl) as Hl'.
  destruct (sections_ok _ Hl') as (p & E & Ef). eexists. unfold enable_syscall_filtering, set_seccomp_filters.
  fold l. rewrite E. cbn [res_bind]. rewrite !Hprctl, Ef. split; [done|]. cbn [filter].
  rewrite exec_whole by done. rewrite <- all_flags. fold l.
  rewrite (proj2 (flags_in_some l sysnum f (proj1 Hl)) Hin). cbn [default from_option].
  assert (Hne : nr d <> SYSCALL_AVOIDER) by (unfold SYSCALL_AVOIDER; lia).
  assert (Hs : filtered sysnum f ∈ sort_filtered_sysnums l) by (by rewrite sort_permutation).
  destruct Harch as [[-> Ed]|[-> Ed]]; cbn [Z.eqb]; f_equal;
    by apply (verdict_traced _ _ (filtered sysnum f)).
Qed.

Lemma filtering_reports_flags_witness :
  exists program, enable_syscall_filtering (fun _ => None) [None; Some [filtered PR_openat 1]] = Ok program
    /\ bpf_exec (filter program) 0 0 (mkData 56 AUDIT_ARCH_AARCH64) = Some (SECCOMP_RET_TRACE + 1).
Proof.
  apply (filtering_reports_flags (fun _ => None) [None; Some [filtered PR_openat 1]] PR_openat 1
           (mkData 56 AUDIT_ARCH_AARCH64)).
  - repeat constructor; by vm_compute.
  - done.
  - apply (bool_decide_unpack _). by vm_compute.
  - by vm_compute.
  - left. by split; [|vm_compute].
Defined.
