(* ===== verification/SysVIpc.v ===== *)
(** * System V IPC (src/extension/sysvipc/)

    Message queues and semaphores shared by the tracees of a name-space, and the
    mechanism that makes a tracee wait: its system call is replaced by ppoll(2)
    until another tracee wakes it.  Shared memory is not modelled. *)

From stdpp Require Import relations.
From S2P Require Import Prelude Memory Sysnum Regs.

(** ** Constants *)

Definition IPC_PRIVATE := 0.
Definition IPC_CREAT := 0x200.
Definition IPC_EXCL := 0x400.
Definition IPC_NOWAIT := 0x800.
Definition MSG_NOERROR := 0x1000.
Definition MSG_EXCEPT := 0x2000.
Definition MSG_COPY := 0x4000.
Definition IPC_RMID := 0.
Definition IPC_STAT := 2.
Definition SYSVIPC_IPC_64 := 0x100.
Definition SYSVIPC_IPC_INFO := 3.
Definition SYSVIPC_GETVAL := 12.
Definition SYSVIPC_GETALL := 13.
Definition SYSVIPC_SETVAL := 16.
Definition SYSVIPC_SEM_INFO := 19.
Definition SYSVIPC_MAX_MSG_SIZE := 0xFFFF.
Definition SYSVIPC_MAX_SEMS := 512.
Definition SYSVIPC_MAX_NSEMS := 512.
Definition SYSVIPC_MAX_NSOPS := 512.
Definition SYSVIPC_MAX_SEMVAL := 0x7000.

Definition EINTR := 4.
Definition EAGAIN := 11.
Definition EFBIG := 27.
Definition ENOMSG := 42.
Definition EIDRM := 43.

(** ** State *)

(** struct msqid_ds: the fields PRoot maintains. *)
Record MsqidDs := mkDs {
  msg_qnum : Z; msg_cbytes : Z; msg_qbytes : Z;
  msg_lspid : Z; msg_lrpid : Z; msg_stime : Z; msg_rtime : Z
}.

Record SysVIpcMsgQueueItem := mkItem { mtype : Z; mtext : list Z }.

Record SysVIpcMsgQueue := mkQueue {
  q_key : Z;
  q_generation : Z;
  q_valid : bool;
  items : list SysVIpcMsgQueueItem;
  q_stats : MsqidDs
}.

Record SysVIpcSembuf := mkSembuf { sem_num : Z; sem_op : Z; sem_flg : Z }.

Record SysVIpcSemaphore := mkSemaphore {
  s_key : Z;
  s_generation : Z;
  s_valid : bool;
  sems : list Z;
  nsems : Z
}.

Inductive SysVIpcWaitReason := WR_NOT_WAITING | WR_WAIT_QUEUE_RECV | WR_WAIT_SEMOP.

Inductive SysVIpcWaitState :=
  | WSTATE_NOT_WAITING | WSTATE_RESTARTED_INTO_PPOLL_CANCELED | WSTATE_RESTARTED_INTO_PPOLL
  | WSTATE_ENTERED_PPOLL | WSTATE_SIGNALED_PPOLL | WSTATE_ENTERED_GETPID.

(** The states of the chain of shmat(2) are left out. *)
Inductive SysVIpcChainState := CSTATE_NOT_CHAINED | CSTATE_MSGRCV_RETRY.

#[export] Instance SysVIpcWaitReason_eq_dec : EqDecision SysVIpcWaitReason.
Proof. solve_decision. Defined.
#[export] Instance SysVIpcWaitState_eq_dec : EqDecision SysVIpcWaitState.
Proof. solve_decision. Defined.
#[export] Instance SysVIpcChainState_eq_dec : EqDecision SysVIpcChainState.
Proof. solve_decision. Defined.

Record SysVIpcConfig := mkConfig {
  c_pid : Z;
  wait_reason : SysVIpcWaitReason;
  wait_state : SysVIpcWaitState;
  chain_state : SysVIpcChainState;
  status_after_wait : Z;
  waiting_object_index : nat;
  msgrcv_msgp : Z;
  msgrcv_msgsz : Z;
  msgrcv_msgtyp : Z;
  msgrcv_msgflg : Z;
  semop_sops : list SysVIpcSembuf
}.

(** The name-space, the configurations of its tracees in the order of the list
    of tracees, their memory, and the SIGSTOPs sent. *)
Record Ipc (Mem : Type) := mkIpc {
  queues : list SysVIpcMsgQueue;
  semaphores : list SysVIpcSemaphore;
  configs : list SysVIpcConfig;
  memory : Mem;
  stopped : list Z
}.
Arguments mkIpc {Mem}.
Arguments queues {Mem}.
Arguments semaphores {Mem}.
Arguments configs {Mem}.
Arguments memory {Mem}.
Arguments stopped {Mem}.

(** ** Updates *)

Definition set_wait (reason : SysVIpcWaitReason) (index : nat) (c : SysVIpcConfig) : SysVIpcConfig :=
  mkConfig (c_pid c) reason (wait_state c) (chain_state c) (status_after_wait c) index
    (msgrcv_msgp c) (msgrcv_msgsz c) (msgrcv_msgtyp c) (msgrcv_msgflg c) (semop_sops c).
Definition set_sops (sops : list SysVIpcSembuf) (c : SysVIpcConfig) : SysVIpcConfig :=
  mkConfig (c_pid c) (wait_reason c) (wait_state c) (chain_state c) (status_after_wait c)
    (waiting_object_index c) (msgrcv_msgp c) (msgrcv_msgsz c) (msgrcv_msgtyp c) (msgrcv_msgflg c) sops.
Definition set_state (state : SysVIpcWaitState) (status : Z) (c : SysVIpcConfig) : SysVIpcConfig :=
  mkConfig (c_pid c) (wait_reason c) state (chain_state c) status (waiting_object_index c)
    (msgrcv_msgp c) (msgrcv_msgsz c) (msgrcv_msgtyp c) (msgrcv_msgflg c) (semop_sops c).
Definition set_chain (chain : SysVIpcChainState) (c : SysVIpcConfig) : SysVIpcConfig :=
  mkConfig (c_pid c) (wait_reason c) (wait_state c) chain (status_after_wait c) (waiting_object_index c)
    (msgrcv_msgp c) (msgrcv_msgsz c) (msgrcv_msgtyp c) (msgrcv_msgflg c) (semop_sops c).
Definition set_msgrcv (p sz ty fl : Z) (c : SysVIpcConfig) : SysVIpcConfig :=
  mkConfig (c_pid c) (wait_reason c) (wait_state c) (chain_state c) (status_after_wait c)
    (waiting_object_index c) p sz ty fl (semop_sops c).

(** TALLOC_FREE(config->semop_sops); config->wait_reason = WR_NOT_WAITING *)
Definition stop_waiting (c : SysVIpcConfig) : SysVIpcConfig :=
  set_sops [] (set_wait WR_NOT_WAITING (waiting_object_index c) c).

Section Ipc.

Context {Mem : Type} {TM : TraceeMemory Mem}.

Definition set_queues (l : list SysVIpcMsgQueue) (s : Ipc Mem) : Ipc Mem :=
  mkIpc l (semaphores s) (configs s) (memory s) (stopped s).
Definition set_semaphores (l : list SysVIpcSemaphore) (s : Ipc Mem) : Ipc Mem :=
  mkIpc (queues s) l (configs s) (memory s) (stopped s).
Definition set_configs (l : list SysVIpcConfig) (s : Ipc Mem) : Ipc Mem :=
  mkIpc (queues s) (semaphores s) l (memory s) (stopped s).
Definition set_memory (m : Mem) (s : Ipc Mem) : Ipc Mem :=
  mkIpc (queues s) (semaphores s) (configs s) m (stopped s).
Definition update_config (i : nat) (f : SysVIpcConfig -> SysVIpcConfig) (s : Ipc Mem) : Ipc Mem :=
  set_configs (alter f i (configs s)) s.

(** The configuration of a tracee. *)
Definition config_at (s : Ipc Mem) (i : nat) : res SysVIpcConfig :=
  match configs s !! i with Some c => Ok c | None => Stuck OutOfBounds end.

(** ** Operations on any object *)

(** IPC_OBJECT_ID: [(index + 1) | (generation << 12)], as an int. *)
Definition IPC_OBJECT_ID (index : nat) (generation : Z) : Z :=
  sgn 32 (Z.lor (Z.of_nat index + 1) (wrap64 (Z.shiftl generation 12))).

(** LOOKUP_IPC_OBJECT: the index of the object an identifier names. *)
Definition LOOKUP_IPC_OBJECT {A} (valid : A -> bool) (generation : A -> Z) (objects : list A) (arg : Z)
  : res (nat * A) :=
  let object_id := sgn 32 arg in
  let object_index := Z.land object_id 0xFFF in
  if (object_index <=? 0) || (zlen objects <? object_index) then Err EINVAL
  else
    match objects !! Z.to_nat (object_index - 1) with
    | None => Stuck OutOfBounds
    | Some object =>
        if negb (valid object) || negb (generation object =? Z.land (Z.shiftr object_id 12) 0xFFFF)
        then Err EINVAL
        else Ok (Z.to_nat (object_index - 1), object)
    end.

(** The search of msgget() and semget(): the object with the key, or the first
    unused slot. *)
Fixpoint search {A} (valid : A -> bool) (key : A -> Z) (id : Z) (objects : list A) (index : nat)
    (unused : option nat) : option nat * option nat :=
  match objects with
  | [] => (None, unused)
  | o :: objects =>
      if valid o then
        if negb (id =? IPC_PRIVATE) && (key o =? sgn 32 id) then (Some index, unused)
        else search valid key id objects (S index) unused
      else search valid key id objects (S index)
             (match unused with None => Some index | Some _ => unused end)
  end.

(** sysvipc_wake_tracee() *)
Definition sysvipc_wake_tracee (i : nat) (status : Z) (s : Ipc Mem) : res (Ipc Mem) :=
  let! c := config_at s i in
  if bool_decide (wait_reason c = WR_NOT_WAITING) then Stuck AssertFailed
  else
    let awake state := set_state state status (set_wait WR_NOT_WAITING (waiting_object_index c) c) in
    match wait_state c with
    | WSTATE_ENTERED_PPOLL =>
        let s := update_config i (fun _ => awake WSTATE_SIGNALED_PPOLL) s in
        Ok (mkIpc (queues s) (semaphores s) (configs s) (memory s) (stopped s ++ [c_pid c]))
    | WSTATE_RESTARTED_INTO_PPOLL =>
        Ok (update_config i (fun _ => awake WSTATE_RESTARTED_INTO_PPOLL_CANCELED) s)
    | _ => Stuck AssertFailed
    end.

(** ** Semaphores (sysvipc_sem.c) *)

(** A handler: the status, negative for an errno, and the new state; [Err e] is
    [-e] returned before any change. *)
Definition Handler := nat -> (Reg -> Z) -> Ipc Mem -> res (Z * Ipc Mem).

Definition lookup_semaphore (s : Ipc Mem) (arg : Z) : res (nat * SysVIpcSemaphore) :=
  LOOKUP_IPC_OBJECT s_valid s_generation (semaphores s) arg.

Definition sysvipc_semget : Handler := fun _ arg s =>
  let semaphore_id := arg SYSARG_1 in
  let nsems' := sgn 32 (arg SYSARG_2) in
  let semflg := sgn 32 (arg SYSARG_3) in
  if (nsems' <=? 0) || (SYSVIPC_MAX_NSEMS <? nsems') then Err EINVAL
  else
    let num_semaphores := length (semaphores s) in
    let fresh generation := mkSemaphore (sgn 32 semaphore_id) generation true
                              (replicate (Z.to_nat nsems') 0) nsems' in
    match search s_valid s_key semaphore_id (semaphores s) 0 None with
    | (None, unused_slot) =>
        if Z.land semflg IPC_CREAT =? 0 then Err ENOENT
        else
          match unused_slot with
          | Some index =>
              match semaphores s !! index with
              | None => Stuck OutOfBounds
              | Some old =>
                  Ok (IPC_OBJECT_ID index (s_generation old),
                      set_semaphores (<[index := fresh (s_generation old)]> (semaphores s)) s)
              end
          | None =>
              if SYSVIPC_MAX_SEMS <=? Z.of_nat num_semaphores then Err ENOSPC
              else Ok (IPC_OBJECT_ID num_semaphores 0, set_semaphores (semaphores s ++ [fresh 0]) s)
          end
    | (Some index, _) =>
        if negb (Z.land semflg IPC_CREAT =? 0) && negb (Z.land semflg IPC_EXCL =? 0) then Err EEXIST
        else
          match semaphores s !! index with
          | None => Stuck OutOfBounds
          | Some semaphore =>
              if nsems semaphore <? nsems' then Err EINVAL
              else Ok (IPC_OBJECT_ID index (s_generation semaphore), s)
          end
    end.

(** The outcome of the operations of a tracee: it waits, or semop() returns. *)
Inductive SemStatus := StillWaits | Returns (status : Z) (new_sems : list Z).

(** The loop of sysvipc_sem_check(). *)
Fixpoint sem_loop (sops : list SysVIpcSembuf) (new_sems : list Z) : res SemStatus :=
  match sops with
  | [] => Ok (Returns 0 new_sems)
  | sop :: sops =>
      let n := Z.to_nat (sem_num sop) in
      match new_sems !! n with
      | None => Stuck OutOfBounds
      | Some value =>
          let blocked := if negb (Z.land (sem_flg sop) IPC_NOWAIT =? 0)
                         then Ok (Returns (- EAGAIN) []) else Ok StillWaits in
          if sem_op sop =? 0 then
            if negb (value =? 0) then blocked else sem_loop sops new_sems
          else
            let new_value := value + sem_op sop in
            if new_value <? 0 then blocked
            else if SYSVIPC_MAX_SEMVAL <? new_value then Ok (Returns (- ERANGE) [])
            else sem_loop sops (<[n := new_value]> new_sems)
      end
  end.

(** sysvipc_sem_check(): [None] is the status 1.  The semaphores change only if
    the status is 0. *)
Definition sysvipc_sem_check (c : SysVIpcConfig) (semaphore : SysVIpcSemaphore)
  : res (option Z * SysVIpcSemaphore) :=
  if bool_decide (wait_reason c <> WR_WAIT_SEMOP) then Stuck AssertFailed
  else
    let! r := sem_loop (semop_sops c) (sems semaphore) in
    match r with
    | StillWaits => Ok (None, semaphore)
    | Returns status new_sems =>
        Ok (Some status,
            if status =? 0
            then mkSemaphore (s_key semaphore) (s_generation semaphore) (s_valid semaphore) new_sems
                   (nsems semaphore)
            else semaphore)
    end.

(** sysvipc_sem_check() of the tracee [i] on the semaphore [index]. *)
Definition sem_check_at (index i : nat) (s : Ipc Mem) : res (option Z * Ipc Mem) :=
  let! c := config_at s i in
  match semaphores s !! index with
  | None => Stuck OutOfBounds
  | Some semaphore =>
      let! (r, semaphore) := sysvipc_sem_check c semaphore in
      Ok (r, set_semaphores (<[index := semaphore]> (semaphores s)) s)
  end.

(** The loop of semop() over the other tracees of the name-space. *)
Fixpoint sem_wake_loop (me index : nat) (tracees : list nat) (s : Ipc Mem) : res (Ipc Mem) :=
  match tracees with
  | [] => Ok s
  | i :: tracees =>
      let! c := config_at s i in
      if negb (i =? me)%nat && bool_decide (wait_reason c = WR_WAIT_SEMOP)
         && (waiting_object_index c =? index)%nat
      then
        let! (r, s) := sem_check_at index i s in
        match r with
        | None => sem_wake_loop me index tracees s
        | Some status =>
            let! s := sysvipc_wake_tracee i status (update_config i (set_sops []) s) in
            sem_wake_loop me index tracees s
        end
      else sem_wake_loop me index tracees s
  end.

(** struct SysVIpcSembuf: an uint16_t and two int16_t. *)
Definition le16 (lo hi : Z) : Z := lo + 256 * hi.
Fixpoint decode_sops (n : nat) (bytes : list Z) : list SysVIpcSembuf :=
  match n, bytes with
  | S n, a :: b :: c :: d :: e :: f :: bytes =>
      mkSembuf (le16 a b) (sgn 16 (le16 c d)) (sgn 16 (le16 e f)) :: decode_sops n bytes
  | _, _ => []
  end.

Definition sysvipc_semop : Handler := fun me arg s =>
  let! (index, semaphore) := lookup_semaphore s (arg SYSARG_1) in
  let nsops := arg SYSARG_3 in
  if SYSVIPC_MAX_NSOPS <? nsops then Err E2BIG
  else if nsops =? 0 then Err EINVAL
  else
    match read_data (memory s) me (arg SYSARG_2) (6 * nsops) with
    | inr e => Err e
    | inl bytes =>
        let sops := decode_sops (Z.to_nat nsops) bytes in
        if existsb (fun sop => (sem_num sop <? 0) || (nsems semaphore <=? sem_num sop)) sops
        then Err EFBIG
        else
          let s := update_config me (fun c => set_sops sops (set_wait WR_WAIT_SEMOP index c)) s in
          let! (this_semop_status, s) := sem_check_at index me s in
          let! s := sem_wake_loop me index (seq 0 (length (configs s))) s in
          match this_semop_status with
          | None =>
              let! c := config_at s me in
              if bool_decide (wait_reason c <> WR_WAIT_SEMOP) then Stuck AssertFailed else Ok (0, s)
          | Some status => Ok (status, update_config me stop_waiting s)
          end
    end.

(** The tracees that wait for an object are woken with EIDRM. *)
Fixpoint wake_all (reason : SysVIpcWaitReason) (index : nat) (tracees : list nat) (s : Ipc Mem)
  : res (Ipc Mem) :=
  match tracees with
  | [] => Ok s
  | i :: tracees =>
      let! c := config_at s i in
      if bool_decide (wait_reason c = reason) && (waiting_object_index c =? index)%nat
      then let! s := sysvipc_wake_tracee i (- EIDRM) s in wake_all reason index tracees s
      else wake_all reason index tracees s
  end.

Definition sem_bytes (sems : list Z) : list Z := flat_map (fun v => [v mod 256; v / 256]) sems.
Definition le32 (v : Z) : list Z := [v mod 256; (v / 2 ^ 8) mod 256; (v / 2 ^ 16) mod 256; (v / 2 ^ 24) mod 256].

(** struct SysVIpcSeminfo of SYSVIPC_IPC_INFO and SYSVIPC_SEM_INFO. *)
Definition seminfo (cmd : Z) (s : Ipc Mem) : list Z :=
  let is_sem_info := cmd =? SYSVIPC_SEM_INFO in
  flat_map le32
    [0; SYSVIPC_MAX_SEMS; SYSVIPC_MAX_SEMS * SYSVIPC_MAX_NSEMS; 0; SYSVIPC_MAX_NSEMS; SYSVIPC_MAX_NSOPS; 0;
     (if is_sem_info then zlen (semaphores s) else 0); SYSVIPC_MAX_SEMVAL;
     (if is_sem_info then fold_left (fun n x => n + nsems x) (semaphores s) 0 else 0)].

Definition write_status (me : nat) (address : Z) (bytes : list Z) (s : Ipc Mem) : res (Z * Ipc Mem) :=
  match write_data (memory s) me address bytes with
  | (m, Some e) => Ok (- e, set_memory m s)
  | (m, None) => Ok (0, set_memory m s)
  end.

Definition sysvipc_semctl : Handler := fun me arg s =>
  let! (index, semaphore) := lookup_semaphore s (arg SYSARG_1) in
  let semnum := sgn 32 (arg SYSARG_2) in
  let cmd := sgn 32 (arg SYSARG_3) in
  let cmdarg := arg SYSARG_4 in
  let masked := Z.land cmd (Z.lnot SYSVIPC_IPC_64) in
  let bad_semnum := (semnum <? 0) || (nsems semaphore <=? semnum) in
  if masked =? SYSVIPC_GETVAL then
    if bad_semnum then Err EINVAL
    else match sems semaphore !! Z.to_nat semnum with
         | None => Stuck OutOfBounds
         | Some value => Ok (value, s)
         end
  else if masked =? SYSVIPC_SETVAL then
    if SYSVIPC_MAX_SEMVAL <? cmdarg then Err ERANGE
    else if bad_semnum then Err EINVAL
    else match sems semaphore !! Z.to_nat semnum with
         | None => Stuck OutOfBounds
         | Some _ =>
             let semaphore := mkSemaphore (s_key semaphore) (s_generation semaphore) (s_valid semaphore)
                                (<[Z.to_nat semnum := cmdarg]> (sems semaphore)) (nsems semaphore) in
             Ok (0, set_semaphores (<[index := semaphore]> (semaphores s)) s)
         end
  else if masked =? SYSVIPC_GETALL then write_status me cmdarg (sem_bytes (sems semaphore)) s
  else if masked =? IPC_RMID then
    let! s := wake_all WR_WAIT_SEMOP index (seq 0 (length (configs s))) s in
    let semaphore := mkSemaphore (s_key semaphore) (sgn 16 (s_generation semaphore + 1)) false []
                       (nsems semaphore) in
    Ok (0, set_semaphores (<[index := semaphore]> (semaphores s)) s)
  else if (masked =? SYSVIPC_IPC_INFO) || (masked =? SYSVIPC_SEM_INFO)
  then write_status me cmdarg (seminfo cmd s) s
  else Err EINVAL.

(** ** Message queues (sysvipc_msg.c) *)

Definition lookup_queue (s : Ipc Mem) (arg : Z) : res (nat * SysVIpcMsgQueue) :=
  LOOKUP_IPC_OBJECT q_valid q_generation (queues s) arg.

Definition new_stats : MsqidDs := mkDs 0 0 (1024 * 64) 0 0 0 0.

Definition sysvipc_msgget : Handler := fun _ arg s =>
  let queue_id := arg SYSARG_1 in
  let msgflg := arg SYSARG_2 in
  let fresh generation := mkQueue (sgn 32 queue_id) generation true [] new_stats in
  match search q_valid q_key queue_id (queues s) 0 None with
  | (None, unused_slot) =>
      if Z.land msgflg IPC_CREAT =? 0 then Err ENOENT
      else
        match unused_slot with
        | Some index =>
            match queues s !! index with
            | None => Stuck OutOfBounds
            | Some old =>
                Ok (IPC_OBJECT_ID index (q_generation old),
                    set_queues (<[index := fresh (q_generation old)]> (queues s)) s)
            end
        | None => Ok (IPC_OBJECT_ID (length (queues s)) 0, set_queues (queues s ++ [fresh 0]) s)
        end
  | (Some index, _) =>
      if negb (Z.land msgflg IPC_CREAT =? 0) && negb (Z.land msgflg IPC_EXCL =? 0) then Err EEXIST
      else
        match queues s !! index with
        | None => Stuck OutOfBounds
        | Some queue => Ok (IPC_OBJECT_ID index (q_generation queue), s)
        end
  end.

(** sysvipc_msg_match(): the arguments are ints. *)
Definition sysvipc_msg_match (sender_type receiver_filter receiver_flag : Z) : bool :=
  let sender_type := sgn 32 sender_type in
  let matched := (receiver_filter =? 0) || (sender_type =? receiver_filter)
                 || ((receiver_filter <? 0) && (sender_type <=? sgn 32 (- receiver_filter))) in
  if negb (Z.land receiver_flag MSG_EXCEPT =? 0) then negb matched else matched.

Definition le64 (v : Z) : list Z := le32 (v mod 2 ^ 32) ++ le32 ((v / 2 ^ 32) mod 2 ^ 32).

Definition set_queue (index : nat) (queue : SysVIpcMsgQueue) (s : Ipc Mem) : Ipc Mem :=
  set_queues (<[index := queue]> (queues s)) s.
Definition set_items (l : list SysVIpcMsgQueueItem) (d : MsqidDs) (q : SysVIpcMsgQueue) : SysVIpcMsgQueue :=
  mkQueue (q_key q) (q_generation q) (q_valid q) l d.

(** sysvipc_msg_deliver(): the status, the statistics of the queue and the
    memory of the recipient. *)
Definition sysvipc_msg_deliver (me : nat) (c : SysVIpcConfig) (d : MsqidDs) (msg : SysVIpcMsgQueueItem)
    (delivery_time : Z) (m : Mem) : Z * MsqidDs * Mem :=
  let length := zlen (mtext msg) in
  if (msgrcv_msgsz c <? length) && (Z.land (msgrcv_msgflg c) MSG_NOERROR =? 0) then (- E2BIG, d, m)
  else
    let msgsz := if msgrcv_msgsz c <? length then msgrcv_msgsz c else length in
    match write_data m me (msgrcv_msgp c) (le64 (mtype msg)) with
    | (m, Some e) => (- e, d, m)
    | (m, None) =>
        match write_data m me (wrap64 (msgrcv_msgp c + 8)) (take (Z.to_nat msgsz) (mtext msg)) with
        | (m, Some e) => (- e, d, m)
        | (m, None) =>
            (msgsz, mkDs (msg_qnum d) (msg_cbytes d) (msg_qbytes d) (msg_lspid d) (c_pid c) (msg_stime d)
                      delivery_time, m)
        end
    end.

(** The loop of msgsnd(): the first tracee that waits for such a message is
    woken, and will look at the queue again. *)
Fixpoint msg_wake_loop (index : nat) (item : SysVIpcMsgQueueItem) (tracees : list nat) (s : Ipc Mem)
  : res (Ipc Mem) :=
  match tracees with
  | [] => Ok s
  | i :: tracees =>
      let! c := config_at s i in
      if bool_decide (wait_reason c = WR_WAIT_QUEUE_RECV) && (waiting_object_index c =? index)%nat
         && sysvipc_msg_match (mtype item) (msgrcv_msgtyp c) (msgrcv_msgflg c)
      then sysvipc_wake_tracee i (- EAGAIN) (update_config i (set_chain CSTATE_MSGRCV_RETRY) s)
      else msg_wake_loop index item tracees s
  end.

(** [now] is time(2). *)
Definition sysvipc_msgsnd (now : Z) : Handler := fun me arg s =>
  let! (index, queue) := lookup_queue s (arg SYSARG_1) in
  let msgp := arg SYSARG_2 in
  let msgsz := arg SYSARG_3 in
  if SYSVIPC_MAX_MSG_SIZE <? msgsz then Err EINVAL
  else
    match read_data (memory s) me msgp 8 with
    | inr e => Err e
    | inl bytes =>
        let mtype := sgn 64 (of_le bytes) in
        if mtype <? 1 then Err EINVAL
        else
          match read_data (memory s) me (wrap64 (msgp + 8)) msgsz with
          | inr e => Err e
          | inl text =>
              let! c := config_at s me in
              let item := mkItem mtype text in
              let! s := msg_wake_loop index item (seq 0 (length (configs s))) s in
              let d := q_stats queue in
              let d := mkDs (msg_qnum d + 1) (msg_cbytes d + msgsz) (msg_qbytes d) (c_pid c) (msg_lrpid d) now
                         (msg_rtime d) in
              Ok (0, set_queue index (set_items (items queue ++ [item]) d queue) s)
          end
    end.

(** The search of msgrcv(): the position of the message. *)
Fixpoint find_item (p : SysVIpcMsgQueueItem -> bool) (l : list SysVIpcMsgQueueItem) (i : nat) : option nat :=
  match l with
  | [] => None
  | x :: l => if p x then Some i else find_item p l (S i)
  end.

Definition found_item (c : SysVIpcConfig) (copy : bool) (l : list SysVIpcMsgQueueItem) : option nat :=
  if copy then
    if (0 <=? msgrcv_msgtyp c) && (msgrcv_msgtyp c <? zlen l) then Some (Z.to_nat (msgrcv_msgtyp c)) else None
  else find_item (fun x => sysvipc_msg_match (mtype x) (msgrcv_msgtyp c) (msgrcv_msgflg c)) l 0.

(** sysvipc_do_msgrcv() *)
Definition sysvipc_do_msgrcv (now : Z) (me index : nat) (queue : SysVIpcMsgQueue) (s : Ipc Mem)
  : res (Z * Ipc Mem) :=
  let! c := config_at s me in
  let flg := msgrcv_msgflg c in
  let has bit := negb (Z.land flg bit =? 0) in
  let copy := has MSG_COPY in
  if sgn 32 (msgrcv_msgsz c) <? 0 then Ok (- EINVAL, s)
  else if negb (Z.land flg (Z.lnot (Z.lor (Z.lor (Z.lor IPC_NOWAIT MSG_NOERROR) MSG_COPY) MSG_EXCEPT)) =? 0)
  then Ok (- EINVAL, s)
  else if copy && (negb (has IPC_NOWAIT) || has MSG_EXCEPT) then Ok (- EINVAL, s)
  else
    match found_item c copy (items queue) with
    | None =>
        if has IPC_NOWAIT then Ok (- ENOMSG, s)
        else Ok (0, update_config me (set_wait WR_WAIT_QUEUE_RECV index) s)
    | Some i =>
        match items queue !! i with
        | None => Stuck OutOfBounds
        | Some item =>
            let '(status, d, m) := sysvipc_msg_deliver me c (q_stats queue) item now (memory s) in
            let s := set_memory m s in
            if (0 <=? status) && negb copy then
              let d := mkDs (msg_qnum d - 1) (msg_cbytes d - zlen (mtext item)) (msg_qbytes d) (msg_lspid d)
                         (msg_lrpid d) (msg_stime d) (msg_rtime d) in
              Ok (status, set_queue index (set_items (delete i (items queue)) d queue) s)
            else Ok (status, set_queue index (set_items (items queue) d queue) s)
        end
    end.

Definition sysvipc_msgrcv (now : Z) : Handler := fun me arg s =>
  let! (index, queue) := lookup_queue s (arg SYSARG_1) in
  let s := update_config me (set_msgrcv (arg SYSARG_2) (arg SYSARG_3) (sgn 32 (arg SYSARG_4))
                               (sgn 32 (arg SYSARG_5))) s in
  sysvipc_do_msgrcv now me index queue s.

(** sysvipc_msgrcv_retry(), for a tracee that was woken by msgsnd(). *)
Definition sysvipc_msgrcv_retry (now : Z) (me : nat) (s : Ipc Mem) : res (Z * Ipc Mem) :=
  let! c := config_at s me in
  if bool_decide (chain_state c <> CSTATE_MSGRCV_RETRY) then Stuck AssertFailed
  else
    let! (status, s) :=
      (if status_after_wait c =? - EAGAIN then
         match queues s !! waiting_object_index c with
         | None => Stuck AssertFailed
         | Some queue =>
             if negb (q_valid queue) then Stuck AssertFailed
             else
               let! (status, s) := sysvipc_do_msgrcv now me (waiting_object_index c) queue s in
               let! c := config_at s me in
               if bool_decide (wait_reason c <> WR_NOT_WAITING)
               then Ok (- EINTR, update_config me (set_wait WR_NOT_WAITING (waiting_object_index c)) s)
               else Ok (status, s)
         end
       else Ok (status_after_wait c, s)) in
    Ok (status, update_config me (set_chain CSTATE_NOT_CHAINED) s).

(** [stats_bytes] is the layout of struct msqid_ds. *)
Definition sysvipc_msgctl (stats_bytes : MsqidDs -> list Z) : Handler := fun me arg s =>
  let! (index, queue) := lookup_queue s (arg SYSARG_1) in
  let cmd := sgn 32 (arg SYSARG_2) in
  let buf := arg SYSARG_3 in
  if (cmd =? IPC_RMID) || (cmd =? Z.lor IPC_RMID SYSVIPC_IPC_64) then
    let! s := wake_all WR_WAIT_QUEUE_RECV index (seq 0 (length (configs s))) s in
    Ok (0, set_queue index (mkQueue (q_key queue) (sgn 16 (q_generation queue + 1)) false [] (q_stats queue)) s)
  else if (cmd =? IPC_STAT) || (cmd =? Z.lor IPC_STAT SYSVIPC_IPC_64)
  then write_status me buf (stats_bytes (q_stats queue)) s
  else Err EINVAL.

(** ** The wait mechanism (sysvipc.c) *)

Section Events.

Context (now : Z) (stats_bytes : MsqidDs -> list Z).

(** The switch of sysvipc_syscall_common(), shared memory excepted. *)
Definition handler_of (sysnum : Sysnum) : option Handler :=
  if sysnum =? PR_msgget then Some sysvipc_msgget
  else if sysnum =? PR_msgsnd then Some (sysvipc_msgsnd now)
  else if sysnum =? PR_msgrcv then Some (sysvipc_msgrcv now)
  else if sysnum =? PR_msgctl then Some (sysvipc_msgctl stats_bytes)
  else if sysnum =? PR_semget then Some sysvipc_semget
  else if (sysnum =? PR_semtimedop) || (sysnum =? PR_semop) then Some sysvipc_semop
  else if sysnum =? PR_semctl then Some sysvipc_semctl
  else None.

(** How an event is answered: it is not for this extension; the system call goes
    on, replaced, until its exit; it is restarted after SIGSYS; or its result is
    set after SIGSYS. *)
Inductive Answer := NotOurs | Entered | Restarted | ResultSet (status : Z).

(** The status of a handler, whether or not it changed the state. *)
Definition run_handler (h : Handler) (me : nat) (regs : Regs) (s : Ipc Mem) : res (Z * Ipc Mem) :=
  match h me (peek_reg regs CURRENT) s with
  | Err e => Ok (- e, s)
  | r => r
  end.

(** sysvipc_syscall_common(): the answer, the registers and the state. *)
Definition sysvipc_syscall_common (me : nat) (from_sigsys : bool) (regs : Regs) (s : Ipc Mem)
  : res (Answer * Regs * Ipc Mem) :=
  let! c := config_at s me in
  if bool_decide (wait_state c <> WSTATE_NOT_WAITING) then Stuck AssertFailed
  else
    let! sysnum := get_sysnum regs CURRENT in
    match handler_of sysnum with
    | None => Ok (NotOurs, regs, s)
    | Some h =>
        let timeout := if sysnum =? PR_semtimedop then peek_reg regs CURRENT SYSARG_4 else 0 in
        let! (status, s) := run_handler h me regs s in
        let! c := config_at s me in
        if bool_decide (chain_state c <> CSTATE_NOT_CHAINED) then Stuck AssertFailed
        else if bool_decide (wait_reason c <> WR_NOT_WAITING) then
          let regs := poke_reg (poke_reg (poke_reg (poke_reg regs SYSARG_1 0) SYSARG_2 0) SYSARG_3 timeout)
                        SYSARG_4 0 in
          let! regs := set_sysnum regs PR_ppoll in
          if from_sigsys
          then Ok (Restarted, regs, update_config me (set_state WSTATE_RESTARTED_INTO_PPOLL (status_after_wait c)) s)
          else Ok (Entered, regs, update_config me (set_state WSTATE_ENTERED_PPOLL (status_after_wait c)) s)
        else if from_sigsys then Ok (ResultSet status, regs, s)
        else
          let! regs := set_sysnum regs PR_getpid in
          Ok (Entered, regs, update_config me (set_state WSTATE_ENTERED_GETPID status) s)
    end.

(** The status of a tracee that was woken, or did not wait. *)
Definition final_status (me : nat) (c : SysVIpcConfig) (s : Ipc Mem) : res (Z * Ipc Mem) :=
  if bool_decide (chain_state c = CSTATE_MSGRCV_RETRY) then sysvipc_msgrcv_retry now me s
  else Ok (status_after_wait c, s).

(** SYSCALL_ENTER_START *)
Definition syscall_enter_start (me : nat) (regs : Regs) (s : Ipc Mem) : res (Answer * Regs * Ipc Mem) :=
  let! c := config_at s me in
  match wait_state c with
  | WSTATE_NOT_WAITING => sysvipc_syscall_common me false regs s
  | WSTATE_RESTARTED_INTO_PPOLL =>
      let! sysnum := get_sysnum regs CURRENT in
      if negb (sysnum =? PR_ppoll) then Stuck AssertFailed
      else Ok (Entered, regs, update_config me (set_state WSTATE_ENTERED_PPOLL (status_after_wait c)) s)
  | WSTATE_RESTARTED_INTO_PPOLL_CANCELED =>
      let! (status, s) := final_status me c s in
      let! regs := set_sysnum (poke_reg regs SYSARG_RESULT (wrap64 status)) PR_void in
      Ok (Entered, regs, update_config me (fun c => set_state WSTATE_NOT_WAITING (status_after_wait c) c) s)
  | _ => Stuck AssertFailed
  end.

(** SYSCALL_EXIT_START: the status the event returns. *)
Definition syscall_exit_start (me : nat) (regs : Regs) (s : Ipc Mem) : res (Z * Regs * Ipc Mem) :=
  let! c := config_at s me in
  match wait_state c with
  | WSTATE_NOT_WAITING => Ok (0, regs, s)
  | WSTATE_ENTERED_PPOLL =>
      let stop c := set_state WSTATE_NOT_WAITING (status_after_wait c)
                      (match wait_reason c with
                       | WR_WAIT_SEMOP => stop_waiting c
                       | _ => set_wait WR_NOT_WAITING (waiting_object_index c) c
                       end) in
      if bool_decide (wait_reason c = WR_NOT_WAITING) then Stuck AssertFailed
      else
        let ppoll_status := sgn 32 (peek_reg regs CURRENT SYSARG_RESULT) in
        Ok (if (ppoll_status =? - EFAULT) || (ppoll_status =? - EINTR) then 1 else - EINTR,
            regs, update_config me stop s)
  | WSTATE_SIGNALED_PPOLL | WSTATE_ENTERED_GETPID =>
      if bool_decide (wait_reason c <> WR_NOT_WAITING) then Stuck AssertFailed
      else
        let s := update_config me (set_state WSTATE_NOT_WAITING (status_after_wait c)) s in
        let! (status, s) := final_status me c s in
        Ok (1, poke_reg regs SYSARG_RESULT (wrap64 status), s)
  | _ => Stuck AssertFailed
  end.

End Events.

End Ipc.

(** ** Invariant *)

Definition sem_ok (x : SysVIpcSemaphore) : Prop :=
  s_valid x = true -> zlen (sems x) = nsems x /\ 1 <= nsems x <= SYSVIPC_MAX_NSEMS
                      /\ Forall (fun v => 0 <= v <= SYSVIPC_MAX_SEMVAL) (sems x).

Section Invariant.

Context {Mem : Type} {TM : TraceeMemory Mem}.

(** The object a tracee waits for exists, and its operations are in range. *)
Definition object_ok (s : Ipc Mem) (c : SysVIpcConfig) : Prop :=
  match wait_reason c with
  | WR_NOT_WAITING => True
  | WR_WAIT_QUEUE_RECV => q_valid <$> queues s !! waiting_object_index c = Some true
  | WR_WAIT_SEMOP => exists n, (fun x => (s_valid x, nsems x)) <$> semaphores s !! waiting_object_index c
                               = Some (true, n)
                     /\ Forall (fun sop => 0 <= sem_num sop < n) (semop_sops c)
  end.

(** Where a tracee is in its system call. *)
Definition state_ok (c : SysVIpcConfig) : Prop :=
  match wait_state c with
  | WSTATE_NOT_WAITING | WSTATE_ENTERED_GETPID =>
      wait_reason c = WR_NOT_WAITING /\ chain_state c = CSTATE_NOT_CHAINED
  | WSTATE_ENTERED_PPOLL | WSTATE_RESTARTED_INTO_PPOLL =>
      wait_reason c <> WR_NOT_WAITING /\ chain_state c = CSTATE_NOT_CHAINED
  | WSTATE_SIGNALED_PPOLL | WSTATE_RESTARTED_INTO_PPOLL_CANCELED => wait_reason c = WR_NOT_WAITING
  end.

Definition ipc_ok (s : Ipc Mem) : Prop :=
  Forall sem_ok (semaphores s)
  /\ forall i c, configs s !! i = Some c -> object_ok s c /\ state_ok c.

(** The invariant while a handler runs for [me], which is in a given state. *)
Context (ws0 : SysVIpcWaitState) (ch0 : SysVIpcChainState).

Definition entering (c : SysVIpcConfig) : Prop := wait_state c = ws0 /\ chain_state c = ch0.

Definition mid (me : nat) (s : Ipc Mem) : Prop :=
  Forall sem_ok (semaphores s) /\ is_Some (configs s !! me)
  /\ forall i c, configs s !! i = Some c -> object_ok s c /\ if decide (i = me) then entering c else state_ok c.

(** Same objects, as far as waiting tracees are concerned. *)
Definition same_shape (s s' : Ipc Mem) : Prop :=
  q_valid <$> queues s' = q_valid <$> queues s
  /\ (fun x => (s_valid x, nsems x)) <$> semaphores s' = (fun x => (s_valid x, nsems x)) <$> semaphores s.

Lemma object_ok_shape s s' c : same_shape s s' -> object_ok s c -> object_ok s' c.
Proof.
  intros [Hq Hs]. unfold object_ok. destruct (wait_reason c); [done| |].
  - by rewrite <- !list_lookup_fmap, Hq.
  - intros (n & E & H). exists n. split; [|done]. rewrite <- !list_lookup_fmap in *. by rewrite Hs.
Qed.

Lemma update_config_lookup i g (s : Ipc Mem) j c :
  configs (update_config i g s) !! j = Some c ->
  (j = i /\ exists c0, configs s !! i = Some c0 /\ c = g c0) \/ (j <> i /\ configs s !! j = Some c).
Proof.
  unfold update_config. cbn [configs set_configs]. destruct (decide (j = i)) as [->|Hne].
  - rewrite list_lookup_alter_eq. intros H. left. split; [done|]. destruct (configs s !! i); [|done].
    injection H as <-. by eexists.
  - rewrite list_lookup_alter_ne by done. by right.
Qed.

Lemma update_config_self i g (s : Ipc Mem) c :
  configs s !! i = Some c -> configs (update_config i g s) !! i = Some (g c).
Proof. intros H. unfold update_config. cbn [configs set_configs]. by rewrite list_lookup_alter_eq, H. Qed.

Lemma update_config_other i g (s : Ipc Mem) j :
  j <> i -> configs (update_config i g s) !! j = configs s !! j.
Proof. intros H. unfold update_config. cbn [configs set_configs]. by rewrite list_lookup_alter_ne. Qed.

Lemma update_config_length i g (s : Ipc Mem) : length (configs (update_config i g s)) = length (configs s).
Proof. unfold update_config. cbn [configs set_configs]. apply length_alter. Qed.

(** A change of the configuration of one tracee. *)
Lemma mid_update me i g s :
  mid me s ->
  (forall c, configs s !! i = Some c -> object_ok s c ->
     (if decide (i = me) then entering c else state_ok c) ->
     object_ok s (g c) /\ if decide (i = me) then entering (g c) else state_ok (g c)) ->
  mid me (update_config i g s).
Proof.
  intros (H1 & [cm Hm] & H3) Hg. split; [done|]. split.
  - destruct (decide (i = me)) as [->|Hne]; [exists (g cm); by apply update_config_self|].
    exists cm. by rewrite update_config_other by done.
  - intros j c [(-> & c0 & Hc0 & ->)|[Hne Hc]]%update_config_lookup.
    + destruct (H3 i c0 Hc0) as [Ho Hs]. by apply Hg.
    + by apply H3.
Qed.

Lemma config_at_ok (s : Ipc Mem) i c : configs s !! i = Some c -> config_at s i = Ok c.
Proof. intros H. unfold config_at. by rewrite H. Qed.

(** A change of the objects that keeps their shape. *)
Lemma mid_shape me s s' :
  mid me s -> same_shape s s' -> configs s' = configs s -> Forall sem_ok (semaphores s') -> mid me s'.
Proof.
  intros (_ & H2 & H3) Hsh Hc Hs. split; [done|]. rewrite Hc. split; [done|].
  intros i c Hi. destruct (H3 i c Hi). split; [by eapply object_ok_shape|done].
Qed.

(** What a waking does not change. *)
Definition only_configs (s s' : Ipc Mem) : Prop :=
  queues s' = queues s /\ semaphores s' = semaphores s /\ length (configs s') = length (configs s).

Lemma wake_mid me i status s c :
  mid me s -> i <> me -> configs s !! i = Some c -> wait_reason c <> WR_NOT_WAITING ->
  exists s' c', sysvipc_wake_tracee i status s = Ok s' /\ mid me s' /\ only_configs s s'
    /\ configs s' = <[i := c']> (configs s) /\ wait_reason c' = WR_NOT_WAITING.
Proof.
  intros Hmid Hne Hc Hw. pose proof Hmid as (_ & _ & H3). destruct (H3 i c Hc) as [Ho Hs].
  rewrite decide_False in Hs by done. unfold sysvipc_wake_tracee. rewrite (config_at_ok _ _ _ Hc). cbn [res_bind].
  rewrite bool_decide_eq_false_2 by done.
  assert (Ha : forall state, (state = WSTATE_SIGNALED_PPOLL \/ state = WSTATE_RESTARTED_INTO_PPOLL_CANCELED) ->
    let c' := set_state state status (set_wait WR_NOT_WAITING (waiting_object_index c) c) in
    mid me (update_config i (fun _ => c') s) /\ configs (update_config i (fun _ => c') s) = <[i := c']> (configs s)).
  { intros state Hst c'. split.
    - apply mid_update; [done|]. intros c1 _ _ _. split; [done|]. rewrite decide_False by done.
      unfold c'. by destruct Hst as [-> | ->].
    - unfold update_config. cbn [configs set_configs]. apply list_eq. intros j.
      destruct (decide (j = i)) as [->|Hji].
      + rewrite list_lookup_alter_eq, Hc. symmetry. apply list_lookup_insert_eq. by eapply lookup_lt_Some.
      + by rewrite list_lookup_alter_ne, list_lookup_insert_ne by done. }
  destruct (wait_state c) eqn:Ew; unfold state_ok in Hs; rewrite Ew in Hs.
  - by destruct Hs.
  - by rewrite Hs in Hw.
  - destruct (Ha WSTATE_RESTARTED_INTO_PPOLL_CANCELED) as [Hm He]; [by right|].
    eexists _, _. split; [done|]. split; [done|]. split; [split; [done|split; [done|apply update_config_length]]|]. by split.
  - destruct (Ha WSTATE_SIGNALED_PPOLL) as [Hm He]; [by left|].
    eexists _, _. split; [done|]. split; [done|]. split; [split; [done|split; [done|apply update_config_length]]|]. by split.
  - by rewrite Hs in Hw.
  - by destruct Hs.
Qed.

(** The operations of semop() on values that are in range. *)
Lemma sem_loop_ok sops : forall vs,
  Forall (fun sop => 0 <= sem_num sop < zlen vs) sops -> Forall (fun v => 0 <= v <= SYSVIPC_MAX_SEMVAL) vs ->
  exists r, sem_loop sops vs = Ok r
    /\ forall vs', r = Returns 0 vs' -> length vs' = length vs /\ Forall (fun v => 0 <= v <= SYSVIPC_MAX_SEMVAL) vs'.
Proof.
  induction sops as [|sop sops IH]; intros vs Hr Hv; [eexists; split; [done|]; by intros vs' [= <-]|].
  inversion Hr as [|? ? Hn Hr']; subst. cbn [sem_loop].
  destruct (lookup_lt_is_Some_2 vs (Z.to_nat (sem_num sop))) as [v Ev]; [unfold zlen in Hn; lia|]. rewrite Ev.
  assert (Hb : exists r, (if negb (Z.land (sem_flg sop) IPC_NOWAIT =? 0) then Ok (Returns (- EAGAIN) []) else Ok StillWaits)
    = Ok r /\ forall vs', r = Returns 0 vs' -> False).
  { case_bool; eexists; split; try done. }
  destruct Hb as (r & Er & Hb). case_bool; [case_bool; [exists r; split; [done|]; intros vs' E'; by apply Hb in E'|by apply IH]|].
  case_bool; [exists r; split; [done|]; intros vs' E'; by apply Hb in E'|]. case_bool; [by eexists|].
  bool_facts. destruct (IH (<[Z.to_nat (sem_num sop) := v + sem_op sop]> vs)) as (r' & E' & H').
  - eapply Forall_impl; [exact Hr'|]. intros x. unfold zlen. by rewrite length_insert.
  - apply Forall_insert; [done|]. lia.
  - exists r'. split; [done|]. intros vs' ->. rewrite <- (length_insert vs (Z.to_nat (sem_num sop)) (v + sem_op sop)). auto.
Qed.

Lemma insert_shape {A B} (f : A -> B) (l : list A) i x y :
  l !! i = Some x -> f y = f x -> f <$> <[i := y]> l = f <$> l.
Proof. intros H E. rewrite list_fmap_insert, E. apply list_insert_id. by rewrite list_lookup_fmap, H. Qed.

Lemma sem_check_at_mid me index i s c :
  mid me s -> configs s !! i = Some c -> wait_reason c = WR_WAIT_SEMOP -> waiting_object_index c = index ->
  exists r s', sem_check_at index i s = Ok (r, s') /\ mid me s' /\ configs s' = configs s /\ queues s' = queues s
    /\ same_shape s s'.
Proof.
  intros Hmid Hc Hw Hi. pose proof Hmid as (Hsem & _ & H3). destruct (H3 i c Hc) as [Ho _].
  unfold object_ok in Ho. rewrite Hw, Hi in Ho. destruct Ho as (n & E & Hsops).
  destruct (semaphores s !! index) as [x|] eqn:Ex; [|done]. cbn [fmap option_fmap option_map] in E. injection E as Ev En.
  unfold sem_check_at. rewrite (config_at_ok _ _ _ Hc). cbn [res_bind]. rewrite Ex. unfold sysvipc_sem_check.
  rewrite bool_decide_eq_false_2 by (rewrite Hw; auto).
  pose proof (Forall_lookup_1 _ _ _ _ Hsem Ex Ev) as (Hl & Hn & Hv).
  destruct (sem_loop_ok (semop_sops c) (sems x)) as (r & Er & Hr); [by rewrite Hl, En|done|].
  rewrite Er. cbn [res_bind].
  assert (Hput : forall y, s_valid y = s_valid x -> nsems y = nsems x -> sem_ok y ->
    let s' := set_semaphores (<[index := y]> (semaphores s)) s in mid me s' /\ same_shape s s').
  { intros y Hy1 Hy2 Hy3 s'. assert (Hsh : same_shape s s').
    { split; [done|]. unfold s'. cbn [semaphores set_semaphores]. apply (insert_shape _ _ _ x); [done|]. by rewrite Hy1, Hy2. }
    split; [|done]. eapply mid_shape; [done..|]. unfold s'. cbn [semaphores set_semaphores]. by apply Forall_insert. }
  destruct r as [|status vs].
  - destruct (Hput x) as [? ?]; [done|done|by eapply Forall_lookup_1|]. by eexists _, _.
  - case_bool.
    + bool_facts. subst status. destruct (Hr vs eq_refl) as [Hlen Hvs].
      destruct (Hput (mkSemaphore (s_key x) (s_generation x) (s_valid x) vs (nsems x))) as [? ?]; [done|done| |].
      { intros _. cbn [sems nsems]. unfold zlen in *. rewrite Hlen. by split; [|split]. }
      by eexists _, _.
    + destruct (Hput x) as [? ?]; [done|done|by eapply Forall_lookup_1|]. by eexists _, _.
Qed.

Lemma sem_wake_loop_mid me index cm tracees : forall s,
  mid me s -> configs s !! me = Some cm -> Forall (fun i => (i < length (configs s))%nat) tracees ->
  exists s', sem_wake_loop me index tracees s = Ok s' /\ mid me s' /\ configs s' !! me = Some cm
    /\ queues s' = queues s /\ length (configs s') = length (configs s) /\ same_shape s s'.
Proof.
  induction tracees as [|i tracees IH]; intros s Hmid Hm Hlt; [by exists s|].
  inversion Hlt as [|? ? Hi Hlt']; subst. cbn [sem_wake_loop].
  destruct (lookup_lt_is_Some_2 (configs s) i Hi) as [c Hc]. rewrite (config_at_ok _ _ _ Hc). cbn [res_bind].
  case_bool; [|by apply IH]. apply andb_true_iff in Hb as [Hb Hx]. apply andb_true_iff in Hb as [Hne Hw].
  apply negb_true_iff, Nat.eqb_neq in Hne. apply bool_decide_eq_true in Hw. apply Nat.eqb_eq in Hx.
  destruct (sem_check_at_mid me index i s c Hmid Hc Hw Hx) as (r & s1 & -> & Hmid1 & Hc1 & Hq1 & Hsh1). cbn [res_bind].
  destruct r as [status|].
  - set (s2 := update_config i (set_sops []) s1).
    assert (Hc2 : configs s2 !! i = Some (set_sops [] c)) by (apply update_config_self; by rewrite Hc1).
    assert (Hmid2 : mid me s2).
    { apply mid_update; [done|]. intros c0 Hc0 Ho Hs. rewrite decide_False in Hs |- * by done. split; [|done].
      unfold object_ok in *. cbn [wait_reason set_sops waiting_object_index semop_sops]. destruct (wait_reason c0); try done.
      destruct Ho as (n & En & _). exists n. split; [done|constructor]. }
    destruct (wake_mid me i status s2 (set_sops [] c) Hmid2 Hne Hc2) as (s3 & c3 & -> & Hmid3 & (Hq3 & Hs3 & Hl3) & Hcs3 & _).
    { cbn [wait_reason set_sops]. by rewrite Hw. }
    cbn [res_bind]. destruct (IH s3) as (s' & -> & H'); [done| | |].
    + rewrite Hcs3, list_lookup_insert_ne by done. unfold s2. rewrite update_config_other by done. by rewrite Hc1.
    + rewrite Hl3. unfold s2. rewrite update_config_length, Hc1. done.
    + exists s'. split; [done|]. destruct H' as (H1 & H2 & H4 & H5 & H6 & H7). split; [done|]. split; [done|].
      split; [by rewrite H4, Hq3|]. split; [by rewrite H5, Hl3; unfold s2; rewrite update_config_length, Hc1|].
      destruct Hsh1 as [Ha Hb]. split; [by rewrite H6, Hq3|by rewrite H7, Hs3].
  - destruct (IH s1) as (s' & -> & H'); [done|by rewrite Hc1|by rewrite Hc1|].
    exists s'. split; [done|]. destruct H' as (H1 & H2 & H4 & H5 & H6 & H7). split; [done|]. split; [done|].
    split; [by rewrite H4|]. split; [by rewrite H5, Hc1|].
    destruct Hsh1 as [Ha Hb]. split; [by rewrite H6|by rewrite H7].
Qed.

(** What a handler guarantees to the wait mechanism. *)
Definition handled (me : nat) (r : res (Z * Ipc Mem)) : Prop :=
  match r with Ok (_, s') => mid me s' | Err _ => True | Stuck _ => False end.

Definition args_ok (arg : Reg -> Z) : Prop := forall r, 0 <= arg r < 2 ^ 64.

Lemma LOOKUP_ok {A} (valid : A -> bool) generation (objects : list A) arg :
  match LOOKUP_IPC_OBJECT valid generation objects arg with
  | Ok (i, o) => objects !! i = Some o /\ valid o = true
  | Err _ => True
  | Stuck _ => False
  end.
Proof.
  unfold LOOKUP_IPC_OBJECT. set (k := Z.land (sgn 32 arg) 0xFFF).
  destruct (Z.leb_spec k 0); [done|]. destruct (Z.ltb_spec (zlen objects) k); [done|]. cbn [orb].
  destruct (lookup_lt_is_Some_2 objects (Z.to_nat (k - 1))) as [o Ho]; [unfold zlen in *; lia|]. rewrite Ho.
  destruct (valid o) eqn:Ev; [|done]. cbn [negb orb]. by case_bool.
Qed.

Lemma search_ok {A} (valid : A -> bool) key id : forall (objects pre : list A) unused,
  (forall j, unused = Some j -> exists o, pre !! j = Some o /\ valid o = false) ->
  let '(found, unused') := search valid key id objects (length pre) unused in
  (forall i, found = Some i -> exists o, (pre ++ objects) !! i = Some o /\ valid o = true)
  /\ (forall j, unused' = Some j -> exists o, (pre ++ objects) !! j = Some o /\ valid o = false).
Proof.
  induction objects as [|o objects IH]; intros pre unused Hu; cbn [search].
  { split; [done|]. rewrite app_nil_r. done. }
  assert (Hpre : forall j x, pre !! j = Some x -> (pre ++ o :: objects) !! j = Some x).
  { intros j x Hx. by apply lookup_app_l_Some. }
  assert (Hnext : forall u, (forall j, u = Some j -> exists o', (pre ++ [o]) !! j = Some o' /\ valid o' = false) ->
    let '(found, unused') := search valid key id objects (S (length pre)) u in
    (forall i, found = Some i -> exists o', (pre ++ o :: objects) !! i = Some o' /\ valid o' = true)
    /\ (forall j, unused' = Some j -> exists o', (pre ++ o :: objects) !! j = Some o' /\ valid o' = false)).
  { intros u Hu'. specialize (IH (pre ++ [o]) u Hu'). rewrite length_app, <- app_assoc in IH. cbn [length app] in IH.
    by rewrite Nat.add_1_r in IH. }
  assert (Hu' : forall j, unused = Some j -> exists o', (pre ++ [o]) !! j = Some o' /\ valid o' = false).
  { intros j Hj. destruct (Hu j Hj) as (x & Hx & Hxv). exists x. split; [|done]. by apply lookup_app_l_Some. }
  destruct (valid o) eqn:Ev.
  - case_bool; [|by apply Hnext]. split.
    + intros i [= <-]. exists o. by rewrite list_lookup_middle.
    + intros j Hj. destruct (Hu j Hj) as (x & Hx & Hxv). exists x. split; [by apply Hpre|done].
  - apply Hnext. destruct unused as [j0|]; [done|]. intros j [= <-]. exists o.
    by rewrite list_lookup_middle.
Qed.

(** A change of the semaphores that keeps those a tracee waits for. *)
Lemma mid_semaphores me s l :
  mid me s -> Forall sem_ok l ->
  (forall j c x, configs s !! j = Some c -> wait_reason c = WR_WAIT_SEMOP ->
     semaphores s !! waiting_object_index c = Some x -> s_valid x = true ->
     exists x', l !! waiting_object_index c = Some x' /\ s_valid x' = true /\ nsems x' = nsems x) ->
  mid me (set_semaphores l s).
Proof.
  intros (H1 & H2 & H3) Hl Hkeep. split; [done|]. split; [done|]. intros j c Hc.
  destruct (H3 j c Hc) as [Ho Hs]. split; [|done]. unfold object_ok in *.
  destruct (wait_reason c) eqn:Ew; [done|done|]. destruct Ho as (n & E & Hsops). exists n. split; [|done].
  destruct (semaphores s !! waiting_object_index c) as [x|] eqn:Ex; [|done]. injection E as Ev En.
  destruct (Hkeep j c x Hc Ew Ex Ev) as (x' & Hx' & Hv' & Hn'). cbn [semaphores set_semaphores]. rewrite Hx'.
  cbn [fmap option_fmap option_map]. by rewrite Hv', Hn', En.
Qed.

Lemma mid_queues me s l :
  mid me s ->
  (forall j c, configs s !! j = Some c -> wait_reason c = WR_WAIT_QUEUE_RECV ->
     q_valid <$> queues s !! waiting_object_index c = Some true ->
     q_valid <$> l !! waiting_object_index c = Some true) ->
  mid me (set_queues l s).
Proof.
  intros (H1 & H2 & H3) Hkeep. split; [done|]. split; [done|]. intros j c Hc.
  destruct (H3 j c Hc) as [Ho Hs]. split; [|done]. unfold object_ok in *.
  destruct (wait_reason c) eqn:Ew; [done| |done]. cbn [queues set_queues]. by eapply Hkeep.
Qed.

Lemma fresh_sem_ok key gen n : 1 <= n <= SYSVIPC_MAX_NSEMS ->
  sem_ok (mkSemaphore key gen true (replicate (Z.to_nat n) 0) n).
Proof.
  intros Hn _. cbn [sems nsems]. split; [unfold zlen; rewrite length_replicate; lia|]. split; [done|].
  apply Forall_replicate. by vm_compute.
Qed.

Lemma semget_handled me arg s : mid me s -> handled me (sysvipc_semget me arg s).
Proof.
  intros Hmid. pose proof Hmid as (Hsem & _ & _). unfold sysvipc_semget. cbv zeta.
  destruct (Z.leb_spec (sgn 32 (arg SYSARG_2)) 0) as [|Hn1]; [done|].
  destruct (Z.ltb_spec SYSVIPC_MAX_NSEMS (sgn 32 (arg SYSARG_2))) as [|Hn2]; [done|]. cbn [orb].
  pose proof (fresh_sem_ok (sgn 32 (arg SYSARG_1))) as Hfresh.
  pose proof (search_ok s_valid s_key (arg SYSARG_1) (semaphores s) [] None ltac:(done)) as Hs.
  cbn [length app] in Hs. destruct (search _ _ _ _ _ _) as [[i|] u].
  - destruct Hs as [Hs _]. destruct (Hs i eq_refl) as (x & Hx & _). case_bool; [done|]. rewrite Hx. by case_bool.
  - destruct Hs as [_ Hs]. case_bool; [done|]. destruct u as [j|].
    + destruct (Hs j eq_refl) as (x & Hx & Hxv). rewrite Hx. apply mid_semaphores; [done| |].
      * apply Forall_insert; [done|]. apply Hfresh. lia.
      * intros k c y _ _ Hy Hyv. destruct (decide (waiting_object_index c = j)) as [E|E]; [rewrite E in Hy; congruence|].
        exists y. by rewrite list_lookup_insert_ne by done.
    + case_bool; [done|]. apply mid_semaphores; [done| |].
      * apply Forall_app. split; [done|]. apply Forall_singleton, Hfresh. lia.
      * intros k c y _ _ Hy Hyv. exists y. split; [|done]. by apply lookup_app_l_Some.
Qed.

Lemma msgget_handled me arg s : mid me s -> handled me (sysvipc_msgget me arg s).
Proof.
  intros Hmid. unfold sysvipc_msgget. cbv zeta.
  pose proof (search_ok q_valid q_key (arg SYSARG_1) (queues s) [] None ltac:(done)) as Hs.
  cbn [length app] in Hs. destruct (search _ _ _ _ _ _) as [[i|] u].
  - destruct Hs as [Hs _]. destruct (Hs i eq_refl) as (x & Hx & _). case_bool; [done|]. by rewrite Hx.
  - destruct Hs as [_ Hs]. case_bool; [done|]. destruct u as [j|].
    + destruct (Hs j eq_refl) as (x & Hx & Hxv). rewrite Hx. apply mid_queues; [done|].
      intros k c _ _ Hy. destruct (decide (waiting_object_index c = j)) as [E|E].
      * rewrite E, Hx in Hy. cbn in Hy. congruence.
      * by rewrite list_lookup_insert_ne by done.
    + apply mid_queues; [done|]. intros k c _ _ Hy.
      destruct (queues s !! waiting_object_index c) as [q|] eqn:Eq; [|done].
      by rewrite (lookup_app_l_Some _ _ _ _ Eq).
Qed.

(** A tracee that still waits did so before. *)
Definition waiters_from (s s' : Ipc Mem) : Prop :=
  forall j c, configs s' !! j = Some c -> wait_reason c <> WR_NOT_WAITING -> configs s !! j = Some c.

Lemma wake_all_mid me reason index cm tracees : forall s,
  mid me s -> reason <> WR_NOT_WAITING -> configs s !! me = Some cm -> wait_reason cm = WR_NOT_WAITING ->
  Forall (fun i => (i < length (configs s))%nat) tracees ->
  exists s', wake_all reason index tracees s = Ok s' /\ mid me s' /\ only_configs s s' /\ waiters_from s s'
    /\ configs s' !! me = Some cm
    /\ forall j c, j ∈ tracees -> configs s' !! j = Some c -> wait_reason c = reason -> waiting_object_index c <> index.
Proof.
  induction tracees as [|i tracees IH]; intros s Hmid Hr Hm Hmw Hlt.
  { exists s. split; [done|]. split; [done|]. split; [by repeat split|]. split; [by intros j c|]. split; [done|]. by intros j c Hj%elem_of_nil. }
  inversion Hlt as [|? ? Hi Hlt']; subst. cbn [wake_all].
  destruct (lookup_lt_is_Some_2 (configs s) i Hi) as [c Hc]. rewrite (config_at_ok _ _ _ Hc). cbn [res_bind].
  case_bool.
  - apply andb_true_iff in Hb as [Hw Hx]. apply bool_decide_eq_true in Hw. apply Nat.eqb_eq in Hx.
    assert (Hne : i <> me) by (intros ->; simplify_eq; congruence).
    destruct (wake_mid me i (- EIDRM) s c Hmid Hne Hc) as (s1 & c1 & -> & Hmid1 & (Hq1 & Hs1 & Hl1) & Hcs1 & Hc1w); [by rewrite Hw|].
    cbn [res_bind]. destruct (IH s1) as (s' & -> & H1 & (Hq2 & Hs2 & Hl2) & H3 & H4 & H5); [done|done| |done| |].
    + by rewrite Hcs1, list_lookup_insert_ne by done.
    + by rewrite Hl1.
    + exists s'. split; [done|]. split; [done|]. split; [split_and!; congruence|].
      assert (Hwf : waiters_from s s').
      { intros j c' Hj Hjw. specialize (H3 j c' Hj Hjw). rewrite Hcs1 in H3. destruct (decide (j = i)) as [->|Hji].
        - rewrite list_lookup_insert_eq in H3 by done. by simplify_eq.
        - by rewrite list_lookup_insert_ne in H3 by done. }
      split; [done|]. split; [done|]. intros j c' [->|Hj]%elem_of_cons Hjc Hjw; [|by eapply H5].
      assert (E : configs s1 !! i = Some c') by (apply H3; [done|]; by rewrite Hjw).
      rewrite Hcs1, list_lookup_insert_eq in E by done. injection E as <-. congruence.
  - destruct (IH s) as (s' & -> & H1 & H2 & H3 & H4 & H5); [done..|].
    exists s'. split; [done|]. split; [done|]. split; [done|]. split; [done|]. split; [done|].
    intros j c' [->|Hj]%elem_of_cons Hjc Hjw; [|by eapply H5]. intros Hx.
    assert (E : configs s !! i = Some c') by (apply H3; [done|]; by rewrite Hjw).
    rewrite Hc in E. injection E as ->. rewrite bool_decide_eq_true_2 in Hb by done. cbn [andb] in Hb.
    apply Nat.eqb_neq in Hb. done.
Qed.

Lemma seq_below (s : Ipc Mem) : Forall (fun i => (i < length (configs s))%nat) (seq 0 (length (configs s))).
Proof. apply Forall_forall. intros i Hi%elem_of_seq. lia. Qed.

Lemma wake_all_none me reason index cm s :
  mid me s -> reason <> WR_NOT_WAITING -> configs s !! me = Some cm -> wait_reason cm = WR_NOT_WAITING ->
  exists s', wake_all reason index (seq 0 (length (configs s))) s = Ok s' /\ mid me s'
    /\ queues s' = queues s /\ semaphores s' = semaphores s
    /\ forall j c, configs s' !! j = Some c -> wait_reason c = reason -> waiting_object_index c <> index.
Proof.
  intros Hmid Hr Hm Hmw.
  destruct (wake_all_mid me reason index cm _ s Hmid Hr Hm Hmw (seq_below s))
    as (s' & E & H1 & (Hq & Hs & Hl) & _ & _ & H). exists s'. split_and!; try done.
  intros j c Hj Hw. eapply H; [|exact Hj|exact Hw]. apply elem_of_seq. apply lookup_lt_Some in Hj. lia.
Qed.

Lemma write_status_handled me a bytes s : mid me s -> handled me (write_status me a bytes s).
Proof. intros H. unfold write_status. by destruct (write_data _ _ _ _) as [m [e|]]. Qed.

Lemma semctl_handled me arg s cm :
  mid me s -> args_ok arg -> configs s !! me = Some cm -> wait_reason cm = WR_NOT_WAITING ->
  handled me (sysvipc_semctl me arg s).
Proof.
  intros Hmid Harg Hm Hmw. pose proof Hmid as (Hsem & _ & _). unfold sysvipc_semctl, lookup_semaphore.
  pose proof (LOOKUP_ok s_valid s_generation (semaphores s) (arg SYSARG_1)) as Hlk.
  destruct (LOOKUP_IPC_OBJECT _ _ _ _) as [[i x]|e|w]; [|done|done]. destruct Hlk as [Hx Hxv]. cbn [res_bind].
  destruct (Forall_lookup_1 _ _ _ _ Hsem Hx Hxv) as (Hl & Hn & Hv).
  set (semnum := sgn 32 (arg SYSARG_2)). set (bad := (semnum <? 0) || (nsems x <=? semnum)).
  assert (Hval : bad = false -> exists v, sems x !! Z.to_nat semnum = Some v).
  { intros Hb. apply orb_false_iff in Hb as [Hb1 Hb2]. apply lookup_lt_is_Some_2. unfold zlen in Hl. lia. }
  case_bool. { destruct bad; [done|]. by destruct (Hval eq_refl) as [v ->]. }
  case_bool.
  { case_bool; [done|]. destruct bad; [done|]. destruct (Hval eq_refl) as [v ->]. bool_facts.
    apply mid_semaphores; [done| |].
    - apply Forall_insert; [done|]. intros _. cbn [sems nsems]. unfold zlen. rewrite length_insert.
      split; [done|]. split; [done|]. apply Forall_insert; [done|]. specialize (Harg SYSARG_4). lia.
    - intros j c y _ _ Hy Hyv. destruct (decide (waiting_object_index c = i)) as [E|E].
      + rewrite E in *. rewrite list_lookup_insert_eq by (by eapply lookup_lt_Some). simplify_eq. by eexists.
      + exists y. by rewrite list_lookup_insert_ne by done. }
  case_bool; [by apply write_status_handled|]. case_bool.
  { destruct (wake_all_none me WR_WAIT_SEMOP i cm s Hmid ltac:(done) Hm Hmw) as (s' & -> & Hmid' & _ & Hs' & Hnone).
    cbn [res_bind]. rewrite Hs'. apply mid_semaphores; [done|by apply Forall_insert|].
    intros j c y Hc Hw Hy Hyv. rewrite Hs' in Hy. exists y. rewrite list_lookup_insert_ne; [done|].
    intros E. by apply (Hnone j c Hc Hw). }
  case_bool; [by apply write_status_handled|done].
Qed.

Lemma msgctl_handled stats me arg s cm :
  mid me s -> configs s !! me = Some cm -> wait_reason cm = WR_NOT_WAITING ->
  handled me (sysvipc_msgctl stats me arg s).
Proof.
  intros Hmid Hm Hmw. unfold sysvipc_msgctl, lookup_queue.
  pose proof (LOOKUP_ok q_valid q_generation (queues s) (arg SYSARG_1)) as Hlk.
  destruct (LOOKUP_IPC_OBJECT _ _ _ _) as [[i q]|e|w]; [|done|done]. cbn [res_bind].
  case_bool; [|case_bool; [by apply write_status_handled|done]].
  destruct (wake_all_none me WR_WAIT_QUEUE_RECV i cm s Hmid ltac:(done) Hm Hmw) as (s' & -> & Hmid' & Hq' & _ & Hnone).
  cbn [res_bind]. apply mid_queues; [done|]. intros j c Hc Hw Hy. rewrite Hq' in Hy |- *.
  rewrite list_lookup_insert_ne; [done|]. intros E. by apply (Hnone j c Hc Hw).
Qed.

Lemma semop_handled me arg s cm :
  mid me s -> args_ok arg -> configs s !! me = Some cm -> handled me (sysvipc_semop me arg s).
Proof.
  intros Hmid Harg Hm. unfold sysvipc_semop, lookup_semaphore.
  pose proof (LOOKUP_ok s_valid s_generation (semaphores s) (arg SYSARG_1)) as Hlk.
  destruct (LOOKUP_IPC_OBJECT _ _ _ _) as [[i x]|e|w]; [|done|done]. destruct Hlk as [Hx Hxv]. cbn [res_bind].
  case_bool; [done|]. case_bool; [done|]. destruct (read_data _ _ _ _) as [bytes|e]; [|done]. cbv zeta.
  set (sops := decode_sops _ _).
  destruct (existsb (fun sop => (sem_num sop <? 0) || (nsems x <=? sem_num sop)) sops) eqn:Hex; [done|].
  assert (Hsops : Forall (fun sop => 0 <= sem_num sop < nsems x) sops).
  { apply List.Forall_forall. intros sop Hin.
    assert (Hf : (sem_num sop <? 0) || (nsems x <=? sem_num sop) = false).
    { destruct (_ || _) eqn:E; [|done]. rewrite <- Hex. symmetry. apply existsb_exists. by exists sop. }
    apply orb_false_iff in Hf as [H1 H2]. lia. }
  set (g := fun c => set_sops sops (set_wait WR_WAIT_SEMOP i c)). set (s1 := update_config me g s).
  assert (Hmid1 : mid me s1).
  { apply mid_update; [done|]. intros c Hc _ Hent. rewrite decide_True in Hent |- * by done. split; [|done].
    exists (nsems x). cbn [waiting_object_index g set_sops set_wait]. rewrite Hx. cbn. by rewrite Hxv. }
  assert (Hm1 : configs s1 !! me = Some (g cm)) by (by apply update_config_self).
  destruct (sem_check_at_mid me i me s1 (g cm) Hmid1 Hm1) as (r & s2 & -> & Hmid2 & Hc2 & Hq2 & Hsh2); [done|done|].
  cbn [res_bind].
  destruct (sem_wake_loop_mid me i (g cm) (seq 0 (length (configs s2))) s2) as (s3 & -> & Hmid3 & Hm3 & _);
    [done|by rewrite Hc2|apply seq_below|]. cbn [res_bind]. destruct r as [status|].
  - apply mid_update; [done|]. intros c Hc Ho Hent. rewrite decide_True in Hent |- * by done. by split.
  - rewrite (config_at_ok _ _ _ Hm3). cbn [res_bind]. rewrite bool_decide_eq_false_2; [done|]. by intros H.
Qed.

Lemma msg_wake_loop_mid me index item cm tracees : forall s,
  mid me s -> configs s !! me = Some cm -> wait_reason cm = WR_NOT_WAITING ->
  Forall (fun i => (i < length (configs s))%nat) tracees ->
  exists s', msg_wake_loop index item tracees s = Ok s' /\ mid me s' /\ only_configs s s'.
Proof.
  induction tracees as [|i tracees IH]; intros s Hmid Hm Hmw Hlt; [exists s; split; [done|]; split; [done|by repeat split]|].
  inversion Hlt as [|? ? Hi Hlt']; subst. cbn [msg_wake_loop].
  destruct (lookup_lt_is_Some_2 (configs s) i Hi) as [c Hc]. rewrite (config_at_ok _ _ _ Hc). cbn [res_bind].
  case_bool; [|by apply IH]. apply andb_true_iff in Hb as [Hb _]. apply andb_true_iff in Hb as [Hw Hx].
  apply bool_decide_eq_true in Hw. assert (Hne : i <> me) by (intros ->; simplify_eq; congruence).
  pose proof Hmid as (_ & _ & H3). destruct (H3 i c Hc) as [Ho Hs]. rewrite decide_False in Hs by done.
  set (c1 := set_chain CSTATE_MSGRCV_RETRY c). set (s1 := update_config i (set_chain CSTATE_MSGRCV_RETRY) s).
  unfold sysvipc_wake_tracee.
  assert (Hc1 : configs s1 !! i = Some c1) by (by apply update_config_self).
  rewrite (config_at_ok _ _ _ Hc1). cbn [res_bind].
  change (wait_reason c1) with (wait_reason c). change (wait_state c1) with (wait_state c).
  rewrite bool_decide_eq_false_2 by (by rewrite Hw).
  assert (Hlen : forall g, length (configs (update_config i g s1)) = length (configs s)).
  { intros g. by rewrite update_config_length; unfold s1; rewrite update_config_length. }
  assert (Hm' : forall state, (state = WSTATE_SIGNALED_PPOLL \/ state = WSTATE_RESTARTED_INTO_PPOLL_CANCELED) ->
    mid me (update_config i (fun _ => set_state state (- EAGAIN) (set_wait WR_NOT_WAITING (waiting_object_index c1) c1)) s1)).
  { intros state Hst. assert (E : update_config i (fun _ => set_state state (- EAGAIN) (set_wait WR_NOT_WAITING (waiting_object_index c1) c1)) s1
      = update_config i (fun _ => set_state state (- EAGAIN) (set_wait WR_NOT_WAITING (waiting_object_index c1) c1)) s).
    { unfold s1, update_config, set_configs. cbn [configs queues semaphores memory stopped]. f_equal.
      apply list_eq. intros j. destruct (decide (j = i)) as [->|Hji].
      - rewrite !list_lookup_alter_eq. by rewrite Hc.
      - by rewrite !list_lookup_alter_ne by done. }
    rewrite E. apply mid_update; [done|]. intros c0 _ _ _. split; [done|]. rewrite decide_False by done.
    by destruct Hst as [-> | ->]. }
  unfold state_ok in Hs. destruct (wait_state c) eqn:Ew.
  - destruct Hs as [Hs _]. congruence.
  - congruence.
  - eexists. split; [done|]. split; [apply Hm'; by right|]. split; [done|]. split; [done|]. apply Hlen.
  - eexists. split; [done|]. split; [by apply (Hm' WSTATE_SIGNALED_PPOLL); left|]. split; [done|]. split; [done|]. apply Hlen.
  - congruence.
  - destruct Hs as [Hs _]. congruence.
Qed.

Lemma mid_queue me s i q q' :
  mid me s -> queues s !! i = Some q -> q_valid q' = q_valid q -> mid me (set_queue i q' s).
Proof.
  intros Hmid Hq Hv. apply mid_queues; [done|]. intros j c _ _ Hy. destruct (decide (waiting_object_index c = i)) as [E|E].
  - rewrite E in *. rewrite list_lookup_insert_eq by (by eapply lookup_lt_Some). rewrite Hq in Hy. cbn in *. by rewrite Hv.
  - by rewrite list_lookup_insert_ne by done.
Qed.

Lemma msgsnd_handled now me arg s cm :
  mid me s -> configs s !! me = Some cm -> wait_reason cm = WR_NOT_WAITING ->
  handled me (sysvipc_msgsnd now me arg s).
Proof.
  intros Hmid Hm Hmw. unfold sysvipc_msgsnd, lookup_queue.
  pose proof (LOOKUP_ok q_valid q_generation (queues s) (arg SYSARG_1)) as Hlk.
  destruct (LOOKUP_IPC_OBJECT _ _ _ _) as [[i q]|e|w]; [|done|done]. destruct Hlk as [Hq Hqv]. cbn [res_bind].
  case_bool; [done|]. destruct (read_data _ _ _ 8) as [bytes|e]; [|done]. case_bool; [done|].
  destruct (read_data _ _ _ (arg SYSARG_3)) as [text|e]; [|done]. rewrite (config_at_ok _ _ _ Hm). cbn [res_bind].
  destruct (msg_wake_loop_mid me i (mkItem (sgn 64 (of_le bytes)) text) cm (seq 0 (length (configs s))) s)
    as (s' & -> & Hmid' & Hq' & _); [done|done|done|apply seq_below|].
  cbn [res_bind]. eapply mid_queue; [done|by rewrite Hq'|done].
Qed.

Lemma do_msgrcv_handled now me i q s c :
  mid me s -> queues s !! i = Some q -> q_valid q = true -> configs s !! me = Some c ->
  handled me (sysvipc_do_msgrcv now me i q s).
Proof.
  intros Hmid Hq Hqv Hc. unfold sysvipc_do_msgrcv. rewrite (config_at_ok _ _ _ Hc). cbn [res_bind].
  case_bool; [done|]. case_bool; [done|]. case_bool; [done|].
  assert (Hf : forall p l k j, find_item p l k = Some j -> (k <= j)%nat /\ is_Some (l !! (j - k)%nat)).
  { intros p l. induction l as [|y l IHl]; intros k j Hj; [done|]. cbn [find_item] in Hj.
    destruct (p y). { injection Hj as <-. rewrite Nat.sub_diag. split; [lia|by eexists]. }
    apply IHl in Hj as [Hj1 Hj2]. split; [lia|]. by replace (j - k)%nat with (S (j - S k)) by lia. }
  destruct (found_item _ _ _) as [j|] eqn:Ef.
  - assert (Hj : is_Some (items q !! j)).
    { unfold found_item in Ef. case_bool_in Ef.
      - case_bool_in Ef; [|done]. injection Ef as <-. bool_facts. apply lookup_lt_is_Some_2. unfold zlen in *. lia.
      - apply Hf in Ef as [_ Ef]. by rewrite Nat.sub_0_r in Ef. }
    destruct Hj as [item ->]. destruct (sysvipc_msg_deliver _ _ _ _ _ _) as [[status d] m].
    assert (Hmid' : mid me (set_memory m s)) by done.
    case_bool; by eapply mid_queue.
  - case_bool; [done|]. apply mid_update; [done|]. intros c0 Hc0 _ Hent. rewrite decide_True in Hent |- * by done.
    split; [|done]. unfold object_ok. cbn [wait_reason set_wait waiting_object_index]. rewrite Hq. cbn. by rewrite Hqv.
Qed.

Lemma msgrcv_handled now me arg s c :
  mid me s -> configs s !! me = Some c -> handled me (sysvipc_msgrcv now me arg s).
Proof.
  intros Hmid Hc. unfold sysvipc_msgrcv, lookup_queue.
  pose proof (LOOKUP_ok q_valid q_generation (queues s) (arg SYSARG_1)) as Hlk.
  destruct (LOOKUP_IPC_OBJECT _ _ _ _) as [[i q]|e|w]; [|done|done]. destruct Hlk as [Hq Hqv]. cbn [res_bind].
  eapply do_msgrcv_handled; [|done|done|by apply update_config_self].
  apply mid_update; [done|]. intros c0 Hc0 Ho Hent. by split; [|case_decide].
Qed.

End Invariant.

(** ** Events *)

Lemma set_sysnum_total regs n : exists regs', set_sysnum regs n = Ok regs'.
Proof.
  unfold set_sysnum. assert (Ha : get_abi regs <> ABI_3) by (unfold get_abi; by case_match).
  unfold detranslate_sysnum. destruct (n =? PR_void); [by eexists|].
  rewrite get_sysnums_table by done. cbn [res_bind]. destruct (find_sysnum _ _ _); by eexists.
Qed.

Section Steps.

Context {Mem : Type} {TM : TraceeMemory Mem}.
Context (stats_bytes : MsqidDs -> list Z).

(** An event of a tracee: the entry of a system call, a SIGSYS, the exit, at some
    time and with some registers. *)
Inductive IpcEvent :=
  | EnterEvent (now : Z) (me : nat) (regs : Regs)
  | SigsysEvent (now : Z) (me : nat) (regs : Regs)
  | ExitEvent (now : Z) (me : nat) (regs : Regs).

Definition ipc_step (e : IpcEvent) (s : Ipc Mem) : res (Ipc Mem) :=
  match e with
  | EnterEvent now me regs => let! (_, _, s) := syscall_enter_start now stats_bytes me regs s in Ok s
  | SigsysEvent now me regs => let! (_, _, s) := sysvipc_syscall_common now stats_bytes me true regs s in Ok s
  | ExitEvent now me regs => let! (_, _, s) := syscall_exit_start now me regs s in Ok s
  end.

(** The events the kernel can send: a tracee enters a system call when it is not
    in one, or enters again the one it was restarted into; it leaves the one it
    is in. *)
Definition can_enter (c : SysVIpcConfig) (sysnum : Sysnum) : Prop :=
  match wait_state c with
  | WSTATE_NOT_WAITING | WSTATE_RESTARTED_INTO_PPOLL_CANCELED => True
  | WSTATE_RESTARTED_INTO_PPOLL => sysnum = PR_ppoll
  | _ => False
  end.
Definition can_exit (c : SysVIpcConfig) : Prop :=
  wait_state c <> WSTATE_RESTARTED_INTO_PPOLL /\ wait_state c <> WSTATE_RESTARTED_INTO_PPOLL_CANCELED.

(** The queue a woken receiver has to look at again was not removed. *)
Definition queue_kept (s : Ipc Mem) (c : SysVIpcConfig) : Prop :=
  chain_state c = CSTATE_MSGRCV_RETRY -> q_valid <$> queues s !! waiting_object_index c = Some true.

Definition legal (e : IpcEvent) (s : Ipc Mem) : Prop :=
  match e with
  | EnterEvent _ me regs => exists c n, configs s !! me = Some c /\ regs_ok regs
      /\ get_sysnum regs CURRENT = Ok n /\ can_enter c n /\ queue_kept s c
  | SigsysEvent _ me regs => exists c n, configs s !! me = Some c /\ regs_ok regs
      /\ get_sysnum regs CURRENT = Ok n /\ wait_state c = WSTATE_NOT_WAITING
  | ExitEvent _ me regs => exists c, configs s !! me = Some c /\ can_exit c /\ queue_kept s c
  end.

Lemma ipc_ok_mid (s : Ipc Mem) me c : ipc_ok s -> configs s !! me = Some c -> mid (wait_state c) (chain_state c) me s.
Proof.
  intros [H1 H2] Hc. split; [done|]. split; [by eexists|]. intros i ci Hi. destruct (H2 i ci Hi) as [Ho Hs].
  split; [done|]. case_decide as E; [|done]. subst. simplify_eq. done.
Qed.

(** The end of a handler: the state of [me] is settled. *)
Lemma mid_ipc_ok ws ch me (s : Ipc Mem) g :
  mid ws ch me s -> (forall c, configs s !! me = Some c -> object_ok s c -> entering ws ch c ->
                       object_ok s (g c) /\ state_ok (g c)) ->
  ipc_ok (update_config me g s).
Proof.
  intros (H1 & _ & H3) Hg. split; [done|]. intros i c [(-> & c0 & Hc0 & ->)|[Hne Hc]]%update_config_lookup.
  - destruct (H3 me c0 Hc0) as [Ho Hs]. rewrite decide_True in Hs by done. by apply Hg.
  - destruct (H3 i c Hc) as [Ho Hs]. rewrite decide_False in Hs by done. by split.
Qed.

Lemma handler_handled now h n me regs (s : Ipc Mem) c :
  handler_of now stats_bytes n = Some h -> regs_ok regs -> ipc_ok s -> configs s !! me = Some c ->
  state_ok c -> wait_state c = WSTATE_NOT_WAITING ->
  exists status s', run_handler h me regs s = Ok (status, s') /\ mid WSTATE_NOT_WAITING CSTATE_NOT_CHAINED me s'.
Proof.
  intros Hh Hregs Hok Hc Hst Hw. pose proof Hst as Hst'. unfold state_ok in Hst'. rewrite Hw in Hst'.
  destruct Hst' as [Hr Hch]. pose proof (ipc_ok_mid s me c Hok Hc) as Hmid. rewrite Hw, Hch in Hmid.
  assert (Harg : args_ok (peek_reg regs CURRENT)).
  { intros r. pose proof (peek_reg_range regs CURRENT r Hregs) as Hp. split; [lia|].
    assert (2 ^ reg_bits regs <= 2 ^ 64) by (unfold reg_bits; by case_match). lia. }
  assert (Hd : handled WSTATE_NOT_WAITING CSTATE_NOT_CHAINED me (h me (peek_reg regs CURRENT) s)).
  { unfold handler_of in Hh. repeat case_bool_in Hh; simplify_eq.
    - by apply msgget_handled.
    - by eapply msgsnd_handled.
    - by eapply msgrcv_handled.
    - by eapply msgctl_handled.
    - by apply semget_handled.
    - by eapply semop_handled.
    - by eapply semctl_handled. }
  unfold run_handler. destruct (h me (peek_reg regs CURRENT) s) as [[status s']|e|w]; [by eexists _, _|by eexists _, _|done].
Qed.

Lemma mid_settled ws ch me (s : Ipc Mem) :
  mid ws ch me s -> (forall c, configs s !! me = Some c -> state_ok c) -> ipc_ok s.
Proof.
  intros (H1 & _ & H3) Hg. split; [done|]. intros i c Hc. destruct (H3 i c Hc) as [Ho Hs]. split; [done|].
  case_decide as E; [subst; by apply Hg|done].
Qed.

Lemma mid_change ws ch ws' ch' me (s : Ipc Mem) g :
  mid ws ch me s -> (forall c, configs s !! me = Some c -> object_ok s c -> entering ws ch c ->
                       object_ok s (g c) /\ entering ws' ch' (g c)) ->
  mid ws' ch' me (update_config me g s).
Proof.
  intros (H1 & [cm Hm] & H3) Hg. split; [done|]. split; [exists (g cm); by apply update_config_self|].
  intros i c [(-> & c0 & Hc0 & ->)|[Hne Hc]]%update_config_lookup.
  - destruct (H3 me c0 Hc0) as [Ho Hs]. rewrite decide_True in Hs |- * by done. by apply Hg.
  - destruct (H3 i c Hc) as [Ho Hs]. rewrite decide_False in Hs |- * by done. by split.
Qed.

Lemma mid_me ws ch me (s : Ipc Mem) :
  mid ws ch me s -> exists c, configs s !! me = Some c /\ object_ok s c /\ entering ws ch c.
Proof.
  intros (_ & [c Hc] & H3). destruct (H3 me c Hc) as [Ho Hs]. rewrite decide_True in Hs by done. by exists c.
Qed.

Lemma common_ok now me from_sigsys regs (s : Ipc Mem) c n :
  ipc_ok s -> configs s !! me = Some c -> wait_state c = WSTATE_NOT_WAITING -> regs_ok regs ->
  get_sysnum regs CURRENT = Ok n ->
  exists a regs' s', sysvipc_syscall_common now stats_bytes me from_sigsys regs s = Ok (a, regs', s') /\ ipc_ok s'.
Proof.
  intros Hok Hc Hw Hregs Hn. pose proof Hok as [_ H2]. destruct (H2 me c Hc) as [_ Hst].
  unfold sysvipc_syscall_common. rewrite (config_at_ok _ _ _ Hc). cbn [res_bind].
  rewrite bool_decide_eq_false_2 by (by rewrite Hw; intros H). rewrite Hn. cbn [res_bind].
  destruct (handler_of now stats_bytes n) as [h|] eqn:Hh; [|by eexists _, _, _].
  destruct (handler_handled now h n me regs s c Hh Hregs Hok Hc Hst Hw) as (status & s1 & -> & Hmid). cbn [res_bind].
  destruct (mid_me _ _ _ _ Hmid) as (c1 & Hc1 & Ho1 & Hw1 & Hch1). rewrite (config_at_ok _ _ _ Hc1). cbn [res_bind].
  rewrite bool_decide_eq_false_2 by (by rewrite Hch1; intros H).
  case_bool_decide as Hr.
  - match goal with |- context [set_sysnum ?r PR_ppoll] => destruct (set_sysnum_total r PR_ppoll) as [regs' ->] end.
    cbn [res_bind]. destruct from_sigsys; eexists _, _, _; (split; [done|]); (eapply mid_ipc_ok; [exact Hmid|]);
      intros c2 Hc2 Ho2 [_ Hch2]; simplify_eq; by split.
  - destruct from_sigsys.
    + eexists _, _, _. split; [done|]. eapply mid_settled; [exact Hmid|]. intros c2 Hc2. simplify_eq.
      unfold state_ok. rewrite Hw1. split; [|done]. destruct (decide (wait_reason c1 = WR_NOT_WAITING)); [done|]. by destruct Hr.
    + destruct (set_sysnum_total regs PR_getpid) as [regs' ->]. cbn [res_bind]. eexists _, _, _. split; [done|].
      eapply mid_ipc_ok; [exact Hmid|]. intros c2 Hc2 Ho2 [_ Hch2]. simplify_eq. split; [done|].
      split; [|done]. destruct (decide (wait_reason c1 = WR_NOT_WAITING)); [done|]. by destruct Hr.
Qed.

Lemma do_msgrcv_no_err now me i q (s : Ipc Mem) e : sysvipc_do_msgrcv now me i q s <> Err e.
Proof.
  unfold sysvipc_do_msgrcv, config_at. destruct (configs s !! me); [|done]. cbn [res_bind].
  repeat case_bool; try done.
  - destruct (found_item _ _ _); [|done]. destruct (items q !! n); [|done].
    destruct (sysvipc_msg_deliver _ _ _ _ _ _) as [[? ?] ?]. by case_bool.
  - destruct (found_item _ _ _); [|done]. destruct (items q !! n); [|done].
    destruct (sysvipc_msg_deliver _ _ _ _ _ _) as [[? ?] ?]. by case_bool.
Qed.

Lemma final_status_ok now ws me c (s : Ipc Mem) :
  mid ws (chain_state c) me s -> configs s !! me = Some c -> wait_reason c = WR_NOT_WAITING -> queue_kept s c ->
  exists status s', final_status now me c s = Ok (status, s') /\ mid ws CSTATE_NOT_CHAINED me s'
    /\ forall c', configs s' !! me = Some c' -> wait_reason c' = WR_NOT_WAITING.
Proof.
  intros Hmid Hc Hr Hq. unfold final_status. case_bool_decide as Hch.
  2: { exists (status_after_wait c), s. destruct (chain_state c); [|done]. split; [done|]. split; [done|]. intros c' Hc'. by simplify_eq. }
  rewrite Hch in Hmid. unfold sysvipc_msgrcv_retry. rewrite (config_at_ok _ _ _ Hc). cbn [res_bind].
  rewrite bool_decide_eq_false_2 by (by rewrite Hch; intros H).
  assert (Hfin : forall (status : Z) (s1 : Ipc Mem), mid ws CSTATE_MSGRCV_RETRY me s1 ->
    (forall c', configs s1 !! me = Some c' -> wait_reason c' = WR_NOT_WAITING) ->
    exists (status' : Z) s', Ok (status, update_config me (set_chain CSTATE_NOT_CHAINED) s1) = Ok (status', s')
      /\ mid ws CSTATE_NOT_CHAINED me s' /\ forall c', configs s' !! me = Some c' -> wait_reason c' = WR_NOT_WAITING).
  { intros status s1 Hm1 Hr1. eexists _, _. split; [done|]. split.
    - eapply mid_change; [exact Hm1|]. intros c' Hc' Ho' [Hw' _]. by split.
    - intros c' [(_ & c0 & Hc0 & ->)|[Hne _]]%update_config_lookup; [|done]. exact (Hr1 c0 Hc0). }
  destruct (status_after_wait c =? - EAGAIN).
  2: { cbn [res_bind]. apply Hfin; [done|]. intros c' Hc'. by simplify_eq. }
  specialize (Hq Hch). destruct (queues s !! waiting_object_index c) as [q|] eqn:Eq; [|done]. injection Hq as Hqv.
  rewrite Hqv. cbn [negb].
  pose proof (do_msgrcv_handled ws CSTATE_MSGRCV_RETRY now me (waiting_object_index c) q s c Hmid Eq Hqv Hc) as Hd.
  destruct (sysvipc_do_msgrcv now me (waiting_object_index c) q s) as [[status s1]|e|w] eqn:Ed; [|by apply do_msgrcv_no_err in Ed|done].
  cbn [res_bind]. destruct (mid_me _ _ _ _ Hd) as (c1 & Hc1 & Ho1 & He1). rewrite (config_at_ok _ _ _ Hc1). cbn [res_bind].
  case_bool_decide as Hr1; cbn [res_bind].
  - apply Hfin.
    + eapply mid_change; [exact Hd|]. intros c' Hc' Ho' He'. by split.
    + intros c' [(_ & c0 & Hc0 & ->)|[Hne _]]%update_config_lookup; done.
  - apply Hfin; [done|]. intros c' Hc'. assert (c' = c1) as -> by congruence. destruct (decide (wait_reason c1 = WR_NOT_WAITING)); [done|]. by destruct Hr1.
Qed.

(** The exit of a tracee that was woken or did not wait. *)
Lemma exit_woken now me regs (s : Ipc Mem) c :
  ipc_ok s -> configs s !! me = Some c -> wait_reason c = WR_NOT_WAITING -> queue_kept s c ->
  exists s', (let! (_, _, s) :=
    (if bool_decide (wait_reason c <> WR_NOT_WAITING) then Stuck AssertFailed
     else
       let s := update_config me (set_state WSTATE_NOT_WAITING (status_after_wait c)) s in
       let! (status, s) := final_status now me c s in
       Ok (1, poke_reg regs SYSARG_RESULT (wrap64 status), s)) in Ok s) = Ok s' /\ ipc_ok s'.
Proof.
  intros Hok Hc Hr Hq. rewrite bool_decide_eq_false_2 by (by rewrite Hr; intros H). cbv zeta.
  set (s1 := update_config me (set_state WSTATE_NOT_WAITING (status_after_wait c)) s).
  assert (Hmid : mid WSTATE_NOT_WAITING (chain_state c) me s1).
  { eapply mid_change; [by apply (ipc_ok_mid s me c)|]. intros c' Hc' Ho' [_ He']. by split. }
  set (c1 := set_state WSTATE_NOT_WAITING (status_after_wait c) c).
  assert (Hc1 : configs s1 !! me = Some c1) by (by apply update_config_self).
  assert (Ef : final_status now me c s1 = final_status now me c1 s1) by done. rewrite Ef.
  destruct (final_status_ok now WSTATE_NOT_WAITING me c1 s1 Hmid Hc1 Hr Hq) as (status & s2 & -> & Hmid2 & Hr2).
  cbn [res_bind]. eexists. split; [done|]. eapply mid_settled; [exact Hmid2|]. intros c' Hc'.
  destruct (mid_me _ _ _ _ Hmid2) as (c2 & Hc2 & _ & Hw2 & Hch2). simplify_eq. unfold state_ok. rewrite Hw2.
  split; [by apply Hr2|done].
Qed.

Lemma ipc_step_ok e (s : Ipc Mem) : ipc_ok s -> legal e s -> exists s', ipc_step e s = Ok s' /\ ipc_ok s'.
Proof.
  intros Hok Hlegal. pose proof Hok as [_ H2]. destruct e as [now me regs|now me regs|now me regs]; cbn [ipc_step legal] in *.
  - destruct Hlegal as (c & n & Hc & Hregs & Hn & Hcan & Hq). destruct (H2 me c Hc) as [Ho Hst].
    unfold syscall_enter_start. rewrite (config_at_ok _ _ _ Hc). cbn [res_bind]. unfold can_enter in Hcan.
    destruct (wait_state c) eqn:Ew; try done.
    + destruct (common_ok now me false regs s c n) as (a & r & s' & -> & H'); try done. by eexists.
    + unfold state_ok in Hst. rewrite Ew in Hst. pose proof (ipc_ok_mid s me c Hok Hc) as Hmid.
      destruct (final_status_ok now _ me c s Hmid Hc Hst Hq) as (status & s1 & -> & Hmid1 & Hr1). cbn [res_bind].
      match goal with |- context [set_sysnum ?r PR_void] => destruct (set_sysnum_total r PR_void) as [regs' ->] end.
      cbn [res_bind]. eexists. split; [done|]. eapply mid_ipc_ok; [exact Hmid1|]. intros c' Hc' Ho' [_ Hch'].
      split; [done|]. split; [exact (Hr1 c' Hc')|done].
    + rewrite Hn, Hcan. cbn [res_bind]. change (PR_ppoll =? PR_ppoll) with true. cbn [negb res_bind]. eexists. split; [done|].
      eapply mid_ipc_ok; [by apply (ipc_ok_mid s me c)|]. intros c' Hc' Ho' He'. simplify_eq. split; [done|].
      unfold state_ok in Hst. by rewrite Ew in Hst.
  - destruct Hlegal as (c & n & Hc & Hregs & Hn & Hw).
    destruct (common_ok now me true regs s c n) as (a & r & s' & -> & H'); try done. by eexists.
  - destruct Hlegal as (c & Hc & [Hcan1 Hcan2] & Hq). destruct (H2 me c Hc) as [Ho Hst].
    unfold syscall_exit_start. rewrite (config_at_ok _ _ _ Hc). cbn [res_bind]. pose proof Hst as Hst0. unfold state_ok in Hst.
    destruct (wait_state c) eqn:Ew; try done.
    + by eexists.
    + destruct Hst as [Hr Hch]. rewrite bool_decide_eq_false_2 by done. cbn [res_bind]. eexists. split; [done|].
      eapply mid_ipc_ok; [by apply (ipc_ok_mid s me c)|]. intros c' Hc' Ho' He'. assert (c' = c) as -> by congruence.
      destruct (wait_reason c); by split.
    + apply (exit_woken now me regs s c); try done.
    + apply (exit_woken now me regs s c); try done. by destruct Hst.
Qed.

(** One legal event. *)
Definition ipc_reaches (s s' : Ipc Mem) : Prop := exists e, legal e s /\ ipc_step e s = Ok s'.

(** The state a name-space starts in. *)
Definition fresh_ipc (s : Ipc Mem) : Prop :=
  queues s = [] /\ semaphores s = []
  /\ forall i c, configs s !! i = Some c -> wait_reason c = WR_NOT_WAITING
       /\ wait_state c = WSTATE_NOT_WAITING /\ chain_state c = CSTATE_NOT_CHAINED.

Lemma reachable_ok s s' : fresh_ipc s -> rtc ipc_reaches s s' -> ipc_ok s'.
Proof.
  intros (Hq & Hs & Hc) Hr. assert (Hok : ipc_ok s).
  { split; [by rewrite Hs|]. intros i c Hi. destruct (Hc i c Hi) as (H1 & H2 & H3).
    unfold object_ok, state_ok. by rewrite H1, H2. }
  clear Hq Hs Hc. induction Hr as [|s1 s2 s3 (e & Hl & He) _ IH]; [done|]. apply IH.
  destruct (ipc_step_ok e s1 Hok Hl) as (s' & E & H'). congruence.
Qed.

End Steps.

(** ** The effect of semop() *)

(** The sum of the operations on a semaphore of the set. *)
Definition sem_delta (sops : list SysVIpcSembuf) (i : nat) : Z :=
  fold_right (fun sop n => if (Z.to_nat (sem_num sop) =? i)%nat then sem_op sop + n else n) 0 sops.

Lemma sem_loop_delta sops : forall vs vs' i,
  sem_loop sops vs = Ok (Returns 0 vs') -> vs' !! i = (fun v => v + sem_delta sops i) <$> vs !! i.
Proof.
  induction sops as [|sop sops IH]; intros vs vs' i H; cbn [sem_loop sem_delta fold_right] in *.
  { injection H as <-. destruct (vs !! i); cbn; [by rewrite Z.add_0_r|done]. }
  fold (sem_delta sops i). set (n := Z.to_nat (sem_num sop)) in *. destruct (vs !! n) as [v|] eqn:Ev; [|done].
  assert (Hb : (if negb (Z.land (sem_flg sop) IPC_NOWAIT =? 0) then Ok (Returns (- EAGAIN) []) else Ok StillWaits)
               <> Ok (Returns 0 vs')) by (by case_bool).
  case_bool_in H.
  - bool_facts. case_bool_in H; [done|]. rewrite (IH _ _ _ H). destruct (n =? i)%nat; [|done]. by rewrite Hb0.
  - case_bool_in H; [done|]. case_bool_in H; [done|]. rewrite (IH _ _ _ H). destruct (Nat.eqb_spec n i) as [->|Hne].
    + rewrite list_lookup_insert_eq by (by eapply lookup_lt_Some). rewrite Ev. cbn. f_equal. lia.
    + by rewrite list_lookup_insert_ne by done.
Qed.

(** ** The statistics of the queues *)

Section Accounting.

Context {Mem : Type} {TM : TraceeMemory Mem} {ML : TraceeMemoryLaws Mem TM}.

(** The bytes of the messages of a queue. *)
Definition queue_bytes (l : list SysVIpcMsgQueueItem) : Z := fold_right (fun x n => zlen (mtext x) + n) 0 l.

Definition queue_ok (q : SysVIpcMsgQueue) : Prop :=
  q_valid q = true -> msg_qnum (q_stats q) = zlen (items q) /\ msg_cbytes (q_stats q) = queue_bytes (items q).

Definition queues_ok (s : Ipc Mem) : Prop := Forall queue_ok (queues s).

Lemma queue_bytes_app l k : queue_bytes (l ++ k) = queue_bytes l + queue_bytes k.
Proof. induction l as [|x l IH]; cbn; [done|]. fold (queue_bytes (l ++ k)) (queue_bytes l). lia. Qed.

Lemma queue_bytes_delete l i x : l !! i = Some x -> queue_bytes (delete i l) = queue_bytes l - zlen (mtext x).
Proof.
  intros H. rewrite delete_take_drop. rewrite <- (take_drop_middle l i x H) at 3.
  rewrite !queue_bytes_app. cbn. fold (queue_bytes (drop (S i) l)). lia.
Qed.

Lemma zlen_delete {A} (l : list A) i x : l !! i = Some x -> zlen (delete i l) = zlen l - 1.
Proof. intros H. pose proof (length_delete l i (mk_is_Some _ _ H)). pose proof (lookup_lt_Some _ _ _ H). unfold zlen. lia. Qed.

Lemma set_queue_ok i q (s : Ipc Mem) : queues_ok s -> queue_ok q -> queues_ok (set_queue i q s).
Proof. intros Hs Hq. unfold queues_ok, set_queue. cbn. by apply Forall_insert. Qed.

(** The operations that leave the queues as they are. *)
Lemma wake_queues i status (s s' : Ipc Mem) : sysvipc_wake_tracee i status s = Ok s' -> queues s' = queues s.
Proof.
  unfold sysvipc_wake_tracee. intros H. apply res_bind_ok in H as (c & _ & H). case_bool_in H; [done|].
  destruct (wait_state c); try done; by injection H as <-.
Qed.

Lemma sem_check_at_queues index i (s s' : Ipc Mem) r : sem_check_at index i s = Ok (r, s') -> queues s' = queues s.
Proof.
  unfold sem_check_at. intros H. apply res_bind_ok in H as (c & _ & H). destruct (semaphores s !! index); [|done].
  apply res_bind_ok in H as ([r1 x] & _ & H). by injection H as <- <-.
Qed.

Lemma sem_wake_loop_queues me index l : forall (s s' : Ipc Mem),
  sem_wake_loop me index l s = Ok s' -> queues s' = queues s.
Proof.
  induction l as [|i l IH]; intros s s' H; cbn [sem_wake_loop] in H; [by injection H as <-|].
  apply res_bind_ok in H as (c & _ & H). case_bool_in H; [|by apply IH].
  apply res_bind_ok in H as ([[status|] s1] & H1 & H); apply sem_check_at_queues in H1; [|by rewrite (IH _ _ H)].
  apply res_bind_ok in H as (s2 & H2 & H). apply wake_queues in H2. by rewrite (IH _ _ H), H2, <- H1.
Qed.

Lemma wake_all_queues reason index l : forall (s s' : Ipc Mem),
  wake_all reason index l s = Ok s' -> queues s' = queues s.
Proof.
  induction l as [|i l IH]; intros s s' H; cbn [wake_all] in H; [by injection H as <-|].
  apply res_bind_ok in H as (c & _ & H). case_bool_in H; [|by apply IH].
  apply res_bind_ok in H as (s1 & H1 & H). apply wake_queues in H1. by rewrite (IH _ _ H), H1.
Qed.

Lemma msg_wake_loop_queues index item l : forall (s s' : Ipc Mem),
  msg_wake_loop index item l s = Ok s' -> queues s' = queues s.
Proof.
  induction l as [|i l IH]; intros s s' H; cbn [msg_wake_loop] in H; [by injection H as <-|].
  apply res_bind_ok in H as (c & _ & H). case_bool_in H; [|by apply IH]. by apply wake_queues in H.
Qed.

Lemma write_status_queues me a bytes (s s' : Ipc Mem) r : write_status me a bytes s = Ok (r, s') -> queues s' = queues s.
Proof. unfold write_status. destruct (write_data _ _ _ _) as [m [e|]]; by intros [= _ <-]. Qed.

Lemma semget_queues me arg (s s' : Ipc Mem) r : sysvipc_semget me arg s = Ok (r, s') -> queues s' = queues s.
Proof.
  unfold sysvipc_semget. case_bool; [done|]. destruct (search _ _ _ _ _ _) as [[i|] u]; case_bool; try done.
  - destruct (semaphores s !! i); [|done]. case_bool; [done|]. by intros [= _ <-].
  - destruct u as [i|].
    + destruct (semaphores s !! i); [|done]. by intros [= _ <-].
    + case_bool; [done|]. by intros [= _ <-].
Qed.

Lemma semop_queues me arg (s s' : Ipc Mem) r : sysvipc_semop me arg s = Ok (r, s') -> queues s' = queues s.
Proof.
  unfold sysvipc_semop. intros H. apply res_bind_ok in H as ([i x] & _ & H). do 2 (case_bool_in H; [done|]).
  destruct (read_data _ _ _ _) as [bytes|e]; [|done]. case_bool_in H; [done|].
  apply res_bind_ok in H as ([st s1] & H1 & H). apply sem_check_at_queues in H1.
  apply res_bind_ok in H as (s2 & H2 & H). apply sem_wake_loop_queues in H2. rewrite H1 in H2.
  destruct st as [status|].
  - injection H as <- <-. exact H2.
  - apply res_bind_ok in H as (c & _ & H). case_bool_in H; [done|]. injection H as <- <-. exact H2.
Qed.

Lemma semctl_queues me arg (s s' : Ipc Mem) r : sysvipc_semctl me arg s = Ok (r, s') -> queues s' = queues s.
Proof.
  unfold sysvipc_semctl. intros H. apply res_bind_ok in H as ([i x] & _ & H).
  case_bool_in H. { case_bool_in H; [done|]. destruct (sems x !! _); [|done]. by injection H as <- <-. }
  case_bool_in H. { do 2 (case_bool_in H; [done|]). destruct (sems x !! _); [|done]. by injection H as <- <-. }
  case_bool_in H; [by apply write_status_queues in H|].
  case_bool_in H.
  { apply res_bind_ok in H as (s1 & H1 & H). apply wake_all_queues in H1. by injection H as <- <-. }
  case_bool_in H; [|done]. by apply write_status_queues in H.
Qed.

(** The operations on queues keep the statistics right. *)
Lemma msgget_queues me arg (s s' : Ipc Mem) r : sysvipc_msgget me arg s = Ok (r, s') -> queues_ok s -> queues_ok s'.
Proof.
  intros H Hs. unfold sysvipc_msgget in H. destruct (search _ _ _ _ _ _) as [[i|] u]; case_bool_in H; try done.
  - destruct (queues s !! i); [|done]. by injection H as <- <-.
  - destruct u as [i|].
    + destruct (queues s !! i); [|done]. injection H as <- <-. by apply (set_queue_ok i).
    + injection H as <- <-. apply Forall_app. split; [done|]. by apply Forall_singleton.
Qed.

Lemma lookup_queue_ok arg (s : Ipc Mem) i q :
  lookup_queue s arg = Ok (i, q) -> queues_ok s -> queues s !! i = Some q /\ q_valid q = true /\ queue_ok q.
Proof.
  unfold lookup_queue, LOOKUP_IPC_OBJECT, queues_ok. intros H Hs. case_bool_in H; [done|].
  destruct (queues s !! _) as [q'|] eqn:Eq; [|done]. case_bool_in H; [done|]. bool_facts. injection H as <- <-.
  split_and!; try done. by eapply Forall_lookup_1.
Qed.

Lemma msgsnd_queues now me arg (s s' : Ipc Mem) r :
  (forall x, 0 <= arg x) -> sysvipc_msgsnd now me arg s = Ok (r, s') -> queues_ok s -> queues_ok s'.
Proof.
  intros Harg H Hs. unfold sysvipc_msgsnd in H. apply res_bind_ok in H as ([i q] & Hl & H).
  destruct (lookup_queue_ok _ _ _ _ Hl Hs) as (Hq & Hv & Hok). case_bool_in H; [done|].
  destruct (read_data (memory s) me (arg SYSARG_2) 8) as [b|e]; [|done]. case_bool_in H; [done|].
  destruct (read_data _ _ _ _) as [text|e] eqn:Et; [|done]. apply read_data_length in Et; [|done].
  apply res_bind_ok in H as (c & _ & H). apply res_bind_ok in H as (s1 & Hw & H). apply msg_wake_loop_queues in Hw.
  injection H as <- <-. apply set_queue_ok; [by unfold queues_ok; rewrite Hw|]. intros _. cbn.
  destruct (Hok Hv) as [-> ->]. rewrite queue_bytes_app, zlen_app. cbn. rewrite Et. split; [done|lia].
Qed.

Lemma deliver_stats me c d msg t (m m' : Mem) r d' :
  sysvipc_msg_deliver me c d msg t m = (r, d', m') -> msg_qnum d' = msg_qnum d /\ msg_cbytes d' = msg_cbytes d.
Proof.
  unfold sysvipc_msg_deliver. case_bool; [by intros [= _ <- _]|].
  destruct (write_data m _ _ _) as [m1 [e|]]; [by intros [= _ <- _]|].
  destruct (write_data m1 _ _ _) as [m2 [e|]]; by intros [= _ <- _].
Qed.

Lemma do_msgrcv_queues now me i q (s s' : Ipc Mem) r :
  queue_ok q -> q_valid q = true -> sysvipc_do_msgrcv now me i q s = Ok (r, s') -> queues_ok s -> queues_ok s'.
Proof.
  intros Hok Hv H Hs. unfold sysvipc_do_msgrcv in H. apply res_bind_ok in H as (c & _ & H).
  do 3 (case_bool_in H; [by injection H as <- <-|]).
  destruct (found_item _ _ _) as [k|]; [|case_bool_in H; by injection H as <- <-].
  destruct (items q !! k) as [x|] eqn:Ex; [|done].
  destruct (sysvipc_msg_deliver _ _ _ _ _ _) as [[status d] m] eqn:Ed. apply deliver_stats in Ed as [E1 E2].
  destruct (Hok Hv) as [H1 H2]. case_bool_in H; injection H as <- <-; (apply set_queue_ok; [done|]); intros _; cbn -[queue_bytes delete].
  - rewrite E1, E2, H1, H2, (queue_bytes_delete _ _ _ Ex), (zlen_delete _ _ _ Ex). done.
  - by rewrite E1, E2, H1, H2.
Qed.

Lemma msgctl_queues stats me arg (s s' : Ipc Mem) r :
  sysvipc_msgctl stats me arg s = Ok (r, s') -> queues_ok s -> queues_ok s'.
Proof.
  intros H Hs. unfold sysvipc_msgctl in H. apply res_bind_ok in H as ([i q] & _ & H). case_bool_in H.
  - apply res_bind_ok in H as (s1 & H1 & H). apply wake_all_queues in H1. injection H as <- <-.
    apply set_queue_ok; [by unfold queues_ok; rewrite H1|done].
  - case_bool_in H; [|done]. apply write_status_queues in H. unfold queues_ok. by rewrite H.
Qed.

Lemma handler_queues now stats n h me arg (s s' : Ipc Mem) r :
  (forall x, 0 <= arg x) -> handler_of now stats n = Some h -> h me arg s = Ok (r, s') -> queues_ok s -> queues_ok s'.
Proof.
  intros Harg Hh H Hs. unfold handler_of in Hh.
  assert (Hsame : queues s' = queues s -> queues_ok s') by (unfold queues_ok; by intros ->).
  case_bool_in Hh; [injection Hh as <-; by eapply msgget_queues|].
  case_bool_in Hh; [injection Hh as <-; by eapply msgsnd_queues|].
  case_bool_in Hh.
  { injection Hh as <-. unfold sysvipc_msgrcv in H. apply res_bind_ok in H as ([i q] & Hl & H).
    destruct (lookup_queue_ok _ _ _ _ Hl Hs) as (_ & Hv & Hok). by eapply do_msgrcv_queues. }
  case_bool_in Hh; [injection Hh as <-; by eapply msgctl_queues|].
  case_bool_in Hh; [injection Hh as <-; by apply Hsame; eapply semget_queues|].
  case_bool_in Hh; [injection Hh as <-; by apply Hsame; eapply semop_queues|].
  case_bool_in Hh; [injection Hh as <-; by apply Hsame; eapply semctl_queues|done].
Qed.

Lemma common_queues now stats me b regs (s s' : Ipc Mem) a r :
  regs_ok regs -> sysvipc_syscall_common now stats me b regs s = Ok (a, r, s') -> queues_ok s -> queues_ok s'.
Proof.
  intros Hregs H Hs. unfold sysvipc_syscall_common in H. apply res_bind_ok in H as (c & _ & H). case_bool_in H; [done|].
  apply res_bind_ok in H as (n & _ & H). destruct (handler_of now stats n) as [h|] eqn:Eh; [|by injection H as _ _ <-].
  apply res_bind_ok in H as ([status s1] & Hr & H).
  assert (Hs1 : queues_ok s1).
  { unfold run_handler in Hr. destruct (h _ _ _) as [[st1 s2]|e|w] eqn:E; [|by injection Hr as _ <-|done].
    injection Hr as _ <-. eapply handler_queues; try done. intros x. by apply peek_reg_range. }
  apply res_bind_ok in H as (c1 & _ & H). case_bool_in H; [done|]. case_bool_in H.
  - apply res_bind_ok in H as (r1 & _ & H). case_bool_in H; by injection H as _ _ <-.
  - case_bool_in H; [by injection H as _ _ <-|]. apply res_bind_ok in H as (r1 & _ & H). by injection H as _ _ <-.
Qed.

Lemma final_status_queues now me c (s s' : Ipc Mem) r : final_status now me c s = Ok (r, s') -> queues_ok s -> queues_ok s'.
Proof.
  intros H Hs. unfold final_status in H. case_bool_in H; [|by injection H as _ <-].
  unfold sysvipc_msgrcv_retry in H. apply res_bind_ok in H as (c0 & _ & H). case_bool_in H; [done|].
  apply res_bind_ok in H as ([st s1] & H1 & H). injection H as _ <-. enough (queues_ok s1) by done.
  case_bool_in H1; [|by injection H1 as _ <-]. destruct (queues s !! _) as [q|] eqn:Eq; [|done].
  case_bool_in H1; [done|]. bool_facts. apply res_bind_ok in H1 as ([st2 s2] & H2 & H1).
  assert (queues_ok s2) by (eapply do_msgrcv_queues; try done; by eapply Forall_lookup_1).
  apply res_bind_ok in H1 as (c2 & _ & H1). case_bool_in H1; by injection H1 as _ <-.
Qed.

Lemma ipc_step_queues stats e (s s' : Ipc Mem) :
  legal e s -> ipc_step stats e s = Ok s' -> queues_ok s -> queues_ok s'.
Proof.
  intros Hl H Hs. destruct e as [now me regs|now me regs|now me regs]; cbn [ipc_step legal] in *;
    apply res_bind_ok in H as ([[a r] s1] & H & E); injection E as <-.
  - destruct Hl as (_ & _ & _ & Hregs & _). unfold syscall_enter_start in H. apply res_bind_ok in H as (c & _ & H).
    destruct (wait_state c); try done; [by eapply common_queues| |].
    + apply res_bind_ok in H as ([st s2] & H2 & H). apply res_bind_ok in H as (r2 & _ & H). injection H as _ _ <-.
      exact (final_status_queues _ _ _ _ _ _ H2 Hs).
    + apply res_bind_ok in H as (n & _ & H). case_bool_in H; [done|]. by injection H as _ _ <-.
  - destruct Hl as (_ & _ & _ & Hregs & _). by eapply common_queues.
  - unfold syscall_exit_start in H. apply res_bind_ok in H as (c & _ & H). destruct (wait_state c); try done.
    + by injection H as _ _ <-.
    + case_bool_in H; [done|]. by injection H as _ _ <-.
    + case_bool_in H; [done|]. apply res_bind_ok in H as ([st s2] & H2 & H). injection H as _ _ <-.
      by eapply final_status_queues.
    + case_bool_in H; [done|]. apply res_bind_ok in H as ([st s2] & H2 & H). injection H as _ _ <-.
      by eapply final_status_queues.
Qed.

Lemma reachable_queues stats (s s' : Ipc Mem) : fresh_ipc s -> rtc (ipc_reaches stats) s s' -> queues_ok s'.
Proof.
  intros (Hq & _ & _) Hr. assert (Hok : queues_ok s) by (unfold queues_ok; by rewrite Hq). clear Hq.
  induction Hr as [|s1 s2 s3 (e & Hl & He) _ IH]; [done|]. apply IH. by eapply ipc_step_queues.
Qed.

End Accounting.

(** ** Identifiers *)

Lemma lor_shiftl a b n : 0 <= a < 2 ^ n -> 0 <= n -> Z.lor a (Z.shiftl b n) = a + b * 2 ^ n.
Proof.
  intros Ha Hn. rewrite <- Z.shiftl_mul_pow2, <- Z.add_lor_land by done.
  enough (Z.land a (Z.shiftl b n) = 0) as -> by lia.
  apply Z.bits_inj'. intros i Hi. rewrite Z.land_spec, Z.bits_0. destruct (Z_lt_le_dec i n) as [Hlt|Hge].
  - by rewrite (Z.shiftl_spec_low b n i Hlt), andb_false_r.
  - by rewrite <- (Z.mod_small a (2 ^ n) Ha), Z.mod_pow2_bits_high by lia.
Qed.

Lemma object_id_value i gen :
  (i < 4095)%nat -> 0 <= gen < 2 ^ 15 -> IPC_OBJECT_ID i gen = Z.of_nat i + 1 + gen * 2 ^ 12.
Proof.
  intros Hi Hg. unfold IPC_OBJECT_ID, wrap64, wrap, sgn. rewrite (Z.mod_small (Z.shiftl gen 12)).
  2: { rewrite Z.shiftl_mul_pow2 by lia. lia. }
  rewrite lor_shiftl by lia. rewrite Z.mod_small by lia. case_bool; bool_facts; lia.
Qed.

(** The object of an identifier, while its generation is not negative. *)
Lemma LOOKUP_object_id {A} (valid : A -> bool) generation (objects : list A) i o :
  objects !! i = Some o -> valid o = true -> (i < 4095)%nat -> 0 <= generation o < 2 ^ 15 ->
  LOOKUP_IPC_OBJECT valid generation objects (IPC_OBJECT_ID i (generation o)) = Ok (i, o).
Proof.
  intros Ho Hv Hi Hg. rewrite object_id_value by done. set (v := Z.of_nat i + 1 + generation o * 2 ^ 12).
  assert (Hs : sgn 32 v = v). { unfold sgn. rewrite Z.mod_small by lia. case_bool; bool_facts; lia. }
  assert (Hl : Z.land v 0xFFF = Z.of_nat i + 1).
  { change 0xFFF with (Z.ones 12). rewrite Z.land_ones by lia. unfold v. rewrite Z.mod_add by lia. apply Z.mod_small. lia. }
  assert (Hh : Z.land (Z.shiftr v 12) 0xFFFF = generation o).
  { change 0xFFFF with (Z.ones 16). rewrite Z.land_ones, Z.shiftr_div_pow2 by lia. unfold v.
    rewrite Z.div_add by lia. rewrite Z.div_small by lia. apply Z.mod_small. lia. }
  unfold LOOKUP_IPC_OBJECT. cbv zeta. rewrite Hs, Hl, Hh. pose proof (lookup_lt_Some _ _ _ Ho).
  replace ((Z.of_nat i + 1 <=? 0) || (zlen objects <? Z.of_nat i + 1)) with false
    by (symmetry; apply orb_false_iff; rewrite Z.leb_gt, Z.ltb_ge; unfold zlen; lia).
  replace (Z.to_nat (Z.of_nat i + 1 - 1)) with i by lia. by rewrite Ho, Hv, Z.eqb_refl.
Qed.

Lemma search_key {A} (valid : A -> bool) key id : forall (objects : list A) start unused i u,
  search valid key id objects start unused = (Some i, u) ->
  exists o, (start <= i)%nat /\ objects !! (i - start)%nat = Some o /\ valid o = true /\ key o = sgn 32 id.
Proof.
  induction objects as [|o objects IH]; intros start unused i u H; cbn [search] in H; [done|].
  assert (Hnext : forall unused, search valid key id objects (S start) unused = (Some i, u) ->
    exists o', (start <= i)%nat /\ (o :: objects) !! (i - start)%nat = Some o' /\ valid o' = true /\ key o' = sgn 32 id).
  { intros unused' H'. destruct (IH _ _ _ _ H') as (o' & Hle & Ho & Hv). exists o'. split; [lia|].
    by replace (i - start)%nat with (S (i - S start)) by lia. }
  destruct (valid o) eqn:Ev; [|by eapply Hnext]. case_bool_in H; [|by eapply Hnext].
  bool_facts. injection H as <- _. exists o. by rewrite Nat.sub_diag.
Qed.

(** ** The message of msgrcv() *)

(** The message a receiver accepts. *)
Definition accepts (c : SysVIpcConfig) (x : SysVIpcMsgQueueItem) : bool :=
  sysvipc_msg_match (mtype x) (msgrcv_msgtyp c) (msgrcv_msgflg c).

Lemma find_item_first p : forall l k,
  match find_item p l k with
  | Some i => exists pre x post, l = pre ++ x :: post /\ i = (k + length pre)%nat /\ p x = true
                /\ Forall (fun y => p y = false) pre
  | None => Forall (fun y => p y = false) l
  end.
Proof.
  induction l as [|x l IH]; intros k; cbn [find_item]; [done|]. destruct (p x) eqn:Ep.
  - exists [], x, l. by rewrite Nat.add_0_r.
  - specialize (IH (S k)). destruct (find_item p l (S k)) as [i|]; [|by constructor].
    destruct IH as (pre & y & post & -> & -> & Hy & Hpre). exists (x :: pre), y, post.
    split_and!; try done; [by rewrite length_cons, Nat.add_succ_r|by constructor].
Qed.

(** What sysvipc_msg_deliver() leaves in the memory of the recipient. *)
Definition delivered {Mem} {TM : TraceeMemory Mem} (me : nat) (c : SysVIpcConfig) (x : SysVIpcMsgQueueItem) (m : Mem) : Mem :=
  let m := fst (write_data m me (msgrcv_msgp c) (le64 (mtype x))) in
  fst (write_data m me (wrap64 (msgrcv_msgp c + 8)) (take (Z.to_nat (Z.min (msgrcv_msgsz c) (zlen (mtext x)))) (mtext x))).

Lemma deliver_status {Mem} {TM : TraceeMemory Mem} {ML : TraceeMemoryLaws Mem TM} me c d x t (m m' : Mem) r d' :
  0 <= msgrcv_msgsz c -> sysvipc_msg_deliver me c d x t m = (r, d', m') ->
  r < 0 \/ (r = Z.min (msgrcv_msgsz c) (zlen (mtext x)) /\ m' = delivered me c x m).
Proof.
  intros Hsz. unfold sysvipc_msg_deliver. case_bool; [intros [= <- _ _]; left; done|].
  set (sz := if _ <? _ then _ else _). assert (Hz : sz = Z.min (msgrcv_msgsz c) (zlen (mtext x)))
    by (unfold sz; case_bool; bool_facts; lia). clearbody sz. subst sz. unfold delivered.
  destruct (write_data m _ _ _) as [m1 [e|]] eqn:E1.
  { intros [= <- _ _]. apply write_data_errno in E1. left. lia. }
  cbn [fst]. destruct (write_data m1 _ _ _) as [m2 [e|]] eqn:E2.
  { intros [= <- _ _]. apply write_data_errno in E2. left. lia. }
  intros [= <- _ <-]. by right.
Qed.

(** ** Concrete tracees *)

Definition demo_config (pid : Z) : SysVIpcConfig :=
  mkConfig pid WR_NOT_WAITING WSTATE_NOT_WAITING CSTATE_NOT_CHAINED 0 0 0 0 0 0 [].

(** Three tracees, with a memory. *)
Definition demo_ipc (m : DemoMemory) : Ipc DemoMemory :=
  mkIpc [] [] [demo_config 100; demo_config 101; demo_config 102] m [].

Lemma demo_fresh m : fresh_ipc (demo_ipc m).
Proof. split_and!; try done. intros i c Hc. by repeat (destruct i as [|i]; [by injection Hc as <-|]). Qed.

(** The registers of a system call. *)
Definition demo_args (a1 a2 a3 a4 a5 : Z) : Regs :=
  poke_reg (poke_reg (poke_reg (poke_reg (poke_reg (demo_regs false) SYSARG_1 a1) SYSARG_2 a2) SYSARG_3 a3)
    SYSARG_4 a4) SYSARG_5 a5.
Definition demo_call (n : Sysnum) (a1 a2 a3 a4 a5 : Z) : Regs :=
  match set_sysnum (demo_args a1 a2 a3 a4 a5) n with Ok regs => regs | _ => demo_regs false end.

Lemma demo_call_ok n a1 a2 a3 a4 a5 : regs_ok (demo_call n a1 a2 a3 a4 a5).
Proof.
  unfold demo_call, demo_args, set_sysnum. destruct (detranslate_sysnum _ _); cbn [res_bind]; try apply demo_regs_ok.
  repeat apply poke_reg_ok. apply demo_regs_ok.
Qed.

Definition no_stats (d : MsqidDs) : list Z := [].

#[export] Instance can_enter_dec c n : Decision (can_enter c n).
Proof. unfold can_enter. destruct (wait_state c); apply _. Defined.
#[export] Instance can_exit_dec c : Decision (can_exit c).
Proof. unfold can_exit. apply _. Defined.
#[export] Instance queue_kept_dec {Mem} (s : Ipc Mem) c : Decision (queue_kept s c).
Proof. unfold queue_kept. apply _. Defined.

(** A system call of a tracee, and whether it waits. *)
Record DemoCall := mkDemoCall { d_me : nat; d_regs : Regs; d_waits : bool }.
Definition demo_events (d : DemoCall) : list IpcEvent :=
  EnterEvent 0 (d_me d) (d_regs d) :: (if d_waits d then [] else [ExitEvent 0 (d_me d) (d_regs d)]).

Definition demo_legal (e : IpcEvent) (s : Ipc DemoMemory) : bool :=
  match e with
  | EnterEvent _ me regs =>
      match configs s !! me, get_sysnum regs CURRENT with
      | Some c, Ok n => bool_decide (can_enter c n /\ queue_kept s c)
      | _, _ => false
      end
  | SigsysEvent _ _ _ => false
  | ExitEvent _ me _ => match configs s !! me with Some c => bool_decide (can_exit c /\ queue_kept s c) | _ => false end
  end.

Fixpoint demo_run (events : list IpcEvent) (s : Ipc DemoMemory) : option (Ipc DemoMemory) :=
  match events with
  | [] => Some s
  | e :: events =>
      if demo_legal e s then match ipc_step no_stats e s with Ok s => demo_run events s | _ => None end else None
  end.

Definition event_regs (e : IpcEvent) : Regs :=
  match e with EnterEvent _ _ regs | SigsysEvent _ _ regs | ExitEvent _ _ regs => regs end.

Lemma demo_run_reaches events : forall s s',
  Forall (fun e => regs_ok (event_regs e)) events -> demo_run events s = Some s' -> rtc (ipc_reaches no_stats) s s'.
Proof.
  induction events as [|e events IH]; intros s s' Hregs H; cbn [demo_run] in H; [by injection H as <-|].
  apply Forall_cons in Hregs as [He Hregs]. destruct (demo_legal e s) eqn:El; [|done].
  destruct (ipc_step no_stats e s) as [s1|?|?] eqn:Es; [|done|done]. eapply rtc_l; [|by apply IH].
  exists e. split; [|done]. destruct e as [now me regs|now me regs|now me regs]; cbn [demo_legal legal] in *; [|done|].
  - destruct (configs s !! me) as [c|] eqn:Ec; [|done]. destruct (get_sysnum regs CURRENT) as [n|?|?] eqn:En; [|done|done].
    apply bool_decide_eq_true in El as [Hcan Hq]. by exists c, n.
  - destruct (configs s !! me) as [c|] eqn:Ec; [|done]. apply bool_decide_eq_true in El as [Hcan Hq]. by exists c.
Qed.

Lemma demo_calls_reach calls s s' :
  Forall (fun d => regs_ok (d_regs d)) calls -> demo_run (flat_map demo_events calls) s = Some s' ->
  rtc (ipc_reaches no_stats) s s'.
Proof.
  intros Hc. apply demo_run_reaches. apply Forall_flat_map. eapply Forall_impl; [exact Hc|]. intros d Hd.
  unfold demo_events. constructor; [done|]. case_bool; [done|]. by constructor.
Qed.

(** A receiver that waits and is sent a message; tracees that wait for semaphores. *)
Definition demo_message : DemoMemory := [(1%nat, 64, le64 3); (1%nat, 72, [104; 105])].
Definition demo_woken : list DemoCall :=
  [mkDemoCall 0 (demo_call PR_msgget 7 IPC_CREAT 0 0 0) false;
   mkDemoCall 0 (demo_call PR_msgrcv 1 512 16 0 0) true;
   mkDemoCall 1 (demo_call PR_msgsnd 1 64 2 0 0) false].

Definition demo_sop (num op : Z) : list Z := [num; 0; op mod 256; (op mod 65536) / 256; 0; 0].
Definition demo_sops : DemoMemory :=
  [(0%nat, 64, demo_sop 1 (-1)); (1%nat, 64, demo_sop 0 (-1) ++ demo_sop 1 1); (2%nat, 64, demo_sop 0 1)].
Definition demo_blocked : list DemoCall :=
  [mkDemoCall 2 (demo_call PR_semget 7 2 IPC_CREAT 0 0) false;
   mkDemoCall 0 (demo_call PR_semop 1 64 1 0 0) true;
   mkDemoCall 1 (demo_call PR_semop 1 64 2 0 0) true].

Ltac demo_calls := repeat (constructor; [apply demo_call_ok|]); constructor.

(** ** Properties *)

(** C34: whatever the tracees do, in any order, no assertion of the wait mechanism
    fails and no access is out of bounds, but for a receiver whose queue was
    removed after it was woken; semaphores always hold as many values as they
    say, within their limits. *)
Theorem sysvipc_safe {Mem} (TM : TraceeMemory Mem) (stats_bytes : MsqidDs -> list Z) (s0 s : Ipc Mem) :
  fresh_ipc s0 -> rtc (ipc_reaches stats_bytes) s0 s ->
  (forall e, legal e s -> exists s', ipc_step stats_bytes e s = Ok s')
  /\ forall x, x ∈ semaphores s -> s_valid x = true ->
       zlen (sems x) = nsems x /\ Forall (fun v => 0 <= v <= SYSVIPC_MAX_SEMVAL) (sems x).
Proof.
  intros H0 Hr. pose proof (reachable_ok stats_bytes s0 s H0 Hr) as Hok. split.
  - intros e He. destruct (ipc_step_ok stats_bytes e s Hok He) as (s' & E & _). by exists s'.
  - intros x Hx Hv. destruct Hok as [Hs _]. rewrite Forall_forall in Hs. by destruct (Hs x Hx Hv) as (? & _ & ?).
Qed.

Lemma sysvipc_safe_witness :
  exists s, ipc_step no_stats (ExitEvent 0 2 (demo_regs false)) s = Ok s
    /\ semaphores s = [mkSemaphore 7 0 true [0; 0] 2].
Proof.
  destruct (demo_run (flat_map demo_events demo_blocked) (demo_ipc demo_sops)) as [s|] eqn:E;
    [|exfalso; revert E; vm_compute; discriminate].
  assert (Hr : rtc (ipc_reaches no_stats) (demo_ipc demo_sops) s)
    by (eapply demo_calls_reach; [|exact E]; demo_calls).
  destruct (sysvipc_safe _ no_stats _ s (demo_fresh _) Hr) as [Hstep _].
  vm_compute in E. injection E as <-.
  destruct (Hstep (ExitEvent 0 2 (demo_regs false))) as (s' & Hs').
  - eexists. split; [reflexivity|]. split; [by split|done].
  - pose proof Hs' as E. vm_compute in E. injection E as <-. eexists. split; [exact Hs'|reflexivity].
Defined.

(** whatever the tracees do, in any order, the number of messages and of
    bytes that IPC_STAT reports for a queue are those of its messages. *)
Theorem msg_accounting {Mem} (TM : TraceeMemory Mem) (ML : TraceeMemoryLaws Mem TM)
    (stats_bytes : MsqidDs -> list Z) (s0 s : Ipc Mem) q :
  fresh_ipc s0 -> rtc (ipc_reaches stats_bytes) s0 s -> q ∈ queues s -> q_valid q = true ->
  msg_qnum (q_stats q) = zlen (items q) /\ msg_cbytes (q_stats q) = queue_bytes (items q).
Proof.
  intros H0 Hr Hq Hv. pose proof (reachable_queues stats_bytes s0 s H0 Hr) as Hok.
  unfold queues_ok in Hok. rewrite Forall_forall in Hok. exact (Hok q Hq Hv).
Qed.

Lemma msg_accounting_witness :
  exists s q, demo_run (flat_map demo_events demo_woken) (demo_ipc demo_message) = Some s
    /\ queues s = [q] /\ msg_qnum (q_stats q) = 1 /\ msg_cbytes (q_stats q) = 2.
Proof.
  destruct (demo_run (flat_map demo_events demo_woken) (demo_ipc demo_message)) as [s|] eqn:E;
    [|exfalso; revert E; vm_compute; discriminate].
  assert (Hr : rtc (ipc_reaches no_stats) (demo_ipc demo_message) s)
    by (eapply demo_calls_reach; [|exact E]; demo_calls).
  pose proof (fun q => msg_accounting _ _ no_stats _ s q (demo_fresh _) Hr) as Hq.
  vm_compute in E. injection E as <-. eexists _, _. split; [done|]. split; [reflexivity|].
  edestruct Hq as [H1 H2]; [apply list_elem_of_here|reflexivity|]. split; [exact H1|exact H2].
Defined.

(** semop() is atomic: either it succeeds and every semaphore of the set is
    increased by the sum of the operations on it, or nothing changes. *)
Theorem sem_check_atomic c x r x' :
  sysvipc_sem_check c x = Ok (r, x') ->
  (r = Some 0 /\ s_valid x' = s_valid x /\ nsems x' = nsems x
   /\ forall i, sems x' !! i = (fun v => v + sem_delta (semop_sops c) i) <$> sems x !! i)
  \/ (r <> Some 0 /\ x' = x).
Proof.
  unfold sysvipc_sem_check. case_bool; [done|]. destruct (sem_loop _ _) as [[|status vs]|e|w] eqn:El; cbn [res_bind];
    [|intros H|done|done]. { intros [= <- <-]. by right. }
  case_bool_in H; bool_facts; injection H as <- <-.
  - left. subst. split_and!; try done. intros i. cbn [sems]. by apply sem_loop_delta.
  - right. split; [|done]. congruence.
Qed.

Definition demo_waiter : SysVIpcConfig :=
  set_sops [mkSembuf 0 (-1) 0; mkSembuf 1 2 0; mkSembuf 1 1 0] (set_wait WR_WAIT_SEMOP 0 (demo_config 100)).

Lemma sem_check_atomic_witness :
  exists x', sysvipc_sem_check demo_waiter (mkSemaphore 7 0 true [1; 4; 9] 3) = Ok (Some 0, x')
    /\ sems x' !! 1%nat = Some 7 /\ sems x' !! 2%nat = Some 9.
Proof.
  destruct (sysvipc_sem_check demo_waiter (mkSemaphore 7 0 true [1; 4; 9] 3)) as [[r x']| |] eqn:E;
    [|exfalso; revert E; vm_compute; discriminate|exfalso; revert E; vm_compute; discriminate].
  destruct (sem_check_atomic demo_waiter _ r x' E) as [(-> & _ & _ & H)|[Hr _]].
  - exists x'. by rewrite !H.
  - exfalso. apply Hr. revert E. vm_compute. congruence.
Defined.

(** The identifier semget() returns is positive and names, for every later
    call, a set with the key asked for and at least as many semaphores, as long
    as the generations have not wrapped around. *)
Theorem semget_finds {Mem} me arg (s s' : Ipc Mem) id :
  zlen (semaphores s) <= SYSVIPC_MAX_SEMS -> Forall (fun x => 0 <= s_generation x < 2 ^ 15) (semaphores s) ->
  sysvipc_semget me arg s = Ok (id, s') ->
  0 < id /\ exists i x, lookup_semaphore s' id = Ok (i, x)
    /\ s_key x = sgn 32 (arg SYSARG_1) /\ sgn 32 (arg SYSARG_2) <= nsems x.
Proof.
  intros Hlen Hgen H. unfold SYSVIPC_MAX_SEMS, zlen in Hlen.
  assert (Hfin : forall (s1 : Ipc Mem) i x, semaphores s1 !! i = Some x -> s_valid x = true -> (i <= 512)%nat ->
    0 <= s_generation x < 2 ^ 15 -> s_key x = sgn 32 (arg SYSARG_1) -> sgn 32 (arg SYSARG_2) <= nsems x ->
    0 < IPC_OBJECT_ID i (s_generation x) /\ exists j y,
      lookup_semaphore s1 (IPC_OBJECT_ID i (s_generation x)) = Ok (j, y)
      /\ s_key y = sgn 32 (arg SYSARG_1) /\ sgn 32 (arg SYSARG_2) <= nsems y).
  { intros s1 i x Hx Hv Hi Hg Hk Hn. split; [rewrite object_id_value by lia; lia|]. exists i, x.
    split; [|done]. apply (LOOKUP_object_id s_valid s_generation); try done. lia. }
  unfold sysvipc_semget in H. case_bool_in H; [done|]. bool_facts.
  destruct (search _ _ _ _ _ _) as [[i|] u] eqn:Es; case_bool_in H; try done.
  - destruct (semaphores s !! i) as [x|] eqn:Ex; [|done]. case_bool_in H; [done|]. bool_facts. injection H as <- <-.
    destruct (search_key _ _ _ _ _ _ _ _ Es) as (x' & _ & Hx' & Hv & Hk). rewrite Nat.sub_0_r in Hx'.
    assert (x' = x) as -> by congruence. pose proof (lookup_lt_Some _ _ _ Ex).
    apply Hfin; try done; [lia|]. exact (Forall_lookup_1 _ _ _ _ Hgen Ex).
  - destruct u as [i|].
    + destruct (semaphores s !! i) as [x|] eqn:Ex; [|done]. injection H as <- <-. pose proof (lookup_lt_Some _ _ _ Ex).
      eapply (Hfin _ i (mkSemaphore (sgn 32 (arg SYSARG_1)) (s_generation x) true
        (replicate (Z.to_nat (sgn 32 (arg SYSARG_2))) 0) (sgn 32 (arg SYSARG_2)))); try done; [by apply (list_lookup_insert_eq (semaphores s))|lia|].
      exact (Forall_lookup_1 _ _ _ _ Hgen Ex).
    + case_bool_in H; [done|]. injection H as <- <-.
      apply (Hfin _ _ (mkSemaphore (sgn 32 (arg SYSARG_1)) 0 true
        (replicate (Z.to_nat (sgn 32 (arg SYSARG_2))) 0) (sgn 32 (arg SYSARG_2)))); try done; [by apply (list_lookup_middle (semaphores s) [])|lia].
Qed.

Definition demo_semaphores : Ipc DemoMemory :=
  set_semaphores [mkSemaphore 5 3 true [0] 1; mkSemaphore 6 9 false [] 4] (demo_ipc []).
Definition demo_semget : Reg -> Z := peek_reg (demo_call PR_semget 7 2 IPC_CREAT 0 0) CURRENT.

Lemma semget_finds_witness :
  exists id s' i x, sysvipc_semget 0%nat demo_semget demo_semaphores = Ok (id, s')
    /\ id = 2 + 9 * 4096 /\ lookup_semaphore s' id = Ok (i, x) /\ s_key x = 7.
Proof.
  assert (H1 : zlen (semaphores demo_semaphores) <= SYSVIPC_MAX_SEMS) by (by vm_compute).
  assert (H2 : Forall (fun x => 0 <= s_generation x < 2 ^ 15) (semaphores demo_semaphores))
    by (repeat constructor; by vm_compute).
  destruct (sysvipc_semget 0%nat demo_semget demo_semaphores) as [[id s']| |] eqn:E;
    [|exfalso; revert E; vm_compute; discriminate|exfalso; revert E; vm_compute; discriminate].
  destruct (semget_finds 0%nat demo_semget demo_semaphores s' id H1 H2 E) as (_ & i & x & Hl & Hk & _).
  exists id, s', i, x. split; [done|]. split; [revert E; vm_compute; congruence|]. split; [exact Hl|].
  rewrite Hk. by vm_compute.
Defined.

(** msgrcv() without MSG_COPY takes the first message of the queue that the
    receiver accepts, writes it, removes it alone and returns the number of
    bytes written; if there is none, the receiver waits on that queue; if it
    fails, no message is lost. *)
Theorem msgrcv_takes_first {Mem} {TM : TraceeMemory Mem} {ML : TraceeMemoryLaws Mem TM}
    now me i q (s s' : Ipc Mem) c status :
  configs s !! me = Some c -> queues s !! i = Some q -> Z.land (msgrcv_msgflg c) MSG_COPY = 0 ->
  0 <= msgrcv_msgsz c -> sysvipc_do_msgrcv now me i q s = Ok (status, s') ->
  (exists pre x post d, items q = pre ++ x :: post /\ accepts c x = true
     /\ Forall (fun y => accepts c y = false) pre /\ status = Z.min (msgrcv_msgsz c) (zlen (mtext x))
     /\ queues s' = <[i := set_items (pre ++ post) d q]> (queues s) /\ memory s' = delivered me c x (memory s)
     /\ configs s' = configs s)
  \/ (status = 0 /\ Forall (fun y => accepts c y = false) (items q)
      /\ s' = update_config me (set_wait WR_WAIT_QUEUE_RECV i) s)
  \/ (status < 0 /\ items <$> queues s' !! i = Some (items q) /\ configs s' = configs s).
Proof.
  intros Hc Hq Hcopy Hsz H. unfold sysvipc_do_msgrcv in H. rewrite (config_at_ok _ _ _ Hc) in H. cbn [res_bind] in H.
  assert (Hfail : forall st, st < 0 -> Ok (st, s) = Ok (status, s') ->
    status < 0 /\ items <$> queues s' !! i = Some (items q) /\ configs s' = configs s).
  { intros st Hst [= <- <-]. by rewrite Hq. }
  rewrite Hcopy in H. cbn [negb Z.eqb andb orb] in H.
  do 2 (case_bool_in H; [right; right; by eapply Hfail; [|exact H]|]).
  unfold found_item in H. cbn [negb] in H. fold (accepts c) in H.
  pose proof (find_item_first (accepts c) (items q) 0) as Hf.
  change (fun x => sysvipc_msg_match (mtype x) (msgrcv_msgtyp c) (msgrcv_msgflg c)) with (accepts c) in H.
  destruct (find_item _ _ _) as [k|].
  - destruct Hf as (pre & x & post & Ei & -> & Hx & Hpre). rewrite Ei, list_lookup_middle in H by done.
    destruct (sysvipc_msg_deliver _ _ _ _ _ _) as [[st d] m] eqn:Ed.
    destruct (deliver_status _ _ _ _ _ _ _ _ _ Hsz Ed) as [Hneg|[-> ->]].
    + right. right. case_bool_in H; bool_facts; [lia|]. injection H as <- <-. split; [done|]. cbn.
      rewrite list_lookup_insert_eq by (by eapply lookup_lt_Some). cbn. by rewrite Ei.
    + left. case_bool_in H; bool_facts; [|pose proof (zlen_nonneg (mtext x)); lia]. injection H as <- <-.
      exists pre, x, post. eexists. split_and!; try done. cbn. by rewrite delete_middle.
  - case_bool_in H; [right; right; by eapply Hfail; [|exact H]|]. injection H as <- <-. right. left. by split.
Qed.

Definition demo_queue : SysVIpcMsgQueue :=
  mkQueue 7 0 true [mkItem 1 [10]; mkItem 5 [20; 21]; mkItem 5 [30]] (mkDs 3 4 65536 0 0 0 0).
Definition demo_receiver : Ipc DemoMemory :=
  mkIpc [demo_queue] [] [set_msgrcv 512 16 5 0 (demo_config 100)] [] [].

Lemma msgrcv_takes_first_witness :
  exists s', sysvipc_do_msgrcv 9 0%nat 0%nat demo_queue demo_receiver = Ok (2, s')
    /\ fmap items (queues s') = [[mkItem 1 [10]; mkItem 5 [30]]].
Proof.
  destruct (sysvipc_do_msgrcv 9 0%nat 0%nat demo_queue demo_receiver) as [[st s']| |] eqn:E;
    [|exfalso; revert E; vm_compute; discriminate|exfalso; revert E; vm_compute; discriminate].
  exists s'.
  destruct (msgrcv_takes_first 9 0%nat 0%nat demo_queue demo_receiver s' _ st ltac:(reflexivity) ltac:(reflexivity)
    ltac:(reflexivity) ltac:(done) E) as [(pre & x & post & d & Hi & Hx & Hp & Hst & Hq & _)|[(_ & Ha & _)|(Hn & _)]].
  - clear -E. vm_compute in E. injection E as <- <-. by split.
  - exfalso. apply Forall_cons in Ha as [_ Ha]. apply Forall_cons in Ha as [Ha _]. done.
  - exfalso. revert E Hn. vm_compute. by intros [= <- _].
Defined.

(** a receiver that was woken for a message and whose queue is removed before
    it runs makes PRoot abort: the assertion that the queue is valid fails. *)
Theorem msgrcv_retry_aborts :
  exists (s : Ipc DemoMemory) c, rtc (ipc_reaches no_stats) (demo_ipc demo_message) s
    /\ configs s !! 0%nat = Some c /\ can_exit c
    /\ forall now regs, ipc_step no_stats (ExitEvent now 0 regs) s = Stuck AssertFailed.
Proof.
  eexists _, _. split.
  { apply (demo_calls_reach (demo_woken ++ [mkDemoCall 1 (demo_call PR_msgctl 1 IPC_RMID 0 0 0) false]));
      [demo_calls|vm_compute; reflexivity]. }
  split; [reflexivity|]. split; [by split|]. reflexivity.
Qed.

(** A tracee waits for semaphores that would let it go. *)
Definition stranded {Mem} (s : Ipc Mem) (i : nat) : Prop :=
  exists c x x', configs s !! i = Some c /\ wait_reason c = WR_WAIT_SEMOP
    /\ semaphores s !! waiting_object_index c = Some x /\ sysvipc_sem_check c x = Ok (Some 0, x').

(** A call after which a tracee is stranded. *)
Definition strands (d : DemoCall) : Prop :=
  exists s : Ipc DemoMemory, demo_run (flat_map demo_events (demo_blocked ++ [d])) (demo_ipc demo_sops) = Some s
    /\ rtc (ipc_reaches no_stats) (demo_ipc demo_sops) s /\ stranded s 0.

Lemma strands_intro d s :
  regs_ok (d_regs d) -> demo_run (flat_map demo_events (demo_blocked ++ [d])) (demo_ipc demo_sops) = Some s ->
  stranded s 0 -> strands d.
Proof.
  intros Hd Hr Hs. exists s. split; [done|]. split; [|done]. eapply demo_calls_reach; [|exact Hr].
  apply Forall_app. split; [demo_calls|by constructor].
Qed.

(** tracees keep waiting for a semaphore that is available: SETVAL wakes no
    one, and semop() looks once at each waiting tracee, in the order of the list,
    although the one it lets go may be what an earlier one waits for. *)
Theorem semop_lost_wakeups :
  strands (mkDemoCall 2 (demo_call PR_semctl 1 1 SYSVIPC_SETVAL 1 0) false)
  /\ strands (mkDemoCall 2 (demo_call PR_semop 1 64 1 0 0) false).
Proof.
  split; (eapply strands_intro; [apply demo_call_ok|vm_compute; reflexivity|]);
    eexists _, _, _; split_and!; reflexivity.
Qed.
