(* ===== verification/NetRules.v ===== *)
(** * Static network policy (src/extension/net_policy/net_policy.c)

    The rules given with --net-allow, --net-deny, --net-allow-bind and
    --net-deny-bind: their text, the pinning of domains to addresses before the
    tracee starts, and the decision on bind, listen, connect, sendto and
    recvfrom.  The classification of destinations comes from
    src/extension/virtual_net/virtual_net.c. *)

From S2P Require Import Prelude Memory Paths Binding ProcLinks Sysnum Regs.

(** ** Interfaces *)

(** Addresses as text, and the resolver of the host. *)
Class Inet := {
  inet_pton : Z -> cstr -> option (list Z);
  inet_ntop : Z -> list Z -> cstr;
  getaddrinfo : cstr -> option (list (Z * list Z))
}.

Definition AF_UNSPEC := 0.
Definition AF_UNIX := 1.
Definition AF_INET := 2.
Definition AF_INET6 := 10.

Definition COLON := 58.
Definition OPEN := 91.
Definition CLOSE := 93.

(** net_family_address_size() *)
Definition net_family_address_size (family : Z) : nat :=
  if family =? AF_INET then 4%nat else if family =? AF_INET6 then 16%nat else 0%nat.

(** The characters of the text of an address. *)
Definition address_char (c : Z) : bool :=
  is_digit c || ((97 <=? c) && (c <=? 102)) || (c =? COLON) || (c =? DOT).

(** What inet_pton(3) and inet_ntop(3) document. *)
Class InetLaws (I : Inet) : Prop := {
  inet_pton_length f s a : inet_pton f s = Some a -> length a = net_family_address_size f /\ Forall is_byte a;
  inet_pton_ntop f a : length a = net_family_address_size f -> a <> [] -> Forall is_byte a ->
    inet_pton f (inet_ntop f a) = Some a;
  inet_ntop_text f a : length a = net_family_address_size f -> a <> [] -> Forall is_byte a ->
    inet_ntop f a <> [] /\ zlen (inet_ntop f a) < 46 /\ Forall (fun c => address_char c = true) (inet_ntop f a);
  inet_pton_family f g s a b : inet_pton f s = Some a -> inet_pton g s = Some b -> f = g;
  inet_ntop_v4 a : length a = 4%nat -> Forall is_byte a ->
    Forall (fun c => c =? COLON = false) (inet_ntop AF_INET a)
}.

(** ** Functions of the C library *)

Fixpoint starts_with (p s : cstr) : bool :=
  match p, s with
  | [], _ => true
  | x :: p, y :: s => (x =? y) && starts_with p s
  | _ :: _, [] => false
  end.

(** strstr(): what precedes the first occurrence, and what follows it. *)
Fixpoint strstr (sub s : cstr) : option (cstr * cstr) :=
  if starts_with sub s then Some ([], drop (length sub) s)
  else
    match s with
    | [] => None
    | c :: s => match strstr sub s with None => None | Some (a, b) => Some (c :: a, b) end
    end.

(** strchr(): what precedes the first occurrence, and what follows it. *)
Definition strchr (c : Z) (s : cstr) : option (cstr * cstr) :=
  match span (fun x => negb (x =? c)) s with
  | (_, []) => None
  | (a, _ :: b) => Some (a, b)
  end.

(** strrchr(): what precedes the last occurrence, and what follows it. *)
Definition strrchr (c : Z) (s : cstr) : option (cstr * cstr) :=
  match strchr c (rev s) with None => None | Some (a, b) => Some (rev b, rev a) end.

(** The number at the beginning of a string in base ten: its sign and magnitude,
    and what follows, the whole string when there is no digit. *)
Definition scan_number (s : cstr) : bool * Z * cstr :=
  let t := snd (span is_space s) in
  let '(negative, t) := match t with
                        | 45 :: t => (true, t)
                        | 43 :: t => (false, t)
                        | _ => (false, t)
                        end in
  match span is_digit t with
  | ([], _) => (false, 0, s)
  | (ds, rest) => (negative, undigits 0 ds, rest)
  end.

Definition ULONG_MAX := 2 ^ 64 - 1.

(** strtoul(s, &end, 10) *)
Definition strtoul10 (s : cstr) : Z * cstr :=
  let '(negative, n, rest) := scan_number s in
  (if ULONG_MAX <? n then ULONG_MAX else if negative then wrap64 (- n) else n, rest).

(** strtol(s, &end, 10) *)
Definition strtol10_end (s : cstr) : Z * cstr :=
  let '(negative, n, rest) := scan_number s in
  (Z.max LONG_MIN (Z.min LONG_MAX (if negative then - n else n)), rest).

(** ** The policy *)

Definition NET_POLICY_MAX_RULES := 128.
Definition NET_POLICY_RULE_LEN := 256.
Definition NET_POLICY_MAX_BINDS := 256.
Definition NET_DNS_NAME_LEN := 256.

Inductive NetPolicyMode := NET_POLICY_OFF | NET_POLICY_DENY | NET_POLICY_ALLOW.
#[export] Instance NetPolicyMode_eq_dec : EqDecision NetPolicyMode.
Proof. solve_decision. Defined.

Record NetPolicyRule := mkRule { value : cstr; source : cstr; is_domain : bool; resolved : bool }.
Record NetPolicyBind := mkBind { b_pid : Z; b_fd : Z; b_port : Z }.

(** The fields of NetPolicyConfig for the rules; an array with its count is a
    list. *)
Record StaticPolicy := mkStatic {
  mode : NetPolicyMode;
  allow : list NetPolicyRule;
  deny : list NetPolicyRule;
  allow_bind : list NetPolicyRule;
  deny_bind : list NetPolicyRule;
  binds : list NetPolicyBind
}.

Definition set_binds (l : list NetPolicyBind) (p : StaticPolicy) : StaticPolicy :=
  mkStatic (mode p) (allow p) (deny p) (allow_bind p) (deny_bind p) l.

(** ** The text of rules *)

Definition SCHEME := bs "://".

(** add_rule() *)
Definition add_rule (rules : list NetPolicyRule) (v : cstr) : res (list NetPolicyRule) :=
  let bad_scheme :=
    match strstr SCHEME v with
    | None => false
    | Some (s, _) => negb (existsb (str_eqb s) (map bs ["tcp"; "udp"; "virtual"; "external"; "bridge"]%string))
    end in
  if bad_scheme then Err EINVAL
  else if str_eqb v [] || (NET_POLICY_RULE_LEN <=? zlen v) then Err EINVAL
  else if NET_POLICY_MAX_RULES <=? zlen rules then Err E2BIG
  else Ok (rules ++ [mkRule v [] false false]).

(** destination_host(): what precedes the host, the host, and what follows. *)
Definition destination_host (rule : cstr) : res (cstr * cstr * cstr) :=
  let '(prefix, start) := match strstr SCHEME rule with
                          | None => ([], rule)
                          | Some (a, b) => (a ++ SCHEME, b)
                          end in
  if chr start 0 =? OPEN then
    match strchr CLOSE (drop 1 start) with
    | None => Err EINVAL
    | Some (host, suffix) =>
        if negb (chr suffix 0 =? 0) && negb (chr suffix 0 =? COLON) then Err EINVAL
        else Ok (prefix, host, suffix)
    end
  else
    let '(host, suffix) := match strrchr COLON start with
                           | Some (a, b) => if bool_decide (strchr COLON a = None) then (a, COLON :: b) else (start, [])
                           | None => (start, [])
                           end in
    if str_eqb host [] then Err EINVAL else Ok (prefix, host, suffix).

Definition domain_char (c : Z) : bool :=
  (c =? 45) || (c =? 95) || ((97 <=? c) && (c <=? 122)) || ((65 <=? c) && (c <=? 90)) || is_digit c.

Definition label_ok (label : cstr) : bool :=
  negb ((zlen label =? 0) || (63 <? zlen label) || (chr label 0 =? 45) || (chr (rev label) 0 =? 45)).

(** The loop of valid_domain(); [label] is the current label, reversed. *)
Fixpoint valid_labels (host label : cstr) : bool :=
  match host with
  | [] => label_ok (rev label)
  | c :: host =>
      if c =? DOT then label_ok (rev label) && valid_labels host []
      else domain_char c && valid_labels host (c :: label)
  end.

Definition strip_final_dot (host : cstr) : cstr :=
  match rev host with c :: r => if c =? DOT then rev r else host | [] => host end.

(** valid_domain() *)
Definition valid_domain (host : cstr) : bool :=
  if (zlen host =? 0) || (253 <? zlen host) then false
  else let host := strip_final_dot host in
       if zlen host =? 0 then false else valid_labels host [].

Definition lower (c : Z) : Z := if (65 <=? c) && (c <=? 90) then c + 32 else c.

(** dns_canonical(), for a buffer of [size] bytes. *)
Definition dns_canonical (input : cstr) (size : nat) : cstr := map lower (take (size - 1) (strip_final_dot input)).

Section Text.

Context {I : Inet}.

(** The text that precedes the first '/'. *)
Definition before_slash (s : cstr) : cstr := match strchr SLASH s with Some (a, _) => a | None => s end.

(** host_is_numeric() *)
Definition host_is_numeric (host : cstr) : bool :=
  if (zlen host =? 0) || (NET_POLICY_RULE_LEN <=? zlen host) then false
  else bool_decide (inet_pton AF_INET (before_slash host) <> None)
       || bool_decide (inet_pton AF_INET6 (before_slash host) <> None).

(** A rule with an address in the place of its host. *)
Definition fixed_text (original prefix ip suffix : cstr) : cstr :=
  if (chr original 0 =? OPEN) || bool_decide (strchr COLON ip <> None)
  then prefix ++ OPEN :: ip ++ CLOSE :: suffix else prefix ++ ip ++ suffix.

(** add_fixed_rule() *)
Definition add_fixed_rule (rules : list NetPolicyRule) (original ip : cstr) : res (list NetPolicyRule) :=
  match destination_host original with
  | Ok (prefix, host, suffix) =>
      let fixed := fixed_text original prefix ip suffix in
      if (NET_POLICY_RULE_LEN <=? zlen fixed) || (NET_POLICY_MAX_RULES <=? zlen rules) then Err E2BIG
      else
        match add_rule rules fixed with
        | Ok _ =>
            let source := if zlen host <? NET_DNS_NAME_LEN then dns_canonical host 256 else [] in
            Ok (rules ++ [mkRule fixed source false false])
        | Err _ => Err ENOMEM
        | Stuck w => Stuck w
        end
  | Err _ => Err EINVAL
  | Stuck w => Stuck w
  end.

(** The loop of resolve_rule() over the answers: whether it succeeds, the rules,
    and whether an answer was found. *)
Fixpoint add_answers (original prefix suffix : cstr) (answers : list (Z * list Z)) (rules : list NetPolicyRule)
    (found : bool) : bool * list NetPolicyRule * bool :=
  match answers with
  | [] => (true, rules, found)
  | (family, address) :: answers =>
      if negb ((family =? AF_INET) || (family =? AF_INET6)) then add_answers original prefix suffix answers rules found
      else
        let ip := inet_ntop family address in
        let candidate := take 255 (fixed_text original prefix ip suffix) in
        if existsb (fun r => negb (is_domain r) && str_eqb (value r) candidate) rules
        then add_answers original prefix suffix answers rules true
        else match add_fixed_rule rules original ip with
             | Ok rules => add_answers original prefix suffix answers rules true
             | _ => (false, rules, true)
             end
  end.

Definition set_resolved (r : NetPolicyRule) : NetPolicyRule := mkRule (value r) (source r) (is_domain r) true.

(** resolve_rule() of the rule [i]: whether it succeeds, and the rules. *)
Definition resolve_rule (rules : list NetPolicyRule) (i : nat) : bool * list NetPolicyRule :=
  match rules !! i with
  | None => (false, rules)
  | Some r =>
      if negb (is_domain r) || resolved r then (true, rules)
      else
        match destination_host (value r) with
        | Ok (prefix, host, suffix) =>
            let hostname := strip_final_dot host in
            if (NET_POLICY_RULE_LEN <=? zlen host) || (zlen hostname =? 0) || negb (valid_domain hostname)
            then (false, rules)
            else
              match getaddrinfo hostname with
              | None => (false, rules)
              | Some answers =>
                  let '(ok, rules, found) := add_answers (value r) prefix suffix answers rules false in
                  if ok && found then (true, alter set_resolved i rules) else (false, rules)
              end
        | _ => (false, rules)
        end
  end.

(** resolve_pending_domains() *)
Fixpoint resolve_from (rules : list NetPolicyRule) (i n : nat) : bool * list NetPolicyRule :=
  match n with
  | O => (true, rules)
  | S n =>
      let '(ok, rules) := resolve_rule rules i in
      if ok then resolve_from rules (S i) n else (false, rules)
  end.
Definition resolve_pending_domains (rules : list NetPolicyRule) : bool * list NetPolicyRule :=
  resolve_from rules 0 (length rules).

End Text.

(** ** Matching *)

(** A struct sockaddr_storage is its 128 bytes. *)
Definition SOCKADDR_STORAGE := 128%nat.
Definition ss_family (addr : list Z) : Z := of_le (slice 0 2 addr).
Definition sin_port (addr : list Z) : Z := of_be (slice 2 2 addr).
Definition sin_addr (addr : list Z) : list Z := slice 4 4 addr.
Definition sin6_addr (addr : list Z) : list Z := slice 8 16 addr.

(** VnpNetworkClass *)
Inductive VnpNetworkClass :=
  | VNP_NET_CLASS_UNKNOWN | VNP_NET_CLASS_VIRTUAL | VNP_NET_CLASS_EXTERNAL | VNP_NET_CLASS_BRIDGE.
#[export] Instance VnpNetworkClass_eq_dec : EqDecision VnpNetworkClass.
Proof. solve_decision. Defined.

(** parse_port() *)
Definition parse_port (v : cstr) : res Z :=
  if str_eqb v (bs "*") then Ok 0
  else
    let '(parsed, rest) := strtoul10 v in
    if str_eqb v [] || negb (str_eqb rest []) || (65535 <? parsed) then Err EINVAL else Ok parsed.

(** rule_port(): the port, if there is one; the host is found again by
    destination_matches(). *)
Definition rule_port (rule : cstr) : res (option Z) :=
  let read after :=
    if str_eqb after [] || (16 <=? zlen after) then Err EINVAL
    else match parse_port after with
         | Ok port => Ok (Some port)
         | Err _ => Err EINVAL
         | Stuck w => Stuck w
         end in
  if chr rule 0 =? OPEN then
    match strchr CLOSE rule with
    | None => Ok None
    | Some (host, after) =>
        if negb (chr after 0 =? COLON) then Ok None
        else if NET_POLICY_RULE_LEN <=? zlen host - 1 then Err EINVAL
        else read (drop 1 after)
    end
  else
    match strrchr COLON rule with
    | None => Ok None
    | Some (a, b) => if bool_decide (strchr COLON a <> None) then Ok None else read b
    end.

Section Match.

Context {I : Inet}.

(** ip_matches() *)
Definition ip_matches (rule_host addr : list Z) : bool :=
  let family := ss_family addr in
  if negb ((family =? AF_INET) || (family =? AF_INET6)) then false
  else
    let buf := inet_ntop family (if family =? AF_INET then sin_addr addr else sin6_addr addr) in
    let width := if family =? AF_INET then 32 else 128 in
    let rule_copy := take 255 rule_host in
    let '(text, bits) :=
      match strchr SLASH rule_copy with
      | None => (rule_copy, Some width)
      | Some (text, slash) =>
          let '(n, rest) := strtol10_end slash in
          let bits := sgn 32 n in
          (text, if str_eqb slash [] || negb (str_eqb rest []) || (bits <? 0) || (width <? bits)
                 then None else Some bits)
      end in
    match bits with
    | None => false
    | Some bits =>
        match inet_pton family text, inet_pton family buf with
        | Some rule_addr, Some actual =>
            let bytes := Z.to_nat (bits / 8) in
            let rem := bits mod 8 in
            let mask := Z.land (Z.shiftl 0xff (8 - rem)) 0xff in
            if negb (bool_decide (take bytes rule_addr = take bytes actual)) then false
            else (rem =? 0) || (Z.land (chr rule_addr bytes) mask =? Z.land (chr actual bytes) mask)
        | _, _ => false
        end
    end.

(** The schemes a rule may start with. *)
Definition class_of_scheme (rule : cstr) : option VnpNetworkClass :=
  if starts_with (bs "virtual://") rule then Some VNP_NET_CLASS_VIRTUAL
  else if starts_with (bs "bridge://") rule then Some VNP_NET_CLASS_BRIDGE
  else if starts_with (bs "external://") rule then Some VNP_NET_CLASS_EXTERNAL
  else None.

(** What destination_matches() does once the scheme is read. *)
Definition host_matches (rule addr : list Z) (port : Z) : bool :=
  if str_eqb rule (bs "*") then true
  else
    match rule_port rule with
    | Ok has_port =>
        let host :=
          if chr rule 0 =? OPEN then
            match strchr CLOSE rule with Some (host, _) => Some (drop 1 host) | None => None end
          else
            match has_port, strrchr COLON rule with
            | Some _, Some (host, _) => Some host
            | _, _ => Some rule
            end in
        match host with
        | None => false
        | Some host =>
            if (NET_POLICY_RULE_LEN <=? zlen host) && negb (bool_decide (host = rule)) then false
            else
              match has_port with
              | Some n => if negb (n =? port) then false else str_eqb host (bs "*") || ip_matches host addr
              | None => str_eqb host (bs "*") || ip_matches host addr
              end
        end
    | _ => false
    end.

(** destination_matches() *)
Definition destination_matches (rule addr : list Z) (port : Z) (net_class : VnpNetworkClass) : bool :=
  if bool_decide (net_class = VNP_NET_CLASS_UNKNOWN)
  then existsb (str_eqb rule) (map bs ["*"; "tcp://*"; "udp://*"]%string)
  else
    match strstr SCHEME rule with
    | None => host_matches rule addr port
    | Some (_, after) =>
        match class_of_scheme rule with
        | Some c => if bool_decide (net_class = c) then host_matches after addr port else false
        | None =>
            if starts_with (bs "tcp://") rule || starts_with (bs "udp://") rule
            then host_matches after addr port else false
        end
    end.

(** any_rule_matches() *)
Definition any_rule_matches (rules : list NetPolicyRule) (addr : list Z) (port : Z) (net_class : VnpNetworkClass) : bool :=
  existsb (fun r => negb (is_domain r) && destination_matches (value r) addr port net_class) rules.

End Match.

(** bind_matches() *)
Definition bind_matches (rules : list NetPolicyRule) (port : Z) : bool :=
  existsb (fun r => str_eqb (value r) (bs "*")
                    || match parse_port (value r) with Ok wanted => wanted =? port | _ => false end) rules.

(** remember_bind() and remembered_bind() *)
Fixpoint remember_bind (l : list NetPolicyBind) (room : nat) (pid fd port : Z) : list NetPolicyBind :=
  match l with
  | [] => match room with O => [] | S _ => [mkBind pid fd port] end
  | b :: l =>
      if (b_pid b =? pid) && (b_fd b =? fd) then mkBind pid fd port :: l
      else b :: remember_bind l (Nat.pred room) pid fd port
  end.

Fixpoint remembered_bind (l : list NetPolicyBind) (pid fd : Z) : Z :=
  match l with
  | [] => 0
  | b :: l => if (b_pid b =? pid) && (b_fd b =? fd) then b_port b else remembered_bind l pid fd
  end.

(** ** Classification of destinations (virtual_net.c) *)

(** What vnp_classify_destination() reads of the virtual network: its name, the
    ports exposed and those bound, and the cache of the registry. *)
Record VnpConfig := mkVnp {
  proxy_name : cstr;
  expose_ports : list Z;
  fd_ports : list Z;
  vnp_cache_proxy : cstr;
  vnp_cache_entries : list Z
}.

(** is_ipv6_loopback_or_unspecified() *)
Definition is_ipv6_loopback_or_unspecified (a : list Z) : bool :=
  bool_decide (a = replicate 15 0 ++ [1]) || bool_decide (a = replicate 16 0).

Definition classify_local (c : VnpConfig) (port : Z) : VnpNetworkClass :=
  if existsb (Z.eqb port) (expose_ports c) then VNP_NET_CLASS_BRIDGE
  else if existsb (Z.eqb port) (fd_ports c) then VNP_NET_CLASS_VIRTUAL
  else if str_eqb (vnp_cache_proxy c) (proxy_name c) && existsb (Z.eqb port) (vnp_cache_entries c)
  then VNP_NET_CLASS_VIRTUAL
  else VNP_NET_CLASS_UNKNOWN.

(** vnp_classify_destination(), of a known address; [None] is a tracee without
    virtual network. *)
Definition vnp_classify_destination (c : option VnpConfig) (addr : list Z) (port : Z) : VnpNetworkClass :=
  match c with
  | None => VNP_NET_CLASS_EXTERNAL
  | Some c =>
      if ss_family addr =? AF_INET then
        if negb (chr (sin_addr addr) 0 =? 127) then VNP_NET_CLASS_EXTERNAL else classify_local c port
      else if ss_family addr =? AF_INET6 then
        if negb (is_ipv6_loopback_or_unspecified (sin6_addr addr)) then VNP_NET_CLASS_EXTERNAL
        else classify_local c port
      else VNP_NET_CLASS_EXTERNAL
  end.

(** ** Addresses of system calls *)

(** NetUnixEndpoint *)
Inductive UnixKind := NET_UNIX_UNNAMED | NET_UNIX_PATHNAME | NET_UNIX_ABSTRACT.
#[export] Instance UnixKind_eq_dec : EqDecision UnixKind.
Proof. solve_decision. Defined.
Record NetUnixEndpoint := mkEndpoint { u_kind : UnixKind; u_name : list Z }.
Definition unnamed : NetUnixEndpoint := mkEndpoint NET_UNIX_UNNAMED [].

Definition sizeof_sockaddr_un := 110.
Definition no_address : list Z := replicate SOCKADDR_STORAGE 0.
Definition storage (bytes : list Z) : list Z := resize SOCKADDR_STORAGE 0 bytes.

Section Syscalls.

Context {I : Inet} {Mem : Type} {TM : TraceeMemory Mem}.

(** The endpoint of an AF_UNIX address of [length] bytes. *)
Definition unix_endpoint (addr : list Z) (length : Z) : NetUnixEndpoint :=
  let path := slice 2 (Z.to_nat length - 2) addr in
  match path with
  | [] => unnamed
  | 0 :: name => mkEndpoint NET_UNIX_ABSTRACT name
  | _ => mkEndpoint NET_UNIX_PATHNAME (fst (span (fun c => negb (c =? 0)) path))
  end.

(** read_sockaddr_limited() *)
Definition read_sockaddr_limited (m : Mem) (me : nat) (ptr supplied_length : Z) : res (list Z * NetUnixEndpoint) :=
  if ptr =? 0 then Err EFAULT
  else
    match read_data m me ptr 8 with
    | inr _ => Err EFAULT
    | inl header =>
        let family := of_le (slice 0 2 header) in
        let read length :=
          match read_data m me ptr length with
          | inr _ => Err EFAULT
          | inl bytes => Ok (storage bytes, unnamed)
          end in
        if family =? AF_INET then read 16
        else if family =? AF_INET6 then read 24
        else if family =? AF_UNIX then
          let length := if supplied_length =? 0 then sizeof_sockaddr_un else supplied_length in
          if length <? 2 then Ok (no_address, unnamed)
          else
            let length := Z.min length sizeof_sockaddr_un in
            match read_data m me ptr length with
            | inr _ => Err EFAULT
            | inl bytes => Ok (storage bytes, unix_endpoint (storage bytes) length)
            end
        else Ok (no_address, unnamed)
    end.

Definition SYS_BIND := 2.
Definition SYS_CONNECT := 3.
Definition SYS_SENDTO := 11.
Definition SYS_RECVFROM := 12.

(** peek_word() *)
Definition peek_word (m : Mem) (me : nat) (regs : Regs) (address : Z) : res Z :=
  match read_data m me address (if is_32on64_mode regs then 4 else 8) with
  | inl bytes => Ok (of_le bytes)
  | inr e => Err e
  end.

(** socketcall_address(): the system call meant, the address and its length;
    [None] when there is nothing to check. *)
Definition socketcall_address (m : Mem) (me : nat) (regs : Regs) : res (option (Sysnum * Z * Z)) :=
  let! sysnum := get_sysnum regs CURRENT in
  if negb (sysnum =? PR_socketcall) then Ok None
  else
    let args_addr := peek_reg regs CURRENT SYSARG_2 in
    let call := peek_reg regs CURRENT SYSARG_1 in
    let word_size := if is_32on64_mode regs then 4 else 8 in
    let pick mapped n :=
      let! address := peek_word m me regs (wrap64 (args_addr + n * word_size)) in
      let! length := peek_word m me regs (wrap64 (args_addr + (n + 1) * word_size)) in
      Ok (Some (mapped, address, length)) in
    if call =? SYS_BIND then pick PR_bind 1
    else if call =? SYS_CONNECT then pick PR_connect 1
    else if call =? SYS_SENDTO then pick PR_sendto 4
    else if call =? SYS_RECVFROM then pick PR_recvfrom 4
    else Ok None.

(** What check_operation() reads besides the policy: the tracee, whether a
    controller is connected, the name of the proxy and the virtual network. *)
Record NetView := mkNetView {
  v_me : nat;
  v_pid : Z;
  v_regs : Regs;
  v_mem : Mem;
  v_control : bool;
  v_proxy : cstr;
  v_vnp : option VnpConfig
}.

(** The decision on a port to listen to. *)
Definition check_bind_port (p : StaticPolicy) (port : Z) : res unit :=
  if bind_matches (deny_bind p) port then Err EACCES
  else if bool_decide (mode p = NET_POLICY_DENY) && negb (bind_matches (allow_bind p) port) then Err EACCES
  else Ok tt.

(** The decision on an AF_UNIX address. *)
Definition check_unix (v : NetView) (p : StaticPolicy) : res unit :=
  if bool_decide (mode p = NET_POLICY_OFF) || str_eqb (v_proxy v) [] || v_control v then Ok tt else Err EACCES.

Definition is_inet (addr : list Z) : bool := (ss_family addr =? AF_INET) || (ss_family addr =? AF_INET6).

(** The decision on a destination. *)
Definition check_destination (v : NetView) (p : StaticPolicy) (addr : list Z) : res unit :=
  let port := sin_port addr in
  let net_class := vnp_classify_destination (v_vnp v) addr port in
  if any_rule_matches (deny p) addr port net_class then Err EACCES
  else if bool_decide (mode p = NET_POLICY_DENY) then
    let allowed := any_rule_matches (allow p) addr port net_class in
    let handoff := bool_decide (net_class = VNP_NET_CLASS_UNKNOWN) && v_control v && allowed in
    if negb allowed && negb handoff then Err EACCES else Ok tt
  else Ok tt.

(** check_operation(): the decision, and the policy with the bound ports. *)
Definition check_operation (v : NetView) (syscall : Sysnum) (p : StaticPolicy) : res unit * StaticPolicy :=
  let regs := v_regs v in
  let arg := peek_reg regs CURRENT in
  let from_socketcall := syscall =? PR_socketcall in
  match (if from_socketcall then socketcall_address (v_mem v) (v_me v) regs else Ok (Some (syscall, 0, 0))) with
  | Err e => (Err e, p)
  | Stuck w => (Stuck w, p)
  | Ok None => (Ok tt, p)
  | Ok (Some (effective_syscall, ptr, address_length)) =>
      let is_bind := (effective_syscall =? PR_bind) || (effective_syscall =? PR_listen) in
      let is_datagram := (effective_syscall =? PR_sendto) || (effective_syscall =? PR_recvfrom) in
      if bool_decide (mode p = NET_POLICY_OFF) && negb (v_control v) then (Ok tt, p)
      else if (syscall =? PR_recvmsg) || (syscall =? PR_ppoll) || (syscall =? PR_read) then (Ok tt, p)
      else if is_bind then
        if syscall =? PR_listen then
          (check_bind_port p (remembered_bind (binds p) (v_pid v) (sgn 32 (arg SYSARG_1))), p)
        else
          let ptr := if from_socketcall then ptr else arg SYSARG_2 in
          let address_length := if from_socketcall then address_length else arg SYSARG_3 in
          match read_sockaddr_limited (v_mem v) (v_me v) ptr address_length with
          | Err _ => (Ok tt, p)
          | Stuck w => (Stuck w, p)
          | Ok (addr, endpoint) =>
              if ss_family addr =? AF_UNIX then
                if bool_decide (u_kind endpoint = NET_UNIX_UNNAMED) then (Ok tt, p) else (check_unix v p, p)
              else if negb (is_inet addr) then (Ok tt, p)
              else
                let port := sin_port addr in
                let p :=
                  if from_socketcall then p
                  else set_binds (remember_bind (binds p) (Z.to_nat NET_POLICY_MAX_BINDS) (v_pid v)
                                    (sgn 32 (arg SYSARG_1)) port) p in
                if port =? 0 then (Ok tt, p) else (check_bind_port p port, p)
          end
      else
        let ptr := if from_socketcall then ptr else if is_datagram then arg SYSARG_5 else arg SYSARG_2 in
        let address_length :=
          if from_socketcall then address_length else if is_datagram then arg SYSARG_6 else arg SYSARG_3 in
        if ptr =? 0 then (Ok tt, p)
        else
          match read_sockaddr_limited (v_mem v) (v_me v) ptr address_length with
          | Err _ => (Ok tt, p)
          | Stuck w => (Stuck w, p)
          | Ok (addr, endpoint) =>
              if ss_family addr =? AF_UNIX then
                if (effective_syscall =? PR_recvfrom) || bool_decide (u_kind endpoint = NET_UNIX_UNNAMED)
                then (Ok tt, p) else (check_unix v p, p)
              else if negb (is_inet addr) then (Ok tt, p)
              else if (syscall =? PR_connect) && (sin_port addr =? 53) then (Ok tt, p)
              else (check_destination v p addr, p)
          end
  end.

(** ** Configuration *)

(** parse_mode() *)
Definition parse_mode (m : cstr) : res NetPolicyMode :=
  if str_eqb m (bs "off") then Ok NET_POLICY_OFF
  else if str_eqb m (bs "deny") then Ok NET_POLICY_DENY
  else if str_eqb m (bs "allow") then Ok NET_POLICY_ALLOW
  else Err EINVAL.

(** The policy of a fresh extension. *)
Definition new_policy : StaticPolicy := mkStatic NET_POLICY_OFF [] [] [] [] [].

(** net_policy_configure(): whether it succeeds, and the policy, which exists
    once the extension does. *)
Definition net_policy_configure (m : cstr) (o : option StaticPolicy) : bool * option StaticPolicy :=
  match parse_mode m with
  | Ok parsed =>
      match o with
      | None => if bool_decide (parsed = NET_POLICY_OFF) then (true, None)
                else (true, Some (mkStatic parsed [] [] [] [] []))
      | Some p =>
          let with_rules a d := Some (mkStatic parsed a d (allow_bind p) (deny_bind p) (binds p)) in
          if bool_decide (parsed = NET_POLICY_OFF) then (true, with_rules (allow p) (deny p))
          else
            let '(ok, a) := resolve_pending_domains (allow p) in
            if negb ok then (false, with_rules a (deny p))
            else let '(ok, d) := resolve_pending_domains (deny p) in (ok, with_rules a d)
      end
  | _ => (false, o)
  end.

(** The list of destinations of one kind. *)
Definition destinations (denied : bool) (p : StaticPolicy) : list NetPolicyRule := if denied then deny p else allow p.
Definition set_destinations (denied : bool) (l : list NetPolicyRule) (p : StaticPolicy) : StaticPolicy :=
  if denied then mkStatic (mode p) (allow p) l (allow_bind p) (deny_bind p) (binds p)
  else mkStatic (mode p) l (deny p) (allow_bind p) (deny_bind p) (binds p).

Definition set_domain (r : NetPolicyRule) : NetPolicyRule := mkRule (value r) (source r) true (resolved r).

(** net_policy_add_destination() *)
Definition net_policy_add_destination (v : cstr) (denied : bool) (o : option StaticPolicy)
  : bool * option StaticPolicy :=
  let p := match o with Some p => p | None => new_policy end in
  match destination_host v with
  | Ok (_, host, _) =>
      match add_rule (destinations denied p) v with
      | Ok rules =>
          if negb (host_is_numeric host) && negb (str_eqb host (bs "*")) then
            let domain := if (NET_POLICY_RULE_LEN <=? zlen host) || negb (str_eqb (strip_final_dot host) host)
                          then take (length host - 1)%nat host else host in
            if (zlen domain =? 0) || negb (valid_domain domain) then (false, Some (set_destinations denied rules p))
            else
              let rules := alter set_domain (length rules - 1)%nat rules in
              if bool_decide (mode p = NET_POLICY_OFF) then (true, Some (set_destinations denied rules p))
              else let '(ok, rules) := resolve_pending_domains rules in (ok, Some (set_destinations denied rules p))
          else (true, Some (set_destinations denied rules p))
      | _ => (false, Some p)
      end
  | _ => (false, Some p)
  end.

(** net_policy_add_bind() *)
Definition net_policy_add_bind (v : cstr) (denied : bool) (o : option StaticPolicy) : bool * option StaticPolicy :=
  match parse_port v with
  | Ok _ =>
      let p := match o with Some p => p | None => new_policy end in
      match add_rule (if denied then deny_bind p else allow_bind p) v with
      | Ok rules =>
          (true, Some (if denied then mkStatic (mode p) (allow p) (deny p) (allow_bind p) rules (binds p)
                       else mkStatic (mode p) (allow p) (deny p) rules (deny_bind p) (binds p)))
      | _ => (false, Some p)
      end
  | _ => (false, o)
  end.

End Syscalls.
Arguments NetView : clear implicits.

(** ** Lemmas on texts *)

Definition without (c : Z) (s : cstr) : Prop := Forall (fun x => x =? c = false) s.

Lemma without_app c a b : without c (a ++ b) <-> without c a /\ without c b.
Proof. apply Forall_app. Qed.

Lemma without_cons c x s : without c (x :: s) <-> x <> c /\ without c s.
Proof. unfold without. rewrite Forall_cons, Z.eqb_neq. done. Qed.

Lemma strchr_app c a b : without c a -> strchr c (a ++ c :: b) = Some (a, b).
Proof.
  intros H. unfold strchr. rewrite span_all; [done| |by rewrite Z.eqb_refl].
  eapply Forall_impl; [exact H|]. by intros x ->.
Qed.

Lemma strchr_none c a : without c a -> strchr c a = None.
Proof.
  intros H. unfold strchr. rewrite span_all_nil; [done|]. eapply Forall_impl; [exact H|]. by intros x ->.
Qed.

Lemma without_rev c s : without c s -> without c (rev s).
Proof. unfold without. intros H. apply Forall_rev. exact H. Qed.

Lemma strrchr_app c a b : without c b -> strrchr c (a ++ c :: b) = Some (a, b).
Proof.
  intros H. unfold strrchr. rewrite rev_app_distr. cbn [rev]. rewrite <- app_assoc. cbn [app].
  rewrite strchr_app by (by apply without_rev). by rewrite !rev_involutive.
Qed.

Lemma strrchr_none c a : without c a -> strrchr c a = None.
Proof. intros H. unfold strrchr. by rewrite strchr_none by (by apply without_rev). Qed.

(** The number of '/' of a string. *)
Definition slashes (s : cstr) : nat := length (filter (fun c => c = SLASH) s).

Lemma slashes_app a b : slashes (a ++ b) = (slashes a + slashes b)%nat.
Proof. unfold slashes. by rewrite filter_app, length_app. Qed.

Lemma slashes_cons c s : slashes (c :: s) = ((if decide (c = SLASH) then 1 else 0) + slashes s)%nat.
Proof. unfold slashes. rewrite filter_cons. by case_decide. Qed.

Lemma slashes_without s : without SLASH s -> slashes s = 0%nat.
Proof.
  induction s as [|c s IH]; [done|]. rewrite without_cons. intros [H1 H2].
  rewrite slashes_cons, decide_False, IH by done. done.
Qed.

Lemma strstr_scheme_none s : (slashes s < 2)%nat -> strstr SCHEME s = None.
Proof.
  induction s as [|c s IH]; [done|]. intros H. rewrite slashes_cons in H. cbn [strstr].
  assert (E : starts_with SCHEME (c :: s) = false).
  { apply not_true_iff_false. intros E. change SCHEME with [58; 47; 47] in E. destruct s as [|x [|y s]];
      cbn [starts_with] in E; bool_facts; [done|done|]. subst x y.
    rewrite !slashes_cons in H. change 47 with SLASH in H. rewrite !(decide_True (P := SLASH = SLASH)) in H by done. lia. }
  rewrite E, IH by lia. done.
Qed.

Lemma is_digit_not_space c : is_digit c = true -> is_space c = false.
Proof.
  rewrite is_digit_range. intros H. unfold is_space. apply orb_false_iff. split; [lia|]. apply andb_false_iff. lia.
Qed.

(** A number reads back, alone. *)
Lemma scan_number_itoa n : 0 <= n < 2 ^ 31 -> scan_number (itoa n) = (false, n, []).
Proof.
  intros Hn. rewrite itoa_digits by lia. unfold scan_number.
  assert (Hv : undigits 0 (digits 10 n) = n) by (apply digits_value; lia).
  assert (Hd : Forall (fun c => is_digit c = true) (digits 10 n)) by (apply digits_digits; lia).
  pose proof (digits_nonempty 9 n) as Hne. destruct (digits 10 n) as [|d ds]; [done|].
  pose proof (Forall_inv Hd) as Hd0. cbn [span]. rewrite is_digit_not_space by done. cbn [snd].
  assert (Es : match d :: ds with 45 :: t => (true, t) | 43 :: t => (false, t) | _ => (false, d :: ds) end
               = (false, d :: ds)).
  { apply digit_case in Hd0. repeat (destruct Hd0 as [-> | Hd0]; [reflexivity|]). done. }
  rewrite Es, span_all_nil by done. by rewrite Hv.
Qed.

Lemma itoa_length n : 0 <= n -> zlen (itoa n) <= 10.
Proof. intros H. rewrite itoa_digits by done. unfold zlen. pose proof (digits_length 10 n). lia. Qed.

Lemma itoa_nonempty n : 0 <= n -> itoa n <> [].
Proof. intros H. rewrite itoa_digits by done. apply digits_nonempty. Qed.

Lemma itoa_without c n : 0 <= n -> is_digit c = false -> without c (itoa n).
Proof.
  intros Hn Hc. rewrite itoa_digits by done. eapply Forall_impl; [by apply digits_digits|].
  intros x Hx. apply Z.eqb_neq. intros ->. congruence.
Qed.

Lemma strtoul10_itoa n : 0 <= n < 2 ^ 31 -> strtoul10 (itoa n) = (n, []).
Proof.
  intros Hn. unfold strtoul10. rewrite scan_number_itoa by done.
  case_bool; bool_facts; [unfold ULONG_MAX in *; lia|done].
Qed.

Lemma strtol10_end_itoa n : 0 <= n < 2 ^ 31 -> strtol10_end (itoa n) = (n, []).
Proof.
  intros Hn. unfold strtol10_end. rewrite scan_number_itoa by done. f_equal. unfold LONG_MIN, LONG_MAX. lia.
Qed.

Lemma str_eqb_false a b : a <> b -> str_eqb a b = false.
Proof. apply str_eqb_neq. Qed.

Lemma itoa_not_star n : 0 <= n -> itoa n <> bs "*".
Proof.
  intros Hn E. pose proof (itoa_without 42 n Hn eq_refl) as H. rewrite E in H. apply Forall_inv in H. done.
Qed.

Lemma parse_port_itoa n : 0 <= n <= 65535 -> parse_port (itoa n) = Ok n.
Proof.
  intros Hn. unfold parse_port. rewrite (str_eqb_false (itoa n) (bs "*")) by (apply itoa_not_star; lia).
  rewrite strtoul10_itoa by lia. rewrite str_eqb_false by (apply itoa_nonempty; lia). rewrite str_eqb_refl. cbn [negb orb].
  case_bool; [|done]. bool_facts. lia.
Qed.

(** ** Network prefixes *)

(** The first [bits] bits of an address, as a number. *)
Definition network (bits : Z) (a : list Z) : Z := of_be a / 2 ^ (8 * zlen a - bits).

Lemma of_be_inj a b : length a = length b -> Forall is_byte a -> Forall is_byte b -> of_be a = of_be b -> a = b.
Proof.
  revert b. induction a as [|x a IH] using rev_ind; intros b Hl Ha Hb E.
  - by destruct b.
  - destruct (exists_last (l := b)) as (b' & y & ->). { intros ->. rewrite length_app in Hl. cbn in Hl. lia. }
    rewrite !length_app in Hl. cbn in Hl. apply Forall_app in Ha as [Ha Hx]. apply Forall_app in Hb as [Hb Hy].
    apply Forall_inv in Hx, Hy. unfold is_byte in Hx, Hy. rewrite !of_be_app in E.
    change (of_be [x]) with x in E. change (of_be [y]) with y in E.
    change (256 ^ Z.of_nat (length [x])) with 256 in E. change (256 ^ Z.of_nat (length [y])) with 256 in E.
    assert (of_be a = of_be b') by lia. assert (x = y) as -> by lia. f_equal. apply IH; [lia|done..].
Qed.

(** The mask of the last, partial byte. *)
Definition mask_facts : bool :=
  forallb (fun r => forallb (fun b => Z.land b (Z.land (Z.shiftl 0xff (8 - r)) 0xff) =? b / 2 ^ (8 - r) * 2 ^ (8 - r))
                      (map Z.of_nat (seq 0 256))) (map Z.of_nat (seq 1 7)).

Lemma mask_facts_true : mask_facts = true.
Proof. vm_compute. reflexivity. Qed.

Lemma mask_byte b rem : is_byte b -> 0 < rem < 8 ->
  Z.land b (Z.land (Z.shiftl 0xff (8 - rem)) 0xff) = b / 2 ^ (8 - rem) * 2 ^ (8 - rem).
Proof.
  intros Hb Hr. unfold is_byte in Hb. pose proof mask_facts_true as H. unfold mask_facts in H.
  rewrite forallb_forall in H. specialize (H rem). rewrite forallb_forall in H. apply Z.eqb_eq, H.
  - apply in_map_iff. exists (Z.to_nat rem). split; [lia|]. apply in_seq. lia.
  - apply in_map_iff. exists (Z.to_nat b). split; [lia|]. apply in_seq. lia.
Qed.

Lemma network_split a bytes b rest rem :
  a = bytes ++ b :: rest -> Forall is_byte a -> 0 < rem < 8 ->
  network (8 * zlen bytes + rem) a = of_be bytes * 2 ^ rem + b / 2 ^ (8 - rem).
Proof.
  intros -> Hb Hr. unfold network. apply Forall_app in Hb as [_ Hb]. apply Forall_cons in Hb as [Hb Hrest].
  pose proof (of_be_range rest Hrest) as Hrange. unfold is_byte in Hb.
  replace (8 * zlen (bytes ++ b :: rest) - (8 * zlen bytes + rem)) with (8 * Z.of_nat (length rest) + (8 - rem))
    by (unfold zlen; rewrite length_app; cbn [length]; lia).
  rewrite Z.pow_add_r, Z.pow_mul_r by lia. change (2 ^ 8) with 256. rewrite <- Z.div_div by lia.
  replace (bytes ++ b :: rest) with ((bytes ++ [b]) ++ rest) by (by rewrite <- app_assoc).
  rewrite of_be_app, Z.div_add_l, (Z.div_small (of_be rest)), of_be_app by lia.
  change (of_be [b]) with b. change (256 ^ Z.of_nat (length [b])) with 256.
  replace 256 with (2 ^ rem * 2 ^ (8 - rem)) by (rewrite <- Z.pow_add_r by lia; by replace (rem + (8 - rem)) with 8 by lia).
  rewrite Z.mul_assoc, Z.add_0_r, Z.div_add_l by lia. done.
Qed.

Lemma network_whole a bytes rest :
  a = bytes ++ rest -> Forall is_byte a -> network (8 * zlen bytes) a = of_be bytes.
Proof.
  intros -> Hb. unfold network. apply Forall_app in Hb as [_ Hb]. pose proof (of_be_range rest Hb) as Hr.
  replace (8 * zlen (bytes ++ rest) - 8 * zlen bytes) with (8 * Z.of_nat (length rest))
    by (unfold zlen; rewrite length_app; lia).
  rewrite Z.pow_mul_r by lia. change (2 ^ 8) with 256. by rewrite of_be_app, Z.div_add_l, Z.div_small, Z.add_0_r by lia.
Qed.

(** The comparison of ip_matches(): whole bytes, then the masked one. *)
Definition same_prefix (bits : Z) (a r : list Z) : bool :=
  let bytes := Z.to_nat (bits / 8) in
  let rem := bits mod 8 in
  let mask := Z.land (Z.shiftl 0xff (8 - rem)) 0xff in
  if negb (bool_decide (take bytes r = take bytes a)) then false
  else (rem =? 0) || (Z.land (chr r bytes) mask =? Z.land (chr a bytes) mask).

Lemma partial_bytes x y b c rem :
  0 < rem < 8 -> is_byte b -> is_byte c -> x * 2 ^ rem + b / 2 ^ (8 - rem) = y * 2 ^ rem + c / 2 ^ (8 - rem) ->
  x = y /\ b / 2 ^ (8 - rem) = c / 2 ^ (8 - rem).
Proof.
  intros Hr Hb Hc E. unfold is_byte in Hb, Hc.
  assert (H : forall z, 0 <= z < 256 -> 0 <= z / 2 ^ (8 - rem) < 2 ^ rem).
  { intros z Hz. split; [apply Z.div_pos; lia|]. apply Z.div_lt_upper_bound; [lia|].
    rewrite <- Z.pow_add_r by lia. replace (8 - rem + rem) with 8 by lia. lia. }
  pose proof (H b Hb). pose proof (H c Hc). set (p := 2 ^ rem) in *. set (u := b / _) in *. set (v := c / _) in *. clearbody p u v.
  assert (x = y) as ->; [|lia]. destruct (Z.lt_trichotomy x y) as [Hlt|[->|Hlt]]; [|done|].
  - assert (p <= (y - x) * p) by nia. lia.
  - assert (p <= (x - y) * p) by nia. lia.
Qed.

Lemma same_prefix_network bits a r :
  length a = length r -> Forall is_byte a -> Forall is_byte r -> 0 <= bits <= 8 * zlen a ->
  same_prefix bits a r = (network bits r =? network bits a).
Proof.
  intros Hl Ha Hr Hbits. unfold same_prefix. set (k := Z.to_nat (bits / 8)). set (rem := bits mod 8).
  pose proof (Z.div_mod bits 8 ltac:(lia)) as Hd. pose proof (Z.mod_pos_bound bits 8 ltac:(lia)) as Hm.
  assert (Hk : (k <= length a)%nat) by (unfold zlen in *; lia).
  assert (Hn : forall x : list Z, length x = length a -> zlen (take k x) = bits / 8).
  { intros x Hx. unfold zlen. rewrite length_take. lia. }
  assert (Hinj : of_be (take k r) = of_be (take k a) -> take k r = take k a).
  { apply of_be_inj; [rewrite !length_take; lia|by apply Forall_take..]. }
  destruct (Z.eqb_spec rem 0) as [E0|E0].
  - assert (E : forall x, length x = length a -> Forall is_byte x -> network bits x = of_be (take k x)).
    { intros x Hx Hxb. rewrite <- (network_whole x (take k x) (drop k x)); [|by rewrite take_drop|done].
      f_equal. rewrite Hn by done. fold rem in Hd. lia. }
    rewrite (E a), (E r) by done. case_bool_decide as Ht; cbn [negb orb].
    + rewrite Ht. by rewrite Z.eqb_refl.
    + symmetry. apply Z.eqb_neq. intros Eq. by apply Ht, Hinj.
  - assert (Hlt : (k < length a)%nat) by (unfold zlen in *; lia).
    assert (E : forall x, length x = length a -> Forall is_byte x -> is_byte (chr x k)
                /\ network bits x = of_be (take k x) * 2 ^ rem + chr x k / 2 ^ (8 - rem)).
    { intros x Hx Hxb. destruct (lookup_lt_is_Some_2 x k ltac:(lia)) as [b Eb].
      assert (Ec : chr x k = b) by (unfold chr; by apply nth_lookup_Some). rewrite Ec.
      split; [by eapply Forall_lookup_1|].
      rewrite <- (network_split x (take k x) b (drop (S k) x)); [|by rewrite take_drop_middle|done|lia].
      f_equal. rewrite Hn by done. fold rem in Hd. lia. }
    destruct (E a eq_refl Ha) as [Hba ->]. destruct (E r ltac:(done) Hr) as [Hbr ->].
    rewrite !mask_byte by (done || lia). case_bool_decide as Ht; cbn [negb orb].
    + rewrite Ht. apply eq_true_iff_eq. rewrite !Z.eqb_eq. split.
      * intros Eq. assert (chr r k / 2 ^ (8 - rem) = chr a k / 2 ^ (8 - rem)) as ->; [|done].
        apply Z.mul_reg_r in Eq; [done|]. pose proof (Z.pow_pos_nonneg 2 (8 - rem)). lia.
      * intros Eq. apply partial_bytes in Eq as [_ ->]; done || lia.
    + symmetry. apply Z.eqb_neq. intros Eq. apply partial_bytes in Eq as [Eq _]; [|lia|done|done]. by apply Ht, Hinj.
Qed.

(** ** The meaning of rules *)

Inductive Scheme := TCP | UDP | VIRTUAL | BRIDGE | EXTERNAL.

(** What a rule means: a class of destinations, the networks (a family, an
    address and a number of bits) or any, and a port or any. *)
Record Destination := mkDestination {
  d_scheme : option Scheme;
  d_net : option (Z * list Z * option Z);
  d_port : option Z
}.

Definition dest_ok (d : Destination) : Prop :=
  match d_net d with
  | None => True
  | Some (f, a, b) => (f = AF_INET \/ f = AF_INET6) /\ length a = net_family_address_size f /\ Forall is_byte a
                      /\ match b with None => True | Some n => 0 <= n <= 8 * zlen a end
  end
  /\ match d_port d with None => True | Some n => 0 <= n <= 65535 end.

(** An address of a family with a port. *)
Definition inet_address (addr : list Z) : list Z := if ss_family addr =? AF_INET then sin_addr addr else sin6_addr addr.
Definition sockaddr_ok (addr : list Z) : Prop :=
  length addr = SOCKADDR_STORAGE /\ Forall is_byte addr /\ is_inet addr = true.

Definition scheme_means (s : option Scheme) (c : VnpNetworkClass) : bool :=
  match s with
  | None | Some TCP | Some UDP => true
  | Some VIRTUAL => bool_decide (c = VNP_NET_CLASS_VIRTUAL)
  | Some BRIDGE => bool_decide (c = VNP_NET_CLASS_BRIDGE)
  | Some EXTERNAL => bool_decide (c = VNP_NET_CLASS_EXTERNAL)
  end.
Definition net_means (n : option (Z * list Z * option Z)) (addr : list Z) : bool :=
  match n with
  | None => true
  | Some (f, a, b) =>
      let bits := match b with None => 8 * zlen a | Some bits => bits end in
      (ss_family addr =? f) && (network bits a =? network bits (inet_address addr))
  end.
Definition port_means (p : option Z) (port : Z) : bool := match p with None => true | Some n => n =? port end.

(** The meaning of a rule.  A destination of unknown class is only handed to the
    controller, by the rules that name nothing. *)
Definition means (d : Destination) (addr : list Z) (port : Z) (c : VnpNetworkClass) : bool :=
  if bool_decide (c = VNP_NET_CLASS_UNKNOWN)
  then match d_scheme d, d_net d, d_port d with
       | (None | Some TCP | Some UDP), None, None => true
       | _, _, _ => false
       end
  else scheme_means (d_scheme d) c && (port_means (d_port d) port && net_means (d_net d) addr).

Definition scheme_name (s : Scheme) : cstr :=
  match s with
  | TCP => bs "tcp" | UDP => bs "udp" | VIRTUAL => bs "virtual" | BRIDGE => bs "bridge" | EXTERNAL => bs "external"
  end.

Section Meaning.

Context {I : Inet} {IL : InetLaws I}.

(** How a rule is written. *)
Definition show_bits (b : option Z) : cstr := match b with None => [] | Some n => SLASH :: itoa n end.
Definition show_net (n : option (Z * list Z * option Z)) : cstr :=
  match n with
  | None => bs "*"
  | Some (f, a, b) =>
      if f =? AF_INET then inet_ntop f a ++ show_bits b else OPEN :: (inet_ntop f a ++ show_bits b) ++ [CLOSE]
  end.
Definition show_port (p : option Z) : cstr := match p with None => [] | Some n => COLON :: itoa n end.
Definition show_rest (d : Destination) : cstr := show_net (d_net d) ++ show_port (d_port d).
Definition show (d : Destination) : cstr :=
  match d_scheme d with None => [] | Some s => scheme_name s ++ SCHEME end ++ show_rest d.

Definition bits_ok (b : option Z) : Prop := match b with None => True | Some n => 0 <= n <= 128 end.
Definition port_ok (p : option Z) : Prop := match p with None => True | Some n => 0 <= n <= 65535 end.

Lemma show_bits_without c b : bits_ok b -> is_digit c = false -> c <> SLASH -> without c (show_bits b).
Proof.
  intros Hb Hd Hc. destruct b as [n|]; [|constructor]. cbn [bits_ok] in Hb. apply without_cons. split; [congruence|].
  apply itoa_without; [lia|done].
Qed.

Lemma show_port_without c p : port_ok p -> is_digit c = false -> c <> COLON -> without c (show_port p).
Proof.
  intros Hb Hd Hc. destruct p as [n|]; [|constructor]. cbn [port_ok] in Hb. apply without_cons. split; [congruence|].
  apply itoa_without; [lia|done].
Qed.

Lemma show_bits_length b : bits_ok b -> zlen (show_bits b) <= 11.
Proof.
  intros Hb. destruct b as [n|]; [|done]. cbn [bits_ok show_bits] in *. rewrite zlen_cons.
  pose proof (itoa_length n). lia.
Qed.

(** The text of an address. *)
Lemma text_without f a c : length a = net_family_address_size f -> a <> [] -> Forall is_byte a ->
  address_char c = false -> without c (inet_ntop f a).
Proof.
  intros H1 H2 H3 Hc. destruct (inet_ntop_text f a H1 H2 H3) as (_ & _ & Ht). eapply Forall_impl; [exact Ht|].
  intros x Hx. apply Z.eqb_neq. intros ->. congruence.
Qed.

Lemma without_chr c s : without c s -> c <> 0 -> (chr s 0 =? c) = false.
Proof. destruct s as [|x s]; intros H Hc; [by apply Z.eqb_neq|]. by apply Forall_inv in H. Qed.

(** rule_port() of a host without ':' nor '['. *)
Lemma rule_port_plain t p : without COLON t -> without OPEN t -> port_ok p -> rule_port (t ++ show_port p) = Ok p.
Proof.
  intros Hc Ho Hp. unfold rule_port. rewrite without_chr; [|apply without_app; split;
    [done|by apply show_port_without]|done]. destruct p as [n|]; cbn [show_port port_ok] in *.
  - rewrite strrchr_app by (apply itoa_without; [lia|done]). rewrite strchr_none by done.
    rewrite bool_decide_eq_false_2 by (by intros H). rewrite str_eqb_false by (apply itoa_nonempty; lia).
    pose proof (itoa_length n ltac:(lia)). rewrite (proj2 (Z.leb_gt _ _)) by lia. cbn [orb].
    by rewrite parse_port_itoa.
  - by rewrite app_nil_r, strrchr_none.
Qed.

Lemma host_matches_plain t p addr port :
  without COLON t -> without OPEN t -> t <> [] -> zlen t < NET_POLICY_RULE_LEN -> port_ok p ->
  host_matches (t ++ show_port p) addr port
  = port_means p port && (str_eqb t (bs "*") || ip_matches t addr).
Proof.
  intros Hc Ho Hne Hlen Hp. unfold host_matches. rewrite rule_port_plain by done.
  rewrite without_chr; [|apply without_app; split; [done|by apply show_port_without]|done].
  destruct p as [n|]; cbn [show_port port_ok port_means] in *.
  - rewrite str_eqb_false. 2: { destruct t as [|x [|y t]]; [done|by intros [=]|by intros [=]]. }
    rewrite strrchr_app by (apply itoa_without; [lia|done]).
    rewrite (proj2 (Z.leb_gt _ _)) by lia. cbn [andb]. by destruct (n =? port).
  - rewrite app_nil_r. destruct (str_eqb t (bs "*")) eqn:E; [done|].
    rewrite (bool_decide_eq_true_2 (t = t)) by done. by rewrite andb_false_r.
Qed.

(** The same for a host between brackets. *)
Lemma host_matches_bracket t p addr port :
  without CLOSE t -> t <> bs "*" -> zlen t < NET_POLICY_RULE_LEN -> port_ok p ->
  host_matches (OPEN :: t ++ CLOSE :: show_port p) addr port = port_means p port && ip_matches t addr.
Proof.
  intros Hc Hs Hlen Hp. unfold host_matches. rewrite str_eqb_false by (by intros [=]).
  assert (Hclose : strchr CLOSE (OPEN :: t ++ CLOSE :: show_port p) = Some (OPEN :: t, show_port p)).
  { apply (strchr_app CLOSE (OPEN :: t)). apply without_cons. by split. }
  assert (Hport : rule_port (OPEN :: t ++ CLOSE :: show_port p) = Ok p).
  { unfold rule_port. change (chr (OPEN :: _) 0 =? OPEN) with true. cbv iota. rewrite Hclose.
    destruct p as [n|]; cbn [show_port port_ok] in *; [|done].
    change (chr (COLON :: itoa n) 0 =? COLON) with true. cbn [negb]. rewrite zlen_cons.
    rewrite (proj2 (Z.leb_gt _ _)) by lia. cbn [drop]. rewrite drop_0, str_eqb_false by (apply itoa_nonempty; lia).
    pose proof (itoa_length n ltac:(lia)). rewrite (proj2 (Z.leb_gt _ _)) by lia. cbn [orb]. by rewrite parse_port_itoa. }
  rewrite Hport. change (chr (OPEN :: _) 0 =? OPEN) with true. cbv iota. rewrite Hclose. cbn [drop]. rewrite drop_0.
  rewrite (proj2 (Z.leb_gt _ _)) by lia. cbn [andb]. rewrite (str_eqb_false t) by done. cbn [orb].
  destruct p as [n|]; cbn [port_means]; [|done]. by destruct (n =? port).
Qed.

(** The address of a destination. *)
Lemma inet_address_ok addr : sockaddr_ok addr ->
  (ss_family addr = AF_INET \/ ss_family addr = AF_INET6)
  /\ length (inet_address addr) = net_family_address_size (ss_family addr)
  /\ Forall is_byte (inet_address addr).
Proof.
  intros (Hl & Hb & Hf). unfold is_inet in Hf. apply orb_true_iff in Hf.
  split; [destruct Hf; bool_facts; auto|]. unfold inet_address, net_family_address_size, sin_addr, sin6_addr.
  assert (Hs : forall i n, Forall is_byte (slice i n addr)).
  { intros i n. unfold slice. by apply Forall_take, Forall_drop. }
  unfold SOCKADDR_STORAGE in Hl. destruct (Z.eqb_spec (ss_family addr) AF_INET) as [E|E].
  - split; [apply length_slice; lia|done].
  - destruct Hf as [Hf|Hf]; bool_facts; [done|]. rewrite Hf. cbn. split; [apply length_slice; lia|done].
Qed.

(** The text of a network, as ip_matches() reads it. *)
Lemma ip_matches_text f a b addr :
  sockaddr_ok addr -> (f = AF_INET \/ f = AF_INET6) -> length a = net_family_address_size f -> Forall is_byte a ->
  match b with None => True | Some n => 0 <= n <= 8 * zlen a end ->
  ip_matches (inet_ntop f a ++ show_bits b) addr = net_means (Some (f, a, b)) addr.
Proof.
  intros Haddr Hf Hl Ha Hb. destruct (inet_address_ok addr Haddr) as (Hfam & Hal & Hab).
  assert (Hne : a <> []). { intros ->. by destruct Hf as [-> | ->]. }
  assert (Hane : inet_address addr <> []). { intros E. rewrite E in Hal. by destruct Hfam as [E'|E']; rewrite E' in Hal. }
  assert (Hbits : bits_ok b).
  { destruct b as [n|]; [|done]. cbn. unfold zlen in Hb. rewrite Hl in Hb. destruct Hf as [-> | ->]; cbn in Hb; lia. }
  destruct (inet_ntop_text f a Hl Hne Ha) as (_ & Hlen & _).
  assert (Hslash : without SLASH (inet_ntop f a)) by (by apply text_without).
  pose proof (show_bits_length b Hbits) as Hbl. unfold ip_matches.
  pose proof (proj2 (proj2 Haddr)) as Hin. unfold is_inet in Hin. rewrite Hin.
  cbn [negb]. change (if ss_family addr =? AF_INET then sin_addr addr else sin6_addr addr) with (inet_address addr).
  rewrite (inet_pton_ntop (ss_family addr) (inet_address addr)) by done.
  rewrite take_ge by (unfold zlen in *; rewrite length_app; lia).
  set (width := if _ =? AF_INET then 32 else 128).
  assert (Hw : width = 8 * zlen (inet_address addr)).
  { unfold width, zlen. rewrite Hal. by destruct Hfam as [-> | ->]. }
  assert (Hcmp : forall n r, inet_pton (ss_family addr) (inet_ntop f a) = Some r -> 0 <= n <= width ->
    same_prefix n (inet_address addr) r = (ss_family addr =? f) && (network n a =? network n (inet_address addr))).
  { intros n r Hr Hn. pose proof (inet_pton_ntop f a Hl Hne Ha) as Hr'.
    pose proof (inet_pton_family _ _ _ _ _ Hr Hr') as E. rewrite E in Hr. assert (r = a) as -> by congruence.
    rewrite <- E, Z.eqb_refl. cbn [andb]. apply same_prefix_network; try done; [by rewrite Hal, E|lia]. }
  assert (Hno : inet_pton (ss_family addr) (inet_ntop f a) = None -> (ss_family addr =? f) = false).
  { intros Hr. apply Z.eqb_neq. intros E. rewrite E in Hr. rewrite (inet_pton_ntop f a Hl Hne Ha) in Hr. done. }
  destruct b as [n|]; cbn [show_bits net_means].
  - rewrite strchr_app by done. rewrite strtol10_end_itoa by (cbn in Hbits; lia). cbn in Hbits.
    assert (Hs : sgn 32 n = n). { unfold sgn. rewrite Z.mod_small by lia. case_bool; bool_facts; lia. }
    rewrite Hs, str_eqb_false by (apply itoa_nonempty; lia). rewrite str_eqb_refl. cbn [negb orb].
    rewrite (proj2 (Z.ltb_ge n 0)) by lia. cbn [orb]. destruct (Z.ltb_spec width n) as [Hlt|Hge].
    + destruct (Z.eqb_spec (ss_family addr) f) as [E|]; [|done]. exfalso. unfold zlen in *. rewrite Hl, <- E, <- Hal in Hb. lia.
    + destruct (inet_pton (ss_family addr) (inet_ntop f a)) as [r|] eqn:Er; [|by rewrite Hno].
      exact (Hcmp n r eq_refl ltac:(lia)).
  - rewrite app_nil_r, strchr_none by done.
    destruct (inet_pton (ss_family addr) (inet_ntop f a)) as [r|] eqn:Er; [|by rewrite Hno].
    etrans; [exact (Hcmp width r eq_refl ltac:(unfold zlen in *; lia))|].
    destruct (Z.eqb_spec (ss_family addr) f) as [E|]; [|done]. cbn [andb]. unfold zlen in *. by rewrite Hw, Hal, Hl, E.
Qed.

Lemma net_facts f a b :
  (f = AF_INET \/ f = AF_INET6) -> length a = net_family_address_size f -> Forall is_byte a ->
  match b with None => True | Some n => 0 <= n <= 8 * zlen a end ->
  let t := inet_ntop f a ++ show_bits b in
  t <> [] /\ zlen t < NET_POLICY_RULE_LEN /\ bits_ok b
  /\ (forall c, address_char c = false -> c <> SLASH -> without c t)
  /\ (f = AF_INET -> without COLON t) /\ (slashes t < 2)%nat.
Proof.
  intros Hf Hl Ha Hb t. assert (Hne : a <> []). { intros ->. by destruct Hf as [-> | ->]. }
  assert (Hbits : bits_ok b).
  { destruct b as [n|]; [|done]. cbn. unfold zlen in Hb. rewrite Hl in Hb. destruct Hf as [-> | ->]; cbn in Hb; lia. }
  destruct (inet_ntop_text f a Hl Hne Ha) as (Htne & Hlen & _). pose proof (show_bits_length b Hbits) as Hbl.
  split_and!; try done.
  - unfold t. intros E. by apply app_eq_nil in E as [E _].
  - unfold t. rewrite zlen_app. unfold NET_POLICY_RULE_LEN. lia.
  - intros c Hc Hs. apply without_app. split; [by apply text_without|]. apply show_bits_without; try done.
    unfold address_char in Hc. by bool_facts.
  - intros ->. apply without_app. split; [by apply inet_ntop_v4|]. by apply show_bits_without.
  - unfold t. rewrite slashes_app, (slashes_without (inet_ntop f a)) by (by apply text_without).
    destruct b as [n|]; cbn [show_bits bits_ok] in *; [|cbn; lia].
    rewrite slashes_cons, slashes_without; [case_decide; lia|].
    apply itoa_without; [lia|done].
Qed.

Lemma not_star t : (forall c, address_char c = false -> c <> SLASH -> without c t) -> t <> bs "*".
Proof. intros H E. specialize (H 42 eq_refl ltac:(done)). rewrite E in H. by apply Forall_inv in H. Qed.

Lemma show_rest_matches d addr port :
  dest_ok d -> sockaddr_ok addr ->
  host_matches (show_rest d) addr port = port_means (d_port d) port && net_means (d_net d) addr.
Proof.
  intros [Hn Hp] Haddr. unfold show_rest. destruct (d_net d) as [[[f a] b]|]; cbn [show_net].
  - destruct Hn as (Hf & Hl & Ha & Hb). destruct (net_facts f a b Hf Hl Ha Hb) as (Hne & Hlen & Hbits & Hw & Hv4 & _).
    rewrite <- (ip_matches_text f a b addr) by done. destruct (Z.eqb_spec f AF_INET) as [E|E].
    + rewrite host_matches_plain; try done; [|by apply Hv4|by apply Hw]. f_equal.
      by rewrite str_eqb_false by (by apply not_star).
    + cbn [app]. rewrite <- app_assoc. apply host_matches_bracket; try done; [by apply Hw|by apply not_star].
  - rewrite host_matches_plain; try done; by repeat constructor.
Qed.

Lemma show_rest_slashes d : dest_ok d -> (slashes (show_rest d) < 2)%nat.
Proof.
  intros [Hn Hp]. unfold show_rest. rewrite slashes_app, (slashes_without (show_port _)).
  2: { by apply show_port_without. }
  rewrite Nat.add_0_r. destruct (d_net d) as [[[f a] b]|]; cbn [show_net]; [|by vm_compute; lia].
  destruct Hn as (Hf & Hl & Ha & Hb). destruct (net_facts f a b Hf Hl Ha Hb) as (_ & _ & _ & _ & _ & Hs).
  case_bool; [done|]. rewrite slashes_cons, slashes_app. rewrite decide_False by done.
  rewrite (slashes_without [CLOSE]) by (by repeat constructor). lia.
Qed.

(** What precedes the host begins with none of its characters. *)
Lemma show_rest_head d c s : dest_ok d -> show_rest d = c :: s -> address_char c || (c =? 42) || (c =? OPEN) = true.
Proof.
  intros [Hn _] E. unfold show_rest in E. destruct (d_net d) as [[[f a] b]|]; cbn [show_net] in E.
  - destruct Hn as (Hf & Hl & Ha & Hb). destruct (Z.eqb_spec f AF_INET); [|injection E as <- _; by rewrite !orb_true_r].
    assert (Hne : a <> []). { intros ->. by destruct Hf as [-> | ->]. }
    destruct (inet_ntop_text f a Hl Hne Ha) as (Htne & _ & Ht). destruct (inet_ntop f a) as [|x t]; [done|].
    injection E as <- _. apply Forall_inv in Ht. by rewrite Ht.
  - injection E as <- _. by rewrite !orb_true_r.
Qed.

Lemma show_rest_star d : dest_ok d ->
  str_eqb (show_rest d) (bs "*") = match d_net d, d_port d with None, None => true | _, _ => false end.
Proof.
  intros [Hn Hp]. unfold show_rest. destruct (d_net d) as [[[f a] b]|].
  - apply str_eqb_false. destruct Hn as (Hf & Hl & Ha & Hb).
    destruct (net_facts f a b Hf Hl Ha Hb) as (_ & _ & _ & Hw & _). cbn [show_net]. case_bool; [|by intros [=]].
    intros E. specialize (Hw 42 eq_refl ltac:(done)). destruct (inet_ntop f a ++ show_bits b) as [|x t] eqn:Et.
    + assert (Hne : a <> []). { intros ->. by destruct Hf as [-> | ->]. }
      destruct (inet_ntop_text f a Hl Hne Ha) as (Htne & _). by apply app_eq_nil in Et as [? _].
    + injection E as -> _. by apply Forall_inv in Hw.
  - destruct (d_port d) as [n|]; [|done]. by apply str_eqb_false.
Qed.

Lemma existsb_star r (H : forall c s, r = c :: s -> address_char c || (c =? 42) || (c =? OPEN) = true) :
  existsb (str_eqb r) (map bs ["*"; "tcp://*"; "udp://*"]%string) = str_eqb r (bs "*").
Proof.
  cbn [existsb map]. rewrite (str_eqb_false r (bs "tcp://*")), (str_eqb_false r (bs "udp://*")), !orb_false_r; [done|..].
  all: intros E; by specialize (H _ _ E).
Qed.

(** The scheme is read back. *)
Lemma strstr_name s r : strstr SCHEME (scheme_name s ++ SCHEME ++ r) = Some (scheme_name s, r).
Proof. by destruct s. Qed.

End Meaning.

(** ** The pinning of domains *)

Section Pinning.

Context {I : Inet}.

Definition inet_family (f : Z) : bool := (f =? AF_INET) || (f =? AF_INET6).

(** The text of the rule for an address of a domain. *)
Definition pinned_text (r : NetPolicyRule) (v : cstr) (P : cstr -> cstr -> Prop) : Prop :=
  exists prefix host suffix answers f a,
    destination_host (value r) = Ok (prefix, host, suffix) /\ getaddrinfo (strip_final_dot host) = Some answers
    /\ (f, a) ∈ answers /\ inet_family f = true /\ P v (fixed_text (value r) prefix (inet_ntop f a) suffix).

(** The rule is for an address the resolver answered. *)
Definition pinned (r : NetPolicyRule) (v : cstr) : Prop := pinned_text r v eq.

(** The rules of a list have the sizes of their arrays. *)
Definition rules_ok (rules : list NetPolicyRule) : Prop :=
  zlen rules <= NET_POLICY_MAX_RULES /\ Forall (fun r => value r <> [] /\ zlen (value r) < NET_POLICY_RULE_LEN) rules.

Lemma add_rule_ok rules v rules' : add_rule rules v = Ok rules' -> rules_ok rules ->
  rules' = rules ++ [mkRule v [] false false] /\ rules_ok rules'.
Proof.
  unfold add_rule. intros H [Hl Hv]. case_bool_in H; [done|]. case_bool_in H; [done|]. case_bool_in H; [done|].
  bool_facts. injection H as <-. split; [done|]. split.
  - rewrite zlen_app. change (zlen [mkRule v [] false false]) with 1. lia.
  - apply Forall_app. split; [done|]. by repeat constructor.
Qed.

Lemma add_fixed_rule_ok rules original ip rules' :
  add_fixed_rule rules original ip = Ok rules' -> rules_ok rules ->
  exists prefix host suffix src, destination_host original = Ok (prefix, host, suffix)
    /\ rules' = rules ++ [mkRule (fixed_text original prefix ip suffix) src false false] /\ rules_ok rules'
    /\ zlen (fixed_text original prefix ip suffix) < NET_POLICY_RULE_LEN.
Proof.
  unfold add_fixed_rule. intros H Hr. destruct (destination_host original) as [[[prefix host] suffix]|e|w]; [|done|done].
  case_bool_in H; [done|]. destruct (add_rule rules _) as [rules1|e|w] eqn:Ea; [|done|done]. injection H as <-.
  apply add_rule_ok in Ea as [-> [H1 H2]]; [|done]. bool_facts. eexists prefix, host, suffix, _.
  split; [done|]. split; [done|]. split; [|done]. split; [by rewrite zlen_app in *|].
  apply Forall_app in H2 as [H2 H3]. apply Forall_app. split; [done|]. apply Forall_cons in H3 as [H3 _]. by constructor.
Qed.

(** add_answers(): what it adds, and that every answer is there in the end. *)
Lemma add_answers_spec original prefix host suffix : forall answers rules found ok rules' found',
  destination_host original = Ok (prefix, host, suffix) -> rules_ok rules ->
  add_answers original prefix suffix answers rules found = (ok, rules', found') ->
  rules_ok rules'
  /\ (exists new, rules' = rules ++ new
       /\ Forall (fun r => is_domain r = false /\ exists f a, (f, a) ∈ answers /\ inet_family f = true
                           /\ value r = fixed_text original prefix (inet_ntop f a) suffix) new)
  /\ (ok = true -> forall f a, (f, a) ∈ answers -> inet_family f = true ->
       exists r, r ∈ rules' /\ is_domain r = false
         /\ value r = take 255 (fixed_text original prefix (inet_ntop f a) suffix)).
Proof.
  induction answers as [|[f a] answers IH]; intros rules found ok rules' found' Hd Hr H; cbn [add_answers] in H.
  { injection H as <- <- <-. split; [done|]. split; [exists []; by rewrite app_nil_r|].
    intros _ f a Hin. by apply not_elem_of_nil in Hin. }
  fold (inet_family f) in H. destruct (inet_family f) eqn:Ef; cbn [negb] in H.
  2: { destruct (IH _ _ _ _ _ Hd Hr H) as (H1 & (new & -> & H2) & H3). split; [done|]. split.
       - exists new. split; [done|]. eapply Forall_impl; [exact H2|]. intros r (Hr1 & g & b & Hin & Hr2).
         split; [done|]. exists g, b. split; [by right|done].
       - intros Hok g b [[= -> ->]|Hin]%elem_of_cons Hg; [congruence|by apply H3]. }
  destruct (existsb _ rules) eqn:Ex.
  - destruct (IH _ _ _ _ _ Hd Hr H) as (H1 & (new & -> & H2) & H3). split; [done|]. split.
    + exists new. split; [done|]. eapply Forall_impl; [exact H2|]. intros r (Hr1 & g & b & Hin & Hr2).
      split; [done|]. exists g, b. split; [by right|done].
    + intros Hok g b [[= -> ->]|Hin]%elem_of_cons Hg; [|by apply H3]. apply existsb_exists in Ex as (r & Hin & Hv).
      bool_facts. exists r. split; [|done]. apply elem_of_app. left. by apply list_elem_of_In.
  - destruct (add_fixed_rule rules original (inet_ntop f a)) as [rules1|e|w] eqn:Ea.
    2, 3: injection H as <- <- <-; split; [done|]; split; [exists []; by rewrite app_nil_r|done].
    destruct (add_fixed_rule_ok _ _ _ _ Ea Hr) as (prefix' & host' & suffix' & src & Hd' & -> & Hr1 & Hlen).
    rewrite Hd in Hd'. injection Hd' as <- <- <-.
    destruct (IH _ _ _ _ _ Hd Hr1 H) as (H1 & (new & -> & H2) & H3). split; [done|]. split.
    + eexists. rewrite <- app_assoc. split; [done|]. cbn [app]. constructor.
      * split; [done|]. exists f, a. split; [by left|done].
      * eapply Forall_impl; [exact H2|]. intros r (Hq1 & g & b & Hin & Hq2). split; [done|]. exists g, b. split; [by right|done].
    + intros Hok g b [[= -> ->]|Hin]%elem_of_cons Hg; [|by apply H3]. eexists. split.
      * apply elem_of_app. left. apply elem_of_app. right. by apply list_elem_of_singleton.
      * split; [done|]. cbn [value]. rewrite take_ge; [done|]. unfold zlen, NET_POLICY_RULE_LEN in Hlen. lia.
Qed.

(** What a resolution does to a list: rules are marked as resolved, and rules
    for answers to its domains are added. *)
Definition kept (r r' : NetPolicyRule) : Prop := r' = r \/ (is_domain r = true /\ r' = set_resolved r).
Definition resolves (rules rules' : list NetPolicyRule) : Prop :=
  exists old new, rules' = old ++ new /\ Forall2 kept rules old
    /\ Forall (fun x => is_domain x = false /\ exists r, r ∈ rules /\ is_domain r = true /\ pinned r (value x)) new.

(** The answers to a domain all have a rule. *)
Definition answered (rules : list NetPolicyRule) (r : NetPolicyRule) : Prop :=
  forall v, pinned r v -> exists x, x ∈ rules /\ is_domain x = false /\ value x = take 255 v.

Lemma kept_value r r' : kept r r' -> value r' = value r /\ is_domain r' = is_domain r.
Proof. by intros [-> | [_ ->]]. Qed.

Lemma resolves_refl rules : resolves rules rules.
Proof.
  exists rules, []. rewrite app_nil_r. split; [done|]. split; [|done]. apply Forall2_same_length_lookup_2; [done|].
  intros i x y Hx Hy. left. congruence.
Qed.

Lemma resolves_trans a b c : resolves a b -> resolves b c -> resolves a c.
Proof.
  intros (o1 & n1 & -> & H1 & N1) (o2 & n2 & -> & H2 & N2). apply Forall2_app_inv_l in H2 as (o & m & Ho & Hm & ->).
  exists o, (m ++ n2). rewrite app_assoc. split; [done|]. split.
  - apply Forall2_same_length_lookup_2; [etrans; by eapply Forall2_length|]. intros k x z Hx Hz.
    destruct (Forall2_lookup_l _ _ _ _ _ H1 Hx) as (y & Hy & Hxy).
    destruct (Forall2_lookup_l _ _ _ _ _ Ho Hy) as (z' & Hz' & Hyz). assert (z' = z) as -> by congruence.
    destruct Hxy as [-> | [Hd ->]], Hyz as [-> | [Hd' ->]]; by (left + right).
  - apply Forall_app. split.
    + clear -N1 Hm. revert N1. induction Hm as [|x y n1 m Hxy _ IH]; intros N1; [done|]. apply Forall_cons in N1 as [Hx N1].
      constructor; [|by apply IH]. apply kept_value in Hxy as [-> ->]. done.
    + eapply Forall_impl; [exact N2|]. intros x (Hx & r & Hin & Hr & Hp). split; [done|].
      apply elem_of_app in Hin as [Hin|Hin].
      * apply list_elem_of_lookup in Hin as [k Hk]. destruct (Forall2_lookup_r _ _ _ _ _ H1 Hk) as (r0 & Hr0 & Hk0).
        apply kept_value in Hk0 as [Ev Ed]. exists r0. split; [by eapply list_elem_of_lookup_2|]. split; [congruence|].
        unfold pinned, pinned_text in *. by rewrite <- Ev.
      * rewrite Forall_forall in N1. destruct (N1 r Hin) as [Hd _]. congruence.
Qed.

Lemma resolves_answered a b r : resolves a b -> answered a r -> answered b r.
Proof.
  intros (o & n & -> & H & _) Ha v Hv. destruct (Ha v Hv) as (x & Hin & Hd & Ex).
  apply list_elem_of_lookup in Hin as [k Hk]. destruct (Forall2_lookup_l _ _ _ _ _ H Hk) as (y & Hy & [Ey Edy]%kept_value).
  exists y. split; [apply elem_of_app; left; by eapply list_elem_of_lookup_2|]. by rewrite Ey, Edy.
Qed.

Lemma kept_alter rules i : (forall r, rules !! i = Some r -> is_domain r = true) ->
  Forall2 kept rules (alter set_resolved i rules).
Proof.
  intros Hd. apply Forall2_same_length_lookup_2; [by rewrite length_alter|]. intros j x y Hx Hy.
  destruct (decide (j = i)) as [->|Hne].
  - rewrite list_lookup_alter_eq, Hx in Hy. injection Hy as <-. right. by split; [apply Hd|].
  - rewrite list_lookup_alter_ne in Hy by done. left. congruence.
Qed.

Lemma rules_ok_alter rules i : rules_ok rules -> rules_ok (alter set_resolved i rules).
Proof.
  intros [H1 H2]. split; [unfold zlen in *; by rewrite length_alter|]. apply Forall_alter; [done|]. by intros x _.
Qed.

(** resolve_rule() of the rule [i]. *)
Lemma resolve_rule_spec rules i ok rules' :
  rules_ok rules -> resolve_rule rules i = (ok, rules') ->
  rules_ok rules' /\ resolves rules rules'
  /\ (forall j, j <> i -> (j < length rules)%nat -> rules' !! j = rules !! j)
  /\ (ok = true -> forall r, rules !! i = Some r -> is_domain r = true ->
       (exists r', rules' !! i = Some r' /\ resolved r' = true) /\ (resolved r = false -> answered rules' r)).
Proof.
  intros Hr H. unfold resolve_rule in H.
  assert (Hsame : rules_ok rules /\ resolves rules rules
    /\ (forall j, j <> i -> (j < length rules)%nat -> rules !! j = rules !! j)) by (split_and!; try done; apply resolves_refl).
  destruct (rules !! i) as [r|] eqn:Ei; [|by injection H as <- <-; destruct Hsame as (? & ? & ?)].
  case_bool_in H.
  { injection H as <- <-. destruct Hsame as (? & ? & ?). split_and!; try done. intros _ r0 [= <-] Hd.
    rewrite Hd in Hb. cbn in Hb. rewrite Hb. split; [by exists r|done]. }
  bool_facts. destruct (destination_host (value r)) as [[[prefix host] suffix]|e|w] eqn:Ed.
  2, 3: by injection H as <- <-; destruct Hsame as (? & ? & ?).
  case_bool_in H; [by injection H as <- <-; destruct Hsame as (? & ? & ?)|].
  destruct (getaddrinfo _) as [answers|] eqn:Eg; [|by injection H as <- <-; destruct Hsame as (? & ? & ?)].
  destruct (add_answers _ _ _ _ _ _) as [[ok1 rules1] found] eqn:Ea.
  destruct (add_answers_spec _ _ host _ _ _ _ _ _ _ Ed Hr Ea) as (Hr' & (new & -> & Hn) & Hall).
  assert (Hnew : Forall (fun x => is_domain x = false /\ exists r, r ∈ rules /\ is_domain r = true /\ pinned r (value x)) new).
  { eapply Forall_impl; [exact Hn|]. intros x (Hx & f & a & Hin & Hf & Ev). split; [done|]. exists r.
    split; [by eapply list_elem_of_lookup_2|]. split; [done|]. by exists prefix, host, suffix, answers, f, a. }
  assert (Hlt : (i < length rules)%nat) by (by eapply lookup_lt_Some).
  case_bool_in H; injection H as <- <-; [bool_facts|].
  - rewrite alter_app_l by done. split.
    { rewrite <- alter_app_l by done. by apply rules_ok_alter. }
    split; [|split].
    + exists (alter set_resolved i rules), new. split; [done|]. split; [|done]. apply kept_alter. congruence.
    + intros j Hj Hjl. rewrite lookup_app_l by (by rewrite length_alter). by rewrite list_lookup_alter_ne by done.
    + intros _ r0 [= <-] _. split.
      * exists (set_resolved r). rewrite lookup_app_l by (by rewrite length_alter). by rewrite list_lookup_alter_eq, Ei.
      * intros _. apply (resolves_answered (rules ++ new)).
        { exists (alter set_resolved i rules ++ new), []. rewrite app_nil_r. split; [done|]. split; [|done].
          rewrite <- alter_app_l by done. apply kept_alter. rewrite lookup_app_l by done. congruence. }
        intros v (p & h & s' & an & f & a & Hd' & Hg' & Hin & Hf & ->). rewrite Ed in Hd'. injection Hd' as <- <- <-.
        rewrite Eg in Hg'. injection Hg' as <-. by apply Hall.
  - split; [done|]. split; [|split; [|done]].
    + exists rules, new. split; [done|]. split; [|done]. apply Forall2_same_length_lookup_2; [done|].
      intros k x y Hx Hy. left. congruence.
    + intros j _ Hj. by rewrite lookup_app_l.
Qed.

Lemma resolve_from_spec n : forall rules i ok rules',
  rules_ok rules -> resolve_from rules i n = (ok, rules') ->
  rules_ok rules' /\ resolves rules rules'
  /\ (ok = true -> forall j r, (i <= j < i + n)%nat -> rules !! j = Some r -> is_domain r = true ->
       (exists r', rules' !! j = Some r' /\ resolved r' = true) /\ (resolved r = false -> answered rules' r)).
Proof.
  induction n as [|n IH]; intros rules i ok rules' Hr H; cbn [resolve_from] in H.
  { injection H as <- <-. split; [done|]. split; [apply resolves_refl|]. intros. lia. }
  destruct (resolve_rule rules i) as [ok1 rules1] eqn:E1.
  destruct (resolve_rule_spec _ _ _ _ Hr E1) as (Hr1 & Hv1 & Hj1 & Hi1). destruct ok1.
  2: { injection H as <- <-. by split. }
  destruct (IH _ _ _ _ Hr1 H) as (Hr2 & Hv2 & Hi2). split; [done|]. split; [by eapply resolves_trans|].
  intros Hok j r Hj Hrj Hd. destruct (decide (j = i)) as [->|Hne].
  - destruct (Hi1 eq_refl r Hrj Hd) as [(r1 & Hr1i & Hres) Ha]. split.
    + destruct Hv2 as (o & m & -> & Hk & _). destruct (Forall2_lookup_l _ _ _ _ _ Hk Hr1i) as (r2 & Hr2i & Hkr).
      exists r2. split; [by apply lookup_app_l_Some|]. by destruct Hkr as [-> | [_ ->]].
    + intros Hres'. apply (resolves_answered rules1); [done|]. by apply Ha.
  - apply (Hi2 Hok j r); [lia| |done]. rewrite Hj1; [done|lia|by eapply lookup_lt_Some].
Qed.

End Pinning.

(** ** Bounds *)

Definition policy_ok (p : StaticPolicy) : Prop :=
  rules_ok (allow p) /\ rules_ok (deny p) /\ rules_ok (allow_bind p) /\ rules_ok (deny_bind p)
  /\ zlen (binds p) <= NET_POLICY_MAX_BINDS.

Lemma remember_bind_length l : forall room pid fd port,
  (length l <= room)%nat -> (length (remember_bind l room pid fd port) <= room)%nat.
Proof.
  induction l as [|b l IH]; intros room pid fd port H; cbn [remember_bind length] in *.
  - destruct room; cbn; lia.
  - case_bool; cbn [length]; [done|]. specialize (IH (Nat.pred room) pid fd port ltac:(lia)). lia.
Qed.

Lemma remembered_remember l : forall room pid fd port, (length l < room)%nat ->
  remembered_bind (remember_bind l room pid fd port) pid fd = port.
Proof.
  induction l as [|b l IH]; intros room pid fd port H; cbn [remember_bind length] in *.
  - destruct room; [lia|]. cbn. by rewrite !Z.eqb_refl.
  - destruct ((b_pid b =? pid) && (b_fd b =? fd)) eqn:E; cbn [remembered_bind b_pid b_fd b_port].
    + by rewrite !Z.eqb_refl.
    + rewrite E. apply IH. lia.
Qed.

Section Operations.

Context {I : Inet} {Mem : Type} {TM : TraceeMemory Mem}.

(** What happens to a policy: the options of the command line, then the system
    calls of the tracees. *)
Inductive PolicyEvent :=
  | Configure (m : cstr)
  | AddDestination (v : cstr) (denied : bool)
  | AddBind (v : cstr) (denied : bool)
  | Operation (view : NetView Mem) (syscall : Sysnum).

Definition policy_step (o : option StaticPolicy) (e : PolicyEvent) : option StaticPolicy :=
  match e with
  | Configure m => snd (net_policy_configure m o)
  | AddDestination v denied => snd (net_policy_add_destination v denied o)
  | AddBind v denied => snd (net_policy_add_bind v denied o)
  | Operation view syscall => option_map (fun p => snd (check_operation view syscall p)) o
  end.

Definition some_ok (o : option StaticPolicy) : Prop := match o with None => True | Some p => policy_ok p end.

Lemma resolve_pending_ok rules ok rules' :
  resolve_pending_domains rules = (ok, rules') -> rules_ok rules -> rules_ok rules'.
Proof. intros H Hr. by destruct (resolve_from_spec _ _ _ _ _ Hr H). Qed.

Lemma rules_ok_nil : rules_ok [].
Proof. by split. Qed.

Lemma new_policy_ok : policy_ok new_policy.
Proof. split_and!; by try apply rules_ok_nil. Qed.

Lemma configure_ok m o : some_ok o -> some_ok (snd (net_policy_configure m o)).
Proof.
  intros Ho. unfold net_policy_configure. destruct (parse_mode m) as [parsed|e|w]; [|done|done]. destruct o as [p|].
  - destruct Ho as (H1 & H2 & H3 & H4 & H5). case_bool_decide; [by split_and!|].
    destruct (resolve_pending_domains (allow p)) as [ok a] eqn:Ea. apply resolve_pending_ok in Ea; [|done].
    destruct ok; cbn [negb]; [|by split_and!].
    destruct (resolve_pending_domains (deny p)) as [ok d] eqn:Ed. apply resolve_pending_ok in Ed; [|done]. by split_and!.
  - case_bool_decide; [done|]. split_and!; by try apply rules_ok_nil.
Qed.

Lemma set_destinations_ok denied l p : policy_ok p -> rules_ok l -> policy_ok (set_destinations denied l p).
Proof. intros (H1 & H2 & H3 & H4 & H5) Hl. destruct denied; by split_and!. Qed.

Lemma rules_ok_alter_domain rules i : rules_ok rules -> rules_ok (alter set_domain i rules).
Proof.
  intros [H1 H2]. split; [unfold zlen in *; by rewrite length_alter|]. apply Forall_alter; [done|]. by intros x _.
Qed.

Lemma add_destination_ok v denied o : some_ok o -> some_ok (snd (net_policy_add_destination v denied o)).
Proof.
  intros Ho. unfold net_policy_add_destination. set (p := match o with Some p => p | None => new_policy end).
  assert (Hp : policy_ok p) by (unfold p; destruct o; [done|apply new_policy_ok]). clearbody p.
  destruct (destination_host v) as [[[? host] ?]|e|w]; [|done|done].
  destruct (add_rule _ v) as [rules|e|w] eqn:Ea; [|done|done].
  assert (Hr : rules_ok (destinations denied p)) by (destruct Hp as (? & ? & _); by destruct denied).
  apply add_rule_ok in Ea as [_ Ea]; [|done]. case_bool; [|by apply set_destinations_ok].
  match goal with |- context [if ?x then (false, _) else _] => destruct x end; [by apply set_destinations_ok|].
  case_bool_decide; [by apply set_destinations_ok, rules_ok_alter_domain|].
  destruct (resolve_pending_domains _) as [ok rules'] eqn:Er. apply set_destinations_ok; [done|].
  eapply resolve_pending_ok; [exact Er|]. by apply rules_ok_alter_domain.
Qed.

Lemma add_bind_ok v denied o : some_ok o -> some_ok (snd (net_policy_add_bind v denied o)).
Proof.
  intros Ho. unfold net_policy_add_bind. destruct (parse_port v) as [port|e|w]; [|done|done].
  set (p := match o with Some p => p | None => new_policy end).
  assert (Hp : policy_ok p) by (unfold p; destruct o; [done|apply new_policy_ok]). clearbody p.
  destruct Hp as (H1 & H2 & H3 & H4 & H5). destruct (add_rule _ v) as [rules|e|w] eqn:Ea; [|by split_and!..].
  destruct denied; (apply add_rule_ok in Ea as [_ Ea]; [|done]); by split_and!.
Qed.

(** check_operation() changes nothing but the table of bound ports. *)
Lemma check_operation_binds view syscall p :
  snd (check_operation view syscall p) = p
  \/ exists pid fd port, snd (check_operation view syscall p)
       = set_binds (remember_bind (binds p) (Z.to_nat NET_POLICY_MAX_BINDS) pid fd port) p.
Proof.
  unfold check_operation. destruct (if syscall =? PR_socketcall then _ else _) as [[[[eff ptr] len]|]|e|w]; try by left.
  do 2 (case_bool; [by left|]). case_bool.
  - case_bool; [by left|]. destruct (read_sockaddr_limited _ _ _ _) as [[addr e]|?|?]; [|by left..].
    destruct (ss_family addr =? AF_UNIX); [destruct (bool_decide (u_kind e = NET_UNIX_UNNAMED)); by left|].
    destruct (is_inet addr); [|by left]. cbn [negb]. cbv zeta. destruct (syscall =? PR_socketcall).
    + destruct (sin_port addr =? 0); by left.
    + right. destruct (sin_port addr =? 0); by eexists _, _, _.
  - case_bool; [by left|]. destruct (read_sockaddr_limited _ _ _ _) as [[addr e]|?|?]; [|by left..].
    destruct (ss_family addr =? AF_UNIX); [destruct ((eff =? PR_recvfrom) || bool_decide (u_kind e = NET_UNIX_UNNAMED)); by left|].
    destruct (is_inet addr); [|by left]. cbn [negb]. destruct ((syscall =? PR_connect) && (sin_port addr =? 53)); by left.
Qed.

Lemma policy_step_ok o e : some_ok o -> some_ok (policy_step o e).
Proof.
  intros Ho. destruct e as [m|v denied|v denied|view syscall]; cbn [policy_step].
  - by apply configure_ok.
  - by apply add_destination_ok.
  - by apply add_bind_ok.
  - destruct o as [p|]; [|done]. cbn. destruct (check_operation_binds view syscall p) as [-> | (pid & fd & port & ->)]; [done|].
    destruct Ho as (H1 & H2 & H3 & H4 & H5). split_and!; try done. cbn [binds set_binds].
    unfold zlen, NET_POLICY_MAX_BINDS in *. pose proof (remember_bind_length (binds p) (Z.to_nat 256) pid fd port). lia.
Qed.

End Operations.

(** ** Addresses to compute with *)

Definition text_of_byte (b : Z) : cstr := itoa b.
Definition byte_of_text (s : cstr) : option Z :=
  match scan_number s with
  | (false, n, []) => if (0 <=? n) && (n <=? 255) && str_eqb (itoa n) s then Some n else None
  | _ => None
  end.

Definition demo_pton4 (s : cstr) : option (list Z) :=
  match strchr DOT s with
  | None => None
  | Some (w, s) =>
      match strchr DOT s with
      | None => None
      | Some (x, s) =>
          match strchr DOT s with
          | None => None
          | Some (y, z) =>
              match byte_of_text w, byte_of_text x, byte_of_text y, byte_of_text z with
              | Some w, Some x, Some y, Some z => Some [w; x; y; z]
              | _, _, _, _ => None
              end
          end
      end
  end.
Definition demo_ntop4 (a : list Z) : cstr :=
  match a with
  | [w; x; y; z] => itoa w ++ DOT :: itoa x ++ DOT :: itoa y ++ DOT :: itoa z
  | _ => []
  end.

Definition hex_digit (n : Z) : Z := if n <? 10 then 48 + n else 87 + n.
Definition hex_value (c : Z) : option Z :=
  if is_digit c then Some (c - 48) else if (97 <=? c) && (c <=? 102) then Some (c - 87) else None.

(** Groups of two bytes, in full. *)
Fixpoint demo_ntop6 (a : list Z) : cstr :=
  match a with
  | x :: y :: a =>
      [hex_digit (x / 16); hex_digit (x mod 16); hex_digit (y / 16); hex_digit (y mod 16)]
      ++ match a with [] => [] | _ => COLON :: demo_ntop6 a end
  | _ => []
  end.
Fixpoint demo_pton6 (n : nat) (s : cstr) : option (list Z) :=
  match n, s with
  | S n, a :: b :: c :: d :: s =>
      match hex_value a, hex_value b, hex_value c, hex_value d with
      | Some a, Some b, Some c, Some d =>
          let rest := match n, s with
                      | O, [] => Some []
                      | S _, x :: s => if x =? COLON then demo_pton6 n s else None
                      | _, _ => None
                      end in
          match rest with Some l => Some (16 * a + b :: 16 * c + d :: l) | None => None end
      | _, _, _, _ => None
      end
  | _, _ => None
  end.

(** A resolver that knows one name. *)
Definition demo_inet : Inet := {|
  inet_pton f s :=
    match strchr COLON s with
    | None => if f =? AF_INET then demo_pton4 s else None
    | Some _ => if f =? AF_INET6 then demo_pton6 8 s else None
    end;
  inet_ntop f a := if f =? AF_INET then demo_ntop4 a else demo_ntop6 a;
  getaddrinfo s := if str_eqb s (bs "example.com")
                   then Some [(AF_INET, [93; 184; 216; 34]); (AF_INET6, 32 :: 1 :: replicate 13 0 ++ [1])]
                   else None
|}.

Lemma byte_of_text_spec b : is_byte b -> byte_of_text (itoa b) = Some b.
Proof.
  intros Hb. unfold is_byte in Hb. unfold byte_of_text. rewrite scan_number_itoa by lia.
  rewrite str_eqb_refl, (proj2 (Z.leb_le 0 b)), (proj2 (Z.leb_le b 255)) by lia. done.
Qed.

Lemma byte_of_text_byte s b : byte_of_text s = Some b -> is_byte b.
Proof.
  unfold byte_of_text. destruct (scan_number s) as [[[] n] [|]]; try done. case_bool; [|done]. bool_facts.
  intros [= <-]. unfold is_byte. lia.
Qed.

Lemma hex_value_digit n : 0 <= n < 16 -> hex_value (hex_digit n) = Some n.
Proof.
  intros Hn. unfold hex_digit, hex_value. destruct (Z.ltb_spec n 10).
  - replace (is_digit (48 + n)) with true by (symmetry; apply is_digit_range; lia). f_equal. lia.
  - replace (is_digit (87 + n)) with false. 2: { symmetry. apply not_true_iff_false. rewrite is_digit_range. lia. }
    replace ((97 <=? 87 + n) && (87 + n <=? 102)) with true by (symmetry; apply andb_true_iff; lia). f_equal. lia.
Qed.

Lemma hex_value_range c n : hex_value c = Some n -> 0 <= n < 16.
Proof.
  unfold hex_value. destruct (is_digit c) eqn:E.
  - apply is_digit_range in E. intros [= <-]. lia.
  - case_bool; [|done]. bool_facts. intros [= <-]. lia.
Qed.

Lemma demo_pton6_bytes n : forall s a, demo_pton6 n s = Some a -> length a = (2 * n)%nat /\ Forall is_byte a.
Proof.
  induction n as [|n IH]; intros s a H; cbn [demo_pton6] in H; [done|].
  destruct s as [|w [|x [|y [|z s]]]]; try done.
  destruct (hex_value w) as [w'|] eqn:Ew; [|done]. destruct (hex_value x) as [x'|] eqn:Ex; [|done].
  destruct (hex_value y) as [y'|] eqn:Ey; [|done]. destruct (hex_value z) as [z'|] eqn:Ez; [|done].
  apply hex_value_range in Ew, Ex, Ey, Ez.
  assert (Hfin : forall l, length l = (2 * n)%nat /\ Forall is_byte l ->
    length (16 * w' + x' :: 16 * y' + z' :: l) = (2 * S n)%nat /\ Forall is_byte (16 * w' + x' :: 16 * y' + z' :: l)).
  { intros l [H1 H2]. split; [cbn; lia|]. constructor; [unfold is_byte; lia|]. by constructor; [unfold is_byte; lia|]. }
  destruct n as [|n]; destruct s as [|c s]; try done; [by injection H as <-; apply Hfin|].
  destruct (c =? COLON); [|done]. destruct (demo_pton6 (S n) s) as [l|] eqn:El; [|done].
  injection H as <-. apply Hfin. by apply (IH s).
Qed.

Lemma hex_byte x : is_byte x -> 16 * (x / 16) + x mod 16 = x /\ 0 <= x / 16 < 16 /\ 0 <= x mod 16 < 16.
Proof.
  unfold is_byte. intros H. pose proof (Z.div_mod x 16). pose proof (Z.mod_pos_bound x 16). split_and!; lia.
Qed.

Lemma demo_roundtrip6 n : forall a, length a = (2 * n)%nat -> a <> [] -> Forall is_byte a -> demo_pton6 n (demo_ntop6 a) = Some a.
Proof.
  induction n as [|n IH]; intros a Hl Hne Ha; [by destruct a|].
  destruct a as [|x [|y a]]; [done|cbn in Hl; lia|]. apply Forall_cons in Ha as [Hx Ha]. apply Forall_cons in Ha as [Hy Ha].
  destruct (hex_byte x Hx) as (Ex & Hx1 & Hx2). destruct (hex_byte y Hy) as (Ey & Hy1 & Hy2).
  cbn [demo_ntop6 demo_pton6 app]. rewrite !hex_value_digit by done. rewrite Ex, Ey. cbn [length] in Hl.
  destruct a as [|c a].
  - destruct n; [done|cbn in Hl; lia].
  - destruct n as [|n]; [cbn in Hl; lia|]. rewrite Z.eqb_refl. by rewrite IH by (done || lia).
Qed.

Lemma address_char_hex n : 0 <= n < 16 -> address_char (hex_digit n) = true /\ (hex_digit n =? COLON) = false.
Proof.
  intros Hn. unfold hex_digit, address_char. destruct (Z.ltb_spec n 10).
  - replace (is_digit (48 + n)) with true by (symmetry; apply is_digit_range; lia). split; [done|]. apply Z.eqb_neq. unfold COLON. lia.
  - replace ((97 <=? 87 + n) && (87 + n <=? 102)) with true by (symmetry; apply andb_true_iff; lia).
    rewrite orb_true_r. split; [done|]. apply Z.eqb_neq. unfold COLON. lia.
Qed.

Lemma demo_ntop6_text n : forall a, length a = (2 * n)%nat -> Forall is_byte a ->
  Forall (fun c => address_char c = true) (demo_ntop6 a) /\ (length (demo_ntop6 a) <= 5 * n)%nat.
Proof.
  induction n as [|n IH]; intros a Hl Ha; [by destruct a|].
  destruct a as [|x [|y a]]; [done|cbn in Hl; lia|]. apply Forall_cons in Ha as [Hx Ha]. apply Forall_cons in Ha as [Hy Ha].
  destruct (hex_byte x Hx) as (_ & Hx1 & Hx2). destruct (hex_byte y Hy) as (_ & Hy1 & Hy2).
  cbn [length] in Hl. destruct (IH a ltac:(lia) Ha) as [IH1 IH2].
  assert (H4 : Forall (fun c => address_char c = true)
    [hex_digit (x / 16); hex_digit (x mod 16); hex_digit (y / 16); hex_digit (y mod 16)]).
  { repeat (constructor; [by apply address_char_hex|]). done. }
  destruct a as [|c a].
  - split; [done|cbn; lia].
  - change (demo_ntop6 (x :: y :: c :: a)) with
      ([hex_digit (x / 16); hex_digit (x mod 16); hex_digit (y / 16); hex_digit (y mod 16)] ++ COLON :: demo_ntop6 (c :: a)).
    split; [apply Forall_app; split; [done|by constructor]|]. rewrite length_app. cbn [length]. lia.
Qed.

Lemma digit_address s : Forall (fun c => is_digit c = true) s -> Forall (fun c => address_char c = true) s.
Proof. intros H. eapply Forall_impl; [exact H|]. intros c Hc. unfold address_char. by rewrite Hc. Qed.

Lemma byte_text b : is_byte b ->
  Forall (fun c => address_char c = true) (itoa b) /\ without COLON (itoa b) /\ without DOT (itoa b)
  /\ (1 <= length (itoa b) <= 10)%nat.
Proof.
  unfold is_byte. intros Hb. pose proof (itoa_length b ltac:(lia)) as Hl. pose proof (itoa_nonempty b ltac:(lia)) as Hne.
  split. { rewrite itoa_digits by lia. apply digit_address, digits_digits. lia. }
  split; [apply itoa_without; [lia|done]|]. split; [apply itoa_without; [lia|done]|].
  unfold zlen in Hl. destruct (itoa b); [done|]. cbn in *. lia.
Qed.

#[export] Instance demo_inet_laws : InetLaws demo_inet.
Proof.
  split.
  - intros f s a H. cbn [inet_pton demo_inet] in H. destruct (strchr COLON s); (case_bool_in H; [|done]); bool_facts; subst f.
    + apply demo_pton6_bytes in H as [-> ?]. done.
    + unfold demo_pton4 in H. destruct (strchr DOT s) as [[w s1]|]; [|done].
      destruct (strchr DOT s1) as [[x s2]|]; [|done]. destruct (strchr DOT s2) as [[y z]|]; [|done].
      destruct (byte_of_text w) eqn:Ew; [|done]. destruct (byte_of_text x) eqn:Ex; [|done].
      destruct (byte_of_text y) eqn:Ey; [|done]. destruct (byte_of_text z) eqn:Ez; [|done].
      apply byte_of_text_byte in Ew, Ex, Ey, Ez. injection H as <-. split; [done|]. do 4 (constructor; [done|]). constructor.
  - intros f a Hl Hne Ha.
    assert (Hf : f = AF_INET \/ f = AF_INET6).
    { unfold net_family_address_size in Hl. destruct (Z.eqb_spec f AF_INET); [by left|].
      destruct (Z.eqb_spec f AF_INET6); [by right|]. by destruct a. }
    destruct Hf as [-> | ->]; cbn [inet_pton inet_ntop demo_inet].
    + change (AF_INET =? AF_INET) with true. cbv iota. destruct a as [|w [|x [|y [|z [|]]]]]; try done. clear Hl Hne.
      do 4 (apply Forall_cons in Ha as [? Ha]). cbn [demo_ntop4].
      destruct (byte_text w) as (_ & Cw & Dw & _); [done|]. destruct (byte_text x) as (_ & Cx & Dx & _); [done|].
      destruct (byte_text y) as (_ & Cy & Dy & _); [done|]. destruct (byte_text z) as (_ & Cz & Dz & _); [done|].
      rewrite strchr_none. 2: { repeat (apply without_app; split; [done|]; apply without_cons; split; [done|]). done. }
      unfold demo_pton4. rewrite !strchr_app by done. by rewrite !byte_of_text_spec by done.
    + change (AF_INET6 =? AF_INET) with false. change (AF_INET6 =? AF_INET6) with true. cbv iota.
      rewrite (demo_roundtrip6 8) by done.
      destruct a as [|x0 [|x1 [|x2 a]]]; try done. cbn [demo_ntop6 app].
      do 2 (apply Forall_cons in Ha as [? Ha]). destruct (hex_byte x0) as (_ & H1 & H2); [done|].
      destruct (hex_byte x1) as (_ & H3 & H4); [done|].
      match goal with |- context [strchr COLON (?p :: ?q :: ?r :: ?t :: COLON :: ?l)] =>
        change (p :: q :: r :: t :: COLON :: l) with ([p; q; r; t] ++ COLON :: l) end.
      rewrite strchr_app; [done|]. repeat (constructor; [by apply address_char_hex|]). constructor.
  - intros f a Hl Hne Ha.
    assert (Hf : f = AF_INET \/ f = AF_INET6).
    { unfold net_family_address_size in Hl. destruct (Z.eqb_spec f AF_INET); [by left|].
      destruct (Z.eqb_spec f AF_INET6); [by right|]. by destruct a. }
    destruct Hf as [-> | ->]; cbn [inet_ntop demo_inet].
    + change (AF_INET =? AF_INET) with true. cbv iota. destruct a as [|w [|x [|y [|z [|]]]]]; try done. clear Hl Hne.
      do 4 (apply Forall_cons in Ha as [? Ha]). cbn [demo_ntop4].
      destruct (byte_text w) as (Aw & _ & _ & Lw); [done|]. destruct (byte_text x) as (Ax & _ & _ & Lx); [done|].
      destruct (byte_text y) as (Ay & _ & _ & Ly); [done|]. destruct (byte_text z) as (Az & _ & _ & Lz); [done|].
      split. { destruct (itoa w); [cbn in Lw; lia|done]. }
      split. { unfold zlen. rewrite !length_app. cbn [length]. rewrite !length_app. cbn [length]. rewrite !length_app. cbn [length]. lia. }
      repeat (apply Forall_app; split; [done|]; constructor; [done|]). done.
    + change (AF_INET6 =? AF_INET) with false. cbv iota. destruct (demo_ntop6_text 8 a Hl Ha) as [H1 H2].
      split. { destruct a as [|x0 [|x1 a]]; done. } split; [unfold zlen; lia|done].
  - intros f g s a b H1 H2. cbn [inet_pton demo_inet] in H1, H2. destruct (strchr COLON s); (case_bool_in H1; [|done]); (case_bool_in H2; [|done]); bool_facts; congruence.
  - intros a Hl Ha. cbn [inet_ntop demo_inet]. change (AF_INET =? AF_INET) with true. cbv iota.
    destruct a as [|w [|x [|y [|z [|]]]]]; try done. do 4 (apply Forall_cons in Ha as [? Ha]). cbn [demo_ntop4].
    repeat (apply without_app; split; [by apply byte_text|]; apply without_cons; split; [done|]). by apply byte_text.
Qed.

(** ** The meaning of the text of a rule *)

Lemma destination_matches_spec {I : Inet} {IL : InetLaws I} d addr port c :
  dest_ok d -> sockaddr_ok addr -> destination_matches (show d) addr port c = means d addr port c.
Proof.
  intros Hd Haddr. unfold destination_matches, means, show. destruct (d_scheme d) as [s|] eqn:Es.
  - rewrite <- app_assoc, strstr_name. case_bool_decide as Hc.
    + pose proof (show_rest_star d Hd) as Hstar. destruct s; cbn [existsb map scheme_name].
      1, 2: cbn; rewrite ?orb_false_r; unfold str_eqb in *; rewrite <- Hstar; apply bool_decide_ext;
        split; [intros E; by injection E|by intros ->].
      all: by rewrite !str_eqb_false by (by intros [=]).
    + rewrite show_rest_matches by done. destruct s; cbn [scheme_means]; try done.
      all: cbn -[means]; by case_bool_decide.
  - cbn [app]. rewrite strstr_scheme_none by (by apply show_rest_slashes). case_bool_decide as Hc.
    + rewrite existsb_star by (intros c' s' E; by eapply show_rest_head). by apply show_rest_star.
    + by apply show_rest_matches.
Qed.

(** Rules that mean destinations, the domains apart. *)
Definition rules_mean {I : Inet} (rules : list NetPolicyRule) (ds : list Destination) : Prop :=
  map value (base.filter (fun r => is_domain r = false) rules) = map show ds /\ Forall dest_ok ds.

Lemma any_rule_means {I : Inet} {IL : InetLaws I} addr port c : sockaddr_ok addr -> forall rules ds, rules_mean rules ds ->
  any_rule_matches rules addr port c = existsb (fun d => means d addr port c) ds.
Proof.
  intros Haddr. induction rules as [|r rules IH]; intros ds [Hv Hd].
  - by destruct ds.
  - cbn [any_rule_matches existsb]. rewrite filter_cons in Hv. destruct (is_domain r) eqn:E.
    + rewrite decide_False in Hv by done. cbn [negb andb orb]. by apply IH.
    + rewrite decide_True in Hv by done. destruct ds as [|d ds]; [done|]. cbn [map] in Hv. injection Hv as Hv1 Hv2.
      apply Forall_cons in Hd as [Hd1 Hd2]. cbn [negb andb existsb]. f_equal; [|by apply IH].
      rewrite Hv1. by apply destination_matches_spec.
Qed.

(** What the policy says of a destination. *)
Definition permitted (m : NetPolicyMode) (allowed denied : list Destination) addr (c : VnpNetworkClass) : bool :=
  negb (existsb (fun d => means d addr (sin_port addr) c) denied)
  && (negb (bool_decide (m = NET_POLICY_DENY)) || existsb (fun d => means d addr (sin_port addr) c) allowed).

(** ** Properties *)

(** destination_matches() gives to the text of a rule (a class of network
    or protocol, an address or a network of any length in bits, IPv6 between
    brackets, a port) its meaning: the destination is of the class, its address
    begins with the same bits, its port is the one named. *)
Theorem destination_matches_refines {I : Inet} {IL : InetLaws I} d addr port c :
  dest_ok d -> sockaddr_ok addr -> destination_matches (show d) addr port c = means d addr port c.
Proof. apply destination_matches_spec. Qed.

(** once resolve_pending_domains() has succeeded, every domain is resolved,
    the rules are still there in their order, each rule added is for an address
    the resolver of the host answered for a domain that was not resolved, and
    every such answer has its rule: nothing a tracee sends can add a
    destination. *)
Theorem domains_pinned {I : Inet} rules rules' :
  rules_ok rules -> resolve_pending_domains rules = (true, rules') ->
  resolves rules rules'
  /\ (forall i r, rules !! i = Some r -> is_domain r = true ->
       (exists r', rules' !! i = Some r' /\ resolved r' = true) /\ (resolved r = false -> answered rules' r)).
Proof.
  intros Hr H. destruct (resolve_from_spec _ _ _ _ _ Hr H) as (_ & H1 & H2). split; [done|].
  intros i r Hi Hd. apply H2; try done. pose proof (lookup_lt_Some _ _ _ Hi). lia.
Qed.

(** whatever the options and the system calls, the policy stays within its
    arrays: at most 128 rules of each kind, of at most 255 bytes, and 256 bound
    ports. *)
Theorem policy_bounded {I : Inet} {Mem} {TM : TraceeMemory Mem} (events : list PolicyEvent) p :
  fold_left policy_step events None = Some p -> policy_ok p.
Proof.
  intros H. assert (Hok : some_ok (fold_left policy_step events None)); [|by rewrite H in Hok].
  clear H. assert (H0 : some_ok None) by done. revert H0. generalize (@None StaticPolicy).
  induction events as [|e events IH]; intros o Ho; cbn [fold_left]; [done|]. by apply IH, policy_step_ok.
Qed.

(** connect() and sendto() to an address that can be read. *)
Lemma check_operation_address {I : Inet} {IL : InetLaws I} {Mem} {TM : TraceeMemory Mem} (v : NetView Mem) syscall p
    allowed denied addr endpoint :
  syscall = PR_connect \/ syscall = PR_sendto ->
  mode p <> NET_POLICY_OFF -> rules_mean (allow p) allowed -> rules_mean (deny p) denied ->
  let ptr := peek_reg (v_regs v) CURRENT (if syscall =? PR_sendto then SYSARG_5 else SYSARG_2) in
  let length := peek_reg (v_regs v) CURRENT (if syscall =? PR_sendto then SYSARG_6 else SYSARG_3) in
  ptr <> 0 -> read_sockaddr_limited (v_mem v) (v_me v) ptr length = Ok (addr, endpoint) -> sockaddr_ok addr ->
  (syscall = PR_connect -> sin_port addr <> 53) ->
  check_operation v syscall p
  = (if permitted (mode p) allowed denied addr (vnp_classify_destination (v_vnp v) addr (sin_port addr))
     then Ok tt else Err EACCES, p).
Proof.
  intros Hs Hm Ha Hd ptr len Hptr Hread Haddr Hdns.
  assert (Hd2 : check_destination v p addr
    = if permitted (mode p) allowed denied addr (vnp_classify_destination (v_vnp v) addr (sin_port addr))
      then Ok tt else Err EACCES).
  { unfold check_destination, permitted. rewrite !(any_rule_means _ _ _ Haddr _ _ Ha), !(any_rule_means _ _ _ Haddr _ _ Hd).
    destruct (existsb _ denied); [done|]. case_bool_decide; [|done]. destruct (existsb _ allowed); cbn; [done|].
    by rewrite !andb_false_r. }
  assert (Hu : (ss_family addr =? AF_UNIX) = false).
  { destruct Haddr as (_ & _ & Hi). unfold is_inet in Hi. apply Z.eqb_neq. intros E. by rewrite E in Hi. }
  destruct Haddr as (_ & _ & Hi). unfold check_operation. rewrite bool_decide_false by done. subst ptr len.
  destruct Hs as [-> | ->]; cbn in Hptr, Hread |- *.
  - rewrite (proj2 (Z.eqb_neq _ _) Hptr), Hread, Hu, Hi. cbn. rewrite (proj2 (Z.eqb_neq _ _)) by auto. by rewrite Hd2.
  - rewrite (proj2 (Z.eqb_neq _ _) Hptr), Hread, Hu, Hi. cbn. by rewrite Hd2.
Qed.

(** C35: while the mode of the policy is not off and its rules, domains apart, are
    canonical texts of destinations (dest_ok: a class, an address or network in
    numbers or any host, a port), connect() and sendto() to an IPv4 or IPv6 address
    read from the tracee succeed exactly when the policy permits it: no denied
    destination means it and, in mode deny, an allowed one does; the policy is not
    changed.  A connect() to the port 53 is left to the emulation of DNS.  Other
    texts of rules, such as "host:*", and other families, which no rule stops, are
    not concerned. *)
Theorem check_operation_enforces {I : Inet} {IL : InetLaws I} {Mem} {TM : TraceeMemory Mem} (v : NetView Mem) syscall p
    allowed denied addr endpoint :
  syscall = PR_connect \/ syscall = PR_sendto ->
  mode p <> NET_POLICY_OFF -> rules_mean (allow p) allowed -> rules_mean (deny p) denied ->
  let ptr := peek_reg (v_regs v) CURRENT (if syscall =? PR_sendto then SYSARG_5 else SYSARG_2) in
  let length := peek_reg (v_regs v) CURRENT (if syscall =? PR_sendto then SYSARG_6 else SYSARG_3) in
  ptr <> 0 -> read_sockaddr_limited (v_mem v) (v_me v) ptr length = Ok (addr, endpoint) -> sockaddr_ok addr ->
  (syscall = PR_connect -> sin_port addr <> 53) ->
  check_operation v syscall p
  = (if permitted (mode p) allowed denied addr (vnp_classify_destination (v_vnp v) addr (sin_port addr))
     then Ok tt else Err EACCES, p).
Proof. apply check_operation_address. Qed.

(** ** What the rules do not say *)

(** A connect() to the port 53 is never refused, whatever is denied: the system
    call is executed as it is, over TCP as well. *)
Theorem dns_connect_unchecked {I : Inet} {Mem} {TM : TraceeMemory Mem} (v : NetView Mem) p addr endpoint :
  read_sockaddr_limited (v_mem v) (v_me v) (peek_reg (v_regs v) CURRENT SYSARG_2) (peek_reg (v_regs v) CURRENT SYSARG_3)
  = Ok (addr, endpoint) ->
  is_inet addr = true -> sin_port addr = 53 -> check_operation v PR_connect p = (Ok tt, p).
Proof.
  intros Hread Hi Hp. assert (Hu : (ss_family addr =? AF_UNIX) = false).
  { unfold is_inet in Hi. apply Z.eqb_neq. intros E. by rewrite E in Hi. }
  unfold check_operation. cbn. rewrite Hread, Hu, Hi, Hp. cbn. repeat case_match; done.
Qed.

(** The port "*" of a rule is the port 0. *)
Theorem port_star_is_zero {I : Inet} addr port c : c <> VNP_NET_CLASS_UNKNOWN ->
  destination_matches (bs "*:*") addr port c = (0 =? port).
Proof.
  intros Hc. unfold destination_matches. rewrite bool_decide_false by done.
  change (strstr SCHEME (bs "*:*")) with (@None (cstr * cstr)). unfold host_matches.
  change (str_eqb (bs "*:*") (bs "*")) with false. change (rule_port (bs "*:*")) with (Ok (Some 0)). cbn -[Z.eqb]. by destruct (0 =? port).
Qed.

(** A rule for an IPv4 address does not match the IPv6 address that maps it. *)
Theorem mapped_address_unmatched {I : Inet} {IL : InetLaws I} a port p addr c :
  length a = 4%nat -> Forall is_byte a -> 0 <= p <= 65535 -> sockaddr_ok addr -> ss_family addr = AF_INET6 ->
  destination_matches (show (mkDestination None (Some (AF_INET, a, None)) (Some p))) addr port c = false.
Proof.
  intros Hl Ha Hp Haddr Hf. rewrite destination_matches_spec; [| |done].
  - unfold means. cbn [d_scheme d_net d_port net_means]. rewrite Hf. case_bool_decide; [done|]. cbn. by rewrite andb_false_r.
  - split; cbn; [|done]. split_and!; [by left|done|done|done].
Qed.

(** ** Concrete inputs *)

#[local] Existing Instance demo_inet.

Definition demo_destination : Destination := mkDestination (Some EXTERNAL) (Some (AF_INET, [93; 184; 0; 0], Some 16)) (Some 443).
Definition demo_sockaddr (port : Z) : list Z := storage ([2; 0] ++ [port / 256; port mod 256] ++ [93; 184; 216; 34]).

Lemma demo_dest_ok : dest_ok demo_destination.
Proof. split; cbn; [|lia]. split; [by left|]. split; [done|]. split; [by apply is_byte_forallb|]. unfold zlen; cbn; lia. Qed.

Lemma demo_sockaddr_ok port : 0 <= port < 65536 -> sockaddr_ok (demo_sockaddr port).
Proof.
  intros Hp. pose proof (Z.mod_pos_bound port 256). assert (0 <= port / 256 < 256) by (split; [apply Z.div_pos|apply Z.div_lt_upper_bound]; lia).
  split; [done|]. split; [|done]. unfold demo_sockaddr, storage. apply Forall_resize; [unfold is_byte; lia|].
  repeat (constructor; [unfold is_byte; lia|]). constructor.
Qed.

Lemma destination_matches_refines_witness :
  (destination_matches (show demo_destination) (demo_sockaddr 443) 443 VNP_NET_CLASS_EXTERNAL
   = means demo_destination (demo_sockaddr 443) 443 VNP_NET_CLASS_EXTERNAL)
  /\ show demo_destination = bs "external://93.184.0.0/16:443"
  /\ means demo_destination (demo_sockaddr 443) 443 VNP_NET_CLASS_EXTERNAL = true
  /\ means demo_destination (demo_sockaddr 80) 80 VNP_NET_CLASS_EXTERNAL = false.
Proof.
  split; [|split_and!; vm_compute; reflexivity].
  apply destination_matches_refines; [exact demo_dest_ok|apply demo_sockaddr_ok; lia].
Defined.

Definition demo_domains : list NetPolicyRule := [mkRule (bs "10.0.0.1") [] false false; mkRule (bs "tcp://example.com:80") [] true false].
Lemma domains_pinned_witness :
  let rules := snd (resolve_pending_domains demo_domains) in
  resolves demo_domains rules /\ map value rules
  = map bs ["10.0.0.1"; "tcp://example.com:80"; "tcp://93.184.216.34:80"; "tcp://[2001:0000:0000:0000:0000:0000:0000:0001]:80"]%string.
Proof.
  intros rules. split; [|vm_compute; reflexivity].
  refine (proj1 (domains_pinned demo_domains rules _ _)); [|vm_compute; reflexivity].
  split; [vm_compute; congruence|]. repeat (constructor; [split; [vm_compute; congruence|vm_compute; reflexivity]|]). constructor.
Defined.

Definition demo_view (port : Z) : NetView DemoMemory :=
  mkNetView 0 100 (poke_reg (demo_regs false) SYSARG_2 4096) [(0%nat, 4096, demo_sockaddr port)] false [] None.
Definition demo_policy : StaticPolicy :=
  mkStatic NET_POLICY_DENY [mkRule (show demo_destination) [] false false] [] [] [] [].

Lemma check_operation_enforces_witness :
  check_operation (demo_view 443) PR_connect demo_policy = (Ok tt, demo_policy)
  /\ check_operation (demo_view 80) PR_connect demo_policy = (Err EACCES, demo_policy).
Proof.
  split.
  - refine (check_operation_enforces (demo_view 443) PR_connect demo_policy [demo_destination] []
      (demo_sockaddr 443) unnamed _ _ _ _ _ _ _ _);
      [by left|done| |done|vm_compute; congruence|vm_compute; reflexivity|apply demo_sockaddr_ok; lia|done].
    split; [vm_compute; reflexivity|constructor; [exact demo_dest_ok|constructor]].
  - refine (check_operation_enforces (demo_view 80) PR_connect demo_policy [demo_destination] []
      (demo_sockaddr 80) unnamed _ _ _ _ _ _ _ _);
      [by left|done| |done|vm_compute; congruence|vm_compute; reflexivity|apply demo_sockaddr_ok; lia|done].
    split; [vm_compute; reflexivity|constructor; [exact demo_dest_ok|constructor]].
Defined.

Definition demo_policy_events : list (PolicyEvent (Mem := DemoMemory)) :=
  [AddDestination (bs "93.184.216.34:80") false; AddDestination (bs "example.com") false; AddBind (bs "8080") true;
   Configure (bs "deny"); Operation (demo_view 80) PR_bind].

Lemma policy_bounded_witness :
  match fold_left (policy_step (I := demo_inet)) demo_policy_events None with
  | Some p => policy_ok p /\ length (allow p) = 4%nat /\ binds p = [mkBind 100 1 80]
  | None => False
  end.
Proof.
  destruct (fold_left (policy_step (I := demo_inet)) demo_policy_events None) as [p|] eqn:E; [|by vm_compute in E].
  split; [by apply (policy_bounded (I := demo_inet) demo_policy_events p)|]. vm_compute in E. injection E as <-. split; reflexivity.
Defined.
