(* ===== verification/Control.v ===== *)
(** * Control channel of the network policy (src/extension/net_policy/net_policy.c)

    A controller outside of PRoot decides on network and path accesses over a
    stream socket (the PRCT protocol): frames with a header, requests with an
    identifier, unsolicited commands that set rules, and the shadows of paths
    that the controller may reveal.  The answers of the kernel to poll(), recv()
    and send() are a list: past its end the peer has closed the channel. *)

From S2P Require Import Prelude Memory Paths Binding ProcLinks Canon Sysnum Regs Translate NetRules.

(** ** The channel *)

(** What a call returned: its result, [errno], the events of poll() and the
    bytes of recv(). *)
Record Answer := mkAnswer { a_ret : Z; a_errno : Z; a_revents : Z; a_data : list Z }.

(** The calls to come, and the bytes that went through the socket. *)
Record Channel := mkChannel { answers : list Answer; sent : list Z; received : list Z }.

Definition EINTR := 4.
Definition POLLERR := 8.
Definition POLLHUP := 16.
Definition POLLNVAL := 32.
Definition poll_broken (a : Answer) : bool :=
  negb (Z.land (a_revents a) (Z.lor POLLERR (Z.lor POLLHUP POLLNVAL)) =? 0).
Definition interrupted (a : Answer) : bool := (a_ret a <? 0) && (a_errno a =? EINTR).

(** The loop of write_full_timeout(): [ready] once poll() has said so. *)
Fixpoint write_loop (l : list Answer) (ready : bool) (data out : list Z) : bool * list Answer * list Z :=
  match data with
  | [] => (true, l, out)
  | _ =>
      match l with
      | [] => (false, [], out)
      | a :: l =>
          if negb ready then
            if interrupted a then write_loop l false data out
            else if (a_ret a <=? 0) || poll_broken a then (false, l, out)
            else write_loop l true data out
          else if interrupted a then write_loop l false data out
          else if a_ret a <=? 0 then (false, l, out)
          else let n := Z.to_nat (a_ret a) in write_loop l false (drop n data) (out ++ take n data)
      end
  end.

(** write_full_timeout() *)
Definition write_full_timeout (ch : Channel) (data : list Z) : Channel * bool :=
  let '(ok, l, out) := write_loop (answers ch) false data (sent ch) in (mkChannel l out (received ch), ok).

(** The loop of read_full_timeout_ms(), [size] bytes being left to read. *)
Fixpoint read_loop (l : list Answer) (ready : bool) (size : nat) (data : list Z) : bool * list Answer * list Z :=
  match size with
  | O => (true, l, data)
  | _ =>
      match l with
      | [] => (false, [], data)
      | a :: l =>
          if negb ready then
            if interrupted a then read_loop l false size data
            else if (a_ret a <=? 0) || poll_broken a then (false, l, data)
            else read_loop l true size data
          else if interrupted a then read_loop l false size data
          else if a_ret a <=? 0 then (false, l, data)
          else let n := Nat.min (Z.to_nat (a_ret a)) size in
               read_loop l false (size - n) (data ++ resize n 0 (a_data a))
      end
  end.

(** read_full_timeout_ms(): the bytes read, if all of them were. *)
Definition read_full_timeout_ms (ch : Channel) (size : nat) : Channel * option (list Z) :=
  let '(ok, l, data) := read_loop (answers ch) false size [] in
  (mkChannel l (sent ch) (received ch ++ data), if ok then Some data else None).

(** ** Frames *)

Definition CONTROL_MAGIC := 0x50524354.
Definition CONTROL_VERSION := 1.
Definition CONTROL_MAX_FRAME := 4096.
Definition CONTROL_PATH_LEN := 1024%nat.

Definition CONTROL_HELLO := 1.
Definition CONTROL_NET_ACCESS_REQUEST := 2.
Definition CONTROL_PATH_ACCESS_REQUEST := 3.
Definition CONTROL_SHADOW_EVENT := 4.
Definition CONTROL_COMMAND_RESULT := 5.
Definition CONTROL_ALLOW_ONCE := 16.
Definition CONTROL_ALLOW_ALWAYS := 17.
Definition CONTROL_DENY_ONCE := 18.
Definition CONTROL_DENY_ALWAYS := 19.
Definition CONTROL_FORGET := 20.
Definition CONTROL_SET_RULE := 21.
Definition CONTROL_REVEAL_SHADOW := 22.
Definition CONTROL_RESTORE_SHADOW := 23.
Definition CONTROL_GET_STATE := 24.

Definition CONTROL_NET_BIND := 1.
Definition CONTROL_NET_CONNECT := 2.
Definition CONTROL_NET_PUBLICATION := 3.
Definition CONTROL_NET_DNS := 4.
Definition CONTROL_NET_SOCKET := 5.

Definition CONTROL_SHADOW_NODE := 1.
Definition CONTROL_SHADOW_RECURSIVE := 2.

Definition NET_DECISION_DENY := 0.
Definition NET_DECISION_ALLOW := 1.

(** The layouts are packed and little-endian. *)
Record ControlHeader := mkHeader { h_magic : Z; h_version : Z; h_type : Z; h_size : Z; h_request_id : Z }.
Definition sizeof_ControlHeader := 20%nat.
Definition encode_header (h : ControlHeader) : list Z :=
  to_le 4 (h_magic h) ++ to_le 2 (h_version h) ++ to_le 2 (h_type h) ++ to_le 4 (h_size h) ++ to_le 8 (h_request_id h).
Definition decode_header (b : list Z) : ControlHeader :=
  mkHeader (of_le (slice 0 4 b)) (of_le (slice 4 2 b)) (of_le (slice 6 2 b)) (of_le (slice 8 4 b)) (of_le (slice 12 8 b)).
Definition control_header (type size id : Z) : ControlHeader := mkHeader CONTROL_MAGIC CONTROL_VERSION type size id.

(** A string in an array of bytes. *)
Definition text_of (b : list Z) : cstr := fst (span (fun c => negb (c =? 0)) b).

Record ControlNetCommand := mkNetCommand { nc_operation : Z; nc_family : Z; nc_port : Z; nc_address : list Z; nc_decision : Z }.
Definition sizeof_ControlNetCommand := 28.
Definition decode_net_command (b : list Z) : ControlNetCommand :=
  mkNetCommand (of_le (slice 0 4 b)) (of_le (slice 4 2 b)) (of_le (slice 6 2 b)) (slice 8 16 b) (chr b 24).

Record ControlPathCommand := mkPathCommand { pc_operation : Z; pc_scope : Z; pc_decision : Z; pc_path : list Z; pc_other : list Z }.
Definition sizeof_ControlPathCommand := 2060.
Definition decode_path_command (b : list Z) : ControlPathCommand :=
  mkPathCommand (of_le (slice 0 4 b)) (of_le (slice 4 4 b)) (of_le (slice 8 4 b))
    (slice 12 CONTROL_PATH_LEN b) (slice 1036 CONTROL_PATH_LEN b).

(** The field [decision] of a ControlDecision, the only one that is read. *)
Definition sizeof_ControlDecision := 98.
Definition decision_of (b : list Z) : Z := chr b 0.

(** A ControlNetRequest. *)
Record ControlNetRequest := mkNetRequest {
  rq_operation : Z; rq_guest_pid : Z; rq_host_pid : Z; rq_family : Z; rq_protocol : Z; rq_guest_port : Z;
  rq_host_port : Z; rq_address : list Z; rq_class : Z; rq_exposure : Z; rq_proxy : list Z; rq_domain : list Z
}.
Definition sizeof_ControlNetRequest := 230.
Definition encode_net_request (r : ControlNetRequest) : list Z :=
  to_le 4 (rq_operation r) ++ to_le 4 (wrap32 (rq_guest_pid r)) ++ to_le 4 (wrap32 (rq_host_pid r))
  ++ to_le 2 (rq_family r) ++ to_le 2 (rq_protocol r) ++ to_le 2 (rq_guest_port r) ++ to_le 2 (rq_host_port r)
  ++ rq_address r ++ [rq_class r; rq_exposure r] ++ rq_proxy r ++ rq_domain r.

(** A ControlPathRequest. *)
Definition sizeof_ControlPathRequest := 2056.
Definition path_field (p : cstr) : list Z := resize CONTROL_PATH_LEN 0 (take (CONTROL_PATH_LEN - 1) p).
Definition encode_path_request (operation reason : Z) (p other : cstr) : list Z :=
  to_le 4 operation ++ to_le 4 reason ++ path_field p ++ path_field other.

Definition sizeof_ControlCommandResult := 20.
Definition encode_result (status path_rules net_rules shadows : Z) : list Z :=
  to_le 4 (wrap32 status) ++ to_le 4 0 ++ to_le 4 path_rules ++ to_le 4 net_rules ++ to_le 4 shadows.

(** control_type_is_command(), control_type_is_decision(), control_decision_valid() *)
Definition control_type_is_command (type : Z) : bool := (CONTROL_ALLOW_ONCE <=? type) && (type <=? CONTROL_GET_STATE).
Definition control_type_is_decision (type : Z) : bool :=
  (type =? CONTROL_ALLOW_ONCE) || (type =? CONTROL_ALLOW_ALWAYS) || (type =? CONTROL_DENY_ONCE)
  || (type =? CONTROL_DENY_ALWAYS).
Definition type_allows (type : Z) : bool := (type =? CONTROL_ALLOW_ONCE) || (type =? CONTROL_ALLOW_ALWAYS).
Definition type_always (type : Z) : bool := (type =? CONTROL_ALLOW_ALWAYS) || (type =? CONTROL_DENY_ALWAYS).
Definition control_decision_valid (h : ControlHeader) (payload : list Z) : bool :=
  if negb (control_type_is_decision (h_type h)) || negb (h_size h =? sizeof_ControlDecision) then false
  else decision_of payload =? (if type_allows (h_type h) then NET_DECISION_ALLOW else NET_DECISION_DENY).

(** ** The state *)

Record ControlNetRule := mkNetRule {
  nr_operation : Z; nr_family : Z; nr_port : Z; nr_address : list Z; nr_decision : Z; nr_persistent : bool; nr_active : bool
}.
Record ControlPathRule := mkPathRule {
  pr_path : cstr; pr_other : cstr; pr_operation : Z; pr_decision : Z; pr_persistent : bool; pr_active : bool
}.
Record ControlShadow := mkShadow { sh_path : cstr; sh_recursive : bool; sh_revealed : bool }.

(** What memset() leaves of a rule. *)
Definition no_net_rule : ControlNetRule := mkNetRule 0 0 0 (replicate 16 0) 0 false false.
Definition no_path_rule : ControlPathRule := mkPathRule [] [] 0 0 false false.

Definition MAX_DYNAMIC_RULES := 64%nat.
Definition MAX_PATH_RULES := 128%nat.
Definition MAX_SHADOWS := 128%nat.

(** NetPolicyConfig, the tables of DNS apart; an array with its count is a list,
    the slots that are free included. *)
Record NetPolicyConfig := mkConfig {
  static : StaticPolicy;
  ask_fd : Z;
  ask_failed : bool;
  control_ready : bool;
  next_request_id : Z;
  proxy : cstr;
  dynamic_rules : list ControlNetRule;
  path_rules : list ControlPathRule;
  path_peer : option cstr;
  path_operation_override : option NetControlPathOperation;
  shadows : list ControlShadow;
  channel : Channel
}.

Definition set_static x c := mkConfig x (ask_fd c) (ask_failed c) (control_ready c) (next_request_id c) (proxy c)
  (dynamic_rules c) (path_rules c) (path_peer c) (path_operation_override c) (shadows c) (channel c).
Definition set_failed c := mkConfig (static c) (ask_fd c) true (control_ready c) (next_request_id c) (proxy c)
  (dynamic_rules c) (path_rules c) (path_peer c) (path_operation_override c) (shadows c) (channel c).
Definition set_request_id x c := mkConfig (static c) (ask_fd c) (ask_failed c) (control_ready c) x (proxy c)
  (dynamic_rules c) (path_rules c) (path_peer c) (path_operation_override c) (shadows c) (channel c).
Definition set_proxy x c := mkConfig (static c) (ask_fd c) (ask_failed c) (control_ready c) (next_request_id c) x
  (dynamic_rules c) (path_rules c) (path_peer c) (path_operation_override c) (shadows c) (channel c).
Definition set_dynamic_rules x c := mkConfig (static c) (ask_fd c) (ask_failed c) (control_ready c) (next_request_id c)
  (proxy c) x (path_rules c) (path_peer c) (path_operation_override c) (shadows c) (channel c).
Definition set_path_rules x c := mkConfig (static c) (ask_fd c) (ask_failed c) (control_ready c) (next_request_id c)
  (proxy c) (dynamic_rules c) x (path_peer c) (path_operation_override c) (shadows c) (channel c).
Definition set_peer x o c := mkConfig (static c) (ask_fd c) (ask_failed c) (control_ready c) (next_request_id c)
  (proxy c) (dynamic_rules c) (path_rules c) x o (shadows c) (channel c).
Definition set_shadows x c := mkConfig (static c) (ask_fd c) (ask_failed c) (control_ready c) (next_request_id c)
  (proxy c) (dynamic_rules c) (path_rules c) (path_peer c) (path_operation_override c) x (channel c).
Definition set_channel x c := mkConfig (static c) (ask_fd c) (ask_failed c) (control_ready c) (next_request_id c)
  (proxy c) (dynamic_rules c) (path_rules c) (path_peer c) (path_operation_override c) (shadows c) x.

(** A controller is connected. *)
Definition connected (c : NetPolicyConfig) : bool := (0 <=? ask_fd c) && control_ready c.

(** write_full_timeout() and read_full_timeout_ms() on the channel. *)
Definition send_frame (c : NetPolicyConfig) (h : ControlHeader) (payload : list Z) : NetPolicyConfig * bool :=
  let '(ch, ok) := write_full_timeout (channel c) (encode_header h) in
  if negb ok then (set_channel ch c, false)
  else let '(ch, ok) := write_full_timeout ch payload in (set_channel ch c, ok).

(** A frame with a header that is not accepted is a failure. *)
Definition read_frame (c : NetPolicyConfig) : NetPolicyConfig * option (ControlHeader * list Z) :=
  match read_full_timeout_ms (channel c) sizeof_ControlHeader with
  | (ch, None) => (set_channel ch c, None)
  | (ch, Some bytes) =>
      let h := decode_header bytes in
      if negb (h_magic h =? CONTROL_MAGIC) || negb (h_version h =? CONTROL_VERSION) || (CONTROL_MAX_FRAME <? h_size h)
      then (set_channel ch c, None)
      else match read_full_timeout_ms ch (Z.to_nat (h_size h)) with
           | (ch, None) => (set_channel ch c, None)
           | (ch, Some payload) => (set_channel ch c, Some (h, payload))
           end
  end.

(** ** Tables of rules *)

(** The first rule of a list that matches, and the list without it when it is
    not persistent. *)
Fixpoint use_rule {A} (matches persistent : A -> bool) (blank : A) (l : list A) : option (A * list A) :=
  match l with
  | [] => None
  | r :: l =>
      if matches r then Some (r, if persistent r then r :: l else blank :: l)
      else match use_rule matches persistent blank l with Some (x, l) => Some (x, r :: l) | None => None end
  end.

(** The slot for a new rule: the first one that is free, in a table of [room]. *)
Fixpoint put_rule {A} (active : A -> bool) (room : nat) (blank : A) (fill : A -> A) (l : list A) : option (list A) :=
  match room, l with
  | O, _ => None
  | S _, [] => Some [fill blank]
  | S room, r :: l =>
      if active r then match put_rule active room blank fill l with Some l => Some (r :: l) | None => None end
      else Some (fill r :: l)
  end.

(** The first rule that matches is cleared. *)
Fixpoint clear_rule {A} (matches : A -> bool) (blank : A) (l : list A) : list A :=
  match l with
  | [] => []
  | r :: l => if matches r then blank :: l else r :: clear_rule matches blank l
  end.

(** memcpy() at the beginning of an array. *)
Definition overlay (n : nat) (data array : list Z) : list Z := take n data ++ drop n array.

(** The comparison of the rules with an access. *)
Definition net_rule_matches (operation family port : Z) (address : list Z) (r : ControlNetRule) : bool :=
  nr_active r && (nr_operation r =? operation) && (nr_family r =? family) && (nr_port r =? port)
  && bool_decide (take (net_family_address_size family) (nr_address r) = take (net_family_address_size family) address).
Definition path_rule_matches (operation : Z) (p other : cstr) (r : ControlPathRule) : bool :=
  pr_active r && (pr_operation r =? operation) && str_eqb (pr_path r) p && str_eqb (pr_other r) other.

(** control_remove_path_rule() *)
Definition control_remove_path_rule (operation : Z) (p other : cstr) (c : NetPolicyConfig) : NetPolicyConfig :=
  set_path_rules (clear_rule (path_rule_matches operation p other) no_path_rule (path_rules c)) c.

(** net_operation_family_valid() *)
Definition net_operation_family_valid (operation family : Z) : bool :=
  if operation =? CONTROL_NET_SOCKET then negb (family =? AF_UNSPEC)
  else if operation =? CONTROL_NET_PUBLICATION then family =? AF_UNSPEC
  else ((operation =? CONTROL_NET_BIND) || (operation =? CONTROL_NET_CONNECT))
       && ((family =? AF_INET) || (family =? AF_INET6) || (family =? AF_UNIX)).

(** A new rule of the network in a slot. *)
Definition fill_net_rule (operation family port : Z) (address : list Z) (decision : Z) (persistent : bool)
    (r : ControlNetRule) : ControlNetRule :=
  mkNetRule operation family port (overlay (net_family_address_size family) address (nr_address r)) decision persistent true.

Definition put_net_rule (operation family port : Z) (address : list Z) (decision : Z) (persistent : bool)
    (c : NetPolicyConfig) : option NetPolicyConfig :=
  option_map (fun l => set_dynamic_rules l c)
    (put_rule nr_active MAX_DYNAMIC_RULES no_net_rule (fill_net_rule operation family port address decision persistent)
       (dynamic_rules c)).

(** control_net_command() *)
Definition control_net_command (c : NetPolicyConfig) (type : Z) (payload : list Z) : res NetPolicyConfig :=
  let command := decode_net_command payload in
  let operation := nc_operation command in
  if negb (zlen payload =? sizeof_ControlNetCommand)
     || (negb (operation =? CONTROL_NET_SOCKET) && negb (operation =? CONTROL_NET_BIND)
         && negb (operation =? CONTROL_NET_CONNECT) && negb (operation =? CONTROL_NET_PUBLICATION))
     || negb (net_operation_family_valid operation (nc_family command))
     || (negb (nc_decision command =? NET_DECISION_ALLOW) && negb (nc_decision command =? NET_DECISION_DENY))
  then Err EINVAL
  else if type =? CONTROL_FORGET then
    Ok (set_dynamic_rules
          (clear_rule (net_rule_matches operation (nc_family command) (nc_port command) (nc_address command))
             no_net_rule (dynamic_rules c)) c)
  else
    match put_net_rule operation (nc_family command) (nc_port command) (nc_address command) (nc_decision command)
            (type_always type) c with
    | Some c => Ok c
    | None => Err ENOSPC
    end.

Definition fill_path_rule (operation : Z) (p other : cstr) (decision : Z) (persistent : bool) (r : ControlPathRule)
  : ControlPathRule :=
  mkPathRule (take (CONTROL_PATH_LEN - 1) p) (take (CONTROL_PATH_LEN - 1) other) operation decision persistent true.

Definition put_path_rule (operation : Z) (p other : cstr) (decision : Z) (persistent : bool) (c : NetPolicyConfig)
  : option NetPolicyConfig :=
  option_map (fun l => set_path_rules l c)
    (put_rule pr_active MAX_PATH_RULES no_path_rule (fill_path_rule operation p other decision persistent) (path_rules c)).

(** The shadows of a path, revealed or restored. *)
Definition reveal (p : cstr) (revealed recursive : bool) (c : NetPolicyConfig) : NetPolicyConfig :=
  set_shadows (map (fun s => if str_eqb (sh_path s) p then mkShadow (sh_path s) recursive revealed else s) (shadows c)) c.

(** control_apply_command() *)
Definition control_apply_command (c : NetPolicyConfig) (type : Z) (payload : list Z) : res NetPolicyConfig :=
  let size := zlen payload in
  if negb (control_type_is_command type) then Err EINVAL
  else if (type =? CONTROL_GET_STATE) && (size =? 0) then Ok c
  else if ((type =? CONTROL_SET_RULE) || (type =? CONTROL_FORGET) || control_type_is_decision type)
          && (size =? sizeof_ControlNetCommand) then control_net_command c type payload
  else if negb (size =? sizeof_ControlPathCommand) then Err EINVAL
  else
    let command := decode_path_command payload in
    let operation := pc_operation command in
    let p := text_of (pc_path command) in
    let other := text_of (pc_other command) in
    let is_shadow := (type =? CONTROL_REVEAL_SHADOW) || (type =? CONTROL_RESTORE_SHADOW) in
    if negb (chr (pc_path command) 1023 =? 0) || negb (chr (pc_other command) 1023 =? 0) then Err EINVAL
    else if (operation <? 1) || (6 <? operation) then Err EINVAL
    else if is_shadow && negb (pc_scope command =? CONTROL_SHADOW_NODE) && negb (pc_scope command =? CONTROL_SHADOW_RECURSIVE)
    then Err EINVAL
    else if type =? CONTROL_FORGET then Ok (control_remove_path_rule operation p other c)
    else if is_shadow then
      Ok (if type =? CONTROL_RESTORE_SHADOW then reveal p false false c
          else reveal p true (pc_scope command =? CONTROL_SHADOW_RECURSIVE) c)
    else if type =? CONTROL_GET_STATE then Ok c
    else if control_type_is_decision type || (type =? CONTROL_SET_RULE) then
      if (type =? CONTROL_SET_RULE) && negb (pc_decision command =? NET_DECISION_ALLOW)
         && negb (pc_decision command =? NET_DECISION_DENY) then Err EINVAL
      else
        let decision := if type =? CONTROL_SET_RULE then pc_decision command else if type_allows type then 1 else 0 in
        match put_path_rule operation p other decision (type_always type || (type =? CONTROL_SET_RULE)) c with
        | Some c => Ok c
        | None => Err ENOSPC
        end
    else Err EINVAL.

(** control_send_result() *)
Definition control_send_result (c : NetPolicyConfig) (id status : Z) : NetPolicyConfig * bool :=
  send_frame c (control_header CONTROL_COMMAND_RESULT sizeof_ControlCommandResult id)
    (encode_result status (zlen (path_rules c)) (zlen (dynamic_rules c)) (zlen (shadows c))).

(** What control_drain_commands() does of a frame. *)
Definition run_command (c : NetPolicyConfig) (h : ControlHeader) (payload : list Z) : NetPolicyConfig * bool :=
  match control_apply_command c (h_type h) payload with
  | Ok c => control_send_result c (h_request_id h) 0
  | _ => (c, false)
  end.

(** control_drain_commands(): whether it succeeds.  A type of command is one of
    those of the second test of the source. *)
Definition control_drain_commands (c : NetPolicyConfig) : NetPolicyConfig * bool :=
  if negb (connected c) || ask_failed c then (c, negb (ask_failed c))
  else
    match answers (channel c) with
    | [] => (set_failed c, false)
    | a :: l =>
        let c := set_channel (mkChannel l (sent (channel c)) (received (channel c))) c in
        if a_ret a <=? 0 then (c, negb ((a_ret a <? 0) && negb (a_errno a =? EINTR)))
        else if poll_broken a then (set_failed c, false)
        else
          match read_frame c with
          | (c, None) => (set_failed c, false)
          | (c, Some (h, payload)) =>
              if negb (control_type_is_command (h_type h)) then (set_failed c, false)
              else match run_command c h payload with
                   | (c, true) => (c, true)
                   | (c, false) => (set_failed c, false)
                   end
          end
    end.

(** The loop of ask_harness() and control_path_access(): the type and decision
    of the answer to the request [id]; [None] is a failure of the protocol. *)
Fixpoint await_decision (unsolicited : nat) (id : Z) (c : NetPolicyConfig) : NetPolicyConfig * option (Z * Z) :=
  match unsolicited with
  | O => (c, None)
  | S unsolicited =>
      match read_frame c with
      | (c, None) => (c, None)
      | (c, Some (h, payload)) =>
          if control_type_is_command (h_type h) && negb (h_request_id h =? id) then
            match run_command c h payload with
            | (c, true) => await_decision unsolicited id c
            | (c, false) => (c, None)
            end
          else if negb (h_request_id h =? id) || negb (h_size h =? sizeof_ControlDecision)
                  || negb (control_type_is_decision (h_type h)) then (c, None)
          else if negb (control_decision_valid h payload) then (c, None)
          else (c, Some (h_type h, decision_of payload))
      end
  end.

(** ** Requests *)

Definition class_code (k : VnpNetworkClass) : Z :=
  match k with
  | VNP_NET_CLASS_UNKNOWN => 0 | VNP_NET_CLASS_VIRTUAL => 1 | VNP_NET_CLASS_EXTERNAL => 2 | VNP_NET_CLASS_BRIDGE => 3
  end.
Definition kind_code (k : UnixKind) : Z :=
  match k with NET_UNIX_UNNAMED => 0 | NET_UNIX_PATHNAME => 1 | NET_UNIX_ABSTRACT => 2 end.

(** The address of a socket address that is compared and sent. *)
Definition ip_of (addr : list Z) : list Z :=
  if ss_family addr =? AF_INET then sin_addr addr
  else if ss_family addr =? AF_INET6 then sin6_addr addr else addr.

(** What a request of the network is about. *)
Record NetAccess := mkNetAccess {
  na_event : Z; na_addr : option (list Z); na_endpoint : option NetUnixEndpoint; na_guest_port : Z; na_host_port : Z;
  na_protocol : Z; na_exposure : Z; na_class : VnpNetworkClass; na_guest_pid : Z; na_host_pid : Z
}.

(** The request sent for an access; an endpoint longer than the field is an
    error. *)
Definition net_request (a : NetAccess) (proxy_name : cstr) : option ControlNetRequest :=
  let make family address domain :=
    mkNetRequest (na_event a) (na_guest_pid a) (na_host_pid a) family (na_protocol a) (na_guest_port a) (na_host_port a)
      (resize 16 0 address) (class_code (na_class a)) (na_exposure a) (resize 64 0 proxy_name) (resize 128 0 domain) in
  match na_addr a with
  | None => Some (make 0 [] [])
  | Some addr =>
      if (ss_family addr =? AF_INET) || (ss_family addr =? AF_INET6) then Some (make (ss_family addr) (ip_of addr) [])
      else
        match na_endpoint a with
        | Some e =>
            if negb (ss_family addr =? AF_UNIX) then Some (make (ss_family addr) [] [])
            else if 128 <? zlen (u_name e) then None
            else Some (make (ss_family addr) [kind_code (u_kind e); wrap 8 (zlen (u_name e))] (u_name e))
        | None => Some (make (ss_family addr) [] [])
        end
  end.

Definition rule_of_access (a : NetAccess) (r : ControlNetRule) : bool :=
  match na_addr a with
  | None => false
  | Some addr => net_rule_matches (na_event a) (ss_family addr) (na_guest_port a) (ip_of addr) r
  end.

(** The rule that an answer for ever leaves; [None] when there is no room. *)
Definition remember_answer (a : NetAccess) (type : Z) (c : NetPolicyConfig) : option NetPolicyConfig :=
  match na_addr a with
  | Some addr =>
      if type_always type && ((ss_family addr =? AF_INET) || (ss_family addr =? AF_INET6))
      then put_net_rule (na_event a) (ss_family addr) (na_guest_port a) (ip_of addr)
             (if type =? CONTROL_ALLOW_ALWAYS then NET_DECISION_ALLOW else NET_DECISION_DENY) true c
      else Some c
  | None => Some c
  end.

Definition decided (decision : Z) : res unit := if decision =? NET_DECISION_ALLOW then Ok tt else Err EACCES.

(** The frames a request waits for. *)
Definition MAX_UNSOLICITED := 32%nat.

(** ask_harness() *)
Definition ask_harness (a : NetAccess) (c : NetPolicyConfig) : NetPolicyConfig * res unit :=
  if negb (connected c) then (c, Ok tt)
  else if ask_failed c then (c, Err EACCES)
  else
    match use_rule (rule_of_access a) nr_persistent no_net_rule (dynamic_rules c) with
    | Some (r, rules) => (set_dynamic_rules rules c, decided (nr_decision r))
    | None =>
        let id := wrap64 (next_request_id c + 1) in
        let c := set_request_id id c in
        match net_request a (proxy c) with
        | None => (c, Err EINVAL)
        | Some request =>
            match send_frame c (control_header CONTROL_NET_ACCESS_REQUEST sizeof_ControlNetRequest id)
                    (encode_net_request request) with
            | (c, false) => (set_failed c, Err EACCES)
            | (c, true) =>
                match await_decision MAX_UNSOLICITED id c with
                | (c, None) => (set_failed c, Err EACCES)
                | (c, Some (type, decision)) =>
                    match remember_answer a type c with
                    | None => (set_failed c, Err EACCES)
                    | Some c => (c, decided decision)
                    end
                end
            end
        end
    end.

(** ** Paths *)

Definition op_code (o : NetControlPathOperation) : Z :=
  match o with
  | NET_CONTROL_PATH_READ => 1 | NET_CONTROL_PATH_WRITE => 2 | NET_CONTROL_PATH_CREATE => 3
  | NET_CONTROL_PATH_DELETE => 4 | NET_CONTROL_PATH_RENAME => 5 | NET_CONTROL_PATH_METADATA => 6
  end.
Definition reason_code (r : NetControlPathReason) : Z :=
  match r with
  | NET_CONTROL_REASON_STATIC_RO => 1 | NET_CONTROL_REASON_MASKED_SHADOW => 2
  | NET_CONTROL_REASON_HIDDEN_SHADOW => 3 | NET_CONTROL_REASON_STATIC_POLICY => 4
  end.

(** The path command that control_path_access() makes of an answer for ever. *)
Definition encode_path_command (operation scope decision : Z) (p other : cstr) : list Z :=
  to_le 4 operation ++ to_le 4 scope ++ to_le 4 decision ++ path_field p ++ path_field other.

Definition controlled_path (p : cstr) : bool := absolute p && (zlen p <? Z.of_nat CONTROL_PATH_LEN).

(** control_path_access() *)
Definition control_path_access (p : cstr) (other : option cstr) (operation : NetControlPathOperation)
    (reason : NetControlPathReason) (c : NetPolicyConfig) : NetPolicyConfig * res unit :=
  let other_text := match other with Some o => o | None => [] end in
  if negb (controlled_path p) || match other with Some o => negb (controlled_path o) | None => false end
  then (c, Err EACCES)
  else
    match control_drain_commands c with
    | (c, false) => (c, Err EACCES)
    | (c, true) =>
        match use_rule (path_rule_matches (op_code operation) p other_text) pr_persistent no_path_rule (path_rules c) with
        | Some (r, rules) => (set_path_rules rules c, if pr_decision r =? 0 then Err EACCES else Ok tt)
        | None =>
            if negb (connected c) then (c, Err EACCES)
            else
              let id := wrap64 (next_request_id c + 1) in
              let c := set_request_id id c in
              match send_frame c (control_header CONTROL_PATH_ACCESS_REQUEST sizeof_ControlPathRequest id)
                      (encode_path_request (op_code operation) (reason_code reason) p other_text) with
              | (c, false) => (set_failed c, Err EACCES)
              | (c, true) =>
                  match await_decision MAX_UNSOLICITED id c with
                  | (c, None) => (set_failed c, Err EACCES)
                  | (c, Some (type, decision)) =>
                      let c :=
                        if type_always type then
                          match control_apply_command c type (encode_path_command (op_code operation) 0 0 p other_text) with
                          | Ok c => c
                          | _ => c
                          end
                        else c in
                      (c, decided decision)
                  end
              end
        end
    end.

(** control_shadow_event(): whether it succeeds. *)
Definition control_shadow_event (p : cstr) (operation : NetControlPathOperation) (c : NetPolicyConfig)
  : NetPolicyConfig * bool :=
  if negb (connected c) then (c, true)
  else
    let id := wrap64 (next_request_id c + 1) in
    match send_frame (set_request_id id c) (control_header CONTROL_SHADOW_EVENT sizeof_ControlPathRequest id)
            (encode_path_request (op_code operation) (reason_code NET_CONTROL_REASON_HIDDEN_SHADOW) p []) with
    | (c, true) => (c, true)
    | (c, false) => (set_failed c, false)
    end.

(** control_path_is_under() *)
Definition control_path_is_under (p base : cstr) : bool :=
  str_eqb p base || (starts_with base p && (chr p (length base) =? SLASH)).

(** What a system call does to a path that may be hidden. *)
Definition shadow_operation (sysnum : Sysnum) (arg2 arg3 : Z) (default : NetControlPathOperation)
  : NetControlPathOperation :=
  if sysnum_in sysnum [PR_open; PR_openat] then
    let flags := if sysnum =? PR_open then arg2 else arg3 in
    if negb (Z.land flags O_CREAT =? 0) then NET_CONTROL_PATH_CREATE
    else if negb (Z.land flags (Z.lor (Z.lor O_WRONLY O_RDWR) O_TRUNC) =? 0) then NET_CONTROL_PATH_WRITE
    else NET_CONTROL_PATH_READ
  else if sysnum_in sysnum [PR_creat; PR_mkdir; PR_mkdirat; PR_symlink; PR_symlinkat; PR_link; PR_linkat; PR_mknod; PR_mknodat]
  then NET_CONTROL_PATH_CREATE
  else if sysnum_in sysnum [PR_unlink; PR_unlinkat; PR_rmdir] then NET_CONTROL_PATH_DELETE
  else if sysnum_in sysnum [PR_rename; PR_renameat; PR_renameat2] then NET_CONTROL_PATH_RENAME
  else if sysnum_in sysnum [PR_chmod; PR_fchmod; PR_fchmodat; PR_chown; PR_chown32; PR_lchown; PR_lchown32; PR_fchownat;
            PR_utime; PR_utimes; PR_futimesat; PR_utimensat] then NET_CONTROL_PATH_METADATA
  else default.

(** The first shadow that a path is below. *)
Definition shadow_over (p : cstr) (s : ControlShadow) : bool := control_path_is_under p (sh_path s).

(** net_policy_shadow_access(): [true] when the controller allows the access to
    a hidden path. *)
Definition net_policy_shadow_access (sysnum : Sysnum) (arg2 arg3 : Z) (p : cstr) (default : NetControlPathOperation)
    (c : NetPolicyConfig) : NetPolicyConfig * res bool :=
  let operation := match path_operation_override c with
                   | Some o => o
                   | None => shadow_operation sysnum arg2 arg3 default
                   end in
  match List.find (shadow_over p) (shadows c) with
  | None => (c, Ok false)
  | Some s =>
      if sh_revealed s && (str_eqb p (sh_path s) || sh_recursive s) then (c, Ok false)
      else if negb (connected c) then (c, Err ENOENT)
      else
        match control_shadow_event p operation c with
        | (c, false) => (c, Err EACCES)
        | (c, true) =>
            match control_path_access p None operation NET_CONTROL_REASON_HIDDEN_SHADOW c with
            | (c, Ok _) => (c, Ok true)
            | (c, Err _) => (c, Err ENOENT)
            | (c, Stuck w) => (c, Stuck w)
            end
        end
  end.

(** net_policy_add_shadow() *)
Definition net_policy_add_shadow (p : cstr) (c : NetPolicyConfig) : res NetPolicyConfig :=
  if negb (absolute p) || (PATH_MAX <=? zlen p) then Err EINVAL
  else
    match normalize_guest_path p with
    | Ok normalized =>
        if (MAX_SHADOWS <=? length (shadows c))%nat then Err ENOSPC
        else Ok (set_shadows (shadows c ++ [mkShadow (take (Z.to_nat PATH_MAX - 1) normalized) false false]) c)
    | Err _ => Err EINVAL
    | Stuck w => Stuck w
    end.

(** The path of the other operand, if there is one. *)
Definition effective_other (other : option cstr) (c : NetPolicyConfig) : option cstr :=
  match other with Some o => Some o | None => path_peer c end.

(** net_policy_path_access() *)
Definition net_policy_path_access (p : cstr) (other : option cstr) (operation : NetControlPathOperation)
    (reason : NetControlPathReason) (c : NetPolicyConfig) : NetPolicyConfig * res unit :=
  if negb (connected c) then (c, Err EACCES)
  else control_path_access p (effective_other other c) operation reason c.

(** net_policy_path_rule_precheck(): [true] when a rule allows. *)
Definition net_policy_path_rule_precheck (p : cstr) (other : option cstr) (operation : NetControlPathOperation)
    (c : NetPolicyConfig) : NetPolicyConfig * res bool :=
  let other := match effective_other other c with Some o => o | None => [] end in
  match use_rule (path_rule_matches (op_code operation) p other) pr_persistent no_path_rule (path_rules c) with
  | Some (r, rules) => (set_path_rules rules c, if pr_decision r =? 0 then Err EACCES else Ok true)
  | None => (c, Ok false)
  end.

(** net_policy_set_path_peer(); what a failure leaves of a former peer, which the
    system call does not use any more, is not modelled. *)
Definition net_policy_set_path_peer (p : cstr) (c : NetPolicyConfig) : NetPolicyConfig * res unit :=
  if negb (absolute p) || (PATH_MAX <=? zlen p) then (c, Err EINVAL)
  else
    match normalize_guest_path p with
    | Ok normalized => (set_peer (Some normalized) (path_operation_override c) c, Ok tt)
    | Err _ => (c, Err ENAMETOOLONG)
    | Stuck w => (c, Stuck w)
    end.

(** net_policy_set_path_operation() and net_policy_clear_path_peer() *)
Definition net_policy_set_path_operation (o : NetControlPathOperation) (c : NetPolicyConfig) : NetPolicyConfig :=
  set_peer (path_peer c) (Some o) c.
Definition net_policy_clear_path_peer (c : NetPolicyConfig) : NetPolicyConfig := set_peer None None c.

(** What the policy reads of a tracee to exempt a path. *)
Record PathView := mkPathView {
  pv_fs : FileSystemNameSpace; pv_sysnum : Sysnum; pv_arg2 : Z; pv_arg3 : Z; pv_seen_execve : bool; pv_exec_path : bool
}.

Definition is_read_only (o : NetControlPathOperation) : bool :=
  bool_decide (o = NET_CONTROL_PATH_READ) || bool_decide (o = NET_CONTROL_PATH_METADATA).

(** The binding already authorises the operation. *)
Definition binding_exempts (b : option Binding) (o : NetControlPathOperation) : bool :=
  match b with
  | None => false
  | Some b =>
      match access_mode b with
      | BINDING_ACCESS_RW => true
      | BINDING_ACCESS_RO => is_read_only o
      | BINDING_ACCESS_WO => negb (is_read_only o)
      | _ => false
      end
  end.

(** An open() of a device. *)
Definition device_exempts (v : PathView) (p : cstr) : bool :=
  if negb (control_path_is_under p (bs "/dev")) then false
  else
    let flags := if pv_sysnum v =? PR_open then pv_arg2 v else if pv_sysnum v =? PR_openat then pv_arg3 v else 0 in
    sysnum_in (pv_sysnum v) [PR_open; PR_openat]
    && ((Z.land flags (Z.lor O_CREAT O_TRUNC) =? 0) || str_eqb p (bs "/dev/null") || str_eqb p (bs "/dev/tty")).

(** control_path_is_exempt() *)
Definition control_path_is_exempt (v : PathView) (p : cstr) (o : NetControlPathOperation) : res bool :=
  let! binding := get_binding (pv_fs v) GUEST p in
  if binding_exempts binding o then Ok true
  else
    let! descendant := if is_read_only o then binding_has_readonly_descendant (pv_fs v) p else Ok false in
    if descendant then Ok true
    else Ok ((zlen (cwd (pv_fs v)) <? PATH_MAX) && control_path_is_under p (cwd (pv_fs v)) || device_exempts v p).

(** net_policy_path_requires_control() *)
Definition net_policy_path_requires_control (v : PathView) (p : cstr) (o : NetControlPathOperation) (c : NetPolicyConfig)
  : res bool :=
  if negb (connected c) || negb (pv_seen_execve v) || pv_exec_path v
     || sysnum_in (pv_sysnum v) [PR_execve; PR_execveat] then Ok false
  else let! exempt := control_path_is_exempt v p o in Ok (negb exempt).

(** ** Publication and installation *)

(** net_policy_allow_publication() *)
Definition net_policy_allow_publication (guest_pid host_pid host_port guest_port : Z) (c : NetPolicyConfig)
  : NetPolicyConfig * res unit :=
  if bool_decide (mode (static c) = NET_POLICY_OFF) && negb (connected c) then (c, Ok tt)
  else
    match check_bind_port (static c) guest_port with
    | Ok _ => ask_harness (mkNetAccess CONTROL_NET_PUBLICATION None None guest_port host_port 0 1 VNP_NET_CLASS_BRIDGE
                             guest_pid host_pid) c
    | r => (c, r)
    end.

(** The system calls on the descriptor of the controller: fcntl(F_GETFD),
    getsockopt(SO_TYPE), fcntl(F_SETFD). *)
Class ControlFds := {
  fcntl_getfd : Z -> option Z;
  getsockopt_type : Z -> option Z;
  fcntl_setfd : Z -> option Z
}.
Definition SOCK_STREAM := 1.
Definition INT_MAX := 2147483647.

Definition hello : list Z := encode_header (control_header CONTROL_HELLO 0 0).

(** net_policy_set_control_fd(), for the channel behind the descriptor; the
    former descriptor is closed. *)
Definition net_policy_set_control_fd {Fds : ControlFds} (v : cstr) (ch : Channel) (c : NetPolicyConfig) : res NetPolicyConfig :=
  let '(fd, rest) := strtol10_end v in
  if str_eqb v [] || negb (str_eqb rest []) || (fd <? 0) || (INT_MAX <? fd) then Err EINVAL
  else
    match fcntl_getfd fd with
    | Some e => Err e
    | None =>
        match getsockopt_type fd with
        | None => Err ENOTSOCK
        | Some type =>
            if negb (type =? SOCK_STREAM) then Err ENOTSOCK
            else
              match fcntl_setfd fd with
              | Some e => Err e
              | None =>
                  let '(ch, ok) := write_full_timeout ch hello in
                  Ok (mkConfig (static c) fd (negb ok) true (next_request_id c) (proxy c) (dynamic_rules c) (path_rules c)
                        (path_peer c) (path_operation_override c) (shadows c) ch)
              end
        end
    end.

(** The configuration of a fresh extension. *)
Definition new_config : NetPolicyConfig :=
  mkConfig new_policy (-1) false false 0 [] [] [] None None [] (mkChannel [] [] []).

(** ** Entries of directories *)

Section Getdents.

(** The host path of a guest path, every shadow being revealed: translate_path()
    may consult the policy itself. *)
Context (translate : NetPolicyConfig -> cstr -> NetPolicyConfig * option cstr).

(** The fields [revealed] and [recursive] are saved and restored by position. *)
Definition reveal_all (l : list ControlShadow) : list ControlShadow := map (fun s => mkShadow (sh_path s) true true) l.
Fixpoint restore_shadows (saved l : list ControlShadow) : list ControlShadow :=
  match saved, l with
  | s :: saved, x :: l => mkShadow (sh_path x) (sh_recursive s) (sh_revealed s) :: restore_shadows saved l
  | _, l => l
  end.
Definition translate_revealed (c : NetPolicyConfig) (p : cstr) : NetPolicyConfig * option cstr :=
  let '(c', host) := translate (set_shadows (reveal_all (shadows c)) c) p in
  (set_shadows (restore_shadows (shadows c) (shadows c')) c', host).

(** The loop of control_shadow_hides_entry() on the shadows from the i-th on. *)
Fixpoint hides_loop (n i : nat) (p host_entry : cstr) (c : NetPolicyConfig) : NetPolicyConfig * bool :=
  match n with
  | O => (c, false)
  | S n =>
      match shadows c !! i with
      | None => (c, false)
      | Some s =>
          let exact := str_eqb p (sh_path s) in
          let under := control_path_is_under p (sh_path s) in
          if exact && negb (sh_revealed s) then (c, true)
          else if under && negb exact && negb (sh_revealed s && sh_recursive s) then (c, true)
          else if str_eqb host_entry [] then hides_loop n (S i) p host_entry c
          else
            let '(c, host_shadow) := translate_revealed c (sh_path s) in
            let hidden :=
              match host_shadow with
              | None => false
              | Some h =>
                  (str_eqb host_entry h || control_path_is_under host_entry h)
                  && negb (sh_revealed s && (str_eqb host_entry h || sh_recursive s))
              end in
            if hidden then (c, true) else hides_loop n (S i) p host_entry c
      end
  end.

(** control_shadow_hides_entry() *)
Definition control_shadow_hides_entry (parent name : cstr) (c : NetPolicyConfig) : NetPolicyConfig * bool :=
  let p := take (Z.to_nat PATH_MAX - 1) (if str_eqb parent (bs "/") then SLASH :: name else parent ++ SLASH :: name) in
  let host_entry := match join2 parent name with Ok h => h | _ => [] end in
  hides_loop (length (shadows c)) 0 p host_entry c.

(** The offsets of the length and of the name in a struct linux_dirent64 or
    linux_dirent. *)
Definition RECLEN := 16%nat.
Definition name_offset (dirent64 : bool) : nat := if dirent64 then 19%nat else 18%nat.

(** The loop of control_filter_getdents() on what remains of the buffer. *)
Fixpoint filter_dirents (fuel : nat) (dirent64 : bool) (parent : cstr) (data : list Z) (c : NetPolicyConfig)
  : NetPolicyConfig * list Z :=
  match fuel, data with
  | S fuel, _ :: _ =>
      let reclen := Z.to_nat (of_le (slice RECLEN 2 data)) in
      let name := slice (name_offset dirent64) (reclen - name_offset dirent64) data in
      if (reclen <? name_offset dirent64)%nat || (length data <? reclen)%nat then (c, [])
      else if negb (existsb (Z.eqb 0) name) then (c, [])
      else
        let '(c, hidden) := control_shadow_hides_entry parent (text_of name) c in
        let '(c, kept) := filter_dirents fuel dirent64 parent (drop reclen data) c in
        (c, (if hidden then [] else take reclen data) ++ kept)
  | _, _ => (c, [])
  end.

(** control_filter_getdents(): the new content of the buffer, when it changes, or
    a failure.  [parent] is the directory, when readlink_proc_pid_fd() finds it,
    detranslated; [data] is the buffer, when it can be read. *)
Definition control_filter_getdents (dirent64 : bool) (result : Z) (parent : option cstr) (data : option (list Z))
    (c : NetPolicyConfig) : NetPolicyConfig * res (option (list Z)) :=
  if (length (shadows c) =? 0)%nat || (sgn 32 result <=? 0) then (c, Ok None)
  else
    match control_drain_commands c with
    | (c, false) => (c, Err EACCES)
    | (c, true) =>
        match parent, data with
        | Some parent, Some data =>
            let '(c, kept) := filter_dirents (length data) dirent64 parent data c in
            (c, Ok (if (length kept =? length data)%nat then None else Some kept))
        | _, _ => (c, Ok None)
        end
    end.

End Getdents.

(** ** Lemmas on the channel *)

Lemma write_loop_spec l : forall ready data out ok l' out',
  write_loop l ready data out = (ok, l', out') ->
  exists k, out' = out ++ take k data /\ (ok = true -> take k data = data).
Proof.
  induction l as [|a l IH]; intros ready data out ok l' out' H.
  - destruct data; injection H as <- <- <-; exists 0%nat; rewrite app_nil_r; by split.
  - destruct data as [|x data]; [injection H as <- <- <-; exists 0%nat; rewrite app_nil_r; by split|].
    assert (Hfail : forall ok l', (false, l, out) = (ok, l', out') ->
              exists k, out' = out ++ take k (x :: data) /\ (ok = true -> take k (x :: data) = x :: data)).
    { intros ? ? [= <- <- <-]. exists 0%nat. rewrite app_nil_r. by split. }
    cbn [write_loop] in H. destruct ready; cbn [negb] in H.
    + destruct (interrupted a); [by eapply IH|]. destruct (a_ret a <=? 0); [by eapply Hfail|].
      apply IH in H as (k & -> & Hk). exists (Z.to_nat (a_ret a) + k)%nat. rewrite <- app_assoc.
      rewrite take_take_drop. split; [done|]. intros Hok. rewrite <- take_take_drop, Hk by done. apply take_drop.
    + destruct (interrupted a); [by eapply IH|]. destruct ((a_ret a <=? 0) || poll_broken a); [by eapply Hfail|by eapply IH].
Qed.

Lemma write_full_spec ch data ch' ok : write_full_timeout ch data = (ch', ok) ->
  received ch' = received ch /\ exists k, sent ch' = sent ch ++ take k data /\ (ok = true -> take k data = data).
Proof.
  unfold write_full_timeout. destruct (write_loop _ _ _ _) as [[b l] out] eqn:E. intros [= <- <-].
  split; [done|]. by eapply write_loop_spec.
Qed.

Lemma read_loop_spec l : forall ready size data ok l' data',
  read_loop l ready size data = (ok, l', data') ->
  exists more, data' = data ++ more /\ (ok = true -> length more = size).
Proof.
  induction l as [|a l IH]; intros ready size data ok l' data' H.
  - destruct size; injection H as <- <- <-; exists []; rewrite app_nil_r; by split.
  - destruct size as [|size]; [injection H as <- <- <-; exists []; rewrite app_nil_r; by split|].
    assert (Hfail : forall ok l', (false, l, data) = (ok, l', data') ->
              exists more, data' = data ++ more /\ (ok = true -> length more = S size)).
    { intros ? ? [= <- <- <-]. exists []. rewrite app_nil_r. by split. }
    cbn [read_loop] in H. destruct ready; cbn [negb] in H.
    + destruct (interrupted a); [by eapply IH|]. destruct (Z.leb_spec (a_ret a) 0); [by eapply Hfail|].
      apply IH in H as (more & -> & Hk). eexists. rewrite <- app_assoc. split; [done|].
      intros Hok. rewrite length_app, length_resize, Hk by done. lia.
    + destruct (interrupted a); [by eapply IH|]. destruct ((a_ret a <=? 0) || poll_broken a); [by eapply Hfail|by eapply IH].
Qed.

Lemma read_full_spec ch n ch' r : read_full_timeout_ms ch n = (ch', r) ->
  sent ch' = sent ch /\ exists more, received ch' = received ch ++ more
  /\ match r with Some data => data = more /\ length data = n | None => True end.
Proof.
  unfold read_full_timeout_ms. destruct (read_loop _ _ _ _) as [[b l] data] eqn:E. intros [= <- <-].
  split; [done|]. apply read_loop_spec in E as (more & -> & Hk). exists more. split; [done|]. destruct b; [|done].
  split; [done|]. by apply Hk.
Qed.

(** ** Lemmas on frames *)

Definition header_ok (h : ControlHeader) : Prop :=
  0 <= h_magic h < 2 ^ 32 /\ 0 <= h_version h < 2 ^ 16 /\ 0 <= h_type h < 2 ^ 16 /\ 0 <= h_size h < 2 ^ 32
  /\ 0 <= h_request_id h < 2 ^ 64.

(** The fields of a structure, one after the other. *)
Ltac fields := repeat (rewrite slice_app_r by (rewrite ?length_to_le; cbn; lia); rewrite ?length_to_le; cbn [Nat.sub]);
  rewrite ?slice_app_l by (rewrite ?length_to_le; cbn; lia); rewrite ?slice_all by (rewrite ?length_to_le; done).

Lemma decode_encode_header h : header_ok h -> decode_header (encode_header h) = h.
Proof.
  intros (H1 & H2 & H3 & H4 & H5). unfold decode_header, encode_header. destruct h as [m v t s i]; cbn [h_magic h_version h_type h_size h_request_id] in *.
  f_equal; fields; apply of_le_to_le; cbn; lia.
Qed.

Lemma length_encode_header h : length (encode_header h) = sizeof_ControlHeader.
Proof. unfold encode_header. by rewrite !length_app, !length_to_le. Qed.

(** ** What the operations leave as it is *)

(** The channel only grows, and a failure is for ever. *)
Record extends (c c' : NetPolicyConfig) : Prop := mkExtends {
  ext_static : static c' = static c;
  ext_fd : ask_fd c' = ask_fd c;
  ext_ready : control_ready c' = control_ready c;
  ext_failed : ask_failed c = true -> ask_failed c' = true;
  ext_shadows : map sh_path (shadows c') = map sh_path (shadows c);
  ext_received : prefix (received (channel c)) (received (channel c'));
  ext_sent : prefix (sent (channel c)) (sent (channel c'))
}.

#[export] Instance extends_preorder : PreOrder extends.
Proof.
  split; [by split|]. intros x y z [H1 H2 H3 H4 H5 H6 H7] [K1 K2 K3 K4 K5 K6 K7].
  split; try congruence; [by auto|by etrans..].
Qed.

Lemma extends_connected c c' : extends c c' -> connected c' = connected c.
Proof. intros [_ H2 H3 _ _ _ _]. unfold connected. by rewrite H2, H3. Qed.

(** Tables of rules, the other fields being the same. *)
Lemma extends_dynamic x c : extends c (set_dynamic_rules x c).
Proof. by split. Qed.
Lemma extends_path_rules x c : extends c (set_path_rules x c).
Proof. by split. Qed.
Lemma extends_id x c : extends c (set_request_id x c).
Proof. by split. Qed.
Lemma extends_failed c : extends c (set_failed c).
Proof. by split. Qed.
Lemma extends_peer x o c : extends c (set_peer x o c).
Proof. by split. Qed.
Lemma extends_reveal p v r c : extends c (reveal p v r c).
Proof.
  split; try done. cbn. rewrite map_map. apply map_ext. intros s. by case_match.
Qed.
#[export] Hint Resolve extends_dynamic extends_path_rules extends_id extends_failed extends_peer extends_reveal : proot.

Lemma extends_channel ch c : prefix (received (channel c)) (received ch) -> prefix (sent (channel c)) (sent ch) ->
  extends c (set_channel ch c).
Proof. by split. Qed.

Lemma send_frame_spec c h payload c' ok : send_frame c h payload = (c', ok) ->
  c' = set_channel (channel c') c /\ received (channel c') = received (channel c)
  /\ exists k, sent (channel c') = sent (channel c) ++ take k (encode_header h ++ payload)
               /\ (ok = true -> sent (channel c') = sent (channel c) ++ encode_header h ++ payload).
Proof.
  unfold send_frame. destruct (write_full_timeout (channel c) (encode_header h)) as [ch b] eqn:E1.
  apply write_full_spec in E1 as (R1 & k1 & S1 & K1). destruct b; cbn [negb].
  - destruct (write_full_timeout ch payload) as [ch' b'] eqn:E2. apply write_full_spec in E2 as (R2 & k2 & S2 & K2).
    intros [= <- <-]. cbn [channel set_channel]. split; [done|]. split; [congruence|]. specialize (K1 eq_refl). rewrite K1 in S1.
    exists (length (encode_header h) + k2)%nat. rewrite S2, S1, <- !app_assoc. split.
    + by rewrite take_app_add.
    + intros Hb. by rewrite K2.
  - intros [= <- <-]. cbn [channel set_channel]. split; [done|]. split; [done|]. exists (Nat.min k1 (length (encode_header h))).
    split; [|done]. rewrite S1. f_equal. rewrite take_app_le by lia.
    destruct (Nat.le_ge_cases k1 (length (encode_header h))); [by rewrite Nat.min_l by lia|].
    by rewrite Nat.min_r, firstn_all, take_ge by lia.
Qed.

Lemma send_frame_extends c h payload c' ok : send_frame c h payload = (c', ok) -> extends c c'.
Proof.
  intros H. apply send_frame_spec in H as (E & H1 & k & H2 & _). rewrite E. apply extends_channel; [by rewrite H1|].
  rewrite H2. by eexists.
Qed.

(** The bytes of a frame. *)
Definition frame_bytes (h : ControlHeader) (payload bytes : list Z) : Prop :=
  exists header, bytes = header ++ payload /\ length header = sizeof_ControlHeader /\ decode_header header = h
    /\ h_magic h = CONTROL_MAGIC /\ h_version h = CONTROL_VERSION /\ h_size h <= CONTROL_MAX_FRAME
    /\ length payload = Z.to_nat (h_size h).

Lemma read_frame_spec c c' r : read_frame c = (c', r) ->
  c' = set_channel (channel c') c /\ sent (channel c') = sent (channel c)
  /\ exists bytes, received (channel c') = received (channel c) ++ bytes
                   /\ match r with Some (h, payload) => frame_bytes h payload bytes | None => True end.
Proof.
  unfold read_frame. destruct (read_full_timeout_ms (channel c) _) as [ch [hb|]] eqn:E1;
    apply read_full_spec in E1 as (S1 & b1 & R1 & L1).
  2: { intros [= <- <-]. cbn. split_and!; try done. by exists b1. }
  destruct L1 as [-> L1]. set (h := decode_header b1).
  destruct (negb (h_magic h =? CONTROL_MAGIC) || negb (h_version h =? CONTROL_VERSION) || (CONTROL_MAX_FRAME <? h_size h)) eqn:Eh.
  { intros [= <- <-]. cbn. split_and!; try done. by exists b1. }
  destruct (read_full_timeout_ms ch _) as [ch2 [payload|]] eqn:E2; apply read_full_spec in E2 as (S2 & b2 & R2 & L2);
    intros [= <- <-]; cbn; (split; [done|]); (split; [congruence|]); exists (b1 ++ b2); rewrite R2, R1, app_assoc; (split; [done|]); [|done].
  destruct L2 as [-> L2]. bool_facts. exists b1. split_and!; try done; lia.
Qed.

Lemma read_frame_extends c c' r : read_frame c = (c', r) -> extends c c'.
Proof.
  intros H. apply read_frame_spec in H as (E & H1 & bytes & H2 & _). rewrite E. apply extends_channel; [rewrite H2; by eexists|by rewrite H1].
Qed.

Lemma put_net_extends o f p a d b c c' : put_net_rule o f p a d b c = Some c' -> extends c c' /\ channel c' = channel c.
Proof. unfold put_net_rule. destruct (put_rule _ _ _ _ _); [|done]. intros [= <-]. by split; [apply extends_dynamic|]. Qed.

Lemma put_path_extends o p q d b c c' : put_path_rule o p q d b c = Some c' -> extends c c' /\ channel c' = channel c.
Proof. unfold put_path_rule. destruct (put_rule _ _ _ _ _); [|done]. intros [= <-]. by split; [apply extends_path_rules|]. Qed.

Lemma net_command_extends c type payload c' : control_net_command c type payload = Ok c' -> extends c c' /\ channel c' = channel c.
Proof.
  unfold control_net_command. case_bool; [done|]. case_bool; [intros [= <-]; by split; [apply extends_dynamic|]|].
  destruct (put_net_rule _ _ _ _ _ _ c) eqn:E; [|done]. intros [= <-]. by eapply put_net_extends.
Qed.

Lemma apply_command_extends c type payload c' : control_apply_command c type payload = Ok c' -> extends c c' /\ channel c' = channel c.
Proof.
  unfold control_apply_command. case_bool; [done|]. case_bool; [intros [= <-]; by split|].
  case_bool; [apply net_command_extends|]. case_bool; [done|]. cbv zeta. case_bool; [done|]. case_bool; [done|]. case_bool; [done|].
  case_bool; [intros [= <-]; by split; [apply extends_path_rules|]|].
  case_bool. { intros [= <-]. case_bool; by split; [apply extends_reveal|]. }
  case_bool; [intros [= <-]; by split|]. case_bool; [|done]. case_bool; [done|].
  destruct (put_path_rule _ _ _ _ _ c) eqn:E; [|done]. intros [= <-]. by eapply put_path_extends.
Qed.

Lemma run_command_extends c h payload c' ok : run_command c h payload = (c', ok) -> extends c c'.
Proof.
  unfold run_command, control_send_result. destruct (control_apply_command _ _ _) eqn:E; [|by intros [= <- <-]..].
  apply apply_command_extends in E as [H _]. intros Hs. apply send_frame_extends in Hs. by etrans.
Qed.

Lemma await_extends n : forall id c c' r, await_decision n id c = (c', r) -> extends c c'.
Proof.
  induction n as [|n IH]; intros id c c' r H; cbn [await_decision] in H; [by injection H as <- <-|].
  destruct (read_frame c) as [c1 [[h payload]|]] eqn:E1; apply read_frame_extends in E1; [|by injection H as <- <-].
  etrans; [exact E1|]. case_bool_in H.
  - destruct (run_command c1 h payload) as [c2 []] eqn:E2; apply run_command_extends in E2; [|by injection H as <- <-].
    etrans; [exact E2|by eapply IH].
  - case_bool_in H; [by injection H as <- <-|]. case_bool_in H; by injection H as <- <-.
Qed.

Lemma drain_extends c c' ok : control_drain_commands c = (c', ok) -> extends c c'.
Proof.
  unfold control_drain_commands. case_bool; [by intros [= <- <-]|]. destruct (answers (channel c)) as [|a l]; [intros [= <- <-]; auto with proot|].
  assert (H0 : extends c (set_channel (mkChannel l (sent (channel c)) (received (channel c))) c)) by by apply extends_channel.
  case_bool; [by intros [= <- <-]|]. intros H. etrans; [exact H0|]. revert H. generalize (set_channel (mkChannel l (sent (channel c)) (received (channel c))) c).
  intros c0. case_bool; [intros [= <- <-]; auto with proot|].
  destruct (read_frame c0) as [c1 [[h payload]|]] eqn:E1; apply read_frame_extends in E1.
  2: { intros [= <- <-]. etrans; [exact E1|auto with proot]. }
  case_bool; [intros [= <- <-]; etrans; [exact E1|auto with proot]|].
  destruct (run_command c1 h payload) as [c2 []] eqn:E2; apply run_command_extends in E2; intros [= <- <-]; repeat (etrans; [eassumption|]); auto with proot.
  done.
Qed.

(** ** The commands that wait *)

(** A command does not look at the channel. *)
Definition on_channel (ch : Channel) (r : res NetPolicyConfig) : res NetPolicyConfig :=
  match r with Ok c => Ok (set_channel ch c) | Err e => Err e | Stuck w => Stuck w end.

Lemma net_command_channel ch c type payload :
  control_net_command (set_channel ch c) type payload = on_channel ch (control_net_command c type payload).
Proof.
  unfold control_net_command, put_net_rule. cbn [dynamic_rules set_channel].
  case_bool; [done|]. case_bool; [done|]. by destruct (put_rule _ _ _ _ _).
Qed.

Lemma apply_command_channel ch c type payload :
  control_apply_command (set_channel ch c) type payload = on_channel ch (control_apply_command c type payload).
Proof.
  unfold control_apply_command, put_path_rule. cbn [path_rules set_channel].
  case_bool; [done|]. case_bool; [done|]. case_bool; [apply net_command_channel|]. case_bool; [done|]. cbv zeta.
  case_bool; [done|]. case_bool; [done|]. case_bool; [done|]. case_bool; [done|]. case_bool; [by case_bool|].
  case_bool; [done|]. case_bool; [|done]. case_bool; [done|]. by destruct (put_rule _ _ _ _ _).
Qed.

(** The frame that acknowledges a command, for the tables it leaves. *)
Definition acknowledgement (id : Z) (c : NetPolicyConfig) : list Z :=
  encode_header (control_header CONTROL_COMMAND_RESULT sizeof_ControlCommandResult id)
  ++ encode_result 0 (zlen (path_rules c)) (zlen (dynamic_rules c)) (zlen (shadows c)).

(** [c'] is [c] after one command: its frame, the [bytes] that are received, is
    applied to the tables and its result is sent. *)
Definition commanded (c c' : NetPolicyConfig) : Prop :=
  exists h payload bytes d,
    frame_bytes h payload bytes /\ received (channel c') = received (channel c) ++ bytes
    /\ control_type_is_command (h_type h) = true /\ control_apply_command c (h_type h) payload = Ok d
    /\ sent (channel c') = sent (channel c) ++ acknowledgement (h_request_id h) d
    /\ c' = set_channel (channel c') d.

(** What a drain that succeeds has done: nothing without a controller; otherwise
    it has consulted poll(), then nothing when no frame waits or the call is
    interrupted, and exactly one command when one does. *)
Definition drained (c c' : NetPolicyConfig) : Prop :=
  ask_failed c = false
  /\ if connected c then
       exists poll l, answers (channel c) = poll :: l
         /\ let polled := set_channel (mkChannel l (sent (channel c)) (received (channel c))) c in
            if 0 <? a_ret poll then poll_broken poll = false /\ commanded polled c'
            else (a_ret poll = 0 \/ a_errno poll = EINTR) /\ c' = polled
     else c' = c.

Lemma run_command_spec c c1 h payload bytes c' :
  frame_bytes h payload bytes -> received (channel c1) = received (channel c) ++ bytes -> sent (channel c1) = sent (channel c) ->
  c1 = set_channel (channel c1) c -> control_type_is_command (h_type h) = true ->
  run_command c1 h payload = (c', true) -> commanded c c'.
Proof.
  intros F R S E T. unfold run_command, control_send_result. rewrite E, apply_command_channel.
  destruct (control_apply_command c (h_type h) payload) as [d|?|?] eqn:Ed; cbn [on_channel]; [|done..].
  intros H. apply send_frame_spec in H as (E' & R' & k & _ & S'). specialize (S' eq_refl). cbn [channel set_channel] in E', R', S'.
  exists h, payload, bytes, d. rewrite S', R', R, S. split_and!; try done.
Qed.

Lemma drain_drained c c' : control_drain_commands c = (c', true) -> drained c c'.
Proof.
  unfold control_drain_commands, drained. destruct (ask_failed c) eqn:Ef; [by rewrite orb_true_r|]. rewrite orb_false_r.
  destruct (connected c); cbn [negb]; [|intros [= <-]; by split].
  destruct (answers (channel c)) as [|poll l]; [done|]. intros H. split; [done|]. exists poll, l. split; [done|]. cbv zeta in *.
  set (c0 := set_channel _ c) in *. rewrite Z.leb_antisym in H. destruct (0 <? a_ret poll) eqn:Er; cbn [negb] in H.
  - destruct (poll_broken poll); [done|]. split; [done|].
    destruct (read_frame c0) as [c1 [[h payload]|]] eqn:E1; [|done]. apply read_frame_spec in E1 as (E & S & bytes & R & F).
    destruct (control_type_is_command (h_type h)) eqn:T; [|done]. cbn [negb] in H.
    destruct (run_command c1 h payload) as [c2 []] eqn:E2; [|done]. injection H as <-. by eapply run_command_spec.
  - injection H as <- H. split; [|done]. apply negb_true_iff, andb_false_iff in H as [H|H]; bool_facts; [left; lia|by right].
Qed.

(** ** The answer to a request *)

(** The last frame received between two states is an answer to the request
    [id], whose type and decision agree. *)
Definition answered (id type decision : Z) (before after : list Z) : Prop :=
  exists others bytes payload, after = before ++ others ++ bytes
    /\ frame_bytes (control_header type sizeof_ControlDecision id) payload bytes
    /\ control_type_is_decision type = true /\ decision_of payload = decision
    /\ decision = if type_allows type then NET_DECISION_ALLOW else NET_DECISION_DENY.

Lemma answered_prefix id type d a b e : prefix a b -> answered id type d b e -> answered id type d a e.
Proof.
  intros [k ->] (others & bytes & payload & -> & H). exists (k ++ others), bytes, payload. by rewrite !app_assoc.
Qed.

Lemma await_answered n : forall id c c' type d, await_decision n id c = (c', Some (type, d)) ->
  answered id type d (received (channel c)) (received (channel c')).
Proof.
  induction n as [|n IH]; intros id c c' type d H; cbn [await_decision] in H; [done|].
  destruct (read_frame c) as [c1 [[h payload]|]] eqn:E1; [|done]. case_bool_in H.
  - destruct (run_command c1 h payload) as [c2 []] eqn:E2; [|done]. apply IH in H. eapply answered_prefix; [|exact H].
    apply read_frame_extends in E1. apply run_command_extends in E2. exact (ext_received _ _ (transitivity E1 E2)).
  - apply read_frame_spec in E1 as (_ & _ & bytes & R & F). case_bool_in H; [done|]. case_bool_in H; [done|].
    injection H as <- <- <-. destruct F as (hb & F1 & F2 & F3 & F4 & F5 & F6 & F7).
    assert (Hv : control_decision_valid h payload = true) by (by apply negb_false_iff).
    unfold control_decision_valid in Hv. case_bool_in Hv; [done|]. bool_facts.
    assert (Eh : control_header (h_type h) sizeof_ControlDecision id = h) by (destruct h; cbn in *; unfold control_header; congruence).
    exists [], bytes, payload. rewrite R, Eh. split_and!; try done. by exists hb.
Qed.

(** ** Tables *)

Lemma use_rule_spec {A} (matches persistent : A -> bool) blank l : forall r l',
  use_rule matches persistent blank l = Some (r, l') -> r ∈ l /\ matches r = true /\ length l' = length l
  /\ forall P : A -> Prop, P blank -> Forall P l -> Forall P l'.
Proof.
  induction l as [|x l IH]; intros r l' H; cbn [use_rule] in H; [done|]. case_bool_in H.
  - injection H as <- <-. split; [constructor|]. split; [done|]. split; [by case_match|].
    intros P Hblank Hl. apply Forall_cons in Hl as [? ?]. case_match; by constructor.
  - destruct (use_rule _ _ _ l) as [[y k]|]; [|done]. injection H as <- <-.
    destruct (IH _ _ eq_refl) as (H1 & H2 & H3 & H4). split; [by constructor|]. split; [done|]. split; [cbn; congruence|].
    intros P Hblank Hl. apply Forall_cons in Hl as [? ?]. constructor; [done|by apply H4].
Qed.

(** The first rule that matches is used, and used up unless it is persistent. *)
Lemma use_rule_first {A} (matches persistent : A -> bool) blank l : forall r l',
  use_rule matches persistent blank l = Some (r, l') ->
  exists a b, l = a ++ r :: b /\ Forall (fun r => matches r = false) a /\ matches r = true
    /\ l' = a ++ (if persistent r then r else blank) :: b.
Proof.
  induction l as [|x l IH]; intros r l' H; cbn [use_rule] in H; [done|]. destruct (matches x) eqn:Ex.
  - injection H as <- <-. exists [], l. split_and!; [done|constructor|done|]. by case_match.
  - destruct (use_rule _ _ _ l) as [[y k]|]; [|done]. injection H as <- <-.
    destruct (IH _ _ eq_refl) as (a & b & -> & Ha & Hy & ->). exists (x :: a), b. split_and!; [done|by constructor|done|done].
Qed.

Lemma use_rule_none {A} (matches persistent : A -> bool) blank l :
  use_rule matches persistent blank l = None <-> Forall (fun r => matches r = false) l.
Proof.
  induction l as [|x l IH]; cbn [use_rule]; [by split|]. rewrite Forall_cons, <- IH. destruct (matches x); [by split; [|intros []]|].
  destruct (use_rule _ _ _ l) as [[]|]; split; [done|by intros []|done|done].
Qed.

Lemma put_rule_spec {A} (active : A -> bool) blank fill room : forall l l',
  put_rule active room blank fill l = Some l' ->
  (length l <= room -> length l' <= room)%nat
  /\ (forall P : A -> Prop, P blank -> (forall r, P r -> P (fill r)) -> Forall P l -> Forall P l')
  /\ exists a b old, l' = a ++ fill old :: b /\ Forall (fun r => active r = true) a
                     /\ (l = a ++ old :: b /\ active old = false \/ l = a /\ b = [] /\ old = blank).
Proof.
  induction room as [|room IH]; intros l l' H; [by destruct l|]. destruct l as [|r l]; cbn [put_rule] in H.
  - injection H as <-. split; [cbn; lia|]. split; [intros P Hblank Hf _; constructor; [by apply Hf|constructor]|].
    exists [], [], blank. split; [done|]. split; [constructor|by right].
  - destruct (active r) eqn:Er.
    + destruct (put_rule _ _ _ _ l) as [k|] eqn:E; [|done]. injection H as <-.
      destruct (IH _ _ E) as (H1 & H2 & a & b & old & -> & H4 & H5). split; [cbn in *; lia|]. split.
      * intros P Hblank Hf Hl. apply Forall_cons in Hl as [? ?]. constructor; [done|by apply H2].
      * exists (r :: a), b, old. split; [done|]. split; [by constructor|].
        destruct H5 as [[-> ?]|(-> & -> & ->)]; [by left|by right].
    + injection H as <-. split; [done|]. split.
      * intros P Hblank Hf Hl. apply Forall_cons in Hl as [? ?]. constructor; [by apply Hf|done].
      * exists [], l, r. split; [done|]. split; [constructor|by left].
Qed.

Lemma clear_rule_spec {A} (matches : A -> bool) blank l :
  length (clear_rule matches blank l) = length l
  /\ forall P : A -> Prop, P blank -> Forall P l -> Forall P (clear_rule matches blank l).
Proof.
  induction l as [|x l [IH1 IH2]]; cbn [clear_rule]; [by split|]. destruct (matches x).
  - split; [done|]. intros P Hblank Hl. apply Forall_cons in Hl as [? ?]. by constructor.
  - split; [cbn; congruence|]. intros P Hblank Hl. apply Forall_cons in Hl as [? ?]. constructor; [done|by apply IH2].
Qed.

(** ** Well-formed configurations *)

Definition is_decision (d : Z) : Prop := d = NET_DECISION_DENY \/ d = NET_DECISION_ALLOW.
Definition net_rule_ok (r : ControlNetRule) : Prop := length (nr_address r) = 16%nat /\ is_decision (nr_decision r).
Definition path_rule_ok (r : ControlPathRule) : Prop :=
  zlen (pr_path r) < 1024 /\ zlen (pr_other r) < 1024 /\ is_decision (pr_decision r).
Definition shadow_ok (s : ControlShadow) : Prop := zlen (sh_path s) < PATH_MAX.

(** The tables within their arrays, their elements within theirs. *)
Definition config_ok (c : NetPolicyConfig) : Prop :=
  (length (dynamic_rules c) <= MAX_DYNAMIC_RULES)%nat /\ Forall net_rule_ok (dynamic_rules c)
  /\ (length (path_rules c) <= MAX_PATH_RULES)%nat /\ Forall path_rule_ok (path_rules c)
  /\ (length (shadows c) <= MAX_SHADOWS)%nat /\ Forall shadow_ok (shadows c)
  /\ 0 <= next_request_id c < 2 ^ 64.

(** A configuration with the same tables. *)
Lemma config_ok_same c c' :
  dynamic_rules c' = dynamic_rules c -> path_rules c' = path_rules c -> shadows c' = shadows c ->
  next_request_id c' = next_request_id c -> config_ok c -> config_ok c'.
Proof. intros E1 E2 E3 E4. unfold config_ok. by rewrite E1, E2, E3, E4. Qed.

Lemma no_net_rule_ok : net_rule_ok no_net_rule.
Proof. split; [done|by left]. Qed.
Lemma no_path_rule_ok : path_rule_ok no_path_rule.
Proof. split; [done|]. split; [done|by left]. Qed.
#[export] Hint Resolve no_net_rule_ok no_path_rule_ok : proot.

Lemma ok_channel ch c : config_ok c -> config_ok (set_channel ch c).
Proof. by apply config_ok_same. Qed.
Lemma ok_failed c : config_ok c -> config_ok (set_failed c).
Proof. by apply config_ok_same. Qed.
Lemma ok_peer x o c : config_ok c -> config_ok (set_peer x o c).
Proof. by apply config_ok_same. Qed.
Lemma ok_request_id c : config_ok c -> config_ok (set_request_id (wrap64 (next_request_id c + 1)) c).
Proof.
  intros (H1 & H2 & H3 & H4 & H5 & H6 & H7). split_and!; try done; cbn; apply Z.mod_pos_bound; lia.
Qed.
Lemma ok_dynamic x c : (length x <= MAX_DYNAMIC_RULES)%nat -> Forall net_rule_ok x -> config_ok c -> config_ok (set_dynamic_rules x c).
Proof. intros A B (H1 & H2 & H3). by split. Qed.
Lemma ok_path_rules x c : (length x <= MAX_PATH_RULES)%nat -> Forall path_rule_ok x -> config_ok c -> config_ok (set_path_rules x c).
Proof. intros A B (H1 & H2 & H3 & H4 & H5). split; [done|]. split; [done|]. split; [done|]. by split. Qed.
Lemma ok_shadows x c : (length x <= MAX_SHADOWS)%nat -> Forall shadow_ok x -> config_ok c -> config_ok (set_shadows x c).
Proof. intros A B (H1 & H2 & H3 & H4 & H5 & H6 & H7). do 4 (split; [done|]). split; [done|]. by split. Qed.
#[export] Hint Resolve ok_channel ok_failed ok_peer ok_request_id : proot.

Lemma overlay_length n data array : (n <= length data)%nat -> (n <= length array)%nat -> length (overlay n data array) = length array.
Proof. intros H1 H2. unfold overlay. rewrite length_app, length_take, length_drop. lia. Qed.

Lemma family_size_le f : (net_family_address_size f <= 16)%nat.
Proof. unfold net_family_address_size. repeat case_match; lia. Qed.

Lemma put_net_ok o f p a d b c c' : (net_family_address_size f <= length a)%nat -> is_decision d ->
  put_net_rule o f p a d b c = Some c' -> config_ok c -> config_ok c'.
Proof.
  intros Ha Hd. unfold put_net_rule. destruct (put_rule _ _ _ _ _) as [l|] eqn:E; [|done]. intros [= <-] Hc.
  apply put_rule_spec in E as (E1 & E2 & _). pose proof Hc as (H1 & H2 & _). apply ok_dynamic; [by apply E1| |done].
  apply E2; [auto with proot| |done]. intros r [Hr _]. split; [|done]. cbn. rewrite overlay_length; [done|done|].
  pose proof (family_size_le f). lia.
Qed.

Lemma put_path_ok o p q d b c c' : is_decision d -> put_path_rule o p q d b c = Some c' -> config_ok c -> config_ok c'.
Proof.
  intros Hd. unfold put_path_rule. destruct (put_rule _ _ _ _ _) as [l|] eqn:E; [|done]. intros [= <-] Hc.
  apply put_rule_spec in E as (E1 & E2 & _). pose proof Hc as (_ & _ & H1 & H2 & _). apply ok_path_rules; [by apply E1| |done].
  apply E2; [auto with proot| |done]. intros r _. unfold path_rule_ok, fill_path_rule, CONTROL_PATH_LEN, zlen. cbn [pr_path pr_other pr_decision].
  rewrite !length_take. split_and!; [lia|lia|done].
Qed.

Lemma reveal_ok p v r c : config_ok c -> config_ok (reveal p v r c).
Proof.
  intros Hc. pose proof Hc as (_ & _ & _ & _ & H1 & H2 & _). apply ok_shadows; [by rewrite length_map| |done].
  apply Forall_map. eapply Forall_impl; [exact H2|]. intros s Hs. cbn. by case_match.
Qed.

Lemma net_command_ok c type payload c' : control_net_command c type payload = Ok c' -> config_ok c -> config_ok c'.
Proof.
  unfold control_net_command. case_bool; [done|]. bool_facts. case_bool; intros Hres Hc.
  - injection Hres as <-. pose proof Hc as (T1 & T2 & _).
    match goal with |- context [clear_rule ?m ?b ?l] => destruct (clear_rule_spec m b l) as [L F] end.
    apply ok_dynamic; [by rewrite L|apply F; auto with proot|done].
  - destruct (put_net_rule _ _ _ _ _ _ c) eqn:E; [|done]. injection Hres as <-. eapply put_net_ok; [| |exact E|done].
    + cbn. rewrite length_slice; [apply family_size_le|]. unfold sizeof_ControlNetCommand, zlen in *. lia.
    + unfold is_decision. match goal with X : negb (_ =? NET_DECISION_ALLOW) && _ = false |- _ => apply andb_false_iff in X as [X|X] end;
        bool_facts; auto.
Qed.

Lemma apply_command_ok c type payload c' : control_apply_command c type payload = Ok c' -> config_ok c -> config_ok c'.
Proof.
  unfold control_apply_command. case_bool; [done|]. case_bool; [by intros [= <-]|].
  case_bool; [apply net_command_ok|]. case_bool; [done|]. cbv zeta. case_bool; [done|]. case_bool; [done|]. case_bool; [done|].
  case_bool.
  { intros [= <-] Hc. pose proof Hc as (_ & _ & H1 & H2 & _). unfold control_remove_path_rule.
    match goal with |- context [clear_rule ?m ?b ?l] => destruct (clear_rule_spec m b l) as [L F] end.
    apply ok_path_rules; [by rewrite L|apply F; auto with proot|done]. }
  case_bool. { intros [= <-] Hc. case_bool; by apply reveal_ok. }
  case_bool; [by intros [= <-]|]. case_bool; [|done]. case_bool; [done|].
  destruct (put_path_rule _ _ _ _ _ c) eqn:E; [|done]. intros [= <-]. eapply put_path_ok; [|exact E].
  unfold is_decision. case_bool; [|case_bool; auto].
  match goal with H : _ && negb (_ =? NET_DECISION_DENY) = false |- _ => apply andb_false_iff in H as [H|H] end; bool_facts; [|auto].
  match goal with H : _ && negb (_ =? NET_DECISION_ALLOW) = false |- _ => apply andb_false_iff in H as [H|H] end; bool_facts; [congruence|auto].
Qed.

Lemma send_frame_ok c h payload c' ok : send_frame c h payload = (c', ok) -> config_ok c -> config_ok c'.
Proof. intros H. apply send_frame_spec in H as (E & _). rewrite E. apply ok_channel. Qed.

Lemma read_frame_ok c c' r : read_frame c = (c', r) -> config_ok c -> config_ok c'.
Proof. intros H. apply read_frame_spec in H as (E & _). rewrite E. apply ok_channel. Qed.

Lemma run_command_ok c h payload c' ok : run_command c h payload = (c', ok) -> config_ok c -> config_ok c'.
Proof.
  unfold run_command, control_send_result. destruct (control_apply_command _ _ _) eqn:E; [|by intros [= <- <-]..].
  intros Hs Hc. eapply send_frame_ok; [exact Hs|]. by eapply apply_command_ok.
Qed.

Lemma await_ok n : forall id c c' r, await_decision n id c = (c', r) -> config_ok c -> config_ok c'.
Proof.
  induction n as [|n IH]; intros id c c' r H Hc; cbn [await_decision] in H; [by injection H as <- <-|].
  destruct (read_frame c) as [c1 [[h payload]|]] eqn:E1; apply read_frame_ok in E1; try done; [|by injection H as <- <-].
  case_bool_in H.
  - destruct (run_command c1 h payload) as [c2 []] eqn:E2; apply run_command_ok in E2; try done; [|by injection H as <- <-].
    by eapply IH.
  - case_bool_in H; [by injection H as <- <-|]. case_bool_in H; by injection H as <- <-.
Qed.

Lemma drain_ok c c' ok : control_drain_commands c = (c', ok) -> config_ok c -> config_ok c'.
Proof.
  unfold control_drain_commands. case_bool; [by intros [= <- <-]|]. destruct (answers (channel c)) as [|a l]; [intros [= <- <-]; auto with proot|].
  intros H Hc. apply (ok_channel (mkChannel l (sent (channel c)) (received (channel c)))) in Hc. revert H Hc.
  generalize (set_channel (mkChannel l (sent (channel c)) (received (channel c))) c). intros c0.
  case_bool; [by intros [= <- <-]|]. case_bool; [intros [= <- <-]; auto with proot|].
  destruct (read_frame c0) as [c1 [[h payload]|]] eqn:E1; intros H Hc; apply read_frame_ok in E1; try done.
  2: { injection H as <- <-. auto with proot. }
  case_bool_in H; [injection H as <- <-; auto with proot|].
  destruct (run_command c1 h payload) as [c2 []] eqn:E2; apply run_command_ok in E2; try done; injection H as <- <-; auto with proot.
Qed.

(** ** Requests *)

(** The address of an access is a struct sockaddr_storage. *)
Definition access_ok (a : NetAccess) : Prop :=
  match na_addr a with Some addr => length addr = SOCKADDR_STORAGE | None => True end.

Lemma ip_of_length addr : length addr = SOCKADDR_STORAGE -> (net_family_address_size (ss_family addr) <= length (ip_of addr))%nat.
Proof.
  intros H. unfold ip_of, net_family_address_size, sin_addr, sin6_addr. unfold SOCKADDR_STORAGE in H.
  repeat case_match; rewrite ?length_slice; lia.
Qed.

Lemma remember_answer_extends a type c c' : remember_answer a type c = Some c' -> extends c c' /\ channel c' = channel c.
Proof.
  unfold remember_answer. destruct (na_addr a); [|by intros [= <-]]. case_bool; [apply put_net_extends|by intros [= <-]].
Qed.

Lemma remember_answer_ok a type c c' : access_ok a -> remember_answer a type c = Some c' -> config_ok c -> config_ok c'.
Proof.
  unfold remember_answer, access_ok. destruct (na_addr a) as [addr|]; [|by intros _ [= <-]]. intros Ha.
  case_bool; [|by intros [= <-]]. apply put_net_ok; [by apply ip_of_length|]. unfold is_decision. case_bool; auto.
Qed.

Lemma ask_harness_extends a c c' r : ask_harness a c = (c', r) -> extends c c'.
Proof.
  unfold ask_harness. case_bool; [by intros [= <- <-]|]. case_bool; [by intros [= <- <-]|].
  destruct (use_rule _ _ _ _) as [[r' rules]|]; [intros [= <- <-]; auto with proot|].
  cbv zeta. intros H. etrans; [apply (extends_id (wrap64 (next_request_id c + 1)))|]. revert H.
  generalize (set_request_id (wrap64 (next_request_id c + 1)) c). intros c0. destruct (net_request _ _) as [request|]; [|by intros [= <- <-]].
  destruct (send_frame _ _ _) as [c1 []] eqn:E1; apply send_frame_extends in E1.
  2: { intros [= <- <-]. etrans; [exact E1|auto with proot]. }
  destruct (await_decision _ _ _) as [c2 [[type d]|]] eqn:E2; apply await_extends in E2.
  2: { intros [= <- <-]. etrans; [exact E1|]. etrans; [exact E2|auto with proot]. }
  destruct (remember_answer a type c2) as [c3|] eqn:E3; intros [= <- <-]; (etrans; [exact E1|]); (etrans; [exact E2|]).
  - by eapply remember_answer_extends.
  - auto with proot.
Qed.

Lemma ask_harness_ok a c c' r : access_ok a -> ask_harness a c = (c', r) -> config_ok c -> config_ok c'.
Proof.
  intros Ha. unfold ask_harness. case_bool; [by intros [= <- <-]|]. case_bool; [by intros [= <- <-]|].
  destruct (use_rule _ _ _ _) as [[r' rules]|] eqn:Eu.
  { intros [= <- <-] Hc. apply use_rule_spec in Eu as (_ & _ & L & F). pose proof Hc as (H1 & H2 & _).
    apply ok_dynamic; [by rewrite L|apply F; auto with proot|done]. }
  cbv zeta. intros H Hc. apply ok_request_id in Hc. revert H Hc.
  generalize (set_request_id (wrap64 (next_request_id c + 1)) c). intros c0. destruct (net_request _ _) as [request|]; [|by intros [= <- <-]].
  destruct (send_frame _ _ _) as [c1 []] eqn:E1; intros H Hc; apply send_frame_ok in E1; try done.
  2: { injection H as <- <-. auto with proot. }
  destruct (await_decision _ _ _) as [c2 [[type d]|]] eqn:E2; apply await_ok in E2; try done.
  2: { injection H as <- <-. auto with proot. }
  destruct (remember_answer a type c2) as [c3|] eqn:E3; injection H as <- <-; [by eapply remember_answer_ok|auto with proot].
Qed.

Lemma path_access_extends p other o reason c c' r : control_path_access p other o reason c = (c', r) -> extends c c'.
Proof.
  unfold control_path_access. cbv zeta. case_bool; [by intros [= <- <-]|].
  destruct (control_drain_commands c) as [c0 []] eqn:E0; apply drain_extends in E0; [|by intros [= <- <-]].
  destruct (use_rule _ _ _ _) as [[r' rules]|]; [intros [= <- <-]; etrans; [exact E0|auto with proot]|].
  case_bool; [by intros [= <- <-]|]. intros H. etrans; [exact E0|].
  etrans; [apply (extends_id (wrap64 (next_request_id c0 + 1)))|]. revert H.
  generalize (set_request_id (wrap64 (next_request_id c0 + 1)) c0). intros c1.
  destruct (send_frame _ _ _) as [c2 []] eqn:E1; apply send_frame_extends in E1.
  2: { intros [= <- <-]. etrans; [exact E1|auto with proot]. }
  destruct (await_decision _ _ _) as [c3 [[type d]|]] eqn:E2; apply await_extends in E2; intros [= <- <-]; (etrans; [exact E1|]); (etrans; [exact E2|]); [|auto with proot].
  case_bool; [|done]. destruct (control_apply_command _ _ _) eqn:E3; [by eapply apply_command_extends|done|done].
Qed.

Lemma path_access_ok p other o reason c c' r : control_path_access p other o reason c = (c', r) -> config_ok c -> config_ok c'.
Proof.
  unfold control_path_access. cbv zeta. case_bool; [by intros [= <- <-]|]. intros H Hc.
  destruct (control_drain_commands c) as [c0 []] eqn:E0; apply drain_ok in E0; try done; [|by injection H as <- <-].
  destruct (use_rule _ _ _ _) as [[r' rules]|] eqn:Eu.
  { injection H as <- <-. apply use_rule_spec in Eu as (_ & _ & L & F). pose proof E0 as (_ & _ & H1 & H2 & _).
    apply ok_path_rules; [by rewrite L|apply F; auto with proot|done]. }
  case_bool_in H; [by injection H as <- <-|]. apply ok_request_id in E0. revert H E0.
  generalize (set_request_id (wrap64 (next_request_id c0 + 1)) c0). intros c1 H E0.
  destruct (send_frame _ _ _) as [c2 []] eqn:E1; apply send_frame_ok in E1; try done.
  2: { injection H as <- <-. auto with proot. }
  destruct (await_decision _ _ _) as [c3 [[type d]|]] eqn:E2; apply await_ok in E2; try done; injection H as <- <-; [|auto with proot].
  case_bool; [|done]. destruct (control_apply_command _ _ _) eqn:E3; [by eapply apply_command_ok|done|done].
Qed.

Lemma shadow_event_extends p o c c' ok : control_shadow_event p o c = (c', ok) -> extends c c'.
Proof.
  unfold control_shadow_event. case_bool; [by intros [= <- <-]|]. cbv zeta.
  destruct (send_frame _ _ _) as [c1 []] eqn:E1; apply send_frame_extends in E1; intros [= <- <-].
  - etrans; [|exact E1]. auto with proot.
  - etrans; [|apply extends_failed]. etrans; [|exact E1]. auto with proot.
Qed.

Lemma shadow_event_ok p o c c' ok : control_shadow_event p o c = (c', ok) -> config_ok c -> config_ok c'.
Proof.
  unfold control_shadow_event. case_bool; [by intros [= <- <-]|]. cbv zeta.
  destruct (send_frame _ _ _) as [c1 []] eqn:E1; intros [= <- <-] Hc; apply send_frame_ok in E1; auto with proot.
Qed.

Lemma shadow_access_extends s x y p d c c' r : net_policy_shadow_access s x y p d c = (c', r) -> extends c c'.
Proof.
  unfold net_policy_shadow_access. cbv zeta. destruct (List.find _ _); [|by intros [= <- <-]]. case_bool; [by intros [= <- <-]|].
  case_bool; [by intros [= <- <-]|]. destruct (control_shadow_event _ _ _) as [c1 []] eqn:E1; apply shadow_event_extends in E1; [|by intros [= <- <-]].
  destruct (control_path_access _ _ _ _ _) as [c2 [?|?|?]] eqn:E2; apply path_access_extends in E2; intros [= <- <-]; by etrans.
Qed.

Lemma shadow_access_ok s x y p d c c' r : net_policy_shadow_access s x y p d c = (c', r) -> config_ok c -> config_ok c'.
Proof.
  unfold net_policy_shadow_access. cbv zeta. destruct (List.find _ _); [|by intros [= <- <-]]. case_bool; [by intros [= <- <-]|].
  case_bool; [by intros [= <- <-]|]. intros H Hc. destruct (control_shadow_event _ _ _) as [c1 []] eqn:E1; apply shadow_event_ok in E1; try done; [|by injection H as <- <-].
  destruct (control_path_access _ _ _ _ _) as [c2 [?|?|?]] eqn:E2; apply path_access_ok in E2; try done; by injection H as <- <-.
Qed.

(** ** Directories *)

Lemma restore_shadows_paths saved : forall l, map sh_path (restore_shadows saved l) = map sh_path l.
Proof. induction saved as [|s saved IH]; intros [|x l]; cbn; [done..|]. by rewrite IH. Qed.

Lemma restore_reveal l : restore_shadows l (reveal_all l) = l.
Proof. induction l as [|[p r v] l IH]; cbn; [done|]. f_equal. exact IH. Qed.

Lemma extends_shadows x c : map sh_path x = map sh_path (shadows c) -> extends c (set_shadows x c).
Proof. by split. Qed.

Lemma same_paths_ok x y : map sh_path x = map sh_path y -> Forall shadow_ok y -> length x = length y /\ Forall shadow_ok x.
Proof.
  revert y. induction x as [|s x IH]; intros [|t y] E H; try done. injection E as E1 E2. apply Forall_cons in H as [H1 H2].
  destruct (IH y E2 H2) as [L ?]. split; [cbn; by rewrite L|]. constructor; [|done]. unfold shadow_ok. by rewrite E1.
Qed.

Lemma set_shadows_ok x c : map sh_path x = map sh_path (shadows c) -> config_ok c -> config_ok (set_shadows x c).
Proof.
  intros E Hc. pose proof Hc as (_ & _ & _ & _ & H1 & H2 & _). destruct (same_paths_ok _ _ E H2) as [L F].
  by apply ok_shadows; [rewrite L|..].
Qed.

Section Filtering.

Context (translate : NetPolicyConfig -> cstr -> NetPolicyConfig * option cstr).
Hypothesis translate_extends : forall c p, extends c (fst (translate c p)).
Hypothesis translate_ok : forall c p, config_ok c -> config_ok (fst (translate c p)).

Lemma translate_revealed_spec c p : extends c (fst (translate_revealed translate c p))
  /\ (config_ok c -> config_ok (fst (translate_revealed translate c p))).
Proof.
  unfold translate_revealed. set (d := set_shadows (reveal_all (shadows c)) c).
  assert (Ed : map sh_path (reveal_all (shadows c)) = map sh_path (shadows c)) by (unfold reveal_all; by rewrite map_map).
  pose proof (extends_shadows _ c Ed) as H1. pose proof (set_shadows_ok _ c Ed) as K1.
  pose proof (translate_extends d p) as H2. pose proof (translate_ok d p) as K2. destruct (translate d p) as [c' host]. cbn [fst] in *.
  pose proof (restore_shadows_paths (shadows c) (shadows c')) as Er. split.
  - etrans; [exact H1|]. etrans; [exact H2|]. by apply extends_shadows.
  - intros Hc. apply set_shadows_ok; [done|]. by apply K2, K1.
Qed.

Lemma hides_loop_spec n : forall i p h c, extends c (fst (hides_loop translate n i p h c))
  /\ (config_ok c -> config_ok (fst (hides_loop translate n i p h c))).
Proof.
  induction n as [|n IH]; intros i p h c; cbn [hides_loop]; [done|]. destruct (shadows c !! i) as [s|]; [|done].
  case_bool; [done|]. case_bool; [done|]. case_bool; [apply IH|].
  pose proof (translate_revealed_spec c (sh_path s)) as [H1 K1]. destruct (translate_revealed translate c (sh_path s)) as [c1 host]. cbn [fst] in *.
  case_bool; [done|]. destruct (IH (S i) p h c1) as [H2 K2]. split; [by etrans|auto].
Qed.

Lemma filter_dirents_spec n d64 parent : forall data c, extends c (fst (filter_dirents translate n d64 parent data c))
  /\ (config_ok c -> config_ok (fst (filter_dirents translate n d64 parent data c))).
Proof.
  induction n as [|n IH]; intros data c; cbn [filter_dirents]; [done|]. destruct data as [|x data]; [done|]. cbv zeta.
  case_bool; [done|]. case_bool; [done|]. unfold control_shadow_hides_entry.
  match goal with |- context [hides_loop translate ?k ?i ?p ?h c] => pose proof (hides_loop_spec k i p h c) as [H1 K1];
    destruct (hides_loop translate k i p h c) as [c1 b] end. cbn [fst] in *.
  match goal with |- context [filter_dirents translate n d64 parent ?k c1] => pose proof (IH k c1) as [H2 K2];
    destruct (filter_dirents translate n d64 parent k c1) as [c2 kept] end. cbn [fst] in *.
  split; [by etrans|auto].
Qed.

Lemma getdents_spec d64 result parent data c : extends c (fst (control_filter_getdents translate d64 result parent data c))
  /\ (config_ok c -> config_ok (fst (control_filter_getdents translate d64 result parent data c))).
Proof.
  unfold control_filter_getdents. case_bool; [done|]. destruct (control_drain_commands c) as [c1 []] eqn:E1;
    pose proof (drain_extends _ _ _ E1) as H1; pose proof (drain_ok _ _ _ E1) as K1; [|done].
  destruct parent as [parent|]; [|done]. destruct data as [data|]; [|done].
  pose proof (filter_dirents_spec (length data) d64 parent data c1) as [H2 K2].
  destruct (filter_dirents _ _ _ _ _ c1) as [c2 kept]. cbn [fst] in *. split; [by etrans|auto].
Qed.

End Filtering.

(** ** Runs *)

Lemma set_control_fd_ok {Fds : ControlFds} v ch c c' : net_policy_set_control_fd v ch c = Ok c' -> config_ok c -> config_ok c'.
Proof.
  unfold net_policy_set_control_fd. destruct (strtol10_end v) as [fd rest]. case_bool; [done|].
  destruct (fcntl_getfd fd); [done|]. destruct (getsockopt_type fd); [|done]. case_bool; [done|]. destruct (fcntl_setfd fd); [done|].
  destruct (write_full_timeout ch hello) as [ch' ok]. intros [= <-]. by apply config_ok_same.
Qed.

(** What happens to a configuration: the requests of the tracees, and what the
    command line installs. *)
Inductive ControlEvent :=
  | NetRequest (a : NetAccess)
  | Publication (guest_pid host_pid host_port guest_port : Z)
  | PathAccess (p : cstr) (other : option cstr) (o : NetControlPathOperation) (reason : NetControlPathReason)
  | RulePrecheck (p : cstr) (other : option cstr) (o : NetControlPathOperation)
  | ShadowAccess (sysnum : Sysnum) (arg2 arg3 : Z) (p : cstr) (default : NetControlPathOperation)
  | Drain
  | SetPeer (p : cstr)
  | SetOperation (o : NetControlPathOperation)
  | ClearPeer
  | Getdents (dirent64 : bool) (result : Z) (parent : option cstr) (data : option (list Z))
  | SetStatic (s : StaticPolicy)
  | AddShadow (p : cstr)
  | SetControlFd (v : cstr) (ch : Channel).

Definition event_ok (e : ControlEvent) : Prop := match e with NetRequest a => access_ok a | _ => True end.

(** The command line installs a controller. *)
Definition installs (e : ControlEvent) : bool := match e with SetControlFd _ _ => true | _ => false end.

Section Runs.

Context {Fds : ControlFds} (translate : NetPolicyConfig -> cstr -> NetPolicyConfig * option cstr).

Definition control_step (c : NetPolicyConfig) (e : ControlEvent) : NetPolicyConfig :=
  match e with
  | NetRequest a => fst (ask_harness a c)
  | Publication g h x y => fst (net_policy_allow_publication g h x y c)
  | PathAccess p other o reason => fst (net_policy_path_access p other o reason c)
  | RulePrecheck p other o => fst (net_policy_path_rule_precheck p other o c)
  | ShadowAccess s x y p d => fst (net_policy_shadow_access s x y p d c)
  | Drain => fst (control_drain_commands c)
  | SetPeer p => fst (net_policy_set_path_peer p c)
  | SetOperation o => net_policy_set_path_operation o c
  | ClearPeer => net_policy_clear_path_peer c
  | Getdents d64 result parent data => fst (control_filter_getdents translate d64 result parent data c)
  | SetStatic s => set_static s c
  | AddShadow p => match net_policy_add_shadow p c with Ok c => c | _ => c end
  | SetControlFd v ch => match net_policy_set_control_fd v ch c with Ok c => c | _ => c end
  end.

Hypothesis translate_extends : forall c p, extends c (fst (translate c p)).
Hypothesis translate_ok : forall c p, config_ok c -> config_ok (fst (translate c p)).

Lemma control_step_ok c e : event_ok e -> config_ok c -> config_ok (control_step c e).
Proof.
  intros He Hc. destruct e; cbn [control_step].
  - destruct (ask_harness a c) as [c' r] eqn:E. by eapply ask_harness_ok.
  - unfold net_policy_allow_publication. case_bool; [done|]. destruct (check_bind_port _ _); [|done..].
    destruct (ask_harness _ c) as [c' r] eqn:E. by eapply ask_harness_ok; [|exact E|].
  - unfold net_policy_path_access. case_bool; [done|]. destruct (control_path_access _ _ _ _ c) as [c' r] eqn:E. by eapply path_access_ok.
  - unfold net_policy_path_rule_precheck. cbv zeta. destruct (use_rule _ _ _ _) as [[r rules]|] eqn:E; [|done].
    apply use_rule_spec in E as (_ & _ & L & F). pose proof Hc as (_ & _ & H1 & H2 & _).
    apply ok_path_rules; [by rewrite L|apply F; auto with proot|done].
  - destruct (net_policy_shadow_access _ _ _ _ _ c) as [c' r] eqn:E. by eapply shadow_access_ok.
  - destruct (control_drain_commands c) as [c' r] eqn:E. by eapply drain_ok.
  - unfold net_policy_set_path_peer. case_bool; [done|]. destruct (normalize_guest_path p); [by apply ok_peer|done..].
  - by apply ok_peer.
  - by apply ok_peer.
  - by apply getdents_spec.
  - revert Hc. by apply config_ok_same.
  - unfold net_policy_add_shadow. case_bool; [done|]. destruct (normalize_guest_path p) as [q|e|w]; [|done..].
    destruct (Nat.leb_spec MAX_SHADOWS (length (shadows c))) as [Hl|Hl]; [done|].
    pose proof Hc as (_ & _ & _ & _ & H1 & H2 & _). apply ok_shadows; [rewrite length_app; cbn [length]; lia| |done].
    apply Forall_app. split; [done|]. constructor; [|constructor]. unfold shadow_ok, zlen. cbn [sh_path].
    rewrite length_take. unfold PATH_MAX. lia.
  - destruct (net_policy_set_control_fd v ch c) as [c'|?|?] eqn:E; [|done..]. by eapply set_control_fd_ok.
Qed.

(** The controller is connected and its channel has failed. *)
Definition failed (c : NetPolicyConfig) : Prop := connected c = true /\ ask_failed c = true.

Lemma extends_stays_failed c c' : extends c c' -> failed c -> failed c'.
Proof. intros H [H1 H2]. split; [by rewrite (extends_connected _ _ H)|]. by apply (ext_failed _ _ H). Qed.

Lemma control_step_failed c e : installs e = false -> failed c -> failed (control_step c e).
Proof.
  intros He Hc. destruct e; cbn [control_step].
  - destruct (ask_harness a c) as [c' r] eqn:E. apply ask_harness_extends in E. by eapply extends_stays_failed.
  - unfold net_policy_allow_publication. case_bool; [done|]. destruct (check_bind_port _ _); [|done..].
    destruct (ask_harness _ c) as [c' r] eqn:E. apply ask_harness_extends in E. by eapply extends_stays_failed.
  - unfold net_policy_path_access. case_bool; [done|]. destruct (control_path_access _ _ _ _ c) as [c' r] eqn:E.
    apply path_access_extends in E. by eapply extends_stays_failed.
  - unfold net_policy_path_rule_precheck. cbv zeta. by destruct (use_rule _ _ _ _) as [[r rules]|].
  - destruct (net_policy_shadow_access _ _ _ _ _ c) as [c' r] eqn:E. apply shadow_access_extends in E. by eapply extends_stays_failed.
  - destruct (control_drain_commands c) as [c' r] eqn:E. apply drain_extends in E. by eapply extends_stays_failed.
  - unfold net_policy_set_path_peer. case_bool; [done|]. by destruct (normalize_guest_path p).
  - done.
  - done.
  - eapply extends_stays_failed; [|done]. by apply getdents_spec.
  - done.
  - unfold net_policy_add_shadow. case_bool; [done|]. destruct (normalize_guest_path p) as [q|?|?]; [|done..]. by case_bool.
  - done.
Qed.

Definition control_run (events : list ControlEvent) (c : NetPolicyConfig) : NetPolicyConfig := fold_left control_step events c.

Lemma control_run_failed events : forall c, Forall (fun e => installs e = false) events ->
  failed c -> failed (control_run events c).
Proof.
  induction events as [|e events IH]; intros c He Hc; [done|]. apply Forall_cons in He as [H1 H2]. by apply IH, control_step_failed.
Qed.

Lemma control_run_ok events : forall c, Forall event_ok events -> config_ok c -> config_ok (control_run events c).
Proof.
  induction events as [|e events IH]; intros c He Hc; [done|]. apply Forall_cons in He as [H1 H2]. by apply IH, control_step_ok.
Qed.

Lemma drain_failed c : failed c -> control_drain_commands c = (c, false).
Proof. intros [H1 H2]. unfold control_drain_commands. by rewrite H1, H2. Qed.

Lemma failed_refuses c : failed c ->
  (forall a, ask_harness a c = (c, Err EACCES))
  /\ (forall p other o reason, control_path_access p other o reason c = (c, Err EACCES)).
Proof.
  intros Hc. pose proof (drain_failed c Hc) as Hd. destruct Hc as [H1 H2]. split.
  - intros a. unfold ask_harness. by rewrite H1, H2.
  - intros p other o reason. unfold control_path_access. cbv zeta. case_bool; [done|]. by rewrite Hd.
Qed.

End Runs.

Lemma new_config_ok : config_ok new_config.
Proof. split_and!; cbn; try lia; constructor. Qed.

(** ** Rules that are set *)

Lemma use_rule_app {A} (matches persistent : A -> bool) blank a r b :
  Forall (fun r => matches r = false) a -> matches r = true ->
  use_rule matches persistent blank (a ++ r :: b) = Some (r, a ++ (if persistent r then r else blank) :: b).
Proof.
  intros Ha Hr. induction Ha as [|x a Hx _ IH]; cbn [app use_rule]; [rewrite Hr; by case_match|]. by rewrite Hx, IH.
Qed.

Lemma clear_rule_app {A} (matches : A -> bool) blank a r b :
  Forall (fun r => matches r = false) a -> matches r = true -> clear_rule matches blank (a ++ r :: b) = a ++ blank :: b.
Proof. intros Ha Hr. induction Ha as [|x a Hx _ IH]; cbn [app clear_rule]; [by rewrite Hr|]. by rewrite Hx, IH. Qed.

Lemma put_rule_none {A} (active : A -> bool) blank fill room : forall l,
  put_rule active room blank fill l = None -> (room <= length l)%nat /\ Forall (fun r => active r = true) (take room l).
Proof.
  induction room as [|room IH]; intros l H; [split; [lia|constructor]|]. destruct l as [|r l]; cbn [put_rule] in H; [done|].
  destruct (active r) eqn:Er; [|done]. destruct (put_rule active room blank fill l) eqn:E; [done|].
  destruct (IH _ E) as [H1 H2]. cbn. split; [lia|by constructor].
Qed.

Lemma text_of_field p : nul_free p -> zlen p < 1024 -> text_of (path_field p) = p.
Proof.
  intros Hp Hl. unfold text_of, path_field, CONTROL_PATH_LEN. unfold zlen in Hl. rewrite take_ge by lia. rewrite resize_ge by lia.
  destruct (1024 - length p)%nat eqn:E; [lia|]. cbn [replicate]. rewrite span_all; [done| |done].
  eapply Forall_impl; [exact Hp|]. intros c Hc. by apply negb_true_iff, Z.eqb_neq.
Qed.

Lemma field_terminated p : zlen p < 1024 -> chr (path_field p) 1023 = 0.
Proof.
  intros Hl. unfold path_field, CONTROL_PATH_LEN, zlen in *. rewrite take_ge by lia. rewrite resize_ge by lia.
  unfold chr. rewrite app_nth2, nth_lookup by lia.
  destruct (replicate _ _ !! _) eqn:E; [|done]. by apply lookup_replicate in E as [-> _].
Qed.

Lemma length_path_field p : length (path_field p) = CONTROL_PATH_LEN.
Proof. apply length_resize. Qed.

Lemma decode_encode_path operation scope d p other :
  0 <= operation < 2 ^ 32 -> 0 <= scope < 2 ^ 32 -> 0 <= d < 2 ^ 32 ->
  decode_path_command (encode_path_command operation scope d p other)
  = mkPathCommand operation scope d (path_field p) (path_field other)
  /\ zlen (encode_path_command operation scope d p other) = sizeof_ControlPathCommand.
Proof.
  intros H1 H2 H3. pose proof (length_path_field p) as Lp. pose proof (length_path_field other) as Lo.
  unfold CONTROL_PATH_LEN in *. unfold decode_path_command, encode_path_command, CONTROL_PATH_LEN. split.
  - f_equal.
    + fields. apply of_le_to_le. cbn. lia.
    + fields. apply of_le_to_le. cbn. lia.
    + fields. apply of_le_to_le. cbn. lia.
    + do 3 (rewrite slice_app_r by (rewrite ?length_to_le; cbn; lia); rewrite ?length_to_le; cbn [Nat.sub]).
      rewrite slice_app_l by lia. by apply slice_all.
    + do 3 (rewrite slice_app_r by (rewrite ?length_to_le; lia); rewrite ?length_to_le).
      rewrite slice_app_r by lia. rewrite Lp. by apply slice_all.
  - unfold zlen. rewrite !length_app, !length_to_le, Lp, Lo. done.
Qed.

Lemma op_code_range o : 1 <= op_code o <= 6.
Proof. destruct o; cbn; lia. Qed.

(** A path that fits a command. *)
Definition command_path (p : cstr) : Prop := nul_free p /\ zlen p < 1024.

(** What a rule answers to net_policy_path_rule_precheck(). *)
Definition prechecked (d : Z) : res bool := if d =? 0 then Err EACCES else Ok true.

Lemma apply_set_rule c o d p other : command_path p -> command_path other -> is_decision d ->
  control_apply_command c CONTROL_SET_RULE (encode_path_command (op_code o) 0 d p other)
  = match put_path_rule (op_code o) p other d true c with Some c => Ok c | None => Err ENOSPC end.
Proof.
  intros [Hp1 Hp2] [Ho1 Ho2] Hd. pose proof (op_code_range o) as Hr.
  assert (Hd' : 0 <= d < 2 ^ 32) by (destruct Hd as [-> | ->]; unfold NET_DECISION_DENY, NET_DECISION_ALLOW; lia).
  destruct (decode_encode_path (op_code o) 0 d p other ltac:(lia) ltac:(lia) Hd') as [E L].
  unfold control_apply_command. rewrite L, E. cbn [pc_path pc_other pc_operation pc_scope pc_decision].
  rewrite !field_terminated, !text_of_field by done.
  replace ((op_code o <? 1) || (6 <? op_code o)) with false by (symmetry; apply orb_false_iff; split; apply Z.ltb_ge; lia).
  by destruct Hd as [-> | ->].
Qed.

Lemma apply_forget c o p other : command_path p -> command_path other ->
  control_apply_command c CONTROL_FORGET (encode_path_command (op_code o) 0 0 p other)
  = Ok (control_remove_path_rule (op_code o) p other c).
Proof.
  intros [Hp1 Hp2] [Ho1 Ho2]. pose proof (op_code_range o) as Hr.
  destruct (decode_encode_path (op_code o) 0 0 p other ltac:(lia) ltac:(lia) ltac:(lia)) as [E L].
  unfold control_apply_command. rewrite L, E. cbn [pc_path pc_other pc_operation pc_scope pc_decision].
  rewrite !field_terminated, !text_of_field by done.
  by replace ((op_code o <? 1) || (6 <? op_code o)) with false by (symmetry; apply orb_false_iff; split; apply Z.ltb_ge; lia).
Qed.

Lemma fill_path_matches o p other d b old : command_path p -> command_path other ->
  path_rule_matches o p other (fill_path_rule o p other d b old) = true.
Proof.
  intros [_ Hp] [_ Ho]. unfold path_rule_matches, fill_path_rule, CONTROL_PATH_LEN, zlen in *.
  cbn [pr_active pr_operation pr_path pr_other]. rewrite !take_ge by lia. by rewrite Z.eqb_refl, !str_eqb_refl.
Qed.

(** ** Entries that are hidden *)

(** An entry of a directory in a buffer. *)
Record Dirent := mkDirent { de_head : list Z; de_type : list Z; de_name : cstr; de_pad : list Z }.
Definition dirent_length (e : Dirent) : nat := 18 + length (de_type e) + length (de_name e) + 1 + length (de_pad e).
Definition encode_dirent (e : Dirent) : list Z :=
  de_head e ++ to_le 2 (Z.of_nat (dirent_length e)) ++ de_type e ++ de_name e ++ 0 :: de_pad e.
Definition dirent_ok (dirent64 : bool) (e : Dirent) : Prop :=
  length (de_head e) = 16%nat /\ length (de_type e) = (if dirent64 then 1 else 0)%nat /\ nul_free (de_name e)
  /\ Z.of_nat (dirent_length e) < 65536.

(** What a shadow conceals: its own path while it is not revealed, and what is
    below while it is not revealed with what it contains, by the names of the
    guest and by those of the host. *)
Definition conceals_name (s : ControlShadow) (base p : cstr) : bool :=
  if str_eqb p base then negb (sh_revealed s)
  else control_path_is_under p base && negb (sh_revealed s && sh_recursive s).
Definition conceals (host : cstr -> option cstr) (p host_entry : cstr) (s : ControlShadow) : bool :=
  conceals_name s (sh_path s) p
  || negb (str_eqb host_entry [])
     && match host (sh_path s) with Some h => conceals_name s h host_entry | None => false end.

Definition entry_path (parent name : cstr) : cstr :=
  take (Z.to_nat PATH_MAX - 1) (if str_eqb parent (bs "/") then SLASH :: name else parent ++ SLASH :: name).
Definition host_entry_path (parent name : cstr) : cstr := match join2 parent name with Ok h => h | _ => [] end.

Definition concealed (host : cstr -> option cstr) (c : NetPolicyConfig) (parent : cstr) (e : Dirent) : bool :=
  existsb (conceals host (entry_path parent (de_name e)) (host_entry_path parent (de_name e))) (shadows c).

Lemma sublist_same {A} (l k : list A) : sublist l k -> length l = length k -> l = k.
Proof.
  induction 1 as [|x l k H IH|x l k H IH]; intros E; [done| |].
  - injection E as E. by rewrite IH.
  - apply sublist_length in H. cbn in E. lia.
Qed.

Section Hiding.

Context (host : cstr -> option cstr).
Abbreviation pure := (fun c p => (c, host p)).

Lemma set_shadows_twice x c : set_shadows (shadows c) (set_shadows x c) = c.
Proof. by destruct c. Qed.

Lemma translate_revealed_pure c p : translate_revealed pure c p = (c, host p).
Proof. unfold translate_revealed. cbn. rewrite restore_reveal. f_equal. by destruct c. Qed.

Lemma under_self p : control_path_is_under p p = true.
Proof. unfold control_path_is_under. by rewrite str_eqb_refl. Qed.

Lemma hides_loop_pure p h c n : forall i, (length (shadows c) <= i + n)%nat ->
  hides_loop pure n i p h c = (c, existsb (conceals host p h) (drop i (shadows c))).
Proof.
  induction n as [|n IH]; intros i Hi; cbn [hides_loop]; [by rewrite drop_ge by lia|].
  destruct (shadows c !! i) as [s|] eqn:Es; [|by rewrite drop_ge by (by apply lookup_ge_None)].
  rewrite (drop_S _ _ _ Es). cbn [existsb]. unfold conceals at 1, conceals_name.
  destruct (str_eqb p (sh_path s)) eqn:Ep.
  - apply str_eqb_eq in Ep as ->. rewrite under_self. destruct (sh_revealed s) eqn:Er; cbn [negb andb orb]; [|done].
    destruct (str_eqb h []) eqn:Eh; [by rewrite IH by lia|]. rewrite translate_revealed_pure.
    destruct (host (sh_path s)) as [g|]; cbn [negb andb orb]; [|by rewrite IH by lia].
    destruct (str_eqb h g) eqn:Eg; cbn [negb andb orb]; [by rewrite IH by lia|].
    destruct (control_path_is_under h g && negb (sh_recursive s)); [done|]. by rewrite IH by lia.
  - destruct (control_path_is_under p (sh_path s) && negb (sh_revealed s && sh_recursive s)) eqn:Eu; cbn [negb andb orb].
    { rewrite andb_true_iff in Eu. destruct Eu as [-> ->]. done. }
    rewrite andb_true_r, Eu. destruct (str_eqb h []) eqn:Eh; [by rewrite IH by lia|]. rewrite translate_revealed_pure.
    destruct (host (sh_path s)) as [g|]; cbn [negb andb orb]; [|by rewrite IH by lia].
    destruct (str_eqb h g) eqn:Eg; cbn [negb andb orb].
    + rewrite andb_true_r. destruct (sh_revealed s); [by rewrite IH by lia|done].
    + destruct (control_path_is_under h g && negb (sh_revealed s && sh_recursive s)); [done|]. by rewrite IH by lia.
Qed.

Lemma length_encode_dirent d64 e : dirent_ok d64 e -> length (encode_dirent e) = dirent_length e.
Proof.
  intros (H1 & H2 & _). unfold encode_dirent, dirent_length. rewrite !length_app, length_to_le. cbn [length].
  lia.
Qed.

Lemma filter_dirents_pure d64 parent c entries : forall n,
  Forall (dirent_ok d64) entries -> (length (concat (map encode_dirent entries)) <= n)%nat ->
  filter_dirents pure n d64 parent (concat (map encode_dirent entries)) c
  = (c, concat (map encode_dirent (base.filter (fun e => concealed host c parent e = false) entries))).
Proof.
  induction entries as [|e entries IH]; intros n He Hn; [by destruct n|]. apply Forall_cons in He as [He Hes].
  pose proof (length_encode_dirent d64 e He) as Hlen. destruct He as (H1 & H2 & H3 & H4).
  assert (Hpos : (18 <= dirent_length e)%nat) by (unfold dirent_length; lia).
  cbn [map concat] in *. rewrite length_app, Hlen in Hn. destruct n as [|n]; [lia|]. cbn [filter_dirents].
  set (data := encode_dirent e ++ concat (map encode_dirent entries)). destruct data as [|x l] eqn:Ed.
  { apply (f_equal length) in Ed. unfold data in Ed. rewrite length_app, Hlen in Ed. cbn in Ed. lia. }
  rewrite <- Ed. clear x l Ed. cbv zeta.
  assert (Ereclen : Z.to_nat (of_le (slice RECLEN 2 data)) = dirent_length e).
  { unfold data, RECLEN, encode_dirent. rewrite <- !app_assoc. rewrite slice_app_r by lia. rewrite H1.
    rewrite slice_app_l by (rewrite length_to_le; lia). rewrite slice_all by apply length_to_le.
    rewrite of_le_to_le; lia. }
  rewrite Ereclen. assert (Eoff : name_offset d64 = (18 + length (de_type e))%nat) by (rewrite H2; by destruct d64).
  assert (Ename : slice (name_offset d64) (dirent_length e - name_offset d64) data = de_name e ++ 0 :: de_pad e).
  { unfold data, encode_dirent. rewrite Eoff, <- !app_assoc. rewrite slice_app_r by lia. rewrite H1.
    rewrite slice_app_r by (rewrite length_to_le; lia). rewrite length_to_le. rewrite slice_app_r by lia.
    replace (18 + length (de_type e) - 16 - 2 - length (de_type e))%nat with 0%nat by lia.
    rewrite app_assoc, slice_app_l; [|rewrite length_app; cbn [length]; unfold dirent_length; lia].
    apply slice_all. rewrite length_app. cbn [length]. unfold dirent_length. lia. }
  rewrite Ename. assert (Hlo : (dirent_length e <? name_offset d64)%nat = false) by (apply Nat.ltb_ge; rewrite Eoff; unfold dirent_length; lia).
  assert (Hhi : (length data <? dirent_length e)%nat = false) by (apply Nat.ltb_ge; unfold data; rewrite length_app; lia).
  rewrite Hlo, Hhi. cbn [orb].
  assert (Ez : existsb (Z.eqb 0) (de_name e ++ 0 :: de_pad e) = true) by (rewrite existsb_app; cbn; by rewrite orb_true_r).
  rewrite Ez. cbn [negb].
  assert (Et : text_of (de_name e ++ 0 :: de_pad e) = de_name e).
  { unfold text_of. rewrite span_all; [done| |done]. eapply Forall_impl; [exact H3|]. intros z Hz. by apply negb_true_iff, Z.eqb_neq. }
  rewrite Et. unfold control_shadow_hides_entry. rewrite (hides_loop_pure _ _ c (length (shadows c)) 0) by lia. rewrite drop_0.
  fold (entry_path parent (de_name e)). fold (host_entry_path parent (de_name e)). fold (concealed host c parent e).
  assert (Edrop : drop (dirent_length e) data = concat (map encode_dirent entries)) by (unfold data; by rewrite <- Hlen, drop_app_length).
  assert (Etake : take (dirent_length e) data = encode_dirent e) by (unfold data; by rewrite <- Hlen, take_app_length).
  rewrite Edrop, Etake, IH by (done || lia). rewrite filter_cons. destruct (concealed host c parent e) eqn:Ec.
  - by rewrite decide_False by done.
  - by rewrite decide_True by done.
Qed.

End Hiding.

(** A translation of paths that uses the policy as the tracees do. *)
Definition respectful (translate : NetPolicyConfig -> cstr -> NetPolicyConfig * option cstr) : Prop :=
  (forall c p, extends c (fst (translate c p))) /\ (forall c p, config_ok c -> config_ok (fst (translate c p))).

(** ** A channel that has failed *)

(** The shadow that hides a path. *)
Definition hidden_by (p : cstr) (c : NetPolicyConfig) : option ControlShadow :=
  match List.find (shadow_over p) (shadows c) with
  | Some s => if sh_revealed s && (str_eqb p (sh_path s) || sh_recursive s) then None else Some s
  | None => None
  end.

(** The operation that a system call is held to do on a hidden path. *)
Definition wanted_operation (sysnum : Sysnum) (arg2 arg3 : Z) (default : NetControlPathOperation) (c : NetPolicyConfig)
  : NetControlPathOperation :=
  match path_operation_override c with Some o => o | None => shadow_operation sysnum arg2 arg3 default end.

(** At most the event of a hidden path is written between two configurations. *)
Definition event_sent (o : NetControlPathOperation) (p : cstr) (c c' : NetPolicyConfig) : Prop :=
  let id := wrap64 (next_request_id c + 1) in
  let event := encode_header (control_header CONTROL_SHADOW_EVENT sizeof_ControlPathRequest id)
               ++ encode_path_request (op_code o) (reason_code NET_CONTROL_REASON_HIDDEN_SHADOW) p [] in
  c' = set_channel (channel c') (set_request_id id c) /\ received (channel c') = received (channel c)
  /\ exists k, sent (channel c') = sent (channel c) ++ take k event.

Lemma set_failed_id c : ask_failed c = true -> set_failed c = c.
Proof. destruct c. cbn. by intros ->. Qed.

Lemma failed_event p o c c' ok : failed c -> control_shadow_event p o c = (c', ok) -> event_sent o p c c' /\ failed c'.
Proof.
  intros Hf. unfold control_shadow_event, event_sent. pose proof Hf as [H1 H2]. rewrite H1. cbn [negb]. cbv zeta.
  destruct (send_frame _ _ _) as [c1 b] eqn:E. apply send_frame_spec in E as (E & R & k & S & _). cbn [channel set_request_id] in R, S.
  assert (Hf1 : failed c1) by (rewrite E; exact Hf).
  assert (Hc : c' = c1 -> (c' = set_channel (channel c') (set_request_id (wrap64 (next_request_id c + 1)) c) /\ received (channel c') = received (channel c)
    /\ exists k, sent (channel c') = sent (channel c) ++ take k (encode_header (control_header CONTROL_SHADOW_EVENT sizeof_ControlPathRequest (wrap64 (next_request_id c + 1)))
         ++ encode_path_request (op_code o) (reason_code NET_CONTROL_REASON_HIDDEN_SHADOW) p [])) /\ failed c').
  { intros ->. split; [split_and!; [done|done|by exists k]|done]. }
  destruct b; intros [= <- <-]; apply Hc; [done|]. apply set_failed_id, Hf1.
Qed.

Lemma failed_shadow s x y p d c : failed c ->
  match net_policy_shadow_access s x y p d c with
  | (_, Ok true) | (_, Stuck _) => False
  | (c1, Ok false) => c1 = c /\ hidden_by p c = None
  | (c1, Err e) => hidden_by p c <> None /\ event_sent (wanted_operation s x y d c) p c c1
  end.
Proof.
  intros Hf. unfold net_policy_shadow_access, hidden_by. cbv zeta. fold (wanted_operation s x y d c).
  destruct (List.find _ _) as [w|]; [|done]. case_bool; [done|]. rewrite (proj1 Hf). cbn [negb].
  destruct (control_shadow_event _ _ c) as [c1 ok] eqn:E. apply failed_event in E as [E F]; [|done].
  destruct ok; [|by split]. rewrite (proj2 (failed_refuses _ F)). by split.
Qed.

Lemma failed_publication g h x y c : failed c -> net_policy_allow_publication g h x y c = (c, Err EACCES).
Proof.
  intros Hf. unfold net_policy_allow_publication. rewrite (proj1 Hf), andb_false_r.
  unfold check_bind_port. repeat case_match; simplify_eq; try done; apply (proj1 (failed_refuses _ Hf)).
Qed.

(** ** Properties *)

(** The access is granted by a rule in force, or by an answer to its request. *)
Definition granted (a : NetAccess) (c c' : NetPolicyConfig) : Prop :=
  ask_failed c = false
  /\ ((exists r, r ∈ dynamic_rules c /\ rule_of_access a r = true /\ nr_decision r = NET_DECISION_ALLOW)
      \/ exists request type, let id := wrap64 (next_request_id c + 1) in
           net_request a (proxy c) = Some request
           /\ prefix (sent (channel c) ++ encode_header (control_header CONTROL_NET_ACCESS_REQUEST sizeof_ControlNetRequest id)
                      ++ encode_net_request request) (sent (channel c'))
           /\ type_allows type = true
           /\ answered id type NET_DECISION_ALLOW (received (channel c)) (received (channel c'))).

Lemma ask_harness_granted a c c' : connected c = true -> ask_harness a c = (c', Ok tt) -> granted a c c'.
Proof.
  intros Hc H. unfold granted. unfold ask_harness in H. rewrite Hc in H. cbn [negb] in H. destruct (ask_failed c); [done|]. split; [done|].
  assert (Hdec : forall d, decided d = Ok tt -> d = NET_DECISION_ALLOW).
  { intros d. unfold decided. case_bool; bool_facts; [done|done]. }
  destruct (use_rule _ _ _ _) as [[r rules]|] eqn:Eu.
  { injection H as _ H. apply Hdec in H. apply use_rule_spec in Eu as (H1 & H2 & _). left. by exists r. }
  right. cbv zeta in H. destruct (net_request a (proxy _)) as [request|] eqn:Er; [|done].
  destruct (send_frame _ _ _) as [c1 []] eqn:E1; [|done].
  destruct (await_decision _ _ _) as [c2 [[type d]|]] eqn:E2; [|done].
  destruct (remember_answer a type c2) as [c3|] eqn:E3; [|done]. injection H as <- H. apply Hdec in H as ->.
  apply remember_answer_extends in E3 as [_ E3]. rewrite E3.
  pose proof (await_extends _ _ _ _ _ E2) as X2. apply await_answered in E2.
  apply send_frame_spec in E1 as (_ & R1 & k & _ & S1). specialize (S1 eq_refl). cbn [channel set_request_id] in R1, S1.
  exists request, type. cbv zeta. split; [done|]. split; [rewrite <- S1; exact (ext_sent _ _ X2)|].
  rewrite R1 in E2. split; [|done]. destruct E2 as (? & ? & ? & _ & _ & _ & _ & E). by destruct (type_allows type).
Qed.

(** C37: while a controller is connected, a network access is granted only if the
    channel has not failed and either a rule in force that matches the access
    allows it, or the request of the access was sent and the last frame received
    since is an answer to this very request, of a type and a decision that both
    allow it. *)
Theorem net_access_authorised a c c' :
  connected c = true -> ask_harness a c = (c', Ok tt) ->
  ask_failed c = false
  /\ ((exists r, r ∈ dynamic_rules c /\ rule_of_access a r = true /\ nr_decision r = NET_DECISION_ALLOW)
      \/ exists request type, let id := wrap64 (next_request_id c + 1) in
           net_request a (proxy c) = Some request
           /\ prefix (sent (channel c) ++ encode_header (control_header CONTROL_NET_ACCESS_REQUEST sizeof_ControlNetRequest id)
                      ++ encode_net_request request) (sent (channel c'))
           /\ type_allows type = true
           /\ answered id type NET_DECISION_ALLOW (received (channel c)) (received (channel c'))).
Proof. apply ask_harness_granted. Qed.

(** C38: an access to a path that the controller decides on is granted only after
    a drain of the channel that succeeded, which applies at most one command:
    when poll() tells of a frame, exactly one is read, it is a command, its
    effect on the tables is in force for this access and its result is sent;
    commands behind it keep waiting.  It is granted then either by the first rule
    that matches this operation on this very path (and on the path of the other
    operand), used up unless it is persistent, or, when no rule matches, by an
    answer to its request, of a type and a decision that both allow it. *)
Theorem path_access_authorised p other o reason c c' :
  control_path_access p other o reason c = (c', Ok tt) ->
  exists c0, drained c c0
  /\ let id := wrap64 (next_request_id c0 + 1) in
     let text := match other with Some o => o | None => [] end in
     let matches := path_rule_matches (op_code o) p text in
     (exists a r b, path_rules c0 = a ++ r :: b /\ Forall (fun r => matches r = false) a /\ matches r = true /\ pr_decision r <> 0
        /\ c' = set_path_rules (a ++ (if pr_persistent r then r else no_path_rule) :: b) c0)
     \/ Forall (fun r => matches r = false) (path_rules c0) /\ connected c = true /\ exists type,
           prefix (sent (channel c0) ++ encode_header (control_header CONTROL_PATH_ACCESS_REQUEST sizeof_ControlPathRequest id)
                   ++ encode_path_request (op_code o) (reason_code reason) p text) (sent (channel c'))
           /\ type_allows type = true
           /\ answered id type NET_DECISION_ALLOW (received (channel c0)) (received (channel c')).
Proof.
  unfold control_path_access. cbv zeta. case_bool; [done|].
  destruct (control_drain_commands c) as [c0 []] eqn:E0; [|done]. intros H. exists c0. split; [by apply drain_drained|].
  destruct (use_rule _ _ _ _) as [[r rules]|] eqn:Eu.
  { injection H as <- H. apply use_rule_first in Eu as (a & b & E1 & E2 & E3 & ->). left. exists a, r, b. split_and!; try done.
    case_bool_in H; bool_facts; done. }
  right. split; [by apply use_rule_none in Eu|].
  apply drain_extends, extends_connected in E0. rewrite <- E0. destruct (connected c0); [|done]. split; [done|]. cbn [negb] in H.
  destruct (send_frame _ _ _) as [c1 []] eqn:E1; [|done].
  destruct (await_decision _ _ _) as [c2 [[type d]|]] eqn:E2; [|done].
  assert (Hch : channel c' = channel c2 /\ d = NET_DECISION_ALLOW).
  { injection H as Hc' Hd. split; [|unfold decided in Hd; case_bool_in Hd; bool_facts; done]. rewrite <- Hc'. case_bool; [|done].
    destruct (control_apply_command _ _ _) eqn:E3; [|done..]. by apply apply_command_extends in E3 as [_ ?]. }
  destruct Hch as [-> ->]. pose proof (await_extends _ _ _ _ _ E2) as X2. apply await_answered in E2.
  apply send_frame_spec in E1 as (_ & R1 & k & _ & S1). specialize (S1 eq_refl). cbn [channel set_request_id] in R1, S1.
  exists type. split; [rewrite <- S1; exact (ext_sent _ _ X2)|].
  rewrite R1 in E2. split; [|done]. destruct E2 as (? & ? & ? & _ & _ & _ & _ & E). by destruct (type_allows type).
Qed.

(** C39: once the channel of a connected controller has failed, then whatever
    happens next, but for the installation of another controller by the command
    line, it stays failed: a request of the network, a publication, an access to
    a path and a drain are refused, with nothing sent, read or changed, and a
    listing of a directory that may be filtered is refused likewise.  A path that
    is hidden stays hidden; there, only the event SHADOW_EVENT, or a part of it,
    is still written on the channel, and nothing is read.  This is
    not about net_policy_path_rule_precheck(), which the rules in force still
    answer: it does not look at the channel. *)
Theorem control_fails_closed {Fds : ControlFds} translate events c :
  respectful translate -> Forall (fun e => installs e = false) events -> connected c = true -> ask_failed c = true ->
  let c' := control_run translate events c in
  connected c' = true /\ ask_failed c' = true
  /\ (forall a, ask_harness a c' = (c', Err EACCES))
  /\ (forall g h x y, net_policy_allow_publication g h x y c' = (c', Err EACCES))
  /\ (forall p other o reason, net_policy_path_access p other o reason c' = (c', Err EACCES))
  /\ control_drain_commands c' = (c', false)
  /\ (forall d64 result parent data, shadows c' <> [] -> 0 < sgn 32 result ->
        control_filter_getdents translate d64 result parent data c' = (c', Err EACCES))
  /\ (forall s x y p d,
        match net_policy_shadow_access s x y p d c' with
        | (_, Ok true) | (_, Stuck _) => False
        | (c1, Ok false) => c1 = c' /\ hidden_by p c' = None
        | (c1, Err e) => hidden_by p c' <> None /\ event_sent (wanted_operation s x y d c') p c' c1
        end).
Proof.
  intros [Ht Hk] He H1 H2 c'. assert (Hf : failed c') by (apply control_run_failed; [done..|by split]).
  pose proof (failed_refuses _ Hf) as [Ha Hp]. pose proof (drain_failed _ Hf) as Hd. pose proof Hf as [F1 F2]. split_and!; try done.
  - intros g h x y. by apply failed_publication.
  - intros p other o reason. unfold net_policy_path_access. rewrite F1. apply Hp.
  - intros d64 result parent data Hs Hr. unfold control_filter_getdents. rewrite Hd.
    rewrite (proj2 (Nat.eqb_neq _ _)) by (by destruct (shadows c')). by rewrite (proj2 (Z.leb_gt _ _)).
  - intros s x y p d. by apply failed_shadow.
Qed.

(** from a fresh configuration, whatever the command line installs, a
    controller included, whatever the tracees request and the controller sends,
    the tables stay within their arrays (64 rules on the network, 128 on paths,
    128 shadows), the paths and the addresses within theirs, the decisions are 0
    or 1 and the identifiers fit their 64 bits. *)
Theorem control_config_typed {Fds : ControlFds} translate events :
  respectful translate -> Forall event_ok events ->
  let c := control_run translate events new_config in
  (length (dynamic_rules c) <= 64)%nat /\ (length (path_rules c) <= 128)%nat /\ (length (shadows c) <= 128)%nat
  /\ Forall net_rule_ok (dynamic_rules c) /\ Forall path_rule_ok (path_rules c) /\ Forall shadow_ok (shadows c)
  /\ 0 <= next_request_id c < 2 ^ 64.
Proof.
  intros [H1 H2] He c. destruct (control_run_ok translate H1 H2 events new_config He new_config_ok) as (A & B & C & D & E & G & I).
  exact (conj A (conj C (conj E (conj B (conj D (conj G I)))))).
Qed.

(** a command SET_RULE on a path that has no rule is refused only for want of
    room; otherwise the rule answers for the operation and the path it names, as
    many times as it is asked, until the command FORGET. *)
Theorem set_rule_applies c o d p other :
  command_path p -> command_path other -> is_decision d ->
  Forall (fun r => path_rule_matches (op_code o) p other r = false) (path_rules c) ->
  match control_apply_command c CONTROL_SET_RULE (encode_path_command (op_code o) 0 d p other) with
  | Ok c1 =>
      net_policy_path_rule_precheck p (Some other) o c1 = (c1, prechecked d)
      /\ exists c2, control_apply_command c1 CONTROL_FORGET (encode_path_command (op_code o) 0 0 p other) = Ok c2
                    /\ net_policy_path_rule_precheck p (Some other) o c2 = (c2, Ok false)
  | Err e => e = ENOSPC /\ (MAX_PATH_RULES <= length (path_rules c))%nat
  | Stuck _ => False
  end.
Proof.
  intros Hp Ho Hd Hno. rewrite apply_set_rule by done. unfold put_path_rule.
  destruct (put_rule _ _ _ _ _) as [l|] eqn:E; cbn [option_map]; [|split; [done|]; by apply put_rule_none in E as [? _]].
  apply put_rule_spec in E as (_ & _ & a & b & old & -> & _ & Hold).
  set (r := fill_path_rule _ _ _ _ _ _). assert (Hr : path_rule_matches (op_code o) p other r = true) by by apply fill_path_matches.
  assert (Hab : Forall (fun r => path_rule_matches (op_code o) p other r = false) a
                /\ Forall (fun r => path_rule_matches (op_code o) p other r = false) b).
  { destruct Hold as [[El _]|(<- & -> & _)]; [|done]. rewrite El in Hno. apply Forall_app in Hno as [? Hno]. by apply Forall_cons in Hno as [_ ?]. }
  destruct Hab as [Hna Hnb]. split.
  - unfold net_policy_path_rule_precheck. cbn [effective_other path_rules set_path_rules]. by rewrite use_rule_app.
  - eexists. rewrite apply_forget by done. split; [done|]. unfold net_policy_path_rule_precheck, control_remove_path_rule.
    cbn [effective_other path_rules set_path_rules]. rewrite clear_rule_app by done.
    rewrite (proj2 (use_rule_none _ _ _ _)); [done|]. apply Forall_app. split; [done|]. by constructor.
Qed.

(** a directory listing that is read while there are shadows keeps, byte for
    byte and in their order, exactly the entries that no shadow conceals. *)
Theorem getdents_hides host d64 result parent entries c c1 :
  Forall (dirent_ok d64) entries -> shadows c <> [] -> 0 < sgn 32 result -> control_drain_commands c = (c1, true) ->
  let data := concat (map encode_dirent entries) in
  let kept := concat (map encode_dirent (base.filter (fun e => concealed host c1 parent e = false) entries)) in
  exists r, control_filter_getdents (fun c p => (c, host p)) d64 result (Some parent) (Some data) c = (c1, Ok r)
            /\ match r with Some new => new | None => data end = kept.
Proof.
  intros He Hs Hr Hd data kept. unfold control_filter_getdents.
  replace ((length (shadows c) =? 0)%nat || (sgn 32 result <=? 0)) with false.
  2: { symmetry. apply orb_false_iff. split; [apply Nat.eqb_neq; by destruct (shadows c)|by apply Z.leb_gt]. }
  rewrite Hd. unfold data at 1 2. rewrite filter_dirents_pure by (done || lia). fold data kept. eexists. split; [done|].
  destruct (Nat.eqb_spec (length kept) (length data)) as [E|E]; [|done]. symmetry.
  assert (Hsub : sublist kept data).
  { unfold kept, data. clear. induction entries as [|e entries IH]; [constructor|]. rewrite filter_cons. case_decide; cbn [map concat].
    - by apply sublist_app.
    - by apply sublist_inserts_l. }
  by apply sublist_same.
Qed.

(** ** What the protocol does not say *)

(** The rules on publications, which the controller may set, match no request. *)
Theorem publication_rules_unused guest_pid host_pid host_port guest_port rules :
  use_rule (rule_of_access (mkNetAccess CONTROL_NET_PUBLICATION None None guest_port host_port 0 1 VNP_NET_CLASS_BRIDGE
                              guest_pid host_pid)) nr_persistent no_net_rule rules = None.
Proof. apply use_rule_none, Forall_true. done. Qed.

(** A rule on AF_UNIX sockets does not look at the address. *)
Theorem unix_rule_matches_any operation port a b r :
  net_rule_matches operation AF_UNIX port a r = net_rule_matches operation AF_UNIX port b r.
Proof. done. Qed.

(** The command that allows, then the one that denies the same access for ever:
    the first rule stays in force. *)
Example contradictory_rule_ignored :
  match control_apply_command new_config CONTROL_ALLOW_ALWAYS (encode_path_command 1 0 0 (bs "/a") []) with
  | Ok c =>
      match control_apply_command c CONTROL_DENY_ALWAYS (encode_path_command 1 0 0 (bs "/a") []) with
      | Ok c => snd (net_policy_path_rule_precheck (bs "/a") None NET_CONTROL_PATH_READ c) = Ok true
      | _ => False
      end
  | _ => False
  end.
Proof. by vm_compute. Qed.

(** A command to the network with a type that denies and a decision that allows
    sets a rule that allows. *)
Definition demo_net_command (operation decision : Z) : list Z :=
  to_le 4 operation ++ to_le 2 AF_INET ++ to_le 2 443 ++ [93; 184; 216; 34] ++ replicate 12 0 ++ [decision; 0; 0; 0].
Example type_of_command_ignored :
  match control_apply_command new_config CONTROL_DENY_ALWAYS (demo_net_command CONTROL_NET_CONNECT NET_DECISION_ALLOW) with
  | Ok c => map nr_decision (dynamic_rules c) = [NET_DECISION_ALLOW]
  | _ => False
  end.
Proof. by vm_compute. Qed.

(** SET_RULE on the network sets a rule that is used once. *)
Example net_rule_not_persistent :
  match control_apply_command new_config CONTROL_SET_RULE (demo_net_command CONTROL_NET_CONNECT NET_DECISION_ALLOW) with
  | Ok c => map nr_persistent (dynamic_rules c) = [false]
  | _ => False
  end.
Proof. by vm_compute. Qed.

(** ** Concrete inputs *)

Definition demo_sends (n : Z) : list Answer := [mkAnswer 1 0 4 []; mkAnswer n 0 0 []].
Definition demo_recv (bytes : list Z) : list Answer := [mkAnswer (-1) EINTR 0 []; mkAnswer 1 0 1 []; mkAnswer (zlen bytes) 0 0 bytes].
Definition demo_frame (type id : Z) (payload : list Z) : list Answer :=
  demo_recv (encode_header (control_header type (zlen payload) id)) ++ demo_recv payload.
Definition demo_decision (d : Z) : list Z := d :: replicate 97 0.

(** A controller that sets a rule, then answers. *)
Definition demo_session (size : Z) : list Answer :=
  demo_sends 20 ++ demo_sends size
  ++ demo_frame CONTROL_SET_RULE 7 (demo_net_command CONTROL_NET_BIND NET_DECISION_DENY) ++ demo_sends 20 ++ demo_sends 20
  ++ demo_frame CONTROL_ALLOW_ALWAYS 1 (demo_decision NET_DECISION_ALLOW).
Definition demo_connected (l : list Answer) : NetPolicyConfig :=
  mkConfig new_policy 64 false true 0 [] [] [] None None [] (mkChannel l [] []).
Definition demo_access : NetAccess :=
  mkNetAccess CONTROL_NET_CONNECT (Some (demo_sockaddr 443)) None 443 443 0 0 VNP_NET_CLASS_EXTERNAL 100 1.

Lemma net_access_authorised_witness :
  let c := demo_connected (demo_session 230) in
  let c' := fst (ask_harness demo_access c) in
  length (dynamic_rules c') = 2%nat /\ ask_failed c = false
  /\ ((exists r, r ∈ dynamic_rules c /\ rule_of_access demo_access r = true /\ nr_decision r = NET_DECISION_ALLOW)
      \/ exists request type, net_request demo_access [] = Some request
           /\ prefix (encode_header (control_header CONTROL_NET_ACCESS_REQUEST sizeof_ControlNetRequest 1)
                      ++ encode_net_request request) (sent (channel c'))
           /\ type_allows type = true /\ answered 1 type NET_DECISION_ALLOW [] (received (channel c'))).
Proof.
  intros c c'. split; [vm_compute; reflexivity|].
  refine (net_access_authorised demo_access c c' _ _); vm_compute; reflexivity.
Defined.

Definition demo_path_session : list Answer :=
  [mkAnswer 0 0 0 []] ++ demo_sends 20 ++ demo_sends 2056
  ++ demo_frame CONTROL_ALLOW_ALWAYS 1 (demo_decision NET_DECISION_ALLOW).

Lemma path_access_authorised_witness :
  let c := demo_connected demo_path_session in
  let c' := fst (control_path_access (bs "/etc/x") None NET_CONTROL_PATH_WRITE NET_CONTROL_REASON_STATIC_RO c) in
  (exists c0, drained c c0) /\ map pr_path (path_rules c') = [bs "/etc/x"].
Proof.
  intros c c'. split; [|vm_compute; reflexivity].
  destruct (path_access_authorised (bs "/etc/x") None NET_CONTROL_PATH_WRITE NET_CONTROL_REASON_STATIC_RO c c') as (c0 & H & _);
    [vm_compute; reflexivity|]. exists c0. exact H.
Defined.

(** A translation that answers nothing. *)
Definition demo_translate (c : NetPolicyConfig) (p : cstr) : NetPolicyConfig * option cstr := (c, None).
Lemma demo_translate_respectful : respectful demo_translate.
Proof. by split. Qed.

Definition demo_control_events : list ControlEvent :=
  [NetRequest demo_access; AddShadow (bs "/secret"); ShadowAccess PR_openat 0 0 (bs "/secret/x") NET_CONTROL_PATH_READ; Drain;
   Getdents true 24 (Some (bs "/")) (Some (replicate 24 0))].

(** The descriptor of the controller is a stream socket. *)
Definition demo_fds : ControlFds := {| fcntl_getfd := fun _ => None; getsockopt_type := fun _ => Some SOCK_STREAM; fcntl_setfd := fun _ => None |}.

Lemma control_fails_closed_witness :
  let c := set_failed (demo_connected (demo_session 230)) in
  let c' := control_run (Fds := demo_fds) demo_translate demo_control_events c in
  ask_failed c' = true /\ ask_harness demo_access c' = (c', Err EACCES).
Proof.
  intros c c'. destruct (control_fails_closed (Fds := demo_fds) demo_translate demo_control_events c demo_translate_respectful) as (_ & H1 & H2 & _);
    [repeat (constructor; [reflexivity|]); constructor|vm_compute; reflexivity|vm_compute; reflexivity|]. split; [exact H1|apply H2].
Defined.

(** The command line installs a controller, which answers a request for ever. *)
Definition demo_installed : list ControlEvent :=
  [SetControlFd (bs "64") (mkChannel (demo_sends 20 ++ demo_path_session) [] []); AddShadow (bs "/secret");
   PathAccess (bs "/etc/x") None NET_CONTROL_PATH_WRITE NET_CONTROL_REASON_STATIC_RO].

Lemma control_config_typed_witness :
  let c := control_run (Fds := demo_fds) demo_translate demo_installed new_config in
  (length (dynamic_rules c) <= 64)%nat /\ length (shadows c) = 1%nat /\ map pr_path (path_rules c) = [bs "/etc/x"] /\ connected c = true.
Proof.
  intros c. split; [|split_and!; vm_compute; reflexivity].
  refine (proj1 (control_config_typed (Fds := demo_fds) demo_translate demo_installed demo_translate_respectful _)).
  repeat (constructor; [exact I|]). constructor.
Defined.

Lemma set_rule_applies_witness :
  match control_apply_command new_config CONTROL_SET_RULE (encode_path_command (op_code NET_CONTROL_PATH_WRITE) 0 1 (bs "/a") []) with
  | Ok c1 => net_policy_path_rule_precheck (bs "/a") (Some []) NET_CONTROL_PATH_WRITE c1 = (c1, Ok true)
  | _ => False
  end.
Proof.
  pose proof (set_rule_applies new_config NET_CONTROL_PATH_WRITE 1 (bs "/a") []) as H.
  specialize (H ltac:(split; [repeat constructor; discriminate|done]) ltac:(split; [constructor|done]) ltac:(by right) ltac:(constructor)).
  destruct (control_apply_command _ _ _) as [c1|e|w] eqn:E; [exact (proj1 H)|vm_compute in E; discriminate E|exact H].
Defined.

Definition demo_dirent (name : cstr) : Dirent := mkDirent (replicate 16 7) [4] name [0; 0].
Definition demo_hidden : NetPolicyConfig := set_shadows [mkShadow (bs "/secret") false false] new_config.

Lemma getdents_hides_witness :
  let data := concat (map encode_dirent [demo_dirent (bs "secret"); demo_dirent (bs "public")]) in
  exists r, control_filter_getdents (fun c p => (c, Some (bs "/data/secret"))) true (zlen data) (Some (bs "/")) (Some data) demo_hidden
            = (demo_hidden, Ok r)
            /\ match r with Some new => new | None => data end = encode_dirent (demo_dirent (bs "public")).
Proof.
  intros data.
  exact (getdents_hides (fun _ => Some (bs "/data/secret")) true (zlen data) (bs "/")
    [demo_dirent (bs "secret"); demo_dirent (bs "public")] demo_hidden demo_hidden
    ltac:(repeat (constructor; [split_and!; [done|done|repeat constructor; discriminate|done]|]); constructor)
    ltac:(discriminate) ltac:(vm_compute; reflexivity) ltac:(vm_compute; reflexivity)).
Defined.
