(* ===== verification/Dns.v ===== *)
(** * DNS emulation of the network policy (src/extension/net_policy/net_policy.c)

    While the policy is on, a datagram to the port 53 is not sent: the tracer
    parses the question and answers it with the addresses that were pinned for
    the domains of the allow rules.  Names are lists of bytes, packets too. *)

From S2P Require Import Prelude Memory Paths Binding ProcLinks Sysnum Regs NetRules.

(** ** Names *)

(** A byte of a packet, as an integer. *)
Definition u8 (packet : list Z) (i : nat) : Z := chr packet i.
Definition u16 (packet : list Z) (i : nat) : Z := Z.lor (Z.shiftl (u8 packet i) 8) (u8 packet (i + 1)).
Definition u32 (packet : list Z) (i : nat) : Z :=
  Z.lor (Z.lor (Z.lor (Z.shiftl (u8 packet i) 24) (Z.shiftl (u8 packet (i + 1)) 16)) (Z.shiftl (u8 packet (i + 2)) 8))
    (u8 packet (i + 3)).

Definition is_pointer (label : Z) : bool := Z.land label 0xc0 =? 0xc0.
Definition bad_label (label : Z) (cursor : nat) (packet : list Z) : bool :=
  negb (Z.land label 0xc0 =? 0) || (63 <? label) || (length packet <? cursor + Z.to_nat label)%nat.

(** dns_skip_name(): the offset after the name. *)
Fixpoint skip_loop (fuel : nat) (packet : list Z) (cursor : nat) : res nat :=
  if negb (cursor <? length packet)%nat then Err 1
  else
    match fuel with
    | O => Stuck NoFuel
    | S fuel =>
        let label := u8 packet cursor in
        let cursor := S cursor in
        if label =? 0 then Ok cursor
        else if is_pointer label then
          if (length packet <=? cursor)%nat then Err 1 else Ok (S cursor)
        else if bad_label label cursor packet then Err 1
        else skip_loop fuel packet (cursor + Z.to_nat label)
    end.
Definition dns_skip_name (packet : list Z) (offset : nat) : res nat := skip_loop (S (length packet)) packet offset.

(** What dns_read_name() keeps: the name so far, and whether it overflowed. *)
Definition NAME_ROOM := 255%nat.
Definition push_char (st : list Z * bool) (c : Z) : list Z * bool :=
  let '(name, overflow) := st in
  if (length name <? NAME_ROOM)%nat then (name ++ [c], overflow) else (name, true).

(** The loop of dns_read_name(); [resume] is where the name ends, once a pointer
    was followed. *)
Fixpoint read_name_loop (fuel : nat) (packet : list Z) (cursor : nat) (resume : option nat) (jumps : nat)
    (st : list Z * bool) : res (cstr * nat) :=
  if negb (cursor <? length packet)%nat then Err 1
  else
    match fuel with
    | O => Stuck NoFuel
    | S fuel =>
        let label := u8 packet cursor in
        let cursor := S cursor in
        if label =? 0 then
          let resume := match resume with Some r => r | None => cursor end in
          if snd st then Err 1 else Ok (fst st, resume)
        else if is_pointer label then
          if (length packet <=? cursor)%nat || (16 <=? jumps)%nat then Err 1
          else
            let target := Z.lor (Z.shiftl (Z.land label 0x3f) 8) (u8 packet cursor) in
            let cursor := S cursor in
            if Z.of_nat (length packet) <=? target then Err 1
            else read_name_loop fuel packet (Z.to_nat target)
                   (match resume with Some r => Some r | None => Some cursor end) (S jumps) st
        else if bad_label label cursor packet then Err 1
        else
          let st := match fst st with [] => st | _ => push_char st DOT end in
          let st := fold_left (fun st c => push_char st (lower c)) (slice cursor (Z.to_nat label) packet) st in
          read_name_loop fuel packet (cursor + Z.to_nat label) resume jumps st
    end.

(** dns_read_name(), for a buffer of 256 bytes: the name, which a byte 0 in a
    label ends, and the offset after it. *)
Definition read_name_fuel (packet : list Z) : nat := 17 * S (length packet).
Definition name_text (name : list Z) : cstr := fst (span (fun c => negb (c =? 0)) name).
Definition dns_read_name (packet : list Z) (offset : nat) : res (cstr * nat) :=
  let! (name, next) := read_name_loop (read_name_fuel packet) packet offset None 0 ([], false) in Ok (name_text name, next).

(** dns_names_equal() *)
Definition dns_names_equal (a b : cstr) : bool := str_eqb (dns_canonical a 256) (dns_canonical b 256).

(** ** State *)

Definition NET_DNS_MAX_QUERIES := 64%nat.
Definition NET_DNS_MAX_LEASES := 128%nat.
Definition RESPONSE_SIZE := 4096%nat.

(** The bytes of [response] up to [response_len]; the others are 0. *)
Record NetDnsQuery := mkQuery {
  q_pid : Z; q_fd : Z; q_id : Z; q_type : Z; q_name : cstr; q_cname : cstr; q_server : list Z; q_response : list Z; q_ready : bool
}.
Record NetDnsLease := mkLease {
  l_pid : Z; l_id : Z; l_name : cstr; l_cname : cstr; l_address : list Z; l_family : Z; l_expires : Z; l_server : list Z
}.
Record DnsState := mkDns { dns_queries : list NetDnsQuery; dns_leases : list NetDnsLease }.

Definition set_response (r : list Z) (ready : bool) (q : NetDnsQuery) : NetDnsQuery :=
  mkQuery (q_pid q) (q_fd q) (q_id q) (q_type q) (q_name q) (q_cname q) (q_server q) r ready.
Definition set_cname (cname : cstr) (q : NetDnsQuery) : NetDnsQuery :=
  mkQuery (q_pid q) (q_fd q) (q_id q) (q_type q) (q_name q) cname (q_server q) (q_response q) (q_ready q).

(** A new element at the end of a table, in the place of the last one when it is
    full. *)
Definition append {A} (max : nat) (x : A) (l : list A) : list A := take (max - 1) l ++ [x].

Section Answers.

Context {I : Inet}.

(** The address that a rule gives to a query. *)
Definition rule_answer (wanted : cstr) (qtype : Z) (r : NetPolicyRule) : option (list Z) :=
  if is_domain r || str_eqb (source r) [] || negb (dns_names_equal (source r) wanted) then None
  else
    match destination_host (value r) with
    | Ok (_, host, _) =>
        if negb (host_is_numeric host) || (NET_POLICY_RULE_LEN <=? zlen host) then None
        else
          let ip := before_slash host in
          let family := if bool_decide (strchr COLON ip <> None) then AF_INET6 else AF_INET in
          if ((qtype =? 1) && negb (family =? AF_INET)) || ((qtype =? 28) && negb (family =? AF_INET6)) then None
          else inet_pton family ip
    | _ => None
    end.

(** A resource record: the name of the question, the type, the class, a time to
    live of a minute. *)
Definition resource_record (qtype : Z) (address : list Z) : list Z :=
  [0xc0; 0x0c; 0; qtype; 0; 1; 0; 0; 0; 60; 0; zlen address] ++ address.

(** The loop of dns_prepare_response(): the addresses answered, in order. *)
Fixpoint collect_answers (wanted : cstr) (qtype : Z) (room : nat) (rules : list NetPolicyRule) (answers : list (list Z))
  : list (list Z) :=
  match rules with
  | [] => answers
  | r :: rules =>
      match rule_answer wanted qtype r with
      | None => collect_answers wanted qtype room rules answers
      | Some address =>
          if existsb (str_eqb address) answers then collect_answers wanted qtype room rules answers
          else if (room <? length (concat (map (resource_record qtype) answers)) + (12 + length address))%nat
                  || (zlen answers =? 65535)
          then collect_answers wanted qtype room rules answers
          else collect_answers wanted qtype room rules (answers ++ [address])
      end
  end.

(** The packet: the question, flags and counts, and the records. *)
Definition response_packet (packet : list Z) (question_end : nat) (qtype : Z) (answers : list (list Z)) : list Z :=
  slice 0 2 packet ++ [0x81; match answers with [] => 0x83 | _ => 0x80 end; 0; 1]
  ++ [wrap 8 (Z.shiftr (zlen answers) 8); wrap 8 (zlen answers)] ++ slice 8 (question_end - 8) packet
  ++ concat (map (resource_record qtype) answers).

(** dns_prepare_response() *)
Definition dns_prepare_response (rules : list NetPolicyRule) (packet : list Z) (q : NetDnsQuery) : NetDnsQuery :=
  if (length packet <? 12)%nat || negb (u16 packet 4 =? 1) then q
  else
    match dns_skip_name packet 12 with
    | Ok question_end =>
        if (length packet <? question_end + 4)%nat || negb ((q_type q =? 1) || (q_type q =? 28)) then q
        else
          let question_end := (question_end + 4)%nat in
          if (RESPONSE_SIZE <? question_end)%nat then q
          else
            let wanted := dns_canonical (q_name q) 256 in
            let answers := collect_answers wanted (q_type q) (RESPONSE_SIZE - question_end) rules [] in
            set_response (response_packet packet question_end (q_type q) answers) true q
    | _ => q
    end.

(** dns_remember_query() *)
Definition dns_remember_query (rules : list NetPolicyRule) (pid fd : Z) (packet server : list Z) (d : DnsState) : DnsState :=
  if (length packet <? 12)%nat || negb (Z.land (u8 packet 2) 0x80 =? 0) || (u16 packet 4 =? 0) then d
  else
    match dns_read_name packet 12 with
    | Ok (name, next) =>
        let q := mkQuery pid fd (u16 packet 0) 0 [] [] no_address [] false in
        let q := if (length packet <? next + 4)%nat then q
                 else dns_prepare_response rules packet
                        (mkQuery pid fd (u16 packet 0) (u16 packet next) name [] server [] false) in
        mkDns (append NET_DNS_MAX_QUERIES q (dns_queries d)) (dns_leases d)
    | _ => d
    end.

(** ** Responses that are observed *)

(** The loop over the questions: the offset after them. *)
Fixpoint skip_questions (n : nat) (packet : list Z) (offset : nat) : option nat :=
  match n with
  | O => Some offset
  | S n =>
      match dns_skip_name packet offset with
      | Ok next => if (length packet <? next + 4)%nat then None else skip_questions n packet (next + 4)
      | _ => None
      end
  end.

Definition new_lease (q : NetDnsQuery) (pid type ttl now : Z) (address : list Z) (server : list Z) : NetDnsLease :=
  mkLease pid (q_id q) (q_name q) (q_cname q) (resize 16 0 address) (if type =? 1 then AF_INET else AF_INET6)
    (wrap64 (now + ttl * 1000)) server.

(** The loop over the answers. *)
Fixpoint read_answers (n : nat) (packet : list Z) (offset : nat) (pid now : Z) (server : list Z) (q : NetDnsQuery)
    (leases : list NetDnsLease) : NetDnsQuery * list NetDnsLease :=
  match n with
  | O => (q, leases)
  | S n =>
      if negb (offset <? length packet)%nat then (q, leases)
      else
        match dns_read_name packet offset with
        | Ok (_, next) =>
            if (length packet <? next + 10)%nat then (q, leases)
            else
              let type := u16 packet next in
              let ttl := u32 packet (next + 4) in
              let rdlength := Z.to_nat (u16 packet (next + 8)) in
              let offset := (next + 10)%nat in
              if (length packet <? offset + rdlength)%nat then (q, leases)
              else
                let continue := read_answers n packet (offset + rdlength) pid now server in
                if (type =? 1) || (type =? 28) then
                  if ((type =? 1) && negb (rdlength =? 4)%nat) || ((type =? 28) && negb (rdlength =? 16)%nat)
                  then continue q leases
                  else continue q (append NET_DNS_MAX_LEASES (new_lease q pid type ttl now (slice offset rdlength packet) server) leases)
                else if type =? 5 then
                  match dns_read_name packet offset with
                  | Ok (cname, _) => continue (set_cname cname q) leases
                  | _ => continue q leases
                  end
                else continue q leases
        | _ => (q, leases)
        end
  end.

(** dns_remember_response() *)
Definition dns_remember_response (pid fd : Z) (packet server : list Z) (now : Z) (d : DnsState) : DnsState :=
  if (length packet <? 12)%nat || (Z.land (u8 packet 2) 0x80 =? 0) then d
  else
    match list_find (fun q => q_pid q = pid /\ q_fd q = fd /\ q_id q = u16 packet 0) (dns_queries d) with
    | None => d
    | Some (i, q) =>
        if negb (Z.land (u8 packet 3) 0x0f =? 0) then d
        else
          match skip_questions (Z.to_nat (u16 packet 4)) packet 12 with
          | None => d
          | Some offset =>
              let '(q, leases) := read_answers (Z.to_nat (u16 packet 6)) packet offset pid now server q (dns_leases d) in
              mkDns (<[i := q]> (dns_queries d)) leases
          end
    end.

(** ** System calls *)

Context {Mem : Type} {TM : TraceeMemory Mem}.

(** The part of a tracee that the emulation uses. *)
Record DnsTracee := mkDnsTracee { t_me : nat; t_pid : Z; t_regs : Regs; t_mem : Mem }.

Definition set_mem (m : Mem) (t : DnsTracee) : DnsTracee := mkDnsTracee (t_me t) (t_pid t) (t_regs t) m.
Definition arg (t : DnsTracee) (r : Reg) : Z := peek_reg (t_regs t) CURRENT r.
Definition fd_of (t : DnsTracee) : Z := sgn 32 (arg t SYSARG_1).

(** dns_server_port() *)
Definition dns_server_port (addr : list Z) : Z := if is_inet addr then sin_port addr else -1.

(** read_sockaddr() *)
Definition read_sockaddr (t : DnsTracee) (ptr : Z) : res (list Z) :=
  let! (addr, _) := read_sockaddr_limited (t_mem t) (t_me t) ptr 0 in Ok addr.

(** The datagram of a tracee to the port 53: the server and the packet. *)
Definition read_datagram (t : DnsTracee) (packet_ptr packet_len addr_ptr : Z) : option (list Z * list Z) :=
  if (addr_ptr =? 0) || (packet_ptr =? 0) || (packet_len =? 0) || (Z.of_nat RESPONSE_SIZE <? packet_len) then None
  else
    match read_sockaddr t addr_ptr with
    | Ok server =>
        if negb (dns_server_port server =? 53) then None
        else match read_data (t_mem t) (t_me t) packet_ptr packet_len with
             | inl packet => Some (server, packet)
             | inr _ => None
             end
    | _ => None
    end.

(** dns_observe_send() *)
Definition dns_observe_send (rules : list NetPolicyRule) (t : DnsTracee) (d : DnsState) : DnsState :=
  let arg := peek_reg (t_regs t) ORIGINAL in
  match read_datagram t (arg SYSARG_2) (arg SYSARG_3) (arg SYSARG_5) with
  | Some (server, packet) => dns_remember_query rules (t_pid t) (sgn 32 (arg SYSARG_1)) packet server d
  | None => d
  end.

(** dns_observe_receive() *)
Definition dns_observe_receive (t : DnsTracee) (now : Z) (d : DnsState) : DnsState :=
  let arg := peek_reg (t_regs t) ORIGINAL in
  let packet_len := peek_reg (t_regs t) CURRENT SYSARG_RESULT in
  if sgn 64 packet_len <=? 0 then d
  else
    match read_datagram t (arg SYSARG_1) packet_len (arg SYSARG_5) with
    | Some (server, packet) => dns_remember_response (t_pid t) (sgn 32 (arg SYSARG_1)) packet server now d
    | None => d
    end.

(** dns_pending_query(): the last query of a descriptor with a response, and its
    place. *)
Definition pending (pid fd : Z) (q : NetDnsQuery) : Prop := q_pid q = pid /\ q_fd q = fd /\ q_ready q = true.
#[export] Instance pending_dec pid fd q : Decision (pending pid fd q).
Proof. unfold pending. apply _. Defined.
Definition dns_pending_query (d : DnsState) (pid fd : Z) : option (nat * NetDnsQuery) :=
  match list_find (pending pid fd) (reverse (dns_queries d)) with
  | None => None
  | Some (i, q) => Some (length (dns_queries d) - S i, q)%nat
  end.

(** The length that dns_write_response() writes: a whole number of words when the
    buffer has room for it. *)
Definition write_length (capacity : Z) (q : NetDnsQuery) : Z :=
  let copied := Z.min capacity (zlen (q_response q)) in
  if negb (copied =? 0) && negb (copied mod 8 =? 0) && (copied + 8 - copied mod 8 <=? capacity)
  then copied + (8 - copied mod 8) else copied.

(** dns_write_response(): the memory, and the bytes copied. *)
Definition dns_write_response (t : DnsTracee) (buffer capacity : Z) (q : NetDnsQuery) : DnsTracee * res Z :=
  let copied := Z.min capacity (zlen (q_response q)) in
  let write_len := write_length capacity q in
  if (buffer =? 0) && negb (write_len =? 0) then (t, Err EFAULT)
  else if write_len =? 0 then (t, Ok copied)
  else
    match write_data (t_mem t) (t_me t) buffer (resize (Z.to_nat write_len) 0 (q_response q)) with
    | (m, None) => (set_mem m t, Ok copied)
    | (m, Some _) => (set_mem m t, Err EFAULT)
    end.

(** The system call is voided, its result given. *)
Definition emulated (result : Z) (t : DnsTracee) : res DnsTracee :=
  let! regs := set_sysnum (t_regs t) PR_void in
  Ok (mkDnsTracee (t_me t) (t_pid t) (poke_reg regs SYSARG_RESULT result) (t_mem t)).

Definition consume (i : nat) (d : DnsState) : DnsState :=
  mkDns (alter (fun q => set_response (q_response q) false q) i (dns_queries d)) (dns_leases d).

(** What an emulation returns: whether the system call was emulated, the tracee
    and the state. *)
Definition Emulation : Type := res (bool * DnsTracee * DnsState).
Definition not_emulated (t : DnsTracee) (d : DnsState) : Emulation := Ok (false, t, d).
Definition done_with (result : Z) (t : DnsTracee) (d : DnsState) : Emulation :=
  let! t := emulated result t in Ok (true, t, d).

(** dns_emulate_send() *)
Definition dns_emulate_send (rules : list NetPolicyRule) (t : DnsTracee) (d : DnsState) : Emulation :=
  let old_count := length (dns_queries d) in
  match read_datagram t (arg t SYSARG_2) (arg t SYSARG_3) (arg t SYSARG_5) with
  | None => not_emulated t d
  | Some (server, packet) =>
      let d := dns_remember_query rules (t_pid t) (fd_of t) packet server d in
      if (length (dns_queries d) =? old_count)%nat && (old_count <? NET_DNS_MAX_QUERIES)%nat then not_emulated t d
      else
        match last (dns_queries d) with
        | None => Stuck OutOfBounds
        | Some q =>
            if negb (q_pid q =? t_pid t) || negb (q_fd q =? fd_of t) || negb (q_ready q) then not_emulated t d
            else done_with (arg t SYSARG_3) t d
        end
  end.

(** A length of [sizeof_addr] bytes at most is read, the address and the length
    are written. *)
Definition write_server (t : DnsTracee) (addr_ptr size_ptr size : Z) (q : NetDnsQuery) : DnsTracee * bool :=
  let size := Z.min size (Z.of_nat SOCKADDR_STORAGE) in
  match write_data (t_mem t) (t_me t) addr_ptr (take (Z.to_nat size) (q_server q)) with
  | (m, Some _) => (set_mem m t, false)
  | (m, None) =>
      match write_data m (t_me t) size_ptr (to_le 4 size) with
      | (m, Some _) => (set_mem m t, false)
      | (m, None) => (set_mem m t, true)
      end
  end.

(** dns_emulate_receive() *)
Definition dns_emulate_receive (t : DnsTracee) (d : DnsState) : Emulation :=
  match dns_pending_query d (t_pid t) (fd_of t) with
  | None => not_emulated t d
  | Some (i, q) =>
      let addr_ptr := arg t SYSARG_5 in
      let size_ptr := arg t SYSARG_6 in
      match dns_write_response t (arg t SYSARG_2) (arg t SYSARG_3) q with
      | (t, Ok copied) =>
          if negb (addr_ptr =? 0) && negb (size_ptr =? 0) then
            match read_data (t_mem t) (t_me t) size_ptr 4 with
            | inr _ => not_emulated t d
            | inl size =>
                match write_server t addr_ptr size_ptr (of_le size) q with
                | (t, false) => not_emulated t d
                | (t, true) => done_with copied t (consume i d)
                end
            end
          else done_with copied t (consume i d)
      | (t, Err _) => not_emulated t d
      | (t, Stuck w) => Stuck w
      end
  end.

(** dns_emulate_recvmsg(): the layouts of struct msghdr and of struct iovec are
    those of a 64-bit host. *)
Definition dns_emulate_recvmsg (t : DnsTracee) (d : DnsState) : Emulation :=
  let message_ptr := arg t SYSARG_2 in
  match dns_pending_query d (t_pid t) (fd_of t) with
  | None => not_emulated t d
  | Some (i, q) =>
      if message_ptr =? 0 then not_emulated t d
      else
        match read_data (t_mem t) (t_me t) message_ptr 56 with
        | inr _ => not_emulated t d
        | inl message =>
            let msg_name := of_le (slice 0 8 message) in
            let msg_namelen := of_le (slice 8 4 message) in
            let msg_iov := of_le (slice 16 8 message) in
            if (msg_iov =? 0) || (of_le (slice 24 8 message) =? 0) then not_emulated t d
            else
              match read_data (t_mem t) (t_me t) msg_iov 16 with
              | inr _ => not_emulated t d
              | inl vector =>
                  match dns_write_response t (of_le (slice 0 8 vector)) (of_le (slice 8 8 vector)) q with
                  | (t, Ok copied) =>
                      if negb (msg_name =? 0) && negb (msg_namelen =? 0) then
                        match write_server t msg_name (wrap64 (message_ptr + 8)) msg_namelen q with
                        | (t, false) => not_emulated t d
                        | (t, true) => done_with copied t (consume i d)
                        end
                      else done_with copied t (consume i d)
                  | (t, Err _) => not_emulated t d
                  | (t, Stuck w) => Stuck w
                  end
              end
        end
  end.

Definition POLLIN := 1.

(** The loop of dns_emulate_ppoll() over the entries of 8 bytes: the entries, and
    the number of those that are ready. *)
Fixpoint ppoll_loop (n : nat) (fds : list Z) (pid : Z) (d : DnsState) : list Z * Z :=
  match n with
  | O => ([], 0)
  | S n =>
      let events := of_le (slice 4 2 fds) in
      let is_ready := negb (Z.land events POLLIN =? 0)
                      && bool_decide (dns_pending_query d pid (sgn 32 (of_le (slice 0 4 fds))) <> None) in
      let '(rest, ready) := ppoll_loop n (drop 8 fds) pid d in
      (slice 0 6 fds ++ to_le 2 (if is_ready then POLLIN else 0) ++ rest, if is_ready then ready + 1 else ready)
  end.

(** dns_emulate_ppoll() *)
Definition dns_emulate_ppoll (t : DnsTracee) (d : DnsState) : Emulation :=
  let fds_ptr := arg t SYSARG_1 in
  let nfds := arg t SYSARG_2 in
  if (fds_ptr =? 0) || (nfds =? 0) || (64 <? nfds) then not_emulated t d
  else
    match read_data (t_mem t) (t_me t) fds_ptr (nfds * 8) with
    | inr _ => not_emulated t d
    | inl fds =>
        let '(fds, ready) := ppoll_loop (Z.to_nat nfds) fds (t_pid t) d in
        if ready =? 0 then not_emulated t d
        else
          match write_data (t_mem t) (t_me t) fds_ptr fds with
          | (m, Some _) => not_emulated (set_mem m t) d
          | (m, None) => done_with ready (set_mem m t) d
          end
    end.

(** dns_emulate_read() *)
Definition dns_emulate_read (t : DnsTracee) (d : DnsState) : Emulation :=
  match dns_pending_query d (t_pid t) (fd_of t) with
  | None => not_emulated t d
  | Some (i, q) =>
      if arg t SYSARG_2 =? 0 then not_emulated t d
      else
        match dns_write_response t (arg t SYSARG_2) (arg t SYSARG_3) q with
        | (t, Ok copied) => done_with copied t (consume i d)
        | (t, Err _) => not_emulated t d
        | (t, Stuck w) => Stuck w
        end
  end.

End Answers.
Arguments DnsTracee : clear implicits.

(** ** Names of domains, by their encoding *)

(** The labels at an offset of a packet: [stop] is the offset after the name and
    [jumps] the number of pointers followed. *)
Inductive spells (packet : list Z) : nat -> list (list Z) -> nat -> nat -> Prop :=
  | spells_end o : (o < length packet)%nat -> u8 packet o = 0 -> spells packet o [] (S o) 0
  | spells_label o n labels stop jumps :
      (o < length packet)%nat -> u8 packet o = n -> 0 < n <= 63 -> (S o + Z.to_nat n <= length packet)%nat ->
      spells packet (S o + Z.to_nat n) labels stop jumps ->
      spells packet o (slice (S o) (Z.to_nat n) packet :: labels) stop jumps
  | spells_pointer o target labels stop jumps :
      (S o < length packet)%nat -> is_pointer (u8 packet o) = true ->
      target = Z.lor (Z.shiftl (Z.land (u8 packet o) 0x3f) 8) (u8 packet (S o)) ->
      target < Z.of_nat (length packet) ->
      spells packet (Z.to_nat target) labels stop jumps -> spells packet o labels (S (S o)) (S jumps).

(** The text after [t] of labels: they are separated by dots and in lower case. *)
Fixpoint extend (t : list Z) (labels : list (list Z)) : list Z :=
  match labels with
  | [] => t
  | l :: labels => extend (match t with [] => [] | _ => t ++ [DOT] end ++ map lower l) labels
  end.

(** The state of the loop for a text. *)
Definition kept (t : list Z) : list Z * bool := (take NAME_ROOM t, (NAME_ROOM <? length t)%nat).

Lemma push_kept t c : push_char (kept t) c = kept (t ++ [c]).
Proof.
  unfold push_char, kept, NAME_ROOM. rewrite length_app, length_take. cbn [length].
  destruct (Nat.ltb_spec (Nat.min 255 (length t)) 255) as [H|H].
  - rewrite !take_ge by (rewrite ?length_app; cbn; lia). f_equal.
    rewrite !(proj2 (Nat.ltb_ge _ _)) by lia. done.
  - rewrite take_app_le by lia. f_equal. symmetry. apply Nat.ltb_lt. lia.
Qed.

Lemma push_all_kept l : forall t, fold_left (fun st c => push_char st (lower c)) l (kept t) = kept (t ++ map lower l).
Proof.
  induction l as [|c l IH]; intros t; cbn [fold_left map]; [by rewrite app_nil_r|].
  rewrite push_kept, IH. by rewrite <- app_assoc.
Qed.

Lemma kept_empty t : fst (kept t) = [] <-> t = [].
Proof. unfold kept, NAME_ROOM. destruct t; cbn; done. Qed.

Lemma extend_length labels : forall t, (length t <= length (extend t labels))%nat.
Proof.
  induction labels as [|l labels IH]; intros t; cbn [extend]; [done|]. etrans; [|apply IH].
  rewrite length_app. destruct t; cbn [length]; [lia|]. rewrite length_app. cbn. lia.
Qed.

Lemma pointer_not_zero c : is_pointer c = true -> c <> 0.
Proof. intros H ->. done. Qed.

(** A label of at most 63 bytes has its two high bits clear. *)
Lemma small_label c : 0 <= c <= 63 -> Z.land c 0xc0 = 0.
Proof.
  intros H. apply Z.bits_inj'. intros n Hn. rewrite Z.land_spec, Z.bits_0. destruct (Z.lt_ge_cases n 6).
  - replace (Z.testbit 0xc0 n) with false; [by rewrite andb_false_r|].
    assert (n = 0 \/ n = 1 \/ n = 2 \/ n = 3 \/ n = 4 \/ n = 5) as Hc by lia. by repeat destruct Hc as [->|Hc]; subst.
  - rewrite Z.bits_above_log2; [done|lia|]. destruct (Z.eq_dec c 0) as [->|]; [cbn; lia|].
    apply Z.log2_lt_pow2; [lia|]. apply Z.lt_le_trans with 64; [lia|]. apply (Z.pow_le_mono_r 2 6 n); lia.
Qed.

Definition packet_ok (packet : list Z) : Prop := Forall is_byte packet.

Lemma u8_byte packet o : packet_ok packet -> is_byte (u8 packet o).
Proof.
  intros H. unfold u8, chr. rewrite nth_lookup. destruct (packet !! o) eqn:E; [by eapply Forall_lookup_1|].
  cbn. unfold is_byte. lia.
Qed.

(** The decrease of the loop. *)
Definition measure (packet : list Z) (cursor jumps : nat) : nat := (16 - jumps) * S (length packet) + (length packet - cursor).

Lemma jump_measure packet cursor jumps target : (jumps < 16)%nat -> (measure packet target (S jumps) < measure packet cursor jumps)%nat.
Proof.
  intros H. unfold measure. replace (16 - jumps)%nat with (S (16 - S jumps)) by lia. lia.
Qed.

Lemma step_measure packet cursor next jumps : (cursor < length packet)%nat -> (cursor < next)%nat ->
  (measure packet next jumps < measure packet cursor jumps)%nat.
Proof. intros H1 H2. unfold measure. apply Nat.add_lt_mono_l. lia. Qed.

Lemma read_name_loop_spec packet fuel : packet_ok packet -> forall cursor resume jumps t,
  (jumps <= 16)%nat -> (measure packet cursor jumps <= fuel)%nat ->
  match read_name_loop fuel packet cursor resume jumps (kept t) with
  | Ok (name, next) => exists labels stop j, spells packet cursor labels stop j /\ (jumps + j <= 16)%nat
      /\ name = extend t labels /\ (length name <= NAME_ROOM)%nat /\ next = default stop resume
  | Err _ => forall labels stop j, spells packet cursor labels stop j -> (jumps + j <= 16)%nat ->
      (NAME_ROOM < length (extend t labels))%nat
  | Stuck _ => False
  end.
Proof.
  intros Hp. induction fuel as [|fuel IH]; intros cursor resume jumps t Hj Hm.
  - cbn [read_name_loop]. destruct (Nat.ltb_spec cursor (length packet)) as [Hc|Hc]; cbn [negb].
    + pose proof (step_measure packet cursor (S cursor) jumps Hc). lia.
    + intros labels stop j Hs. inversion Hs; subst; lia.
  - cbn [read_name_loop]. destruct (Nat.ltb_spec cursor (length packet)) as [Hc|Hc]; cbn [negb].
    2: { intros labels stop j Hs. inversion Hs; subst; lia. }
    pose proof (u8_byte packet cursor Hp) as Hb. unfold is_byte in Hb.
    destruct (Z.eqb_spec (u8 packet cursor) 0) as [E0|E0].
    { cbn [kept fst snd]. destruct (Nat.ltb_spec NAME_ROOM (length t)) as [Ht|Ht].
      - intros labels stop j Hs _. inversion Hs; subst; try lia; [exact Ht|].
        exfalso. by eapply pointer_not_zero.
      - exists [], (S cursor), 0%nat. split; [by constructor|]. split; [lia|]. cbn [extend].
        rewrite take_ge by (unfold NAME_ROOM in *; lia). split; [done|]. split; [done|]. by destruct resume. }
    destruct (is_pointer (u8 packet cursor)) eqn:Ep.
    { assert (Hsmall : ~ (u8 packet cursor <= 63)).
      { intros Hle. unfold is_pointer in Ep. rewrite small_label in Ep by lia. done. }
      destruct (Nat.leb_spec (length packet) (S cursor)) as [Hl|Hl]; cbn [orb].
      { intros labels stop j Hs. inversion Hs; subst; try lia. }
      destruct (Nat.leb_spec 16 jumps) as [Hk|Hk].
      { intros labels stop j Hs Hjj. inversion Hs; subst; try lia. }
      set (target := Z.lor _ _). destruct (Z.leb_spec (Z.of_nat (length packet)) target) as [Hta|Hta].
      { intros labels stop j Hs. inversion Hs; subst; try lia. }
      specialize (IH (Z.to_nat target) (match resume with Some r => Some r | None => Some (S (S cursor)) end) (S jumps) t ltac:(lia)).
      specialize (IH ltac:(pose proof (jump_measure packet cursor jumps (Z.to_nat target) Hk); lia)).
      destruct (read_name_loop _ _ _ _ _ _) as [[name next]|e|w]; [| |done].
      - destruct IH as (labels & stop & j & H1 & H2 & H3 & H4 & H5). exists labels, (S (S cursor)), (S j).
        split; [by eapply spells_pointer|]. split; [lia|]. split; [done|]. split; [done|]. by destruct resume.
      - intros labels stop j Hs Hjj. inversion Hs; subst; try lia. eapply IH; [eassumption|lia]. }
    unfold bad_label. destruct (Z.eqb_spec (Z.land (u8 packet cursor) 0xc0) 0) as [Ez|Ez]; cbn [negb orb].
    2: { intros labels stop j Hs. inversion Hs; subst; try lia; try congruence. by rewrite small_label in Ez by lia. }
    destruct (Z.ltb_spec 63 (u8 packet cursor)) as [Hbig|Hbig]; cbn [orb].
    { intros labels stop j Hs. inversion Hs; subst; try lia; try congruence. }
    destruct (Nat.ltb_spec (length packet) (S cursor + Z.to_nat (u8 packet cursor))) as [Hl|Hl].
    { intros labels stop j Hs. inversion Hs; subst; try lia; try congruence. }
    set (l := slice (S cursor) (Z.to_nat (u8 packet cursor)) packet).
    assert (Est : match fst (kept t) with [] => kept t | _ => push_char (kept t) DOT end
                  = kept (match t with [] => [] | _ => t ++ [DOT] end)).
    { destruct t as [|x t]; [done|]. rewrite <- push_kept. by cbn. }
    rewrite Est, push_all_kept. set (t' := _ ++ map lower l).
    specialize (IH (S cursor + Z.to_nat (u8 packet cursor))%nat resume jumps t' Hj).
    specialize (IH ltac:(pose proof (step_measure packet cursor (S cursor + Z.to_nat (u8 packet cursor)) jumps Hc); lia)).
    destruct (read_name_loop _ _ _ _ _ _) as [[name next]|e|w]; [| |done].
    + destruct IH as (labels & stop & j & H1 & H2 & H3 & H4 & H5). exists (l :: labels), stop, j.
      split; [by apply spells_label; [| | lia| |]|]. done.
    + intros labels stop j Hs Hjj. inversion Hs; subst; try lia; try congruence. cbn [extend].
      by eapply IH.
Qed.

Lemma spells_fun packet o labels stop j labels' stop' j' : packet_ok packet ->
  spells packet o labels stop j -> spells packet o labels' stop' j' -> labels = labels' /\ stop = stop' /\ j = j'.
Proof.
  intros Hp H. revert labels' stop' j'. induction H as [o Ho E|o n labels stop j Ho E Hn Hl Hs IH|o target labels stop j Ho Ep Et Hta Hs IH];
    intros labels' stop' j' H'.
  - inversion H'; subst; [done|lia|]. exfalso. by eapply pointer_not_zero.
  - assert (Hnp : is_pointer n = false) by (unfold is_pointer; by rewrite small_label by lia).
    inversion H'; subst; [lia| |congruence].
    match goal with K : spells packet (S o + _) _ _ _ |- _ => destruct (IH _ _ _ K) as (-> & -> & ->) end. done.
  - inversion H'; subst.
    + exfalso. by eapply pointer_not_zero.
    + unfold is_pointer in Ep. by rewrite small_label in Ep by lia.
    + match goal with K : spells packet (Z.to_nat _) _ _ _ |- _ => destruct (IH _ _ _ K) as (-> & -> & ->) end. done.
Qed.

Lemma skip_loop_total packet fuel : packet_ok packet -> forall cursor, (length packet - cursor < fuel)%nat ->
  skip_loop fuel packet cursor <> Stuck NoFuel
  /\ forall labels stop j, spells packet cursor labels stop j -> skip_loop fuel packet cursor = Ok stop.
Proof.
  intros Hp. induction fuel as [|fuel IH]; intros cursor Hf; [lia|]. cbn [skip_loop].
  destruct (Nat.ltb_spec cursor (length packet)) as [Hc|Hc]; cbn [negb].
  2: { split; [done|]. intros labels stop j Hs. inversion Hs; subst; lia. }
  pose proof (u8_byte packet cursor Hp) as Hb. unfold is_byte in Hb.
  destruct (Z.eqb_spec (u8 packet cursor) 0) as [E0|E0].
  { split; [done|]. intros labels stop j Hs. inversion Hs; subst; [done|lia|]. exfalso. by eapply pointer_not_zero. }
  destruct (is_pointer (u8 packet cursor)) eqn:Ep.
  { destruct (Nat.leb_spec (length packet) (S cursor)) as [Hl|Hl]; (split; [done|]); intros labels stop j Hs;
      inversion Hs; subst; try lia; try done; unfold is_pointer in Ep; by rewrite small_label in Ep by lia. }
  unfold bad_label. destruct (Z.eqb_spec (Z.land (u8 packet cursor) 0xc0) 0) as [Ez|Ez]; cbn [negb orb].
  2: { split; [done|]. intros labels stop j Hs. inversion Hs; subst; try lia; try congruence. by rewrite small_label in Ez by lia. }
  destruct (Z.ltb_spec 63 (u8 packet cursor)) as [Hbig|Hbig]; cbn [orb].
  { split; [done|]. intros labels stop j Hs. inversion Hs; subst; try lia; try congruence. }
  destruct (Nat.ltb_spec (length packet) (S cursor + Z.to_nat (u8 packet cursor))) as [Hl|Hl].
  { split; [done|]. intros labels stop j Hs. inversion Hs; subst; try lia; try congruence. }
  destruct (IH (S cursor + Z.to_nat (u8 packet cursor))%nat ltac:(lia)) as [H1 H2]. split; [done|].
  intros labels stop j Hs. inversion Hs; subst; try lia; try congruence. by eapply H2.
Qed.

Lemma read_name_initial packet offset : (measure packet offset 0 <= read_name_fuel packet)%nat.
Proof. unfold measure, read_name_fuel. lia. Qed.

(** ** Answers *)

Section Justified.

Context {I : Inet} {IL : InetLaws I}.

(** The address is the one of a rule for the name. *)
Definition allowed_by (rules : list NetPolicyRule) (name : cstr) (qtype : Z) (a : list Z) : Prop :=
  exists r prefix host suffix f, r ∈ rules /\ is_domain r = false /\ source r <> []
    /\ dns_names_equal (source r) name = true /\ destination_host (value r) = Ok (prefix, host, suffix)
    /\ f = (if qtype =? 1 then AF_INET else AF_INET6) /\ inet_pton f (before_slash host) = Some a.

Definition address_size (qtype : Z) : nat := if qtype =? 1 then 4%nat else 16%nat.

Lemma rule_answer_allowed wanted qtype r a : (qtype = 1 \/ qtype = 28) -> rule_answer wanted qtype r = Some a ->
  forall rules, r ∈ rules -> allowed_by rules wanted qtype a.
Proof.
  intros Hq H rules Hr. unfold rule_answer in H.
  destruct (is_domain r) eqn:E1; [done|]. destruct (str_eqb (source r) []) eqn:E2; [done|].
  destruct (dns_names_equal (source r) wanted) eqn:E3; [|done]. cbn [orb negb] in H.
  destruct (destination_host (value r)) as [[[prefix host] suffix]|?|?] eqn:E4; [|done..]. case_bool_in H; [done|].
  cbv zeta in H. exists r, prefix, host, suffix, (if qtype =? 1 then AF_INET else AF_INET6).
  apply str_eqb_neq in E2. split_and!; try done.
  destruct Hq as [-> | ->]; cbn in H |- *; case_bool_decide; cbn in H; done.
Qed.

Lemma rule_answer_length wanted qtype r a : (qtype = 1 \/ qtype = 28) -> rule_answer wanted qtype r = Some a ->
  length a = address_size qtype /\ Forall is_byte a.
Proof.
  intros Hq H. destruct (rule_answer_allowed _ _ _ _ Hq H [r]) as (? & ? & ? & ? & f & _ & _ & _ & _ & _ & -> & E); [constructor|].
  apply inet_pton_length in E as [-> Hb]. split; [|done]. by destruct Hq as [-> | ->].
Qed.

Lemma length_record qtype a : length (resource_record qtype a) = (12 + length a)%nat.
Proof. unfold resource_record. by rewrite length_app. Qed.

(** What is collected: answers of rules, without duplicates, within the room, and
    all of them if there is room. *)
Lemma collect_answers_spec wanted qtype room rules : (qtype = 1 \/ qtype = 28) -> forall answers,
  (length (concat (map (resource_record qtype) answers)) <= room)%nat -> NoDup answers ->
  Forall (fun a => length a = address_size qtype) answers ->
  let result := collect_answers wanted qtype room rules answers in
  (exists more, result = answers ++ more /\ Forall (fun a => exists r, r ∈ rules /\ rule_answer wanted qtype r = Some a) more)
  /\ (length (concat (map (resource_record qtype) result)) <= room)%nat /\ NoDup result
  /\ Forall (fun a => length a = address_size qtype) result
  /\ ((length (concat (map (resource_record qtype) result)) + 28 <= room)%nat -> zlen result < 65535 ->
      Forall (fun r => forall a, rule_answer wanted qtype r = Some a -> a ∈ result) rules).
Proof.
  intros Hq. induction rules as [|r rules IH]; intros answers Hroom Hnd Hlen result.
  { subst result. cbn [collect_answers]. split; [exists []; by rewrite app_nil_r|]. by split_and!. }
  assert (Hskip : collect_answers wanted qtype room (r :: rules) answers = collect_answers wanted qtype room rules answers ->
    (forall a, rule_answer wanted qtype r = Some a -> a ∈ answers
       \/ (room < length (concat (map (resource_record qtype) answers)) + 28)%nat \/ 65535 <= zlen answers) ->
    (exists more, result = answers ++ more /\ Forall (fun a => exists r', r' ∈ r :: rules /\ rule_answer wanted qtype r' = Some a) more)
    /\ (length (concat (map (resource_record qtype) result)) <= room)%nat /\ NoDup result
    /\ Forall (fun a => length a = address_size qtype) result
    /\ ((length (concat (map (resource_record qtype) result)) + 28 <= room)%nat -> zlen result < 65535 ->
        Forall (fun r' => forall a, rule_answer wanted qtype r' = Some a -> a ∈ result) (r :: rules))).
  { intros E Hr. subst result. rewrite E. destruct (IH answers Hroom Hnd Hlen) as ((more & E1 & H1) & H2 & H3 & H4 & H5).
    split. { exists more. split; [done|]. eapply Forall_impl; [exact H1|]. intros a (r' & ? & ?). exists r'. by split; [constructor|]. }
    split_and!; try done. intros Hfit Hn. constructor; [|by apply H5]. intros a Ha. rewrite E1 in *.
    rewrite map_app, concat_app, length_app in Hfit. unfold zlen in Hn. rewrite length_app in Hn.
    apply elem_of_app. left. destruct (Hr a Ha) as [?|[?|?]]; [done|lia|unfold zlen in *; lia]. }
  cbn [collect_answers] in Hskip |- *. destruct (rule_answer wanted qtype r) as [a|] eqn:Ea; [|apply Hskip; [done|by intros]].
  pose proof (rule_answer_length _ _ _ _ Hq Ea) as [La _].
  destruct (existsb (str_eqb a) answers) eqn:Ex.
  { apply Hskip; [done|]. intros a' [= <-]. left. apply existsb_exists in Ex as (x & Hx & E). apply str_eqb_eq in E as ->. by apply list_elem_of_In. }
  destruct ((room <? length (concat (map (resource_record qtype) answers)) + (12 + length a))%nat || (zlen answers =? 65535)) eqn:Er.
  { apply Hskip; [done|]. intros a' [= <-]. right. apply orb_true_iff in Er as [Er|Er].
    - left. apply Nat.ltb_lt in Er. rewrite La in Er. unfold address_size in Er. destruct (qtype =? 1); lia.
    - right. apply Z.eqb_eq in Er. lia. }
  apply orb_false_iff in Er as [Er Er']. apply Nat.ltb_ge in Er. clear Hskip.
  destruct (IH (answers ++ [a])) as ((more & E1 & H1) & H2 & H3 & H4 & H5).
  - rewrite map_app, concat_app, length_app. cbn [map concat]. rewrite app_nil_r, length_record. lia.
  - apply NoDup_app. split; [done|]. split; [|apply NoDup_singleton]. intros x Hx ->%list_elem_of_singleton.
    apply not_true_iff_false in Ex. apply Ex, existsb_exists. exists a. split; [by apply list_elem_of_In|apply str_eqb_refl].
  - apply Forall_app. split; [done|]. by repeat constructor.
  - assert (E2 : result = collect_answers wanted qtype room rules (answers ++ [a])).
    { subst result. cbn [collect_answers]. rewrite Ea, Ex. by rewrite (proj2 (Nat.ltb_ge _ _) Er), Er'. }
    rewrite E2. split.
    { exists (a :: more). rewrite E1, <- app_assoc. split; [done|]. constructor; [exists r; by split; [constructor|]|].
      eapply Forall_impl; [exact H1|]. intros x (r' & ? & ?). exists r'. by split; [constructor|]. }
    split_and!; try done. intros Hfit Hn. constructor; [|by apply H5]. intros a' Ha'. rewrite Ea in Ha'. injection Ha' as <-. rewrite E1.
    apply elem_of_app. left. apply elem_of_app. right. constructor.
Qed.

End Justified.

(** ** The tables *)

Lemma skip_loop_bounds packet fuel : forall cursor next, skip_loop fuel packet cursor = Ok next ->
  (cursor < next <= length packet)%nat.
Proof.
  induction fuel as [|fuel IH]; intros cursor next H; cbn [skip_loop] in H.
  - case_bool_in H; done.
  - destruct (Nat.ltb_spec cursor (length packet)) as [Hc|Hc]; cbn [negb] in H; [|done].
    case_bool_in H; [injection H as <-; lia|]. case_bool_in H.
    + destruct (Nat.leb_spec (length packet) (S cursor)); [done|]. injection H as <-. lia.
    + case_bool_in H; [done|]. apply IH in H. lia.
Qed.

Lemma append_spec {A} max (x : A) l : (0 < max)%nat ->
  (length (append max x l) <= max)%nat /\ forall P : A -> Prop, P x -> Forall P l -> Forall P (append max x l).
Proof.
  intros Hm. unfold append. split; [rewrite length_app, length_take; cbn [length]; lia|].
  intros P Hx Hl. apply Forall_app. split; [by apply Forall_take|]. by constructor.
Qed.

Section Tables.

Context {I : Inet} {IL : InetLaws I}.

(** The datagrams that were sent: by whom, through which descriptor, to which
    server and with which content. *)
Context (asked : Z -> Z -> list Z -> list Z -> Prop).

(** The query is the question of the packet, the only one: its identifier, its
    name, decoded, and its type, A or AAAA. *)
Definition question_of (packet : list Z) (q : NetDnsQuery) : Prop :=
  u16 packet 4 = 1 /\ q_id q = u16 packet 0
  /\ (exists next, dns_read_name packet 12 = Ok (q_name q, next) /\ q_type q = u16 packet next)
  /\ (q_type q = 1 \/ q_type q = 28).

(** A response that is ready has the size of its array and answers the question
    of a datagram that its tracee sent, only with addresses of rules for the name
    of this question. *)
Definition response_ok (rules : list NetPolicyRule) (q : NetDnsQuery) : Prop :=
  q_ready q = true ->
  (length (q_response q) <= RESPONSE_SIZE)%nat
  /\ exists packet stop answers,
       asked (q_pid q) (q_fd q) (q_server q) packet /\ question_of packet q /\ dns_skip_name packet 12 = Ok stop
       /\ q_response q = response_packet packet (stop + 4) (q_type q) answers /\ NoDup answers
       /\ Forall (allowed_by rules (dns_canonical (q_name q) 256) (q_type q)) answers.

Definition dns_ok (rules : list NetPolicyRule) (d : DnsState) : Prop :=
  (length (dns_queries d) <= NET_DNS_MAX_QUERIES)%nat /\ (length (dns_leases d) <= NET_DNS_MAX_LEASES)%nat
  /\ Forall (response_ok rules) (dns_queries d).

Lemma prepare_response_spec rules packet q stop :
  (12 <= length packet)%nat -> u16 packet 4 = 1 -> dns_skip_name packet 12 = Ok stop -> (stop + 4 <= length packet)%nat ->
  (stop + 4 <= RESPONSE_SIZE)%nat -> q_type q = 1 \/ q_type q = 28 ->
  let wanted := dns_canonical (q_name q) 256 in
  exists answers, dns_prepare_response rules packet q = set_response (response_packet packet (stop + 4) (q_type q) answers) true q
    /\ (length (response_packet packet (stop + 4) (q_type q) answers) <= RESPONSE_SIZE)%nat /\ NoDup answers
    /\ Forall (allowed_by rules wanted (q_type q)) answers
    /\ ((length (response_packet packet (stop + 4) (q_type q) answers) + 28 <= RESPONSE_SIZE)%nat ->
        Forall (fun r => forall a, rule_answer wanted (q_type q) r = Some a -> a ∈ answers) rules).
Proof.
  intros Hl Hc Hs Hstop Hsize Hq wanted. unfold dns_prepare_response.
  rewrite (proj2 (Nat.ltb_ge _ _) Hl), Hc, Hs. change (1 =? 1) with true. cbn [negb orb].
  rewrite (proj2 (Nat.ltb_ge _ _) Hstop), (proj2 (Nat.ltb_ge _ _) Hsize).
  replace (negb ((q_type q =? 1) || (q_type q =? 28))) with false by (by destruct Hq as [-> | ->]). cbn [orb].
  fold wanted. set (answers := collect_answers _ _ _ _ _).
  destruct (collect_answers_spec wanted (q_type q) (RESPONSE_SIZE - (stop + 4)) rules Hq []) as ((more & E & Hm) & H2 & H3 & _ & H5);
    [cbn; lia|constructor|constructor|]. fold answers in E, H2, H3, H5. cbn [app] in E. subst more.
  assert (Hlen : length (response_packet packet (stop + 4) (q_type q) answers)
                 = (stop + 4 + length (concat (map (resource_record (q_type q)) answers)))%nat).
  { unfold dns_skip_name in Hs. apply skip_loop_bounds in Hs. unfold response_packet. rewrite !length_app, !length_slice by lia. cbn [length]. lia. }
  exists answers. split; [done|]. split; [lia|]. split; [done|]. split.
  - eapply Forall_impl; [exact Hm|]. intros a (r & Hr & Ha). by eapply rule_answer_allowed.
  - intros Hfit. apply H5; [lia|]. assert (Hrec : forall l, (12 * length l <= length (concat (map (resource_record (q_type q)) l)))%nat).
    { induction l as [|a l IHl]; cbn [map concat length]; [lia|]. rewrite length_app, length_record. lia. }
    specialize (Hrec answers). unfold zlen, RESPONSE_SIZE in *. lia.
Qed.

Lemma prepare_response_ok rules packet q next : q_ready q = false ->
  asked (q_pid q) (q_fd q) (q_server q) packet -> q_id q = u16 packet 0 ->
  dns_read_name packet 12 = Ok (q_name q, next) -> q_type q = u16 packet next ->
  response_ok rules (dns_prepare_response rules packet q).
Proof.
  intros Hq Hasked Hid Hname Htype. assert (H0 : response_ok rules q) by (unfold response_ok; by rewrite Hq).
  unfold dns_prepare_response. case_bool; [done|]. destruct (dns_skip_name packet 12) as [stop|?|?] eqn:Es; [|done..].
  case_bool; [done|]. case_bool; [done|].
  apply orb_false_iff in Hb as [Hl Hc]. apply orb_false_iff in Hb0 as [Hs Hty].
  assert (Hone : u16 packet 4 = 1) by (by apply Z.eqb_eq, negb_false_iff).
  assert (Hkind : q_type q = 1 \/ q_type q = 28).
  { apply negb_false_iff, orb_true_iff in Hty as [E|E]; apply Z.eqb_eq in E; auto. }
  destruct (prepare_response_spec rules packet q stop) as (answers & E & H1 & H2 & H3 & _); try done; try (by apply Nat.ltb_ge).
  assert (E' : dns_prepare_response rules packet q = set_response (response_packet packet (stop + 4) (q_type q)
    (collect_answers (dns_canonical (q_name q) 256) (q_type q) (RESPONSE_SIZE - (stop + 4)) rules [])) true q).
  { unfold dns_prepare_response. by rewrite Hl, Hc, Es, Hs, Hty, Hb1. }
  rewrite <- E', E. intros _. split; [exact H1|]. exists packet, stop, answers.
  split; [done|]. split; [|by split_and!]. split_and!; [done|done|by exists next|done].
Qed.

Lemma remember_query_ok rules pid fd packet server d : asked pid fd server packet ->
  dns_ok rules d -> dns_ok rules (dns_remember_query rules pid fd packet server d).
Proof.
  intros Ha (H1 & H2 & H3). unfold dns_remember_query. case_bool; [done|].
  destruct (dns_read_name packet 12) as [[name next]|?|?] eqn:En; [|done..].
  match goal with |- context [append _ ?x _] => set (q := x) end.
  assert (Hq : response_ok rules q) by (subst q; cbv zeta; case_bool; [done|by apply (prepare_response_ok _ _ _ next)]).
  destruct (append_spec NET_DNS_MAX_QUERIES q (dns_queries d) ltac:(unfold NET_DNS_MAX_QUERIES; lia)) as [L F].
  split; [exact L|]. split; [done|]. by apply F.
Qed.

Lemma read_answers_ok rules packet pid now server n : forall offset q leases,
  response_ok rules q -> (length leases <= NET_DNS_MAX_LEASES)%nat ->
  let r := read_answers n packet offset pid now server q leases in
  response_ok rules (fst r) /\ (length (snd r) <= NET_DNS_MAX_LEASES)%nat.
Proof.
  induction n as [|n IH]; intros offset q leases Hq Hl; cbn [read_answers]; [done|]. case_bool; [done|].
  destruct (dns_read_name packet offset) as [[name next]|?|?]; [|done..]. case_bool; [done|]. cbv zeta. case_bool; [done|].
  case_bool.
  - case_bool; [by apply IH|]. apply IH; [done|]. apply append_spec. unfold NET_DNS_MAX_LEASES. lia.
  - case_bool; [|by apply IH]. destruct (dns_read_name packet (next + 10)) as [[cname ?]|?|?]; by apply IH.
Qed.

Lemma remember_response_ok rules pid fd packet server now d : dns_ok rules d -> dns_ok rules (dns_remember_response pid fd packet server now d).
Proof.
  intros (H1 & H2 & H3). unfold dns_remember_response. case_bool; [done|].
  destruct (list_find _ (dns_queries d)) as [[i q]|] eqn:E; [|done]. apply list_find_Some in E as (Ei & _ & _).
  case_bool; [done|]. destruct (skip_questions _ _ _) as [offset|]; [|done].
  pose proof (Forall_lookup_1 _ _ _ _ H3 Ei) as Hq.
  destruct (read_answers_ok rules packet pid now server (Z.to_nat (u16 packet 6)) offset q (dns_leases d) Hq H2) as [K1 K2].
  destruct (read_answers _ _ _ _ _ _ _ _) as [q' leases]. cbn [fst snd] in *. split; [cbn; by rewrite length_insert|]. split; [done|].
  by apply Forall_insert.
Qed.

Lemma consume_ok rules i d : dns_ok rules d -> dns_ok rules (consume i d).
Proof.
  intros (H1 & H2 & H3). split; [cbn; by rewrite length_alter|]. split; [done|]. cbn. apply Forall_alter; [done|].
  intros q _ _ Hr. done.
Qed.

(** ** Runs *)

Context {Mem : Type} {TM : TraceeMemory Mem}.

Inductive DnsEvent :=
  | ObserveSend (t : DnsTracee Mem)
  | ObserveReceive (t : DnsTracee Mem) (now : Z)
  | EmulateSend (t : DnsTracee Mem)
  | EmulateReceive (t : DnsTracee Mem)
  | EmulateRecvmsg (t : DnsTracee Mem)
  | EmulatePpoll (t : DnsTracee Mem)
  | EmulateRead (t : DnsTracee Mem).

Definition state_after (d : DnsState) (e : @Emulation Mem) : DnsState := match e with Ok (_, _, d) => d | _ => d end.
Definition dns_step (rules : list NetPolicyRule) (d : DnsState) (e : DnsEvent) : DnsState :=
  match e with
  | ObserveSend t => dns_observe_send rules t d
  | ObserveReceive t now => dns_observe_receive t now d
  | EmulateSend t => state_after d (dns_emulate_send rules t d)
  | EmulateReceive t => state_after d (dns_emulate_receive t d)
  | EmulateRecvmsg t => state_after d (dns_emulate_recvmsg t d)
  | EmulatePpoll t => state_after d (dns_emulate_ppoll t d)
  | EmulateRead t => state_after d (dns_emulate_read t d)
  end.

(** The datagram of an event to the port 53. *)
Definition asks (e : DnsEvent) : option (Z * Z * list Z * list Z) :=
  let sent t view :=
    let arg := peek_reg (t_regs t) view in
    match read_datagram t (arg SYSARG_2) (arg SYSARG_3) (arg SYSARG_5) with
    | Some (server, packet) => Some (t_pid t, sgn 32 (arg SYSARG_1), server, packet)
    | None => None
    end in
  match e with ObserveSend t => sent t ORIGINAL | EmulateSend t => sent t CURRENT | _ => None end.

Definition heard (e : DnsEvent) : Prop :=
  match asks e with Some (pid, fd, server, packet) => asked pid fd server packet | None => True end.

Lemma done_with_state x t d d0 : state_after d0 (done_with (Mem := Mem) x t d) = d \/ state_after d0 (done_with (Mem := Mem) x t d) = d0.
Proof. unfold done_with. destruct (emulated x t); cbn; auto. Qed.

Lemma dns_step_ok rules d e : heard e -> dns_ok rules d -> dns_ok rules (dns_step rules d e).
Proof.
  intros He Hd. unfold heard, asks in He. assert (Hdone : forall x t d', dns_ok rules d' -> dns_ok rules (state_after d (done_with (Mem := Mem) x t d'))).
  { intros x t d' H. destruct (done_with_state x t d' d) as [-> | ->]; done. }
  destruct e as [t|t now|t|t|t|t|t]; cbn [dns_step].
  - unfold dns_observe_send. cbv zeta in *. destruct (read_datagram _ _ _ _) as [[server packet]|]; [by apply remember_query_ok|done].
  - unfold dns_observe_receive. case_bool; [done|]. destruct (read_datagram _ _ _ _) as [[server packet]|]; [by apply remember_response_ok|done].
  - unfold dns_emulate_send, arg. cbv zeta in He. destruct (read_datagram _ _ _ _) as [[server packet]|]; [|done].
    cbv zeta. assert (Hq : dns_ok rules (dns_remember_query rules (t_pid t) (fd_of t) packet server d)) by by apply remember_query_ok.
    case_bool; [done|]. destruct (last _) as [q|]; [|done]. case_bool; [done|]. by apply Hdone.
  - unfold dns_emulate_receive. destruct (dns_pending_query _ _ _) as [[i q]|]; [|done]. cbv zeta.
    destruct (dns_write_response _ _ _ _) as [t' [copied|?|?]]; [|done..]. case_bool; [|by apply Hdone, consume_ok].
    destruct (read_data _ _ _ _); [|done]. destruct (write_server _ _ _ _ _) as [t'' []]; [by apply Hdone, consume_ok|done].
  - unfold dns_emulate_recvmsg. cbv zeta. destruct (dns_pending_query _ _ _) as [[i q]|]; [|done]. case_bool; [done|].
    destruct (read_data _ _ _ _); [|done]. case_bool; [done|]. destruct (read_data _ _ _ _); [|done].
    destruct (dns_write_response _ _ _ _) as [t' [copied|?|?]]; [|done..]. case_bool; [|by apply Hdone, consume_ok].
    destruct (write_server _ _ _ _ _) as [t'' []]; [by apply Hdone, consume_ok|done].
  - unfold dns_emulate_ppoll. cbv zeta. case_bool; [done|]. destruct (read_data _ _ _ _) as [fds|]; [|done].
    destruct (ppoll_loop _ _ _ _) as [fds' ready]. case_bool; [done|]. destruct (write_data _ _ _ _) as [m [e|]]; [done|by apply Hdone].
  - unfold dns_emulate_read. destruct (dns_pending_query _ _ _) as [[i q]|]; [|done]. case_bool; [done|].
    destruct (dns_write_response _ _ _ _) as [t' [copied|?|?]]; [|done..]. by apply Hdone, consume_ok.
Qed.

End Tables.

(** ** Properties *)

(** dns_read_name() and dns_skip_name() return on every packet, pointers that
    loop included: at most 16 are followed. *)
Theorem dns_names_terminate packet offset :
  packet_ok packet -> (forall w, dns_read_name packet offset <> Stuck w) /\ dns_skip_name packet offset <> Stuck NoFuel.
Proof.
  intros Hp. split.
  - intros w. unfold dns_read_name. change ([], false) with (kept []).
    pose proof (read_name_loop_spec packet (read_name_fuel packet) Hp offset None 0 [] ltac:(lia) (read_name_initial packet offset)) as H.
    by destruct (read_name_loop _ _ _ _ _ _) as [[name next]|?|?].
  - apply skip_loop_total; [done|lia].
Qed.

(** dns_read_name() decodes the names of RFC 1035, compressed or not: it
    succeeds exactly when labels are spelled at the offset with at most 16
    pointers and 255 characters, and gives them in lower case, separated by dots,
    with the offset after the name, which is the one of dns_skip_name(). *)
Theorem dns_read_name_decodes packet offset name next :
  packet_ok packet ->
  dns_read_name packet offset = Ok (name, next)
  <-> exists labels jumps, spells packet offset labels next jumps /\ (jumps <= 16)%nat
        /\ (length (extend [] labels) <= NAME_ROOM)%nat /\ name = name_text (extend [] labels)
        /\ dns_skip_name packet offset = Ok next.
Proof.
  intros Hp. unfold dns_read_name. change ([], false) with (kept []).
  pose proof (read_name_loop_spec packet (read_name_fuel packet) Hp offset None 0 [] ltac:(lia) (read_name_initial packet offset)) as H.
  destruct (read_name_loop _ _ _ _ _ _) as [[t n]|e|w]; cbn [res_bind].
  - destruct H as (labels & stop & j & H1 & H2 & -> & H4 & ->). cbn [default] in *. split.
    + intros [= <- <-]. exists labels, j. split_and!; try done. destruct (skip_loop_total packet (S (length packet)) Hp offset ltac:(lia)) as [_ K].
      by eapply K.
    + intros (labels' & j' & K1 & _ & _ & -> & _). by destruct (spells_fun _ _ _ _ _ _ _ _ Hp H1 K1) as (-> & -> & ->).
  - split; [done|]. intros (labels & j & K1 & K2 & K3 & _). specialize (H labels next j K1 ltac:(lia)). lia.
  - done.
Qed.

(** the answer to a question for addresses: the packet with the identifier of
    the question, one question, and as many records as addresses, which are those
    of the rules for this very name, without duplicates and in 4096 bytes; all of
    them unless the packet is full. *)
Theorem dns_prepare_answers {I : Inet} {IL : InetLaws I} rules packet q labels stop jumps :
  packet_ok packet -> u16 packet 4 = 1 -> spells packet 12 labels stop jumps ->
  (stop + 4 <= length packet)%nat -> (stop + 4 <= RESPONSE_SIZE)%nat -> q_type q = 1 \/ q_type q = 28 ->
  let wanted := dns_canonical (q_name q) 256 in
  exists answers,
    let response := response_packet packet (stop + 4) (q_type q) answers in
    dns_prepare_response rules packet q = set_response response true q
    /\ (length response <= RESPONSE_SIZE)%nat /\ NoDup answers
    /\ Forall (allowed_by rules wanted (q_type q)) answers
    /\ ((length response + 28 <= RESPONSE_SIZE)%nat ->
        Forall (fun r => forall a, rule_answer wanted (q_type q) r = Some a -> a ∈ answers) rules).
Proof.
  intros Hp Hc Hs Hstop Hsize Hq wanted.
  assert (Hskip : dns_skip_name packet 12 = Ok stop).
  { destruct (skip_loop_total packet (S (length packet)) Hp 12 ltac:(lia)) as [_ K]. by eapply K. }
  apply prepare_response_spec; try done. inversion Hs; lia.
Qed.

(** The tracee [pid] sent the packet to the server through the descriptor. *)
Definition sent_by {Mem} {TM : TraceeMemory Mem} (events : list (@DnsEvent Mem)) (pid fd : Z) (server packet : list Z) : Prop :=
  exists e, e ∈ events /\ asks e = Some (pid, fd, server, packet).

(** C40: whatever datagrams the tracees send and receive, the tables stay within
    their arrays and a response that waits for a tracee on a descriptor answers a
    datagram that this tracee sent to the port 53 through this descriptor: it has
    its identifier and its question, for A or AAAA records, and contains only
    addresses that were pinned, with no duplicate, for the name that
    dns_read_name() decodes in this question. *)
Theorem dns_answers_pinned {I : Inet} {IL : InetLaws I} {Mem} {TM : TraceeMemory Mem} rules (events : list (@DnsEvent Mem)) :
  let d := fold_left (dns_step rules) events (mkDns [] []) in
  (length (dns_queries d) <= 64)%nat /\ (length (dns_leases d) <= 128)%nat
  /\ forall q, q ∈ dns_queries d -> q_ready q = true ->
     (length (q_response q) <= 4096)%nat
     /\ exists packet stop answers,
          sent_by events (q_pid q) (q_fd q) (q_server q) packet /\ question_of packet q /\ dns_skip_name packet 12 = Ok stop
          /\ q_response q = response_packet packet (stop + 4) (q_type q) answers /\ NoDup answers
          /\ Forall (allowed_by rules (dns_canonical (q_name q) 256) (q_type q)) answers.
Proof.
  intros d. assert (Hd : dns_ok (sent_by events) rules d).
  { assert (H0 : dns_ok (sent_by events) rules (mkDns [] [])) by (split; [cbn; lia|split; [cbn; lia|constructor]]).
    assert (He : Forall (heard (sent_by events)) events).
    { apply Forall_forall. intros e Hin. unfold heard. destruct (asks e) as [[[[pid fd] server] packet]|] eqn:E; [|done]. by exists e. }
    unfold d. revert He H0. generalize (mkDns [] []). generalize (sent_by events). clear d. intros asked.
    induction events as [|e events IH]; intros d He Hd; [done|]. apply Forall_cons in He as [H1 H2]. by apply IH, dns_step_ok. }
  destruct Hd as (H1 & H2 & H3). split; [exact H1|]. split; [exact H2|]. intros q Hq. by apply (proj1 (Forall_forall _ _) H3 q Hq).
Qed.

(** ** Concrete inputs *)

#[local] Existing Instance demo_inet.

(** A question for the addresses of "Example.com", and a packet whose name points
    to itself. *)
Definition demo_question : list Z :=
  [0x12; 0x34; 1; 0; 0; 1; 0; 0; 0; 0; 0; 0] ++ 7 :: bs "Example" ++ 3 :: bs "com" ++ [0; 0; 1; 0; 1].
Definition demo_loop : list Z := replicate 12 0 ++ [0xc0; 12].
Definition demo_rules : list NetPolicyRule := snd (resolve_pending_domains [mkRule (bs "example.com") [] true false]).

Lemma demo_question_ok : packet_ok demo_question.
Proof. apply is_byte_forallb. by vm_compute. Qed.

Lemma demo_question_spells : spells demo_question 12 [bs "Example"; bs "com"] 25 0.
Proof.
  apply (spells_label demo_question 12 7 [bs "com"] 25 0); [vm_compute; lia|done|lia|vm_compute; lia|].
  apply (spells_label demo_question 20 3 [] 25 0); [vm_compute; lia|done|lia|vm_compute; lia|].
  apply (spells_end demo_question 24); [vm_compute; lia|done].
Qed.

Lemma dns_names_terminate_witness :
  dns_read_name demo_loop 12 = Err 1 /\ forall w, dns_read_name demo_loop 12 <> Stuck w.
Proof.
  split; [vm_compute; reflexivity|]. apply (dns_names_terminate demo_loop 12). apply is_byte_forallb. vm_compute. reflexivity.
Defined.

Lemma dns_read_name_decodes_witness : dns_read_name demo_question 12 = Ok (bs "example.com", 25%nat).
Proof.
  apply (dns_read_name_decodes demo_question 12 (bs "example.com") 25 demo_question_ok).
  exists [bs "Example"; bs "com"], 0%nat. split; [exact demo_question_spells|]. split; [lia|]. split; [vm_compute; lia|].
  split; vm_compute; reflexivity.
Defined.

Definition demo_query : NetDnsQuery := mkQuery 100 5 0x1234 1 (bs "example.com") [] no_address [] false.
Lemma dns_prepare_answers_witness :
  q_response (dns_prepare_response demo_rules demo_question demo_query)
  = [0x12; 0x34; 0x81; 0x80; 0; 1; 0; 1; 0; 0; 0; 0] ++ 7 :: bs "Example" ++ 3 :: bs "com" ++ [0; 0; 1; 0; 1]
    ++ [0xc0; 0x0c; 0; 1; 0; 1; 0; 0; 0; 60; 0; 4; 93; 184; 216; 34]
  /\ exists answers, dns_prepare_response demo_rules demo_question demo_query
       = set_response (response_packet demo_question 29 1 answers) true demo_query.
Proof.
  split; [vm_compute; reflexivity|].
  destruct (dns_prepare_answers demo_rules demo_question demo_query _ 25 0 demo_question_ok eq_refl demo_question_spells)
    as (answers & E & _); [vm_compute; lia|vm_compute; lia|by left|]. exists answers. exact E.
Defined.

(** A tracee that asks, then reads the answer. *)
Definition demo_dns_tracee : DnsTracee DemoMemory :=
  mkDnsTracee 0 100
    (poke_reg (poke_reg (poke_reg (poke_reg (demo_regs false) SYSARG_1 5) SYSARG_2 8192) SYSARG_3 (zlen demo_question)) SYSARG_5 4096)
    [(0%nat, 4096, demo_sockaddr 53); (0%nat, 8192, demo_question)].

Example dns_emulation_answers :
  let d := dns_step demo_rules (mkDns [] []) (EmulateSend demo_dns_tracee) in
  map q_ready (dns_queries d) = [true]
  /\ map q_ready (dns_queries (dns_step demo_rules d (EmulateRead demo_dns_tracee))) = [false].
Proof. split; vm_compute; reflexivity. Qed.

Lemma dns_answers_pinned_witness :
  let d := fold_left (dns_step demo_rules) [EmulateSend demo_dns_tracee; EmulateRead demo_dns_tracee; EmulateSend demo_dns_tracee] (mkDns [] []) in
  (length (dns_queries d) <= 64)%nat /\ map q_ready (dns_queries d) = [false; true].
Proof.
  intros d. split; [|vm_compute; reflexivity].
  exact (proj1 (dns_answers_pinned (IL := demo_inet_laws) demo_rules
    [EmulateSend demo_dns_tracee; EmulateRead demo_dns_tracee; EmulateSend demo_dns_tracee])).
Defined.

(** ** What the answers do not say *)

(** The count of additional records is the one of the question, although none is
    copied: the answer to a question with an OPT record is malformed. *)
Theorem additional_count_kept packet question_end qtype answers :
  (12 <= question_end <= length packet)%nat ->
  slice 10 2 (response_packet packet question_end qtype answers) = slice 10 2 packet.
Proof.
  intros H. unfold response_packet. rewrite slice_app_r by (rewrite length_slice; lia). rewrite length_slice by lia.
  rewrite slice_app_r by (cbn; lia). rewrite slice_app_r by (cbn; lia). cbn [length Nat.sub].
  rewrite slice_app_l by (rewrite length_slice; lia). unfold slice.
  rewrite skipn_firstn_comm, take_take, drop_drop. f_equal. lia.
Qed.
