(* ===== verification/NetPolicy.v ===== *)
(** * Callback of the network policy (src/extension/net_policy/net_policy.c)

    What net_policy_callback() does at the entry and at the exit of the system
    calls of a tracee: the static rules (NetRules.v), the controller (Control.v)
    and the emulation of DNS (Dns.v) put together. *)

From S2P Require Import Prelude Memory Paths Binding ProcLinks Canon Sysnum Regs Translate NetRules Control Dns.

Section Callback.

Context {I : Inet} {Mem : Type} {TM : TraceeMemory Mem}.

(** What the callback reads of the host: its pid, the virtual network and the
    name-space of the tracee, and the guest path of a descriptor, when
    readlink_proc_pid_fd() and detranslate_path() give one. *)
Record NetEnv := mkEnv { e_host_pid : Z; e_vnp : option VnpConfig; e_fs : FileSystemNameSpace; e_fd_path : Z -> option cstr }.

(** The state of the extension and of the tracee. *)
Record NetState := mkNetState { n_config : NetPolicyConfig; n_dns : DnsState; n_tracee : DnsTracee Mem; n_sysexit : bool }.

Definition set_config (c : NetPolicyConfig) (s : NetState) : NetState := mkNetState c (n_dns s) (n_tracee s) (n_sysexit s).
Definition set_dns (d : DnsState) (t : DnsTracee Mem) (s : NetState) : NetState := mkNetState (n_config s) d t (n_sysexit s).
Definition request_sysexit (s : NetState) : NetState := mkNetState (n_config s) (n_dns s) (n_tracee s) true.
Definition n_arg (s : NetState) (r : Reg) : Z := peek_reg (t_regs (n_tracee s)) CURRENT r.
Definition active (c : NetPolicyConfig) : bool := negb (bool_decide (mode (static c) = NET_POLICY_OFF)).

(** The system call is refused: [true] is the status 1 of the callback. *)
Definition refuse (e : Z) (s : NetState) : res (NetState * bool) :=
  let! t := emulated (wrap64 (- e)) (n_tracee s) in Ok (set_dns (n_dns s) t s, true).

(** A step of the callback ends it, or lets it go on. *)
Definition proceed (s : NetState) : res (NetState * bool) := Ok (s, false).
Definition and_then (m : res (NetState * bool)) (k : NetState -> res (NetState * bool)) : res (NetState * bool) :=
  let! (s, stop) := m in if stop then Ok (s, true) else k s.

(** control_fd_path_operation() *)
Definition control_fd_path_operation (env : NetEnv) (fd : Z) (o : NetControlPathOperation) (c : NetPolicyConfig)
  : NetPolicyConfig * res unit :=
  match e_fd_path env fd with
  | None => (c, Ok tt)
  | Some p =>
      match check_binding_access (e_fs env) p true with
      | Err e =>
          match Control.net_policy_path_access p None o
                  (if e =? EROFS then NET_CONTROL_REASON_STATIC_RO else NET_CONTROL_REASON_STATIC_POLICY) c with
          | (c, Ok _) => (c, Ok tt)
          | (c, Err _) => (c, Err e)
          | (c, Stuck w) => (c, Stuck w)
          end
      | r => (c, r)
      end
  end.

(** The controller decides on changes of metadata through a descriptor. *)
Definition fd_step (env : NetEnv) (syscall : Sysnum) (s : NetState) : res (NetState * bool) :=
  let c := n_config s in
  let fd := if sysnum_in syscall [PR_fchmod; PR_fchown; PR_fchown32] then sgn 32 (n_arg s SYSARG_1) else -1 in
  if connected c && (0 <=? fd) then
    match control_fd_path_operation env fd NET_CONTROL_PATH_METADATA c with
    | (c, Ok _) => proceed (set_config c s)
    | (c, Err _) => refuse EACCES (set_config c s)
    | (_, Stuck w) => Stuck w
    end
  else proceed s.

(** An access on behalf of the tracee. *)
Definition net_access (env : NetEnv) (s : NetState) event addr endpoint port protocol k : NetAccess :=
  mkNetAccess event (Some addr) endpoint port port protocol 0 k (t_pid (n_tracee s)) (e_host_pid env).

Definition ask_step (a : NetAccess) (s : NetState) : res (NetState * bool) :=
  match ask_harness a (n_config s) with
  | (c, Ok _) => proceed (set_config c s)
  | (c, Err e) => refuse e (set_config c s)
  | (_, Stuck w) => Stuck w
  end.

(** The controller decides on the domain of a socket. *)
Definition socket_step (env : NetEnv) (syscall : Sysnum) (s : NetState) : res (NetState * bool) :=
  if connected (n_config s) && sysnum_in syscall [PR_socket; PR_socketpair] then
    let domain := n_arg s SYSARG_1 in
    if (65535 <? domain) || negb (net_operation_family_valid CONTROL_NET_SOCKET domain) then refuse EAFNOSUPPORT s
    else ask_step (net_access env s CONTROL_NET_SOCKET (storage (to_le 2 domain)) None 0 (wrap 16 (n_arg s SYSARG_3))
                     VNP_NET_CLASS_UNKNOWN) s
  else proceed s.

(** The emulation of DNS, while the policy is active. *)
Definition dns_emulation (syscall : Sysnum) (s : NetState) : res (NetState * bool) :=
  let emulate e := let! (stop, t, d) := e in Ok (set_dns d t s, stop) in
  if negb (active (n_config s)) then proceed s
  else if syscall =? PR_sendto then emulate (dns_emulate_send (allow (static (n_config s))) (n_tracee s) (n_dns s))
  else if syscall =? PR_recvfrom then emulate (dns_emulate_receive (n_tracee s) (n_dns s))
  else if syscall =? PR_recvmsg then emulate (dns_emulate_recvmsg (n_tracee s) (n_dns s))
  else if syscall =? PR_ppoll then emulate (dns_emulate_ppoll (n_tracee s) (n_dns s))
  else if syscall =? PR_read then emulate (dns_emulate_read (n_tracee s) (n_dns s))
  else proceed s.

Definition observe_send (syscall : Sysnum) (s : NetState) : NetState :=
  if syscall =? PR_sendto
  then set_dns (dns_observe_send (allow (static (n_config s))) (n_tracee s) (n_dns s)) (n_tracee s) s else s.

Definition net_view (env : NetEnv) (s : NetState) : NetView Mem :=
  mkNetView (t_me (n_tracee s)) (t_pid (n_tracee s)) (t_regs (n_tracee s)) (t_mem (n_tracee s)) (connected (n_config s))
    (proxy (n_config s)) (e_vnp env).

(** The static rules decide on the system calls of the network. *)
Definition check_step (env : NetEnv) (syscall : Sysnum) (s : NetState) : res (NetState * bool) :=
  match check_operation (net_view env s) syscall (static (n_config s)) with
  | (Ok _, p) => proceed (set_config (set_static p (n_config s)) s)
  | (Err e, p) => refuse e (set_config (set_static p (n_config s)) s)
  | (Stuck w, _) => Stuck w
  end.

(** The name that vnp_classify_destination() leaves in [proxy]. *)
Definition vnp_name (v : option VnpConfig) : cstr := match v with None => [] | Some v => take 63 (proxy_name v) end.

(** The controller decides on an address. *)
Definition handoff_step (env : NetEnv) (syscall effective : Sysnum) (ptr length : Z) (s : NetState) : res (NetState * bool) :=
  let c := n_config s in
  if (syscall =? PR_listen) || negb (connected c) || (ptr =? 0) then proceed s
  else
    match read_sockaddr_limited (t_mem (n_tracee s)) (t_me (n_tracee s)) ptr length with
    | Ok (addr, endpoint) =>
        let is_unix := ss_family addr =? AF_UNIX in
        if negb (is_inet addr || is_unix) then proceed s
        else
          let port := if is_inet addr then sin_port addr else 0 in
          let k := vnp_classify_destination (e_vnp env) addr port in
          ask_step (net_access env s (if effective =? PR_bind then CONTROL_NET_BIND else CONTROL_NET_CONNECT) addr
                      (if is_unix then Some endpoint else None) port 0 k)
            (set_config (set_proxy (vnp_name (e_vnp env)) c) s)
    | Err _ => proceed s
    | Stuck w => Stuck w
    end.

(** The system calls of the network that are not emulated. *)
Definition network_step (env : NetEnv) (syscall : Sysnum) (s : NetState) : res (NetState * bool) :=
  let regs := t_regs (n_tracee s) in
  let is_datagram := (syscall =? PR_sendto) || (syscall =? PR_recvfrom) in
  if syscall =? PR_socketcall then
    match socketcall_address (t_mem (n_tracee s)) (t_me (n_tracee s)) regs with
    | Err e => refuse e s
    | Stuck w => Stuck w
    | Ok None => proceed s
    | Ok (Some (effective, ptr, length)) =>
        and_then (check_step env syscall s) (handoff_step env syscall effective ptr length)
    end
  else if sysnum_in syscall [PR_bind; PR_listen; PR_connect; PR_sendto; PR_recvfrom] then
    and_then (check_step env syscall s)
      (handoff_step env syscall syscall (n_arg s (if is_datagram then SYSARG_5 else SYSARG_2))
         (n_arg s (if is_datagram then SYSARG_6 else SYSARG_3)))
  else proceed s.

Definition network_sysnums : list Sysnum :=
  [PR_bind; PR_listen; PR_connect; PR_sendto; PR_recvfrom; PR_socketcall; PR_recvmsg; PR_ppoll; PR_read].

(** The commands of the controller that wait are applied first. *)
Definition drain_step (s : NetState) : res (NetState * bool) :=
  let s := set_config (set_peer None None (n_config s)) s in
  if negb (connected (n_config s)) then proceed s
  else match control_drain_commands (n_config s) with
       | (c, true) => proceed (set_config c s)
       | (c, false) => refuse EACCES (set_config c s)
       end.

(** net_policy_callback() for SYSCALL_ENTER_START *)
Definition callback_enter (env : NetEnv) (syscall : Sysnum) (s : NetState) : res (NetState * bool) :=
  and_then (drain_step s) (fun s =>
  let s := if negb (length (shadows (n_config s)) =? 0)%nat && sysnum_in syscall [PR_getdents; PR_getdents64]
           then request_sysexit s else s in
  if negb (active (n_config s)) && negb (connected (n_config s)) then proceed s
  else
    and_then (fd_step env syscall s) (fun s =>
    and_then (socket_step env syscall s) (fun s =>
    if sysnum_in syscall network_sysnums then
      and_then (dns_emulation syscall s) (fun s => network_step env syscall (observe_send syscall s))
    else proceed s))).

(** net_policy_callback() for SYSCALL_EXIT_START *)
Definition callback_exit_start (now : Z) (syscall : Sysnum) (s : NetState) : NetState :=
  if active (n_config s) && (syscall =? PR_recvfrom)
  then set_dns (dns_observe_receive (n_tracee s) now (n_dns s)) (n_tracee s) s else s.

(** net_policy_callback() for SYSCALL_EXIT_END and SYSCALL_CHAINED_EXIT: the
    result of getdents() and getdents64() is filtered; a write that fails is
    ignored. *)
Definition callback_exit_end (translate : NetPolicyConfig -> cstr -> NetPolicyConfig * option cstr) (env : NetEnv)
    (syscall : Sysnum) (s : NetState) : res NetState :=
  if negb (sysnum_in syscall [PR_getdents; PR_getdents64]) then Ok s
  else
    let t := n_tracee s in
    let result := n_arg s SYSARG_RESULT in
    let buffer := n_arg s SYSARG_2 in
    let set_result n m c :=
      mkNetState c (n_dns s) (mkDnsTracee (t_me t) (t_pid t) (poke_reg (t_regs t) SYSARG_RESULT n) m) (n_sysexit s) in
    let data := match read_data (t_mem t) (t_me t) buffer result with inl data => Some data | inr _ => None end in
    match control_filter_getdents translate (syscall =? PR_getdents64) result
            (e_fd_path env (sgn 32 (peek_reg (t_regs t) ORIGINAL SYSARG_1))) data (n_config s) with
    | (c, Ok None) => Ok (set_config c s)
    | (c, Ok (Some kept)) =>
        let m := match kept with [] => t_mem t | _ => fst (write_data (t_mem t) (t_me t) buffer kept) end in
        Ok (set_result (zlen kept) m c)
    | (c, Err _) => Ok (set_result 0 (t_mem t) c)
    | (_, Stuck w) => Stuck w
    end.

End Callback.
Arguments NetState : clear implicits.

(** ** Properties *)

Section Authorised.

Context {I : Inet} {IL : InetLaws I} {Mem : Type} {TM : TraceeMemory Mem}.

Lemma and_then_passes (m : res (NetState Mem * bool)) k s' :
  and_then m k = Ok (s', false) -> exists s, m = Ok (s, false) /\ k s = Ok (s', false).
Proof. destruct m as [[s []]|?|?]; cbn; [done| |done..]. intros H. by exists s. Qed.

Lemma refuse_stops e (s s' : NetState Mem) : refuse e s <> Ok (s', false).
Proof. unfold refuse. destruct (emulated _ _); cbn; congruence. Qed.

Lemma drain_passes (s s' : NetState Mem) : drain_step s = Ok (s', false) ->
  exists c, s' = set_config c s /\ extends (set_peer None None (n_config s)) c
    /\ (connected (n_config s) = true -> control_drain_commands (set_peer None None (n_config s)) = (c, true)).
Proof.
  unfold drain_step. cbv zeta. cbn [n_config set_config]. case_bool; [intros [= <-]|].
  - exists (set_peer None None (n_config s)). split_and!; [done|done|]. intros Hc. bool_facts.
    unfold connected in *. cbn in *. congruence.
  - destruct (control_drain_commands _) as [c []] eqn:E; [|by intros ?%refuse_stops]. intros [= <-].
    exists c. split_and!; [done|by eapply drain_extends|done].
Qed.

Lemma ask_passes a (s s' : NetState Mem) : ask_step a s = Ok (s', false) ->
  exists c, s' = set_config c s /\ ask_harness a (n_config s) = (c, Ok tt).
Proof.
  unfold ask_step. destruct (ask_harness a (n_config s)) as [c [[]|e|w]]; [intros [= <-]; by exists c|by intros ?%refuse_stops|done].
Qed.

Lemma set_static_id c : set_static (static c) c = c.
Proof. by destruct c. Qed.

Lemma proceed_then (s : NetState Mem) k : and_then (proceed s) k = k s.
Proof. done. Qed.

(** A connect() meets the commands, the static rules and the controller. *)
Lemma connect_enter env (s s' : NetState Mem) : mode (static (n_config s)) <> NET_POLICY_OFF ->
  callback_enter env PR_connect s = Ok (s', false) ->
  exists c, extends (set_peer None None (n_config s)) c
    /\ (connected (n_config s) = true -> control_drain_commands (set_peer None None (n_config s)) = (c, true))
    /\ network_step env PR_connect (set_config c s) = Ok (s', false).
Proof.
  intros Hm H. unfold callback_enter in H. apply and_then_passes in H as (s1 & H1 & H).
  apply drain_passes in H1 as (c & -> & X & Hc). exists c. split_and!; [done|done|].
  cbv beta zeta in H. rewrite andb_false_r in H. cbn [n_config set_config] in H.
  assert (Ha : active c = true) by (unfold active; rewrite (ext_static _ _ X); by rewrite bool_decide_false).
  rewrite Ha in H. cbn [negb andb] in H.
  assert (Hf : fd_step env PR_connect (set_config c s) = proceed (set_config c s)).
  { unfold fd_step. cbn. by rewrite andb_false_r. }
  assert (Hs : socket_step env PR_connect (set_config c s) = proceed (set_config c s)).
  { unfold socket_step. cbn [n_config set_config]. by rewrite andb_false_r. }
  assert (Hd : dns_emulation PR_connect (set_config c s) = proceed (set_config c s)).
  { unfold dns_emulation. cbn [n_config set_config]. by rewrite Ha. }
  rewrite Hf, proceed_then, Hs, proceed_then in H. change (sysnum_in PR_connect network_sysnums) with true in H. cbv iota in H.
  by rewrite Hd, proceed_then in H.
Qed.

(** C36: while the mode of the policy is not off and its rules, domains apart, are
    canonical texts of destinations, a connect() to an IPv4 or IPv6 address that
    can be read, of a port that is not 53 (this one belongs to the emulation of
    DNS), is executed as the tracee asked for it only if the static rules permit
    the destination and, when a controller is connected, a drain of its channel
    succeeded and the controller granted this very access afterwards.  The drain
    applies one command at most: none when poll() tells of no frame or is
    interrupted, else exactly one, whose effect is in force for this access and
    whose result is sent; commands behind it keep waiting. *)
Theorem connect_authorised env (s s' : NetState Mem) addr endpoint allowed denied :
  let p := static (n_config s) in
  let ptr := n_arg s SYSARG_2 in
  let k := vnp_classify_destination (e_vnp env) addr (sin_port addr) in
  mode p <> NET_POLICY_OFF -> rules_mean (allow p) allowed -> rules_mean (deny p) denied ->
  ptr <> 0 -> read_sockaddr_limited (t_mem (n_tracee s)) (t_me (n_tracee s)) ptr (n_arg s SYSARG_3) = Ok (addr, endpoint) ->
  sockaddr_ok addr -> sin_port addr <> 53 ->
  callback_enter env PR_connect s = Ok (s', false) ->
  permitted (mode p) allowed denied addr k = true
  /\ n_tracee s' = n_tracee s
  /\ (connected (n_config s) = true ->
      exists c, drained (set_peer None None (n_config s)) c
        /\ granted (net_access env s CONTROL_NET_CONNECT addr None (sin_port addr) 0 k) (set_proxy (vnp_name (e_vnp env)) c)
             (n_config s')).
Proof.
  intros p ptr k Hm Ha Hd Hptr Hread Haddr Hport H. apply (connect_enter _ _ _ Hm) in H as (c & X & Hc & H).
  change (static (set_peer None None (n_config s))) with p in X. pose proof (ext_static _ _ X) as Hp. cbn in Hp. fold p in Hp.
  change (and_then (check_step env PR_connect (set_config c s))
            (handoff_step env PR_connect PR_connect ptr (n_arg s SYSARG_3)) = Ok (s', false)) in H.
  apply and_then_passes in H as (s1 & H1 & H).
  unfold check_step in H1. cbn [n_config set_config] in H1.
  rewrite (check_operation_address (net_view env (set_config c s)) PR_connect (static c) allowed denied addr endpoint) in H1;
    [|by left|by rewrite Hp..|exact Hptr|exact Hread|done|done].
  rewrite Hp in H1. change (v_vnp (net_view env (set_config c s))) with (e_vnp env) in H1. fold k in H1.
  destruct (permitted _ _ _ _ _); [|by apply refuse_stops in H1]. rewrite <- Hp, set_static_id in H1. injection H1 as <-. change (set_config c (set_config c s)) with (set_config c s) in H.
  split; [done|].
  assert (Hu : (ss_family addr =? AF_UNIX) = false).
  { destruct Haddr as (_ & _ & Hi). unfold is_inet in Hi. apply Z.eqb_neq. intros E. by rewrite E in Hi. }
  destruct Haddr as (_ & _ & Hi). pose proof (extends_connected _ _ X) as Hcn. change (connected (set_peer _ _ _)) with (connected (n_config s)) in Hcn.
  unfold handoff_step in H. cbn [n_config set_config] in H. change (PR_connect =? PR_listen) with false in H.
  rewrite Hcn in H. cbn [orb] in H.
  destruct (connected (n_config s)) eqn:Ec; cbn [negb] in H; [|injection H as <-; by split].
  rewrite (proj2 (Z.eqb_neq _ _) Hptr) in H. cbn [negb] in H. change (n_tracee (set_config c s)) with (n_tracee s) in H.
  rewrite Hread, Hu, Hi in H. cbn [orb negb] in H.
  apply ask_passes in H as (c1 & -> & H). apply ask_harness_granted in H; [|done].
  split; [done|]. intros _. exists c. split; [by apply drain_drained, Hc|exact H].
Qed.

End Authorised.

(** ** The theorems apply *)

(** A tracee that connects to an allowed destination, and a controller that
    allows it too. *)
Definition demo_state : NetState DemoMemory :=
  let c := demo_connected ([mkAnswer 0 0 0 []] ++ demo_sends 20 ++ demo_sends 230
                           ++ demo_frame CONTROL_ALLOW_ONCE 1 (demo_decision NET_DECISION_ALLOW)) in
  mkNetState (set_static demo_policy c) (mkDns [] [])
    (mkDnsTracee 0 100 (poke_reg (demo_regs false) SYSARG_2 4096) [(0%nat, 4096, demo_sockaddr 443)]) false.
Definition demo_env : NetEnv := mkEnv 1 None demo_fs (fun _ => None).

Lemma connect_authorised_witness :
  match callback_enter (I := demo_inet) demo_env PR_connect demo_state with
  | Ok (s', false) => n_tracee s' = n_tracee demo_state /\ length (received (channel (n_config s'))) = 118%nat
  | _ => False
  end.
Proof.
  destruct (callback_enter (I := demo_inet) demo_env PR_connect demo_state) as [[s' []]|e|w] eqn:E;
    [vm_compute in E; discriminate E| |vm_compute in E; discriminate E..].
  split; [|vm_compute in E; injection E as <-; reflexivity].
  refine (proj1 (proj2 (connect_authorised (I := demo_inet) demo_env demo_state s' (demo_sockaddr 443) unnamed [demo_destination] []
    _ _ _ _ _ _ _ E))); [done| | |vm_compute; congruence|vm_compute; reflexivity|apply demo_sockaddr_ok; lia|done].
  - split; [vm_compute; reflexivity|constructor; [exact demo_dest_ok|constructor]].
  - split; [reflexivity|constructor].
Defined.
