(* ===== verification/Tracees.v ===== *)
(** * The table of tracees (src/tracee/tracee.c)

    Every tracee is in the list of tracees and, for lookups by pid, in a hash
    table of 256 buckets whose chains go through the tracees themselves.  The
    memory is modelled: a [Tracee *] is a key of [store], and an access through
    a pointer that was freed is [Stuck OutOfBounds]. *)

From stdpp Require Import gmap.
From S2P Require Import Prelude.

Open Scope Z_scope.

(** ** Data *)

Definition TRACEE_HASH_SIZE : Z := 256.
Definition TRACEE_HASH_MASK : Z := TRACEE_HASH_SIZE - 1.

(** The fields of a Tracee that this part of the code uses; [None] is NULL, and
    [n_ctx] counts the memory collectors allocated for the tracee. *)
Record Node := mkNode {
  n_pid : Z;
  n_vpid : Z;
  n_parent : option nat;
  n_terminated : bool;
  n_killall_on_exit : bool;
  n_hash_next : option nat;
  n_ctx : nat
}.

(** [tracees] is the list, [tracee_hash] the buckets that are not NULL; a
    pointer is never given twice, its key is the number of tracees before. *)
Record Tracees := mkTracees {
  store : gmap nat Node;
  tracees : list nat;
  tracee_hash : gmap Z nat;
  next_vpid : nat
}.

Definition no_tracees : Tracees := mkTracees ∅ [] ∅ 0.

Definition set_store (m : gmap nat Node) (s : Tracees) : Tracees := mkTracees m (tracees s) (tracee_hash s) (next_vpid s).
Definition set_bucket (h : Z) (p : option nat) (s : Tracees) : Tracees :=
  mkTracees (store s) (tracees s) (match p with Some x => <[h := x]> (tracee_hash s) | None => delete h (tracee_hash s) end)
    (next_vpid s).

Definition with_pid (pid : Z) (n : Node) : Node :=
  mkNode pid (n_vpid n) (n_parent n) (n_terminated n) (n_killall_on_exit n) (n_hash_next n) (n_ctx n).
Definition with_parent (p : option nat) (n : Node) : Node :=
  mkNode (n_pid n) (n_vpid n) p (n_terminated n) (n_killall_on_exit n) (n_hash_next n) (n_ctx n).
Definition with_terminated (n : Node) : Node :=
  mkNode (n_pid n) (n_vpid n) (n_parent n) true (n_killall_on_exit n) (n_hash_next n) (n_ctx n).
Definition with_next (p : option nat) (n : Node) : Node :=
  mkNode (n_pid n) (n_vpid n) (n_parent n) (n_terminated n) (n_killall_on_exit n) p (n_ctx n).
Definition with_ctx (n : Node) : Node :=
  mkNode (n_pid n) (n_vpid n) (n_parent n) (n_terminated n) (n_killall_on_exit n) (n_hash_next n) (S (n_ctx n)).

(** ** Operations *)

(** The tracee behind a pointer. *)
Definition deref (s : Tracees) (x : nat) : res Node :=
  match store s !! x with Some n => Ok n | None => Stuck OutOfBounds end.
Definition update (f : Node -> Node) (x : nat) (s : Tracees) : res Tracees :=
  let! n := deref s x in Ok (set_store (<[x := f n]> (store s)) s).

Definition tracee_hash_fn (pid : Z) : Z := Z.land (wrap32 pid) TRACEE_HASH_MASK.

Definition tracee_hash_insert (x : nat) (s : Tracees) : res Tracees :=
  let! n := deref s x in
  let h := tracee_hash_fn (n_pid n) in
  let! s := update (with_next (tracee_hash s !! h)) x s in
  Ok (set_bucket h (Some x) s).

(** The walk along a chain; a chain is not longer than the number of tracees. *)
Fixpoint find_from (fuel : nat) (s : Tracees) (p : option nat) (pid : Z) : res (option nat) :=
  match fuel, p with
  | O, _ => Stuck NoFuel
  | _, None => Ok None
  | S fuel, Some x =>
      let! n := deref s x in
      if n_pid n =? pid then Ok (Some x) else find_from fuel s (n_hash_next n) pid
  end.
Definition chain_fuel (s : Tracees) : nat := S (size (store s)).

Definition tracee_lookup_readonly (pid : Z) (s : Tracees) : res (option nat) :=
  find_from (chain_fuel s) s (tracee_hash s !! tracee_hash_fn pid) pid.

Definition tracee_is_tracked (pid : Z) (s : Tracees) : res bool :=
  let! r := tracee_lookup_readonly pid s in Ok (bool_decide (r <> None)).

(** The pointer [*pp] of the walk over the bucket [h]: [prev] is the tracee whose
    [hash_next] it is, [None] for the head of the bucket. *)
Definition set_link (h : Z) (prev : option nat) (p : option nat) (s : Tracees) : res Tracees :=
  match prev with None => Ok (set_bucket h p s) | Some y => update (with_next p) y s end.

Fixpoint unlink_from (fuel : nat) (h : Z) (prev p : option nat) (x : nat) (s : Tracees) : res Tracees :=
  match fuel, p with
  | O, _ => Stuck NoFuel
  | _, None => Ok s
  | S fuel, Some y =>
      let! n := deref s y in
      if (y =? x)%nat then let! s := set_link h prev (n_hash_next n) s in update (with_next None) x s
      else unlink_from fuel h (Some y) (n_hash_next n) x s
  end.

Definition tracee_hash_update (x : nat) (old_pid : Z) (s : Tracees) : res Tracees :=
  let h := tracee_hash_fn old_pid in
  let! s := unlink_from (chain_fuel s) h None (tracee_hash s !! h) x s in
  tracee_hash_insert x s.

Definition tracee_hash_remove (x : nat) (s : Tracees) : res Tracees :=
  let! n := deref s x in
  let h := tracee_hash_fn (n_pid n) in
  unlink_from (chain_fuel s) h None (tracee_hash s !! h) x s.

(** [alloc]: whether the allocation succeeds. *)
Definition new_tracee (alloc : bool) (pid : Z) (s : Tracees) : res (Tracees * option nat) :=
  if negb alloc then Ok (s, None)
  else
    let x := next_vpid s in
    let n := mkNode pid (Z.of_nat (S x)) None false false None 1 in
    let! s := tracee_hash_insert x (mkTracees (<[x := n]> (store s)) (x :: tracees s) (tracee_hash s) (S x)) in
    Ok (s, Some x).

(** The fallback of get_tracee(). *)
Fixpoint find_in_list (s : Tracees) (l : list nat) (pid : Z) : res (option nat) :=
  match l with
  | [] => Ok None
  | x :: l => let! n := deref s x in if n_pid n =? pid then Ok (Some x) else find_in_list s l pid
  end.

Definition get_tracee (alloc : bool) (current : option nat) (pid : Z) (create : bool) (s : Tracees)
  : res (Tracees * option nat) :=
  let search :=
    let! r := tracee_lookup_readonly pid s in
    let! r := match r with Some x => Ok (Some x) | None => find_in_list s (tracees s) pid end in
    match r with
    | Some x => let! s := update with_ctx x s in Ok (s, Some x)
    | None => if create then new_tracee alloc pid s else Ok (s, None)
    end in
  match current with
  | None => search
  | Some c => let! n := deref s c in if n_pid n =? pid then Ok (s, Some c) else search
  end.

(** kill_all_tracees(): the pids that are sent SIGKILL. *)
Fixpoint pids_of (s : Tracees) (l : list nat) : res (list Z) :=
  match l with [] => Ok [] | x :: l => let! n := deref s x in let! r := pids_of s l in Ok (n_pid n :: r) end.
Definition kill_all_tracees (s : Tracees) : res (list Z) := pids_of s (tracees s).

Definition terminate_tracee (x : nat) (s : Tracees) : res (Tracees * list Z) :=
  let! s := update with_terminated x s in
  let! n := deref s x in
  if n_killall_on_exit n then let! killed := kill_all_tracees s in Ok (s, killed) else Ok (s, []).

(** remove_tracee() of a tracee that neither traces nor is traced, then its
    memory is freed. *)
Fixpoint orphan (x : nat) (l : list nat) (s : Tracees) : res Tracees :=
  match l with
  | [] => Ok s
  | y :: l =>
      let! n := deref s y in
      let! s := if bool_decide (n_parent n = Some x) then update (with_parent None) y s else Ok s in
      orphan x l s
  end.
Definition remove_tracee (x : nat) (s : Tracees) : res Tracees :=
  let l := base.filter (fun y => y <> x) (tracees s) in
  let! s := orphan x l (mkTracees (store s) l (tracee_hash s) (next_vpid s)) in
  Ok (set_store (delete x (store s)) s).

Fixpoint free_terminated (l : list nat) (s : Tracees) : res Tracees :=
  match l with
  | [] => Ok s
  | x :: l =>
      let! n := deref s x in
      let! s := if n_terminated n then let! s := tracee_hash_remove x s in remove_tracee x s else Ok s in
      free_terminated l s
  end.
Definition free_terminated_tracees (s : Tracees) : res Tracees := free_terminated (tracees s) s.

(** main(): the pid of a tracee changes. *)
Definition set_pid (x : nat) (pid : Z) (s : Tracees) : res Tracees :=
  let! n := deref s x in
  let! s := update (with_pid pid) x s in
  tracee_hash_update x (n_pid n) s.

(** main(): the first tracee is created before it has a pid. *)
Definition pre_create (getpid : Z) (s : Tracees) : res (Tracees * option nat) :=
  let! (s, r) := get_tracee true None 0 true s in
  match r with
  | None => Ok (s, None)
  | Some x => let! s := set_pid x getpid s in Ok (s, Some x)
  end.

(** launch_process(): the pid that fork(2) gave. *)
Definition launch_process (x : nat) (pid : Z) (s : Tracees) : res Tracees := update (with_pid pid) x s.

(** ** The chains of the hash table *)

(** The tracees of [l] are linked from [p] to NULL. *)
Fixpoint chain (m : gmap nat Node) (p : option nat) (l : list nat) : Prop :=
  match l with
  | [] => p = None
  | x :: l => p = Some x /\ exists n, m !! x = Some n /\ chain m (n_hash_next n) l
  end.

Lemma chain_in m l : forall p x, chain m p l -> x ∈ l -> is_Some (m !! x).
Proof.
  induction l as [|y l IH]; intros p x H Hx; [by apply not_elem_of_nil in Hx|]. destruct H as (_ & n & Hn & H).
  apply elem_of_cons in Hx as [->|Hx]; [by exists n|by eapply IH].
Qed.

(** A tracee out of the chain may change. *)
Lemma chain_frame m l z n : forall p, z ∉ l -> chain m p l -> chain (<[z := n]> m) p l.
Proof.
  induction l as [|y l IH]; intros p Hz H; [done|]. destruct H as (-> & k & Hk & H). apply not_elem_of_cons in Hz as [Hy Hz].
  split; [done|]. exists k. rewrite lookup_insert_ne by congruence. split; [done|by apply IH].
Qed.

(** The element after [y] is skipped. *)
Lemma chain_splice m a y ny x nx b : forall p, NoDup (a ++ y :: b) -> m !! y = Some ny -> m !! x = Some nx ->
  chain m p (a ++ y :: x :: b) -> chain (<[y := with_next (n_hash_next nx) ny]> m) p (a ++ y :: b).
Proof.
  induction a as [|z a IH]; intros p Hnd Hy Hx H.
  - destruct H as (-> & k & _ & _ & k' & Hk' & H). simplify_eq. cbn [app] in *. apply NoDup_cons in Hnd as [Hyb _].
    split; [done|]. eexists. rewrite lookup_insert_eq. split; [done|]. by apply chain_frame.
  - destruct H as (-> & k & Hk & H). cbn [app] in Hnd. apply NoDup_cons in Hnd as [Hz Hnd].
    split; [done|]. exists k. rewrite lookup_insert_ne by set_solver. split; [done|by apply IH].
Qed.

Lemma chain_length m p l : chain m p l -> NoDup l -> (length l <= size m)%nat.
Proof.
  intros H Hnd. rewrite <- size_dom, <- (size_list_to_set (C := gset nat) l) by done.
  apply subseteq_size. intros x. rewrite elem_of_list_to_set, elem_of_dom. by eapply chain_in.
Qed.

(** [k] gives the bucket whose chain a tracee is in. *)
Definition hashed (k : nat -> option Z) (s : Tracees) : Prop :=
  forall h, exists l, chain (store s) (tracee_hash s !! h) l /\ NoDup l /\ forall x, x ∈ l <-> k x = Some h.

Lemma hashed_ext k k' s : (forall x, k x = k' x) -> hashed k s -> hashed k' s.
Proof. intros E H h. destruct (H h) as (l & H1 & H2 & H3). exists l. split_and!; [done..|]. intros x. by rewrite H3, E. Qed.

(** What the hash table does not own: a tracee but its link, the list. *)
Definition core (n : Node) : Node := with_next None n.
Record same (s s' : Tracees) : Prop := mkSame {
  same_tracees : tracees s' = tracees s;
  same_vpid : next_vpid s' = next_vpid s;
  same_core : forall x, core <$> store s' !! x = core <$> store s !! x
}.

#[export] Instance same_preorder : PreOrder same.
Proof. split; [by split|]. intros x y z [H1 H2 H3] [K1 K2 K3]. split; [congruence..|]. intros w. by rewrite K3. Qed.

Lemma same_next x n p s : store s !! x = Some n -> same s (set_store (<[x := with_next p n]> (store s)) s).
Proof.
  intros H. split; [done..|]. intros y. cbn [store set_store]. destruct (decide (y = x)) as [->|Hy].
  - by rewrite lookup_insert_eq, H.
  - by rewrite lookup_insert_ne.
Qed.

Lemma same_bucket h p s s' : same s s' -> same s (set_bucket h p s').
Proof. by intros [H1 H2 H3]. Qed.

Lemma bucket_eq h p s : tracee_hash (set_bucket h p s) !! h = p.
Proof. destruct p; cbn; [apply lookup_insert_eq|apply lookup_delete_eq]. Qed.
Lemma bucket_ne h h' p s : h' <> h -> tracee_hash (set_bucket h p s) !! h' = tracee_hash s !! h'.
Proof. intros H. destruct p; cbn; [by rewrite lookup_insert_ne|by rewrite lookup_delete_ne]. Qed.

Lemma insert_spec x n k s : hashed k s -> k x = None -> store s !! x = Some n ->
  exists s', tracee_hash_insert x s = Ok s' /\ same s s'
    /\ hashed (fun y => if decide (y = x) then Some (tracee_hash_fn (n_pid n)) else k y) s'.
Proof.
  intros H Hk Hn. set (h := tracee_hash_fn (n_pid n)). unfold tracee_hash_insert, update, deref. rewrite Hn. cbn [res_bind]. fold h.
  eexists. split; [done|]. split; [apply same_bucket; by apply same_next|]. intros h'.
  destruct (H h') as (l & H1 & H2 & H3). assert (Hx : x ∉ l) by (rewrite H3, Hk; done). destruct (decide (h' = h)) as [->|Hne].
  - exists (x :: l). rewrite bucket_eq. cbn [store set_store set_bucket]. split_and!.
    + split; [done|]. eexists. rewrite lookup_insert_eq. split; [done|]. cbn [n_hash_next with_next]. by apply chain_frame.
    + by constructor.
    + intros y. rewrite elem_of_cons, H3. destruct (decide (y = x)) as [->|Hy]; [naive_solver|]. naive_solver.
  - exists l. rewrite bucket_ne by done. cbn [store set_store set_bucket tracee_hash]. split_and!; [by apply chain_frame|done|].
    intros y. rewrite H3. destruct (decide (y = x)) as [->|Hy]; [|done]. rewrite Hk. split; [done|]. intros [= E]. by subst.
Qed.

Lemma unlink_walk x h s nx b a : forall fuel prev p, chain (store s) p (a ++ x :: b) -> x ∉ a -> (length a < fuel)%nat ->
  store s !! x = Some nx ->
  unlink_from fuel h prev p x s
  = let! s := set_link h (match last a with Some y => Some y | None => prev end) (n_hash_next nx) s in update (with_next None) x s.
Proof.
  induction a as [|y a IH]; intros fuel prev p H Hx Hf Hn; (destruct fuel as [|fuel]; [cbn in Hf; lia|]).
  - destruct H as (-> & n & Hn' & H). cbn [unlink_from]. unfold deref. rewrite Hn'. cbn [res_bind]. rewrite Nat.eqb_refl. by simplify_eq.
  - destruct H as (-> & n & Hn' & H). cbn [unlink_from]. unfold deref. rewrite Hn'. cbn [res_bind].
    apply not_elem_of_cons in Hx as [Hxy Hx]. rewrite (proj2 (Nat.eqb_neq y x)) by congruence.
    rewrite (IH fuel (Some y) _ H Hx) by (done || cbn in Hf; lia). f_equal. rewrite last_cons. by destruct (last a).
Qed.

Lemma unlink_absent x h s l : forall fuel prev p, chain (store s) p l -> x ∉ l -> (length l < fuel)%nat -> unlink_from fuel h prev p x s = Ok s.
Proof.
  induction l as [|y l IH]; intros fuel prev p H Hx Hf; (destruct fuel as [|fuel]; [cbn in Hf; lia|]).
  - by rewrite H.
  - destruct H as (-> & n & Hn' & H). cbn [unlink_from]. unfold deref. rewrite Hn'. cbn [res_bind].
    apply not_elem_of_cons in Hx as [Hxy Hx]. rewrite (proj2 (Nat.eqb_neq y x)) by congruence.
    apply IH; [done|done|cbn in Hf; lia].
Qed.

(** The tracee leaves the chain of its bucket. *)
Lemma unlink_spec x n h k s : hashed k s -> k x = Some h -> store s !! x = Some n ->
  exists s', unlink_from (chain_fuel s) h None (tracee_hash s !! h) x s = Ok s' /\ same s s'
    /\ hashed (fun y => if decide (y = x) then None else k y) s'.
Proof.
  intros H Hk Hn. destruct (H h) as (l & H1 & H2 & H3). assert (Hx : x ∈ l) by by apply H3.
  apply list_elem_of_split in Hx as (a & b & ->). pose proof (chain_length _ _ _ H1 H2) as Hlen. rewrite length_app in Hlen.
  apply NoDup_app in H2 as (Ha & Hab & Hb). apply NoDup_cons in Hb as [Hxb Hb].
  assert (Hxa : x ∉ a) by (intros Hxa; apply (Hab x Hxa); left).
  rewrite (unlink_walk x h s n b a _ _ _ H1 Hxa) by (done || (unfold chain_fuel; cbn [length] in Hlen; lia)).
  assert (Hnd : NoDup (a ++ b)) by (apply NoDup_app; split_and!; [done| |done]; intros y Hy Hyb; apply (Hab y Hy); by right).
  assert (Hmem : forall y, y ∈ a ++ b <-> (if decide (y = x) then None else k y) = Some h).
  { intros y. destruct (decide (y = x)) as [->|Hy]; [split; [|done]; intros [?|?]%elem_of_app; done|].
    rewrite <- H3, !elem_of_app, elem_of_cons. naive_solver. }
  assert (Hoth : forall h' s', h' <> h -> tracee_hash s' !! h' = tracee_hash s !! h' ->
    (forall l, (forall y, y ∈ l -> k y = Some h') -> chain (store s) (tracee_hash s !! h') l -> chain (store s') (tracee_hash s !! h') l) ->
    exists l, chain (store s') (tracee_hash s' !! h') l /\ NoDup l
      /\ forall y, y ∈ l <-> (if decide (y = x) then None else k y) = Some h').
  { intros h' s' Hh Eh Hc. destruct (H h') as (l & K1 & K2 & K3). exists l. rewrite Eh. split_and!; [apply Hc; [by intros y; apply K3|done]|done|].
    intros y. rewrite K3. destruct (decide (y = x)) as [->|Hy]; [|done]. rewrite Hk. split; congruence. }
  assert (Hbx : exists p, chain (store s) (n_hash_next n) b /\ p = n_hash_next n).
  { exists (n_hash_next n). split; [|done]. clear -H1 Hn. revert H1. generalize (tracee_hash s !! h).
    induction a as [|z a IH]; intros p H; destruct H as (_ & n' & Hn' & H); [by simplify_eq|by eapply IH]. }
  destruct Hbx as (_ & Hbx & _).
  destruct a as [|y a' _] using rev_ind.
  - cbn [last set_link res_bind]. unfold update, deref. cbn [store set_bucket]. rewrite Hn. cbn [res_bind].
    eexists. split; [done|].
    split; [etrans; [apply (same_bucket h (n_hash_next n)); reflexivity|exact (same_next x n None (set_bucket h (n_hash_next n) s) Hn)]|].
    intros h'. destruct (decide (h' = h)) as [->|Hne].
    + exists b. cbn [store set_store tracee_hash]. rewrite bucket_eq. split_and!; [by apply chain_frame|done|exact Hmem].
    + apply Hoth; [done|by apply bucket_ne|]. intros l Hl Hc. cbn [store set_store]. apply chain_frame; [|done].
      intros Hx%Hl. congruence.
  - rewrite last_snoc. cbn [set_link]. assert (Hyx : y <> x) by set_solver.
    destruct (chain_in _ _ _ y H1) as [ny Hy]; [set_solver|]. unfold update, deref. rewrite Hy. cbn [res_bind store set_store].
    rewrite lookup_insert_ne by done. rewrite Hn. cbn [res_bind].
    eexists. split; [done|]. split.
    { etrans; [by apply (same_next y ny (n_hash_next n))|]. apply (same_next x n None). cbn [store set_store]. by rewrite lookup_insert_ne. }
    intros h'. destruct (decide (h' = h)) as [->|Hne].
    + exists ((a' ++ [y]) ++ b). cbn [store set_store tracee_hash]. split_and!; [|done|exact Hmem].
      apply chain_frame; [set_solver|]. rewrite <- app_assoc in H1, Hnd |- *. cbn [app] in *. by eapply chain_splice.
    + assert (Hky : k y = Some h) by (apply H3; set_solver).
      apply Hoth; [done|done|]. intros l Hl Hc. cbn [store set_store].
      do 2 (apply chain_frame; [intros Hz%Hl; congruence|]). done.
Qed.

(** ** The invariant *)

Definition key (s : Tracees) (x : nat) : option Z := (fun n => tracee_hash_fn (n_pid n)) <$> store s !! x.

Record tracees_wf (s : Tracees) : Prop := mkWf {
  ok_list : NoDup (tracees s);
  ok_live : forall x, x ∈ tracees s <-> is_Some (store s !! x);
  ok_fresh : forall x, x ∈ tracees s -> (x < next_vpid s)%nat;
  ok_pids : forall x y n n', store s !! x = Some n -> store s !! y = Some n' -> n_pid n = n_pid n' -> x = y
}.

Record tracees_ok (s : Tracees) : Prop := mkOk { ok_wf :> tracees_wf s; ok_hash : hashed (key s) s }.

Definition has_pid (s : Tracees) (pid : Z) (x : nat) : bool :=
  match store s !! x with Some n => n_pid n =? pid | None => false end.
Definition tracee_of (s : Tracees) (pid : Z) : option nat := List.find (has_pid s pid) (tracees s).

Lemma find_chain s pid l : forall fuel p, chain (store s) p l -> (length l < fuel)%nat ->
  find_from fuel s p pid = Ok (List.find (has_pid s pid) l).
Proof.
  induction l as [|x l IH]; intros fuel p H Hf; (destruct fuel as [|fuel]; [cbn in Hf; lia|]).
  - by rewrite H.
  - destruct H as (-> & n & Hn & H). cbn [find_from List.find]. unfold deref, has_pid at 1. rewrite Hn. cbn [res_bind].
    destruct (n_pid n =? pid); [done|]. apply IH; [done|cbn in Hf; lia].
Qed.

Lemma find_list s pid l : (forall x, x ∈ l -> is_Some (store s !! x)) -> find_in_list s l pid = Ok (List.find (has_pid s pid) l).
Proof.
  induction l as [|x l IH]; intros H; [done|]. cbn [find_in_list List.find]. unfold deref, has_pid at 1.
  destruct (H x ltac:(left)) as [n Hn]. rewrite Hn. cbn [res_bind]. destruct (n_pid n =? pid); [done|]. apply IH. intros y Hy. apply H. by right.
Qed.

Lemma has_pid_true s pid x : has_pid s pid x = true <-> exists n, store s !! x = Some n /\ n_pid n = pid.
Proof. unfold has_pid. destruct (store s !! x) as [n|]; [rewrite Z.eqb_eq|]; naive_solver. Qed.

Lemma tracee_of_spec s pid x : tracees_ok s -> tracee_of s pid = Some x <-> exists n, store s !! x = Some n /\ n_pid n = pid.
Proof.
  intros H. unfold tracee_of. split.
  - intros [_ Hx]%find_some. by apply has_pid_true.
  - intros (n & Hn & Hp). destruct (List.find _ _) as [y|] eqn:E.
    + apply find_some in E as [_ (n' & Hn' & Hp')%has_pid_true]. f_equal. eapply (ok_pids s H y x n' n Hn' Hn). congruence.
    + assert (Hx : has_pid s pid x = true) by (apply has_pid_true; by exists n).
      rewrite (find_none _ _ E x) in Hx; [done|]. apply list_elem_of_In, (ok_live s H). by exists n.
Qed.

Lemma lookup_tracee s pid : tracees_ok s -> tracee_lookup_readonly pid s = Ok (tracee_of s pid).
Proof.
  intros H. destruct (ok_hash s H (tracee_hash_fn pid)) as (l & H1 & H2 & H3). unfold tracee_lookup_readonly.
  rewrite (find_chain _ _ _ _ _ H1) by (apply chain_length in H1; [unfold chain_fuel; lia|done]). f_equal.
  destruct (List.find _ l) as [x|] eqn:E.
  - apply find_some in E as [_ Hx%has_pid_true]. symmetry. by apply tracee_of_spec.
  - destruct (tracee_of s pid) as [x|] eqn:E'; [|done]. apply tracee_of_spec in E' as (n & Hn & Hp); [|done]. exfalso.
    assert (Hx : has_pid s pid x = true) by (apply has_pid_true; by exists n).
    rewrite (find_none _ _ E x) in Hx; [done|]. apply list_elem_of_In, H3. unfold key. rewrite Hn. cbn. by rewrite Hp.
Qed.

(** ** Steps and their specification

    The specification is a list of tracees: a key, a pid and whether it has
    terminated. *)

Inductive TraceeEvent :=
  | Get (alloc create : bool) (pid : Z)
  | SetPid (x : nat) (pid : Z)
  | Terminate (x : nat)
  | Free.

Definition tracee_step (s : Tracees) (e : TraceeEvent) : res Tracees :=
  match e with
  | Get alloc create pid => let! (s, _) := get_tracee alloc None pid create s in Ok s
  | SetPid x pid => set_pid x pid s
  | Terminate x => let! (s, _) := terminate_tracee x s in Ok s
  | Free => free_terminated_tracees s
  end.

Record Entry := mkEntry { en_id : nat; en_pid : Z; en_terminated : bool }.
Definition Table : Type := nat * list Entry.

Definition find_pid (pid : Z) (l : list Entry) : option Entry := List.find (fun e => en_pid e =? pid) l.
Definition on_id (x : nat) (f : Entry -> Entry) (l : list Entry) : list Entry :=
  map (fun e => if (en_id e =? x)%nat then f e else e) l.

Definition table_step (t : Table) (e : TraceeEvent) : Table :=
  let '(next, l) := t in
  match e with
  | Get alloc create pid =>
      match find_pid pid l with
      | Some _ => t
      | None => if create && alloc then (S next, mkEntry next pid false :: l) else t
      end
  | SetPid x pid => (next, on_id x (fun e => mkEntry x pid (en_terminated e)) l)
  | Terminate x => (next, on_id x (fun e => mkEntry x (en_pid e) true) l)
  | Free => (next, List.filter (fun e => negb (en_terminated e)) l)
  end.

(** The tracees named by an event are live, and a pid is given once. *)
Definition allowed (t : Table) (e : TraceeEvent) : Prop :=
  match e with
  | Get _ _ _ | Free => True
  | SetPid x pid => x ∈ map en_id (snd t) /\ (forall e, e ∈ snd t -> en_pid e = pid -> en_id e = x)
  | Terminate x => x ∈ map en_id (snd t)
  end.

Definition entry (s : Tracees) (x : nat) : Entry :=
  match store s !! x with Some n => mkEntry x (n_pid n) (n_terminated n) | None => mkEntry x 0 false end.
Definition table (s : Tracees) : Table := (next_vpid s, map (entry s) (tracees s)).

Lemma en_id_entry s x : en_id (entry s x) = x.
Proof. unfold entry. by destruct (store s !! x). Qed.

Lemma table_ids s : map en_id (snd (table s)) = tracees s.
Proof. cbn. rewrite map_map. rewrite <- (map_id (tracees s)) at 2. apply map_ext. intros x. apply en_id_entry. Qed.

Lemma find_pid_entry s pid l : (forall x, x ∈ l -> is_Some (store s !! x)) ->
  find_pid pid (map (entry s) l) = entry s <$> List.find (has_pid s pid) l.
Proof.
  unfold find_pid. induction l as [|x l IH]; intros H; [done|]. cbn [map List.find]. unfold entry at 1, has_pid at 1.
  destruct (H x ltac:(left)) as [n Hn]. rewrite Hn. cbn [en_pid].
  destruct (n_pid n =? pid); [done|]. apply IH. intros y Hy. apply H. by right.
Qed.

Lemma find_table s pid : tracees_ok s -> find_pid pid (snd (table s)) = entry s <$> tracee_of s pid.
Proof. intros H. apply find_pid_entry. intros x. by apply (ok_live s H). Qed.

(** Another content of the tracees, with the same links. *)
Record alike (s s' : Tracees) : Prop := mkAlike {
  al_tracees : tracees s' = tracees s;
  al_vpid : next_vpid s' = next_vpid s;
  al_hash : tracee_hash s' = tracee_hash s;
  al_next : forall x, n_hash_next <$> store s' !! x = n_hash_next <$> store s !! x
}.

Lemma chain_ext m m' l : forall p, (forall x, x ∈ l -> n_hash_next <$> m' !! x = n_hash_next <$> m !! x) -> chain m p l -> chain m' p l.
Proof.
  induction l as [|x l IH]; intros p H Hc; [done|]. destruct Hc as (-> & n & Hn & Hc). split; [done|].
  specialize (H x) as Hx. rewrite Hn in Hx. specialize (Hx ltac:(left)). destruct (m' !! x) as [n'|]; [|done]. injection Hx as Hx.
  exists n'. split; [done|]. rewrite Hx. apply IH; [|done]. intros y Hy. apply H. by right.
Qed.

Lemma hashed_alike k s s' : alike s s' -> hashed k s -> hashed k s'.
Proof.
  intros [H1 H2 H3 H4] H h. destruct (H h) as (l & K1 & K2 & K3). exists l. split_and!; [|done..]. rewrite H3.
  eapply chain_ext; [|done]. intros x _. apply H4.
Qed.

Lemma update_alike f x n s : store s !! x = Some n -> n_hash_next (f n) = n_hash_next n ->
  update f x s = Ok (set_store (<[x := f n]> (store s)) s) /\ alike s (set_store (<[x := f n]> (store s)) s).
Proof.
  intros H Hf. unfold update, deref. rewrite H. split; [done|]. split; [done..|]. intros y. cbn [store set_store].
  destruct (decide (y = x)) as [->|Hy]; [by rewrite lookup_insert_eq, H; cbn; f_equal|by rewrite lookup_insert_ne].
Qed.

(** The pids of the same live tracees are the same. *)
Record same_pids (s s' : Tracees) : Prop := mkSamePids {
  sp_tracees : tracees s' = tracees s;
  sp_vpid : next_vpid s' = next_vpid s;
  sp_pid : forall x, n_pid <$> store s' !! x = n_pid <$> store s !! x
}.

Lemma wf_same_pids s s' : tracees_wf s -> same_pids s s' -> tracees_wf s'.
Proof.
  intros [H1 H2 H3 H4] [A1 A2 Hp].
  assert (Hs : forall x n', store s' !! x = Some n' -> exists n, store s !! x = Some n /\ n_pid n = n_pid n').
  { intros x n' Hn. specialize (Hp x). rewrite Hn in Hp. destruct (store s !! x) as [n|]; [|done]. injection Hp as Hp. by exists n. }
  split.
  - by rewrite A1.
  - intros x. rewrite A1, H2. specialize (Hp x). destruct (store s !! x), (store s' !! x); try done; split; intros [? ?]; (done || by eexists).
  - intros x. rewrite A1, A2. apply H3.
  - intros x y n n' (m & Hm & E)%Hs (m' & Hm' & E')%Hs Hn. eapply H4; [done..|]. congruence.
Qed.

Lemma key_same_pids s s' x : same_pids s s' -> key s' x = key s x.
Proof.
  intros [_ _ Hp]. unfold key. specialize (Hp x). destruct (store s !! x), (store s' !! x); cbn in *; congruence.
Qed.

Lemma same_same_pids s s' : same s s' -> same_pids s s'.
Proof.
  intros [H1 H2 H3]. split; [done..|]. intros x. specialize (H3 x).
  destruct (store s !! x) as [[]|], (store s' !! x) as [[]|]; cbn in *; simplify_eq/=; congruence.
Qed.

Lemma table_same s s' : same s s' -> table s' = table s.
Proof.
  intros [H1 H2 H3]. unfold table. rewrite H1, H2. f_equal. apply map_ext. intros x. specialize (H3 x). unfold entry.
  destruct (store s !! x) as [[]|], (store s' !! x) as [[]|]; by simplify_eq/=.
Qed.

Lemma tracees_ok_alike s s' : tracees_ok s -> alike s s' -> same_pids s s' -> tracees_ok s'.
Proof.
  intros [H1 H2] A P. split; [by eapply wf_same_pids|]. eapply hashed_ext; [|eapply hashed_alike; [exact A|exact H2]].
  intros x. symmetry. by apply key_same_pids.
Qed.

Lemma update_same_pids f x n s : store s !! x = Some n -> n_pid (f n) = n_pid n -> same_pids s (set_store (<[x := f n]> (store s)) s).
Proof.
  intros H Hf. split; [done..|]. intros y. cbn [store set_store].
  destruct (decide (y = x)) as [->|Hy]; [by rewrite lookup_insert_eq, H; cbn; f_equal|by rewrite lookup_insert_ne].
Qed.

(** ** Each operation does what its specification says *)

(** The outcome of an operation on the table. *)
Definition implements (m : res Tracees) (t : Table) : Prop := exists s, m = Ok s /\ tracees_ok s /\ table s = t.

Lemma entry_update f x n s y : store s !! x = Some n ->
  entry (set_store (<[x := f n]> (store s)) s) y
  = if (y =? x)%nat then mkEntry x (n_pid (f n)) (n_terminated (f n)) else entry s y.
Proof.
  intros H. unfold entry. cbn [store set_store]. destruct (decide (y = x)) as [->|Hy].
  - by rewrite lookup_insert_eq, Nat.eqb_refl.
  - rewrite lookup_insert_ne by done. by rewrite (proj2 (Nat.eqb_neq y x)).
Qed.

Lemma get_found alloc create pid s x : tracees_ok s -> tracee_of s pid = Some x ->
  exists s', get_tracee alloc None pid create s = Ok (s', Some x) /\ tracees_ok s' /\ table s' = table s.
Proof.
  intros H Hx. unfold get_tracee. rewrite lookup_tracee, Hx by done. cbn [res_bind].
  apply tracee_of_spec in Hx as (n & Hn & _); [|done].
  destruct (update_alike with_ctx x n s Hn eq_refl) as [-> A]. cbn [res_bind]. eexists. split; [done|].
  split; [eapply tracees_ok_alike; [done|done|by apply update_same_pids]|].
  unfold table. cbn [next_vpid tracees set_store]. f_equal. apply map_ext. intros y. rewrite (entry_update with_ctx x n s y Hn).
  destruct (Nat.eqb_spec y x) as [->|]; [|done]. unfold entry. by rewrite Hn.
Qed.

Lemma fresh_tracee s : tracees_wf s -> store s !! next_vpid s = None.
Proof.
  intros H. destruct (store s !! next_vpid s) as [n|] eqn:E; [|done].
  assert (Hx : next_vpid s ∈ tracees s) by (apply ok_live; [done|by exists n]). apply ok_fresh in Hx; [lia|done].
Qed.

Lemma new_tracee_spec pid s : tracees_ok s -> tracee_of s pid = None ->
  exists s', new_tracee true pid s = Ok (s', Some (next_vpid s)) /\ tracees_ok s'
    /\ table s' = (S (next_vpid s), mkEntry (next_vpid s) pid false :: snd (table s)).
Proof.
  intros H Hnone. pose proof (fresh_tracee s H) as Hx. unfold new_tracee. cbn [negb]. set (x := next_vpid s) in *.
  set (n := mkNode pid _ None false false None 1). set (s0 := mkTracees _ _ _ _).
  assert (Hf : x ∉ tracees s) by (rewrite (ok_live s H), Hx; intros [? ?]; done).
  assert (W0 : tracees_wf s0).
  { destruct H as [[H1 H2 H3 H4] _]. subst s0. split; cbn [tracees store next_vpid].
    - by constructor.
    - intros y. rewrite elem_of_cons, H2. destruct (decide (y = x)) as [->|Hy]; [rewrite lookup_insert_eq; split; [by eexists|by left]|].
      rewrite lookup_insert_ne by done. naive_solver.
    - intros y [->|Hy]%elem_of_cons; [lia|]. apply H3 in Hy. unfold x. lia.
    - assert (Hp : forall y m, store s !! y = Some m -> n_pid m <> pid).
      { intros y m Hm Hp. unfold tracee_of in Hnone. apply (find_none _ _ ) with (x := y) in Hnone; [|apply list_elem_of_In, H2; by exists m].
        unfold has_pid in Hnone. rewrite Hm in Hnone. lia. }
      intros y z m m'. destruct (decide (y = x)) as [->|Hy], (decide (z = x)) as [->|Hz];
        rewrite ?lookup_insert_eq, ?lookup_insert_ne by done; intros K1 K2 E; [done| | |by eapply H4].
      + injection K1 as <-. cbn in E. by apply Hp in K2.
      + injection K2 as <-. cbn in E. by apply Hp in K1. }
  assert (K0 : hashed (key s) s0).
  { intros h. destruct (ok_hash s H h) as (l & K1 & K2 & K3). exists l. split_and!; [|done..]. cbn [store tracee_hash]. subst s0.
    cbn [store tracee_hash]. apply chain_frame; [|done]. rewrite K3. unfold key. by rewrite Hx. }
  destruct (insert_spec x n (key s) s0 K0) as (s' & E & S & K); [unfold key; by rewrite Hx|apply lookup_insert_eq|].
  rewrite E. cbn [res_bind]. exists s'. split; [done|]. split.
  - split; [eapply wf_same_pids; [exact W0|by apply same_same_pids]|]. eapply hashed_ext; [|exact K]. intros y. cbn beta.
    rewrite (key_same_pids s0 s') by by apply same_same_pids. unfold key at 2. subst s0. cbn [store].
    destruct (decide (y = x)) as [->|Hy]; [by rewrite lookup_insert_eq|by rewrite lookup_insert_ne].
  - rewrite (table_same s0 s') by done. unfold table. subst s0. cbn [next_vpid tracees map]. f_equal. f_equal.
    + unfold entry. cbn [store]. by rewrite lookup_insert_eq.
    + apply map_ext_in. intros y Hy%list_elem_of_In. unfold entry. cbn [store]. rewrite lookup_insert_ne; [done|]. by intros ->.
Qed.

Lemma set_pid_spec x pid n s : tracees_ok s -> store s !! x = Some n ->
  (forall y m, store s !! y = Some m -> n_pid m = pid -> y = x) ->
  implements (set_pid x pid s) (next_vpid s, on_id x (fun e => mkEntry x pid (en_terminated e)) (snd (table s))).
Proof.
  intros H Hn Hp. unfold set_pid, deref. rewrite Hn. cbn [res_bind].
  destruct (update_alike (with_pid pid) x n s Hn eq_refl) as [-> A]. cbn [res_bind]. set (s1 := set_store _ _) in *.
  assert (W1 : tracees_wf s1).
  { destruct H as [[H1 H2 H3 H4] _]. split; [done| |done|].
    - intros y. cbn [tracees]. change (tracees s1) with (tracees s). rewrite H2. unfold s1. cbn [store set_store].
      destruct (decide (y = x)) as [->|Hy]; [|by rewrite lookup_insert_ne]. rewrite lookup_insert_eq, Hn. split; intros _; by eexists.
    - intros y z m m'. unfold s1. cbn [store set_store]. destruct (decide (y = x)) as [->|Hy], (decide (z = x)) as [->|Hz];
        rewrite ?lookup_insert_eq, ?lookup_insert_ne by done; intros K1 K2 E; [done| | |by eapply H4].
      + injection K1 as <-. cbn in E. symmetry in E. by apply (Hp z m') in E.
      + injection K2 as <-. cbn in E. by apply (Hp y m) in E. }
  assert (Hx1 : store s1 !! x = Some (with_pid pid n)) by apply lookup_insert_eq.
  unfold tracee_hash_update.
  destruct (unlink_spec x (with_pid pid n) (tracee_hash_fn (n_pid n)) (key s) s1) as (s2 & -> & S2 & K2);
    [by eapply hashed_alike, ok_hash|unfold key; by rewrite Hn|done|]. cbn [res_bind].
  pose proof (same_core _ _ S2 x) as Hc. rewrite Hx1 in Hc. destruct (store s2 !! x) as [n2|] eqn:Hx2; [|done].
  assert (Hn2 : n_pid n2 = pid) by (destruct n2; by simplify_eq/=).
  destruct (insert_spec x n2 _ s2 K2) as (s3 & E & S3 & K3); [by rewrite decide_True|done|].
  assert (S : same s1 s3) by by etrans. exists s3. split; [done|]. split.
  - split; [eapply wf_same_pids; [exact W1|by apply same_same_pids]|]. eapply hashed_ext; [|exact K3]. intros y. cbn beta.
    rewrite (key_same_pids s1 s3) by by apply same_same_pids. unfold key, s1. cbn [store set_store].
    destruct (decide (y = x)) as [->|Hy]; [rewrite lookup_insert_eq; cbn; by rewrite Hn2|by rewrite lookup_insert_ne].
  - rewrite (table_same s1 s3 S). unfold table, on_id. cbn [snd]. rewrite map_map. f_equal. apply map_ext. intros y.
    unfold s1. rewrite (entry_update _ _ _ _ _ Hn), en_id_entry. destruct (Nat.eqb_spec y x) as [->|]; [|done]. unfold entry. by rewrite Hn.
Qed.

Lemma pids_ok s l : (forall x, x ∈ l -> is_Some (store s !! x)) -> exists r, pids_of s l = Ok r.
Proof.
  induction l as [|x l IH]; intros H; [by exists []|]. destruct (H x ltac:(left)) as [n Hn].
  destruct IH as [r Hr]; [intros y Hy; apply H; by right|]. exists (n_pid n :: r). cbn [pids_of]. unfold deref. by rewrite Hn, Hr.
Qed.

Lemma terminate_spec x n s : tracees_ok s -> store s !! x = Some n ->
  exists s' killed, terminate_tracee x s = Ok (s', killed) /\ tracees_ok s'
    /\ table s' = (next_vpid s, on_id x (fun e => mkEntry x (en_pid e) true) (snd (table s))).
Proof.
  intros H Hn. unfold terminate_tracee. destruct (update_alike with_terminated x n s Hn eq_refl) as [-> A]. cbn [res_bind].
  set (s1 := set_store _ _) in *.
  assert (K : tracees_ok s1) by (eapply tracees_ok_alike; [exact H|done|by apply update_same_pids]).
  assert (T : table s1 = (next_vpid s, on_id x (fun e => mkEntry x (en_pid e) true) (snd (table s)))).
  { unfold table, on_id. cbn [snd]. rewrite map_map. f_equal. apply map_ext. intros y.
    unfold s1. rewrite (entry_update _ _ _ _ _ Hn), en_id_entry. destruct (Nat.eqb_spec y x) as [->|]; [|done]. unfold entry. by rewrite Hn. }
  unfold deref. replace (store s1 !! x) with (Some (with_terminated n)) by (symmetry; apply lookup_insert_eq). cbn [res_bind].
  destruct (n_killall_on_exit _); [|by eexists _, []].
  destruct (pids_ok s1 (tracees s1)) as [r Hr]; [intros y; by apply (ok_live s1 K)|]. unfold kill_all_tracees. rewrite Hr. by eexists _, r.
Qed.

(** The pids and the states of the tracees are the same. *)
Definition info (n : Node) : Z * bool := (n_pid n, n_terminated n).

Lemma orphan_spec x l : forall s, (forall y, y ∈ l -> is_Some (store s !! y)) ->
  exists s', orphan x l s = Ok s' /\ alike s s' /\ forall y, info <$> store s' !! y = info <$> store s !! y.
Proof.
  induction l as [|y l IH]; intros s H; [by exists s|]. destruct (H y ltac:(left)) as [n Hn]. cbn [orphan]. unfold deref. rewrite Hn. cbn [res_bind].
  assert (exists s1, (if bool_decide (n_parent n = Some x) then update (with_parent None) y s else Ok s) = Ok s1 /\ alike s s1
    /\ forall z, info <$> store s1 !! z = info <$> store s !! z) as (s1 & -> & A & F).
  { case_bool_decide; [|by exists s]. destruct (update_alike (with_parent None) y n s Hn eq_refl) as [-> A]. eexists. split; [done|].
    split; [done|]. intros z. cbn [store set_store].
    destruct (decide (z = y)) as [->|Hz]; [by rewrite lookup_insert_eq, Hn|by rewrite lookup_insert_ne]. }
  cbn [res_bind]. destruct (IH s1) as (s' & E & A' & F').
  { intros z Hz. specialize (F z). destruct (H z ltac:(by right)) as [m Hm]. rewrite Hm in F. destruct (store s1 !! z); [by eexists|done]. }
  exists s'. split; [done|]. split; [|intros z; by rewrite F', F].
  destruct A as [A1 A2 A3 A4], A' as [B1 B2 B3 B4]. split; [congruence..|]. intros z. by rewrite B4.
Qed.

Lemma entry_info s s' x : info <$> store s' !! x = info <$> store s !! x -> entry s' x = entry s x.
Proof. unfold entry, info. destruct (store s !! x), (store s' !! x); intros H; simplify_eq/=; congruence. Qed.

Lemma filter_filter {A} (f g : A -> bool) l : List.filter f (List.filter g l) = List.filter (fun x => g x && f x) l.
Proof. induction l as [|x l IH]; [done|]. cbn. destruct (g x); cbn; [destruct (f x)|]; by rewrite ?IH. Qed.

Lemma filter_entries s s' x l : (forall y, y <> x -> entry s' y = entry s y) ->
  map (entry s') (base.filter (fun y => y <> x) l) = List.filter (fun e => negb (en_id e =? x)%nat) (map (entry s) l).
Proof.
  intros H. induction l as [|y l IH]; [done|]. cbn [map List.filter]. rewrite en_id_entry, filter_cons.
  destruct (Nat.eqb_spec y x) as [->|Hy]; cbn [negb]; case_decide; try done. cbn [map]. by rewrite IH, H.
Qed.

(** A tracee leaves the table and its memory is freed. *)
Lemma remove_spec x n s : tracees_ok s -> store s !! x = Some n ->
  implements (let! s := tracee_hash_remove x s in remove_tracee x s)
    (next_vpid s, List.filter (fun e => negb (en_id e =? x)%nat) (snd (table s))).
Proof.
  intros H Hn. unfold tracee_hash_remove, deref. rewrite Hn. cbn [res_bind].
  destruct (unlink_spec x n (tracee_hash_fn (n_pid n)) (key s) s (ok_hash s H)) as (s1 & -> & S & K); [unfold key; by rewrite Hn|done|].
  cbn [res_bind]. unfold remove_tracee. pose proof (wf_same_pids _ _ (ok_wf _ H) (same_same_pids _ _ S)) as [W1 W2 W3 W4].
  set (l := base.filter _ _). set (s2 := mkTracees _ _ _ _).
  destruct (orphan_spec x l s2) as (s3 & -> & [A1 A2 A3 A4] & F).
  { intros y Hy. apply list_elem_of_filter in Hy as [_ Hy]. by apply W2. }
  cbn [res_bind]. assert (Hin : forall y, y <> x -> info <$> store s3 !! y = info <$> store s !! y).
  { intros y _. rewrite F. unfold s2. cbn [store]. pose proof (same_core _ _ S y) as Hc.
    destruct (store s !! y) as [[]|], (store s1 !! y) as [[]|]; by simplify_eq/=. }
  assert (Hst : forall y, store s3 !! y = None <-> store s1 !! y = None).
  { intros y. specialize (F y). unfold s2 in F. cbn [store] in F. destruct (store s1 !! y), (store s3 !! y); done. }
  eexists. split; [done|]. split; [split|].
  - split; cbn [tracees set_store store next_vpid]; rewrite ?A1, ?A2; unfold s2; cbn [tracees next_vpid].
    + by apply NoDup_filter.
    + intros y. unfold l. rewrite list_elem_of_filter, W2. destruct (decide (y = x)) as [->|Hy]; [rewrite lookup_delete_eq; naive_solver|].
      rewrite lookup_delete_ne by done. rewrite <- !not_eq_None_Some, Hst. naive_solver.
    + intros y Hy. apply list_elem_of_filter in Hy as [_ Hy]. by apply W3.
    + intros y z m m' Hm Hm' E. apply lookup_delete_Some in Hm as [Hy Hm]. apply lookup_delete_Some in Hm' as [Hz Hm'].
      pose proof (Hin y ltac:(done)) as Iy. pose proof (Hin z ltac:(done)) as Iz. rewrite Hm in Iy. rewrite Hm' in Iz.
      destruct (store s !! y) as [my|] eqn:Ey, (store s !! z) as [mz|] eqn:Ez; try done.
      eapply (ok_pids s H y z); [done..|]. unfold info in Iy, Iz. cbn in Iy, Iz. congruence.
  - intros h. destruct (K h) as (b & K1 & K2 & K3). exists b. split_and!; [|done|].
    + cbn [store set_store tracee_hash]. rewrite A3. unfold s2. cbn [tracee_hash]. eapply chain_ext; [|exact K1]. intros y Hy.
      apply K3 in Hy. destruct (decide (y = x)) as [->|Hyx]; [done|]. rewrite lookup_delete_ne by done. apply A4.
    + intros y. rewrite K3. unfold key. cbn [store set_store]. destruct (decide (y = x)) as [->|Hyx]; [by rewrite lookup_delete_eq|].
      rewrite lookup_delete_ne by done. specialize (Hin y Hyx). unfold info in Hin. destruct (store s !! y), (store s3 !! y); simplify_eq/=; try done. by match goal with E : n_pid _ = n_pid _ |- _ => rewrite E end.
  - unfold table. cbn [next_vpid tracees set_store snd]. rewrite A1, A2. unfold s2, l. cbn [next_vpid tracees].
    rewrite (same_vpid _ _ S), (same_tracees _ _ S). f_equal. apply filter_entries. intros y Hy. apply entry_info.
    cbn [store set_store]. rewrite lookup_delete_ne by done. by apply Hin.
Qed.

Lemma free_spec l : forall s, tracees_ok s -> NoDup l -> (forall x, x ∈ l -> x ∈ tracees s) ->
  implements (free_terminated l s)
    (next_vpid s, List.filter (fun e => negb (en_terminated e && bool_decide (en_id e ∈ l))) (snd (table s))).
Proof.
  induction l as [|x l IH]; intros s H Hnd Hl.
  - exists s. split_and!; [done..|]. unfold table. cbn [snd]. f_equal. symmetry. apply forallb_filter_id, forallb_forall. intros e _.
    by rewrite andb_false_r.
  - apply NoDup_cons in Hnd as [Hx Hnd]. assert (Hin : x ∈ tracees s) by (apply Hl; left).
    pose proof (proj1 (ok_live s H x) Hin) as [n Hn]. cbn [free_terminated]. unfold deref. rewrite Hn. cbn [res_bind].
    assert (Hent : forall e, e ∈ snd (table s) -> en_id e = x -> en_terminated e = n_terminated n).
    { intros e He Ex. apply list_elem_of_In, in_map_iff in He as (y & <- & _). rewrite en_id_entry in Ex. subst y. unfold entry. by rewrite Hn. }
    destruct (n_terminated n) eqn:Et.
    + destruct (remove_spec x n s H Hn) as (s1 & -> & H1 & T1). cbn [res_bind]. destruct (IH s1 H1 Hnd) as (s' & -> & H' & T').
      { intros y Hy. rewrite <- (table_ids s1), T1. cbn [snd]. rewrite <- (table_ids s) in Hl. specialize (Hl y ltac:(by right)).
        apply list_elem_of_In, in_map_iff in Hl as (e & <- & He). apply list_elem_of_In, in_map, filter_In. split; [done|].
        destruct (Nat.eqb_spec (en_id e) x) as [E|]; [by rewrite E in Hy|done]. }
      exists s'. split_and!; [done..|]. rewrite T'. replace (next_vpid s1) with (next_vpid s) by (by injection T1).
      f_equal. rewrite T1. cbn [snd]. rewrite filter_filter. apply filter_ext_in. intros e He%list_elem_of_In.
      destruct (Nat.eqb_spec (en_id e) x) as [E|E]; cbn [negb andb].
      * rewrite (Hent e He E), E, bool_decide_true by left. done.
      * f_equal. f_equal. apply bool_decide_ext. rewrite elem_of_cons. naive_solver.
    + cbn [res_bind]. destruct (IH s H Hnd) as (s' & -> & H' & T'); [intros y Hy; apply Hl; by right|]. exists s'. split_and!; [done..|].
      rewrite T'. f_equal. apply filter_ext_in. intros e He%list_elem_of_In. destruct (decide (en_id e = x)) as [E|E].
      * by rewrite (Hent e He E).
      * f_equal. f_equal. apply bool_decide_ext. rewrite elem_of_cons. naive_solver.
Qed.

(** One step of the table is one step of its specification. *)
Lemma step_refines s e : tracees_ok s -> allowed (table s) e -> implements (tracee_step s e) (table_step (table s) e).
Proof.
  intros H Ha. destruct e as [alloc create pid|x pid|x|]; cbn [tracee_step].
  - unfold table_step. pose proof (find_table s pid H) as Hf. destruct (table s) as [next l] eqn:T. cbn [snd] in Hf. rewrite Hf.
    destruct (tracee_of s pid) as [x|] eqn:E; cbn [fmap option_fmap option_map].
    + destruct (get_found alloc create pid s x H E) as (s' & -> & H' & T'). exists s'. split_and!; [done..|congruence].
    + unfold get_tracee. rewrite lookup_tracee, E by done. cbn [res_bind].
      rewrite find_list by (intros x; apply (ok_live s H)). fold (tracee_of s pid). rewrite E. cbn [res_bind].
      destruct create; cbn [andb]; [|by exists s]. destruct alloc; [|by exists s].
      destruct (new_tracee_spec pid s H E) as (s' & -> & H' & T'). exists s'. split_and!; [done..|]. rewrite T', T. cbn [snd].
      unfold table in T. by injection T as -> _.
  - destruct Ha as [Hx Hp]. rewrite table_ids in Hx. pose proof (proj1 (ok_live s H x) Hx) as [n Hn].
    apply (set_pid_spec x pid n s H Hn). intros y m Hm Hm'. specialize (Hp (entry s y)). rewrite en_id_entry in Hp. apply Hp.
    + cbn [table snd]. apply list_elem_of_In, in_map, list_elem_of_In, (ok_live s H). by exists m.
    + unfold entry. by rewrite Hm.
  - cbn [allowed] in Ha. rewrite table_ids in Ha. pose proof (proj1 (ok_live s H x) Ha) as [n Hn].
    destruct (terminate_spec x n s H Hn) as (s' & killed & -> & H' & T'). by exists s'.
  - unfold free_terminated_tracees. destruct (free_spec (tracees s) s H) as (s' & -> & H' & T'); [by apply (ok_list s H)|done|].
    exists s'. split_and!; [done..|]. rewrite T'. unfold table_step, table at 2. f_equal. cbn [snd]. apply filter_ext_in.
    intros e (x & <- & Hx)%in_map_iff. rewrite en_id_entry, bool_decide_true, andb_true_r by by apply list_elem_of_In. done.
Qed.

Fixpoint run (s : Tracees) (es : list TraceeEvent) : res Tracees :=
  match es with [] => Ok s | e :: es => let! s := tracee_step s e in run s es end.
Fixpoint run_allowed (t : Table) (es : list TraceeEvent) : Prop :=
  match es with [] => True | e :: es => allowed t e /\ run_allowed (table_step t e) es end.

Lemma no_tracees_ok : tracees_ok no_tracees.
Proof.
  split; [split; [constructor| | |done]|].
  - intros x. cbn. rewrite lookup_empty. split; [by intros ?%not_elem_of_nil|by intros [? ?]].
  - by intros x ?%not_elem_of_nil.
  - intros h. exists []. split_and!; [done|constructor|]. intros x. unfold key. cbn. rewrite lookup_empty. split; [by intros ?%not_elem_of_nil|done].
Qed.

Lemma run_refines es : forall s, tracees_ok s -> run_allowed (table s) es -> implements (run s es) (fold_left table_step es (table s)).
Proof.
  induction es as [|e es IH]; intros s H Ha; [by exists s|]. destruct Ha as [Ha Has].
  destruct (step_refines s e H Ha) as (s1 & E & H1 & T1). cbn [run fold_left]. rewrite E. cbn [res_bind]. rewrite <- T1. apply IH; [done|by rewrite T1].
Qed.

(** ** Properties *)

(** C27: whatever sequence of lookups, creations, changes of pid, terminations and
    releases follows the start, no access leaves the live tracees and the table
    is the list of its specification; a lookup by pid through the hash table
    finds the tracee that the list has for this pid, and only it.  Pids are given
    once, and the changes of pid are those that tracee_hash_update() follows, as in
    main(): launch_process() gives the first tracee the pid of its child without it,
    which breaks this property ([first_tracee_dangles]). *)
Theorem tracee_table_refines es : run_allowed (0%nat, []) es ->
  exists s, run no_tracees es = Ok s /\ table s = fold_left table_step es (0%nat, [])
    /\ forall pid, tracee_lookup_readonly pid s = Ok (en_id <$> find_pid pid (snd (table s)))
                   /\ tracee_lookup_readonly pid s = find_in_list s (tracees s) pid.
Proof.
  intros Ha. destruct (run_refines es no_tracees no_tracees_ok Ha) as (s & E & H & T). exists s. split_and!; [done..|]. intros pid.
  rewrite (lookup_tracee s pid H), (find_table s pid H), (find_list s pid (tracees s)) by (intros x; apply (ok_live s H)).
  split; [|done]. destruct (tracee_of s pid) as [x|]; [|done]. cbn. by rewrite en_id_entry.
Qed.

(** ** The first tracee

    main() moves the first tracee to the bucket of its own pid, but
    launch_process() gives it the pid of the child without moving it. *)

Definition start (getpid child : Z) : res Tracees :=
  let! (s, r) := pre_create getpid no_tracees in
  match r with None => Ok s | Some x => launch_process x child s end.

Lemma pre_create_spec getpid : exists s n, pre_create getpid no_tracees = Ok (s, Some 0%nat) /\ tracees_ok s
  /\ tracees s = [0%nat] /\ store s !! 0%nat = Some n /\ n_pid n = getpid /\ n_terminated n = false.
Proof.
  destruct (new_tracee_spec 0 no_tracees no_tracees_ok eq_refl) as (s0 & E0 & H0 & T0).
  assert (G : get_tracee true None 0 true no_tracees = Ok (s0, Some 0%nat)) by exact E0.
  unfold pre_create. rewrite G. cbn [res_bind].
  destruct (step_refines s0 (SetPid 0 getpid) H0) as (s & E & H & T).
  { rewrite T0. cbn. split; [left|]. intros e [->|?%not_elem_of_nil]%elem_of_cons; done. }
  cbn [tracee_step] in E. rewrite E. cbn [res_bind]. rewrite T0 in T. cbn in T.
  assert (L : tracees s = [0%nat]) by (rewrite <- (table_ids s), T; done).
  assert (Hn : is_Some (store s !! 0%nat)) by (apply (ok_live s H); rewrite L; left). destruct Hn as [n Hn]. exists s, n.
  unfold table in T. rewrite L in T. cbn in T. unfold entry in T. rewrite Hn in T. injection T as T1 T2 T3. by split_and!.
Qed.

(** The buckets when there is one tracee. *)
Lemma lone_buckets s n : tracees_ok s -> tracees s = [0%nat] -> store s !! 0%nat = Some n ->
  tracee_hash s !! tracee_hash_fn (n_pid n) = Some 0%nat /\ forall h, h <> tracee_hash_fn (n_pid n) -> tracee_hash s !! h = None.
Proof.
  intros H L Hn. assert (Hk : forall x h, key s x = Some h -> x = 0%nat /\ h = tracee_hash_fn (n_pid n)).
  { intros x h Hx. assert (Hin : x ∈ tracees s) by (apply (ok_live s H); unfold key in Hx; destruct (store s !! x); [by eexists|done]).
    rewrite L in Hin. apply list_elem_of_singleton in Hin as ->. unfold key in Hx. rewrite Hn in Hx. by injection Hx as <-. }
  split.
  - destruct (ok_hash s H (tracee_hash_fn (n_pid n))) as ([|x l] & K1 & K2 & K3).
    + exfalso. apply (not_elem_of_nil 0%nat). apply K3. unfold key. by rewrite Hn.
    + destruct K1 as [-> _]. destruct (Hk x _ (proj1 (K3 x) ltac:(left))) as [-> _]. done.
  - intros h Hh. destruct (ok_hash s H h) as ([|x l] & K1 & K2 & K3); [done|]. by destruct (Hk x _ (proj1 (K3 x) ltac:(left))) as [_ ->].
Qed.

(** Unless both pids have the same bucket, the first tracee is not tracked by its
    pid, and once it is freed its bucket still leads to it: the lookup of any pid
    of this bucket reads freed memory. *)
Theorem first_tracee_dangles getpid child pid : tracee_hash_fn child <> tracee_hash_fn getpid ->
  exists s, start getpid child = Ok s /\ tracee_is_tracked child s = Ok false
  /\ exists s' killed, terminate_tracee 0 s = Ok (s', killed)
     /\ exists s'', free_terminated_tracees s' = Ok s'' /\ tracees s'' = []
        /\ (tracee_hash_fn pid = tracee_hash_fn getpid -> get_tracee true None pid true s'' = Stuck OutOfBounds).
Proof.
  intros Hne. destruct (pre_create_spec getpid) as (s1 & n & E & H & L & Hn & Hp & Ht).
  destruct (lone_buckets s1 n H L Hn) as [B1 B2]. rewrite Hp in B1, B2. unfold start, launch_process. rewrite E. cbn [res_bind].
  destruct (update_alike (with_pid child) 0 n s1 Hn eq_refl) as [-> _]. eexists. split; [done|]. split.
  { unfold tracee_is_tracked, tracee_lookup_readonly. cbn [tracee_hash set_store]. by rewrite B2. }
  set (s2 := set_store _ _). assert (Hn2 : store s2 !! 0%nat = Some (with_pid child n)) by apply lookup_insert_eq.
  unfold terminate_tracee. destruct (update_alike with_terminated 0 _ s2 Hn2 eq_refl) as [-> _]. cbn [res_bind].
  set (s3 := set_store _ s2). set (n3 := with_terminated _) in *. assert (Hn3 : store s3 !! 0%nat = Some n3) by apply lookup_insert_eq.
  assert (K : exists killed, (let! n := deref s3 0 in if n_killall_on_exit n then let! killed := kill_all_tracees s3 in Ok (s3, killed) else Ok (s3, []))
    = Ok (s3, killed)).
  { unfold deref. rewrite Hn3. cbn [res_bind]. destruct (n_killall_on_exit n3); [|by eexists]. unfold kill_all_tracees.
    change (tracees s3) with (tracees s1). rewrite L. cbn [pids_of]. unfold deref. rewrite Hn3. by eexists. }
  destruct K as [killed K]. exists s3, killed. split; [exact K|].
  unfold free_terminated_tracees. change (tracees s3) with (tracees s1). rewrite L. cbn [free_terminated].
  unfold tracee_hash_remove, deref. rewrite Hn3. cbn [res_bind]. change (n_terminated n3) with true. change (n_pid n3) with child. cbv iota.
  change (tracee_hash s3) with (tracee_hash s1). rewrite (B2 _ Hne). cbn [unlink_from chain_fuel res_bind].
  unfold remove_tracee. change (tracees s3) with (tracees s1). rewrite L. cbn. eexists. split; [done|]. split; [done|].
  intros Hb. unfold get_tracee, tracee_lookup_readonly. cbn [tracee_hash set_store store]. rewrite Hb, B1. unfold chain_fuel. cbn [find_from].
  unfold deref. cbn [store set_store]. by rewrite lookup_delete_eq.
Qed.

(** ** The theorems apply *)

Lemma tracee_table_refines_witness :
  let es := [Get true true 0; SetPid 0 1000; Get true true 1256; Get true true 1001; Terminate 1; Free; Get true false 1001] in
  run_allowed (0%nat, []) es
  /\ exists s, run no_tracees es = Ok s /\ table s = (3%nat, [mkEntry 2 1001 false; mkEntry 0 1000 false]).
Proof.
  intros es. assert (Ha : run_allowed (0%nat, []) es).
  { cbn. split_and!; try done; [left| |right; left]. intros e [->|?%not_elem_of_nil]%elem_of_cons; done. }
  split; [exact Ha|]. destruct (tracee_table_refines es Ha) as (s & E & T & _). exists s. split; [exact E|]. rewrite T. vm_compute. reflexivity.
Defined.

Lemma first_tracee_dangles_witness :
  exists s, start 1000 1007 = Ok s /\ tracee_is_tracked 1007 s = Ok false.
Proof.
  destruct (first_tracee_dangles 1000 1007 1256) as (s & H1 & H2 & _); [vm_compute; discriminate|]. exists s. split; [exact H1|exact H2].
Defined.
