(* ===== verification/Events.v ===== *)
(** * Events of a tracee (src/tracee/event.c, src/syscall/syscall.c)

    A tracee stops, PRoot is told why by waitpid(2), handles the event and
    restarts the tracee.  [handle_tracee_event] keeps track of the stage a system
    call is in with the [status] of the tracee, [translate_syscall] calls the
    handlers of this stage.  The last part puts PRoot and a kernel together and
    shows that both always agree on the stage. *)

From stdpp Require Import relations.
From S2P Require Import Prelude Sysnum Regs Heap Chain Seccomp.

(** ** Data *)

Inductive Request := PTRACE_CONT | PTRACE_SYSCALL | PTRACE_SINGLESTEP | PTRACE_SINGLEBLOCK.
Inductive SeccompState := DISABLED | DISABLING | ENABLED.
Inductive Sigstop := SIGSTOP_IGNORED | SIGSTOP_ALLOWED | SIGSTOP_PENDING.
Inductive EventMsg := EVENTMSG_UNKNOWN | EVENTMSG_RELIABLE | EVENTMSG_LOST.

#[export] Instance Request_eq_dec : EqDecision Request.
Proof. solve_decision. Defined.
#[export] Instance SeccompState_eq_dec : EqDecision SeccompState.
Proof. solve_decision. Defined.
#[export] Instance Sigstop_eq_dec : EqDecision Sigstop.
Proof. solve_decision. Defined.
#[export] Instance EventMsg_eq_dec : EqDecision EventMsg.
Proof. solve_decision. Defined.

Definition SIGTRAP := 5.
Definition SIGSTOP := 19.
Definition SIGSYS := 31.
Definition SYS_SECCOMP := 1.
Definition PTRACE_EVENT_FORK := 1.
Definition PTRACE_EVENT_VFORK := 2.
Definition PTRACE_EVENT_CLONE := 3.
Definition PTRACE_EVENT_EXEC := 4.
Definition PTRACE_EVENT_VFORK_DONE := 5.
Definition PTRACE_EVENT_EXIT := 6.
Definition PTRACE_EVENT_SECCOMP := 7.
Definition PTRACE_EVENT_SECCOMP2 := 8.

(** A tracee: its registers and its chain, and the fields of the event loop.
    [restart_how] is [None] for 0; [has_exe] is [exe != NULL]. *)
Record Tracee := mkTracee {
  chained : ChainTracee;
  status : Z;
  restart_how : option Request;
  last_restart_how : option Request;
  seccomp : SeccompState;
  sysexit_pending : bool;
  voided_syscall_cancelled : bool;
  pokedata_cancelled : bool;
  pokedata_relaunched : bool;
  seccomp_already_handled_enter : bool;
  skip_next_seccomp_signal : bool;
  restore_sysarg1_after_sigsys : bool;
  suppressed_signal : Z;
  ptrace_options_set : bool;
  sigstop : Sigstop;
  has_exe : bool;
  pending_child : bool;
  terminated : bool;
  running : bool;
  wait_pid : Z;
  event_pending : bool
}.

Definition set_chained x t := mkTracee x (status t) (restart_how t) (last_restart_how t) (seccomp t) (sysexit_pending
  t) (voided_syscall_cancelled t) (pokedata_cancelled t) (pokedata_relaunched t) (seccomp_already_handled_enter t)
  (skip_next_seccomp_signal t) (restore_sysarg1_after_sigsys t) (suppressed_signal t) (ptrace_options_set t) (sigstop t)
  (has_exe t) (pending_child t) (terminated t) (running t) (wait_pid t) (event_pending t).
Definition set_status x t := mkTracee (chained t) x (restart_how t) (last_restart_how t) (seccomp t) (sysexit_pending
  t) (voided_syscall_cancelled t) (pokedata_cancelled t) (pokedata_relaunched t) (seccomp_already_handled_enter t)
  (skip_next_seccomp_signal t) (restore_sysarg1_after_sigsys t) (suppressed_signal t) (ptrace_options_set t) (sigstop t)
  (has_exe t) (pending_child t) (terminated t) (running t) (wait_pid t) (event_pending t).
Definition set_restart x t := mkTracee (chained t) (status t) x (last_restart_how t) (seccomp t) (sysexit_pending t)
  (voided_syscall_cancelled t) (pokedata_cancelled t) (pokedata_relaunched t) (seccomp_already_handled_enter t)
  (skip_next_seccomp_signal t) (restore_sysarg1_after_sigsys t) (suppressed_signal t) (ptrace_options_set t) (sigstop t)
  (has_exe t) (pending_child t) (terminated t) (running t) (wait_pid t) (event_pending t).
Definition set_last x t := mkTracee (chained t) (status t) (restart_how t) x (seccomp t) (sysexit_pending t)
  (voided_syscall_cancelled t) (pokedata_cancelled t) (pokedata_relaunched t) (seccomp_already_handled_enter t)
  (skip_next_seccomp_signal t) (restore_sysarg1_after_sigsys t) (suppressed_signal t) (ptrace_options_set t) (sigstop t)
  (has_exe t) (pending_child t) (terminated t) (running t) (wait_pid t) (event_pending t).
Definition set_seccomp x t := mkTracee (chained t) (status t) (restart_how t) (last_restart_how t) x (sysexit_pending
  t) (voided_syscall_cancelled t) (pokedata_cancelled t) (pokedata_relaunched t) (seccomp_already_handled_enter t)
  (skip_next_seccomp_signal t) (restore_sysarg1_after_sigsys t) (suppressed_signal t) (ptrace_options_set t) (sigstop t)
  (has_exe t) (pending_child t) (terminated t) (running t) (wait_pid t) (event_pending t).
Definition set_sysexit x t := mkTracee (chained t) (status t) (restart_how t) (last_restart_how t) (seccomp t) x
  (voided_syscall_cancelled t) (pokedata_cancelled t) (pokedata_relaunched t) (seccomp_already_handled_enter t)
  (skip_next_seccomp_signal t) (restore_sysarg1_after_sigsys t) (suppressed_signal t) (ptrace_options_set t) (sigstop t)
  (has_exe t) (pending_child t) (terminated t) (running t) (wait_pid t) (event_pending t).
Definition set_voided x t := mkTracee (chained t) (status t) (restart_how t) (last_restart_how t) (seccomp t)
  (sysexit_pending t) x (pokedata_cancelled t) (pokedata_relaunched t) (seccomp_already_handled_enter t)
  (skip_next_seccomp_signal t) (restore_sysarg1_after_sigsys t) (suppressed_signal t) (ptrace_options_set t) (sigstop t)
  (has_exe t) (pending_child t) (terminated t) (running t) (wait_pid t) (event_pending t).
Definition set_cancelled x t := mkTracee (chained t) (status t) (restart_how t) (last_restart_how t) (seccomp t)
  (sysexit_pending t) (voided_syscall_cancelled t) x (pokedata_relaunched t) (seccomp_already_handled_enter t)
  (skip_next_seccomp_signal t) (restore_sysarg1_after_sigsys t) (suppressed_signal t) (ptrace_options_set t) (sigstop t)
  (has_exe t) (pending_child t) (terminated t) (running t) (wait_pid t) (event_pending t).
Definition set_relaunched x t := mkTracee (chained t) (status t) (restart_how t) (last_restart_how t) (seccomp t)
  (sysexit_pending t) (voided_syscall_cancelled t) (pokedata_cancelled t) x (seccomp_already_handled_enter t)
  (skip_next_seccomp_signal t) (restore_sysarg1_after_sigsys t) (suppressed_signal t) (ptrace_options_set t) (sigstop t)
  (has_exe t) (pending_child t) (terminated t) (running t) (wait_pid t) (event_pending t).
Definition set_already x t := mkTracee (chained t) (status t) (restart_how t) (last_restart_how t) (seccomp t)
  (sysexit_pending t) (voided_syscall_cancelled t) (pokedata_cancelled t) (pokedata_relaunched t) x
  (skip_next_seccomp_signal t) (restore_sysarg1_after_sigsys t) (suppressed_signal t) (ptrace_options_set t) (sigstop t)
  (has_exe t) (pending_child t) (terminated t) (running t) (wait_pid t) (event_pending t).
Definition set_skip x t := mkTracee (chained t) (status t) (restart_how t) (last_restart_how t) (seccomp t)
  (sysexit_pending t) (voided_syscall_cancelled t) (pokedata_cancelled t) (pokedata_relaunched t)
  (seccomp_already_handled_enter t) x (restore_sysarg1_after_sigsys t) (suppressed_signal t) (ptrace_options_set t)
  (sigstop t) (has_exe t) (pending_child t) (terminated t) (running t) (wait_pid t) (event_pending t).
Definition set_sysarg1 x t := mkTracee (chained t) (status t) (restart_how t) (last_restart_how t) (seccomp t)
  (sysexit_pending t) (voided_syscall_cancelled t) (pokedata_cancelled t) (pokedata_relaunched t)
  (seccomp_already_handled_enter t) (skip_next_seccomp_signal t) x (suppressed_signal t) (ptrace_options_set t) (sigstop
  t) (has_exe t) (pending_child t) (terminated t) (running t) (wait_pid t) (event_pending t).
Definition set_suppressed x t := mkTracee (chained t) (status t) (restart_how t) (last_restart_how t) (seccomp t)
  (sysexit_pending t) (voided_syscall_cancelled t) (pokedata_cancelled t) (pokedata_relaunched t)
  (seccomp_already_handled_enter t) (skip_next_seccomp_signal t) (restore_sysarg1_after_sigsys t) x (ptrace_options_set
  t) (sigstop t) (has_exe t) (pending_child t) (terminated t) (running t) (wait_pid t) (event_pending t).
Definition set_options x t := mkTracee (chained t) (status t) (restart_how t) (last_restart_how t) (seccomp t)
  (sysexit_pending t) (voided_syscall_cancelled t) (pokedata_cancelled t) (pokedata_relaunched t)
  (seccomp_already_handled_enter t) (skip_next_seccomp_signal t) (restore_sysarg1_after_sigsys t) (suppressed_signal t)
  x (sigstop t) (has_exe t) (pending_child t) (terminated t) (running t) (wait_pid t) (event_pending t).
Definition set_sigstop x t := mkTracee (chained t) (status t) (restart_how t) (last_restart_how t) (seccomp t)
  (sysexit_pending t) (voided_syscall_cancelled t) (pokedata_cancelled t) (pokedata_relaunched t)
  (seccomp_already_handled_enter t) (skip_next_seccomp_signal t) (restore_sysarg1_after_sigsys t) (suppressed_signal t)
  (ptrace_options_set t) x (has_exe t) (pending_child t) (terminated t) (running t) (wait_pid t) (event_pending t).
Definition set_terminated x t := mkTracee (chained t) (status t) (restart_how t) (last_restart_how t) (seccomp t)
  (sysexit_pending t) (voided_syscall_cancelled t) (pokedata_cancelled t) (pokedata_relaunched t)
  (seccomp_already_handled_enter t) (skip_next_seccomp_signal t) (restore_sysarg1_after_sigsys t) (suppressed_signal t)
  (ptrace_options_set t) (sigstop t) (has_exe t) (pending_child t) x (running t) (wait_pid t) (event_pending t).
Definition set_running x t := mkTracee (chained t) (status t) (restart_how t) (last_restart_how t) (seccomp t)
  (sysexit_pending t) (voided_syscall_cancelled t) (pokedata_cancelled t) (pokedata_relaunched t)
  (seccomp_already_handled_enter t) (skip_next_seccomp_signal t) (restore_sysarg1_after_sigsys t) (suppressed_signal t)
  (ptrace_options_set t) (sigstop t) (has_exe t) (pending_child t) (terminated t) x (wait_pid t) (event_pending t).
Definition set_event x t := mkTracee (chained t) (status t) (restart_how t) (last_restart_how t) (seccomp t)
  (sysexit_pending t) (voided_syscall_cancelled t) (pokedata_cancelled t) (pokedata_relaunched t)
  (seccomp_already_handled_enter t) (skip_next_seccomp_signal t) (restore_sysarg1_after_sigsys t) (suppressed_signal t)
  (ptrace_options_set t) (sigstop t) (has_exe t) (pending_child t) (terminated t) (running t) (wait_pid t) x.

(** The registers, through the chain. *)
Definition ev_regs (t : Tracee) : Regs := c_regs (chained t).
Definition set_ev_regs (r : Regs) (t : Tracee) : Tracee :=
  let c := chained t in
  set_chained (mkChain r (syscalls c) (force_final_result c) (final_result c) (sysnum_workaround_state c) (restart_syscall c)) t.
Definition set_workaround (w : WorkaroundState) (t : Tracee) : Tracee :=
  let c := chained t in
  set_chained (mkChain (c_regs c) (syscalls c) (force_final_result c) (final_result c) w (restart_syscall c)) t.
Definition on_regs (f : Regs -> Regs) (t : Tracee) : Tracee := set_ev_regs (f (ev_regs t)) t.
Definition poke (r : Reg) (v : Z) (t : Tracee) : Tracee := on_regs (fun g => poke_reg g r v) t.
Definition peek (t : Tracee) (v : RegVersion) (r : Reg) : Z := peek_reg (ev_regs t) v r.

Definition is_in_sysenter (t : Tracee) : bool := status t =? 0.
Definition chaining (t : Tracee) : bool := match syscalls (chained t) with None => false | Some _ => true end.
Definition workaround_is (w : WorkaroundState) (t : Tracee) : bool := bool_decide (sysnum_workaround_state (chained t) = w).

(** What the kernel and the rest of PRoot answer during an event: the registers
    of the tracee, the requests of push_specific_regs(), the handlers of the
    stages with the status they return, PTRACE_SETOPTIONS with and without
    TRACESECCOMP, the version that uname(2) reports, PTRACE_GETEVENTMSG,
    PTRACE_GETSIGINFO (code and system call), the system calls the extensions
    filter, the children (new_child(), resolve_pending_child(),
    adopt_held_children(), all on the tracee of the event),
    handle_seccomp_event_common(), and restarting the tracee. *)
Record Answers := mkAnswers {
  a_regs : option Bank;
  a_push : PtraceRequest -> option Z;
  a_enter : Tracee -> Tracee * Z;
  a_chained_enter : Tracee -> Tracee * Z;
  a_exit : Tracee -> Tracee;
  a_chained_exit : Tracee -> Tracee;
  a_setoptions : bool * bool;
  a_uname : option (Z * Z);
  a_eventmsg : option Z;
  a_siginfo : Z * Z;
  a_extensions : Extensions;
  a_new_child : Tracee -> Tracee;
  a_resolve_child : Tracee -> Tracee;
  a_adopt_children : Tracee -> Tracee;
  a_seccomp_event : Tracee -> Tracee * Z;
  a_restart : Request -> Z -> bool
}.

(** The static variables of event.c; [after_ptrace_enter] is None before its
    initialisation. *)
Record Globals := mkGlobals {
  seccomp_after_ptrace_enter : option bool;
  seccomp_detected : bool;
  seccomp_ptrace_event_supported : bool;
  eventmsg_state : EventMsg;
  last_exit_status : Z
}.
Definition set_after b g := mkGlobals (Some b) (seccomp_detected g) (seccomp_ptrace_event_supported g) (eventmsg_state g) (last_exit_status g).
Definition set_detected g := mkGlobals (seccomp_after_ptrace_enter g) true (seccomp_ptrace_event_supported g) (eventmsg_state g) (last_exit_status g).
Definition set_supported b g := mkGlobals (seccomp_after_ptrace_enter g) (seccomp_detected g) b (eventmsg_state g) (last_exit_status g).
Definition set_eventmsg m g := mkGlobals (seccomp_after_ptrace_enter g) (seccomp_detected g) (seccomp_ptrace_event_supported g) m (last_exit_status g).
Definition set_exit_status x g := mkGlobals (seccomp_after_ptrace_enter g) (seccomp_detected g) (seccomp_ptrace_event_supported g) (eventmsg_state g) x.
Definition after (g : Globals) : bool := default false (seccomp_after_ptrace_enter g).

(** ** translate_syscall() *)

Definition SYSTRAP_SIZE := 4.
Definition fetch_regs (a : Answers) (t : Tracee) : option Tracee :=
  match a_regs a with Some b => Some (on_regs (fun g => set_bank g CURRENT b) t) | None => None end.
Definition push (a : Answers) (including_sysnum : bool) (t : Tracee) : Tracee * res unit :=
  let '(_, g, r) := push_specific_regs (a_push a) (ev_regs t) including_sysnum in (set_ev_regs g t, r).

Definition avoider (t : Tracee) : Z := if is_32on64_mode (ev_regs t) then Z.land SYSCALL_AVOIDER 0xFFFFFFFF else SYSCALL_AVOIDER.
Definition is_voided_syscall (t : Tracee) (version : RegVersion) : bool :=
  (peek t version SYSARG_NUM =? avoider t) && negb (peek t ORIGINAL SYSARG_NUM =? avoider t).

(** chain_next_syscall() of a tracee. *)
Definition next_chained (t : Tracee) : res Tracee :=
  let c := chained t in
  let! c := chain_next_syscall (mkChain (c_regs c) (syscalls c) (force_final_result c) (final_result c)
                                  (sysnum_workaround_state c) false) in
  Ok (set_restart (if restart_syscall c then Some PTRACE_SYSCALL else restart_how t) (set_chained c t)).

(** The number of the system call could not be changed: it is made to fail. *)
Definition invalidate_syscall (a : Answers) (suppressed : Z) (t : Tracee) : res Tracee :=
  let current := peek t CURRENT SYSARG_NUM in
  if peek t ORIGINAL SYSARG_NUM =? current then Ok t
  else
    let! t := if negb (current =? SYSCALL_AVOIDER)
              then let! c := restart_current_syscall_as_chained (chained t) in Ok (set_chained c t)
              else if negb (suppressed =? 0) then Ok (set_restart (Some PTRACE_SYSCALL) (set_status suppressed t)) else Ok t in
    let t := fold_left (fun t r => poke r (2 ^ 64 - 1) t) sysarg_regs t in
    let! sysnum := get_sysnum (ev_regs t) ORIGINAL in
    let t := if sysnum =? PR_brk then poke SYSARG_1 0 t else t in
    Ok (fst (push a false t)).

(** The registers are written back at the end of a stage. *)
Definition finish_stage (a : Answers) (is_enter_stage : bool) (suppressed : Z) (t : Tracee) : res Tracee :=
  let override_sysnum := is_enter_stage && negb (chaining t) in
  let '(t, pushed) := push a override_sysnum t in
  let failed := match pushed with Ok _ => false | _ => true end in
  let! t := if failed && override_sysnum then invalidate_syscall a suppressed t else Ok t in
  Ok (if is_enter_stage
      then set_voided (override_sysnum && negb failed && is_voided_syscall t CURRENT) t else t).

(** The handlers of the entry; the status is 0 when nothing sets it. *)
Definition call_enter (a : Answers) (t : Tracee) : Tracee * Z :=
  if negb (chaining t) then
    let '(t, status) := a_enter a (on_regs (fun g => save_current_regs g ORIGINAL) t) in
    (on_regs (fun g => save_current_regs g MODIFIED) t, status)
  else
    let '(t, status) := if workaround_is SYSNUM_WORKAROUND_PROCESS_REPLACED_CALL t then (t, 0) else a_chained_enter a t in
    (set_restart (Some PTRACE_SYSCALL) t, status).

(** The system call is avoided when its translation fails. *)
Definition set_outcome (st : Z) (t : Tracee) : res Tracee :=
  if st <? 0 then
    let! g := set_sysnum (ev_regs t) PR_void in
    Ok (set_status st (poke SYSARG_RESULT (wrap64 st) (set_ev_regs g t)))
  else Ok (set_status 1 t).

Definition enter_stage (a : Answers) (t : Tracee) : res Tracee :=
  let t := on_regs (fun g => set_restore g false) (set_voided false t) in
  if pokedata_relaunched t
  then Ok (set_restart (Some PTRACE_SYSCALL) (set_status 1 (set_relaunched false t)))
  else
    let '(t, st) := call_enter a t in
    let! t := set_outcome st t in
    if pokedata_cancelled t then
      let t := set_status 0 (set_restart (Some PTRACE_SYSCALL) (set_relaunched true (set_cancelled false t))) in
      let t := poke INSTR_POINTER (wrap64 (peek t CURRENT INSTR_POINTER - SYSTRAP_SIZE)) t in
      Ok (fst (push a false t))
    else if bool_decide (restart_how t = Some PTRACE_CONT)
    then finish_stage a true (status t) (poke STACK_POINTER (peek t ORIGINAL STACK_POINTER) (set_status 0 t))
    else finish_stage a true 0 t.

Definition call_exit (a : Answers) (t : Tracee) : Tracee :=
  if negb (chaining t) || workaround_is SYSNUM_WORKAROUND_PROCESS_REPLACED_CALL t
  then a_exit a (set_workaround SYSNUM_WORKAROUND_INACTIVE t)
  else if workaround_is SYSNUM_WORKAROUND_PROCESS_FAULTY_CALL t
  then set_workaround SYSNUM_WORKAROUND_PROCESS_REPLACED_CALL t
  else a_chained_exit a t.

Definition exit_stage (a : Answers) (t : Tracee) : res Tracee :=
  let t := on_regs (fun g => set_restore g true) t in
  if pokedata_relaunched t then Ok t
  else
    let t := set_cancelled false (set_status 0 (call_exit a t)) in
    let! t := if chaining t then next_chained t else Ok t in
    finish_stage a false 0 t.

Definition translate_syscall (a : Answers) (t : Tracee) : res Tracee :=
  check! has_exe t else AssertFailed in
  match fetch_regs a t with
  | None => Ok t
  | Some t' => if is_in_sysenter t then enter_stage a t' else exit_stage a t'
  end.

(** ** handle_tracee_event() *)

Definition WIFEXITED (w : Z) : bool := Z.land w 0x7f =? 0.
Definition WEXITSTATUS (w : Z) : Z := Z.shiftr (Z.land w 0xff00) 8.
Definition WIFSIGNALED (w : Z) : bool := negb (WIFEXITED w) && negb (Z.land w 0x7f =? 0x7f).
Definition WIFSTOPPED (w : Z) : bool := Z.land w 0xff =? 0x7f.
Definition stop_signal (w : Z) : Z := Z.shiftr (Z.land w 0xfff00) 8.

Definition sysexit_necessary (t : Tracee) : bool :=
  sysexit_pending t || chaining t || restore_original_regs_after_seccomp_event (ev_regs t).

(** How the tracee is restarted unless something else is decided. *)
Definition default_restart (t : Tracee) : Tracee :=
  match restart_how t with
  | Some _ => t
  | None => set_restart (Some (if bool_decide (seccomp t = ENABLED) && negb (sysexit_necessary t) then PTRACE_CONT else PTRACE_SYSCALL)) t
  end.

(** The result of an event: the static variables, the tracee and the signal; an
    error is the status PRoot exits with. *)
Definition Outcome : Type := res (Globals * Tracee * Z).

Definition kernel_supports_ptrace_event_seccomp (a : Answers) : bool :=
  match a_uname a with None => true | Some (major, minor) => (3 <? major) || (major =? 3) && (5 <=? minor) end.

Definition set_ptrace_options (a : Answers) (g : Globals) (t : Tracee) : res (Globals * Tracee) :=
  let t := set_options true t in
  if fst (a_setoptions a) then Ok (set_supported (kernel_supports_ptrace_event_seccomp a) g, t)
  else if snd (a_setoptions a) then Ok (set_supported false g, t)
  else Err 1.

(** The stage of a system call, for a tracee that does not have seccomp being
    disabled. *)
Definition syscall_stage (a : Answers) (g : Globals) (t : Tracee) : Outcome :=
  let! (t, signal) :=
    if negb (seccomp_already_handled_enter t) then
      let was_sysenter := is_in_sysenter t in
      let! t := translate_syscall a t in
      let t := if negb was_sysenter && pending_child t then a_resolve_child a t else t in
      let! t := if was_sysenter then let! n := get_sysnum (ev_regs t) CURRENT in Ok (set_skip (n =? PR_void) t)
                else Ok (set_skip false t) in
      Ok (if negb (suppressed_signal t =? 0) && negb (chaining t) && negb (restore_original_regs_after_seccomp_event (ev_regs t))
          then (set_suppressed 0 t, suppressed_signal t) else (t, 0))
    else
      check! negb (is_in_sysenter t) else AssertFailed in
      check! negb (after g) else AssertFailed in
      Ok (set_restart (Some PTRACE_SYSCALL) (set_already false t), 0) in
  let t := if bool_decide (seccomp t = DISABLING) then set_seccomp DISABLED (set_restart (Some PTRACE_SYSCALL) t) else t in
  Ok (g, t, signal).

(** SIGTRAP | 0x80 of a tracee that is not freed. *)
Definition syscall_event (a : Answers) (g : Globals) (t : Tracee) : Outcome :=
  match seccomp t with
  | ENABLED =>
      syscall_stage a g
        (if is_in_sysenter t then set_sysexit true (set_restart (Some PTRACE_SYSCALL) t)
         else set_sysexit false (set_restart (Some PTRACE_CONT) t))
  | DISABLED => syscall_stage a g t
  | DISABLING =>
      let t := set_seccomp DISABLED t in
      Ok (g, if is_in_sysenter t then set_status 1 t else t, 0)
  end.

(** The flags of the filter for the system call, and what is known of the
    messages of the kernel. *)
Definition filter_flags (a : Answers) (g : Globals) (t : Tracee) (flags : Z) : res (Globals * Tracee * Z) :=
  if bool_decide (eventmsg_state g = EVENTMSG_RELIABLE) then Ok (g, t, flags)
  else match fetch_regs a t with
       | None => Ok (g, t, flags)
       | Some t =>
           let! sysnum := get_sysnum (ev_regs t) CURRENT in
           let expected := filtered_sysnum_flags (a_extensions a) sysnum in
           let g := if bool_decide (eventmsg_state g = EVENTMSG_UNKNOWN) && negb (Z.land expected FILTER_SYSEXIT =? 0)
                    then set_eventmsg (if negb (Z.land flags FILTER_SYSEXIT =? 0) then EVENTMSG_RELIABLE else EVENTMSG_LOST) g
                    else g in
           Ok (g, t, if bool_decide (eventmsg_state g = EVENTMSG_RELIABLE) then flags else Z.lor flags expected)
       end.

(** The entry of a system call the filter selects; [necessary] was computed at
    the beginning of the event. *)
Definition seccomp_enter (a : Answers) (necessary : bool) (g : Globals) (t : Tracee) (flags : Z) : Outcome :=
  let! (g, t, flags) := filter_flags a g t flags in
  if negb (Z.land flags FILTER_SYSEXIT =? 0) || necessary then
    let! t := if after g then translate_syscall a (set_restart (Some PTRACE_SYSCALL) t) else Ok t in
    Ok (g, set_restart (Some PTRACE_SYSCALL) t, 0)
  else
    let! t := translate_syscall a (set_restart (Some PTRACE_CONT) t) in
    let t := if sysexit_pending t then set_restart (Some PTRACE_SYSCALL) t else t in
    let t := if bool_decide (seccomp t = DISABLING) then set_restart (Some PTRACE_SYSCALL) t else t in
    let t := if negb (after g) && bool_decide (restart_how t = Some PTRACE_SYSCALL) && negb (voided_syscall_cancelled t)
             then set_already true t else t in
    Ok (g, t, 0).

(** SIGTRAP | PTRACE_EVENT_SECCOMP << 8 *)
Definition seccomp_event (a : Answers) (necessary : bool) (g : Globals) (t : Tracee) : Outcome :=
  let t := if voided_syscall_cancelled t then set_already false t else t in
  let '(g, t) := if seccomp_detected g then (g, t)
                 else (set_after (negb (is_in_sysenter t)) (set_detected g), set_seccomp ENABLED t) in
  let t := set_skip false t in
  if after g && negb (is_in_sysenter t) then
    let t := set_restart (last_restart_how t) t in
    check! negb (bool_decide (restart_how t = Some PTRACE_CONT)) else AssertFailed in
    Ok (g, t, 0)
  else
    check! is_in_sysenter t else AssertFailed in
    if negb (bool_decide (seccomp t = ENABLED)) then Ok (g, t, 0)
    else match a_eventmsg a with
         | None => Ok (g, t, 0)
         | Some flags => seccomp_enter a necessary g t flags
         end.

(** handle_seccomp_event() *)
Definition handle_seccomp_event (a : Answers) (t : Tracee) : res (Tracee * Z) :=
  let t := on_regs (fun g => set_restore g false) (set_status 0 t) in
  match fetch_regs a t with
  | None => Ok (set_sysarg1 false t, SIGSYS)
  | Some t =>
      let! t := if restore_sysarg1_after_sigsys t then
                  let! original := get_sysnum (ev_regs t) ORIGINAL in
                  let! current := get_sysnum (ev_regs t) CURRENT in
                  Ok (if original =? current then poke SYSARG_1 (peek t ORIGINAL SYSARG_1) t else t)
                else Ok t in
      Ok (a_seccomp_event a (on_regs (fun g => save_current_regs g ORIGINAL_SECCOMP_REWRITE) (set_sysarg1 false t)))
  end.

(** SIGSYS *)
Definition sigsys_event (a : Answers) (g : Globals) (t : Tracee) : Outcome :=
  let '(code, syscall) := a_siginfo a in
  if negb (code =? SYS_SECCOMP) then Ok (g, t, SIGSYS)
  else
    let t := set_already false t in
    let! t := if is_in_sysenter t then Ok t else let! t := translate_syscall a t in Ok (set_sysarg1 true t) in
    if skip_next_seccomp_signal t || (syscall =? -1)
    then Ok (g, set_sysarg1 false (set_skip false t), 0)
    else let! (t, signal) := handle_seccomp_event a t in Ok (g, t, signal).

(** SIGTRAP | 0x80, and the first bare SIGTRAP; [None] returns at once. *)
Definition trap_event (a : Answers) (g : Globals) (t : Tracee) : option Outcome :=
  if negb (has_exe t) then None else Some (syscall_event a g t).

(** What a stop does, for a tracee with its default restart; the last component
    of the result is false when the function returns at once. *)
Definition stop_event (a : Answers) (necessary : bool) (g : Globals) (t : Tracee) (signal : Z) : res (Globals * Tracee * Z * bool) :=
  let ok (o : Outcome) := let! (g, t, s) := o in Ok (g, t, s, true) in
  let trap g t := match trap_event a g t with None => Ok (g, set_restart (Some PTRACE_CONT) t, 0, false) | Some o => ok o end in
  if signal =? SIGTRAP then
    if ptrace_options_set t then Ok (g, t, SIGTRAP, true)
    else let! (g, t) := set_ptrace_options a g t in trap g t
  else if signal =? Z.lor SIGTRAP 0x80 then trap g t
  else if (signal =? Z.lor SIGTRAP (PTRACE_EVENT_SECCOMP * 256)) || (signal =? Z.lor SIGTRAP (PTRACE_EVENT_SECCOMP2 * 256))
  then ok (seccomp_event a necessary g t)
  else if (signal =? Z.lor SIGTRAP (PTRACE_EVENT_VFORK * 256)) || (signal =? Z.lor SIGTRAP (PTRACE_EVENT_FORK * 256))
          || (signal =? Z.lor SIGTRAP (PTRACE_EVENT_CLONE * 256))
  then Ok (g, a_new_child a t, 0, true)
  else if (signal =? Z.lor SIGTRAP (PTRACE_EVENT_VFORK_DONE * 256)) || (signal =? Z.lor SIGTRAP (PTRACE_EVENT_EXEC * 256))
          || (signal =? Z.lor SIGTRAP (PTRACE_EVENT_EXIT * 256))
  then Ok (g, match last_restart_how t with Some h => set_restart (Some h) t | None => t end, 0, true)
  else if signal =? SIGSTOP then
    let '(t, signal) := if negb (has_exe t) then (a_adopt_children a (set_sigstop SIGSTOP_PENDING t), -1) else (t, signal) in
    Ok (if bool_decide (sigstop t = SIGSTOP_IGNORED) then (g, set_sigstop SIGSTOP_ALLOWED t, 0, true) else (g, t, signal, true))
  else if signal =? SIGSYS then ok (sigsys_event a g t)
  else if chaining t || restore_original_regs_after_seccomp_event (ev_regs t)
  then Ok (g, set_suppressed signal t, 0, true)
  else Ok (g, t, signal, true).

(** [assume_new]: PROOT_ASSUME_NEW_SECCOMP is in the environment. *)
Definition handle_tracee_event (assume_new : bool) (a : Answers) (g : Globals) (t : Tracee) (w : Z) : Outcome :=
  let g := match seccomp_after_ptrace_enter g with None => set_after assume_new g | Some _ => g end in
  let necessary := sysexit_necessary t in
  let t := default_restart t in
  let! (g, t, signal, goes_on) :=
    if WIFEXITED w then Ok (set_exit_status (WEXITSTATUS w) g, set_terminated true t, 0, true)
    else if WIFSIGNALED w then Ok (g, set_terminated true t, 0, true)
    else if WIFSTOPPED w then stop_event a necessary g t (stop_signal w)
    else Ok (g, t, 0, true) in
  Ok (g, if goes_on then set_event false t else t, signal).

(** restart_tracee() *)
Definition restart_tracee (a : Answers) (t : Tracee) (signal : Z) : res (Tracee * bool) :=
  if negb (wait_pid t =? 0) || (signal =? -1) then Ok (t, false)
  else match restart_how t with
       | None => Stuck AssertFailed
       | Some how =>
           if a_restart a how signal
           then Ok (set_running true (set_restart None (set_last (Some how) t)), true) else Ok (t, false)
       end.

(** One iteration of event_loop(), in normal mode, for the tracee that waitpid(2)
    reports: [notify] is the notification NEW_STATUS, [ptracee] is
    handle_ptracee_event() when the tracee has an emulated tracer. *)
Definition event_loop_step (assume_new : bool) (a : Answers) (notify : Tracee -> Tracee * Z) (ptracee : option (Tracee -> Tracee * bool))
    (g : Globals) (t : Tracee) (w : Z) : res (Globals * Tracee) :=
  let '(t, status) := notify (set_running false t) in
  if negb (status =? 0) then Ok (g, t)
  else
    let '(t, keep_stopped) := match ptracee with None => (t, false) | Some f => f t end in
    if keep_stopped then Ok (g, t)
    else
      let! (g, t, signal) := handle_tracee_event assume_new a g t w in
      let! (t, _) := restart_tracee a t signal in
      Ok (g, t).

(** ** The kernel

    Where a tracee is when it stops: in its own code, at the entry of a system
    call, at the stop of the filter, inside the system call (a fork, an exec, ...),
    at its exit.  Since Linux 4.8 the filter runs after the entry stop. *)

Inductive Order := Old | New.
Inductive Phase := PUser | PEnter | PSeccomp | PInside | PExit.

#[export] Instance Order_eq_dec : EqDecision Order.
Proof. solve_decision. Defined.

Section Kernel.

Variable order : Order.

(** The next stop of a tracee that runs its own code. *)
Inductive user_next (how : Request) : Phase -> Prop :=
  | user_signal : user_next how PUser
  | user_enter : how = PTRACE_SYSCALL -> user_next how PEnter
  | user_seccomp : order = Old \/ how = PTRACE_CONT -> user_next how PSeccomp
  | user_inside : how = PTRACE_CONT -> user_next how PInside.

(** The next stop of a tracee inside a system call. *)
Inductive inside_next (how : Request) : Phase -> Prop :=
  | inside_event : inside_next how PInside
  | inside_exit : how = PTRACE_SYSCALL -> inside_next how PExit
  | inside_user ph : how = PTRACE_CONT -> user_next how ph -> inside_next how ph.

(** The next stop of a tracee restarted at a stop; the system call is cancelled
    when its number is made invalid at the stop of the filter. *)
Inductive next (how : Request) (cancelled : bool) : Phase -> Phase -> Prop :=
  | next_user ph ph' : ph = PUser \/ ph = PExit -> user_next how ph' -> next how cancelled ph ph'
  | next_enter ph' : inside_next how ph' -> next how cancelled PEnter ph'
  | next_filter : order = New -> next how cancelled PEnter PSeccomp
  | next_seccomp ph' : order = New \/ how = PTRACE_CONT \/ cancelled = true -> inside_next how ph' -> next how cancelled PSeccomp ph'
  | next_seccomp_enter : order = Old -> how = PTRACE_SYSCALL -> cancelled = false -> next how cancelled PSeccomp PEnter
  | next_inside ph' : inside_next how ph' -> next how cancelled PInside ph'.

(** The status that waitpid(2) gives at a stop; without TRACESYSGOOD the stops of
    system calls look like signals.  A fork is reported while PRoot still knows
    that an exit is awaited, which it does not on the kernels of
    [fork_forgets_exit]. *)
Definition stopcode (signal : Z) : Z := Z.lor (Z.shiftl signal 8) 0x7f.

Inductive reports (t : Tracee) : Phase -> Z -> Prop :=
  | reports_enter : reports t PEnter (stopcode (if ptrace_options_set t then 0x85 else SIGTRAP))
  | reports_exit : reports t PExit (stopcode (if ptrace_options_set t then 0x85 else SIGTRAP))
  | reports_seccomp e : e = PTRACE_EVENT_SECCOMP \/ e = PTRACE_EVENT_SECCOMP2 -> reports t PSeccomp (stopcode (Z.lor SIGTRAP (e * 256)))
  | reports_fork e : e = PTRACE_EVENT_FORK \/ e = PTRACE_EVENT_VFORK \/ e = PTRACE_EVENT_CLONE ->
      is_in_sysenter t = true \/ seccomp t <> ENABLED \/ sysexit_necessary t = true -> reports t PInside (stopcode (Z.lor SIGTRAP (e * 256)))
  | reports_inside e : e = PTRACE_EVENT_EXEC \/ e = PTRACE_EVENT_VFORK_DONE \/ e = PTRACE_EVENT_EXIT ->
      reports t PInside (stopcode (Z.lor SIGTRAP (e * 256)))
  | reports_signal s : 0 < s < 65 -> s <> SIGSYS -> s <> SIGTRAP \/ ptrace_options_set t = true -> reports t PUser (stopcode s).

End Kernel.

(** ** No assertion fails *)

(** The outcome satisfies [P], or PRoot exits, or reads out of the tables of
    system calls (see [translate_sysnum_overrun]): no assertion fails. *)
Definition asserts {A} (P : A -> Prop) (m : res A) : Prop :=
  match m with Ok x => P x | Err _ => True | Stuck w => w = OutOfBounds end.

Lemma asserts_bind {A B} (P : A -> Prop) (Q : B -> Prop) (m : res A) (k : A -> res B) :
  asserts P m -> (forall x, P x -> asserts Q (k x)) -> asserts Q (res_bind m k).
Proof. destruct m; cbn; auto. Qed.

Lemma asserts_impl {A} (P Q : A -> Prop) (m : res A) : asserts P m -> (forall x, P x -> Q x) -> asserts Q m.
Proof. destruct m; cbn; auto. Qed.

Lemma get_sysnum_asserts g v : asserts (fun _ => True) (get_sysnum g v).
Proof.
  unfold get_sysnum, translate_sysnum, get_abi. destruct (is_aarch32 g); cbn -[Z.sub table_get table_offset table_count sysnums_arm64 sysnums_arm];
    repeat case_match; try done; unfold table_get; by case_match.
Qed.

(** ** What the handlers may do *)

(** The fields that only the event loop changes. *)
Record frame (t t' : Tracee) : Prop := mkFrame {
  fr_last : last_restart_how t' = last_restart_how t;
  fr_already : seccomp_already_handled_enter t' = seccomp_already_handled_enter t;
  fr_options : ptrace_options_set t' = ptrace_options_set t;
  fr_exe : has_exe t' = has_exe t;
  fr_suppressed : suppressed_signal t' = suppressed_signal t;
  fr_wait : wait_pid t' = wait_pid t;
  fr_relaunched : pokedata_relaunched t' = pokedata_relaunched t;
  fr_cancelled : pokedata_cancelled t' = pokedata_cancelled t;
  fr_workaround : sysnum_workaround_state (chained t') = sysnum_workaround_state (chained t);
  fr_rewrite : restore_original_regs_after_seccomp_event (ev_regs t') = restore_original_regs_after_seccomp_event (ev_regs t)
}.

#[export] Instance frame_preorder : PreOrder frame.
Proof. split; [by split|]. intros x y z [] []. split; congruence. Qed.

(** A handler may ask for the next stop of the system call; when it wants the
    exit, or chains system calls, it does ask. *)
Record polite (t t' : Tracee) : Prop := mkPolite {
  po_frame : frame t t';
  po_status : status t' = status t;
  po_restart : restart_how t' = restart_how t \/ restart_how t' = Some PTRACE_SYSCALL;
  po_pending : sysexit_pending t' = true -> sysexit_pending t = true \/ restart_how t' = Some PTRACE_SYSCALL
}.

(** Chaining from an entry needs the exit. *)
Definition chains_politely (t t' : Tracee) : Prop := chaining t' = true -> chaining t = true \/ restart_how t' = Some PTRACE_SYSCALL.

(** The kernel answers, the tracee being alive, and the handlers are polite; the
    emulation of ptrace(2) disables seccomp at the exit only. *)
Record answers_ok (a : Answers) : Prop := mkAnswersOk {
  ok_regs : is_Some (a_regs a);
  ok_push : forall r, a_push a r = None;
  ok_eventmsg : is_Some (a_eventmsg a);
  ok_restart : forall how s, a_restart a how s = true;
  ok_enter : forall t, let t' := fst (a_enter a t) in polite t t' /\ chains_politely t t' /\ seccomp t' = seccomp t;
  ok_chained_enter : forall t, let t' := fst (a_chained_enter a t) in polite t t' /\ chains_politely t t' /\ seccomp t' = seccomp t;
  ok_exit : forall t, polite t (a_exit a t) /\ (seccomp (a_exit a t) = seccomp t \/ seccomp t = ENABLED /\ seccomp (a_exit a t) = DISABLING);
  ok_chained_exit : forall t, polite t (a_chained_exit a t) /\ seccomp (a_chained_exit a t) = seccomp t;
  ok_children : forall f t, f = a_new_child a \/ f = a_resolve_child a ->
    polite t (f t) /\ restart_how (f t) = restart_how t /\ sysexit_pending (f t) = sysexit_pending t
    /\ chaining (f t) = chaining t /\ seccomp (f t) = seccomp t
}.

Lemma restore_all_rewrite v g :
  restore_original_regs_after_seccomp_event (restore_all v g) = restore_original_regs_after_seccomp_event g.
Proof.
  assert (R : forall r g, restore_original_regs_after_seccomp_event (RESTORE v r g) = restore_original_regs_after_seccomp_event g)
    by (intros r g'; unfold RESTORE; by case_match).
  unfold restore_all. generalize restored_regs. intros l. revert g. induction l as [|r l IH]; intros g; [done|]. cbn [fold_left]. by rewrite IH, R.
Qed.

Lemma push_ok a b t : answers_ok a -> restore_original_regs_after_seccomp_event (ev_regs t) = false ->
  exists g, push a b t = (set_ev_regs g t, Ok tt) /\ restore_original_regs_after_seccomp_event g = false.
Proof.
  intros H Hr. unfold push, push_specific_regs. rewrite Hr, andb_false_r, orb_false_r.
  destruct (regs_were_changed (ev_regs t)); [|by eexists].
  cbv zeta. destruct (restore_original_regs (ev_regs t)), (b && _); rewrite ?(ok_push a H); eexists; (split; [done|]); by rewrite ?restore_all_rewrite.
Qed.

(** Nothing but the registers changed. *)
Record same_flow (t t' : Tracee) : Prop := mkSameFlow {
  sf_frame : frame t t';
  sf_status : status t' = status t;
  sf_restart : restart_how t' = restart_how t;
  sf_pending : sysexit_pending t' = sysexit_pending t;
  sf_chain : chaining t' = chaining t;
  sf_seccomp : seccomp t' = seccomp t
}.

#[export] Instance same_flow_preorder : PreOrder same_flow.
Proof. split; [by split|]. intros x y z [] []. split; try congruence. by etrans. Qed.

Definition rewriting (t : Tracee) : bool := restore_original_regs_after_seccomp_event (ev_regs t).

Lemma set_regs_flow g t : restore_original_regs_after_seccomp_event g = rewriting t -> same_flow t (set_ev_regs g t).
Proof. by repeat split. Qed.

Lemma poke_flow r v t : same_flow t (poke r v t).
Proof. apply set_regs_flow. unfold poke_reg. by case_match. Qed.

Lemma set_voided_flow b t : same_flow t (set_voided b t).
Proof. by repeat split. Qed.
#[export] Hint Resolve poke_flow set_voided_flow : proot.

Lemma finish_stage_ok a e s t : answers_ok a -> rewriting t = false -> exists t', finish_stage a e s t = Ok t' /\ same_flow t t'.
Proof.
  intros H Hr. unfold finish_stage. destruct (push_ok a (e && negb (chaining t)) t H Hr) as (g & -> & Hg). cbn [andb negb res_bind].
  assert (F : same_flow t (set_ev_regs g t)) by (apply set_regs_flow; by rewrite Hr).
  eexists. split; [done|]. destruct e; [|done]. etrans; [exact F|]. auto with proot.
Qed.

(** A tracee whose memory is written without the workaround, and whose system
    calls no outer policy rejects. *)
Record calm (t : Tracee) : Prop := mkCalm {
  ca_exe : has_exe t = true;
  ca_relaunched : pokedata_relaunched t = false;
  ca_cancelled : pokedata_cancelled t = false;
  ca_workaround : sysnum_workaround_state (chained t) = SYSNUM_WORKAROUND_INACTIVE;
  ca_rewrite : rewriting t = false;
  ca_suppressed : 0 <= suppressed_signal t
}.

Lemma calm_frame t t' : frame t t' -> calm t -> calm t'.
Proof. intros [] []. split; try (unfold rewriting in *; congruence). Qed.

(** What the entry decides: the exit is asked for and awaited, or nothing more is
    known of the system call. *)
Definition entered (t t' : Tracee) : Prop :=
  frame t t' /\ seccomp t' = seccomp t
  /\ (restart_how t' = Some PTRACE_SYSCALL /\ is_in_sysenter t' = false
      \/ restart_how t = Some PTRACE_CONT /\ restart_how t' = Some PTRACE_CONT /\ is_in_sysenter t' = true
         /\ (sysexit_pending t' = true -> sysexit_pending t = true) /\ (chaining t' = true -> chaining t = true)).

Definition exited (t t' : Tracee) : Prop :=
  frame t t' /\ is_in_sysenter t' = true
  /\ (restart_how t' = restart_how t \/ restart_how t' = Some PTRACE_SYSCALL)
  /\ (sysexit_pending t' = true -> sysexit_pending t = true \/ restart_how t' = Some PTRACE_SYSCALL)
  /\ (chaining t' = true -> restart_how t' = Some PTRACE_SYSCALL)
  /\ (seccomp t' = seccomp t \/ seccomp t = ENABLED /\ seccomp t' = DISABLING).

Lemma set_outcome_ok st t : rewriting t = false -> exists t', set_outcome st t = Ok t' /\ frame t t' /\ is_in_sysenter t' = false
  /\ restart_how t' = restart_how t /\ sysexit_pending t' = sysexit_pending t /\ chaining t' = chaining t /\ seccomp t' = seccomp t.
Proof.
  intros Hr. unfold set_outcome. destruct (Z.ltb_spec st 0) as [Hst|Hst].
  - unfold set_sysnum, detranslate_sysnum. cbn [Z.eqb PR_void res_bind]. set (g := poke_reg _ _ _).
    change (PR_void =? PR_void) with true. cbn [res_bind]. eexists. split; [done|].
    assert (F : same_flow t (poke SYSARG_RESULT (wrap64 st) (set_ev_regs g t))).
    { etrans; [apply (set_regs_flow g)|auto with proot]. subst g. unfold poke_reg. by case_match. }
    destruct F as [F1 F2 F3 F4 F5 F6]. split; [by destruct F1|]. split; [apply Z.eqb_neq; cbn; lia|done].
  - eexists. split; [done|]. by repeat split.
Qed.

Lemma call_enter_ok a t : answers_ok a -> let t' := fst (call_enter a t) in
  frame t t' /\ seccomp t' = seccomp t /\ (restart_how t' = restart_how t \/ restart_how t' = Some PTRACE_SYSCALL)
  /\ (restart_how t' = Some PTRACE_SYSCALL \/ (sysexit_pending t' = true -> sysexit_pending t = true) /\ (chaining t' = true -> chaining t = true)).
Proof.
  intros H. cbv zeta. unfold call_enter. destruct (chaining t) eqn:Ec; cbn [negb].
  - destruct (workaround_is _ _); [by split_and!; [repeat split| |right|left]|].
    destruct (ok_chained_enter a H t) as (P & _ & S). destruct (a_chained_enter a t) as [t1 st]. cbn [fst] in *.
    split_and!; [by destruct P as [[]]|done|by right|by left].
  - set (t0 := on_regs _ t). assert (F0 : same_flow t t0) by (apply set_regs_flow; done).
    destruct (ok_enter a H t0) as ([P1 P2 P3 P4] & C & S). destruct (a_enter a t0) as [t1 st]. cbn [fst] in *.
    set (t2 := on_regs _ t1). assert (F2 : same_flow t1 t2) by (apply set_regs_flow; done).
    destruct F0 as [A1 A2 A3 A4 A5 A6], F2 as [B1 B2 B3 B4 B5 B6]. split_and!.
    + do 2 (etrans; [eassumption|]). done.
    + congruence.
    + rewrite B3, <- A3. done.
    + rewrite B3, B4, B5. destruct P3 as [P3|P3]; [|by left]. destruct (decide (restart_how t1 = Some PTRACE_SYSCALL)); [by left|]. right. split.
      * intros Hp. apply P4 in Hp as [Hp|Hp]; [congruence|done].
      * intros Hp. apply C in Hp as [Hp|Hp]; [congruence|done].
Qed.

Lemma enter_spec a t : answers_ok a -> calm t -> is_in_sysenter t = true ->
  restart_how t = Some PTRACE_CONT \/ restart_how t = Some PTRACE_SYSCALL ->
  asserts (entered t) (translate_syscall a t).
Proof.
  intros H C E R. unfold translate_syscall. rewrite (ca_exe t C). unfold fetch_regs. destruct (ok_regs a H) as [b ->]. rewrite E.
  set (t0 := on_regs _ t). assert (F0 : same_flow t t0) by (apply set_regs_flow; done). unfold enter_stage.
  set (t1 := on_regs _ _). assert (F1 : same_flow t t1) by (etrans; [exact F0|]; etrans; [apply (set_voided_flow false)|apply set_regs_flow; done]).
  pose proof (calm_frame _ _ (sf_frame _ _ F1) C) as C1. rewrite (ca_relaunched t1 C1).
  destruct (call_enter_ok a t1 H) as (K1 & K2 & K3 & K4). destruct (call_enter a t1) as [t2 st]. cbn [fst] in *.
  pose proof (calm_frame _ _ K1 C1) as C2. destruct (set_outcome_ok st t2 (ca_rewrite t2 C2)) as (t3 & -> & O1 & O2 & O3 & O4 & O5 & O6).
  cbn [res_bind]. pose proof (calm_frame _ _ O1 C2) as C3. rewrite (ca_cancelled t3 C3).
  assert (F : frame t t3) by (etrans; [exact (sf_frame _ _ F1)|]; by etrans). pose proof (sf_restart _ _ F1) as R1. pose proof (sf_pending _ _ F1) as P1.
  pose proof (sf_chain _ _ F1) as Ch1. pose proof (sf_seccomp _ _ F1) as S1.
  case_bool_decide as Hc.
  - set (t4 := poke _ _ _). assert (F4 : same_flow (set_status 0 t3) t4) by apply poke_flow.
    assert (C4 : calm t4) by (apply (calm_frame t3); [by destruct F4 as [[]]|done]).
    destruct (finish_stage_ok a true (status t3) t4 H (ca_rewrite t4 C4)) as (t5 & -> & F5). destruct F4 as [A1 A2 A3 A4 A5 A6], F5 as [B1 B2 B3 B4 B5 B6].
    change (restart_how t4 = restart_how t3) in A3. change (sysexit_pending t4 = sysexit_pending t3) in A4.
    change (chaining t4 = chaining t3) in A5. change (seccomp t4 = seccomp t3) in A6. change (status t4 = 0) in A2.
    split; [etrans; [exact F|]; etrans; [|exact B1]; by destruct A1|]. split; [congruence|]. right.
    assert (Hr : restart_how t2 <> Some PTRACE_SYSCALL) by congruence. destruct K4 as [?|[K4 K5]]; [done|]. split_and!.
    + destruct K3 as [K3|K3]; [|done]. congruence.
    + congruence.
    + unfold is_in_sysenter. by rewrite B2, A2.
    + intros Hp. rewrite <- P1. apply K4. congruence.
    + intros Hp. rewrite <- Ch1. apply K5. congruence.
  - destruct (finish_stage_ok a true 0 t3 H (ca_rewrite t3 C3)) as (t5 & -> & [B1 B2 B3 B4 B5 B6]). split; [by etrans|]. split; [congruence|]. left.
    split; [|unfold is_in_sysenter; by rewrite B2]. rewrite B3, O3. destruct K3 as [K3|K3]; [|done]. rewrite K3, R1. destruct R as [R|R]; [|done].
    exfalso. apply Hc. congruence.
Qed.

Lemma call_exit_ok a t : answers_ok a -> calm t -> let t' := call_exit a t in
  polite t t' /\ (seccomp t' = seccomp t \/ seccomp t = ENABLED /\ seccomp t' = DISABLING).
Proof.
  intros H C. cbv zeta. unfold call_exit, workaround_is. rewrite (ca_workaround t C).
  change (bool_decide (SYSNUM_WORKAROUND_INACTIVE = SYSNUM_WORKAROUND_PROCESS_REPLACED_CALL)) with false.
  change (bool_decide (SYSNUM_WORKAROUND_INACTIVE = SYSNUM_WORKAROUND_PROCESS_FAULTY_CALL)) with false.
  rewrite orb_false_r. destruct (negb (chaining t)) eqn:Ec.
  - set (t0 := set_workaround _ t). destruct (ok_exit a H t0) as [[P1 P2 P3 P4] S].
    assert (F : frame t t0) by (split; try done; symmetry; apply (ca_workaround t C)). split; [|exact S].
    split; [by etrans|exact P2|exact P3|exact P4].
  - destruct (ok_chained_exit a H t) as [P S]. split; [done|by left].
Qed.

(** What a chained system call needs is asked for. *)
Lemma next_chained_ok t : chaining t = true -> asserts (fun t' => frame t t' /\ status t' = status t
  /\ (restart_how t' = restart_how t \/ restart_how t' = Some PTRACE_SYSCALL) /\ sysexit_pending t' = sysexit_pending t
  /\ (chaining t' = true -> restart_how t' = Some PTRACE_SYSCALL) /\ seccomp t' = seccomp t) (next_chained t).
Proof.
  intros Hc. unfold next_chained, chain_next_syscall. cbn [syscalls]. unfold chaining in Hc.
  destruct (syscalls (chained t)) as [[|c l]|] eqn:E; [| |done].
  - cbn [res_bind force_final_result c_regs restart_syscall final_result sysnum_workaround_state asserts].
    split_and!; try done; [|by left]. split; try done. cbn. case_match; [|done]. unfold poke_reg. by case_match.
  - cbn [force_final_result c_regs restart_syscall final_result sysnum_workaround_state].
    set (g := poke_args _ _). assert (Hd : exists n, detranslate_sysnum (get_abi g) (c_sysnum c) = Ok n).
    { unfold detranslate_sysnum, get_abi. case_bool; [by eexists|]. destruct (is_aarch32 g); cbn [get_sysnums res_bind]; case_match; by eexists. }
    destruct Hd as [n ->]. cbn [res_bind asserts]. split_and!; try done; [|by right]. split; try done.
    assert (P : forall g r v, restore_original_regs_after_seccomp_event (poke_reg g r v) = restore_original_regs_after_seccomp_event g).
    { intros. unfold poke_reg. by case_match. }
    cbn [ev_regs chained set_restart set_chained c_regs]. rewrite !P. subst g.
    generalize (zip sysarg_regs (sysargs c)). intros args. change (restore_original_regs_after_seccomp_event (ev_regs t))
      with (restore_original_regs_after_seccomp_event (set_restore (c_regs (chained t)) false)).
    generalize (set_restore (c_regs (chained t)) false). induction args as [|[r v] args IH]; intros g; [done|]. unfold poke_args in *. cbn [fold_left]. by rewrite IH, P.
Qed.

Lemma exit_spec a t : answers_ok a -> calm t -> is_in_sysenter t = false -> asserts (exited t) (translate_syscall a t).
Proof.
  intros H C E. unfold translate_syscall. rewrite (ca_exe t C). unfold fetch_regs. destruct (ok_regs a H) as [b ->]. rewrite E.
  unfold exit_stage. set (t1 := on_regs _ _). assert (F1 : same_flow t t1) by (etrans; apply set_regs_flow; done).
  pose proof (calm_frame _ _ (sf_frame _ _ F1) C) as C1. rewrite (ca_relaunched t1 C1).
  destruct (call_exit_ok a t1 H C1) as [[P1 P2 P3 P4] S2]. set (t2 := call_exit a t1) in *. set (t3 := set_cancelled false (set_status 0 t2)).
  destruct F1 as [F1 F2 F3 F4 F5 F6]. assert (C2 : calm t2) by by eapply calm_frame.
  assert (F : frame t t3). { do 2 (etrans; [eassumption|]). split; try done. symmetry. apply (ca_cancelled t2 C2). }
  assert (C3 : calm t3) by by eapply calm_frame.
  apply asserts_bind with (P := fun t' => exited t t').
  - assert (X : forall t', frame t3 t' -> status t' = status t3 -> (restart_how t' = restart_how t3 \/ restart_how t' = Some PTRACE_SYSCALL) ->
      sysexit_pending t' = sysexit_pending t3 -> (chaining t' = true -> restart_how t' = Some PTRACE_SYSCALL) -> seccomp t' = seccomp t3 -> exited t t').
    { intros t' K1 K2 K3 K4 K5 K6. split; [by etrans|]. split; [unfold is_in_sysenter; by rewrite K2|].
      change (restart_how t3) with (restart_how t2) in K3. change (sysexit_pending t3) with (sysexit_pending t2) in K4. change (seccomp t3) with (seccomp t2) in K6.
      rewrite F3 in P3. rewrite F4 in P4. rewrite F6 in S2. rewrite K4, K6. split_and!; [|..|done|done].
      - destruct K3 as [->|K3]; [done|by right].
      - intros Hp. apply P4 in Hp as [Hp|Hp]; [by left|]. destruct K3 as [->|K3]; by right. }
    destruct (chaining t3) eqn:Ec; [|by apply X; try done; [left|congruence]].
    eapply asserts_impl; [by apply next_chained_ok|]. intros t' (K1 & K2 & K3 & K4 & K5 & K6). by apply X.
  - intros t4 (K1 & K2 & K3 & K4 & K5 & K6). destruct (finish_stage_ok a false 0 t4 H) as (t5 & -> & [B1 B2 B3 B4 B5 B6]).
    { by apply (ca_rewrite t4), (calm_frame t). }
    split; [by etrans|]. unfold is_in_sysenter in *. rewrite B2, B3, B4, B5, B6. by split_and!.
Qed.

(** ** PRoot and the kernel agree *)

Section Agreement.

Variable order : Order.

(** The stage PRoot believes in, at each kind of stop; a system call whose entry
    was handled at the stop of the filter is known to be entered at its entry
    stop (before Linux 4.8). *)
Definition stage_ok (g : Globals) (t : Tracee) (ph : Phase) : Prop :=
  match ph with
  | PUser => is_in_sysenter t = true
  | PEnter => is_in_sysenter t = negb (seccomp_already_handled_enter t)
              /\ (seccomp_already_handled_enter t = true -> order = Old /\ seccomp_detected g = true)
  | PSeccomp =>
      last_restart_how t = Some PTRACE_CONT /\ is_in_sysenter t = true
      \/ last_restart_how t = Some PTRACE_SYSCALL /\ is_in_sysenter t = bool_decide (order = Old)
  | PInside =>
      last_restart_how t = Some PTRACE_CONT /\ is_in_sysenter t = true /\ seccomp t = ENABLED
      \/ last_restart_how t = Some PTRACE_SYSCALL /\ is_in_sysenter t = false
  | PExit => is_in_sysenter t = false
  end.

Definition idle (ph : Phase) (t : Tracee) : Prop := ph <> PEnter -> seccomp_already_handled_enter t = false.

Record synced (g : Globals) (t : Tracee) (ph : Phase) : Prop := mkSynced {
  sy_calm : calm t;
  sy_wait : wait_pid t = 0;
  sy_restart : restart_how t = None;
  sy_detected : if seccomp_detected g then seccomp_after_ptrace_enter g = Some (bool_decide (order = New)) else seccomp t = DISABLED;
  sy_seccomp : seccomp t <> DISABLING;
  sy_slow : seccomp t = DISABLED -> ph <> PUser -> last_restart_how t = Some PTRACE_SYSCALL;
  sy_fast : seccomp t = ENABLED -> last_restart_how t = Some PTRACE_CONT -> sysexit_necessary t = false;
  sy_idle : idle ph t;
  sy_stage : stage_ok g t ph
}.

(** A tracee that is about to be restarted, and the stops that may follow. *)
Record ready (g : Globals) (t : Tracee) (ph : Phase) : Prop := mkReady {
  re_calm : calm t;
  re_wait : wait_pid t = 0;
  re_detected : if seccomp_detected g then seccomp_after_ptrace_enter g = Some (bool_decide (order = New)) else seccomp t = DISABLED;
  re_seccomp : seccomp t <> DISABLING;
  re_how : restart_how t = Some PTRACE_SYSCALL \/ restart_how t = Some PTRACE_CONT /\ seccomp t = ENABLED /\ sysexit_necessary t = false;
  re_idle : seccomp_already_handled_enter t = true -> ph = PSeccomp /\ order = Old /\ seccomp_detected g = true
    /\ restart_how t = Some PTRACE_SYSCALL /\ is_in_sysenter t = false /\ voided_syscall_cancelled t = false;
  re_stage :
    match ph with
    | PUser | PExit => is_in_sysenter t = true
    | PEnter => restart_how t = Some PTRACE_SYSCALL /\ is_in_sysenter t = false
    | PSeccomp =>
        restart_how t = Some PTRACE_CONT /\ is_in_sysenter t = true
        \/ restart_how t = Some PTRACE_SYSCALL
           /\ (is_in_sysenter t = true /\ order = Old
               \/ is_in_sysenter t = false /\ (order = Old -> voided_syscall_cancelled t = negb (seccomp_already_handled_enter t)))
    | PInside =>
        restart_how t = Some PTRACE_CONT /\ is_in_sysenter t = true
        \/ restart_how t = Some PTRACE_SYSCALL /\ is_in_sysenter t = false
    end
}.

Definition cancelled (t : Tracee) : bool := voided_syscall_cancelled t && negb (is_in_sysenter t).

(** The tracee as restart_tracee() leaves it. *)
Definition restarted (how : Request) (t : Tracee) : Tracee := set_running true (set_restart None (set_last (Some how) t)).

Lemma restart_ready a g t ph s : answers_ok a -> ready g t ph -> s <> -1 ->
  exists how, restart_how t = Some how /\ restart_tracee a t s = Ok (restarted how t, true).
Proof.
  intros H R Hs. unfold restart_tracee. rewrite (re_wait _ _ _ R). rewrite (proj2 (Z.eqb_neq s (-1))) by done. cbn [Z.eqb negb orb].
  assert (X : exists how, restart_how t = Some how) by (destruct (re_how _ _ _ R) as [->|[ -> _]]; by eexists).
  destruct X as [how E]. exists how. rewrite E, (ok_restart a H). done.
Qed.

Lemma order_cases : order = Old \/ order = New.
Proof. destruct order; auto. Qed.

Lemma restarted_calm how t : calm t -> calm (restarted how t).
Proof. by intros []. Qed.

Lemma synced_restarted g t ph how ph' : ready g t ph -> restart_how t = Some how -> idle ph' t -> stage_ok g (restarted how t) ph' ->
  synced g (restarted how t) ph'.
Proof.
  intros [R1 R2 R3 R4 R5 R6 R7] Hh Hi Hs. split; try done.
  - by apply restarted_calm.
  - intros Hd _. cbn. destruct R5 as [R5|(R5 & E & _)]; [congruence|]. change (seccomp t = DISABLED) in Hd. congruence.
  - intros Hd Hl. destruct R5 as [R5|(_ & _ & N)]; [|exact N]. cbn in Hl. congruence.
Qed.

(** From the code of the tracee, and from inside a system call. *)
Lemma user_synced g t ph how ph' : ready g t ph -> restart_how t = Some how -> seccomp_already_handled_enter t = false ->
  is_in_sysenter t = true -> user_next order how ph' -> synced g (restarted how t) ph'.
Proof.
  intros R Hh A E N. apply (synced_restarted g t ph); [done..|by intros _|]. destruct N as [ | -> |Hc| -> ]; cbn.
  - done.
  - change (is_in_sysenter t = negb (seccomp_already_handled_enter t) /\ (seccomp_already_handled_enter t = true -> order = Old /\ seccomp_detected g = true)).
    by rewrite A.
  - change (is_in_sysenter (restarted how t)) with (is_in_sysenter t). rewrite E.
    destruct (re_how _ _ _ R) as [K|[K _]]; rewrite K in Hh; injection Hh as <-; [right|by left]. split; [done|].
    destruct Hc as [->|Hc]; [done|done].
  - left. split; [done|]. split; [done|]. destruct (re_how _ _ _ R) as [K|(K & S & _)]; [congruence|done].
Qed.

Lemma inside_synced g t ph how ph' : ready g t ph -> restart_how t = Some how -> seccomp_already_handled_enter t = false ->
  how = PTRACE_CONT /\ is_in_sysenter t = true \/ how = PTRACE_SYSCALL /\ is_in_sysenter t = false ->
  inside_next order how ph' -> synced g (restarted how t) ph'.
Proof.
  intros R Hh A E N. destruct N as [ | -> |ph' -> N].
  - apply (synced_restarted g t ph); [done..|by intros _|]. cbn. destruct E as [[ -> E]|[ -> E]]; [left|by right].
    split; [done|]. split; [done|]. destruct (re_how _ _ _ R) as [K|(K & S & _)]; [congruence|done].
  - apply (synced_restarted g t ph); [done..|by intros _|]. cbn. by destruct E as [[? _]|[_ E]].
  - destruct E as [[_ E]|[? _]]; [|done]. by eapply user_synced.
Qed.

Lemma next_synced g t ph how ph' : ready g t ph -> restart_how t = Some how -> next order how (cancelled t) ph ph' ->
  synced g (restarted how t) ph'.
Proof.
  intros R Hh N. pose proof (re_idle _ _ _ R) as I. pose proof (re_stage _ _ _ R) as S.
  assert (A : ph <> PSeccomp -> seccomp_already_handled_enter t = false).
  { intros Hp. destruct (seccomp_already_handled_enter t); [|done]. by destruct (I eq_refl). }
  destruct N as [p0 p1 Hp N|p1 N|Ho|p1 Hc N|Ho Eh Hc|p1 N]; [| | | |subst how|].
  - assert (E : is_in_sysenter t = true) by (by destruct Hp as [-> | ->]).
    eapply user_synced; try done. apply A. by destruct Hp as [-> | ->].
  - destruct S as [S1 S2]. eapply inside_synced; try done; [by apply A|right]. split; [congruence|done].
  - destruct S as [S1 S2]. apply (synced_restarted g t PEnter); [done..|intros _; by apply A|]. cbn. right.
    split; [congruence|]. change (is_in_sysenter (restarted how t)) with (is_in_sysenter t). rewrite S2, Ho. done.
  - assert (Ac : seccomp_already_handled_enter t = false).
    { destruct (seccomp_already_handled_enter t); [|done]. destruct (I eq_refl) as (_ & Ho & _ & K & _ & V). unfold cancelled in Hc. rewrite V in Hc. cbn in Hc.
      destruct Hc as [Hc|[Hc|Hc]]; congruence. }
    eapply inside_synced; try done. destruct S as [[S1 S2]|[S1 [[S2 S3]|[S2 S3]]]].
    + left. split; [congruence|done].
    + exfalso. unfold cancelled in Hc. rewrite S2, andb_false_r in Hc. destruct Hc as [Hc|[Hc|Hc]]; congruence.
    + right. split; [congruence|done].
  - apply (synced_restarted g t PSeccomp); [done..|by intros ?|]. cbn. change (is_in_sysenter (restarted PTRACE_SYSCALL t)) with (is_in_sysenter t).
    change (seccomp_already_handled_enter (restarted PTRACE_SYSCALL t)) with (seccomp_already_handled_enter t).
    split; [|intros K; by destruct (I K) as (_ & ? & ? & _)].
    destruct S as [[S1 S2]|[S1 [[S2 S3]|[S2 S3]]]]; [congruence| |].
    + destruct (seccomp_already_handled_enter t) eqn:K; [|done]. destruct (I eq_refl) as (_ & _ & _ & _ & ? & _). congruence.
    + unfold cancelled in Hc. rewrite S2, andb_true_r, (S3 Ho) in Hc. by rewrite S2, Hc.
  - eapply inside_synced; try done; [by apply A|]. destruct S as [[S1 S2]|[S1 S2]]; [left|right]; (split; [congruence|done]).
Qed.

(** ** Each event leaves the tracee ready *)

Definition outcome_ready (ph : Phase) (o : Globals * Tracee * Z) : Prop :=
  let '(g, t, s) := o in ready g t ph /\ 0 <= s.

Lemma default_restart_eq t : restart_how t = None ->
  default_restart t = set_restart (Some (if bool_decide (seccomp t = ENABLED) && negb (sysexit_necessary t) then PTRACE_CONT else PTRACE_SYSCALL)) t.
Proof. unfold default_restart. by intros ->. Qed.

(** The restart a tracee gets by default. *)
Lemma default_how g t ph : synced g t ph -> exists how, default_restart t = set_restart (Some how) t
  /\ (how = PTRACE_SYSCALL \/ how = PTRACE_CONT /\ seccomp t = ENABLED /\ sysexit_necessary t = false)
  /\ (how = PTRACE_CONT \/ seccomp t <> ENABLED \/ sysexit_necessary t = true).
Proof.
  intros S. rewrite (default_restart_eq t (sy_restart _ _ _ S)). eexists. split; [done|].
  case_bool_decide; cbn [andb]; [|split; [by left|right; by left]].
  destruct (sysexit_necessary t); cbn [negb]; [split; [by left|right; by right]|split; [by right|by left]].
Qed.

(** The suppression of signals and the flags about SIGSYS play no role. *)
Lemma ready_flow g t t' ph : same_flow t t' -> voided_syscall_cancelled t' = voided_syscall_cancelled t -> ready g t ph -> ready g t' ph.
Proof.
  intros [F1 F2 F3 F4 F5 F6] V [R1 R2 R3 R4 R5 R6 R7].
  assert (E : is_in_sysenter t' = is_in_sysenter t) by (unfold is_in_sysenter; by rewrite F2).
  assert (N : sysexit_necessary t' = sysexit_necessary t) by (unfold sysexit_necessary; rewrite F4, F5; by rewrite (fr_rewrite _ _ F1)).
  split.
  - by eapply calm_frame.
  - by rewrite (fr_wait _ _ F1).
  - by rewrite F6.
  - by rewrite F6.
  - by rewrite F3, F6, N.
  - by rewrite (fr_already _ _ F1), F3, E, V.
  - destruct ph; rewrite ?F3, ?E, ?V, ?(fr_already _ _ F1); done.
Qed.

Lemma ready_suppressed g t ph x : 0 <= x -> ready g t ph -> ready g (set_suppressed x t) ph.
Proof.
  intros Hx [[C1 C2 C3 C4 C5 C6] R2 R3 R4 R5 R6 R7]. split; [by split|done..].
Qed.

Lemma enter_outcome a g t : answers_ok a -> calm t -> wait_pid t = 0 -> is_in_sysenter t = true -> restart_how t = Some PTRACE_SYSCALL ->
  seccomp t <> DISABLING -> seccomp_already_handled_enter t = false ->
  (if seccomp_detected g then seccomp_after_ptrace_enter g = Some (bool_decide (order = New)) else seccomp t = DISABLED) ->
  asserts (outcome_ready PEnter) (syscall_stage a g t).
Proof.
  intros H C W E R D A G. unfold syscall_stage. rewrite A, E. cbn [negb].
  apply asserts_bind with (P := fun x => let '(t1, s) := x in 0 <= s /\ seccomp t1 <> DISABLING /\ ready g t1 PEnter).
  2: { intros [t1 s] (Hs & Hd & Hr). rewrite bool_decide_false by done. by split. }
  eapply asserts_bind; [by apply enter_spec; try done; right|]. intros t1 (F & S & K). destruct K as [[K1 K2]|(K & _)]; [|congruence].
  cbn [andb]. eapply asserts_bind; [eapply asserts_bind; [apply get_sysnum_asserts|]|].
  { intros n _. instantiate (1 := fun t' => exists b, t' = set_skip b t1). by eexists. }
  intros t2 (b & ->).
  assert (Rd : ready g t1 PEnter).
  { split; [by eapply calm_frame|by rewrite (fr_wait _ _ F)|by rewrite S|by rewrite S|by left| |done]. rewrite (fr_already _ _ F), A. done. }
  cbn [asserts]. destruct (negb _ && negb _ && negb _).
  - split_and!; [exact (ca_suppressed _ (re_calm _ _ _ Rd))|by rewrite <- S in D|]. apply ready_suppressed; [done|].
    eapply ready_flow; [| |exact Rd]; [by repeat split|done].
  - split_and!; [done|by rewrite <- S in D|]. eapply ready_flow; [| |exact Rd]; [by repeat split|done].
Qed.

Lemma exit_outcome a g t : answers_ok a -> calm t -> wait_pid t = 0 -> is_in_sysenter t = false ->
  restart_how t = Some PTRACE_SYSCALL \/ restart_how t = Some PTRACE_CONT /\ seccomp t = ENABLED /\ sysexit_pending t = false ->
  seccomp t <> DISABLING -> seccomp_already_handled_enter t = false ->
  (if seccomp_detected g then seccomp_after_ptrace_enter g = Some (bool_decide (order = New)) else seccomp t = DISABLED) ->
  asserts (outcome_ready PExit) (syscall_stage a g t).
Proof.
  intros H C W E R D A G. unfold syscall_stage. rewrite A, E. cbn [negb].
  set (Q := fun t1 => frame t t1 /\ is_in_sysenter t1 = true
    /\ (restart_how t1 = Some PTRACE_SYSCALL \/ restart_how t1 = Some PTRACE_CONT /\ seccomp t = ENABLED /\ sysexit_necessary t1 = false)
    /\ (seccomp t1 = seccomp t \/ seccomp t = ENABLED /\ seccomp t1 = DISABLING)).
  assert (QS : forall t1 t2, same_flow t1 t2 -> Q t1 -> Q t2).
  { intros t1 t2 [F1 F2 F3 F4 F5 F6] (Q1 & Q2 & Q3 & Q4). unfold Q, is_in_sysenter, sysexit_necessary in *. rewrite F2, F3, F4, F5, F6, (fr_rewrite _ _ F1).
    split; [by etrans|done]. }
  apply asserts_bind with (P := fun x => let '(t1, s) := x in 0 <= s /\ exists t0 x, 0 <= x /\ Q t0 /\ (t1 = t0 \/ t1 = set_suppressed x t0)).
  - eapply asserts_bind; [by apply exit_spec|]. intros t1 (F & K1 & K2 & K3 & K4 & K5).
    assert (Q1 : Q t1).
    { split; [done|]. split; [done|]. split; [|done]. destruct R as [R|(R & S & P)].
      - left. by destruct K2 as [->|K2].
      - destruct K2 as [K2|K2]; [|by left]. destruct (sysexit_necessary t1) eqn:N; [|right; split_and!; [congruence|done|done]].
        left. unfold sysexit_necessary in N. rewrite (fr_rewrite _ _ F) in N. change (restore_original_regs_after_seccomp_event (ev_regs t)) with (rewriting t) in N.
        rewrite (ca_rewrite t C), orb_false_r in N. apply orb_true_iff in N as [N|N]; [|by apply K4]. apply K3 in N as [N|N]; [congruence|done]. }
    cbn [andb]. set (t2 := if pending_child t1 then _ else _).
    assert (Q2 : Q t2).
    { unfold t2. destruct (pending_child t1); [|done]. destruct (ok_children a H (a_resolve_child a) t1) as ([P1 P2 P3 P4] & O1 & O2 & O3 & O4); [by right|].
      by apply (QS t1); [split|]. }
    cbn [res_bind asserts]. assert (Q3 : Q (set_skip false t2)) by (apply (QS t2); [by repeat split|done]).
    assert (X : 0 <= suppressed_signal t2) by (rewrite (fr_suppressed _ _ (proj1 Q2)); apply (ca_suppressed t C)).
    destruct (negb _ && negb _ && negb _).
    + split; [done|]. exists (set_skip false t2), 0. split_and!; [done|done|by right].
    + split; [done|]. exists (set_skip false t2), 0. split_and!; [done|done|by left].
  - intros [t1 s] (Hs & t0 & x & Hx & (F & Q1 & Q2 & Q3) & Ht). cbn [asserts].
    assert (Rd : ready g (if bool_decide (seccomp t0 = DISABLING) then set_seccomp DISABLED (set_restart (Some PTRACE_SYSCALL) t0) else t0) PExit).
    { pose proof (calm_frame _ _ F C) as C0. assert (A0 : seccomp_already_handled_enter t0 = false) by (by rewrite (fr_already _ _ F)).
      assert (W0 : wait_pid t0 = 0) by (by rewrite (fr_wait _ _ F)).
      destruct (decide (seccomp t0 = DISABLING)) as [B|B]; [rewrite bool_decide_true by done|rewrite bool_decide_false by done].
      - apply mkReady; [destruct C0; by split|done|by destruct (seccomp_detected g)|done|by left| |done].
        change (seccomp_already_handled_enter t0 = true -> PExit = PSeccomp /\ order = Old /\ seccomp_detected g = true
          /\ Some PTRACE_SYSCALL = Some PTRACE_SYSCALL /\ is_in_sysenter t0 = false /\ voided_syscall_cancelled t0 = false). by rewrite A0.
      - destruct Q3 as [Q3|[Q3 ?]]; [|done]. apply mkReady; [done|done|by rewrite Q3|done| |by rewrite A0|done].
        destruct Q2 as [Q2|(Q2 & S & N)]; [by left|right]. by rewrite Q3. }
    destruct Ht as [->| ->]; [by split|]. split; [|done]. change (seccomp (set_suppressed x t0)) with (seccomp t0).
    apply (ready_suppressed _ _ _ x Hx) in Rd. by destruct (bool_decide (seccomp t0 = DISABLING)).
Qed.

(** The entry stop of a system call already handled at the stop of the filter. *)
Lemma already_outcome a g t : calm t -> wait_pid t = 0 -> is_in_sysenter t = false -> after g = false -> seccomp t <> DISABLING ->
  seccomp_already_handled_enter t = true ->
  (if seccomp_detected g then seccomp_after_ptrace_enter g = Some (bool_decide (order = New)) else seccomp t = DISABLED) ->
  asserts (outcome_ready PEnter) (syscall_stage a g t).
Proof.
  intros C W E Af D A G. unfold syscall_stage. rewrite A, E, Af. cbn [negb res_bind asserts].
  change (seccomp (set_restart _ _)) with (seccomp t). rewrite bool_decide_false by done. split; [|done].
  split; cbn; try done; [by destruct C|by left].
Qed.

Lemma syscall_event_outcome a g t ph how : answers_ok a -> synced g t ph -> ph = PEnter \/ ph = PExit ->
  (how = PTRACE_SYSCALL \/ seccomp t = ENABLED) ->
  asserts (outcome_ready ph) (syscall_event a g (set_restart (Some how) t)).
Proof.
  intros H [C W _ G D _ _ I S] Hp Hh. unfold syscall_event. change (seccomp (set_restart (Some how) t)) with (seccomp t).
  change (is_in_sysenter (set_restart (Some how) t)) with (is_in_sysenter t).
  assert (X1 : forall r p, calm (set_sysexit p (set_restart (Some r) t))) by (destruct C; by split).
  assert (X2 : forall r, calm (set_restart (Some r) t)) by (destruct C; by split).
  destruct Hp as [-> | ->]; cbn in S.
  - destruct S as [E A]. destruct (seccomp_already_handled_enter t) eqn:Ea; cbn in E.
    + destruct (A eq_refl) as [Ho Hd]. assert (Af : after g = false) by (unfold after; rewrite Hd in G; by rewrite G, Ho).
      rewrite E. destruct (seccomp t) eqn:Es; [|done|]; apply already_outcome; try done; cbn; rewrite ?Es; try done; (apply X1 || apply X2).
    + rewrite E. destruct (seccomp t) eqn:Es; [|done|]; apply enter_outcome; try done; cbn; rewrite ?Es; try done; try (apply X1 || apply X2).
      destruct Hh as [->|?]; done.
  - assert (A : seccomp_already_handled_enter t = false) by by apply I. rewrite S.
    destruct (seccomp t) eqn:Es; [|done|]; apply exit_outcome; try done; cbn; rewrite ?Es; try done; try (apply X1 || apply X2).
    + destruct Hh as [->|?]; [by left|done].
    + by right.
Qed.

(** What happened before the entry is decided at the stop of the filter. *)
Lemma filter_flags_ok a g t flags : answers_ok a ->
  asserts (fun x => let '(g', t', _) := x in same_flow t t' /\ voided_syscall_cancelled t' = voided_syscall_cancelled t
             /\ seccomp_detected g' = seccomp_detected g /\ seccomp_after_ptrace_enter g' = seccomp_after_ptrace_enter g)
    (filter_flags a g t flags).
Proof.
  intros H. unfold filter_flags. case_bool_decide; [by split_and!|]. unfold fetch_regs. destruct (ok_regs a H) as [b ->].
  eapply asserts_bind; [apply get_sysnum_asserts|]. intros n _. cbn [asserts].
  split_and!; [apply set_regs_flow; done|done|by case_match..].
Qed.

Lemma seccomp_enter_outcome a necessary g t flags : answers_ok a -> calm t -> wait_pid t = 0 -> is_in_sysenter t = true ->
  seccomp t = ENABLED -> seccomp_already_handled_enter t = false -> sysexit_necessary t = necessary ->
  seccomp_detected g = true -> seccomp_after_ptrace_enter g = Some (bool_decide (order = New)) ->
  asserts (outcome_ready PSeccomp) (seccomp_enter a necessary g t flags).
Proof.
  intros H C W E S A N G1 G2. unfold seccomp_enter. eapply asserts_bind; [by apply filter_flags_ok|].
  intros [[g' t0] fl] ([F1 F2 F3 F4 F5 F6] & V & D & Af). rewrite G1 in D. rewrite G2 in Af.
  assert (E0 : is_in_sysenter t0 = true) by (unfold is_in_sysenter; by rewrite F2).
  assert (A0 : seccomp_already_handled_enter t0 = false) by (by rewrite (fr_already _ _ F1)).
  assert (C0 : calm t0) by by eapply calm_frame. assert (W0 : wait_pid t0 = 0) by (by rewrite (fr_wait _ _ F1)).
  assert (S0 : seccomp t0 = ENABLED) by congruence.
  assert (Aft : after g' = bool_decide (order = New)) by (unfold after; by rewrite Af).
  assert (CR : forall r, calm (set_restart r t0)) by (intros r; destruct C0; by split).
  destruct (negb _ || necessary) eqn:Hn.
  - apply asserts_bind with (P := fun t1 => frame t0 t1 /\ seccomp t1 = ENABLED /\ (order = Old /\ is_in_sysenter t1 = true \/ order = New /\ is_in_sysenter t1 = false)).
    + rewrite Aft. destruct order_cases as [O|O]; rewrite O; cbn.
      * split; [done|]. split; [done|]. by left.
      * eapply asserts_impl; [apply (enter_spec a (set_restart (Some PTRACE_SYSCALL) t0)); try done; by right|].
        intros t1 (K1 & K2 & K3). split; [by etrans; [|exact K1]|]. split; [by rewrite K2|]. right. split; [done|].
        destruct K3 as [[_ K3]|(K3 & _)]; done.
    + intros t1 (K1 & K2 & K3). cbn [asserts outcome_ready]. split; [|done].
      assert (A1 : seccomp_already_handled_enter (set_restart (Some PTRACE_SYSCALL) t1) = false)
        by (change (seccomp_already_handled_enter t1 = false); by rewrite (fr_already _ _ K1)).
      apply mkReady.
      * assert (C1 : calm t1) by by eapply calm_frame. destruct C1; by split.
      * change (wait_pid t1 = 0). by rewrite (fr_wait _ _ K1).
      * by rewrite D.
      * change (seccomp t1 <> DISABLING). by rewrite K2.
      * by left.
      * by rewrite A1.
      * right. split; [done|]. rewrite A1. change (is_in_sysenter (set_restart (Some PTRACE_SYSCALL) t1)) with (is_in_sysenter t1).
        destruct K3 as [[O K3]|[O K3]]; rewrite K3; [by left|right]. split; [done|]. intros O'. congruence.
  - apply orb_false_iff in Hn as [_ ->].
    eapply asserts_bind; [apply (enter_spec a (set_restart (Some PTRACE_CONT) t0)); try done; by left|]. intros t1 (K1 & K2 & K3).
    change (seccomp t1 = seccomp t0) in K2. assert (K1' : frame t0 t1) by (by etrans; [|exact K1]). clear K1.
    assert (X : forall h b, calm (set_already b (set_restart h t1)) /\ calm (set_already b t1) /\ calm (set_restart h t1) /\ calm t1).
    { pose proof (calm_frame _ _ K1' C0) as [c1 c2 c3 c4 c5 c6]. intros h b. by split_and!; split. }
    pose proof (X None false) as (_ & _ & _ & C1).
    assert (A1 : seccomp_already_handled_enter t1 = false) by (by rewrite (fr_already _ _ K1')).
    assert (W1 : wait_pid t1 = 0) by (by rewrite (fr_wait _ _ K1')). assert (S1 : seccomp t1 = ENABLED) by congruence.
    assert (Nf : sysexit_pending t0 = false /\ chaining t0 = false).
    { unfold sysexit_necessary in N. rewrite F4, F5. apply orb_false_iff in N as [N _]. by apply orb_false_iff in N. }
    destruct Nf as [Np Nc]. cbn [asserts]. rewrite Aft.
    set (t2 := if sysexit_pending t1 then set_restart (Some PTRACE_SYSCALL) t1 else t1).
    assert (S2 : seccomp t2 = ENABLED) by (unfold t2; by destruct (sysexit_pending t1)). rewrite (bool_decide_false (seccomp t2 = DISABLING)) by congruence.
    split; [|done]. destruct K3 as [[R1 E1]|(_ & R1 & E1 & P1 & Ch1)].
    + assert (X2 : restart_how t2 = Some PTRACE_SYSCALL /\ voided_syscall_cancelled t2 = voided_syscall_cancelled t1
        /\ (t2 = t1 \/ t2 = set_restart (Some PTRACE_SYSCALL) t1)) by (unfold t2; destruct (sysexit_pending t1); auto).
      destruct X2 as (R2 & V2 & X2). rewrite R2, V2, (bool_decide_true (Some PTRACE_SYSCALL = _)), andb_true_r by done.
      assert (Rd : forall b, b = negb (bool_decide (order = New)) && negb (voided_syscall_cancelled t1) ->
        ready g' (if b then set_already true t2 else t2) PSeccomp).
      { intros b Hb. apply mkReady.
        - destruct X2 as [-> | ->], b; apply (X (Some PTRACE_SYSCALL) true).
        - by destruct X2 as [-> | ->], b.
        - by rewrite D.
        - by destruct X2 as [-> | ->], b; cbn; rewrite S1.
        - left. destruct b; done.
        - intros K. assert (b = true) as -> by (destruct b; [done|]; destruct X2 as [-> | ->]; cbn in K; congruence).
          symmetry in Hb. apply andb_true_iff in Hb as [Hb1 Hb2]. apply negb_true_iff in Hb1, Hb2. apply bool_decide_eq_false in Hb1.
          change (is_in_sysenter (set_already true t2)) with (is_in_sysenter t2).
          split_and!; [done|destruct order_cases; done|done|done|by destruct X2 as [-> | ->]|]. cbn. congruence.
        - right. split; [by destruct b|]. right. split; [by destruct X2 as [-> | ->], b|]. intros Ho. rewrite Ho in Hb.
          change (negb (bool_decide (Old = New))) with true in Hb. cbn [andb] in Hb. subst b.
          destruct (voided_syscall_cancelled t1) eqn:V1; cbn [negb].
          + rewrite V2. destruct X2 as [-> | ->]; cbn; by rewrite A1.
          + cbn. by rewrite V2. }
      by apply Rd.
    + change (sysexit_pending t1 = true -> sysexit_pending t0 = true) in P1. change (chaining t1 = true -> chaining t0 = true) in Ch1.
      assert (sysexit_pending t1 = false) as P1f by (destruct (sysexit_pending t1); [by rewrite P1 in Np|done]).
      assert (t2 = t1) as -> by (unfold t2; by rewrite P1f). rewrite R1, (bool_decide_false (Some PTRACE_CONT = _)), andb_false_r by done. cbn [andb].
      apply mkReady; [done|done|by rewrite D|by rewrite S1| |by rewrite A1|by left].
      right. split_and!; [done|done|]. unfold sysexit_necessary. rewrite P1f.
      destruct (chaining t1) eqn:Hc; [by rewrite Ch1 in Nc|]. apply (ca_rewrite t1 C1).
Qed.

(** A tracee at the stop of the filter is at the entry of its system call, unless
    its entry stop was handled. *)
Lemma filter_stage g t : synced g t PSeccomp ->
  is_in_sysenter t = true \/ order = New /\ is_in_sysenter t = false /\ last_restart_how t = Some PTRACE_SYSCALL.
Proof.
  intros S. destruct (sy_stage _ _ _ S) as [[_ E]|[L E]]; [by left|]. destruct order_cases as [O|O]; rewrite O in E; [by left|by right].
Qed.

(** The first stop of the filter tells the order of the kernel. *)
Lemma detection g t : synced g t PSeccomp -> seccomp_detected g = false -> negb (is_in_sysenter t) = bool_decide (order = New).
Proof.
  intros [_ _ _ D _ L _ _ S] Hd. rewrite Hd in D. destruct S as [[K _]|[_ ->]]; [rewrite L in K by done; congruence|].
  destruct order_cases as [O|O]; by rewrite O.
Qed.

Lemma seccomp_stage_outcome a necessary g t : answers_ok a -> calm t -> wait_pid t = 0 -> seccomp_already_handled_enter t = false ->
  seccomp_detected g = true -> seccomp_after_ptrace_enter g = Some (bool_decide (order = New)) ->
  sysexit_necessary t = necessary -> seccomp t <> DISABLING ->
  (seccomp t = DISABLED -> restart_how t = Some PTRACE_SYSCALL /\ (is_in_sysenter t = true -> order = Old)) ->
  is_in_sysenter t = true \/ order = New /\ is_in_sysenter t = false /\ last_restart_how t = Some PTRACE_SYSCALL ->
  asserts (outcome_ready PSeccomp)
    (let t := set_skip false t in
     if after g && negb (is_in_sysenter t) then
       let t := set_restart (last_restart_how t) t in
       check! negb (bool_decide (restart_how t = Some PTRACE_CONT)) else AssertFailed in
       Ok (g, t, 0)
     else
       check! is_in_sysenter t else AssertFailed in
       if negb (bool_decide (seccomp t = ENABLED)) then Ok (g, t, 0)
       else match a_eventmsg a with
            | None => Ok (g, t, 0)
            | Some flags => seccomp_enter a necessary g t flags
            end).
Proof.
  intros H C W A G1 G2 N D1 D2 S. cbv zeta. unfold after. rewrite G2. cbn [default].
  change (is_in_sysenter (set_skip false t)) with (is_in_sysenter t). change (seccomp (set_skip false t)) with (seccomp t).
  assert (C' : forall h, calm (set_restart h (set_skip false t))) by (intros h; by destruct C).
  destruct S as [E|(O & E & L)]; rewrite E; cbn [negb].
  - rewrite andb_false_r. destruct (decide (seccomp t = ENABLED)) as [Se|Se].
    + rewrite bool_decide_true by done. cbn [negb]. destruct (ok_eventmsg a H) as [fl ->]. apply seccomp_enter_outcome; try done. by destruct C.
    + rewrite bool_decide_false by done. cbn [negb]. split; [|done]. assert (Sd : seccomp t = DISABLED) by by destruct (seccomp t).
      destruct (D2 Sd) as [D3 D4]. apply mkReady; [by destruct C|done|by rewrite G1|done|by left| |right; split; [done|left; by rewrite D4]].
      change (seccomp_already_handled_enter (set_skip false t)) with (seccomp_already_handled_enter t). by rewrite A.
  - rewrite O, bool_decide_true by done. cbn [andb]. change (restart_how (set_restart _ _)) with (last_restart_how t).
    rewrite L, bool_decide_false by done. cbn [negb]. change (last_restart_how (set_skip false t)) with (last_restart_how t). rewrite L.
    split; [|done]. apply mkReady; [done|done|by rewrite G1|done|by left|cbn; by rewrite A|]. right. split; [done|]. right. split; [done|congruence].
Qed.

Lemma seccomp_event_outcome a g t how : answers_ok a -> synced g t PSeccomp -> (how = PTRACE_SYSCALL \/ seccomp t = ENABLED) ->
  asserts (outcome_ready PSeccomp) (seccomp_event a (sysexit_necessary t) g (set_restart (Some how) t)).
Proof.
  intros H S Hh. pose proof (filter_stage g t S) as St. pose proof (detection g t S) as De. destruct S as [C W _ D Dn L _ I Sg].
  assert (A : seccomp_already_handled_enter t = false) by by apply I. unfold seccomp_event.
  set (t1 := if voided_syscall_cancelled _ then _ else _). assert (T : t1 = set_already false (set_restart (Some how) t)).
  { unfold t1. destruct (voided_syscall_cancelled _); [done|]. destruct t; cbn in *; by subst. }
  rewrite T. change (is_in_sysenter (set_already _ _)) with (is_in_sysenter t).
  destruct (seccomp_detected g) eqn:Hd.
  - apply seccomp_stage_outcome; try done; [by destruct C|]. intros Sd. split; [destruct Hh as [->|?]; [done|change (seccomp t = DISABLED) in Sd; congruence]|].
    intros E. change (seccomp t = DISABLED) in Sd. change (is_in_sysenter t = true) in E. destruct Sg as [[K _]|[_ K]]; [rewrite L in K by done; congruence|].
    rewrite E in K. symmetry in K. by apply bool_decide_eq_true in K.
  - rewrite De by done. apply seccomp_stage_outcome; try done; by destruct C.
Qed.

Lemma ready_default g t ph how : synced g t ph -> ph = PUser \/ ph = PInside ->
  how = PTRACE_SYSCALL \/ how = PTRACE_CONT /\ seccomp t = ENABLED /\ sysexit_necessary t = false ->
  (ph = PInside -> last_restart_how t = Some how) -> ready g (set_restart (Some how) t) ph.
Proof.
  intros [C W _ D Dn _ _ I S] Hp Hh Hl. apply mkReady; [by destruct C|done|done|done| | |].
  - destruct Hh as [->|(-> & ? & ?)]; [by left|right]. by split_and!.
  - change (seccomp_already_handled_enter t = true -> ph = PSeccomp /\ order = Old /\ seccomp_detected g = true
      /\ Some how = Some PTRACE_SYSCALL /\ is_in_sysenter t = false /\ voided_syscall_cancelled t = false).
    rewrite I; [done|]. by destruct Hp as [-> | ->].
  - destruct Hp as [-> | ->]; [exact S|]. unfold stage_ok in S; rewrite Hl in S by done.
    destruct S as [(K & E & _)|[K E]]; injection K as ->; [by left|by right].
Qed.

Lemma ready_same g t t' ph : same_flow t t' -> voided_syscall_cancelled t' = voided_syscall_cancelled t -> ready g t ph ->
  outcome_ready ph (g, t', 0).
Proof. intros. split; [by eapply ready_flow|done]. Qed.

(** A fork, an exec and the like, inside a system call. *)
Lemma fork_outcome a g t how : answers_ok a -> synced g t PInside ->
  how = PTRACE_SYSCALL \/ how = PTRACE_CONT /\ seccomp t = ENABLED /\ sysexit_necessary t = false ->
  how = PTRACE_CONT \/ seccomp t <> ENABLED \/ sysexit_necessary t = true ->
  is_in_sysenter t = true \/ seccomp t <> ENABLED \/ sysexit_necessary t = true ->
  outcome_ready PInside (g, a_new_child a (set_restart (Some how) t), 0).
Proof.
  intros H S Hh Hn Hf. assert (L : last_restart_how t = Some how).
  { destruct (sy_stage _ _ _ S) as [(K & E & Se)|[K E]]; rewrite K.
    - destruct Hn as [->|Hn]; [done|]. pose proof (sy_fast _ _ _ S Se K). destruct Hn as [Hn|Hn]; congruence.
    - destruct Hh as [->|(_ & Se & N)]; [done|]. destruct Hf as [Hf|[Hf|Hf]]; congruence. }
  assert (R : ready g (set_restart (Some how) t) PInside) by (apply ready_default; auto).
  destruct (ok_children a H (a_new_child a) (set_restart (Some how) t)) as ([F1 F2 F3 F4] & K1 & K2 & K3 & K4); [by left|].
  split; [|done]. destruct R as [R1 R2 R3 R4 R5 R6 R7]. set (t' := a_new_child a _) in *.
  assert (A : seccomp_already_handled_enter t' = false) by (rewrite (fr_already _ _ F1); by apply (sy_idle _ _ _ S)).
  apply mkReady.
  - by eapply calm_frame.
  - by rewrite (fr_wait _ _ F1).
  - by rewrite K4.
  - by rewrite K4.
  - unfold sysexit_necessary in *. rewrite K1, K2, K3, K4, (fr_rewrite _ _ F1). exact R5.
  - by rewrite A.
  - unfold is_in_sysenter in *. by rewrite K1, F2.
Qed.

Lemma inside_outcome g t how : synced g t PInside ->
  outcome_ready PInside (g, match last_restart_how (set_restart (Some how) t) with
                            | Some h => set_restart (Some h) (set_restart (Some how) t) | None => set_restart (Some how) t end, 0).
Proof.
  intros S. change (last_restart_how (set_restart (Some how) t)) with (last_restart_how t).
  assert (X : exists h, last_restart_how t = Some h) by (destruct (sy_stage _ _ _ S) as [(K & _)|[K _]]; rewrite K; by eexists).
  destruct X as [h Hl]. rewrite Hl. split; [|done]. change (set_restart (Some h) (set_restart (Some how) t)) with (set_restart (Some h) t).
  apply ready_default; auto. destruct (sy_stage _ _ _ S) as [(K & E & Se)|[K _]]; rewrite K in Hl; injection Hl as <-; [right|by left].
  split_and!; [done|done|]. by apply (sy_fast _ _ _ S).
Qed.

Definition decodes (s : Z) : bool :=
  let w := stopcode s in (stop_signal w =? s) && negb (WIFEXITED w) && negb (WIFSIGNALED w) && WIFSTOPPED w.

Lemma stopcode_decodes s : 0 <= s < 4096 ->
  stop_signal (stopcode s) = s /\ WIFEXITED (stopcode s) = false /\ WIFSIGNALED (stopcode s) = false /\ WIFSTOPPED (stopcode s) = true.
Proof.
  intros Hs. assert (D : decodes s = true).
  { apply (forallb_forall decodes (map Z.of_nat (seq 0 4096))); [by vm_compute|].
    apply in_map_iff. exists (Z.to_nat s). split; [lia|]. apply in_seq. lia. }
  unfold decodes in D. cbv zeta in D. rewrite !andb_true_iff, !negb_true_iff, Z.eqb_eq in D. tauto.
Qed.

(** The rest of an event once the stop is known. *)
Lemma stopped_outcome assume_new a g t ph s : answers_ok a -> synced g t ph -> 0 <= s < 4096 ->
  (forall g, synced g t ph -> asserts (fun x => let '(g, t, s, goes_on) := x in goes_on = true /\ outcome_ready ph (g, t, s))
     (stop_event a (sysexit_necessary t) g (default_restart t) s)) ->
  asserts (outcome_ready ph) (handle_tracee_event assume_new a g t (stopcode s)).
Proof.
  intros H S Hs K. unfold handle_tracee_event. destruct (stopcode_decodes s Hs) as (E1 & E2 & E3 & E4). rewrite E1, E2, E3, E4. cbv zeta.
  set (g' := match seccomp_after_ptrace_enter g with None => _ | Some _ => g end).
  assert (S' : synced g' t ph).
  { unfold g'. destruct (seccomp_after_ptrace_enter g) eqn:E; [done|]. destruct S as [C W R D Dn Sl Sf I St].
    rewrite E in D. assert (Hd : seccomp_detected g = false) by by destruct (seccomp_detected g).
    split; try done. change (seccomp_detected (set_after assume_new g)) with (seccomp_detected g). by rewrite Hd in *. }
  eapply asserts_bind; [apply K, S'|]. intros [[[g1 t1] s1] b] [-> [R Hs1]]. split; [|done].
  eapply ready_flow; [| |exact R]; [by repeat split|done].
Qed.

Lemma signal_outcome a g t s how : synced g t PUser -> 0 < s < 65 -> s <> SIGSYS -> s <> SIGTRAP \/ ptrace_options_set t = true ->
  how = PTRACE_SYSCALL \/ how = PTRACE_CONT /\ seccomp t = ENABLED /\ sysexit_necessary t = false ->
  asserts (fun x => let '(g, t, s, goes_on) := x in goes_on = true /\ outcome_ready PUser (g, t, s))
    (stop_event a (sysexit_necessary t) g (set_restart (Some how) t) s).
Proof.
  intros S Hs Hn Ht Hh. assert (R : ready g (set_restart (Some how) t) PUser) by (apply ready_default; auto; done).
  unfold stop_event.
  assert (N : forall k, 65 <= k -> (s =? k) = false) by (intros k Hk; apply Z.eqb_neq; lia).
  change (Z.lor SIGTRAP 0x80) with 133. repeat match goal with |- context [s =? ?k] => rewrite (N k) by by vm_compute end. cbn [orb].
  rewrite (proj2 (Z.eqb_neq s SIGSYS) Hn). destruct (Z.eqb_spec s SIGTRAP) as [Es|_].
  { change (ptrace_options_set (set_restart (Some how) t)) with (ptrace_options_set t). destruct Ht as [Ht|Ht]; [done|]. rewrite Ht.
    split; [done|]. by split. }
  destruct (s =? SIGSTOP).
  - rewrite (ca_exe _ (re_calm _ _ _ R)). cbn [negb]. case_bool_decide; (split; [done|]); [|split; [done|lia]].
    eapply ready_same; [| |exact R]; [by repeat split|done].
  - destruct (chaining _ || _); (split; [done|]); [|split; [done|lia]]. split; [|done]. apply ready_suppressed; [lia|done].
Qed.

Definition goes_on_ready (ph : Phase) (x : Globals * Tracee * Z * bool) : Prop :=
  let '(g, t, s, goes_on) := x in goes_on = true /\ outcome_ready ph (g, t, s).

Lemma goes_on_ok ph (o : Outcome) : asserts (outcome_ready ph) o ->
  asserts (goes_on_ready ph) (let! (g, t, s) := o in Ok (g, t, s, true)).
Proof. intros K. eapply asserts_bind; [exact K|]. by intros [[g t] s]. Qed.

(** The entry and the exit of a system call, whether or not PRoot can tell them
    from signals. *)
Lemma syscall_stop_outcome a necessary g t ph how : answers_ok a -> synced g t ph -> ph = PEnter \/ ph = PExit ->
  how = PTRACE_SYSCALL \/ seccomp t = ENABLED ->
  asserts (goes_on_ready ph)
    (stop_event a necessary g (set_restart (Some how) t) (if ptrace_options_set t then 0x85 else SIGTRAP)).
Proof.
  intros H S Hp Hh. unfold stop_event, trap_event.
  destruct (ptrace_options_set t) eqn:Eo.
  - change (0x85 =? SIGTRAP) with false. change (0x85 =? Z.lor SIGTRAP 0x80) with true. cbn iota beta.
    change (has_exe (set_restart (Some how) t)) with (has_exe t). rewrite (ca_exe t (sy_calm _ _ _ S)). cbn [negb].
    apply goes_on_ok, syscall_event_outcome; auto.
  - change (SIGTRAP =? SIGTRAP) with true. cbn iota beta. change (ptrace_options_set (set_restart (Some how) t)) with (ptrace_options_set t). rewrite Eo.
    apply asserts_bind with (P := fun x => exists b, x = (set_supported b g, set_options true (set_restart (Some how) t)) \/ x = (g, set_options true (set_restart (Some how) t))).
    { unfold set_ptrace_options. destruct (fst _); [by eexists; left|]. destruct (snd _); [by eexists; left|done]. }
    assert (S' : forall b, synced (set_supported b g) (set_options true t) ph /\ synced g (set_options true t) ph).
    { destruct S as [C W R D Dn Sl Sf I St]. intros b. split; (split; [by destruct C|done..]). }
    intros ? (b & [-> | ->]); change (has_exe (set_options true _)) with (has_exe t); rewrite (ca_exe t (sy_calm _ _ _ S)); cbn [negb];
      apply goes_on_ok, (syscall_event_outcome a _ (set_options true t)); auto; by destruct (S' b).
Qed.

Lemma handle_outcome assume_new a g t ph w : answers_ok a -> synced g t ph -> reports t ph w ->
  asserts (outcome_ready ph) (handle_tracee_event assume_new a g t w).
Proof.
  intros H S R.
  assert (Q : forall s, 0 <= s < 4096 -> (forall g how, synced g t ph ->
      how = PTRACE_SYSCALL \/ how = PTRACE_CONT /\ seccomp t = ENABLED /\ sysexit_necessary t = false ->
      how = PTRACE_CONT \/ seccomp t <> ENABLED \/ sysexit_necessary t = true ->
      asserts (goes_on_ready ph) (stop_event a (sysexit_necessary t) g (set_restart (Some how) t) s)) ->
    asserts (outcome_ready ph) (handle_tracee_event assume_new a g t (stopcode s))).
  { intros s Hs K. apply stopped_outcome; [done..|]. intros g' S'. destruct (default_how g' t ph S') as (how & -> & H1 & H2). by apply K. }
  destruct R as [ | |e He|e He Hf|e He|s Hs Hn Ht]; apply Q; try (by destruct (ptrace_options_set t)).
  - intros g' how S' H1 _. apply syscall_stop_outcome; auto. tauto.
  - intros g' how S' H1 _. apply syscall_stop_outcome; auto. tauto.
  - by destruct He as [-> | ->].
  - intros g' how S' H1 _. destruct He as [-> | ->]; apply goes_on_ok, seccomp_event_outcome; auto; tauto.
  - by destruct He as [-> |[-> | ->]].
  - intros g' how S' H1 H2. pose proof (fork_outcome a g' t how H S' H1 H2 Hf) as K. destruct He as [-> |[-> | ->]]; by split.
  - by destruct He as [-> |[-> | ->]].
  - intros g' how S' _ _. pose proof (inside_outcome g' t how S') as K. destruct He as [-> |[-> | ->]]; by split.
  - lia.
  - intros g' how S' H1 _. by apply signal_outcome.
Qed.

(** ** The event loop *)

(** The globals, a tracee, and where the tracee is stopped. *)
Definition world : Type := Globals * Tracee * Phase.

Definition no_notice (t : Tracee) : Tracee * Z := (t, 0).

(** A stop is reported and handled, and the tracee runs until its next stop. *)
Inductive step (assume_new : bool) : world -> world -> Prop :=
  | step_stop a w g t ph g' t' how ph' :
      answers_ok a -> reports t ph w -> event_loop_step assume_new a no_notice None g t w = Ok (g', t') ->
      last_restart_how t' = Some how -> next order how (cancelled t') ph ph' -> step assume_new (g, t, ph) (g', t', ph').

(** A tracee that never ran: the first one, or a child once it is known. *)
Record fresh (g : Globals) (t : Tracee) : Prop := mkFresh {
  fresh_calm : calm t;
  fresh_stage : status t = 0;
  fresh_how : restart_how t = None /\ last_restart_how t = None;
  fresh_wait : wait_pid t = 0;
  fresh_already : seccomp_already_handled_enter t = false;
  fresh_seccomp : seccomp t = DISABLED /\ seccomp_detected g = false
    \/ seccomp t <> DISABLING /\ seccomp_detected g = true /\ seccomp_after_ptrace_enter g = Some (bool_decide (order = New))
}.

Lemma fresh_synced g t : fresh g t -> synced g t PUser.
Proof.
  intros [C E [R L] W A S]. split; try done.
  - destruct S as [[S ->]|(S & -> & D)]; done.
  - destruct S as [[S _]|[S _]]; [by rewrite S|done].
  - congruence.
  - by intros _.
  - unfold stage_ok, is_in_sysenter. by rewrite E.
Qed.

Definition restarted_world (ph : Phase) (x : Globals * Tracee) : Prop :=
  exists t how, x.2 = restarted how t /\ ready x.1 t ph /\ restart_how t = Some how.

Lemma loop_outcome assume_new a g t ph w : answers_ok a -> synced g t ph -> reports t ph w ->
  asserts (restarted_world ph) (event_loop_step assume_new a no_notice None g t w).
Proof.
  intros H S R. unfold event_loop_step, no_notice. cbn [Z.eqb negb].
  assert (S' : synced g (set_running false t) ph) by (destruct S as [C]; split; try done; by destruct C).
  eapply asserts_bind; [apply (handle_outcome assume_new a g (set_running false t) ph w H S'); by destruct R; first [exact (reports_enter (set_running false t))|exact (reports_exit (set_running false t))|constructor]|].
  intros [[g' t'] s] [R' Hs]. destruct (restart_ready a g' t' ph s H R') as (how & Eh & ->); [lia|].
  by exists t', how.
Qed.

Lemma step_synced assume_new x y : step assume_new x y -> synced x.1.1 x.1.2 x.2 -> synced y.1.1 y.1.2 y.2.
Proof.
  intros [a w g t ph g' t' how ph' H R E L N] S. cbn [fst snd] in *.
  pose proof (loop_outcome assume_new a g t ph w H S R) as K. rewrite E in K. destruct K as (t1 & h & E1 & R1 & H1). cbn [fst snd] in *. subst t'.
  injection L as ->. by eapply next_synced.
Qed.

Lemma reachable_synced assume_new x y : rtc (step assume_new) x y -> synced x.1.1 x.1.2 x.2 -> synced y.1.1 y.1.2 y.2.
Proof. induction 1 as [|x y z Hs _ IH]; [done|]. intros S. by eapply IH, step_synced. Qed.

(** C25: PRoot and the kernel agree about the stage of a system call.  At every
    stop that a tracee reaches the field [status] tells the entries from the exits,
    and no assertion of the event loop fails when the stop is handled, whatever the
    order of the entry and filter stops of the kernel and the flags of the filter.
    This is under four conditions.  The tracee is alive and the kernel accepts the
    requests of ptrace(2).  A handler that wants the exit of a system call, or
    chains another one, asks for the next stop (the entry of ioctl(FICLONE) does not,
    and [ficlone_takes_exit_for_entry] then breaks this property).  The creation of a
    child is reported while PRoot knows whether it awaits the exit (it does not on
    the kernels of [fork_forgets_exit]).  Neither SIGSYS nor a ptracer that is
    emulated comes in between. *)
Theorem stages_agree assume_new g0 t0 g t ph : fresh g0 t0 -> rtc (step assume_new) (g0, t0, PUser) (g, t, ph) ->
  stage_ok g t ph
  /\ forall a w, answers_ok a -> reports t ph w -> event_loop_step assume_new a no_notice None g t w <> Stuck AssertFailed.
Proof.
  intros F R. pose proof (reachable_synced _ _ _ R (fresh_synced g0 t0 F)) as S. split; [apply S|].
  intros a w H K. pose proof (loop_outcome assume_new a g t ph w H S K) as L.
  destruct (event_loop_step _ _ _ _ _ _ _) as [x|?|wr]; [done..|]. cbn in L. congruence.
Qed.

(** C26: no stop is left unanswered.  Under the conditions of [stages_agree] (the
    requests of ptrace(2) are accepted, handlers that want an exit or chain a call
    ask for the next stop, which the entry of ioctl(FICLONE) does not, forks are
    reported while the exit is known to be awaited or not, no SIGSYS and no emulated
    ptracer), a stop that a tracee reaches is followed by its restart, unless PRoot
    exits or reads out of its tables of system calls; and the tracee is let run up to
    the next selected system call only when the exit of none is awaited. *)
Theorem stops_restarted assume_new g0 t0 g t ph a w : fresh g0 t0 -> rtc (step assume_new) (g0, t0, PUser) (g, t, ph) ->
  answers_ok a -> reports t ph w ->
  match event_loop_step assume_new a no_notice None g t w with
  | Ok (_, t') => running t' = true /\ restart_how t' = None
      /\ (last_restart_how t' = Some PTRACE_SYSCALL
          \/ last_restart_how t' = Some PTRACE_CONT /\ seccomp t' = ENABLED /\ sysexit_necessary t' = false)
  | Err _ => True
  | Stuck why => why = OutOfBounds
  end.
Proof.
  intros F R H K. pose proof (reachable_synced _ _ _ R (fresh_synced g0 t0 F)) as S.
  pose proof (loop_outcome assume_new a g t ph w H S K) as L. destruct (event_loop_step _ _ _ _ _ _ _) as [[g' t']|?|wr]; [|done..].
  destruct L as (t1 & how & E1 & R1 & H1). cbn in *. subst t'. split_and!; [done|done|].
  destruct (re_how _ _ _ R1) as [E|(E & ? & ?)]; rewrite E in H1; injection H1 as <-; [by left|by right].
Qed.

End Agreement.

(** ** Concrete runs *)

(** A tracee whose registers are all null, at a system call that PRoot filters
    (or not), and answers whose handlers do nothing but what is given. *)
Definition demo_answers (enter : Tracee -> Tracee * Z) (push : PtraceRequest -> option Z) : Answers :=
  mkAnswers (Some (replicate BANK_WORDS 0)) push enter (fun t => (t, 0)) id id (true, true) (Some (5, 10)) (Some 0) (0, 0) []
    id id id (fun t => (t, 0)) (fun _ _ => true).
Definition demo_tracee (s : SeccompState) : Tracee :=
  mkTracee (mkChain (mkRegs (fun _ => replicate BANK_WORDS 0) false false false false false) None false 0 SYSNUM_WORKAROUND_INACTIVE false)
    0 None None s false false false false false false false 0 true SIGSTOP_ALLOWED true false false false 0 false.
Definition demo_globals (order : Order) : Globals := mkGlobals (Some (bool_decide (order = New))) true true EVENTMSG_RELIABLE 0.

Definition nothing (t : Tracee) : Tracee * Z := (t, 0).
Definition accepted (r : PtraceRequest) : option Z := None.

Lemma demo_answers_ok : answers_ok (demo_answers nothing accepted).
Proof. split; try done; cbn; try (intros t; by repeat split; try left). intros f t Hf. by destruct Hf as [-> | ->]; repeat split; try left. Qed.

Lemma demo_new_tracee order : fresh order (demo_globals order) (demo_tracee ENABLED).
Proof. split; try done. by right. Qed.

(** The world after the stops [ws], each handled with the same answers. *)
Fixpoint after_stops (a : Answers) (x : Globals * Tracee) (ws : list Z) : res (Globals * Tracee) :=
  match ws with
  | [] => Ok x
  | w :: ws => let! x := event_loop_step false a no_notice None x.1 x.2 w in after_stops a x ws
  end.
Definition summary (x : res (Globals * Tracee)) : res (Z * option Request * bool) :=
  let! (g, t) := x in Ok (status t, last_restart_how t, voided_syscall_cancelled t).

Definition at_filter : Z := stopcode (Z.lor SIGTRAP (PTRACE_EVENT_SECCOMP * 256)).
Definition at_syscall : Z := stopcode 0x85.
Definition at_fork : Z := stopcode (Z.lor SIGTRAP (PTRACE_EVENT_FORK * 256)).

(** The handler of ioctl(FICLONE) wants the exit without asking for the next
    stop; those of fork(2) and clone(2) ask for both. *)
Definition enter_ficlone (t : Tracee) : Tracee * Z := (set_sysexit true t, 0).
Definition force_fork_sysexit (t : Tracee) : Tracee * Z := (set_restart (Some PTRACE_SYSCALL) (set_sysexit true t), 0).
Definition enter_denied (t : Tracee) : Tracee * Z := (t, -13).

Definition run order enter push ws := summary (after_stops (demo_answers enter push) (demo_globals order, demo_tracee ENABLED) ws).

(** The entry of ioctl(FICLONE) is handled at the stop of the filter, the tracee
    is restarted up to its next stop but PRoot still waits for an entry: it takes
    the exit of the system call for one or, before Linux 4.8, stops on an
    assertion at the entry. *)
Lemma ficlone_takes_exit_for_entry :
  run New enter_ficlone accepted [at_filter; at_syscall] = Ok (1, Some PTRACE_SYSCALL, false)
  /\ next New PTRACE_SYSCALL false PSeccomp PExit
  /\ run Old enter_ficlone accepted [at_filter; at_syscall] = Stuck AssertFailed.
Proof. split; [by vm_compute|]. split; [|by vm_compute]. constructor; [by left|]. by constructor. Qed.

(** Before Linux 4.8 the exit of fork(2) is forgotten at the event of the fork:
    the next system call stops PRoot on an assertion. *)
Lemma fork_forgets_exit :
  run Old force_fork_sysexit accepted [at_filter; at_syscall; at_fork] = Ok (1, Some PTRACE_CONT, false)
  /\ run Old force_fork_sysexit accepted [at_filter; at_syscall; at_fork; at_filter] = Stuck AssertFailed.
Proof. split; by vm_compute. Qed.

(** A kernel that refuses to change the number of a system call is not noticed:
    the denied system call is believed to be voided, as when the kernel accepts. *)
Definition refused (r : PtraceRequest) : option Z := match r with SET_SYSTEM_CALL _ => Some 22 | SET_PRSTATUS _ => None end.
Lemma sysnum_refusal_unseen :
  run New enter_denied refused [at_filter] = Ok (0, Some PTRACE_CONT, true)
  /\ run New enter_denied refused [at_filter] = run New enter_denied accepted [at_filter].
Proof. split; by vm_compute. Qed.

(** Two stops of a tracee: a signal, then the stop of the filter. *)
Definition demo_world (order : Order) : Globals * Tracee :=
  match event_loop_step false (demo_answers nothing accepted) no_notice None (demo_globals order) (demo_tracee ENABLED) (stopcode 10) with
  | Ok x => x
  | _ => (demo_globals order, demo_tracee ENABLED)
  end.

Lemma demo_reached : rtc (step New false) (demo_globals New, demo_tracee ENABLED, PUser) (demo_world New, PSeccomp).
Proof.
  eapply rtc_l; [|apply rtc_refl]. apply (step_stop New false (demo_answers nothing accepted) (stopcode 10) _ _ _ _ _ PTRACE_CONT).
  - apply demo_answers_ok.
  - by apply reports_signal; [lia|done|left].
  - by vm_compute.
  - by vm_compute.
  - apply next_user; [by left|]. apply user_seccomp. by right.
Qed.

Lemma stages_agree_witness : stage_ok New (demo_world New).1 (demo_world New).2 PSeccomp.
Proof. exact (proj1 (stages_agree New false _ _ _ _ _ (demo_new_tracee New) demo_reached)). Defined.

Lemma stops_restarted_witness :
  match event_loop_step false (demo_answers nothing accepted) no_notice None (demo_world New).1 (demo_world New).2 at_filter with
  | Ok (_, t') => running t' = true /\ restart_how t' = None
      /\ (last_restart_how t' = Some PTRACE_SYSCALL
          \/ last_restart_how t' = Some PTRACE_CONT /\ seccomp t' = ENABLED /\ sysexit_necessary t' = false)
  | Err _ => True
  | Stuck why => why = OutOfBounds
  end.
Proof.
  apply (stops_restarted New false _ _ _ _ PSeccomp (demo_answers nothing accepted) at_filter (demo_new_tracee New) demo_reached demo_answers_ok).
  apply reports_seccomp. by left.
Defined.
