(* ===== verification/FakeId.v ===== *)
(** * Emulation of the user 0 (src/extension/fake_id0/)

    With "-0" or "-i uid:gid" a tracee gets user and group identifiers of its
    own: the system calls that change them are emulated, those that read them
    give the emulated ones, and the permission errors of a "root" are turned
    into successes.  This is the build without the macro USERLAND, which no
    build file defines.  [Linux] is the specification: the credentials of the
    kernel. *)

From stdpp Require Import relations.
From S2P Require Import Prelude Memory Paths Binding ProcLinks Sysnum Regs Seccomp NetRules.

(** ** Data *)

Record Config := mkConfig {
  ruid : Z; euid : Z; suid : Z; fsuid : Z;
  rgid : Z; egid : Z; sgid : Z; fsgid : Z;
  umask : Z;
  caps_active : bool;
  keep_caps : bool
}.

#[export] Instance Config_eq_dec : EqDecision Config.
Proof. solve_decision. Defined.

(** The identifiers of users and those of groups, for the macros that are
    instantiated at both. *)
Inductive IdKind := UID | GID.
Record Ids := mkIds { r_id : Z; e_id : Z; s_id : Z; fs_id : Z }.

Definition ids (k : IdKind) (c : Config) : Ids :=
  match k with
  | UID => mkIds (ruid c) (euid c) (suid c) (fsuid c)
  | GID => mkIds (rgid c) (egid c) (sgid c) (fsgid c)
  end.
Definition set_ids (k : IdKind) (i : Ids) (c : Config) : Config :=
  match k with
  | UID => mkConfig (r_id i) (e_id i) (s_id i) (fs_id i) (rgid c) (egid c) (sgid c) (fsgid c) (umask c) (caps_active c) (keep_caps c)
  | GID => mkConfig (ruid c) (euid c) (suid c) (fsuid c) (r_id i) (e_id i) (s_id i) (fs_id i) (umask c) (caps_active c) (keep_caps c)
  end.
Definition set_caps (b : bool) (c : Config) : Config :=
  mkConfig (ruid c) (euid c) (suid c) (fsuid c) (rgid c) (egid c) (sgid c) (fsgid c) (umask c) b (keep_caps c).
Definition set_keep (b : bool) (c : Config) : Config :=
  mkConfig (ruid c) (euid c) (suid c) (fsuid c) (rgid c) (egid c) (sgid c) (fsgid c) (umask c) (caps_active c) b.
Definition with_r (x : Z) (i : Ids) : Ids := mkIds x (e_id i) (s_id i) (fs_id i).
Definition with_s (x : Z) (i : Ids) : Ids := mkIds (r_id i) (e_id i) x (fs_id i).
Definition with_fs (x : Z) (i : Ids) : Ids := mkIds (r_id i) (e_id i) (s_id i) x.
(** The effective identifier and the one of the file-system change together. *)
Definition with_e (x : Z) (i : Ids) : Ids := mkIds (r_id i) x (s_id i) x.

(** ** What the emulation relies on *)

(** The host, seen by PRoot: its own identifiers, the mode of a file, or errno,
    by stat(2) and lstat(2), the flags in /proc/<pid>/fdinfo/<fd> (None when it can't be
    opened, Some None without a line of flags), the configuration of another
    tracee, the size of the stack left to a variable-length array, a bound on the
    number of words of the stack of the tracee. *)
Record Host := mkHost {
  getuid : Z;
  getgid : Z;
  h_stat : cstr -> Z + Z;
  h_lstat : cstr -> Z + Z;
  h_fdinfo : Z -> Z -> option (option Z);
  h_config : Z -> option Config;
  h_stack : Z;
  h_words : nat
}.

(** The system calls this extension filters. *)
Definition fake_filtered_sysnums : list FilteredSysnum :=
  map (fun n => filtered n FILTER_SYSEXIT) [
    PR_capset; PR_chmod; PR_chown; PR_chown32; PR_chroot; PR_execve; PR_fchmod; PR_fchmodat; PR_fchmodat2; PR_fchown;
    PR_fchown32; PR_fchownat; PR_fstat; PR_fstat64; PR_fstatat64; PR_getegid; PR_getegid32; PR_geteuid; PR_geteuid32;
    PR_getgid; PR_getgid32; PR_getgroups; PR_getgroups32; PR_getresgid; PR_getresgid32; PR_getresuid; PR_getresuid32;
    PR_getuid; PR_getuid32; PR_getsockopt; PR_lchown; PR_lchown32; PR_lstat; PR_lstat64; PR_mknod; PR_mknodat;
    PR_newfstatat; PR_oldlstat; PR_oldstat; PR_prctl]
  ++ [filtered PR_sendmsg 0]
  ++ map (fun n => filtered n FILTER_SYSEXIT) [
    PR_setfsgid; PR_setfsgid32; PR_setfsuid; PR_setfsuid32; PR_setgid; PR_setgid32; PR_setgroups; PR_setgroups32;
    PR_setregid; PR_setregid32; PR_setreuid; PR_setreuid32; PR_setresgid; PR_setresgid32; PR_setresuid; PR_setresuid32;
    PR_setuid; PR_setuid32; PR_setxattr; PR_setdomainname; PR_sethostname; PR_socket; PR_lsetxattr; PR_fsetxattr;
    PR_stat; PR_stat64; PR_statfs; PR_statfs64].

Section FakeId.

Context {Mem : Type} {TM : TraceeMemory Mem} {TS : TraceeStrings Mem}.

(** The tracee: [f_status] is its stage and [f_exe] its host_exe. *)
Record FakeTracee := mkFake {
  f_regs : Regs;
  f_mem : Mem;
  f_me : nat;
  f_pid : Z;
  f_status : Z;
  f_exe : cstr;
  skip_proot_loader : bool;
  f_fs : FileSystemNameSpace
}.

Definition set_f_regs (g : Regs) (t : FakeTracee) : FakeTracee := mkFake g (f_mem t) (f_me t) (f_pid t) (f_status t) (f_exe t) (skip_proot_loader t) (f_fs t).
Definition set_f_mem (m : Mem) (t : FakeTracee) : FakeTracee := mkFake (f_regs t) m (f_me t) (f_pid t) (f_status t) (f_exe t) (skip_proot_loader t) (f_fs t).
Definition poke (r : Reg) (v : Z) (t : FakeTracee) : FakeTracee := set_f_regs (poke_reg (f_regs t) r (wrap64 v)) t.
Definition peek (t : FakeTracee) (version : RegVersion) (r : Reg) : Z := peek_reg (f_regs t) version r.
Definition set_f_fs (fs : FileSystemNameSpace) (t : FakeTracee) : FakeTracee :=
  mkFake (f_regs t) (f_mem t) (f_me t) (f_pid t) (f_status t) (f_exe t) (skip_proot_loader t) fs.
(** A value of a register as an [int], and as an identifier. *)
Definition peek_int (t : FakeTracee) (version : RegVersion) (r : Reg) : Z := sgn 32 (peek t version r).
Definition peek_id (t : FakeTracee) (version : RegVersion) (r : Reg) : Z := wrap32 (peek t version r).

(** peek_uint32(), poke_uint16() and poke_uint32() of src/tracee/mem.h; the
    second component of a poke is errno. *)
Definition peek_uint32 (t : FakeTracee) (a : Z) : option Z :=
  match read_data (f_mem t) (f_me t) a 4 with inl l => Some (of_le l) | inr _ => None end.
Definition poke_uint (n : nat) (a v : Z) (t : FakeTracee) : FakeTracee * option Z :=
  let '(m, e) := write_data (f_mem t) (f_me t) a (to_le n v) in (set_f_mem m t, e).

(** The tracee, its configuration and the status. *)
Definition Outcome : Type := res (FakeTracee * Config * Z).
Definition one_of (sysnum : Sysnum) (l : list Sysnum) : bool := existsb (Z.eqb sysnum) l.

(** ** The identifiers *)

Definition privileged (c : Config) : bool := (euid c =? 0) || caps_active c.
Definition prev_root (c : Config) : bool := (ruid c =? 0) || (euid c =? 0) || (suid c =? 0).
Definition MAYBE_DROP_CAPS (prev : bool) (c : Config) : Config :=
  if prev && negb (keep_caps c) && negb (prev_root c) then set_caps false c else c.
Definition UNSET_ID (id : Z) : bool := id =? wrap32 (-1).
Definition EQUALS_ANY_ID (id : Z) (i : Ids) : bool := (id =? r_id i) || (id =? e_id i) || (id =? s_id i).

(** The end of a successful emulation. *)
Definition set_done (k : IdKind) (i : Ids) (c : Config) (t : FakeTracee) : Outcome :=
  Ok (poke SYSARG_RESULT 0 t, MAYBE_DROP_CAPS (prev_root c) (set_ids k i c), 0).

Definition SETXID (k : IdKind) (version : RegVersion) (t : FakeTracee) (c : Config) : Outcome :=
  let id := peek_id t version SYSARG_1 in
  let i := ids k c in
  if negb (privileged c || EQUALS_ANY_ID id i) then Ok (t, c, - EPERM)
  else set_done k (with_e id (if privileged c then with_s id (with_r id i) else i)) c t.

Definition SETREXID (k : IdKind) (version : RegVersion) (t : FakeTracee) (c : Config) : Outcome :=
  let r := peek_id t version SYSARG_1 in
  let e := peek_id t version SYSARG_2 in
  let i := ids k c in
  let same_r := UNSET_ID r || (r =? r_id i) in
  let same_e := UNSET_ID e || (e =? e_id i) in
  let allowed := privileged c || (same_e && same_r)
                 || ((r =? e_id i) && ((e =? r_id i) || same_e))
                 || ((e =? r_id i) && ((r =? e_id i) || same_r))
                 || ((e =? s_id i) && same_r) in
  if negb allowed then Ok (t, c, - EPERM)
  else
    let i := if UNSET_ID e then i else with_e e (if e =? r_id i then i else with_s e i) in
    let i := if UNSET_ID r then i else with_r r (if UNSET_ID e then i else with_s e i) in
    set_done k i c t.

Definition SETRESXID (k : IdKind) (version : RegVersion) (t : FakeTracee) (c : Config) : Outcome :=
  let r := peek_id t version SYSARG_1 in
  let e := peek_id t version SYSARG_2 in
  let s := peek_id t version SYSARG_3 in
  let i := ids k c in
  let free id := UNSET_ID id || EQUALS_ANY_ID id i in
  if negb (privileged c || (free r && free e && free s)) then Ok (t, c, - EPERM)
  else
    let i := if UNSET_ID r then i else with_r r i in
    let i := if UNSET_ID e then i else with_e e i in
    let i := if UNSET_ID s then i else with_s s i in
    set_done k i c t.

Definition SETFSXID (k : IdKind) (t : FakeTracee) (c : Config) : Outcome :=
  let fs := peek_id t ORIGINAL SYSARG_1 in
  let i := ids k c in
  let c' := if privileged c || (fs =? fs_id i) || EQUALS_ANY_ID fs i then set_ids k (with_fs fs i) c else c in
  Ok (poke SYSARG_RESULT (fs_id i) t, c', 0).

Definition is_16bit_id_syscall (t : FakeTracee) (sysnum : Sysnum) : bool :=
  one_of sysnum [PR_getresuid; PR_getresgid] && bool_decide (get_abi (f_regs t) = ABI_2).

Definition POKE_MEM_ID (sysnum : Sysnum) (r : Reg) (id : Z) (t : FakeTracee) : FakeTracee * option Z :=
  poke_uint (if is_16bit_id_syscall t sysnum then 2 else 4) (peek t ORIGINAL r) id t.

Definition handle_getres_exit_end (k : IdKind) (sysnum : Sysnum) (t : FakeTracee) (c : Config) : Outcome :=
  let '(t, e) := POKE_MEM_ID sysnum SYSARG_1 (r_id (ids k c)) t in
  match e with
  | Some e => Ok (t, c, - e)
  | None =>
      let '(t, e) := POKE_MEM_ID sysnum SYSARG_2 (e_id (ids k c)) t in
      match e with
      | Some e => Ok (t, c, - e)
      | None =>
          let '(t, e) := POKE_MEM_ID sysnum SYSARG_3 (s_id (ids k c)) t in
          Ok (t, c, match e with Some e => - e | None => 0 end)
      end
  end.

(** ** Results *)

Definition S_IFMT := 61440.
Definition S_ISBLK (mode : Z) : bool := Z.land mode S_IFMT =? 24576.
Definition S_ISCHR (mode : Z) : bool := Z.land mode S_IFMT =? 8192.
Definition S_ISDIR (mode : Z) : bool := Z.land mode S_IFMT =? 16384.
Definition S_ISREG (mode : Z) : bool := Z.land mode S_IFMT =? 32768.
Definition S_ISLNK (mode : Z) : bool := Z.land mode S_IFMT =? 40960.
Definition S_ISUID := 2048.
Definition S_ISGID := 1024.

(** A permission error in the result of the system call. *)
Definition denied (t : FakeTracee) : bool :=
  (peek_int t CURRENT SYSARG_RESULT =? - EPERM) || (peek_int t CURRENT SYSARG_RESULT =? - EACCES).

Definition handle_perm_err_exit_end (even_if_not_root : bool) (t : FakeTracee) (c : Config) : Outcome :=
  if negb (denied t) then Ok (t, c, 0)
  else
    let! sysnum := get_sysnum (f_regs t) CURRENT in
    let mode := peek t CURRENT (if sysnum =? PR_mknod then SYSARG_2 else SYSARG_3) in
    if one_of sysnum [PR_mknod; PR_mknodat] && (S_ISBLK mode || S_ISCHR mode)
    then Ok (poke SYSARG_RESULT (- ENOENT) t, c, 0)
    else Ok (if even_if_not_root || (euid c =? 0) then poke SYSARG_RESULT 0 t else t, c, 0).

Definition PR_SET_KEEPCAPS := 8.
Definition handle_prctl_exit_end (t : FakeTracee) (c : Config) : Outcome :=
  if (peek_int t CURRENT SYSARG_RESULT =? 0) && (peek_int t ORIGINAL SYSARG_1 =? PR_SET_KEEPCAPS)
  then Ok (t, set_keep (negb (peek t ORIGINAL SYSARG_2 =? 0)) c, 0) else Ok (t, c, 0).

(** The identifiers of PRoot in the arguments of chown(2): there is a chance
    that the system call succeeds. *)
Definition handle_chown_enter_end (h : Host) (uid_sysarg gid_sysarg : Reg) (t : FakeTracee) (c : Config) : Outcome :=
  let t' := if peek_id t ORIGINAL uid_sysarg =? ruid c then poke uid_sysarg (getuid h) t else t in
  let t' := if peek_id t ORIGINAL gid_sysarg =? rgid c then poke gid_sysarg (getgid h) t' else t' in
  Ok (t', c, 0).

(** The offsets are those of both ABIs. *)
Definition offsetof_stat_uid := 24.
Definition offsetof_stat_gid := 28.

Definition handle_stat_exit_end (h : Host) (stat_sysarg : Reg) (t : FakeTracee) (c : Config) : Outcome :=
  if negb (peek t CURRENT SYSARG_RESULT =? 0) then Ok (t, c, 0)
  else
    let address := peek t ORIGINAL stat_sysarg in
    let uid := default 0 (peek_uint32 t (wrap64 (address + offsetof_stat_uid))) in
    let gid := default 0 (peek_uint32 t (wrap64 (address + offsetof_stat_gid))) in
    let t := if uid =? getuid h then fst (poke_uint 4 (wrap64 (address + offsetof_stat_uid)) (suid c) t) else t in
    let t := if gid =? getgid h then fst (poke_uint 4 (wrap64 (address + offsetof_stat_gid)) (sgid c) t) else t in
    Ok (t, c, 0).

(** A statx structure: the mask and the owner, and whether it was changed. *)
Record StatxState := mkStatx { stx_mask : Z; stx_uid : Z; stx_gid : Z; updated_stats : bool }.
Definition STATX_UID := 8.
Definition STATX_GID := 16.

Definition fake_id0_handle_statx_syscall (h : Host) (c : Config) (s : StatxState) : StatxState :=
  let s := if negb (Z.land (stx_mask s) STATX_UID =? 0) && (stx_uid s =? getuid h)
           then mkStatx (stx_mask s) (suid c) (stx_gid s) true else s in
  if negb (Z.land (stx_mask s) STATX_GID =? 0) && (stx_gid s =? getgid h)
  then mkStatx (stx_mask s) (stx_uid s) (sgid c) true else s.

Definition ENOSYS := 38.
Definition EPROTONOSUPPORT := 93.
Definition AF_NETLINK := 16.
Definition NETLINK_AUDIT := 9.

Definition handle_socket_exit_end (t : FakeTracee) (c : Config) : Outcome :=
  if denied t && (peek t ORIGINAL SYSARG_1 =? AF_NETLINK) && (peek t ORIGINAL SYSARG_3 =? NETLINK_AUDIT) && (euid c =? 0)
  then Ok (t, c, - EPROTONOSUPPORT) else Ok (t, c, 0).

Definition SOL_SOCKET := 1.
Definition SO_PEERCRED := 17.

(** get_fake_id_for_pid(): [c] belongs to the tracee itself. *)
Definition get_fake_id_for_pid (h : Host) (t : FakeTracee) (c : Config) (pid : Z) : option Config :=
  if pid =? f_pid t then Some c else h_config h pid.

(** struct ucred: pid, uid and gid. *)
Definition handle_getsockopt_exit_end (h : Host) (t : FakeTracee) (c : Config) : Outcome :=
  if negb ((peek t ORIGINAL SYSARG_2 =? SOL_SOCKET) && (peek t ORIGINAL SYSARG_3 =? SO_PEERCRED)
           && (peek t CURRENT SYSARG_RESULT =? 0)) then Ok (t, c, 0)
  else
    let address := peek t ORIGINAL SYSARG_4 in
    match read_data (f_mem t) (f_me t) address 12 with
    | inr _ => Ok (t, c, 0)
    | inl cred =>
        let peer := get_fake_id_for_pid h t c (sgn 32 (of_le (slice 0 4 cred))) in
        let peer := match peer with
                    | None => if of_le (slice 4 4 cred) =? getuid h then get_fake_id_for_pid h t c (f_pid t) else None
                    | Some p => Some p
                    end in
        match peer with
        | None => Ok (t, c, 0)
        | Some p =>
            Ok (set_f_mem (fst (write_data (f_mem t) (f_me t) address (slice 0 4 cred ++ to_le 4 (euid p) ++ to_le 4 (egid p)))) t, c, 0)
        end
    end.

(** ** sendmsg(2) *)

(** alloc_mem() of src/tracee/mem.c: the address, null when the stack pointer
    would overflow; RED_ZONE_SIZE is null. *)
Definition alloc_mem (size : Z) (t : FakeTracee) : res (FakeTracee * Z) :=
  check! f_status t =? 0 else AssertFailed in
  let sp := peek t CURRENT STACK_POINTER in
  if ((0 <? size) && (sp <=? size)) || ((size <? 0) && (wrap64 (2 ^ 64 - 1 + size) <=? sp)) then Ok (t, 0)
  else Ok (poke STACK_POINTER (sp - size) t, wrap64 (sp - size)).

(** set_sysarg_data() of src/syscall/syscall.c, with its status. *)
Definition set_sysarg_data (data : list Z) (r : Reg) (t : FakeTracee) : res (FakeTracee * Z) :=
  let! (t, a) := alloc_mem (zlen data) t in
  if a =? 0 then Ok (t, - EFAULT)
  else
    let '(m, e) := write_data (f_mem t) (f_me t) a data in
    match e with
    | Some e => Ok (set_f_mem m t, - e)
    | None => Ok (poke r a (set_f_mem m t), 0)
    end.

Definition MAX_CONTROLLEN := 1024.
Definition SCM_CREDENTIALS := 2.
Definition SYS_SOCKET := 1.
Definition SYS_SENDMSG := 16.

(** The layouts of struct msghdr and struct cmsghdr: their sizes, the mask of the
    alignment, the fields msg_control, msg_controllen and cmsg_len (offset and
    size), the offsets of cmsg_level and cmsg_type. *)
Record Layout := mkLayout {
  l_msghdr : Z; l_cmsghdr : Z; l_mask : Z; l_control : nat * nat; l_controllen : nat * nat; l_len : nat; l_level : nat; l_type : nat
}.
Definition layout (t : FakeTracee) : Layout :=
  if is_32on64_mode (f_regs t) then mkLayout 28 12 3 (16%nat, 4%nat) (20%nat, 4%nat) 4 4 8
  else mkLayout 56 16 7 (32%nat, 8%nat) (40%nat, 8%nat) 8 8 12.
Definition field (f : nat * nat) (b : list Z) : Z := of_le (slice (fst f) (snd f) b).
(** The bytes [i] to [i + n] replaced. *)
Definition overwrite (i : nat) (data b : list Z) : list Z := take i b ++ data ++ drop (i + length data) b.
Definition sendmsg_pack_control (l : Layout) (control : Z) (msg : list Z) : list Z :=
  overwrite (fst (l_control l)) (to_le (snd (l_control l)) control) msg.

(** The loop over the control messages: [None] when one is malformed, otherwise
    the buffer and whether it was modified. *)
Fixpoint cmsg_loop (fuel : nat) (h : Host) (l : Layout) (controllen pos : Z) (buf : list Z) (modified : bool) : res (option (list Z * bool)) :=
  if controllen <=? pos then Ok (Some (buf, modified))
  else
    match fuel with
    | O => Stuck NoFuel
    | S fuel =>
        if controllen - pos <? l_cmsghdr l then Ok None
        else
          let header := drop (Z.to_nat pos) buf in
          let len := of_le (take (l_len l) header) in
          if negb ((l_cmsghdr l <=? len) && (len <=? controllen - pos)) then Ok None
          else
            let credentials := (sgn 32 (of_le (slice (l_level l) 4 header)) =? SOL_SOCKET)
                               && (sgn 32 (of_le (slice (l_type l) 4 header)) =? SCM_CREDENTIALS) in
            if credentials && negb (len =? l_cmsghdr l + 12) then Ok None
            else
              let buf := if credentials
                         then overwrite (Z.to_nat (pos + l_cmsghdr l + 4)) (to_le 4 (getuid h) ++ to_le 4 (getgid h)) buf else buf in
              cmsg_loop fuel h l controllen (pos + Z.land (len + l_mask l) (Z.lnot (l_mask l))) buf (modified || credentials)
    end.

(** The modified control messages are pushed to the memory of the tracee. *)
Definition push_message (is_socketcall : bool) (args : list Z) (msg buf : list Z) (t : FakeTracee) (c : Config) : Outcome :=
  let fail t := Ok (t, c, - ENOMEM) in
  let! (t, control) := alloc_mem (zlen buf) t in
  if control =? 0 then fail t
  else
    let '(m, e) := write_data (f_mem t) (f_me t) control buf in
    let t := set_f_mem m t in
    match e with
    | Some _ => fail t
    | None =>
        let! (t, header) := alloc_mem (l_msghdr (layout t)) t in
        if header =? 0 then fail t
        else
          let data := take (Z.to_nat (l_msghdr (layout t))) (sendmsg_pack_control (layout t) control msg) in
          let '(m, e) := write_data (f_mem t) (f_me t) header data in
          let t := set_f_mem m t in
          match e with
          | Some _ => fail t
          | None =>
              if negb is_socketcall then Ok (poke SYSARG_2 header t, c, 0)
              else let! (t, st) := set_sysarg_data (overwrite 8 (to_le 8 header) args) SYSARG_2 t in Ok (t, c, st)
          end
    end.

(** The header of the message is read: [msg] is a whole struct msghdr of the
    host, null where the tracee's is shorter. *)
Definition fix_message (h : Host) (is_socketcall : bool) (args : list Z) (address : Z) (t : FakeTracee) (c : Config) : Outcome :=
  let l := layout t in
  match read_data (f_mem t) (f_me t) address (l_msghdr l) with
  | inr e => Ok (t, c, - e)
  | inl data =>
      let msg := resize 56 0 data in
      let control := field (l_control l) msg in
      let controllen := field (l_controllen l) msg in
      if (control =? 0) || (controllen =? 0) || (MAX_CONTROLLEN <? field (40%nat, 8%nat) msg) then Ok (t, c, 0)
      else
        check! controllen <=? h_stack h else OutOfBounds in
        match read_data (f_mem t) (f_me t) control controllen with
        | inr e => Ok (t, c, - e)
        | inl buf =>
            let! r := cmsg_loop (Z.to_nat controllen) h l controllen 0 buf false in
            match r with
            | Some (buf, true) => push_message is_socketcall args msg buf t c
            | _ => Ok (t, c, 0)
            end
        end
  end.

Definition handle_sendmsg_enter_end (h : Host) (sysnum : Sysnum) (t : FakeTracee) (c : Config) : Outcome :=
  if negb (sysnum =? PR_socketcall) then fix_message h false [] (peek t CURRENT SYSARG_2) t c
  else
    let call := peek t CURRENT SYSARG_1 in
    let args := read_data (f_mem t) (f_me t) (peek t CURRENT SYSARG_2) 24 in
    if call =? SYS_SOCKET then
      match args with
      | inr _ => Stuck OutOfBounds
      | inl args => Ok (t, c, if (field (0%nat, 8%nat) args =? AF_NETLINK) && (field (16%nat, 8%nat) args =? NETLINK_AUDIT)
                              then - EPROTONOSUPPORT else 0)
      end
    else if negb (call =? SYS_SENDMSG) then Ok (t, c, 0)
    else match args with
         | inr e => Ok (t, c, - e)
         | inl args => fix_message h true args (field (8%nat, 8%nat) args) t c
         end.

(** ** System call entry *)

Definition O_PATH := 2097152.
Definition O_ACCMODE := 3.

(** strtol() sets errno to ERANGE. *)
Definition strtol_overflows (s : cstr) : bool :=
  let '(negative, n, _) := scan_number s in if negative then - LONG_MIN <? n else LONG_MAX <? n.

(** A file of /proc that names a descriptor of the tracee is opened by a
    duplication of this descriptor. *)
Definition proc_fd (t : FakeTracee) (path : cstr) : option Z :=
  let prefix := bs "/proc/" ++ itoa (f_pid t) ++ bs "/fd/" in
  if negb (starts_with prefix path) then None
  else
    let text := drop (length prefix) path in
    let '(n, rest) := strtol10_end text in
    let fd := sgn 32 n in
    if strtol_overflows text || (length rest =? length text)%nat || negb (str_eqb rest []) || (fd <? 0) then None else Some fd.

Definition handle_openat_enter_end (h : Host) (t : FakeTracee) (c : Config) : Outcome :=
  if negb (euid c =? 0) then Ok (t, c, 0)
  else match read_string (f_mem t) (f_me t) (peek t CURRENT SYSARG_2) PATH_MAX with
       | inr _ => Ok (t, c, 0)
       | inl path =>
           match proc_fd t path with
           | None => Ok (t, c, 0)
           | Some fd =>
               let requested := peek_int t CURRENT SYSARG_3 in
               let flags := match h_fdinfo h (f_pid t) fd with Some (Some f) => Some f | _ => None end in
               let existing := default 0 flags in
               let reopened := bool_decide (is_Some flags) && negb (Z.land existing O_ACCMODE =? Z.land requested O_ACCMODE)
                               && match h_stat h path with inl mode => S_ISREG mode | inr _ => false end in
               if negb (Z.land existing O_PATH =? 0) || reopened then Ok (t, c, 0)
               else let! g := set_sysnum (f_regs t) PR_dup in Ok (poke SYSARG_1 fd (set_f_regs g t), c, 0)
           end
       end.

Definition setid_sysnums : list Sysnum :=
  [PR_setuid; PR_setuid32; PR_setgid; PR_setgid32; PR_setreuid; PR_setreuid32; PR_setregid; PR_setregid32;
   PR_setresuid; PR_setresuid32; PR_setresgid; PR_setresgid32; PR_setfsuid; PR_setfsuid32; PR_setfsgid; PR_setfsgid32].

Definition handle_sysenter_end (h : Host) (t : FakeTracee) (c : Config) : Outcome :=
  let! sysnum := get_sysnum (f_regs t) ORIGINAL in
  if one_of sysnum [PR_sendmsg; PR_socketcall] then handle_sendmsg_enter_end h sysnum t c
  else if one_of sysnum setid_sysnums then let! g := set_sysnum (f_regs t) PR_void in Ok (set_f_regs g t, c, 0)
  else if sysnum =? PR_fchownat then handle_chown_enter_end h SYSARG_3 SYSARG_4 t c
  else if one_of sysnum [PR_chown; PR_chown32; PR_lchown; PR_lchown32; PR_fchown; PR_fchown32] then handle_chown_enter_end h SYSARG_2 SYSARG_3 t c
  else if sysnum =? PR_openat then handle_openat_enter_end h t c
  else Ok (t, c, 0).

(** ** chroot(2) *)

(** What chroot(2) needs of the rest of PRoot: translate_path() and
    detranslate_path() for the tracee, realpath(3), and the bindings that
    new_binding() and initialize_bindings() make of a new root. *)
Record ChrootHost := mkChrootHost {
  translate : FileSystemNameSpace -> cstr -> res cstr;
  detranslate : FileSystemNameSpace -> cstr -> option cstr;
  realpath : cstr -> res cstr;
  rooted_at : cstr -> FileSystemNameSpace
}.

(** The bindings but the last one, the root. *)
Definition is_under (new_root : option cstr) (b : Binding) : res bool :=
  match new_root with
  | None => Stuck OutOfBounds
  | Some p => let! cmp := compare_paths p (path (guest b)) in Ok (bool_decide (cmp = PATH1_IS_PREFIX))
  end.
Fixpoint binding_under (new_root : option cstr) (l : list Binding) : res bool :=
  match l with
  | [] | [_] => Ok false
  | b :: l => let! under := is_under new_root b in if under then Ok true else binding_under new_root l
  end.

(** [path_guest] is only set when the system call is emulated from SIGSYS. *)
Definition handle_chroot_exit_end (h : Host) (ch : ChrootHost) (from_sigsys : bool) (t : FakeTracee) (c : Config) : Outcome :=
  let fs := f_fs t in
  let read version := match read_string (f_mem t) (f_me t) (peek t version SYSARG_1) PATH_MAX with
                      | inr e => Err e
                      | inl p => if PATH_MAX <=? zlen p + 1 then Err ENAMETOOLONG else Ok p
                      end in
  if negb (euid c =? 0) then Ok (t, c, if from_sigsys then - EPERM else 0)
  else
    let t' := if from_sigsys then poke SYSARG_RESULT (- EPERM) t else t in
    if negb from_sigsys && negb (peek_int t CURRENT SYSARG_RESULT =? - EPERM) then Ok (t, c, 0)
    else
      let path_guest := if from_sigsys then match read CURRENT with Ok p => Some p | _ => None end else None in
      let host_path := if from_sigsys then let! p := read CURRENT in translate ch fs p else read MODIFIED in
      match (let! p := host_path in realpath ch p) with
      | Stuck w => Stuck w
      | Err e => Ok (t', c, - e)
      | Ok root =>
          let success fs := Ok (set_f_fs fs (if from_sigsys then t' else poke SYSARG_RESULT 0 t'), c, if from_sigsys then 1 else 0) in
          let! current := get_root fs in
          let! cmp := compare_paths (default [] current) root in
          if bool_decide (cmp = PATHS_ARE_EQUAL) then success fs
          else
            match h_stat h root with
            | inr e => Ok (t', c, - e)
            | inl mode =>
                if negb (S_ISDIR mode) then Ok (t', c, - ENOTDIR)
                else
                  match (if from_sigsys then Ok [] else read ORIGINAL) with
                  | Err e => Ok (t', c, - e)
                  | Stuck w => Stuck w
                  | Ok _ =>
                      let! seen := binding_under path_guest (default [] (bindings_guest fs)) in
                      if seen then Ok (t', c, if from_sigsys then - ENOSYS else 0)
                      else
                        match translate ch fs (cwd fs) with
                        | Stuck w => Stuck w
                        | Err e => Ok (t', c, - e)
                        | Ok p =>
                            let fs' := rooted_at ch root in
                            success (mkFs (bindings_pending fs') (bindings_guest fs') (bindings_host fs')
                                       (default (bs "/") (detranslate ch fs' p)))
                        end
                  end
            end
      end.

(** ** execve(2) *)

Definition AT_UID := 11.
Definition AT_EUID := 12.
Definition AT_GID := 13.
Definition AT_EGID := 14.

Definition sizeof_word (t : FakeTracee) : Z := if is_32on64_mode (f_regs t) then 4 else 8.
Definition peek_word (t : FakeTracee) (a : Z) : option Z :=
  match read_data (f_mem t) (f_me t) a (sizeof_word t) with inl l => Some (of_le l) | inr _ => None end.
Definition poke_word (a v : Z) (t : FakeTracee) : FakeTracee * option Z := poke_uint (Z.to_nat (sizeof_word t)) a v t.

(** src/execve/auxv.c: the words up to a null one are skipped; [Some 0] after an
    error. *)
Fixpoint skip_words (fuel : nat) (t : FakeTracee) (a : Z) : res Z :=
  match fuel with
  | O => Stuck NoFuel
  | S fuel =>
      match peek_word t a with
      | None => Ok 0
      | Some w => let a := wrap64 (a + sizeof_word t) in if w =? 0 then Ok a else skip_words fuel t a
      end
  end.

Definition get_elf_aux_vectors_address (h : Host) (t : FakeTracee) : res Z :=
  let! original := get_sysnum (f_regs t) ORIGINAL in
  check! negb (f_status t =? 0) && (original =? PR_execve) else AssertFailed in
  let sp := peek t CURRENT STACK_POINTER in
  match peek_word t sp with
  | None => Ok 0
  | Some argc => skip_words (h_words h) t (wrap64 (sp + (1 + argc + 1) * sizeof_word t))
  end.

(** The vectors up to AT_NULL; [None] after an error. *)
Fixpoint fetch_elf_aux_vectors (fuel : nat) (t : FakeTracee) (a : Z) : res (option (list (Z * Z))) :=
  match fuel with
  | O => Stuck NoFuel
  | S fuel =>
      match peek_word t a with
      | None => Ok None
      | Some type =>
          let a := wrap64 (a + sizeof_word t) in
          if type =? 0 then Ok (Some [])
          else match peek_word t a with
               | None => Ok None
               | Some value =>
                   let! l := fetch_elf_aux_vectors fuel t (wrap64 (a + sizeof_word t)) in
                   Ok (match l with Some l => Some ((type, value) :: l) | None => None end)
               end
      end
  end.

(** push_elf_aux_vectors(): the words are written until one fails. *)
Fixpoint push_words (l : list Z) (a : Z) (t : FakeTracee) : FakeTracee :=
  match l with
  | [] => t
  | w :: l =>
      let '(t, e) := poke_word a w t in
      match e with Some _ => t | None => push_words l (wrap64 (a + sizeof_word t)) t end
  end.
Definition push_elf_aux_vectors (vectors : list (Z * Z)) (a : Z) (t : FakeTracee) : FakeTracee :=
  push_words (flat_map (fun '(type, value) => [type; value]) vectors ++ [0; 0]) a t.

Definition adjust_vector (c : Config) (v : Z * Z) : Z * Z :=
  let '(type, value) := v in
  (type, if type =? AT_UID then ruid c else if type =? AT_EUID then euid c else if type =? AT_GID then rgid c
         else if type =? AT_EGID then egid c else value).

Definition adjust_elf_auxv (h : Host) (t : FakeTracee) (c : Config) : res FakeTracee :=
  let! address := get_elf_aux_vectors_address h t in
  if address =? 0 then Ok t
  else
    let! vectors := fetch_elf_aux_vectors (h_words h) t address in
    match vectors with
    | None => Ok t
    | Some vectors => Ok (push_elf_aux_vectors (map (adjust_vector c) vectors) address t)
    end.

(** A program with the set-user-ID bit. *)
Definition exec_setid (mode : Z) (c : Config) : Config :=
  let c := if negb (Z.land mode S_ISUID =? 0)
           then set_caps true (mkConfig (ruid c) 0 0 (fsuid c) (rgid c) (egid c) (sgid c) (fsgid c) (umask c) (caps_active c) (keep_caps c)) else c in
  if negb (Z.land mode S_ISGID =? 0)
  then mkConfig (ruid c) (euid c) (suid c) (fsuid c) (rgid c) 0 0 (fsgid c) (umask c) (caps_active c) (keep_caps c) else c.

Definition handle_sysexit_start (h : Host) (t : FakeTracee) (c : Config) : Outcome :=
  let! sysnum := get_sysnum (f_regs t) ORIGINAL in
  if (peek_int t CURRENT SYSARG_RESULT <? 0) || (f_status t <? 0) || negb (sysnum =? PR_execve) then Ok (t, c, 0)
  else
    let! t := if skip_proot_loader t then Ok t else adjust_elf_auxv h t c in
    let c := set_keep false c in
    match h_stat h (f_exe t) with
    | inr _ => Ok (t, c, 0)
    | inl mode => Ok (t, exec_setid mode c, 0)
    end.

(** ** System call exit, and SIGSYS *)

Definition handle_sysexit_end (h : Host) (ch : ChrootHost) (t : FakeTracee) (c : Config) : Outcome :=
  let! sysnum := get_sysnum (f_regs t) ORIGINAL in
  let among l := one_of sysnum l in
  let result v := Ok (poke SYSARG_RESULT v t, c, 0) in
  if among [PR_setuid; PR_setuid32] then SETXID UID ORIGINAL t c
  else if among [PR_setgid; PR_setgid32] then SETXID GID ORIGINAL t c
  else if among [PR_setreuid; PR_setreuid32] then SETREXID UID ORIGINAL t c
  else if among [PR_setregid; PR_setregid32] then SETREXID GID ORIGINAL t c
  else if among [PR_setresuid; PR_setresuid32] then SETRESXID UID ORIGINAL t c
  else if among [PR_setresgid; PR_setresgid32] then SETRESXID GID ORIGINAL t c
  else if among [PR_setfsuid; PR_setfsuid32] then SETFSXID UID t c
  else if among [PR_setfsgid; PR_setfsgid32] then SETFSXID GID t c
  else if among [PR_prctl] then handle_prctl_exit_end t c
  else if among [PR_getuid; PR_getuid32] then result (ruid c)
  else if among [PR_getgid; PR_getgid32] then result (rgid c)
  else if among [PR_geteuid; PR_geteuid32] then result (euid c)
  else if among [PR_getegid; PR_getegid32] then result (egid c)
  else if among [PR_getresuid; PR_getresuid32] then handle_getres_exit_end UID sysnum t c
  else if among [PR_getresgid; PR_getresgid32] then handle_getres_exit_end GID sysnum t c
  else if among [PR_setdomainname; PR_sethostname; PR_setgroups; PR_setgroups32; PR_mknod; PR_mknodat; PR_capset; PR_chmod; PR_chown;
              PR_fchmod; PR_fchown; PR_lchown; PR_chown32; PR_fchown32; PR_lchown32; PR_fchmodat; PR_fchmodat2; PR_fchownat]
       then handle_perm_err_exit_end false t c
  else if among [PR_setxattr; PR_lsetxattr; PR_fsetxattr] then handle_perm_err_exit_end true t c
  else if among [PR_socket] then handle_socket_exit_end t c
  else if among [PR_fstatat64; PR_newfstatat] then handle_stat_exit_end h SYSARG_3 t c
  else if among [PR_stat64; PR_lstat64; PR_fstat64; PR_stat; PR_lstat; PR_fstat] then handle_stat_exit_end h SYSARG_2 t c
  else if among [PR_chroot] then handle_chroot_exit_end h ch false t c
  else if among [PR_getsockopt] then handle_getsockopt_exit_end h t c
  else Ok (t, c, 0).

Definition handle_sigsys (h : Host) (ch : ChrootHost) (t : FakeTracee) (c : Config) : Outcome :=
  let! sysnum := get_sysnum (f_regs t) CURRENT in
  let among l := one_of sysnum l in
  if among [PR_setuid; PR_setuid32] then SETXID UID CURRENT t c
  else if among [PR_setgid; PR_setgid32] then SETXID GID CURRENT t c
  else if among [PR_setreuid; PR_setreuid32] then SETREXID UID CURRENT t c
  else if among [PR_setregid; PR_setregid32] then SETREXID GID CURRENT t c
  else if among [PR_setresuid; PR_setresuid32] then SETRESXID UID CURRENT t c
  else if among [PR_setresgid; PR_setresgid32] then SETRESXID GID CURRENT t c
  else if among [PR_chroot] then handle_chroot_exit_end h ch true t c
  else Ok (t, c, 0).

(** ** The permissions of the files a "root" accesses *)

Definition AT_SYMLINK_NOFOLLOW := 256.

(** override_permissions(): the mode that is set now and the one that is set
    again at the end of the system call.  [skip] is the f2fs bug, [alloc] the
    success of the allocations. *)
Definition override_permissions (h : Host) (fake_permissions skip alloc : bool) (t : FakeTracee) (path : cstr) (is_final : bool)
  : res (option (Z * Z)) :=
  if fake_permissions || skip then Ok None
  else match h_stat h path with
       | inr _ => Ok None
       | inl mode =>
           let new_mode := Z.lor (Z.land mode 511) 384 in
           let new_mode := if S_ISDIR mode then Z.lor new_mode 64 else new_mode in
           if (new_mode =? Z.land mode 511) || negb alloc then Ok None
           else if negb is_final then Ok (Some (new_mode, mode))
           else
             let! sysnum := get_sysnum (f_regs t) ORIGINAL in
             if sysnum =? PR_chmod then Ok (Some (new_mode, peek_id t ORIGINAL SYSARG_2))
             else if sysnum =? PR_fchmodat then Ok (Some (new_mode, peek_id t ORIGINAL SYSARG_3))
             else if sysnum =? PR_fchmodat2 then
               let nofollow := negb (Z.land (peek t ORIGINAL SYSARG_4) AT_SYMLINK_NOFOLLOW =? 0)
                               && match h_lstat h path with inl link => S_ISLNK link | inr _ => false end in
               Ok (Some (new_mode, if nofollow then mode else peek_id t ORIGINAL SYSARG_3))
             else if one_of sysnum [PR_fstatat64; PR_lstat; PR_lstat64; PR_newfstatat; PR_oldlstat; PR_oldstat; PR_stat; PR_stat64;
                                    PR_statfs; PR_statfs64] then Ok None
             else Ok (Some (new_mode, mode))
       end.

(** ** The extension *)

(** INITIALIZATION, with the text "uid:gid". *)
Definition new_config (h : Host) (uid_string : cstr) : Config :=
  let uid := if strtol_overflows uid_string then sgn 32 (getuid h) else sgn 32 (fst (strtol10_end uid_string)) in
  let gid := match strchr 58 uid_string with
             | None => sgn 32 (getgid h)
             | Some (_, gid_string) => if strtol_overflows gid_string then sgn 32 (getgid h) else sgn 32 (fst (strtol10_end gid_string))
             end in
  let u := wrap32 uid in
  let g := wrap32 gid in
  mkConfig u u u u g g g g 18 (uid =? 0) false.

(** INHERIT_CHILD: the child has a copy. *)
Definition inherit_child (parent : Config) : Config := parent.

Inductive FakeEvent := SYSCALL_ENTER_END | SYSCALL_EXIT_END | SIGSYS_OCC | SYSCALL_EXIT_START.

Definition sigsys_sysnums : list Sysnum :=
  [PR_setuid; PR_setuid32; PR_setgid; PR_setgid32; PR_setreuid; PR_setreuid32; PR_setregid; PR_setregid32;
   PR_setresuid; PR_setresuid32; PR_setresgid; PR_setresgid32; PR_chroot].

Definition fake_id0_callback (h : Host) (ch : ChrootHost) (event : FakeEvent) (t : FakeTracee) (c : Config) : Outcome :=
  match event with
  | SYSCALL_ENTER_END => handle_sysenter_end h t c
  | SYSCALL_EXIT_END => handle_sysexit_end h ch t c
  | SIGSYS_OCC =>
      let! sysnum := get_sysnum (f_regs t) CURRENT in
      if negb (one_of sysnum sigsys_sysnums) then Ok (t, c, 0)
      else let! (t, c, status) := handle_sigsys h ch t c in Ok (t, c, if status <? 0 then status else 1)
  | SYSCALL_EXIT_START => handle_sysexit_start h t c
  end.

(** ** Specification: the credentials of the kernel

    setuid(2), setreuid(2), setresuid(2) and setfsuid(2), and their counterparts
    for groups, of a process that has the capability or not (kernel/sys.c). *)

Inductive Call := SetId (id : Z) | SetReId (r e : Z) | SetResId (r e s : Z) | SetFsId (fs : Z).

Definition one_id (id : Z) (i : Ids) : bool := UNSET_ID id || EQUALS_ANY_ID id i.
Definition given (id old : Z) : Z := if UNSET_ID id then old else id.

(** The identifiers and the result, or an error. *)
Definition linux (capable : bool) (call : Call) (i : Ids) : res (Ids * Z) :=
  match call with
  | SetId id =>
      if UNSET_ID id then Err EINVAL
      else if capable then Ok (mkIds id id id id, 0)
      else if (id =? r_id i) || (id =? s_id i) then Ok (mkIds (r_id i) id (s_id i) id, 0)
      else Err EPERM
  | SetReId r e =>
      if negb (capable || UNSET_ID r || (r =? r_id i) || (r =? e_id i)) then Err EPERM
      else if negb (capable || one_id e i) then Err EPERM
      else
        let e' := given e (e_id i) in
        let s' := if negb (UNSET_ID r) || (negb (UNSET_ID e) && negb (e =? r_id i)) then e' else s_id i in
        Ok (mkIds (given r (r_id i)) e' s' e', 0)
  | SetResId r e s =>
      if negb (capable || (one_id r i && one_id e i && one_id s i)) then Err EPERM
      else Ok (mkIds (given r (r_id i)) (given e (e_id i)) (given s (s_id i)) (given e (e_id i)), 0)
  | SetFsId fs =>
      Ok (if negb (UNSET_ID fs) && (capable || EQUALS_ANY_ID fs i || (fs =? fs_id i)) then with_fs fs i else i, fs_id i)
  end.

(** The macro that emulates a system call, and the call in the registers. *)
Definition emulate (k : IdKind) (call : Call) (t : FakeTracee) (c : Config) : Outcome :=
  match call with
  | SetId _ => SETXID k ORIGINAL t c
  | SetReId _ _ => SETREXID k ORIGINAL t c
  | SetResId _ _ _ => SETRESXID k ORIGINAL t c
  | SetFsId _ => SETFSXID k t c
  end.
Definition asked (t : FakeTracee) (call : Call) : Prop :=
  match call with
  | SetId id => peek_id t ORIGINAL SYSARG_1 = id
  | SetReId r e => peek_id t ORIGINAL SYSARG_1 = r /\ peek_id t ORIGINAL SYSARG_2 = e
  | SetResId r e s => peek_id t ORIGINAL SYSARG_1 = r /\ peek_id t ORIGINAL SYSARG_2 = e /\ peek_id t ORIGINAL SYSARG_3 = s
  | SetFsId fs => peek_id t ORIGINAL SYSARG_1 = fs
  end.

(** The calls that are emulated exactly: the identifiers that no process has are
    not asked for; setuid(2) to an effective identifier that is neither the
    real nor the saved one, setreuid(2) that changes only the real identifier,
    or the real one to the effective one and the effective one to the saved
    one, are the exceptions, and those that resynchronise the identifier of the
    file-system. *)
Definition exact (capable : bool) (call : Call) (i : Ids) : Prop :=
  match call with
  | SetId id => UNSET_ID id = false /\ (capable = false -> id = e_id i -> id = r_id i \/ id = s_id i)
  | SetReId r e => fs_id i = e_id i /\ (UNSET_ID r = true \/ UNSET_ID e = false)
                   /\ (capable = false -> r = e_id i -> r <> r_id i -> e = s_id i -> e = r_id i \/ e = e_id i)
  | SetResId _ _ _ => fs_id i = e_id i
  | SetFsId fs => UNSET_ID fs = false
  end.

Lemma ids_set_ids k i c : ids k (set_ids k i c) = i.
Proof. by destruct k, i. Qed.

Lemma ids_set_other k k' i c : k <> k' -> ids k' (set_ids k i c) = ids k' c.
Proof. by destruct k, k'. Qed.

Lemma drop_caps_ids k prev c : ids k (MAYBE_DROP_CAPS prev c) = ids k c.
Proof. unfold MAYBE_DROP_CAPS. by case_bool; destruct k. Qed.

Definition emulated (k : IdKind) (t : FakeTracee) (c : Config) (r : res (Ids * Z)) (o : Outcome) : Prop :=
  match r with
  | Err e => o = Ok (t, c, - e)
  | Ok (i, v) => exists c', o = Ok (poke SYSARG_RESULT v t, c', 0) /\ ids k c' = i /\ forall k', k' <> k -> ids k' c' = ids k' c
  | Stuck _ => False
  end.

Lemma set_done_emulated k i c t i' : i = i' -> emulated k t c (Ok (i', 0)) (set_done k i c t).
Proof.
  intros <-. eexists. split; [done|]. rewrite drop_caps_ids, ids_set_ids. split; [done|]. intros k' Hk. rewrite drop_caps_ids. by apply ids_set_other.
Qed.

(** C30: the system calls that set identifiers are emulated as Linux performs them,
    in the cases of [exact]: the same calls are refused, and the real, effective,
    saved and file-system identifiers and the result are those of the kernel for a
    tracee with the capability that the emulation holds it to have (which is not
    always the one of Linux, [temporary_drop_is_privileged]); the identifiers of the
    other kind are left as they are.  The cases that are left out, where the
    emulation can differ, are: -1 for setuid(2) and setfsuid(2)
    ([setfsuid_query_changes]); without the capability, setuid(2) to an effective
    identifier that is neither the real nor the saved one; setreuid(2) of the real
    identifier alone ([setreuid_keeps_saved]), or, without the capability, of the
    real one to the effective one and of the effective one to the saved one;
    setreuid(2) and setresuid(2) when the identifier of the file-system is not the
    effective one. *)
Theorem setids_as_linux k call t c : asked t call -> exact (privileged c) call (ids k c) ->
  emulated k t c (linux (privileged c) call (ids k c)) (emulate k call t c).
Proof.
  intros A X. destruct call as [id|r e|r e s|fs]; cbn [emulate linux exact asked] in *.
  - unfold SETXID. rewrite A. destruct X as [U X]. rewrite U. destruct (privileged c); cbn [orb negb].
    { by apply set_done_emulated. }
    unfold EQUALS_ANY_ID. destruct (ids k c) as [R E S F] eqn:Ei. cbn in *.
    destruct (id =? R) eqn:B1, (id =? E) eqn:B2, (id =? S) eqn:B3; cbn; bool_facts; try (by apply set_done_emulated); try done.
    destruct X as [X|X]; congruence.
  - unfold SETREXID. destruct A as [-> ->], X as (F & U & X). destruct (ids k c) as [R E S F'] eqn:Ei. cbn in *. subst F'.
    unfold one_id, EQUALS_ANY_ID, given. cbn. change (prev_root c) with (prev_root c).
    destruct (privileged c), (UNSET_ID r), (UNSET_ID e), (Z.eqb_spec r R), (Z.eqb_spec r E), (Z.eqb_spec e R), (Z.eqb_spec e E), (Z.eqb_spec e S);
      cbn; try done; try (by apply set_done_emulated); try (by destruct U); try (by exfalso; destruct (X eq_refl); auto).
  - unfold SETRESXID. destruct A as (-> & -> & ->). destruct (ids k c) as [R E S F] eqn:Ei. cbn in *. subst F. unfold one_id.
    case_bool; [done|]. apply set_done_emulated. unfold given. by destruct (UNSET_ID r), (UNSET_ID e), (UNSET_ID s).
  - unfold SETFSXID. rewrite A, X. cbn [negb andb]. destruct (privileged c), (EQUALS_ANY_ID fs (ids k c)), (fs =? fs_id (ids k c)); cbn [orb];
      eexists; (split; [done|]); rewrite ?ids_set_ids; (split; [done|]); intros k' Hk; rewrite ?ids_set_other by done; done.
Qed.

(** ** The filter *)

Definition stopped_at_exit (sysnum : Sysnum) : bool :=
  existsb (fun f => (Seccomp.value f =? sysnum) && negb (Z.land (Seccomp.flags f) FILTER_SYSEXIT =? 0)) fake_filtered_sysnums.

Lemma unfiltered_not_among sysnum l : stopped_at_exit sysnum = false -> forallb stopped_at_exit l = true -> one_of sysnum l = false.
Proof.
  intros H. induction l as [|n l IH]; cbn [forallb]; [done|]. intros F. apply andb_true_iff in F as [F1 F2].
  change (one_of sysnum (n :: l)) with ((sysnum =? n) || one_of sysnum l). rewrite (IH F2).
  destruct (Z.eqb_spec sysnum n) as [->|]; [congruence|done].
Qed.

(** What is done at the exit of a system call is done with or without the
    acceleration of seccomp: the filter stops at the exit of all the system calls
    that are handled there. *)
Lemma filter_covers_exit h ch t c sysnum : get_sysnum (f_regs t) ORIGINAL = Ok sysnum -> stopped_at_exit sysnum = false ->
  handle_sysexit_end h ch t c = Ok (t, c, 0).
Proof.
  intros E H. unfold handle_sysexit_end. rewrite E. cbn [res_bind]. cbv zeta beta.
  repeat (rewrite (unfiltered_not_among sysnum) by (done || by vm_compute)). done.
Qed.

(** ** No way back to root *)

(** A tracee that gave up being root: no identifier of the user is 0 and no
    capability is left. *)
Definition no_root (c : Config) : Prop := prev_root c = false /\ caps_active c = false.

Definition within (i i' : Ids) : Prop := Forall (fun id => EQUALS_ANY_ID id i = true) [r_id i'; e_id i'; s_id i'].

(** From [c] to [c']: no root is gained, and no user but those of [c]. *)
Definition confined (c c' : Config) : Prop := no_root c' /\ within (ids UID c) (ids UID c').
Definition confines (c : Config) (o : Outcome) : Prop := forall t' c' st, o = Ok (t', c', st) -> confined c c'.

Lemma within_refl i : within i i.
Proof. unfold within, EQUALS_ANY_ID. repeat constructor; by rewrite Z.eqb_refl, ?orb_true_r. Qed.

Lemma confined_refl c : no_root c -> confined c c.
Proof. split; [done|apply within_refl]. Qed.

Lemma confines_same c t st : no_root c -> confines c (Ok (t, c, st)).
Proof. intros N t' c' st' [= _ <- _]. by apply confined_refl. Qed.

Lemma confines_bind {A} (m : res A) (k : A -> Outcome) c : (forall x, m = Ok x -> confines c (k x)) -> confines c (res_bind m k).
Proof. intros K t' c' st H. apply res_bind_ok in H as (x & Hx & H). by eapply K. Qed.

Lemma not_privileged c : no_root c -> privileged c = false.
Proof. intros [R C]. unfold privileged, prev_root in *. bool_facts. rewrite C. by apply orb_false_iff; split; [apply Z.eqb_neq|]. Qed.

Lemma within_no_root c i : no_root c -> within (ids UID c) i -> prev_root (set_ids UID i c) = false.
Proof.
  intros [R _] W. unfold prev_root in *. cbn. bool_facts. unfold within, EQUALS_ANY_ID in W. cbn in W.
  apply Forall_cons in W as [W1 W]. apply Forall_cons in W as [W2 W]. apply Forall_cons in W as [W3 _].
  repeat rewrite orb_true_iff in *. rewrite !Z.eqb_eq in *. apply orb_false_iff; split; [apply orb_false_iff; split|]; apply Z.eqb_neq; lia.
Qed.

Lemma set_done_confines k i c t : no_root c -> (k = UID -> within (ids UID c) i) -> confines c (set_done k i c t).
Proof.
  intros N W t' c' st [= _ <- _]. unfold MAYBE_DROP_CAPS. destruct N as [N1 N2]. rewrite N1. cbn [andb].
  destruct k; [|by split; [|apply within_refl]]. split; [|rewrite ids_set_ids; by apply W].
  split; [|done]. by apply within_no_root; [|apply W].
Qed.

Ltac ids_cases := unfold within, EQUALS_ANY_ID, UNSET_ID in *; cbn in *; repeat constructor;
  repeat match goal with |- context [if ?b then _ else _] => destruct b eqn:? end; cbn in *; lia.

Lemma SETXID_confines k v t c : no_root c -> confines c (SETXID k v t c).
Proof.
  intros N. unfold SETXID. rewrite (not_privileged c N). case_bool; [by apply confines_same|]. bool_facts.
  apply set_done_confines; [done|]. intros ->. cbn [orb] in Hb. ids_cases.
Qed.

Lemma SETREXID_confines k v t c : no_root c -> confines c (SETREXID k v t c).
Proof.
  intros N. unfold SETREXID. rewrite (not_privileged c N). case_bool; [by apply confines_same|]. bool_facts.
  apply set_done_confines; [done|]. intros ->. cbn [orb] in Hb. ids_cases.
Qed.

Lemma SETRESXID_confines k v t c : no_root c -> confines c (SETRESXID k v t c).
Proof.
  intros N. unfold SETRESXID. rewrite (not_privileged c N). case_bool; [by apply confines_same|]. bool_facts.
  apply set_done_confines; [done|]. intros ->. cbn [orb] in Hb. ids_cases.
Qed.

Lemma SETFSXID_confines k t c : no_root c -> confines c (SETFSXID k t c).
Proof.
  intros N t' c' st [= _ <- _]. case_bool; [|by apply confined_refl]. destruct k; (split; [done|]); apply (within_refl (ids UID c)).
Qed.

(** The handlers that leave the configuration as it is. *)
Definition keeps (c : Config) (o : Outcome) : Prop := forall t' c' st, o = Ok (t', c', st) -> c' = c.

Lemma keeps_confines c o : no_root c -> keeps c o -> confines c o.
Proof. intros N K t' c' st H. rewrite (K _ _ _ H). by apply confined_refl. Qed.
Lemma keeps_ok c t st : keeps c (Ok (t, c, st)).
Proof. by intros t' c' st' [= _ <- _]. Qed.
Lemma keeps_bind {A} (m : res A) (k : A -> Outcome) c : (forall x, m = Ok x -> keeps c (k x)) -> keeps c (res_bind m k).
Proof. intros K t' c' st H. apply res_bind_ok in H as (x & Hx & H). by eapply K. Qed.
Lemma keeps_stuck c w : keeps c (Stuck w).
Proof. by intros t' c' st. Qed.
#[local] Hint Resolve keeps_ok keeps_stuck : proot.

Ltac keeps_tac :=
  repeat match goal with
  | |- keeps _ (Ok _) => apply keeps_ok
  | |- keeps _ (Stuck _) => apply keeps_stuck
  | |- keeps _ (res_bind _ _) => apply keeps_bind; intros ? _
  | |- keeps _ (if ?b then _ else _) => destruct b
  | |- keeps _ (match ?m with _ => _ end) => destruct m
  | |- keeps _ (let _ := _ in _) => cbv zeta
  end.

Lemma handle_perm_err_keeps b t c : keeps c (handle_perm_err_exit_end b t c).
Proof. unfold handle_perm_err_exit_end. keeps_tac. Qed.
Lemma handle_getres_keeps k n t c : keeps c (handle_getres_exit_end k n t c).
Proof. unfold handle_getres_exit_end. keeps_tac. Qed.
Lemma handle_stat_keeps h r t c : keeps c (handle_stat_exit_end h r t c).
Proof. unfold handle_stat_exit_end. keeps_tac. Qed.
Lemma handle_socket_keeps t c : keeps c (handle_socket_exit_end t c).
Proof. unfold handle_socket_exit_end. keeps_tac. Qed.
Lemma handle_getsockopt_keeps h t c : keeps c (handle_getsockopt_exit_end h t c).
Proof. unfold handle_getsockopt_exit_end. keeps_tac. Qed.
Lemma handle_chroot_keeps h ch b t c : keeps c (handle_chroot_exit_end h ch b t c).
Proof. unfold handle_chroot_exit_end. keeps_tac. Qed.
Lemma handle_chown_keeps h r r' t c : keeps c (handle_chown_enter_end h r r' t c).
Proof. unfold handle_chown_enter_end. keeps_tac. Qed.
Lemma handle_openat_keeps h t c : keeps c (handle_openat_enter_end h t c).
Proof. unfold handle_openat_enter_end. keeps_tac. Qed.
Lemma push_message_keeps b a m u t c : keeps c (push_message b a m u t c).
Proof. unfold push_message. keeps_tac. Qed.
Lemma handle_sendmsg_keeps h n t c : keeps c (handle_sendmsg_enter_end h n t c).
Proof. unfold handle_sendmsg_enter_end, fix_message. keeps_tac; apply push_message_keeps. Qed.
#[local] Hint Resolve handle_perm_err_keeps handle_getres_keeps handle_stat_keeps handle_socket_keeps handle_getsockopt_keeps
  handle_chroot_keeps handle_chown_keeps handle_openat_keeps handle_sendmsg_keeps : proot.

Lemma enter_keeps h t c : keeps c (handle_sysenter_end h t c).
Proof. unfold handle_sysenter_end. keeps_tac; auto with proot. Qed.

Lemma prctl_confines t c : no_root c -> confines c (handle_prctl_exit_end t c).
Proof.
  intros N. unfold handle_prctl_exit_end. case_bool; [|by apply confines_same]. intros t' c' st [= _ <- _]. split; [done|apply (within_refl (ids UID c))].
Qed.

#[local] Hint Resolve keeps_confines prctl_confines SETXID_confines SETREXID_confines SETRESXID_confines SETFSXID_confines : proot.

Lemma exit_confines h ch t c : no_root c -> confines c (handle_sysexit_end h ch t c).
Proof.
  intros N. unfold handle_sysexit_end. apply confines_bind. intros n _. cbv zeta beta.
  repeat match goal with |- confines _ (if ?b then _ else _) => destruct b end; eauto with proot.
Qed.

Lemma sigsys_confines h ch t c : no_root c -> confines c (handle_sigsys h ch t c).
Proof.
  intros N. unfold handle_sigsys. apply confines_bind. intros n _. cbv zeta beta.
  repeat match goal with |- confines _ (if ?b then _ else _) => destruct b end; eauto with proot.
Qed.

(** The program that is executed has not the set-user-ID bit. *)
Definition plain_exec (h : Host) (t : FakeTracee) : Prop := forall mode, h_stat h (f_exe t) = inl mode -> Z.land mode S_ISUID = 0.

Lemma push_words_exe l : forall a t, f_exe (push_words l a t) = f_exe t.
Proof.
  induction l as [|w l IH]; intros a t; cbn; [done|]. unfold poke_word, poke_uint.
  destruct (write_data _ _ _ _) as [m [e|]]; [done|]. by rewrite IH.
Qed.

Lemma exec_confines h t c : no_root c -> plain_exec h t -> confines c (handle_sysexit_start h t c).
Proof.
  intros N X. unfold handle_sysexit_start. apply confines_bind. intros n _. case_bool; [by apply confines_same|].
  apply confines_bind. intros t1 H1. assert (N' : confined c (set_keep false c)) by (split; [done|apply (within_refl (ids UID c))]).
  assert (E : f_exe t1 = f_exe t).
  { destruct (skip_proot_loader t); [by injection H1 as <-|]. unfold adjust_elf_auxv in H1. res_inv. case_bool_in H1; [by injection H1 as <-|].
    res_inv. case_match; injection H1 as <-; [|done]. apply push_words_exe. }
  rewrite E. destruct (h_stat h (f_exe t)) as [mode|e] eqn:Es; [|by intros t' c' st [= _ <- _]].
  intros t' c' st [= _ <- _]. unfold exec_setid. rewrite (X mode Es). change (negb (0 =? 0)) with false. cbv zeta iota.
  destruct (Z.land mode S_ISGID =? 0); cbn [negb]; [exact N'|].
  split; [done|apply (within_refl (ids UID c))].
Qed.

(** Any event of a tracee, whose registers and memory may be anything. *)
Inductive id_step : Config -> Config -> Prop :=
  | id_event h ch event t c t' c' status :
      fake_id0_callback h ch event t c = Ok (t', c', status) -> (event = SYSCALL_EXIT_START -> plain_exec h t) -> id_step c c'.

Lemma id_step_confined c c' : no_root c -> id_step c c' -> confined c c'.
Proof.
  intros N S. destruct S as [h ch event t c t' c' status H X] in N |- *. revert t' c' status H. change (confines c (fake_id0_callback h ch event t c)).
  destruct event; cbn [fake_id0_callback].
  - apply keeps_confines; [done|]. apply enter_keeps.
  - by apply exit_confines.
  - apply confines_bind. intros n _. case_bool; [by apply confines_same|]. intros t' c' st H. apply res_bind_ok in H as ([[t1 c1] s1] & H1 & H).
    injection H as _ <- _. by eapply sigsys_confines.
  - apply exec_confines; auto.
Qed.

Lemma within_trans i j k : within i j -> within j k -> within i k.
Proof.
  unfold within, EQUALS_ANY_ID. intros H1 H2. apply Forall_cons in H1 as [A1 H1]. apply Forall_cons in H1 as [A2 H1]. apply Forall_cons in H1 as [A3 _].
  eapply Forall_impl; [exact H2|]. cbn in *. intros x Hx. repeat rewrite orb_true_iff in *. rewrite !Z.eqb_eq in *.
  destruct Hx as [[->| ->]| ->]; lia.
Qed.

Lemma reach_confined c c' : rtc id_step c c' -> no_root c -> confined c c'.
Proof.
  induction 1 as [c|x y z H _ IH]; intros N; [by apply confined_refl|]. destruct (id_step_confined x y N H) as [N' W].
  destruct (IH N') as [N'' W']. split; [done|by eapply within_trans].
Qed.

(** A privileged tracee, one of whose identifiers at least is 0, as "-0" starts it. *)
Definition is_root (c : Config) : Prop := prev_root c = true /\ privileged c = true /\ keep_caps c = false.

(** The calls that drop all the identifiers of the user for [id]. *)
Definition drops (call : Call) (id : Z) : Prop :=
  id <> 0 /\ UNSET_ID id = false /\ (call = SetId id \/ call = SetReId id id \/ call = SetResId id id id).

Lemma drop_no_root call id t c : is_root c -> drops call id -> asked t call ->
  exists t' c', emulate UID call t c = Ok (t', c', 0) /\ no_root c' /\ ruid c' = id /\ euid c' = id /\ suid c' = id.
Proof.
  intros (R & P & K) (Hid & U & Hc) A.
  assert (D : forall i, i = mkIds id id id id -> exists t' c', set_done UID i c t = Ok (t', c', 0) /\ no_root c' /\ ruid c' = id /\ euid c' = id /\ suid c' = id).
  { intros i ->. eexists _, _. split; [done|]. unfold MAYBE_DROP_CAPS. rewrite R. change (keep_caps (set_ids UID _ c)) with (keep_caps c). rewrite K.
    assert (E : prev_root (set_ids UID (mkIds id id id id) c) = false) by (unfold prev_root; cbn; by rewrite (proj2 (Z.eqb_neq id 0))).
    rewrite E. cbn [negb andb]. done. }
  destruct Hc as [->|[->| ->]]; cbn [asked emulate] in *.
  - unfold SETXID. rewrite A, P. cbn [orb negb]. by apply D.
  - unfold SETREXID. destruct A as [-> ->]. rewrite P, U. cbn [orb negb]. apply D. by destruct (id =? r_id (ids UID c)).
  - unfold SETRESXID. destruct A as (-> & -> & ->). rewrite P, U. cbn [orb negb]. by apply D.
Qed.

(** C29: A root that gives up its identifiers never gets them back: once setuid(2),
    setreuid(2) or setresuid(2) has changed all of them to another user, without
    PR_SET_KEEPCAPS, no sequence of system calls, emulated at their exit or from
    SIGSYS, whatever their arguments, and no execution of a program without the
    set-user-ID bit, makes the tracee another user or gives it a capability. *)
Theorem dropped_root_stays_dropped call id t c : is_root c -> drops call id -> asked t call ->
  exists t' c', emulate UID call t c = Ok (t', c', 0)
  /\ forall c'', rtc id_step c' c'' -> ruid c'' = id /\ euid c'' = id /\ suid c'' = id /\ privileged c'' = false.
Proof.
  intros R D A. destruct (drop_no_root call id t c R D A) as (t' & c' & E & N & I1 & I2 & I3). exists t', c'. split; [done|]. intros c'' S.
  destruct (reach_confined c' c'' S N) as [N' W]. unfold within, EQUALS_ANY_ID in W. cbn in W. rewrite I1, I2, I3 in W.
  apply Forall_cons in W as [W1 W]. apply Forall_cons in W as [W2 W]. apply Forall_cons in W as [W3 _].
  split_and!; try lia. by apply not_privileged.
Qed.

(** ** The bounds of sendmsg(2) *)

(** The two layouts: a header is not empty and the alignment rounds up. *)
Definition layout_ok (l : Layout) : Prop := 0 < l_cmsghdr l /\ forall len, len <= Z.land (len + l_mask l) (Z.lnot (l_mask l)).

Lemma round_up n len : 0 <= n -> len <= Z.land (len + Z.ones n) (Z.lnot (Z.ones n)).
Proof.
  intros Hn. rewrite <- Z.ldiff_land, Z.ldiff_ones_r, Z.shiftl_mul_pow2, Z.shiftr_div_pow2 by lia. rewrite Z.ones_equiv.
  pose proof (Z.pow_pos_nonneg 2 n ltac:(lia) Hn) as Hp. pose proof (Z.div_mod (len + Z.pred (2 ^ n)) (2 ^ n) ltac:(lia)).
  pose proof (Z.mod_pos_bound (len + Z.pred (2 ^ n)) (2 ^ n) Hp). lia.
Qed.

Lemma layout_is_ok t : layout_ok (layout t).
Proof.
  unfold layout. destruct (is_32on64_mode (f_regs t)); (split; [done|]); intros len.
  - apply (round_up 2). lia.
  - apply (round_up 3). lia.
Qed.

Lemma cmsg_loop_ends fuel h l controllen pos buf modified : layout_ok l -> controllen - pos <= Z.of_nat fuel ->
  exists r, cmsg_loop fuel h l controllen pos buf modified = Ok r.
Proof.
  intros [L1 L2]. revert pos buf modified. induction fuel as [|fuel IH]; intros pos buf modified Hf; cbn [cmsg_loop]; case_bool; bool_facts; try (by eexists); [lia|].
  case_bool; [by eexists|]. cbv zeta. case_bool; [by eexists|]. bool_facts. case_bool; [by eexists|]. apply IH.
  pose proof (L2 (of_le (take (l_len l) (drop (Z.to_nat pos) buf)))). lia.
Qed.

(** Nothing but the registers and the memory of the tracee changes. *)
Lemma alloc_mem_ok size t : f_status t = 0 -> exists t' a, alloc_mem size t = Ok (t', a) /\ f_status t' = 0 /\ is_32on64_mode (f_regs t') = is_32on64_mode (f_regs t).
Proof.
  intros H. unfold alloc_mem. rewrite H. cbn [Z.eqb]. case_bool; eexists _, _; (split; [done|]); (split; [done|]); [done|].
  cbn. unfold poke_reg. by case_bool.
Qed.

Lemma push_message_ok args msg buf t c : f_status t = 0 -> exists t' st, push_message false args msg buf t c = Ok (t', c, st).
Proof.
  intros H. unfold push_message. destruct (alloc_mem_ok (zlen buf) t H) as (t1 & a & -> & H1 & E1). cbn [res_bind].
  case_bool; [by eexists _, _|]. destruct (write_data _ _ _ _) as [m [e|]]; [by eexists _, _|]. set (t2 := set_f_mem m t1).
  destruct (alloc_mem_ok (l_msghdr (layout t2)) t2 H1) as (t3 & b & -> & H3 & E3). cbn [res_bind]. case_bool; [by eexists _, _|].
  destruct (write_data _ _ _ _) as [m' [e|]]; by eexists _, _.
Qed.

(** sendmsg(2) of a 64-bit tracee is handled within bounds, whatever the
    message: at most 1024 bytes of control messages are copied on the stack of
    PRoot, the loop over them ends, and the result is a status. *)
Theorem sendmsg_in_bounds h sysnum t c : sysnum <> PR_socketcall -> is_32on64_mode (f_regs t) = false -> f_status t = 0 ->
  MAX_CONTROLLEN <= h_stack h -> exists t' st, handle_sendmsg_enter_end h sysnum t c = Ok (t', c, st).
Proof.
  intros Hn Hm Hs Hh. unfold handle_sendmsg_enter_end. rewrite (proj2 (Z.eqb_neq _ _) Hn). cbn [negb]. unfold fix_message.
  destruct (read_data _ _ _ _) as [data|e]; [|by eexists _, _]. case_bool; [by eexists _, _|]. bool_facts.
  assert (E : field (l_controllen (layout t)) (resize 56 0 data) = field (40%nat, 8%nat) (resize 56 0 data)) by (unfold layout; by rewrite Hm).
  rewrite (proj2 (Z.leb_le _ _)) by (rewrite E; lia). destruct (read_data _ _ _ _) as [buf|e]; [|by eexists _, _].
  set (n := field (l_controllen (layout t)) (resize 56 0 data)).
  destruct (cmsg_loop_ends (Z.to_nat n) h (layout t) n 0 buf false (layout_is_ok t)) as [r ->]; [lia|]. cbn [res_bind].
  destruct r as [[buf' []]|]; [by apply push_message_ok|by eexists _, _..].
Qed.
End FakeId.

(** ** Concrete tracees *)

(** A tracee at the exit of a system call, with its number and arguments. *)
Definition demo_regs_of (aarch32 : bool) (l : list (Reg * Z)) : Regs :=
  let empty := mkRegs (fun _ => replicate BANK_WORDS 0) aarch32 false true false false in
  let bank := fold_left (fun b '(r, v) => if aarch32 then store32 b (slot empty r) v else store b (slot empty r) v) l (replicate BANK_WORDS 0) in
  mkRegs (fun _ => bank) aarch32 false true false false.
Definition demo_fake (aarch32 : bool) (m : DemoMemory) (status : Z) (l : list (Reg * Z)) : FakeTracee (Mem := DemoMemory) :=
  mkFake (demo_regs_of aarch32 l) m 0 42 status (bs "/bin/true") true (mkFs None None None (bs "/")).
Definition demo_host : Host := mkHost 10123 10123 (fun _ => inr ENOENT) (fun _ => inr ENOENT) (fun _ _ => None) (fun _ => None) 8388608 64.
Definition root_config : Config := mkConfig 0 0 0 0 0 0 0 0 18 true false.

Definition config_of (o : Outcome (Mem := DemoMemory)) : option (Config * Z) := match o with Ok (_, c, st) => Some (c, st) | _ => None end.

(** "-i 1000:1001" and "-0". *)
Example new_config_text :
  new_config demo_host (bs "1000:1001") = mkConfig 1000 1000 1000 1000 1001 1001 1001 1001 18 false false
  /\ new_config demo_host (bs "0:0") = root_config.
Proof. split; by vm_compute. Qed.

Lemma setids_as_linux_witness :
  emulated UID (demo_fake false [] 1 [(SYSARG_1, 1); (SYSARG_2, 2); (SYSARG_3, 3)]) root_config (Ok (mkIds 1 2 3 2, 0))
    (SETRESXID UID ORIGINAL (demo_fake false [] 1 [(SYSARG_1, 1); (SYSARG_2, 2); (SYSARG_3, 3)]) root_config).
Proof.
  apply (setids_as_linux UID (SetResId 1 2 3) (demo_fake false [] 1 [(SYSARG_1, 1); (SYSARG_2, 2); (SYSARG_3, 3)]) root_config); [|done].
  split_and!; by vm_compute.
Defined.

Lemma dropped_root_stays_dropped_witness :
  exists t' c', SETXID UID ORIGINAL (demo_fake false [] 1 [(SYSARG_1, 1000)]) root_config = Ok (t', c', 0)
  /\ forall c'', rtc (id_step (Mem := DemoMemory)) c' c'' -> ruid c'' = 1000 /\ euid c'' = 1000 /\ suid c'' = 1000 /\ privileged c'' = false.
Proof.
  apply (dropped_root_stays_dropped (SetId 1000) 1000 (demo_fake false [] 1 [(SYSARG_1, 1000)]) root_config); [done| |by vm_compute].
  split_and!; [done|done|by left].
Defined.

Lemma sendmsg_in_bounds_witness :
  exists t' st, handle_sendmsg_enter_end demo_host PR_sendmsg (demo_fake false [] 0 [(SYSARG_2, 4096)]) root_config = Ok (t', root_config, st).
Proof. by apply (sendmsg_in_bounds demo_host PR_sendmsg). Defined.

(** ** What differs from the kernel *)

(** The message of a 32-bit tracee is not bounded: its length is looked for where
    a 64-bit one has it, and the array on the stack of PRoot has the size the
    tracee wants. *)
Definition big_message : DemoMemory := [(0%nat, 4096, replicate 16 0 ++ to_le 4 8192 ++ to_le 4 (2 ^ 31))].
Lemma sendmsg_overflows_stack :
  handle_sendmsg_enter_end demo_host PR_sendmsg (demo_fake true big_message 0 [(SYSARG_2, 4096)]) root_config = Stuck OutOfBounds.
Proof. by vm_compute. Qed.

(** After seteuid(1000) the tracee still is privileged: setuid(1000) changes the
    three identifiers, and root can't be regained, where the kernel refuses. *)
Definition seteuid_1000 : Config := mkConfig 0 1000 0 1000 0 0 0 0 18 true false.
Lemma temporary_drop_is_privileged :
  config_of (SETRESXID UID ORIGINAL (demo_fake false [] 1 [(SYSARG_1, 2 ^ 32 - 1); (SYSARG_2, 1000); (SYSARG_3, 2 ^ 32 - 1)]) root_config)
    = Some (seteuid_1000, 0)
  /\ config_of (SETXID UID ORIGINAL (demo_fake false [] 1 [(SYSARG_1, 1000)]) seteuid_1000)
     = Some (mkConfig 1000 1000 1000 1000 0 0 0 0 18 false false, 0)
  /\ linux false (SetId 1000) (ids UID seteuid_1000) = Err EPERM.
Proof. split_and!; by vm_compute. Qed.

(** After seteuid(1000), setreuid(1000, -1) keeps the saved identifier 0. *)
Lemma setreuid_keeps_saved :
  config_of (SETREXID UID ORIGINAL (demo_fake false [] 1 [(SYSARG_1, 1000); (SYSARG_2, 2 ^ 32 - 1)]) seteuid_1000)
    = Some (mkConfig 1000 1000 0 1000 0 0 0 0 18 true false, 0)
  /\ linux false (SetReId 1000 (2 ^ 32 - 1)) (ids UID seteuid_1000) = Ok (mkIds 1000 1000 1000 1000, 0).
Proof. split; by vm_compute. Qed.

(** setfsuid(-1), the way to read the identifier of the file-system, changes it. *)
Lemma setfsuid_query_changes :
  config_of (SETFSXID UID (demo_fake false [] 1 [(SYSARG_1, 2 ^ 32 - 1)]) root_config)
    = Some (mkConfig 0 0 0 (2 ^ 32 - 1) 0 0 0 0 18 true false, 0)
  /\ linux true (SetFsId (2 ^ 32 - 1)) (ids UID root_config) = Ok (ids UID root_config, 0).
Proof. split; by vm_compute. Qed.

(** The -1 of the 16-bit setreuid(2) of a 32-bit tracee is taken for a user. *)
Lemma setreuid16_unset :
  config_of (SETREXID UID ORIGINAL (demo_fake true [] 1 [(SYSARG_1, 65535); (SYSARG_2, 1000)]) root_config)
    = Some (mkConfig 65535 1000 1000 1000 0 0 0 0 18 false false, 0).
Proof. by vm_compute. Qed.

(** A tracee that dropped root is root again after the execution of any program
    with the set-user-ID bit, its own files included. *)
Lemma exec_setid_any_owner mode c : Z.land mode S_ISUID <> 0 -> euid (exec_setid mode c) = 0 /\ privileged (exec_setid mode c) = true.
Proof.
  intros H. unfold exec_setid. rewrite (proj2 (Z.eqb_neq _ _) H). cbn [negb]. by destruct (negb _).
Qed.

(** chroot(2) that the kernel refuses reads [path_guest], which is not set, as
    soon as there is a binding. *)
Definition demo_binding (a : nat) (p : cstr) : Binding := mkBinding a (mkPath p (length p)) (mkPath p (length p)) false true BINDING_ACCESS_RW BINDING_TYPE_REGULAR.
Definition chroot_host : ChrootHost := mkChrootHost (fun _ p => Ok p) (fun _ p => Some p) Ok (fun p => mkFs None None None (bs "/")).
Definition chroot_fake : FakeTracee (Mem := DemoMemory) :=
  set_f_fs (mkFs None (Some [demo_binding 0 (bs "/dev"); demo_binding 1 (bs "/")]) None (bs "/"))
    (demo_fake false [(0%nat, 2 ^ 64 - 1, bs "/jail")] 1 [(SYSARG_RESULT, 2 ^ 64 - 1)]).
Lemma chroot_reads_unset_path :
  handle_chroot_exit_end (mkHost 0 0 (fun _ => inl 16877) (fun _ => inr ENOENT) (fun _ _ => None) (fun _ => None) 0 0)
    chroot_host false chroot_fake root_config = Stuck OutOfBounds.
Proof. by vm_compute. Qed.
