(* ===== verification/Mem.v ===== *)
(** * The memory of tracees (src/tracee/mem.c)

    PRoot reads and writes the memory of a tracee with process_vm_readv(2) and
    process_vm_writev(2), and falls back on ptrace(2), word by word, when these
    do not transfer everything.  The kernel is the class [VmKernel]; the rest of
    the development sees this file through the interfaces of [Memory], which
    [mem_memory], [mem_strings] and [mem_contents_laws] implement. *)

From stdpp Require Import gmap.
From S2P Require Import Prelude Memory Paths Regs.

(** ** The kernel *)

(** process_vm_readv() gives the bytes it transferred, none on error;
    process_vm_writev() their number; PTRACE_PEEKDATA the eight bytes of a word,
    or errno. *)
Class VmKernel (S : Type) := {
  process_vm_readv : S -> nat -> Z -> Z -> list Z;
  process_vm_writev : S -> nat -> Z -> list Z -> S * nat;
  PTRACE_PEEKDATA : S -> nat -> Z -> list Z + Z;
  PTRACE_POKEDATA : S -> nat -> Z -> list Z -> S * option Z;
  page_size : Z
}.

(** [byte s i a] is the byte of the tracee [i] at the address [a], if there is
    one.  A transfer, complete or not, is a prefix of what is asked for; a word
    is written whole or not at all. *)
Class VmKernelLaws (S : Type) (K : VmKernel S) (byte : S -> nat -> Z -> option Z) : Prop := {
  readv_prefix s i a n k b : process_vm_readv s i a n !! k = Some b -> byte s i (a + Z.of_nat k) = Some b;
  readv_length s i a n : 0 <= n -> zlen (process_vm_readv s i a n) <= n;
  peek_length s i a w : PTRACE_PEEKDATA s i a = inl w -> length w = 8%nat;
  peek_bytes s i a w k b : PTRACE_PEEKDATA s i a = inl w -> w !! k = Some b -> byte s i (a + Z.of_nat k) = Some b;
  writev_prefix s i a l s' n x : process_vm_writev s i a l = (s', n) ->
    (n <= length l)%nat /\ byte s' i x = if decide (a <= x < a + Z.of_nat n) then l !! Z.to_nat (x - a) else byte s i x;
  poke_word_all s i a w s' e x : PTRACE_POKEDATA s i a w = (s', e) -> length w = 8%nat ->
    byte s' i x = if decide (e = None /\ a <= x < a + 8) then w !! Z.to_nat (x - a) else byte s i x;
  page_size_power : exists k, 0 <= k /\ page_size = 2 ^ k
}.

Definition sizeof_word_t := 8.

Section Mem.

Context {S : Type} {K : VmKernel S}.

(** ** Data *)

(** The full words of write_data(); an error stops it. *)
Fixpoint poke_words (n : nat) (s : S) (i : nat) (a : Z) (src : list Z) : S * option Z :=
  match n with
  | O => (s, None)
  | Datatypes.S n =>
      let '(s, e) := PTRACE_POKEDATA s i a (take 8 src) in
      match e with
      | Some _ => (s, Some EFAULT)
      | None => poke_words n s i (a + sizeof_word_t) (drop 8 src)
      end
  end.

Definition write_data (s : S) (i : nat) (dest : Z) (src : list Z) : S * option Z :=
  let size := zlen src in
  let '(s, status) := process_vm_writev s i dest src in
  if Z.of_nat status =? size then (s, None)
  else
    let nb_trailing_bytes := size mod sizeof_word_t in
    let nb_full_words := (size - nb_trailing_bytes) / sizeof_word_t in
    let '(s, e) := poke_words (Z.to_nat nb_full_words) s i dest src in
    match e with
    | Some e => (s, Some e)
    | None =>
        if nb_trailing_bytes =? 0 then (s, None)
        else
          let last_dest := dest + nb_full_words * sizeof_word_t in
          match PTRACE_PEEKDATA s i last_dest with
          | inr _ => (s, Some EFAULT)
          | inl word =>
              let word := drop (Z.to_nat (nb_full_words * sizeof_word_t)) src ++ drop (Z.to_nat nb_trailing_bytes) word in
              let '(s, e) := PTRACE_POKEDATA s i last_dest word in
              (s, match e with Some _ => Some EFAULT | None => None end)
          end
    end.

Fixpoint peek_words (n : nat) (s : S) (i : nat) (a : Z) : list Z + Z :=
  match n with
  | O => inl []
  | Datatypes.S n =>
      match PTRACE_PEEKDATA s i a with
      | inr _ => inr EFAULT
      | inl word =>
          match peek_words n s i (a + sizeof_word_t) with
          | inr e => inr e
          | inl l => inl (word ++ l)
          end
      end
  end.

Definition read_data (s : S) (i : nat) (src size : Z) : list Z + Z :=
  let l := process_vm_readv s i src size in
  if zlen l =? size then inl l
  else
    let nb_trailing_bytes := size mod sizeof_word_t in
    let nb_full_words := (size - nb_trailing_bytes) / sizeof_word_t in
    match peek_words (Z.to_nat nb_full_words) s i src with
    | inr e => inr e
    | inl l =>
        if nb_trailing_bytes =? 0 then inl l
        else
          match PTRACE_PEEKDATA s i (src + nb_full_words * sizeof_word_t) with
          | inr _ => inr EFAULT
          | inl word => inl (l ++ take (Z.to_nat nb_trailing_bytes) word)
          end
    end.

(** clear_mem(): [mmap_errno] is the failure of the allocation of the zeros. *)
Definition clear_mem (mmap_errno : option Z) (s : S) (i : nat) (address size : Z) : S * option Z :=
  match mmap_errno with
  | Some e => (s, Some e)
  | None => write_data s i address (replicate (Z.to_nat size) 0)
  end.

(** ** Strings *)

Definition chunk_size : Z := if page_size <? 1024 then page_size else 1024.

(** The loop on chunks: the string when it ends in one of them, [None] when the
    fallback is taken.  [offset] bytes, [acc], are read. *)
Fixpoint read_chunks (fuel : nat) (s : S) (i : nat) (src max_size offset : Z) (acc : list Z) : res (option cstr) :=
  match fuel with
  | O => Stuck NoFuel
  | Datatypes.S fuel =>
      let chunk_mask := Z.lnot (chunk_size - 1) in
      let current_chunk := Z.land (src + offset) chunk_mask in
      let next_chunk := current_chunk + chunk_size in
      let size := Z.min (next_chunk - (src + offset)) (max_size - offset) in
      let l := process_vm_readv s i (src + offset) size in
      if negb (zlen l =? size) then Ok None
      else
        let status := until_nul (length l) l in
        if zlen status <? size then
          if offset + zlen status + 1 <=? max_size then Ok (Some (acc ++ status)) else Stuck AssertFailed
        else if offset + size <? max_size then read_chunks fuel s i src max_size (offset + size) (acc ++ l)
        else if offset + size =? max_size then Ok None else Stuck AssertFailed
  end.

(** The fallback: full words, then the last one. *)
Fixpoint peek_string (n : nat) (s : S) (i : nat) (a : Z) (trailing : nat) : cstr + Z :=
  match PTRACE_PEEKDATA s i a with
  | inr _ => inr EFAULT
  | inl word =>
      match n with
      | O => inl (until_nul trailing word)
      | Datatypes.S n =>
          let string := until_nul 8 word in
          if (length string <? 8)%nat then inl string
          else match peek_string n s i (a + sizeof_word_t) trailing with inr e => inr e | inl l => inl (word ++ l) end
      end
  end.

Definition read_string_fueled (fuel : nat) (s : S) (i : nat) (src max_size : Z) : res (cstr + Z) :=
  let! found := read_chunks fuel s i src max_size 0 [] in
  match found with
  | Some string => Ok (inl string)
  | None =>
      let nb_trailing_bytes := max_size mod sizeof_word_t in
      let nb_full_words := (max_size - nb_trailing_bytes) / sizeof_word_t in
      Ok (peek_string (Z.to_nat nb_full_words) s i src (Z.to_nat nb_trailing_bytes))
  end.

(** Each chunk but the last one advances: [max_size] iterations are enough
    ([read_string_ends]). *)
Definition read_string (s : S) (i : nat) (src max_size : Z) : cstr + Z :=
  match read_string_fueled (Datatypes.S (Z.to_nat max_size)) s i src max_size with Ok r => r | _ => inr EFAULT end.

(** read_path() of src/tracee/mem.h: the status, the size with the terminator. *)
Definition read_path (s : S) (i : nat) (src : Z) : cstr + Z :=
  match read_string s i src PATH_MAX with
  | inr e => inr e
  | inl path => if PATH_MAX <=? zlen path + 1 then inr ENAMETOOLONG else inl path
  end.

(** ** Words *)

Definition sizeof_word (t : Regs) : Z := if is_32on64_mode t then 4 else 8.

(** peek_word(): the value, and errno.  A partial transfer is not an error. *)
Definition peek_word (t : Regs) (s : S) (i : nat) (address : Z) : Z * option Z :=
  let l := process_vm_readv s i address (sizeof_word t) in
  if 0 <? zlen l then (of_le l, None)
  else match PTRACE_PEEKDATA s i address with
       | inr e => (if is_32on64_mode t then 0xFFFFFFFF else wrap64 (-1), Some (if e =? EIO then EFAULT else e))
       | inl word => (if is_32on64_mode t then Z.land (of_le word) 0xFFFFFFFF else of_le word, None)
       end.

Definition poke_word (t : Regs) (s : S) (i : nat) (address value : Z) : S * option Z :=
  let '(s, status) := process_vm_writev s i address (to_le (Z.to_nat (sizeof_word t)) value) in
  if (0 <? status)%nat then (s, None)
  else
    let tmp := if is_32on64_mode t then PTRACE_PEEKDATA s i address else inl [] in
    match tmp with
    | inr e => (s, Some e)
    | inl tmp =>
        let value := if is_32on64_mode t then Z.lor value (Z.land (of_le tmp) 0xFFFFFFFF00000000) else value in
        let '(s, e) := PTRACE_POKEDATA s i address (to_le 8 value) in
        (s, match e with Some e => Some (if e =? EIO then EFAULT else e) | None => None end)
    end.

(** ** Allocation *)

(** alloc_mem(): the registers, and the address, null when the stack pointer
    would overflow.  RED_ZONE_SIZE is null on AArch64. *)
Definition alloc_mem (sysenter : bool) (t : Regs) (size : Z) : res (Regs * Z) :=
  check! sysenter else AssertFailed in
  let stack_pointer := peek_reg t CURRENT STACK_POINTER in
  if ((0 <? size) && (stack_pointer <=? size)) || ((size <? 0) && (wrap64 (2 ^ 64 - 1 + size) <=? stack_pointer))
  then Ok (t, 0)
  else
    let stack_pointer := wrap64 (stack_pointer - size) in
    Ok (poke_reg t STACK_POINTER stack_pointer, stack_pointer).

End Mem.

(** ** Errors *)

Lemma poke_words_errno {S} {K : VmKernel S} n i : forall s a l s' e, poke_words n s i a l = (s', Some e) -> e = EFAULT.
Proof.
  induction n as [|n IH]; intros s a l s' e; cbn [poke_words]; [done|].
  destruct (PTRACE_POKEDATA _ _ _ _) as [s1 [e1|]]; [congruence|apply IH].
Qed.

Lemma write_data_errno {S} {K : VmKernel S} s i a l s' e : write_data s i a l = (s', Some e) -> e = EFAULT.
Proof.
  unfold write_data. destruct (process_vm_writev _ _ _ _) as [s1 n]. case_bool; [done|].
  destruct (poke_words _ _ _ _ _) as [s2 [e2|]] eqn:Ep; [intros [= <- <-]; by eapply poke_words_errno|].
  case_bool; [done|]. destruct (PTRACE_PEEKDATA _ _ _) as [word|]; [|congruence].
  destruct (PTRACE_POKEDATA _ _ _ _) as [s3 [e3|]]; congruence.
Qed.

(** ** What is read and written *)

Section MemLaws.

Context {S : Type} {K : VmKernel S} {byte : S -> nat -> Z -> option Z} {L : VmKernelLaws S K byte}.

(** The bytes [l] are at [a]. *)
Definition held (s : S) (i : nat) (a : Z) (l : list Z) : Prop :=
  forall k b, l !! k = Some b -> byte s i (a + Z.of_nat k) = Some b.

Lemma held_app s i a l k : held s i a (l ++ k) <-> held s i a l /\ held s i (a + zlen l) k.
Proof.
  unfold held, zlen. split.
  - intros H. split; intros n b Hb.
    + apply H. by apply lookup_app_l_Some.
    + rewrite <- Z.add_assoc, <- Nat2Z.inj_add. apply H. rewrite lookup_app_r by lia. by rewrite Nat.add_comm, Nat.add_sub.
  - intros [H1 H2] n b Hb. apply lookup_app_Some in Hb as [Hb|[Hn Hb]]; [by apply H1|].
    specialize (H2 _ _ Hb). by replace (a + Z.of_nat n) with (a + Z.of_nat (length l) + Z.of_nat (n - length l)) by lia.
Qed.

Lemma held_take s i a l n : held s i a l -> held s i a (take n l).
Proof. intros H k b Hb. apply H. apply lookup_take_Some in Hb. tauto. Qed.

Lemma held_readv s i a n : held s i a (process_vm_readv s i a n).
Proof. intros k b. apply readv_prefix. Qed.

Lemma held_peek s i a w : PTRACE_PEEKDATA s i a = inl w -> held s i a w.
Proof. intros H k b. by eapply peek_bytes. Qed.

Lemma peek_words_spec n s i : forall a l, peek_words n s i a = inl l -> length l = (8 * n)%nat /\ held s i a l.
Proof.
  induction n as [|n IH]; intros a l; cbn [peek_words]; [by intros [= <-]|].
  destruct (PTRACE_PEEKDATA s i a) as [w|] eqn:Ew; [|done]. destruct (peek_words n s i _) as [k|] eqn:Ek; [|done].
  intros [= <-]. apply IH in Ek as [Hl Hk]. pose proof (peek_length _ _ _ _ Ew) as Hw. split; [rewrite length_app; lia|].
  apply held_app. split; [by apply held_peek|]. unfold zlen. by rewrite Hw.
Qed.

(** The split of a size in words. *)
Lemma words_of size : 0 <= size ->
  let t := size mod sizeof_word_t in let n := (size - t) / sizeof_word_t in
  0 <= t < 8 /\ 0 <= n /\ size = 8 * n + t.
Proof.
  unfold sizeof_word_t. intros H. cbv zeta. pose proof (Z.mod_pos_bound size 8). pose proof (Z.div_mod size 8).
  replace (size - size mod 8) with (size / 8 * 8) by lia. rewrite Z.div_mul by lia.
  pose proof (Z.div_pos size 8). lia.
Qed.

Lemma read_data_held s i a n l : 0 <= n -> read_data s i a n = inl l -> zlen l = n /\ held s i a l.
Proof.
  intros Hn. unfold read_data. case_bool; [intros [= <-]; bool_facts; split; [done|apply held_readv]|].
  destruct (words_of n Hn) as (Ht & Hw & E). set (t := n mod _) in *. set (w := (n - t) / _) in *.
  destruct (peek_words _ s i a) as [l0|] eqn:Ep; [|done]. apply peek_words_spec in Ep as [Hl Hh].
  case_bool; bool_facts; [intros [= <-]; split; [unfold zlen; lia|done]|].
  destruct (PTRACE_PEEKDATA s i _) as [x|] eqn:Ex; [|done]. intros [= <-]. pose proof (peek_length _ _ _ _ Ex) as Hx.
  split.
  - rewrite zlen_app. unfold zlen. rewrite length_take. lia.
  - apply held_app. split; [done|]. apply held_take, held_peek. unfold zlen. rewrite Hl.
    replace (Z.of_nat (8 * Z.to_nat w)) with (w * sizeof_word_t); [done|unfold sizeof_word_t; lia].
Qed.

(** [s'] is [s] where [l] is written at [a]. *)
Definition overwritten (s s' : S) (i : nat) (a : Z) (l : list Z) : Prop :=
  forall x, byte s' i x = if decide (a <= x < a + zlen l) then l !! Z.to_nat (x - a) else byte s i x.
(** Nothing changed but the [n] bytes at [a]. *)
Definition changed_in (s s' : S) (i : nat) (a n : Z) : Prop :=
  forall x, ~ a <= x < a + n -> byte s' i x = byte s i x.

Lemma overwritten_changed s s' i a l : overwritten s s' i a l -> changed_in s s' i a (zlen l).
Proof. intros H x Hx. by rewrite H, decide_False. Qed.

Lemma overwritten_held s s' i a l : overwritten s s' i a l -> held s' i a l.
Proof.
  intros H k b Hb. pose proof (lookup_lt_Some _ _ _ Hb) as Hk. rewrite H, decide_True by (unfold zlen; lia).
  by replace (Z.to_nat _) with k by lia.
Qed.

Lemma changed_held s s' i a n b l : changed_in s s' i a n -> held s i b l -> b + zlen l <= a \/ a + n <= b -> held s' i b l.
Proof.
  intros H Hl Hd k x Hx. pose proof (lookup_lt_Some _ _ _ Hx) as Hk. unfold zlen in Hd. rewrite H by lia. by apply Hl.
Qed.

Lemma changed_trans s1 s2 s3 i a n : changed_in s1 s2 i a n -> changed_in s2 s3 i a n -> changed_in s1 s3 i a n.
Proof. intros H1 H2 x Hx. by rewrite H2, H1. Qed.

Lemma poke_words_spec n s i : forall a src s' e, (8 * n <= length src)%nat -> poke_words n s i a src = (s', e) ->
  changed_in s s' i a (8 * Z.of_nat n) /\ (e = None -> held s' i a (take (8 * n) src)).
Proof.
  revert s. induction n as [|n IH]; intros s a src s' e Hl; cbn [poke_words].
  { intros [= <- <-]. split; [done|]. intros _ k b Hb. by rewrite take_0 in Hb. }
  destruct (PTRACE_POKEDATA s i a (take 8 src)) as [s1 e1] eqn:Ep.
  assert (H8 : length (take 8 src) = 8%nat) by (rewrite length_take; lia).
  assert (H1 : forall x, byte s1 i x = if decide (e1 = None /\ a <= x < a + 8) then take 8 src !! Z.to_nat (x - a) else byte s i x)
    by (intros x; by eapply poke_word_all).
  destruct e1 as [e1|].
  { intros [= <- <-]. split; [|done]. intros x Hx. rewrite H1, decide_False; [done|]. by intros [? ?]. }
  intros E. apply IH in E as [Hc Hh]; [|rewrite length_drop; lia]. unfold sizeof_word_t in *. split.
  - intros x Hx. rewrite Hc, H1, decide_False by lia. done.
  - intros ->. specialize (Hh eq_refl). replace (8 * Datatypes.S n)%nat with (8 + 8 * n)%nat by lia.
    rewrite <- take_take_drop. apply held_app. split; [|unfold zlen; by rewrite H8].
    intros k b Hb. pose proof (lookup_lt_Some _ _ _ Hb) as Hk. rewrite H8 in Hk.
    rewrite Hc, H1, decide_True by (first [lia | split; [done|lia]]). by replace (Z.to_nat _) with k by lia.
Qed.

(** write_data(): on success the bytes are there and nothing else changed, on
    error nothing changed but some of these bytes. *)
Lemma write_data_spec s i a l s' e : write_data s i a l = (s', e) ->
  changed_in s s' i a (zlen l) /\ (e = None -> held s' i a l).
Proof.
  unfold write_data. destruct (process_vm_writev s i a l) as [s1 n] eqn:Ew.
  assert (Hw : forall x, (n <= length l)%nat /\ byte s1 i x = if decide (a <= x < a + Z.of_nat n) then l !! Z.to_nat (x - a) else byte s i x)
    by (intros x; by eapply writev_prefix).
  assert (Hn := proj1 (Hw 0)). assert (Hc1 : changed_in s s1 i a (zlen l)).
  { intros x Hx. unfold zlen in Hx. rewrite (proj2 (Hw x)), decide_False by lia. done. }
  case_bool; bool_facts.
  { intros [= <- <-]. split; [done|]. intros _ k b Hk. pose proof (lookup_lt_Some _ _ _ Hk). unfold zlen in Hb.
    rewrite (proj2 (Hw _)), decide_True by lia. by replace (Z.to_nat _) with k by lia. }
  destruct (words_of (zlen l) (zlen_nonneg l)) as (Ht & Hwn & E). set (t := zlen l mod _) in *. set (w := (zlen l - t) / _) in *.
  destruct (poke_words _ s1 i a l) as [s2 e2] eqn:Ep. unfold zlen in E.
  apply poke_words_spec in Ep as [Hc2 Hh2]; [|lia].
  assert (Hc : changed_in s s2 i a (zlen l)).
  { eapply changed_trans; [done|]. intros x Hx. apply Hc2. unfold zlen in Hx. lia. }
  destruct e2 as [e2|]; [by intros [= <- <-]|]. specialize (Hh2 eq_refl).
  case_bool; bool_facts.
  { intros [= <- <-]. split; [done|]. intros _. rewrite take_ge in Hh2 by lia. done. }
  destruct (PTRACE_PEEKDATA s2 i _) as [word|] eqn:Ex; [|by intros [= <- <-]].
  pose proof (peek_length _ _ _ _ Ex) as Hx. pose proof (held_peek _ _ _ _ Ex) as Hxh.
  set (k := Z.to_nat (w * sizeof_word_t)) in *. assert (Hk : (k = 8 * Z.to_nat w)%nat) by (unfold k, sizeof_word_t; lia).
  set (new := drop k l ++ drop (Z.to_nat t) word) in *.
  assert (Hnew : length new = 8%nat) by (unfold new; rewrite length_app, !length_drop; lia).
  assert (Hd : length (drop k l) = Z.to_nat t) by (rewrite length_drop; lia).
  destruct (PTRACE_POKEDATA s2 i _ new) as [s3 e3] eqn:E3. intros [= <- <-].
  set (last := a + w * sizeof_word_t) in *. assert (Hlast : last = a + Z.of_nat k) by (unfold last, k, sizeof_word_t; lia).
  assert (H3 : forall x, byte s3 i x = if decide (e3 = None /\ last <= x < last + 8) then new !! Z.to_nat (x - last) else byte s2 i x)
    by (intros x; by eapply poke_word_all).
  split.
  - intros x Hx'. unfold zlen in Hx'. rewrite H3. destruct (decide _) as [[-> Hr]|]; [|by apply Hc].
    destruct (lookup_lt_is_Some_2 word (Z.to_nat (x - last))) as [b Hwb]; [lia|].
    unfold new. rewrite lookup_app_r, Hd, lookup_drop by lia.
    replace (Z.to_nat t + (Z.to_nat (x - last) - Z.to_nat t))%nat with (Z.to_nat (x - last)) by lia. rewrite Hwb.
    symmetry. specialize (Hxh _ _ Hwb). replace (last + Z.of_nat (Z.to_nat (x - last))) with x in Hxh by lia.
    rewrite <- Hc by (unfold zlen; lia). done.
  - intros He. destruct e3; [done|]. rewrite <- (take_drop k l). apply held_app. split.
    + intros j b Hj. pose proof (lookup_lt_Some _ _ _ Hj) as Hjl. rewrite length_take in Hjl.
      rewrite H3, decide_False by (intros [_ ?]; lia). apply Hh2. by rewrite <- Hk.
    + intros j b Hj. pose proof (lookup_lt_Some _ _ _ Hj) as Hjl.
      assert (Hzl : zlen (take k l) = Z.of_nat k) by (unfold zlen; rewrite length_take; lia). rewrite Hzl, <- Hlast.
      rewrite H3, decide_True by (split; [done|lia]). replace (Z.to_nat _) with j by lia. unfold new. by apply lookup_app_l_Some.
Qed.

(** ** What read_string() finds *)

(** [str] is the string at [a], of which [n] bytes at most are read. *)
Definition string_at (s : S) (i : nat) (a n : Z) (str : cstr) : Prop :=
  held s i a str /\ Forall (fun b => b <> 0) str /\ zlen str <= n
  /\ (zlen str < n -> byte s i (a + zlen str) = Some 0).

Lemma until_nul_spec n : forall l,
  Forall (fun b => b <> 0) (until_nul n l) /\ until_nul n l `prefix_of` l /\ (length (until_nul n l) <= n)%nat
  /\ ((length (until_nul n l) < n)%nat -> (length (until_nul n l) < length l)%nat -> l !! length (until_nul n l) = Some 0).
Proof.
  induction n as [|n IH]; intros l.
  { cbn. split; [constructor|]. split; [apply prefix_nil|]. lia. }
  destruct l as [|b l]; cbn [until_nul]; [cbn; split; [constructor|]; split; [apply prefix_nil|]; lia|].
  case_bool; bool_facts.
  - subst. cbn. split; [constructor|]. split; [apply prefix_nil|]. split; [lia|done].
  - destruct (IH l) as (H1 & H2 & H3 & H4). cbn [length]. split; [by constructor|]. split; [by apply prefix_cons|].
    split; [lia|]. intros ? ?. cbn. apply H4; lia.
Qed.

Lemma held_prefix s i a l k : held s i a l -> k `prefix_of` l -> held s i a k.
Proof. intros H [r ->]. by apply held_app in H as [H _]. Qed.

(** A string of which some bytes are read already. *)
Lemma string_at_app s i a n l str : held s i a l -> Forall (fun b => b <> 0) l ->
  string_at s i (a + zlen l) (n - zlen l) str -> string_at s i a n (l ++ str).
Proof.
  intros H Hl (H1 & H2 & H3 & H4). split; [by apply held_app|]. split; [by apply Forall_app|]. rewrite zlen_app.
  split; [lia|]. intros Hlt. rewrite Z.add_assoc. apply H4. lia.
Qed.

Lemma string_at_until s i a l m n : held s i a l -> zlen l = Z.of_nat m -> Z.of_nat m <= n ->
  zlen (until_nul m l) < Z.of_nat m \/ n = Z.of_nat m -> string_at s i a n (until_nul m l).
Proof.
  intros H Hl Hn Hd. destruct (until_nul_spec m l) as (H1 & H2 & H3 & H4). split; [by eapply held_prefix|]. split; [done|].
  unfold zlen in *. split; [lia|]. intros Hlt. apply H, H4; lia.
Qed.

Lemma until_nul_all m l : length (until_nul m l) = m -> length l = m -> Forall (fun b => b <> 0) l.
Proof.
  intros H1 H2. destruct (until_nul_spec m l) as (H & [k E] & _). rewrite E in H2. rewrite length_app in H2.
  destruct k; [|cbn in H2; lia]. rewrite app_nil_r in E. by rewrite <- E in H.
Qed.

Lemma peek_string_at n s i : forall a trailing str, (trailing < 8)%nat -> peek_string n s i a trailing = inl str ->
  string_at s i a (8 * Z.of_nat n + Z.of_nat trailing) str.
Proof.
  induction n as [|n IH]; intros a trailing str Ht; cbn [peek_string];
    destruct (PTRACE_PEEKDATA s i a) as [w|] eqn:Ew; [| done | | done];
    pose proof (peek_length _ _ _ _ Ew) as Hw; pose proof (held_peek _ _ _ _ Ew) as Hh.
  - intros E. assert (str = until_nul trailing w) as -> by congruence. destruct (until_nul_spec trailing w) as (H1 & H2 & H3 & H4).
    split; [by eapply held_prefix|]. split; [done|]. unfold zlen. split; [lia|]. intros ?. apply Hh, H4; lia.
  - case_bool.
    + intros E. assert (str = until_nul 8 w) as -> by congruence. apply Nat.ltb_lt in Hb. apply string_at_until; [done|unfold zlen; lia..].
    + destruct (peek_string n _ _ _ _) as [l|] eqn:El; [|done]. intros E. assert (str = w ++ l) as -> by congruence. apply Nat.ltb_ge in Hb.
      destruct (until_nul_spec 8 w) as (_ & _ & H3 & _). apply string_at_app; [done|apply (until_nul_all 8); lia|].
      unfold zlen. rewrite Hw. replace (8 * Z.of_nat (Datatypes.S n) + Z.of_nat trailing - Z.of_nat 8)
        with (8 * Z.of_nat n + Z.of_nat trailing) by lia. by apply IH.
Qed.

Lemma chunk_size_power : exists k, 0 <= k /\ chunk_size = 2 ^ k.
Proof. destruct page_size_power as (k & Hk & E). unfold chunk_size. case_bool; [by exists k|by exists 10]. Qed.

(** The room in the chunk of an address. *)
Lemma chunk_room x : 0 < Z.land x (Z.lnot (chunk_size - 1)) + chunk_size - x.
Proof.
  destruct chunk_size_power as (k & Hk & ->).
  replace (2 ^ k - 1) with (Z.ones k) by (rewrite Z.ones_equiv; lia). rewrite <- Z.ldiff_land, Z.ldiff_ones_r by done.
  rewrite Z.shiftl_mul_pow2, Z.shiftr_div_pow2 by done. pose proof (Z.div_mod x (2 ^ k)). pose proof (Z.mod_pos_bound x (2 ^ k)).
  pose proof (Z.pow_pos_nonneg 2 k). lia.
Qed.

(** The loop ends, and what it finds is the string. *)
Lemma read_chunks_spec fuel s i src n : forall offset acc, 0 <= offset <= n -> (Z.to_nat (n - offset) < fuel)%nat ->
  zlen acc = offset -> held s i src acc -> Forall (fun b => b <> 0) acc ->
  match read_chunks fuel s i src n offset acc with
  | Ok (Some str) => string_at s i src n str
  | Ok None => True
  | _ => False
  end.
Proof.
  induction fuel as [|fuel IH]; intros offset acc Ho Hf Ha Hh Hz; [lia|]. cbn [read_chunks].
  pose proof (chunk_room (src + offset)) as Hroom. set (room := Z.land _ _ + _ - _) in *.
  set (size := Z.min room (n - offset)) in *. assert (Hs : 0 <= size <= n - offset /\ (offset < n -> 0 < size)) by (unfold size; lia).
  pose proof (held_readv s i (src + offset) size) as Hl. set (l := process_vm_readv _ _ _ _) in *.
  case_bool; [done|]. bool_facts. destruct (until_nul_spec (length l) l) as (H1 & H2 & H3 & H4).
  unfold zlen in Hb, Ha. case_bool; bool_facts; unfold zlen in *.
  - rewrite (proj2 (Z.leb_le _ _)) by lia. apply string_at_app; [done..|]. unfold zlen. rewrite Ha.
    apply string_at_until; unfold zlen; [done|lia..].
  - case_bool; bool_facts.
    + apply IH; [lia..|rewrite length_app; lia| |].
      * apply held_app. split; [done|]. unfold zlen. by rewrite Ha.
      * apply Forall_app. split; [done|]. apply (until_nul_all (length l)); lia.
    + rewrite (proj2 (Z.eqb_eq _ _)) by lia. done.
Qed.

Lemma read_string_ends s i src n : 0 <= n ->
  exists r, read_string_fueled (Datatypes.S (Z.to_nat n)) s i src n = Ok r
    /\ match r with inl str => string_at s i src n str | inr e => e = EFAULT end.
Proof.
  intros Hn. pose proof (read_chunks_spec (Datatypes.S (Z.to_nat n)) s i src n 0 []) as H.
  unfold read_string_fueled. destruct (read_chunks _ _ _ _ _ _ _) as [[str|]|e|w].
  - cbn [res_bind]. eexists. split; [done|]. apply H; [lia..|done|intros k b Hk; by rewrite lookup_nil in Hk|constructor].
  - cbn [res_bind]. eexists. split; [done|]. destruct (words_of n Hn) as (Ht & Hw & E).
    set (t := n mod _) in *. set (m := (n - t) / _) in *. destruct (peek_string _ _ _ _ _) as [str|e] eqn:Ep.
    + apply peek_string_at in Ep; [|lia]. by replace (8 * Z.of_nat (Z.to_nat m) + Z.of_nat (Z.to_nat t)) with n in Ep by lia.
    + clear -Ep. revert src Ep. generalize (Z.to_nat m). intros k. induction k as [|k IH]; intros src; cbn [peek_string];
        destruct (PTRACE_PEEKDATA _ _ _); try congruence. case_bool; [done|].
      destruct (peek_string k _ _ _ _) eqn:Ek; [done|]. intros [= <-]. by eapply IH.
  - exfalso. apply H; [lia..|done|intros k b Hk; by rewrite lookup_nil in Hk|constructor].
  - exfalso. apply H; [lia..|done|intros k b Hk; by rewrite lookup_nil in Hk|constructor].
Qed.

Lemma read_string_at s i src n str : 0 <= n -> read_string s i src n = inl str -> string_at s i src n str.
Proof. intros Hn. unfold read_string. destruct (read_string_ends s i src n Hn) as (r & -> & H). by intros ->. Qed.

(** There is one string at an address. *)
Lemma string_at_unique s i a n str l : string_at s i a n str -> held s i a (l ++ [0]) -> Forall (fun b => b <> 0) l ->
  zlen l < n -> str = l.
Proof.
  intros (H1 & H2 & H3 & H4) [Hl H0]%held_app Hz Hn.
  assert (Hend : byte s i (a + zlen l) = Some 0).
  { specialize (H0 0%nat 0 eq_refl). by rewrite Z.add_0_r in H0. }
  assert (E : forall k, (k < length str)%nat -> (k < length l)%nat -> str !! k = l !! k).
  { intros k Hk1 Hk2. destruct (lookup_lt_is_Some_2 _ _ Hk1) as [x Hx], (lookup_lt_is_Some_2 _ _ Hk2) as [y Hy].
    specialize (H1 _ _ Hx). specialize (Hl _ _ Hy). congruence. }
  unfold zlen in *. destruct (Nat.lt_trichotomy (length str) (length l)) as [Hlt|[Heq|Hgt]].
  - exfalso. destruct (lookup_lt_is_Some_2 _ _ Hlt) as [y Hy]. pose proof (Hl _ _ Hy) as Hb. rewrite H4 in Hb by lia.
    injection Hb as <-. rewrite Forall_lookup in Hz. by apply (Hz _ _ Hy).
  - apply list_eq. intros k. destruct (Nat.lt_ge_cases k (length l)) as [Hk|Hk]; [apply E; lia|].
    by rewrite !lookup_ge_None_2 by lia.
  - exfalso. destruct (lookup_lt_is_Some_2 _ _ Hgt) as [y Hy]. pose proof (H1 _ _ Hy) as Hb. rewrite Hend in Hb.
    injection Hb as <-. rewrite Forall_lookup in H2. by apply (H2 _ _ Hy).
Qed.

End MemLaws.

(** ** The interfaces *)

#[export] Instance mem_memory {S} {K : VmKernel S} : TraceeMemory S := {
  Memory.read_data := read_data;
  Memory.write_data := write_data
}.
#[export] Instance mem_strings {S} {K : VmKernel S} : TraceeStrings S := { Memory.read_string := read_string }.

(** A path of [PATH_MAX] - 1 bytes, which Linux accepts, is refused. *)
Lemma read_path_short {S} {K : VmKernel S} {byte} {L : VmKernelLaws S K byte} s i a (l : cstr) :
  held (byte := byte) s i a (l ++ [0]) -> Forall (fun b => b <> 0) l -> zlen l = PATH_MAX - 1 ->
  forall p, read_path s i a <> inl p.
Proof.
  intros Hh Hz Hl p. unfold read_path. destruct (read_string s i a PATH_MAX) as [str|e] eqn:Er; [|done].
  apply (read_string_at (byte := byte)) in Er; [|done]. apply (string_at_unique s i a PATH_MAX str l) in Er as ->; [|done..|lia].
  by rewrite (proj2 (Z.leb_le _ _)) by lia.
Qed.

(** ** A kernel to compute with *)

Abbreviation DemoVm := (gmap Z Z).

Fixpoint demo_readv (s : DemoVm) (a : Z) (n : nat) : list Z :=
  match n with
  | O => []
  | S n => match s !! a with Some b => b :: demo_readv s (a + 1) n | None => [] end
  end.
Fixpoint demo_put (s : DemoVm) (a : Z) (l : list Z) : DemoVm :=
  match l with [] => s | b :: l => <[a := b]> (demo_put s (a + 1) l) end.

(** With [vm] the system calls process_vm_*() transfer what is mapped, without it
    they are missing. *)
Definition demo_vm (vm : bool) : VmKernel DemoVm := {|
  process_vm_readv s _ a n := if vm then demo_readv s a (Z.to_nat n) else [];
  process_vm_writev s _ a l :=
    if vm then let n := length (demo_readv s a (length l)) in (demo_put s a (take n l), n) else (s, O);
  PTRACE_PEEKDATA s _ a := let l := demo_readv s a 8 in if (length l =? 8)%nat then inl l else inr EIO;
  PTRACE_POKEDATA s _ a l := if (length (demo_readv s a 8) =? 8)%nat then (demo_put s a l, None) else (s, Some EIO);
  page_size := 4096
|}.
Definition demo_byte (s : DemoVm) (_ : nat) (a : Z) : option Z := s !! a.

Lemma demo_readv_lookup s n : forall a k b, demo_readv s a n !! k = Some b -> s !! (a + Z.of_nat k) = Some b.
Proof.
  induction n as [|n IH]; intros a k b; cbn [demo_readv]; [done|]. destruct (s !! a) eqn:E; [|done].
  destruct k as [|k]; cbn; [intros [= <-]; by rewrite Z.add_0_r|]. intros H. apply IH in H.
  by replace (a + Z.of_nat (S k)) with (a + 1 + Z.of_nat k) by lia.
Qed.

Lemma demo_readv_length s n : forall a, (length (demo_readv s a n) <= n)%nat.
Proof. induction n as [|n IH]; intros a; cbn; [lia|]. destruct (s !! a); cbn; [specialize (IH (a + 1))|]; lia. Qed.

Lemma demo_put_lookup l : forall s a x,
  demo_put s a l !! x = if decide (a <= x < a + zlen l) then l !! Z.to_nat (x - a) else s !! x.
Proof.
  induction l as [|b l IH]; intros s a x; cbn [demo_put].
  { rewrite decide_False by (rewrite zlen_nil; lia). done. }
  rewrite zlen_cons. destruct (decide (x = a)) as [->|Hne].
  - rewrite lookup_insert_eq. pose proof (zlen_nonneg l). rewrite decide_True by lia. by rewrite Z.sub_diag.
  - rewrite lookup_insert_ne, IH by done. destruct (decide _) as [H|H].
    + rewrite decide_True by lia. by replace (Z.to_nat (x - a)) with (S (Z.to_nat (x - (a + 1)))) by lia.
    + rewrite decide_False by lia. done.
Qed.

Lemma demo_vm_laws vm : VmKernelLaws DemoVm (demo_vm vm) demo_byte.
Proof.
  split.
  - intros s i a n k b. cbn. destruct vm; [apply demo_readv_lookup|done].
  - intros s i a n Hn. cbn. destruct vm; [|done]. unfold zlen. pose proof (demo_readv_length s (Z.to_nat n) a). lia.
  - intros s i a w. cbn -[demo_readv]. case_bool; [|done]. apply Nat.eqb_eq in Hb. congruence.
  - intros s i a w k b. cbn -[demo_readv]. case_bool; [|done]. intros E. assert (w = demo_readv s a 8) as -> by congruence. apply demo_readv_lookup.
  - intros s i a l s' n x. cbn. destruct vm.
    + intros [= <- <-]. pose proof (demo_readv_length s (length l) a) as H. split; [done|]. unfold demo_byte.
      rewrite demo_put_lookup. unfold zlen. rewrite length_take. rewrite Nat.min_l by done.
      destruct (decide _) as [Hd|]; [|done]. apply lookup_take_lt. lia.
    + intros [= <- <-]. split; [lia|]. by rewrite decide_False by lia.
  - intros s i a w s' e x. cbn -[demo_readv]. case_bool; intros [= <- <-] Hw; unfold demo_byte.
    + rewrite demo_put_lookup. unfold zlen. rewrite Hw. destruct (decide (a <= x < a + Z.of_nat 8)).
      * by rewrite decide_True by (split; [done|lia]).
      * by rewrite decide_False by (intros [_ ?]; lia).
    + by rewrite decide_False by (by intros [? ?]).
  - by exists 12.
Qed.

Definition demo_space (n : nat) : DemoVm := demo_put ∅ 4096 (replicate n 65).

Lemma mem_contents_laws {S} (K : VmKernel S) byte (L : VmKernelLaws S K byte) :
  MemoryContentsLaws S mem_memory mem_strings {| holds_at := held (byte := byte) |}.
Proof.
  split; cbn.
  - intros s i a l s' H. apply (write_data_spec (byte := byte)) in H as [_ H]. by apply H.
  - intros s i a l s' e b k H Hk Hd. apply (write_data_spec (byte := byte)) in H as [H _]. by eapply changed_held.
  - intros s i a n l l' Hh Hz Hn H. apply (read_string_at (byte := byte)) in H.
    + by eapply string_at_unique.
    + pose proof (zlen_nonneg l). lia.
  - intros s i a n l H Hn. apply (read_string_at (byte := byte)) in H as (_ & H1 & H2 & _); [|done]. done.
Qed.

Lemma mem_reads_laws {S} (K : VmKernel S) byte (L : VmKernelLaws S K byte) :
  MemoryReadsLaws S mem_memory {| holds_at := held (byte := byte) |}.
Proof.
  split; cbn.
  - intros s i a l k. apply held_app.
  - intros s i a l k Hl Hk Hn. apply list_eq. intros j. unfold zlen in Hn. destruct (l !! j) as [b|] eqn:El.
    + destruct (lookup_lt_is_Some_2 k j) as [c Ec]; [apply lookup_lt_Some in El; lia|]. rewrite Ec. f_equal.
      specialize (Hl _ _ El). specialize (Hk _ _ Ec). congruence.
    + apply lookup_ge_None in El. symmetry. apply lookup_ge_None. lia.
  - intros s i a n l H Hn. by apply (read_data_held (byte := byte)).
Qed.

(** ** Property *)

(** C31: mem.c implements the interface of the memory of tracees, whatever the
    system calls transfer at once: a success of write_data() puts the bytes at
    their address and, whatever its result, nothing else changes, not even in the
    last word that it rewrites; a success of read_data() gives as many bytes as were
    asked for, the ones that the tracee has there; read_string() gives the string
    that the memory has; a string that was written is the string that is read; and
    the loop on chunks ends. *)
Theorem mem_refines {S} (K : VmKernel S) byte (L : VmKernelLaws S K byte) :
  TraceeMemoryLaws S mem_memory
  /\ MemoryContentsLaws S mem_memory mem_strings {| holds_at := held (byte := byte) |}
  /\ MemoryReadsLaws S mem_memory {| holds_at := held (byte := byte) |}
  /\ (forall s i a n l, Mem.read_data s i a n = inl l -> 0 <= n -> zlen l = n /\ forall k b, l !! k = Some b -> byte s i (a + Z.of_nat k) = Some b)
  /\ forall s i src n, 0 <= n -> is_ok (read_string_fueled (Datatypes.S (Z.to_nat n)) s i src n).
Proof.
  split; [|split; [|split; [|split]]].
  - split.
    + intros s i a n l H Hn. by apply (read_data_held (byte := byte)) in H as [? _].
    + intros s i a l s' e H. by apply write_data_errno in H as ->.
  - by apply mem_contents_laws.
  - by apply mem_reads_laws.
  - intros s i a n l H Hn. by apply (read_data_held (byte := byte)).
  - intros s i src n Hn. destruct (read_string_ends (byte := byte) s i src n Hn) as (r & E & _). by exists r.
Qed.

(** A string of ten bytes in a memory of 24, with and without process_vm_*(). *)
Lemma mem_refines_witness :
  (forall vm : bool, let K := demo_vm vm in
     let '(s, e) := write_data (demo_space 24) 0 4100 (bs "/etc/hosts" ++ [0]) in
     e = None /\ read_string s 0 4100 16 = inl (bs "/etc/hosts") /\ s !! 4111 = Some 65)
  /\ TraceeMemoryLaws DemoVm (mem_memory (K := demo_vm false)).
Proof.
  split; [intros []; by vm_compute|]. exact (proj1 (mem_refines (demo_vm false) demo_byte (demo_vm_laws false))).
Defined.
