(* ===== verification/SysArgs.v ===== *)
(** * The arguments of system calls (src/syscall/syscall.c)

    The state the handlers of system calls work on, their monad, and the functions
    that read a path in the memory of the tracee and put another one in its place,
    below the stack pointer. *)

From S2P Require Import Prelude Mem Memory Paths Binding ProcLinks Canon Sysnum Regs.

(** ** State *)

(** The emulation of netlink sockets: the descriptors, the reply that waits and
    what is already read of it.  An empty reply is fake_netlink_reply_len = 0. *)
Record FakeNetlink := mkNetlink {
  fake_netlink_fds : list Z;
  fake_netlink_reply : list Z;
  fake_netlink_reply_off : Z;
  pending_fake_netlink_socket : bool
}.

(** The fields of a tracee that the handlers of system calls change.
    [restart_syscall] is restart_how = PTRACE_SYSCALL. *)
Record SysFlags := mkFlags {
  sysexit_pending : bool;
  restart_syscall : bool;
  clone_stripped_newns : bool;
  no_new_privs : bool;
  execfn_addr : Z;
  auxv_fd : Z;
  seen_execve : bool
}.

Definition set_sysexit_pending (b : bool) (f : SysFlags) : SysFlags :=
  mkFlags b (restart_syscall f) (clone_stripped_newns f) (no_new_privs f) (execfn_addr f) (auxv_fd f) (seen_execve f).
Definition set_restart_syscall (b : bool) (f : SysFlags) : SysFlags :=
  mkFlags (sysexit_pending f) b (clone_stripped_newns f) (no_new_privs f) (execfn_addr f) (auxv_fd f) (seen_execve f).
Definition set_clone_stripped_newns (b : bool) (f : SysFlags) : SysFlags :=
  mkFlags (sysexit_pending f) (restart_syscall f) b (no_new_privs f) (execfn_addr f) (auxv_fd f) (seen_execve f).
Definition set_no_new_privs (b : bool) (f : SysFlags) : SysFlags :=
  mkFlags (sysexit_pending f) (restart_syscall f) (clone_stripped_newns f) b (execfn_addr f) (auxv_fd f) (seen_execve f).
Definition set_auxv_fd (fd : Z) (f : SysFlags) : SysFlags :=
  mkFlags (sysexit_pending f) (restart_syscall f) (clone_stripped_newns f) (no_new_privs f) (execfn_addr f) fd (seen_execve f).

Record SysState (W Mem : Type) := mkSys {
  x_regs : Regs;
  x_mem : Mem;
  x_me : nat;
  x_sysenter : bool;
  x_path : Tracee W;
  x_flags : SysFlags;
  x_netlink : FakeNetlink
}.
Arguments mkSys {W Mem}.
Arguments x_regs {W Mem}.
Arguments x_mem {W Mem}.
Arguments x_me {W Mem}.
Arguments x_sysenter {W Mem}.
Arguments x_path {W Mem}.
Arguments x_flags {W Mem}.
Arguments x_netlink {W Mem}.

(** ** The monad of handlers

    [Err e] is the status [- e] with which a handler ends. *)

Definition HM (W Mem A : Type) : Type := SysState W Mem -> SysState W Mem * res A.

Section Monad.

Context {W Mem : Type}.
Abbreviation State := (SysState W Mem).

Definition hret {A} (a : A) : HM W Mem A := fun x => (x, Ok a).
Definition hfail {A} (e : Z) : HM W Mem A := fun x => (x, Err e).
Definition hlift {A} (r : res A) : HM W Mem A := fun x => (x, r).
Definition hget {A} (f : State -> A) : HM W Mem A := fun x => (x, Ok (f x)).
Definition hset (f : State -> State) : HM W Mem unit := fun x => (f x, Ok ()).
Definition hbind {A B} (m : HM W Mem A) (k : A -> HM W Mem B) : HM W Mem B :=
  fun x => match m x with
           | (x, Ok a) => k a x
           | (x, Err e) => (x, Err e)
           | (x, Stuck w) => (x, Stuck w)
           end.
(** The caller tests the status. *)
Definition hattempt {A} (m : HM W Mem A) : HM W Mem (status A) :=
  fun x => match m x with
           | (x, Stuck w) => (x, Stuck w)
           | (x, Ok a) => (x, Ok (inl a))
           | (x, Err e) => (x, Ok (inr e))
           end.
(** A computation on the part of the tracee that deals with paths. *)
Definition on_path {A} (m : M W A) : HM W Mem A :=
  fun x => let '(t, r) := m (x_path x) in
           (mkSys (x_regs x) (x_mem x) (x_me x) (x_sysenter x) t (x_flags x) (x_netlink x), r).

Definition set_regs (g : Regs) (x : State) : State := mkSys g (x_mem x) (x_me x) (x_sysenter x) (x_path x) (x_flags x) (x_netlink x).
Definition set_mem (m : Mem) (x : State) : State := mkSys (x_regs x) m (x_me x) (x_sysenter x) (x_path x) (x_flags x) (x_netlink x).
Definition set_flags (f : SysFlags) (x : State) : State := mkSys (x_regs x) (x_mem x) (x_me x) (x_sysenter x) (x_path x) f (x_netlink x).
Definition set_netlink (n : FakeNetlink) (x : State) : State := mkSys (x_regs x) (x_mem x) (x_me x) (x_sysenter x) (x_path x) (x_flags x) n.

End Monad.

Notation "'do$' x ':=' m 'in' k" := (hbind m (fun x => k))
  (at level 10, x pattern, m at level 100, k at level 200) : res_scope.
Section SysArgs.

Context {W Mem : Type} {TM : TraceeMemory Mem} {TS : TraceeStrings Mem}.

(** ** Registers and memory *)

Definition peek (version : RegVersion) (r : Reg) : HM W Mem Z := hget (fun x => peek_reg (x_regs x) version r).
(** A register as an [int]. *)
Definition peek_int (version : RegVersion) (r : Reg) : HM W Mem Z := hget (fun x => sgn 32 (peek_reg (x_regs x) version r)).
Definition poke (r : Reg) (v : Z) : HM W Mem unit := hset (fun x => set_regs (poke_reg (x_regs x) r (wrap64 v)) x).
Definition sysnum_of (version : RegVersion) : HM W Mem Sysnum := fun x => (x, get_sysnum (x_regs x) version).
Definition change_sysnum (s : Sysnum) : HM W Mem unit :=
  fun x => match set_sysnum (x_regs x) s with
           | Ok g => (set_regs g x, Ok ())
           | Err e => (x, Err e)
           | Stuck w => (x, Stuck w)
           end.
(** The system call is voided, with this result. *)
Definition answer (result : Z) : HM W Mem unit := do$ _ := poke SYSARG_RESULT result in change_sysnum PR_void.

Definition wants_sysexit : HM W Mem unit :=
  hset (fun x => set_flags (set_restart_syscall true (set_sysexit_pending true (x_flags x))) x).

(** peek_word() and poke_word() of src/tracee/mem.c: the value, with all its bits
    set on error, and errno. *)
Definition peek_word (a : Z) : HM W Mem (Z * option Z) :=
  hget (fun x => match read_data (x_mem x) (x_me x) a (sizeof_word (x_regs x)) with
                 | inl l => (of_le l, None)
                 | inr e => (wrap (8 * sizeof_word (x_regs x)) (-1), Some e)
                 end).
Definition poke_data (a : Z) (l : list Z) : HM W Mem (option Z) :=
  fun x => let '(m, e) := write_data (x_mem x) (x_me x) a l in (set_mem m x, Ok e).
Definition poke_word (a v : Z) : HM W Mem (option Z) :=
  do$ size := hget (fun x => sizeof_word (x_regs x)) in poke_data a (to_le (Z.to_nat size) v).
Definition peek_data (a n : Z) : HM W Mem (list Z + Z) := hget (fun x => read_data (x_mem x) (x_me x) a n).

(** ** Paths in memory *)

(** get_sysarg_path() with read_path(): the path of an argument, empty for NULL. *)
Definition get_sysarg_path (r : Reg) : HM W Mem cstr :=
  do$ src := peek CURRENT r in
  if src =? 0 then hret []
  else
    do$ path := hget (fun x => read_string (x_mem x) (x_me x) src PATH_MAX) in
    match path with
    | inr e => hfail e
    | inl path => if PATH_MAX <=? zlen path + 1 then hfail ENAMETOOLONG else hret path
    end.

Definition set_sysarg_data (data : list Z) (r : Reg) : HM W Mem unit :=
  do$ tracee_ptr := (fun x => match alloc_mem (x_sysenter x) (x_regs x) (zlen data) with
                              | Ok (g, a) => (set_regs g x, Ok a)
                              | Err e => (x, Err e)
                              | Stuck w => (x, Stuck w)
                              end) in
  if tracee_ptr =? 0 then hfail EFAULT
  else
    do$ e := poke_data tracee_ptr data in
    match e with
    | Some e => hfail e
    | None => poke r tracee_ptr
    end.

Definition set_sysarg_path (path : cstr) (r : Reg) : HM W Mem unit := set_sysarg_data (path ++ [0]) r.

End SysArgs.
