(* ===== verification/Mounts.v ===== *)
(** * Emulated mounts (src/syscall/enter.c)

    mount(2), umount(2) and pivot_root(2) are emulated on the bindings of the
    tracee: nothing is mounted on the host. *)

From stdpp Require Import sorting.
From S2P Require Import Prelude Mem Memory Paths Binding ProcLinks Canon Lookup Sysnum Regs Translate SysArgs.

(** ** Data *)

Definition MS_RDONLY := 1.
Definition MS_REMOUNT := 32.
Definition MS_BIND := 4096.

(** strncmp(s, p, strlen(p)) == 0 *)
Definition begins_with (p s : cstr) : bool := str_eqb (take (length p) s) p.
Definition has_flag (flags mask : Z) : bool := negb (Z.land flags mask =? 0).

Section Mounts.

Context {W : Type} {K : Kernel W} {E : Extensions W} {V : PathEvents W} {N : PathPolicy W}.

(** insort_binding3_with_mode() and remove_binding_from_all_lists() on the
    name-space of the tracee; the result of the first one is ignored. *)
Definition insort_with_mode_m (host_path guest_path : cstr) (mode : BindingAccess) : M W unit :=
  fun t => match insort_binding3_with_mode (fs t) (next_addr t) host_path guest_path mode with
           | Ok (_, f) => (mkTracee f (glue t) (glue_type t) (S (next_addr t)) (view t) (world t), Ok ())
           | Err e => (t, Err e)
           | Stuck w => (t, Stuck w)
           end.
Definition remove_binding_m (b : Binding) : M W unit :=
  fun t => (mkTracee (remove_binding_from_all_lists (fs t) b) (glue t) (glue_type t) (next_addr t) (view t) (world t), Ok ()).

(** [m] fails: the caller returns. *)
Definition or_return {A} (m : M W A) (k : A -> M W unit) : M W unit :=
  do! r := attempt m in
  match r with inl a => k a | inr _ => ret () end.

(** ** mount(2) and umount(2) *)

Definition guest_canonicalize (user_path : cstr) : M W cstr :=
  do! guest_path := (if absolute user_path then ret (bs "/") else getcwd2) in
  do! guest_path := canonicalize 5 user_path true guest_path 0 in
  lift (chop_finality guest_path).

(** The host side of a mount. *)
Definition mount_source (regs : Regs) (src_user fstype : cstr) (flags : Z) : M W (option cstr) :=
  let among s := str_eqb fstype (bs s) in
  if has_flag flags MS_BIND then
    do! r := attempt (translate_path regs AT_FDCWD src_user true) in
    ret (match r with inl host_path => Some host_path | inr _ => None end)
  else if among "proc"%string then ret (Some (bs "/proc"))
  else if among "sysfs"%string then ret (Some (bs "/sys"))
  else if among "devtmpfs"%string then ret (Some (bs "/dev"))
  else if among "devpts"%string then ret (Some (bs "/dev/pts"))
  else if among "tmpfs"%string then
    do! tmpdir := on_world (fun w => let '(w, g) := create_temp_directory w in (w, inl g)) in
    ret (match tmpdir with Some tmpdir => Some (take (Z.to_nat (PATH_MAX - 1)) tmpdir) | None => None end)
  else ret None.

Definition emulate_mount (regs : Regs) (src_user target_user fstype : cstr) (flags : Z) : M W unit :=
  if has_flag flags MS_REMOUNT then ret ()
  else
    do! host_path := mount_source regs src_user fstype flags in
    match host_path with
    | None => ret ()
    | Some host_path =>
        do! host_path := lift (chop_finality host_path) in
        or_return (guest_canonicalize target_user) (fun guest_path =>
          insort_with_mode_m host_path guest_path
            (if has_flag flags MS_RDONLY then BINDING_ACCESS_RO else BINDING_ACCESS_RW))
    end.

Definition emulate_umount (target_user : cstr) : M W unit :=
  or_return (guest_canonicalize target_user) (fun guest_path =>
    if str_eqb guest_path (bs "/") then ret ()
    else
      do! f := get fs in
      do! binding := lift (get_binding f GUEST guest_path) in
      match binding with
      | None => ret ()
      | Some binding =>
          if str_eqb (path (guest binding)) guest_path then remove_binding_m binding else ret ()
      end).

(** ** pivot_root(2) *)

(** Where the previous root becomes reachable: put_old as a path under the new
    root, if there is one. *)
Definition put_old_after (new_root_guest put_old_guest : cstr) : option cstr :=
  let len := length new_root_guest in
  let at_root := (len =? 1)%nat && str_eqb (take 1 new_root_guest) [SLASH] in
  if (0 <? len)%nat && begins_with new_root_guest put_old_guest
     && ((chr put_old_guest len =? SLASH) || at_root)
  then
    let after := drop (if (len =? 1)%nat then 0 else len) put_old_guest in
    if (chr after 0 =? SLASH) && negb (chr after 1 =? 0) then Some (take (Z.to_nat (PATH_MAX - 1)) after) else None
  else None.

(** One binding of the snapshot: rebased when it is below the new root, exposed
    below put_old otherwise. *)
Definition pivot_binding (root_binding : Binding) (new_root_guest : cstr) (after : option cstr) (b : Binding) : M W unit :=
  let len := length new_root_guest in
  let g := path (guest b) in
  if (b_addr b =? b_addr root_binding)%nat || str_eqb g (bs "/") then ret ()
  else if (0 <? len)%nat && (len <? length g)%nat && begins_with new_root_guest g && (chr g len =? SLASH) then
    do! _ := insort_with_mode_m (path (host b)) (drop len g) BINDING_ACCESS_RW in
    remove_binding_m b
  else
    match after with
    | None => ret ()
    | Some after =>
        if begins_with after g && ((chr g (length after) =? 0) || (chr g (length after) =? SLASH)) then ret ()
        else if PATH_MAX <=? zlen (after ++ g) then ret ()
        else insort_with_mode_m (path (host b)) (after ++ g) BINDING_ACCESS_RW
    end.

Fixpoint pivot_bindings (root_binding : Binding) (new_root_guest : cstr) (after : option cstr) (snapshot : list Binding) : M W unit :=
  match snapshot with
  | [] => ret ()
  | b :: snapshot =>
      do! _ := pivot_binding root_binding new_root_guest after b in
      pivot_bindings root_binding new_root_guest after snapshot
  end.

(** The end of emulate_pivot_root(), once its paths are known. *)
Definition pivot_to (new_root_host new_root_guest put_old_guest : cstr) : M W unit :=
  do! f := get fs in
  do! root_binding := lift (get_binding f GUEST (bs "/")) in
  match root_binding with
  | None => ret ()
  | Some root_binding =>
      let old_root_host := take (Z.to_nat (PATH_MAX - 1)) (path (host root_binding)) in
      let after := put_old_after new_root_guest put_old_guest in
      do! snapshot := lift (list_of f GUEST) in
      do! _ := remove_binding_m root_binding in
      do! _ := insort_with_mode_m new_root_host (bs "/") BINDING_ACCESS_RW in
      do! _ := match after with
               | Some after => insort_with_mode_m old_root_host after BINDING_ACCESS_RW
               | None => ret ()
               end in
      pivot_bindings root_binding new_root_guest after snapshot
  end.

Definition emulate_pivot_root (regs : Regs) (new_root_user put_old_user : cstr) : M W unit :=
  or_return (translate_path regs AT_FDCWD new_root_user true) (fun new_root_host =>
    do! new_root_host := lift (chop_finality new_root_host) in
    or_return (guest_canonicalize new_root_user) (fun new_root_guest =>
      or_return (canonicalize 5 put_old_user true (if absolute put_old_user then bs "/" else new_root_guest) 0)
        (fun put_old_guest => pivot_to new_root_host new_root_guest put_old_guest))).

(** ** Their arguments *)

Context {Mem : Type} {TM : TraceeMemory Mem} {TS : TraceeStrings Mem}.

Definition ignore_error (m : HM W Mem unit) : HM W Mem unit := do$ _ := hattempt m in hret ().

Definition apply_emulated_umount : HM W Mem unit :=
  ignore_error (
    do$ target_user := get_sysarg_path SYSARG_1 in
    on_path (emulate_umount target_user)).

Definition apply_emulated_mount : HM W Mem unit :=
  ignore_error (
    do$ src_user := get_sysarg_path SYSARG_1 in
    do$ target_user := get_sysarg_path SYSARG_2 in
    do$ fstype_addr := peek CURRENT SYSARG_3 in
    do$ fstype := hget (fun x => if fstype_addr =? 0 then inl [] else read_string (x_mem x) (x_me x) fstype_addr 255) in
    do$ flags := peek CURRENT SYSARG_4 in
    do$ regs := hget x_regs in
    on_path (emulate_mount regs src_user target_user (match fstype with inl s => s | inr _ => [] end) flags)).

Definition apply_emulated_pivot_root : HM W Mem unit :=
  ignore_error (
    do$ new_root_user := get_sysarg_path SYSARG_1 in
    do$ put_old_user := get_sysarg_path SYSARG_2 in
    do$ regs := hget x_regs in
    on_path (emulate_pivot_root regs new_root_user put_old_user)).

End Mounts.

(** ** Fresh addresses *)

(** A computation never gives an address back. *)
Definition grows {W A} (m : M W A) : Prop := forall t, (next_addr t <= next_addr (fst (m t)))%nat.

Create HintDb grows.

Section Grows.

Context {W : Type}.

Lemma grows_bind {A B} (m : M W A) (k : A -> M W B) : grows m -> (forall a, grows (k a)) -> grows (bind m k).
Proof.
  intros Hm Hk t. unfold bind. specialize (Hm t). destruct (m t) as [t' [a|e|w]]; cbn in *; [|done..].
  specialize (Hk a t'). lia.
Qed.
Lemma grows_attempt {A} (m : M W A) : grows m -> grows (attempt m).
Proof. intros Hm t. unfold attempt. specialize (Hm t). by destruct (m t) as [t' [a|e|w]]. Qed.
Lemma grows_world {A} (g : W -> W * status A) : grows (on_world g).
Proof. intros t. unfold on_world. by destruct (g (world t)). Qed.

End Grows.

Ltac grows :=
  repeat first
    [ progress intros
    | solve [auto with grows]
    | match goal with
      | |- grows (ret _) => by intros ?
      | |- grows (fail _) => by intros ?
      | |- grows (get _) => by intros ?
      | |- grows (lift _) => by intros ?
      | |- grows (set_glue _) => by intros ?
      | |- grows (on_world _) => apply grows_world
      | |- grows (attempt _) => apply grows_attempt
      | |- grows (bind _ _) => apply grows_bind
      end
    | progress (cbv zeta)
    | case_match ].

Section Growing.

Context {W : Type} {K : Kernel W} {E : Extensions W} {V : PathEvents W} {N : PathPolicy W}.

Lemma insort_binding3_m_grows h g : grows (insort_binding3_m (W := W) h g).
Proof. intros t. unfold insort_binding3_m. destruct (insort_binding3 _ _ _ _) as [[b f]|e|w]; cbn; lia. Qed.
Hint Resolve insort_binding3_m_grows : grows.

Lemma substitute_binding_stat_grows f n g : grows (substitute_binding_stat f n g).
Proof.
  unfold substitute_binding_stat, lstat_mode, should_skip_file_access_due_to_f2fs_bug, build_glue, ensure_glue, create_glue_binding. grows.
Qed.
Hint Resolve substitute_binding_stat_grows : grows.

Lemma walk_grows (rec : cstr -> cstr -> Z -> M W cstr) deref level fuel : (forall u g n, grows (rec u g n)) ->
  forall followed guest cursor, grows (walk rec fuel deref level followed guest cursor).
Proof.
  intros Hrec. induction fuel as [|fuel IH]; intros followed guest cursor; cbn [walk]; [by intros ?|].
  unfold walk_step, walk_component, proc_action, proc_base_of, read_symlink. grows.
Qed.

Lemma canonicalize_grows levels : forall u deref g level, grows (canonicalize levels u deref g level).
Proof.
  induction levels as [|levels IH]; intros u deref g level; cbn [canonicalize]; [by intros ?|]. unfold check_shadow.
  grows; by apply walk_grows.
Qed.
Hint Resolve canonicalize_grows : grows.

Lemma translate_path_grows regs dir_fd u deref : grows (translate_path regs dir_fd u deref).
Proof. unfold translate_path, base_of, readlink_proc_pid_fd, getcwd2, check_access, check_mode. grows. Qed.
Hint Resolve translate_path_grows : grows.

Lemma mount_source_grows regs src fstype flags : grows (mount_source regs src fstype flags).
Proof. unfold mount_source. grows. Qed.

Lemma guest_canonicalize_grows u : grows (guest_canonicalize u).
Proof. unfold guest_canonicalize, getcwd2. grows. Qed.

End Growing.

(** ** The invariant of the bindings *)

(** The bindings of a name-space, [next] being a fresh address. *)
Record bound_ok (f : FileSystemNameSpace) (next : nat) : Prop := {
  bo_wf : fs_wf f;
  bo_sized : fs_sized f;
  bo_fresh : forall side l, HEAD f side = Some l -> Forall (fun b => b_addr b < next)%nat l;
  bo_guest : is_Some (bindings_guest f);
  bo_host : is_Some (bindings_host f);
  bo_cwd : cwd_ok f
}.

(** The binding of "/". *)
Definition root_is (f : FileSystemNameSpace) (root : list cstr) (b : Binding) : Prop :=
  exists l, bindings_guest f = Some l /\ b ∈ l /\ path (guest b) = bs "/" /\ path (host b) = render root /\ Forall name_ok root.

(** A tracee that emulated mounts leave as it must be. *)
Record mounts_ok {W} (t : Tracee W) : Prop := {
  mo_bound : bound_ok (fs t) (next_addr t);
  mo_root : exists root b, root_is (fs t) root b;
  mo_view : view_ok (view t);
  mo_glue : glue_type t = 0
}.

Lemma root_last l b : StronglySorted (precedes GUEST) l -> b ∈ l -> key GUEST b = [] -> last l = Some b.
Proof.
  intros Hs Hb Hk. apply list_elem_of_split in Hb as (l1 & l2 & ->). apply StronglySorted_app in Hs as (_ & _ & Hs).
  destruct l2 as [|y l2]; [by rewrite last_snoc|]. exfalso. inversion Hs as [|? ? _ Hf]; subst.
  apply Forall_cons in Hf as [[Hf|[? _]] _]; [|done]. apply Hf. rewrite Hk. apply prefix_nil.
Qed.

Lemma root_rooted f root b : fs_ok f -> root_is f root b -> rooted f root.
Proof.
  intros Hok (l & Hl & Hb & Hg & Hh & Hr). exists l, b. split; [done|]. split; [|done].
  apply root_last; [by apply (Hok GUEST l Hl)|done|]. unfold key. cbn. by rewrite Hg.
Qed.

Lemma mounts_tracee_ok {W} (t : Tracee W) : mounts_ok t -> tracee_ok t.
Proof.
  intros [[Hwf Hsz _ _ Hk _] (root & b & Hr) Hv Hg]. split.
  - exists root. eapply root_rooted; [|done]. by destruct Hwf.
  - destruct Hk as [k Hk]. repeat (split; [done|]). split; [by exists k|done].
Qed.

(** ** Insertion *)

Lemma insert_after_subset p b l : insert_after p b l ⊆ b :: l.
Proof. induction l as [|x l IH]; cbn; [set_solver|]. case_decide; set_solver. Qed.
Lemma insert_before_subset p b l : insert_before p b l ⊆ b :: l.
Proof. induction l as [|x l IH]; cbn; [set_solver|]. case_decide; set_solver. Qed.
Lemma remove_addr_subset b l : remove_addr b l ⊆ l.
Proof. intros x Hx. unfold remove_addr in Hx. by apply list_elem_of_filter in Hx as [_ Hx]. Qed.

(** [f'] has the bindings of [f], and [b] perhaps. *)
Definition extends (b : Binding) (f f' : FileSystemNameSpace) : Prop :=
  cwd f' = cwd f /\ forall side, match HEAD f side, HEAD f' side with
                                 | Some l, Some l' => l' ⊆ b :: l
                                 | None, None => True
                                 | _, _ => False
                                 end.

Lemma extends_remove b f : extends b f (remove_binding_from_all_lists f b).
Proof.
  split; [done|]. intros []; cbn;
    [destruct (bindings_guest f)|destruct (bindings_host f)|destruct (bindings_pending f)]; cbn; try done;
    intros x Hx; apply remove_addr_subset in Hx; set_solver.
Qed.

Lemma extends_insort f side b f' : insort_binding f side b = Ok f' -> extends b f f'.
Proof.
  unfold insort_binding, list_of. destruct (HEAD f side) as [l|] eqn:Hl; [|done]. cbn [res_bind].
  assert (Hset : forall k, k ⊆ b :: l -> extends b f (set_HEAD f side k)).
  { intros k Hk. split; [by destruct side|]. intros s. destruct side, s; cbn in *; rewrite ?Hl; try done;
      repeat case_match; set_solver. }
  destruct (insort_loop _ _ _ _ _) as [[it|[p|] [n|]]| |]; cbn [res_bind]; [|..|done|done]; intros [= <-].
  - pose proof (Hset _ (insert_after_subset it b l)) as [Hc Hs]. split; [done|]. intros s. specialize (Hs s).
    destruct (HEAD f s) as [l0|], s; cbn in *;
      repeat match goal with |- context [?g <$> ?o] => destruct o eqn:?; cbn in * end; try done;
      intros x Hx; apply remove_addr_subset in Hx; set_solver.
  - apply Hset, insert_after_subset.
  - apply Hset, insert_after_subset.
  - apply Hset, insert_before_subset.
  - by apply Hset.
Qed.

Lemma extends_trans b f1 f2 f3 : extends b f1 f2 -> extends b f2 f3 -> extends b f1 f3.
Proof.
  intros [C1 H1] [C2 H2]. split; [congruence|]. intros s. specialize (H1 s). specialize (H2 s).
  destruct (HEAD f1 s), (HEAD f2 s), (HEAD f3 s); try done. set_solver.
Qed.

Lemma extends_insort2 f b b' f' : insort_binding2 f b = Ok (b', f') -> extends b' f f'.
Proof.
  unfold insort_binding2. destruct (compare_paths _ _) as [c| |]; [|done..]. cbn [res_bind].
  destruct (insort_binding f GUEST _) as [f1| |] eqn:E1; [|done..]. cbn [res_bind].
  destruct (insort_binding f1 HOST _) as [f2| |] eqn:E2; [|done..]. cbn [res_bind]. intros [= <- <-].
  apply extends_insort in E1, E2. by eapply extends_trans.
Qed.

Lemma extends_bound b f f' next : extends b f f' -> bound_ok f next -> fs_wf f' -> sized b -> (b_addr b < S next)%nat ->
  bound_ok f' (S next).
Proof.
  intros [Hc Hx] [Hwf Hsz Hf Hg Hh Hcw] Hwf' Hb Ha. split; [done|..].
  - intros s l' Hl'. specialize (Hx s). rewrite Hl' in Hx. destruct (HEAD f s) as [l|] eqn:Hl; [|done].
    rewrite Forall_forall. intros x Hin. apply Hx, elem_of_cons in Hin as [->|Hin]; [done|].
    pose proof (Hsz s l Hl) as H. rewrite Forall_forall in H. by apply H.
  - intros s l' Hl'. specialize (Hx s). rewrite Hl' in Hx. destruct (HEAD f s) as [l|] eqn:Hl; [|done].
    rewrite Forall_forall. intros x Hin. apply Hx, elem_of_cons in Hin as [->|Hin]; [done|].
    pose proof (Hf s l Hl) as H. rewrite Forall_forall in H. specialize (H x Hin). cbn in *. lia.
  - specialize (Hx GUEST). cbn in Hx. destruct Hg as [l Hl]. rewrite Hl in Hx. destruct (bindings_guest f'); [by eexists|done].
  - specialize (Hx HOST). cbn in Hx. destruct Hh as [l Hl]. rewrite Hl in Hx. destruct (bindings_host f'); [by eexists|done].
  - unfold cwd_ok. by rewrite Hc.
Qed.

(** The binding a mount makes. *)
Definition mounted (addr : nat) (hs gs : list cstr) (mode : BindingAccess) : Binding :=
  mkBinding addr (new_path (render hs)) (new_path (render gs)) (bool_decide (hs <> gs)) false mode BINDING_TYPE_REGULAR.

(** A path of names that fits. *)
Definition fits (cs : list cstr) : Prop := Forall name_ok cs /\ zlen (render cs) < PATH_MAX.

Lemma mounted_key addr hs gs mode side : Forall name_ok hs -> Forall name_ok gs ->
  key side (mounted addr hs gs mode) = match side with HOST => hs | _ => gs end.
Proof. intros Hh Hg. destruct side; apply components_render; auto with proot. Qed.

Lemma fresh_addr f next side l : bound_ok f next -> HEAD f side = Some l -> next ∉ b_addr <$> l.
Proof.
  intros Hb Hl Hin. apply list_elem_of_fmap in Hin as (x & Hx & Hin). pose proof (bo_fresh _ _ Hb side l Hl) as H.
  rewrite Forall_forall in H. specialize (H x Hin). cbn in H. lia.
Qed.

(** insort_binding3_with_mode() on good bindings. *)
Lemma insort_mode_ok f next hs gs mode l : bound_ok f next -> bindings_guest f = Some l -> fits hs -> fits gs ->
  let b := mounted next hs gs mode in
  exists f' l', insort_binding3_with_mode f next (render hs) (render gs) mode = Ok (b, f')
    /\ bound_ok f' (S next) /\ bindings_guest f' = Some l' /\ inserted GUEST b l l'.
Proof.
  intros Hb Hl [Hh Lh] [Hg Lg] b. destruct (bo_host _ _ Hb) as [k Hk]. unfold insort_binding3_with_mode.
  set (b0 := mkBinding _ _ _ _ _ _ _).
  destruct (insort_binding2_wf f b0 l k) as (f' & l' & Ei & Hwf & Hl' & Hins); try done.
  - by destruct Hb.
  - by apply wf_new_path.
  - by apply wf_new_path.
  - by apply (fresh_addr f next GUEST).
  - by apply (fresh_addr f next HOST).
  - assert (Eb : set_need b0 (bool_decide (key HOST b0 <> key GUEST b0)) = b).
    { assert (E1 : key HOST b0 = hs) by (apply components_render; auto with proot).
      assert (E2 : key GUEST b0 = gs) by (apply components_render; auto with proot).
      unfold b, mounted, set_need. by rewrite E1, E2. }
    rewrite Eb in *. exists f', l'. split; [done|]. split; [|done].
    eapply extends_bound; [by eapply extends_insort2|done..|cbn; lia].
Qed.

Lemma remove_bound f next b : bound_ok f next -> bound_ok (remove_binding_from_all_lists f b) next.
Proof.
  intros [[Hok Hwf] Hsz Hf Hg Hh Hc].
  assert (Hs : forall s l', HEAD (remove_binding_from_all_lists f b) s = Some l' -> exists l, HEAD f s = Some l /\ l' `sublist_of` l).
  { intros [] l'; cbn; intros H; apply fmap_Some in H as (l & Hl & ->); exists l; (split; [done|]); apply remove_addr_sublist. }
  split; [split|..].
  - intros s l' Hl'. destruct (Hs _ _ Hl') as (l & Hl & Hsub). eapply side_ok_sublist; [done|]. by apply Hok.
  - intros s l' Hp Hl'. destruct (Hs _ _ Hl') as (l & Hl & Hsub). eapply Forall_sublist; [done|]. by eapply Hwf.
  - intros s l' Hl'. destruct (Hs _ _ Hl') as (l & Hl & Hsub). eapply Forall_sublist; [done|]. by eapply Hsz.
  - intros s l' Hl'. destruct (Hs _ _ Hl') as (l & Hl & Hsub). eapply Forall_sublist; [done|]. by eapply Hf.
  - cbn. by apply fmap_is_Some.
  - cbn. by apply fmap_is_Some.
  - done.
Qed.

(** ** The binding of "/" *)

Lemma root_insort f next hs gs mode root b : bound_ok f next -> fits hs -> fits gs -> gs <> [] -> root_is f root b ->
  exists f' b', insort_binding3_with_mode f next (render hs) (render gs) mode = Ok (b', f')
    /\ bound_ok f' (S next) /\ root_is f' root b.
Proof.
  intros Hb Hh Hg Hne (l & Hl & Hin & Hpg & Hph & Hr).
  destruct (insort_mode_ok f next hs gs mode l Hb Hl Hh Hg) as (f' & l' & Ei & Hb' & Hl' & Hins).
  exists f', (mounted next hs gs mode). split; [done|]. split; [done|]. exists l'. split; [done|]. split; [|done].
  apply Hins. right. split; [done|]. right. rewrite mounted_key by (by destruct Hh, Hg). unfold key. cbn.
  rewrite Hpg. by intros ?.
Qed.

Lemma root_insort_root f next hs mode : bound_ok f next -> fits hs ->
  exists f', insort_binding3_with_mode f next (render hs) (bs "/") mode = Ok (mounted next hs [] mode, f')
    /\ bound_ok f' (S next) /\ root_is f' hs (mounted next hs [] mode).
Proof.
  intros Hb Hh. destruct (bo_guest _ _ Hb) as [l Hl].
  destruct (insort_mode_ok f next hs [] mode l Hb Hl Hh) as (f' & l' & Ei & Hb' & Hl' & Hins); [split; [done|by vm_compute]|].
  exists f'. split; [done|]. split; [done|]. exists l'. split; [done|]. split; [apply Hins; by left|]. by destruct Hh.
Qed.

Lemma root_remove f root b x : root_is f root b -> b_addr x <> b_addr b -> root_is (remove_binding_from_all_lists f x) root b.
Proof.
  intros (l & Hl & Hin & H) Hne. exists (remove_addr x l). cbn. rewrite Hl. split; [done|]. split; [|done].
  unfold remove_addr. apply list_elem_of_filter. by split.
Qed.

(** ** Rebasing *)

Lemma begins_with_app p s : begins_with p s = true -> exists r, s = p ++ r.
Proof.
  unfold begins_with. intros H. apply str_eqb_eq in H. exists (drop (length p) s). by rewrite <- H at 1; rewrite take_drop.
Qed.

(** The path of a binding below the new root, without the path of that root. *)
Lemma rebased gs ks : Forall plain gs -> Forall plain ks -> ks <> [] -> begins_with (render gs) (render ks) = true ->
  chr (render ks) (length (render gs)) = SLASH ->
  exists ss, ss <> [] /\ ks = gs ++ ss /\ drop (length (render gs)) (render ks) = render ss.
Proof.
  intros Hg Hk Hne Hb Hc. rewrite (render_joined ks) in * by done. destruct (decide (gs = [])) as [->|Hgs].
  { exfalso. destruct ks as [|c ks]; [done|]. apply Forall_cons in Hk as [[Hcn Hc'] _]. destruct c as [|x c]; [done|].
    apply Forall_cons in Hc' as [Hx _]. rewrite joined_cons in Hc. cbn in Hc. subst x. done. }
  rewrite (render_joined gs) in * by done. destruct (begins_with_app _ _ Hb) as [r Er].
  rewrite Er, chr_app_r, Nat.sub_diag in Hc by lia. rewrite Er, drop_app_length.
  destruct (joined_prefix gs ks r) as (ss & Ek & Ess); [done..| |done|].
  { destruct r as [|x r]; [by left|]. cbn in Hc. subst. apply boundary_slash. }
  assert (Hss : ss <> []). { intros ->. subst r. done. }
  exists ss. rewrite (render_joined ss) by done. done.
Qed.

Section Pivot.

Context {W : Type} (root : list cstr) (addr : nat).

(** The tracee has its bindings, the one of "/" is at [addr]. *)
Definition pivoted (t : Tracee W) : Prop :=
  bound_ok (fs t) (next_addr t) /\ (exists b, root_is (fs t) root b /\ b_addr b = addr) /\ view_ok (view t) /\ glue_type t = 0.

(** The bindings of the snapshot. *)
Definition snapshot_ok (b : Binding) : Prop := binding_wf b /\ sized b /\ b_addr b <> addr.

Lemma insort_pivoted t hs gs mode : pivoted t -> fits hs -> fits gs -> gs <> [] ->
  exists t', insort_with_mode_m (render hs) (render gs) mode t = (t', Ok ()) /\ pivoted t'.
Proof.
  intros (Hb & (b & Hr & Ha) & Hv & Hg) Hh Hgs Hne.
  destruct (root_insort _ _ _ _ mode root b Hb Hh Hgs Hne Hr) as (f' & b' & Ei & Hb' & Hr').
  eexists. unfold insort_with_mode_m. rewrite Ei. split; [done|]. split; [done|]. split; [by exists b|done].
Qed.

Lemma remove_pivoted t x : pivoted t -> b_addr x <> addr -> exists t', remove_binding_m x t = (t', Ok ()) /\ pivoted t'.
Proof.
  intros (Hb & (b & Hr & Ha) & Hv & Hg) Hx. eexists. split; [done|]. split; [by apply remove_bound|].
  split; [|done]. exists b. split; [|done]. apply root_remove; [done|congruence].
Qed.

Lemma zlen_render_le ss gs : zlen (render ss) <= zlen (render (gs ++ ss)).
Proof.
  destruct (decide (ss = [])) as [->|Hs].
  { pose proof (length_render_pos (gs ++ [])) as Hl. apply Nat.eqb_neq in Hl. change (zlen (render [])) with 1. unfold zlen. lia. }
  rewrite !render_joined by (destruct gs; done). rewrite joined_app, zlen_app. pose proof (zlen_nonneg (joined gs)). lia.
Qed.

Lemma pivot_binding_ok t rb gs after b : pivoted t -> snapshot_ok b -> Forall plain gs ->
  match after with None => True | Some a => exists cs, a = render cs /\ cs <> [] /\ fits cs end ->
  exists t', pivot_binding rb (render gs) after b t = (t', Ok ()) /\ pivoted t'.
Proof.
  intros Ht ((Wh & Wg & _) & [Lh Lg] & Ha) Hgs Hafter. unfold pivot_binding.
  destruct Wh as (Eh & _ & Nh), Wg as (Eg & _ & Ng). set (hs := components (path (host b))) in *. set (ks := components (path (guest b))) in *.
  assert (Fh : fits hs) by (split; [done|by rewrite <- Eh]). rewrite Eh, Eg in *.
  case_bool; [by eexists|]. bool_facts.
  assert (Hne : ks <> []) by (intros ->; done).
  case_bool.
  - bool_facts. destruct (rebased gs ks) as (ss & Hss & Eks & ->); auto with proot.
    destruct (insort_pivoted t hs ss BINDING_ACCESS_RW) as (t1 & E1 & P1); [done..| |done|].
    { split; [rewrite Eks in Ng; by apply Forall_app in Ng as [_ ?]|]. rewrite Eks in Lg. pose proof (zlen_render_le ss gs). lia. }
    unfold bind. rewrite E1. by apply remove_pivoted.
  - destruct after as [a|]; [|by eexists]. destruct Hafter as (cs & -> & Hcs & Hfc).
    case_bool; [by eexists|]. case_bool; [by eexists|]. bool_facts.
    assert (Ej : render cs ++ render ks = render (cs ++ ks)).
    { rewrite !render_joined by (destruct cs; done). by rewrite joined_app. }
    rewrite Ej in *. apply insort_pivoted; [done|done| |by destruct cs].
    split; [apply Forall_app; by destruct Hfc|done].
Qed.

Lemma pivot_bindings_ok rb gs after l : Forall plain gs ->
  match after with None => True | Some a => exists cs, a = render cs /\ cs <> [] /\ fits cs end ->
  Forall snapshot_ok l -> forall t, pivoted t ->
  exists t', pivot_bindings rb (render gs) after l t = (t', Ok ()) /\ pivoted t'.
Proof.
  intros Hgs Ha. induction 1 as [|b l Hb Hl IH]; intros t Ht; cbn [pivot_bindings]; [by eexists|].
  destruct (pivot_binding_ok t rb gs after b Ht Hb Hgs Ha) as (t1 & E1 & P1). unfold bind. rewrite E1. by apply IH.
Qed.

End Pivot.

Lemma put_old_after_ok gs ps a : Forall plain gs -> fits ps -> put_old_after (render gs) (render ps) = Some a ->
  exists cs, a = render cs /\ cs <> [] /\ fits cs.
Proof.
  intros Hg [Hn Hl]. unfold put_old_after. set (len := length (render gs)).
  assert (Hlen : (len =? 1)%nat = bool_decide (gs = [])) by (by apply render_length_one).
  assert (Htake : forall q : cstr, zlen q <= zlen (render ps) -> take (Z.to_nat (PATH_MAX - 1)) q = q).
  { intros q Hq. apply take_ge. unfold zlen in *. lia. }
  case_bool; [|done]. bool_facts. rewrite Hlen in *. case_bool_decide as Hgs.
  - subst gs. rewrite drop_0. case_bool; [|done]. bool_facts. rewrite Htake by lia. intros [= <-].
    exists ps. split; [done|]. split; [|done]. by intros ->.
  - cbn [andb] in *. rewrite orb_false_r in *. case_bool; [|done]. bool_facts.
    assert (Hps : ps <> []).
    { intros ->. match goal with H : begins_with _ _ = true |- _ => apply begins_with_app in H as [r Er] end.
      apply (f_equal length) in Er. rewrite length_app in Er. fold len in Er. change (length (render [])) with 1%nat in Er.
      destruct len as [|[|n]] eqn:El; [|done|lia]. subst len. pose proof (length_render_pos gs). by rewrite El in *. }
    destruct (rebased gs ps) as (ss & Hss & -> & Ed); auto with proot.
    fold len in Ed. rewrite Ed. pose proof (zlen_render_le ss gs). rewrite Htake by done. intros [= <-].
    exists ss. split; [done|]. split; [done|]. apply Forall_app in Hn as [_ Hn]. split; [done|lia].
Qed.

Lemma root_binding_found f next root b : bound_ok f next -> root_is f root b -> get_binding f GUEST (bs "/") = Ok (Some b).
Proof.
  intros Hb (l & Hl & Hin & Hg & _). apply (get_binding_the f l []); [by destruct Hb as [[]]|done..|].
  assert (Hk : key GUEST b = []) by (unfold key; cbn; by rewrite Hg). split; [done|]. rewrite Hk. split; [done|].
  by intros b' _ Hp.
Qed.

(** The end of pivot_root(2): the name-space stays well formed and its "/" is the
    new root. *)
Lemma pivot_to_preserves {W} (t : Tracee W) hs gs ps :
  mounts_ok t -> fits hs -> Forall name_ok gs -> fits ps ->
  exists t', pivot_to (render hs) (render gs) (render ps) t = (t', Ok ()) /\ mounts_ok t' /\ rooted (fs t') hs.
Proof.
  intros [Hb (root & rb & Hr) Hv Hg] Hh Hgs Hps. unfold pivot_to. pose proof Hr as (l & Hl & Hin & _ & Hph & Hroot).
  unfold bind at 1, get at 1. unfold bind at 1, lift at 1. rewrite (root_binding_found _ _ root rb Hb Hr).
  unfold bind at 1, lift at 1. unfold list_of. cbn [HEAD]. rewrite Hl. unfold bind at 1, remove_binding_m at 1.
  destruct (root_insort_root (remove_binding_from_all_lists (fs t) rb) (next_addr t) hs BINDING_ACCESS_RW) as (f' & Ei & Hb' & Hr');
    [by apply remove_bound|done|].
  unfold bind at 1, insort_with_mode_m at 1. cbn [fs next_addr]. rewrite Ei.
  set (t1 := mkTracee f' _ _ _ _ _). set (addr := next_addr t) in *.
  assert (P1 : pivoted hs addr t1) by (split; [done|]; split; [by eexists|done]).
  assert (Hrf : fits root).
  { split; [done|]. rewrite <- Hph. destruct Hb as [_ Hsz _ _ _ _]. specialize (Hsz GUEST l Hl). rewrite Forall_forall in Hsz. by apply Hsz. }
  assert (Hend : forall (t2 : Tracee W) after, pivoted hs addr t2 ->
    match after with None => True | Some a => exists cs, a = render cs /\ cs <> [] /\ fits cs end ->
    exists t', pivot_bindings rb (render gs) after l t2 = (t', Ok ()) /\ mounts_ok t' /\ rooted (fs t') hs).
  { intros t2 after P2 Ha.
    destruct (pivot_bindings_ok (W := W) hs addr rb gs after l) with (t := t2) as (t' & E' & Hp & (b & Hrb & _) & Hv' & Hg'); auto with proot.
    - apply Forall_forall. intros b Hbl. destruct Hb as [[_ Hwf] Hsz Hf _ _ _].
      specialize (Hwf GUEST l ltac:(done) Hl). specialize (Hsz GUEST l Hl). specialize (Hf GUEST l Hl).
      rewrite Forall_forall in Hwf, Hsz, Hf. split; [by apply Hwf|]. split; [by apply Hsz|].
      specialize (Hf b Hbl). cbn in Hf. unfold addr. lia.
    - exists t'. split; [done|]. split; [|eapply root_rooted; [|done]; by destruct Hp as [[]]].
      split; [done| |done..]. by exists hs, b. }
  assert (Hafter := put_old_after_ok gs ps). destruct (put_old_after _ _) as [a|] eqn:Ea.
  - destruct (Hafter a) as (cs & -> & Hcs & Hfc); auto with proot. rewrite Hph, take_ge by (destruct Hrf; unfold zlen in *; lia).
    destruct (insort_pivoted hs addr t1 root cs BINDING_ACCESS_RW) as (t2 & E2 & P2); [done..|]. unfold bind at 1. rewrite E2.
    apply Hend; [done|by exists cs].
  - unfold bind at 1, ret at 1. by apply Hend.
Qed.

(** ** What a mount binds *)

Lemma chop_finality_bounds p : p <> [] -> chop_finality p <> Stuck OutOfBounds.
Proof. intros Hne. unfold chop_finality. destruct p; [done|]. cbn [length]. repeat case_match; congruence. Qed.

Section Mount.

Context {W : Type} {K : Kernel W} {E : Extensions W} {L : KernelLaws W K}.
Context {V : PathEvents W} {N : PathPolicy W} {TE : TransparentEvents W V}.
Context (f : FileSystemNameSpace) (next : nat) (root : list cstr) (rb : Binding) (l k : list Binding) (v : ProcView).
Hypothesis Hb : bound_ok f next.
Hypothesis Hr : root_is f root rb.
Hypothesis Hl : bindings_guest f = Some l.
Hypothesis Hk : bindings_host f = Some k.
Hypothesis Hv : view_ok v.
Hypothesis Hcwd : guest_ok (cwd f).

Abbreviation ok m Q := (holds (@stable W f v) (fun w => w <> OutOfBounds) m Q).

Lemma f_rooted : rooted f root.
Proof. eapply root_rooted; [|done]. by destruct Hb as [[]]. Qed.

(** The host sides a mount can have: for MS_BIND the host path that the source is
    translated to, or the file-system of the kernel of this type, or a fresh
    directory. *)
Definition mount_host (src fstype : cstr) (flags : Z) (h : cstr) : Prop :=
  if has_flag flags MS_BIND then translated f l v AT_FDCWD src true h
  else (fstype, h) ∈ [(bs "proc", bs "/proc"); (bs "sysfs", bs "/sys"); (bs "devtmpfs", bs "/dev"); (bs "devpts", bs "/dev/pts")]
    \/ fstype = bs "tmpfs" /\ exists w d, snd (create_temp_directory w) = Some d /\ h = take (Z.to_nat (PATH_MAX - 1)) d.

Lemma guest_canonicalize_ok u : spellable u -> ok (guest_canonicalize u) (fun _ => True).
Proof.
  intros Hu. unfold guest_canonicalize. eapply (holds_bind _ _ _ _ guest_ok).
  - case_bool; [apply holds_ret; exists []; split; [done|]; split; by vm_compute|].
    unfold getcwd2. eapply holds_bind; [apply get_fs_ok|]. intros ? ->. case_bool; [apply holds_fail|]. by apply holds_ret.
  - intros g Hg. eapply holds_bind.
    { eapply (canonicalize_ok f root l k v f_rooted); try done; [by destruct Hb|by destruct Hb]. }
    intros p (cs & fin & Hcs & -> & Hlen). apply holds_lift. destruct (chop_finality _) eqn:Ec; [done..|].
    intros ->. eapply chop_finality_bounds; [|exact Ec]. pose proof (length_render_pos cs) as Hp. apply Nat.eqb_neq in Hp.
    destruct fin; cbn [with_finality]; intros E0; first [by rewrite E0 in Hp | by apply app_eq_nil in E0 as [_ ?]].
Qed.

Lemma mount_source_ok regs s src fstype flags : get_sysnum regs CURRENT = Ok s -> nul_free src ->
  ok (mount_source regs src fstype flags) (fun o => forall h, o = Some h -> mount_host src fstype flags h).
Proof.
  intros Hs Hn. unfold mount_source, mount_host. destruct (has_flag flags MS_BIND).
  - eapply (holds_bind _ _ _ _ (fun r => forall h, r = inl h -> translated f l v AT_FDCWD src true h)).
    + apply holds_attempt; [|done]. eapply holds_weaken.
      * eapply (translate_path_ok f root l k v f_rooted); try done; [by destruct Hb|by destruct Hb|].
        destruct (bo_cwd _ _ Hb). by split.
      * by intros p Hp h [= ->].
    + intros r Hr'. apply holds_ret. intros h Eh. destruct r; [|done]. injection Eh as ->. by apply Hr'.
  - repeat (case_bool; [apply holds_ret; intros h [= <-]; bool_facts; subst; left; rewrite !elem_of_cons; tauto|]).
    case_bool; [bool_facts|by apply holds_ret]. eapply (holds_bind _ _ _ _ (fun d => exists w, snd (create_temp_directory w) = d)).
    + apply events_ok. intros w w' d Hd. exists w. destruct (create_temp_directory w). by injection Hd.
    + intros d [w Hw]. apply holds_ret. intros h Eh. right. split; [done|]. destruct d; [|done]. injection Eh as <-. by exists w, l0.
Qed.

End Mount.

Lemma bound_later f n m : bound_ok f n -> (n <= m)%nat -> bound_ok f m.
Proof.
  intros [] Hnm. split; try done. intros s l Hl. eapply Forall_impl; [by eapply bo_fresh0|]. cbn. intros b Hb. lia.
Qed.

(** A mount changes what is below its target and nothing else. *)
Lemma mounted_lookup f next l root rb hs gs mode : bound_ok f next -> bindings_guest f = Some l -> root_is f root rb ->
  fits hs -> fits gs -> exists f', insort_binding3_with_mode f next (render hs) (render gs) mode = Ok (mounted next hs gs mode, f')
  /\ bound_ok f' (S next) /\ (exists root b, root_is f' root b)
  /\ (forall ps, Forall name_ok ps -> gs `prefix_of` ps ->
       (forall x, x ∈ l -> key GUEST x `prefix_of` ps -> key GUEST x `prefix_of` gs) ->
       get_binding f' GUEST (render ps) = Ok (Some (mounted next hs gs mode)))
  /\ (forall ps, Forall name_ok ps -> ~ gs `prefix_of` ps ->
       get_binding f' GUEST (render ps) = get_binding f GUEST (render ps)).
Proof.
  intros Hb Hl Hr Hh Hg. destruct (insort_mode_ok f next hs gs mode l Hb Hl Hh Hg) as (f' & l' & Ei & Hb' & Hl' & Hins).
  exists f'. split; [done|]. split; [done|]. set (b := mounted next hs gs mode) in *.
  assert (Hkey : key GUEST b = gs) by (apply (mounted_key next hs gs mode GUEST); [apply Hh|apply Hg]).
  assert (Hok : fs_ok f) by (by destruct Hb as [[]]). assert (Hok' : fs_ok f') by (by destruct Hb' as [[]]).
  assert (Hold : forall x, x ∈ l -> key GUEST x <> gs -> x ∈ l').
  { intros x Hx Hne. apply Hins. right. split; [done|]. right. by rewrite Hkey. }
  split; [|split].
  - destruct (decide (gs = [])) as [->|Hne].
    + exists hs, b. exists l'. split; [done|]. split; [apply Hins; by left|]. split; [done|]. split; [done|apply Hh].
    + exists root, rb. destruct Hr as (l0 & Hl0 & Hin & Hpg & Hrest). exists l'. split; [done|]. split; [|done].
      simplify_eq. apply Hold; [done|]. unfold key. cbn. rewrite Hpg. by intros <-.
  - intros ps Hps Hpre Hdeep. apply (get_binding_the f' l'); [done..|]. split; [apply Hins; by left|].
    rewrite Hkey. split; [done|]. intros x Hx Hxp. apply Hins in Hx as [->|[Hx _]]; [by rewrite Hkey|by apply Hdeep].
  - intros ps Hps Hpre. destruct (get_binding_guest f l ps Hok Hl Hps) as [(x & Ex & Hx & Hxp & Hxd)|[_ Hn]].
    + rewrite Ex. apply (get_binding_the f' l'); [done..|].
      split; [apply Hold; [done|]; by intros <-|]. split; [done|]. intros y Hy Hyp.
      apply Hins in Hy as [->|[Hy _]]; [by rewrite Hkey in Hyp|by apply Hxd].
    + exfalso. destruct Hr as (l0 & Hl0 & Hin & Hpg & _). simplify_eq. apply (Hn rb Hin). unfold key. cbn. rewrite Hpg. apply prefix_nil.
Qed.


Lemma guest_canonicalize_steady {W} {K : Kernel W} {E : Extensions W} u : steady (guest_canonicalize u).
Proof. unfold guest_canonicalize, getcwd2. steady. Qed.

(** pivot_root(2) keeps the name-space of a tracee well formed.  It is left as
    it is when one of the two directories cannot be had.  Otherwise, when the host
    and guest paths of the new root and the path of put_old are canonical and fit
    (a final "/" or "/." of put_old is kept, and spoils the name-space, see
    [pivot_root_keeps_finality]), the "/" of the tracee becomes the host path of the
    new root, confined to the former bindings; no deeper binding is hidden, every path still fits, and
    the bindings it rebases or exposes below put_old are well formed too. *)
Theorem pivot_root_preserves {W} (K : Kernel W) (E : Extensions W) (L : KernelLaws W K) (V : PathEvents W) (N : PathPolicy W)
    (TE : TransparentEvents W V) (t : Tracee W) l regs s new_root put_old :
  mounts_ok t -> bindings_guest (fs t) = Some l -> guest_ok (cwd (fs t)) -> get_sysnum regs CURRENT = Ok s -> nul_free new_root ->
  let t' := fst (emulate_pivot_root regs new_root put_old t) in
  match translate_path regs AT_FDCWD new_root true t with
  | (t1, Ok h0) =>
      match guest_canonicalize new_root t1 with
      | (t2, Ok g) =>
          match canonicalize 5 put_old true (if absolute put_old then bs "/" else g) 0 t2 with
          | (t3, Ok p) =>
              translated (fs t) l (view t) AT_FDCWD new_root true h0
              /\ forall hs gs ps, chop_finality h0 = Ok (render hs) -> g = render gs -> p = render ps -> fits hs -> Forall name_ok gs -> fits ps ->
                   mounts_ok t' /\ rooted (fs t') hs
          | _ => fs t' = fs t
          end
      | _ => fs t' = fs t
      end
  | _ => fs t' = fs t
  end.
Proof.
  intros [Hb (root & rb & Hr) Hv Hg] Hl Hcwd Hs Hn t'. destruct (bo_host _ _ Hb) as [k Hk].
  assert (Hst : stable (fs t) (view t) t) by done. assert (Hcwd' : nul_free (cwd (fs t)) /\ cwd (fs t) <> []) by (by destruct (bo_cwd _ _ Hb)).
  assert (Htr := translate_path_ok (fs t) root l k (view t) ltac:(eapply root_rooted; [by destruct Hb as [[]]|done]) ltac:(by destruct Hb) ltac:(by destruct Hb) Hl Hk Hv Hcwd' regs s AT_FDCWD new_root true Hs Hn t Hst).
  subst t'. destruct (emulate_pivot_root _ _ _ t) as [t' r] eqn:Eo. cbn [fst]. unfold emulate_pivot_root, or_return, bind at 1, attempt at 1 in Eo.
  pose proof (translate_path_grows regs AT_FDCWD new_root true t) as N1.
  destruct (translate_path regs AT_FDCWD new_root true t) as [t1 [h0|e|w]]; cbn [fst snd] in *; destruct Htr as [St1 Hh0]; [|injection Eo as <- _; by destruct St1..].
  pose proof (guest_canonicalize_steady new_root (fs t) (view t) t1 St1) as [St2 _]. pose proof (guest_canonicalize_grows new_root t1) as N2.
  destruct (guest_canonicalize new_root t1) as [t2 point] eqn:Eg. cbn [fst snd] in *.
  unfold bind at 1, lift at 1 in Eo.
  assert (Hfail : (forall h, chop_finality h0 <> Ok h) -> fs t' = fs t).
  { intros Hf. destruct (chop_finality h0) as [h| |]; [by destruct (Hf h)|injection Eo as <- _; by destruct St1..]. }
  destruct point as [g|e|w].
  2,3: destruct (chop_finality h0); [|by apply Hfail..]; unfold bind at 1, attempt at 1 in Eo; rewrite Eg in Eo; injection Eo as <- _; by destruct St2.
  pose proof (canonicalize_steady 5 put_old true (if absolute put_old then bs "/" else g) 0 (fs t) (view t) t2 St2) as [St3 _].
  pose proof (canonicalize_grows 5 put_old true (if absolute put_old then bs "/" else g) 0 t2) as N3.
  destruct (canonicalize 5 put_old true _ 0 t2) as [t3 p] eqn:Ec. cbn [fst snd] in *.
  destruct p as [p|e|w].
  2,3: destruct (chop_finality h0); [|by apply Hfail..]; unfold bind at 1, attempt at 1 in Eo; rewrite Eg in Eo; unfold bind at 1, attempt at 1 in Eo; rewrite Ec in Eo; injection Eo as <- _; by destruct St3.
  split; [done|]. intros hs gs ps Eh -> -> Hh Hgs Hps. rewrite Eh in Eo. unfold bind at 1, attempt at 1 in Eo. rewrite Eg in Eo. unfold bind at 1, attempt at 1 in Eo. rewrite Ec in Eo.
  destruct (pivot_to_preserves t3 hs gs ps) as (t4 & E4 & Hm & Hr'); [|done..|rewrite E4 in Eo; by injection Eo as <- _].
  destruct St3 as (F & G & I). split; [|exists root, rb; by rewrite F|by rewrite G|done]. rewrite F. eapply bound_later; [done|lia].
Qed.

(** ** umount(2) after mount(2) *)

Lemma remove_addr_fresh b l : b_addr b ∉ b_addr <$> l -> remove_addr b l = l.
Proof. intros H. unfold remove_addr. apply list_filter_id. intros x Hx E. apply H. rewrite <- E. by apply in_addr. Qed.

Lemma remove_addr_cons b l : remove_addr b (b :: l) = remove_addr b l.
Proof. unfold remove_addr. by rewrite filter_cons_False by (intros H; by apply H). Qed.

Lemma remove_insert_after p b l : p ∈ l -> b_addr b ∉ b_addr <$> l -> remove_addr b (insert_after p b l) = l.
Proof.
  induction l as [|x l IH]; intros Hp Hb; [by apply elem_of_nil in Hp|].
  rewrite fmap_cons, not_elem_of_cons in Hb. destruct Hb as [Hx Hb]. cbn [insert_after]. unfold remove_addr in *.
  case_decide as Hd; rewrite filter_cons_True by congruence; f_equal.
  - rewrite filter_cons_False by (intros H; by apply H). by apply remove_addr_fresh.
  - apply IH; [|done]. apply elem_of_cons in Hp as [->|]; [done|done].
Qed.

Lemma remove_insert_before n b l : n ∈ l -> b_addr b ∉ b_addr <$> l -> remove_addr b (insert_before n b l) = l.
Proof.
  induction l as [|x l IH]; intros Hp Hb; [by apply elem_of_nil in Hp|].
  pose proof Hb as Hb'. rewrite fmap_cons, not_elem_of_cons in Hb. destruct Hb as [Hx Hb]. cbn [insert_before].
  case_decide as Hd; [by rewrite remove_addr_cons, remove_addr_fresh|].
  unfold remove_addr in *. rewrite filter_cons_True by congruence. f_equal.
  apply IH; [|done]. apply elem_of_cons in Hp as [->|]; [done|done].
Qed.

Lemma insort_loop_next side b l p n p' n' : insort_loop side b l p n = Ok (Position p' n') ->
  (forall x, n' = Some x -> n = Some x \/ x ∈ l).
Proof.
  revert p n. induction l as [|it l IH]; intros p n; cbn [insort_loop]; [intros [= _ <-]; by left|].
  destruct (compare_paths2 _ _ _ _) as [c| |]; [|done..]. cbn [res_bind].
  assert (Hrec : forall p0 n0, insort_loop side b l p0 n0 = Ok (Position p' n') -> (n0 = n \/ n0 = Some it) ->
    forall x, n' = Some x -> n = Some x \/ x ∈ it :: l).
  { intros p0 n0 H Hn x Hx. destruct (IH _ _ H x Hx) as [E|E]; [|right; set_solver].
    destruct Hn as [<-|Hn]; [by left|]. right. rewrite Hn in E. injection E as <-. set_solver. }
  destruct c; [destruct side| | |]; try done; intros H; eapply Hrec; try exact H; try (by left).
  destruct n; [by left|by right].
Qed.

(** An insertion that replaces nothing is undone by the removal. *)
Lemma insort_binding_undone f side b l : HEAD f side = Some l -> side_ok side l -> wf_path (side_path side b) ->
  b_addr b ∉ b_addr <$> l -> (side <> HOST -> forall x, x ∈ l -> key side x <> key side b) ->
  exists l', insort_binding f side b = Ok (set_HEAD f side l') /\ remove_addr b l' = l.
Proof.
  intros Hl [Hw _ _] Hb Hfresh Hkey. unfold insort_binding, list_of. rewrite Hl. cbn [res_bind].
  destruct (insort_loop_ok side b l None (head l) Hw Hb) as [(p & n & E & Hpost)|(it & E & Hit & Hs & Hk)].
  2: by destruct (Hkey Hs it Hit).
  pose proof (insort_loop_next _ _ _ _ _ _ _ E) as Hn. rewrite E. cbn [res_bind].
  destruct Hpost as [_ Hp _]. destruct p as [p|].
  - exists (insert_after p b l). split; [done|]. apply remove_insert_after; [|done].
    destruct Hp as [[? _]|(l1 & x & l2 & Ex & -> & _)]; [done|]. injection Ex as ->. set_solver.
  - destruct n as [n|].
    + exists (insert_before n b l). split; [done|]. apply remove_insert_before; [|done].
      destruct (Hn n eq_refl) as [Hh|]; [|done]. destruct l; [done|]. injection Hh as ->. set_solver.
    + exists (b :: l). split; [done|]. by rewrite remove_addr_cons, remove_addr_fresh.
Qed.

Lemma insort_mode_undone f next hs gs mode l : bound_ok f next -> bindings_guest f = Some l -> fits hs -> fits gs ->
  (forall x, x ∈ l -> key GUEST x <> gs) ->
  exists f', insort_binding3_with_mode f next (render hs) (render gs) mode = Ok (mounted next hs gs mode, f')
    /\ remove_binding_from_all_lists f' (mounted next hs gs mode) = f.
Proof.
  intros Hb Hl [Hh Lh] [Hg Lg] Hnew. destruct (bo_host _ _ Hb) as [k Hk].
  set (b := mounted next hs gs mode). assert (Wh : wf_path (host b)) by by apply wf_new_path. assert (Wg : wf_path (guest b)) by by apply wf_new_path.
  assert (Hok : fs_ok f) by by destruct Hb as [[]].
  assert (Ec : compare_paths (render hs) (render gs) = Ok (compare_components hs gs)) by (by apply compare_render; auto with proot).
  unfold insort_binding3_with_mode, insort_binding2. cbn [host guest path new_path]. rewrite Ec. cbn [res_bind].
  assert (Hn : bool_decide (compare_components hs gs <> PATHS_ARE_EQUAL) = bool_decide (hs <> gs)).
  { apply bool_decide_ext. by rewrite compare_components_equal. }
  cbn [b_addr must_exist access_mode b_type]. rewrite Hn. fold (mounted next hs gs mode). fold b.
  destruct (insort_binding_undone f GUEST b l) as (l' & -> & El'); [done|by apply Hok|done|by eapply (fresh_addr f next GUEST)| |].
  { intros _ x Hx. replace (key GUEST b) with gs by (symmetry; by apply (mounted_key next hs gs mode GUEST)). by apply Hnew. }
  cbn [res_bind]. destruct (insort_binding_undone (set_HEAD f GUEST l') HOST b k) as (k' & -> & Ek'); [done|by apply Hok|done|by eapply (fresh_addr f next HOST)|done|].
  cbn [res_bind]. eexists. split; [done|]. unfold remove_binding_from_all_lists. cbn. rewrite El', Ek'.
  destruct f as [pend lg lh c]. cbn in *. subst lg lh. f_equal. destruct pend as [p|]; [|done]. cbn. f_equal.
  apply remove_addr_fresh. by eapply (fresh_addr _ next PENDING).
Qed.

(** umount(2) undoes mount(2): once a directory on which nothing was mounted
    is unmounted again, the bindings of the tracee are exactly those it had before
    the mount. *)
Theorem umount_undoes_mount {W} (K : Kernel W) (E : Extensions W) (t t2 : Tracee W) l hs gs mode target :
  mounts_ok t -> bindings_guest (fs t) = Some l -> fits hs -> fits gs -> gs <> [] ->
  (forall x, x ∈ l -> key GUEST x <> gs) ->
  let t1 := fst (insort_with_mode_m (render hs) (render gs) mode t) in
  guest_canonicalize target t1 = (t2, Ok (render gs)) -> fs t2 = fs t1 ->
  fs (fst (emulate_umount target t1)) = fs t.
Proof.
  intros [Hb (root & rb & Hr) Hv Hg] Hl Hh Hgs Hne Hnew t1 Ht Ef.
  destruct (insort_mode_undone (fs t) (next_addr t) hs gs mode l Hb Hl Hh Hgs Hnew) as (f' & Ei & Hrem).
  destruct (mounted_lookup (fs t) (next_addr t) l root rb hs gs mode Hb Hl Hr Hh Hgs) as (f0 & Ei0 & _ & _ & Hin & _).
  rewrite Ei in Ei0. injection Ei0 as <-.
  assert (E1 : fs t1 = f') by (unfold t1, insort_with_mode_m; by rewrite Ei).
  unfold emulate_umount, or_return, attempt, bind at 1. rewrite Ht.
  assert (Hroot : str_eqb (render gs) (bs "/") = false).
  { apply str_eqb_neq. intros Er. assert (Hlen : (length (render gs) =? 1)%nat = true) by by rewrite Er.
    rewrite render_length_one in Hlen by (destruct Hgs; auto with proot). by apply bool_decide_eq_true in Hlen. }
  rewrite Hroot. unfold bind, get, lift. rewrite Ef, E1.
  rewrite (Hin gs); [|by destruct Hgs|done|by intros x _ Hx]. cbn [guest mounted path new_path]. rewrite str_eqb_refl.
  unfold remove_binding_m. cbn [fst fs]. by rewrite Ef, E1, Hrem.
Qed.

(** ** Concrete mounts *)

#[local] Existing Instance quiet_events.
#[local] Existing Instance static_policy.
#[local] Existing Instance quiet_extensions.
#[local] Instance plain_kernel : Kernel unit := demo_kernel [].

(** mount(2) on AArch64. *)
Definition mount_regs : Regs := poke_reg (demo_regs false) SYSARG_NUM 40.
Definition after (m : M unit unit) : Tracee unit := fst (m demo_tracee).
Definition open_for_write (t : Tracee unit) (p : string) : res cstr := snd (translate_path write_regs AT_FDCWD (bs p) true t).
Definition guest_bindings (t : Tracee unit) : list (cstr * cstr) :=
  match bindings_guest (fs t) with Some l => map (fun b => (path (guest b), path (host b))) l | None => [] end.

Lemma demo_mounts_ok : mounts_ok demo_tracee.
Proof.
  split; [split|..].
  - by apply fs_wfb_sound; vm_compute.
  - intros [] l; simpl; intros [= <-]; repeat constructor; by vm_compute.
  - intros [] l; simpl; intros [= <-]; repeat constructor; cbn; lia.
  - by eexists.
  - by eexists.
  - split; [by repeat constructor|done].
  - exists (names ["data"; "root"]%string), demo_root, [demo_tmp; demo_sd; demo_root].
    split; [done|]. split; [set_solver|]. split; [done|]. split; [done|]. decide_witness.
  - by destruct demo_tracee_ok as (_ & _ & _ & _ & Hv & _).
  - done.
Qed.

Lemma demo_fits l : forallb (fun c => bool_decide (name_ok c)) l && (zlen (render l) <? PATH_MAX) = true -> fits l.
Proof.
  intros [H1 H2]%andb_true_iff. split; [|by apply Z.ltb_lt]. apply Forall_forall. intros c Hc.
  rewrite forallb_forall in H1. apply list_elem_of_In in Hc. specialize (H1 c Hc). by apply bool_decide_eq_true in H1.
Qed.


Lemma umount_undoes_mount_witness :
  let t1 := after (insort_with_mode_m (bs "/opt") (bs "/w") BINDING_ACCESS_RW) in
  guest_bindings t1 <> guest_bindings demo_tracee /\ fs (fst (emulate_umount (bs "/w/") t1)) = fs demo_tracee.
Proof.
  intros t1. split; [by vm_compute|].
  apply (umount_undoes_mount plain_kernel quiet_extensions demo_tracee t1 [demo_tmp; demo_sd; demo_root]
    (names ["opt"]%string) (names ["w"]%string) BINDING_ACCESS_RW (bs "/w/")).
  - apply demo_mounts_ok.
  - done.
  - apply demo_fits. by vm_compute.
  - apply demo_fits. by vm_compute.
  - done.
  - intros x Hx. rewrite !elem_of_cons in Hx. destruct Hx as [-> | [-> | [-> | Hx]]]; [by vm_compute..|by apply elem_of_nil in Hx].
  - by vm_compute.
  - done.
Defined.

Lemma pivot_root_preserves_witness :
  let t := after (emulate_pivot_root mount_regs (bs "/newroot") (bs "old")) in
  mounts_ok t /\ rooted (fs t) (names ["data"; "root"; "newroot"]%string).
Proof.
  intros t. pose proof (pivot_root_preserves plain_kernel quiet_extensions (demo_laws [] ltac:(done)) quiet_events static_policy quiet_transparent demo_tracee
    [demo_tmp; demo_sd; demo_root] mount_regs PR_mount (bs "/newroot") (bs "old") demo_mounts_ok eq_refl) as H.
  assert (Es : translate_path mount_regs AT_FDCWD (bs "/newroot") true demo_tracee = (demo_tracee, Ok (bs "/data/root/newroot"))) by by vm_compute.
  assert (Eg : guest_canonicalize (bs "/newroot") demo_tracee = (demo_tracee, Ok (bs "/newroot"))) by by vm_compute.
  assert (Ep : canonicalize 5 (bs "old") true (bs "/newroot") 0 demo_tracee = (demo_tracee, Ok (bs "/newroot/old"))) by by vm_compute.
  cbv zeta in H. rewrite Es, Eg in H. change (absolute (bs "old")) with false in H. cbv iota in H. rewrite Ep in H. destruct H as [_ H].
  - exists []. split; [done|]. split; by vm_compute.
  - by vm_compute.
  - by repeat constructor.
  - apply (H (names ["data"; "root"; "newroot"]%string) (names ["newroot"]%string) (names ["newroot"; "old"]%string)); [by vm_compute|done|done|..].
    + apply demo_fits. by vm_compute.
    + apply (demo_fits (names ["newroot"]%string)). by vm_compute.
    + apply demo_fits. by vm_compute.
Defined.

(** ** Behaviours to know *)

(** A tracee writes to the files of a read-only binding once it has mounted their
    directory elsewhere: the new binding is read-write. *)
Lemma bind_mount_escapes_ro :
  access_mode demo_sd = BINDING_ACCESS_RO
  /\ open_for_write demo_tracee "/mnt/sd/x" = Err EROFS
  /\ open_for_write (after (emulate_mount mount_regs (bs "/mnt/sd") (bs "/w") [] MS_BIND)) "/w/x" = Ok (bs "/sdcard/x").
Proof. split_and!; by vm_compute. Qed.

(** umount(2) removes the bindings put in place at start-up, which its comment says
    it does not. *)
Lemma umount_removes_startup_binding :
  guest_bindings demo_tracee = [(bs "/mnt/sd/tmp", bs "/tmp"); (bs "/mnt/sd", bs "/sdcard"); (bs "/", bs "/data/root")]
  /\ guest_bindings (after (emulate_umount (bs "/mnt/sd"))) = [(bs "/mnt/sd/tmp", bs "/tmp"); (bs "/", bs "/data/root")].
Proof. split; by vm_compute. Qed.

(** What was mounted read-only below the new root is read-write once pivot_root(2)
    has moved it, and so is what it exposes below put_old. *)
Lemma pivot_root_forgets_mode :
  let ro := emulate_mount mount_regs (bs "/usr") (bs "/newroot/usr") [] (MS_BIND + MS_RDONLY) in
  let t := after (do! _ := ro in emulate_pivot_root mount_regs (bs "/newroot") (bs "/newroot/old")) in
  open_for_write (after ro) "/newroot/usr/x" = Err EROFS
  /\ open_for_write t "/usr/x" = Ok (bs "/data/root/usr/x")
  /\ open_for_write t "/mnt/sd/x" = Err EROFS /\ open_for_write t "/old/mnt/sd/x" = Ok (bs "/sdcard/x").
Proof. split_and!; by vm_compute. Qed.

(** put_old keeps its final "/." or "/".  With "pivot_root(".", ".")", for which
    the comment says that there is nowhere to expose the previous root, the
    previous root is bound to "/."; with a final "/" the length of the binding is
    greater than the one of the path it is found for, and substitute_path_prefix()
    moves a negative number of bytes. *)
Lemma pivot_root_keeps_finality :
  (bs "/.", bs "/data/root") ∈ guest_bindings (after (emulate_pivot_root mount_regs (bs "/newroot") (bs ".")))
  /\ (bs "/old/", bs "/data/root") ∈ guest_bindings (after (emulate_pivot_root mount_regs (bs "/newroot") (bs "old/")))
  /\ open_for_write (after (emulate_pivot_root mount_regs (bs "/newroot") (bs "old/"))) "/old/x" = Stuck OutOfBounds.
Proof. split_and!; [apply list_elem_of_In; vm_compute; tauto..|by vm_compute]. Qed.
