(* ===== verification/Netlink.v ===== *)
(** * Emulated netlink sockets (src/syscall/enter.c)

    Where the host refuses AF_NETLINK, a tracee gets an AF_UNIX socket, and PRoot
    answers what it sends on it: the only link is a loopback.  A reply is built
    when the request is sent, and handed back one datagram at a time. *)

From S2P Require Import Prelude Mem Memory Paths Binding ProcLinks Canon Sysnum Regs SysArgs.

(** ** Data *)

Definition AF_UNSPEC := 0.
Definition AF_UNIX := 1.
Definition AF_INET := 2.
Definition AF_INET6 := 10.
Definition AF_NETLINK := 16.
Definition NETLINK_ROUTE := 0.
Definition SOCK_DGRAM := 2.
Definition SOCK_CLOEXEC := 0x80000.
Definition MSG_PEEK := 2.
Definition MSG_TRUNC := 32.
Definition ENODEV := 19.
Definition MAX_FAKE_NETLINK_FDS := 8.
Definition MAX_FAKE_NETLINK_REPLY := 8192.
Definition IFNAMSIZ := 16.

Definition NLMSG_HDRLEN := 16.
Definition NLMSG_ALIGN (len : Z) : Z := Z.land (len + 3) (Z.lnot 3).
Definition RTA_ALIGN := NLMSG_ALIGN.
Definition RTA_LENGTH (len : Z) : Z := 4 + len.
Definition RTA_SPACE (len : Z) : Z := RTA_ALIGN (RTA_LENGTH len).

Definition NLMSG_ERROR := 2.
Definition NLMSG_DONE := 3.
Definition RTM_NEWLINK := 16.
Definition RTM_GETLINK := 18.
Definition RTM_NEWADDR := 20.
Definition RTM_GETADDR := 22.
Definition RTM_GETROUTE := 26.
Definition NLM_F_MULTI := 2.
Definition NLM_F_DUMP := 0x300.
Definition IFLA_ADDRESS := 1.
Definition IFLA_BROADCAST := 2.
Definition IFLA_IFNAME := 3.
Definition IFLA_MTU := 4.
Definition IFLA_TXQLEN := 13.
Definition IFLA_OPERSTATE := 16.
Definition IFA_ADDRESS := 1.
Definition IFA_LOCAL := 2.
Definition IFA_LABEL := 3.
Definition IFA_F_PERMANENT := 0x80.
Definition ARPHRD_LOOPBACK := 772.
Definition IFF_UP := 1.
Definition IFF_LOOPBACK := 8.
Definition IFF_RUNNING := 0x40.
Definition IFF_LOWER_UP := 0x10000.
Definition RT_SCOPE_HOST := 254.

(** ** Building messages

    The buffer of the reply is the list of the bytes that are in it: an offset is
    its length. *)

Definition pad (n : Z) : list Z := replicate (Z.to_nat n) 0.

Definition nlmsghdr (len type flags seq pid : Z) : list Z :=
  to_le 4 len ++ to_le 2 type ++ to_le 2 flags ++ to_le 4 seq ++ to_le 4 pid.

(** The header of the message that starts at [start]; the message is aligned. *)
Definition finish (start type flags seq pid : Z) (buf : list Z) : list Z :=
  let len := zlen buf - start in
  let s := Z.to_nat start in
  take s buf ++ nlmsghdr len type flags seq pid ++ drop (s + Z.to_nat NLMSG_HDRLEN) buf ++ pad (NLMSG_ALIGN len - len).

Definition nl_add_attr (max type : Z) (data buf : list Z) : list Z :=
  let dlen := zlen data in
  let space := RTA_SPACE dlen in
  if max <? zlen buf + space then buf
  else buf ++ to_le 2 (RTA_LENGTH dlen) ++ to_le 2 type ++ data ++ pad (space - RTA_LENGTH dlen).

Definition nl_build_link (max seq pid nlflags ifindex iftype ifflags mtu : Z) (name : cstr) (hwaddr buf : list Z) : list Z :=
  let start := zlen buf in
  if max <? start + NLMSG_HDRLEN + NLMSG_ALIGN 16 then buf
  else
    let flags := Z.lor ifflags (if Z.land ifflags IFF_RUNNING =? 0 then 0 else IFF_LOWER_UP) in
    let ifi := [AF_UNSPEC; 0] ++ to_le 2 iftype ++ to_le 4 ifindex ++ to_le 4 flags ++ to_le 4 0 in
    let operstate := if Z.land ifflags IFF_UP =? 0 then 2 else 6 in
    let buf := buf ++ pad NLMSG_HDRLEN ++ ifi in
    let buf := nl_add_attr max IFLA_IFNAME (name ++ [0]) buf in
    let buf := nl_add_attr max IFLA_MTU (to_le 4 mtu) buf in
    let buf := nl_add_attr max IFLA_TXQLEN (to_le 4 1000) buf in
    let buf := nl_add_attr max IFLA_OPERSTATE [operstate] buf in
    let brd := replicate (length hwaddr) (if iftype =? ARPHRD_LOOPBACK then 0 else 255) in
    let buf := if 0 <? zlen hwaddr
               then nl_add_attr max IFLA_BROADCAST brd (nl_add_attr max IFLA_ADDRESS hwaddr buf) else buf in
    finish start RTM_NEWLINK nlflags seq pid buf.

Definition nl_build_addr (max seq pid nlflags family ifindex : Z) (addr : list Z) (prefixlen scope : Z)
    (label : option cstr) (buf : list Z) : list Z :=
  let start := zlen buf in
  if max <? start + NLMSG_HDRLEN + NLMSG_ALIGN 8 then buf
  else
    let ifa := [family; prefixlen; IFA_F_PERMANENT; scope] ++ to_le 4 ifindex in
    let buf := buf ++ pad NLMSG_HDRLEN ++ ifa in
    let buf := nl_add_attr max IFA_ADDRESS addr buf in
    let buf := nl_add_attr max IFA_LOCAL addr buf in
    let buf := match label with
               | Some label => if family =? AF_INET then nl_add_attr max IFA_LABEL (label ++ [0]) buf else buf
               | None => buf
               end in
    finish start RTM_NEWADDR nlflags seq pid buf.

Definition nl_build_done (max seq pid : Z) (buf : list Z) : list Z :=
  if max <? zlen buf + NLMSG_ALIGN (NLMSG_HDRLEN + 4) then buf
  else finish (zlen buf) NLMSG_DONE NLM_F_MULTI seq pid (buf ++ pad NLMSG_HDRLEN ++ to_le 4 0).

Definition nl_build_error (max seq pid error : Z) (buf : list Z) : list Z :=
  if max <? zlen buf + NLMSG_ALIGN (NLMSG_HDRLEN + 20) then buf
  else finish (zlen buf) NLMSG_ERROR 0 seq pid (buf ++ pad NLMSG_HDRLEN ++ to_le 4 error ++ pad 16).

Definition nl_build_loopback_link (max seq pid nlflags : Z) (buf : list Z) : list Z :=
  nl_build_link max seq pid nlflags 1 ARPHRD_LOOPBACK (Z.lor (Z.lor IFF_UP IFF_LOOPBACK) IFF_RUNNING) 65536 (bs "lo") (pad 6) buf.

Definition nl_build_loopback_addr (max seq pid family nlflags : Z) (buf : list Z) : list Z :=
  if family =? AF_INET6 then nl_build_addr max seq pid nlflags AF_INET6 1 (pad 15 ++ [1]) 128 RT_SCOPE_HOST None buf
  else nl_build_addr max seq pid nlflags AF_INET 1 [127; 0; 0; 1] 8 RT_SCOPE_HOST (Some (bs "lo")) buf.

(** ** Reading requests *)

(** [n] bytes of a request, which must be in what was read of it. *)
Definition field (req : list Z) (off n : Z) : res Z :=
  if (off <? 0) || (zlen req <? off + n) then Stuck OutOfBounds
  else Ok (of_le (slice (Z.to_nat off) (Z.to_nat n) req)).
Definition bytes (req : list Z) (off n : Z) : res (list Z) :=
  if (off <? 0) || (n <? 0) || (zlen req <? off + n) then Stuck OutOfBounds
  else Ok (slice (Z.to_nat off) (Z.to_nat n) req).

(** The attributes: the last IFLA_IFNAME, in a buffer of IFNAMSIZ bytes. *)
Fixpoint link_name_loop (fuel : nat) (req : list Z) (off : Z) (name : option cstr) : res (option cstr) :=
  match fuel with
  | O => Stuck NoFuel
  | S fuel =>
      let req_len := zlen req in
      if negb (off + 4 <=? req_len) then Ok name
      else
        let! rlen := field req off 2 in
        let! rta_type := field req (off + 2) 2 in
        if (rlen <? 4) || (req_len <? off + rlen) then Ok name
        else
          let! name :=
            (if rta_type =? IFLA_IFNAME then
               let dlen := rlen - RTA_LENGTH 0 in
               let cpy := if dlen <? IFNAMSIZ then dlen else IFNAMSIZ - 1 in
               let! name := bytes req (off + RTA_LENGTH 0) cpy in
               Ok (Some (until_nul (Z.to_nat cpy) name))
             else Ok name) in
          link_name_loop fuel req (off + RTA_ALIGN rlen) name
  end.

Definition link_fuel (req : list Z) : nat := S (length req).

Definition nl_request_is_loopback (req : list Z) : res bool :=
  if zlen req <? NLMSG_HDRLEN + 16 then Ok true
  else
    let! ifindex := field req (NLMSG_HDRLEN + 4) 4 in
    let! name := link_name_loop (link_fuel req) req (NLMSG_HDRLEN + NLMSG_ALIGN 16) None in
    match name with
    | Some name => Ok (str_eqb name (bs "lo"))
    | None => Ok ((sgn 32 ifindex =? 0) || (sgn 32 ifindex =? 1))
    end.

Definition nl_request_link_target (req : list Z) : res (Z * cstr) :=
  if zlen req <? NLMSG_HDRLEN + 16 then Ok (0, [])
  else
    let! ifindex := field req (NLMSG_HDRLEN + 4) 4 in
    let! name := link_name_loop (link_fuel req) req (NLMSG_HDRLEN + NLMSG_ALIGN 16) None in
    Ok (sgn 32 ifindex, default [] name).

(** ** Replies *)

(** build_host_links(): the messages and their number; the name is empty for
    NULL. *)
Definition build_host_links (max seq pid : Z) (want_name : cstr) (want_index : Z) (dump : bool) : list Z * Z :=
  if negb dump && (if negb (str_eqb want_name []) then negb (str_eqb want_name (bs "lo"))
                   else (0 <? want_index) && negb (want_index =? 1))
  then ([], 0)
  else if max <? 256 then ([], 0)
  else (nl_build_loopback_link max seq pid (if dump then NLM_F_MULTI else 0) [], 1).

Definition build_host_addrs (max seq pid want_family : Z) (dump : bool) : list Z * Z :=
  let flags := if dump then NLM_F_MULTI else 0 in
  let wants family := (want_family =? AF_UNSPEC) || (want_family =? family) in
  if wants AF_INET && (max <? 256) then ([], 0)
  else
    let '(buf, n) := if wants AF_INET then (nl_build_loopback_addr max seq pid AF_INET flags [], 1) else ([], 0) in
    if wants AF_INET6 && (max <? zlen buf + 256) then (buf, 0)
    else if wants AF_INET6 then (nl_build_loopback_addr max seq pid AF_INET6 flags buf, n + 1)
    else (buf, n).

Definition reply_link (max seq pid : Z) (dump : bool) (req : list Z) : res (list Z) :=
  let! (want_index, want_name) := nl_request_link_target req in
  let '(buf, n) := build_host_links max seq pid (if dump then [] else want_name) (if dump then 0 else want_index) dump in
  let! buf :=
    (if negb (n =? 0) then Ok buf
     else if dump then Ok (nl_build_loopback_link max seq pid NLM_F_MULTI [])
     else
       let! loopback := nl_request_is_loopback req in
       Ok (if loopback : bool then nl_build_loopback_link max seq pid 0 []
           else nl_build_error max seq pid (- ENODEV) [])) in
  Ok (if dump then nl_build_done max seq pid buf else buf).

Definition reply_addr (max seq pid : Z) (dump : bool) (req : list Z) : res (list Z) :=
  let! family := (if NLMSG_HDRLEN <? zlen req then field req NLMSG_HDRLEN 1 else Ok 0) in
  let want_family := if (family =? AF_INET) || (family =? AF_INET6) then family else AF_UNSPEC in
  let flags := if dump then NLM_F_MULTI else 0 in
  let '(buf, n) := build_host_addrs max seq pid want_family dump in
  let buf :=
    if negb (n =? 0) then buf
    else
      let buf := if (family =? 0) || (family =? AF_INET) then nl_build_loopback_addr max seq pid AF_INET flags [] else [] in
      if (family =? 0) || (family =? AF_INET6) then nl_build_loopback_addr max seq pid AF_INET6 flags buf else buf in
  Ok (if dump then nl_build_done max seq pid buf else buf).

(** The reply to a request of at least a header. *)
Definition fake_reply (max pid : Z) (req : list Z) : res (list Z) :=
  let! type := field req 4 2 in
  let! flags := field req 6 2 in
  let! seq := field req 8 4 in
  let dump := Z.land flags NLM_F_DUMP =? NLM_F_DUMP in
  if type =? RTM_GETLINK then reply_link max seq pid dump req
  else if type =? RTM_GETADDR then reply_addr max seq pid dump req
  else Ok (if dump then nl_build_done max seq pid [] else nl_build_error max seq pid 0 []).

(** ** Datagrams *)

Fixpoint datagram_loop (fuel : nat) (reply : list Z) (off : Z) : res Z :=
  match fuel with
  | O => Stuck NoFuel
  | S fuel =>
      let len := zlen reply in
      if negb (off + NLMSG_HDRLEN <=? len) then Ok off
      else
        let! mlen := field reply off 4 in
        let! type := field reply (off + 4) 2 in
        if (mlen <? NLMSG_HDRLEN) || (len <? off + mlen) then Ok off
        else if type =? NLMSG_DONE then Ok off
        else datagram_loop fuel reply (off + NLMSG_ALIGN mlen)
  end.

Definition fake_netlink_datagram_len (reply : list Z) : res Z :=
  let! off := datagram_loop (S (length reply)) reply 0 in
  Ok (if (off =? 0) || (zlen reply <? off) then zlen reply else off).

(** What is left of the reply that waits. *)
Definition pending_reply (n : FakeNetlink) : list Z := drop (Z.to_nat (fake_netlink_reply_off n)) (fake_netlink_reply n).

Definition set_reply (r : list Z) (off : Z) (n : FakeNetlink) : FakeNetlink :=
  mkNetlink (fake_netlink_fds n) r off (pending_fake_netlink_socket n).

(** The next datagram, empty when nothing waits. *)
Definition pending_fake_netlink_datagram (n : FakeNetlink) : res (list Z) :=
  if zlen (fake_netlink_reply n) =? 0 then Ok []
  else
    let! len := fake_netlink_datagram_len (pending_reply n) in
    Ok (take (Z.to_nat len) (pending_reply n)).

Definition consume_fake_netlink_datagram (datagram : Z) (n : FakeNetlink) : FakeNetlink :=
  let off := fake_netlink_reply_off n + datagram in
  if zlen (fake_netlink_reply n) <=? off then set_reply [] 0 n else set_reply (fake_netlink_reply n) off n.

(** ** Descriptors *)

Definition is_fake_netlink_fd (n : FakeNetlink) (fd : Z) : bool :=
  negb (fd <? 0) && existsb (Z.eqb fd) (fake_netlink_fds n).

Definition set_fds (l : list Z) (n : FakeNetlink) : FakeNetlink :=
  mkNetlink l (fake_netlink_reply n) (fake_netlink_reply_off n) (pending_fake_netlink_socket n).

(** The last descriptor takes the place of the one that is removed. *)
Fixpoint swap_remove (fd : Z) (l : list Z) : list Z :=
  match l with
  | [] => []
  | x :: l => if x =? fd then match last l with Some y => y :: removelast l | None => [] end else x :: swap_remove fd l
  end.
Definition unmark_fake_netlink_fd (n : FakeNetlink) (fd : Z) : FakeNetlink := set_fds (swap_remove fd (fake_netlink_fds n)) n.

(** The exit of the socket(2) that was substituted (src/syscall/exit.c). *)
Definition mark_fake_netlink_fd (n : FakeNetlink) (fd : Z) : FakeNetlink :=
  if negb (pending_fake_netlink_socket n) then n
  else
    let l := fake_netlink_fds n in
    let l := if (0 <=? fd) && (zlen l <? MAX_FAKE_NETLINK_FDS) && negb (existsb (Z.eqb fd) l) then l ++ [fd] else l in
    mkNetlink l (fake_netlink_reply n) (fake_netlink_reply_off n) false.

(** ** System calls *)

Section Netlink.

Context {W Mem : Type} {TM : TraceeMemory Mem}.

(** if_nametoindex() of the host. *)
Context (if_nametoindex : cstr -> Z).

Definition modify_netlink (f : FakeNetlink -> FakeNetlink) : HM W Mem unit := hset (fun x => set_netlink (f (x_netlink x)) x).
Definition netlink_of : HM W Mem FakeNetlink := hget x_netlink.
Definition self_pid : HM W Mem Z := hget (fun x => wrap32 (pid (view (x_path x)))).
Definition word_size : HM W Mem Z := hget (fun x => sizeof_word (x_regs x)).

(** build_fake_netlink_reply(); the allocation of the buffer succeeds. *)
Definition build_fake_netlink_reply (buf_addr buf_len : Z) : HM W Mem unit :=
  do$ _ := modify_netlink (set_reply [] 0) in
  if (buf_addr =? 0) || (buf_len <? 16) then hret ()
  else
    do$ req := peek_data buf_addr (Z.min buf_len 256) in
    match req with
    | inr _ => hret ()
    | inl req =>
        do$ pid := self_pid in
        do$ reply := hlift (fake_reply MAX_FAKE_NETLINK_REPLY pid req) in
        modify_netlink (set_reply reply 0)
    end.

Definition sockaddr_nl (pid : Z) : list Z := to_le 2 AF_NETLINK ++ [0; 0] ++ to_le 4 pid ++ to_le 4 0.

(** peek_uint32(): the value, if it can be read. *)
Definition peek_uint32 (a : Z) : HM W Mem (Z + Z) :=
  do$ r := peek_data a 4 in hret (match r with inl l => inl (of_le l) | inr e => inr e end).

(** The result of write_fake_netlink_sockname(). *)
Definition write_fake_netlink_sockname (addr_ptr size_ptr : Z) : HM W Mem Z :=
  if size_ptr =? 0 then hret (- EINVAL)
  else
    do$ in_size := peek_uint32 size_ptr in
    match in_size with
    | inr e => hret (- e)
    | inl in_size =>
        do$ pid := self_pid in
        let snl := sockaddr_nl pid in
        do$ e := (if negb (addr_ptr =? 0) && (0 <? in_size)
                  then poke_data addr_ptr (take (Z.to_nat (Z.min in_size (zlen snl))) snl) else hret None) in
        match e with
        | Some _ => hret (- EFAULT)
        | None =>
            do$ e := poke_data size_ptr (to_le 4 (zlen snl)) in
            hret (match e with Some e => - e | None => 0 end)
        end
    end.

(** The datagram in the vectors of the tracee: the number of bytes.  A length
    that can't be read has all its bits set. *)
Fixpoint scatter_loop (n : nat) (iov : Z) (reply : list Z) (done : Z) : HM W Mem Z :=
  match n with
  | O => hret done
  | S n =>
      if zlen reply <=? done then hret done
      else
        do$ w := word_size in
        do$ (base, e) := peek_word (wrap64 iov) in
        do$ (len, _) := match e with Some _ => hret (0, None) | None => peek_word (wrap64 (iov + w)) end in
        let chunk := Z.min (zlen reply - done) len in
        do$ failed := (if negb (base =? 0) && (0 <? chunk) then
                         do$ e := poke_data base (slice (Z.to_nat done) (Z.to_nat chunk) reply) in
                         hret (match e with Some _ => true | None => false end)
                       else hret false) in
        if failed : bool then hret done else scatter_loop n (iov + 2 * w) reply (done + chunk)
  end.
Definition scatter_fake_netlink_reply (iov_ptr iov_count : Z) (reply : list Z) : HM W Mem Z :=
  scatter_loop (Z.to_nat iov_count) iov_ptr reply 0.

Definition SIOCGIFINDEX := 0x8933.

Definition maybe_fake_siocgifindex (cmd arg : Z) : HM W Mem bool :=
  if negb (cmd =? SIOCGIFINDEX) || (arg =? 0) then hret false
  else
    do$ name := peek_data arg IFNAMSIZ in
    match name with
    | inr _ => hret false
    | inl name =>
        let name := until_nul (Z.to_nat (IFNAMSIZ - 1)) name in
        let ifindex := sgn 32 (if_nametoindex name) in
        if (ifindex <=? 0) && negb (str_eqb name (bs "lo")) then hret false
        else
          do$ e := poke_data (wrap64 (arg + IFNAMSIZ)) (to_le 4 (if ifindex <=? 0 then 1 else ifindex)) in
          hret (match e with Some _ => false | None => true end)
    end.

(** The cases of translate_syscall_enter() for a descriptor that is emulated. *)
Definition netlink_sockname : HM W Mem unit :=
  do$ addr_ptr := peek CURRENT SYSARG_2 in
  do$ size_ptr := peek CURRENT SYSARG_3 in
  do$ rc := write_fake_netlink_sockname addr_ptr size_ptr in
  answer rc.

Definition netlink_sendto : HM W Mem unit :=
  do$ buf := peek CURRENT SYSARG_2 in
  do$ len := peek CURRENT SYSARG_3 in
  do$ _ := build_fake_netlink_reply buf len in
  answer len.

Definition netlink_sendmsg : HM W Mem unit :=
  do$ msghdr_addr := peek CURRENT SYSARG_2 in
  do$ w := word_size in
  do$ total := (
    if msghdr_addr =? 0 then hret 0
    else
      do$ (iov_ptr, e) := peek_word (wrap64 (msghdr_addr + 2 * w)) in
      do$ (iov_count, _) := match e with Some _ => hret (0, None) | None => peek_word (wrap64 (msghdr_addr + 3 * w)) end in
      if (iov_ptr =? 0) || (iov_count <=? 0) then hret 0
      else
        do$ (base, e) := peek_word iov_ptr in
        do$ (len, _) := match e with Some _ => hret (0, None) | None => peek_word (wrap64 (iov_ptr + w)) end in
        do$ _ := build_fake_netlink_reply base len in
        hret len) in
  answer total.

(** A datagram is delivered: it is consumed unless it is only looked at. *)
Definition delivered (flags : Z) (datagram : list Z) : HM W Mem unit :=
  if Z.land flags MSG_PEEK =? 0 then modify_netlink (consume_fake_netlink_datagram (zlen datagram)) else hret ().
Definition received (flags copied : Z) (datagram : list Z) : Z := if Z.land flags MSG_TRUNC =? 0 then copied else zlen datagram.

Definition netlink_recvfrom : HM W Mem unit :=
  do$ buf := peek CURRENT SYSARG_2 in
  do$ len := peek CURRENT SYSARG_3 in
  do$ flags := peek_int CURRENT SYSARG_4 in
  do$ addr_ptr := peek CURRENT SYSARG_5 in
  do$ size_ptr := peek CURRENT SYSARG_6 in
  do$ n := netlink_of in
  do$ datagram := hlift (pending_fake_netlink_datagram n) in
  if zlen datagram =? 0 then hret ()
  else
    do$ copied := (if buf =? 0 then hret 0
                   else
                     let copied := Z.min len (zlen datagram) in
                     if 0 <? copied then
                       do$ e := poke_data buf (take (Z.to_nat copied) datagram) in
                       hret (match e with Some _ => 0 | None => copied end)
                     else hret copied) in
    do$ _ := delivered flags datagram in
    do$ _ := (if negb (addr_ptr =? 0) && negb (size_ptr =? 0) then write_fake_netlink_sockname addr_ptr size_ptr else hret 0) in
    answer (received flags copied datagram).

(** A word that is null when it can't be read. *)
Definition word_or_null (a : Z) : HM W Mem Z := do$ (v, e) := peek_word (wrap64 a) in hret (match e with Some _ => 0 | None => v end).

Definition netlink_recvmsg : HM W Mem unit :=
  do$ msghdr_addr := peek CURRENT SYSARG_2 in
  do$ flags := peek_int CURRENT SYSARG_3 in
  do$ w := word_size in
  do$ n := netlink_of in
  do$ datagram := hlift (pending_fake_netlink_datagram n) in
  if zlen datagram =? 0 then hret ()
  else
    let header a := if msghdr_addr =? 0 then hret 0 else word_or_null a in
    do$ msg_name := header msghdr_addr in
    do$ iov_ptr := header (msghdr_addr + 2 * w) in
    do$ iov_count := header (msghdr_addr + 3 * w) in
    do$ scattered := (if negb (iov_ptr =? 0) && (0 <? iov_count)
                      then scatter_fake_netlink_reply iov_ptr iov_count datagram else hret 0) in
    do$ _ := delivered flags datagram in
    do$ _ := (
      if negb (msg_name =? 0) && negb (msghdr_addr =? 0) then
        do$ in_namelen := peek_uint32 (wrap64 (msghdr_addr + w)) in
        match in_namelen with
        | inl in_namelen =>
            if 0 <? in_namelen then
              let snl := sockaddr_nl 0 in
              do$ _ := poke_data msg_name (take (Z.to_nat (Z.min in_namelen (zlen snl))) snl) in
              do$ _ := poke_data (wrap64 (msghdr_addr + w)) (to_le 4 (zlen snl)) in
              hret ()
            else hret ()
        | inr _ => hret ()
        end
      else hret ()) in
    do$ _ := (if msghdr_addr =? 0 then hret ()
              else
                do$ _ := poke_data (wrap64 (msghdr_addr + 6 * w)) (to_le 4 (if scattered <? zlen datagram then MSG_TRUNC else 0)) in
                hret ()) in
    answer (received flags scattered datagram).

End Netlink.

(** ** Messages, as netlink(7) defines them *)

Record Message := mkMessage { m_type : Z; m_flags : Z; m_seq : Z; m_pid : Z; m_payload : list Z }.

(** The walk with NLMSG_OK() and NLMSG_NEXT(): [None] when bytes are left that are
    not a message. *)
Fixpoint parse (fuel : nat) (l : list Z) : option (list Message) :=
  match fuel, l with
  | _, [] => Some []
  | O, _ => None
  | S fuel, _ =>
      let len := of_le (slice 0 4 l) in
      if (16 <=? len) && (len <=? zlen l)
      then
        let m := mkMessage (of_le (slice 4 2 l)) (of_le (slice 6 2 l)) (of_le (slice 8 4 l)) (of_le (slice 12 4 l))
                   (slice 16 (Z.to_nat (len - 16)) l) in
        cons m <$> parse fuel (drop (Z.to_nat (NLMSG_ALIGN len)) l)
      else None
  end.

Definition encode (m : Message) : list Z :=
  nlmsghdr (16 + zlen (m_payload m)) (m_type m) (m_flags m) (m_seq m) (m_pid m) ++ m_payload m.

Definition fits_in (w v : Z) : Prop := 0 <= v < 256 ^ w.
(** The fields of a message fit, and its payload is aligned. *)
Definition message_ok (m : Message) : Prop :=
  fits_in 2 (m_type m) /\ fits_in 2 (m_flags m) /\ fits_in 4 (m_seq m) /\ fits_in 4 (m_pid m)
  /\ zlen (m_payload m) < 8192 /\ exists k, zlen (m_payload m) = 4 * k.

Lemma NLMSG_ALIGN_mult k : NLMSG_ALIGN (4 * k) = 4 * k.
Proof.
  unfold NLMSG_ALIGN. change (Z.lnot 3) with (Z.lnot (Z.ones 2)). rewrite <- Z.ldiff_land, Z.ldiff_ones_r by lia.
  rewrite Z.shiftl_mul_pow2, Z.shiftr_div_pow2 by lia. change (2 ^ 2) with 4.
  replace (4 * k + 3) with (3 + k * 4) by lia. rewrite Z.div_add by lia. change (3 / 4) with 0. lia.
Qed.

Lemma NLMSG_ALIGN_ge n : n <= NLMSG_ALIGN n < n + 4.
Proof.
  unfold NLMSG_ALIGN. change (Z.lnot 3) with (Z.lnot (Z.ones 2)). rewrite <- Z.ldiff_land, Z.ldiff_ones_r by lia.
  rewrite Z.shiftl_mul_pow2, Z.shiftr_div_pow2 by lia. change (2 ^ 2) with 4.
  pose proof (Z.div_mod (n + 3) 4). pose proof (Z.mod_pos_bound (n + 3) 4). lia.
Qed.

Lemma zlen_pad n : 0 <= n -> zlen (pad n) = n.
Proof. intros H. unfold zlen, pad. rewrite length_replicate. lia. Qed.

Lemma length_nlmsghdr len type flags seq pid : length (nlmsghdr len type flags seq pid) = 16%nat.
Proof. unfold nlmsghdr. rewrite !length_app, !length_to_le. done. Qed.

Lemma finish_eq type flags seq pid buf payload k : zlen payload = 4 * k ->
  finish (zlen buf) type flags seq pid (buf ++ pad NLMSG_HDRLEN ++ payload)
  = buf ++ encode (mkMessage type flags seq pid payload).
Proof.
  intros Hk. unfold finish, encode. cbn [m_type m_flags m_seq m_pid m_payload].
  rewrite zlen_app, zlen_app. change (zlen (pad NLMSG_HDRLEN)) with 16.
  replace (zlen buf + (16 + zlen payload) - zlen buf) with (16 + zlen payload) by lia.
  assert (Ea : NLMSG_ALIGN (16 + zlen payload) = 16 + zlen payload).
  { rewrite Hk. replace (16 + 4 * k) with (4 * (4 + k)) by lia. apply NLMSG_ALIGN_mult. }
  rewrite Ea, Z.sub_diag. change (pad 0) with (@nil Z). rewrite app_nil_r. unfold zlen at 1 3. rewrite !Nat2Z.id.
  change (Z.to_nat NLMSG_HDRLEN) with 16%nat.
  rewrite take_app_length. f_equal. f_equal. rewrite drop_app_ge by lia. rewrite Nat.add_comm, Nat.add_sub.
  by rewrite drop_app_length' by done.
Qed.

Definition attr (type : Z) (data : list Z) : list Z :=
  to_le 2 (RTA_LENGTH (zlen data)) ++ to_le 2 type ++ data ++ pad (RTA_SPACE (zlen data) - RTA_LENGTH (zlen data)).

Lemma nl_add_attr_eq max type data buf x : zlen (buf ++ x) + RTA_SPACE (zlen data) <= max ->
  nl_add_attr max type data (buf ++ x) = buf ++ x ++ attr type data.
Proof. intros H. unfold nl_add_attr, attr. rewrite (proj2 (Z.ltb_ge _ _)) by lia. by rewrite <- !app_assoc. Qed.

(** ** The messages of replies *)

Definition link_payload : list Z :=
  [0; 0] ++ to_le 2 772 ++ to_le 4 1 ++ to_le 4 0x10049 ++ to_le 4 0
  ++ attr IFLA_IFNAME (bs "lo" ++ [0]) ++ attr IFLA_MTU (to_le 4 65536) ++ attr IFLA_TXQLEN (to_le 4 1000)
  ++ attr IFLA_OPERSTATE [6] ++ attr IFLA_ADDRESS (pad 6) ++ attr IFLA_BROADCAST (pad 6).
Definition addr4_payload : list Z :=
  [2; 8; 0x80; 254] ++ to_le 4 1 ++ attr IFA_ADDRESS [127; 0; 0; 1] ++ attr IFA_LOCAL [127; 0; 0; 1] ++ attr IFA_LABEL (bs "lo" ++ [0]).
Definition addr6_payload : list Z :=
  [10; 128; 0x80; 254] ++ to_le 4 1 ++ attr IFA_ADDRESS (pad 15 ++ [1]) ++ attr IFA_LOCAL (pad 15 ++ [1]).

Definition link_message (flags seq pid : Z) := mkMessage RTM_NEWLINK flags seq pid link_payload.
Definition addr4_message (flags seq pid : Z) := mkMessage RTM_NEWADDR flags seq pid addr4_payload.
Definition addr6_message (flags seq pid : Z) := mkMessage RTM_NEWADDR flags seq pid addr6_payload.
Definition done_message (seq pid : Z) := mkMessage NLMSG_DONE NLM_F_MULTI seq pid (to_le 4 0).
Definition error_message (seq pid error : Z) := mkMessage NLMSG_ERROR 0 seq pid (to_le 4 error ++ pad 16).

Definition MAX := MAX_FAKE_NETLINK_REPLY.

Lemma add_attr_closed type data buf x : zlen buf <= 4096 -> (zlen x + RTA_SPACE (zlen data) <=? 4096) = true ->
  nl_add_attr MAX type data (buf ++ x) = buf ++ x ++ attr type data.
Proof. intros Hb Hx. apply Z.leb_le in Hx. apply nl_add_attr_eq. rewrite zlen_app. unfold MAX, MAX_FAKE_NETLINK_REPLY. lia. Qed.

Ltac add_attrs := repeat (rewrite add_attr_closed; [|assumption|reflexivity]).

Lemma finish_closed type flags seq pid buf x payload k : x = pad NLMSG_HDRLEN ++ payload -> zlen payload = 4 * k ->
  finish (zlen buf) type flags seq pid (buf ++ x) = buf ++ encode (mkMessage type flags seq pid payload).
Proof. intros ->. by apply finish_eq. Qed.

Lemma build_link_eq seq pid flags buf : zlen buf <= 4096 ->
  nl_build_loopback_link MAX seq pid flags buf = buf ++ encode (link_message flags seq pid).
Proof.
  intros Hb. unfold nl_build_loopback_link, nl_build_link.
  rewrite (proj2 (Z.ltb_ge _ _)) by (change (NLMSG_ALIGN 16) with 16; unfold MAX, MAX_FAKE_NETLINK_REPLY, NLMSG_HDRLEN; lia).
  cbv zeta. change (0 <? zlen (pad 6)) with true. cbv iota. add_attrs. by apply (finish_closed _ _ _ _ _ _ link_payload 18).
Qed.

Lemma build_addr_eq seq pid flags buf : zlen buf <= 4096 ->
  nl_build_loopback_addr MAX seq pid AF_INET flags buf = buf ++ encode (addr4_message flags seq pid)
  /\ nl_build_loopback_addr MAX seq pid AF_INET6 flags buf = buf ++ encode (addr6_message flags seq pid).
Proof.
  intros Hb. unfold nl_build_loopback_addr, nl_build_addr.
  rewrite !(proj2 (Z.ltb_ge _ (zlen buf + _ + _))) by (change (NLMSG_ALIGN 8) with 8; unfold MAX, MAX_FAKE_NETLINK_REPLY, NLMSG_HDRLEN; lia).
  cbv zeta. change (AF_INET =? AF_INET6) with false. change (AF_INET6 =? AF_INET6) with true. change (AF_INET =? AF_INET) with true.
  cbv iota. add_attrs. split; [by apply (finish_closed _ _ _ _ _ _ addr4_payload 8)|by apply (finish_closed _ _ _ _ _ _ addr6_payload 12)].
Qed.

Lemma build_done_eq seq pid buf : zlen buf <= 4096 -> nl_build_done MAX seq pid buf = buf ++ encode (done_message seq pid).
Proof.
  intros Hb. unfold nl_build_done. change (NLMSG_ALIGN (NLMSG_HDRLEN + 4)) with 20.
  rewrite (proj2 (Z.ltb_ge _ _)) by (unfold MAX, MAX_FAKE_NETLINK_REPLY; lia). by apply (finish_eq _ _ _ _ _ _ 1).
Qed.

Lemma build_error_eq seq pid error buf : zlen buf <= 4096 -> nl_build_error MAX seq pid error buf = buf ++ encode (error_message seq pid error).
Proof.
  intros Hb. unfold nl_build_error. change (NLMSG_ALIGN (NLMSG_HDRLEN + 20)) with 36.
  rewrite (proj2 (Z.ltb_ge _ _)) by (unfold MAX, MAX_FAKE_NETLINK_REPLY; lia). apply (finish_eq _ _ _ _ _ _ 5).
  rewrite zlen_app. unfold zlen. rewrite length_to_le. done.
Qed.

(** ** Requests are read within their bounds *)

Lemma field_ok req off n : Forall is_byte req -> 0 <= off -> 0 <= n -> off + n <= zlen req ->
  exists v, field req off n = Ok v /\ 0 <= v < 256 ^ n.
Proof.
  intros Hr Ho Hn Hl. unfold field. rewrite (proj2 (Z.ltb_ge _ _)), (proj2 (Z.ltb_ge _ _)) by lia. eexists. split; [done|].
  assert (Hb : Forall is_byte (slice (Z.to_nat off) (Z.to_nat n) req)) by (by apply Forall_take, Forall_drop).
  pose proof (of_le_range _ Hb) as H. rewrite length_slice in H by (unfold zlen in Hl; lia). by rewrite Z2Nat.id in H.
Qed.

Lemma bytes_ok req off n : 0 <= off -> 0 <= n -> off + n <= zlen req -> is_ok (bytes req off n).
Proof. intros Ho Hn Hl. unfold bytes. rewrite !(proj2 (Z.ltb_ge _ _)) by lia. by eexists. Qed.

Lemma link_name_loop_ok fuel req : Forall is_byte req -> forall off name, 0 <= off -> (Z.to_nat (zlen req - off) < fuel)%nat ->
  is_ok (link_name_loop fuel req off name).
Proof.
  intros Hr. induction fuel as [|fuel IH]; intros off name Ho Hf; [lia|]. cbn [link_name_loop].
  case_bool; [by eexists|]. bool_facts.
  destruct (field_ok req off 2) as (rlen & -> & Hrl); [done|lia..|]. destruct (field_ok req (off + 2) 2) as (ty & -> & _); [done|lia..|].
  cbn [res_bind]. case_bool; [by eexists|]. bool_facts.
  assert (Hnext : forall name, is_ok (link_name_loop fuel req (off + RTA_ALIGN rlen) name)).
  { intros name'. pose proof (NLMSG_ALIGN_ge rlen). apply IH; unfold RTA_ALIGN; lia. }
  case_bool; [|apply Hnext]. unfold RTA_LENGTH, IFNAMSIZ.
  match goal with |- context [bytes req ?o ?n] => destruct (bytes_ok req o n) as [l ->]; [lia|case_bool; bool_facts; lia..|] end.
  apply Hnext.
Qed.

Lemma link_target_ok req : Forall is_byte req -> is_ok (nl_request_link_target req) /\ is_ok (nl_request_is_loopback req).
Proof.
  intros Hr. unfold nl_request_link_target, nl_request_is_loopback. case_bool; [split; by eexists|]. bool_facts.
  change (NLMSG_HDRLEN + 16) with 32 in *. change (NLMSG_HDRLEN + 4) with 20.
  destruct (field_ok req 20 4) as (v & -> & _); [done|lia..|]. cbn [res_bind].
  destruct (link_name_loop_ok (link_fuel req) req Hr (NLMSG_HDRLEN + NLMSG_ALIGN 16) None) as [name ->]; [done|unfold link_fuel, zlen; change (NLMSG_HDRLEN + NLMSG_ALIGN 16) with 32; lia|].
  cbn [res_bind]. split; [by eexists|]. destruct name; by eexists.
Qed.

(** ** Parsing what was encoded *)

Lemma slice_header len type flags seq pid l : fits_in 4 len -> fits_in 2 type -> fits_in 2 flags -> fits_in 4 seq -> fits_in 4 pid ->
  let m := nlmsghdr len type flags seq pid ++ l in
  of_le (slice 0 4 m) = len /\ of_le (slice 4 2 m) = type /\ of_le (slice 6 2 m) = flags
  /\ of_le (slice 8 4 m) = seq /\ of_le (slice 12 4 m) = pid.
Proof.
  intros H1 H2 H3 H4 H5 m. unfold m, nlmsghdr, fits_in in *. repeat split; cbn [to_le app slice take drop].
  - exact (of_le_to_le 4 len H1).
  - exact (of_le_to_le 2 type H2).
  - exact (of_le_to_le 2 flags H3).
  - exact (of_le_to_le 4 seq H4).
  - exact (of_le_to_le 4 pid H5).
Qed.

Lemma zlen_encode m : zlen (encode m) = 16 + zlen (m_payload m).
Proof. unfold encode. rewrite zlen_app. unfold zlen at 1. by rewrite length_nlmsghdr. Qed.

Lemma parse_encode n m l : message_ok m -> parse (S n) (encode m ++ l) = cons m <$> parse n l.
Proof.
  intros (H2 & H3 & H4 & H5 & Hs & k & Hk). pose proof (zlen_nonneg (m_payload m)) as Hp.
  assert (Ee : encode m ++ l = nlmsghdr (16 + zlen (m_payload m)) (m_type m) (m_flags m) (m_seq m) (m_pid m) ++ m_payload m ++ l)
    by (unfold encode; by rewrite <- app_assoc).
  assert (Hl : fits_in 4 (16 + zlen (m_payload m))) by (unfold fits_in; lia).
  destruct (slice_header _ _ _ _ _ (m_payload m ++ l) Hl H2 H3 H4 H5) as (E1 & E2 & E3 & E4 & E5).
  pose proof (length_nlmsghdr (16 + zlen (m_payload m)) (m_type m) (m_flags m) (m_seq m) (m_pid m)) as Hh. rewrite <- Ee in *.
  assert (Hne : exists b r, encode m ++ l = b :: r) by (by eexists _, _). destruct Hne as (b & r & Er).
  assert (Hstep : parse (S n) (encode m ++ l) =
    let len := of_le (slice 0 4 (encode m ++ l)) in
    if (16 <=? len) && (len <=? zlen (encode m ++ l))
    then cons (mkMessage (of_le (slice 4 2 (encode m ++ l))) (of_le (slice 6 2 (encode m ++ l))) (of_le (slice 8 4 (encode m ++ l)))
                 (of_le (slice 12 4 (encode m ++ l))) (slice 16 (Z.to_nat (len - 16)) (encode m ++ l)))
           <$> parse n (drop (Z.to_nat (NLMSG_ALIGN len)) (encode m ++ l))
    else None) by (by rewrite Er).
  rewrite Hstep. cbv zeta. rewrite E1, E2, E3, E4, E5.
  rewrite zlen_app, zlen_encode. pose proof (zlen_nonneg l). rewrite !(proj2 (Z.leb_le _ _)) by lia. cbn [andb].
  replace (16 + zlen (m_payload m) - 16) with (zlen (m_payload m)) by lia.
  replace (NLMSG_ALIGN (16 + zlen (m_payload m))) with (zlen (encode m)).
  - assert (Ed : drop (Z.to_nat (zlen (encode m))) (encode m ++ l) = l) by (unfold zlen; by rewrite Nat2Z.id, drop_app_length).
    assert (Es : slice 16 (Z.to_nat (zlen (m_payload m))) (encode m ++ l) = m_payload m).
    { rewrite Ee. unfold slice. rewrite drop_app_length' by done. unfold zlen. by rewrite Nat2Z.id, take_app_length. }
    rewrite Ed, Es. by destruct m.
  - rewrite zlen_encode, Hk. replace (16 + 4 * k) with (4 * (4 + k)) by lia. by rewrite NLMSG_ALIGN_mult.
Qed.

Definition encode_all (ms : list Message) : list Z := concat (map encode ms).

Lemma parse_encode_all ms : Forall message_ok ms -> parse (length ms) (encode_all ms) = Some ms.
Proof.
  induction 1 as [|m ms Hm Hms IH]; [done|]. cbn [length encode_all map concat]. rewrite parse_encode by done.
  fold (encode_all ms). by rewrite IH.
Qed.

(** ** The reply to a request *)

(** The messages about the interface, one at most of each kind. *)
Definition bodies (flags seq pid : Z) : list (list Message) :=
  [[]; [link_message flags seq pid]; [addr4_message flags seq pid]; [addr6_message flags seq pid];
   [addr4_message flags seq pid; addr6_message flags seq pid]].

Definition reply_shape (dump : bool) (seq pid : Z) (ms : list Message) : Prop :=
  if dump then exists body, body ∈ bodies NLM_F_MULTI seq pid /\ ms = body ++ [done_message seq pid]
  else (ms ∈ bodies 0 seq pid /\ ms <> []) \/ exists e, e ∈ [- ENODEV; 0] /\ ms = [error_message seq pid e].

Lemma zlen_bodies flags seq pid body : body ∈ bodies flags seq pid -> zlen (encode_all body) <= 112.
Proof.
  unfold bodies. rewrite !elem_of_cons. intros [-> | [-> | [-> | [-> | [-> | H]]]]]; [..|by apply elem_of_nil in H];
    unfold encode_all; cbn [map concat]; autorewrite with zlen; rewrite ?zlen_encode; by vm_compute.
Qed.

Lemma dump_shape seq pid body : body ∈ bodies NLM_F_MULTI seq pid ->
  nl_build_done MAX seq pid (encode_all body) = encode_all (body ++ [done_message seq pid]).
Proof.
  intros Hb. pose proof (zlen_bodies _ _ _ _ Hb). rewrite build_done_eq by lia.
  unfold encode_all. rewrite map_app, concat_app. cbn [map concat]. by rewrite app_nil_r.
Qed.

Lemma link_eq seq pid flags : nl_build_loopback_link MAX seq pid flags [] = encode_all [link_message flags seq pid].
Proof. rewrite build_link_eq by done. unfold encode_all. cbn [map concat]. by rewrite app_nil_r. Qed.

Lemma reply_link_shape seq pid dump req : Forall is_byte req ->
  exists ms, reply_link MAX seq pid dump req = Ok (encode_all ms) /\ reply_shape dump seq pid ms.
Proof.
  intros Hr. destruct (link_target_ok req Hr) as [[[ix nm] E1] [lo E2]]. unfold reply_link. rewrite E1. cbn [res_bind].
  unfold build_host_links. change (MAX <? 256) with false. destruct dump; cbn [negb andb].
  - cbn [Z.eqb negb res_bind]. rewrite link_eq. exists [link_message NLM_F_MULTI seq pid; done_message seq pid].
    rewrite dump_shape by set_solver. split; [done|]. exists [link_message NLM_F_MULTI seq pid]. split; [set_solver|done].
  - assert (Hok : exists ms, Ok (encode_all [link_message 0 seq pid]) = Ok (encode_all ms) /\ reply_shape false seq pid ms).
    { eexists. split; [done|]. left. split; [set_solver|done]. }
    case_bool; cbn [Z.eqb negb res_bind].
    + rewrite E2. cbn [res_bind]. rewrite link_eq. destruct lo; [done|]. rewrite build_error_eq by done.
      exists [error_message seq pid (- ENODEV)]. split; [unfold encode_all; cbn [map concat]; by rewrite app_nil_r|]. right. eexists. split; [|done]. set_solver.
    + by rewrite link_eq.
Qed.

Lemma addrs_shape seq pid family dump : family ∈ [AF_UNSPEC; AF_INET; AF_INET6] ->
  let flags := if dump : bool then NLM_F_MULTI else 0 in
  exists body, build_host_addrs MAX seq pid family dump = (encode_all body, zlen body) /\ body ∈ bodies flags seq pid /\ body <> [].
Proof.
  intros Hf flags. unfold build_host_addrs. fold flags. change (MAX <? 256) with false. rewrite !andb_false_r.
  destruct (build_addr_eq seq pid flags [] ltac:(done)) as [E4 E6].
  assert (E46 : nl_build_loopback_addr MAX seq pid AF_INET6 flags (encode_all [addr4_message flags seq pid])
                = encode_all [addr4_message flags seq pid; addr6_message flags seq pid]).
  { assert (Hl : zlen (encode_all [addr4_message flags seq pid]) <= 112) by (apply (zlen_bodies flags seq pid); set_solver).
    destruct (build_addr_eq seq pid flags (encode_all [addr4_message flags seq pid]) ltac:(lia)) as [_ ->].
    unfold encode_all. cbn [map concat]. by rewrite !app_nil_r. }
  assert (Hmax : forall body, body ∈ bodies flags seq pid -> (MAX <? zlen (encode_all body) + 256) = false).
  { intros body Hb. apply zlen_bodies in Hb. apply Z.ltb_ge. unfold MAX, MAX_FAKE_NETLINK_REPLY. lia. }
  assert (E4' : nl_build_loopback_addr MAX seq pid AF_INET flags [] = encode_all [addr4_message flags seq pid])
    by (rewrite E4; unfold encode_all; cbn [map concat app]; by rewrite app_nil_r).
  assert (E6' : nl_build_loopback_addr MAX seq pid AF_INET6 flags [] = encode_all [addr6_message flags seq pid])
    by (rewrite E6; unfold encode_all; cbn [map concat app]; by rewrite app_nil_r).
  rewrite E4'. rewrite !elem_of_cons in Hf. destruct Hf as [-> | [-> | [-> | Hf]]]; [| | |by apply elem_of_nil in Hf].
  - change ((AF_UNSPEC =? AF_UNSPEC) || (AF_UNSPEC =? AF_INET)) with true. change ((AF_UNSPEC =? AF_UNSPEC) || (AF_UNSPEC =? AF_INET6)) with true.
    cbv iota. rewrite Hmax by set_solver. cbn [andb]. rewrite E46. exists [addr4_message flags seq pid; addr6_message flags seq pid]. split; [reflexivity|]. split; [set_solver|done].
  - change ((AF_INET =? AF_UNSPEC) || (AF_INET =? AF_INET)) with true. change ((AF_INET =? AF_UNSPEC) || (AF_INET =? AF_INET6)) with false.
    cbv iota. cbn [andb]. exists [addr4_message flags seq pid]. split; [reflexivity|]. split; [set_solver|done].
  - change ((AF_INET6 =? AF_UNSPEC) || (AF_INET6 =? AF_INET)) with false. change ((AF_INET6 =? AF_UNSPEC) || (AF_INET6 =? AF_INET6)) with true.
    cbv iota. change (MAX <? zlen [] + 256) with false. cbn [andb]. rewrite E6'. exists [addr6_message flags seq pid]. split; [reflexivity|]. split; [set_solver|done].
Qed.

Lemma reply_addr_shape seq pid dump req : Forall is_byte req -> 
  exists ms, reply_addr MAX seq pid dump req = Ok (encode_all ms) /\ reply_shape dump seq pid ms.
Proof.
  intros Hr. unfold reply_addr.
  assert (Hfam : exists family, (if NLMSG_HDRLEN <? zlen req then field req NLMSG_HDRLEN 1 else Ok 0) = Ok family).
  { case_bool; [|by eexists]. bool_facts. destruct (field_ok req NLMSG_HDRLEN 1) as (v & -> & _); [done|unfold NLMSG_HDRLEN in *; lia..|by eexists]. }
  destruct Hfam as [family ->]. cbn [res_bind].
  set (want := if (family =? AF_INET) || (family =? AF_INET6) then family else AF_UNSPEC).
  assert (Hw : want ∈ [AF_UNSPEC; AF_INET; AF_INET6]).
  { unfold want. rewrite !elem_of_cons. destruct (family =? AF_INET) eqn:E4; bool_facts; [by right; left|].
    destruct (family =? AF_INET6) eqn:E6; bool_facts; [by right; right; left|by left]. }
  destruct (addrs_shape seq pid want dump Hw) as (body & -> & Hb & Hne).
  assert (Hn : (zlen body =? 0) = false) by (destruct body; [done|]; apply Z.eqb_neq; rewrite zlen_cons; pose proof (zlen_nonneg body); lia).
  rewrite Hn. cbn [negb]. destruct dump.
  - rewrite dump_shape by done. eexists. split; [done|]. by exists body.
  - eexists. split; [done|]. by left.
Qed.

Lemma fake_reply_shape pid req : Forall is_byte req -> 16 <= zlen req -> exists seq flags ms,
  field req 8 4 = Ok seq /\ fits_in 4 seq /\ field req 6 2 = Ok flags
  /\ fake_reply MAX pid req = Ok (encode_all ms) /\ reply_shape (Z.land flags NLM_F_DUMP =? NLM_F_DUMP) seq pid ms.
Proof.
  intros Hr Hl. unfold fake_reply.
  destruct (field_ok req 4 2) as (type & -> & _); [done|lia..|]. destruct (field_ok req 6 2) as (flags & -> & _); [done|lia..|].
  destruct (field_ok req 8 4) as (seq & -> & Hs); [done|lia..|]. cbn [res_bind]. exists seq, flags. set (dump := Z.land _ _ =? _).
  case_bool; [destruct (reply_link_shape seq pid dump req Hr) as (ms & E & H); by exists ms|].
  case_bool; [destruct (reply_addr_shape seq pid dump req Hr) as (ms & E & H); by exists ms|].
  destruct dump.
  - exists [done_message seq pid]. split_and!; [done..| |by exists []; split; [set_solver|done]].
    exact (f_equal Ok (dump_shape seq pid [] ltac:(set_solver))).
  - exists [error_message seq pid 0]. split_and!; [done..| |right; eexists; split; [|done]; set_solver]. rewrite build_error_eq by done.
    unfold encode_all. cbn [map concat app]. by rewrite app_nil_r.
Qed.

(** What every message of a reply is. *)
Definition message_of (seq pid : Z) (m : Message) : Prop :=
  m_seq m = seq /\ m_pid m = pid /\ (m_type m, m_payload m) ∈
    [(RTM_NEWLINK, link_payload); (RTM_NEWADDR, addr4_payload); (RTM_NEWADDR, addr6_payload); (NLMSG_DONE, to_le 4 0);
     (NLMSG_ERROR, to_le 4 (- ENODEV) ++ pad 16); (NLMSG_ERROR, to_le 4 0 ++ pad 16)].

Lemma bodies_messages flags seq pid body : fits_in 2 flags -> fits_in 4 seq -> fits_in 4 pid -> body ∈ bodies flags seq pid ->
  Forall (fun m => message_ok m /\ message_of seq pid m /\ m_flags m = flags /\ m_type m <> NLMSG_DONE) body.
Proof.
  intros Hf Hs Hp. unfold bodies.
  assert (Hok : forall ty py, fits_in 2 ty -> ty <> NLMSG_DONE ->
    (ty, py) ∈ [(RTM_NEWLINK, link_payload); (RTM_NEWADDR, addr4_payload); (RTM_NEWADDR, addr6_payload)] ->
    (zlen py <? 8192) && (zlen py mod 4 =? 0) = true ->
    message_ok (mkMessage ty flags seq pid py) /\ message_of seq pid (mkMessage ty flags seq pid py)
    /\ m_flags (mkMessage ty flags seq pid py) = flags /\ m_type (mkMessage ty flags seq pid py) <> NLMSG_DONE).
  { intros ty py Hty Hd Hin Hb. apply andb_true_iff in Hb as [Hb1 Hb2]. bool_facts. split; [|split; [|by split]].
    - unfold message_ok. cbn. repeat (split; [done || lia|]). exists (zlen py / 4). pose proof (Z.div_mod (zlen py) 4). lia.
    - unfold message_of. cbn [m_seq m_pid m_type m_payload]. repeat (split; [done|]). set_solver. }
  assert (Hl : forall l : list Message, l ⊆ [link_message flags seq pid; addr4_message flags seq pid; addr6_message flags seq pid] ->
    Forall (fun m => message_ok m /\ message_of seq pid m /\ m_flags m = flags /\ m_type m <> NLMSG_DONE) l).
  { intros l Hl. apply Forall_forall. intros m Hm. apply Hl in Hm. rewrite !elem_of_cons in Hm.
    destruct Hm as [-> | [-> | [-> | Hm]]]; [..|by apply elem_of_nil in Hm]; (apply Hok; [done|done|set_solver|by vm_compute]). }
  intros Hb. apply Hl. rewrite !elem_of_cons in Hb.
  destruct Hb as [-> | [-> | [-> | [-> | [-> | Hb]]]]]; [..|by apply elem_of_nil in Hb]; set_solver.
Qed.

Lemma done_message_ok seq pid : fits_in 4 seq -> fits_in 4 pid ->
  message_ok (done_message seq pid) /\ message_of seq pid (done_message seq pid).
Proof.
  intros Hs Hp. split.
  - unfold message_ok. cbn [done_message m_type m_flags m_seq m_pid m_payload]. repeat (split; [done|]). by exists 1.
  - unfold message_of. cbn [done_message m_seq m_pid m_type m_payload]. repeat (split; [done|]). set_solver.
Qed.

Lemma error_message_ok seq pid e : fits_in 4 seq -> fits_in 4 pid -> e ∈ [- ENODEV; 0] ->
  message_ok (error_message seq pid e) /\ message_of seq pid (error_message seq pid e) /\ m_type (error_message seq pid e) <> NLMSG_DONE.
Proof.
  intros Hs Hp He. split; [|split; [|done]].
  - unfold message_ok. cbn [error_message m_type m_flags m_seq m_pid m_payload].
    rewrite zlen_app, (zlen_pad 16) by done. unfold zlen. rewrite length_to_le. repeat (split; [done|]). by exists 5.
  - unfold message_of. cbn [error_message m_seq m_pid m_type m_payload]. repeat (split; [done|]).
    rewrite !elem_of_cons in He. destruct He as [-> | [-> | He]]; [set_solver..|by apply elem_of_nil in He].
Qed.

(** The messages before the one that ends a dump. *)
Definition dumped (seq pid : Z) (body : list Message) : Prop :=
  Forall (fun m => message_ok m /\ message_of seq pid m /\ m_type m <> NLMSG_DONE) body.

Lemma shape_messages dump seq pid ms : fits_in 4 seq -> fits_in 4 pid -> reply_shape dump seq pid ms ->
  exists body, dumped seq pid body /\
    if dump then ms = body ++ [done_message seq pid] /\ Forall (fun m => m_flags m = NLM_F_MULTI) body
    else ms = body /\ ms <> [].
Proof.
  intros Hs Hp H. destruct dump; cbn [reply_shape] in H.
  - destruct H as (body & Hb & ->). pose proof (bodies_messages NLM_F_MULTI seq pid body ltac:(done) Hs Hp Hb) as Ha.
    exists body. split; [|split; [done|]]; (eapply Forall_impl; [exact Ha|]); cbn; tauto.
  - destruct H as [[Hb Hne] | (e & He & ->)].
    + pose proof (bodies_messages 0 seq pid ms ltac:(done) Hs Hp Hb) as Ha. exists ms. split; [|done].
      eapply Forall_impl; [exact Ha|]. cbn. tauto.
    + exists [error_message seq pid e]. split; [|done]. apply Forall_singleton. by apply error_message_ok.
Qed.

Lemma dumped_ok seq pid body : dumped seq pid body -> Forall message_ok body /\ Forall (message_of seq pid) body.
Proof. intros H. split; (eapply Forall_impl; [exact H|]); cbn; tauto. Qed.

Lemma encode_all_app ms ms' : encode_all (ms ++ ms') = encode_all ms ++ encode_all ms'.
Proof. unfold encode_all. by rewrite map_app, concat_app. Qed.

(** C33: a request of at least a header always has a reply, whatever its bytes; the
    reply is a sequence of well-formed messages about the loopback that
    carry the sequence number of the request and the identifier of the tracee, and
    a dump is a run of NLM_F_MULTI messages that ends with its only NLMSG_DONE. *)
Theorem netlink_reply_parses pid req : Forall is_byte req -> 16 <= zlen req -> fits_in 4 pid -> exists seq flags ms,
  field req 8 4 = Ok seq /\ field req 6 2 = Ok flags /\ fake_reply MAX_FAKE_NETLINK_REPLY pid req = Ok (encode_all ms)
  /\ parse (length ms) (encode_all ms) = Some ms /\ Forall (message_of seq pid) ms
  /\ exists body, Forall (fun m => m_type m <> NLMSG_DONE) body
     /\ if Z.land flags NLM_F_DUMP =? NLM_F_DUMP
        then ms = body ++ [done_message seq pid] /\ Forall (fun m => m_flags m = NLM_F_MULTI) body
        else ms = body /\ ms <> [].
Proof.
  intros Hr Hl Hp. destruct (fake_reply_shape pid req Hr Hl) as (seq & flags & ms & Es & Hs & Ef & E & H).
  exists seq, flags, ms. destruct (shape_messages _ _ _ _ Hs Hp H) as (body & Hb & Hms). destruct (dumped_ok _ _ _ Hb) as [Hok Hof].
  destruct (done_message_ok seq pid Hs Hp) as [Hd1 Hd2].
  assert (Ha : Forall message_ok ms /\ Forall (message_of seq pid) ms).
  { destruct (Z.land flags NLM_F_DUMP =? NLM_F_DUMP); destruct Hms as [-> _]; [|done].
    rewrite !Forall_app, !Forall_singleton. done. }
  destruct Ha as [Ha1 Ha2]. split_and!; [done..|by apply parse_encode_all|done|]. exists body. split; [|done].
  eapply Forall_impl; [exact Hb|]. cbn. tauto.
Qed.

Definition getlink_dump : list Z := to_le 4 32 ++ to_le 2 RTM_GETLINK ++ to_le 2 (Z.lor NLM_F_DUMP 1) ++ to_le 4 7 ++ to_le 4 0 ++ pad 16.

Lemma netlink_reply_parses_witness : exists seq flags ms,
  field getlink_dump 8 4 = Ok seq /\ field getlink_dump 6 2 = Ok flags
  /\ fake_reply MAX_FAKE_NETLINK_REPLY 42 getlink_dump = Ok (encode_all ms)
  /\ parse (length ms) (encode_all ms) = Some ms /\ Forall (message_of seq 42) ms
  /\ exists body, Forall (fun m => m_type m <> NLMSG_DONE) body
     /\ if Z.land flags NLM_F_DUMP =? NLM_F_DUMP
        then ms = body ++ [done_message seq 42] /\ Forall (fun m => m_flags m = NLM_F_MULTI) body
        else ms = body /\ ms <> [].
Proof. apply (netlink_reply_parses 42 getlink_dump); [repeat constructor; done|done|done]. Defined.

(** ** The datagrams of a reply *)

Lemma field_app pre l i n : 0 <= i -> field (pre ++ l) (zlen pre + i) n = field l i n.
Proof.
  intros Hi. unfold field. pose proof (zlen_nonneg pre). rewrite zlen_app, (proj2 (Z.ltb_ge (zlen pre + i) 0)), (proj2 (Z.ltb_ge i 0)) by lia.
  cbn [orb]. replace (zlen pre + zlen l <? zlen pre + i + n) with (zlen l <? i + n) by (destruct (Z.ltb_spec (zlen l) (i + n)); symmetry; [apply Z.ltb_lt|apply Z.ltb_ge]; lia).
  case_bool; [done|]. unfold slice. do 3 f_equal. unfold zlen. rewrite Z2Nat.inj_add by lia. rewrite Nat2Z.id. by rewrite drop_app_add.
Qed.

Lemma field_app0 pre l n : field (pre ++ l) (zlen pre) n = field l 0 n.
Proof. rewrite <- (field_app pre l 0 n) by done. by rewrite Z.add_0_r. Qed.

Lemma field_header m l : message_ok m ->
  field (encode m ++ l) 0 4 = Ok (zlen (encode m)) /\ field (encode m ++ l) 4 2 = Ok (m_type m).
Proof.
  intros (H2 & H3 & H4 & H5 & Hs & k & Hk). pose proof (zlen_nonneg (m_payload m)) as Hp. pose proof (zlen_nonneg l) as Hl.
  assert (Hf : fits_in 4 (16 + zlen (m_payload m))) by (unfold fits_in; lia).
  destruct (slice_header _ _ _ _ _ (m_payload m ++ l) Hf H2 H3 H4 H5) as (E1 & E2 & _).
  unfold field. rewrite zlen_app, zlen_encode. rewrite !(proj2 (Z.ltb_ge (16 + zlen (m_payload m) + zlen l) _)) by lia.
  cbn [orb Z.ltb Z.compare]. unfold encode. rewrite <- app_assoc. split; f_equal; [exact E1|exact E2].
Qed.

Lemma align_encode m : message_ok m -> NLMSG_ALIGN (zlen (encode m)) = zlen (encode m).
Proof. intros (_ & _ & _ & _ & _ & k & Hk). rewrite zlen_encode, Hk. replace (16 + 4 * k) with (4 * (4 + k)) by lia. apply NLMSG_ALIGN_mult. Qed.

(** Where a datagram ends: at the end of the reply, or before its NLMSG_DONE. *)
Definition ends_datagram (seq pid : Z) (rest : list Z) : Prop := rest = [] \/ rest = encode (done_message seq pid).

Lemma datagram_loop_eq seq pid rest : fits_in 4 seq -> fits_in 4 pid -> ends_datagram seq pid rest ->
  forall ms pre fuel, dumped seq pid ms -> (length ms < fuel)%nat ->
  datagram_loop fuel (pre ++ encode_all ms ++ rest) (zlen pre) = Ok (zlen (pre ++ encode_all ms)).
Proof.
  intros Hs Hp Hrest ms. induction ms as [|m ms IH]; intros pre fuel Hms Hfuel.
  - destruct fuel as [|fuel]; [cbn in Hfuel; lia|]. cbn [encode_all map concat app datagram_loop]. rewrite app_nil_r, zlen_app.
    destruct Hrest as [-> | ->].
    + rewrite (proj2 (Z.leb_gt _ _)) by (change (zlen []) with 0; unfold NLMSG_HDRLEN; lia). done.
    + destruct (done_message_ok seq pid Hs Hp) as [Hd _]. pose proof (field_header _ [] Hd) as [E1 E2]. rewrite app_nil_r in E1, E2.
      rewrite field_app0, field_app, E1, E2 by done. cbn [res_bind].
      change (zlen (encode (done_message seq pid))) with 20. rewrite (proj2 (Z.leb_le _ _)) by (unfold NLMSG_HDRLEN; lia).
      cbn [negb]. change (20 <? NLMSG_HDRLEN) with false. rewrite (proj2 (Z.ltb_ge _ _)) by lia. done.
  - inversion_clear Hms as [|? ? (Hm & _ & Hnd) Hms']. destruct fuel as [|fuel]; [cbn in Hfuel; lia|].
    change (encode_all (m :: ms)) with (encode m ++ encode_all ms). rewrite <- app_assoc. cbn [datagram_loop].
    destruct (field_header m (encode_all ms ++ rest) Hm) as [E1 E2].
    rewrite field_app0, field_app, E1, E2 by done. cbn [res_bind].
    pose proof (zlen_encode m). pose proof (zlen_nonneg (m_payload m)). pose proof (zlen_nonneg (encode_all ms ++ rest)).
    rewrite !zlen_app in *. rewrite (proj2 (Z.leb_le _ _)) by (unfold NLMSG_HDRLEN; lia).
    rewrite (proj2 (Z.ltb_ge _ NLMSG_HDRLEN)), (proj2 (Z.ltb_ge _ _)) by (unfold NLMSG_HDRLEN; lia).
    rewrite (proj2 (Z.eqb_neq _ _)) by done. cbn [negb orb]. rewrite (align_encode m Hm).
    specialize (IH (pre ++ encode m) fuel Hms' ltac:(cbn in Hfuel; lia)). rewrite <- !app_assoc, !zlen_app in IH.
    exact IH.
Qed.

Lemma length_encode_all seq pid ms : dumped seq pid ms -> (length ms <= length (encode_all ms))%nat.
Proof.
  induction 1 as [|m ms _ _ IH]; [done|]. change (encode_all (m :: ms)) with (encode m ++ encode_all ms). rewrite length_app. cbn [length].
  pose proof (zlen_encode m). pose proof (zlen_nonneg (m_payload m)). unfold zlen in *. lia.
Qed.

Lemma datagram_len seq pid ms rest : fits_in 4 seq -> fits_in 4 pid -> ends_datagram seq pid rest -> dumped seq pid ms ->
  fake_netlink_datagram_len (encode_all ms ++ rest)
  = Ok (if zlen (encode_all ms) =? 0 then zlen rest else zlen (encode_all ms)).
Proof.
  intros Hs Hp Hr Hms. unfold fake_netlink_datagram_len.
  pose proof (length_encode_all _ _ _ Hms).
  assert (E : datagram_loop (S (length (encode_all ms ++ rest))) (encode_all ms ++ rest) 0 = Ok (zlen (encode_all ms)))
    by (apply (datagram_loop_eq seq pid rest Hs Hp Hr ms []); [done|rewrite length_app; lia]).
  rewrite E. cbn [res_bind].
  rewrite zlen_app. pose proof (zlen_nonneg rest). f_equal. destruct (Z.eqb_spec (zlen (encode_all ms)) 0); cbn [orb]; [lia|].
  by rewrite (proj2 (Z.ltb_ge _ _)) by lia.
Qed.

(** What successive calls of recvfrom() take, until nothing waits. *)
Fixpoint received_datagrams (fuel : nat) (n : FakeNetlink) : res (list (list Z)) :=
  match fuel with
  | O => Stuck NoFuel
  | S fuel =>
      let! datagram := pending_fake_netlink_datagram n in
      if zlen datagram =? 0 then Ok []
      else let! l := received_datagrams fuel (consume_fake_netlink_datagram (zlen datagram) n) in Ok (datagram :: l)
  end.

Lemma zlen_zero_nil {A} (l : list A) : zlen l = 0 -> l = [].
Proof. destruct l; [done|]. rewrite zlen_cons. pose proof (zlen_nonneg l). lia. Qed.

Lemma take_exact {A} (l l' : list A) : take (Z.to_nat (zlen l)) (l ++ l') = l.
Proof. unfold zlen. by rewrite Nat2Z.id, take_app_length. Qed.

Lemma drop_exact {A} (l l' : list A) : drop (Z.to_nat (zlen l)) (l ++ l') = l'.
Proof. unfold zlen. by rewrite Nat2Z.id, drop_app_length. Qed.

(** A reply from which [pre] was taken already. *)
Definition waits (pre l : list Z) (n : FakeNetlink) : Prop :=
  fake_netlink_reply n = pre ++ l /\ fake_netlink_reply_off n = zlen pre.

Lemma waiting_datagram seq pid ms rest pre n : fits_in 4 seq -> fits_in 4 pid -> ends_datagram seq pid rest -> dumped seq pid ms ->
  waits pre (encode_all ms ++ rest) n -> encode_all ms ++ rest <> [] ->
  pending_fake_netlink_datagram n = Ok (if zlen (encode_all ms) =? 0 then rest else encode_all ms).
Proof.
  intros Hs Hp Hr Hms [Er Eo] Hne. unfold pending_fake_netlink_datagram, pending_reply. rewrite Er, Eo, drop_exact.
  pose proof (zlen_nonneg pre). pose proof (zlen_nonneg (encode_all ms ++ rest)).
  assert (zlen (encode_all ms ++ rest) <> 0) by (by intros ?%zlen_zero_nil).
  rewrite (proj2 (Z.eqb_neq _ _)) by (rewrite zlen_app; lia).
  rewrite (datagram_len seq pid) by done. cbn [res_bind]. f_equal. case_bool.
  - bool_facts. apply zlen_zero_nil in Hb. rewrite Hb. cbn [app]. rewrite <- (app_nil_r rest) at 2. apply take_exact.
  - apply take_exact.
Qed.

Lemma consume_waits pre l l' n : waits pre (l ++ l') n ->
  if zlen l' =? 0 then fake_netlink_reply (consume_fake_netlink_datagram (zlen l) n) = []
  else waits (pre ++ l) l' (consume_fake_netlink_datagram (zlen l) n).
Proof.
  intros [Er Eo]. unfold consume_fake_netlink_datagram. rewrite Er, Eo, !zlen_app. pose proof (zlen_nonneg l'). case_bool; bool_facts.
  - by rewrite (proj2 (Z.leb_le _ _)) by lia.
  - rewrite (proj2 (Z.leb_gt _ _)) by lia. split; cbn; [by rewrite <- app_assoc|by rewrite zlen_app].
Qed.

Lemma nothing_waits n fuel : fake_netlink_reply n = [] -> (0 < fuel)%nat -> received_datagrams fuel n = Ok [].
Proof. intros E Hf. destruct fuel as [|fuel]; [lia|]. cbn [received_datagrams]. unfold pending_fake_netlink_datagram. by rewrite E. Qed.

Lemma received_one pre l n : l <> [] -> waits pre l n -> pending_fake_netlink_datagram n = Ok l -> received_datagrams 2 n = Ok [l].
Proof.
  intros Hne Hw E. cbn [received_datagrams]. rewrite E. cbn [res_bind]. rewrite (proj2 (Z.eqb_neq _ _)) by (by intros ?%zlen_zero_nil).
  assert (Hw' : waits pre (l ++ []) n) by (by rewrite app_nil_r). apply consume_waits in Hw'. cbn [zlen length Z.of_nat Z.eqb] in Hw'.
  unfold pending_fake_netlink_datagram at 1. by rewrite Hw'.
Qed.

(** a reply is received in finitely many datagrams, none of them empty, that
    are the reply when they are put together; the NLMSG_DONE of a dump is a
    datagram of its own, after one for the messages if there are any, and a reply
    that is not a dump is a single datagram. *)
Theorem netlink_datagrams pid req n : Forall is_byte req -> 16 <= zlen req -> fits_in 4 pid -> exists seq flags reply ds,
  field req 8 4 = Ok seq /\ field req 6 2 = Ok flags /\ fake_reply MAX_FAKE_NETLINK_REPLY pid req = Ok reply
  /\ received_datagrams (S (length ds)) (set_reply reply 0 n) = Ok ds /\ concat ds = reply /\ reply <> []
  /\ Forall (fun d => d <> []) ds
  /\ if Z.land flags NLM_F_DUMP =? NLM_F_DUMP
     then exists data, ds = data ++ [encode (done_message seq pid)] /\ (length data <= 1)%nat
     else ds = [reply].
Proof.
  intros Hr Hl Hp. destruct (fake_reply_shape pid req Hr Hl) as (seq & flags & ms & Es & Hs & Ef & E & H).
  destruct (shape_messages _ _ _ _ Hs Hp H) as (body & Hb & Hms). set (d := encode (done_message seq pid)).
  assert (Hd : d <> []) by done. exists seq, flags, (encode_all ms).
  assert (Hw : waits [] (encode_all ms) (set_reply (encode_all ms) 0 n)) by done.
  assert (Hen : forall l, l <> [] -> dumped seq pid l -> encode_all l <> [])
    by (intros l Hl' Hdl Hx; pose proof (length_encode_all _ _ _ Hdl) as Hq; rewrite Hx in Hq; destruct l; [done|cbn in Hq; lia]).
  destruct (Z.land flags NLM_F_DUMP =? NLM_F_DUMP).
  - destruct Hms as [-> _]. assert (Ea : encode_all (body ++ [done_message seq pid]) = encode_all body ++ d)
      by (rewrite encode_all_app; unfold d, encode_all; cbn [map concat]; by rewrite app_nil_r).
    rewrite Ea in *. assert (Hne : encode_all body ++ d <> []) by (by destruct (encode_all body)).
    pose proof (waiting_datagram seq pid body d [] _ Hs Hp (or_intror eq_refl) Hb Hw Hne) as E1. destruct body as [|m body].
    + exists [d]. cbn [encode_all map concat app length zlen Z.of_nat Z.eqb] in *.
      split_and!; [done..|by apply (received_one [] d)|by rewrite app_nil_r|done|by apply Forall_singleton|exists []; split; [done|cbn; lia]].
    + exists [encode_all (m :: body); d]. pose proof (Hen (m :: body) ltac:(done) Hb) as Hbn.
      rewrite (proj2 (Z.eqb_neq _ _)) in E1 by (by intros ?%zlen_zero_nil).
      pose proof (consume_waits _ _ _ _ Hw) as Hw'. rewrite (proj2 (Z.eqb_neq _ _)) in Hw' by done.
      split_and!; [done..| |by cbn [concat]; rewrite app_nil_r|done|by repeat constructor|exists [encode_all (m :: body)]; by split].
      cbn [length]. remember 2%nat as k eqn:Ek. cbn [received_datagrams]. rewrite E1. cbn [res_bind].
      rewrite (proj2 (Z.eqb_neq _ _)) by (by intros ?%zlen_zero_nil). subst k.
      rewrite (received_one _ d _ Hd Hw'); [done|].
      by apply (waiting_datagram seq pid [] d _ _ Hs Hp (or_intror eq_refl) (Forall_nil_2 _) Hw').
  - destruct Hms as [-> Hne]. pose proof (Hen body Hne Hb) as Hbn. exists [encode_all body].
    assert (E1 : pending_fake_netlink_datagram (set_reply (encode_all body) 0 n) = Ok (encode_all body)).
    { pose proof (waiting_datagram seq pid body [] [] (set_reply (encode_all body) 0 n) Hs Hp (or_introl eq_refl) Hb) as Hx.
      rewrite app_nil_r in Hx. rewrite Hx by done. by rewrite (proj2 (Z.eqb_neq _ _)) by (by intros ?%zlen_zero_nil). }
    split_and!; [done..|by apply (received_one [])|by cbn; rewrite app_nil_r|done|by apply Forall_singleton|done].
Qed.

Lemma netlink_datagrams_witness : exists seq flags reply ds,
  field getlink_dump 8 4 = Ok seq /\ field getlink_dump 6 2 = Ok flags /\ fake_reply MAX_FAKE_NETLINK_REPLY 42 getlink_dump = Ok reply
  /\ received_datagrams (S (length ds)) (set_reply reply 0 (mkNetlink [3] [] 0 false)) = Ok ds /\ concat ds = reply /\ reply <> []
  /\ Forall (fun d => d <> []) ds
  /\ if Z.land flags NLM_F_DUMP =? NLM_F_DUMP
     then exists data, ds = data ++ [encode (done_message seq 42)] /\ (length data <= 1)%nat
     else ds = [reply].
Proof. apply (netlink_datagrams 42 getlink_dump (mkNetlink [3] [] 0 false)); [repeat constructor; done|done|done]. Defined.

(** ** The descriptors that are emulated *)

Lemma swap_remove_perm fd l : fd ∈ l -> fd :: swap_remove fd l ≡ₚ l.
Proof.
  induction l as [|x l IH]; intros Hin; [by apply elem_of_nil in Hin|]. cbn [swap_remove]. case_bool; bool_facts.
  - subst. destruct (last l) as [y|] eqn:E.
    + apply last_Some in E as [l' ->]. rewrite removelast_last. by rewrite (Permutation_app_comm l').
    + by apply last_None in E as ->.
  - apply elem_of_cons in Hin as [-> | Hin]; [done|]. rewrite Permutation_swap. by rewrite IH.
Qed.

Lemma swap_remove_absent fd l : fd ∉ l -> swap_remove fd l = l.
Proof.
  induction l as [|x l IH]; intros Hin; [done|]. cbn [swap_remove]. apply not_elem_of_cons in Hin as [Hx Hin].
  case_bool; bool_facts; [by subst|]. by rewrite IH.
Qed.

Lemma is_fake_netlink_fd_true n fd : is_fake_netlink_fd n fd = true <-> 0 <= fd /\ fd ∈ fake_netlink_fds n.
Proof.
  unfold is_fake_netlink_fd. rewrite andb_true_iff, negb_true_iff, Z.ltb_ge, existsb_exists. split.
  - intros [H (x & Hin & ->%Z.eqb_eq)]. split; [done|]. by apply list_elem_of_In.
  - intros [H Hin]. split; [done|]. exists fd. split; [by apply list_elem_of_In|apply Z.eqb_refl].
Qed.

(** The table of descriptors holds each descriptor once, and fits. *)
Definition fds_ok (n : FakeNetlink) : Prop := NoDup (fake_netlink_fds n) /\ zlen (fake_netlink_fds n) <= MAX_FAKE_NETLINK_FDS.

(** the descriptors that are emulated stay distinct and at most eight; closing a
    descriptor forgets it and no other one, and the exit of a substituted socket(2)
    remembers its descriptor when there is room, and forgets none. *)
Theorem netlink_fds_kept n fd : fds_ok n ->
  (fds_ok (unmark_fake_netlink_fd n fd)
   /\ forall fd', is_fake_netlink_fd (unmark_fake_netlink_fd n fd) fd' = is_fake_netlink_fd n fd' && negb (fd' =? fd))
  /\ (fds_ok (mark_fake_netlink_fd n fd) /\ pending_fake_netlink_socket (mark_fake_netlink_fd n fd) = false
      /\ forall fd', is_fake_netlink_fd (mark_fake_netlink_fd n fd) fd'
          = is_fake_netlink_fd n fd'
            || (pending_fake_netlink_socket n && (fd' =? fd) && (0 <=? fd) && (zlen (fake_netlink_fds n) <? MAX_FAKE_NETLINK_FDS))).
Proof.
  intros [Hnd Hl]. split; split.
  - unfold fds_ok, unmark_fake_netlink_fd. cbn [set_fds fake_netlink_fds]. destruct (decide (fd ∈ fake_netlink_fds n)) as [Hin|Hin].
    + pose proof (swap_remove_perm fd _ Hin) as Hp. rewrite <- Hp in Hnd. apply NoDup_cons in Hnd as [_ Hnd]. split; [done|].
      apply Permutation_length in Hp. cbn in Hp. unfold zlen in *. lia.
    + by rewrite swap_remove_absent.
  - intros fd'. apply eq_iff_eq_true. rewrite andb_true_iff, negb_true_iff, !is_fake_netlink_fd_true, Z.eqb_neq.
    unfold unmark_fake_netlink_fd. cbn [set_fds fake_netlink_fds]. destruct (decide (fd ∈ fake_netlink_fds n)) as [Hin|Hin].
    + pose proof (swap_remove_perm fd _ Hin) as Hp. rewrite <- Hp in Hnd. apply NoDup_cons in Hnd as [Hx _].
      rewrite <- Hp at 2. rewrite elem_of_cons. split; [|naive_solver]. intros [H0 H1]. split; [tauto|]. by intros ->.
    + rewrite swap_remove_absent by done. split; [|tauto]. intros [H0 H1]. split; [done|]. by intros ->.
  - unfold mark_fake_netlink_fd. destruct (pending_fake_netlink_socket n) eqn:Ep; cbn [negb]; [|by split].
    unfold fds_ok. cbn [fake_netlink_fds]. case_bool; [|by split]. bool_facts.
    assert (fd ∉ fake_netlink_fds n).
    { intros Hin. destruct (is_fake_netlink_fd n fd) eqn:E; [|rewrite (proj2 (is_fake_netlink_fd_true n fd)) in E; [done|split; [lia|done]]].
      unfold is_fake_netlink_fd in E. apply andb_true_iff in E as [_ E]. congruence. }
    split; [|rewrite zlen_app; change (zlen [fd]) with 1; lia]. apply NoDup_app. split_and!; [done|set_solver|apply NoDup_singleton].
  - unfold mark_fake_netlink_fd. destruct (pending_fake_netlink_socket n) eqn:Ep; cbn [negb]; [|by split; [|intros; rewrite orb_false_r]].
    split; [done|]. intros fd'. apply eq_iff_eq_true. unfold is_fake_netlink_fd. cbn [fake_netlink_fds andb].
    destruct (Z.eqb_spec fd' fd) as [->|Hne]; cbn [andb orb].
    + rewrite !andb_true_iff, orb_true_iff, !andb_true_iff, negb_true_iff, Z.ltb_ge.
      destruct (0 <=? fd) eqn:E1, (zlen (fake_netlink_fds n) <? MAX_FAKE_NETLINK_FDS) eqn:E2, (existsb (Z.eqb fd) (fake_netlink_fds n)) eqn:E3;
        bool_facts; cbn [andb negb]; rewrite ?existsb_app, ?E3; cbn; rewrite ?Z.eqb_refl; naive_solver lia.
    + rewrite orb_false_r. case_bool; [|done]. rewrite existsb_app. cbn [existsb]. rewrite (proj2 (Z.eqb_neq fd' fd)) by done. by rewrite !orb_false_r.
Qed.
