(* ===== verification/Enter.v ===== *)
(** * The entry of system calls (src/syscall/enter.c)

    translate_syscall_enter(): what PRoot does to the arguments of each system call
    before the kernel sees them.  The paths are translated and put in the memory of
    the tracee; some system calls are emulated and voided. *)

From S2P Require Import Prelude Mem Memory Paths Binding ProcLinks Canon Lookup Sysnum Regs Translate SysArgs Mounts Netlink.

(** ** Constants *)

Definition ENOSYS := 38.
Definition AT_SYMLINK_NOFOLLOW := 0x100.
Definition AT_SYMLINK_FOLLOW := 0x400.
Definition AT_EMPTY_PATH := 0x1000.
Definition OPEN_TREE_CLONE := 1.
Definition O_ACCMODE := 3.
Definition O_RDONLY := 0.
Definition O_EXCL := 0x80.
Definition O_NOFOLLOW := 0x8000.
Definition IN_DONT_FOLLOW := 0x02000000.
Definition S_IXUSR := 0x40.
Definition CLONE_NEWTIME := 0x80.
Definition CLONE_NEWNS := 0x20000.
Definition CLONE_NEWCGROUP := 0x2000000.
Definition CLONE_NEWUTS := 0x4000000.
Definition CLONE_NEWIPC := 0x8000000.
Definition CLONE_NEWUSER := 0x10000000.
Definition CLONE_NEWPID := 0x20000000.
Definition CLONE_NEWNET := 0x40000000.
Definition CLONE_NS_MASK : Z :=
  fold_right Z.lor 0 [CLONE_NEWNS; CLONE_NEWUTS; CLONE_NEWIPC; CLONE_NEWUSER; CLONE_NEWPID; CLONE_NEWNET; CLONE_NEWCGROUP; CLONE_NEWTIME].
Definition PR_SET_DUMPABLE := 4.
Definition PR_SET_SECCOMP := 22.
Definition PR_SET_NO_NEW_PRIVS := 38.
Definition PR_GET_NO_NEW_PRIVS := 39.
Definition PR_GET_AUXV := 0x41555856.
Definition SECCOMP_MODE_FILTER := 2.
Definition SYS_BIND := 2.
Definition SYS_CONNECT := 3.
Definition SYS_ACCEPT := 5.
Definition SYS_GETSOCKNAME := 6.
Definition SYS_GETPEERNAME := 7.
Definition SYS_SENDTO := 11.
Definition SYS_SENDMSG := 16.
Definition SYS_ACCEPT4 := 18.
Definition SYS_SENDMMSG := 20.
Definition sizeof_sockaddr_un := 110.
Definition sizeof_open_how := 24.
Definition FICLONE := 0x40049409.
Definition TCGETS := 0x5401.
Definition TCSETS := 0x5402.
Definition TCSETSW := 0x5403.
Definition TCGETS2 := 0x802C542A.
Definition TCSETS2 := 0x402C542B.
Definition TCSETSW2 := 0x402C542C.
Definition TCSETSF2 := 0x402C542D.

(** ** Interfaces *)

(** The notifications of the extensions: a status that is not negative, or an
    error. *)
Class EnterEvents (W Mem : Type) := {
  notify_SYSCALL_ENTER_START : HM W Mem Z;
  notify_SYSCALL_ENTER_END : Z -> HM W Mem Z
}.

(** The network policy correlates the two paths of link(2) and rename(2). *)
Class PathPeers (W : Type) := {
  net_policy_set_path_peer : W -> cstr -> W * status unit;
  net_policy_set_path_operation : W -> NetControlPathOperation -> W * status unit;
  net_policy_clear_path_peer : W -> W;
  shadow_access : W -> cstr -> NetControlPathOperation -> W * status unit
}.

(** The other files of the directory, and what the host answers.  Those that
    replace an address give a positive status, and the new one. *)
Class SysServices (W Mem : Type) := {
  translate_execve_enter : HM W Mem Z;
  translate_ptrace_enter : HM W Mem Z;
  translate_wait_enter : HM W Mem Z;
  translate_brk_enter : HM W Mem unit;
  translate_socketcall_enter : Z -> Z -> HM W Mem (Z * Z);
  translate_send_address : Z -> Z -> HM W Mem (Z * Z);
  translate_sendmsg_enter : Z -> HM W Mem (Z * Z);
  translate_sendmmsg_enter : Z -> Z -> HM W Mem (Z * (Z * Z));
  translate_socketcall_send_enter : Z -> Z -> HM W Mem (Z * Z);
  shadow_pipe_read_end : Z -> HM W Mem unit;
  host_blocks_af_netlink : HM W Mem bool;
  seccomp_ptrace_event_is_supported : bool;
  if_nametoindex : cstr -> Z
}.

(** How a handler ends: at the end of the function, or by returning. *)
Inductive Outcome := Status (status : Z) | Returns (status : Z).

(** Whether the final symlink of a path is dereferenced. *)
Inductive PathType := REGULAR | SYMLINK.

Section Enter.

Context {W Mem : Type} {TM : TraceeMemory Mem} {TS : TraceeStrings Mem}.
Context {K : Kernel W} {E : Extensions W} {V : PathEvents W} {N : PathPolicy W}.
Context {PP : PathPeers W} {EE : EnterEvents W Mem} {SV : SysServices W Mem}.

Abbreviation H A := (HM W Mem A).

Definition set_flag (f : SysFlags -> SysFlags) : H unit := hset (fun x => set_flags (f (x_flags x)) x).
Definition force_fork_sysexit : H unit := wants_sysexit.
Definition keep_pushed_args : H unit := wants_sysexit.

(** The status of a handler is 0 at its end, or what it is given. *)
Definition done0 (m : H unit) : H Outcome := do$ _ := m in hret (Status 0).
Definition with_status (m : H Z) : H Outcome := do$ s := m in hret (Status s).

(** ** Paths *)

Definition translate_path2 (dir_fd : Z) (path : cstr) (reg : Reg) (type : PathType) : H unit :=
  if str_eqb path [] then hret ()
  else
    do$ regs := hget x_regs in
    do$ new_path := on_path (translate_path regs dir_fd path (match type with REGULAR => true | SYMLINK => false end)) in
    set_sysarg_path new_path reg.

(** What the policy and the bindings say of a name that is about to be created. *)
Definition parent_access (regs : Regs) (guest_target : cstr) : M W unit :=
  do! sysnum := lift (get_sysnum regs CURRENT) in
  do! w := get world in
  let operation := match net_policy_path_operation_override w with
                   | Some override => override
                   | None => if sysnum_in sysnum [PR_rename; PR_renameat; PR_renameat2] then NET_CONTROL_PATH_RENAME
                             else NET_CONTROL_PATH_CREATE
                   end in
  do! _ := on_world (fun w => shadow_access w guest_target operation) in
  do! proactive_decision := on_world (fun w => net_policy_path_rule_precheck w guest_target operation) in
  do! w := get world in
  let requires_control := net_policy_path_requires_control w guest_target operation in
  do! _ := (if requires_control && (proactive_decision =? 0)
            then on_world (fun w => net_policy_path_access w guest_target operation NET_CONTROL_REASON_STATIC_POLICY)
            else ret ()) in
  do! f := get fs in
  match check_binding_access f guest_target true with
  | Ok _ => ret ()
  | Stuck w => lift (Stuck w)
  | Err e =>
      if requires_control then fail e
      else
        do! dynamic := attempt (on_world (fun w => net_policy_path_access w guest_target operation
          (if e =? EROFS then NET_CONTROL_REASON_STATIC_RO else NET_CONTROL_REASON_STATIC_POLICY))) in
        match dynamic with inr _ => fail e | inl _ => ret () end
  end.

Definition parent_path (regs : Regs) (dir_fd : Z) (path parent leaf : cstr) : M W cstr :=
  do! translated_parent := translate_path regs dir_fd parent true in
  do! guest_parent := base_of dir_fd path in
  do! guest_parent := canonicalize 5 parent true guest_parent 0 in
  do! guest_parent := lift (chop_finality guest_parent) in
  do! guest_target := lift (join2 guest_parent leaf) in
  do! guest_target := lift (normalize_guest_path guest_target) in
  do! _ := parent_access regs guest_target in
  lift (join2 translated_parent leaf).

(** The directory and the last name of a path. *)
Definition parent_and_leaf (path : cstr) : cstr * cstr :=
  match split_last path with
  | None => (bs ".", path)
  | Some (parent, leaf) => (if str_eqb parent [] then bs "/" else parent, leaf)
  end.

Definition translate_path2_parent (dir_fd : Z) (path : cstr) (reg : Reg) : H unit :=
  if str_eqb path [] then hret ()
  else if is_slash (chr path (length path - 1)) then translate_path2 dir_fd path reg SYMLINK
  else
    let '(parent, leaf) := parent_and_leaf path in
    if PATH_MAX <=? zlen parent then hfail ENAMETOOLONG
    else if str_eqb leaf [] || str_eqb leaf (bs ".") || str_eqb leaf (bs "..") then translate_path2 dir_fd path reg SYMLINK
    else
      do$ regs := hget x_regs in
      do$ translated_path := on_path (parent_path regs dir_fd path parent leaf) in
      set_sysarg_path translated_path reg.

Definition empty_path_at_cwd (dir_fd : Z) (path : cstr) (reg : Reg) (flags : Z) : H cstr :=
  do$ p := peek CURRENT reg in
  hret (if str_eqb path [] && (dir_fd =? AT_FDCWD) && has_flag flags AT_EMPTY_PATH && negb (p =? 0) then bs "." else path).

Definition translate_sysarg (reg : Reg) (type : PathType) : H unit :=
  do$ old_path := get_sysarg_path reg in
  translate_path2 AT_FDCWD old_path reg type.

Definition path_peer_guest (dir_fd : Z) (user_path : cstr) : M W cstr :=
  if absolute user_path then lift (normalize_guest_path (take (Z.to_nat (PATH_MAX - 1)) user_path))
  else
    do! base := (
      if dir_fd =? AT_FDCWD then getcwd2
      else
        do! v := get view in
        do! p := readlink_proc_pid_fd (pid v) dir_fd in
        if absolute p then
          do! f := get fs in
          do! (_, p) := lift (detranslate_path v f p None) in
          ret p
        else ret p) in
    if negb (absolute base) then fail ENOTDIR
    else
      do! p := lift (join2 base user_path) in
      lift (normalize_guest_path p).

(** ** The files of user name-spaces *)

(** [skipn] of a prefix, if it is one. *)
Definition after_prefix (p s : cstr) : option cstr := if begins_with p s then Some (drop (length p) s) else None.

Definition is_proc_userns_file (path : cstr) : bool :=
  match after_prefix (bs "/proc/") path with
  | None => false
  | Some p =>
      let suffix := match after_prefix (bs "self/") p with
                    | Some p => Some p
                    | None =>
                        let '(digits, p) := span is_digit p in
                        match digits, p with
                        | [], _ => None
                        | _, c :: p => if is_slash c then Some p else None
                        | _, [] => None
                        end
                    end in
      match suffix with
      | None => false
      | Some suffix => existsb (str_eqb suffix) [bs "uid_map"; bs "gid_map"; bs "setgroups"]
      end
  end.

Definition maybe_redirect_userns_file (reg : Reg) (flags : Z) : H unit :=
  if Z.land flags O_ACCMODE =? O_RDONLY then hret ()
  else
    do$ r := hattempt (get_sysarg_path reg) in
    match r with
    | inr _ => hret ()
    | inl host_path =>
        if is_proc_userns_file host_path
        then do$ _ := hattempt (set_sysarg_path (bs "/dev/null") reg) in hret ()
        else hret ()
    end.

(** ** Directories *)

Definition set_cwd (p : cstr) : M W unit :=
  fun t => let f := fs t in
           (mkTracee (mkFs (bindings_pending f) (bindings_guest f) (bindings_host f) p)
              (glue t) (glue_type t) (next_addr t) (view t) (world t), Ok ()).

(** The directory a tracee goes to: [None] when it may not. *)
Definition chdir_to (regs : Regs) (dirfd : Z) (oldpath : cstr) : M W bool :=
  do! path := translate_path regs dirfd oldpath true in
  do! w := get world in
  match lstat w path with
  | inr _ => fail EPERM
  | inl mode =>
      if Z.land mode S_IXUSR =? 0 then ret false
      else
        do! v := get view in
        do! f := get fs in
        do! (_, path) := lift (detranslate_path v f path None) in
        do! path := lift (chop_finality path) in
        do! _ := set_cwd path in
        ret true
  end.

Definition handle_chdir (syscall_number : Sysnum) : H Outcome :=
  do$ (dirfd, oldpath) :=
    (if syscall_number =? PR_chdir then
       do$ path := get_sysarg_path SYSARG_1 in
       do$ oldpath := hlift (join2 path (bs ".")) in
       hret (AT_FDCWD, oldpath)
     else
       do$ dirfd := peek_int CURRENT SYSARG_1 in
       hret (dirfd, bs ".")) in
  do$ regs := hget x_regs in
  do$ accessible := on_path (chdir_to regs dirfd oldpath) in
  if accessible : bool then done0 (answer 0) else hret (Returns (- EACCES)).

(** ** Sockets *)

(** An address is replaced when the status is positive. *)
Definition replace {A} (m : H (Z * A)) (k : A -> H unit) : H Outcome :=
  do$ (status, a) := m in
  if status <=? 0 then hret (Status status) else done0 (k a).

Definition handle_bind (syscall_number : Sysnum) : H Outcome :=
  do$ fd := peek_int CURRENT SYSARG_1 in
  do$ n := netlink_of in
  if (syscall_number =? PR_bind) && is_fake_netlink_fd n fd then done0 (answer 0)
  else
    do$ address := peek CURRENT SYSARG_2 in
    do$ size := peek_int CURRENT SYSARG_3 in
    replace (translate_socketcall_enter address size) (fun address =>
      do$ _ := poke SYSARG_2 address in
      poke SYSARG_3 sizeof_sockaddr_un).

(** PEEK_WORD: a word, or the end of the handler. *)
Definition word_or_fail (a : Z) (forced_errno : option Z) : H Z :=
  do$ (v, e) := peek_word (wrap64 a) in
  match e with
  | None => hret v
  | Some e => hfail (default e forced_errno)
  end.

Definition handle_sockname (syscall_number : Sysnum) : H Outcome :=
  let special := sysnum_in syscall_number [PR_accept; PR_accept4] in
  do$ address := peek ORIGINAL SYSARG_2 in
  if special && (address =? 0) then hret (Status 0)
  else
    do$ fd := peek_int CURRENT SYSARG_1 in
    do$ n := netlink_of in
    if negb special && is_fake_netlink_fd n fd then done0 netlink_sockname
    else
      do$ size_addr := peek ORIGINAL SYSARG_3 in
      do$ size := word_or_fail size_addr (if special then Some EINVAL else None) in
      done0 (poke SYSARG_6 (sgn 32 size)).

Definition handle_socket : H Outcome :=
  do$ domain := peek CURRENT SYSARG_1 in
  do$ protocol := peek CURRENT SYSARG_3 in
  do$ blocks := (if (domain =? AF_NETLINK) && (protocol =? NETLINK_ROUTE) then host_blocks_af_netlink else hret false) in
  if blocks : bool then
    do$ type := peek CURRENT SYSARG_2 in
    do$ _ := poke SYSARG_1 AF_UNIX in
    do$ _ := poke SYSARG_2 (Z.lor SOCK_DGRAM (Z.land type SOCK_CLOEXEC)) in
    do$ _ := poke SYSARG_3 0 in
    do$ _ := modify_netlink (fun n => mkNetlink (fake_netlink_fds n) (fake_netlink_reply n) (fake_netlink_reply_off n) true) in
    done0 wants_sysexit
  else hret (Status 0).

(** The handler of a descriptor that is emulated, or the other one. *)
Definition if_fake (m : H unit) (k : H Outcome) : H Outcome :=
  do$ fd := peek_int CURRENT SYSARG_1 in
  do$ n := netlink_of in
  if is_fake_netlink_fd n fd then done0 m else k.

Definition handle_sendto : H Outcome :=
  if_fake netlink_sendto (
    do$ address := peek CURRENT SYSARG_5 in
    do$ size := peek_int CURRENT SYSARG_6 in
    replace (translate_send_address address size) (fun address =>
      do$ _ := poke SYSARG_5 address in
      do$ _ := poke SYSARG_6 sizeof_sockaddr_un in
      keep_pushed_args)).

Definition handle_sendmsg : H Outcome :=
  if_fake netlink_sendmsg (
    do$ msghdr_addr := peek CURRENT SYSARG_2 in
    replace (translate_sendmsg_enter msghdr_addr) (fun msghdr_addr =>
      do$ _ := poke SYSARG_2 msghdr_addr in
      keep_pushed_args)).

Definition handle_sendmmsg : H Outcome :=
  do$ vector := peek CURRENT SYSARG_2 in
  do$ vlen := peek CURRENT SYSARG_3 in
  replace (translate_sendmmsg_enter vector (wrap32 vlen)) (fun '(vector, vlen) =>
    do$ _ := poke SYSARG_2 vector in
    do$ _ := poke SYSARG_3 vlen in
    keep_pushed_args).

Definition handle_socketcall : H Outcome :=
  do$ args_addr := peek CURRENT SYSARG_2 in
  do$ call := peek CURRENT SYSARG_1 in
  do$ w := word_size in
  let SYSARG_ADDR n := args_addr + (n - 1) * w in
  let keep_size (forced_errno : option Z) :=
    do$ size_addr := word_or_fail (SYSARG_ADDR 3) None in
    do$ size := word_or_fail size_addr forced_errno in
    done0 (poke SYSARG_6 (sgn 32 size)) in
  if existsb (Z.eqb call) [SYS_BIND; SYS_CONNECT] then
    do$ sock_addr := word_or_fail (SYSARG_ADDR 2) None in
    do$ size := word_or_fail (SYSARG_ADDR 3) None in
    replace (translate_socketcall_enter sock_addr (sgn 32 size)) (fun address =>
      do$ _ := poke SYSARG_5 sock_addr in
      do$ _ := poke SYSARG_6 size in
      do$ e := poke_word (wrap64 (SYSARG_ADDR 2)) address in
      match e with
      | Some e => hfail e
      | None =>
          do$ e := poke_word (wrap64 (SYSARG_ADDR 3)) sizeof_sockaddr_un in
          match e with Some e => hfail e | None => hret () end
      end)
  else if existsb (Z.eqb call) [SYS_ACCEPT; SYS_ACCEPT4] then
    do$ sock_addr := word_or_fail (SYSARG_ADDR 2) None in
    if sock_addr =? 0 then hret (Status 0) else keep_size (Some EINVAL)
  else if existsb (Z.eqb call) [SYS_GETSOCKNAME; SYS_GETPEERNAME] then keep_size None
  else if existsb (Z.eqb call) [SYS_SENDTO; SYS_SENDMSG; SYS_SENDMMSG] then
    replace (translate_socketcall_send_enter call args_addr) (fun args_addr =>
      do$ _ := poke SYSARG_2 args_addr in
      keep_pushed_args)
  else hret (Status 0).

(** ** Processes *)

Definition handle_execveat : H Outcome :=
  do$ dirfd := peek_int CURRENT SYSARG_1 in
  if dirfd =? AT_FDCWD then
    do$ _ := change_sysnum PR_execve in
    do$ path := peek CURRENT SYSARG_2 in
    do$ _ := poke SYSARG_1 path in
    do$ argv := peek CURRENT SYSARG_3 in
    do$ _ := poke SYSARG_2 argv in
    do$ envp := peek CURRENT SYSARG_4 in
    do$ _ := poke SYSARG_3 envp in
    with_status translate_execve_enter
  else hfail ENOSYS.

Definition strip_newns (flags : Z) : H unit :=
  if has_flag flags CLONE_NEWNS
  then set_flag (set_clone_stripped_newns true)
  else hret ().

Definition handle_clone : H Outcome :=
  do$ flags := peek CURRENT SYSARG_1 in
  do$ _ := (if has_flag flags CLONE_NS_MASK then
              do$ _ := strip_newns flags in
              poke SYSARG_1 (Z.ldiff flags CLONE_NS_MASK)
            else hret ()) in
  done0 force_fork_sysexit.

Definition handle_clone3 : H Outcome :=
  do$ args_addr := peek CURRENT SYSARG_1 in
  do$ _ := (if args_addr =? 0 then hret ()
            else
              do$ (flags, e) := peek_word args_addr in
              if bool_decide (e = None) && has_flag flags CLONE_NS_MASK then
                do$ _ := strip_newns flags in
                do$ _ := poke_word args_addr (Z.ldiff flags CLONE_NS_MASK) in
                hret ()
              else hret ()) in
  done0 force_fork_sysexit.

(** The first argument is read again at each test: it is also the result. *)
Definition handle_prctl : H Outcome :=
  let when (cond : Z -> H bool) (m : H unit) : H unit :=
    do$ option := peek CURRENT SYSARG_1 in
    do$ c := cond option in
    if c : bool then m else hret () in
  let equals (value : Z) (option : Z) : H bool := hret (option =? value) in
  do$ _ := when (equals PR_SET_DUMPABLE) (answer 0) in
  do$ _ := when (fun option =>
                   do$ mode := peek CURRENT SYSARG_2 in
                   hret ((option =? PR_SET_SECCOMP) && (mode =? SECCOMP_MODE_FILTER) && negb seccomp_ptrace_event_is_supported))
             (answer (- EPERM)) in
  do$ _ := when (equals PR_GET_AUXV) wants_sysexit in
  do$ _ := when (equals PR_GET_NO_NEW_PRIVS) (
    do$ f := hget x_flags in
    answer (if no_new_privs f then 1 else 0)) in
  done0 (when (equals PR_SET_NO_NEW_PRIVS) wants_sysexit).

Definition ioctl_terminal (cmd : Z) : H unit :=
  do$ _ := if cmd =? TCSETS + 2 then poke SYSARG_2 TCSETS else hret () in
  do$ _ := if cmd =? TCGETS2 then poke SYSARG_2 TCGETS else hret () in
  do$ _ := if cmd =? TCSETS2 then poke SYSARG_2 TCSETS else hret () in
  do$ _ := if cmd =? TCSETSW2 then poke SYSARG_2 TCSETSW else hret () in
  if cmd =? TCSETSF2 then poke SYSARG_2 TCSETS else hret ().

Definition handle_ioctl : H Outcome :=
  do$ cmd := peek CURRENT SYSARG_2 in
  do$ arg := peek CURRENT SYSARG_3 in
  do$ faked := (if cmd =? SIOCGIFINDEX then maybe_fake_siocgifindex if_nametoindex cmd arg else hret false) in
  if faked : bool then done0 (answer 0)
  else
    do$ _ := ioctl_terminal cmd in
    done0 (if cmd =? FICLONE
           then set_flag (set_sysexit_pending true)
           else hret ()).

(** The names are compared within the 20 bytes of the buffer. *)
Definition handle_memfd_create : H Outcome :=
  do$ addr := peek CURRENT SYSARG_1 in
  do$ name := hget (fun x => read_string (x_mem x) (x_me x) addr 19) in
  match name with
  | inr _ => hret (Status 0)
  | inl name =>
      if begins_with (bs "JITCode:") name || str_eqb name (bs "opcache_lock") || begins_with (bs "lib/apk/exec/") name
      then hfail EACCES else hret (Status 0)
  end.

Definition handle_close : H Outcome :=
  do$ closed_fd := peek_int CURRENT SYSARG_1 in
  do$ _ := set_flag (fun f =>
    if (0 <=? auxv_fd f) && (closed_fd =? auxv_fd f)
    then set_auxv_fd (-1) f else f) in
  do$ _ := modify_netlink (fun n => unmark_fake_netlink_fd n closed_fd) in
  done0 (shadow_pipe_read_end closed_fd).

(** ** Files *)

Definition is_proc_auxv (path : cstr) : bool := str_eqb path (bs "/proc/self/auxv").
Definition open_type (flags : Z) : PathType :=
  if has_flag flags O_NOFOLLOW || (has_flag flags O_EXCL && has_flag flags O_CREAT) then SYMLINK else REGULAR.
Definition type_unless (flags mask : Z) : PathType := if has_flag flags mask then SYMLINK else REGULAR.

Definition handle_open : H unit :=
  do$ flags := peek_int CURRENT SYSARG_2 in
  do$ execfn := hget (fun x => execfn_addr (x_flags x)) in
  do$ addr := peek CURRENT SYSARG_1 in
  do$ path := hget (fun x => read_string (x_mem x) (x_me x) addr PATH_MAX) in
  do$ _ := (if negb (execfn =? 0) && match path with inl p => is_proc_auxv p | inr _ => false end
            then wants_sysexit else hret ()) in
  do$ _ := translate_sysarg SYSARG_1 (open_type flags) in
  maybe_redirect_userns_file SYSARG_1 flags.

Definition handle_openat : H unit :=
  do$ dirfd := peek_int CURRENT SYSARG_1 in
  do$ flags := peek_int CURRENT SYSARG_3 in
  do$ path := get_sysarg_path SYSARG_2 in
  do$ execfn := hget (fun x => execfn_addr (x_flags x)) in
  do$ _ := (if negb (execfn =? 0) && is_proc_auxv path then wants_sysexit else hret ()) in
  do$ _ := translate_path2 dirfd path SYSARG_2 (open_type flags) in
  maybe_redirect_userns_file SYSARG_2 flags.

(** openat2(2) is rewritten into openat(2); what the tracee does not give of the
    structure is 0. *)
Definition handle_openat2 : H unit :=
  do$ how_size := peek CURRENT SYSARG_4 in
  do$ addr := peek CURRENT SYSARG_3 in
  do$ how := peek_data addr (Z.min how_size sizeof_open_how) in
  match how with
  | inr e => hfail e
  | inl how =>
      do$ _ := change_sysnum PR_openat in
      do$ _ := poke SYSARG_3 (of_le (slice 0 8 how)) in
      do$ _ := poke SYSARG_4 (of_le (slice 8 8 how)) in
      handle_openat
  end.

(** A path relative to a descriptor, with flags. *)
Definition path_at (path_reg : Reg) (flags : Z) (type : PathType) : H unit :=
  do$ dirfd := peek_int CURRENT SYSARG_1 in
  do$ path := get_sysarg_path path_reg in
  do$ path := empty_path_at_cwd dirfd path path_reg flags in
  translate_path2 dirfd path path_reg type.

Definition handle_open_tree : H unit :=
  do$ flags := peek_int CURRENT SYSARG_3 in
  if has_flag flags OPEN_TREE_CLONE then hfail ENOSYS
  else path_at SYSARG_2 flags (type_unless flags AT_SYMLINK_NOFOLLOW).

Definition handle_at_flags (syscall_number : Sysnum) : H unit :=
  do$ flags := peek_int CURRENT (if sysnum_in syscall_number [PR_fchownat; PR_name_to_handle_at] then SYSARG_5 else SYSARG_4) in
  path_at SYSARG_2 flags (type_unless flags AT_SYMLINK_NOFOLLOW).

Definition handle_at (syscall_number : Sysnum) : H unit :=
  do$ flags := peek CURRENT SYSARG_4 in
  path_at SYSARG_2 (if syscall_number =? PR_faccessat2 then flags else 0) REGULAR.

Definition handle_statx : H unit :=
  do$ flags := peek CURRENT SYSARG_3 in
  path_at SYSARG_2 flags (type_unless flags AT_SYMLINK_NOFOLLOW).

(** A name that is created. *)
Definition created_at (dirfd : Z) (reg : Reg) : H unit :=
  do$ path := get_sysarg_path reg in
  translate_path2_parent dirfd path reg.
Definition created_at_reg (dirfd_reg reg : Reg) : H unit :=
  do$ dirfd := peek_int CURRENT dirfd_reg in
  created_at dirfd reg.

(** ** Two paths *)

Definition clear_path_peer : H unit := on_path (on_world (fun w => (net_policy_clear_path_peer w, inl ()))).
Definition set_path_peer (p : cstr) : H unit := on_path (on_world (fun w => net_policy_set_path_peer w p)).
Definition set_path_operation (op : NetControlPathOperation) : H unit := on_path (on_world (fun w => net_policy_set_path_operation w op)).

Definition or_clear {A} (m : H A) : H A :=
  do$ r := hattempt m in
  match r with
  | inl a => hret a
  | inr e => do$ _ := clear_path_peer in hfail e
  end.
Definition then_clear (m : H unit) : H unit :=
  do$ r := hattempt m in
  do$ _ := clear_path_peer in
  match r with inl _ => hret () | inr e => hfail e end.

(** The code of link(2), linkat(2), rename(2), renameat(2) and renameat2(2); only
    linkat(2) has [flags], and the two links create their last name. *)
Definition two_paths (olddirfd newdirfd : Z) (old_reg new_reg : Reg) (flags : Z) (old_type : PathType)
    (old_operation new_operation : NetControlPathOperation) (creates : bool) : H unit :=
  do$ oldpath := get_sysarg_path old_reg in
  do$ newpath := get_sysarg_path new_reg in
  do$ path := on_path (path_peer_guest newdirfd newpath) in
  do$ _ := set_path_peer path in
  do$ _ := set_path_operation old_operation in
  do$ oldpath := empty_path_at_cwd olddirfd oldpath old_reg flags in
  do$ _ := or_clear (translate_path2 olddirfd oldpath old_reg old_type) in
  do$ path := or_clear (on_path (path_peer_guest olddirfd oldpath)) in
  do$ _ := set_path_peer path in
  do$ _ := set_path_operation new_operation in
  then_clear (if creates then translate_path2_parent newdirfd newpath new_reg else translate_path2 newdirfd newpath new_reg SYMLINK).

Definition handle_linkat : H unit :=
  do$ olddirfd := peek_int CURRENT SYSARG_1 in
  do$ newdirfd := peek_int CURRENT SYSARG_3 in
  do$ flags := peek_int CURRENT SYSARG_5 in
  two_paths olddirfd newdirfd SYSARG_2 SYSARG_4 flags (if has_flag flags AT_SYMLINK_FOLLOW then REGULAR else SYMLINK)
    NET_CONTROL_PATH_READ NET_CONTROL_PATH_CREATE true.

Definition handle_link_rename (syscall_number : Sysnum) : H unit :=
  if syscall_number =? PR_link
  then two_paths AT_FDCWD AT_FDCWD SYSARG_1 SYSARG_2 0 SYMLINK NET_CONTROL_PATH_READ NET_CONTROL_PATH_CREATE true
  else two_paths AT_FDCWD AT_FDCWD SYSARG_1 SYSARG_2 0 SYMLINK NET_CONTROL_PATH_RENAME NET_CONTROL_PATH_RENAME false.

Definition handle_renameat : H unit :=
  do$ olddirfd := peek_int CURRENT SYSARG_1 in
  do$ newdirfd := peek_int CURRENT SYSARG_3 in
  two_paths olddirfd newdirfd SYSARG_2 SYSARG_4 0 SYMLINK NET_CONTROL_PATH_RENAME NET_CONTROL_PATH_RENAME false.

(** ** The switch *)

(** translate_sysarg() on the first argument, with and without its symlinks. *)
Definition first_path : list Sysnum :=
  [PR_access; PR_acct; PR_chmod; PR_chown; PR_chown32; PR_chroot; PR_getxattr; PR_listxattr; PR_mknod; PR_oldstat; PR_creat;
   PR_removexattr; PR_setxattr; PR_stat; PR_stat64; PR_statfs; PR_statfs64; PR_swapoff; PR_swapon; PR_truncate; PR_truncate64;
   PR_uselib; PR_utime; PR_utimes].
Definition first_path_nofollow : list Sysnum :=
  [PR_readlink; PR_lchown; PR_lchown32; PR_lgetxattr; PR_llistxattr; PR_lremovexattr; PR_lsetxattr; PR_lstat; PR_lstat64;
   PR_oldlstat; PR_unlink; PR_rmdir].

Definition handle_paths (s : Sysnum) : option (H unit) :=
  let among := sysnum_in s in
  if among first_path then Some (translate_sysarg SYSARG_1 REGULAR)
  else if s =? PR_open_tree then Some handle_open_tree
  else if s =? PR_open then Some handle_open
  else if among [PR_fchownat; PR_fchmodat2; PR_fstatat64; PR_newfstatat; PR_utimensat; PR_name_to_handle_at] then Some (handle_at_flags s)
  else if among [PR_fchmodat; PR_faccessat; PR_faccessat2; PR_futimesat; PR_mknodat] then Some (handle_at s)
  else if s =? PR_inotify_add_watch then
    Some (do$ flags := peek_int CURRENT SYSARG_3 in translate_sysarg SYSARG_2 (type_unless flags IN_DONT_FOLLOW))
  else if among first_path_nofollow then Some (translate_sysarg SYSARG_1 SYMLINK)
  else if s =? PR_mkdir then Some (created_at AT_FDCWD SYSARG_1)
  else if s =? PR_linkat then Some handle_linkat
  else if s =? PR_openat2 then Some handle_openat2
  else if s =? PR_openat then Some handle_openat
  else if among [PR_readlinkat; PR_unlinkat] then Some (path_at SYSARG_2 0 SYMLINK)
  else if s =? PR_mkdirat then Some (created_at_reg SYSARG_1 SYSARG_2)
  else if among [PR_link; PR_rename] then Some (handle_link_rename s)
  else if among [PR_renameat; PR_renameat2] then Some handle_renameat
  else if s =? PR_symlink then Some (created_at AT_FDCWD SYSARG_2)
  else if s =? PR_symlinkat then Some (created_at_reg SYSARG_2 SYSARG_3)
  else if s =? PR_statx then Some handle_statx
  else None.

Definition handle_others (s : Sysnum) : H Outcome :=
  let among := sysnum_in s in
  if s =? PR_execve then with_status translate_execve_enter
  else if s =? PR_execveat then handle_execveat
  else if s =? PR_ptrace then with_status translate_ptrace_enter
  else if among [PR_wait4; PR_waitpid] then with_status translate_wait_enter
  else if s =? PR_brk then done0 translate_brk_enter
  else if s =? PR_getcwd then done0 (answer 0)
  else if among [PR_fchdir; PR_chdir] then handle_chdir s
  else if among [PR_bind; PR_connect] then handle_bind s
  else if among [PR_accept; PR_accept4; PR_getsockname; PR_getpeername] then handle_sockname s
  else if s =? PR_socket then handle_socket
  else if s =? PR_sendto then handle_sendto
  else if s =? PR_sendmsg then handle_sendmsg
  else if s =? PR_sendmmsg then handle_sendmmsg
  else if s =? PR_recvfrom then if_fake netlink_recvfrom (hret (Status 0))
  else if s =? PR_recvmsg then if_fake netlink_recvmsg (hret (Status 0))
  else if s =? PR_socketcall then handle_socketcall
  else if among [PR_unshare; PR_setns] then done0 (answer 0)
  else if among [PR_umount; PR_umount2] then done0 (do$ _ := apply_emulated_umount in answer 0)
  else if s =? PR_clone then handle_clone
  else if s =? PR_clone3 then handle_clone3
  else if among [PR_fork; PR_vfork] then done0 force_fork_sysexit
  else if s =? PR_mount then done0 (do$ _ := apply_emulated_mount in answer 0)
  else if s =? PR_pivot_root then done0 (do$ _ := apply_emulated_pivot_root in answer 0)
  else if among [PR_fsopen; PR_fsconfig; PR_fsmount; PR_fspick; PR_move_mount; PR_mount_setattr; PR_open_tree_attr] then hfail ENOSYS
  else if s =? PR_prctl then handle_prctl
  else if s =? PR_ioctl then handle_ioctl
  else if s =? PR_memfd_create then handle_memfd_create
  else if s =? PR_close then handle_close
  else hret (Status 0).

(** The cases of the switch are distinct: their order does not matter. *)
Definition handle_syscall (s : Sysnum) : H Outcome :=
  match handle_paths s with
  | Some m => done0 m
  | None => handle_others s
  end.

(** The end of the function: the extensions are told of the status. *)
Definition end_status (status : Z) : H Z :=
  do$ _ := notify_SYSCALL_ENTER_END status in
  if status <? 0 then hfail (- status) else hret status.
Definition end_error (e : Z) : H Z := do$ _ := notify_SYSCALL_ENTER_END (- e) in hfail e.

Definition translate_syscall_enter : H Z :=
  do$ start := hattempt notify_SYSCALL_ENTER_START in
  match start with
  | inr e => end_error e
  | inl status =>
      if 0 <? status then hret 0
      else
        do$ s := sysnum_of ORIGINAL in
        do$ outcome := hattempt (handle_syscall s) in
        match outcome with
        | inl (Status status) => end_status status
        | inl (Returns status) => if status <? 0 then hfail (- status) else hret status
        | inr e => end_error e
        end
  end.

End Enter.

(** ** What is put in place of the paths *)

Section SteadyPaths.

Context {W : Type} {K : Kernel W} {E : Extensions W} {V : PathEvents W} {N : PathPolicy W} {PP : PathPeers W}.

Lemma path_peer_guest_steady dir_fd u : steady (path_peer_guest dir_fd u).
Proof. unfold path_peer_guest, readlink_proc_pid_fd, getcwd2. steady. Qed.

Lemma parent_path_steady regs dir_fd path parent leaf : steady (parent_path regs dir_fd path parent leaf).
Proof. unfold parent_path, parent_access. steady. Qed.

End SteadyPaths.

(** How Linux looks a path up: the last symlink is followed, or it is not, or the
    last name is created. *)
Inductive How := Follows | Keeps | Creates.

(** The last name of a path is one to create. *)
Definition proper_leaf (u : cstr) : bool :=
  let leaf := snd (parent_and_leaf u) in
  negb (is_slash (chr u (length u - 1)) || str_eqb leaf [] || str_eqb leaf (bs ".") || str_eqb leaf (bs "..")).

Lemma hbind_inv {W Mem A B} (m : HM W Mem A) k x x' (b : B) : hbind m k x = (x', Ok b) ->
  exists x1 a, m x = (x1, Ok a) /\ k a x1 = (x', Ok b).
Proof. unfold hbind. destruct (m x) as [x1 [a|e|w]]; [eauto|done..]. Qed.

Lemma hattempt_inv {W Mem A} (m : HM W Mem A) x x' r : hattempt m x = (x', Ok r) ->
  match r with inl a => m x = (x', Ok a) | inr e => m x = (x', Err e) end.
Proof. unfold hattempt. destruct (m x) as [x1 [a|e|w]]; by intros [= <- <-]. Qed.

Lemma on_path_inv {W Mem A} (m : M W A) (x x' : SysState W Mem) r : on_path m x = (x', r) ->
  exists t, m (x_path x) = (t, r) /\ x' = mkSys (x_regs x) (x_mem x) (x_me x) (x_sysenter x) t (x_flags x) (x_netlink x).
Proof. unfold on_path. destruct (m (x_path x)) as [t r']. intros [= <- <-]. eauto. Qed.

(** Takes the first computation of a hypothesis apart. *)
Ltac hstep H x a :=
  let E := fresh "E" in
  apply hbind_inv in H as (x & a & E & H);
  repeat match type of E with
  | hget _ _ = _ => injection E as <- <-
  | peek _ _ _ = _ => injection E as <- <-
  | peek_int _ _ _ = _ => injection E as <- <-
  | peek_data _ _ _ = _ => injection E as <- <-
  end.

Section Args.

Context {W Mem : Type} {TM : TraceeMemory Mem} {TS : TraceeStrings Mem} {MC : MemoryContents Mem}.
Context {ML : MemoryContentsLaws Mem TM TS MC}.
Context {K : Kernel W} {E : Extensions W} {L : KernelLaws W K}.
Context {V : PathEvents W} {N : PathPolicy W} {TE : TransparentEvents W V}.
Context {PP : PathPeers W}.
Context (f : FileSystemNameSpace) (root : list cstr) (l k : list Binding) (v : ProcView).
Hypothesis Hroot : rooted f root.
Hypothesis Hwf : fs_wf f.
Hypothesis Hsz : fs_sized f.
Hypothesis Hl : bindings_guest f = Some l.
Hypothesis Hk : bindings_host f = Some k.
Hypothesis Hv : view_ok v.
Hypothesis Hcwd : nul_free (cwd f) /\ cwd f <> [].

Abbreviation State := (SysState W Mem).
Abbreviation sp x := (peek_reg (x_regs x) CURRENT STACK_POINTER).
Abbreviation reg x r := (peek_reg (x_regs x) CURRENT r).

(** The registers of arguments. *)
Definition is_arg (r : Reg) : bool :=
  match r with SYSARG_1 | SYSARG_2 | SYSARG_3 | SYSARG_4 | SYSARG_5 | SYSARG_6 => true | _ => false end.

Record good (x : State) : Prop := {
  g_regs : regs_ok (x_regs x);
  g_path : stable f v (x_path x);
  g_num : exists s, get_sysnum (x_regs x) CURRENT = Ok s
}.

(** Some path is put somewhere below the stack pointer for the argument [r]; what
    is above is left, and the other arguments too. *)
Record framed (r : Reg) (x x' : State) : Prop := {
  fr_me : x_me x' = x_me x;
  fr_sp : sp x' <= sp x;
  fr_kept : forall b bytes, sp x <= b -> holds_at (x_mem x) (x_me x) b bytes -> holds_at (x_mem x') (x_me x) b bytes;
  fr_regs : forall r', is_arg r' = true -> r' <> r -> reg x' r' = reg x r'
}.

Lemma framed_refl r x : framed r x x.
Proof. by split. Qed.

Lemma framed_trans r x y z : framed r x y -> framed r y z -> framed r x z.
Proof.
  intros [H1 H2 H3 H4] [H5 H6 H7 H8]. split; [congruence|lia| |].
  - intros b bytes Hb Hh. rewrite <- H1. apply H7; [lia|]. rewrite H1. by apply H3.
  - intros r' Ha Hr. rewrite H8, H4 by done. done.
Qed.

(** The argument points to a path, above the stack pointer. *)
Definition placed (x : State) (r : Reg) (p : cstr) : Prop :=
  holds_at (x_mem x) (x_me x) (reg x r) (p ++ [0]) /\ sp x <= reg x r.

Lemma placed_kept r r' x x' p : framed r' x x' -> reg x' r = reg x r -> placed x r p -> placed x' r p.
Proof. intros [H1 H2 H3 H4] Er [Hh Hs]. unfold placed. rewrite Er. split; [|lia]. rewrite H1. by apply H3. Qed.

Lemma placed_framed r r' x x' p : is_arg r = true -> r <> r' -> framed r' x x' -> placed x r p -> placed x' r p.
Proof. intros Ha Hr Hf. apply (placed_kept r r'); [done|]. by apply Hf. Qed.

Lemma get_sysnum_poke g r value : regs_ok g -> same_slot r SYSARG_NUM = false ->
  get_sysnum (poke_reg g r value) CURRENT = get_sysnum g CURRENT.
Proof. intros Hg Hr. unfold get_sysnum, get_abi. by rewrite poke_reg_mode, peek_poke_reg, Hr by done. Qed.

Lemma is_arg_slots r : is_arg r = true ->
  same_slot r SYSARG_NUM = false /\ same_slot r STACK_POINTER = false /\ same_slot STACK_POINTER r = false
  /\ (forall r', is_arg r' = true -> same_slot r r' = bool_decide (r = r')).
Proof. destruct r; intros H; try done; (split_and!; [done..|]); intros []; done. Qed.

(** A stack pointer that was lowered. *)
Lemma alloc_mem_below g n g' a b : regs_ok g -> 0 < n -> alloc_mem b g n = Ok (g', a) -> a <> 0 ->
  a = peek_reg g CURRENT STACK_POINTER - n /\ g' = poke_reg g STACK_POINTER a /\ wrap64 a = a /\ wrap (reg_bits g) a = a.
Proof.
  intros Hg Hn Ea Ha. unfold alloc_mem in Ea. destruct b; [|done]. cbn [res_bind] in Ea.
  pose proof (peek_reg_range g CURRENT STACK_POINTER Hg) as Hrange.
  assert (Hbits : 2 ^ reg_bits g <= 2 ^ 64) by (unfold reg_bits; destruct (is_aarch32 _); lia).
  case_bool_in Ea; [by injection Ea as <- <-|]. apply orb_false_iff in Hb as [Hb _]. rewrite (proj2 (Z.ltb_lt 0 n)) in Hb by done.
  cbn [andb] in Hb. bool_facts. injection Ea as <- <-. unfold wrap64, wrap in *. rewrite !Z.mod_small; [done|lia..].
Qed.

Lemma alloc_mem_null g n g' b : regs_ok g -> 0 < n -> alloc_mem b g n = Ok (g', 0) -> g' = g.
Proof.
  intros Hg Hn Ea. unfold alloc_mem in Ea. destruct b; [|done]. cbn [res_bind] in Ea.
  pose proof (peek_reg_range g CURRENT STACK_POINTER Hg) as Hrange.
  assert (Hbits : 2 ^ reg_bits g <= 2 ^ 64) by (unfold reg_bits; destruct (is_aarch32 _); lia).
  case_bool_in Ea; [by injection Ea as <-|]. apply orb_false_iff in Hb as [Hb _]. rewrite (proj2 (Z.ltb_lt 0 n)) in Hb by done.
  cbn [andb] in Hb. bool_facts. injection Ea as _ Ea. unfold wrap64, wrap in Ea. rewrite Z.mod_small in Ea; lia.
Qed.

(** Something is written below the stack pointer, which is lowered. *)
Lemma written_below x a bytes m e r : good x -> a = sp x - zlen bytes -> wrap (reg_bits (x_regs x)) a = a ->
  write_data (x_mem x) (x_me x) a bytes = (m, e) ->
  let x' := set_mem m (set_regs (poke_reg (x_regs x) STACK_POINTER a) x) in
  good x' /\ framed r x x' /\ sp x' = a /\ forall r', is_arg r' = true -> reg x' r' = reg x r'.
Proof.
  intros [Hg Hp (s & Hs)] Ha Hw Ed. assert (Esp : peek_reg (poke_reg (x_regs x) STACK_POINTER a) CURRENT STACK_POINTER = a)
    by (rewrite peek_poke_reg by done; exact Hw).
  assert (Hr : forall r', is_arg r' = true -> peek_reg (poke_reg (x_regs x) STACK_POINTER a) CURRENT r' = reg x r').
  { intros r' Ha'. rewrite peek_poke_reg by done. by destruct (is_arg_slots r' Ha') as (_ & _ & -> & _). }
  pose proof (zlen_nonneg bytes). split; [|split; [|done]].
  - split; cbn; [by apply poke_reg_ok|done|]. exists s. by rewrite get_sysnum_poke.
  - split; cbn; [done|rewrite Esp; lia| |intros; by apply Hr].
    intros b bytes' Hge Hh. eapply kept; [exact Ed|exact Hh|]. right. lia.
Qed.

Lemma poke_arg x r a : good x -> is_arg r = true -> wrap (reg_bits (x_regs x)) a = a ->
  let x' := set_regs (poke_reg (x_regs x) r a) x in
  good x' /\ framed r x x' /\ sp x' = sp x /\ reg x' r = a.
Proof.
  intros [Hg Hp (s & Hs)] Ha Hw. destruct (is_arg_slots r Ha) as (Hn & Hsp & _ & Hrr). split; [|split; [|split]].
  - split; cbn; [by apply poke_reg_ok|done|]. exists s. by rewrite get_sysnum_poke.
  - split; cbn; [done|by rewrite peek_poke_reg, Hsp by done|done|]. intros r' Ha' Hne.
    rewrite peek_poke_reg, Hrr by done. by rewrite bool_decide_eq_false_2 by congruence.
  - cbn. by rewrite peek_poke_reg, Hsp by done.
  - cbn. rewrite peek_poke_reg, Hrr by done. by rewrite bool_decide_eq_true_2.
Qed.

Lemma set_sysarg_path_any p r x x' res : is_arg r = true -> good x -> set_sysarg_path p r x = (x', res) ->
  match res with
  | Ok _ => good x' /\ framed r x x' /\ placed x' r p
  | Err _ => good x' /\ framed r x x' /\ reg x' r = reg x r
  | Stuck _ => True
  end.
Proof.
  intros Ha Hx H. unfold set_sysarg_path, set_sysarg_data, hbind in H.
  assert (Hlen : 0 < zlen (p ++ [0])) by (rewrite zlen_app; change (zlen [0]) with 1; pose proof (zlen_nonneg p); lia).
  destruct (alloc_mem _ _ _) as [[g a]|e|w] eqn:Ea; [|by injection H as <- <-; split; [|split; [apply framed_refl|]]|by injection H as <- <-].
  case_bool_in H; bool_facts.
  { injection H as <- <-. subst a. pose proof (alloc_mem_null _ _ _ _ (g_regs _ Hx) Hlen Ea) as ->.
    destruct Hx. split; [by split|]. by split. }
  destruct (alloc_mem_below _ _ _ _ _ (g_regs _ Hx) Hlen Ea Hb) as (Ea' & -> & W1 & W2).
  unfold poke_data in H. cbn [set_regs x_mem x_me] in H. destruct (write_data _ _ _ _) as [m e] eqn:Ed.
  destruct (written_below x a (p ++ [0]) m e r Hx Ea' W2 Ed) as (G1 & G2 & G3 & G4).
  destruct e as [e|]; [injection H as <- <-; by split; [|split; [|apply G4]]|]. unfold poke, hset in H. rewrite W1 in H. injection H as <- <-.
  destruct (poke_arg (set_mem m (set_regs (poke_reg (x_regs x) STACK_POINTER a) x)) r a G1 Ha) as (P1 & P2 & P3 & P4).
  { cbn. unfold reg_bits in *. by rewrite poke_reg_mode. }
  split; [exact P1|]. split; [by eapply framed_trans|].
  unfold placed. cbn in P3, P4, G3 |- *. rewrite P4, P3, G3. split; [by eapply written|lia].
Qed.

Lemma set_sysarg_path_placed p r x x' : is_arg r = true -> good x -> set_sysarg_path p r x = (x', Ok ()) ->
  good x' /\ framed r x x' /\ placed x' r p.
Proof. intros Ha Hx H. by apply set_sysarg_path_any in H. Qed.

(** ** Paths that are translated *)

(** What translate_path() gives, in the name-space of the tracee: the host path of
    the guest path that [u] stands for. *)
Definition resolves (dir_fd : Z) (u : cstr) (deref : bool) (p : cstr) : Prop :=
  exists regs s t, get_sysnum regs CURRENT = Ok s /\ stable f v t /\ snd (translate_path regs dir_fd u deref t) = Ok p.

Definition kept_or_followed (dir_fd : Z) (u : cstr) (deref : bool) (p : cstr) : Prop :=
  resolves dir_fd u deref p /\ translated f l v dir_fd u deref p.

Definition resolved (how : How) (dir_fd : Z) (u p : cstr) : Prop :=
  match how with
  | Follows => kept_or_followed dir_fd u true p
  | Keeps => kept_or_followed dir_fd u false p
  | Creates =>
      if proper_leaf u
      then exists q, kept_or_followed dir_fd (fst (parent_and_leaf u)) true q /\ join2 q (snd (parent_and_leaf u)) = Ok p
      else kept_or_followed dir_fd u false p
  end.

Lemma translated_resolves regs s t dir_fd u deref t' p : get_sysnum regs CURRENT = Ok s -> stable f v t -> nul_free u ->
  translate_path regs dir_fd u deref t = (t', Ok p) -> stable f v t' /\ kept_or_followed dir_fd u deref p.
Proof.
  intros Hs Ht Hu Et. pose proof (translate_path_ok f root l k v Hroot Hwf Hsz Hl Hk Hv Hcwd regs s dir_fd u deref Hs Hu t Ht) as [H1 H2].
  rewrite Et in H1, H2. split; [done|]. split; [|done]. exists regs, s, t. by rewrite Et.
Qed.

Lemma good_path x t : good x -> stable f v t -> good (mkSys (x_regs x) (x_mem x) (x_me x) (x_sysenter x) t (x_flags x) (x_netlink x)).
Proof. by intros [H1 H2 H3] Ht. Qed.

(** Nothing the tracee sees changed. *)
Definition untouched (x x' : State) : Prop := x_regs x' = x_regs x /\ x_mem x' = x_mem x /\ x_me x' = x_me x.

(** The effect of a handler on one argument, which was the path [u]. *)
Definition put (how : How) (dir_fd : Z) (u : cstr) (r : Reg) (x x' : State) : Prop :=
  good x' /\ framed r x x'
  /\ (u = [] /\ untouched x x' \/ u <> [] /\ exists p, placed x' r p /\ resolved how dir_fd u p).

Lemma translate_path2_put dir_fd u r type x x' : is_arg r = true -> good x -> nul_free u ->
  translate_path2 dir_fd u r type x = (x', Ok ()) ->
  put (match type with REGULAR => Follows | SYMLINK => Keeps end) dir_fd u r x x'.
Proof.
  intros Ha Hx Hu H. unfold translate_path2 in H. case_bool_in H.
  { injection H as <-. bool_facts. split; [done|]. split; [apply framed_refl|by left]. }
  bool_facts. hstep H x1 regs. hstep H x2 p. apply on_path_inv in E0 as (t & Et & ->).
  destruct (g_num _ Hx) as [s Hs]. destruct (translated_resolves _ _ _ _ _ _ _ _ Hs (g_path _ Hx) Hu Et) as [Ht Hp].
  apply set_sysarg_path_placed in H as (H1 & [H2 H3 H4 H5] & H6); [|done|by apply good_path].
  split; [done|]. split; [by split|]. right. split; [done|]. exists p. split; [done|]. by destruct type.
Qed.

Lemma parent_and_leaf_nul_free u : nul_free u -> nul_free (fst (parent_and_leaf u)).
Proof.
  intros Hu. unfold parent_and_leaf, split_last. destruct (span not_slash (rev u)) as [a [|c b]] eqn:Hs; cbn [fst snd]; [by repeat constructor|].
  apply span_app in Hs.
  case_bool; [by repeat constructor|]. unfold nul_free in *. rewrite <- (rev_involutive u), Hs, rev_app_distr in Hu.
  cbn [rev] in Hu. by apply Forall_app in Hu as [[Hu _]%Forall_app _].
Qed.

Lemma parent_path_resolved regs s dir_fd u t t' p : get_sysnum regs CURRENT = Ok s -> stable f v t -> nul_free u ->
  parent_path regs dir_fd u (fst (parent_and_leaf u)) (snd (parent_and_leaf u)) t = (t', Ok p) ->
  stable f v t' /\ exists q, kept_or_followed dir_fd (fst (parent_and_leaf u)) true q /\ join2 q (snd (parent_and_leaf u)) = Ok p.
Proof.
  intros Hs Ht Hu Et. pose proof (parent_path_steady regs dir_fd u (fst (parent_and_leaf u)) (snd (parent_and_leaf u)) f v t Ht) as [Ht' _].
  rewrite Et in Ht'. split; [done|]. unfold parent_path, bind in Et.
  destruct (translate_path regs dir_fd (fst (parent_and_leaf u)) true t) as [t1 [q|e|w]] eqn:E1; [|done|done].
  exists q. split; [eapply translated_resolves; [exact Hs|exact Ht|by apply parent_and_leaf_nul_free|exact E1]|].
  repeat match type of Et with (match ?m with _ => _ end) = _ => destruct m as [? [?|?|?]]; [|done|done] end.
  by injection Et.
Qed.

Lemma translate_path2_parent_put dir_fd u r x x' : is_arg r = true -> good x -> nul_free u ->
  translate_path2_parent dir_fd u r x = (x', Ok ()) -> put Creates dir_fd u r x x'.
Proof.
  intros Ha Hx Hu H. unfold translate_path2_parent in H. case_bool_in H.
  { injection H as <-. bool_facts. split; [done|]. split; [apply framed_refl|by left]. }
  assert (Hkeep : proper_leaf u = false -> translate_path2 dir_fd u r SYMLINK x = (x', Ok ()) -> put Creates dir_fd u r x x').
  { intros Hpl H'. apply translate_path2_put in H' as (H1 & H2 & H3); [|done..]. split; [done|]. split; [done|].
    unfold resolved. by rewrite Hpl. }
  unfold proper_leaf in Hkeep. case_bool_in H; [by apply Hkeep|]. destruct (parent_and_leaf u) as [parent leaf] eqn:El. cbn [fst snd] in *.
  case_bool_in H; [done|]. case_bool_in H; [apply Hkeep; [|done]; apply negb_false_iff; rewrite <- !orb_assoc in *; rewrite Hb2; apply orb_true_r|].
  assert (Hpl : proper_leaf u = true)
    by (unfold proper_leaf; rewrite El; cbn [snd]; apply negb_true_iff; rewrite <- !orb_assoc in *; by rewrite Hb2, orb_false_r).
  bool_facts. hstep H x1 regs. hstep H x2 p. apply on_path_inv in E0 as (t & Et & ->).
  destruct (g_num _ Hx) as [s Hs]. pose proof (parent_path_resolved (x_regs x) s dir_fd u (x_path x) t p Hs (g_path _ Hx) Hu) as Hp.
  rewrite El in Hp. destruct (Hp Et) as (Ht & q & Hq & Hj).
  apply set_sysarg_path_placed in H as (G1 & [G2 G3 G4 G5] & G6); [|done|by apply good_path].
  split; [done|]. split; [by split|]. right. split; [done|]. exists p. split; [done|]. unfold resolved. rewrite Hpl, El. by exists q.
Qed.

Lemma get_sysarg_path_inv r (x x' : State) res : get_sysarg_path r x = (x', res) ->
  x' = x /\ match res with Ok u => nul_free u | _ => True end.
Proof.
  unfold get_sysarg_path, hbind, peek, hget. intros H. case_bool_in H; [injection H as <- <-; by split; [|constructor]|].
  destruct (read_string _ _ _ _) as [u|e] eqn:Er; [|by injection H as <- <-].
  case_bool_in H; injection H as <- <-; (split; [done|]); [done|]. by apply read_string_content in Er as [? _].
Qed.

Lemma get_sysarg_path_same r (x y : State) : reg y r = reg x r -> x_mem y = x_mem x -> x_me y = x_me x ->
  snd (get_sysarg_path r y) = snd (get_sysarg_path r x).
Proof.
  intros U1 U2 U3. unfold get_sysarg_path, hbind, peek, hget. rewrite U1. case_bool; [done|]. rewrite U2, U3.
  destruct (read_string _ _ _ _); [|done]. by case_bool.
Qed.

(** ** The arguments of the handlers *)

(** What becomes of an argument that is a path: nothing if it is empty; otherwise
    it points to what is found for it, relative to [dir_fd].  The file opened may
    be replaced by /dev/null. *)
Definition argument (how : How) (opened : bool) (dir_fd : Z) (r : Reg) (x x' : State) : Prop :=
  exists u, get_sysarg_path r x = (x, Ok u) /\
    (u = [] /\ reg x' r = reg x r
     \/ exists u' p, (u' = u \/ u = [] /\ u' = bs "." /\ dir_fd = AT_FDCWD) /\ u' <> [] /\ placed x' r p
          /\ (resolved how dir_fd u' p \/ opened = true /\ p = bs "/dev/null")).

Definition handled (how : How) (opened : bool) (dir_fd : Z) (r : Reg) (x x' : State) : Prop :=
  good x' /\ framed r x x' /\ argument how opened dir_fd r x x'.

Definition how_of (type : PathType) : How := match type with REGULAR => Follows | SYMLINK => Keeps end.

Lemma put_argument how opened dir_fd r (x y z : State) u u' : get_sysarg_path r x = (x, Ok u) ->
  (u' = u \/ u = [] /\ u' = bs "." /\ dir_fd = AT_FDCWD) -> reg y r = reg x r -> put how dir_fd u' r y z -> argument how opened dir_fd r x z.
Proof.
  intros Hu Hu' Hr (H1 & H2 & H3). exists u. split; [done|]. destruct H3 as [[-> (H3 & _)]|(Hne & p & Hp & Hres)].
  - left. rewrite H3. destruct Hu' as [<- | (_ & Hu' & _)]; [done|by apply (f_equal length) in Hu'].
  - right. exists u', p. split_and!; [done..|by left].
Qed.

Lemma put_handled how opened dir_fd r (x x' : State) u u' : get_sysarg_path r x = (x, Ok u) ->
  (u' = u \/ u = [] /\ u' = bs "." /\ dir_fd = AT_FDCWD) -> put how dir_fd u' r x x' -> handled how opened dir_fd r x x'.
Proof. intros Hu Hu' Hp. pose proof Hp as (H1 & H2 & _). split; [done|]. split; [done|]. by eapply put_argument. Qed.

Lemma argument_framed how opened dir_fd r r' x y z : is_arg r = true -> r <> r' -> framed r' y z ->
  argument how opened dir_fd r x y -> argument how opened dir_fd r x z.
Proof.
  intros Ha Hne Hf (u & Hu & H). exists u. split; [done|]. destruct H as [[-> H]|(u' & p & H1 & H2 & H3 & H4)].
  - left. split; [done|]. rewrite <- H. by apply Hf.
  - right. exists u', p. split_and!; [done..|by eapply placed_framed|done].
Qed.

(** Computations on the paths of the tracee. *)
Lemma on_path_untouched {A} (m : M W A) x y r : steady m -> good x -> on_path m x = (y, r) -> good y /\ untouched x y.
Proof.
  intros Hm Hx H. apply on_path_inv in H as (t & Et & ->). split; [|done]. apply good_path; [done|].
  pose proof (Hm f v (x_path x) (g_path _ Hx)) as [Ht _]. by rewrite Et in Ht.
Qed.

Lemma framed_untouched r x y z w : untouched x y -> framed r y z -> untouched z w -> framed r x w.
Proof. intros (U1 & U2 & U3) [H1 H2 H3 H4] (V1 & V2 & V3). split; rewrite ?V1, ?V2, ?V3, <- ?U1, <- ?U2, <- ?U3; done. Qed.

Lemma argument_untouched how opened dir_fd r x y z : untouched y z -> argument how opened dir_fd r x y -> argument how opened dir_fd r x z.
Proof. intros (V1 & V2 & V3). unfold argument, placed. by rewrite V1, V2, V3. Qed.

Lemma or_clear_inv {A} (m : HM W Mem A) x x' a : or_clear m x = (x', Ok a) -> m x = (x', Ok a).
Proof.
  intros H. unfold or_clear in H. hstep H x1 r. apply hattempt_inv in E0. destruct r as [b|e]; [by injection H as <- <-|].
  by hstep H x2 z.
Qed.

Lemma then_clear_inv m x x' : good x -> (forall y, m x = (y, Ok ()) -> good y) -> then_clear m x = (x', Ok ()) ->
  exists y, m x = (y, Ok ()) /\ untouched y x'.
Proof.
  intros Hx Hm H. unfold then_clear in H. hstep H x1 r. apply hattempt_inv in E0. hstep H x2 z. destruct r as [[]|e]; [|done].
  injection H as <-. exists x1. split; [done|]. apply on_path_untouched in E1 as [_ ?]; [done|apply steady_world|by apply Hm].
Qed.

Lemma empty_path_inv dir_fd u r flags (x x' : State) u' : empty_path_at_cwd dir_fd u r flags x = (x', Ok u') -> nul_free u ->
  x' = x /\ nul_free u' /\ (u' = u \/ u = [] /\ u' = bs "." /\ dir_fd = AT_FDCWD).
Proof.
  unfold empty_path_at_cwd. intros H Hu. hstep H x1 p. injection H as <- <-. split; [done|]. case_bool; [|by split; [|left]].
  rewrite !andb_true_iff in Hb. destruct Hb as [[[Hb1 Hb2] _] _]. bool_facts. subst. split; [by repeat constructor|by right].
Qed.

Lemma two_paths_handled olddirfd newdirfd old new flags type op op' creates x x' : is_arg old = true -> is_arg new = true -> old <> new ->
  good x -> two_paths olddirfd newdirfd old new flags type op op' creates x = (x', Ok ()) ->
  argument (how_of type) false olddirfd old x x' /\ argument (if creates then Creates else Keeps) false newdirfd new x x'.
Proof.
  intros Ho Hn Hne Hx H. unfold two_paths in H.
  hstep H x1 u. pose proof (get_sysarg_path_inv _ _ _ _ E0) as [-> Hu]. hstep H x2 u2. pose proof (get_sysarg_path_inv _ _ _ _ E1) as [-> Hu2].
  hstep H x3 p. apply on_path_untouched in E2 as [G3 U3]; [|apply path_peer_guest_steady|done].
  hstep H x4 z1. apply on_path_untouched in E2 as [G4 U4]; [|apply steady_world|done].
  hstep H x5 z2. apply on_path_untouched in E2 as [G5 U5]; [|apply steady_world|done].
  hstep H x6 u'. apply empty_path_inv in E2 as (-> & Hu' & Hor); [|done].
  assert (U : untouched x x5) by (destruct U3 as (? & ? & ?), U4 as (? & ? & ?), U5 as (? & ? & ?); split_and!; congruence).
  hstep H x7 z3. apply or_clear_inv in E2. destruct z3. apply translate_path2_put in E2; [|done..].
  pose proof (put_argument _ false _ _ x x5 x7 u u' E0 Hor (f_equal (fun g => peek_reg g CURRENT old) (proj1 U)) E2) as Hold.
  destruct E2 as (G7 & F7 & _).
  hstep H x8 p'. apply or_clear_inv, on_path_untouched in E2 as [G8 U8]; [|apply path_peer_guest_steady|done].
  hstep H x9 z4. apply on_path_untouched in E2 as [G9 U9]; [|apply steady_world|done].
  hstep H x10 z5. apply on_path_untouched in E2 as [G10 U10]; [|apply steady_world|done].
  assert (U' : untouched x7 x10) by (destruct U8 as (? & ? & ?), U9 as (? & ? & ?), U10 as (? & ? & ?); split_and!; congruence).
  assert (Hput : forall y, (if creates then translate_path2_parent newdirfd u2 new else translate_path2 newdirfd u2 new SYMLINK) x10 = (y, Ok ()) ->
    put (if creates then Creates else Keeps) newdirfd u2 new x10 y).
  { intros y Hy. destruct creates; [by apply translate_path2_parent_put|by apply translate_path2_put in Hy]. }
  apply then_clear_inv in H as (y & Hy & Uy); [|done|intros y Hy; by apply Hput in Hy as (? & _)]. apply Hput in Hy.
  pose proof Hy as (Gy & Fy & _). split; apply (argument_untouched _ _ _ _ _ y); [done| |done|].
  - apply (argument_framed _ _ _ _ new _ x7); [done..| |done]. by apply (framed_untouched _ _ x10 y y U' Fy).
  - apply (put_argument _ _ _ _ x x10 y u2 u2); [done|by left| |done]. destruct U' as [-> _]. rewrite <- (proj1 U). by apply F7.
Qed.

Lemma translate_sysarg_handled r type opened x x' : is_arg r = true -> good x -> translate_sysarg r type x = (x', Ok ()) ->
  handled (how_of type) opened AT_FDCWD r x x'.
Proof.
  intros Ha Hx H. unfold translate_sysarg in H. hstep H x1 u. pose proof (get_sysarg_path_inv _ _ _ _ E0) as [-> Hu].
  eapply put_handled; [done|by left|]. by apply translate_path2_put in H.
Qed.

Lemma created_at_handled dir_fd r x x' : is_arg r = true -> good x -> created_at dir_fd r x = (x', Ok ()) ->
  handled Creates false dir_fd r x x'.
Proof.
  intros Ha Hx H. unfold created_at in H. hstep H x1 u. pose proof (get_sysarg_path_inv _ _ _ _ E0) as [-> Hu].
  eapply put_handled; [done|by left|]. by apply translate_path2_parent_put in H.
Qed.

Lemma path_at_handled r flags type x x' : is_arg r = true -> good x -> path_at r flags type x = (x', Ok ()) ->
  handled (how_of type) false (sgn 32 (reg x SYSARG_1)) r x x'.
Proof.
  intros Ha Hx H. unfold path_at in H. hstep H x1 dirfd. hstep H x2 u. pose proof (get_sysarg_path_inv _ _ _ _ E0) as [-> Hu].
  hstep H x3 u'. apply empty_path_inv in E1 as (-> & Hn & Hu'); [|done].
  eapply put_handled; [done|exact Hu'|]. by apply translate_path2_put in H.
Qed.

(** The second half of open(2). *)
Lemma redirect_handled r flags how dir_fd u x0 x x1 x' : is_arg r = true -> untouched x0 x -> good x0 -> get_sysarg_path r x0 = (x0, Ok u) ->
  put how dir_fd u r x x1 -> maybe_redirect_userns_file r flags x1 = (x', Ok ()) -> handled how true dir_fd r x0 x'.
Proof.
  intros Ha (U1 & U2 & U3) Hx0 Hu (H1 & H2 & H3) H. unfold maybe_redirect_userns_file in H.
  assert (Hf : framed r x0 x1) by (destruct H2 as [F1 F2 F3 F4]; split; rewrite <- ?U1, <- ?U2, <- ?U3 in *; done).
  assert (Hput : x' = x1 -> handled how true dir_fd r x0 x').
  { intros ->. apply (put_handled how true dir_fd r x0 x1 u u Hu (or_introl eq_refl)). split; [done|]. split; [done|].
    destruct H3 as [[-> (T1 & T2 & T3)]|H3]; [left|by right]. split; [done|]. split_and!; congruence. }
  case_bool_in H; [apply Hput; by injection H|]. hstep H x2 rs.
  assert (x2 = x1) as -> by (apply hattempt_inv in E0; destruct rs; by apply get_sysarg_path_inv in E0 as [-> _]).
  destruct rs as [h|e]; [|apply Hput; by injection H]. case_bool_in H; [|apply Hput; by injection H].
  hstep H x3 rs. apply hattempt_inv in E0, E1. injection H as <-. destruct H3 as [[-> (T1 & T2 & T3)]|(Hne & p & Hp & Hr)].
  { exfalso. assert (Hg : snd (get_sysarg_path r x1) = snd (get_sysarg_path r x0)) by (apply get_sysarg_path_same; congruence).
    rewrite E0, Hu in Hg. injection Hg as ->. done. }
  assert (Hgoal : forall q, good x3 -> framed r x1 x3 -> placed x3 r q -> resolved how dir_fd u q \/ true = true /\ q = bs "/dev/null" ->
    handled how true dir_fd r x0 x3).
  { intros q G1 G2 G3 G4. split; [done|]. split; [by eapply framed_trans|]. exists u. split; [done|]. right. exists u, q. by split_and!; [left|..]. }
  destruct rs as [[]|e]; (apply set_sysarg_path_any in E1 as (G1 & G2 & G3); [|done..]).
  - apply (Hgoal (bs "/dev/null")); [done..|by right].
  - apply (Hgoal p); [done..|by eapply placed_kept|by left].
Qed.

(** ** The files that are opened *)

Lemma wants_sysexit_untouched (x y : State) b : good x -> (if b : bool then wants_sysexit else hret ()) x = (y, Ok ()) -> good y /\ untouched x y.
Proof. intros [H1 H2 H3] H. destruct b; injection H as <-; by split. Qed.

Lemma handle_open_handled x x' : good x -> handle_open x = (x', Ok ()) ->
  handled (how_of (open_type (sgn 32 (reg x SYSARG_2)))) true AT_FDCWD SYSARG_1 x x'.
Proof.
  intros Hx H. unfold handle_open in H. hstep H x1 flags. hstep H x2 execfn. hstep H x3 addr. hstep H x4 u0. hstep H x5 z.
  destruct z. apply wants_sysexit_untouched in E0 as [G5 U5]; [|done]. hstep H x6 z. destruct z. unfold translate_sysarg in E0. hstep E0 x7 u.
  assert (E2 : x7 = x5 /\ nul_free u) by (by apply get_sysarg_path_inv in E1). destruct E2 as [-> Hu].
  apply translate_path2_put in E0; [|done..]. eapply (redirect_handled SYSARG_1 _ _ _ u x x5); [done|done|done| |done|done].
  destruct U5 as (U1 & U2 & U3). pose proof (get_sysarg_path_same SYSARG_1 x x5 (f_equal (fun g => peek_reg g CURRENT SYSARG_1) U1) U2 U3) as Hs.
  rewrite E1 in Hs. cbn [snd] in Hs. destruct (get_sysarg_path SYSARG_1 x) as [x9 r9] eqn:E9. cbn in Hs. subst r9.
  by apply get_sysarg_path_inv in E9 as [-> _].
Qed.

Lemma handle_openat_handled x x' : good x -> handle_openat x = (x', Ok ()) ->
  handled (how_of (open_type (sgn 32 (reg x SYSARG_3)))) true (sgn 32 (reg x SYSARG_1)) SYSARG_2 x x'.
Proof.
  intros Hx H. unfold handle_openat in H. hstep H x1 dirfd. hstep H x2 flags. hstep H x3 u.
  pose proof (get_sysarg_path_inv _ _ _ _ E0) as [-> Hu]. hstep H x4 execfn. hstep H x5 z.
  destruct z. apply wants_sysexit_untouched in E1 as [G5 U5]; [|done]. hstep H x6 z. destruct z.
  apply translate_path2_put in E1; [|done..]. by eapply (redirect_handled SYSARG_2 _ _ _ u x x5).
Qed.

(** The flags of openat2(2), in memory. *)
Definition how_flags (x : State) : Z :=
  match read_data (x_mem x) (x_me x) (reg x SYSARG_3) (Z.min (reg x SYSARG_4) sizeof_open_how) with
  | inl how => sgn 32 (of_le (slice 0 8 how))
  | inr _ => 0
  end.

Lemma sgn_wrap b n : 32 <= b -> sgn 32 (wrap b n) = sgn 32 n.
Proof.
  intros Hb. assert (E1 : wrap b n mod 2 ^ 32 = n mod 2 ^ 32); [|unfold sgn; by rewrite E1].
  unfold wrap. replace (2 ^ b) with (2 ^ 32 * 2 ^ (b - 32)) by (rewrite <- Z.pow_add_r by lia; f_equal; lia).
  rewrite Z.rem_mul_r by lia. rewrite (Z.mul_comm (2 ^ 32)), Z.mod_add by lia. apply Z.mod_mod. lia.
Qed.

(** What a write to another register leaves. *)
Lemma poke_good x r value : good x -> same_slot r SYSARG_NUM = false -> good (set_regs (poke_reg (x_regs x) r value) x).
Proof. intros [Hg Hp (s & Hs)] Hr. split; cbn; [by apply poke_reg_ok|done|]. exists s. by rewrite get_sysnum_poke. Qed.

Lemma openat_sysnum g : regs_ok g -> exists n, detranslate_sysnum (get_abi g) PR_openat = Ok n
  /\ get_sysnum (poke_reg g SYSARG_NUM n) CURRENT = Ok PR_openat.
Proof.
  intros Hg. unfold get_sysnum, get_abi. destruct (is_aarch32 g) eqn:Em; [exists 322|exists 56]; (split; [by vm_compute|]);
    rewrite poke_reg_mode, peek_poke_reg by done; unfold reg_bits; rewrite Em; by vm_compute.
Qed.

(** openat2(2) gives the arguments of openat(2) it is rewritten into. *)
Lemma handle_openat2_argument x x' : good x -> handle_openat2 x = (x', Ok ()) ->
  argument (how_of (open_type (how_flags x))) true (sgn 32 (reg x SYSARG_1)) SYSARG_2 x x'.
Proof.
  intros Hx H. unfold handle_openat2 in H. hstep H x1 n0. hstep H x2 addr. hstep H x3 how. unfold how_flags.
  destruct (read_data _ _ _ _) as [how|e]; [|done]. hstep H x4 z. unfold change_sysnum, set_sysnum in E0.
  destruct (openat_sysnum (x_regs x) (g_regs _ Hx)) as (n & En & Es). rewrite En in E0. cbn [res_bind] in E0. injection E0 as <- _.
  set (x1 := set_regs (poke_reg (x_regs x) SYSARG_NUM n) x) in *.
  assert (G1 : good x1) by (destruct Hx; split; cbn; [by apply poke_reg_ok|done|by eexists]).
  hstep H x5 z1. injection E0 as <- _. hstep H x6 z2. injection E0 as <- _.
  set (x2 := set_regs (poke_reg (x_regs x1) SYSARG_3 (wrap64 (of_le (slice 0 8 how)))) x1) in *.
  assert (G2 : good x2) by (by apply poke_good).
  set (x3 := set_regs (poke_reg (x_regs x2) SYSARG_4 (wrap64 (of_le (slice 8 8 how)))) x2) in *.
  assert (G3 : good x3) by (by apply poke_good).
  assert (Er : forall r, r = SYSARG_1 \/ r = SYSARG_2 -> reg x3 r = reg x r).
  { intros r Hr. unfold x3, x2, x1. cbn [set_regs x_regs]. rewrite !peek_poke_reg by (repeat apply poke_reg_ok; apply Hx). by destruct Hr as [-> | ->]. }
  assert (E3 : reg x3 SYSARG_3 = wrap (reg_bits (x_regs x)) (wrap64 (of_le (slice 0 8 how)))).
  { unfold x3, x2, x1. cbn [set_regs x_regs]. rewrite !peek_poke_reg by (repeat apply poke_reg_ok; apply Hx). cbn.
    unfold reg_bits. by rewrite !poke_reg_mode. }
  change (handle_openat x3 = (x', Ok ())) in H. apply handle_openat_handled in H; [|done]. rewrite E3, (Er SYSARG_1) in H by auto.
  rewrite sgn_wrap in H by (unfold reg_bits; destruct (is_aarch32 _); lia).
  rewrite (sgn_wrap 64 (of_le (slice 0 8 how)) ltac:(lia) : sgn 32 (wrap64 _) = _) in H.
  destruct H as (_ & _ & (u & Hu & H)). rewrite (Er SYSARG_2) in H by auto. exists u. split; [|exact H].
  pose proof (get_sysarg_path_same SYSARG_2 x x3 (Er SYSARG_2 ltac:(auto)) eq_refl eq_refl) as Hs. rewrite Hu in Hs. cbn [snd] in Hs.
  destruct (get_sysarg_path SYSARG_2 x) as [x9 r9] eqn:E9. cbn in Hs. subst r9. by apply get_sysarg_path_inv in E9 as [-> _].
Qed.

End Args.

(** ** The paths of system calls, from their manual pages *)

(** A path: the descriptor it is relative to, the argument, how it is looked up,
    whether it is opened. *)
Record PathArg := mkArg { a_dir : option Reg; a_path : Reg; a_how : How; a_opened : bool }.

Section Table.

Context {W Mem : Type} {TM : TraceeMemory Mem}.

Definition int_arg (x : SysState W Mem) (r : Reg) : Z := sgn 32 (peek_reg (x_regs x) CURRENT r).

Definition dir_of (x : SysState W Mem) (a : PathArg) : Z :=
  match a_dir a with Some r => int_arg x r | None => AT_FDCWD end.

Definition path_args (s : Sysnum) (x : SysState W Mem) : list PathArg :=
  let among := sysnum_in s in
  let follow (b : bool) := if b then Follows else Keeps in
  let opens flags := follow (negb (has_flag flags O_NOFOLLOW || (has_flag flags O_EXCL && has_flag flags O_CREAT))) in
  let at_ how := [mkArg (Some SYSARG_1) SYSARG_2 how false] in
  let unless r mask := follow (negb (has_flag (int_arg x r) mask)) in
  if among [PR_access; PR_acct; PR_chmod; PR_chown; PR_chown32; PR_chroot; PR_creat; PR_getxattr; PR_listxattr; PR_oldstat;
            PR_removexattr; PR_setxattr; PR_stat; PR_stat64; PR_statfs; PR_statfs64; PR_swapoff; PR_swapon; PR_truncate;
            PR_truncate64; PR_uselib; PR_utime; PR_utimes] then [mkArg None SYSARG_1 Follows false]
  else if among [PR_lchown; PR_lchown32; PR_lgetxattr; PR_llistxattr; PR_lremovexattr; PR_lsetxattr; PR_lstat; PR_lstat64;
            PR_oldlstat; PR_readlink; PR_rmdir; PR_unlink] then [mkArg None SYSARG_1 Keeps false]
  else if among [PR_mkdir; PR_mknod] then [mkArg None SYSARG_1 Creates false]
  else if s =? PR_symlink then [mkArg None SYSARG_2 Creates false]
  else if s =? PR_symlinkat then [mkArg (Some SYSARG_2) SYSARG_3 Creates false]
  else if s =? PR_open then [mkArg None SYSARG_1 (opens (int_arg x SYSARG_2)) true]
  else if s =? PR_openat then [mkArg (Some SYSARG_1) SYSARG_2 (opens (int_arg x SYSARG_3)) true]
  else if s =? PR_openat2 then [mkArg (Some SYSARG_1) SYSARG_2 (opens (how_flags x)) true]
  else if s =? PR_inotify_add_watch then [mkArg None SYSARG_2 (unless SYSARG_3 IN_DONT_FOLLOW) false]
  else if among [PR_fchmodat; PR_faccessat; PR_futimesat] then at_ Follows
  else if among [PR_readlinkat; PR_unlinkat] then at_ Keeps
  else if among [PR_mkdirat; PR_mknodat] then at_ Creates
  else if among [PR_faccessat2; PR_fchmodat2; PR_fstatat64; PR_newfstatat; PR_utimensat] then at_ (unless SYSARG_4 AT_SYMLINK_NOFOLLOW)
  else if s =? PR_fchownat then at_ (unless SYSARG_5 AT_SYMLINK_NOFOLLOW)
  else if among [PR_open_tree; PR_statx] then at_ (unless SYSARG_3 AT_SYMLINK_NOFOLLOW)
  else if s =? PR_name_to_handle_at then at_ (follow (has_flag (int_arg x SYSARG_5) AT_SYMLINK_FOLLOW))
  else if s =? PR_link then [mkArg None SYSARG_1 Keeps false; mkArg None SYSARG_2 Creates false]
  else if s =? PR_rename then [mkArg None SYSARG_1 Keeps false; mkArg None SYSARG_2 Keeps false]
  else if s =? PR_linkat then
    [mkArg (Some SYSARG_1) SYSARG_2 (follow (has_flag (int_arg x SYSARG_5) AT_SYMLINK_FOLLOW)) false;
     mkArg (Some SYSARG_3) SYSARG_4 Creates false]
  else if among [PR_renameat; PR_renameat2] then
    [mkArg (Some SYSARG_1) SYSARG_2 Keeps false; mkArg (Some SYSARG_3) SYSARG_4 Keeps false]
  else [].

(** The system calls whose last symlink PRoot does not treat as Linux does. *)
Definition diverges : list Sysnum := [PR_mknod; PR_mknodat; PR_name_to_handle_at; PR_faccessat2].

End Table.

Section Dispatch.

Context {W Mem : Type} {TM : TraceeMemory Mem} {TS : TraceeStrings Mem} {MC : MemoryContents Mem}.
Context {ML : MemoryContentsLaws Mem TM TS MC}.
Context {K : Kernel W} {E : Extensions W} {L : KernelLaws W K}.
Context {V : PathEvents W} {N : PathPolicy W} {TE : TransparentEvents W V}.
Context {PP : PathPeers W} {EE : EnterEvents W Mem} {SV : SysServices W Mem}.
Context (f : FileSystemNameSpace) (root : list cstr) (l k : list Binding) (v : ProcView).
Hypothesis Hroot : rooted f root.
Hypothesis Hwf : fs_wf f.
Hypothesis Hsz : fs_sized f.
Hypothesis Hl : bindings_guest f = Some l.
Hypothesis Hk : bindings_host f = Some k.
Hypothesis Hv : view_ok v.
Hypothesis Hcwd : nul_free (cwd f) /\ cwd f <> [].

(** [a] is dealt with. *)
Definition arg_done (s : Sysnum) (x x' : SysState W Mem) (a : PathArg) : Prop :=
  exists how, (~ (s ∈ diverges) -> how = a_how a) /\ argument f l v how (a_opened a) (dir_of x a) (a_path a) x x'.

Lemma how_of_open flags : how_of (open_type flags) =
  if negb (has_flag flags O_NOFOLLOW || (has_flag flags O_EXCL && has_flag flags O_CREAT)) then Follows else Keeps.
Proof. unfold open_type. by destruct (_ || _). Qed.

Lemma how_of_unless flags mask : how_of (type_unless flags mask) = if negb (has_flag flags mask) then Follows else Keeps.
Proof. unfold type_unless. by destruct (has_flag _ _). Qed.

Lemma sysnum_in_elem s ss : sysnum_in s ss = true -> s ∈ ss.
Proof. unfold sysnum_in. intros (y & Hy & ->%Z.eqb_eq)%existsb_exists. by apply list_elem_of_In. Qed.

Ltac among Hb := apply sysnum_in_elem in Hb; rewrite ?elem_of_cons in Hb;
  repeat (destruct Hb as [-> | Hb]); try (by apply elem_of_nil in Hb).
Ltac one Ha := apply list_elem_of_singleton in Ha as ->.

Lemma arg_done_as s x x' d r how how' o : argument f l v how o (dir_of x (mkArg d r how' o)) r x x' -> how = how' ->
  arg_done s x x' (mkArg d r how' o).
Proof. intros H <-. by exists how. Qed.

Lemma arg_done_diverging s x x' d r how how' o : argument f l v how o (dir_of x (mkArg d r how' o)) r x x' -> s ∈ diverges ->
  arg_done s x x' (mkArg d r how' o).
Proof. intros H Hs. by exists how. Qed.

Abbreviation good := (good f v).

Lemma sysarg_done o r type x x' : good x -> is_arg r = true -> translate_sysarg r type x = (x', Ok ()) ->
  argument f l v (how_of type) o AT_FDCWD r x x'.
Proof. intros Hx Ha H. by eapply (translate_sysarg_handled f root l k v) in H as (_ & _ & ?). Qed.

Lemma created_done d r x x' : good x -> is_arg r = true -> created_at d r x = (x', Ok ()) -> argument f l v Creates false d r x x'.
Proof. intros Hx Ha H. by eapply (created_at_handled f root l k v) in H as (_ & _ & ?). Qed.

Lemma created_reg_done d r x x' : good x -> is_arg r = true -> created_at_reg d r x = (x', Ok ()) ->
  argument f l v Creates false (int_arg x d) r x x'.
Proof. intros Hx Ha H. unfold created_at_reg in H. hstep H x1 dirfd. by apply created_done. Qed.

Lemma path_at_done flags type x x' : good x -> path_at SYSARG_2 flags type x = (x', Ok ()) ->
  argument f l v (how_of type) false (int_arg x SYSARG_1) SYSARG_2 x x'.
Proof. intros Hx H. by eapply (path_at_handled f root l k v) in H as (_ & _ & ?). Qed.

Lemma at_flags_done s x x' r : good x -> handle_at_flags s x = (x', Ok ()) ->
  r = (if sysnum_in s [PR_fchownat; PR_name_to_handle_at] then SYSARG_5 else SYSARG_4) ->
  argument f l v (if negb (has_flag (int_arg x r) AT_SYMLINK_NOFOLLOW) then Follows else Keeps) false (int_arg x SYSARG_1) SYSARG_2 x x'.
Proof. intros Hx H ->. unfold handle_at_flags in H. hstep H x1 flags. rewrite <- how_of_unless. by eapply path_at_done. Qed.

Lemma handle_at_done s x x' : good x -> handle_at s x = (x', Ok ()) -> argument f l v Follows false (int_arg x SYSARG_1) SYSARG_2 x x'.
Proof. intros Hx H. unfold handle_at in H. hstep H x1 flags. by apply path_at_done in H. Qed.

Lemma has_flag_sgn n mask : 0 <= mask < 2 ^ 32 -> has_flag (sgn 32 n) mask = has_flag n mask.
Proof.
  intros Hm. assert (Hlow : forall a, Z.land a mask = Z.land (a mod 2 ^ 32) mask).
  { intros a. rewrite <- Z.land_ones by lia. rewrite <- Z.land_assoc, (Z.land_comm (Z.ones 32)), Z.land_ones by lia. by rewrite Z.mod_small. }
  unfold has_flag. rewrite (Hlow (sgn 32 n)), (Hlow n). do 3 f_equal. unfold sgn.
  pose proof (Z.mod_pos_bound n (2 ^ 32)). case_bool; [by rewrite Z.mod_mod|].
  replace (n mod 2 ^ 32 - 2 ^ 32) with (n mod 2 ^ 32 + (-1) * 2 ^ 32) by lia. rewrite Z.mod_add by lia. by rewrite Z.mod_mod.
Qed.

Lemma flags_at_done x x' flags : good x -> path_at SYSARG_2 flags (type_unless flags AT_SYMLINK_NOFOLLOW) x = (x', Ok ()) ->
  has_flag flags AT_SYMLINK_NOFOLLOW = has_flag (int_arg x SYSARG_3) AT_SYMLINK_NOFOLLOW ->
  argument f l v (if negb (has_flag (int_arg x SYSARG_3) AT_SYMLINK_NOFOLLOW) then Follows else Keeps) false (int_arg x SYSARG_1) SYSARG_2 x x'.
Proof. intros Hx H Hf. rewrite <- Hf, <- how_of_unless. by eapply path_at_done. Qed.

Lemma open_tree_statx_done s m x x' : s ∈ [PR_open_tree; PR_statx] -> handle_paths s = Some m -> good x -> m x = (x', Ok ()) ->
  argument f l v (if negb (has_flag (int_arg x SYSARG_3) AT_SYMLINK_NOFOLLOW) then Follows else Keeps) false (int_arg x SYSARG_1) SYSARG_2 x x'.
Proof.
  intros Hs Hm Hx H. rewrite !elem_of_cons in Hs. destruct Hs as [-> | [-> | Hs]]; [| |by apply elem_of_nil in Hs].
  - change (Some handle_open_tree = Some m) in Hm. injection Hm as <-. unfold handle_open_tree in H. hstep H x1 flags.
    case_bool_in H; [done|]. by eapply flags_at_done.
  - change (Some handle_statx = Some m) in Hm. injection Hm as <-. unfold handle_statx in H. hstep H x1 flags.
    eapply flags_at_done; [done|exact H|]. symmetry. by apply has_flag_sgn.
Qed.

Lemma two_done d r d' r' creates how (dir dir' : Z) flags type op op' x x' a : is_arg r = true -> is_arg r' = true -> r <> r' -> good x ->
  two_paths dir dir' r r' flags type op op' creates x = (x', Ok ()) -> how = how_of type ->
  dir = dir_of x (mkArg d r how false) -> dir' = dir_of x (mkArg d' r' Keeps false) ->
  a ∈ [mkArg d r how false; mkArg d' r' (if creates then Creates else Keeps) false] -> forall s, arg_done s x x' a.
Proof.
  intros H1 H2 Hne Hx H -> -> -> Ha s. eapply (two_paths_handled f root l k v) in H as [G1 G2]; [|done..].
  rewrite !elem_of_cons in Ha. destruct Ha as [-> | [-> | Ha]]; [| |by apply elem_of_nil in Ha]; by eapply arg_done_as.
Qed.

Ltac pair_args lem Hx H Ha :=
  eapply lem; [reflexivity|reflexivity|discriminate|exact Hx|exact H|try reflexivity|reflexivity|reflexivity|exact Ha].

(** The system calls with two paths. *)
Lemma pairs_done s m x x' a : s ∈ [PR_link; PR_rename; PR_linkat; PR_renameat; PR_renameat2] ->
  handle_paths s = Some m -> good x -> m x = (x', Ok ()) -> a ∈ path_args s x -> arg_done s x x' a.
Proof.
  intros Hs Hm Hx H Ha. rewrite !elem_of_cons in Hs. destruct Hs as [-> | [-> | [-> | [-> | [-> | Hs]]]]]; [..|by apply elem_of_nil in Hs];
    [change (Some (handle_link_rename PR_link) = Some m) in Hm|change (Some (handle_link_rename PR_rename) = Some m) in Hm
    |change (Some handle_linkat = Some m) in Hm|change (Some handle_renameat = Some m) in Hm..]; injection Hm as <-.
  - change (two_paths AT_FDCWD AT_FDCWD SYSARG_1 SYSARG_2 0 SYMLINK NET_CONTROL_PATH_READ NET_CONTROL_PATH_CREATE true x = (x', Ok ())) in H.
    pair_args (two_done None SYSARG_1 None SYSARG_2 true Keeps) Hx H Ha.
  - change (two_paths AT_FDCWD AT_FDCWD SYSARG_1 SYSARG_2 0 SYMLINK NET_CONTROL_PATH_RENAME NET_CONTROL_PATH_RENAME false x = (x', Ok ())) in H.
    pair_args (two_done None SYSARG_1 None SYSARG_2 false Keeps) Hx H Ha.
  - unfold handle_linkat in H. hstep H x1 d. hstep H x2 d'. hstep H x3 flags.
    pair_args (two_done (Some SYSARG_1) SYSARG_2 (Some SYSARG_3) SYSARG_4 true
      (if has_flag (int_arg x SYSARG_5) AT_SYMLINK_FOLLOW then Follows else Keeps)) Hx H Ha.
    unfold int_arg. by destruct (has_flag _ _).
  - unfold handle_renameat in H. hstep H x1 d. hstep H x2 d'.
    pair_args (two_done (Some SYSARG_1) SYSARG_2 (Some SYSARG_3) SYSARG_4 false Keeps) Hx H Ha.
  - unfold handle_renameat in H. hstep H x1 d. hstep H x2 d'.
    pair_args (two_done (Some SYSARG_1) SYSARG_2 (Some SYSARG_3) SYSARG_4 false Keeps) Hx H Ha.
Qed.

Lemma in_all (P : Sysnum -> Prop) ss s : sysnum_in s ss = true -> Forall P ss -> P s.
Proof. intros Hs%sysnum_in_elem H. rewrite Forall_forall in H. by apply H. Qed.

(** The handler that the system calls of [Hb] share. *)
Ltac handler Hb Hm h :=
  apply (in_all (fun s => handle_paths s = Some h)) in Hb; [|repeat constructor]; rewrite Hb in Hm; injection Hm as <-.
Ltac the Hb Hm h := apply Z.eqb_eq in Hb; rewrite Hb in *; match type of Hm with _ = ?r => change (Some h = r) in Hm end; injection Hm as <-.

(** The handler of the paths of each system call. *)
Lemma handle_paths_done s m x x' a : handle_paths s = Some m -> good x -> m x = (x', Ok ()) -> a ∈ path_args s x -> arg_done s x x' a.
Proof.
  intros Hm Hx H Ha. destruct (decide (s ∈ [PR_link; PR_rename; PR_linkat; PR_renameat; PR_renameat2])) as [Hp|Hp]; [by eapply pairs_done|].
  unfold path_args in Ha. cbv zeta in Ha.
  case_bool_in Ha; [one Ha; handler Hb Hm (translate_sysarg (Mem := Mem) SYSARG_1 REGULAR); eapply arg_done_as; [by apply (sysarg_done false) in H|done]|clear Hb].
  case_bool_in Ha; [one Ha; handler Hb Hm (translate_sysarg (Mem := Mem) SYSARG_1 SYMLINK); eapply arg_done_as; [by apply (sysarg_done false) in H|done]|clear Hb].
  case_bool_in Ha; [one Ha|clear Hb].
  { apply sysnum_in_elem in Hb. rewrite !elem_of_cons in Hb. destruct Hb as [-> | [-> | Hb]]; [..|by apply elem_of_nil in Hb].
    - change (Some (created_at AT_FDCWD SYSARG_1) = Some m) in Hm. injection Hm as <-. eapply arg_done_as; [by apply created_done in H|done].
    - change (Some (translate_sysarg SYSARG_1 REGULAR) = Some m) in Hm. injection Hm as <-.
      eapply arg_done_diverging; [by apply (sysarg_done false) in H|by left]. }
  case_bool_in Ha; [one Ha; the Hb Hm (created_at (Mem := Mem) AT_FDCWD SYSARG_2); eapply arg_done_as; [by apply created_done in H|done]|clear Hb].
  case_bool_in Ha; [one Ha; the Hb Hm (created_at_reg (Mem := Mem) SYSARG_2 SYSARG_3); eapply arg_done_as; [by apply created_reg_done in H|done]|clear Hb].
  case_bool_in Ha; [one Ha; the Hb Hm (handle_open (Mem := Mem)); eapply arg_done_as;
    [by eapply (handle_open_handled f root l k v) in H as (_ & _ & ?)|apply how_of_open]|clear Hb].
  case_bool_in Ha; [one Ha; the Hb Hm (handle_openat (Mem := Mem)); eapply arg_done_as;
    [by eapply (handle_openat_handled f root l k v) in H as (_ & _ & ?)|apply how_of_open]|clear Hb].
  case_bool_in Ha; [one Ha; the Hb Hm (handle_openat2 (Mem := Mem)); eapply arg_done_as;
    [by eapply (handle_openat2_argument f root l k v) in H|apply how_of_open]|clear Hb].
  case_bool_in Ha; [one Ha; the Hb Hm (do$ flags := peek_int (Mem := Mem) (W := W) CURRENT SYSARG_3 in translate_sysarg SYSARG_2 (type_unless flags IN_DONT_FOLLOW));
    hstep H x1 flags; eapply arg_done_as; [by apply (sysarg_done false) in H|apply how_of_unless]|clear Hb].
  case_bool_in Ha; [one Ha; apply (in_all (fun s => handle_paths s = Some (handle_at s))) in Hb; [|repeat constructor];
    rewrite Hb in Hm; injection Hm as <-; eapply arg_done_as; [by apply handle_at_done in H|done]|clear Hb].
  case_bool_in Ha; [one Ha; handler Hb Hm (path_at (W := W) (Mem := Mem) SYSARG_2 0 SYMLINK); eapply arg_done_as; [by apply path_at_done in H|done]|clear Hb].
  case_bool_in Ha; [one Ha|clear Hb].
  { apply sysnum_in_elem in Hb. rewrite !elem_of_cons in Hb. destruct Hb as [-> | [-> | Hb]]; [..|by apply elem_of_nil in Hb].
    - change (Some (created_at_reg SYSARG_1 SYSARG_2) = Some m) in Hm. injection Hm as <-. eapply arg_done_as; [by apply created_reg_done in H|done].
    - change (Some (handle_at PR_mknodat) = Some m) in Hm. injection Hm as <-.
      eapply arg_done_diverging; [by apply handle_at_done in H|by right; left]. }
  case_bool_in Ha; [one Ha|clear Hb].
  { apply sysnum_in_elem in Hb. apply elem_of_cons in Hb as [-> | Hb].
    - change (Some (handle_at PR_faccessat2) = Some m) in Hm. injection Hm as <-.
      eapply arg_done_diverging; [by apply handle_at_done in H|set_solver].
    - assert (Hs : handle_paths s = Some (handle_at_flags s) /\ sysnum_in s [PR_fchownat; PR_name_to_handle_at] = false).
      { revert Hb. rewrite !elem_of_cons, elem_of_nil. by intros [-> | [-> | [-> | [-> | []]]]]. }
      destruct Hs as [Hs Hf]. rewrite Hs in Hm. injection Hm as <-. eapply arg_done_as; [|done].
      apply (at_flags_done s x x' SYSARG_4 Hx H). by rewrite Hf. }
  case_bool_in Ha; [one Ha; the Hb Hm (handle_at_flags (W := W) (Mem := Mem) PR_fchownat); eapply arg_done_as; [by eapply at_flags_done in H|done]|clear Hb].
  case_bool_in Ha; [one Ha; apply sysnum_in_elem in Hb; eapply arg_done_as; [by eapply open_tree_statx_done|done]|clear Hb].
  case_bool_in Ha; [one Ha; the Hb Hm (handle_at_flags (W := W) (Mem := Mem) PR_name_to_handle_at);
    eapply arg_done_diverging; [by eapply at_flags_done in H|set_solver]|clear Hb].
  repeat (case_bool_in Ha; [exfalso; apply Hp; first [apply sysnum_in_elem in Hb; set_solver|apply Z.eqb_eq in Hb; rewrite Hb; set_solver]|clear Hb]).
  by apply elem_of_nil in Ha.
Qed.

(** ** The whole function *)

(** The extensions let the handler run, and leave what it does. *)
Definition quiet_start (x : SysState W Mem) : Prop := notify_SYSCALL_ENTER_START x = (x, Ok 0).
Definition quiet_end : Prop := forall n x y r, notify_SYSCALL_ENTER_END n x = (y, Ok r) -> untouched x y.

Lemma enter_handled s x x' st : quiet_start x -> get_sysnum (x_regs x) ORIGINAL = Ok s -> translate_syscall_enter x = (x', Ok st) ->
  exists y o, handle_syscall s x = (y, Ok o)
    /\ match o with Status n => n = st /\ 0 <= st /\ exists r, notify_SYSCALL_ENTER_END n y = (x', Ok r) | Returns n => x' = y end.
Proof.
  intros Hq Hs H. unfold translate_syscall_enter in H. hstep H x1 start. unfold hattempt in E0. rewrite Hq in E0. injection E0 as <- <-.
  cbn [Z.ltb Z.compare] in H. hstep H x2 s'. unfold sysnum_of in E0. rewrite Hs in E0. injection E0 as <- <-.
  hstep H x3 o. apply hattempt_inv in E0. destruct o as [[n|n]|e].
  - exists x3, (Status n). split; [done|]. unfold end_status in H. hstep H x4 r. case_bool_in H; [done|]. injection H as <- <-. bool_facts.
    split; [done|]. split; [lia|]. by exists r.
  - exists x3, (Returns n). split; [done|]. case_bool_in H; [done|]. by injection H.
  - unfold end_error in H. by hstep H x4 r.
Qed.

Lemma path_args_handled s (x : SysState W Mem) a : a ∈ path_args s x -> exists m : HM W Mem unit, handle_paths s = Some m.
Proof.
  intros Ha. unfold path_args in Ha. cbv zeta in Ha.
  repeat (case_bool_in Ha; [clear Ha; first
    [ apply (in_all (fun s => exists m : HM W Mem unit, handle_paths s = Some m)) in Hb; [done|repeat (constructor; [by eexists|]); constructor]
    | apply Z.eqb_eq in Hb; subst s; by eexists]|clear Hb]).
  by apply elem_of_nil in Ha.
Qed.
End Dispatch.

(** ** Properties *)

(** The registers hold values of their width, and a number of system call. *)
Definition regs_valid (g : Regs) (s : Sysnum) : Prop :=
  regs_ok g /\ (exists c, get_sysnum g CURRENT = Ok c) /\ get_sysnum g ORIGINAL = Ok s.


(** ** System calls that are voided *)

(** Handlers that leave the registers. *)
Definition same_regs {W Mem A} (m : HM W Mem A) : Prop := forall x, x_regs (fst (m x)) = x_regs x.

Section SameRegs.

Context {W Mem : Type}.

Lemma same_regs_bind {A B} (m : HM W Mem A) (k : A -> HM W Mem B) : same_regs m -> (forall a, same_regs (k a)) -> same_regs (hbind m k).
Proof.
  intros Hm Hk x. unfold hbind. specialize (Hm x). destruct (m x) as [y [a|e|w]]; cbn in *; [|done..]. by rewrite Hk.
Qed.
Lemma same_regs_attempt {A} (m : HM W Mem A) : same_regs m -> same_regs (hattempt m).
Proof. intros Hm x. unfold hattempt. specialize (Hm x). by destruct (m x) as [y [a|e|w]]. Qed.
Lemma same_regs_path {A} (m : M W A) : same_regs (Mem := Mem) (on_path m).
Proof. intros x. unfold on_path. by destruct (m (x_path x)). Qed.

Context {TS : TraceeStrings Mem}.

Lemma same_regs_get_path r : same_regs (W := W) (Mem := Mem) (get_sysarg_path r).
Proof. intros x. unfold get_sysarg_path, hbind, peek, hget. case_bool; [done|]. destruct (read_string _ _ _ _); [|done]. by case_bool. Qed.

Context {K : Kernel W} {E : Extensions W} {V : PathEvents W} {N : PathPolicy W}.

Lemma mounts_same_regs : same_regs (Mem := Mem) apply_emulated_umount /\ same_regs (Mem := Mem) apply_emulated_mount
  /\ same_regs (Mem := Mem) apply_emulated_pivot_root.
Proof.
  unfold apply_emulated_umount, apply_emulated_mount, apply_emulated_pivot_root, ignore_error. split_and!;
    (apply same_regs_bind; [apply same_regs_attempt|by intros ??]);
    repeat (apply same_regs_bind; [first [apply same_regs_get_path|by intros ?]|intros ?]); apply same_regs_path.
Qed.

End SameRegs.

Lemma void_sysnum g : regs_ok g -> exists n, detranslate_sysnum (get_abi g) PR_void = Ok n
  /\ get_sysnum (poke_reg g SYSARG_NUM n) CURRENT = Ok PR_void.
Proof.
  intros Hg. unfold get_sysnum, get_abi. destruct (detranslate_sysnum (if is_aarch32 g then ABI_2 else ABI_DEFAULT) PR_void) as [n|e|w] eqn:En.
  2,3: exfalso; destruct (is_aarch32 g); vm_compute in En; discriminate.
  exists n. split; [done|]. rewrite poke_reg_mode, peek_poke_reg by done. unfold reg_bits. destruct (is_aarch32 g); vm_compute in En; injection En as <-; by vm_compute.
Qed.

(** The system call is replaced, and has a result. *)
Definition voided {W Mem} (x : SysState W Mem) (result : Z) : Prop :=
  get_sysnum (x_regs x) CURRENT = Ok PR_void /\ peek_reg (x_regs x) CURRENT SYSARG_RESULT = wrap (reg_bits (x_regs x)) result.

Lemma answer_voids {W Mem} (x x' : SysState W Mem) result : regs_ok (x_regs x) -> answer result x = (x', Ok ()) -> voided x' result.
Proof.
  intros Hx H. unfold answer in H. hstep H x1 z. injection E as <- _. unfold change_sysnum, set_sysnum in H. cbn [set_regs x_regs] in H.
  set (g := poke_reg (x_regs x) SYSARG_RESULT (wrap64 result)) in *. assert (Hg : regs_ok g) by (by apply poke_reg_ok).
  destruct (void_sysnum g Hg) as (n & En & Es). rewrite En in H. cbn [res_bind] in H. injection H as <-. split; cbn [set_regs x_regs]; [done|].
  rewrite peek_poke_reg by done. cbn. unfold g. rewrite peek_poke_reg by done. cbn. unfold reg_bits. rewrite !poke_reg_mode.
  unfold wrap64, wrap. destruct (is_aarch32 (x_regs x)); [|by rewrite Z.mod_mod].
  apply Z.mod_mod_divide. by exists (2 ^ 32).
Qed.

(** The system calls that are emulated without the kernel. *)
Definition emulated : list Sysnum := [PR_unshare; PR_setns; PR_mount; PR_umount; PR_umount2; PR_pivot_root; PR_getcwd].
(** The system calls that are missing, as in older kernels. *)
Definition missing : list Sysnum := [PR_fsopen; PR_fsconfig; PR_fsmount; PR_fspick; PR_move_mount; PR_mount_setattr; PR_open_tree_attr].

Section Voided.

Context {W Mem : Type} {TM : TraceeMemory Mem} {TS : TraceeStrings Mem} {MC : MemoryContents Mem}.
Context {K : Kernel W} {E : Extensions W} {V : PathEvents W} {N : PathPolicy W}.
Context {PP : PathPeers W} {EE : EnterEvents W Mem} {SV : SysServices W Mem}.

Lemma voided_untouched (x y : SysState W Mem) result : untouched x y -> voided x result -> voided y result.
Proof. intros (U & _ & _). unfold voided. by rewrite U. Qed.

Lemma done0_answer (m : HM W Mem unit) x y o : same_regs m -> regs_ok (x_regs x) -> done0 (do$ _ := m in answer 0) x = (y, Ok o) ->
  voided y 0 /\ o = Status 0.
Proof.
  intros Hm Hx H. unfold done0 in H. hstep H x1 z. hstep E0 x2 z'. injection H as <- <-. split; [|done]. destruct z.
  apply (answer_voids x2); [|done]. specialize (Hm x). by rewrite E1 in Hm; cbn in Hm; rewrite Hm.
Qed.

Lemma emulated_voided s (x y : SysState W Mem) o : s ∈ emulated -> regs_ok (x_regs x) -> handle_syscall s x = (y, Ok o) ->
  voided y 0 /\ o = Status 0.
Proof.
  intros Hs Hx H. destruct (mounts_same_regs (W := W) (Mem := Mem)) as (M1 & M2 & M3).
  assert (Hret : forall s', handle_syscall s' x = done0 (answer 0) x -> handle_syscall s' x = (y, Ok o) -> voided y 0 /\ o = Status 0).
  { intros s' -> H'. apply (done0_answer (hret ()) x y o); [by intros ?|done|exact H']. }
  unfold emulated in Hs. rewrite !elem_of_cons in Hs. destruct Hs as [-> | [-> | [-> | [-> | [-> | [-> | [-> | Hs]]]]]]]; [..|by apply elem_of_nil in Hs].
  - by apply (Hret PR_unshare).
  - by apply (Hret PR_setns).
  - by apply (done0_answer apply_emulated_mount x).
  - by apply (done0_answer apply_emulated_umount x).
  - by apply (done0_answer apply_emulated_umount x).
  - by apply (done0_answer apply_emulated_pivot_root x).
  - by apply (Hret PR_getcwd).
Qed.

Lemma ldiff_bounds a b : 0 <= a -> 0 <= Z.ldiff a b <= a.
Proof.
  intros Ha. assert (E1 : a - Z.land a b = Z.ldiff a (Z.land a b)).
  { apply Z.sub_nocarry_ldiff. apply Z.bits_inj'. intros n Hn. rewrite Z.ldiff_spec, Z.land_spec, Z.bits_0.
    by destruct (Z.testbit a n), (Z.testbit b n). }
  assert (E2 : Z.ldiff a (Z.land a b) = Z.ldiff a b).
  { apply Z.bits_inj'. intros n Hn. rewrite !Z.ldiff_spec, Z.land_spec. by destruct (Z.testbit a n), (Z.testbit b n). }
  assert (0 <= Z.land a b) by (apply Z.land_nonneg; by left). rewrite E2 in E1. split; [apply Z.ldiff_nonneg; by left|lia].
Qed.

Lemma clone_strips (x y : SysState W Mem) o : regs_ok (x_regs x) -> handle_clone x = (y, Ok o) ->
  peek_reg (x_regs y) CURRENT SYSARG_1 = Z.ldiff (peek_reg (x_regs x) CURRENT SYSARG_1) CLONE_NS_MASK
  /\ forall r, same_slot SYSARG_1 r = false -> peek_reg (x_regs y) CURRENT r = peek_reg (x_regs x) CURRENT r.
Proof.
  intros Hx H. unfold handle_clone in H. hstep H x1 flags. set (flags := peek_reg (x_regs x) CURRENT SYSARG_1) in *.
  hstep H x2 z. injection H as <- _. cbn [set_flags x_regs]. pose proof (peek_reg_range (x_regs x) CURRENT SYSARG_1 Hx) as Hrange.
  fold flags in Hrange. case_bool_in E0.
  - hstep E0 x3 z'. assert (Er : x_regs x3 = x_regs x) by (unfold strip_newns in E1; case_bool_in E1; by injection E1 as <-).
    injection E0 as <- _. cbn [set_regs x_regs]. rewrite Er. set (v := Z.ldiff flags CLONE_NS_MASK).
    assert (Hv : 0 <= v <= flags) by (apply ldiff_bounds; lia).
    assert (Hbits : 2 ^ reg_bits (x_regs x) <= 2 ^ 64) by (unfold reg_bits; destruct (is_aarch32 _); lia).
    assert (Ew : wrap64 v = v) by (unfold wrap64, wrap; apply Z.mod_small; lia). rewrite Ew. split.
    + rewrite peek_poke_reg by done. cbn. unfold wrap. apply Z.mod_small. lia.
    + intros r Hr. by rewrite peek_poke_reg, Hr by done.
  - injection E0 as <- _. split; [|done]. unfold has_flag in Hb. apply negb_false_iff, Z.eqb_eq in Hb. fold flags.
    rewrite <- (Z.lor_ldiff_and flags CLONE_NS_MASK) at 1. by rewrite Hb, Z.lor_0_r.
Qed.

(** clone3(2), whose flags are in memory. *)
Lemma clone3_strips (x y : SysState W Mem) {ML : MemoryContentsLaws Mem TM TS MC} o flags m :
  let a := peek_reg (x_regs x) CURRENT SYSARG_1 in
  let w := sizeof_word (x_regs x) in
  let stripped := to_le (Z.to_nat w) (Z.ldiff (of_le flags) CLONE_NS_MASK) in
  a <> 0 -> read_data (x_mem x) (x_me x) a w = inl flags -> has_flag (of_le flags) CLONE_NS_MASK = true ->
  write_data (x_mem x) (x_me x) a stripped = (m, None) -> handle_clone3 x = (y, Ok o) ->
  holds_at (x_mem y) (x_me y) a stripped /\ x_regs y = x_regs x.
Proof.
  intros a w stripped Ha Hr Hf Hw H. unfold handle_clone3 in H. hstep H x1 args_addr. fold a in H. hstep H x2 z. injection H as <- _.
  rewrite (proj2 (Z.eqb_neq _ _)) in E0 by done. hstep E0 x3 fe. unfold SysArgs.peek_word, hget in E1. fold w in E1. rewrite Hr in E1.
  injection E1 as <- <-. rewrite Hf in E0. cbn [bool_decide decide_rel andb] in E0. rewrite bool_decide_eq_true_2 in E0 by done. cbn [andb] in E0.
  hstep E0 x4 z'. assert (U : untouched x x4) by (unfold strip_newns in E1; case_bool_in E1; by injection E1 as <-).
  destruct U as (U1 & U2 & U3). hstep E0 x5 e. injection E0 as <- _. unfold SysArgs.poke_word in E2. hstep E2 x6 n.
  rewrite U1 in E2. fold w in E2. unfold poke_data in E2. rewrite U2, U3 in E2. fold stripped in E2. rewrite Hw in E2. injection E2 as <- <-.
  cbn. rewrite U1, U3. split; [by eapply written|done].
Qed.

End Voided.

(** C3: the kernel never makes, joins or changes a name-space for a tracee.  When
    the entry succeeds, unshare(2), setns(2), mount(2), umount(2), pivot_root(2) and
    getcwd(2) are replaced by the system call that does nothing, with the result 0;
    the new mount API does not get there; clone(2) keeps its other arguments and
    loses exactly the CLONE_NEW* flags, and so does the structure of clone3(2) in
    memory, if it can be written. *)
Theorem namespaces_never_reach_kernel {W Mem} (TM : TraceeMemory Mem) (TS : TraceeStrings Mem) (MC : MemoryContents Mem)
    (ML : MemoryContentsLaws Mem TM TS MC) (K : Kernel W) (E : Extensions W) (V : PathEvents W)
    (N : PathPolicy W) (PP : PathPeers W) (EE : EnterEvents W Mem) (SV : SysServices W Mem) (x x' : SysState W Mem) s st :
  regs_ok (x_regs x) -> get_sysnum (x_regs x) ORIGINAL = Ok s -> quiet_start x -> quiet_end ->
  translate_syscall_enter x = (x', Ok st) ->
  let first y := peek_reg (x_regs y) CURRENT SYSARG_1 in
  (s ∈ emulated -> voided x' 0 /\ st = 0)
  /\ ~ (s ∈ missing)
  /\ (s = PR_clone -> first x' = Z.ldiff (first x) CLONE_NS_MASK
      /\ forall r, same_slot SYSARG_1 r = false -> peek_reg (x_regs x') CURRENT r = peek_reg (x_regs x) CURRENT r)
  /\ (s = PR_clone3 -> forall flags m, let w := sizeof_word (x_regs x) in
      let stripped := to_le (Z.to_nat w) (Z.ldiff (of_le flags) CLONE_NS_MASK) in
      first x <> 0 -> read_data (x_mem x) (x_me x) (first x) w = inl flags -> has_flag (of_le flags) CLONE_NS_MASK = true ->
      write_data (x_mem x) (x_me x) (first x) stripped = (m, None) ->
      holds_at (x_mem x') (x_me x') (first x) stripped /\ x_regs x' = x_regs x).
Proof.
  intros Hg Hs Hq Hend H first. destruct (enter_handled _ _ _ _ Hq Hs H) as (y & o & Hy & Ho).
  assert (U : untouched y x').
  { destruct o as [n|n]; [destruct Ho as (_ & _ & r & Ho); by eapply Hend|by subst]. }
  split; [|split; [|split]].
  - intros Hin. destruct (emulated_voided s x y o Hin Hg Hy) as [Hv ->]. split; [by eapply voided_untouched|]. by destruct Ho as (<- & _).
  - unfold missing. rewrite !elem_of_cons, elem_of_nil. intros Hin.
    repeat destruct Hin as [-> | Hin]; [..|done]; discriminate Hy.
  - intros ->. destruct U as (U & _). unfold first. rewrite U. by eapply (clone_strips x y o).
  - intros -> flags m w stripped Ha Hr Hf Hw. destruct U as (U1 & U2 & U3). rewrite U1, U2, U3. by eapply (clone3_strips x y o flags m).
Qed.

(** What is refused, and the error. *)
Definition refused {W Mem} {TS : TraceeStrings Mem} (s : Sysnum) (x : SysState W Mem) (e : Z) : Prop :=
  (s ∈ missing /\ e = ENOSYS)
  \/ (s = PR_open_tree /\ has_flag (int_arg x SYSARG_3) OPEN_TREE_CLONE = true /\ e = ENOSYS)
  \/ (s = PR_execveat /\ int_arg x SYSARG_1 <> AT_FDCWD /\ e = ENOSYS)
  \/ (s = PR_memfd_create /\ e = EACCES /\ exists name,
      read_string (x_mem x) (x_me x) (peek_reg (x_regs x) CURRENT SYSARG_1) 19 = inl name
      /\ (name = bs "opcache_lock" \/ exists rest, name = bs "JITCode:" ++ rest \/ name = bs "lib/apk/exec/" ++ rest)).

(** C28: the system calls PRoot refuses, the new mount API, open_tree(2) of a copy,
    execveat(2) of a descriptor, memfd_create(2) of the names that are known to be
    trouble, fail with their error, whatever their other arguments; the extensions
    are told of it in the state the system call was entered with: nothing changed
    before. *)
Theorem refused_syscalls_fail {W Mem} (TM : TraceeMemory Mem) (TS : TraceeStrings Mem) (K : Kernel W) (E : Extensions W) (V : PathEvents W)
    (N : PathPolicy W) (PP : PathPeers W) (EE : EnterEvents W Mem) (SV : SysServices W Mem) (x x' : SysState W Mem) s e r :
  get_sysnum (x_regs x) ORIGINAL = Ok s -> quiet_start x -> refused s x e ->
  notify_SYSCALL_ENTER_END (- e) x = (x', Ok r) ->
  translate_syscall_enter x = (x', Err e).
Proof.
  intros Hs Hq Hr Hn. assert (Hh : handle_syscall s x = (x, Err e)).
  { destruct Hr as [[Hin ->]|[(-> & Hf & ->)|[(-> & Hf & ->)|(-> & -> & name & Hr & Hnames)]]].
    - unfold missing in Hin. rewrite !elem_of_cons, elem_of_nil in Hin. by repeat destruct Hin as [-> | Hin].
    - change (done0 handle_open_tree x = (x, Err ENOSYS)). unfold done0, handle_open_tree, hbind, peek_int, hget. fold (int_arg x SYSARG_3). by rewrite Hf.
    - change (handle_execveat x = (x, Err ENOSYS)). unfold handle_execveat, hbind, peek_int, hget. fold (int_arg x SYSARG_1).
      by rewrite (proj2 (Z.eqb_neq _ _)).
    - change (handle_memfd_create x = (x, Err EACCES)). unfold handle_memfd_create, hbind, peek, hget. rewrite Hr.
      assert (Hpre : forall p q, begins_with p (p ++ q) = true).
      { intros p q. unfold begins_with. rewrite take_app_length. apply str_eqb_refl. }
      destruct Hnames as [-> | (rest & [-> | ->])]; [done|by rewrite Hpre|]. rewrite (Hpre (bs "lib/apk/exec/")). by rewrite !orb_true_r. }
  unfold translate_syscall_enter, hbind, hattempt. rewrite Hq. cbn [Z.ltb Z.compare]. unfold sysnum_of. rewrite Hs, Hh.
  unfold end_error, hbind. by rewrite Hn.
Qed.

(** ** A tracee to compute with *)

#[local] Instance demo_memory : TraceeMemory DemoVm := mem_memory (K := demo_vm true).
#[local] Instance demo_strings : TraceeStrings DemoVm := mem_strings (K := demo_vm true).
#[local] Instance demo_contents : MemoryContents DemoVm := {| holds_at := held (byte := demo_byte) |}.
#[local] Instance no_peers : PathPeers unit := {
  net_policy_set_path_peer w _ := (w, inl ());
  net_policy_set_path_operation w _ := (w, inl ());
  net_policy_clear_path_peer w := w;
  shadow_access w _ _ := (w, inl ())
}.
#[local] Instance quiet_enter : EnterEvents unit DemoVm := {
  notify_SYSCALL_ENTER_START := hret 0;
  notify_SYSCALL_ENTER_END _ := hret 0
}.
#[local] Instance no_services : SysServices unit DemoVm := {
  translate_execve_enter := hret 0;
  translate_ptrace_enter := hret 0;
  translate_wait_enter := hret 0;
  translate_brk_enter := hret ();
  translate_socketcall_enter a _ := hret (0, a);
  translate_send_address a _ := hret (0, a);
  translate_sendmsg_enter a := hret (0, a);
  translate_sendmmsg_enter a n := hret (0, (a, n));
  translate_socketcall_send_enter _ a := hret (0, a);
  shadow_pipe_read_end _ := hret ();
  host_blocks_af_netlink := hret false;
  seccomp_ptrace_event_is_supported := true;
  if_nametoindex _ := 0
}.

(** The strings are at 4096 and 4160, in the page of the stack, whose top is 8192. *)
Definition enter_memory (p q : string) : DemoVm :=
  demo_put (demo_put (demo_put ∅ 4096 (replicate (Z.to_nat 4096) 0)) 4096 (bs p ++ [0])) 4160 (bs q ++ [0]).
Definition enter_regs (num : Z) (args : list (Reg * Z)) : Regs :=
  save_current_regs (fold_left (fun g '(r, value) => poke_reg g r (wrap64 value)) args
    (poke_reg (poke_reg (demo_regs false) STACK_POINTER 8192) SYSARG_NUM num)) ORIGINAL.
Definition enter_state (num : Z) (args : list (Reg * Z)) (p q : string) : SysState unit DemoVm :=
  mkSys (enter_regs num args) (enter_memory p q) 0 true demo_tracee (mkFlags false false false false 0 (-1) true) (mkNetlink [] [] 0 false).

(** linkat(AT_FDCWD, "link/y", AT_FDCWD, "/z", 0) *)
Definition linkat_state : SysState unit DemoVm :=
  enter_state 37 [(SYSARG_1, -100); (SYSARG_2, 4096); (SYSARG_3, -100); (SYSARG_4, 4160); (SYSARG_5, 0)] "link/y" "/z".

(** The string an argument points to. *)
Definition arg_string (x : SysState unit DemoVm) (r : Reg) : cstr + Z :=
  read_string (x_mem x) 0 (peek_reg (x_regs x) CURRENT r) PATH_MAX.

Lemma enter_regs_ok num args : regs_ok (enter_regs num args).
Proof.
  apply save_current_regs_ok.
  assert (H : regs_ok (poke_reg (poke_reg (demo_regs false) STACK_POINTER 8192) SYSARG_NUM num)) by (by do 2 apply poke_reg_ok; apply demo_regs_ok).
  revert H. generalize (poke_reg (poke_reg (demo_regs false) STACK_POINTER 8192) SYSARG_NUM num) as g.
  induction args as [|[r value] args IH]; intros g Hg; [done|]. cbn [fold_left]. by apply IH, poke_reg_ok.
Qed.

Lemma linkat_valid : regs_valid (x_regs linkat_state) PR_linkat.
Proof. split; [apply enter_regs_ok|]. split; [exists PR_linkat|]; by vm_compute. Qed.

Lemma quiet_enter_end : quiet_end (EE := quiet_enter).
Proof. intros n x y r Er. rewrite <- (f_equal fst Er : x = y). by split. Qed.

Lemma demo_cwd_ok : cwd_ok (fs demo_tracee).
Proof. split; [by repeat constructor|done]. Qed.

Abbreviation demo_enter links x :=
  (translate_syscall_enter (K := demo_kernel links) (E := quiet_extensions) (V := quiet_events) (N := static_policy) x).

Lemma linkat_enters :
  snd (demo_enter demo_links linkat_state) = Ok 0
  /\ arg_string (fst (demo_enter demo_links linkat_state)) SYSARG_2 = inl (bs "/data/root/sdcard/x/y")
  /\ arg_string (fst (demo_enter demo_links linkat_state)) SYSARG_4 = inl (bs "/data/root/z").
Proof. split_and!; by vm_compute. Qed.

Lemma pair_of {A B} (p : A * B) b : snd p = b -> p = (fst p, b).
Proof. by destruct p as [a c]; cbn; intros ->. Qed.


(** clone(CLONE_NEWNS | CLONE_NEWPID | SIGCHLD, 0x1234) *)
Definition clone_state : SysState unit DemoVm := enter_state 220 [(SYSARG_1, CLONE_NEWNS + CLONE_NEWPID + 17); (SYSARG_2, 0x1234)] "" "".

Lemma clone_enters :
  snd (demo_enter [] clone_state) = Ok 0
  /\ peek_reg (x_regs (fst (demo_enter [] clone_state))) CURRENT SYSARG_1 = 17
  /\ get_sysnum (x_regs clone_state) ORIGINAL = Ok PR_clone.
Proof. split_and!; by vm_compute. Qed.

Lemma namespaces_never_reach_kernel_witness :
  peek_reg (x_regs (fst (demo_enter [] clone_state))) CURRENT SYSARG_1 = 17
  /\ peek_reg (x_regs (fst (demo_enter [] clone_state))) CURRENT SYSARG_1
     = Z.ldiff (peek_reg (x_regs clone_state) CURRENT SYSARG_1) CLONE_NS_MASK
  /\ forall r, same_slot SYSARG_1 r = false ->
     peek_reg (x_regs (fst (demo_enter [] clone_state))) CURRENT r = peek_reg (x_regs clone_state) CURRENT r.
Proof.
  split; [exact (proj1 (proj2 clone_enters))|].
  exact (proj1 (proj2 (proj2 (namespaces_never_reach_kernel demo_memory demo_strings demo_contents
    (mem_contents_laws (demo_vm true) demo_byte (demo_vm_laws true)) (demo_kernel []) quiet_extensions quiet_events static_policy
    no_peers quiet_enter no_services clone_state (fst (demo_enter [] clone_state)) PR_clone 0
    (enter_regs_ok _ _) (proj2 (proj2 clone_enters)) eq_refl quiet_enter_end (pair_of _ _ (proj1 clone_enters))))) eq_refl).
Defined.

(** memfd_create("JITCode:QtQml", 0) *)
Definition memfd_state : SysState unit DemoVm := enter_state 279 [(SYSARG_1, 4096)] "JITCode:QtQml" "".

Lemma memfd_refused : get_sysnum (x_regs memfd_state) ORIGINAL = Ok PR_memfd_create /\ refused PR_memfd_create memfd_state EACCES.
Proof.
  split; [by vm_compute|]. right; right; right. split; [done|]. split; [done|]. exists (bs "JITCode:QtQml"). split; [by vm_compute|].
  right. exists (bs "QtQml"). by left.
Qed.

Lemma refused_syscalls_fail_witness : demo_enter [] memfd_state = (memfd_state, Err EACCES).
Proof.
  exact (refused_syscalls_fail demo_memory demo_strings (demo_kernel []) quiet_extensions quiet_events static_policy
    no_peers quiet_enter no_services memfd_state memfd_state PR_memfd_create EACCES 0
    (proj1 memfd_refused) eq_refl (proj2 memfd_refused) eq_refl).
Defined.

(** ** Where the code differs from Linux *)

Definition after_entry (links : list (cstr * cstr)) (num : Z) (args : list (Reg * Z)) (p : string) : cstr + Z :=
  arg_string (fst (demo_enter links (enter_state num args p ""))) SYSARG_2.

(** mknodat(2), and faccessat2(2) with AT_SYMLINK_NOFOLLOW, act on what a symlink
    leads to, although they must not follow it, and name_to_handle_at(2) does
    although it must only with AT_SYMLINK_FOLLOW; linkat(2) keeps the symlink. *)
Lemma last_symlinks_followed :
  let at_ num flags := after_entry escape_links num ([(SYSARG_1, -100); (SYSARG_2, 4096)] ++ flags) "/out" in
  at_ 439 [(SYSARG_4, AT_SYMLINK_NOFOLLOW)] = inl (bs "/sdcard/x")
  /\ at_ 264 [(SYSARG_5, 0)] = inl (bs "/sdcard/x")
  /\ at_ 33 [] = inl (bs "/sdcard/x")
  /\ after_entry escape_links 37 [(SYSARG_1, -100); (SYSARG_2, 4096); (SYSARG_3, -100); (SYSARG_4, 4096)] "/out" = inl (bs "/data/root/out").
Proof. split_and!; by vm_compute. Qed.

(** Everything is searchable. *)
Definition searchable (K : Kernel unit) : Kernel unit := {|
  lstat w p := match lstat w p with inl mode => inl (Z.lor mode S_IXUSR) | inr e => inr e end;
  readlink := readlink;
  listdir := listdir;
  mkdir := mkdir;
  mknod := mknod;
  create_temp_directory := create_temp_directory;
  set_placeholder_destructor := set_placeholder_destructor;
  PROOT_DONT_POLLUTE_ROOTFS := PROOT_DONT_POLLUTE_ROOTFS;
  f2fs_bug_detected := f2fs_bug_detected
|}.

(** chdir(2) of a null pointer, or of the empty string, succeeds: the path is
    joined with "." first. *)
Lemma chdir_accepts_null :
  let chdir a :=
    let '(x, r) := translate_syscall_enter (K := searchable (demo_kernel [])) (E := quiet_extensions) (V := quiet_events) (N := static_policy)
                     (enter_state 49 [(SYSARG_1, a)] "" "") in
    (r, get_sysnum (x_regs x) CURRENT) in
  chdir 0 = (Ok 0, Ok PR_void) /\ chdir 4096 = (Ok 0, Ok PR_void).
Proof. split; by vm_compute. Qed.
