(* ===== verification/Sockets.v ===== *)
(** * Addresses of Unix sockets (src/syscall/socket.c)

    The path of the address given to bind(2), connect(2), sendto(2), sendmsg(2) and
    sendmmsg(2) is translated, in a copy of the structure put in the memory of the
    tracee; the one the kernel gives back is detranslated in place. *)

From S2P Require Import Prelude Mem Memory Paths Binding ProcLinks Canon Lookup Sysnum Regs Translate SysArgs Mounts Netlink Enter.

(** ** Data *)

(** struct sockaddr_un: two bytes for the family, [sizeof_path] for the path. *)
Definition offsetof_path := 2.
Definition sizeof_path := 108.
Definition UIO_MAXIOV := 1024.

(** The name of a socket in the directory of temporary files, of at most this
    length. *)
Class SocketNames (W : Type) := { create_temp_socket_name : W -> Z -> W * option cstr }.

(** strncpy(): the bytes of a string, padded with null bytes. *)
Definition strncpy (n : nat) (s : cstr) : list Z := take n s ++ replicate (n - length s) 0.

(** The bytes of a copy are replaced, from an offset. *)
Definition overwrite (i : nat) (data b : list Z) : list Z := take i b ++ data ++ drop (i + length data) b.

Section Sockets.

Context {W Mem : Type} {TM : TraceeMemory Mem} {TS : TraceeStrings Mem}.
Context {K : Kernel W} {E : Extensions W} {V : PathEvents W} {N : PathPolicy W} {SN : SocketNames W}.

Abbreviation H A := (HM W Mem A).

(** ** Reading and pushing *)

(** The structure and its path; [None] when it is not the address of a named Unix
    socket, or has an unexpected size. *)
Definition read_sockaddr_un (max_size address size : Z) : H (option (list Z * cstr)) :=
  if sizeof_sockaddr_un <? max_size then hlift (Stuck AssertFailed)
  else if (size <=? offsetof_path) || (max_size <? size) then hret None
  else
    do$ data := peek_data address size in
    match data with
    | inr e => hfail e
    | inl data =>
        let sockaddr := data ++ replicate (Z.to_nat (sizeof_sockaddr_un - size)) 0 in
        if negb (of_le (take 2 sockaddr) =? AF_UNIX) || (chr sockaddr 2 =? 0) then hret None
        else hret (Some (sockaddr, until_nul (Z.to_nat sizeof_path) (drop 2 sockaddr)))
    end.

(** Bytes put below the stack pointer, and their address. *)
Definition push_data (data : list Z) : H Z :=
  do$ address := (fun x => match alloc_mem (x_sysenter x) (x_regs x) (zlen data) with
                           | Ok (g, a) => (set_regs g x, Ok a)
                           | Err e => (x, Err e)
                           | Stuck w => (x, Stuck w)
                           end) in
  if address =? 0 then hfail EFAULT
  else
    do$ e := poke_data address data in
    match e with Some e => hfail e | None => hret address end.

Definition push_sockaddr_un (sockaddr : list Z) (host_path : cstr) : H Z :=
  push_data (take 2 sockaddr ++ strncpy (Z.to_nat sizeof_path) host_path).

(** ** bind(2) and connect(2) *)

(** A path that is too long is bound to a shorter one. *)
Definition shorter_path (host_path : cstr) : M W cstr :=
  do! name := on_world (fun w => let '(w, name) := create_temp_socket_name w sizeof_path in (w, inl name)) in
  match name with
  | None => fail EINVAL
  | Some shorter_host_path =>
      do! v := get view in
      do! f := get fs in
      do! user_path := attempt (lift (detranslate_path v f host_path None)) in
      match user_path with
      | inr _ => fail EINVAL
      | inl (_, user_path) =>
          do! binding := attempt (insort_binding3_m shorter_host_path user_path) in
          match binding with inr _ => fail EINVAL | inl _ => ret shorter_host_path end
      end
  end.

Definition socket_path (regs : Regs) (user_path : cstr) : M W cstr :=
  do! host_path := translate_path regs AT_FDCWD user_path true in
  if sizeof_path <? zlen host_path then shorter_path host_path else ret host_path.

(** The status, 1 when there is a new address, and the address. *)
Definition translate_socketcall_enter (address size : Z) : H (Z * Z) :=
  if address =? 0 then hret (0, address)
  else
    do$ sockaddr := read_sockaddr_un sizeof_sockaddr_un address size in
    match sockaddr with
    | None => hret (0, address)
    | Some (sockaddr, user_path) =>
        do$ regs := hget x_regs in
        do$ host_path := on_path (socket_path regs user_path) in
        do$ address := push_sockaddr_un sockaddr host_path in
        hret (1, address)
    end.

(** ** Destinations of messages *)

Definition missing_path (e : Z) : bool := (e =? ENOENT) || (e =? ENOTDIR).

(** [None] when the address is left as it is. *)
Definition destination_path (regs : Regs) (user_path : cstr) : M W (option cstr) :=
  do! translation := attempt (translate_path regs AT_FDCWD user_path true) in
  do! w := get world in
  let result :=
    match translation with
    | inl host_path =>
        if absolute user_path || (sizeof_path <? zlen host_path) then
          match lstat w host_path with
          | inr e => if missing_path e then inr e else inl host_path
          | inl _ => inl host_path
          end
        else inl host_path
    | inr e => inr e
    end in
  match result with
  | inr e => if missing_path e && absolute user_path then ret None else fail e
  | inl host_path => if sizeof_path <? zlen host_path then fail ENAMETOOLONG else ret (Some host_path)
  end.

Definition translate_send_address (address size : Z) : H (Z * Z) :=
  if address =? 0 then hret (0, address)
  else
    do$ sockaddr := read_sockaddr_un sizeof_sockaddr_un address size in
    match sockaddr with
    | None => hret (0, address)
    | Some (sockaddr, user_path) =>
        do$ regs := hget x_regs in
        do$ host_path := on_path (destination_path regs user_path) in
        match host_path with
        | None => hret (0, address)
        | Some host_path =>
            do$ address := push_sockaddr_un sockaddr host_path in
            hret (1, address)
        end
    end.

(** A word of a copy of the memory of the tracee. *)
Definition get_word (w : Z) (i : nat) (data : list Z) : Z := of_le (slice (i * Z.to_nat w) (Z.to_nat w) data).
Definition set_word (w : Z) (i : nat) (value : Z) (data : list Z) : list Z :=
  overwrite (i * Z.to_nat w) (to_le (Z.to_nat w) value) data.

Definition SIZEOF_MSGHDR (w : Z) : Z := 7 * w.
Definition SIZEOF_MMSGHDR (w : Z) : Z := 8 * w.

(** The updated copy of the header of a message, [None] when nothing changed. *)
Definition translate_msg_name (msghdr : list Z) : H (option (list Z)) :=
  do$ w := word_size in
  let namelen := sgn 32 (of_le (slice (Z.to_nat w) 4 msghdr)) in
  do$ (status, name) := translate_send_address (get_word w 0 msghdr) namelen in
  hret (if status <=? 0 then None
        else Some (overwrite (Z.to_nat w) (to_le 4 sizeof_sockaddr_un) (set_word w 0 name msghdr))).

Definition translate_sendmsg_enter (address : Z) : H (Z * Z) :=
  if address =? 0 then hret (0, address)
  else
    do$ w := word_size in
    do$ data := peek_data address (SIZEOF_MSGHDR w) in
    match data with
    | inr _ => hret (0, address)
    | inl msghdr =>
        do$ msghdr := translate_msg_name msghdr in
        match msghdr with
        | None => hret (0, address)
        | Some msghdr => do$ address := push_data msghdr in hret (1, address)
        end
    end.

(** The headers until the first error, and the error. *)
Fixpoint translate_msg_names (size : nat) (count : nat) (vector : list Z) : H (bool * list (list Z) * option Z) :=
  match count with
  | O => hret (false, [], None)
  | S count =>
      let msg := take size vector in
      do$ r := hattempt (translate_msg_name msg) in
      match r with
      | inr e => hret (false, [], Some e)
      | inl new =>
          do$ (translated, messages, e) := translate_msg_names size count (drop size vector) in
          hret (match new with Some _ => true | None => translated end, default msg new :: messages, e)
      end
  end.

Definition translate_sendmmsg_enter (address vlen : Z) : H (Z * (Z * Z)) :=
  if (address =? 0) || (vlen =? 0) then hret (0, (address, vlen))
  else
    do$ w := word_size in
    let size := SIZEOF_MMSGHDR w in
    let count := Z.min vlen UIO_MAXIOV in
    do$ data := peek_data address (count * size) in
    match data with
    | inr _ => hret (0, (address, vlen))
    | inl vector =>
        do$ (translated, messages, e) := translate_msg_names (Z.to_nat size) (Z.to_nat count) vector in
        match e, messages with
        | Some e, [] => hfail e
        | None, _ =>
            if translated : bool then do$ address := push_data (concat messages) in hret (1, (address, zlen messages))
            else hret (0, (address, vlen))
        | Some _, _ =>
            do$ address := (if translated : bool then push_data (concat messages) else hret address) in
            hret (1, (address, zlen messages))
        end
    end.

(** [count] numbers of bytes sent, from the message [i]. *)
Fixpoint report_lengths (count : nat) (w i address copy : Z) : H unit :=
  match count with
  | O => hret ()
  | S count =>
      let at_ base := wrap64 (base + i * SIZEOF_MMSGHDR w + SIZEOF_MSGHDR w) in
      do$ len := peek_uint32 (at_ copy) in
      match len with
      | inr e => hfail e
      | inl len =>
          do$ e := poke_data (at_ address) (to_le 4 len) in
          match e with Some e => hfail e | None => report_lengths count w (i + 1) address copy end
      end
  end.

Definition translate_sendmmsg_exit (address copy count : Z) : H unit :=
  do$ w := word_size in
  report_lengths (Z.to_nat count) w 0 address copy.

(** ** socketcall(2) *)

Definition nb_args (call : Z) : option Z :=
  if call =? SYS_SENDTO then Some 6
  else if call =? SYS_SENDMSG then Some 3
  else if call =? SYS_SENDMMSG then Some 4
  else None.

(** The updated copy of the arguments. *)
Definition translate_call_args (call w : Z) (args : list Z) : H (option (list Z)) :=
  let arg i := get_word w i args in
  if call =? SYS_SENDTO then
    do$ (status, value1) := translate_send_address (arg 4%nat) (sgn 32 (arg 5%nat)) in
    hret (if status <=? 0 then None else Some (set_word w 5 sizeof_sockaddr_un (set_word w 4 value1 args)))
  else if call =? SYS_SENDMSG then
    do$ (status, value1) := translate_sendmsg_enter (arg 1%nat) in
    hret (if status <=? 0 then None else Some (set_word w 1 value1 args))
  else
    do$ (status, (value1, value2)) := translate_sendmmsg_enter (arg 1%nat) (wrap32 (arg 2%nat)) in
    hret (if status <=? 0 then None else Some (set_word w 2 value2 (set_word w 1 value1 args))).

Definition translate_socketcall_send_enter (call address : Z) : H (Z * Z) :=
  match nb_args call with
  | None => hret (0, address)
  | Some n =>
      do$ w := word_size in
      do$ data := peek_data address (n * w) in
      match data with
      | inr _ => hret (0, address)
      | inl args =>
          do$ args := translate_call_args call w args in
          match args with
          | None => hret (0, address)
          | Some args => do$ address := push_data args in hret (1, address)
          end
      end
  end.

(** ** The address of a socket *)

Definition translate_socketcall_exit (sock_addr size_addr max_size : Z) : H unit :=
  if sock_addr =? 0 then hret ()
  else
    do$ size := peek_uint32 size_addr in
    match size with
    | inr e => hfail e
    | inl size =>
        let max_size := Z.min max_size sizeof_sockaddr_un in
        do$ sockaddr := read_sockaddr_un max_size sock_addr (sgn 32 size) in
        match sockaddr with
        | None => hret ()
        | Some (sockaddr, path) =>
            do$ path := on_path (do! v := get view in
                                 do! f := get fs in
                                 do! (_, path) := lift (detranslate_path v f path None) in
                                 ret path) in
            let size := offsetof_path + zlen path + 1 in
            let is_truncated := max_size <? size in
            let size := if is_truncated then max_size else size in
            let sockaddr := take 2 sockaddr ++ strncpy (Z.to_nat sizeof_path) path in
            do$ e := poke_data sock_addr (take (Z.to_nat size) sockaddr) in
            match e with
            | Some e => hfail e
            | None =>
                do$ e := poke_data size_addr (to_le 4 (if is_truncated then max_size + 1 else size)) in
                match e with Some e => hfail e | None => hret () end
            end
        end
    end.

End Sockets.

(** ** Computations that write in given ranges of memory only *)

(** Every byte outside of the ranges stays, and the registers too. *)
Definition outside (ranges : list (Z * Z)) (b n : Z) : Prop := Forall (fun '(a, m) => b + n <= a \/ a + m <= b) ranges.

Record spared {W Mem} {MC : MemoryContents Mem} (ranges : list (Z * Z)) (x x' : SysState W Mem) : Prop := {
  sp_me : x_me x' = x_me x;
  sp_regs : x_regs x' = x_regs x;
  sp_kept : forall b bytes, outside ranges b (zlen bytes) -> holds_at (x_mem x) (x_me x) b bytes -> holds_at (x_mem x') (x_me x) b bytes
}.

Definition spares {W Mem A} {MC : MemoryContents Mem} (ranges : list (Z * Z)) (m : HM W Mem A) : Prop :=
  forall x, spared ranges x (fst (m x)).

Section Spares.

Context {W Mem : Type} {TM : TraceeMemory Mem} {TS : TraceeStrings Mem} {MC : MemoryContents Mem}.
Context {ML : MemoryContentsLaws Mem TM TS MC}.
Context (ranges : list (Z * Z)).

Lemma spared_refl (x : SysState W Mem) : spared ranges x x.
Proof. by split. Qed.

Lemma spared_trans (x y z : SysState W Mem) : spared ranges x y -> spared ranges y z -> spared ranges x z.
Proof.
  intros [H1 H2 H3] [H4 H5 H6]. split; [congruence..|]. intros b bytes Hb Hh. rewrite <- H1. apply H6; [done|].
  rewrite H1. by apply H3.
Qed.

Lemma spares_bind {A B} (m : HM W Mem A) (k : A -> HM W Mem B) : spares ranges m -> (forall a, spares ranges (k a)) -> spares ranges (hbind m k).
Proof.
  intros Hm Hk x. unfold hbind. specialize (Hm x). destruct (m x) as [y [a|e|w]]; [|done..].
  eapply spared_trans; [exact Hm|apply Hk].
Qed.

Lemma spares_attempt {A} (m : HM W Mem A) : spares ranges m -> spares ranges (hattempt m).
Proof. intros Hm x. specialize (Hm x). unfold hattempt. by destruct (m x) as [y [a|e|w]]. Qed.

Lemma spares_path {A} (m : M W A) : spares (Mem := Mem) ranges (on_path m).
Proof. intros x. unfold on_path. destruct (m (x_path x)). by split. Qed.

Lemma spares_data a n l : (a, n) ∈ ranges -> zlen l <= n -> spares (W := W) ranges (poke_data a l).
Proof.
  intros Hin Hn x. unfold poke_data. destruct (write_data _ _ _ _) as [m e] eqn:Ew. split; [done..|]. cbn.
  intros b bytes Hb Hh. eapply kept; [exact Ew|exact Hh|]. unfold outside in Hb. rewrite List.Forall_forall in Hb.
  apply list_elem_of_In in Hin. specialize (Hb _ Hin). cbn in Hb. lia.
Qed.

Lemma spares_flag f : spares (W := W) (Mem := Mem) ranges (set_flag f).
Proof. intros x. by split. Qed.

Lemma spares_netlink f : spares (W := W) (Mem := Mem) ranges (modify_netlink f).
Proof. intros x. by split. Qed.

End Spares.

Create HintDb spares.
#[export] Hint Resolve spares_attempt spares_path spares_flag spares_netlink : spares.

Ltac spares :=
  repeat first
    [ progress intros
    | solve [auto with spares]
    | match goal with
      | |- spares _ (hret _) => by intros ?; apply spared_refl
      | |- spares _ (hfail _) => by intros ?; apply spared_refl
      | |- spares _ (hlift _) => by intros ?; apply spared_refl
      | |- spares _ (hget _) => by intros ?; apply spared_refl
      | |- spares _ (peek _ _) => by intros ?; apply spared_refl
      | |- spares _ (peek_int _ _) => by intros ?; apply spared_refl
      | |- spares _ (peek_data _ _) => by intros ?; apply spared_refl
      | |- spares _ (peek_uint32 _) => unfold peek_uint32
      | |- spares _ word_size => by intros ?; apply spared_refl
      | |- spares _ (hbind _ _) => apply spares_bind
      | |- spares _ (hattempt _) => apply spares_attempt
      end
    | progress cbv zeta
    | case_match ].

(** ** What is pushed *)

Lemma strncpy_length n s : length (strncpy n s) = n.
Proof. unfold strncpy. rewrite length_app, length_take, length_replicate. lia. Qed.

Section Pushed.

Context {W Mem : Type} {TM : TraceeMemory Mem} {TS : TraceeStrings Mem} {MC : MemoryContents Mem}.
Context {ML : MemoryContentsLaws Mem TM TS MC}.

Abbreviation State := (SysState W Mem).
Abbreviation sp x := (peek_reg (x_regs x) CURRENT STACK_POINTER).
Abbreviation reg x r := (peek_reg (x_regs x) CURRENT r).

(** Some bytes are put just below the stack pointer, which is lowered; nothing else
    changes. *)
Record pushed (bytes : list Z) (a : Z) (x x' : State) : Prop := {
  pu_at : a = sp x - zlen bytes /\ sp x' = a;
  pu_held : holds_at (x_mem x') (x_me x') a bytes;
  pu_me : x_me x' = x_me x;
  pu_ok : regs_ok (x_regs x');
  pu_regs : forall r, is_arg r = true -> reg x' r = reg x r;
  pu_kept : forall b l, sp x <= b -> holds_at (x_mem x) (x_me x) b l -> holds_at (x_mem x') (x_me x) b l;
  pu_path : x_path x' = x_path x
}.

Lemma push_data_pushed bytes a x x' : regs_ok (x_regs x) -> 0 < zlen bytes -> push_data bytes x = (x', Ok a) -> pushed bytes a x x'.
Proof.
  intros Hg Hn Ep. unfold push_data, hbind in Ep. destruct (alloc_mem _ _ _) as [[g b]|e|w] eqn:Ea; [|done..].
  case_bool_in Ep; [done|]. bool_facts. destruct (alloc_mem_below _ _ _ _ _ Hg Hn Ea Hb) as (Eb & -> & W1 & W2).
  unfold poke_data in Ep. cbn in Ep. destruct (write_data _ _ _ _) as [m e] eqn:Ed. destruct e as [e|]; [done|].
  injection Ep as <- <-. assert (Hsp : forall r, peek_reg (poke_reg (x_regs x) STACK_POINTER b) CURRENT r
    = if same_slot STACK_POINTER r then b else reg x r) by (intros r; rewrite peek_poke_reg by done; by rewrite W2).
  split; cbn; [by rewrite Hsp|by eapply written|done|by apply poke_reg_ok| |intros c l Hc Hh; eapply kept; [exact Ed|exact Hh|]; lia|done].
  intros r Hr. rewrite Hsp. by destruct (is_arg_slots r Hr) as (_ & _ & -> & _).
Qed.

End Pushed.

(** ** The addresses that are translated *)

(** The structure the tracee gave, completed with null bytes. *)
Definition padded (n : Z) (data : list Z) : list Z := data ++ replicate (Z.to_nat (sizeof_sockaddr_un - n)) 0.
(** It is the address of a Unix socket that has a name. *)
Definition named_unix (n : Z) (data : list Z) : bool :=
  (offsetof_path <? n) && (n <=? sizeof_sockaddr_un) && (of_le (take 2 (padded n data)) =? AF_UNIX) && negb (chr (padded n data) 2 =? 0).
Definition unix_path (n : Z) (data : list Z) : cstr := until_nul (Z.to_nat sizeof_path) (drop 2 (padded n data)).

Lemma unix_path_nul_free n data : nul_free (unix_path n data).
Proof. apply until_nul_spec. Qed.

Section Addresses.

Context {W Mem : Type} {TM : TraceeMemory Mem} {TS : TraceeStrings Mem} {MC : MemoryContents Mem}.
Context {ML : MemoryContentsLaws Mem TM TS MC}.
Context {K : Kernel W} {E : Extensions W} {L : KernelLaws W K}.
Context {V : PathEvents W} {N : PathPolicy W} {TE : TransparentEvents W V} {SN : SocketNames W}.
Context (f : FileSystemNameSpace) (root : list cstr) (l k : list Binding) (v : ProcView).
Hypothesis Hroot : rooted f root.
Hypothesis Hwf : fs_wf f.
Hypothesis Hsz : fs_sized f.
Hypothesis Hl : bindings_guest f = Some l.
Hypothesis Hk : bindings_host f = Some k.
Hypothesis Hv : view_ok v.
Hypothesis Hcwd : nul_free (cwd f) /\ cwd f <> [].

Abbreviation State := (SysState W Mem).

Lemma read_sockaddr_un_inv max a n (x x' : State) r : max <= sizeof_sockaddr_un -> read_sockaddr_un max a n x = (x', Ok r) ->
  x' = x /\ match r with
            | None => max < n \/ forall data, read_data (x_mem x) (x_me x) a n = inl data -> named_unix n data = false
            | Some (sockaddr, u) => exists data, read_data (x_mem x) (x_me x) a n = inl data
                /\ named_unix n data = true /\ sockaddr = padded n data /\ u = unix_path n data
            end.
Proof.
  unfold read_sockaddr_un, named_unix. intros Hmax H. rewrite (proj2 (Z.ltb_ge _ _)) in H by lia. case_bool_in H.
  { injection H as <- <-. split; [done|]. apply orb_true_iff in Hb as [Hb|Hb]; bool_facts; [right|by left].
    intros data _. by rewrite (proj2 (Z.ltb_ge _ _)) by lia. }
  apply orb_false_iff in Hb as [Hb1 Hb2]. bool_facts. rewrite (proj2 (Z.ltb_lt _ _)), (proj2 (Z.leb_le _ _)) by lia. cbn [andb].
  hstep H x1 data. destruct (read_data _ _ _ _) as [data|e] eqn:Er; [|done]. fold (padded n data) in H. case_bool_in H; injection H as <- <-; (split; [done|]).
  - right. intros data' Ed. assert (data' = data) as -> by (by injection Ed). apply orb_true_iff in Hb as [Hb|Hb].
    + apply negb_true_iff in Hb. by rewrite Hb.
    + rewrite Hb. apply andb_false_r.
  - apply orb_false_iff in Hb as [Hb3 Hb4]. apply negb_false_iff in Hb3. exists data. rewrite Hb3, Hb4. done.
Qed.

(** The host path of a socket to bind: the translation of the path, or a name that
    is bound to it when it does not fit. *)
Definition bound_path (u p : cstr) (t : Tracee W) : Prop :=
  exists h, kept_or_followed f l v AT_FDCWD u true h
    /\ if zlen h <=? sizeof_path then p = h /\ fs t = f
       else exists size guest addr b, detranslate_path v f h None = Ok (size, guest) /\ insort_binding3 f addr p guest = Ok (b, fs t).

Lemma attempt_inv {A} (m : M W A) (t t' : Tracee W) r : attempt m t = (t', Ok r) ->
  match r with inl a => m t = (t', Ok a) | inr e => m t = (t', Err e) end.
Proof. unfold attempt. destruct (m t) as [t1 [a|e|w]]; by intros [= <- <-]. Qed.

Lemma bind_inv {A B} (m : M W A) (q : A -> M W B) t t' b : bind m q t = (t', Ok b) -> exists t1 a, m t = (t1, Ok a) /\ q a t1 = (t', Ok b).
Proof. unfold bind. destruct (m t) as [t1 [a|e|w]]; [eauto|done..]. Qed.

Lemma shorter_path_inv h p t t' : stable f v t -> shorter_path h t = (t', Ok p) ->
  exists size guest addr b, detranslate_path v f h None = Ok (size, guest) /\ insort_binding3 f addr p guest = Ok (b, fs t').
Proof.
  intros (Hf & Hv' & Hg) Hs. unfold shorter_path in Hs. apply bind_inv in Hs as (t1 & name & E1 & Hs).
  unfold on_world in E1. destruct (create_temp_socket_name (world t) sizeof_path) as [w n]. injection E1 as <- <-. destruct n as [n|]; [|done].
  apply bind_inv in Hs as (t2 & v' & E2 & Hs). injection E2 as <- <-. apply bind_inv in Hs as (t2 & f' & E2 & Hs). injection E2 as <- <-.
  cbn in Hs. apply bind_inv in Hs as (t2 & r & E2 & Hs). apply attempt_inv in E2. unfold lift in E2. destruct r as [[size guest]|e]; [|done].
  injection E2 as <- E2. apply bind_inv in Hs as (t2 & r & E3 & Hs). apply attempt_inv in E3. destruct r as [[]|e]; [|done]. injection Hs as <- <-.
  unfold insort_binding3_m in E3. cbn in E3. destruct (insort_binding3 _ _ _ _) as [[b fs1]|e|why] eqn:Ei; [|done..]. injection E3 as <-.
  rewrite <- Hf, <- Hv'. by exists size, guest, (next_addr t), b.
Qed.

Lemma socket_path_inv regs s u p t t' : get_sysnum regs CURRENT = Ok s -> stable f v t -> nul_free u ->
  socket_path regs u t = (t', Ok p) -> bound_path u p t'.
Proof.
  intros Hs Ht Hu H. unfold socket_path in H. apply bind_inv in H as (t1 & h & E1 & H).
  destruct (translated_resolves f root l k v Hroot Hwf Hsz Hl Hk Hv Hcwd _ _ _ _ _ _ _ _ Hs Ht Hu E1) as [Ht1 Hh].
  exists h. split; [done|]. case_bool_in H; bool_facts.
  - rewrite (proj2 (Z.leb_gt _ _)) by lia. by eapply shorter_path_inv.
  - rewrite (proj2 (Z.leb_le _ _)) by lia. injection H as <- <-. by destruct Ht1.
Qed.

(** The destination does not exist: the error of its translation or of lstat(2). *)
Definition missing (w : W) (r : res cstr) : Prop :=
  match r with
  | Ok h => exists e, lstat w h = inr e /\ missing_path e = true
  | Err e => missing_path e = true
  | Stuck _ => False
  end.

Lemma destination_path_inv regs s u r t t' : get_sysnum regs CURRENT = Ok s -> stable f v t -> nul_free u ->
  destination_path regs u t = (t', Ok r) ->
  let tr := snd (translate_path regs AT_FDCWD u true t) in
  stable f v t' /\ match r with
                   | None => absolute u = true /\ missing (world t') tr
                   | Some p => tr = Ok p /\ kept_or_followed f l v AT_FDCWD u true p /\ zlen p <= sizeof_path
                       /\ (absolute u = true -> ~ missing (world t') tr)
                   end.
Proof.
  intros Hs Ht Hu H tr. unfold tr. clear tr. unfold destination_path in H. apply bind_inv in H as (t1 & tr & E1 & H). apply attempt_inv in E1.
  apply bind_inv in H as (t2 & w & E2 & H). injection E2 as <- <-.
  assert (Hst : stable f v t1).
  { pose proof (translate_path_ok f root l k v Hroot Hwf Hsz Hl Hk Hv Hcwd regs s AT_FDCWD u true Hs Hu t Ht) as [H1 _]. by destruct tr; rewrite E1 in H1. }
  assert (Hfail : forall e, (if missing_path e && absolute u then ret None else fail e) t1 = (t', Ok r) -> t' = t1 /\ r = None /\ absolute u = true /\ missing_path e = true).
  { intros e He. case_bool_in He; [|done]. apply andb_true_iff in Hb as [Hm Hb]. by injection He as <- <-. }
  destruct tr as [h|e]; rewrite E1; cbn [snd]; [|apply Hfail in H as (-> & -> & ? & ?); done].
  destruct (translated_resolves f root l k v Hroot Hwf Hsz Hl Hk Hv Hcwd _ _ _ _ _ _ _ _ Hs Ht Hu E1) as [_ Hh].
  assert (Hgive : (absolute u = true -> ~ missing (world t1) (Ok h)) -> (if sizeof_path <? zlen h then fail ENAMETOOLONG else ret (Some h)) t1 = (t', Ok r) ->
    stable f v t' /\ match r with
                     | None => absolute u = true /\ missing (world t') (Ok h)
                     | Some p => Ok h = Ok p /\ kept_or_followed f l v AT_FDCWD u true p /\ zlen p <= sizeof_path /\ (absolute u = true -> ~ missing (world t') (Ok h))
                     end).
  { intros Hp He. case_bool_in He; [done|]. bool_facts. by injection He as <- <-. }
  case_bool_in H; [|apply Hgive; [intros Ha; rewrite Ha in Hb; done|done]]. cbn [missing] in *. destruct (lstat _ h) as [mode|e] eqn:El.
  { apply Hgive; [|done]. by intros _ (e & Ee & _). }
  case_bool_in H; [|apply Hgive; [|done]; intros _ (e' & Ee & Em); injection Ee as <-; by rewrite Em in Hb0].
  apply Hfail in H as (-> & -> & ? & ?). split; [done|]. split; [done|]. by exists e.
Qed.

End Addresses.

Lemma socketcall_exit_spares {W Mem} {TM : TraceeMemory Mem} {TS : TraceeStrings Mem} {MC : MemoryContents Mem}
    {ML : MemoryContentsLaws Mem TM TS MC} sock_addr size_addr max_size : 0 <= max_size ->
  spares (W := W) [(sock_addr, Z.min max_size sizeof_sockaddr_un); (size_addr, 4)] (translate_socketcall_exit sock_addr size_addr max_size).
Proof.
  intros Hmax. unfold translate_socketcall_exit, read_sockaddr_un. change sizeof_sockaddr_un with 110. spares.
  all: eapply spares_data; [first [apply list_elem_of_here | apply list_elem_of_further, list_elem_of_here]|]; unfold zlen in *; rewrite ?length_to_le, ?length_take; lia.
Qed.

(** ** Properties *)

(** A copy of the address, with this path, is put below the stack pointer; the part
    of the tracee that deals with paths changed to [t] before. *)
Definition address_pushed {W Mem} {MC : MemoryContents Mem} (x x' : SysState W Mem) (n : Z) (data : list Z) (p : cstr) (a' : Z) : Prop :=
  exists t, pushed (take 2 (padded n data) ++ strncpy (Z.to_nat sizeof_path) p) a'
              (mkSys (x_regs x) (x_mem x) (x_me x) (x_sysenter x) t (x_flags x) (x_netlink x)) x'.

(** C12: the addresses of Unix sockets.  The address given to bind(2) or connect(2)
    is replaced, when the handler succeeds, if and only if it is the address of a
    named Unix socket; the one given to sendto(2) is then left if its path is
    absolute and does not exist in the guest, and only then.  The new one is a copy
    below the stack pointer, the memory of the tracee being left, with the same
    family and the host path translate_path() gives, confined to the bindings; a
    path that does not fit the 108 bytes is refused to sendto(2), and is replaced
    for the others by a shorter name bound to its guest path. *)
Theorem unix_addresses_translated {W Mem} (TM : TraceeMemory Mem) (TS : TraceeStrings Mem) (MC : MemoryContents Mem)
    (ML : MemoryContentsLaws Mem TM TS MC) (K : Kernel W) (E : Extensions W) (L : KernelLaws W K) (V : PathEvents W)
    (N : PathPolicy W) (TE : TransparentEvents W V) (SN : SocketNames W) (x x' : SysState W Mem) l s a n st a' :
  tracee_ok (x_path x) -> bindings_guest (fs (x_path x)) = Some l -> cwd_ok (fs (x_path x)) ->
  regs_ok (x_regs x) -> get_sysnum (x_regs x) CURRENT = Ok s ->
  let left_as_is := st = 0 /\ a' = a /\ untouched x x' in
  let unnamed := a = 0 \/ forall data, read_data (x_mem x) (x_me x) a n = inl data -> named_unix n data = false in
  let translation data := snd (translate_path (x_regs x) AT_FDCWD (unix_path n data) true (x_path x)) in
  (translate_socketcall_enter a n x = (x', Ok (st, a')) ->
   left_as_is /\ unnamed
   \/ st = 1 /\ exists data p, read_data (x_mem x) (x_me x) a n = inl data /\ named_unix n data = true
        /\ address_pushed x x' n data p a' /\ bound_path (fs (x_path x)) l (view (x_path x)) (unix_path n data) p (x_path x'))
  /\ (translate_send_address a n x = (x', Ok (st, a')) ->
   left_as_is /\ (unnamed \/ exists data, read_data (x_mem x) (x_me x) a n = inl data /\ named_unix n data = true
                    /\ absolute (unix_path n data) = true /\ missing (world (x_path x')) (translation data))
   \/ st = 1 /\ exists data p, read_data (x_mem x) (x_me x) a n = inl data /\ named_unix n data = true
        /\ (absolute (unix_path n data) = true -> ~ missing (world (x_path x')) (translation data))
        /\ address_pushed x x' n data p a' /\ translation data = Ok p
        /\ kept_or_followed (fs (x_path x)) l (view (x_path x)) AT_FDCWD (unix_path n data) true p /\ zlen p <= sizeof_path).
Proof.
  intros ((root & Hr) & Hwf & Hsz & (k & Hk) & Hv & Hg0) Hl Hc Hg Hs left_as_is unnamed translation.
  assert (Hst : stable (fs (x_path x)) (view (x_path x)) (x_path x)) by done.
  assert (Hlen : forall data p, 0 < zlen (take 2 (padded n data) ++ strncpy (Z.to_nat sizeof_path) p)).
  { intros data p. unfold zlen. rewrite length_app, strncpy_length. change (Z.to_nat sizeof_path) with 108%nat. lia. }
  split; intros H; [unfold translate_socketcall_enter in H | unfold translate_send_address in H].
  all: case_bool_in H; bool_facts; [injection H as <- <- <-; left; by repeat (split || left)|].
  all: hstep H x1 r; apply read_sockaddr_un_inv in E0 as [-> Er]; [|done]; destruct r as [[sockaddr u]|]; [|injection H as <- <- <-; left].
  2, 4: assert (Hun : unnamed) by (right; intros data Ed; destruct Er as [Er|Er]; [unfold named_unix; rewrite (proj2 (Z.leb_gt n _)) by done; by rewrite andb_false_r|by apply Er]).
  2: by split. 2: { split; [done|]. left. exact Hun. }
  all: destruct Er as (data & Ed & Hn & -> & ->); hstep H x2 regs; hstep H x3 p; apply on_path_inv in E0 as (t & Et & ->).
  - right. hstep H x4 b. injection H as <- <- <-. pose proof (push_data_pushed _ _ _ _ (Hg : regs_ok (x_regs (mkSys _ _ _ _ t _ _))) (Hlen _ _) E0) as Hp.
    split; [done|]. exists data, p. split; [done|]. split; [done|]. split; [by exists t|]. rewrite (pu_path _ _ _ _ Hp). cbn [x_path].
    eapply socket_path_inv; try done. apply unix_path_nul_free.
  - eapply destination_path_inv in Et as [Hst' Et]; try done; [|apply unix_path_nul_free]. destruct p as [p|].
    + right. hstep H x4 b. injection H as <- <- <-. destruct Et as (Etr & Et & Hlt & Hex).
      pose proof (push_data_pushed _ _ _ _ (Hg : regs_ok (x_regs (mkSys _ _ _ _ t _ _))) (Hlen _ _) E0) as Hp.
      split; [done|]. exists data, p. split; [done|]. split; [done|]. split; [by rewrite (pu_path _ _ _ _ Hp)|]. split; [by exists t|]. by split.
    + injection H as <- <- <-. left. split; [done|]. right. exists data. by destruct Et.
Qed.

(** C17: getsockname(2), getpeername(2) and accept(2) stay in the buffer of the
    tracee.  Whatever the kernel reported, only the bytes of the buffer, of
    [max_size] bytes, and the four bytes of its size are written.  When the handler
    succeeds, either nothing changed, or the address of a named Unix socket was
    detranslated: it is truncated to the buffer, and the size that is reported is
    the one of the address, or exceeds the one of the buffer if it is truncated. *)
Theorem sockname_in_bounds {W Mem} (TM : TraceeMemory Mem) (TS : TraceeStrings Mem) (MC : MemoryContents Mem)
    (ML : MemoryContentsLaws Mem TM TS MC) (x : SysState W Mem) sock_addr size_addr max_size :
  0 <= max_size ->
  let x' := fst (translate_socketcall_exit sock_addr size_addr max_size x) in
  let m := Z.min max_size sizeof_sockaddr_un in
  spared [(sock_addr, m); (size_addr, 4)] x x'
  /\ (snd (translate_socketcall_exit sock_addr size_addr max_size x) = Ok () ->
      x' = x
      \/ exists n data size path,
           read_data (x_mem x) (x_me x) sock_addr n = inl data /\ named_unix n data = true
           /\ detranslate_path (view (x_path x)) (fs (x_path x)) (unix_path n data) None = Ok (size, path)
           /\ (let full := offsetof_path + zlen path + 1 in
               (outside [(size_addr, 4)] sock_addr m ->
                holds_at (x_mem x') (x_me x') sock_addr
                  (take (Z.to_nat (Z.min m full)) (take 2 (padded n data) ++ strncpy (Z.to_nat sizeof_path) path)))
               /\ holds_at (x_mem x') (x_me x') size_addr (to_le 4 (if full <=? m then full else m + 1)))).
Proof.
  intros Hmax x' m. split; [by apply socketcall_exit_spares|]. intros Hok.
  destruct (translate_socketcall_exit sock_addr size_addr max_size x) as [y r] eqn:H. cbn in Hok, x'. subst r x'.
  unfold translate_socketcall_exit in H. fold m in H. case_bool_in H; [injection H as <-; by left|].
  unfold peek_uint32 in H. hstep H x1 len. hstep E x2 len'. injection E as <- <-. destruct (read_data _ _ size_addr 4) as [sz|e] eqn:Es; [|done].
  hstep H x3 r. apply read_sockaddr_un_inv in E as [-> Er]; [|unfold m, sizeof_sockaddr_un; lia]. destruct r as [[sockaddr u]|]; [|injection H as <-; by left].
  destruct Er as (data & Ed & Hn & -> & ->). hstep H x4 p0. apply on_path_inv in E as (t & Et & ->).
  apply bind_inv in Et as (t1 & v & E1 & Et). injection E1 as <- <-. apply bind_inv in Et as (t1 & f & E1 & Et). injection E1 as <- <-.
  apply bind_inv in Et as (t1 & [sz1 p1] & E1 & Et). unfold lift in E1. injection E1 as <- E1. injection Et as <- <-. cbn [x_mem x_me] in *.
  right. exists (sgn 32 (of_le sz)), data, sz1, p1. split; [done|]. split; [done|]. split; [done|]. cbv zeta in H |- *.
  set (full := offsetof_path + zlen p1 + 1) in *. hstep H x5 e. destruct e as [e|]; [done|]. hstep H x6 e'. destruct e' as [e'|]; [done|]. injection H as <-.
  assert (Hsz : (if m <? full then m else full) = Z.min m full) by (destruct (m <? full) eqn:Eb; bool_facts; lia). rewrite Hsz in *.
  unfold poke_data in E, E0. cbn [x_mem x_me] in E. destruct (write_data (x_mem x) _ _ _) as [m1 e1] eqn:W1. injection E as <- ->.
  cbn [set_mem x_mem x_me] in E0. destruct (write_data m1 _ _ _) as [m2 e2] eqn:W2. injection E0 as <- ->. cbn. split.
  - intros Hout. eapply kept; [exact W2|by eapply written|]. inversion Hout as [|? ? Ho _]; subst. cbn in Ho. unfold zlen.
    rewrite length_to_le, length_take. unfold m, sizeof_sockaddr_un in *. lia.
  - apply written in W2. destruct (full <=? m) eqn:Ef, (m <? full) eqn:Em; bool_facts; try lia; [|done].
    by replace (Z.min m full) with full in W2 by lia.
Qed.

(** ** The handlers of Enter, with these functions *)

#[export] Instance socket_services {W Mem} {TM : TraceeMemory Mem} {TS : TraceeStrings Mem} {K : Kernel W} {E : Extensions W}
    {V : PathEvents W} {N : PathPolicy W} {SN : SocketNames W} (rest : SysServices W Mem) : SysServices W Mem | 100 := {
  translate_execve_enter := @Enter.translate_execve_enter _ _ rest;
  translate_ptrace_enter := @Enter.translate_ptrace_enter _ _ rest;
  translate_wait_enter := @Enter.translate_wait_enter _ _ rest;
  translate_brk_enter := @Enter.translate_brk_enter _ _ rest;
  Enter.translate_socketcall_enter := translate_socketcall_enter;
  Enter.translate_send_address := translate_send_address;
  Enter.translate_sendmsg_enter := translate_sendmsg_enter;
  Enter.translate_sendmmsg_enter := translate_sendmmsg_enter;
  Enter.translate_socketcall_send_enter := translate_socketcall_send_enter;
  shadow_pipe_read_end := @Enter.shadow_pipe_read_end _ _ rest;
  host_blocks_af_netlink := @Enter.host_blocks_af_netlink _ _ rest;
  seccomp_ptrace_event_is_supported := @Enter.seccomp_ptrace_event_is_supported _ _ rest;
  if_nametoindex := @Enter.if_nametoindex _ _ rest
}.

(** ** A tracee to compute with *)

#[local] Existing Instance demo_memory.
#[local] Existing Instance demo_strings.
#[local] Existing Instance demo_contents.
#[local] Existing Instance no_peers.
#[local] Existing Instance quiet_enter.
#[local] Instance demo_names : SocketNames unit := { create_temp_socket_name w _ := (w, Some (bs "/tmp/proot-1")) }.

(** The address of a Unix socket at 4096, its size, or a word, at 4352. *)
Definition socket_memory (path : string) (size : Z) : DemoVm :=
  demo_put (demo_put (demo_put ∅ 4096 (replicate (Z.to_nat 4096) 0)) 4096 (to_le 2 AF_UNIX ++ bs path ++ [0])) 4352 (to_le 4 size).
Definition socket_state (num : Z) (args : list (Reg * Z)) (path : string) (size : Z) : SysState unit DemoVm :=
  mkSys (enter_regs num args) (socket_memory path size) 0 true demo_tracee (mkFlags false false false false 0 (-1) true) (mkNetlink [] [] 0 false).
(** bind(3, address, sizeof(struct sockaddr_un)) *)
Definition bind_state (path : string) : SysState unit DemoVm :=
  socket_state 200 [(SYSARG_1, 3); (SYSARG_2, 4096); (SYSARG_3, 110)] path 110.

Section Demo.

#[local] Instance linked_kernel : Kernel unit := demo_kernel demo_links.
#[local] Existing Instance quiet_extensions.
#[local] Existing Instance quiet_events.
#[local] Existing Instance static_policy.

(** bind(2) as a whole, from the handler of Enter. *)
Lemma bind_enters :
  let r := translate_syscall_enter (SV := socket_services no_services) (bind_state "/link/s") in
  snd r = Ok 0
  /\ read_data (x_mem (fst r)) 0 (peek_reg (x_regs (fst r)) CURRENT SYSARG_2) 23
     = inl (to_le 2 AF_UNIX ++ bs "/data/root/sdcard/x/s").
Proof. by vm_compute. Qed.


Lemma bind_translated :
  let r := translate_socketcall_enter 4096 110 (bind_state "/link/s") in
  snd r = Ok (1, 8082) /\ read_data (x_mem (fst r)) 0 8082 23 = inl (to_le 2 AF_UNIX ++ bs "/data/root/sdcard/x/s").
Proof. split; by vm_compute. Qed.

Lemma unix_addresses_translated_witness :
  let x := bind_state "/link/s" in
  let x' := fst (translate_socketcall_enter 4096 110 x) in
  read_data (x_mem x') 0 8082 23 = inl (to_le 2 AF_UNIX ++ bs "/data/root/sdcard/x/s")
  /\ exists data p, read_data (x_mem x) (x_me x) 4096 110 = inl data /\ named_unix 110 data = true
       /\ address_pushed x x' 110 data p 8082
       /\ bound_path (fs (x_path x)) [demo_tmp; demo_sd; demo_root] (view (x_path x)) (unix_path 110 data) p (x_path x').
Proof.
  split; [exact (proj2 bind_translated)|].
  assert (Hs : get_sysnum (x_regs (bind_state "/link/s")) CURRENT = Ok PR_bind) by (by vm_compute).
  destruct (proj1 (unix_addresses_translated demo_memory demo_strings demo_contents (mem_contents_laws (demo_vm true) demo_byte (demo_vm_laws true))
    linked_kernel quiet_extensions (demo_laws demo_links ltac:(by repeat constructor)) quiet_events static_policy quiet_transparent demo_names
    (bind_state "/link/s") (fst (translate_socketcall_enter 4096 110 (bind_state "/link/s"))) [demo_tmp; demo_sd; demo_root] PR_bind 4096 110 1 8082
    demo_tracee_ok eq_refl demo_cwd_ok (enter_regs_ok _ _) Hs) (pair_of _ _ (proj1 bind_translated))) as [[(H & _) _]|[_ H]]; [done|exact H].
Defined.

(** getsockname(2): the kernel wrote a host path of 17 bytes in a buffer of 40. *)
Definition sockname_state (size : Z) : SysState unit DemoVm := socket_state 204 [] "/data/root/tmp/s" size.

Lemma sockname_in_bounds_witness :
  let x' := fst (translate_socketcall_exit 4096 4352 40 (sockname_state 19)) in
  read_data (x_mem x') 0 4096 9 = inl (to_le 2 AF_UNIX ++ bs "/tmp/s" ++ [0]) /\ read_data (x_mem x') 0 4352 4 = inl (to_le 4 9)
  /\ spared [(4096, 40); (4352, 4)] (sockname_state 19) x'.
Proof.
  split; [by vm_compute|]. split; [by vm_compute|].
  exact (proj1 (sockname_in_bounds demo_memory demo_strings demo_contents (mem_contents_laws (demo_vm true) demo_byte (demo_vm_laws true))
    (sockname_state 19) 4096 4352 40 ltac:(done))).
Defined.

(** A host path that the kernel truncates is given to the tracee as it is. *)
Lemma sockname_leaks_host_path :
  let r := translate_socketcall_exit 4096 4352 12 (sockname_state 19) in
  snd r = Ok () /\ read_data (x_mem (fst r)) 0 4096 12 = inl (to_le 2 AF_UNIX ++ bs "/data/root").
Proof. split; by vm_compute. Qed.

End Demo.
