(* ===== verification/Sigsys.v ===== *)
(** * System calls that an outer policy rejects (src/tracee/seccomp.c, src/tracee/statx.c)

    Android's policy kills the obsolete system calls with SIGSYS: they are replaced
    by the call that stands for them, restarted at the trap instruction, or their
    result is computed at once.  statx(2) is emulated with stat(2). *)

From S2P Require Import Prelude Mem Memory Paths Binding ProcLinks Canon Lookup Sysnum Regs Translate SysArgs Mounts Netlink Enter Sockets.

(** ** Data *)

Definition AT_REMOVEDIR := 0x200.
Definition SIGCHLD := 17.
Definition TMPFS_MAGIC := 0x01021994.
Definition EOVERFLOW := 75.

(** struct stat: a time is a number of seconds and of nanoseconds. *)
Record HostStat := mkStat {
  st_mode : Z; st_nlink : Z; st_uid : Z; st_gid : Z; st_rdev : Z; st_ino : Z; st_size : Z; st_blksize : Z; st_blocks : Z;
  st_atim : Z * Z; st_mtim : Z * Z; st_ctim : Z * Z
}.

(** struct statfs64. *)
Record HostStatfs := mkStatfs {
  f_type : Z; f_bsize : Z; f_blocks : Z; f_bfree : Z; f_bavail : Z; f_files : Z; f_ffree : Z; f_fsid : Z;
  f_namelen : Z; f_frsize : Z; f_flags : Z
}.

(** struct statx_syscall_state: what the extensions are given. *)
Record StatxState := mkStatx { host_path : cstr; statx_buf : list Z; updated_stats : bool }.

(** What the host answers, and the extensions. *)
Class StatHost (W : Type) := {
  stat : W -> cstr -> status HostStat;
  lstat_all : W -> cstr -> status HostStat;
  statfs64 : W -> cstr -> status HostStatfs;
  getpgid : W -> Z;
  getresuid : W -> status (Z * Z * Z);
  getresgid : W -> status (Z * Z * Z);
  time : W -> Z
}.
Class SigsysEvents (W Mem : Type) := {
  notify_SIGSYS_OCC : HM W Mem Z;
  notify_STATX_SYSCALL : StatxState -> HM W Mem StatxState;
  proc_isolation_statx_is_host_proc_path : HM W Mem bool
}.
(** The registers given to the kernel. *)
Class RegisterKernel (W : Type) := { ptrace_regs : W -> PtraceRequest -> W * option Z }.

(** ** statx(2) *)

Definition STATX_TYPE := 0x1.
Definition STATX_MODE := 0x2.
Definition STATX_NLINK := 0x4.
Definition STATX_UID := 0x8.
Definition STATX_GID := 0x10.
Definition STATX_ATIME := 0x20.
Definition STATX_MTIME := 0x40.
Definition STATX_CTIME := 0x80.
Definition STATX_INO := 0x100.
Definition STATX_SIZE := 0x200.
Definition STATX_BLOCKS := 0x400.
Definition STATX_BTIME := 0x800.
Definition STATX_ALL : Z :=
  fold_right Z.lor 0 [STATX_TYPE; STATX_MODE; STATX_NLINK; STATX_UID; STATX_GID; STATX_ATIME; STATX_MTIME; STATX_CTIME; STATX_INO;
                      STATX_SIZE; STATX_BLOCKS; STATX_BTIME].
Definition sizeof_statx := 256.

Definition major (dev : Z) : Z := Z.lor (Z.land (Z.shiftr dev 8) 0xfff) (Z.land (wrap32 (Z.shiftr dev 32)) 0xfffff000).
Definition minor (dev : Z) : Z := Z.lor (Z.land dev 0xff) (Z.land (wrap32 (Z.shiftr dev 12)) 0xffffff00).

(** struct statx_timestamp. *)
Definition timestamp (t : Z * Z) : list Z := to_le 8 (fst t) ++ to_le 4 (snd t) ++ to_le 4 0.

(** struct statx in the order of its fields; the device of the file is left null. *)
Definition statx_of (mask : Z) (s : HostStat) : list Z :=
  let when bits v := if Z.land mask bits =? 0 then 0 else v in
  let when_time bits t := timestamp (if Z.land mask bits =? 0 then (0, 0) else t) in
  to_le 4 (Z.land mask STATX_ALL) ++ to_le 4 (st_blksize s) ++ to_le 8 0
  ++ to_le 4 (when STATX_NLINK (st_nlink s)) ++ to_le 4 (when STATX_UID (st_uid s)) ++ to_le 4 (when STATX_GID (st_gid s))
  ++ to_le 2 (when (Z.lor STATX_TYPE STATX_MODE) (st_mode s)) ++ to_le 2 0
  ++ to_le 8 (when STATX_INO (st_ino s)) ++ to_le 8 (when STATX_SIZE (st_size s)) ++ to_le 8 (when STATX_BLOCKS (st_blocks s)) ++ to_le 8 0
  ++ when_time STATX_ATIME (st_atim s) ++ when_time STATX_BTIME (st_ctim s) ++ when_time STATX_CTIME (st_ctim s) ++ when_time STATX_MTIME (st_mtim s)
  ++ to_le 4 (major (st_rdev s)) ++ to_le 4 (minor (st_rdev s)) ++ replicate 120 0.

Section Sigsys.

Context {W Mem : Type} {TM : TraceeMemory Mem} {TS : TraceeStrings Mem}.
Context {K : Kernel W} {E : Extensions W} {V : PathEvents W} {N : PathPolicy W}.
Context {SH : StatHost W} {SE : SigsysEvents W Mem} {RK : RegisterKernel W}.

Abbreviation H A := (HM W Mem A).

(** The host path, and whether it is the one of a descriptor. *)
Definition statx_path (regs : Regs) (dirfd flags : Z) (guest_path : cstr) : M W (cstr * bool) :=
  let do_lstat := has_flag flags AT_SYMLINK_NOFOLLOW in
  if str_eqb guest_path [] then
    if negb (has_flag flags AT_EMPTY_PATH) then fail ENOENT
    else if dirfd =? AT_FDCWD then do! p := translate_path regs AT_FDCWD (bs ".") (negb do_lstat) in ret (p, false)
    else
      do! v := get view in
      do! p := readlink_proc_pid_fd (pid v) dirfd in
      ret (p, true)
  else if PATH_MAX <=? zlen guest_path + 1 then fail ENAMETOOLONG
  else do! p := translate_path regs dirfd guest_path (negb do_lstat) in ret (p, false).

Definition statx_result (dirfd flags : Z) (host_path : cstr) (do_fstat : bool) : M W HostStat :=
  do! w := get world in
  do! v := get view in
  lift (of_status (
    if do_fstat then stat w (take 31 (bs "/proc/" ++ itoa (pid v) ++ bs "/fd/" ++ itoa dirfd))
    else if has_flag flags AT_SYMLINK_NOFOLLOW then lstat_all w host_path else stat w host_path)).

(** A failure is the status of the function, which is 0 otherwise. *)
Definition handle_statx_syscall (from_sigsys : bool) : H unit :=
  let version := if from_sigsys then CURRENT else ORIGINAL in
  do$ flags := peek version SYSARG_3 in
  do$ mask := peek version SYSARG_4 in
  do$ addr := peek version SYSARG_2 in
  do$ guest_path := hget (fun x => read_string (x_mem x) (x_me x) addr PATH_MAX) in
  match guest_path with
  | inr e => hfail e
  | inl guest_path =>
      do$ dirfd := peek_int version SYSARG_1 in
      do$ regs := hget x_regs in
      do$ (host_path, do_fstat) := on_path (statx_path regs dirfd flags guest_path) in
      do$ result := peek CURRENT SYSARG_RESULT in
      do$ state :=
        (if from_sigsys || negb (result =? 0) then
           do$ s := on_path (statx_result dirfd flags host_path do_fstat) in
           hret (mkStatx host_path (statx_of mask s) true)
         else
           do$ buf := peek ORIGINAL SYSARG_5 in
           do$ data := peek_data buf sizeof_statx in
           match data with inr e => hfail e | inl data => hret (mkStatx host_path data false) end) in
      do$ state := notify_STATX_SYSCALL state in
      if updated_stats state then
        do$ buf := peek CURRENT SYSARG_5 in
        do$ e := poke_data buf (statx_buf state) in
        match e with Some e => hfail e | None => hret () end
      else hret ()
  end.

(** ** Restarts and results *)

(** push_specific_regs() without the number of the system call; nothing reads its
    status. *)
Definition push_registers : H unit := fun x =>
  let t := x_path x in
  let '(log, g, _) := push_specific_regs (fun r => snd (ptrace_regs (world t) r)) (x_regs x) false in
  let w := fold_left (fun w r => fst (ptrace_regs w r)) log (world t) in
  (mkSys g (x_mem x) (x_me x) (x_sysenter x) (mkTracee (fs t) (glue t) (glue_type t) (next_addr t) (view t) w) (x_flags x) (x_netlink x), Ok ()).

Definition expect_restore (t : Regs) : Regs :=
  mkRegs (banks t) (is_aarch32 t) (regs_were_changed t) (restore_original_regs t) true (syscall_change_unsupported t).

Definition restart_syscall_after_seccomp : H unit :=
  do$ _ := hset (fun x => set_flags (set_restart_syscall true (x_flags x)) (set_regs (expect_restore (x_regs x)) x)) in
  do$ instr_pointer := peek CURRENT INSTR_POINTER in
  do$ size := hget (fun x => get_systrap_size (x_regs x)) in
  do$ _ := poke INSTR_POINTER (instr_pointer - size) in
  push_registers.

Definition set_result_after_seccomp (result : Z) : H unit :=
  do$ _ := poke SYSARG_RESULT result in
  push_registers.

(** A status: 0, or the negated error. *)
Definition result_of (m : H unit) : H unit :=
  do$ r := hattempt m in
  set_result_after_seccomp (match r with inl _ => 0 | inr e => - e end).

(** ** The calls that are replaced *)

(** poke_reg(dst, peek_reg(CURRENT, src)) *)
Definition move (dst src : Reg) : H unit := do$ v := peek CURRENT src in poke dst v.
Fixpoint moves (l : list (Reg * (Reg + Z))) : H unit :=
  match l with
  | [] => hret ()
  | (dst, inl src) :: l => do$ _ := move dst src in moves l
  | (dst, inr v) :: l => do$ _ := poke dst v in moves l
  end.
(** A call whose arguments are moved in this order. *)
Definition replaced (s : Sysnum) (l : list (Reg * (Reg + Z))) : H unit :=
  do$ _ := change_sysnum s in
  do$ _ := moves l in
  restart_syscall_after_seccomp.

(** The moves of the calls that only exchange their arguments. *)
Definition replacement (s : Sysnum) : option (Sysnum * list (Reg * (Reg + Z))) :=
  let among := sysnum_in s in
  if s =? PR_open then
    Some (PR_openat, [(SYSARG_4, inl SYSARG_3); (SYSARG_3, inl SYSARG_2); (SYSARG_2, inl SYSARG_1); (SYSARG_1, inr AT_FDCWD)])
  else if s =? PR_accept then Some (PR_accept4, [(SYSARG_4, inr 0)])
  else if s =? PR_symlink then Some (PR_symlinkat, [(SYSARG_3, inl SYSARG_2); (SYSARG_2, inr AT_FDCWD)])
  else if s =? PR_link then
    Some (PR_linkat, [(SYSARG_4, inl SYSARG_2); (SYSARG_2, inl SYSARG_1); (SYSARG_1, inr AT_FDCWD); (SYSARG_3, inr AT_FDCWD); (SYSARG_5, inr 0)])
  else if s =? PR_chmod then
    Some (PR_fchmodat, [(SYSARG_3, inl SYSARG_2); (SYSARG_2, inl SYSARG_1); (SYSARG_1, inr AT_FDCWD); (SYSARG_4, inr 0)])
  else if among [PR_chown; PR_lchown; PR_chown32; PR_lchown32] then
    Some (PR_fchownat, [(SYSARG_4, inl SYSARG_3); (SYSARG_3, inl SYSARG_2); (SYSARG_2, inl SYSARG_1); (SYSARG_1, inr AT_FDCWD);
                        (SYSARG_5, inr (if among [PR_lchown; PR_lchown32] then AT_SYMLINK_NOFOLLOW else 0))])
  else if among [PR_unlink; PR_rmdir] then
    Some (PR_unlinkat, [(SYSARG_2, inl SYSARG_1); (SYSARG_1, inr AT_FDCWD); (SYSARG_3, inr (if s =? PR_rmdir then AT_REMOVEDIR else 0))])
  else if s =? PR_send then Some (PR_sendto, [(SYSARG_5, inr 0); (SYSARG_6, inr 0)])
  else if s =? PR_recv then Some (PR_recvfrom, [(SYSARG_5, inr 0); (SYSARG_6, inr 0)])
  else if s =? PR_waitpid then Some (PR_wait4, [(SYSARG_4, inr 0)])
  else if among [PR_stat; PR_lstat] then
    Some (PR_newfstatat, [(SYSARG_4, inr (if s =? PR_lstat then AT_SYMLINK_NOFOLLOW else 0)); (SYSARG_3, inl SYSARG_2);
                          (SYSARG_2, inl SYSARG_1); (SYSARG_1, inr AT_FDCWD)])
  else if s =? PR_pipe then Some (PR_pipe2, [(SYSARG_2, inr 0)])
  else if s =? PR_dup2 then Some (PR_dup3, [(SYSARG_3, inr 0)])
  else if s =? PR_access then
    Some (PR_faccessat, [(SYSARG_4, inr 0); (SYSARG_3, inl SYSARG_2); (SYSARG_2, inl SYSARG_1); (SYSARG_1, inr AT_FDCWD)])
  else if s =? PR_mkdir then Some (PR_mkdirat, [(SYSARG_3, inl SYSARG_2); (SYSARG_2, inl SYSARG_1); (SYSARG_1, inr AT_FDCWD)])
  else if s =? PR_rename then
    Some (PR_renameat, [(SYSARG_4, inl SYSARG_2); (SYSARG_3, inr AT_FDCWD); (SYSARG_2, inl SYSARG_1); (SYSARG_1, inr AT_FDCWD)])
  else if s =? PR_epoll_wait then Some (PR_epoll_pwait, [(SYSARG_5, inr 0); (SYSARG_6, inr 0)])
  else if s =? PR_fork then
    Some (PR_clone, [(SYSARG_1, inr SIGCHLD); (SYSARG_2, inr 0); (SYSARG_3, inr 0); (SYSARG_4, inr 0); (SYSARG_5, inr 0)])
  else None.

(** ** The calls that are answered *)

(** [Some e] when the memory of the tracee cannot be read or written. *)
Definition alloc (size : Z) : H Z :=
  fun x => match alloc_mem (x_sysenter x) (x_regs x) size with
           | Ok (g, a) => (set_regs g x, Ok a)
           | Err e => (x, Err e)
           | Stuck w => (x, Stuck w)
           end.

Definition handle_openat2_rejected : H unit :=
  do$ how_size := peek CURRENT SYSARG_4 in
  do$ addr := peek CURRENT SYSARG_3 in
  do$ how := peek_data addr (Z.min how_size sizeof_open_how) in
  match how with
  | inr e => set_result_after_seccomp (- e)
  | inl how =>
      do$ _ := change_sysnum PR_openat in
      do$ _ := poke SYSARG_3 (of_le (slice 0 8 how)) in
      do$ _ := poke SYSARG_4 (of_le (slice 8 8 how)) in
      restart_syscall_after_seccomp
  end.

(** struct compat_statfs, thirteen int and fsid_t. *)
Definition compat_statfs (s : HostStatfs) (f_type : Z) : list Z :=
  concat (map (to_le 4) [f_type; f_bsize s; f_blocks s; f_bfree s; f_bavail s; f_files s; f_ffree s])
  ++ to_le 8 (f_fsid s) ++ concat (map (to_le 4) [f_namelen s; f_frsize s; f_flags s]) ++ replicate 16 0.
Definition overflows_int (s : HostStatfs) : bool :=
  negb (Z.land (fold_right Z.lor 0 [f_blocks s; f_bfree s; f_bavail s; f_bsize s; f_frsize s; f_files s; f_ffree s]) 0xffffffff00000000 =? 0).

(** A path is below /dev/shm, which is given the type of tmpfs. *)
Definition below_devshm (regs : Regs) (host_path : cstr) : M W bool :=
  do! devshm_path := attempt (translate_path regs AT_FDCWD (bs "/dev/shm") true) in
  match devshm_path with
  | inr _ => ret false
  | inl devshm_path =>
      do! comparison := lift (compare_paths devshm_path host_path) in
      ret (bool_decide (comparison = PATHS_ARE_EQUAL) || bool_decide (comparison = PATH1_IS_PREFIX))
  end.

(** The status of the translation is not looked at: the path that was not written
    is used. *)
Definition handle_statfs_rejected : H unit :=
  do$ addr := peek CURRENT SYSARG_1 in
  do$ original := hget (fun x => read_string (x_mem x) (x_me x) addr PATH_MAX) in
  match original with
  | inr e => set_result_after_seccomp (- e)
  | inl original =>
      if PATH_MAX <=? zlen original + 1 then set_result_after_seccomp (- ENAMETOOLONG)
      else
        do$ regs := hget x_regs in
        do$ path := on_path (attempt (translate_path regs AT_FDCWD original true)) in
        match path with
        | inr _ => hlift (Stuck OutOfBounds)
        | inl path =>
            do$ s := hget (fun x => statfs64 (world (x_path x)) path) in
            match s with
            | inr e => set_result_after_seccomp (- e)
            | inl s =>
                do$ shm := on_path (below_devshm regs path) in
                if overflows_int s then set_result_after_seccomp (- EOVERFLOW)
                else
                  do$ buf := peek CURRENT SYSARG_2 in
                  do$ _ := poke_data buf (compat_statfs s (if shm : bool then TMPFS_MAGIC else f_type s)) in
                  set_result_after_seccomp 0
            end
        end
  end.

(** Two struct timespec of the host, from two struct timeval or a struct utimbuf. *)
Definition timespec (sec nsec : Z) : list Z := to_le 8 sec ++ to_le 8 nsec.
Definition times_of (is_utimes : bool) (data : list Z) : list Z :=
  let word i := of_le (slice (8 * i) 8 data) in
  if is_utimes then timespec (word 0%nat) (word 1%nat * 1000) ++ timespec (word 2%nat) (word 3%nat * 1000)
  else timespec (word 0%nat) 0 ++ timespec (word 1%nat) 0.

Definition handle_utimes_rejected (is_utimes : bool) : H unit :=
  do$ _ := change_sysnum PR_utimensat in
  do$ times := peek CURRENT SYSARG_2 in
  do$ r := hattempt (
    if times =? 0 then hret ()
    else
      do$ data := peek_data times (if is_utimes then 32 else 16) in
      match data with
      | inr e => hfail e
      | inl data => SysArgs.set_sysarg_data (times_of is_utimes data) SYSARG_2
      end) in
  match r with
  | inr e => set_result_after_seccomp (- e)
  | inl _ =>
      do$ _ := moves [(SYSARG_4, inr 0); (SYSARG_3, inl SYSARG_2); (SYSARG_2, inl SYSARG_1); (SYSARG_1, inr AT_FDCWD)] in
      restart_syscall_after_seccomp
  end.

(** The address of a struct timespec of the host that is pushed. *)
Definition push_timespec (sec nsec : Z) : H Z :=
  do$ timespec_arg := alloc 16 in
  do$ e := poke_data timespec_arg (timespec sec nsec) in
  match e with Some _ => hfail EFAULT | None => hret timespec_arg end.

(** The timeout of a call is put, or its error is the result. *)
Definition with_timeout (timeout : H Z) (k : Z -> H unit) : H unit :=
  do$ r := hattempt timeout in
  match r with
  | inr e => set_result_after_seccomp (- e)
  | inl timespec_arg => do$ _ := k timespec_arg in restart_syscall_after_seccomp
  end.

Definition handle_select_rejected : H unit :=
  do$ timeval_arg := peek CURRENT SYSARG_5 in
  with_timeout
    (if timeval_arg =? 0 then hret 0
     else
       do$ tv := peek_data timeval_arg 16 in
       match tv with
       | inr _ => hfail EFAULT
       | inl tv =>
           let tv_usec := sgn 64 (of_le (slice 8 8 tv)) in
           if (1000000 <=? tv_usec) || (tv_usec <? 0) then hfail EINVAL
           else push_timespec (of_le (slice 0 8 tv)) (tv_usec * 1000)
       end)
    (fun timespec_arg =>
       do$ _ := change_sysnum PR_pselect6 in
       moves [(SYSARG_5, inr timespec_arg); (SYSARG_6, inr 0)]).

Definition handle_poll_rejected : H unit :=
  do$ ms_arg := peek_int CURRENT SYSARG_3 in
  with_timeout
    (if ms_arg <? 0 then hret 0 else push_timespec (ms_arg / 1000) (ms_arg mod 1000 * 1000000))
    (fun timespec_arg =>
       do$ _ := change_sysnum PR_ppoll in
       moves [(SYSARG_3, inr timespec_arg); (SYSARG_4, inr 0); (SYSARG_5, inr 0)]).

Definition handle_time_rejected : H unit :=
  do$ t := hget (fun x => time (world (x_path x))) in
  do$ addr := peek CURRENT SYSARG_1 in
  do$ e := (if addr =? 0 then hret None else SysArgs.poke_word addr t) in
  set_result_after_seccomp (match e with Some _ => - EFAULT | None => t end).

Definition handle_statx_rejected : H unit :=
  do$ hidden := proc_isolation_statx_is_host_proc_path in
  if hidden : bool then set_result_after_seccomp (- ENOENT) else result_of (handle_statx_syscall true).

Definition handle_ftruncate_rejected : H unit :=
  do$ regs := hget x_regs in
  do$ n := hlift (detranslate_sysnum (get_abi regs) PR_ftruncate64) in
  if n =? SYSCALL_AVOIDER then set_result_after_seccomp (- ENOSYS)
  else replaced PR_ftruncate64 [(SYSARG_3, inl SYSARG_2); (SYSARG_2, inr 0); (SYSARG_4, inr 0)].

(** The identifiers of PRoot itself are the ones of the tracee. *)
Definition handle_setres_rejected (sysnum : Sysnum) : H unit :=
  do$ r := peek CURRENT SYSARG_1 in
  do$ e := peek CURRENT SYSARG_2 in
  do$ s := peek CURRENT SYSARG_3 in
  do$ ids := hget (fun x => let w := world (x_path x) in if sysnum =? PR_setresuid then getresuid w else getresgid w) in
  match ids with
  | inr _ => set_result_after_seccomp (- EPERM)
  | inl (r', e', s') =>
      let same id id' := (wrap32 id =? id') || (wrap32 id =? 2 ^ 32 - 1) in
      set_result_after_seccomp (if same r r' && same e e' && same s s' then 0 else - EPERM)
  end.

Definition handle_rejected (sysnum : Sysnum) : H unit :=
  let among := sysnum_in sysnum in
  match replacement sysnum with
  | Some (s, l) => replaced s l
  | None =>
      if sysnum =? PR_openat2 then handle_openat2_rejected
      else if among [PR_setgroups; PR_setgroups32] then set_result_after_seccomp 0
      else if sysnum =? PR_mount then do$ _ := apply_emulated_mount in set_result_after_seccomp 0
      else if sysnum =? PR_pivot_root then do$ _ := apply_emulated_pivot_root in set_result_after_seccomp 0
      else if among [PR_umount; PR_umount2] then do$ _ := apply_emulated_umount in set_result_after_seccomp 0
      else if among [PR_unshare; PR_setns] then set_result_after_seccomp 0
      else if sysnum =? PR_getpgrp then do$ pgid := hget (fun x => getpgid (world (x_path x))) in set_result_after_seccomp pgid
      else if sysnum =? PR_statfs then handle_statfs_rejected
      else if sysnum =? PR_utimes then handle_utimes_rejected true
      else if sysnum =? PR_utime then handle_utimes_rejected false
      else if sysnum =? PR_select then handle_select_rejected
      else if sysnum =? PR_poll then handle_poll_rejected
      else if sysnum =? PR_time then handle_time_rejected
      else if sysnum =? PR_statx then handle_statx_rejected
      else if sysnum =? PR_ftruncate then handle_ftruncate_rejected
      else if among [PR_setresuid; PR_setresgid] then handle_setres_rejected sysnum
      else set_result_after_seccomp (- ENOSYS)
  end.

Definition handle_seccomp_event_common : H unit :=
  do$ sysnum := sysnum_of CURRENT in
  do$ status := hattempt notify_SIGSYS_OCC in
  match status with
  | inr e => set_result_after_seccomp (- e)
  | inl status =>
      if status =? 1 then set_result_after_seccomp 0
      else if status =? 2 then hret ()
      else handle_rejected sysnum
  end.

(** At the exit of a call, its original registers are put back first. *)
Definition fix_and_restart_enosys_syscall : H unit :=
  do$ _ := hset (fun x =>
    let g := set_restore (x_regs x) false in
    let g := save_current_regs (set_bank g CURRENT (banks g ORIGINAL)) ORIGINAL_SECCOMP_REWRITE in
    mkSys g (x_mem x) (x_me x) true (x_path x) (x_flags x) (x_netlink x)) in
  handle_seccomp_event_common.

End Sigsys.

(** ** The arguments of a call that is replaced *)

Section Moves.

Context {W Mem : Type} {RK : RegisterKernel W}.

Abbreviation State := (SysState W Mem).
Abbreviation reg x r := (peek_reg (x_regs x) CURRENT r).

(** The registers seen as a function. *)
Definition assign (bits : Z) (rho : Reg -> Z) (dst : Reg) (src : Reg + Z) : Reg -> Z :=
  fun r => if same_slot dst r then match src with inl q => rho q | inr v => wrap bits v end else rho r.
Definition assign_all (bits : Z) (l : list (Reg * (Reg + Z))) (rho : Reg -> Z) : Reg -> Z :=
  fold_left (fun rho '(dst, src) => assign bits rho dst src) l rho.

(** Only registers changed, and the ones of the last call that was saved are left. *)
Record rewritten (x x' : State) : Prop := {
  rw_ok : regs_ok (x_regs x');
  rw_mode : is_aarch32 (x_regs x') = is_aarch32 (x_regs x);
  rw_restore : restore_original_regs (x_regs x') = restore_original_regs (x_regs x);
  rw_banks : forall version, version <> CURRENT -> banks (x_regs x') version = banks (x_regs x) version;
  rw_trap : get_systrap_size (x_regs x') = get_systrap_size (x_regs x);
  rw_mem : x_mem x' = x_mem x;
  rw_me : x_me x' = x_me x;
  rw_fs : fs (x_path x') = fs (x_path x)
}.

Lemma rewritten_refl x : regs_ok (x_regs x) -> rewritten x x.
Proof. by split. Qed.

Lemma rewritten_trans x y z : rewritten x y -> rewritten y z -> rewritten x z.
Proof. intros [] [H1 H2 H3 H4 H5 H6 H7 H8]. split; [done|congruence|congruence| |congruence..]. intros version Hv. rewrite H4 by done. auto. Qed.

Lemma wrap_of_wrap64 g v : wrap (reg_bits g) (wrap64 v) = wrap (reg_bits g) v.
Proof.
  unfold reg_bits, wrap64, wrap. destruct (is_aarch32 g); [|by rewrite Z.mod_mod].
  apply Z.mod_mod_divide. by exists (2 ^ 32).
Qed.

Lemma poke_systrap g r v : get_systrap_size (poke_reg g r v) = get_systrap_size g.
Proof.
  unfold poke_reg. case_bool; [done|]. unfold get_systrap_size. cbn -[chr]. rewrite decide_True by done. unfold is_32on64_mode, slot.
  destruct (is_aarch32 g); [|done]. unfold store32. rewrite chr_insert_ne; [done|]. by destruct r.
Qed.

Lemma poke_rewritten (x : State) r v : regs_ok (x_regs x) -> rewritten x (fst (poke r v x)).
Proof.
  intros Hg. split; cbn; [by apply poke_reg_ok|apply poke_reg_mode| | |apply poke_systrap|done..].
  - unfold poke_reg. by case_bool.
  - intros version Hv. unfold poke_reg. case_bool; [done|]. cbn. by case_decide.
Qed.

Lemma peek_after_poke (x : State) r v q : regs_ok (x_regs x) ->
  reg (fst (poke r v x)) q = if same_slot r q then wrap (reg_bits (x_regs x)) v else reg x q.
Proof. intros Hg. cbn. rewrite peek_poke_reg by done. by rewrite wrap_of_wrap64. Qed.

Lemma rewritten_bits x x' : rewritten x x' -> reg_bits (x_regs x') = reg_bits (x_regs x).
Proof. intros H. unfold reg_bits. by rewrite (rw_mode _ _ H). Qed.

Lemma moves_assign l : forall x : State, regs_ok (x_regs x) ->
  exists x', moves l x = (x', Ok ()) /\ rewritten x x'
    /\ forall r, reg x' r = assign_all (reg_bits (x_regs x)) l (fun q => reg x q) r.
Proof.
  induction l as [|[dst src] l IH]; intros x Hg; [exists x; split; [done|]; split; [by apply rewritten_refl|done]|].
  set (value := match src with inl q => reg x q | inr v => v end).
  assert (Hstep : moves ((dst, src) :: l) x = moves l (fst (poke dst value x))) by (by destruct src).
  pose proof (poke_rewritten x dst value Hg) as Hp. destruct (IH _ (rw_ok _ _ Hp)) as (x' & E1 & H1 & H2).
  exists x'. rewrite Hstep. split; [done|]. split; [by eapply rewritten_trans|]. intros r. rewrite H2, (rewritten_bits _ _ Hp). cbn [assign_all fold_left].
  assert (Hext : forall l rho rho', (forall q, rho q = rho' q) -> assign_all (reg_bits (x_regs x)) l rho r = assign_all (reg_bits (x_regs x)) l rho' r).
  { clear. intros l. induction l as [|[d s] l IH]; intros rho rho' Hq; [apply Hq|]. cbn. apply IH. intros q. unfold assign. destruct s; by rewrite !Hq. }
  apply Hext. intros q. rewrite peek_after_poke by done. unfold assign, value. destruct (same_slot dst q); [|done]. destruct src as [p|v]; [|done].
  unfold wrap. rewrite Z.mod_small; [done|]. by apply peek_reg_range.
Qed.

(** The calls that replace another one exist in both tables. *)
Definition targets : list Sysnum :=
  [PR_openat; PR_accept4; PR_symlinkat; PR_linkat; PR_fchmodat; PR_fchownat; PR_unlinkat; PR_sendto; PR_recvfrom; PR_wait4; PR_pipe2;
   PR_dup3; PR_faccessat; PR_mkdirat; PR_renameat; PR_epoll_pwait; PR_clone].

Definition in_table (abi : Abi) (bits : Z) (s : Sysnum) : bool :=
  match detranslate_sysnum abi s with
  | Ok n => (wrap64 n =? n) && match translate_sysnum abi (wrap bits n) with Ok s' => s' =? s | _ => false end
  | _ => false
  end.

Lemma target_sysnum s (x : State) : s ∈ targets -> regs_ok (x_regs x) ->
  exists x', change_sysnum s x = (x', Ok ()) /\ rewritten x x' /\ get_sysnum (x_regs x') CURRENT = Ok s
    /\ forall r, same_slot SYSARG_NUM r = false -> reg x' r = reg x r.
Proof.
  intros Hs Hg.
  assert (Hn : in_table (get_abi (x_regs x)) (reg_bits (x_regs x)) s = true).
  { assert (Hall : forallb (in_table (get_abi (x_regs x)) (reg_bits (x_regs x))) targets = true)
      by (unfold get_abi, reg_bits; by destruct (is_aarch32 (x_regs x)); vm_compute).
    rewrite List.forallb_forall in Hall. by apply Hall, list_elem_of_In. }
  unfold in_table in Hn. destruct (detranslate_sysnum _ _) as [n|e|w] eqn:En; [|done..]. apply andb_true_iff in Hn as [Ew Hn]. apply Z.eqb_eq in Ew.
  destruct (translate_sysnum _ _) as [s'|e|w] eqn:Et; [|done..]. apply Z.eqb_eq in Hn as ->.
  pose proof (poke_rewritten x SYSARG_NUM n Hg) as Hp. exists (fst (poke SYSARG_NUM n x)). split; [|split; [done|split]].
  - unfold change_sysnum, set_sysnum. rewrite En. cbn. by rewrite Ew.
  - pose proof (peek_after_poke x SYSARG_NUM n SYSARG_NUM Hg) as Hn. unfold get_sysnum, get_abi in *. rewrite (rw_mode _ _ Hp), Hn. exact Et.
  - intros r Hr. by rewrite peek_after_poke, Hr.
Qed.

Lemma restart_spec (x : State) : regs_ok (x_regs x) -> restore_original_regs (x_regs x) = false ->
  exists x', restart_syscall_after_seccomp x = (x', Ok ()) /\ rewritten x x'
    /\ (forall r, reg x' r = if same_slot INSTR_POINTER r then wrap (reg_bits (x_regs x)) (reg x INSTR_POINTER - get_systrap_size (x_regs x)) else reg x r)
    /\ restart_syscall (x_flags x') = true /\ restore_original_regs_after_seccomp_event (x_regs x') = true
    /\ world (x_path x') = fst (ptrace_regs (world (x_path x)) (SET_PRSTATUS (banks (x_regs x') CURRENT))).
Proof.
  intros Hg Hr. unfold restart_syscall_after_seccomp.
  set (x1 := set_flags (set_restart_syscall true (x_flags x)) (set_regs (expect_restore (x_regs x)) x)).
  assert (H1 : rewritten x x1) by done.
  set (v := reg x INSTR_POINTER - get_systrap_size (x_regs x)). set (x2 := fst (poke INSTR_POINTER v x1)).
  change ((do$ _ := hset _ in _) x) with (push_registers x2).
  pose proof (poke_rewritten x1 INSTR_POINTER v Hg) as H2. fold x2 in H2. pose proof (rewritten_trans _ _ _ H1 H2) as H3.
  assert (Hc : regs_were_changed (x_regs x2) = true).
  { unfold x2. cbn. unfold poke_reg. case_bool; [|done]. exfalso. apply Z.eqb_eq in Hb. change (peek_reg (expect_restore (x_regs x)) CURRENT INSTR_POINTER) with (reg x INSTR_POINTER) in Hb.
    pose proof (peek_reg_range (x_regs x) CURRENT INSTR_POINTER Hg) as Hrange. assert (2 ^ reg_bits (x_regs x) <= 2 ^ 64) by (unfold reg_bits; destruct (is_aarch32 _); lia).
    assert (Ht : 0 < get_systrap_size (x_regs x) <= 4) by (unfold get_systrap_size; case_bool; lia).
    unfold v, wrap64, wrap in Hb. destruct (Z_lt_le_dec (reg x INSTR_POINTER) (get_systrap_size (x_regs x))).
    - rewrite <- (Z_mod_plus_full _ 1), Z.mod_small in Hb by lia. lia.
    - rewrite Z.mod_small in Hb by lia. lia. }
  assert (Ho : restore_original_regs (x_regs x2) = false) by (rewrite (rw_restore _ _ H3); done).
  unfold push_registers, push_specific_regs. rewrite Hc, Ho. cbn [orb andb app fold_left]. eexists. split; [reflexivity|].
  assert (Hp : forall q, reg x2 q = if same_slot INSTR_POINTER q then wrap (reg_bits (x_regs x)) v else reg x q) by (intros q; exact (peek_after_poke x1 INSTR_POINTER v q Hg)).
  split; [destruct H3; by split|]. split; [exact Hp|]. cbn. split; [done|]. split; [|done].
  unfold poke_reg. by case_bool.
Qed.

End Moves.

(** ** Properties *)

Definition arg_regs : list Reg := [SYSARG_1; SYSARG_2; SYSARG_3; SYSARG_4; SYSARG_5; SYSARG_6].

(** The system call that stands for an obsolete one, as their manual pages say; the
    arguments it has not are left. *)
Definition stands_for (a1 a2 a3 a4 a5 a6 : Z) : list (Sysnum * (Sysnum * list Z)) := [
  (PR_open, (PR_openat, [AT_FDCWD; a1; a2; a3; a5; a6]));
  (PR_accept, (PR_accept4, [a1; a2; a3; 0; a5; a6]));
  (PR_symlink, (PR_symlinkat, [a1; AT_FDCWD; a2; a4; a5; a6]));
  (PR_link, (PR_linkat, [AT_FDCWD; a1; AT_FDCWD; a2; 0; a6]));
  (PR_chmod, (PR_fchmodat, [AT_FDCWD; a1; a2; 0; a5; a6]));
  (PR_chown, (PR_fchownat, [AT_FDCWD; a1; a2; a3; 0; a6]));
  (PR_chown32, (PR_fchownat, [AT_FDCWD; a1; a2; a3; 0; a6]));
  (PR_lchown, (PR_fchownat, [AT_FDCWD; a1; a2; a3; AT_SYMLINK_NOFOLLOW; a6]));
  (PR_lchown32, (PR_fchownat, [AT_FDCWD; a1; a2; a3; AT_SYMLINK_NOFOLLOW; a6]));
  (PR_unlink, (PR_unlinkat, [AT_FDCWD; a1; 0; a4; a5; a6]));
  (PR_rmdir, (PR_unlinkat, [AT_FDCWD; a1; AT_REMOVEDIR; a4; a5; a6]));
  (PR_send, (PR_sendto, [a1; a2; a3; a4; 0; 0]));
  (PR_recv, (PR_recvfrom, [a1; a2; a3; a4; 0; 0]));
  (PR_waitpid, (PR_wait4, [a1; a2; a3; 0; a5; a6]));
  (PR_pipe, (PR_pipe2, [a1; 0; a3; a4; a5; a6]));
  (PR_dup2, (PR_dup3, [a1; a2; 0; a4; a5; a6]));
  (PR_access, (PR_faccessat, [AT_FDCWD; a1; a2; 0; a5; a6]));
  (PR_mkdir, (PR_mkdirat, [AT_FDCWD; a1; a2; a4; a5; a6]));
  (PR_rename, (PR_renameat, [AT_FDCWD; a1; AT_FDCWD; a2; a5; a6]));
  (PR_epoll_wait, (PR_epoll_pwait, [a1; a2; a3; a4; 0; 0]));
  (PR_fork, (PR_clone, [SIGCHLD; 0; 0; 0; 0; a6]))].

Section Replaced.

Context {W Mem : Type} {TM : TraceeMemory Mem} {TS : TraceeStrings Mem}.
Context {K : Kernel W} {E : Extensions W} {V : PathEvents W} {N : PathPolicy W}.
Context {SH : StatHost W} {SE : SigsysEvents W Mem} {RK : RegisterKernel W}.

Abbreviation State := (SysState W Mem).
Abbreviation reg x r := (peek_reg (x_regs x) CURRENT r).

(** The tracee will execute [s] with these arguments, from its trap instruction,
    and gets back the registers that were saved when it returns. *)
Record restarts_as (s : Sysnum) (args : list Z) (x x' : State) : Prop := {
  rs_number : get_sysnum (x_regs x') CURRENT = Ok s;
  rs_args : map (fun r => reg x' r) arg_regs = map (wrap (reg_bits (x_regs x))) args;
  rs_ip : reg x' INSTR_POINTER = wrap (reg_bits (x_regs x)) (reg x INSTR_POINTER - get_systrap_size (x_regs x));
  rs_sp : reg x' STACK_POINTER = reg x STACK_POINTER;
  rs_saved : banks (x_regs x') ORIGINAL_SECCOMP_REWRITE = banks (x_regs x) ORIGINAL_SECCOMP_REWRITE;
  rs_restored : restore_original_regs_after_seccomp_event (x_regs x') = true /\ restart_syscall (x_flags x') = true;
  rs_given : world (x_path x') = fst (ptrace_regs (world (x_path x)) (SET_PRSTATUS (banks (x_regs x') CURRENT)));
  rs_memory : x_mem x' = x_mem x /\ fs (x_path x') = fs (x_path x)
}.

Lemma moves_world l : forall (x x' : State) r, moves l x = (x', r) -> x_path x' = x_path x.
Proof.
  induction l as [|[dst [src|v]] l IH]; intros x x' r H; [by injection H as <- _|..]; by apply IH in H.
Qed.

Lemma replaced_spec s l (x : State) args : s ∈ targets -> regs_ok (x_regs x) -> restore_original_regs (x_regs x) = false ->
  (forall b rho r, r = SYSARG_NUM \/ r = INSTR_POINTER \/ r = STACK_POINTER -> assign_all b l rho r = rho r) ->
  (forall b rho, (forall r, r ∈ arg_regs -> wrap b (rho r) = rho r /\ rho r = reg x r) -> map (assign_all b l rho) arg_regs = map (wrap b) args) ->
  exists x', replaced s l x = (x', Ok ()) /\ restarts_as s args x x'.
Proof.
  intros Hs Hg Hr Hl Hargs. destruct (target_sysnum s x Hs Hg) as (x1 & E1 & H1 & Hn1 & P1).
  destruct (moves_assign l x1 (rw_ok _ _ H1)) as (x2 & E2 & H2 & P2). pose proof (rewritten_trans _ _ _ H1 H2) as H12.
  destruct (restart_spec x2 (rw_ok _ _ H12)) as (x3 & E3 & H3 & P3 & F1 & F2 & F3); [by rewrite (rw_restore _ _ H12)|].
  pose proof (rewritten_trans _ _ _ H12 H3) as H13. exists x3. split; [unfold replaced, hbind; by rewrite E1, E2|].
  pose proof (rewritten_bits _ _ H1) as B1. pose proof (rewritten_bits _ _ H12) as B2.
  assert (Hw : world (x_path x2) = world (x_path x)).
  { rewrite (moves_world _ _ _ _ E2). unfold change_sysnum in E1. by destruct (set_sysnum _ _); [injection E1 as <-|..]. }
  assert (Hkept : forall r, r = SYSARG_NUM \/ r = INSTR_POINTER \/ r = STACK_POINTER -> reg x2 r = reg x1 r) by (intros r Hc; rewrite P2; by apply Hl).
  split; [| | | | |done| |split; [by rewrite (rw_mem _ _ H13)|apply H13]].
  - unfold get_sysnum, get_abi. rewrite P3, (rw_mode _ _ H3), (rw_mode _ _ H2). change (same_slot INSTR_POINTER SYSARG_NUM) with false. cbn iota. rewrite Hkept by auto. exact Hn1.
  - rewrite <- (Hargs (reg_bits (x_regs x)) (fun q => reg x1 q)).
    + apply map_ext_in. intros r Hin. rewrite P3, (P2 r), B1. unfold arg_regs in Hin. repeat (destruct Hin as [<-|Hin]; [done|]). done.
    + intros r Hin. split; [unfold wrap; apply Z.mod_small; rewrite <- B1; apply peek_reg_range, H1|]. apply P1.
      unfold arg_regs in Hin. repeat (apply elem_of_cons in Hin as [->|Hin]; [done|]). by apply elem_of_nil in Hin.
  - rewrite P3. change (same_slot INSTR_POINTER INSTR_POINTER) with true. cbn iota.
    by rewrite B2, Hkept, P1, (rw_trap _ _ H12) by auto.
  - rewrite P3. change (same_slot INSTR_POINTER STACK_POINTER) with false. cbn iota. by rewrite Hkept, P1 by auto.
  - by rewrite (rw_banks _ _ H13).
  - by rewrite F3, Hw.
Qed.

End Replaced.

(** C15: the obsolete system calls that an outer policy rejects with SIGSYS are
    executed through the ones that stand for them.  Whatever the order of the
    assignments of the code, the number and the six arguments are the ones the
    manual pages give, the tracee is restarted at its trap instruction with them,
    its memory and its stack pointer are left, and the registers saved at SIGSYS
    will be put back. *)
Theorem rejected_calls_replaced {W Mem} (TM : TraceeMemory Mem) (TS : TraceeStrings Mem) (K : Kernel W) (E : Extensions W)
    (V : PathEvents W) (N : PathPolicy W) (SH : StatHost W) (SE : SigsysEvents W Mem) (RK : RegisterKernel W)
    (x : SysState W Mem) s s' args :
  regs_ok (x_regs x) -> restore_original_regs (x_regs x) = false -> get_sysnum (x_regs x) CURRENT = Ok s ->
  notify_SIGSYS_OCC x = (x, Ok 0) ->
  let a i := peek_reg (x_regs x) CURRENT (nth i arg_regs SYSARG_1) in
  (s, (s', args)) ∈ stands_for (a 0%nat) (a 1%nat) (a 2%nat) (a 3%nat) (a 4%nat) (a 5%nat) ->
  exists x', handle_seccomp_event_common x = (x', Ok ()) /\ restarts_as s' args x x'.
Proof.
  intros Hg Hr Hs Hq a Hin.
  assert (H : exists l, replacement s = Some (s', l) /\ exists x', replaced s' l x = (x', Ok ()) /\ restarts_as s' args x x').
  { unfold stands_for in Hin.
    repeat (apply elem_of_cons in Hin as [Hin|Hin]; [injection Hin as -> -> ->; eexists; split; [reflexivity|]; apply replaced_spec;
      [set_solver|done|done|by intros b rho r [->|[->| ->]]|] | ]); [..|by apply elem_of_nil in Hin].
    all: intros b rho Hrho; assert (Hw : forall r, r ∈ arg_regs -> rho r = wrap b (peek_reg (x_regs x) CURRENT r)) by (intros r Hin; destruct (Hrho r Hin) as [H1 <-]; by rewrite H1).
    all: cbn; unfold assign; cbn; rewrite ?Hw by (by apply (bool_decide_unpack _); vm_compute); done. }
  destruct H as (l & Hl & x' & Hx & Hrs). exists x'. split; [|done].
  unfold handle_seccomp_event_common, hbind, hattempt, sysnum_of. rewrite Hs, Hq. cbn [Z.eqb]. unfold handle_rejected. by rewrite Hl.
Qed.

(** The fields of struct statx: offset, size, the bits that ask for it, value. *)
Definition statx_fields (s : HostStat) : list (nat * nat * Z * Z) := [
  (16%nat, 4%nat, STATX_NLINK, st_nlink s); (20%nat, 4%nat, STATX_UID, st_uid s); (24%nat, 4%nat, STATX_GID, st_gid s);
  (28%nat, 2%nat, Z.lor STATX_TYPE STATX_MODE, st_mode s); (32%nat, 8%nat, STATX_INO, st_ino s); (40%nat, 8%nat, STATX_SIZE, st_size s);
  (48%nat, 8%nat, STATX_BLOCKS, st_blocks s);
  (64%nat, 8%nat, STATX_ATIME, fst (st_atim s)); (72%nat, 4%nat, STATX_ATIME, snd (st_atim s));
  (80%nat, 8%nat, STATX_BTIME, fst (st_ctim s)); (88%nat, 4%nat, STATX_BTIME, snd (st_ctim s));
  (96%nat, 8%nat, STATX_CTIME, fst (st_ctim s)); (104%nat, 4%nat, STATX_CTIME, snd (st_ctim s));
  (112%nat, 8%nat, STATX_MTIME, fst (st_mtim s)); (120%nat, 4%nat, STATX_MTIME, snd (st_mtim s))].

Lemma statx_of_fields mask s : length (statx_of mask s) = 256%nat
  /\ Forall (fun '(off, n, bits, v) => slice off n (statx_of mask s) = to_le n (if Z.land mask bits =? 0 then 0 else v)) (statx_fields s).
Proof.
  split; [unfold statx_of, timestamp; repeat rewrite ?length_app, ?length_to_le, ?length_replicate; reflexivity|].
  unfold statx_fields, statx_of, timestamp. repeat constructor; unfold slice; cbn [to_le app drop take replicate]; case_bool; reflexivity.
Qed.

Section Statx.

Context {W Mem : Type} {TM : TraceeMemory Mem} {TS : TraceeStrings Mem} {MC : MemoryContents Mem}.
Context {ML : MemoryContentsLaws Mem TM TS MC}.
Context {K : Kernel W} {E : Extensions W} {L : KernelLaws W K}.
Context {V : PathEvents W} {N : PathPolicy W} {TE : TransparentEvents W V}.
Context {SH : StatHost W} {SE : SigsysEvents W Mem}.

(** What the extensions change of a file: nothing. *)
Definition transparent_statx : Prop := forall st (x x' : SysState W Mem) st',
  notify_STATX_SYSCALL st x = (x', Ok st') -> st' = st /\ untouched x x'.

(** The answer of the host for the file that the tracee names. *)
Definition file_of (t : Tracee W) (l : list Binding) (dirfd flags : Z) (u : cstr) (s : HostStat) : Prop :=
  let nofollow := has_flag flags AT_SYMLINK_NOFOLLOW in
  let stat_of w h := if nofollow then lstat_all w h else stat w h in
  exists w, if str_eqb u [] then
              if dirfd =? AT_FDCWD
              then exists h, kept_or_followed (fs t) l (view t) AT_FDCWD (bs ".") (negb nofollow) h /\ stat_of w h = inl s
              else stat w (take 31 (bs "/proc/" ++ itoa (pid (view t)) ++ bs "/fd/" ++ itoa dirfd)) = inl s
            else exists h, kept_or_followed (fs t) l (view t) dirfd u (negb nofollow) h /\ stat_of w h = inl s.

End Statx.

(** C16: the emulation of statx(2).  When the kernel refused the call, or SIGSYS
    was received, and the handler succeeds, the structure of the tracee is filled
    with what stat(2) or lstat(2) says of the file that the path stands for in the
    guest, or of the descriptor: each field that is asked for, in its place, and
    zero for the others. *)
Theorem statx_emulated {W Mem} (TM : TraceeMemory Mem) (TS : TraceeStrings Mem) (MC : MemoryContents Mem)
    (ML : MemoryContentsLaws Mem TM TS MC) (K : Kernel W) (E : Extensions W) (L : KernelLaws W K) (V : PathEvents W)
    (N : PathPolicy W) (TE : TransparentEvents W V) (SH : StatHost W) (SE : SigsysEvents W Mem)
    (x x' : SysState W Mem) l num (from_sigsys : bool) :
  tracee_ok (x_path x) -> bindings_guest (fs (x_path x)) = Some l -> cwd_ok (fs (x_path x)) ->
  get_sysnum (x_regs x) CURRENT = Ok num -> transparent_statx ->
  let version := if from_sigsys then CURRENT else ORIGINAL in
  let arg r := peek_reg (x_regs x) version r in
  from_sigsys = true \/ peek_reg (x_regs x) CURRENT SYSARG_RESULT <> 0 ->
  handle_statx_syscall from_sigsys x = (x', Ok ()) ->
  exists u s buf, read_string (x_mem x) (x_me x) (arg SYSARG_2) PATH_MAX = inl u
    /\ file_of (x_path x) l (sgn 32 (arg SYSARG_1)) (arg SYSARG_3) u s
    /\ holds_at (x_mem x') (x_me x') (peek_reg (x_regs x) CURRENT SYSARG_5) buf /\ zlen buf = sizeof_statx
    /\ Forall (fun '(off, n, bits, v) => slice off n buf = to_le n (if Z.land (arg SYSARG_4) bits =? 0 then 0 else v)) (statx_fields s).
Proof.
  intros ((root & Hr) & Hwf & Hsz & (k & Hk) & Hv & Hg0) Hl Hc Hnum Htr version arg Hem H.
  assert (Hst : stable (fs (x_path x)) (view (x_path x)) (x_path x)) by done.
  unfold handle_statx_syscall in H. cbv zeta in H. fold version in H. hstep H x1 fl. hstep H x2 mk. hstep H x3 ad. hstep H x4 u0.
  destruct (read_string _ _ _ _) as [u|e] eqn:Eu; [|done]. hstep H x5 dfd. hstep H x6 rg. hstep H x7 hf.
  apply on_path_inv in E0 as (t & Et & ->). destruct hf as [h do_fstat]. hstep H x8 rs.
  set (x1' := mkSys (x_regs x) (x_mem x) (x_me x) (x_sysenter x) t (x_flags x) (x_netlink x)) in *.
  assert (Hcond : from_sigsys || negb (peek_reg (x_regs x) CURRENT SYSARG_RESULT =? 0) = true).
  { destruct Hem as [->|Hem]; [done|]. rewrite (proj2 (Z.eqb_neq _ _) Hem). by rewrite orb_true_r. }
  rewrite Hcond in H. hstep H x9 st. hstep E0 x10 s. injection E0 as <- <-. apply on_path_inv in E1 as (t' & Es & ->).
  hstep H x11 st. apply Htr in E0 as [-> (U1 & U2 & U3)]. cbn [updated_stats statx_buf] in H. hstep H x12 bf. hstep H x13 e. destruct e as [e|]; [done|]. injection H as <-.
  unfold poke_data in E0. destruct (write_data _ _ _ _) as [m e] eqn:Ew. injection E0 as <- ->. cbn.
  exists u, s, (statx_of (arg SYSARG_4) s). split; [done|]. split; [|split; [rewrite U1 in Ew; by eapply written|]].
  2: { destruct (statx_of_fields (arg SYSARG_4) s) as [Hlen Hf]. unfold zlen. by rewrite Hlen. }
  unfold statx_result in Es. apply bind_inv in Es as (t1 & w & E1 & Es). injection E1 as <- <-. apply bind_inv in Es as (t1 & v' & E1 & Es). injection E1 as <- <-.
  unfold lift in Es. cbn [x1' x_path] in Es. injection Es as <- Es. exists (world t).
  assert (Hof : forall r : status HostStat, of_status r = Ok s -> r = inl s) by (by intros [a|e] Hq; [injection Hq as ->|]).
  apply Hof in Es. unfold statx_path in Et. cbv zeta in Et. fold (arg SYSARG_3) in Et, Es.
  change (sgn 32 (peek_reg (x_regs x) version SYSARG_1)) with (sgn 32 (arg SYSARG_1)) in *.
  assert (Htr' : forall d p, (do! p0 := translate_path (x_regs x) d p (negb (has_flag (arg SYSARG_3) AT_SYMLINK_NOFOLLOW)) in ret (p0, false)) (x_path x) = (t, Ok (h, do_fstat)) ->
     nul_free p -> do_fstat = false /\ kept_or_followed (fs (x_path x)) l (view (x_path x)) d p (negb (has_flag (arg SYSARG_3) AT_SYMLINK_NOFOLLOW)) h /\ view t = view (x_path x)).
  { intros d p Hq Hn. apply bind_inv in Hq as (t1 & p0 & E1 & Hq). injection Hq as <- <- <-. split; [done|].
    destruct (translated_resolves (fs (x_path x)) root l k (view (x_path x)) Hr Hwf Hsz Hl Hk Hv Hc _ _ _ _ _ _ _ _ Hnum Hst Hn E1) as [(_ & H2 & _) H3]. done. }
  destruct (str_eqb u []) eqn:Ee.
  - case_bool_in Et; [done|]. destruct (_ =? AT_FDCWD) eqn:Ed.
    + destruct (Htr' _ _ Et) as (-> & Hh & _); [by repeat constructor|]. by exists h.
    + apply bind_inv in Et as (t1 & v & E1 & Et). injection E1 as <- <-. apply bind_inv in Et as (t1 & p & E1 & Et). injection Et as <- <- <-.
      unfold readlink_proc_pid_fd in E1. case_bool_in E1; [done|]. apply bind_inv in E1 as (t2 & w & E2 & E1). injection E2 as <- <-.
      destruct (readlink _ _) as [q|e]; [|done]. case_bool_in E1; [done|]. by injection E1 as <- <-.
  - case_bool_in Et; [done|]. destruct (Htr' _ _ Et) as (-> & Hh & _); [|by exists h].
    eapply read_string_content; [exact Eu|done].
Qed.

(** ** A tracee to compute with *)

#[local] Existing Instance demo_memory.
#[local] Existing Instance demo_strings.
#[local] Existing Instance demo_contents.
#[local] Existing Instance quiet_extensions.
#[local] Existing Instance quiet_events.
#[local] Existing Instance static_policy.
#[local] Instance sigsys_kernel : Kernel unit := demo_kernel demo_links.

Definition demo_stat : HostStat := mkStat 33188 1 1000 1000 0 42 5 4096 8 (7, 1) (8, 2) (9, 3).
#[local] Instance demo_host : StatHost unit := {
  stat _ _ := inl demo_stat;
  lstat_all _ _ := inl demo_stat;
  statfs64 _ _ := inr ENOENT;
  getpgid _ := 1;
  getresuid _ := inl (0, 0, 0);
  getresgid _ := inl (0, 0, 0);
  time _ := 1000
}.
#[local] Instance quiet_sigsys : SigsysEvents unit DemoVm := {
  notify_SIGSYS_OCC := hret 0;
  notify_STATX_SYSCALL st := hret st;
  proc_isolation_statx_is_host_proc_path := hret false
}.
#[local] Instance no_ptrace : RegisterKernel unit := { ptrace_regs w _ := (w, None) }.

(** A 32-bit tracee that is at SIGSYS. *)
Definition sigsys_state (num : Z) (args : list (Reg * Z)) (p : string) : SysState unit DemoVm :=
  mkSys (save_current_regs (fold_left (fun g '(r, value) => poke_reg g r (wrap32 value)) args
           (poke_reg (poke_reg (poke_reg (set_restore (demo_regs true) false) STACK_POINTER 8192) INSTR_POINTER 65536) SYSARG_NUM num))
           ORIGINAL_SECCOMP_REWRITE)
    (enter_memory p "") 0 true demo_tracee (mkFlags false false false false 0 (-1) true) (mkNetlink [] [] 0 false).

(** open("/file", O_WRONLY, 0644) *)
Definition open_state : SysState unit DemoVm := sigsys_state 5 [(SYSARG_1, 4096); (SYSARG_2, 1); (SYSARG_3, 420)] "/file".

Lemma rejected_calls_replaced_witness :
  get_sysnum (x_regs open_state) CURRENT = Ok PR_open
  /\ exists x', handle_seccomp_event_common open_state = (x', Ok ())
       /\ restarts_as PR_openat [AT_FDCWD; 4096; 1; 420; 1; 1] open_state x'.
Proof.
  split; [by vm_compute|].
  apply (rejected_calls_replaced demo_memory demo_strings sigsys_kernel quiet_extensions quiet_events static_policy demo_host quiet_sigsys no_ptrace
    open_state PR_open PR_openat [AT_FDCWD; 4096; 1; 420; 1; 1]); [|by vm_compute|by vm_compute|done|].
  - apply save_current_regs_ok. repeat apply poke_reg_ok. apply demo_regs_ok.
  - apply list_elem_of_In. left. by vm_compute.
Defined.

(** statx(AT_FDCWD, "/link/y", 0, STATX_SIZE, 4160), refused by the kernel. *)
Definition statx_state : SysState unit DemoVm :=
  enter_state 291 [(SYSARG_1, -100); (SYSARG_2, 4096); (SYSARG_3, 0); (SYSARG_4, STATX_SIZE); (SYSARG_5, 4160)] "/link/y" "".

Lemma quiet_statx : transparent_statx (W := unit) (Mem := DemoVm).
Proof. intros st y y' st' Hn. injection Hn as <- <-. by split. Qed.

Lemma statx_answers : snd (handle_statx_syscall false statx_state) = Ok ().
Proof. by vm_compute. Qed.

Lemma statx_emulated_witness :
  let x' := fst (handle_statx_syscall false statx_state) in
  let arg r := peek_reg (x_regs statx_state) ORIGINAL r in
  read_data (x_mem x') 0 4200 8 = inl (to_le 8 5)
  /\ exists u s buf, read_string (x_mem statx_state) (x_me statx_state) (arg SYSARG_2) PATH_MAX = inl u
       /\ file_of (x_path statx_state) [demo_tmp; demo_sd; demo_root] (sgn 32 (arg SYSARG_1)) (arg SYSARG_3) u s
       /\ holds_at (x_mem x') (x_me x') (peek_reg (x_regs statx_state) CURRENT SYSARG_5) buf /\ zlen buf = sizeof_statx
       /\ Forall (fun '(off, n, bits, v) => slice off n buf = to_le n (if Z.land (arg SYSARG_4) bits =? 0 then 0 else v)) (statx_fields s).
Proof.
  intros x' arg. split; [by vm_compute|].
  assert (Hs : get_sysnum (x_regs statx_state) CURRENT = Ok PR_statx) by (by vm_compute).
  assert (He : peek_reg (x_regs statx_state) CURRENT SYSARG_RESULT <> 0) by (by vm_compute).
  exact (statx_emulated demo_memory demo_strings demo_contents (mem_contents_laws (demo_vm true) demo_byte (demo_vm_laws true))
    sigsys_kernel quiet_extensions (demo_laws demo_links ltac:(by repeat constructor)) quiet_events static_policy quiet_transparent demo_host quiet_sigsys
    statx_state (fst (handle_statx_syscall false statx_state)) [demo_tmp; demo_sd; demo_root] PR_statx false
    demo_tracee_ok eq_refl demo_cwd_ok Hs quiet_statx (or_intror He) (pair_of _ _ statx_answers)).
Defined.

(** ** Calls that are not replaced as they should be *)

(** The 32-bit table has no newfstatat(2): stat(2) and lstat(2) restart with a
    number that no system call has. *)
Lemma stat_has_no_replacement :
  let x' := fst (handle_seccomp_event_common (sigsys_state 106 [(SYSARG_1, 4096); (SYSARG_2, 4160)] "/file")) in
  get_sysnum (x_regs x') CURRENT = Ok PR_void.
Proof. by vm_compute. Qed.

(** poll(fds, 1, 500) in a 32-bit tracee: the structure is the one of the host, so
    that the two 32-bit words the kernel reads are null, as for no wait at all. *)
Lemma poll_timeout_lost :
  let x' := fst (handle_seccomp_event_common (sigsys_state 168 [(SYSARG_1, 4096); (SYSARG_2, 1); (SYSARG_3, 500)] "")) in
  get_sysnum (x_regs x') CURRENT = Ok PR_ppoll
  /\ read_data (x_mem x') 0 (peek_reg (x_regs x') CURRENT SYSARG_3) 16 = inl (to_le 4 0 ++ to_le 4 0 ++ to_le 4 500000000 ++ to_le 4 0).
Proof. by vm_compute. Qed.

(** statfs() of a symlink that loops: the path given to the host was never
    written. *)
Lemma statfs_reads_unset_path :
  snd (handle_seccomp_event_common (K := demo_kernel [(bs "/data/root/loop", bs "loop")])
         (sigsys_state 99 [(SYSARG_1, 4096); (SYSARG_2, 4200)] "/loop")) = Stuck OutOfBounds.
Proof. by vm_compute. Qed.
