(* ===== verification/Exit.v ===== *)
(** * The exit of system calls (src/syscall/exit.c, src/syscall/rlimit.c)

    translate_syscall_exit(): what PRoot does to the results of each system call
    before the tracee sees them.  The paths and the addresses the kernel gives are
    detranslated, the current directory follows a rename, the results of what PRoot
    emulates are put. *)

From S2P Require Import Prelude Mem Memory Paths Binding ProcLinks Canon Lookup Sysnum Regs Translate SysArgs Mounts Netlink Enter Sockets Sigsys.

(** ** Data *)

Definition AT_NULL := 0.
Definition AT_EXECFN := 31.
Definition RLIMIT_STACK := 3.
Definition RLIM_INFINITY := 2 ^ 64 - 1.
Definition EOPNOTSUPP := 95.

(** The notifications, and the other files of the directory.  The extension that is
    told of a link of /proc/<pid>/fd gives a status that is null, or an error, and
    may give another path; translate_wait_exit() is not called when the kernel
    waits, the answer is then [None]. *)
Class ExitServices (W Mem : Type) := {
  notify_SYSCALL_EXIT_START : HM W Mem Z;
  notify_SYSCALL_EXIT_END : HM W Mem Z;
  notify_READLINK_PROC_FD : Z -> Z -> cstr -> HM W Mem (option cstr);
  translate_brk_exit : HM W Mem unit;
  translate_execve_exit : HM W Mem unit;
  translate_ptrace_exit : HM W Mem Z;
  translate_wait_exit : HM W Mem (option Z)
}.

(** The limit of the stack of PRoot itself. *)
Class RlimitHost (W : Type) := {
  stack_limit : W -> option Z;
  set_stack_limit : W -> Z -> W
}.

(** How a handler ends: its status is the result, or the result is left.  A failure
    is a negated status. *)
Inductive ExitEnd := Result (status : Z) | Finished.

Section Exit.

Context {W Mem : Type} {TM : TraceeMemory Mem} {TS : TraceeStrings Mem}.
Context {K : Kernel W} {E : Extensions W} {V : PathEvents W} {N : PathPolicy W}.
Context {SH : StatHost W} {SE : SigsysEvents W Mem} {RK : RegisterKernel W}.
Context {ES : ExitServices W Mem} {RH : RlimitHost W}.

Abbreviation H A := (HM W Mem A).

Definition finished (m : H unit) : H ExitEnd := do$ _ := m in hret Finished.
Definition quiet (m : H unit) : H unit := do$ _ := hattempt m in hret ().
Definition failed_call (result : Z) : bool := sgn 32 result <? 0.

(** read_path() *)
Definition read_path (a : Z) : H cstr :=
  do$ path := hget (fun x => read_string (x_mem x) (x_me x) a PATH_MAX) in
  match path with
  | inr e => hfail e
  | inl path => if PATH_MAX <=? zlen path + 1 then hfail ENAMETOOLONG else hret path
  end.

Definition detranslate (path : cstr) (referrer : option cstr) : M W (Z * cstr) :=
  do! v := get view in
  do! f := get fs in
  lift (detranslate_path v f path referrer).

(** ** Paths *)

Definition exit_getcwd : H ExitEnd :=
  do$ size := peek ORIGINAL SYSARG_2 in
  if size =? 0 then hfail EINVAL
  else
    do$ regs := hget x_regs in
    do$ _ := on_path (translate_path regs AT_FDCWD (bs ".") false) in
    do$ cwd := hget (fun x => cwd (fs (x_path x))) in
    let new_size := zlen cwd + 1 in
    if size <? new_size then hfail ERANGE
    else
      do$ output := peek ORIGINAL SYSARG_1 in
      do$ e := poke_data output (cwd ++ [0]) in
      match e with Some e => hfail e | None => hret (Result new_size) end.

(** The current directory after the rename of a path into another one. *)
Definition renamed_cwd (old_path new_path cwd : cstr) : res cstr :=
  match substitute_path_prefix cwd (length old_path) new_path (length new_path) with
  | Ok p => Ok p
  | Err _ => Ok cwd
  | Stuck w => Stuck w
  end.

Definition exit_rename (syscall_number : Sysnum) (syscall_result : Z) : H ExitEnd :=
  if failed_call syscall_result then hret Finished
  else
    let '(old_reg, new_reg) := if syscall_number =? PR_rename then (SYSARG_1, SYSARG_2) else (SYSARG_2, SYSARG_4) in
    do$ old_addr := peek MODIFIED old_reg in
    do$ old_path := read_path old_addr in
    do$ (_, old_path) := on_path (detranslate old_path None) in
    do$ cwd := hget (fun x => cwd (fs (x_path x))) in
    do$ comparison := hlift (compare_paths old_path cwd) in
    if negb (bool_decide (comparison = PATH1_IS_PREFIX) || bool_decide (comparison = PATHS_ARE_EQUAL)) then hret (Result 0)
    else
      do$ new_addr := peek MODIFIED new_reg in
      do$ new_path := read_path new_addr in
      do$ (_, new_path) := on_path (detranslate new_path None) in
      if PATH_MAX <=? zlen cwd then hret (Result 0)
      else
        do$ cwd := hlift (renamed_cwd old_path new_path cwd) in
        do$ _ := on_path (set_cwd cwd) in
        hret (Result 0).

(** ** readlink(2) *)

(** %d of sscanf(): the number and the rest. *)
Definition scan_number (s : cstr) : option (Z * cstr) :=
  let s := snd (span is_space s) in
  let '(sign, s) := match s with
                    | c :: s' => if c =? 45 then (-1, s') else if c =? 43 then (1, s') else (1, s)
                    | [] => (1, [])
                    end in
  let '(digits, s) := span is_digit s in
  match digits with [] => None | _ => Some (sgn 32 (sign * undigits 0 digits), s) end.

(** "/proc/%d/fd/%d", and nothing after. *)
Definition proc_fd_of (referer : cstr) : option (Z * Z) :=
  match after_prefix (bs "/proc/") referer with
  | None => None
  | Some s =>
      match scan_number s with
      | None => None
      | Some (pid, s) =>
          match after_prefix (bs "/fd/") s with
          | None => None
          | Some s =>
              match scan_number s with
              | Some (fd, []) => if 0 <=? fd then Some (pid, fd) else None
              | _ => None
              end
          end
      end
  end.

(** The path of the link that was read, and the descriptor it is the one of. *)
Definition referer_of (syscall_number : Sysnum) (path : cstr) : H (cstr * option (Z * Z)) :=
  if str_eqb path [] then
    if syscall_number =? PR_readlink then hfail EBADF
    else
      do$ dirfd := peek_int ORIGINAL SYSARG_1 in
      do$ p := on_path (do! v := get view in readlink_proc_pid_fd (pid v) dirfd) in
      hret (p, None)
  else hret (path, proc_fd_of path).

(** The content of the link, read again when it fills the buffer of the tracee. *)
Definition full_content (old_size max_size : Z) (referer referee : cstr) : M W cstr :=
  if old_size =? max_size then
    do! w := get world in
    ret (match readlink w referer with
         | inl full => if str_eqb full [] then referee else take (Z.to_nat (PATH_MAX - 1)) full
         | inr _ => referee
         end)
  else ret referee.

(** The size of the result with its terminator, null when it is left, and its path.
    The status of the notification replaces the one of detranslate_path(). *)
Definition detranslated_link (fd : option (Z * Z)) (referer referee : cstr) : H (Z * cstr) :=
  do$ (status, referee) := on_path (detranslate referee (Some referer)) in
  match fd with
  | None => hret (status, referee)
  | Some (pid, fd) =>
      do$ substituted := notify_READLINK_PROC_FD pid fd referee in
      match substituted with
      | None => hret (0, referee)
      | Some referee => hret (zlen referee + 1, referee)
      end
  end.

(** The link read at [output], whose path is at [input], is detranslated in place. *)
Definition detranslate_link (syscall_number : Sysnum) (old_size output max_size input : Z) : H ExitEnd :=
  if max_size =? 0 then hfail EINVAL
  else
    do$ data := peek_data output old_size in
    match data with
    | inr e => hfail e
    | inl data =>
        if PATH_MAX <=? old_size then hlift (Stuck OutOfBounds)
        else
          do$ path := read_path input in
          do$ (referer, fd) := referer_of syscall_number path in
          do$ referee := on_path (full_content old_size max_size referer (until_nul (Z.to_nat old_size) data)) in
          do$ (status, referee) := detranslated_link fd referer referee in
          if status =? 0 then hret Finished
          else
            let '(new_size, written) := if status <? max_size then (status - 1, status) else (max_size, max_size) in
            do$ e := poke_data output (take (Z.to_nat written) (referee ++ [0])) in
            match e with Some e => hfail e | None => hret (Result new_size) end
    end.

Definition exit_readlink (syscall_number : Sysnum) (syscall_result : Z) : H ExitEnd :=
  if failed_call syscall_result then hret Finished
  else
    let '(out_reg, size_reg, in_reg) :=
      if syscall_number =? PR_readlink then (SYSARG_2, SYSARG_3, SYSARG_1) else (SYSARG_3, SYSARG_4, SYSARG_2) in
    do$ output := peek ORIGINAL out_reg in
    do$ size := peek ORIGINAL size_reg in
    do$ input := peek MODIFIED in_reg in
    detranslate_link syscall_number syscall_result output (Z.min size PATH_MAX) input.

(** /dev/shm is said to be a tmpfs. *)
Definition exit_statfs (syscall_number : Sysnum) (syscall_result : Z) : H ExitEnd :=
  if negb (syscall_result =? 0) then hret Finished
  else
    do$ regs := hget x_regs in
    do$ devshm_path := on_path (attempt (translate_path regs AT_FDCWD (bs "/dev/shm") true)) in
    match devshm_path with
    | inr _ => hret Finished
    | inl devshm_path =>
        do$ addr := peek MODIFIED SYSARG_1 in
        do$ statfs_path := hattempt (read_path addr) in
        match statfs_path with
        | inr _ => hret Finished
        | inl statfs_path =>
            do$ comparison := hlift (compare_paths devshm_path statfs_path) in
            if bool_decide (comparison = PATHS_ARE_EQUAL) || bool_decide (comparison = PATH1_IS_PREFIX) then
              do$ stat_addr := peek ORIGINAL (if syscall_number =? PR_statfs64 then SYSARG_3 else SYSARG_2) in
              do$ _ := poke_data stat_addr (to_le 4 TMPFS_MAGIC) in
              hret Finished
            else hret Finished
        end
    end.

(** ** Sockets *)

Definition retry_enosys (syscall_result : Z) (k : H ExitEnd) : H ExitEnd :=
  if sgn 32 syscall_result =? - ENOSYS then finished fix_and_restart_enosys_syscall else k.

Definition exit_sockname (syscall_number : Sysnum) (syscall_result : Z) : H ExitEnd :=
  do$ sock_addr := peek ORIGINAL SYSARG_2 in
  if sysnum_in syscall_number [PR_accept; PR_accept4] && (sock_addr =? 0) then hret Finished
  else if failed_call syscall_result then hret Finished
  else
    do$ size_addr := peek MODIFIED SYSARG_3 in
    do$ max_size := peek MODIFIED SYSARG_6 in
    finished (translate_socketcall_exit sock_addr size_addr max_size).

Definition exit_sendmmsg (syscall_result : Z) : H ExitEnd :=
  do$ vector := peek ORIGINAL SYSARG_2 in
  do$ copy := peek MODIFIED SYSARG_2 in
  if (sgn 32 syscall_result <=? 0) || (copy =? vector) then hret Finished
  else finished (quiet (translate_sendmmsg_exit vector copy syscall_result)).

(** The first switch on the call: the status, or [None] for the end. *)
Definition exit_call (args_addr call syscall_result : Z) : H (option Z) :=
  do$ w := word_size in
  let SYSARG_ADDR n := args_addr + (n - 1) * w in
  let POKE_WORD a v (k : H (option Z)) : H (option Z) :=
    do$ e := SysArgs.poke_word (wrap64 a) v in
    match e with Some e => hfail e | None => k end in
  if existsb (Z.eqb call) [SYS_ACCEPT; SYS_ACCEPT4] then
    do$ sock_addr := word_or_fail (SYSARG_ADDR 2) None in
    hret (if sock_addr =? 0 then None else Some 1)
  else if existsb (Z.eqb call) [SYS_GETSOCKNAME; SYS_GETPEERNAME] then hret (Some 1)
  else if existsb (Z.eqb call) [SYS_BIND; SYS_CONNECT] then
    do$ sock_addr := peek MODIFIED SYSARG_5 in
    do$ size := peek MODIFIED SYSARG_6 in
    POKE_WORD (SYSARG_ADDR 2) sock_addr (POKE_WORD (SYSARG_ADDR 3) size (hret (Some 0)))
  else if call =? SYS_SENDMMSG then
    do$ copy_args_addr := peek MODIFIED SYSARG_2 in
    if (sgn 32 syscall_result <=? 0) || (copy_args_addr =? args_addr) then hret None
    else
      do$ (vector, e) := SysArgs.peek_word (wrap64 (SYSARG_ADDR 2)) in
      if bool_decide (e <> None) then hret None
      else
        do$ (copy, e) := SysArgs.peek_word (wrap64 (copy_args_addr + w)) in
        if bool_decide (e <> None) || (copy =? vector) then hret None
        else
          do$ _ := quiet (translate_sendmmsg_exit vector copy syscall_result) in
          hret None
  else hret (Some 0).

Definition exit_socketcall (syscall_result : Z) : H ExitEnd :=
  do$ args_addr := peek ORIGINAL SYSARG_2 in
  do$ call := peek ORIGINAL SYSARG_1 in
  do$ status := hattempt (exit_call args_addr call syscall_result) in
  match status with
  | inl None => hret Finished
  | inl (Some status) =>
      if failed_call syscall_result || (status =? 0) then hret Finished
      else
        do$ w := word_size in
        do$ sock_addr := word_or_fail (args_addr + w) None in
        do$ size_addr := word_or_fail (args_addr + 2 * w) None in
        do$ max_size := peek MODIFIED SYSARG_6 in
        finished (translate_socketcall_exit sock_addr size_addr max_size)
  | inr e => if failed_call syscall_result then hret Finished else hfail e
  end.

(** The descriptor that stands for a netlink socket. *)
Definition exit_socket : H ExitEnd :=
  do$ fd := peek_int CURRENT SYSARG_RESULT in
  finished (modify_netlink (fun n => mark_fake_netlink_fd n fd)).

(** ** The auxiliary vector *)

(** AT_EXECFN is put in the first vector that has it, among [count] ones. *)
Fixpoint patch_execfn (count : nat) (addr : Z) : H unit :=
  match count with
  | O => hret ()
  | S count =>
      do$ w := word_size in
      do$ (type, e) := SysArgs.peek_word (wrap64 addr) in
      if bool_decide (e <> None) || (type =? AT_NULL) then hret ()
      else if type =? AT_EXECFN then
        do$ execfn := hget (fun x => execfn_addr (x_flags x)) in
        do$ _ := SysArgs.poke_word (wrap64 (addr + w)) execfn in
        hret ()
      else patch_execfn count (addr + 2 * w)
  end.

Definition exit_open (syscall_number : Sysnum) (syscall_result : Z) : H ExitEnd :=
  if failed_call syscall_result then hret Finished
  else
    do$ addr := peek ORIGINAL (if syscall_number =? PR_open then SYSARG_1 else SYSARG_2) in
    do$ path := hget (fun x => read_string (x_mem x) (x_me x) addr 64) in
    do$ execfn := hget (fun x => execfn_addr (x_flags x)) in
    do$ pid := hget (fun x => pid (view (x_path x))) in
    match path with
    | inr _ => hret Finished
    | inl path =>
        if (execfn =? 0) || negb (is_proc_auxv path || str_eqb path (bs "/proc/" ++ itoa pid ++ bs "/auxv")) then hret Finished
        else
          do$ _ := set_flag (set_auxv_fd (sgn 32 syscall_result)) in
          finished wants_sysexit
    end.

Definition exit_read (syscall_result : Z) : H ExitEnd :=
  do$ fd := peek_int ORIGINAL SYSARG_1 in
  do$ buf_addr := peek ORIGINAL SYSARG_2 in
  do$ f := hget x_flags in
  do$ w := word_size in
  if (auxv_fd f <? 0) || (execfn_addr f =? 0) || (syscall_result =? 0) || (sgn 64 syscall_result <? 0) || negb (fd =? auxv_fd f)
  then hret Finished
  else
    do$ _ := patch_execfn (Z.to_nat (syscall_result / (2 * w))) buf_addr in
    finished wants_sysexit.

Definition exit_prctl (syscall_result : Z) : H ExitEnd :=
  do$ option := peek ORIGINAL SYSARG_1 in
  do$ f := hget x_flags in
  if option =? PR_SET_NO_NEW_PRIVS then
    if seen_execve f && (sgn 32 syscall_result =? 0) then finished (set_flag (set_no_new_privs true)) else hret Finished
  else if negb (option =? PR_GET_AUXV) || failed_call syscall_result || (execfn_addr f =? 0) then hret Finished
  else
    do$ buf_max := peek ORIGINAL SYSARG_3 in
    if buf_max <? syscall_result then hret Finished
    else
      do$ buf_addr := peek ORIGINAL SYSARG_2 in
      do$ w := word_size in
      finished (patch_execfn (Z.to_nat (syscall_result / (2 * w))) buf_addr).

(** ** Limits *)

(** The stack of PRoot can grow as much as the one of the tracee. *)
Definition translate_setrlimit_exit (is_prlimit : bool) : H unit :=
  do$ resource := peek ORIGINAL (if is_prlimit then SYSARG_2 else SYSARG_1) in
  do$ address := peek ORIGINAL (if is_prlimit then SYSARG_3 else SYSARG_2) in
  if negb (resource =? RLIMIT_STACK) || (is_prlimit && (address =? 0)) then hret ()
  else
    do$ limit :=
      (if is_prlimit then
         do$ data := peek_data address 8 in
         match data with inl data => hret (of_le data) | inr e => hfail e end
       else
         do$ (limit, e) := SysArgs.peek_word address in
         do$ w := word_size in
         match e with
         | Some e => hfail e
         | None => hret (if (w =? 4) && (limit =? 2 ^ 32 - 1) then RLIM_INFINITY else limit)
         end) in
    on_path (do! w := get world in
             match stack_limit w with
             | None => ret ()
             | Some rlim_cur => if limit <=? rlim_cur then ret () else on_world (fun w => (set_stack_limit w limit, inl ()))
             end).

Definition exit_setrlimit (syscall_number : Sysnum) (syscall_result : Z) : H ExitEnd :=
  if failed_call syscall_result then hret Finished
  else finished (translate_setrlimit_exit (syscall_number =? PR_prlimit64)).

Definition exit_ioctl (syscall_result : Z) : H ExitEnd :=
  do$ cmd := peek ORIGINAL SYSARG_2 in
  if (cmd =? FICLONE) && (sgn 32 syscall_result =? - EACCES) then finished (poke SYSARG_RESULT (- EOPNOTSUPP)) else hret Finished.

(** ** The switch *)

Definition handle_exit (s : Sysnum) (syscall_result : Z) : H ExitEnd :=
  let among := sysnum_in s in
  if s =? PR_brk then finished translate_brk_exit
  else if s =? PR_getcwd then exit_getcwd
  else if s =? PR_accept then retry_enosys syscall_result (exit_sockname s syscall_result)
  else if among [PR_accept4; PR_getsockname; PR_getpeername] then exit_sockname s syscall_result
  else if s =? PR_sendmmsg then exit_sendmmsg syscall_result
  else if s =? PR_socketcall then exit_socketcall syscall_result
  else if among [PR_fchdir; PR_chdir; PR_unshare; PR_setns; PR_mount; PR_umount; PR_umount2; PR_pivot_root] then hret (Result 0)
  else if among [PR_rename; PR_renameat] then exit_rename s syscall_result
  else if among [PR_readlink; PR_readlinkat] then exit_readlink s syscall_result
  else if among [PR_execve; PR_execveat] then finished translate_execve_exit
  else if among [PR_openat2; PR_openat; PR_open] then exit_open s syscall_result
  else if s =? PR_read then exit_read syscall_result
  else if s =? PR_prctl then exit_prctl syscall_result
  else if s =? PR_ptrace then do$ status := translate_ptrace_exit in hret (Result status)
  else if among [PR_wait4; PR_waitpid] then
    do$ status := translate_wait_exit in
    hret (match status with Some status => Result status | None => Finished end)
  else if among [PR_setrlimit; PR_prlimit64] then exit_setrlimit s syscall_result
  else if s =? PR_utime then retry_enosys syscall_result (hret Finished)
  else if among [PR_statfs; PR_statfs64] then exit_statfs s syscall_result
  else if s =? PR_statx then do$ _ := handle_statx_syscall false in hret (Result 0)
  else if s =? PR_ioctl then exit_ioctl syscall_result
  else if s =? PR_socket then exit_socket
  else hret Finished.

Definition end_of_exit : H unit :=
  do$ status := hattempt notify_SYSCALL_EXIT_END in
  match status with inr e => poke SYSARG_RESULT (- e) | inl _ => hret () end.

(** The result put at the entry, when the system call was voided. *)
Definition keep_emulated_result : H unit :=
  do$ avoider := hget (fun x => if is_32on64_mode (x_regs x) then wrap32 SYSCALL_AVOIDER else SYSCALL_AVOIDER) in
  do$ modified := peek MODIFIED SYSARG_NUM in
  do$ original := peek ORIGINAL SYSARG_NUM in
  if (modified =? avoider) && negb (original =? modified)
  then do$ result := peek MODIFIED SYSARG_RESULT in poke SYSARG_RESULT result
  else hret ().

(** [status] is the status of the tracee, negative when its entry failed. *)
Definition translate_syscall_exit (status : Z) : H unit :=
  do$ start := hattempt notify_SYSCALL_EXIT_START in
  match start with
  | inr e => do$ _ := poke SYSARG_RESULT (- e) in end_of_exit
  | inl start =>
      if 0 <? start then hret ()
      else if status <? 0 then do$ _ := poke SYSARG_RESULT status in end_of_exit
      else
        do$ _ := keep_emulated_result in
        do$ s := sysnum_of ORIGINAL in
        do$ syscall_result := peek CURRENT SYSARG_RESULT in
        do$ outcome := hattempt (handle_exit s syscall_result) in
        do$ _ := (match outcome with
                  | inl (Result status) => poke SYSARG_RESULT status
                  | inl Finished => hret ()
                  | inr e => poke SYSARG_RESULT (- e)
                  end) in
        end_of_exit
  end.

End Exit.

(** ** Properties *)

Section Laws.

Context {W Mem : Type} {TM : TraceeMemory Mem} {TS : TraceeStrings Mem} {MC : MemoryContents Mem}.
Context {ML : MemoryContentsLaws Mem TM TS MC}.
Context {K : Kernel W} {E : Extensions W} {V : PathEvents W} {N : PathPolicy W}.
Context {SH : StatHost W} {SE : SigsysEvents W Mem} {RK : RegisterKernel W}.
Context {ES : ExitServices W Mem} {RH : RlimitHost W}.

(** The extension that is told of a descriptor leaves the tracee. *)
Definition quiet_links : Prop := forall pid fd p (x x' : SysState W Mem) r, notify_READLINK_PROC_FD pid fd p x = (x', r) -> x' = x.

Lemma read_path_inv a (x x' : SysState W Mem) p : read_path a x = (x', Ok p) -> x' = x /\ read_string (x_mem x) (x_me x) a PATH_MAX = inl p.
Proof.
  unfold read_path, hbind, hget. intros H. destruct (read_string _ _ _ _) as [q|e]; [|done]. case_bool_in H; [done|]. by injection H as <- <-.
Qed.

(** The path of the link is [path], or the link is the one of the descriptor that is
    the first argument. *)
Definition link_named (x : SysState W Mem) (s : Sysnum) (path referer : cstr) : Prop :=
  if str_eqb path [] then
    s <> PR_readlink /\ readlink (world (x_path x)) (bs "/proc/" ++ itoa (pid (view (x_path x))) ++ bs "/fd/" ++ itoa (sgn 32 (peek_reg (x_regs x) ORIGINAL SYSARG_1))) = inl referer
  else referer = path.

(** The descriptor that a path of /proc is the link of. *)
Definition link_fd (path : cstr) : option (Z * Z) := if str_eqb path [] then None else proc_fd_of path.

Lemma referer_of_inv s p (x x' : SysState W Mem) referer fd : referer_of s p x = (x', Ok (referer, fd)) ->
  x' = x /\ link_named x s p referer /\ fd = link_fd p.
Proof.
  intros H. unfold referer_of in H. unfold link_named, link_fd. case_bool_in H; [|injection H as <- <- <-; auto]. case_bool_in H; [done|]. bool_facts. hstep H z1 d. hstep H z2 q. injection H as <- <- <-.
  apply on_path_inv in E0 as (t & Et & ->). apply bind_inv in Et as (t1 & v & E3 & Et). injection E3 as <- <-.
  unfold readlink_proc_pid_fd in Et. case_bool_in Et; [done|]. apply bind_inv in Et as (t2 & w & E2 & Et). injection E2 as <- <-.
  destruct (readlink _ _) as [q'|e] eqn:Er; [|done]. case_bool_in Et; [done|]. injection Et as <- <-. split; [by destruct x|]. by split.
Qed.

Lemma full_content_inv old_size max_size referer referee (t t' : Tracee W) c : full_content old_size max_size referer referee t = (t', Ok c) ->
  t' = t /\ c = (if old_size =? max_size then
                 match readlink (world t) referer with
                 | inl full => if str_eqb full [] then referee else take (Z.to_nat (PATH_MAX - 1)) full
                 | inr _ => referee
                 end
               else referee).
Proof.
  intros H. unfold full_content in H. case_bool_in H; [|injection H as <- <-; auto]. apply bind_inv in H as (t1 & w & E1 & H). injection E1 as <- <-. by injection H as <- <-.
Qed.

Lemma read_path_spares ranges a : spares (W := W) ranges (read_path a).
Proof. unfold read_path. spares. Qed.

Lemma detranslated_link_spares ranges fd a b : quiet_links -> spares (W := W) ranges (detranslated_link fd a b).
Proof.
  intros Hq. unfold detranslated_link. spares. intros x. destruct (notify_READLINK_PROC_FD _ _ _ x) as [y r] eqn:En.
  apply Hq in En as ->. apply spared_refl.
Qed.

Lemma detranslate_link_spares s old_size output max_size input : quiet_links -> 0 <= max_size ->
  spares (W := W) [(output, max_size)] (detranslate_link s old_size output max_size input).
Proof.
  intros Hq Hm. unfold detranslate_link, referer_of. pose proof (detranslated_link_spares [(output, max_size)]) as Hd.
  pose proof (read_path_spares [(output, max_size)]) as Hr. spares.
  all: eapply spares_data; [apply list_elem_of_here|]; simplify_eq; bool_facts; unfold zlen; rewrite length_take; lia.
Qed.

(** The size that detranslate_path() gives is the one of its path, or is null. *)
Lemma detranslate_path_size t f p r size q : detranslate_path t f p r = Ok (size, q) -> size = 0 \/ size = zlen q + 1.
Proof.
  assert (Hs : forall b p, match strip_root f b p with Ok (n, q) => n = 0 \/ n = zlen q + 1 | _ => True end).
  { intros b p0. unfold strip_root. destruct (root_string f); [|done..]. cbn. destruct (compare_paths _ _) as [[]| |]; cbn; auto; by destruct b; auto. }
  assert (Hw : forall a b p, match detranslate_with f a b p with Ok (n, q) => n = 0 \/ n = zlen q + 1 | _ => True end).
  { intros a b p0. unfold detranslate_with. destruct b; [|apply Hs]. destruct (substitute_binding f HOST p0) as [[[] ?]| |]; auto. apply Hs. }
  assert (Hf : forall a b p, detranslate_with f a b p = Ok (size, q) -> size = 0 \/ size = zlen q + 1) by (intros a b p0 H; specialize (Hw a b p0); by rewrite H in Hw).
  unfold detranslate_path. intros H. case_bool_in H; [done|]. case_bool_in H; [injection H as <- <-; by left|]. destruct r as [r|]; [|by eapply Hf].
  destruct (compare_paths _ _); [|done..]. cbn [res_bind] in H. case_bool_decide.
  - destruct (readlink_proc2 _ _) as [[e|]| |]; cbn [res_bind] in H; [injection H as <- <-; by right|by eapply Hf|done..].
  - destruct (belongs_to_guestfs _ _) as [[]| |]; cbn [res_bind] in H; [by eapply Hf| |done..]. cbn [res_bind] in H. destruct (same_binding _ _ _); [by eapply Hf|done..].
Qed.

End Laws.

(** The content of the link that is detranslated: what the kernel gave, or the whole
    link when the buffer of the tracee is full and the link can be read. *)
Definition link_content {W Mem} {TM : TraceeMemory Mem} {K : Kernel W} (x : SysState W Mem) (old_size output max_size : Z) (referer content : cstr) : Prop :=
  exists data, read_data (x_mem x) (x_me x) output old_size = inl data
    /\ content = (let given := until_nul (Z.to_nat old_size) data in
                  if old_size =? max_size then
                    match readlink (world (x_path x)) referer with
                    | inl full => if str_eqb full [] then given else take (Z.to_nat (PATH_MAX - 1)) full
                    | inr _ => given
                    end
                  else given).

(** C13: the result of readlink(2).  Whatever the kernel answered, only the buffer of
    the tracee is written.  When the handler gives a result, the link is the one
    whose path is in the memory of the tracee, or the one of the descriptor when this
    path is empty; the buffer has the beginning of the guest path that this link
    stands for, which is the detranslation of what the kernel gave (of the whole
    link, read again, when this filled the buffer), or what the extensions
    substituted for a link of /proc to a descriptor.  The result is the length of the guest path
    when the buffer has room for it, for its terminator and for one byte more, and the
    size of the buffer otherwise: a buffer that they fill exactly gives a result
    that counts the terminator ([readlink_counts_terminator]). *)
Theorem readlink_detranslated {W Mem} (TM : TraceeMemory Mem) (TS : TraceeStrings Mem) (MC : MemoryContents Mem)
    (ML : MemoryContentsLaws Mem TM TS MC) (K : Kernel W) (ES : ExitServices W Mem)
    (x : SysState W Mem) s old_size output max_size input :
  quiet_links -> 0 <= max_size ->
  let x' := fst (detranslate_link s old_size output max_size input x) in
  spared [(output, max_size)] x x'
  /\ forall n, snd (detranslate_link s old_size output max_size input x) = Ok (Result n) ->
     exists path referer content size q r,
       read_string (x_mem x) (x_me x) input PATH_MAX = inl path /\ link_named x s path referer
       /\ link_content x old_size output max_size referer content
       /\ detranslate_path (view (x_path x)) (fs (x_path x)) content (Some referer) = Ok (size, q)
       /\ match link_fd path with
          | None => r = q /\ size = zlen q + 1
          | Some (pid, fd) => snd (notify_READLINK_PROC_FD pid fd q x) = Ok (Some r)
          end
       /\ (let fits := zlen r + 1 <? max_size in
           n = (if fits then zlen r else max_size)
           /\ holds_at (x_mem x') (x_me x') output (take (Z.to_nat (if fits then zlen r + 1 else max_size)) (r ++ [0]))).
Proof.
  intros Hq Hm x'. split; [by apply detranslate_link_spares|]. intros n Hok.
  destruct (detranslate_link s old_size output max_size input x) as [y r0] eqn:H. cbn in Hok, x'. subst r0 x'.
  unfold detranslate_link in H. case_bool_in H; [done|]. hstep H x1 data. destruct (read_data _ _ _ _) as [data|e] eqn:Ed; [|done].
  case_bool_in H; [done|]. hstep H x2 p0. hstep H x3 rf. destruct rf as [referer fd]. hstep H x4 ct. hstep H x5 sr. destruct sr as [status r].
  case_bool_in H; [done|]. bool_facts.
  apply read_path_inv in E as [-> Hpath]. apply referer_of_inv in E0 as (-> & Hname & ->). apply on_path_inv in E1 as (t & Et & ->).
  apply full_content_inv in Et as [-> Hct]. replace (mkSys _ _ _ _ (x_path x) _ _) with x in E2 by (by destruct x).
  unfold detranslated_link in E2. hstep E2 z3 sr. apply on_path_inv in E as (t & Et' & ->).
  destruct sr as [size q]. unfold detranslate in Et'. apply bind_inv in Et' as (t1 & v & E3 & Et'). injection E3 as <- <-.
  apply bind_inv in Et' as (t1 & f & E3 & Et'). injection E3 as <- <-. unfold lift in Et'. injection Et' as <- Eq.
  replace (mkSys _ _ _ _ (x_path x) _ _) with x in E2 by (by destruct x).
  exists p0, referer, ct, size, q, r. split; [done|]. split; [done|]. split; [by exists data|]. split; [done|].
  assert (Hfin : match link_fd p0 with None => r = q /\ size = zlen q + 1 | Some (pid, fd) => snd (notify_READLINK_PROC_FD pid fd q x) = Ok (Some r) end
    /\ status = zlen r + 1 /\ x5 = x).
  { destruct (link_fd p0) as [[pid fd]|].
    - hstep E2 z4 sb. pose proof (Hq _ _ _ _ _ _ E) as ->. destruct sb as [sb|]; injection E2 as <- <- <-; [|done]. by rewrite E.
    - injection E2 as <- <- <-. by destruct (detranslate_path_size _ _ _ _ _ _ Eq) as [->|Hz]. }
  destruct Hfin as (Hfin & -> & ->). split; [done|]. cbv zeta.
  destruct (zlen r + 1 <? max_size) eqn:Efit; hstep H x6 e; (destruct e as [e|]; [done|]); injection H as <- <-;
    unfold poke_data in E; destruct (write_data _ _ _ _) as [m e] eqn:Ew; injection E as <- ->; cbn; (split; [lia|]); by eapply written.
Qed.

(** the current directory follows a rename.  After a successful rename(2) or
    renameat(2), whose paths are detranslated into [old] and [new], the emulated
    current directory is the same directory under its new name when [old] is the
    directory or one of its ancestors, and is left otherwise; nothing else of the
    tracee changes, and the result is 0. *)
Theorem rename_moves_cwd {W Mem} (TM : TraceeMemory Mem) (TS : TraceeStrings Mem) (x : SysState W Mem) s result
    old_host new_host old new n m c :
  s = PR_rename \/ s = PR_renameat -> failed_call result = false ->
  let arg r := read_string (x_mem x) (x_me x) (peek_reg (x_regs x) MODIFIED r) PATH_MAX in
  arg (if s =? PR_rename then SYSARG_1 else SYSARG_2) = inl old_host -> zlen old_host + 1 < PATH_MAX ->
  arg (if s =? PR_rename then SYSARG_2 else SYSARG_4) = inl new_host -> zlen new_host + 1 < PATH_MAX ->
  let f := fs (x_path x) in
  detranslate_path (view (x_path x)) f old_host None = Ok (n, render old) ->
  detranslate_path (view (x_path x)) f new_host None = Ok (m, render new) ->
  Forall name_ok old -> Forall name_ok new -> Forall name_ok c -> old <> [] ->
  cwd f = render c -> zlen (cwd f) < PATH_MAX -> zlen (render new) + zlen (render (drop (length old) c)) < PATH_MAX ->
  exists x', exit_rename s result x = (x', Ok (Result 0))
    /\ cwd (fs (x_path x')) = (if comps_prefix old c then render (new ++ drop (length old) c) else cwd f)
    /\ bindings_guest (fs (x_path x')) = bindings_guest f /\ bindings_host (fs (x_path x')) = bindings_host f
    /\ x_regs x' = x_regs x /\ x_mem x' = x_mem x.
Proof.
  intros Hs Hres arg Eo Lo En Ln f Do Dn Ho Hn Hc Hne Ec Lc Lnew.
  assert (Hread : forall r h, arg r = inl h -> zlen h + 1 < PATH_MAX -> read_path (peek_reg (x_regs x) MODIFIED r) x = (x, Ok h)).
  { intros r h Er Lr. unfold read_path, hbind, hget. fold (arg r). rewrite Er. by rewrite (proj2 (Z.leb_gt _ _)) by lia. }
  assert (Hdet : forall h k p, detranslate_path (view (x_path x)) f h None = Ok (k, p) -> on_path (detranslate h None) x = (x, Ok (k, p))).
  { intros h k p Ed. unfold on_path, detranslate, bind, get, lift. fold f. rewrite Ed. by destruct x. }
  set (regs := if s =? PR_rename then (SYSARG_1, SYSARG_2) else (SYSARG_2, SYSARG_4)).
  assert (Er : arg (fst regs) = inl old_host /\ arg (snd regs) = inl new_host) by (unfold regs; by destruct (s =? PR_rename)).
  unfold exit_rename. rewrite Hres. fold regs. destruct regs as [r1 r2]. cbn [fst snd] in Er. destruct Er as [E1 E2].
  unfold hbind, peek, hget. rewrite (Hread _ _ E1 Lo), (Hdet _ _ _ Do). fold f. unfold hlift. rewrite Ec, compare_render by done.
  assert (Hcmp : bool_decide (compare_components old c = PATH1_IS_PREFIX) || bool_decide (compare_components old c = PATHS_ARE_EQUAL) = comps_prefix old c).
  { unfold compare_components, comps_prefix. repeat case_bool_decide; subst; try done. }
  rewrite Hcmp. destruct (comps_prefix old c) eqn:Ep; cbn [negb]; [|by exists x].
  rewrite (Hread _ _ E2 Ln), (Hdet _ _ _ Dn). rewrite (proj2 (Z.leb_gt _ _)) by (rewrite <- Ec; lia).
  assert (Hp : c = old ++ drop (length old) c) by (apply prefix_drop; unfold comps_prefix in Ep; by apply bool_decide_eq_true in Ep).
  set (rest := drop (length old) c) in *.
  assert (Hren : renamed_cwd (render old) (render new) (render c) = Ok (render (new ++ rest))).
  { unfold renamed_cwd. rewrite Hp at 1. rewrite substitute_render; [done|..]; auto using name_ok_plain.
    - apply name_ok_plain, Forall_drop, Hc.
    - by rewrite <- Hp, <- Ec. }
  rewrite Hren. unfold on_path, set_cwd. eexists. split; [reflexivity|]. done.
Qed.

(** The calls whose result is what the entry emulated: the exit has nothing to do. *)
Definition emulated_at_entry : list Sysnum := [PR_bind; PR_connect; PR_sendto; PR_sendmsg; PR_recvfrom; PR_recvmsg].
Definition always_succeed : list Sysnum := [PR_fchdir; PR_chdir; PR_unshare; PR_setns; PR_mount; PR_umount; PR_umount2; PR_pivot_root].

(** The entry put another number in place of the one of the call. *)
Definition voided_at_entry (g : Regs) : Prop :=
  peek_reg g MODIFIED SYSARG_NUM = wrap (reg_bits g) SYSCALL_AVOIDER /\ peek_reg g ORIGINAL SYSARG_NUM <> peek_reg g MODIFIED SYSARG_NUM.

Lemma keep_emulated_result_voided {W Mem} (x y : SysState W Mem) : keep_emulated_result x = (y, Ok ()) ->
  let z := fst (poke SYSARG_RESULT (peek_reg (x_regs x) MODIFIED SYSARG_RESULT) x) in
  (y = x \/ y = z) /\ (voided_at_entry (x_regs x) -> y = z).
Proof.
  unfold keep_emulated_result, voided_at_entry. intros H. hstep H x1 av. hstep H x2 md. hstep H x3 og.
  assert (Ha : (if is_32on64_mode (x_regs x) then wrap32 SYSCALL_AVOIDER else SYSCALL_AVOIDER) = wrap (reg_bits (x_regs x)) SYSCALL_AVOIDER)
    by (unfold reg_bits, is_32on64_mode; by destruct (is_aarch32 (x_regs x)); vm_compute).
  rewrite Ha in H. case_bool_in H; injection H as <-; (split; [auto|]); [done|]. intros [Hm Ho].
  rewrite Hm, Z.eqb_refl in Hb. rewrite Hm in Ho. by rewrite (proj2 (Z.eqb_neq _ _) Ho) in Hb.
Qed.

(** C14: the results of PRoot reach the tracee.  Whatever the kernel left in the
    register of the result, it has at the end of the exit the negated error when
    the entry failed, 0 for the calls that PRoot always emulates, the one put at
    the entry for the calls that it voided, and the negated error of the handler
    when the exit fails; the memory of the tracee is the one the handler left. *)
Theorem exit_results_reported {W Mem} (TM : TraceeMemory Mem) (TS : TraceeStrings Mem) (K : Kernel W) (E : Extensions W)
    (V : PathEvents W) (N : PathPolicy W) (SH : StatHost W) (SE : SigsysEvents W Mem) (RK : RegisterKernel W)
    (ES : ExitServices W Mem) (RH : RlimitHost W) (x x' : SysState W Mem) s status :
  regs_ok (x_regs x) -> get_sysnum (x_regs x) ORIGINAL = Ok s ->
  notify_SYSCALL_EXIT_START x = (x, Ok 0) -> (forall y, notify_SYSCALL_EXIT_END y = (y, Ok 0)) ->
  translate_syscall_exit status x = (x', Ok ()) ->
  let result := peek_reg (x_regs x') CURRENT SYSARG_RESULT in
  (status < 0 -> result = wrap (reg_bits (x_regs x)) status /\ x_mem x' = x_mem x)
  /\ (0 <= status ->
      (s ∈ always_succeed -> result = 0 /\ x_mem x' = x_mem x)
      /\ (s ∈ emulated_at_entry -> voided_at_entry (x_regs x) -> result = peek_reg (x_regs x) MODIFIED SYSARG_RESULT /\ x_mem x' = x_mem x)
      /\ (forall y z e, keep_emulated_result x = (y, Ok ()) -> handle_exit s (peek_reg (x_regs y) CURRENT SYSARG_RESULT) y = (z, Err e) ->
          regs_ok (x_regs z) -> result = wrap (reg_bits (x_regs z)) (- e) /\ x_mem x' = x_mem z)).
Proof.
  intros Hg Hs Hstart Hend H result. unfold translate_syscall_exit in H.
  assert (Hfin : forall y, end_of_exit y = (x', Ok ()) -> x' = y).
  { intros y Hy. unfold end_of_exit, hbind, hattempt in Hy. rewrite Hend in Hy. by injection Hy as <-. }
  assert (Hput : forall (y : SysState W Mem) v, regs_ok (x_regs y) -> x' = fst (poke SYSARG_RESULT v y) -> result = wrap (reg_bits (x_regs y)) v /\ x_mem x' = x_mem y).
  { intros y v Hy Ex. unfold result. rewrite Ex. split; [by rewrite peek_after_poke|done]. }
  unfold hbind at 1, hattempt at 1 in H. rewrite Hstart in H. cbn [Z.ltb Z.compare] in H. split.
  { intros Hst. rewrite (proj2 (Z.ltb_lt _ _) Hst) in H. apply Hfin in H. by apply Hput. }
  intros Hst. rewrite (proj2 (Z.ltb_ge _ _) Hst) in H. hstep H y z. destruct z. destruct (keep_emulated_result_voided _ _ E0) as [Hyz Hv].
  assert (Hy : is_aarch32 (x_regs y) = is_aarch32 (x_regs x) /\ regs_ok (x_regs y) /\ get_sysnum (x_regs y) ORIGINAL = Ok s /\ x_mem y = x_mem x).
  { destruct Hyz as [->| ->]; [done|]. cbn. unfold get_sysnum, get_abi. rewrite poke_reg_mode, poke_reg_frame by done. split; [done|]. split; [by apply poke_reg_ok|done]. }
  destruct Hy as (Ymode & Yok & Ynum & Ymem). hstep H y1 s'. unfold sysnum_of in E1. rewrite Ynum in E1. injection E1 as <- <-.
  hstep H y2 sr. hstep H z o. hstep H y3 u. destruct u. apply Hfin in H. subst y3.
  split; [|split].
  - intros Hin. assert (Ho : handle_exit s (peek_reg (x_regs y) CURRENT SYSARG_RESULT) = hret (Result 0)).
    { unfold always_succeed in Hin. repeat (apply elem_of_cons in Hin as [->|Hin]; [reflexivity|]). by apply elem_of_nil in Hin. }
    rewrite Ho in E1. injection E1 as <- <-. injection E2 as E2. destruct (Hput y 0 Yok (eq_sym E2)) as [-> ->]. split; [|done].
    unfold reg_bits. by destruct (is_aarch32 _).
  - intros Hin Hvoid. assert (Ho : handle_exit s (peek_reg (x_regs y) CURRENT SYSARG_RESULT) = hret Finished).
    { unfold emulated_at_entry in Hin. repeat (apply elem_of_cons in Hin as [->|Hin]; [reflexivity|]). by apply elem_of_nil in Hin. }
    rewrite Ho in E1. injection E1 as <- <-. injection E2 as E2. specialize (Hv Hvoid). destruct (Hput x _ Hg (eq_trans (eq_sym E2) Hv)) as [-> ->].
    split; [|done]. unfold wrap. apply Z.mod_small, peek_reg_range, Hg.
  - intros y' z' e Hk Hh Hz. assert (y' = y) as -> by congruence. unfold hattempt in E1. rewrite Hh in E1. injection E1 as <- <-.
    injection E2 as E2. by apply Hput.
Qed.

(** ** A tracee to compute with *)

#[local] Existing Instance demo_memory.
#[local] Existing Instance demo_strings.
#[local] Existing Instance demo_contents.
#[local] Existing Instance quiet_extensions.
#[local] Existing Instance quiet_events.
#[local] Existing Instance static_policy.
#[local] Existing Instance demo_host.
#[local] Existing Instance quiet_sigsys.
#[local] Existing Instance no_ptrace.
#[local] Instance exit_kernel : Kernel unit := demo_kernel demo_links.
#[local] Instance quiet_exit : ExitServices unit DemoVm := {
  notify_SYSCALL_EXIT_START := hret 0;
  notify_SYSCALL_EXIT_END := hret 0;
  notify_READLINK_PROC_FD _ _ _ := hret None;
  translate_brk_exit := hret ();
  translate_execve_exit := hret ();
  translate_ptrace_exit := hret 0;
  translate_wait_exit := hret None
}.
#[local] Instance host_stack : RlimitHost unit := { stack_limit _ := Some 8388608; set_stack_limit w _ := w }.

(** The state after the system call: [result] is the one of the kernel, the strings
    are at 4096 and 4160. *)
Definition exit_state (num result : Z) (args : list (Reg * Z)) (p q : string) : SysState unit DemoVm :=
  let x := enter_state num args p q in
  mkSys (poke_reg (save_current_regs (x_regs x) MODIFIED) SYSARG_RESULT result) (x_mem x) 0 false (x_path x) (x_flags x) (x_netlink x).

(** readlinkat(AT_FDCWD, "/link", 4096, 64): the kernel gave a host path. *)
Definition readlink_state : SysState unit DemoVm := exit_state 78 17 [(SYSARG_2, 4160)] "/data/root/etc/ab" "/data/root/link".

Lemma quiet_exit_links : quiet_links (W := unit) (Mem := DemoVm).
Proof. intros pid fd p y y' r Hn. by injection Hn as <- <-. Qed.

Lemma readlink_answers :
  let r := detranslate_link PR_readlinkat 17 4096 64 4160 readlink_state in
  snd r = Ok (Result 7) /\ read_data (x_mem (fst r)) 0 4096 8 = inl (bs "/etc/ab" ++ [0]).
Proof. split; by vm_compute. Qed.

Lemma readlink_detranslated_witness :
  let x' := fst (detranslate_link PR_readlinkat 17 4096 64 4160 readlink_state) in
  read_data (x_mem x') 0 4096 8 = inl (bs "/etc/ab" ++ [0])
  /\ spared [(4096, 64)] readlink_state x'
  /\ exists path referer content size q r,
       read_string (x_mem readlink_state) (x_me readlink_state) 4160 PATH_MAX = inl path /\ link_named readlink_state PR_readlinkat path referer
       /\ link_content readlink_state 17 4096 64 referer content
       /\ detranslate_path (view (x_path readlink_state)) (fs (x_path readlink_state)) content (Some referer) = Ok (size, q)
       /\ match link_fd path with
          | None => r = q /\ size = zlen q + 1
          | Some (pid, fd) => snd (notify_READLINK_PROC_FD pid fd q readlink_state) = Ok (Some r)
          end
       /\ (let fits := zlen r + 1 <? 64 in
           7 = (if fits then zlen r else 64)
           /\ holds_at (x_mem x') (x_me x') 4096 (take (Z.to_nat (if fits then zlen r + 1 else 64)) (r ++ [0]))).
Proof.
  split; [exact (proj2 readlink_answers)|].
  destruct (readlink_detranslated demo_memory demo_strings demo_contents (mem_contents_laws (demo_vm true) demo_byte (demo_vm_laws true))
    exit_kernel quiet_exit readlink_state PR_readlinkat 17 4096 64 4160 quiet_exit_links ltac:(done)) as [Hs Hr].
  exact (conj Hs (Hr 7 (proj1 readlink_answers))).
Defined.

(** rename("/data/root/a", "/data/root/n") in a tracee that is in /a/b. *)
Definition rename_state (num : Z) : SysState unit DemoVm :=
  let x := exit_state num 0 [(SYSARG_2, 4096); (SYSARG_4, 4160)] "/data/root/a" "/data/root/n" in
  let t := x_path x in
  mkSys (x_regs x) (x_mem x) 0 false
    (fst (set_cwd (bs "/a/b") t)) (x_flags x) (x_netlink x).

Lemma rename_moves_cwd_witness : exists x',
  exit_rename PR_renameat 0 (rename_state 38) = (x', Ok (Result 0))
  /\ cwd (fs (x_path x')) = bs "/n/b"
  /\ bindings_guest (fs (x_path x')) = bindings_guest demo_fs /\ bindings_host (fs (x_path x')) = bindings_host demo_fs
  /\ x_regs x' = x_regs (rename_state 38) /\ x_mem x' = x_mem (rename_state 38).
Proof.
  apply (rename_moves_cwd demo_memory demo_strings (rename_state 38) PR_renameat 0 (bs "/data/root/a") (bs "/data/root/n")
    [bs "a"] [bs "n"] 3 3 [bs "a"; bs "b"]); try (by vm_compute); try (by right); by repeat constructor; vm_compute.
Defined.

(** rename(2) of the current directory into a path that is not mapped: the handler
    fails, whatever the kernel did. *)
Definition unmapped_rename : SysState unit DemoVm := exit_state 38 0 [(SYSARG_2, 65536); (SYSARG_4, 4160)] "" "".

Lemma exit_rename_unreadable {W Mem} {TM : TraceeMemory Mem} {TS : TraceeStrings Mem} (x : SysState W Mem) s result e :
  failed_call result = false ->
  read_string (x_mem x) (x_me x) (peek_reg (x_regs x) MODIFIED (if s =? PR_rename then SYSARG_1 else SYSARG_2)) PATH_MAX = inr e ->
  exit_rename s result x = (x, Err e).
Proof.
  intros Hr He. unfold exit_rename. rewrite Hr. unfold read_path, hbind, hget, peek. destruct (s =? PR_rename); cbn in He |- *; by rewrite He.
Qed.

Lemma unmapped_rename_fails :
  keep_emulated_result unmapped_rename = (unmapped_rename, Ok ())
  /\ handle_exit PR_renameat (peek_reg (x_regs unmapped_rename) CURRENT SYSARG_RESULT) unmapped_rename = (unmapped_rename, Err EFAULT)
  /\ snd (translate_syscall_exit 0 unmapped_rename) = Ok ().
Proof. split; [reflexivity|]. split; [apply (exit_rename_unreadable unmapped_rename PR_renameat); by vm_compute|vm_compute; reflexivity]. Qed.

Lemma exit_state_ok num result args p q : regs_ok (x_regs (exit_state num result args p q)).
Proof. apply poke_reg_ok, save_current_regs_ok, enter_regs_ok. Qed.

Lemma exit_results_reported_witness :
  peek_reg (x_regs (fst (translate_syscall_exit 0 unmapped_rename))) CURRENT SYSARG_RESULT = wrap64 (- EFAULT).
Proof.
  destruct unmapped_rename_fails as (Hk & Hh & Hx).
  assert (Hs : get_sysnum (x_regs unmapped_rename) ORIGINAL = Ok PR_renameat) by (by vm_compute).
  destruct (exit_results_reported demo_memory demo_strings exit_kernel quiet_extensions quiet_events static_policy demo_host quiet_sigsys no_ptrace
    quiet_exit host_stack unmapped_rename (fst (translate_syscall_exit 0 unmapped_rename)) PR_renameat 0 (exit_state_ok _ _ _ _ _) Hs eq_refl
    (fun y => eq_refl) (pair_of _ _ Hx)) as [_ H].
  destruct (H ltac:(done)) as (_ & _ & He). destruct (He _ _ _ Hk Hh (exit_state_ok _ _ _ _ _)) as [-> _].
  by vm_compute.
Defined.

(** ** Results that are not what they should be *)

(** A buffer that has the size of the path and of a terminator: the result counts
    the terminator, as if the path had one more byte. *)
Lemma readlink_counts_terminator :
  detranslate_path (view demo_tracee) demo_fs (bs "/data/root/etc/ab") (Some (bs "/data/root/link")) = Ok (8, bs "/etc/ab")
  /\ snd (detranslate_link PR_readlinkat 17 4096 8 4160 (exit_state 78 17 [(SYSARG_2, 4160)] "/data/root/etc/ab" "/data/root/link")) = Ok (Result 8).
Proof. split; by vm_compute. Qed.

(** The link of a descriptor: the path of the host is left to the tracee, since the
    status of the notification replaces the one of the detranslation. *)
Lemma readlink_proc_fd_untranslated :
  let r := detranslate_link PR_readlinkat 17 4096 64 4160 (exit_state 78 17 [(SYSARG_2, 4160)] "/data/root/etc/ab" "/proc/1/fd/3") in
  snd r = Ok Finished /\ read_data (x_mem (fst r)) 0 4096 17 = inl (bs "/data/root/etc/ab").
Proof. split; by vm_compute. Qed.

(** renameat2(2) has no handler: the current directory keeps the old name. *)
Lemma renameat2_keeps_cwd x result : handle_exit PR_renameat2 result x = (x, Ok Finished).
Proof. done. Qed.
