(* ===== verification/Aoxp.v ===== *)
(** * Arrays of pointers of tracees (src/execve/aoxp.c)

    The arguments and the environment given to execve(2) are arrays of pointers in
    the memory of the tracee.  PRoot fetches the pointers, caches or replaces the
    strings they point to, and pushes the result below the stack pointer. *)

From S2P Require Import Prelude Mem Memory Paths Sysnum Regs Canon SysArgs Mounts Netlink Enter Sockets.

Definition ARG_MAX := 131072.

(** struct mixed_pointer: [local] is the copy of the string, when there is one.  An
    array is the list of its entries, the last one being the null pointer. *)
Record XPointer := mkX { remote : Z; local : option cstr }.
Abbreviation ArrayOfXPointers := (list XPointer).

Section Aoxp.

Context {W Mem : Type} {TM : TraceeMemory Mem} {TS : TraceeStrings Mem}.

Abbreviation H A := (HM W Mem A).

(** ** Strings *)

(** The array, where the string is now cached, and the string; [None] for a null
    pointer. *)
Definition read_xpointee_as_string (array : ArrayOfXPointers) (index : nat) : H (ArrayOfXPointers * option cstr) :=
  match array !! index with
  | None => hlift (Stuck AssertFailed)
  | Some p =>
      match local p with
      | Some string => hret (array, Some string)
      | None =>
          if remote p =? 0 then hret (array, None)
          else
            do$ tmp := hget (fun x => read_string (x_mem x) (x_me x) (remote p) ARG_MAX) in
            match tmp with
            | inr e => hfail e
            | inl tmp => if ARG_MAX <=? zlen tmp + 1 then hfail ENOMEM
                         else hret (<[index := mkX (remote p) (Some tmp)]> array, Some tmp)
            end
      end
  end.

Definition sizeof_xpointee_as_string (array : ArrayOfXPointers) (index : nat) : H (ArrayOfXPointers * Z) :=
  do$ (array, string) := read_xpointee_as_string array index in
  hret (array, match string with None => 0 | Some string => zlen string + 1 end).

Definition compare_xpointee_generic (array : ArrayOfXPointers) (index : nat) (reference : option cstr) : H (ArrayOfXPointers * bool) :=
  do$ (array, object) := read_xpointee_as_string array index in
  hret (array, bool_decide (object = reference)).

(** The index of the first entry that compares equal to the reference, or the length:
    [n] entries are left.  The function that compares is the one of the array; when
    it fails, the strings read before are cached nevertheless. *)
Fixpoint find_loop {R} (compare_xpointee : ArrayOfXPointers -> nat -> R -> H (ArrayOfXPointers * bool)) (n : nat) (array : ArrayOfXPointers) (index : nat) (reference : R)
  : H (ArrayOfXPointers * status nat) :=
  match n with
  | O => hret (array, inl index)
  | S n =>
      do$ equal := hattempt (compare_xpointee array index reference) in
      match equal with
      | inr e => hret (array, inr e)
      | inl (array, true) => hret (array, inl index)
      | inl (array, false) => find_loop compare_xpointee n array (S index) reference
      end
  end.
Definition find_xpointee {R} (compare_xpointee : ArrayOfXPointers -> nat -> R -> H (ArrayOfXPointers * bool)) (array : ArrayOfXPointers) (reference : R)
  : H (ArrayOfXPointers * status nat) :=
  find_loop compare_xpointee (length array) array 0 reference.

Definition write_xpointee_as_string (array : ArrayOfXPointers) (index : nat) (string : cstr) : res ArrayOfXPointers :=
  match array !! index with
  | None => Stuck AssertFailed
  | Some p => Ok (<[index := mkX (remote p) (Some string)]> array)
  end.

Fixpoint write_xpointees (array : ArrayOfXPointers) (index : nat) (strings : list cstr) : res ArrayOfXPointers :=
  match strings with
  | [] => Ok array
  | string :: strings =>
      let! array := write_xpointee_as_string array index string in
      write_xpointees array (S index) strings
  end.

(** Null entries are inserted before [index], or entries are removed there. *)
Definition resize_array_of_xpointers (array : ArrayOfXPointers) (index : nat) (delta_nb_entries : Z) : res ArrayOfXPointers :=
  check! (index <? length array)%nat else AssertFailed in
  if delta_nb_entries =? 0 then Ok array
  else if 0 <? delta_nb_entries
  then Ok (take index array ++ replicate (Z.to_nat delta_nb_entries) (mkX 0 None) ++ drop index array)
  else check! (- delta_nb_entries <=? Z.of_nat index) else AssertFailed in
       Ok (take (index - Z.to_nat (- delta_nb_entries)) array ++ drop index array).

(** ** From and to the memory of the tracee *)

(** The pointers at an address up to the null one. *)
Fixpoint fetch_loop (fuel : nat) (address : Z) : H ArrayOfXPointers :=
  match fuel with
  | O => hlift (Stuck NoFuel)
  | S fuel =>
      do$ w := word_size in
      do$ (pointer, e) := SysArgs.peek_word (wrap64 address) in
      match e with
      | Some e => hfail e
      | None =>
          if pointer =? 0 then hret [mkX 0 None]
          else
            do$ array := fetch_loop fuel (address + w) in
            hret (mkX pointer None :: array)
      end
  end.

(** The first [n] pointers. *)
Fixpoint fetch_first (n : nat) (address : Z) : H ArrayOfXPointers :=
  match n with
  | O => hret []
  | S n =>
      do$ w := word_size in
      do$ (pointer, e) := SysArgs.peek_word (wrap64 address) in
      match e with
      | Some e => hfail e
      | None =>
          do$ array := fetch_first n (address + w) in
          hret (mkX pointer None :: array)
      end
  end.

Definition fetch_array_of_xpointers (fuel : nat) (reg : Reg) (nb_entries : nat) : H ArrayOfXPointers :=
  do$ address := peek CURRENT reg in
  if (nb_entries =? 0)%nat then fetch_loop fuel address else fetch_first nb_entries address.

(** The addresses of the entries, when the strings that PRoot has are put one after
    another at [offset], and these strings. *)
Fixpoint layout (offset : Z) (array : ArrayOfXPointers) : list Z * list (list Z) :=
  match array with
  | [] => ([], [])
  | p :: array =>
      match local p with
      | None => let '(remotes, chunks) := layout offset array in (remote p :: remotes, chunks)
      | Some string =>
          let '(remotes, chunks) := layout (offset + zlen string + 1) array in (offset :: remotes, (string ++ [0]) :: chunks)
      end
  end.

(** writev_data(): the chunks are written one after another, as when
    process_vm_writev(2) is not usable. *)
Fixpoint writev_data (address : Z) (chunks : list (list Z)) : H (option Z) :=
  match chunks with
  | [] => hret None
  | chunk :: chunks =>
      do$ e := poke_data address chunk in
      match e with
      | Some e => hret (Some e)
      | None => writev_data (address + zlen chunk) chunks
      end
  end.

(** The table of pointers. *)
Definition pod_array (w : Z) (remotes : list Z) : list Z := concat (to_le (Z.to_nat w) <$> remotes).

Definition push_array_of_xpointers (array : ArrayOfXPointers) (reg : Reg) : H unit :=
  do$ w := word_size in
  let pod_size := zlen array * w in
  let chunks := snd (layout 0 array) in
  if (length chunks =? 0)%nat then hret ()
  else if negb (length chunks <? length array)%nat then hlift (Stuck AssertFailed)
  else
    do$ tracee_ptr := (fun x => match alloc_mem (x_sysenter x) (x_regs x) (pod_size + zlen (concat chunks)) with
                                | Ok (g, a) => (set_regs g x, Ok a)
                                | Err e => (x, Err e)
                                | Stuck w => (x, Stuck w)
                                end) in
    if tracee_ptr =? 0 then hfail E2BIG
    else
      let remotes := fst (layout (tracee_ptr + pod_size) array) in
      do$ e := writev_data tracee_ptr (pod_array w remotes :: chunks) in
      match e with
      | Some e => hfail e
      | None => poke reg tracee_ptr
      end.

End Aoxp.

(** ** What the memory of the tracee has *)

Lemma layout_chunks array : forall o o', snd (layout o array) = snd (layout o' array).
Proof.
  induction array as [|[r [s|]] array IH]; intros o o'; cbn; [done|..].
  - specialize (IH (o + zlen s + 1) (o' + zlen s + 1)). by destruct (layout _ array), (layout _ array); cbn in *; rewrite IH.
  - specialize (IH o o'). by destruct (layout o array), (layout o' array).
Qed.

Lemma layout_length array : forall o, length (fst (layout o array)) = length array.
Proof.
  induction array as [|[r [s|]] array IH]; intros o; cbn; [done|..].
  - specialize (IH (o + zlen s + 1)). by destruct (layout _ array); cbn in *; rewrite IH.
  - specialize (IH o). by destruct (layout o array); cbn in *; rewrite IH.
Qed.

Lemma layout_none array : forall o, snd (layout o array) = [] -> Forall (fun p => local p = None) array.
Proof.
  induction array as [|[r [s|]] array IH]; intros o E; cbn in E; [done|..].
  - by destruct (layout _ array).
  - specialize (IH o). destruct (layout o array). constructor; [done|]. by apply IH.
Qed.

Lemma pod_array_app w l k : pod_array w (l ++ k) = pod_array w l ++ pod_array w k.
Proof. unfold pod_array. by rewrite fmap_app, concat_app. Qed.

Lemma pod_array_length w l : 0 <= w -> zlen (pod_array w l) = zlen l * w.
Proof.
  intros Hw. induction l as [|v l IH]; [done|]. change (pod_array w (v :: l)) with (to_le (Z.to_nat w) v ++ pod_array w l).
  rewrite zlen_app, zlen_cons, IH. unfold zlen at 1. rewrite length_to_le, Z2Nat.id by done. ring.
Qed.

Section Held.

Context {W Mem : Type} {TM : TraceeMemory Mem} {TS : TraceeStrings Mem} {MC : MemoryContents Mem}.
Context {ML : MemoryContentsLaws Mem TM TS MC} {MR : MemoryReadsLaws Mem TM MC}.

Abbreviation State := (SysState W Mem).
Abbreviation sp x := (peek_reg (x_regs x) CURRENT STACK_POINTER).
Abbreviation reg x r := (peek_reg (x_regs x) CURRENT r).
Abbreviation word x := (sizeof_word (x_regs x)).

(** Some bytes are not among the ones between [lo] and the stack pointer: the part
    of the stack that PRoot may use. *)
Definition clear_of_stack (lo : Z) (x : State) (b n : Z) : Prop := b + n <= lo \/ sp x <= b.

(** The stack pointer is lowered; only the bytes below it and one argument change. *)
Record lowered (r : Reg) (x x' : State) : Prop := {
  lw_me : x_me x' = x_me x;
  lw_word : word x' = word x;
  lw_sp : sp x' <= sp x;
  lw_kept : forall b l, clear_of_stack (sp x') x b (zlen l) -> holds_at (x_mem x) (x_me x) b l -> holds_at (x_mem x') (x_me x) b l;
  lw_regs : forall r', is_arg r' = true -> r' <> r -> reg x' r' = reg x r'
}.

(** A null-terminated array of strings is at an address. *)
Definition argv_held (lo : Z) (x : State) (address : Z) (strings : list cstr) : Prop :=
  exists ps, holds_at (x_mem x) (x_me x) address (pod_array (word x) (ps ++ [0])) /\ 0 <= address <= 2 ^ 64 - (zlen ps + 1) * word x
    /\ Forall2 (fun p s => 0 < p < 256 ^ word x /\ nul_free s /\ holds_at (x_mem x) (x_me x) p (s ++ [0]) /\ clear_of_stack lo x p (zlen s + 1)) ps strings.

(** The string that an entry stands for. *)
Definition denotes (lo : Z) (x : State) (p : XPointer) (string : option cstr) : Prop :=
  match local p, string with
  | Some s, Some s' => s = s' /\ nul_free s
  | None, None => remote p = 0
  | None, Some s => 0 < remote p < 256 ^ word x /\ nul_free s /\ holds_at (x_mem x) (x_me x) (remote p) (s ++ [0]) /\ clear_of_stack lo x (remote p) (zlen s + 1)
  | Some _, None => False
  end.

Lemma writev_data_held chunks : forall a (x x' : State) e, writev_data a chunks x = (x', Ok e) ->
  x_regs x' = x_regs x /\ x_me x' = x_me x /\ x_path x' = x_path x
  /\ (forall b l, b + zlen l <= a \/ a + zlen (concat chunks) <= b -> holds_at (x_mem x) (x_me x) b l -> holds_at (x_mem x') (x_me x) b l)
  /\ (e = None -> chunks <> [] -> holds_at (x_mem x') (x_me x') a (concat chunks)).
Proof.
  induction chunks as [|c chunks IH]; intros a x x' e H; cbn [writev_data] in H; [by injection H as <- <-|].
  hstep H x1 e1. unfold poke_data in E. destruct (write_data _ _ _ _) as [m e2] eqn:Ew. injection E as <- <-.
  assert (Hk : forall b l, b + zlen l <= a \/ a + zlen (concat (c :: chunks)) <= b -> holds_at (x_mem x) (x_me x) b l -> holds_at m (x_me x) b l).
  { intros b l Hd Hh. eapply kept; [exact Ew|exact Hh|]. cbn [concat] in Hd. rewrite zlen_app in Hd. pose proof (zlen_nonneg (concat chunks)). lia. }
  destruct e2 as [e2|]; [by injection H as <- <-|]. destruct (IH _ _ _ _ H) as (H1 & H2 & H3 & H4 & H5). cbn [set_mem x_regs x_me x_path x_mem] in *.
  split; [done|]. split; [done|]. split; [done|]. cbn [concat]. split.
  - intros b l Hd Hh. apply H4; [|by apply Hk]. rewrite zlen_app in Hd. pose proof (zlen_nonneg c). lia.
  - intros He _. assert (Hc : holds_at (x_mem x') (x_me x') a c) by (rewrite H2; apply H4; [lia|by eapply written]).
    destruct chunks as [|c' chunks]; [by rewrite app_nil_r|]. apply holds_app. split; [done|]. by apply H5.
Qed.

Lemma layout_entries (m : Mem) i array : forall o,
  (snd (layout o array) <> [] -> holds_at m i o (concat (snd (layout o array)))) ->
  Forall2 (fun p a => match local p with Some s => holds_at m i a (s ++ [0]) | None => a = remote p end) array (fst (layout o array)).
Proof.
  induction array as [|[r [s|]] array IH]; intros o H; cbn [layout local remote] in *; [constructor|..].
  - specialize (IH (o + zlen s + 1)). destruct (layout (o + zlen s + 1) array) as [rs cs]. cbn in *. specialize (H ltac:(done)).
    destruct cs as [|c cs].
    + rewrite app_nil_r in H. constructor; [done|]. by apply IH.
    + apply holds_app in H as [H1 H2]. constructor; [done|]. apply IH. intros _. rewrite zlen_app, Z.add_assoc in H2. exact H2.
  - specialize (IH o). destruct (layout o array) as [rs cs]. cbn in *. constructor; [done|]. by apply IH.
Qed.

Lemma layout_range array : forall o, Forall2 (fun p a => match local p with Some _ => o <= a < o + zlen (concat (snd (layout o array))) | None => a = remote p end)
  array (fst (layout o array)).
Proof.
  induction array as [|[r [s|]] array IH]; intros o; cbn [layout local remote]; [constructor|..].
  - specialize (IH (o + zlen s + 1)). destruct (layout (o + zlen s + 1) array) as [rs cs]. cbn [fst snd concat] in *.
    rewrite zlen_app. pose proof (zlen_nonneg (concat cs)). assert (zlen (s ++ [0]) = zlen s + 1) by (rewrite zlen_app; done). pose proof (zlen_nonneg s).
    constructor; [cbn; lia|]. eapply Forall2_impl; [exact IH|]. intros p a. cbv beta. destruct (local p); [lia|done].
  - specialize (IH o). destruct (layout o array) as [rs cs]. cbn in *. constructor; [done|]. exact IH.
Qed.

Lemma word_bits_of (x : State) : 256 ^ word x = 2 ^ reg_bits (x_regs x) /\ 0 < word x.
Proof. unfold sizeof_word, is_32on64_mode, reg_bits. by destruct (is_aarch32 _). Qed.

Lemma sp_range (x : State) : regs_ok (x_regs x) -> 0 <= sp x < 256 ^ word x.
Proof. intros Hg. rewrite (proj1 (word_bits_of x)). by apply peek_reg_range. Qed.

(** The entries and their strings, without the null pointer that ends them. *)
Definition argv_denotes (lo : Z) (x : State) (array : ArrayOfXPointers) (strings : list cstr) : Prop :=
  exists entries last, array = entries ++ [last] /\ local last = None /\ remote last = 0
    /\ Forall2 (fun p s => denotes lo x p (Some s)) entries strings.

Lemma entries_held lo (x x2 : State) spx o n entries strings : 0 < o -> spx <= o -> lo <= spx <= sp x -> o + n <= sp x < 256 ^ word x ->
  (forall b l, clear_of_stack lo x b (zlen l) -> holds_at (x_mem x) (x_me x) b l -> holds_at (x_mem x2) (x_me x2) b l) ->
  Forall2 (fun p s => denotes lo x p (Some s)) entries strings -> forall ps,
  Forall2 (fun p b => match local p with Some s => holds_at (x_mem x2) (x_me x2) b (s ++ [0]) | None => b = remote p end) entries ps ->
  Forall2 (fun p b => match local p with Some _ => o <= b < o + n | None => b = remote p end) entries ps ->
  Forall2 (fun p s => 0 < p < 256 ^ word x /\ nul_free s /\ holds_at (x_mem x2) (x_me x2) p (s ++ [0]) /\ (p + (zlen s + 1) <= lo \/ spx <= p)) ps strings.
Proof.
  intros Ho Hspo Hlo Hsp Hk. induction 1 as [|p s entries strings Hps Hd IH]; intros ps He Hrg.
  { apply Forall2_nil_inv_l in He as ->. constructor. }
  apply Forall2_cons_inv_l in He as (b & ps' & Hb & He & ->). apply Forall2_cons in Hrg as [Hr Hrg]. constructor; [|by apply IH].
  unfold denotes in Hps. destruct (local p) as [s'|]; [destruct Hps as [-> Hz]; repeat (split; [done || lia|]); lia|].
  destruct Hps as (H1 & H2 & H3 & H4). subst b. split; [done|]. split; [done|]. split; [|unfold clear_of_stack in H4; lia].
  apply Hk; [|done]. by rewrite zlen_app.
Qed.

Lemma push_array_held lo array strings r x x' : lo <= sp x' -> regs_ok (x_regs x) -> is_arg r = true -> argv_denotes lo x array strings ->
  push_array_of_xpointers array r x = (x', Ok ()) ->
  Forall (fun p => local p = None) array /\ x' = x
  \/ argv_held lo x' (reg x' r) strings /\ regs_ok (x_regs x') /\ lowered r x x' /\ sp x' <= reg x' r /\ x_path x' = x_path x.
Proof.
  intros Hlo Hg Hr (entries & last & -> & Hl1 & Hl2 & Hd) H. set (array := entries ++ [last]) in *. unfold push_array_of_xpointers in H.
  hstep H x1 w. unfold word_size, hget in E. injection E as <- <-. set (chunks := snd (layout 0 array)) in *.
  destruct (length chunks =? 0)%nat eqn:E0.
  { injection H as <-. left. split; [|done]. apply Nat.eqb_eq, length_zero_iff_nil in E0. by eapply layout_none. }
  case_bool_in H; [done|]. hstep H x1 ptr. case_bool_in H; [done|]. bool_facts.
  destruct (word_bits_of x) as [Hwb Hw0]. set (pod_size := zlen array * word x) in *.
  destruct (alloc_mem _ _ _) as [[g a]|e|w] eqn:Ea; [|done..]. injection E as <- <-.
  assert (Hlen : 0 < pod_size + zlen (concat chunks)).
  { pose proof (zlen_nonneg (concat chunks)). assert (0 < zlen array) by (unfold array; rewrite zlen_app; pose proof (zlen_nonneg entries); unfold zlen at 2; cbn; lia). unfold pod_size. nia. }
  assert (Hpod : 0 <= pod_size) by (unfold pod_size; pose proof (zlen_nonneg array); nia).
  destruct (alloc_mem_below _ _ _ _ _ Hg Hlen Ea Hb0) as (Ea' & -> & W1 & W2).
  hstep H x2 e. destruct e as [e|]; [done|]. set (o := a + pod_size) in *. set (remotes := fst (layout o array)) in *.
  assert (Hch : chunks = snd (layout o array)) by apply layout_chunks.
  apply writev_data_held in E as (R1 & R2 & R3 & R4 & R5). cbn [set_regs x_regs x_me x_path x_mem] in *. specialize (R5 eq_refl ltac:(done)).
  assert (Hrl : zlen (pod_array (word x) remotes) = pod_size).
  { rewrite pod_array_length by lia. unfold pod_size, zlen, remotes. by rewrite layout_length. }
  cbn [concat] in R4, R5. rewrite zlen_app, Hrl in R4. apply holds_app in R5 as [Hp Hc]. rewrite Hrl in Hc. fold o in Hc.
  unfold poke, hset in H. injection H as <-. rewrite W1. cbn [set_regs x_regs x_me x_path x_mem] in *.
  assert (Hspx : forall q, peek_reg (x_regs x2) CURRENT q = if same_slot STACK_POINTER q then a else reg x q) by (intros q; rewrite R1, peek_poke_reg by done; by rewrite W2).
  destruct (is_arg_slots r Hr) as (_ & Hrsp & Hspr & Hrr).
  assert (Hgx : regs_ok (x_regs x2)) by (rewrite R1; by apply poke_reg_ok).
  assert (Hbits : reg_bits (x_regs x2) = reg_bits (x_regs x)) by (unfold reg_bits; by rewrite R1, poke_reg_mode).
  assert (Hreg : forall q, peek_reg (poke_reg (x_regs x2) r a) CURRENT q = if same_slot r q then a else peek_reg (x_regs x2) CURRENT q)
    by (intros q; rewrite peek_poke_reg by done; by rewrite Hbits, W2).
  assert (Hword : sizeof_word (poke_reg (x_regs x2) r a) = word x) by (unfold sizeof_word, is_32on64_mode; by rewrite poke_reg_mode, R1, poke_reg_mode).
  pose proof (sp_range x Hg) as Hspr'. right.
  assert (Hself : same_slot r r = true) by (rewrite Hrr by done; by apply bool_decide_eq_true).
  assert (Hnew : peek_reg (poke_reg (x_regs x2) r a) CURRENT STACK_POINTER = a) by (by rewrite Hreg, Hrsp, Hspx).
  cbn [x_regs set_regs] in Hlo. rewrite W1, Hnew in Hlo.
  split_and!; [|by apply poke_reg_ok| |cbn; rewrite Hnew, Hreg, Hself; lia|done].
  2: { split; cbn; [done|done|rewrite Hnew; lia| |].
       - intros b l Hb' Hh. apply R4; [|done]. unfold clear_of_stack in Hb'. cbn in Hb'. rewrite Hnew in Hb'. lia.
       - intros q Hq Hne. rewrite Hreg, Hrr, bool_decide_eq_false_2, Hspx by congruence || done. by destruct (is_arg_slots q Hq) as (_ & _ & -> & _). }
  cbn. rewrite Hreg, Hself. unfold argv_held, clear_of_stack. cbn. rewrite Hword, Hnew.
  assert (He : Forall2 (fun p b => match local p with Some s => holds_at (x_mem x2) (x_me x2) b (s ++ [0]) | None => b = remote p end) array remotes).
  { unfold remotes. apply layout_entries. intros _. rewrite <- Hch. exact Hc. }
  pose proof (layout_range array o) as Hrg. fold remotes in Hrg. rewrite <- Hch in Hrg.
  unfold array in He, Hrg. apply Forall2_app_inv_l in He as (ps & ls & He & Hl & Er). apply Forall2_cons_inv_l in Hl as (q & nil & Hq & Hn & ->).
  apply Forall2_nil_inv_l in Hn as ->. rewrite Hl1, Hl2 in Hq. subst q. rewrite Er in Hrg, Hp. exists ps. split; [by rewrite R2 in *|].
  assert (Ha : 0 <= a) by (rewrite <- W1; by apply Z.mod_pos_bound). assert (Hps : zlen ps + 1 = zlen array) by (unfold array; rewrite zlen_app; apply Forall2_length in He; unfold zlen; cbn; lia).
  split; [rewrite Hps; fold pod_size; pose proof (zlen_nonneg (concat chunks)); rewrite Hwb in Hspr'; assert (2 ^ reg_bits (x_regs x) <= 2 ^ 64) by (unfold reg_bits; destruct (is_aarch32 _); lia); lia|].
  apply Forall2_app_inv in Hrg as [Hrg _]; [|by apply Forall2_length in He]. clear Er Hl1 Hl2.
  pose proof (zlen_nonneg (concat chunks)). eapply (entries_held lo x x2 a o (zlen (concat chunks))); try done; unfold o; try lia. intros b l Hb' Hh. rewrite R2. apply R4; [unfold clear_of_stack in Hb'; lia|done].
Qed.

(** The stack pointer never goes up, and the number of the system call is left. *)
Lemma push_lowers array r (x x' : State) : regs_ok (x_regs x) -> is_arg r = true -> push_array_of_xpointers array r x = (x', Ok ()) ->
  sp x' <= sp x /\ regs_ok (x_regs x') /\ get_sysnum (x_regs x') CURRENT = get_sysnum (x_regs x) CURRENT.
Proof.
  intros Hg Hr H. unfold push_array_of_xpointers in H. hstep H x1 w. unfold word_size, hget in E. injection E as <- <-. case_bool_in H; [by injection H as <-|]. case_bool_in H; [done|].
  hstep H x1 ptr. case_bool_in H; [done|]. bool_facts. destruct (word_bits_of x) as [Hwb Hw0].
  destruct (alloc_mem _ _ _) as [[g a]|e|w] eqn:Ea; [|done..]. injection E as <- <-. set (chunks := snd (layout 0 array)) in *.
  assert (Hlen : 0 < zlen array * word x + zlen (concat chunks)).
  { pose proof (zlen_nonneg (concat chunks)). apply Nat.ltb_lt in Hb0. assert (0 < zlen array) by (unfold zlen; lia). nia. }
  destruct (alloc_mem_below _ _ _ _ _ Hg Hlen Ea Hb1) as (Ea2 & -> & W1 & W2).
  hstep H x2 e. destruct e as [e|]; [done|]. apply writev_data_held in E as (R1 & _). cbn [set_regs x_regs] in R1. unfold poke, hset in H. injection H as <-. cbn [x_regs set_regs]. rewrite R1.
  destruct (is_arg_slots r Hr) as (Hrn & Hrsp & _). split; [|split; [by apply poke_reg_ok, poke_reg_ok|by rewrite !get_sysnum_poke by (done || by apply poke_reg_ok)]].
  rewrite !peek_poke_reg by (done || by apply poke_reg_ok). rewrite Hrsp. replace (same_slot STACK_POINTER STACK_POINTER) with true by done. rewrite W2. lia.
Qed.

Lemma push_path array r (x x' : State) res : push_array_of_xpointers array r x = (x', res) -> x_path x' = x_path x.
Proof.
  intros H. assert (Hw : forall chunks a (y y' : State) e, writev_data a chunks y = (y', e) -> x_path y' = x_path y).
  { induction chunks as [|ch chunks IH]; intros a y y' e Hy; cbn [writev_data] in Hy; [by injection Hy as <- _|]. unfold hbind, poke_data in Hy.
    destruct (write_data _ _ _ _) as [m [n|]]; [by injection Hy as <- _|]. by apply IH in Hy. }
  unfold push_array_of_xpointers, hbind, word_size, hget in H. repeat (case_bool_in H; [by injection H as <- _|]).
  destruct (alloc_mem _ _ _) as [[g a]|e|w]; [|by injection H as <- _..]. case_bool_in H; [by injection H as <- _|].
  destruct (writev_data _ _ _) as [y [[n|]|n|w]] eqn:Ew; apply Hw in Ew; by injection H as <- _.
Qed.

(** A path that is put in an argument is below what was there. *)
Lemma set_sysarg_path_lowers p r (x x' : State) : regs_ok (x_regs x) -> is_arg r = true -> set_sysarg_path p r x = (x', Ok ()) ->
  lowered r x x' /\ placed x' r p /\ regs_ok (x_regs x') /\ x_path x' = x_path x.
Proof.
  intros Hg Hr H. unfold set_sysarg_path, set_sysarg_data in H. hstep H x1 a. destruct (alloc_mem _ _ _) as [[g b]|e|w] eqn:Ea; [|done..]. injection E as <- <-.
  case_bool_in H; [done|]. bool_facts. assert (Hlen : 0 < zlen (p ++ [0])) by (rewrite zlen_app; change (zlen [0]) with 1; pose proof (zlen_nonneg p); lia).
  destruct (alloc_mem_below _ _ _ _ _ Hg Hlen Ea Hb) as (Ea' & -> & W1 & W2). hstep H x2 e. unfold poke_data in E. cbn [set_regs x_mem x_me] in E.
  destruct (write_data _ _ _ _) as [m e2] eqn:Ew. injection E as <- <-. destruct e2; [done|]. unfold poke, hset in H. rewrite W1 in H. injection H as <-.
  cbn [set_regs set_mem x_regs x_mem x_me x_path]. set (g1 := poke_reg (x_regs x) STACK_POINTER b) in *. assert (Hg1 : regs_ok g1) by (by apply poke_reg_ok).
  destruct (is_arg_slots r Hr) as (_ & Hrsp & Hspr & Hrr). assert (Hbits : reg_bits g1 = reg_bits (x_regs x)) by (unfold reg_bits, g1; by rewrite poke_reg_mode).
  assert (Hq : forall q, peek_reg (poke_reg g1 r b) CURRENT q = if same_slot r q then b else if same_slot STACK_POINTER q then b else reg x q).
  { intros q. rewrite peek_poke_reg, Hbits, W2 by done. case_bool; [done|]. unfold g1. by rewrite peek_poke_reg, W2 by done. }
  assert (Hnew : peek_reg (poke_reg g1 r b) CURRENT STACK_POINTER = b) by (by rewrite Hq, Hrsp).
  split; [|split; [|split; [by apply poke_reg_ok|done]]].
  - split; cbn; [done| |rewrite Hnew; lia| |].
    + unfold sizeof_word, is_32on64_mode. unfold g1. by rewrite !poke_reg_mode.
    + intros a k Hc Hk. eapply kept; [exact Ew|exact Hk|]. unfold clear_of_stack in Hc. cbn in Hc. rewrite Hnew in Hc. lia.
    + intros q Ha Hne. rewrite Hq, Hrr, bool_decide_eq_false_2 by congruence || done. by destruct (is_arg_slots q Ha) as (_ & _ & -> & _).
  - unfold placed. cbn. assert (Hself : same_slot r r = true) by (rewrite Hrr by done; by apply bool_decide_eq_true). rewrite Hnew, Hq, Hself. split; [by eapply written|lia].
Qed.

(** A pointer that is in memory is the one that is read. *)
Lemma peek_word_held (x : State) a v : 0 <= a < 2 ^ 64 -> 0 <= v < 256 ^ word x -> holds_at (x_mem x) (x_me x) a (to_le (Z.to_nat (word x)) v) ->
  exists e, SysArgs.peek_word (wrap64 a) x = (x, Ok (match e with None => v | Some _ => wrap (8 * word x) (-1) end, e)).
Proof.
  intros Ha Hv Hh. unfold SysArgs.peek_word, hget, wrap64. rewrite (wrap_small 64 a) by done. destruct (word_bits_of x) as [_ Hw].
  destruct (read_data _ _ a _) as [l|e] eqn:Er; [|by exists (Some e)]. exists None. apply read_holds in Er as [Hl Hr]; [|lia].
  rewrite (holds_unique _ _ _ _ _ Hr Hh) by (unfold zlen in *; rewrite length_to_le; lia). rewrite of_le_to_le by (rewrite Z2Nat.id by lia; done). done.
Qed.

Lemma fetch_loop_held (x : State) ps : forall fuel a, Forall (fun p => 0 < p < 256 ^ word x) ps ->
  holds_at (x_mem x) (x_me x) a (pod_array (word x) (ps ++ [0])) -> 0 <= a <= 2 ^ 64 - (zlen ps + 1) * word x ->
  fst (fetch_loop fuel a x) = x
  /\ match snd (fetch_loop fuel a x) with
     | Ok array => array = ((fun p => mkX p None) <$> ps) ++ [mkX 0 None]
     | Err _ => True
     | Stuck _ => (fuel <= length ps)%nat
     end.
Proof.
  destruct (word_bits_of x) as [Hwb Hw]. assert (H1 : 1 <= 256 ^ word x) by (pose proof (Z.pow_pos_nonneg 256 (word x)); lia).
  induction ps as [|p ps IH]; intros fuel a Hps Hh Ha.
  - destruct fuel as [|fuel]; [cbn; split; [done|lia]|]. cbn [fetch_loop]. unfold hbind, word_size, hget.
    destruct (peek_word_held x a 0) as [e Ee]; [unfold zlen in Ha; cbn [length] in Ha; lia|lia|unfold pod_array in Hh; cbn in Hh; by rewrite app_nil_r in Hh|].
    rewrite Ee. by destruct e.
  - apply Forall_cons in Hps as [Hp Hps]. change (pod_array (word x) ((p :: ps) ++ [0])) with (to_le (Z.to_nat (word x)) p ++ pod_array (word x) (ps ++ [0])) in Hh.
    apply holds_app in Hh as [Hh1 Hh2]. unfold zlen at 1 in Hh2. rewrite length_to_le, Z2Nat.id in Hh2 by lia. rewrite zlen_cons in Ha. pose proof (zlen_nonneg ps).
    destruct fuel as [|fuel]; [cbn; split; [done|lia]|]. cbn [fetch_loop]. unfold hbind, word_size, hget.
    destruct (peek_word_held x a p) as [e Ee]; [nia|lia|done|]. rewrite Ee. destruct e as [e|]; [done|].
    rewrite (proj2 (Z.eqb_neq p 0)) by lia. specialize (IH fuel (a + word x) Hps Hh2 ltac:(nia)).
    destruct (fetch_loop fuel (a + word x) x) as [y [array|e|w]]; cbn in IH |- *; destruct IH as [-> IH]; split; try done; [by subst|lia].
Qed.

(** A block of entries is written. *)
Lemma write_block new : forall pre (mid post : ArrayOfXPointers), length mid = length new ->
  exists mid', write_xpointees (pre ++ mid ++ post) (length pre) new = Ok (pre ++ mid' ++ post) /\ Forall2 (fun p s => local p = Some s) mid' new.
Proof.
  induction new as [|s new IH]; intros pre [|p mid] post Hm; try done; [by exists []|]. cbn [write_xpointees]. unfold write_xpointee_as_string.
  rewrite lookup_app_r, Nat.sub_diag by done. cbn [lookup list_lookup app]. cbn [res_bind].
  rewrite insert_app_r_alt, Nat.sub_diag by done. cbn [list_insert insert].
  destruct (IH (pre ++ [mkX (remote p) (Some s)]) mid post) as (mid' & E & H); [by injection Hm|].
  exists (mkX (remote p) (Some s) :: mid'). split; [|by constructor]. rewrite <- !app_assoc in E. cbn [app] in E.
  rewrite length_app in E. cbn [length] in E. by replace (length pre + 1)%nat with (S (length pre)) in E by lia.
Qed.

Lemma block_denotes lo (x : State) (mid : ArrayOfXPointers) (new : list cstr) : Forall2 (fun p s => local p = Some s) mid new -> Forall nul_free new ->
  Forall2 (fun p s => denotes lo x p (Some s)) mid new.
Proof.
  induction 1 as [|p s mid new Hp Hm IH]; intros Hn; [constructor|]. apply Forall_cons in Hn as [Hs Hn].
  constructor; [|by apply IH]. unfold denotes. by rewrite Hp.
Qed.

(** Strings put before the others, the first of which is replaced, as for the
    interpreter of a script. *)
Lemma prepend_denotes lo (x : State) array strings (new : list cstr) : argv_denotes lo x array strings -> Forall nul_free new -> (0 < length new)%nat ->
  exists array1 array', resize_array_of_xpointers array 0 (zlen new - (if (length array =? 1)%nat then 0 else 1)) = Ok array1
    /\ write_xpointees array1 0 new = Ok array' /\ argv_denotes lo x array' (new ++ tail strings)
    /\ ~ Forall (fun p => local p = None) array'.
Proof.
  intros (entries & last & -> & Hl & Hr & Hd) Hn Hpos. set (array := entries ++ [last]).
  set (n := (length new - (if (length array =? 1)%nat then 0 else 1))%nat).
  exists (replicate n (mkX 0 None) ++ array).
  assert (Hnew : zlen new - (if (length array =? 1)%nat then 0 else 1) = Z.of_nat n) by (unfold n, zlen; case_bool; lia).
  set (rest := if (length array =? 1)%nat then array else tail array).
  assert (Hrest : exists mid, replicate n (mkX 0 None) ++ array = mid ++ rest /\ length mid = length new).
  { unfold rest, n. case_bool; [exists (replicate (length new - 0) (mkX 0 None)); split; [done|rewrite length_replicate; lia]|].
    destruct array as [|p array'] eqn:Ea; [by destruct entries|]. exists (replicate (length new - 1) (mkX 0 None) ++ [p]). rewrite <- app_assoc. split; [done|].
    rewrite length_app, length_replicate. cbn. lia. }
  destruct Hrest as (mid & Hmr & Hmid). rewrite Hmr. destruct (write_block new [] mid rest Hmid) as (mid' & Ew & Hm'). exists (mid' ++ rest).
  split; [|split; [exact Ew|split]].
  - unfold resize_array_of_xpointers. rewrite (proj2 (Nat.ltb_lt 0 (length array))) by (unfold array; rewrite length_app; cbn; lia).
    rewrite Hnew, <- Hmr. destruct n as [|n']; [done|]. rewrite (proj2 (Z.eqb_neq _ _)), (proj2 (Z.ltb_lt _ _)), Nat2Z.id, drop_0 by lia. done.
  - assert (Hr' : exists old, rest = old ++ [last] /\ Forall2 (fun p s => denotes lo x p (Some s)) old (tail strings)).
    { unfold rest, array. destruct Hd as [|p s entries strings Hp Hd]; [by exists []|]. exists entries.
      rewrite (proj2 (Nat.eqb_neq _ _)) by (rewrite length_app; cbn; lia). done. }
    destruct Hr' as (old & -> & Ho). exists (mid' ++ old), last. split; [by rewrite app_assoc|]. split; [done|]. split; [done|]. apply Forall2_app; [|done].
    by apply block_denotes.
  - intros Hf. destruct Hm' as [|p s mid' new Hp Hm']; [cbn in Hpos; lia|]. apply Forall_inv in Hf. congruence.
Qed.

(** What is fetched stands for the strings of the tracee. *)
Lemma fetch_denotes lo (x x' : State) strings fuel r array : argv_held lo x (reg x r) strings ->
  fetch_array_of_xpointers fuel r 0 x = (x', Ok array) -> x' = x /\ argv_denotes lo x array strings.
Proof.
  intros (ps & Hh & Ha & Hps) H. change (fetch_array_of_xpointers fuel r 0 x) with (fetch_loop fuel (reg x r) x) in H.
  assert (Hp : Forall (fun p => 0 < p < 256 ^ word x) ps) by (clear -Hps; induction Hps as [|p s ps strings [Hp _] _ IH]; by constructor).
  destruct (fetch_loop_held x ps fuel _ Hp Hh Ha) as [E1 E2]. rewrite H in E1, E2. cbn in E1, E2. subst x' array. split; [done|].
  eexists _, _. split; [done|]. split; [done|]. split; [done|]. apply Forall2_fmap_l. eapply Forall2_impl; [exact Hps|]. by intros p s.
Qed.

(** Reading entries leaves the tracee. *)
Lemma read_state array i (x : State) : fst (read_xpointee_as_string array i x) = x.
Proof.
  unfold read_xpointee_as_string. destruct (array !! i) as [p|]; [|done]. destruct (local p); [done|]. case_bool; [done|]. unfold hbind, hget. destruct (read_string _ _ _ _); [by case_bool|done].
Qed.

Lemma find_state {R} (compare : ArrayOfXPointers -> nat -> R -> HM W Mem (ArrayOfXPointers * bool)) reference : (forall array i x, fst (compare array i reference x) = x) ->
  forall n array i (x : State), fst (find_loop compare n array i reference x) = x.
Proof.
  intros Hc n. induction n as [|n IH]; intros array i x; cbn [find_loop]; [done|]. unfold hbind, hattempt. specialize (Hc array i x). destruct (compare array i reference x) as [y [[a [|]]|e|w]]; cbn in Hc; subst y; done || apply IH.
Qed.

(** An entry is read: it is cached, and stands for the same string. *)
Lemma read_denotes lo (x x' : State) array strings i array' string : argv_denotes lo x array strings -> Forall (fun s => zlen s < ARG_MAX) strings ->
  read_xpointee_as_string array i x = (x', Ok (array', string)) ->
  x' = x /\ string = strings !! i /\ argv_denotes lo x array' strings /\ length array' = length array
  /\ match string with None => array' = array | Some _ => ~ Forall (fun p => local p = None) array' end /\ (i < length array)%nat.
Proof.
  intros (entries & last & -> & Hl & Hr & Hd) Hlen H. unfold read_xpointee_as_string in H. destruct (_ !! i) as [p|] eqn:Ei; [|done].
  pose proof (lookup_lt_Some _ _ _ Ei) as Hi. pose proof (Forall2_length _ _ _ Hd) as L. destruct (decide (i < length entries)%nat) as [Hie|Hie].
  - rewrite lookup_app_l in Ei by done. destruct (Forall2_lookup_l _ _ _ _ _ Hd Ei) as (s & Hs & Hds). rewrite Hs. unfold denotes in Hds. destruct (local p) as [s'|] eqn:El.
    + destruct Hds as [-> Hz]. injection H as <- <- <-. split; [done|]. split; [done|]. split; [by exists entries, last|]. split; [done|]. split; [|done].
      intros Hn. apply Forall_app in Hn as [Hn _]. rewrite Forall_lookup in Hn. specialize (Hn i p Ei). congruence.
    + destruct Hds as (D1 & D2 & D3 & D4). rewrite (proj2 (Z.eqb_neq (remote p) 0)) in H by lia. unfold hbind, hget in H. destruct (read_string _ _ _ _) as [t|e] eqn:Et; [|done].
      case_bool_in H; [done|]. injection H as <- <- <-. assert (Ets : t = s) by (eapply read_string_held; [exact D3|done| |exact Et]; rewrite Forall_lookup in Hlen; by eapply Hlen). subst t.
      split; [done|]. split; [done|]. split; [|split; [by rewrite length_insert|split; [|done]]].
      * exists (<[i := mkX (remote p) (Some s)]> entries), last. split; [by rewrite insert_app_l|]. split; [done|]. split; [done|].
        rewrite <- (list_insert_id strings i s Hs). by apply Forall2_insert.
      * intros Hn. rewrite Forall_lookup in Hn. specialize (Hn i (mkX (remote p) (Some s))). rewrite list_lookup_insert_eq in Hn by done. by specialize (Hn eq_refl).
  - rewrite length_app in Hi. cbn in Hi. rewrite lookup_app_r in Ei by lia. replace (i - length entries)%nat with 0%nat in Ei by lia. injection Ei as <-. rewrite Hl, Hr in H. cbn in H. injection H as <- <- <-.
    split; [done|]. split; [symmetry; apply lookup_ge_None; lia|]. split; [by exists entries, last|]. split; [done|]. split; [done|]. rewrite length_app. cbn. lia.
Qed.

(** Strings are put before an entry. *)
Lemma insert_denotes lo (x : State) array strings i new array1 array2 : argv_denotes lo x array strings -> Forall nul_free new -> (0 < length new)%nat -> (i <= length strings)%nat ->
  resize_array_of_xpointers array i (zlen new) = Ok array1 -> write_xpointees array1 i new = Ok array2 ->
  argv_denotes lo x array2 (take i strings ++ new ++ drop i strings) /\ ~ Forall (fun p => local p = None) array2.
Proof.
  intros (entries & last & -> & Hl & Hr & Hd) Hn Hpos Hi H1 H2. pose proof (Forall2_length _ _ _ Hd) as L. unfold resize_array_of_xpointers in H1.
  case_bool_in H1; [|done]. rewrite (proj2 (Z.eqb_neq _ _)), (proj2 (Z.ltb_lt _ _)) in H1 by (unfold zlen; lia). injection H1 as <-. unfold zlen in H2. rewrite Nat2Z.id in H2.
  rewrite take_app_le, drop_app_le in H2 by lia.
  destruct (write_block new (take i entries) (replicate (length new) (mkX 0 None)) (drop i entries ++ [last])) as (mid & E & Hm); [by rewrite length_replicate|].
  rewrite length_take_le, H2 in E by lia. injection E as ->. split.
  - exists (take i entries ++ mid ++ drop i entries), last. split; [by rewrite <- !app_assoc|]. split; [done|]. split; [done|].
    apply Forall2_app; [by apply Forall2_take|]. apply Forall2_app; [by apply block_denotes|by apply Forall2_drop].
  - intros Hf. apply Forall_app in Hf as [_ Hf]. apply Forall_app in Hf as [Hf _]. destruct Hm as [|p s mid new Hp Hm]; [cbn in Hpos; lia|]. apply Forall_inv in Hf. congruence.
Qed.

(** A string is replaced. *)
Lemma set_denotes lo (x : State) array strings i s array' : argv_denotes lo x array strings -> nul_free s -> (i < length strings)%nat ->
  write_xpointee_as_string array i s = Ok array' -> argv_denotes lo x array' (<[i := s]> strings) /\ length array' = length array /\ ~ Forall (fun p => local p = None) array'.
Proof.
  intros (entries & last & -> & Hl & Hr & Hd) Hz Hi H. pose proof (Forall2_length _ _ _ Hd) as L. unfold write_xpointee_as_string in H. destruct (_ !! i) as [p|] eqn:Ei; [|done]. injection H as <-.
  split; [|split; [by rewrite length_insert|]].
  - exists (<[i := mkX (remote p) (Some s)]> entries), last. split; [by rewrite insert_app_l by lia|]. split; [done|]. split; [done|]. by apply Forall2_insert.
  - intros Hn. rewrite Forall_lookup in Hn. specialize (Hn i (mkX (remote p) (Some s))). rewrite list_lookup_insert_eq in Hn by (rewrite length_app; lia). by specialize (Hn eq_refl).
Qed.

(** What an array stands for is left by a change of the stack. *)
Lemma lowered_denotes lo r (x x' : State) array strings : lowered r x x' -> lo <= sp x' -> argv_denotes lo x array strings -> argv_denotes lo x' array strings.
Proof.
  intros [Hme Hw Hsp Hk _] Hlo (entries & last & -> & Hl & Hr & Hd). exists entries, last. split; [done|]. split; [done|]. split; [done|]. eapply Forall2_impl; [exact Hd|].
  intros p s. unfold denotes, clear_of_stack. rewrite Hw, Hme. destruct (local p); [done|]. intros (D1 & D2 & D3 & D4). split; [done|]. split; [done|]. split; [|lia].
  apply Hk; [unfold clear_of_stack; rewrite zlen_app; change (zlen [0]) with 1; lia|done].
Qed.

Lemma lowered_held lo r (x x' : State) address strings : lowered r x x' -> lo <= sp x' -> clear_of_stack lo x address ((zlen strings + 1) * word x) ->
  argv_held lo x address strings -> argv_held lo x' address strings.
Proof.
  intros [Hme Hw Hsp Hk _] Hlo Hc (ps & Hh & Ha & Hps). pose proof (word_bits_of x) as [_ Hw0]. assert (L : zlen ps = zlen strings) by (unfold zlen; by rewrite (Forall2_length _ _ _ Hps)).
  exists ps. rewrite Hw, Hme. split; [|split; [done|]].
  - apply Hk; [|done]. unfold clear_of_stack in *. rewrite pod_array_length, zlen_app by lia. change (zlen [0]) with 1. rewrite L. lia.
  - eapply Forall2_impl; [exact Hps|]. unfold clear_of_stack. intros p s (D1 & D2 & D3 & D4). split; [done|]. split; [done|]. split; [|lia].
    apply Hk; [unfold clear_of_stack; rewrite zlen_app; change (zlen [0]) with 1; lia|done].
Qed.

End Held.

(** ** Property *)

(** C10: an array of arguments survives the tracee.  Once push_array_of_xpointers()
    succeeded, its register points to a null-terminated array that
    fetch_array_of_xpointers() finds again, with as many entries, whose strings are
    the ones of the array that was pushed, be they in PRoot or in the memory of
    the tracee, outside of the part of its stack that is used; all the memory but
    the new part of the stack is left, and so are the other arguments.  The loop
    on the pointers ends. *)
Theorem push_fetch_roundtrip {W Mem} (TM : TraceeMemory Mem) (TS : TraceeStrings Mem) (MC : MemoryContents Mem)
    (ML : MemoryContentsLaws Mem TM TS MC) (MR : MemoryReadsLaws Mem TM MC) (x x' : SysState W Mem) lo array strings r fuel :
  lo <= peek_reg (x_regs x') CURRENT STACK_POINTER -> regs_ok (x_regs x) -> is_arg r = true -> argv_denotes lo x array strings -> Forall (fun s => zlen s < ARG_MAX) strings ->
  ~ Forall (fun p => local p = None) array -> push_array_of_xpointers array r x = (x', Ok ()) ->
  lowered r x x'
  /\ match fetch_array_of_xpointers fuel r 0 x' with
     | (y, Ok array') =>
         y = x' /\ length array' = length array
         /\ forall i string, snd (read_xpointee_as_string array' i x') = Ok string -> snd string = strings !! i
     | (y, Err _) => y = x'
     | (_, Stuck _) => (fuel <= length strings)%nat
     end.
Proof.
  intros Hlo Hg Hr Hd Hlen Hn H. destruct (push_array_held _ _ _ _ _ _ Hlo Hg Hr Hd H) as [[H1 _]|(Hh & _ & Hf & _)]; [done|]. split; [done|].
  destruct Hh as (ps & Hh & Ha & Hps). destruct Hd as (entries & last & -> & _ & _ & Hd).
  assert (Hp : Forall (fun p => 0 < p < 256 ^ sizeof_word (x_regs x')) ps) by (clear -Hps; induction Hps as [|p s ps strings [Hp _] _ IH]; by constructor).
  destruct (fetch_loop_held x' ps fuel _ Hp Hh Ha) as [E1 E2]. pose proof (Forall2_length _ _ _ Hps) as L1. pose proof (Forall2_length _ _ _ Hd) as L2.
  unfold fetch_array_of_xpointers. cbn [Nat.eqb]. change (hbind (peek CURRENT r) _ x') with (fetch_loop fuel (peek_reg (x_regs x') CURRENT r) x').
  destruct (fetch_loop _ _ _) as [y [array'|e|w]]; cbn in E1, E2; [|done|lia]. subst. split; [done|].
  split; [rewrite !length_app, length_fmap; cbn; lia|]. intros i string Hs. unfold read_xpointee_as_string in Hs.
  destruct (_ !! i) as [p|] eqn:Ei; [|done]. destruct (decide (i < length ps)%nat) as [Hi|Hi].
  - rewrite lookup_app_l, list_lookup_fmap in Ei by (by rewrite length_fmap). destruct (lookup_lt_is_Some_2 _ _ Hi) as [q Hq]. rewrite Hq in Ei. injection Ei as <-.
    destruct (Forall2_lookup_l _ _ _ _ _ Hps Hq) as (s & Hs' & Hrange & Hz & Hheld & _). cbn [local remote] in Hs. rewrite (proj2 (Z.eqb_neq q 0)) in Hs by lia.
    unfold hbind, hget in Hs. destruct (read_string _ _ _ _) as [t|e] eqn:Et; [|done]. case_bool_in Hs; [done|]. injection Hs as <-. cbn. rewrite Hs'. f_equal.
    eapply read_string_held; [exact Hheld|done| |exact Et]. rewrite Forall_lookup in Hlen. by eapply Hlen.
  - rewrite lookup_app_r in Ei by (rewrite length_fmap; lia). rewrite length_fmap in Ei. destruct (i - length ps)%nat eqn:Ed; [|done]. injection Ei as <-. cbn in Hs. injection Hs as <-.
    cbn. symmetry. apply lookup_ge_None. lia.
Qed.

(** ** A tracee to compute with *)

#[local] Existing Instance demo_memory.
#[local] Existing Instance demo_strings.
#[local] Existing Instance demo_contents.

(** execve("/s", argv, NULL): the pointers of argv are at 8192, where the stack
    pointer is, and its strings are above. *)
Definition execve_memory (argv : list Z) (path arg : string) : DemoVm :=
  demo_put (demo_put (demo_put (demo_put ∅ 7168 (replicate (Z.to_nat 2048) 0)) 8192 (concat (to_le 8 <$> argv))) 8320 (bs path ++ [0])) 8384 (bs arg ++ [0]).
Definition execve_state (argv : list Z) (path arg : string) : SysState unit DemoVm :=
  mkSys (enter_regs 221 [(SYSARG_1, 8320); (SYSARG_2, 8192); (SYSARG_3, 0)]) (execve_memory argv path arg) 0 true demo_tracee
    (mkFlags false false false false 0 (-1) true) (mkNetlink [] [] 0 false).

Definition demo_array : ArrayOfXPointers := [mkX 0 (Some (bs "/bin/sh")); mkX 8384 None; mkX 0 None].
Definition demo_execve : SysState unit DemoVm := execve_state [8320; 8384; 0] "/s" "arg".

Lemma demo_holds (m : DemoVm) i a l : demo_readv m a (length l) = l -> holds_at m i a l.
Proof. intros E k b Hk. rewrite <- E in Hk. by eapply demo_readv_lookup. Qed.

Lemma demo_array_pushed : snd (push_array_of_xpointers demo_array SYSARG_2 demo_execve) = Ok ().
Proof. by vm_compute. Qed.

Lemma push_fetch_roundtrip_witness :
  let x' := fst (push_array_of_xpointers demo_array SYSARG_2 demo_execve) in
  lowered SYSARG_2 demo_execve x'
  /\ match fetch_array_of_xpointers 8 SYSARG_2 0 x' with
     | (y, Ok array') =>
         y = x' /\ length array' = 3%nat
         /\ forall i string, snd (read_xpointee_as_string array' i x') = Ok string -> snd string = [bs "/bin/sh"; bs "arg"] !! i
     | (y, Err _) => y = x'
     | (_, Stuck _) => (8 <= 2)%nat
     end.
Proof.
  intros x'.
  apply (push_fetch_roundtrip demo_memory demo_strings demo_contents (mem_contents_laws (demo_vm true) demo_byte (demo_vm_laws true))
    (mem_reads_laws (demo_vm true) demo_byte (demo_vm_laws true)) demo_execve x' 7168 demo_array [bs "/bin/sh"; bs "arg"] SYSARG_2 8);
    [by vm_compute|apply enter_regs_ok|done| |by repeat constructor| |exact (pair_of _ _ demo_array_pushed)].
  - exists [mkX 0 (Some (bs "/bin/sh")); mkX 8384 None], (mkX 0 None). split; [done|]. split; [done|]. split; [done|].
    constructor; [split; [done|by repeat constructor]|]. constructor; [|constructor]. split; [by vm_compute|]. split; [by repeat constructor|].
    split; [|right; by vm_compute]. apply demo_holds. by vm_compute.
  - intros Hf. apply Forall_cons in Hf as [Hf _]. done.
Defined.
