(* ===== verification/Shebang.v ===== *)
(** * Scripts (src/execve/shebang.c)

    The first line of a script names its interpreter, and maybe one argument:
    extract_shebang() reads it, expand_shebang() puts them in the arguments of
    execve(2), as many times as interpreters are scripts. *)

From S2P Require Import Prelude Mem Memory Paths Binding ProcLinks Canon Lookup Sysnum Regs Translate SysArgs Mounts Netlink Enter Sockets Aoxp.

Definition BINPRM_BUF_SIZE := 256.
Definition ENOEXEC := 8.
Definition MAXSYMLINKS : nat := 20.

(** A file that is read from its start: its bytes, and the error of the first
    read(2) past them, if any. *)
Abbreviation FileBytes := (list Z * option Z)%type.

(** What the host answers about executables.  The first function is about the flag
    that net_policy reads when a path is translated. *)
Class ExecHost (W : Type) := {
  set_exec_path_translation : W -> bool -> W;
  access_exists : W -> cstr -> bool;
  access_executable : W -> cstr -> bool;
  open_file : W -> cstr -> status FileBytes
}.

(** ** The first line of a script *)

Inductive Shebang := NoShebang | IsScript (user_path argument : cstr).

Definition blank (c : Z) : bool := (c =? 32) || (c =? 9).
Definition end_of_line (c : Z) : bool := (c =? 10) || (c =? 13).

(** What happens at the end of the file. *)
Definition at_end {A} (err : option Z) (eof : res A) : res A := match err with Some e => Err e | None => eof end.

(** The first character that is read after the blanks, the rest, and the number of
    characters that were read. *)
Fixpoint skip_blanks (bytes : list Z) (err : option Z) (current_length : Z) : res (Z * list Z * Z) :=
  match bytes with
  | [] => at_end err (Err ENOEXEC)
  | tmp :: bytes =>
      let current_length := current_length + 1 in
      if blank tmp && (current_length <? BINPRM_BUF_SIZE) then skip_blanks bytes err current_length
      else Ok (tmp, bytes, current_length)
  end.

(** The blanks at the end of the argument are removed, its first character is
    kept; [l] is in reverse order. *)
Fixpoint drop_trailing (l : list Z) : list Z :=
  match l with
  | c :: (_ :: _) as l' => if blank c then drop_trailing l' else l
  | _ => l
  end.
Definition remove_trailing_spaces (argument : list Z) : res (list Z) :=
  match argument with
  | [] => Stuck OutOfBounds
  | _ => Ok (rev (drop_trailing (rev argument)))
  end.

Definition c_string (l : list Z) : cstr := until_nul (length l) l.

(** [argument] is what was written so far. *)
Fixpoint slurp_argument (user_path : cstr) (tmp : Z) (bytes : list Z) (err : option Z) (current_length : Z) (argument : list Z) : res Shebang :=
  if negb (current_length <? BINPRM_BUF_SIZE) then Ok (IsScript user_path (c_string argument))
  else if end_of_line tmp then
    let! argument := remove_trailing_spaces argument in
    Ok (IsScript user_path (c_string argument))
  else
    let argument := argument ++ [tmp] in
    match bytes with
    | [] => at_end err (Ok (IsScript user_path []))
    | tmp :: bytes => slurp_argument user_path tmp bytes err (current_length + 1) argument
    end.

(** [user_path] is what was written so far, a null byte for each blank.  At the end of
    the file the terminator takes the place of the last character. *)
Fixpoint slurp_path (tmp : Z) (bytes : list Z) (err : option Z) (current_length : Z) (user_path : list Z) : res Shebang :=
  if negb (current_length <? BINPRM_BUF_SIZE) then Ok (IsScript (c_string user_path) [])
  else if end_of_line tmp then Ok (IsScript (c_string user_path) [])
  else if negb (blank tmp) && (1 <? length user_path)%nat && (chr user_path (length user_path - 1) =? 0)
  then slurp_argument (c_string user_path) tmp bytes err current_length []
  else
    match bytes with
    | [] => at_end err (Ok (IsScript (c_string user_path) []))
    | tmp' :: bytes => slurp_path tmp' bytes err (current_length + 1) (user_path ++ [if blank tmp then 0 else tmp])
    end.

Definition shebang_of (file : FileBytes) : res Shebang :=
  let '(bytes, err) := file in
  match bytes with
  | [] => at_end err (Ok NoShebang)
  | a :: b :: bytes =>
      if negb (a =? 35) || negb (b =? 33) then Ok NoShebang
      else
        let! (tmp, bytes, current_length) := skip_blanks bytes err 2 in
        slurp_path tmp bytes err current_length []
  | _ => Ok NoShebang
  end.

Section Shebang.

Context {W Mem : Type} {TM : TraceeMemory Mem} {TS : TraceeStrings Mem}.
Context {K : Kernel W} {E : Extensions W} {V : PathEvents W} {N : PathPolicy W} {EH : ExecHost W}.

Abbreviation H A := (HM W Mem A).

Definition extract_shebang (host_path : cstr) : M W Shebang :=
  do! w := get world in
  match open_file w host_path with
  | inr e => fail e
  | inl file => lift (shebang_of file)
  end.

(** translate_and_check_exec() of src/execve/enter.c. *)
Definition translate_and_check_exec (regs : Regs) (user_path : cstr) : M W cstr :=
  if str_eqb user_path [] then fail ENOEXEC
  else
    do! _ := on_world (fun w => (set_exec_path_translation w true, inl ())) in
    do! host_path := attempt (translate_path regs AT_FDCWD user_path true) in
    do! _ := on_world (fun w => (set_exec_path_translation w false, inl ())) in
    match host_path with
    | inr e => fail e
    | inl host_path =>
        do! w := get world in
        if negb (access_exists w host_path) then fail ENOENT
        else if negb (access_executable w host_path) then fail EACCES
        else match lstat w host_path with inr _ => fail EPERM | inl _ => ret host_path end
    end.

(** The interpreter, its argument and the script come before the other arguments. *)
Definition interpreter_argv (argv : ArrayOfXPointers) (user_path argument old_user_path : cstr) : res ArrayOfXPointers :=
  let extra := if (length argv =? 1)%nat then 1 else 0 in
  if negb (str_eqb argument []) then
    let! argv := resize_array_of_xpointers argv 0 (2 + extra) in
    write_xpointees argv 0 [user_path; argument; old_user_path]
  else
    let! argv := resize_array_of_xpointers argv 0 (1 + extra) in
    write_xpointees argv 0 [user_path; old_user_path].

(** At most [n] interpreters; [argv] is fetched on demand, [has_shebang] once it
    is. *)
Fixpoint expand_loop (n fuel : nat) (user_path : cstr) (argv : option ArrayOfXPointers) : H (cstr * cstr * option ArrayOfXPointers) :=
  match n with
  | O => hfail ELOOP
  | S n =>
      do$ regs := hget x_regs in
      do$ host_path := on_path (translate_and_check_exec regs user_path) in
      do$ shebang := on_path (extract_shebang host_path) in
      match shebang with
      | NoShebang => hret (host_path, user_path, argv)
      | IsScript interpreter argument =>
          do$ _ := on_path (translate_and_check_exec regs interpreter) in
          do$ array := (match argv with
                        | Some array => hret array
                        | None => fetch_array_of_xpointers fuel SYSARG_2 0
                        end) in
          do$ array := hlift (interpreter_argv array interpreter argument user_path) in
          expand_loop n fuel interpreter (Some array)
      end
  end.

(** The status, the host path and the path of the program to execute. *)
Definition expand_shebang (fuel : nat) (user_path : cstr) : H (Z * cstr * cstr) :=
  do$ (host_path, user_path, argv) := expand_loop MAXSYMLINKS fuel user_path None in
  match argv with
  | None => hret (0, host_path, user_path)
  | Some argv =>
      do$ _ := push_array_of_xpointers argv SYSARG_2 in
      hret (1, host_path, user_path)
  end.

End Shebang.

(** ** The line as a reference *)

(** The interpreter is the first word, the argument is the rest, without the blanks
    around it. *)
Definition split_line (line : list Z) : cstr * cstr :=
  let '(_, line) := span blank line in
  let '(interpreter, rest) := span (fun c => negb (blank c)) line in
  let '(_, argument) := span blank rest in
  (interpreter, rev (drop_trailing (rev argument))).

Definition script (text : string) : FileBytes := (bs text, None).
Example shebang_argument : shebang_of (script "#! /bin/sh  -e -x  
ls") = Ok (IsScript (bs "/bin/sh") (bs "-e -x")).
Proof. by vm_compute. Qed.
Example shebang_elf : shebang_of (script "ELF") = Ok NoShebang.
Proof. by vm_compute. Qed.

(** ** Lemmas *)

Section Lines.

Context (err : option Z).

(** A character that a path or an argument may have. *)
Definition line_char (c : Z) : Prop := c <> 0 /\ end_of_line c = false.
Definition word_char (c : Z) : Prop := line_char c /\ blank c = false.

Lemma c_string_app l zeros : nul_free l -> Forall (fun c => c = 0) zeros -> c_string (l ++ zeros) = l.
Proof.
  intros Hl Hz. unfold c_string. assert (H : forall n, (length l <= n)%nat -> until_nul n (l ++ zeros) = l).
  { induction Hl as [|c l Hc Hl IH]; intros n Hn.
    - destruct Hz as [|z zeros ->]; by destruct n.
    - destruct n as [|n]; [cbn in Hn; lia|]. cbn. rewrite (proj2 (Z.eqb_neq c 0) Hc), IH; [done|]. cbn in Hn. lia. }
  apply H. rewrite length_app. lia.
Qed.

Lemma c_string_id l : nul_free l -> c_string l = l.
Proof. intros Hl. rewrite <- (app_nil_r l) at 1. by apply c_string_app. Qed.

Lemma blank_line c : blank c = true -> end_of_line c = false.
Proof. unfold blank, end_of_line. intros H. apply orb_true_iff in H. apply orb_false_iff. destruct H; bool_facts; lia. Qed.

Lemma skip_blanks_line b c rest : forall len, Forall (fun c => blank c = true) b -> blank c = false -> len + zlen b + 1 <= BINPRM_BUF_SIZE ->
  skip_blanks (b ++ c :: rest) err len = Ok (c, rest, len + zlen b + 1).
Proof.
  induction b as [|x b IH]; intros len Hb Hc Hn; cbn [skip_blanks app].
  - rewrite Hc. cbn [andb]. rewrite zlen_nil. do 2 f_equal. lia.
  - apply Forall_cons in Hb as [Hx Hb]. rewrite zlen_cons in Hn |- *. pose proof (zlen_nonneg b). rewrite Hx, (proj2 (Z.ltb_lt _ _)) by lia. cbn [andb].
    rewrite IH by (done || lia). do 2 f_equal. lia.
Qed.

Definition path_from (l : list Z) (len : Z) (acc : list Z) : res Shebang :=
  match l with [] => at_end err (Ok (IsScript (c_string (removelast acc)) [])) | tmp :: bytes => slurp_path tmp bytes err len acc end.
Definition argument_from (path : cstr) (l : list Z) (len : Z) (acc : list Z) : res Shebang :=
  match l with [] => at_end err (Ok (IsScript path [])) | tmp :: bytes => slurp_argument path tmp bytes err len acc end.

Lemma last_char acc : nul_free acc -> (1 <? length acc)%nat && (chr acc (length acc - 1) =? 0) = false.
Proof.
  intros Ha. destruct (1 <? length acc)%nat eqn:El; [|done]. apply Nat.ltb_lt in El. apply Z.eqb_neq. unfold chr.
  intros H. unfold nul_free in Ha. rewrite Forall_forall in Ha. apply (Ha 0); [|done]. apply list_elem_of_In. rewrite <- H. apply nth_In. lia.
Qed.

Lemma path_word w l : forall len acc, Forall word_char w -> nul_free acc -> len + zlen w <= BINPRM_BUF_SIZE ->
  path_from (w ++ l) len acc = path_from l (len + zlen w) (acc ++ w).
Proof.
  induction w as [|c w IH]; intros len acc Hw Ha Hn; [by rewrite zlen_nil, Z.add_0_r, app_nil_r|].
  apply Forall_cons in Hw as [[[Hz Hc] Hb] Hw]. rewrite zlen_cons in *. pose proof (zlen_nonneg w). cbn [app path_from].
  transitivity (path_from (w ++ l) (len + 1) (acc ++ [c])).
  - destruct (w ++ l) as [|d r]; cbn [slurp_path path_from]; rewrite (proj2 (Z.ltb_lt _ _)), Hc, Hb, <- andb_assoc, last_char by (done || lia); by rewrite ?removelast_last.
  - rewrite IH by (done || lia || (apply Forall_app; split; [done|by constructor])). rewrite <- app_assoc. f_equal. lia.
Qed.

Lemma path_blanks b l : forall len acc, Forall (fun c => blank c = true) b -> len + zlen b <= BINPRM_BUF_SIZE ->
  path_from (b ++ l) len acc = path_from l (len + zlen b) (acc ++ replicate (length b) 0).
Proof.
  induction b as [|c b IH]; intros len acc Hb Hn; [by rewrite zlen_nil, Z.add_0_r, app_nil_r|].
  apply Forall_cons in Hb as [Hc Hb]. rewrite zlen_cons in *. pose proof (zlen_nonneg b). cbn [app path_from].
  transitivity (path_from (b ++ l) (len + 1) (acc ++ [0])).
  - destruct (b ++ l) as [|d r]; cbn [slurp_path path_from]; rewrite (proj2 (Z.ltb_lt _ _)), (blank_line c Hc), Hc by lia; by rewrite ?removelast_last.
  - rewrite IH by (done || lia). cbn [length replicate]. rewrite <- app_assoc. f_equal. lia.
Qed.

Lemma argument_word path w l : forall len acc, Forall line_char w -> len + zlen w <= BINPRM_BUF_SIZE ->
  argument_from path (w ++ l) len acc = argument_from path l (len + zlen w) (acc ++ w).
Proof.
  induction w as [|c w IH]; intros len acc Hw Hn; [by rewrite zlen_nil, Z.add_0_r, app_nil_r|].
  apply Forall_cons in Hw as [[Hz Hc] Hw]. rewrite zlen_cons in *. pose proof (zlen_nonneg w). cbn [app argument_from].
  transitivity (argument_from path (w ++ l) (len + 1) (acc ++ [c])).
  - destruct (w ++ l) as [|d r]; cbn [slurp_argument argument_from]; rewrite (proj2 (Z.ltb_lt _ _)), Hc by lia; done.
  - rewrite IH by (done || lia). rewrite <- app_assoc. f_equal. lia.
Qed.

End Lines.

Lemma span_split {A} (f : A -> bool) (l : list A) : exists a b, span f l = (a, b) /\ l = a ++ b /\ Forall (fun x => f x = true) a /\ match b with [] => True | x :: _ => f x = false end.
Proof.
  destruct (span f l) as [a b] eqn:E. exists a, b. split; [done|]. split; [by apply span_app in E|]. split; [by apply span_fst in E|].
  destruct b as [|x b]; [done|]. by apply span_snd in E.
Qed.

Lemma drop_trailing_incl l c : c ∈ drop_trailing l -> c ∈ l.
Proof.
  induction l as [|a l IH]; [done|]. cbn [drop_trailing]. destruct l as [|b l]; [done|]. destruct (blank a); [|done].
  intros H. apply list_elem_of_further. by apply IH.
Qed.

(** The first line, when it fits in the buffer of the kernel. *)
Lemma shebang_line err line nl rest : Forall line_char line -> end_of_line nl = true -> zlen line + 3 < BINPRM_BUF_SIZE ->
  shebang_of (35 :: 33 :: line ++ nl :: rest, err) = Ok (let '(interpreter, argument) := split_line line in IsScript interpreter argument).
Proof.
  intros Hl Hnl Hn. unfold shebang_of, split_line. cbn [Z.eqb negb orb Pos.eqb].
  assert (Hbnl : blank nl = false) by (destruct (blank nl) eqn:Eb; [by apply blank_line in Eb; congruence|done]).
  destruct (span_split blank line) as (b & l1 & -> & E1 & Hb & Hl1). destruct (span_split (fun c => negb (blank c)) l1) as (w & l2 & E2' & E2 & Hw & Hl2).
  destruct (span_split blank l2) as (b2 & arg & E3' & E3 & Hb2 & Harg). rewrite E2', E3'. subst line l1 l2.
  repeat rewrite Forall_app in Hl. destruct Hl as (_ & Hwl & _ & Hal). rewrite !zlen_app in Hn.
  pose proof (zlen_nonneg b). pose proof (zlen_nonneg w). pose proof (zlen_nonneg b2). pose proof (zlen_nonneg arg). unfold BINPRM_BUF_SIZE in *.
  assert (Hww : Forall word_char w) by (apply Forall_forall; intros c Hc; rewrite Forall_forall in Hwl, Hw; split; [by apply Hwl|apply negb_true_iff; by apply Hw]).
  assert (Hnw : nul_free w) by (eapply Forall_impl; [exact Hwl|]; by intros c [? _]).
  rewrite <- !app_assoc. destruct w as [|c w].
  { assert (b2 = [] /\ arg = []) as [-> ->].
    { destruct b2 as [|x b2]; [split; [done|]; destruct arg as [|x arg]; [done|]; cbn in Hl1, Hl2; by rewrite Hl1 in Hl2|]. cbn in Hl1, Hl2. by rewrite Hl1 in Hl2. }
    cbn [app]. rewrite skip_blanks_line by (done || unfold BINPRM_BUF_SIZE; lia). cbn [res_bind].
    destruct rest; cbn [slurp_path]; unfold BINPRM_BUF_SIZE; rewrite (proj2 (Z.ltb_lt _ _)), Hnl by lia; done. }
  cbn [app]. pose proof (Forall_inv Hww) as [_ Hcb]. rewrite skip_blanks_line by (done || unfold BINPRM_BUF_SIZE; lia). cbn [res_bind].
  change (slurp_path c ?l err ?n []) with (path_from err ((c :: w) ++ b2 ++ arg ++ nl :: rest) n []).
  rewrite path_word by (done || constructor || unfold BINPRM_BUF_SIZE; lia). rewrite path_blanks by (done || unfold BINPRM_BUF_SIZE; lia).
  rewrite (app_nil_l (c :: w)). set (acc := (c :: w) ++ replicate (length b2) 0). set (len := _ + zlen b2).
  assert (Hacc : c_string acc = c :: w) by (apply c_string_app; [done|]; apply Forall_replicate; done).
  destruct arg as [|a arg].
  { cbn [app path_from]. destruct rest; cbn [slurp_path]; unfold BINPRM_BUF_SIZE; rewrite (proj2 (Z.ltb_lt _ _)), Hnl, Hacc by (unfold len; lia); done. }
  assert (Hgoto : (1 <? length acc)%nat && (chr acc (length acc - 1) =? 0) = true).
  { destruct b2 as [|x b2]; [cbn in Harg, Hl2; by rewrite Harg in Hl2|]. unfold acc. cbn [length replicate].
    rewrite (replicate_cons_app (length b2)), app_assoc. set (l := (c :: w) ++ replicate (length b2) 0). rewrite length_app. cbn [length].
    assert (1 <= length l)%nat by (unfold l; cbn; lia). rewrite (proj2 (Nat.ltb_lt _ _)) by lia. unfold chr. rewrite app_nth2 by lia.
    by replace (length l + 1 - 1 - length l)%nat with 0%nat by lia. }
  transitivity (argument_from err (c :: w) ((a :: arg) ++ nl :: rest) len []).
  { cbn [app path_from argument_from]. destruct (arg ++ nl :: rest) as [|d r]; cbn [slurp_path]; unfold BINPRM_BUF_SIZE;
      rewrite (proj2 (Z.ltb_lt _ _)), (proj2 (Forall_inv Hal)), <- andb_assoc, Hgoto, Harg, Hacc by (unfold len; lia); done. }
  rewrite argument_word by (done || unfold BINPRM_BUF_SIZE, len; lia). cbn [app argument_from].
  assert (Hz : c_string (rev (drop_trailing (rev (a :: arg)))) = rev (drop_trailing (rev (a :: arg)))).
  { apply c_string_id. unfold nul_free. apply Forall_forall. intros y Hy. apply list_elem_of_In, in_rev, list_elem_of_In, drop_trailing_incl, list_elem_of_In, in_rev, list_elem_of_In in Hy.
    rewrite Forall_forall in Hal. by apply Hal. }
  destruct rest; cbn [slurp_argument]; unfold BINPRM_BUF_SIZE; rewrite (proj2 (Z.ltb_lt _ _)), Hnl by (unfold len; lia); cbn [negb remove_trailing_spaces res_bind]; by rewrite Hz.
Qed.

(** ** Any file *)

Definition line_fits (s : Shebang) : Prop :=
  match s with
  | NoShebang => True
  | IsScript p a => zlen p < BINPRM_BUF_SIZE /\ zlen a < BINPRM_BUF_SIZE /\ nul_free p /\ nul_free a
  end.
Definition line_result (r : res Shebang) : Prop := match r with Ok s => line_fits s | Err _ => True | Stuck _ => False end.

Lemma c_string_fits l : nul_free (c_string l) /\ zlen (c_string l) <= zlen l.
Proof. destruct (until_nul_spec (length l) l) as (H1 & _ & H2 & _). split; [exact H1|]. unfold c_string, zlen. lia. Qed.

Lemma drop_trailing_length l : (length (drop_trailing l) <= length l)%nat.
Proof. induction l as [|c l IH]; [done|]. cbn [drop_trailing]. destruct l as [|d l]; [done|]. destruct (blank c); cbn [length] in *; lia. Qed.

Lemma at_end_fits err s : line_fits s -> line_result (at_end err (Ok s)).
Proof. by destruct err. Qed.

Lemma slurp_argument_fits path err : zlen path < BINPRM_BUF_SIZE -> nul_free path -> forall bytes tmp len acc,
  zlen acc < len -> len <= BINPRM_BUF_SIZE -> acc <> [] \/ end_of_line tmp = false -> line_result (slurp_argument path tmp bytes err len acc).
Proof.
  intros Hp Hz. assert (Hfit : forall l, zlen l < BINPRM_BUF_SIZE -> line_fits (IsScript path (c_string l))) by (intros l Hl; destruct (c_string_fits l); split_and!; [done|lia|done..]).
  induction bytes as [|b bytes IH]; intros tmp len acc Ha Hn He; cbn [slurp_argument]; (case_bool; [apply Hfit; unfold zlen in *; lia|]); bool_facts.
  all: destruct (end_of_line tmp) eqn:El.
  1, 3: destruct acc as [|c acc]; [by destruct He|]; cbn [remove_trailing_spaces res_bind line_result]; apply Hfit;
    unfold zlen in *; rewrite length_rev; pose proof (drop_trailing_length (rev (c :: acc))) as Hd; rewrite length_rev in Hd; lia.
  - apply at_end_fits. split_and!; [done|done|done|constructor].
  - apply IH; [rewrite zlen_app; change (zlen [tmp]) with 1; lia|lia|]. left. by destruct acc.
Qed.

Lemma slurp_path_fits err : forall bytes tmp len acc, zlen acc < len -> len <= BINPRM_BUF_SIZE -> line_result (slurp_path tmp bytes err len acc).
Proof.
  assert (Hfit : forall l, zlen l < BINPRM_BUF_SIZE -> line_fits (IsScript (c_string l) [])) by (intros l Hl; destruct (c_string_fits l); split_and!; [lia|done..|constructor]).
  induction bytes as [|b bytes IH]; intros tmp len acc Ha Hn; cbn [slurp_path]; (case_bool; [apply Hfit; unfold zlen in *; lia|]); bool_facts.
  all: case_bool; [apply Hfit; lia|]; case_bool; [destruct (c_string_fits acc); apply slurp_argument_fits; [lia|done|change (zlen []) with 0; pose proof (zlen_nonneg acc); lia|done|by right]|].
  - apply at_end_fits, Hfit. lia.
  - apply IH; [rewrite zlen_app; change (zlen [_]) with 1; lia|lia].
Qed.

Lemma shebang_fits file : line_result (shebang_of file).
Proof.
  destruct file as [bytes err]. unfold shebang_of. destruct bytes as [|a [|b bytes]]; [by destruct err|done|]. case_bool; [done|].
  assert (Hs : forall bytes len, len < BINPRM_BUF_SIZE -> match skip_blanks bytes err len with Ok (_, _, n) => len < n <= BINPRM_BUF_SIZE | Err _ => True | Stuck _ => False end).
  { clear. induction bytes as [|c bytes IH]; intros len Hn; cbn [skip_blanks]; [by destruct err|]. case_bool; [|lia]. bool_facts.
    specialize (IH (len + 1) ltac:(lia)). destruct (skip_blanks _ _ _) as [[[? ?] n]|e|w]; [lia|done..]. }
  specialize (Hs bytes 2 ltac:(done)). destruct (skip_blanks _ _ _) as [[[c rest] n]|e|w]; [|done..]. cbn [res_bind]. apply slurp_path_fits; [change (zlen []) with 0; lia|lia].
Qed.

(** ** The chain of interpreters *)

(** A script, its interpreter and the argument of the latter. *)
Definition kernel_argv (scripts : list (cstr * cstr * cstr)) (args : list cstr) : list cstr :=
  fold_left (fun args '(path, interpreter, argument) =>
    interpreter :: (if str_eqb argument [] then [] else [argument]) ++ path :: tail args) scripts args.

Section Expand.

Context {W Mem : Type} {TM : TraceeMemory Mem} {TS : TraceeStrings Mem} {MC : MemoryContents Mem}.
Context {ML : MemoryContentsLaws Mem TM TS MC} {MR : MemoryReadsLaws Mem TM MC}.
Context {K : Kernel W} {E : Extensions W} {L : KernelLaws W K}.
Context {V : PathEvents W} {N : PathPolicy W} {TE : TransparentEvents W V} {EH : ExecHost W}.
Context (f : FileSystemNameSpace) (root : list cstr) (l k : list Binding) (v : ProcView).
Hypothesis Hroot : rooted f root.
Hypothesis Hwf : fs_wf f.
Hypothesis Hsz : fs_sized f.
Hypothesis Hl : bindings_guest f = Some l.
Hypothesis Hk : bindings_host f = Some k.
Hypothesis Hv : view_ok v.
Hypothesis Hcwd : nul_free (cwd f) /\ cwd f <> [].

Abbreviation State := (SysState W Mem).
Abbreviation reg x r := (peek_reg (x_regs x) CURRENT r).

(** The program that a path of the guest names, and the first line of its file. *)
Definition program_of (user host : cstr) (s : Shebang) : Prop :=
  kept_or_followed f l v AT_FDCWD user true host
  /\ exists w file, open_file w host = inl file /\ shebang_of file = Ok s.

(** Each script is the interpreter of the one before. *)
Inductive interpreted : list (cstr * cstr * cstr) -> cstr -> cstr -> Prop :=
  | Interpreted_end user : interpreted [] user user
  | Interpreted_script user host interpreter argument scripts program :
      program_of user host (IsScript interpreter argument) -> interpreted scripts interpreter program ->
      interpreted ((user, interpreter, argument) :: scripts) user program.

Lemma check_exec_inv regs s u h t t' : get_sysnum regs CURRENT = Ok s -> stable f v t -> nul_free u ->
  translate_and_check_exec regs u t = (t', Ok h) -> stable f v t' /\ kept_or_followed f l v AT_FDCWD u true h.
Proof.
  intros Hs Ht Hu H. unfold translate_and_check_exec in H. case_bool_in H; [done|]. apply bind_inv in H as (t1 & ? & E1 & H). injection E1 as <- <-.
  apply bind_inv in H as (t2 & r & E2 & H). apply attempt_inv in E2. apply bind_inv in H as (t3 & ? & E3 & H). injection E3 as <- <-.
  destruct r as [p|e]; [|done]. assert (Ht1 : stable f v (mkTracee (fs t) (glue t) (glue_type t) (next_addr t) (view t) (set_exec_path_translation (world t) true))) by exact Ht.
  destruct (translated_resolves f root l k v Hroot Hwf Hsz Hl Hk Hv Hcwd _ _ _ _ _ _ _ _ Hs Ht1 Hu E2) as [Ht2 Hh].
  apply bind_inv in H as (t4 & w & E4 & H). injection E4 as <- <-. repeat (case_bool_in H; [done|]). destruct (lstat _ _); [|done]. by injection H as <- <-.
Qed.

Lemma extract_shebang_inv h s t t' : extract_shebang h t = (t', Ok s) ->
  t' = t /\ line_fits s /\ exists w file, open_file w h = inl file /\ shebang_of file = Ok s.
Proof.
  intros H. unfold extract_shebang in H. apply bind_inv in H as (t1 & w & E1 & H). injection E1 as <- <-. destruct (open_file _ _) as [file|] eqn:Eo; [|done].
  unfold lift in H. injection H as <- H. split; [done|]. pose proof (shebang_fits file) as Hf. rewrite H in Hf. split; [exact Hf|]. by eexists _, _.
Qed.

Lemma interpreter_argv_denotes lo (x : State) array args interpreter argument path array' :
  argv_denotes lo x array args -> nul_free interpreter -> nul_free argument -> nul_free path ->
  interpreter_argv array interpreter argument path = Ok array' ->
  argv_denotes lo x array' (kernel_argv [(path, interpreter, argument)] args) /\ ~ Forall (fun p => local p = None) array'.
Proof.
  intros Hd H1 H2 H3 H. unfold interpreter_argv in H. cbn [kernel_argv fold_left].
  assert (Hnew : forall new, Forall nul_free new -> (0 < length new)%nat ->
    (let! array := resize_array_of_xpointers array 0 (zlen new - 1 + (if (length array =? 1)%nat then 1 else 0)) in write_xpointees array 0 new) = Ok array' ->
    argv_denotes lo x array' (new ++ tail args) /\ ~ Forall (fun p => local p = None) array').
  { intros new Hn Hp Hr. destruct (prepend_denotes lo x array args new Hd Hn Hp) as (a1 & a2 & E1 & E2 & Hd' & Hf).
    replace (zlen new - 1 + _) with (zlen new - (if (length array =? 1)%nat then 0 else 1)) in Hr by (destruct (length array =? 1)%nat; lia).
    rewrite E1 in Hr. cbn [res_bind] in Hr. rewrite E2 in Hr. by injection Hr as <-. }
  case_bool_in H; bool_facts.
  - rewrite (proj2 (str_eqb_neq argument [])) by done. apply (Hnew [interpreter; argument; path]); [by repeat constructor|cbn; lia|exact H].
  - subst. apply (Hnew [interpreter; path]); [by repeat constructor|cbn; lia|exact H].
Qed.

Definition with_path (x : State) (t : Tracee W) : State := mkSys (x_regs x) (x_mem x) (x_me x) (x_sysenter x) t (x_flags x) (x_netlink x).

Lemma expand_loop_inv lo s n fuel : forall user argv args (x x' : State) host program argv',
  get_sysnum (x_regs x) CURRENT = Ok s -> stable f v (x_path x) -> nul_free user ->
  match argv with None => argv_held lo x (reg x SYSARG_2) args | Some array => argv_denotes lo x array args end ->
  expand_loop n fuel user argv x = (x', Ok (host, program, argv')) ->
  exists scripts, (length scripts < n)%nat /\ interpreted scripts user program /\ program_of program host NoShebang
    /\ stable f v (x_path x') /\ x' = with_path x (x_path x')
    /\ match argv' with
       | None => argv = None /\ scripts = []
       | Some array => argv_denotes lo x array (kernel_argv scripts args) /\ match scripts with [] => argv = Some array | _ => ~ Forall (fun p => local p = None) array end
       end.
Proof.
  induction n as [|n IH]; intros user argv args x x' host program argv' Hs Ht Hu Hargs H; [done|]. cbn [expand_loop] in H.
  hstep H x1 regs. hstep H x2 h. apply on_path_inv in E0 as (t & Et & ->). destruct (check_exec_inv _ _ _ _ _ _ Hs Ht Hu Et) as [Ht1 Hh].
  hstep H x3 sb. apply on_path_inv in E0 as (t1 & Et1 & ->). cbn [x_path] in Et1. apply extract_shebang_inv in Et1 as (-> & Hfit & Hfile).
  cbn [x_regs x_mem x_me x_sysenter x_flags x_netlink] in H. fold (with_path x t) in H. destruct sb as [|interpreter argument].
  - injection H as <- <- <- <-. exists []. cbn. split; [lia|]. split; [constructor|]. split; [by split|]. split; [done|]. split; [done|]. by destruct argv.
  - destruct Hfit as (_ & _ & Hi & Ha). hstep H x4 h2. apply on_path_inv in E0 as (t2 & Et2 & ->). cbn [x_path with_path] in Et2. destruct (check_exec_inv _ _ _ _ _ _ Hs Ht1 Hi Et2) as [Ht2 _].
    cbn [x_regs x_mem x_me x_sysenter x_flags x_netlink with_path] in H. fold (with_path x t2) in H. hstep H x5 array.
    assert (Har : x5 = with_path x t2 /\ argv_denotes lo x array args).
    { destruct argv as [array0|]; [by injection E0 as <- <-|]. apply (fetch_denotes lo (with_path x t2) x5 args) in E0; [|exact Hargs]. exact E0. }
    destruct Har as [-> Har]. hstep H x6 array'. unfold hlift in E1. injection E1 as <- E1. pose proof (interpreter_argv_denotes _ _ _ _ _ _ _ _ Har Hi Ha Hu E1) as [Hd Hloc].
    destruct (IH interpreter (Some array') _ (with_path x t2) x' host program argv' Hs Ht2 Hi Hd H) as (scripts & Hn & Hc & Hp & Hst & Hx & Hout).
    exists ((user, interpreter, argument) :: scripts). split; [cbn; lia|]. split; [by eapply Interpreted_script; [split|]|]. split; [done|]. split; [done|]. split; [exact Hx|].
    destruct argv' as [out|]; [|by destruct Hout]. destruct Hout as [Hout Hl']. split; [exact Hout|].
    destruct scripts; [by injection Hl' as <-|done].
Qed.

Lemma expand_shebang_inv lo s fuel user args status host program (x x' : State) :
  get_sysnum (x_regs x) CURRENT = Ok s -> stable f v (x_path x) -> regs_ok (x_regs x) -> nul_free user ->
  argv_held lo x (reg x SYSARG_2) args -> expand_shebang fuel user x = (x', Ok (status, host, program)) ->
  regs_ok (x_regs x') /\ get_sysnum (x_regs x') CURRENT = Ok s /\ stable f v (x_path x') /\ peek_reg (x_regs x') CURRENT STACK_POINTER <= peek_reg (x_regs x) CURRENT STACK_POINTER
  /\ (lo <= peek_reg (x_regs x') CURRENT STACK_POINTER -> exists scripts, (length scripts < MAXSYMLINKS)%nat
        /\ interpreted scripts user program /\ program_of program host NoShebang
        /\ status = (if decide (scripts = []) then 0 else 1)
        /\ argv_held lo x' (reg x' SYSARG_2) (kernel_argv scripts args) /\ lowered SYSARG_2 x x'
        /\ (clear_of_stack lo x (reg x SYSARG_2) ((zlen args + 1) * sizeof_word (x_regs x)) ->
            clear_of_stack lo x' (reg x' SYSARG_2) ((zlen (kernel_argv scripts args) + 1) * sizeof_word (x_regs x')))).
Proof.
  intros Hs Hst Hg Hu Hargs H. unfold expand_shebang in H. hstep H x1 r. destruct r as [[h p] argv].
  destruct (expand_loop_inv lo s _ fuel user None args _ _ _ _ _ Hs Hst Hu Hargs E0) as (scripts & Hn & Hi & Hp & Hst' & Hx & Hout).
  destruct argv as [argv|].
  - hstep H x2 u. injection H as <- <- <- <-. destruct Hout as [Hd Hloc]. assert (Hg1 : regs_ok (x_regs x1)) by (by rewrite Hx). destruct u.
    destruct (push_lowers _ _ _ _ Hg1 (eq_refl : is_arg SYSARG_2 = true) E1) as (Hsp & Hg2 & Hs2). split; [done|]. split; [by rewrite Hs2, Hx|].
    rewrite (push_path _ _ _ _ _ E1). split; [done|]. split; [by rewrite Hx in Hsp|]. intros Hlo. exists scripts. split; [done|]. split; [done|]. split; [done|].
    destruct scripts as [|sc scripts]; [done|]. split; [done|]. assert (Hd1 : argv_denotes lo x1 argv (kernel_argv (sc :: scripts) args)) by (by rewrite Hx).
    destruct (push_array_held _ _ _ _ _ _ Hlo Hg1 (eq_refl : is_arg SYSARG_2 = true) Hd1 E1) as [[Hf _]|(Hh & _ & Hlow & Habove & _)]; [by destruct Hloc|].
    split; [done|]. split; [|by right]. destruct Hlow as [A1 A5 A2 A3 A4]. rewrite Hx in A1, A2, A3, A4, A5. by split.
  - injection H as <- <- <- <-. destruct Hout as [_ ->]. rewrite Hx. cbn [with_path x_regs]. split; [done|]. split; [done|]. split; [done|]. split; [done|]. intros _.
    exists []. split; [done|]. split; [done|]. split; [done|]. split; [done|]. cbn [kernel_argv fold_left]. split; [done|]. split; [by split|done].
Qed.

End Expand.

(** ** Properties *)

(** C11: the first line of scripts.  Whatever file is read, extract_shebang() stays
    in its buffers, and gives strings that fit in the ones of its caller.  When the
    line that begins with the shebang ends within the size that the kernel reads,
    the interpreter is its first word and the argument is all that follows,
    without the blanks around. *)
Theorem shebang_parsed file err line nl rest :
  line_result (shebang_of file)
  /\ (Forall line_char line -> end_of_line nl = true -> zlen line + 3 < BINPRM_BUF_SIZE ->
      shebang_of (35 :: 33 :: line ++ nl :: rest, err) = Ok (let '(interpreter, argument) := split_line line in IsScript interpreter argument)).
Proof. split; [apply shebang_fits|apply shebang_line]. Qed.


Lemma shebang_parsed_witness :
  shebang_of (35 :: 33 :: bs " /bin/sh  -e -x " ++ 10 :: bs "ls", None) = Ok (IsScript (bs "/bin/sh") (bs "-e -x")).
Proof.
  apply (proj2 (shebang_parsed (bs "", None) None (bs " /bin/sh  -e -x ") 10 (bs "ls"))); [|done|by vm_compute].
  by repeat (constructor; [by vm_compute|]); constructor.
Defined.

#[local] Existing Instance demo_memory.
#[local] Existing Instance demo_strings.
#[local] Existing Instance demo_contents.
#[local] Existing Instance quiet_extensions.
#[local] Existing Instance quiet_events.
#[local] Existing Instance static_policy.
#[local] Instance script_kernel : Kernel unit := demo_kernel demo_links.

(** /s is a script whose interpreter is a program. *)
#[local] Instance demo_files : ExecHost unit := {
  set_exec_path_translation w _ := w;
  access_exists _ _ := true;
  access_executable _ _ := true;
  open_file _ p := inl (if str_eqb p (bs "/data/root/s") then (bs "#!/bin/sh -x" ++ [10], None) else script "ELF")
}.

Lemma script_expanded :
  let r := expand_shebang 8 (bs "/s") demo_execve in
  snd r = Ok (1, bs "/data/root/bin/sh", bs "/bin/sh")
  /\ snd (fetch_array_of_xpointers 8 SYSARG_2 0 (fst r)) = Ok [mkX 8178 None; mkX 8186 None; mkX 8189 None; mkX 8384 None; mkX 0 None].
Proof. split; by vm_compute. Qed.

Lemma demo_argv_held : argv_held 7168 demo_execve (peek_reg (x_regs demo_execve) CURRENT SYSARG_2) [bs "/s"; bs "arg"].
Proof.
  exists [8320; 8384]. split; [apply demo_holds; by vm_compute|]. split; [by vm_compute|].
  constructor; [|constructor; [|constructor]]; (split; [by vm_compute|]); (split; [by repeat constructor|]);
    (split; [apply demo_holds; by vm_compute|right; by vm_compute]).
Qed.


(** ** Files whose first line does not end *)

(** The argument is lost, Linux gives it to the interpreter. *)
Lemma shebang_argument_lost : shebang_of (script "#!/bin/sh -x") = Ok (IsScript (bs "/bin/sh") []).
Proof. by vm_compute. Qed.

(** The last character of the interpreter is lost. *)
Lemma shebang_character_lost path c : Forall word_char (path ++ [c]) -> zlen path + 4 <= BINPRM_BUF_SIZE ->
  shebang_of (35 :: 33 :: path ++ [c], None) = Ok (IsScript path []).
Proof.
  intros Hp Hn. unfold shebang_of. cbn [Z.eqb negb orb Pos.eqb].
  assert (Hnul : nul_free path) by (apply Forall_app in Hp as [Hp _]; eapply Forall_impl; [exact Hp|]; by intros d [[? _] _]).
  destruct (path ++ [c]) as [|d l] eqn:El; [by destruct path|].
  pose proof (Forall_inv Hp) as [_ Hd]. pose proof (skip_blanks_line None [] d l 2 ltac:(constructor) Hd ltac:(cbn; done)) as Es. cbn [app] in Es. rewrite Es. cbn [res_bind].
  change (slurp_path d l None ?n []) with (path_from None (d :: l) n []). rewrite <- El in Hp |- *. change (zlen []) with 0.
  rewrite <- (app_nil_r (path ++ [c])), path_word; [|done|constructor|rewrite zlen_app; change (zlen [c]) with 1; lia].
  cbn [path_from app at_end]. rewrite removelast_last. by rewrite c_string_id.
Qed.
