(* ===== verification/Elf.v ===== *)
(** * Executable files (src/execve/elf.c, src/execve/enter.c)

    The header and the program headers of an ELF file are read, each segment becomes
    one or two mappings, and the addresses of the objects that can be anywhere are
    chosen.  The result, the record of what the loader has to do, is the one of
    src/execve/execve.h. *)

From Stdlib Require Import Sorting.Sorted.
From S2P Require Import Prelude Mem Memory Paths Binding ProcLinks Canon Lookup Sysnum Regs Translate SysArgs Mounts Netlink Enter Sockets Aoxp Shebang.

Definition ENOTSUP := 95.
Definition ET_EXEC := 2.
Definition ET_DYN := 3.
Definition PF_X := 1.
Definition PF_W := 2.
Definition PF_R := 4.
Definition PT_LOAD := 1.
Definition PT_INTERP := 3.
Definition PT_GNU_STACK := 0x6474e551.
Definition PROT_READ := 1.
Definition PROT_WRITE := 2.
Definition PROT_EXEC := 4.
Definition MAP_PRIVATE := 0x2.
Definition MAP_FIXED := 0x10.
Definition MAP_ANONYMOUS := 0x20.

(** Where the objects that can be anywhere are put. *)
Definition EXEC_PIC_ADDRESS := 0x5500000000.
Definition INTERP_PIC_ADDRESS := 0x5900000000.
Definition EXEC_PIC_ADDRESS_32 := 0x0f000000.
Definition INTERP_PIC_ADDRESS_32 := 0x1f000000.

(** ** Data *)

(** The fields that are used, of either class. *)
Record ElfHeader := mkElf {
  class64 : bool; e_type : Z; e_machine : Z; e_entry : Z; e_phoff : Z; e_phentsize : Z; e_phnum : Z
}.
Record ProgramHeader := mkProgram {
  p_type : Z; p_flags : Z; p_offset : Z; p_vaddr : Z; p_filesz : Z; p_memsz : Z
}.
(** The descriptor is not in the record: it is never known. *)
Record Mapping := mkMapping {
  m_addr : Z; m_length : Z; m_clear_length : Z; m_prot : Z; m_flags : Z; m_offset : Z
}.
(** struct load_info: an object, and the one of its interpreter. *)
Record LoadObject := mkObject {
  o_host_path : cstr; o_user_path : cstr; mappings : list Mapping; elf_header : ElfHeader; needs_executable_stack : bool
}.
Record LoadInfo := mkLoad { object : LoadObject; raw_path : option cstr; interp : option LoadObject }.

(** ** elf.c *)

Definition field (i n : nat) (data : list Z) : Z := of_le (slice i n data).

Definition sizeof_ElfHeader := 64.

Definition parse_header (data : list Z) : ElfHeader :=
  if field 4 1 data =? 2
  then mkElf true (field 16 2 data) (field 18 2 data) (field 24 8 data) (field 32 8 data) (field 54 2 data) (field 56 2 data)
  else mkElf false (field 16 2 data) (field 18 2 data) (field 24 4 data) (field 28 4 data) (field 42 2 data) (field 44 2 data).

Definition parse_program_header (class64 : bool) (data : list Z) : ProgramHeader :=
  if class64
  then mkProgram (field 0 4 data) (field 4 4 data) (field 8 8 data) (field 16 8 data) (field 32 8 data) (field 40 8 data)
  else mkProgram (field 0 4 data) (field 24 4 data) (field 4 4 data) (field 8 4 data) (field 16 4 data) (field 20 4 data).

(** open_elf(), without the descriptor. *)
Definition read_elf (file : FileBytes) : res ElfHeader :=
  let '(data, err) := file in
  match data, err with
  | [], Some e => Err e
  | _, _ =>
      if (zlen data <? sizeof_ElfHeader) || negb (str_eqb (take 4 data) (127 :: bs "ELF")) then Err ENOEXEC
      else if negb (field 4 1 data =? 1) && negb (field 4 1 data =? 2) then Err ENOEXEC
      else Ok (parse_header data)
  end.

Definition KNOWN_PHENTSIZE (header : ElfHeader) (size : Z) : bool := size =? (if class64 header then 56 else 32).

Definition IS_POSITION_INDEPENDENT (header : ElfHeader) : bool := e_type header =? ET_DYN.

(** ** Mappings *)

Definition prot_of (flags : Z) : Z :=
  (if has_flag flags PF_R then PROT_READ else 0) + (if has_flag flags PF_W then PROT_WRITE else 0) + (if has_flag flags PF_X then PROT_EXEC else 0).

(** x & page_mask *)
Definition page_of (page_size x : Z) : Z := Z.land x (wrap64 (Z.lnot (page_size - 1))).

Definition add_mapping (page_size : Z) (mappings : list Mapping) (p : ProgramHeader) : list Mapping :=
  let start_address := page_of page_size (p_vaddr p) in
  let end_address := page_of page_size (wrap64 (p_vaddr p + p_filesz p + page_size)) in
  let prot := prot_of (p_flags p) in
  let mapping clear_length :=
    mkMapping start_address (wrap64 (end_address - start_address)) clear_length prot (MAP_PRIVATE + MAP_FIXED) (page_of page_size (p_offset p)) in
  if p_filesz p <? p_memsz p then
    let file := mapping (wrap64 (end_address - p_vaddr p - p_filesz p)) in
    let end_address' := page_of page_size (wrap64 (p_vaddr p + p_memsz p + page_size)) in
    if end_address <? end_address'
    then mappings ++ [file; mkMapping end_address (wrap64 (end_address' - end_address)) 0 prot (MAP_PRIVATE + MAP_ANONYMOUS + MAP_FIXED) 0]
    else mappings ++ [file]
  else mappings ++ [mapping 0].

Section Elf.

Context {W : Type} {K : Kernel W} {E : Extensions W} {V : PathEvents W} {N : PathPolicy W} {EH : ExecHost W}.

(** What an object is made of while its program headers are read: the interpreter
    is a host path and a path. *)
Record Partial := mkPartial { l_mappings : list Mapping; l_interp : option (cstr * cstr); l_stack : bool }.

(** [qemu] when a runner was given on the command line. *)
Definition add_interp (regs : Regs) (qemu : bool) (file : FileBytes) (load_info : Partial) (p : ProgramHeader) : M W Partial :=
  if bool_decide (l_interp load_info <> None) then fail EINVAL
  else
    let data := slice (Z.to_nat (p_offset p)) (Z.to_nat (p_filesz p)) (fst file) in
    if negb (zlen data =? p_filesz p) then fail EACCES
    else
      let user_path := c_string data in
      let user_path := if qemu && absolute user_path then bs "/host-rootfs" ++ user_path else user_path in
      do! host_path := translate_and_check_exec regs user_path in
      ret (mkPartial (l_mappings load_info) (Some (host_path, user_path)) (l_stack load_info)).

Definition add_load_info (regs : Regs) (qemu : bool) (page_size : Z) (file : FileBytes) (p : ProgramHeader) (load_info : Partial) : M W (bool * Partial) :=
  if p_type p =? PT_LOAD then ret (false, mkPartial (add_mapping page_size (l_mappings load_info) p) (l_interp load_info) (l_stack load_info))
  else if p_type p =? PT_INTERP then do! load_info := add_interp regs qemu file load_info p in ret (false, load_info)
  else if p_type p =? PT_GNU_STACK then ret (false, mkPartial (l_mappings load_info) (l_interp load_info) (l_stack load_info || has_flag (p_flags p) PF_X))
  else ret (false, load_info).

(** [data] is what is left of the file; a short read is an error.  A callback tells
    whether it stops the iteration: this is the status, 1 or 0. *)
Fixpoint iterate_loop {A} (n : nat) (class64 : bool) (size : Z) (data : list Z) (err : option Z) (callback : ProgramHeader -> A -> M W (bool * A)) (acc : A) : M W (bool * A) :=
  match n with
  | O => ret (false, acc)
  | S n =>
      if zlen data <? size then
        match data, err with [], Some e => fail e | _, _ => fail ENOTSUP end
      else
        do! (stops, acc) := callback (parse_program_header class64 (take (Z.to_nat size) data)) acc in
        if stops : bool then ret (true, acc)
        else iterate_loop n class64 size (drop (Z.to_nat size) data) err callback acc
  end.

(** [last_errno] is the error of an earlier call: the offset is converted to an int,
    and a negative one is taken for a failure of lseek(2). *)
Definition iterate_program_headers {A} (last_errno : Z) (file : FileBytes) (header : ElfHeader) (callback : ProgramHeader -> A -> M W (bool * A)) (acc : A) : M W (bool * A) :=
  if 0xffff <=? e_phnum header then fail ENOTSUP
  else if negb (KNOWN_PHENTSIZE header (e_phentsize header)) then fail ENOTSUP
  else if 2 ^ 63 <=? e_phoff header then fail EINVAL
  else if sgn 32 (e_phoff header) <? 0 then (if last_errno =? 0 then ret (false, acc) else fail last_errno)
  else
    iterate_loop (Z.to_nat (e_phnum header)) (class64 header) (e_phentsize header) (drop (Z.to_nat (e_phoff header)) (fst file)) (snd file) callback acc.

Definition extract_load_info (regs : Regs) (qemu : bool) (page_size last_errno : Z) (host_path : cstr) : M W (ElfHeader * Partial) :=
  do! w := get world in
  match open_file w host_path with
  | inr e => fail e
  | inl file =>
      do! header := lift (read_elf file) in
      if negb (e_type header =? ET_EXEC) && negb (e_type header =? ET_DYN) then fail EINVAL
      else
        do! (_, load_info) := iterate_program_headers last_errno file header (add_load_info regs qemu page_size file) (mkPartial [] None false) in
        ret (header, load_info)
  end.

End Elf.

(** ** Addresses *)

Definition add_load_base (o : LoadObject) (load_base : Z) : LoadObject :=
  let h := elf_header o in
  mkObject (o_host_path o) (o_user_path o)
    ((fun m => mkMapping (wrap64 (m_addr m + load_base)) (m_length m) (m_clear_length m) (m_prot m) (m_flags m) (m_offset m)) <$> mappings o)
    (mkElf (class64 h) (e_type h) (e_machine h) (wrap (if class64 h then 64 else 32) (e_entry h + load_base)) (e_phoff h) (e_phentsize h) (e_phnum h))
    (needs_executable_stack o).

(** The first mapping is read through a null pointer when there is none. *)
Definition based (o : LoadObject) (load_base : Z) : res LoadObject :=
  if IS_POSITION_INDEPENDENT (elf_header o) then
    match mappings o with
    | [] => Stuck OutOfBounds
    | m :: _ => if m_addr m =? 0 then Ok (add_load_base o load_base) else Ok o
    end
  else Ok o.

Definition compute_load_addresses (l : LoadInfo) : res LoadInfo :=
  let class32 := negb (class64 (elf_header (object l))) in
  let! object := based (object l) (if class32 then EXEC_PIC_ADDRESS_32 else EXEC_PIC_ADDRESS) in
  match interp l with
  | None => Ok (mkLoad object (raw_path l) None)
  | Some i =>
      let! i := based i (if class32 then INTERP_PIC_ADDRESS_32 else INTERP_PIC_ADDRESS) in
      Ok (mkLoad object (raw_path l) (Some i))
  end.

(** ** What the mappings put in memory

    A memory is a function from addresses to bytes.  Past the end of a file its last
    page is filled with zeros, and there is nothing in the next ones. *)

Definition file_byte (page_size : Z) (data : list Z) (k : Z) : option Z :=
  if k <? zlen data then data !! Z.to_nat k
  else if k <? zlen data + (- zlen data) mod page_size then Some 0 else None.

(** The memory once a mapping is made and its tail is cleared. *)
Definition mapped (page_size : Z) (data : list Z) (m : Mapping) (memory : Z -> option Z) : Z -> option Z := fun a =>
  if (m_addr m <=? a) && (a <? m_addr m + m_length m) then
    if has_flag (m_flags m) MAP_ANONYMOUS || (m_addr m + m_length m - m_clear_length m <=? a) then Some 0
    else file_byte page_size data (m_offset m + (a - m_addr m))
  else memory a.
Definition image (page_size : Z) (data : list Z) (mappings : list Mapping) (memory : Z -> option Z) : Z -> option Z :=
  fold_left (fun memory m => mapped page_size data m memory) mappings memory.

Definition moved (base : Z) (m : Mapping) : Mapping :=
  mkMapping (wrap64 (m_addr m + base)) (m_length m) (m_clear_length m) (m_prot m) (m_flags m) (m_offset m).

Definition page_ok (page_size : Z) : Prop := exists k, 3 <= k < 32 /\ page_size = 2 ^ k.

(** What is expected of a segment, and of the order of segments. *)
Record segment_ok (page_size : Z) (data : list Z) (p : ProgramHeader) : Prop := {
  sg_vaddr : 0 <= p_vaddr p;
  sg_sizes : 0 <= p_filesz p <= p_memsz p;
  sg_offset : 0 <= p_offset p < 2 ^ 64 /\ p_offset p mod page_size = p_vaddr p mod page_size;
  sg_file : p_offset p + p_filesz p <= zlen data
}.
Definition below (page_size base : Z) (p : ProgramHeader) : Prop := base + p_vaddr p + p_memsz p + page_size < 2 ^ 64.
Definition ascending (page_size : Z) : list ProgramHeader -> Prop :=
  StronglySorted (fun p q => p_vaddr p + p_memsz p <= page_of page_size (p_vaddr q)).

(** What the loader relies on. *)
Record mapping_ok (page_size : Z) (m : Mapping) : Prop := {
  mp_addr : 0 <= m_addr m /\ m_addr m mod page_size = 0;
  mp_length : 0 < m_length m /\ m_length m mod page_size = 0 /\ m_addr m + m_length m < 2 ^ 64;
  mp_clear : 0 <= m_clear_length m <= m_length m;
  mp_offset : 0 <= m_offset m /\ m_offset m mod page_size = 0;
  mp_flags : m_flags m = MAP_PRIVATE + MAP_FIXED \/ m_flags m = MAP_PRIVATE + MAP_ANONYMOUS + MAP_FIXED /\ m_clear_length m = 0
}.

Lemma land_page k x : 0 <= k < 64 -> 0 <= x < 2 ^ 64 -> Z.land x (wrap64 (Z.lnot (2 ^ k - 1))) = x - x mod 2 ^ k.
Proof.
  intros Hk Hx. assert (E : wrap64 (Z.lnot (2 ^ k - 1)) = Z.land (Z.lnot (Z.ones k)) (Z.ones 64)) by (rewrite Z.land_ones by lia; unfold Z.ones; by rewrite Z.shiftl_1_l).
  rewrite E, Z.land_assoc, Z.land_ones by lia. rewrite <- Z.ldiff_land, Z.ldiff_ones_r, Z.shiftl_mul_pow2, Z.shiftr_div_pow2 by lia.
  assert (0 < 2 ^ k) by (apply Z.pow_pos_nonneg; lia). pose proof (Z.div_mod x (2 ^ k) ltac:(lia)). pose proof (Z.mod_pos_bound x (2 ^ k) ltac:(lia)). pose proof (Z.mod_le x (2 ^ k) ltac:(lia) ltac:(lia)). rewrite Z.mod_small; lia.
Qed.

Section Pages.

Context (page_size : Z).
Hypothesis Hpage : page_ok page_size.

Abbreviation up x := (x + page_size - x mod page_size).

Lemma page_bounds : 8 <= page_size < 2 ^ 32.
Proof. destruct Hpage as (k & Hk & ->). split; [change 8 with (2 ^ 3); apply Z.pow_le_mono_r; lia|apply Z.pow_lt_mono_r; lia]. Qed.

Lemma page_divides : exists q, 2 ^ 64 = q * page_size.
Proof. destruct Hpage as (k & Hk & ->). exists (2 ^ (64 - k)). rewrite <- Z.pow_add_r by lia. f_equal. lia. Qed.

Lemma page_of_eq x : 0 <= x < 2 ^ 64 -> page_of page_size x = x - x mod page_size.
Proof. destruct Hpage as (k & Hk & ->). intros Hx. apply land_page; lia. Qed.

Lemma page_of_up x : 0 <= x -> x + page_size < 2 ^ 64 -> page_of page_size (wrap64 (x + page_size)) = up x.
Proof.
  intros Hx H. pose proof page_bounds. unfold wrap64. rewrite wrap_small, page_of_eq by lia. rewrite <- (Z.mul_1_l page_size) at 2. rewrite Z.mod_add by lia. lia.
Qed.

Lemma page_multiple x : (x - x mod page_size) mod page_size = 0.
Proof. pose proof page_bounds. rewrite Zminus_mod, Z.mod_mod, Z.sub_diag by lia. apply Z.mod_0_l. lia. Qed.

Lemma up_multiple x : up x mod page_size = 0.
Proof. pose proof page_bounds. replace (up x) with ((x - x mod page_size) + 1 * page_size) by lia. rewrite Z.mod_add by lia. apply page_multiple. Qed.

Lemma multiple_add a b : a mod page_size = 0 -> b mod page_size = 0 -> (a + b) mod page_size = 0.
Proof. pose proof page_bounds. intros Ha Hb. rewrite Z.add_mod, Ha, Hb by lia. apply Z.mod_0_l. lia. Qed.

Lemma multiple_sub a b : a mod page_size = 0 -> b mod page_size = 0 -> (a - b) mod page_size = 0.
Proof. pose proof page_bounds. intros Ha Hb. rewrite Zminus_mod, Ha, Hb. apply Z.mod_0_l. lia. Qed.

Lemma add_mapping_app ms p : add_mapping page_size ms p = ms ++ add_mapping page_size [] p.
Proof. unfold add_mapping. by repeat case_bool. Qed.

Lemma image_app data ms ns memory : image page_size data (ms ++ ns) memory = image page_size data ns (image page_size data ms memory).
Proof. apply fold_left_app. Qed.

(** The mappings of a segment, without the wrap-around of words. *)
Lemma segment_mappings data base p : segment_ok page_size data p -> 0 <= base -> base mod page_size = 0 -> below page_size base p ->
  let first := base + p_vaddr p - p_vaddr p mod page_size in
  let last := base + up (p_vaddr p + p_filesz p) in
  let last' := base + up (p_vaddr p + p_memsz p) in
  let file clear := mkMapping first (last - first) clear (prot_of (p_flags p)) (MAP_PRIVATE + MAP_FIXED) (p_offset p - p_offset p mod page_size) in
  moved base <$> add_mapping page_size [] p =
    if p_filesz p <? p_memsz p then
      file (last - base - p_vaddr p - p_filesz p)
      :: (if last <? last' then [mkMapping last (last' - last) 0 (prot_of (p_flags p)) (MAP_PRIVATE + MAP_ANONYMOUS + MAP_FIXED) 0] else [])
    else [file 0].
Proof.
  intros [Hv Hs [Ho _] Hf] Hb0 Hb Hbelow. unfold below in Hbelow. pose proof page_bounds as Hp.
  intros first last last' file. unfold add_mapping.
  pose proof (Z.mod_pos_bound (p_vaddr p) page_size ltac:(lia)). pose proof (Z.mod_le (p_vaddr p) page_size ltac:(lia) ltac:(lia)).
  pose proof (Z.mod_pos_bound (p_vaddr p + p_filesz p) page_size ltac:(lia)). pose proof (Z.mod_pos_bound (p_vaddr p + p_memsz p) page_size ltac:(lia)).
  rewrite (page_of_eq (p_vaddr p)), (page_of_eq (p_offset p)), !page_of_up by lia. unfold wrap64. rewrite !wrap_small by lia.
  case_bool; [|cbn; unfold moved, file, wrap64; cbn; rewrite wrap_small by lia; do 2 f_equal; lia].
  replace (last <? last') with (up (p_vaddr p + p_filesz p) <? up (p_vaddr p + p_memsz p)) by (destruct (Z.ltb_spec (up (p_vaddr p + p_filesz p)) (up (p_vaddr p + p_memsz p))); symmetry; [apply Z.ltb_lt|apply Z.ltb_ge]; lia).
  case_bool; bool_facts; cbn; unfold moved, file, wrap64; cbn; rewrite !wrap_small by lia; f_equal; try done; f_equal; try lia; f_equal; lia.
Qed.


Lemma segment_mappings_ok data base p : segment_ok page_size data p -> 0 <= base -> base mod page_size = 0 -> below page_size base p ->
  Forall (fun m => mapping_ok page_size m /\ base + p_vaddr p - p_vaddr p mod page_size <= m_addr m) (moved base <$> add_mapping page_size [] p).
Proof.
  intros Hok Hb0 Hb Hbelow. rewrite (segment_mappings data) by done. destruct Hok as [Hv Hs [Ho _] Hf]. unfold below in Hbelow. pose proof page_bounds as Hp.
  pose proof (Z.mod_pos_bound (p_vaddr p) page_size ltac:(lia)). pose proof (Z.mod_le (p_vaddr p) page_size ltac:(lia) ltac:(lia)).
  pose proof (Z.mod_pos_bound (p_vaddr p + p_filesz p) page_size ltac:(lia)). pose proof (Z.mod_pos_bound (p_vaddr p + p_memsz p) page_size ltac:(lia)).
  pose proof (Z.mod_le (p_offset p) page_size ltac:(lia) ltac:(lia)). pose proof (Z.mod_pos_bound (p_offset p) page_size ltac:(lia)).
  assert (M1 : (base + p_vaddr p - p_vaddr p mod page_size) mod page_size = 0).
  { rewrite <- Z.add_sub_assoc. apply multiple_add; [done|apply page_multiple]. }
  assert (M2 : (base + up (p_vaddr p + p_filesz p)) mod page_size = 0) by (apply multiple_add; [done|apply up_multiple]).
  assert (M3 : (base + up (p_vaddr p + p_memsz p)) mod page_size = 0) by (apply multiple_add; [done|apply up_multiple]).
  assert (Hup : forall x y, 0 <= x -> x <= y -> x - x mod page_size < up y) by (intros x y Hx Hy; pose proof (Z.mod_pos_bound x page_size ltac:(lia)); pose proof (Z.mod_pos_bound y page_size ltac:(lia)); lia).
  specialize (Hup (p_vaddr p) (p_vaddr p + p_filesz p) ltac:(lia) ltac:(lia)).
  assert (Hfile : forall clear, 0 <= clear <= page_size + base + p_vaddr p + p_filesz p - (base + p_vaddr p - p_vaddr p mod page_size) - (p_vaddr p + p_filesz p) mod page_size ->
    mapping_ok page_size (mkMapping (base + p_vaddr p - p_vaddr p mod page_size) (base + up (p_vaddr p + p_filesz p) - (base + p_vaddr p - p_vaddr p mod page_size)) clear
      (prot_of (p_flags p)) (MAP_PRIVATE + MAP_FIXED) (p_offset p - p_offset p mod page_size))).
  { intros clear Hc. split; cbn; [by split; [lia|]|split; [lia|split; [by apply multiple_sub|lia]]|lia|split; [lia|apply page_multiple]|by left]. }
  assert (Hanon : base + up (p_vaddr p + p_filesz p) < base + up (p_vaddr p + p_memsz p) ->
    mapping_ok page_size (mkMapping (base + up (p_vaddr p + p_filesz p)) (base + up (p_vaddr p + p_memsz p) - (base + up (p_vaddr p + p_filesz p))) 0
      (prot_of (p_flags p)) (MAP_PRIVATE + MAP_ANONYMOUS + MAP_FIXED) 0)).
  { intros Hlt. split; cbn; [by split; [lia|]|split; [lia|split; [by apply multiple_sub|lia]]|lia|split; [lia|apply Z.mod_0_l; lia]|by right]. }
  repeat case_bool; bool_facts; repeat (apply Forall_cons_2 || apply Forall_nil_2); (split; [first [apply Hanon; lia|apply Hfile; lia]|cbn [m_addr]; lia]).
Qed.

(** The bytes of a segment are the ones of the file, then zeros; nothing changes
    before its first page. *)
Lemma segment_image data base memory p k : segment_ok page_size data p -> 0 <= base -> base mod page_size = 0 -> below page_size base p ->
  0 <= k < p_memsz p ->
  image page_size data (moved base <$> add_mapping page_size [] p) memory (base + p_vaddr p + k)
  = if k <? p_filesz p then data !! Z.to_nat (p_offset p + k) else Some 0.
Proof.
  intros Hok Hb0 Hb Hbelow Hk. rewrite (segment_mappings data) by done. destruct Hok as [Hv Hs [Ho Heq] Hf]. unfold below in Hbelow. pose proof page_bounds as Hp.
  pose proof (Z.mod_pos_bound (p_vaddr p) page_size ltac:(lia)). pose proof (Z.mod_pos_bound (p_vaddr p + p_filesz p) page_size ltac:(lia)).
  pose proof (Z.mod_pos_bound (p_vaddr p + p_memsz p) page_size ltac:(lia)).
  assert (Hbyte : k < p_filesz p -> file_byte page_size data (p_offset p - p_offset p mod page_size + (base + p_vaddr p + k - (base + p_vaddr p - p_vaddr p mod page_size)))
    = data !! Z.to_nat (p_offset p + k)).
  { intros Hlt. unfold file_byte. replace (p_offset p - p_offset p mod page_size + _) with (p_offset p + k) by lia. by rewrite (proj2 (Z.ltb_lt _ _)) by lia. }
  destruct (p_filesz p <? p_memsz p) eqn:E1; bool_facts.
  2: { unfold image, mapped. cbn [fold_left m_addr m_length m_clear_length m_flags m_offset].
       change (has_flag (MAP_PRIVATE + MAP_FIXED) MAP_ANONYMOUS) with false. cbn [orb].
       rewrite (proj2 (Z.leb_le _ _)), (proj2 (Z.ltb_lt _ _)), (proj2 (Z.leb_gt _ _)), (proj2 (Z.ltb_lt k _)) by lia. apply Hbyte. lia. }
  assert (Hfirst : forall memory, base + p_vaddr p + k < base + up (p_vaddr p + p_filesz p) ->
    mapped page_size data (mkMapping (base + p_vaddr p - p_vaddr p mod page_size) (base + up (p_vaddr p + p_filesz p) - (base + p_vaddr p - p_vaddr p mod page_size))
      (base + up (p_vaddr p + p_filesz p) - base - p_vaddr p - p_filesz p) (prot_of (p_flags p)) (MAP_PRIVATE + MAP_FIXED) (p_offset p - p_offset p mod page_size)) memory (base + p_vaddr p + k)
    = if k <? p_filesz p then data !! Z.to_nat (p_offset p + k) else Some 0).
  { intros memory' Hlt. unfold mapped. cbn [m_addr m_length m_clear_length m_flags m_offset]. change (has_flag (MAP_PRIVATE + MAP_FIXED) MAP_ANONYMOUS) with false. cbn [orb].
    rewrite (proj2 (Z.leb_le (base + p_vaddr p - _) _)), (proj2 (Z.ltb_lt (base + p_vaddr p + k) _)) by lia. cbn [andb]. destruct (Z.ltb_spec k (p_filesz p)) as [Hk'|Hk'].
    - rewrite (proj2 (Z.leb_gt _ _)) by lia. by apply Hbyte.
    - by rewrite (proj2 (Z.leb_le _ _)) by lia. }
  destruct (Z.ltb_spec (base + up (p_vaddr p + p_filesz p)) (base + up (p_vaddr p + p_memsz p))) as [Hl|Hl]; unfold image; cbn [fold_left]; [|apply Hfirst; lia].
  unfold mapped at 1. cbn [m_addr m_length m_clear_length m_flags m_offset]. change (has_flag (MAP_PRIVATE + MAP_ANONYMOUS + MAP_FIXED) MAP_ANONYMOUS) with true. cbn [orb].
  case_bool; bool_facts; [by rewrite (proj2 (Z.ltb_ge _ _)) by lia|]. apply Hfirst. apply andb_false_iff in Hb1 as [Hb1|Hb1]; bool_facts; lia.
Qed.

Lemma image_before data ms memory a : Forall (fun m => a < m_addr m) ms -> image page_size data ms memory a = memory a.
Proof.
  unfold image. revert memory. induction ms as [|m ms IH]; intros memory Hms; [done|]. apply Forall_cons in Hms as [Hm Hms]. cbn [fold_left].
  rewrite IH by done. unfold mapped. by rewrite (proj2 (Z.leb_gt _ _)) by lia.
Qed.

Definition mappings_of (l : list ProgramHeader) : list Mapping := fold_left (add_mapping page_size) l [].

Lemma mappings_of_fold l : forall ms, fold_left (add_mapping page_size) l ms = ms ++ mappings_of l.
Proof.
  unfold mappings_of. induction l as [|p l IH]; intros ms; cbn [fold_left]; [by rewrite app_nil_r|].
  rewrite IH, add_mapping_app, <- app_assoc, (IH (add_mapping page_size [] p)). done.
Qed.

Lemma mappings_of_cons p l : mappings_of (p :: l) = add_mapping page_size [] p ++ mappings_of l.
Proof. unfold mappings_of at 1. cbn [fold_left]. apply mappings_of_fold. Qed.

Section Segments.

Context (data : list Z) (base : Z).
Hypothesis Hbase : 0 <= base /\ base mod page_size = 0.

Lemma segments_mappings_ok l : Forall (segment_ok page_size data) l -> Forall (below page_size base) l ->
  Forall (fun m => mapping_ok page_size m /\ exists p, p ∈ l /\ base + page_of page_size (p_vaddr p) <= m_addr m) (moved base <$> mappings_of l).
Proof.
  destruct Hbase as [Hb0 Hb]. intros Hok. induction Hok as [|p l Hp Hok IH]; intros Hl; [constructor|]. apply Forall_cons in Hl as [Hpl Hl].
  rewrite mappings_of_cons, fmap_app. apply Forall_app. split.
  - eapply Forall_impl; [by apply (segment_mappings_ok data)|]. intros m [Hm Hle]. split; [done|]. exists p. split; [apply list_elem_of_here|].
    destruct Hp as [Hv Hs _ _]. unfold below in Hpl. pose proof page_bounds. rewrite page_of_eq by lia. lia.
  - eapply Forall_impl; [by apply IH|]. intros m [Hm (q & Hq & Hle)]. split; [done|]. exists q. split; [by apply list_elem_of_further|done].
Qed.

Lemma segments_image l : Forall (segment_ok page_size data) l -> Forall (below page_size base) l -> ascending page_size l ->
  forall memory p k, p ∈ l -> 0 <= k < p_memsz p ->
  image page_size data (moved base <$> mappings_of l) memory (base + p_vaddr p + k) = if k <? p_filesz p then data !! Z.to_nat (p_offset p + k) else Some 0.
Proof.
  intros Hok Hl Hs. induction Hs as [|q l Hs IH Hq]; intros memory p k Hp Hk; [by apply not_elem_of_nil in Hp|].
  apply Forall_cons in Hok as [Hqok Hok]. apply Forall_cons in Hl as [Hql Hl]. rewrite mappings_of_cons, fmap_app, image_app.
  apply elem_of_cons in Hp as [->|Hp]; [|by apply IH]. destruct Hbase as [Hb0 Hb]. rewrite image_before; [by apply segment_image|].
  eapply Forall_impl; [by apply (segments_mappings_ok l)|]. intros m [_ (r & Hr & Hle)]. rewrite Forall_forall in Hq. specialize (Hq r Hr). lia.
Qed.

End Segments.

End Pages.

(** ** The program headers *)

(** The program headers of a file, as they follow each other. *)
Fixpoint program_headers (n : nat) (class64 : bool) (size : Z) (data : list Z) : list ProgramHeader :=
  match n with
  | O => []
  | S n => parse_program_header class64 (take (Z.to_nat size) data) :: program_headers n class64 size (drop (Z.to_nat size) data)
  end.
Definition segments (header : ElfHeader) (data : list Z) : list ProgramHeader :=
  program_headers (Z.to_nat (e_phnum header)) (class64 header) (e_phentsize header) (drop (Z.to_nat (e_phoff header)) data).

Definition of_type (type : Z) (l : list ProgramHeader) : list ProgramHeader := filter (fun p => p_type p = type) l.

Section Extract.

Context {W : Type} {K : Kernel W} {E : Extensions W} {L : KernelLaws W K} {V : PathEvents W} {N : PathPolicy W} {TE : TransparentEvents W V} {EH : ExecHost W}.
Context (f : FileSystemNameSpace) (root : list cstr) (l k : list Binding) (v : ProcView).
Hypothesis Hroot : rooted f root.
Hypothesis Hwf : fs_wf f.
Hypothesis Hsz : fs_sized f.
Hypothesis Hl : bindings_guest f = Some l.
Hypothesis Hk : bindings_host f = Some k.
Hypothesis Hv : view_ok v.
Hypothesis Hcwd : nul_free (cwd f) /\ cwd f <> [].
Context (regs : Regs) (s : Sysnum) (qemu : bool) (page_size : Z) (file : FileBytes).
Hypothesis Hs : get_sysnum regs CURRENT = Ok s.

(** The interpreter that a segment names. *)
Definition interpreter_of (data : list Z) (p : ProgramHeader) : cstr :=
  let user_path := c_string (slice (Z.to_nat (p_offset p)) (Z.to_nat (p_filesz p)) data) in
  if qemu && absolute user_path then bs "/host-rootfs" ++ user_path else user_path.

Definition interp_ok (headers : list ProgramHeader) (i : option (cstr * cstr)) : Prop :=
  match i with
  | None => of_type PT_INTERP headers = []
  | Some (host_path, user_path) => exists p, of_type PT_INTERP headers = [p] /\ user_path = interpreter_of (fst file) p
      /\ kept_or_followed f l v AT_FDCWD user_path true host_path
  end.

Definition executable_stack (headers : list ProgramHeader) : bool :=
  existsb (fun p => (p_type p =? PT_GNU_STACK) && has_flag (p_flags p) PF_X) headers.

(** What the segments that were read so far give. *)
Definition described (headers : list ProgramHeader) (o : Partial) : Prop :=
  l_mappings o = mappings_of page_size (of_type PT_LOAD headers)
  /\ interp_ok headers (l_interp o) /\ l_stack o = executable_stack headers.

Lemma of_type_snoc type headers p : of_type type (headers ++ [p]) = of_type type headers ++ (if decide (p_type p = type) then [p] else []).
Proof. unfold of_type. by rewrite filter_app. Qed.

Lemma add_interp_inv o p o' t t' : stable f v t -> add_interp regs qemu file o p t = (t', Ok o') -> stable f v t' /\ l_interp o = None
  /\ exists host, o' = mkPartial (l_mappings o) (Some (host, interpreter_of (fst file) p)) (l_stack o)
       /\ kept_or_followed f l v AT_FDCWD (interpreter_of (fst file) p) true host.
Proof.
  intros Ht H. unfold add_interp in H. case_bool_in H; [done|]. apply bool_decide_eq_false in Hb. case_bool_in H; [done|].
  apply bind_inv in H as (t1 & host & H1 & H). fold (interpreter_of (fst file) p) in H1, H. cbn in H. injection H as <- <-.
  assert (Hnul : nul_free (interpreter_of (fst file) p)).
  { unfold interpreter_of. pose proof (proj1 (c_string_fits (slice (Z.to_nat (p_offset p)) (Z.to_nat (p_filesz p)) (fst file)))). case_bool; [|done].
    apply Forall_app. split; [by repeat constructor|done]. }
  destruct (check_exec_inv f root l k v Hroot Hwf Hsz Hl Hk Hv Hcwd regs s _ _ _ _ Hs Ht Hnul H1) as [Ht1 Hh].
  split; [done|]. split; [destruct (l_interp o); [by exfalso; apply Hb|done]|]. by exists host.
Qed.

Lemma add_load_info_inv headers p o o' t t' : stable f v t -> described headers o ->
  add_load_info regs qemu page_size file p o t = (t', Ok o') -> o'.1 = false /\ stable f v t' /\ described (headers ++ [p]) o'.2.
Proof.
  intros Ht (D1 & D2 & D3) H. unfold add_load_info in H. unfold described, interp_ok, executable_stack in *. rewrite !of_type_snoc, existsb_app. cbn [existsb]. rewrite orb_false_r.
  destruct (Z.eqb_spec (p_type p) PT_LOAD) as [E1|E1].
  { injection H as <- <-. rewrite E1. cbn. rewrite app_nil_r, orb_false_r. split; [done|]. split; [done|]. split; [|done].
    rewrite decide_True, D1 by done. unfold mappings_of. by rewrite fold_left_app. }
  rewrite (decide_False (P := p_type p = PT_LOAD)), app_nil_r by done. destruct (Z.eqb_spec (p_type p) PT_INTERP) as [E2|E2].
  { apply bind_inv in H as (t1 & o1 & H1 & H). injection H as <- <-. apply add_interp_inv in H1 as (Ht' & Hn & host & -> & Hh); [|done]. rewrite Hn in D2. split; [done|]. split; [done|]. rewrite E2. cbn. rewrite orb_false_r.
    split; [done|]. split; [|done]. exists p. by rewrite D2. }
  rewrite (decide_False (P := p_type p = PT_INTERP)), app_nil_r by done. destruct (Z.eqb_spec (p_type p) PT_GNU_STACK) as [E3|E3].
  - injection H as <- <-. cbn. by rewrite D3.
  - injection H as <- <-. cbn. by rewrite orb_false_r.
Qed.

Lemma iterate_loop_inv n class64 size err : forall data headers o o' t t', stable f v t -> described headers o ->
  iterate_loop n class64 size data err (add_load_info regs qemu page_size file) o t = (t', Ok o') ->
  stable f v t' /\ described (headers ++ program_headers n class64 size data) o'.2.
Proof.
  induction n as [|n IH]; intros data headers o o' t t' Ht Hd H; cbn [iterate_loop program_headers] in *; [injection H as <- <-; by rewrite app_nil_r|].
  case_bool_in H; [by destruct data, err|]. apply bind_inv in H as (t1 & [b o1] & H1 & H). apply (add_load_info_inv headers) in H1 as (Hb1 & Ht1 & Hd1); [|done..]. cbn in Hb1, Hd1. subst b.
  destruct (IH _ _ _ _ _ _ Ht1 Hd1 H) as [Ht' Hd']. rewrite <- app_assoc in Hd'. done.
Qed.

Lemma extract_load_info_inv last_errno host_path header o t t' : stable f v t -> open_file (world t) host_path = inl file ->
  extract_load_info regs qemu page_size last_errno host_path t = (t', Ok (header, o)) ->
  stable f v t' /\ read_elf file = Ok header /\ (e_type header = ET_EXEC \/ e_type header = ET_DYN)
  /\ (0 <= sgn 32 (e_phoff header) -> described (segments header (fst file)) o).
Proof.
  intros Ht Ho H. unfold extract_load_info in H. apply bind_inv in H as (t1 & w & H1 & H). injection H1 as <- <-. rewrite Ho in H.
  apply bind_inv in H as (t2 & h & H2 & H). unfold lift in H2. injection H2 as <- Hh. case_bool_in H; [done|]. apply bind_inv in H as (t3 & [b3 o1] & H3 & H). injection H as <- <- <-.
  assert (Htype : e_type h = ET_EXEC \/ e_type h = ET_DYN) by (apply andb_false_iff in Hb as [Hb|Hb]; bool_facts; auto).
  unfold iterate_program_headers in H3. repeat (case_bool_in H3; [done|]). case_bool_in H3; bool_facts.
  - case_bool_in H3; [|done]. injection H3 as <- <-. split; [done|]. split; [done|]. split; [done|]. lia.
  - apply (iterate_loop_inv _ _ _ _ _ []) in H3 as [Ht' Hd]; [|done..]. split; [done|]. split; [done|]. split; [done|]. by intros _.
Qed.

End Extract.

(** ** Property *)

(** C7: the segments of a program.  When extract_load_info() succeeds on a file whose
    table of program headers is where a positive int can tell, it has read every
    program header.  The mappings it made, moved by any base, are aligned on pages,
    inside of the address space, and give the image the ELF specification asks for
    when they are made in this order and their tails are cleared: the bytes of the
    file, then zeros up to the size of the segment.  The interpreter is named by
    the only segment of its type, and its host path is the translation of its path,
    within the bindings; the stack is executable when a segment says so. *)
Theorem segments_mapped {W} (K : Kernel W) (E : Extensions W) (L : KernelLaws W K) (V : PathEvents W) (N : PathPolicy W)
    (TE : TransparentEvents W V) (EH : ExecHost W) (regs : Regs) s qemu page_size last_errno (t t' : Tracee W) l file host_path header o :
  tracee_ok t -> bindings_guest (fs t) = Some l -> cwd_ok (fs t) -> get_sysnum regs CURRENT = Ok s -> page_ok page_size ->
  open_file (world t) host_path = inl file -> 0 <= sgn 32 (e_phoff header) ->
  extract_load_info regs qemu page_size last_errno host_path t = (t', Ok (header, o)) ->
  let headers := segments header (fst file) in
  let loads := of_type PT_LOAD headers in
  read_elf file = Ok header /\ (e_type header = ET_EXEC \/ e_type header = ET_DYN)
  /\ interp_ok (fs t) l (view t) qemu file headers (l_interp o) /\ l_stack o = executable_stack headers
  /\ (Forall (segment_ok page_size (fst file)) loads -> ascending page_size loads ->
      forall base, 0 <= base -> base mod page_size = 0 -> Forall (below page_size base) loads ->
        Forall (mapping_ok page_size) (moved base <$> l_mappings o)
        /\ forall memory p k, p ∈ loads -> 0 <= k < p_memsz p ->
             image page_size (fst file) (moved base <$> l_mappings o) memory (base + p_vaddr p + k)
             = if k <? p_filesz p then fst file !! Z.to_nat (p_offset p + k) else Some 0).
Proof.
  intros ((root & Hr) & Hwf & Hsz & (k & Hk) & Hv & Hg0) Hl Hc Hs Hp Ho Hoff H headers loads.
  assert (Hst : stable (fs t) (view t) t) by done.
  destruct (extract_load_info_inv _ root l k _ Hr Hwf Hsz Hl Hk Hv Hc _ s qemu page_size file Hs _ _ _ _ _ _ Hst Ho H) as (Ht' & Hread & Htype & Hd).
  destruct (Hd Hoff) as (D1 & D2 & D3). split; [done|]. split; [done|]. split; [done|]. split; [done|].
  intros Hok Hasc base Hb0 Hb Hbelow. rewrite D1. split.
  - eapply Forall_impl; [by apply (segments_mappings_ok page_size Hp (fst file))|]. by intros m [Hm _].
  - intros memory p j Hin Hj. by apply segments_image.
Qed.

(** ** A program to compute with *)

#[local] Existing Instance quiet_extensions.
#[local] Existing Instance quiet_events.
#[local] Existing Instance static_policy.
#[local] Instance elf_kernel : Kernel unit := demo_kernel demo_links.

Definition demo_program_header (type flags offset vaddr filesz memsz : Z) : list Z :=
  to_le 4 type ++ to_le 4 flags ++ to_le 8 offset ++ to_le 8 vaddr ++ to_le 8 vaddr ++ to_le 8 filesz ++ to_le 8 memsz ++ to_le 8 4096.

(** A position-independent program with an interpreter, a segment for its code and a
    segment for its variables. *)
Definition demo_elf : list Z :=
  127 :: bs "ELF" ++ [2] ++ replicate 11 0 ++ to_le 2 ET_DYN ++ to_le 2 183 ++ to_le 4 1 ++ to_le 8 64 ++ to_le 8 64 ++ to_le 8 0 ++ to_le 4 0
    ++ to_le 2 64 ++ to_le 2 56 ++ to_le 2 3 ++ to_le 2 0 ++ to_le 2 0 ++ to_le 2 0
  ++ demo_program_header PT_INTERP PF_R 232 232 8 8
  ++ demo_program_header PT_LOAD (PF_R + PF_X) 0 0 232 232
  ++ demo_program_header PT_LOAD (PF_R + PF_W) 232 4328 8 4096
  ++ bs "/bin/sh" ++ [0].

#[local] Instance elf_files : ExecHost unit := {
  set_exec_path_translation w _ := w;
  access_exists _ _ := true;
  access_executable _ _ := true;
  open_file _ _ := inl (demo_elf, None)
}.

Definition demo_info : Partial := mkPartial
  [mkMapping 0 4096 0 (PROT_READ + PROT_EXEC) (MAP_PRIVATE + MAP_FIXED) 0;
   mkMapping 4096 4096 3856 (PROT_READ + PROT_WRITE) (MAP_PRIVATE + MAP_FIXED) 0;
   mkMapping 8192 4096 0 (PROT_READ + PROT_WRITE) (MAP_PRIVATE + MAP_ANONYMOUS + MAP_FIXED) 0]
  (Some (bs "/data/root/bin/sh", bs "/bin/sh")) false.

Lemma demo_extracted : snd (extract_load_info (x_regs demo_execve) false 4096 0 (bs "/data/root/p") demo_tracee) = Ok (parse_header demo_elf, demo_info).
Proof. by vm_compute. Qed.

Definition demo_loads : list ProgramHeader :=
  [mkProgram PT_LOAD (PF_R + PF_X) 0 0 232 232; mkProgram PT_LOAD (PF_R + PF_W) 232 4328 8 4096].

Lemma demo_loads_ok base : base = 0 \/ base = EXEC_PIC_ADDRESS ->
  Forall (segment_ok 4096 demo_elf) demo_loads /\ ascending 4096 demo_loads /\ Forall (below 4096 base) demo_loads.
Proof.
  intros Hb. split; [|split].
  - repeat constructor; by vm_compute.
  - repeat constructor; by vm_compute.
  - unfold below. destruct Hb as [->| ->]; repeat constructor; by vm_compute.
Qed.

Lemma page_ok_4096 : page_ok 4096.
Proof. exists 12. done. Qed.

Lemma segments_mapped_witness :
  interp_ok (fs demo_tracee) [demo_tmp; demo_sd; demo_root] (view demo_tracee) false (demo_elf, None) (segments (parse_header demo_elf) demo_elf) (l_interp demo_info)
  /\ forall k, 0 <= k < 4096 ->
       image 4096 demo_elf (moved EXEC_PIC_ADDRESS <$> l_mappings demo_info) (fun _ => None) (EXEC_PIC_ADDRESS + 4328 + k)
       = if k <? 8 then demo_elf !! Z.to_nat (232 + k) else Some 0.
Proof.
  assert (Hs : get_sysnum (x_regs demo_execve) CURRENT = Ok PR_execve) by (by vm_compute).
  pose proof (segments_mapped elf_kernel quiet_extensions (demo_laws demo_links ltac:(by repeat constructor)) quiet_events static_policy quiet_transparent elf_files
    (x_regs demo_execve) PR_execve false 4096 0 demo_tracee _ [demo_tmp; demo_sd; demo_root] (demo_elf, None) (bs "/data/root/p") (parse_header demo_elf) demo_info
    demo_tracee_ok eq_refl demo_cwd_ok Hs page_ok_4096 eq_refl ltac:(by vm_compute) (pair_of _ _ demo_extracted)) as (_ & _ & Hi & _ & Hm).
  split; [exact Hi|]. intros k Hk. destruct (demo_loads_ok EXEC_PIC_ADDRESS ltac:(by right)) as (H1 & H2 & H3).
  destruct (Hm H1 H2 EXEC_PIC_ADDRESS ltac:(by vm_compute) ltac:(by vm_compute) H3) as [_ H].
  exact (H (fun _ => None) (mkProgram PT_LOAD (PF_R + PF_W) 232 4328 8 4096) k ltac:(right; left) Hk).
Defined.

(** ** Flaws *)

(** The file of a segment whose end is aligned is mapped one page too far: when it
    is the end of the file as well, the loader clears a page that does not exist. *)
Lemma page_past_the_end_cleared (data : list Z) : zlen data = 4096 ->
  exists m, add_mapping 4096 [] (mkProgram PT_LOAD (PF_R + PF_W) 0 4096 4096 8192) = [m; mkMapping 12288 4096 0 (PROT_READ + PROT_WRITE) (MAP_PRIVATE + MAP_ANONYMOUS + MAP_FIXED) 0]
    /\ m_clear_length m = 4096 /\ file_byte 4096 data (m_offset m + (m_length m - m_clear_length m)) = None.
Proof. intros Hl. eexists. split; [by vm_compute|]. split; [done|]. unfold file_byte. cbn. by rewrite Hl. Qed.

(** A shared object without any segment to load: the first mapping is read through
    a null pointer. *)
Lemma nothing_to_load host user header base : e_type header = ET_DYN -> based (mkObject host user [] header false) base = Stuck OutOfBounds.
Proof. intros H. unfold based, IS_POSITION_INDEPENDENT. cbn. by rewrite H. Qed.

(** A table of program headers past 2 GB is skipped, depending on the error of an
    earlier call. *)
Lemma far_headers_skipped {W A} (file : FileBytes) header (callback : ProgramHeader -> A -> M W (bool * A)) acc t :
  e_phnum header < 0xffff -> KNOWN_PHENTSIZE header (e_phentsize header) = true -> 2 ^ 31 <= e_phoff header < 2 ^ 32 ->
  iterate_program_headers 0 file header callback acc t = (t, Ok (false, acc)).
Proof.
  intros H1 H2 H3. unfold iterate_program_headers. rewrite (proj2 (Z.leb_gt _ _)), H2, (proj2 (Z.leb_gt _ _)) by lia. cbn [negb].
  unfold sgn. rewrite Z.mod_small by lia. rewrite (proj2 (Z.ltb_ge (e_phoff header) _)), (proj2 (Z.ltb_lt _ _)) by lia. done.
Qed.
