(* ===== verification/Loader.v ===== *)
(** * The loader and its script (src/loader/, src/execve/exit.c)

    Instead of a program the kernel executes a small loader.  PRoot leaves a script
    on the stack of the new process, transfer_load_script(), and the loader interprets
    it: it opens the program, maps its segments and those of its interpreter, fixes
    the auxiliary vectors and jumps.  The address space of the loader and its system
    calls are a class. *)

From S2P Require Import Prelude Mem Memory Paths Binding ProcLinks Canon Lookup Sysnum Regs Translate SysArgs Mounts Netlink Enter Sockets Exit Aoxp Shebang Elf.

(** ** script.h *)

Record StartStatement := mkStart {
  stack_pointer : Z; entry_point : Z; at_phdr : Z; at_phent : Z; at_phnum : Z; at_entry : Z; at_execfn : Z
}.
Inductive LoadStatement :=
  | LOAD_OPEN_NEXT (string_address : Z)
  | LOAD_OPEN (string_address : Z)
  | LOAD_MMAP_FILE (addr length prot offset clear_length : Z)
  | LOAD_MMAP_ANON (addr length prot offset clear_length : Z)
  | LOAD_MAKE_STACK_EXEC (start : Z)
  | LOAD_START_TRACED (start : StartStatement)
  | LOAD_START (start : StartStatement).

Definition LOAD_ACTION_OPEN_NEXT := 0.
Definition LOAD_ACTION_OPEN := 1.
Definition LOAD_ACTION_MMAP_FILE := 2.
Definition LOAD_ACTION_MMAP_ANON := 3.
Definition LOAD_ACTION_MAKE_STACK_EXEC := 4.
Definition LOAD_ACTION_START_TRACED := 5.
Definition LOAD_ACTION_START := 6.

Definition start_words (s : StartStatement) : list Z :=
  [stack_pointer s; entry_point s; at_phdr s; at_phent s; at_phnum s; at_entry s; at_execfn s].
Definition statement_words (s : LoadStatement) : list Z :=
  match s with
  | LOAD_OPEN_NEXT a => [LOAD_ACTION_OPEN_NEXT; a]
  | LOAD_OPEN a => [LOAD_ACTION_OPEN; a]
  | LOAD_MMAP_FILE addr length prot offset clear_length => [LOAD_ACTION_MMAP_FILE; addr; length; prot; offset; clear_length]
  | LOAD_MMAP_ANON addr length prot offset clear_length => [LOAD_ACTION_MMAP_ANON; addr; length; prot; offset; clear_length]
  | LOAD_MAKE_STACK_EXEC start => [LOAD_ACTION_MAKE_STACK_EXEC; start]
  | LOAD_START_TRACED s => LOAD_ACTION_START_TRACED :: start_words s
  | LOAD_START s => LOAD_ACTION_START :: start_words s
  end.

Definition script_words (l : list LoadStatement) : list Z := concat (statement_words <$> l).

(** ** transfer_load_script() *)

Definition transcript_mappings (mappings : list Mapping) : list LoadStatement :=
  (fun m => (if has_flag (m_flags m) MAP_ANONYMOUS then LOAD_MMAP_ANON else LOAD_MMAP_FILE)
    (m_addr m) (m_length m) (m_prot m) (m_offset m) (m_clear_length m)) <$> mappings.

Definition final_entry (l : LoadInfo) : Z := e_entry (elf_header (match interp l with None => object l | Some i => i end)).
Definition wants_executable_stack (l : LoadInfo) : bool :=
  needs_executable_stack (object l) || match interp l with None => false | Some i => needs_executable_stack i end.

(** The statements, with the addresses of the three strings.  The first mapping is
    read through a null pointer when there is none. *)
Definition load_script (traced : bool) (page_size sp string1 string2 string3 : Z) (l : LoadInfo) : res (list LoadStatement) :=
  match mappings (object l) with
  | [] => Stuck OutOfBounds
  | m :: _ =>
      let h := elf_header (object l) in
      let start := mkStart sp (final_entry l) (wrap64 (e_phoff h + m_addr m)) (e_phentsize h) (e_phnum h) (e_entry h) string3 in
      Ok (LOAD_OPEN string1 :: transcript_mappings (mappings (object l))
          ++ match interp l with None => [] | Some i => LOAD_OPEN_NEXT string2 :: transcript_mappings (mappings i) end
          ++ (if wants_executable_stack l then [LOAD_MAKE_STACK_EXEC (page_of page_size sp)] else [])
          ++ [if traced then LOAD_START_TRACED start else LOAD_START start])
  end.

(** The words are converted in place for a 32-bit loader: the end of the buffer keeps
    what it had. *)
Definition convert (is32 : bool) (words : list Z) : list Z :=
  if is32 then pod_array 4 words ++ drop (4 * length words) (pod_array 8 words) else pod_array 8 words.

(** The strings, and the offsets of the last two. *)
Definition script_strings (l : LoadInfo) : list Z * Z * Z :=
  let string1 := o_user_path (object l) ++ [0] in
  let string2 := match interp l with None => [] | Some i => o_user_path i ++ [0] end in
  let string3 := match raw_path l with None => [] | Some p => p ++ [0] end in
  (string1 ++ string2 ++ string3, zlen string1, if zlen string3 =? 0 then 0 else zlen string1 + zlen string2).

(** The script, the strings, and a padding that aligns them on 16 bytes. *)
Definition load_buffer (traced is32 : bool) (page_size sp : Z) (l : LoadInfo) : res (list Z) :=
  let '(strings, offset2, offset3) := script_strings l in
  let padding_size := wrap64 (sp - zlen strings) mod 16 in
  let strings_size := zlen strings + padding_size in
  let! script := load_script traced page_size sp (wrap64 (sp - strings_size)) (wrap64 (sp - strings_size + offset2)) (wrap64 (sp - strings_size + offset3)) l in
  Ok (convert is32 (script_words script) ++ strings ++ replicate (Z.to_nat padding_size) 0).

Definition set_execfn_addr (a : Z) (f : SysFlags) : SysFlags :=
  mkFlags (sysexit_pending f) (restart_syscall f) (clone_stripped_newns f) (no_new_privs f) a (auxv_fd f) (seen_execve f).

Section Transfer.

Context {W Mem : Type} {TM : TraceeMemory Mem}.

(** [traced] when the tracee has a ptracer. *)
Definition transfer_load_script (traced : bool) (page_size : Z) (l : LoadInfo) : HM W Mem unit :=
  do$ sp := peek CURRENT STACK_POINTER in
  do$ w := word_size in
  do$ (execfn, _) := SysArgs.peek_word (wrap64 (sp + w)) in
  do$ _ := hset (fun x => set_flags (set_execfn_addr execfn (x_flags x)) x) in
  do$ is32 := hget (fun x => is_32on64_mode (x_regs x)) in
  do$ buffer := hlift (load_buffer traced is32 page_size sp l) in
  do$ _ := poke STACK_POINTER (sp - zlen buffer) in
  do$ _ := poke USERARG_1 (sp - zlen buffer) in
  do$ e := poke_data (wrap64 (sp - zlen buffer)) buffer in
  match e with
  | Some e => hfail e
  | None => hset (fun x => set_regs (set_changed (save_current_regs (x_regs x) ORIGINAL) true) x)
  end.

End Transfer.

(** ** loader.c *)

(** How the loader ends: a failure, a signal, or the program.  When it is traced the
    jump is left to PRoot, with a system call. *)
Inductive LoaderEnd :=
  | Exited (code : Z)
  | Faulted
  | Branch (stack_pointer destination : Z)
  | Execve (args : list Z).

(** A state that is returned to the interpreter, an end, or a lack of fuel. *)
Inductive out (A : Type) := Done (a : A) | Ends (e : LoaderEnd) | Spins.
Arguments Done {A} a.
Arguments Ends {A} e.
Arguments Spins {A}.

(** Bytes of memory; [None] when there is nothing at the address, or no right. *)
Class LoaderVm (S : Type) := {
  load_byte : S -> Z -> option Z;
  store_byte : S -> Z -> Z -> option S;
  sys_open : S -> Z -> S * Z;
  sys_close : S -> Z -> S * Z;
  sys_mmap : S -> Z -> Z -> Z -> Z -> Z -> Z -> S * Z;
  sys_mprotect : S -> Z -> Z -> Z -> S;
  sys_set_name : S -> Z -> S
}.

Definition PROT_GROWSDOWN := 0x01000000.
Definition AT_PHDR := 3.
Definition AT_PHENT := 4.
Definition AT_PHNUM := 5.
Definition AT_BASE := 7.
Definition AT_ENTRY := 9.

Definition LM (S A : Type) : Type := S -> S * out A.
Definition lret {S A} (a : A) : LM S A := fun s => (s, Done a).
Definition lbind {S A B} (m : LM S A) (k : A -> LM S B) : LM S B :=
  fun s => match m s with
           | (s, Done a) => k a s
           | (s, Ends e) => (s, Ends e)
           | (s, Spins) => (s, Spins)
           end.
Notation "'do%' x ':=' m 'in' k" := (lbind m (fun x => k))
  (at level 10, x pattern, m at level 100, k at level 200) : res_scope.

Section Loader.

(** [w] is sizeof(word_t). *)
Context {S : Type} {V : LoaderVm S} (w : Z).

Definition ends {A} (e : LoaderEnd) : LM S A := fun s => (s, Ends e).
Definition FATAL {A} : LM S A := ends (Exited 182).
Definition call {A} (f : S -> S * A) : LM S A := fun s => let '(s, a) := f s in (s, Done a).
Definition wrapw (a : Z) : Z := wrap (8 * w) a.

(** The system calls with an offset in a file count 4096 bytes on 32-bit ARM. *)
Definition MMAP_OFFSET_SHIFT : Z := if w =? 4 then 12 else 0.

Definition load8 (a : Z) : LM S Z := fun s => match load_byte s a with Some b => (s, Done b) | None => (s, Ends Faulted) end.
Fixpoint load_bytes (n : nat) (a : Z) : LM S (list Z) :=
  match n with
  | O => lret []
  | Datatypes.S n => do% b := load8 a in do% l := load_bytes n (wrapw (a + 1)) in lret (b :: l)
  end.
Definition load_word (a : Z) : LM S Z := do% l := load_bytes (Z.to_nat w) a in lret (of_le l).

Fixpoint store_bytes (a : Z) (l : list Z) : LM S unit :=
  match l with
  | [] => lret ()
  | b :: l => fun s => match store_byte s a b with Some s => store_bytes (wrapw (a + 1)) l s | None => (s, Ends Faulted) end
  end.
Definition store_word (a v : Z) : LM S unit := store_bytes a (to_le (Z.to_nat w) v).

Fixpoint zero_words (n : nat) (a : Z) : LM S unit :=
  match n with
  | O => lret ()
  | Datatypes.S n => do% _ := store_word a 0 in zero_words n (wrapw (a + w))
  end.

(** The loops have as many iterations as there are bytes, or words, between their
    pointers. *)
Definition clear (start end_ : Z) : LM S unit :=
  let start_bytes := start mod w in
  let end_bytes := end_ mod w in
  let start_aligned := if start_bytes =? 0 then start else wrapw (start + w - start_bytes) in
  let end_aligned := wrapw (end_ - end_bytes) in
  do% _ := store_bytes start (replicate (Z.to_nat (start_aligned - start)) 0) in
  do% _ := zero_words (Z.to_nat ((end_aligned - start_aligned) / w)) start_aligned in
  store_bytes end_aligned (replicate (Z.to_nat (end_ - end_aligned)) 0).

Fixpoint end_of_string (fuel : nat) (cursor : Z) : LM S Z :=
  match fuel with
  | O => fun s => (s, Spins)
  | Datatypes.S fuel => do% c := load8 cursor in if c =? 0 then lret cursor else end_of_string fuel (wrapw (cursor + 1))
  end.
(** [n] bytes are before the cursor. *)
Fixpoint last_slash (n : nat) (cursor : Z) : LM S Z :=
  do% c := load8 cursor in
  if c =? SLASH then lret cursor
  else match n with O => lret cursor | Datatypes.S n => last_slash n (cursor - 1) end.
Definition basename (fuel : nat) (string : Z) : LM S Z :=
  do% cursor := end_of_string fuel string in
  do% cursor := last_slash (Z.to_nat (cursor - string)) cursor in
  lret (if cursor =? string then cursor else wrapw (cursor + 1)).

(** The word [i] of the statement at [cursor]. *)
Definition word_of (cursor i : Z) : LM S Z := load_word (wrapw (cursor + i * w)).

(** Until the null pointer that ends envp[]. *)
Fixpoint skip_env (fuel : nat) (cursor2 : Z) : LM S Z :=
  match fuel with
  | O => fun s => (s, Spins)
  | Datatypes.S fuel =>
      let cursor2 := wrapw (cursor2 + w) in
      do% v := load_word cursor2 in
      if v =? 0 then lret cursor2 else skip_env fuel cursor2
  end.

Definition adjust_vector (cursor at_base at_execfn cursor2 : Z) : LM S unit :=
  do% type := load_word cursor2 in
  let set v := store_word (wrapw (cursor2 + w)) v in
  if type =? AT_PHDR then do% v := word_of cursor 3 in set v
  else if type =? AT_PHENT then do% v := word_of cursor 4 in set v
  else if type =? AT_PHNUM then do% v := word_of cursor 5 in set v
  else if type =? AT_ENTRY then do% v := word_of cursor 6 in set v
  else if type =? AT_BASE then set at_base
  else if type =? AT_EXECFN then set at_execfn
  else lret ().

Fixpoint adjust_vectors (fuel : nat) (cursor at_base at_execfn cursor2 : Z) : LM S unit :=
  match fuel with
  | O => fun s => (s, Spins)
  | Datatypes.S fuel =>
      do% _ := adjust_vector cursor at_base at_execfn cursor2 in
      let cursor2 := wrapw (cursor2 + 2 * w) in
      do% type := load_word cursor2 in
      if type =? AT_NULL then lret () else adjust_vectors fuel cursor at_base at_execfn cursor2
  end.

Definition load_start {A} (fuel : nat) (traced : bool) (at_base fd cursor : Z) : LM S A :=
  do% cursor2 := word_of cursor 1 in
  do% argc := load_word cursor2 in
  do% at_execfn := load_word (wrapw (cursor2 + w)) in
  do% status := call (fun s => sys_close s fd) in
  if sgn 32 status <? 0 then FATAL
  else
    let cursor2 := wrapw (cursor2 + (argc + 1) * w) in
    do% cursor2 := skip_env fuel cursor2 in
    let cursor2 := wrapw (cursor2 + w) in
    do% _ := adjust_vectors fuel cursor at_base at_execfn cursor2 in
    do% string := word_of cursor 7 in
    do% name := basename fuel string in
    do% _ := call (fun s => (sys_set_name s name, ())) in
    do% sp := word_of cursor 1 in
    do% entry := word_of cursor 2 in
    ends (if traced then Execve [1; sp; entry; 2; 3; 4] else Branch sp entry).

Fixpoint interpret {A} (fuel : nat) (reset_at_base : bool) (at_base fd cursor : Z) : LM S A :=
  match fuel with
  | O => fun s => (s, Spins)
  | Datatypes.S fuel' =>
      let open :=
        do% address := word_of cursor 1 in
        do% fd := call (fun s => sys_open s address) in
        if sgn 32 fd <? 0 then FATAL
        else interpret fuel' true at_base fd (wrapw (cursor + 2 * w)) in
      do% action := word_of cursor 0 in
      if action =? LOAD_ACTION_OPEN_NEXT then
        do% status := call (fun s => sys_close s fd) in
        if sgn 32 status <? 0 then FATAL else open
      else if action =? LOAD_ACTION_OPEN then open
      else if action =? LOAD_ACTION_MMAP_FILE then
        do% addr := word_of cursor 1 in
        do% length := word_of cursor 2 in
        do% prot := word_of cursor 3 in
        do% offset := word_of cursor 4 in
        do% status := call (fun s => sys_mmap s addr length prot (MAP_PRIVATE + MAP_FIXED) fd (Z.shiftr offset MMAP_OFFSET_SHIFT)) in
        do% addr := word_of cursor 1 in
        if negb (status =? addr) then FATAL
        else
          do% clear_length := word_of cursor 5 in
          do% _ := (if negb (clear_length =? 0) then
                      do% length := word_of cursor 2 in
                      clear (wrapw (addr + length - clear_length)) (wrapw (addr + length))
                    else lret ()) in
          interpret fuel' false (if reset_at_base then addr else at_base) fd (wrapw (cursor + 6 * w))
      else if action =? LOAD_ACTION_MMAP_ANON then
        do% addr := word_of cursor 1 in
        do% length := word_of cursor 2 in
        do% prot := word_of cursor 3 in
        do% status := call (fun s => sys_mmap s addr length prot (MAP_PRIVATE + MAP_FIXED + MAP_ANONYMOUS) (wrapw (-1)) 0) in
        do% addr := word_of cursor 1 in
        if negb (status =? addr) then FATAL
        else interpret fuel' reset_at_base at_base fd (wrapw (cursor + 6 * w))
      else if action =? LOAD_ACTION_MAKE_STACK_EXEC then
        do% start := word_of cursor 1 in
        do% _ := call (fun s => (sys_mprotect s start 1 (PROT_READ + PROT_WRITE + PROT_EXEC + PROT_GROWSDOWN), ())) in
        interpret fuel' reset_at_base at_base fd (wrapw (cursor + 2 * w))
      else if action =? LOAD_ACTION_START_TRACED then load_start fuel true at_base fd cursor
      else if action =? LOAD_ACTION_START then load_start fuel false at_base fd cursor
      else FATAL
  end.

Definition _start (fuel : nat) (cursor : Z) : S -> S * out Empty_set := interpret fuel true 0 (wrapw (-1)) cursor.

End Loader.

(** ** From PRoot to the loader *)

Lemma script_words_even l : (zlen (script_words l) * 8) mod 16 = 0.
Proof.
  assert (H : exists q, zlen (script_words l) = 2 * q).
  { induction l as [|st l [q IH]]; [by exists 0|]. unfold script_words in *. rewrite fmap_cons. cbn [concat]. rewrite zlen_app, IH.
    assert (He : exists q, zlen (statement_words st) = 2 * q) by (destruct st; [by exists 1|by exists 1|by exists 3|by exists 3|by exists 1|by exists 4|by exists 4]).
    destruct He as [r ->]. exists (r + q). lia. }
  destruct H as [q ->]. replace (2 * q * 8) with (q * 16) by lia. by apply Z.mod_mul.
Qed.

Lemma convert_length is32 words : zlen (convert is32 words) = zlen words * 8.
Proof.
  pose proof (pod_array_length 8 words ltac:(lia)) as E8. pose proof (pod_array_length 4 words ltac:(lia)) as E4. unfold convert. destruct is32; [|done].
  rewrite zlen_app, E4. unfold zlen in *. rewrite length_drop. lia.
Qed.

Section Transferred.

Context {W Mem : Type} {TM : TraceeMemory Mem} {TS : TraceeStrings Mem} {MC : MemoryContents Mem}.
Context {ML : MemoryContentsLaws Mem TM TS MC} {MR : MemoryReadsLaws Mem TM MC}.

Abbreviation State := (SysState W Mem).
Abbreviation sp x := (peek_reg (x_regs x) CURRENT STACK_POINTER).

Lemma transfer_held traced page_size l buffer (x x' : State) : regs_ok (x_regs x) ->
  load_buffer traced (is_32on64_mode (x_regs x)) page_size (sp x) l = Ok buffer -> zlen buffer <= sp x ->
  transfer_load_script traced page_size l x = (x', Ok ()) ->
  let a := sp x - zlen buffer in
  x_me x' = x_me x /\ holds_at (x_mem x') (x_me x) a buffer
  /\ (forall b k, b + zlen k <= a \/ sp x <= b -> holds_at (x_mem x) (x_me x) b k -> holds_at (x_mem x') (x_me x) b k)
  /\ (forall version, version = CURRENT \/ version = ORIGINAL -> peek_reg (x_regs x') version STACK_POINTER = a /\ peek_reg (x_regs x') version USERARG_1 = a)
  /\ regs_were_changed (x_regs x') = true /\ is_aarch32 (x_regs x') = is_aarch32 (x_regs x).
Proof.
  intros Hg Hb Hn H a. pose proof (peek_reg_range (x_regs x) CURRENT STACK_POINTER Hg) as Hsp. pose proof (zlen_nonneg buffer).
  assert (Hbits : 2 ^ reg_bits (x_regs x) <= 2 ^ 64) by (unfold reg_bits; destruct (is_aarch32 _); lia).
  unfold transfer_load_script in H. hstep H x1 sp1. hstep H x2 w1. unfold word_size, hget in E. injection E as <- <-.
  hstep H x3 e. destruct e as [execfn e]. unfold SysArgs.peek_word, hget in E. injection E as <- _. hstep H x4 u. unfold hset in E. injection E as <- <-.
  hstep H x5 is32. cbn [set_flags x_regs] in H. hstep H x6 buf. unfold hlift in E. rewrite Hb in E. injection E as <- <-.
  hstep H x7 u1. unfold poke, hset in E. injection E as <- <-. hstep H x8 u2. unfold hset in E. injection E as <- <-. cbn [set_regs set_flags x_regs x_mem x_me] in *.
  hstep H x9 e1. unfold poke_data in E. cbn [set_regs set_flags x_regs x_mem x_me] in E. destruct (write_data _ _ _ _) as [m e2] eqn:Ew. injection E as <- <-.
  destruct e2 as [e2|]; [done|]. unfold hset in H. injection H as <-. cbn [set_regs set_mem set_flags x_regs x_mem x_me].
  assert (Ea : wrap64 (sp x - zlen buffer) = a) by (unfold wrap64; apply wrap_small; unfold a; lia). rewrite !Ea in *.
  assert (Hregs : forall g r, regs_ok g -> is_aarch32 g = is_aarch32 (x_regs x) -> peek_reg (poke_reg g r a) CURRENT r = a).
  { intros g r Hgg Hm. rewrite peek_poke_reg by done. unfold same_slot. rewrite Nat.eqb_refl. apply wrap_small. unfold reg_bits in *. rewrite Hm. unfold a. lia. }
  set (g1 := poke_reg (x_regs x) STACK_POINTER a) in *. set (g2 := poke_reg g1 USERARG_1 a) in *.
  assert (Hg1 : regs_ok g1) by (by apply poke_reg_ok). assert (Hm1 : is_aarch32 g1 = is_aarch32 (x_regs x)) by apply poke_reg_mode.
  assert (H1 : peek_reg g2 CURRENT USERARG_1 = a) by (by apply Hregs).
  assert (H2 : peek_reg g2 CURRENT STACK_POINTER = a) by (unfold g2; rewrite peek_poke_reg by done; cbn; by apply Hregs).
  split; [done|]. split; [by eapply written|]. split; [intros b k Hd Hk; eapply kept; [exact Ew|exact Hk|unfold a in *; lia]|].
  assert (Hc : forall v r, peek_reg (set_changed (save_current_regs g2 ORIGINAL) true) v r = peek_reg (save_current_regs g2 ORIGINAL) v r) by done.
  split; [|split; [done|]].
  - intros v Hv. rewrite !Hc, !save_current_regs_peek. case_decide; [done|]. by destruct Hv as [->|Hv].
  - change (is_aarch32 g2 = is_aarch32 (x_regs x)). unfold g2. by rewrite poke_reg_mode.
Qed.

End Transferred.

(** ** What the loader relies on *)

(** The bytes that are mapped, the rights of the addresses, the files that are
    open, and what paths name.  A system call changes no more than it documents;
    what mprotect(2) is used for never removes a right to read or write. *)
Class LoaderVmLaws (S : Type) (V : LoaderVm S) (w page_size : Z) (byte : S -> Z -> option Z) (prot : S -> Z -> Z)
    (file : S -> Z -> option (list Z)) (contents : cstr -> list Z) : Prop := {
  loads s a b : byte s a = Some b -> has_flag (prot s a) PROT_READ = true -> load_byte s a = Some b;
  stores s a b v : byte s a = Some b -> has_flag (prot s a) PROT_WRITE = true -> 0 <= v < 256 ->
    exists s', store_byte s a v = Some s' /\ (forall c, byte s' c = if c =? a then Some v else byte s c)
      /\ (forall c, prot s' c = prot s c) /\ (forall fd, file s' fd = file s fd);
  opens s a p s' fd : (forall k b, (p ++ [0]) !! k = Some b -> byte s (a + Z.of_nat k) = Some b) -> nul_free p -> sys_open s a = (s', fd) ->
    (forall c, byte s' c = byte s c) /\ (forall c, prot s' c = prot s c) /\ (0 <= sgn 32 fd -> file s' fd = Some (contents p));
  closes s fd s' r : sys_close s fd = (s', r) -> (forall c, byte s' c = byte s c) /\ (forall c, prot s' c = prot s c);
  maps_file s addr len pr fd off s' data : sys_mmap s addr len pr (MAP_PRIVATE + MAP_FIXED) fd off = (s', addr) -> file s fd = Some data ->
    addr mod page_size = 0 -> len mod page_size = 0 -> 0 < len ->
    (forall c, byte s' c = if (addr <=? c) && (c <? addr + len) then file_byte page_size data (Z.shiftl off (MMAP_OFFSET_SHIFT w) + (c - addr)) else byte s c)
    /\ (forall c, prot s' c = if (addr <=? c) && (c <? addr + len) then pr else prot s c) /\ (forall d, file s' d = file s d);
  maps_within s addr len pr flags fd off s' r : sys_mmap s addr len pr flags fd off = (s', r) ->
    forall c, c < addr \/ addr + len <= c -> byte s' c = byte s c /\ prot s' c = prot s c;
  maps_anon s addr len pr s' fd : sys_mmap s addr len pr (MAP_PRIVATE + MAP_FIXED + MAP_ANONYMOUS) fd 0 = (s', addr) ->
    addr mod page_size = 0 -> len mod page_size = 0 -> 0 < len ->
    (forall c, byte s' c = if (addr <=? c) && (c <? addr + len) then Some 0 else byte s c)
    /\ (forall c, prot s' c = if (addr <=? c) && (c <? addr + len) then pr else prot s c) /\ (forall d, file s' d = file s d);
  protects s a n : let s' := sys_mprotect s a n (PROT_READ + PROT_WRITE + PROT_EXEC + PROT_GROWSDOWN) in
    (forall c, byte s' c = byte s c) /\ (forall c, has_flag (prot s c) PROT_READ = true -> has_flag (prot s' c) PROT_READ = true)
    /\ (forall c, has_flag (prot s c) PROT_WRITE = true -> has_flag (prot s' c) PROT_WRITE = true) /\ (forall d, file s' d = file s d);
  names s a : let s' := sys_set_name s a in (forall c, byte s' c = byte s c) /\ (forall c, prot s' c = prot s c)
}.

Section Run.

Context {S : Type} {V : LoaderVm S} {w page_size : Z} {byte : S -> Z -> option Z} {prot : S -> Z -> Z}
  {file : S -> Z -> option (list Z)} {contents : cstr -> list Z} {VL : LoaderVmLaws S V w page_size byte prot file contents}.
Hypothesis Hw : w = 4 \/ w = 8.

Lemma word_range : 0 < w /\ 256 ^ w = 2 ^ (8 * w) /\ 2 ^ 32 <= 256 ^ w <= 2 ^ 64.
Proof. by destruct Hw as [-> | ->]. Qed.

Lemma wrapw_small a : 0 <= a < 256 ^ w -> wrapw w a = a.
Proof. intros Ha. unfold wrapw. apply wrap_small. by rewrite <- (proj1 (proj2 word_range)). Qed.

(** Bytes that can be read at an address. *)
Definition readable (s : S) (a : Z) (l : list Z) : Prop :=
  forall k b, l !! k = Some b -> byte s (a + Z.of_nat k) = Some b /\ has_flag (prot s (a + Z.of_nat k)) PROT_READ = true.
Definition writable (s : S) (a n : Z) : Prop :=
  forall c, a <= c < a + n -> has_flag (prot s c) PROT_WRITE = true /\ byte s c <> None.

Lemma readable_app s a l k : readable s a (l ++ k) <-> readable s a l /\ readable s (a + zlen l) k.
Proof. clear. unfold readable. split.
  - intros H. split; intros i b Hi; [apply H; by apply lookup_app_l_Some|]. specialize (H (length l + i)%nat b). rewrite lookup_app_r in H by lia.
    replace (length l + i - length l)%nat with i in H by lia. unfold zlen. replace (a + Z.of_nat (length l) + Z.of_nat i) with (a + Z.of_nat (length l + i)) by lia. by apply H.
  - intros [H1 H2] i b Hi. apply lookup_app_Some in Hi as [Hi|[Hle Hi]]; [by apply H1|]. specialize (H2 _ _ Hi). unfold zlen in H2.
    by replace (a + Z.of_nat (length l) + Z.of_nat (i - length l)) with (a + Z.of_nat i) in H2 by lia.
Qed.

Lemma load_bytes_held s l : forall a, readable s a l -> 0 <= a -> a + zlen l <= 256 ^ w -> load_bytes w (length l) a s = (s, Done l).
Proof.
  induction l as [|b l IH]; intros a Hr Ha Hn; [done|]. rewrite zlen_cons in Hn. pose proof (zlen_nonneg l). cbn [length load_bytes]. unfold lbind, load8.
  destruct (Hr 0%nat b eq_refl) as [Hb Hp]. rewrite Z.add_0_r in Hb, Hp. rewrite (loads _ _ _ Hb Hp).
  destruct l as [|c l]; [done|]. rewrite wrapw_small by (rewrite zlen_cons in Hn; pose proof (zlen_nonneg l); lia).
  rewrite IH; [done| |lia|lia]. apply (readable_app s a [b] (c :: l)) in Hr as [_ Hr]. exact Hr.
Qed.

Lemma load_word_held s a v : readable s a (to_le (Z.to_nat w) v) -> 0 <= v < 256 ^ w -> 0 <= a -> a + w <= 256 ^ w -> load_word w a s = (s, Done v).
Proof.
  intros Hr Hv Ha Hn. pose proof word_range. unfold load_word, lbind. pose proof (load_bytes_held s _ a Hr Ha) as E. rewrite length_to_le in E.
  rewrite E by (unfold zlen; rewrite length_to_le; lia). by rewrite of_le_to_le by (rewrite Z2Nat.id; lia).
Qed.

Lemma pod_lookup ws i v : ws !! i = Some v -> exists pre post, pod_array w ws = pre ++ to_le (Z.to_nat w) v ++ post /\ zlen pre = Z.of_nat i * w.
Proof.
  intros Hi. exists (pod_array w (take i ws)), (pod_array w (drop (Datatypes.S i) ws)). split.
  - rewrite <- (take_drop_middle ws i v Hi) at 1. by rewrite pod_array_app.
  - rewrite pod_array_length by (pose proof word_range; lia). unfold zlen. rewrite length_take. apply lookup_lt_Some in Hi. f_equal. lia.
Qed.

(** The words of the statement at a cursor. *)
Lemma word_of_held s cursor ws i v : readable s cursor (pod_array w ws) -> ws !! Z.to_nat i = Some v -> 0 <= i -> 0 <= v < 256 ^ w ->
  0 <= cursor -> cursor + zlen ws * w <= 256 ^ w -> word_of w cursor i s = (s, Done v).
Proof.
  intros Hr Hi Hi0 Hv Hc Hn. pose proof word_range. destruct (pod_lookup ws _ v Hi) as (pre & post & E & Hpre). rewrite E, !readable_app in Hr. destruct Hr as (_ & Hr & _).
  rewrite Z2Nat.id in Hpre by done. apply lookup_lt_Some in Hi. unfold zlen in Hn. assert (i + 1 <= Z.of_nat (length ws)) by lia. rewrite Hpre in Hr.
  unfold word_of. rewrite wrapw_small by nia. apply load_word_held; [done|done|lia|nia].
Qed.

Lemma store_bytes_held l : forall s a, writable s a (zlen l) -> Forall is_byte l -> 0 <= a -> a + zlen l <= 256 ^ w ->
  exists s', store_bytes w a l s = (s', Done ()) /\ (forall c, byte s' c = if (a <=? c) && (c <? a + zlen l) then l !! Z.to_nat (c - a) else byte s c)
    /\ (forall c, prot s' c = prot s c) /\ (forall fd, file s' fd = file s fd).
Proof.
  induction l as [|b l IH]; intros s a Hwr Hb Ha Hn.
  - exists s. split; [done|]. split; [|done]. intros c. change (zlen []) with 0. case_bool; [|done]. bool_facts. lia.
  - apply Forall_cons in Hb as [Hb Hl]. rewrite zlen_cons in *. pose proof (zlen_nonneg l). cbn [store_bytes].
    destruct (Hwr a ltac:(lia)) as [Hp Hx]. destruct (byte s a) as [b0|] eqn:E0; [|done]. destruct (stores s a b0 b E0 Hp Hb) as (s1 & E1 & B1 & P1 & F1). rewrite E1.
    assert (Hend : l = [] \/ a + 1 + zlen l <= 256 ^ w /\ wrapw w (a + 1) = a + 1).
    { destruct l as [|x l]; [by left|right]. rewrite zlen_cons in *. pose proof (zlen_nonneg l). split; [lia|]. apply wrapw_small. lia. }
    destruct Hend as [->|[Hn' Hwrap]].
    { exists s1. split; [done|]. split; [|done]. intros c. rewrite B1. change (zlen []) with 0. destruct (Z.eqb_spec c a) as [->|Hne].
      - rewrite (proj2 (Z.leb_le _ _)), (proj2 (Z.ltb_lt _ _)), Z.sub_diag by lia. done.
      - case_bool; [bool_facts; lia|done]. }
    destruct (IH s1 (a + 1)) as (s' & E' & B' & P' & F'); [|done|lia|lia|].
    { intros c Hc. rewrite P1, B1. destruct (Z.eqb_spec c a); [lia|]. apply Hwr. lia. }
    rewrite Hwrap. exists s'. split; [done|]. split; [|split; [intros c; by rewrite P'|intros fd; by rewrite F']]. intros c. rewrite B', B1.
    destruct (Z.eqb_spec c a) as [->|Hne].
    + rewrite (proj2 (Z.leb_gt (a + 1) a)), (proj2 (Z.leb_le a a)), (proj2 (Z.ltb_lt a (a + (1 + zlen l)))), Z.sub_diag by lia. done.
    + destruct (Z.leb_spec (a + 1) c), (Z.leb_spec a c); try lia; cbn [andb]; [|done]. replace (a + 1 + zlen l) with (a + (1 + zlen l)) by lia.
      case_bool; [|done]. replace (Z.to_nat (c - a)) with (Datatypes.S (Z.to_nat (c - (a + 1)))) by lia. done.
Qed.

(** Only the bytes of a range changed, they are null. *)
Definition zeroed (s s' : S) (a n : Z) : Prop :=
  (forall c, byte s' c = if (a <=? c) && (c <? a + n) then Some 0 else byte s c)
  /\ (forall c, prot s' c = prot s c) /\ (forall fd, file s' fd = file s fd).

Lemma zeroed_trans s s1 s2 a n m : 0 <= n -> 0 <= m -> zeroed s s1 a n -> zeroed s1 s2 (a + n) m -> zeroed s s2 a (n + m).
Proof.
  intros Hn Hm (B1 & P1 & F1) (B2 & P2 & F2). split; [|split; [intros c; by rewrite P2|intros fd; by rewrite F2]]. intros c. rewrite B2, B1.
  destruct (Z.leb_spec (a + n) c), (Z.ltb_spec c (a + n + m)), (Z.leb_spec a c), (Z.ltb_spec c (a + n)), (Z.ltb_spec c (a + (n + m))); try lia; done.
Qed.

Lemma zeroed_writable s s' a n b m : writable s b m -> zeroed s s' a n -> writable s' b m.
Proof. intros Hw' (B & P & _) c Hc. rewrite P, B. specialize (Hw' c Hc). split; [apply Hw'|]. case_bool; [done|apply Hw']. Qed.

Lemma zero_bytes_held n s a : writable s a (Z.of_nat n) -> 0 <= a -> a + Z.of_nat n <= 256 ^ w ->
  exists s', store_bytes w a (replicate n 0) s = (s', Done ()) /\ zeroed s s' a (Z.of_nat n).
Proof.
  intros Hs Ha Hn. assert (El : zlen (replicate n 0) = Z.of_nat n) by (unfold zlen; by rewrite length_replicate).
  destruct (store_bytes_held (replicate n 0) s a) as (s' & E & B & P & F); [by rewrite El|by apply Forall_replicate|done|by rewrite El|].
  exists s'. split; [done|]. split; [|done]. intros c. rewrite B, El. case_bool; [|done]. bool_facts. rewrite lookup_replicate_2; [done|lia].
Qed.

Lemma zero_words_held n : forall s a, writable s a (Z.of_nat n * w) -> 0 <= a -> a + Z.of_nat n * w < 256 ^ w ->
  exists s', zero_words w n a s = (s', Done ()) /\ zeroed s s' a (Z.of_nat n * w).
Proof.
  pose proof word_range. induction n as [|n IH]; intros s a Hs Ha Hn.
  - exists s. split; [done|]. split; [|done]. intros c. case_bool; [bool_facts; lia|done].
  - cbn [zero_words]. unfold lbind, store_word. assert (Ez : to_le (Z.to_nat w) 0 = replicate (Z.to_nat w) 0) by (by destruct Hw as [-> | ->]).
    destruct (zero_bytes_held (Z.to_nat w) s a) as (s1 & E1 & Z1); [intros c Hc; apply Hs; lia|done|lia|]. rewrite Ez, E1. rewrite Z2Nat.id in Z1 by lia.
    rewrite wrapw_small by lia. destruct (IH s1 (a + w)) as (s' & E' & Z'); [|lia|lia|].
    + eapply zeroed_writable; [|exact Z1]. intros c Hc. apply Hs. lia.
    + exists s'. split; [done|]. replace (Z.of_nat (Datatypes.S n) * w) with (w + Z.of_nat n * w) by lia. eapply zeroed_trans; [lia|lia|exact Z1|exact Z'].
Qed.

(** clear() clears a range when its end is aligned. *)
Lemma clear_held s start end_ : 0 <= start < end_ -> end_ < 256 ^ w -> end_ mod w = 0 -> writable s start (end_ - start) ->
  exists s', clear w start end_ s = (s', Done ()) /\ zeroed s s' start (end_ - start).
Proof.
  intros Hs He Hm Hwr. pose proof word_range. set (a := if start mod w =? 0 then start else wrapw w (start + w - start mod w)).
  assert (Ha : start <= a <= end_ /\ a mod w = 0).
  { pose proof (Z.mod_pos_bound start w ltac:(lia)). pose proof (Z.div_mod start w ltac:(lia)). pose proof (Z.div_mod end_ w ltac:(lia)). unfold a. case_bool; bool_facts; [lia|].
    assert (start / w < end_ / w) by nia. rewrite wrapw_small by nia. split; [nia|].
    replace (start + w - start mod w) with ((start / w + 1) * w) by nia. apply Z.mod_mul. lia. }
  destruct Ha as [Ha Ham]. assert (Hq : end_ - a = (end_ - a) / w * w) by (pose proof (Z.div_mod a w ltac:(lia)); pose proof (Z.div_mod end_ w ltac:(lia)); rewrite Ham, Hm in *;
    replace (end_ - a) with ((end_ / w - a / w) * w) by lia; by rewrite Z.div_mul by lia).
  assert (Hq0 : 0 <= (end_ - a) / w) by (apply Z.div_pos; lia).
  unfold clear. fold a. rewrite Hm, Z.sub_0_r, (wrapw_small end_) by lia. unfold lbind.
  destruct (zero_bytes_held (Z.to_nat (a - start)) s start) as (s1 & E1 & Z1); [intros c Hc; apply Hwr; lia|lia|lia|]. rewrite E1. rewrite Z2Nat.id in Z1 by lia.
  destruct (zero_words_held (Z.to_nat ((end_ - a) / w)) s1 a) as (s2 & E2 & Z2); [|lia|lia|].
  { eapply zeroed_writable; [|exact Z1]. intros c Hc. apply Hwr. lia. }
  rewrite E2. rewrite Z2Nat.id, <- Hq in Z2 by done. rewrite Z.sub_diag. cbn [Z.to_nat replicate store_bytes]. exists s2. split; [done|].
  replace (end_ - start) with (a - start + (end_ - a)) by lia. eapply zeroed_trans; [lia|lia|exact Z1|]. by replace (start + (a - start)) with a by lia.
Qed.

(** A region keeps its bytes and the rights on them. *)
Definition kept (lo hi : Z) (s s' : S) : Prop := forall c, lo <= c < hi ->
  byte s' c = byte s c /\ (has_flag (prot s c) PROT_READ = true -> has_flag (prot s' c) PROT_READ = true)
  /\ (has_flag (prot s c) PROT_WRITE = true -> has_flag (prot s' c) PROT_WRITE = true).

Lemma kept_refl lo hi s : kept lo hi s s.
Proof. by intros c Hc. Qed.

Lemma kept_trans lo hi s1 s2 s3 : kept lo hi s1 s2 -> kept lo hi s2 s3 -> kept lo hi s1 s3.
Proof. intros H1 H2 c Hc. destruct (H1 c Hc) as (B1 & R1 & W1), (H2 c Hc) as (B2 & R2 & W2). split; [by rewrite B2|]. split; auto. Qed.

Lemma kept_readable lo hi s s' a l : kept lo hi s s' -> lo <= a -> a + zlen l <= hi -> readable s a l -> readable s' a l.
Proof.
  intros Hk Ha Hn Hr k b Hkb. destruct (Hr k b Hkb) as [Hb Hp]. apply lookup_lt_Some in Hkb. unfold zlen in Hn.
  destruct (Hk (a + Z.of_nat k) ltac:(lia)) as (B & R & _). split; [by rewrite B|by apply R].
Qed.

Lemma same_kept lo hi s s' : (forall c, byte s' c = byte s c) -> (forall c, prot s' c = prot s c) -> kept lo hi s s'.
Proof. intros B P c Hc. by rewrite B, P. Qed.

(** ** Mappings *)

Record fits (m : Mapping) : Prop := {
  fit_words : Forall (fun v => 0 <= v < 256 ^ w) [m_addr m; m_length m; m_prot m; m_offset m; m_clear_length m];
  fit_end : m_addr m + m_length m < 256 ^ w
}.
(** What is cleared is mapped and can be written. *)
Definition clearable (data : list Z) (m : Mapping) : Prop := m_clear_length m <> 0 ->
  has_flag (m_prot m) PROT_WRITE = true
  /\ forall c, m_addr m + m_length m - m_clear_length m <= c < m_addr m + m_length m -> file_byte page_size data (m_offset m + (c - m_addr m)) <> None.
Definition away (lo hi : Z) (m : Mapping) : Prop := m_addr m + m_length m <= lo \/ hi <= m_addr m.

Definition map_statement (m : Mapping) : LoadStatement :=
  (if has_flag (m_flags m) MAP_ANONYMOUS then LOAD_MMAP_ANON else LOAD_MMAP_FILE) (m_addr m) (m_length m) (m_prot m) (m_offset m) (m_clear_length m).

(** The address of the object, taken from its first mapping of a file. *)
Definition next_base (base : bool * Z) (m : Mapping) : bool * Z :=
  if has_flag (m_flags m) MAP_ANONYMOUS then base else (false, if base.1 then m_addr m else base.2).

Hypothesis Hpage : page_ok page_size.
Hypothesis Hunit : page_size mod 2 ^ MMAP_OFFSET_SHIFT w = 0.

(** The words of a statement, as long as its region is kept. *)
Lemma words_kept lo hi s s' cursor ws i v : kept lo hi s s' -> readable s cursor (pod_array w ws) -> lo <= cursor -> 0 <= cursor ->
  cursor + zlen ws * w <= hi -> hi <= 256 ^ w -> Forall (fun v => 0 <= v < 256 ^ w) ws -> 0 <= i -> ws !! Z.to_nat i = Some v -> word_of w cursor i s' = (s', Done v).
Proof.
  intros Hk Hr Hlo Hc Hhi Hh Hf Hi Hv. rewrite Forall_lookup in Hf. pose proof (Hf _ _ Hv). pose proof word_range.
  eapply word_of_held; [|exact Hv|done|done|done|lia]. eapply kept_readable; [exact Hk|done| |done]. rewrite pod_array_length by lia. lia.
Qed.

Lemma page_word x : x mod page_size = 0 -> x mod w = 0.
Proof.
  intros Hx. pose proof word_range. pose proof (page_bounds _ Hpage). destruct Hpage as (k & Hk & E). rewrite E in Hx.
  assert (Hd : (w | 2 ^ k)).
  { replace k with (k - 3 + 3) by lia. rewrite Z.pow_add_r by lia. change (2 ^ 3) with 8. destruct Hw as [-> | ->]; [exists (2 ^ (k - 3) * 2); lia|by exists (2 ^ (k - 3))]. }
  apply Z.mod_divide in Hx; [|lia]. apply Z.mod_divide; [lia|]. by eapply Z.divide_trans.
Qed.

Lemma offset_units m : mapping_ok page_size m -> Z.shiftl (Z.shiftr (m_offset m) (MMAP_OFFSET_SHIFT w)) (MMAP_OFFSET_SHIFT w) = m_offset m.
Proof.
  intros [_ _ _ [Ho Hm] _]. assert (Hs : 0 <= MMAP_OFFSET_SHIFT w) by (unfold MMAP_OFFSET_SHIFT; case_bool; lia).
  assert (H2 : 0 < 2 ^ MMAP_OFFSET_SHIFT w) by (apply Z.pow_pos_nonneg; lia). pose proof (page_bounds _ Hpage).
  rewrite Z.shiftl_mul_pow2, Z.shiftr_div_pow2 by done. apply Z.mod_divide in Hm; [|lia]. apply Z.mod_divide in Hunit; [|lia].
  assert (Hd : (2 ^ MMAP_OFFSET_SHIFT w | m_offset m)) by (by eapply Z.divide_trans). apply Z.mod_divide in Hd; [|lia].
  pose proof (Z.div_mod (m_offset m) (2 ^ MMAP_OFFSET_SHIFT w)). lia.
Qed.

Lemma lbind_done {A B} (m : LM S A) (k : A -> LM S B) s s' a : m s = (s', Done a) -> lbind m k s = k a s'.
Proof. unfold lbind. by intros ->. Qed.

Lemma call_done {A B} (f : S -> S * A) (k : A -> LM S B) s s' a : f s = (s', a) -> lbind (call f) k s = k a s'.
Proof. unfold lbind, call. by intros ->. Qed.

(** The next word of the statement is read; [W] says that it is there. *)
Ltac read_word W s i v := rewrite (lbind_done _ _ _ _ _ (W s i v ltac:(eassumption || apply kept_refl) ltac:(done) ltac:(done))).

Lemma map_step {A} lo hi fuel m reset at_base fd cursor s data :
  mapping_ok page_size m -> fits m -> clearable data m -> away lo hi m -> file s fd = Some data ->
  readable s cursor (pod_array w (statement_words (map_statement m))) -> lo <= cursor -> 0 <= cursor -> cursor + 6 * w < hi -> hi <= 256 ^ w ->
  exists s', interpret (A := A) w (Datatypes.S fuel) reset at_base fd cursor s = (s', Ends (Exited 182))
    \/ file s' fd = Some data /\ kept lo hi s s' /\ (forall c, byte s' c = mapped page_size data m (byte s) c)
       /\ interpret (A := A) w (Datatypes.S fuel) reset at_base fd cursor s
          = let '(reset, at_base) := next_base (reset, at_base) m in interpret w fuel reset at_base fd (cursor + 6 * w) s'.
Proof.
  intros Hok Hfit Hclear Haway Hfile Hr Hlo Hc0 Hhi Hh. pose proof word_range. destruct Hfit as [Hfw Hfe].
  destruct (proj1 (Forall_cons _ _ _) Hfw) as [Ha Hfw1]. destruct (proj1 (Forall_cons _ _ _) Hfw1) as [Hl _].
  set (ws := statement_words (map_statement m)) in *.
  assert (Hws : ws = (if has_flag (m_flags m) MAP_ANONYMOUS then 3 else 2) :: [m_addr m; m_length m; m_prot m; m_offset m; m_clear_length m]) by (unfold ws, map_statement; by case_bool).
  assert (Hf6 : Forall (fun v => 0 <= v < 256 ^ w) ws) by (rewrite Hws; constructor; [case_bool; lia|exact Hfw]).
  assert (Hlen : zlen ws = 6) by (by rewrite Hws).
  assert (W : forall s1 i v, kept lo hi s s1 -> 0 <= i -> ws !! Z.to_nat i = Some v -> word_of w cursor i s1 = (s1, Done v)).
  { intros s1 i v Hk Hi Hv. eapply (words_kept lo hi s); try done. rewrite Hlen. lia. }
  assert (Hnext : wrapw w (cursor + 6 * w) = cursor + 6 * w) by (apply wrapw_small; lia).
  assert (Hout : forall pr flags fd' off s1 r, sys_mmap s (m_addr m) (m_length m) pr flags fd' off = (s1, r) -> kept lo hi s s1).
  { intros pr flags fd' off s1 r E c Hc. unfold away in Haway. by destruct (maps_within _ _ _ _ _ _ _ _ _ E c ltac:(lia)) as [-> ->]. }
  pose proof Hok as [[Ha0 Ham] (Hlp & Hlm & _) Hcl _ Hfl]. cbn [interpret]. rewrite (lbind_done _ _ _ _ _ (W s 0 _ (kept_refl _ _ _) ltac:(done) ltac:(by rewrite Hws))).
  destruct (has_flag (m_flags m) MAP_ANONYMOUS) eqn:Han;
    cbn [LOAD_ACTION_OPEN_NEXT LOAD_ACTION_OPEN LOAD_ACTION_MMAP_FILE LOAD_ACTION_MMAP_ANON Z.eqb Pos.eqb].
  - rewrite Hws in W. read_word W s 1 (m_addr m). read_word W s 2 (m_length m). read_word W s 3 (m_prot m).
    destruct (sys_mmap s (m_addr m) (m_length m) (m_prot m) (MAP_PRIVATE + MAP_FIXED + MAP_ANONYMOUS) (wrapw w (-1)) 0) as [s1 r] eqn:Em. rewrite (call_done _ _ _ _ _ Em).
    assert (Hc : m_clear_length m = 0) by (destruct Hfl as [Hfl|[_ Hfl]]; [by rewrite Hfl in Han|done]). pose proof (Hout _ _ _ _ _ _ Em) as Hk1.
    read_word W s1 1 (m_addr m). case_bool; [exists s1; by left|]. bool_facts. subst r. destruct (maps_anon _ _ _ _ _ _ Em Ham Hlm Hlp) as (B & P & F).
    exists s1. right. split; [by rewrite F|]. split; [done|]. split; [|unfold next_base; rewrite Han; by rewrite Hnext].
    intros c. rewrite B. unfold mapped. by rewrite Han.
  - rewrite Hws in W. read_word W s 1 (m_addr m). read_word W s 2 (m_length m). read_word W s 3 (m_prot m). read_word W s 4 (m_offset m).
    destruct (sys_mmap s (m_addr m) (m_length m) (m_prot m) (MAP_PRIVATE + MAP_FIXED) fd (Z.shiftr (m_offset m) (MMAP_OFFSET_SHIFT w))) as [s1 r] eqn:Em. rewrite (call_done _ _ _ _ _ Em).
    pose proof (Hout _ _ _ _ _ _ Em) as Hk1. read_word W s1 1 (m_addr m). case_bool; [exists s1; by left|]. bool_facts. subst r.
    destruct (maps_file _ _ _ _ _ _ _ _ Em Hfile Ham Hlm Hlp) as (B & P & F). rewrite offset_units in B by done. read_word W s1 5 (m_clear_length m).
    unfold next_base. rewrite Han. cbn [fst snd]. destruct (Z.eqb_spec (m_clear_length m) 0) as [Hc|Hc]; cbn [negb].
    + exists s1. right. split; [by rewrite F|]. split; [done|]. split; [|rewrite (lbind_done _ _ _ s1 ()) by done; by rewrite Hnext].
      intros c. rewrite B. unfold mapped. rewrite Han, Hc, Z.sub_0_r. cbn [orb]. case_bool; [|done]. bool_facts. by rewrite (proj2 (Z.leb_gt _ _)) by lia.
    + destruct (Hclear Hc) as [Hwp Hbytes].
      destruct (clear_held s1 (m_addr m + m_length m - m_clear_length m) (m_addr m + m_length m)) as (s2 & E2 & B2 & P2 & F2).
      { lia. } { lia. } { rewrite Z.add_mod, (page_word _ Ham), (page_word _ Hlm) by lia. apply Z.mod_0_l. lia. }
      { intros c Hc'. rewrite P, B. rewrite (proj2 (Z.leb_le _ _)), (proj2 (Z.ltb_lt _ _)) by lia. cbn [andb]. split; [done|]. apply Hbytes. lia. }
      exists s2. right. split; [by rewrite F2, F|]. split; [|split].
      * eapply kept_trans; [exact Hk1|]. intros c Hc'. rewrite P2, B2. split; [|done]. unfold away in Haway. case_bool; [bool_facts; lia|done].
      * intros c. rewrite B2, B. unfold mapped. rewrite Han. cbn [orb].
        replace (m_addr m + m_length m - m_clear_length m + (m_addr m + m_length m - (m_addr m + m_length m - m_clear_length m))) with (m_addr m + m_length m) by lia.
        destruct (Z.leb_spec (m_addr m + m_length m - m_clear_length m) c), (Z.ltb_spec c (m_addr m + m_length m)), (Z.leb_spec (m_addr m) c); cbn [andb]; try lia; done.
      * rewrite (lbind_done _ _ s1 s2 ()); [by rewrite Hnext|]. read_word W s1 2 (m_length m). rewrite !wrapw_small by lia. exact E2.
Qed.

Lemma image_ext data ms : forall f g, (forall c, f c = g c) -> forall c, image page_size data ms f c = image page_size data ms g c.
Proof.
  unfold image. induction ms as [|m ms IH]; intros f g H c; [apply H|]. cbn [fold_left]. apply IH. intros d. unfold mapped. by rewrite H.
Qed.

Section Region.

(** The script and the strings are in a region of memory that is kept. *)
Context (lo hi script_end : Z).
Hypothesis Hregion : 0 <= lo /\ script_end < hi /\ hi <= 256 ^ w.

Definition script_size (l : list LoadStatement) : Z := zlen (script_words l) * w.

Lemma script_size_cons st l : script_size (st :: l) = zlen (statement_words st) * w + script_size l.
Proof. unfold script_size, script_words. rewrite fmap_cons. cbn [concat]. rewrite zlen_app. lia. Qed.

Lemma script_size_nonneg l : 0 <= script_size l.
Proof. unfold script_size. pose proof (zlen_nonneg (script_words l)). pose proof word_range. lia. Qed.

Lemma script_cons s cursor st l : readable s cursor (pod_array w (script_words (st :: l))) ->
  readable s cursor (pod_array w (statement_words st)) /\ readable s (cursor + zlen (statement_words st) * w) (pod_array w (script_words l)).
Proof.
  unfold script_words. rewrite fmap_cons. cbn [concat]. rewrite pod_array_app, readable_app, pod_array_length by (pose proof word_range; lia). done.
Qed.

(** The end of a script is still there. *)
Lemma script_kept s s' cursor l : kept lo hi s s' -> lo <= cursor -> cursor + script_size l <= hi -> readable s cursor (pod_array w (script_words l)) ->
  readable s' cursor (pod_array w (script_words l)).
Proof. intros Hk Hc Hn Hr. eapply kept_readable; [exact Hk|done| |done]. rewrite pod_array_length by (pose proof word_range; lia). exact Hn. Qed.

Lemma run_mappings {A} ms : forall fuel reset at_base fd cursor s data rest,
  Forall (mapping_ok page_size) ms -> Forall fits ms -> Forall (clearable data) ms -> Forall (away lo hi) ms -> file s fd = Some data ->
  readable s cursor (pod_array w (script_words (transcript_mappings ms ++ rest))) -> lo <= cursor -> cursor + script_size (transcript_mappings ms ++ rest) <= script_end ->
  exists s', interpret (A := A) w (length ms + fuel) reset at_base fd cursor s = (s', Ends (Exited 182))
    \/ file s' fd = Some data /\ kept lo hi s s' /\ (forall c, byte s' c = image page_size data ms (byte s) c)
       /\ exists cursor', lo <= cursor' /\ cursor' + script_size rest <= script_end /\ readable s' cursor' (pod_array w (script_words rest))
          /\ interpret (A := A) w (length ms + fuel) reset at_base fd cursor s
             = let '(reset, at_base) := fold_left next_base ms (reset, at_base) in interpret w fuel reset at_base fd cursor' s'.
Proof.
  destruct Hregion as (Hlo0 & Hend & Hhi). pose proof word_range. induction ms as [|m ms IH]; intros fuel reset at_base fd cursor s data rest Hok Hfit Hclear Haway Hfile Hr Hc Hn.
  { exists s. right. split; [done|]. split; [apply kept_refl|]. split; [done|]. by exists cursor. }
  apply Forall_cons in Hok as [Hmok Hok]. apply Forall_cons in Hfit as [Hmfit Hfit]. apply Forall_cons in Hclear as [Hmclear Hclear]. apply Forall_cons in Haway as [Hmaway Haway].
  assert (E6 : zlen (statement_words (map_statement m)) = 6) by (unfold map_statement; by case_bool).
  change (transcript_mappings (m :: ms) ++ rest) with (map_statement m :: transcript_mappings ms ++ rest) in *. rewrite script_size_cons, E6 in Hn. apply script_cons in Hr as [Hr1 Hr2]. rewrite E6 in Hr2.
  pose proof (script_size_nonneg (transcript_mappings ms ++ rest)).
  destruct (map_step (A := A) lo hi (length ms + fuel) m reset at_base fd cursor s data Hmok Hmfit Hmclear Hmaway Hfile Hr1 Hc ltac:(lia) ltac:(lia) Hhi) as (s1 & [Hf|(F1 & K1 & B1 & E1)]).
  { exists s1. by left. }
  destruct (next_base (reset, at_base) m) as [reset1 base1] eqn:En.
  destruct (IH fuel reset1 base1 fd (cursor + 6 * w) s1 data rest Hok Hfit Hclear Haway F1) as (s' & [Hf|(F' & K' & B' & cursor' & C1 & C2 & C3 & E')]); [|lia|lia| |].
  - eapply script_kept; [exact K1|lia|lia|done].
  - exists s'. left. cbn [length Nat.add]. by rewrite E1.
  - exists s'. right. split; [done|]. split; [by eapply kept_trans|]. split.
    + intros c. rewrite B'. unfold image at 2. cbn [fold_left]. by apply image_ext.
    + exists cursor'. split; [done|]. split; [done|]. split; [done|]. cbn [length Nat.add fold_left]. rewrite E1, En. exact E'.
Qed.

(** A file is opened, and the one before is closed. *)
Lemma run_open {A} (next : bool) fuel reset at_base fd a cursor s p rest : let st := if next then LOAD_OPEN_NEXT a else LOAD_OPEN a in
  readable s cursor (pod_array w (script_words (st :: rest))) -> lo <= cursor -> cursor + script_size (st :: rest) <= script_end -> 0 <= a < 256 ^ w ->
  readable s a (p ++ [0]) -> lo <= a -> a + zlen p + 1 <= hi -> nul_free p ->
  exists s', interpret (A := A) w (Datatypes.S fuel) reset at_base fd cursor s = (s', Ends (Exited 182))
    \/ exists fd', file s' fd' = Some (contents p) /\ kept lo hi s s' /\ (forall c, byte s' c = byte s c)
       /\ lo <= cursor + 2 * w /\ cursor + 2 * w + script_size rest <= script_end /\ readable s' (cursor + 2 * w) (pod_array w (script_words rest))
       /\ interpret (A := A) w (Datatypes.S fuel) reset at_base fd cursor s = interpret w fuel true at_base fd' (cursor + 2 * w) s'.
Proof.
  intros st Hr Hc Hn Ha Hp Hpa Hpn Hnul. destruct Hregion as (Hlo0 & Hend & Hhi). pose proof word_range. pose proof (script_size_nonneg rest).
  assert (Ews : statement_words st = [if next then 0 else 1; a]) by (unfold st; by destruct next).
  rewrite script_size_cons, Ews in Hn. change (zlen [_; _]) with 2 in Hn. apply script_cons in Hr as [Hr1 Hr2]. rewrite Ews in Hr1, Hr2. change (zlen [_; _]) with 2 in Hr2.
  assert (W : forall s1 i v, kept lo hi s s1 -> 0 <= i -> [if next then 0 else 1; a] !! Z.to_nat i = Some v -> word_of w cursor i s1 = (s1, Done v)).
  { intros s1 i v Hk Hi Hv. eapply (words_kept lo hi s); try done; [lia|change (zlen [_; _]) with 2; lia|]. constructor; [destruct next; lia|]. constructor; [lia|constructor]. }
  assert (Hnext : wrapw w (cursor + 2 * w) = cursor + 2 * w) by (apply wrapw_small; lia).
  assert (Hopen : forall s1, kept lo hi s s1 -> (forall c, byte s1 c = byte s c) -> exists s',
    (do% address := word_of w cursor 1 in do% fd := call (fun s => sys_open s address) in
     if sgn 32 fd <? 0 then FATAL else interpret (A := A) w fuel true at_base fd (wrapw w (cursor + 2 * w))) s1 = (s', Ends (Exited 182))
    \/ exists fd', file s' fd' = Some (contents p) /\ kept lo hi s s' /\ (forall c, byte s' c = byte s c)
       /\ (do% address := word_of w cursor 1 in do% fd := call (fun s => sys_open s address) in
     if sgn 32 fd <? 0 then FATAL else interpret (A := A) w fuel true at_base fd (wrapw w (cursor + 2 * w))) s1 = interpret w fuel true at_base fd' (cursor + 2 * w) s').
  { intros s1 K1 B1. read_word W s1 1 a. destruct (sys_open s1 a) as [s2 fd'] eqn:Eo. rewrite (call_done _ _ _ _ _ Eo).
    destruct (opens s1 a p s2 fd') as (B2 & P2 & F2); [|done|done|].
    { intros k b Hk. rewrite B1. by apply Hp. }
    destruct (Z.ltb_spec (sgn 32 fd') 0) as [Hneg|Hpos]; [exists s2; by left|]. exists s2. right. exists fd'. split; [by apply F2|]. rewrite Hnext.
    split; [|split; [intros c; by rewrite B2|done]]. eapply kept_trans; [exact K1|]. by apply same_kept. }
  assert (Hfin : forall s', kept lo hi s s' -> lo <= cursor + 2 * w /\ cursor + 2 * w + script_size rest <= script_end /\ readable s' (cursor + 2 * w) (pod_array w (script_words rest))).
  { intros s' K. split; [lia|]. split; [lia|]. eapply script_kept; [exact K|lia|lia|done]. }
  cbn [interpret]. destruct next.
  - read_word W s 0 0. cbn [LOAD_ACTION_OPEN_NEXT Z.eqb]. destruct (sys_close s fd) as [s1 r] eqn:Ec. rewrite (call_done _ _ _ _ _ Ec).
    destruct (closes _ _ _ _ Ec) as [B1 P1]. case_bool; [exists s1; by left|].
    destruct (Hopen s1 ltac:(by apply same_kept) B1) as (s' & [E|(fd' & F & K & B & E)]); [exists s'; by left|]. exists s'. right. exists fd'. destruct (Hfin s' K) as (? & ? & ?). by split_and!.
  - read_word W s 0 1. cbn [LOAD_ACTION_OPEN_NEXT LOAD_ACTION_OPEN Z.eqb Pos.eqb].
    destruct (Hopen s (kept_refl _ _ _) ltac:(done)) as (s' & [E|(fd' & F & K & B & E)]); [exists s'; by left|]. exists s'. right. exists fd'. destruct (Hfin s' K) as (? & ? & ?). by split_and!.
Qed.

(** The stack is made executable. *)
Lemma run_protect {A} fuel reset at_base fd a cursor s rest :
  readable s cursor (pod_array w (script_words (LOAD_MAKE_STACK_EXEC a :: rest))) -> lo <= cursor -> cursor + script_size (LOAD_MAKE_STACK_EXEC a :: rest) <= script_end -> 0 <= a < 256 ^ w ->
  exists s', kept lo hi s s' /\ (forall c, byte s' c = byte s c)
    /\ lo <= cursor + 2 * w /\ cursor + 2 * w + script_size rest <= script_end /\ readable s' (cursor + 2 * w) (pod_array w (script_words rest))
    /\ interpret (A := A) w (Datatypes.S fuel) reset at_base fd cursor s = interpret w fuel reset at_base fd (cursor + 2 * w) s'.
Proof.
  intros Hr Hc Hn Ha. destruct Hregion as (Hlo0 & Hend & Hhi). pose proof word_range. pose proof (script_size_nonneg rest).
  rewrite script_size_cons in Hn. apply script_cons in Hr as [Hr1 Hr2]. cbn [statement_words] in Hn, Hr1, Hr2. change (zlen [_; _]) with 2 in Hn, Hr2.
  assert (W : forall s1 i v, kept lo hi s s1 -> 0 <= i -> [4; a] !! Z.to_nat i = Some v -> word_of w cursor i s1 = (s1, Done v)).
  { intros s1 i v Hk Hi Hv. eapply (words_kept lo hi s); try done; [lia|change (zlen [_; _]) with 2; lia|]. unfold LOAD_ACTION_MAKE_STACK_EXEC. constructor; [lia|]. constructor; [lia|constructor]. }
  destruct (protects s a 1) as (B & R & P & F). set (s' := sys_mprotect s a 1 _) in *.
  assert (K : kept lo hi s s') by (intros c _; by rewrite B; auto). exists s'. split; [done|]. split; [done|]. split; [lia|]. split; [lia|]. split; [eapply script_kept; [exact K|lia|lia|done]|].
  cbn [interpret]. read_word W s 0 4. cbn [LOAD_ACTION_OPEN_NEXT LOAD_ACTION_OPEN LOAD_ACTION_MMAP_FILE LOAD_ACTION_MMAP_ANON LOAD_ACTION_MAKE_STACK_EXEC Z.eqb Pos.eqb].
  read_word W s 1 a. rewrite (call_done _ _ _ s' ()) by done. by rewrite wrapw_small by lia.
Qed.

End Region.

(** ** The stack of the program *)

(** What execve(2) leaves there: argc, argv[], envp[] and the auxiliary vectors. *)
Definition flat (vectors : list (Z * Z)) : list Z := concat ((fun '(type, value) => [type; value]) <$> vectors).
Definition stack_words (argv envp : list Z) (vectors : list (Z * Z)) : list Z :=
  zlen argv :: argv ++ 0 :: envp ++ 0 :: flat vectors ++ [AT_NULL].
Definition vectors_address (sp : Z) (argv envp : list Z) : Z := sp + (zlen argv + zlen envp + 3) * w.

Definition word_ok (v : Z) : Prop := 0 <= v < 256 ^ w.

(** The value the loader gives to a vector. *)
Definition adjusted (start : StartStatement) (at_base execfn : Z) (v : Z * Z) : Z * Z :=
  let '(type, value) := v in
  (type, if type =? AT_PHDR then at_phdr start else if type =? AT_PHENT then at_phent start else if type =? AT_PHNUM then at_phnum start
         else if type =? AT_ENTRY then at_entry start else if type =? AT_BASE then at_base else if type =? AT_EXECFN then execfn else value).

Lemma flat_length l : zlen (flat l) = 2 * zlen l.
Proof. induction l as [|[t v] l IH]; [done|]. change (flat ((t, v) :: l)) with (t :: v :: flat l). rewrite !zlen_cons, IH. lia. Qed.

Lemma pod_cons v l : pod_array w (v :: l) = to_le (Z.to_nat w) v ++ pod_array w l.
Proof. done. Qed.

Lemma zlen_word v : zlen (to_le (Z.to_nat w) v) = w.
Proof. pose proof word_range. unfold zlen. rewrite length_to_le. lia. Qed.

Lemma readable_cons s a v l : readable s a (pod_array w (v :: l)) <-> readable s a (to_le (Z.to_nat w) v) /\ readable s (a + w) (pod_array w l).
Proof. by rewrite pod_cons, readable_app, zlen_word. Qed.

Lemma store_word_held s a v : writable s a w -> 0 <= a -> a + w <= 256 ^ w ->
  exists s', store_word w a v s = (s', Done ()) /\ (forall c, byte s' c = if (a <=? c) && (c <? a + w) then to_le (Z.to_nat w) v !! Z.to_nat (c - a) else byte s c)
    /\ (forall c, prot s' c = prot s c).
Proof.
  intros Hs Ha Hn. destruct (store_bytes_held (to_le (Z.to_nat w) v) s a) as (s' & E & B & P & _); [by rewrite zlen_word|apply to_le_bytes|done|by rewrite zlen_word|].
  rewrite zlen_word in B. by exists s'.
Qed.

Lemma skip_env_held envp : forall fuel c s, readable s (c + w) (pod_array w (envp ++ [0])) -> Forall (fun v => word_ok v /\ v <> 0) envp ->
  0 <= c -> c + (zlen envp + 2) * w <= 256 ^ w -> (length envp < fuel)%nat -> skip_env w fuel c s = (s, Done (c + (zlen envp + 1) * w)).
Proof.
  pose proof word_range. induction envp as [|v envp IH]; intros fuel c s Hr Hv Hc Hn Hf; (destruct fuel as [|fuel]; [cbn in Hf; lia|]); cbn [skip_env app] in *.
  - change (zlen []) with 0 in *. rewrite wrapw_small by lia. apply readable_cons in Hr as [Hr _]. rewrite (lbind_done _ _ _ _ _ (load_word_held s (c + w) 0 Hr ltac:(lia) ltac:(lia) ltac:(lia))).
    cbn [Z.eqb]. unfold lret. do 2 f_equal. lia.
  - rewrite zlen_cons in *. pose proof (zlen_nonneg envp). apply Forall_cons in Hv as [[Hv0 Hv1] Hv]. apply readable_cons in Hr as [Hr1 Hr2]. rewrite wrapw_small by lia.
    rewrite (lbind_done _ _ _ _ _ (load_word_held s (c + w) v Hr1 Hv0 ltac:(lia) ltac:(lia))). rewrite (proj2 (Z.eqb_neq v 0)) by done. cbn [length] in Hf. rewrite IH; [|done|done|lia|lia|lia].
    do 2 f_equal. lia.
Qed.

Section Vectors.

Context (start : StartStatement) (action at_base execfn cursor : Z).
Hypothesis Hstart : Forall word_ok (action :: start_words start) /\ word_ok at_base /\ word_ok execfn.
Hypothesis Hcursor : 0 <= cursor.

Lemma start_word s i v : readable s cursor (pod_array w (action :: start_words start)) -> cursor + 8 * w <= 256 ^ w -> 0 <= i ->
  (action :: start_words start) !! Z.to_nat i = Some v -> word_of w cursor i s = (s, Done v).
Proof.
  intros Hr Hn Hi Hv. destruct Hstart as [Hf _]. rewrite Forall_lookup in Hf. eapply word_of_held; [exact Hr|exact Hv|done|by eapply Hf|done|exact Hn].
Qed.

Lemma adjust_vector_held s c type value : readable s cursor (pod_array w (action :: start_words start)) -> cursor + 8 * w <= c -> c + 2 * w <= 256 ^ w ->
  readable s c (to_le (Z.to_nat w) type) -> readable s (c + w) (to_le (Z.to_nat w) value) -> word_ok type -> writable s (c + w) w ->
  exists s', adjust_vector w cursor at_base execfn c s = (s', Done ())
    /\ (forall x, byte s' x = if (c + w <=? x) && (x <? c + 2 * w) then to_le (Z.to_nat w) (adjusted start at_base execfn (type, value)).2 !! Z.to_nat (x - (c + w)) else byte s x)
    /\ (forall x, prot s' x = prot s x).
Proof.
  intros Hr Hcc Hn Ht Hv Hty Hwr. pose proof word_range. unfold adjust_vector. rewrite (lbind_done _ _ _ _ _ (load_word_held s c type Ht Hty ltac:(lia) ltac:(lia))).
  assert (Hset : forall v, exists s', store_word w (wrapw w (c + w)) v s = (s', Done ())
    /\ (forall x, byte s' x = if (c + w <=? x) && (x <? c + 2 * w) then to_le (Z.to_nat w) v !! Z.to_nat (x - (c + w)) else byte s x) /\ (forall x, prot s' x = prot s x)).
  { intros v. rewrite wrapw_small by lia. destruct (store_word_held s (c + w) v Hwr ltac:(lia) ltac:(lia)) as (s' & E & B & P). exists s'. split; [done|]. split; [|done].
    intros x. rewrite B. by replace (c + w + w) with (c + 2 * w) by lia. }
  assert (Hword : forall i v, 0 <= i -> (action :: start_words start) !! Z.to_nat i = Some v -> word_of w cursor i s = (s, Done v)) by (intros i v Hi E; apply start_word; [done|lia|done|done]).
  unfold adjusted. cbn [snd].
  repeat (case_bool; [first [apply Hset|erewrite lbind_done by (apply Hword; done); apply Hset]|]).
  exists s. split; [done|]. split; [|done]. intros x. case_bool; [|done]. bool_facts. destruct (lookup_lt_is_Some_2 (to_le (Z.to_nat w) value) (Z.to_nat (x - (c + w)))) as [b Eb].
  { rewrite length_to_le. lia. }
  rewrite Eb. destruct (Hv _ _ Eb) as [<- _]. f_equal. lia.
Qed.

Lemma readable_same s s' a l : readable s a l -> (forall x, a <= x < a + zlen l -> byte s' x = byte s x /\ prot s' x = prot s x) -> readable s' a l.
Proof.
  intros Hr Hs k b Hk. destruct (Hr k b Hk) as [Hb Hp]. apply lookup_lt_Some in Hk. unfold zlen in Hs. destruct (Hs (a + Z.of_nat k) ltac:(lia)) as [-> ->]. done.
Qed.

Lemma adjust_vectors_held vectors : forall fuel c s, vectors <> [] -> (length vectors <= fuel)%nat ->
  Forall (fun '(type, value) => word_ok type /\ type <> AT_NULL) vectors ->
  readable s cursor (pod_array w (action :: start_words start)) -> cursor + 8 * w <= c -> c + (2 * zlen vectors + 1) * w <= 256 ^ w ->
  readable s c (pod_array w (flat vectors ++ [AT_NULL])) -> writable s c (2 * zlen vectors * w) ->
  exists s', adjust_vectors w fuel cursor at_base execfn c s = (s', Done ())
    /\ readable s' c (pod_array w (flat (adjusted start at_base execfn <$> vectors)))
    /\ (forall x, x < c \/ c + 2 * zlen vectors * w <= x -> byte s' x = byte s x) /\ (forall x, prot s' x = prot s x).
Proof.
  pose proof word_range. induction vectors as [|[type value] vectors IH]; intros fuel c s Hne Hf Hty Hr Hcc Hn Hv Hwr; [done|]. destruct fuel as [|fuel]; [cbn in Hf; lia|].
  apply Forall_cons in Hty as [[Hty Hnz] Htys]. rewrite zlen_cons in *. pose proof (zlen_nonneg vectors).
  change (flat ((type, value) :: vectors) ++ [AT_NULL]) with (type :: value :: flat vectors ++ [AT_NULL]) in Hv. apply readable_cons in Hv as [Hv1 Hv]. apply readable_cons in Hv as [Hv2 Hv].
  destruct (adjust_vector_held s c type value Hr Hcc ltac:(lia) Hv1 Hv2 Hty) as (s1 & E1 & B1 & P1); [intros x Hx; apply Hwr; lia|].
  set (value' := (adjusted start at_base execfn (type, value)).2) in *. cbn [adjust_vectors]. rewrite (lbind_done _ _ _ _ _ E1), wrapw_small by lia.
  assert (Hlow : forall a l, readable s a l -> a + zlen l <= c + w \/ c + 2 * w <= a -> readable s1 a l).
  { intros a l Hal Hd. eapply readable_same; [exact Hal|]. intros x Hx. rewrite B1. split; [|done]. case_bool; [bool_facts; lia|done]. }
  assert (Hnew : readable s1 (c + w) (to_le (Z.to_nat w) value')).
  { intros k b Ek. pose proof (lookup_lt_Some _ _ _ Ek) as Hlt. rewrite length_to_le in Hlt. rewrite B1, P1. rewrite (proj2 (Z.leb_le _ _)), (proj2 (Z.ltb_lt _ _)) by lia. cbn [andb].
    replace (Z.to_nat (c + w + Z.of_nat k - (c + w))) with k by lia. split; [done|]. destruct (lookup_lt_is_Some_2 (to_le (Z.to_nat w) value) k) as [b' Eb']; [by rewrite length_to_le|]. by destruct (Hv2 _ _ Eb'). }
  replace (c + w + w) with (c + 2 * w) in Hv by lia. apply Hlow in Hv; [|lia]. apply Hlow in Hv1; [|rewrite zlen_word; lia].
  assert (Hr1 : readable s1 cursor (pod_array w (action :: start_words start))) by (apply Hlow; [done|]; rewrite pod_array_length by lia; change (zlen (action :: start_words start)) with 8; lia).
  destruct vectors as [|[type' value''] vectors].
  - cbn [flat fmap list_fmap concat app] in Hv. apply readable_cons in Hv as [Hv _]. change (zlen []) with 0 in *.
    rewrite (lbind_done _ _ _ _ _ (load_word_held s1 (c + 2 * w) AT_NULL Hv ltac:(unfold AT_NULL; lia) ltac:(lia) ltac:(lia))). exists s1. split; [done|]. split; [|split; [|done]].
    + rewrite list_fmap_singleton. replace (adjusted start at_base execfn (type, value)) with (type, value') by done. change (flat [(type, value')]) with [type; value'].
      rewrite !readable_cons. split; [done|]. split; [done|]. by intros k b Hk.
    + intros x Hx. rewrite B1. case_bool; [bool_facts; lia|done].
  - pose proof (proj1 (proj1 (Forall_cons _ _ _) Htys)) as [Hty' Hnz'].
    assert (Hv1' : readable s1 (c + 2 * w) (to_le (Z.to_nat w) type')).
    { change (flat ((type', value'') :: vectors) ++ [AT_NULL]) with (type' :: value'' :: flat vectors ++ [AT_NULL]) in Hv. by apply readable_cons in Hv as [Hv _]. }
    rewrite (lbind_done _ _ _ _ _ (load_word_held s1 (c + 2 * w) type' Hv1' Hty' ltac:(lia) ltac:(lia))). rewrite (proj2 (Z.eqb_neq type' _)) by done.
    destruct (IH fuel (c + 2 * w) s1) as (s' & E' & R' & B' & P'); [done|cbn [length] in *; lia|done|done|lia|lia|done| |].
    { intros x Hx. rewrite P1, B1. split; [apply Hwr; lia|]. case_bool; [bool_facts; lia|apply Hwr; lia]. }
    exists s'. split; [done|]. split; [|split; [|intros x; by rewrite P']].
    + rewrite fmap_cons. replace (adjusted start at_base execfn (type, value)) with (type, value') by done.
      change (flat ((type, value') :: ?l)) with (type :: value' :: flat l). rewrite !readable_cons.
      assert (Hbefore : forall a l, readable s1 a l -> a + zlen l <= c + 2 * w -> readable s' a l) by (intros a l Hal Hd; eapply readable_same; [exact Hal|]; intros x Hx; rewrite B' by lia; done).
      split; [apply Hbefore; [done|rewrite zlen_word; lia]|]. split; [apply Hbefore; [done|rewrite zlen_word; lia]|]. by replace (c + w + w) with (c + 2 * w) by lia.
    + intros x Hx. rewrite B' by lia. rewrite B1. case_bool; [bool_facts; lia|done].
Qed.

End Vectors.

(** ** The name of the program *)

Lemma load8_held s a l k b : readable s a l -> l !! k = Some b -> load8 (a + Z.of_nat k) s = (s, Done b).
Proof. intros Hr Hk. destruct (Hr k b Hk) as [Hb Hp]. unfold load8. by rewrite (loads _ _ _ Hb Hp). Qed.

Lemma end_of_string_held p : forall fuel c s, readable s c (p ++ [0]) -> nul_free p -> 0 <= c -> c + zlen p + 1 <= 256 ^ w -> (length p < fuel)%nat ->
  end_of_string w fuel c s = (s, Done (c + zlen p)).
Proof.
  induction p as [|b p IH]; intros fuel c s Hr Hp Hc Hn Hf; (destruct fuel as [|fuel]; [cbn in Hf; lia|]); cbn [end_of_string].
  - pose proof (load8_held s c _ 0 0 Hr eq_refl) as E. rewrite Z.add_0_r in E. rewrite (lbind_done _ _ _ _ _ E). change (zlen []) with 0. by rewrite Z.add_0_r.
  - rewrite zlen_cons in *. pose proof (zlen_nonneg p). apply Forall_cons in Hp as [Hb Hp]. pose proof (load8_held s c _ 0 b Hr eq_refl) as E. rewrite Z.add_0_r in E.
    rewrite (lbind_done _ _ _ _ _ E), (proj2 (Z.eqb_neq b 0)), wrapw_small by (done || lia). apply (readable_app s c [b] (p ++ [0])) in Hr as [_ Hr]. change (zlen [b]) with 1 in Hr.
    cbn [length] in Hf. rewrite IH; [|done|done|lia|lia|lia]. do 2 f_equal. lia.
Qed.

Definition no_slash (l : list Z) : Prop := Forall (fun b => b <> SLASH) l.

Lemma last_slash_skip pre tail : forall s string, readable s string (pre ++ tail) -> no_slash tail -> tail <> [] ->
  last_slash (length (pre ++ tail) - 1) (string + zlen (pre ++ tail) - 1) s
  = match pre with [] => (s, Done string) | _ => last_slash (length pre - 1) (string + zlen pre - 1) s end.
Proof.
  induction tail as [|x tail IH] using rev_ind; intros s string Hr Ht Hne; [done|]. apply Forall_app in Ht as [Ht Hx]. apply Forall_inv in Hx.
  rewrite app_assoc in *. set (l := pre ++ tail) in *. assert (El : length (l ++ [x]) = (length l + 1)%nat) by (by rewrite length_app). unfold zlen at 1. rewrite El.
  replace (length l + 1 - 1)%nat with (length l) by lia. replace (string + Z.of_nat (length l + 1) - 1) with (string + Z.of_nat (length l)) by lia.
  assert (E : load8 (string + Z.of_nat (length l)) s = (s, Done x)) by (eapply load8_held; [exact Hr|]; by rewrite lookup_app_r, Nat.sub_diag by done).
  assert (Estep : last_slash (length l) (string + Z.of_nat (length l)) s
    = match length l with O => (s, Done (string + Z.of_nat (length l))) | Datatypes.S n => last_slash n (string + Z.of_nat (length l) - 1) s end).
  { destruct (length l); cbn [last_slash]; rewrite (lbind_done _ _ _ _ _ E), (proj2 (Z.eqb_neq x SLASH)) by done; done. }
  rewrite Estep. destruct (decide (tail = [])) as [->|Htail].
  - unfold l. rewrite app_nil_r. destruct pre as [|b pre]; [by rewrite Z.add_0_r|]. unfold zlen. cbn [length]. by replace (Datatypes.S (length pre) - 1)%nat with (length pre) by lia.
  - apply readable_app in Hr as [Hr _]. specialize (IH s string Hr Ht Htail). fold l in IH. unfold zlen in IH at 1. rewrite <- IH.
    destruct (length l) as [|n] eqn:En; [unfold l in En; rewrite length_app in En; destruct tail; [done|cbn in En; lia]|]. by replace (Datatypes.S n - 1)%nat with n by lia.
Qed.

(** basename() gives the last component, except for a path whose only slash is the
    first character. *)
Definition name_offset (dir : list Z) (slash : bool) : Z := if slash then (if (length dir =? 0)%nat then 0 else zlen dir + 1) else 0.

Lemma basename_held fuel s string dir (slash : bool) base : (slash = false -> dir = []) -> no_slash base -> nul_free dir -> nul_free base ->
  let p := dir ++ (if slash then [SLASH] else []) ++ base in
  readable s string (p ++ [0]) -> 0 <= string -> string + zlen p + 1 <= 256 ^ w -> (length p < fuel)%nat ->
  basename w fuel string s = (s, Done (string + name_offset dir slash)).
Proof.
  intros Hd Hb Hnd Hnb p Hr Hs Hn Hf. assert (Hp : nul_free p) by (unfold p; apply Forall_app; split; [done|]; apply Forall_app; split; [destruct slash; by repeat constructor|done]).
  unfold basename. rewrite (lbind_done _ _ _ _ _ (end_of_string_held p fuel string s Hr Hp Hs Hn Hf)).
  assert (E : last_slash (Z.to_nat (string + zlen p - string)) (string + zlen p) s = (s, Done (string + zlen dir))).
  { set (pre := dir ++ (if slash then [SLASH] else [])). assert (Epre : p ++ [0] = pre ++ (base ++ [0])) by (unfold p, pre; by rewrite <- !app_assoc).
    assert (Ht : no_slash (base ++ [0])) by (apply Forall_app; split; [done|by repeat constructor]).
    pose proof (last_slash_skip pre (base ++ [0]) s string) as H. rewrite <- Epre in H. specialize (H Hr Ht ltac:(by destruct base)).
    rewrite length_app, zlen_app in H. change (zlen [0]) with 1 in H. change (length [0]) with 1%nat in H. replace (length p + 1 - 1)%nat with (length p) in H by lia.
    replace (string + (zlen p + 1) - 1) with (string + zlen p) in H by lia. replace (Z.to_nat (string + zlen p - string)) with (length p) by (unfold zlen; lia). rewrite H.
    destruct slash; [|unfold pre; rewrite (Hd eq_refl); cbn [app]; change (zlen []) with 0; by rewrite Z.add_0_r].
    destruct pre as [|c pre'] eqn:Ep; [by destruct dir|]. rewrite <- Ep. unfold pre in Ep |- *. rewrite length_app, zlen_app. cbn [length]. change (zlen [SLASH]) with 1.
    replace (length dir + 1 - 1)%nat with (length dir) by lia. replace (string + (zlen dir + 1) - 1) with (string + zlen dir) by lia.
    assert (E1 : load8 (string + zlen dir) s = (s, Done SLASH)).
    { eapply load8_held; [exact Hr|]. unfold p. rewrite <- !app_assoc, lookup_app_r, Nat.sub_diag by done. done. }
    destruct (length dir); cbn [last_slash]; by rewrite (lbind_done _ _ _ _ _ E1). }
  rewrite (lbind_done _ _ _ _ _ E). unfold lret, name_offset. pose proof (zlen_nonneg dir). assert (Hlp : zlen dir <= zlen p) by (unfold p; rewrite zlen_app; pose proof (zlen_nonneg ((if slash then [SLASH] else []) ++ base)); lia).
  destruct slash.
  - destruct dir as [|c dir]; [change (zlen []) with 0; cbn [length Nat.eqb]; by rewrite !Z.add_0_r, Z.eqb_refl|]. rewrite zlen_cons in *. pose proof (zlen_nonneg dir). rewrite (proj2 (Z.eqb_neq _ _)) by lia.
    rewrite wrapw_small; [cbn [length Nat.eqb]; do 2 f_equal; lia|]. unfold p in Hn. rewrite !zlen_app in Hn. change (zlen [SLASH]) with 1 in Hn. rewrite zlen_cons in Hn. pose proof (zlen_nonneg base). lia.
  - rewrite (Hd eq_refl). change (zlen []) with 0. by rewrite !Z.add_0_r, Z.eqb_refl.
Qed.

Lemma split_base (p : list Z) : exists dir slash base, (slash = false -> dir = []) /\ no_slash base /\ p = dir ++ (if slash : bool then [SLASH] else []) ++ base.
Proof.
  induction p as [|b p IH] using rev_ind; [exists [], false, []; by repeat split; try apply Forall_nil_2|]. destruct IH as (dir & slash & base & Hd & Hb & E). destruct (Z.eq_dec b SLASH) as [->|Hne].
  - exists p, true, []. split; [done|]. split; [constructor|done].
  - exists dir, slash, (base ++ [b]). split; [done|]. split; [apply Forall_app; split; [done|by constructor]|]. rewrite E at 1. by rewrite <- !app_assoc.
Qed.

(** ** The start *)

Lemma load_start_held {A} fuel (traced : bool) action start at_base fd cursor s argv envp vectors p :
  Forall word_ok (action :: start_words start) -> word_ok at_base -> Forall word_ok argv -> zlen argv < 256 ^ w ->
  Forall (fun v => word_ok v /\ v <> 0) envp -> Forall (fun '(type, value) => word_ok type /\ type <> AT_NULL) vectors -> vectors <> [] ->
  (length envp < fuel)%nat -> (length vectors <= fuel)%nat -> (length p < fuel)%nat ->
  0 <= cursor -> cursor + 8 * w <= stack_pointer start -> readable s cursor (pod_array w (action :: start_words start)) ->
  stack_pointer start + zlen (stack_words argv envp vectors) * w <= 256 ^ w -> readable s (stack_pointer start) (pod_array w (stack_words argv envp vectors)) ->
  writable s (vectors_address (stack_pointer start) argv envp) (2 * zlen vectors * w) ->
  0 <= at_execfn start -> at_execfn start + zlen p + 1 <= stack_pointer start -> readable s (at_execfn start) (p ++ [0]) -> nul_free p ->
  exists s', load_start (A := A) w fuel traced at_base fd cursor s = (s', Ends (Exited 182))
    \/ load_start (A := A) w fuel traced at_base fd cursor s
         = (s', Ends (if traced then Execve [1; stack_pointer start; entry_point start; 2; 3; 4] else Branch (stack_pointer start) (entry_point start)))
       /\ readable s' (vectors_address (stack_pointer start) argv envp) (pod_array w (flat (adjusted start at_base (nth 0 argv 0) <$> vectors)))
       /\ forall x, x < vectors_address (stack_pointer start) argv envp \/ vectors_address (stack_pointer start) argv envp + 2 * zlen vectors * w <= x -> byte s' x = byte s x.
Proof.
  intros Hst Hbase Hargv Hargc Henvp Hvec Hne Hf1 Hf2 Hf3 Hc0 Hcs Hr Hn Hstack Hwr Hs3 Hn3 Hp Hnul. pose proof word_range.
  set (sp := stack_pointer start) in *. set (va := vectors_address sp argv envp) in *. pose proof (zlen_nonneg argv). pose proof (zlen_nonneg envp). pose proof (zlen_nonneg vectors).
  assert (Hlen : zlen (stack_words argv envp vectors) = zlen argv + zlen envp + 2 * zlen vectors + 4).
  { unfold stack_words. rewrite zlen_cons, zlen_app, zlen_cons, zlen_app, zlen_cons, zlen_app, flat_length. change (zlen [AT_NULL]) with 1. lia. }
  rewrite Hlen in Hn. pose proof Hstack as Hstack0. unfold stack_words in Hstack. apply readable_cons in Hstack as [Hargc_r Hstack].
  rewrite pod_array_app, readable_app, pod_array_length in Hstack by lia. destruct Hstack as [Hargv_r Hstack]. apply readable_cons in Hstack as [_ Hstack].
  assert (Hexec : load_word w (wrapw w (sp + w)) s = (s, Done (nth 0 argv 0))).
  { rewrite wrapw_small by lia. apply readable_cons in Hstack0 as [_ Hfirst]. destruct argv as [|a argv]; cbn [app nth] in *; apply readable_cons in Hfirst as [Hfirst _]; apply load_word_held; try done; try lia. by apply Forall_inv in Hargv. }
  assert (Hw8 : forall s1, readable s1 cursor (pod_array w (action :: start_words start)) -> forall i v, 0 <= i -> (action :: start_words start) !! Z.to_nat i = Some v -> word_of w cursor i s1 = (s1, Done v)).
  { intros s1 Hr1 i v Hi Hv. eapply (start_word start action 0 0); [|exact Hc0|exact Hr1|lia|done|done]. split; [done|]. split; unfold word_ok; lia. }
  unfold load_start. rewrite (lbind_done _ _ _ _ _ (Hw8 s Hr 1 sp ltac:(done) eq_refl)).
  rewrite (lbind_done _ _ _ _ _ (load_word_held s sp (zlen argv) Hargc_r ltac:(lia) ltac:(lia) ltac:(lia))), (lbind_done _ _ _ _ _ Hexec).
  destruct (sys_close s fd) as [s1 r] eqn:Ec. rewrite (call_done _ _ _ _ _ Ec). destruct (closes _ _ _ _ Ec) as [B1 P1]. case_bool; [exists s1; by left|].
  assert (Hsame : forall a l, readable s a l -> readable s1 a l) by (intros a l Hal; eapply readable_same; [exact Hal|by intros x _]).
  change (envp ++ 0 :: flat vectors ++ [AT_NULL]) with (envp ++ [0] ++ (flat vectors ++ [AT_NULL])) in Hstack. rewrite app_assoc, pod_array_app, readable_app, pod_array_length, zlen_app in Hstack by lia.
  change (zlen [0]) with 1 in Hstack. destruct Hstack as [Henv_r Hvec_r].
  rewrite (wrapw_small (sp + (zlen argv + 1) * w)) by nia.
  rewrite (lbind_done _ _ s1 s1 (sp + (zlen argv + 1) * w + (zlen envp + 1) * w)).
  2: { apply skip_env_held; [|done|nia|nia|done]. apply Hsame. by replace (sp + (zlen argv + 1) * w + w) with (sp + w + zlen argv * w + w) by lia. }
  replace (sp + (zlen argv + 1) * w + (zlen envp + 1) * w + w) with va by (unfold va, vectors_address; lia).
  assert (Hva : sp <= va /\ va + (2 * zlen vectors + 1) * w <= 256 ^ w) by (unfold va, vectors_address; nia). rewrite (wrapw_small va) by nia.
  destruct (adjust_vectors_held start action at_base (nth 0 argv 0) cursor) with (vectors := vectors) (fuel := fuel) (c := va) (s := s1) as (s2 & E2 & R2 & B2 & P2); try done; try lia.
  { split; [done|]. split; [done|]. destruct argv as [|a argv]; [cbn; unfold word_ok; lia|]. by apply Forall_inv in Hargv. }
  { by apply Hsame. }
  { apply Hsame. by replace va with (sp + w + zlen argv * w + w + (zlen envp + 1) * w) by (unfold va, vectors_address; lia). }
  { intros x Hx. rewrite P1, B1. by apply Hwr. }
  rewrite (lbind_done _ _ _ _ _ E2).
  assert (Hlow : forall a l, readable s a l -> a + zlen l <= sp -> readable s2 a l).
  { intros a l Hal Hd. eapply readable_same; [by apply Hsame|]. intros x Hx. rewrite B2 by lia. done. }
  assert (Hr2 : readable s2 cursor (pod_array w (action :: start_words start))) by (apply Hlow; [done|]; rewrite pod_array_length by lia; change (zlen (action :: start_words start)) with 8; lia).
  rewrite (lbind_done _ _ _ _ _ (Hw8 s2 Hr2 7 (at_execfn start) ltac:(done) eq_refl)).
  destruct (split_base p) as (dir & slash & base & Hd & Hns & Ep). assert (Hnn : nul_free dir /\ nul_free base) by (unfold nul_free in Hnul; rewrite Ep, !Forall_app in Hnul; by destruct Hnul as (? & _ & ?)).
  rewrite (lbind_done _ _ s2 s2 (at_execfn start + name_offset dir slash)).
  2: { subst p. apply (basename_held fuel s2 (at_execfn start) dir slash base); try done; try apply Hnn; try lia. apply Hlow; [done|]. rewrite zlen_app. change (zlen [0]) with 1. lia. }
  destruct (names s2 (at_execfn start + name_offset dir slash)) as [B3 P3]. set (s3 := sys_set_name s2 _) in *. rewrite (call_done _ _ s2 s3 ()) by done.
  assert (Hr3 : readable s3 cursor (pod_array w (action :: start_words start))) by (eapply readable_same; [exact Hr2|by intros x _]).
  rewrite (lbind_done _ _ _ _ _ (Hw8 s3 Hr3 1 sp ltac:(done) eq_refl)), (lbind_done _ _ _ _ _ (Hw8 s3 Hr3 2 (entry_point start) ltac:(done) eq_refl)).
  exists s3. right. split; [done|]. split; [eapply readable_same; [exact R2|by intros x _]|]. intros x Hx. by rewrite B3, B2, B1.
Qed.

(** ** The script of a program *)

(** The memory once an object is loaded, and its interpreter. *)
Definition object_image (o : LoadObject) (memory : Z -> option Z) : Z -> option Z := image page_size (contents (o_user_path o)) (mappings o) memory.
Definition program_image (l : LoadInfo) (memory : Z -> option Z) : Z -> option Z :=
  match interp l with None => object_image (object l) memory | Some i => object_image i (object_image (object l) memory) end.

(** AT_BASE: the address of the last object. *)
Definition object_base (o : LoadObject) (at_base : Z) : Z := (fold_left next_base (mappings o) (true, at_base)).2.
Definition program_base (l : LoadInfo) : Z :=
  match interp l with None => object_base (object l) 0 | Some i => object_base i (object_base (object l) 0) end.

(** What is asked of an object: its mappings are as add_mapping() makes them, are
    away from the stack and fit in the address space. *)
Record loadable (lo hi : Z) (o : LoadObject) : Prop := {
  ld_ok : Forall (mapping_ok page_size) (mappings o);
  ld_fits : Forall fits (mappings o);
  ld_clear : Forall (clearable (contents (o_user_path o))) (mappings o);
  ld_away : Forall (away lo hi) (mappings o);
  ld_path : nul_free (o_user_path o)
}.

Lemma object_base_ok o at_base : Forall fits (mappings o) -> word_ok at_base -> word_ok (object_base o at_base).
Proof.
  unfold object_base. generalize true. intros reset. revert reset at_base. induction (mappings o) as [|m ms IH]; intros reset at_base Hf Hb; [done|].
  apply Forall_cons in Hf as [Hm Hf]. cbn [fold_left]. unfold next_base at 2. case_bool; [by apply IH|]. cbn [fst snd]. apply IH; [done|].
  destruct reset; [|done]. destruct Hm as [Hm _]. by apply Forall_inv in Hm.
Qed.

Section Script.

Context (lo hi script_end : Z).
Hypothesis Hregion : 0 <= lo /\ script_end < hi /\ hi <= 256 ^ w.

(** An object is opened, then mapped. *)
Lemma run_object {A} (next : bool) fuel reset at_base fd cursor s a o rest : loadable lo hi o -> 0 <= a < 256 ^ w ->
  let st := if next then LOAD_OPEN_NEXT a else LOAD_OPEN a in
  readable s cursor (pod_array w (script_words (st :: transcript_mappings (mappings o) ++ rest))) -> lo <= cursor -> cursor + script_size (st :: transcript_mappings (mappings o) ++ rest) <= script_end ->
  readable s a (o_user_path o ++ [0]) -> lo <= a -> a + zlen (o_user_path o) + 1 <= hi ->
  let n := Datatypes.S (length (mappings o) + fuel) in
  exists s', interpret (A := A) w n reset at_base fd cursor s = (s', Ends (Exited 182))
    \/ kept lo hi s s' /\ (forall c, byte s' c = object_image o (byte s) c)
       /\ exists fd' reset' cursor', lo <= cursor' /\ cursor' + script_size rest <= script_end /\ readable s' cursor' (pod_array w (script_words rest))
          /\ interpret (A := A) w n reset at_base fd cursor s = interpret w fuel reset' (object_base o at_base) fd' cursor' s'.
Proof.
  intros [L1 L2 L3 L4 L5] Ha st Hr Hc Hn Hp Hpa Hpn n. unfold n.
  destruct (run_open (A := A) lo hi script_end Hregion next (length (mappings o) + fuel) reset at_base fd a cursor s (o_user_path o) (transcript_mappings (mappings o) ++ rest)) as (s1 & [E|(fd1 & F1 & K1 & B1 & C1 & C2 & C3 & E1)]); try done.
  { exists s1. by left. }
  destruct (run_mappings (A := A) lo hi script_end Hregion (mappings o) fuel true at_base fd1 (cursor + 2 * w) s1 (contents (o_user_path o)) rest) as (s' & [E|(F' & K' & B' & cursor' & D1 & D2 & D3 & E')]); try done.
  { exists s'. left. by rewrite E1. }
  exists s'. right. split; [by eapply kept_trans|]. split; [intros c; rewrite B'; by apply image_ext|].
  unfold object_base. destruct (fold_left next_base (mappings o) (true, at_base)) as [reset' base']. exists fd1, reset', cursor'. split; [done|]. split; [done|]. split; [done|]. by rewrite E1.
Qed.

Definition start_of (sp string3 : Z) (l : LoadInfo) : StartStatement :=
  let h := elf_header (object l) in
  mkStart sp (final_entry l) (wrap64 (e_phoff h + match mappings (object l) with [] => 0 | m :: _ => m_addr m end)) (e_phentsize h) (e_phnum h) (e_entry h) string3.

(** The end of the script. *)
Lemma run_end fuel (traced : bool) reset at_base fd cursor s sp string3 l p argv envp vectors :
  let start := start_of sp string3 l in
  let rest := (if wants_executable_stack l then [LOAD_MAKE_STACK_EXEC (page_of page_size sp)] else []) ++ [if traced then LOAD_START_TRACED start else LOAD_START start] in
  Forall word_ok (script_words rest) -> word_ok at_base -> Forall word_ok argv -> zlen argv < 256 ^ w ->
  Forall (fun v => word_ok v /\ v <> 0) envp -> Forall (fun '(type, value) => word_ok type /\ type <> AT_NULL) vectors -> vectors <> [] ->
  (length envp < fuel)%nat -> (length vectors < fuel)%nat -> (length p < fuel)%nat ->
  lo <= cursor -> script_end <= string3 -> cursor + script_size rest <= script_end -> readable s cursor (pod_array w (script_words rest)) ->
  sp + zlen (stack_words argv envp vectors) * w <= hi -> readable s sp (pod_array w (stack_words argv envp vectors)) ->
  writable s (vectors_address sp argv envp) (2 * zlen vectors * w) ->
  string3 + zlen p + 1 <= sp -> readable s string3 (p ++ [0]) -> nul_free p ->
  exists s', interpret (A := Empty_set) w (Datatypes.S fuel) reset at_base fd cursor s = (s', Ends (Exited 182))
    \/ interpret (A := Empty_set) w (Datatypes.S fuel) reset at_base fd cursor s = (s', Ends (if traced then Execve [1; sp; final_entry l; 2; 3; 4] else Branch sp (final_entry l)))
       /\ readable s' (vectors_address sp argv envp) (pod_array w (flat (adjusted start at_base (nth 0 argv 0) <$> vectors)))
       /\ forall x, x < vectors_address sp argv envp \/ vectors_address sp argv envp + 2 * zlen vectors * w <= x -> byte s' x = byte s x.
Proof.
  intros start rest Hok Hbase Hargv Hargc Henvp Hvec Hne Hf1 Hf2 Hf3 Hc Hend3 Hn Hr Hstk Hstack Hwr Hn3 Hp Hnul. destruct Hregion as (Hlo0 & Hend & Hhi). pose proof word_range.
  pose proof (zlen_nonneg p). pose proof (zlen_nonneg (stack_words argv envp vectors)).
  set (action := if traced then LOAD_ACTION_START_TRACED else LOAD_ACTION_START). set (st := if traced then LOAD_START_TRACED start else LOAD_START start) in *.
  assert (Est : script_words [st] = action :: start_words start) by (unfold st, action; by destruct traced).
  assert (Esz : script_size [st] = 8 * w) by (unfold script_size; by rewrite Est).
  assert (Hgo : forall f cursor s1, (fuel <= f)%nat -> kept lo hi s s1 -> (forall c, byte s1 c = byte s c) -> lo <= cursor -> cursor + 8 * w <= script_end -> readable s1 cursor (pod_array w (script_words [st])) ->
    Forall word_ok (script_words [st]) -> exists s', interpret (A := Empty_set) w f reset at_base fd cursor s1 = (s', Ends (Exited 182))
    \/ interpret (A := Empty_set) w f reset at_base fd cursor s1 = (s', Ends (if traced then Execve [1; sp; final_entry l; 2; 3; 4] else Branch sp (final_entry l)))
       /\ readable s' (vectors_address sp argv envp) (pod_array w (flat (adjusted start at_base (nth 0 argv 0) <$> vectors)))
       /\ forall x, x < vectors_address sp argv envp \/ vectors_address sp argv envp + 2 * zlen vectors * w <= x -> byte s' x = byte s x).
  { intros f c1 s1 Hf K B Hc1 Hn1 Hr1 Hok1. rewrite Est in Hr1, Hok1. pose proof (zlen_nonneg argv). pose proof (zlen_nonneg envp). pose proof (zlen_nonneg vectors).
    assert (Hlen : zlen (stack_words argv envp vectors) = zlen argv + zlen envp + 2 * zlen vectors + 4).
    { unfold stack_words. rewrite zlen_cons, zlen_app, zlen_cons, zlen_app, zlen_cons, zlen_app, flat_length. change (zlen [AT_NULL]) with 1. lia. }
    assert (Estep : interpret (A := Empty_set) w f reset at_base fd c1 s1 = load_start w f traced at_base fd c1 s1).
    { destruct f as [|f]; [lia|]. cbn [interpret]. rewrite (lbind_done _ _ s1 s1 action); [by unfold action; destruct traced|].
      eapply word_of_held; [exact Hr1|done|done|by apply Forall_inv in Hok1|lia|]. change (zlen (action :: start_words start)) with 8. lia. }
    destruct (load_start_held (A := Empty_set) f traced action start at_base fd c1 s1 argv envp vectors p) as (s' & [E|(E & R & B')]); try done; try lia; cbn [stack_pointer at_execfn start start_of] in *; try lia.
    - eapply kept_readable; [exact K|lia| |done]. rewrite pod_array_length by lia. lia.
    - intros x Hx. destruct (K x) as (B1 & _ & W1); [unfold vectors_address in Hx; nia|]. destruct (Hwr x Hx) as [W2 B2]. split; [by apply W1|by rewrite B1].
    - eapply kept_readable; [exact K|lia| |done]. rewrite zlen_app. change (zlen [0]) with 1. lia.
    - exists s'. left. by rewrite Estep.
    - exists s'. right. rewrite Estep. split; [done|]. split; [done|]. intros x Hx. by rewrite B', B. }
  unfold rest in *. destruct (wants_executable_stack l); cbn [app] in *.
  - rewrite script_size_cons in Hn. cbn [statement_words] in Hn. change (zlen [_; _]) with 2 in Hn. rewrite Esz in Hn.
    assert (Ha : word_ok (page_of page_size sp)) by (unfold script_words in Hok; cbn in Hok; apply Forall_cons in Hok as [_ Hok]; by apply Forall_inv in Hok).
    destruct (run_protect (A := Empty_set) lo hi script_end Hregion fuel reset at_base fd (page_of page_size sp) cursor s [st]) as (s1 & K1 & B1 & C1 & C2 & C3 & E1); try done.
    { rewrite script_size_cons, Esz. cbn [statement_words]. change (zlen [_; _]) with 2. lia. }
    rewrite E1. apply Hgo; try done; try lia. unfold script_words in Hok |- *. cbn [fmap list_fmap concat] in Hok |- *. by apply Forall_app in Hok as [_ Hok].
  - rewrite Esz in Hn. apply Hgo; try done; try lia.
Qed.

(** What the loader leaves: the program starts with its segments and those of its
    interpreter in memory, and the auxiliary vectors that describe it. *)
Definition started (traced : bool) (sp : Z) (l : LoadInfo) (argv envp : list Z) (vectors : list (Z * Z)) (s : S) (r : S * out Empty_set) : Prop :=
  let address := vectors_address sp argv envp in
  r.2 = Ends (if traced then Execve [1; sp; final_entry l; 2; 3; 4] else Branch sp (final_entry l))
  /\ readable r.1 address (pod_array w (flat (adjusted (start_of sp 0 l) (program_base l) (nth 0 argv 0) <$> vectors)))
  /\ forall x, x < address \/ address + 2 * zlen vectors * w <= x -> byte r.1 x = program_image l (byte s) x.

(** What the stack has when the loader starts. *)
Record stack_ready (s : S) (sp : Z) (argv envp : list Z) (vectors : list (Z * Z)) : Prop := {
  sr_argv : Forall word_ok argv /\ zlen argv < 256 ^ w;
  sr_envp : Forall (fun v => word_ok v /\ v <> 0) envp;
  sr_vectors : Forall (fun '(type, value) => word_ok type /\ type <> AT_NULL) vectors /\ vectors <> [];
  sr_stack : sp + zlen (stack_words argv envp vectors) * w <= hi;
  sr_held : readable s sp (pod_array w (stack_words argv envp vectors));
  sr_writable : writable s (vectors_address sp argv envp) (2 * zlen vectors * w)
}.

Lemma stack_ready_kept s s' sp argv envp vectors : lo <= sp -> kept lo hi s s' -> stack_ready s sp argv envp vectors -> stack_ready s' sp argv envp vectors.
Proof.
  intros Hsp K [H1 H2 H3 H4 H5 H6]. pose proof word_range. split; try done.
  - eapply kept_readable; [exact K|done| |done]. rewrite pod_array_length by lia. lia.
  - pose proof (zlen_nonneg argv). pose proof (zlen_nonneg envp). pose proof (zlen_nonneg vectors).
    assert (Hlen : zlen (stack_words argv envp vectors) = zlen argv + zlen envp + 2 * zlen vectors + 4).
    { unfold stack_words. rewrite zlen_cons, zlen_app, zlen_cons, zlen_app, zlen_cons, zlen_app, flat_length. change (zlen [AT_NULL]) with 1. lia. }
    intros x Hx. destruct (K x) as (B & _ & W); [unfold vectors_address in Hx; nia|]. destruct (H6 x Hx) as [W6 B6]. split; [by apply W|by rewrite B].
Qed.

Lemma script_words_app l k : script_words (l ++ k) = script_words l ++ script_words k.
Proof. unfold script_words. by rewrite fmap_app, concat_app. Qed.

Lemma script_started fuel traced l sp string1 string2 string3 script s cursor argv envp vectors p3 :
  load_script traced page_size sp string1 string2 string3 l = Ok script -> Forall word_ok (script_words script) ->
  loadable lo hi (object l) -> match interp l with None => True | Some i => loadable lo hi i end ->
  readable s cursor (pod_array w (script_words script)) -> lo <= cursor -> cursor + script_size script <= script_end ->
  script_end <= string1 -> string1 + zlen (o_user_path (object l)) + 1 <= sp -> readable s string1 (o_user_path (object l) ++ [0]) ->
  match interp l with None => True | Some i => script_end <= string2 /\ string2 + zlen (o_user_path i) + 1 <= sp /\ readable s string2 (o_user_path i ++ [0]) end ->
  script_end <= string3 -> string3 + zlen p3 + 1 <= sp -> readable s string3 (p3 ++ [0]) -> nul_free p3 ->
  stack_ready s sp argv envp vectors ->
  (length script + length envp + length vectors + length p3 < fuel)%nat ->
  let r := _start w fuel cursor s in r.2 = Ends (Exited 182) \/ started traced sp l argv envp vectors s r.
Proof.
  intros Hscript Hok Hl1 Hl2 Hr Hc Hn H11 H12 H13 H2 H31 H32 H33 H34 Hready Hf r. subst r. destruct Hregion as (Hlo0 & Hend & Hhi). pose proof word_range as Hwr.
  pose proof (zlen_nonneg p3). pose proof (zlen_nonneg (o_user_path (object l))). pose proof (script_size_nonneg script) as Hsz.
  assert (Hlo1 : lo <= string1) by lia. assert (Hsph : sp <= hi) by (pose proof (sr_stack _ _ _ _ _ Hready); pose proof (zlen_nonneg (stack_words argv envp vectors)); nia).
  set (start := start_of sp string3 l) in *. unfold load_script in Hscript.
  set (rest := (if wants_executable_stack l then [LOAD_MAKE_STACK_EXEC (page_of page_size sp)] else []) ++ [if traced then LOAD_START_TRACED start else LOAD_START start]).
  set (middle := match interp l with None => [] | Some i => LOAD_OPEN_NEXT string2 :: transcript_mappings (mappings i) end).
  assert (E : script = LOAD_OPEN string1 :: transcript_mappings (mappings (object l)) ++ middle ++ rest) by (unfold rest, start, start_of; destruct (mappings (object l)); [done|by injection Hscript as <-]).
  clear Hscript. subst script. change (script_words (LOAD_OPEN string1 :: ?k)) with ([LOAD_ACTION_OPEN; string1] ++ script_words k) in Hok. rewrite !script_words_app in Hok.
  apply Forall_app in Hok as [Ho1 Hok]. apply Forall_app in Hok as [_ Hok]. apply Forall_app in Hok as [Hom Hor].
  assert (Hs1 : word_ok string1) by (apply Forall_cons in Ho1 as [_ Ho1]; by apply Forall_inv in Ho1).
  assert (Hlr : (1 <= length rest)%nat) by (unfold rest; rewrite length_app; cbn; lia).
  assert (Hlt : forall ms, length (transcript_mappings ms) = length ms) by (intros ms; unfold transcript_mappings; by rewrite length_fmap).
  cbn [length] in Hf. rewrite !length_app, Hlt in Hf. set (o := object l) in *. unfold _start.
  assert (Hfuel : exists f1, fuel = Datatypes.S (length (mappings o) + f1) /\ (length middle + length rest + length envp + length vectors + length p3 < f1)%nat) by (exists (fuel - length (mappings o) - 1)%nat; lia).
  destruct Hfuel as (f1 & -> & Hf1).
  assert (Hfinish : forall f s' at_base reset fd cursor', (length rest + length envp + length vectors + length p3 < f)%nat -> kept lo hi s s' -> word_ok at_base ->
    lo <= cursor' -> cursor' + script_size rest <= script_end -> readable s' cursor' (pod_array w (script_words rest)) -> exists s2,
    interpret (A := Empty_set) w f reset at_base fd cursor' s' = (s2, Ends (Exited 182))
    \/ interpret (A := Empty_set) w f reset at_base fd cursor' s' = (s2, Ends (if traced then Execve [1; sp; final_entry l; 2; 3; 4] else Branch sp (final_entry l)))
       /\ readable s2 (vectors_address sp argv envp) (pod_array w (flat (adjusted start at_base (nth 0 argv 0) <$> vectors)))
       /\ forall x, x < vectors_address sp argv envp \/ vectors_address sp argv envp + 2 * zlen vectors * w <= x -> byte s2 x = byte s' x).
  { intros f s' at_base reset fd cursor' Hf' K Hb C1 C2 C3. destruct f as [|f]; [lia|]. destruct (stack_ready_kept s s' sp argv envp vectors ltac:(lia) K Hready) as [[A1 A2] A3 [A4 A5] A6 A7 A8].
    apply (run_end f traced reset at_base fd cursor' s' sp string3 l p3 argv envp vectors); try done; try lia.
    eapply kept_readable; [exact K|lia| |done]. rewrite zlen_app. change (zlen [0]) with 1. lia. }
  destruct (run_object (A := Empty_set) false f1 true 0 (wrapw w (-1)) cursor s string1 o (middle ++ rest) Hl1 Hs1) as (s1 & [E1|(K1 & B1 & fd1 & reset1 & c1 & C1 & C2 & C3 & E1)]); try done; try lia.
  { left. by rewrite E1. }
  rewrite E1. assert (Hb1 : word_ok (object_base o 0)) by (apply object_base_ok; [apply Hl1|unfold word_ok; lia]).
  unfold started, program_image, program_base. fold start o. unfold middle in *. destruct (interp l) as [i|].
  - destruct H2 as (H21 & H22 & H23). pose proof (zlen_nonneg (o_user_path i)).
    assert (Hs2 : word_ok string2) by (change (script_words (LOAD_OPEN_NEXT string2 :: ?k)) with ([LOAD_ACTION_OPEN_NEXT; string2] ++ script_words k) in Hom; apply Forall_app in Hom as [Hom _]; apply Forall_cons in Hom as [_ Hom]; by apply Forall_inv in Hom).
    cbn [length] in Hf1. rewrite Hlt in Hf1.
    assert (Hfuel : exists f2, f1 = Datatypes.S (length (mappings i) + f2) /\ (length rest + length envp + length vectors + length p3 < f2)%nat) by (exists (f1 - length (mappings i) - 1)%nat; lia).
    destruct Hfuel as (f2 & -> & Hf2). cbn [app] in C2, C3.
    destruct (run_object (A := Empty_set) true f2 reset1 (object_base o 0) fd1 c1 s1 string2 i rest Hl2 Hs2 C3 C1 C2) as (s2 & [E2|(K2 & B2 & fd2 & reset2 & c2 & D1 & D2 & D3 & E2)]); [|lia|lia| |].
    { eapply kept_readable; [exact K1|lia| |done]. rewrite zlen_app. change (zlen [0]) with 1. lia. }
    { left. by rewrite E2. }
    rewrite E2. destruct (Hfinish f2 s2 (object_base i (object_base o 0)) reset2 fd2 c2) as (s3 & [E3|(E3 & R3 & B3)]); [done|by eapply kept_trans| |exact D1|exact D2|exact D3| |].
    + apply object_base_ok; [apply Hl2|done].
    + left. by rewrite E3.
    + right. rewrite E3. split; [done|]. split; [done|]. intros x Hx. rewrite B3, B2 by done. by apply image_ext.
  - destruct (Hfinish f1 s1 (object_base o 0) reset1 fd1 c1) as (s3 & [E3|(E3 & R3 & B3)]); try done.
    + left. by rewrite E3.
    + right. rewrite E3. split; [done|]. split; [done|]. intros x Hx. by rewrite B3, B1.
Qed.

End Script.

(** ** From transfer_load_script() to the program *)

Record program_ready (lo hi : Z) (l : LoadInfo) : Prop := {
  pr_region : 0 <= lo /\ hi <= 256 ^ w;
  pr_object : loadable lo hi (object l);
  pr_interp : match interp l with None => True | Some i => loadable lo hi i end;
  pr_raw : match raw_path l with None => True | Some p => nul_free p end;
  pr_words : Forall word_ok (tail (start_words (start_of 0 0 l)))
}.

Lemma transcript_words_ok ms : Forall fits ms -> Forall word_ok (script_words (transcript_mappings ms)).
Proof.
  pose proof word_range. induction 1 as [|m ms [Hm _] Hms IH]; [constructor|]. change (script_words (transcript_mappings (m :: ms))) with (statement_words (map_statement m) ++ script_words (transcript_mappings ms)).
  apply Forall_app. split; [|done]. unfold map_statement, word_ok. case_bool; (constructor; [unfold LOAD_ACTION_MMAP_ANON, LOAD_ACTION_MMAP_FILE; lia|exact Hm]).
Qed.

Lemma script_words_ok lo hi (traced : bool) sp string1 string2 string3 l script : program_ready lo hi l -> load_script traced page_size sp string1 string2 string3 l = Ok script ->
  word_ok sp -> word_ok string1 -> word_ok string2 -> word_ok string3 -> Forall word_ok (script_words script).
Proof.
  intros [_ L1 L2 _ L3] H Hsp H1 H2 H3. pose proof word_range as Hr. unfold load_script in H.
  assert (E : script = LOAD_OPEN string1 :: transcript_mappings (mappings (object l))
      ++ match interp l with None => [] | Some i => LOAD_OPEN_NEXT string2 :: transcript_mappings (mappings i) end
      ++ (if wants_executable_stack l then [LOAD_MAKE_STACK_EXEC (page_of page_size sp)] else [])
      ++ [if traced then LOAD_START_TRACED (start_of sp string3 l) else LOAD_START (start_of sp string3 l)])
    by (unfold start_of; destruct (mappings (object l)); [done|by injection H as <-]).
  clear H. subst script.
  change (script_words (LOAD_OPEN string1 :: ?k)) with ([LOAD_ACTION_OPEN; string1] ++ script_words k). rewrite !script_words_app, !Forall_app.
  assert (Hsmall : forall v, 0 <= v <= 6 -> word_ok v) by (intros v Hv; unfold word_ok; lia).
  assert (Hpair : forall u v, 0 <= u <= 6 -> word_ok v -> Forall word_ok [u; v]) by (intros u v Hu Hv; constructor; [by apply Hsmall|]; constructor; [done|constructor]).
  split; [by apply Hpair|]. split; [apply transcript_words_ok, L1|]. split; [|split].
  - destruct (interp l) as [i|]; [|constructor]. change (script_words (LOAD_OPEN_NEXT string2 :: ?k)) with ([LOAD_ACTION_OPEN_NEXT; string2] ++ script_words k).
    apply Forall_app. split; [by apply Hpair|apply transcript_words_ok, L2].
  - case_bool; [|constructor]. apply Hpair; [done|]. pose proof (page_bounds _ Hpage). unfold word_ok in Hsp |- *. rewrite page_of_eq by (done || lia).
    pose proof (Z.mod_pos_bound sp page_size ltac:(lia)). pose proof (Z.mod_le sp page_size ltac:(lia) ltac:(lia)). lia.
  - unfold start_of in L3. cbn [start_words tail stack_pointer entry_point at_phdr at_phent at_phnum at_entry at_execfn] in L3.
    repeat match goal with H : Forall _ (_ :: _) |- _ => apply Forall_cons in H as [? H] end. destruct traced; repeat (constructor; [first [assumption|apply Hsmall; done]|]); constructor.
Qed.

Section Composed.

Context {W Mem : Type} {TM : TraceeMemory Mem} {TS : TraceeStrings Mem} {MC : MemoryContents Mem}.
Context {ML : MemoryContentsLaws Mem TM TS MC} {MR : MemoryReadsLaws Mem TM MC}.

(** The memory of the loader is the one that PRoot left. *)
Definition shows (lo hi : Z) (s : S) (x : SysState W Mem) : Prop :=
  forall a bytes, holds_at (x_mem x) (x_me x) a bytes -> lo <= a -> a + zlen bytes <= hi -> readable s a bytes.

Lemma transferred_started lo hi traced l buffer (x x' : SysState W Mem) s argv envp vectors fuel :
  let sp := peek_reg (x_regs x) CURRENT STACK_POINTER in
  w = sizeof_word (x_regs x) -> regs_ok (x_regs x) -> program_ready lo hi l ->
  load_buffer traced (is_32on64_mode (x_regs x)) page_size sp l = Ok buffer -> lo + zlen buffer <= sp ->
  transfer_load_script traced page_size l x = (x', Ok ()) ->
  shows lo hi s x' -> stack_ready hi s sp argv envp vectors ->
  (length buffer + length envp + length vectors < fuel)%nat ->
  let cursor := peek_reg (x_regs x') CURRENT USERARG_1 in
  cursor mod 16 = 0 /\ (let r := _start w fuel cursor s in r.2 = Ends (Exited 182) \/ started traced sp l argv envp vectors s r).
Proof.
  intros sp Hws Hg Hp Hb Hn H Hsh Hst Hf. pose proof word_range as Hr. pose proof (peek_reg_range (x_regs x) CURRENT STACK_POINTER Hg) as Hsp. fold sp in Hsp.
  assert (Hbits : 2 ^ reg_bits (x_regs x) = 256 ^ w) by (rewrite Hws; unfold reg_bits, sizeof_word, is_32on64_mode; by destruct (is_aarch32 _)). rewrite Hbits in Hsp.
  destruct (pr_region _ _ _ Hp) as [Hlo Hhi]. assert (Hsph : sp <= hi) by (pose proof (sr_stack _ _ _ _ _ _ Hst); pose proof (zlen_nonneg (stack_words argv envp vectors)); nia).
  destruct (transfer_held _ _ _ _ _ _ Hg Hb ltac:(fold sp; lia) H) as (Hme & Hheld & _ & Hregs & _). fold sp in Hheld, Hregs.
  destruct (Hregs CURRENT ltac:(by left)) as [_ Hcur]. rewrite Hcur. rewrite <- Hme in Hheld. specialize (Hsh _ _ Hheld ltac:(lia) ltac:(lia)). clear Hheld. rename Hsh into Hheld.
  set (p3 := match raw_path l with None => o_user_path (object l) | Some p => p end).
  unfold load_buffer, script_strings in Hb. set (str1 := o_user_path (object l) ++ [0]) in *. set (str2 := match interp l with None => [] | Some i => o_user_path i ++ [0] end) in *.
  set (str3 := match raw_path l with None => [] | Some p => p ++ [0] end) in *. set (strings := str1 ++ str2 ++ str3) in *. set (pad := wrap64 (sp - zlen strings) mod 16) in *.
  apply res_bind_ok in Hb as (script & Hscript & Hb). injection Hb as Hb. set (words := script_words script) in *.
  assert (Hpad : 0 <= pad < 16) by (apply Z.mod_pos_bound; lia).
  assert (Hlen : zlen buffer = zlen words * 8 + (zlen strings + pad)) by (rewrite <- Hb, !zlen_app, convert_length; unfold zlen at 3; rewrite length_replicate; lia).
  assert (Hstr : zlen strings = zlen (o_user_path (object l)) + 1 + zlen str2 + zlen str3) by (unfold strings, str1; rewrite !zlen_app; change (zlen [0]) with 1; lia).
  pose proof (zlen_nonneg (o_user_path (object l))). pose proof (zlen_nonneg str2). pose proof (zlen_nonneg str3). pose proof (zlen_nonneg words).
  assert (Epad : pad = (sp - zlen strings) mod 16) by (unfold pad, wrap64; by rewrite wrap_small by lia).
  assert (Hal : (sp - zlen strings - pad) mod 16 = 0) by (rewrite Epad, Zminus_mod, Z.mod_mod, Z.sub_diag by lia; done).
  split.
  { replace (sp - zlen buffer) with (sp - zlen strings - pad - zlen words * 8) by lia. rewrite Zminus_mod, Hal, (script_words_even script : (zlen words * 8) mod 16 = 0). done. }
  set (cursor := sp - zlen buffer) in *. set (script_end := cursor + zlen words * 8).
  assert (Hend : script_end = sp - (zlen strings + pad)) by (unfold script_end, cursor; lia).
  assert (Hregion : 0 <= lo /\ script_end < hi /\ hi <= 256 ^ w) by lia.
  rewrite <- Hb in Hheld. apply readable_app in Hheld as [Hscr Hstrs]. rewrite convert_length in Hstrs. fold script_end in Hstrs. apply readable_app in Hstrs as [Hstrs _].
  unfold strings in Hstrs. rewrite !readable_app in Hstrs. destruct Hstrs as (Hs1 & Hs2 & Hs3).
  assert (Hpod : readable s cursor (pod_array w words)).
  { rewrite Hws. unfold sizeof_word, convert in *. destruct (is_32on64_mode (x_regs x)); [by apply readable_app in Hscr as [Hscr _]|done]. }
  assert (E1 : wrap64 (sp - (zlen strings + pad)) = script_end) by (unfold wrap64; rewrite wrap_small; lia).
  set (off3 := if zlen str3 =? 0 then 0 else zlen str1 + zlen str2) in *. assert (Hz1 : zlen str1 = zlen (o_user_path (object l)) + 1) by (unfold str1; by rewrite zlen_app).
  assert (Hoff3 : 0 <= off3 /\ off3 + zlen p3 + 1 <= zlen strings /\ readable s (script_end + off3) (p3 ++ [0]) /\ nul_free p3 /\ zlen p3 + 1 <= zlen strings).
  { unfold off3, p3, str3 in *. pose proof (pr_raw _ _ _ Hp) as Hraw. destruct (raw_path l) as [p|].
    - assert (Ez : zlen (p ++ [0]) = zlen p + 1) by (by rewrite zlen_app). pose proof (zlen_nonneg p). rewrite Ez in *. rewrite (proj2 (Z.eqb_neq (zlen p + 1) 0)) by lia.
      split; [lia|]. split; [lia|]. split; [by replace (script_end + (zlen str1 + zlen str2)) with (script_end + zlen str1 + zlen str2) by lia|]. split; [done|lia].
    - change (zlen (@nil Z)) with 0 in *. cbn [Z.eqb]. rewrite Z.add_0_r. split; [lia|]. split; [lia|]. split; [done|]. split; [apply (pr_object _ _ _ Hp)|lia]. }
  destruct Hoff3 as (O1 & O2 & O3 & O4 & O5).
  assert (E2 : wrap64 (sp - (zlen strings + pad) + zlen str1) = script_end + zlen str1) by (unfold wrap64; rewrite wrap_small; lia).
  pose proof (zlen_nonneg p3). assert (E3 : wrap64 (sp - (zlen strings + pad) + off3) = script_end + off3) by (unfold wrap64; rewrite wrap_small; lia).
  rewrite E1, E2, E3 in Hscript. assert (Hlw : zlen words * 8 <= zlen buffer) by lia.
  assert (Hls : (length script <= length words)%nat).
  { unfold words. clear. induction script as [|st script IH]; [done|]. unfold script_words in *. rewrite fmap_cons. cbn [concat]. rewrite length_app. destruct st; cbn in *; lia. }
  eapply (script_started lo hi script_end Hregion fuel traced l sp script_end (script_end + zlen str1) (script_end + off3) script s cursor argv envp vectors p3); try done; try lia.
  - eapply script_words_ok; [exact Hp|exact Hscript|..]; unfold word_ok; lia.
  - apply Hp.
  - apply Hp.
  - unfold script_size. fold words. unfold script_end. destruct Hw as [-> | ->]; lia.
  - unfold str2 in *. destruct (interp l) as [i|]; [|done]. assert (Ez : zlen (o_user_path i ++ [0]) = zlen (o_user_path i) + 1) by (by rewrite zlen_app). split; [lia|]. split; [lia|done].
  - unfold zlen in *. lia.
Qed.

End Composed.

End Run.

(** ** Property *)

(** C8: the start of a program that is ready for the loader: the mappings of the
    program and of its interpreter are aligned on pages, fit the words of the loader
    and are away from the region of the stack, from [lo] to [hi], where the script
    fits too; what is cleared at their ends can be written and is in a page of their
    file.  The load information of a file can break the last condition, and the
    loader then dies ([page_past_the_end_cleared]).  When transfer_load_script()
    succeeds, the tracee resumes with its first argument and its stack pointer,
    aligned on 16 bytes, at the script, and nothing above its stack changed.  From
    there the loader, in an address space that has what PRoot wrote, either exits
    because a system call failed or starts the program: it jumps to the entry point
    of the interpreter, or of the program without one, with the stack pointer of
    execve(2) (or asks PRoot to do so when the tracee is traced); the memory is the
    image of the program and of its interpreter; and the auxiliary vectors are the
    ones of the kernel, but for the ones that describe the program.  Under these
    conditions it never spins nor faults. *)
Theorem program_loaded {W Mem Vm} (TM : TraceeMemory Mem) (TS : TraceeStrings Mem) (MC : MemoryContents Mem) (ML : MemoryContentsLaws Mem TM TS MC)
    (V : LoaderVm Vm) w page_size byte prot file contents (VL : LoaderVmLaws Vm V w page_size byte prot file contents)
    lo hi traced l buffer (x x' : SysState W Mem) (s : Vm) argv envp vectors fuel :
  let sp := peek_reg (x_regs x) CURRENT STACK_POINTER in
  w = sizeof_word (x_regs x) -> page_ok page_size -> page_size mod 2 ^ MMAP_OFFSET_SHIFT w = 0 -> regs_ok (x_regs x) ->
  program_ready (w := w) (page_size := page_size) (contents := contents) lo hi l ->
  load_buffer traced (is_32on64_mode (x_regs x)) page_size sp l = Ok buffer -> lo + zlen buffer <= sp ->
  transfer_load_script traced page_size l x = (x', Ok ()) ->
  shows (byte := byte) (prot := prot) lo hi s x' -> stack_ready (w := w) (byte := byte) (prot := prot) hi s sp argv envp vectors ->
  (length buffer + length envp + length vectors < fuel)%nat ->
  let cursor := peek_reg (x_regs x') CURRENT USERARG_1 in
  let r := _start w fuel cursor s in
  peek_reg (x_regs x') CURRENT STACK_POINTER = cursor /\ cursor mod 16 = 0
  /\ (forall b k, sp <= b -> holds_at (x_mem x) (x_me x) b k -> holds_at (x_mem x') (x_me x) b k)
  /\ (r.2 = Ends (Exited 182) \/ started (w := w) (page_size := page_size) (byte := byte) (prot := prot) (contents := contents) traced sp l argv envp vectors s r).
Proof.
  intros sp Hw Hpage Hunit Hg Hp Hb Hn H Hsh Hst Hf cursor r.
  assert (Hw' : w = 4 \/ w = 8) by (rewrite Hw; unfold sizeof_word; case_bool; auto).
  destruct (transferred_started Hw' Hpage Hunit lo hi traced l buffer x x' s argv envp vectors fuel Hw Hg Hp Hb Hn H Hsh Hst Hf) as [Hal Hr].
  destruct (pr_region _ _ _ Hp) as [Hlo _]. destruct (transfer_held _ _ _ _ _ _ Hg Hb ltac:(fold sp; lia) H) as (_ & _ & Hk & Hregs & _).
  destruct (Hregs CURRENT ltac:(by left)) as [H1 H2]. split; [unfold cursor; by rewrite H1, H2|]. split; [done|]. split; [|done].
  intros b k Hbk. apply Hk. by right.
Qed.

(** ** A loader to compute with *)

Record DemoLoader := mkLoader { d_byte : Z -> option Z; d_prot : Z -> Z; d_file : Z -> option (list Z) }.

Definition demo_map (s : DemoLoader) (addr len prot : Z) (bytes : Z -> option Z) : DemoLoader :=
  mkLoader (fun c => if (addr <=? c) && (c <? addr + len) then bytes (c - addr) else d_byte s c)
    (fun c => if (addr <=? c) && (c <? addr + len) then prot else d_prot s c) (d_file s).

(** Every path names the same file. *)
#[local] Instance demo_loader (w page_size : Z) (data : list Z) : LoaderVm DemoLoader := {
  load_byte s a := if has_flag (d_prot s a) PROT_READ then d_byte s a else None;
  store_byte s a v :=
    match d_byte s a with
    | Some _ => if has_flag (d_prot s a) PROT_WRITE then Some (mkLoader (fun c => if c =? a then Some v else d_byte s c) (d_prot s) (d_file s)) else None
    | None => None
    end;
  sys_open s _ := (mkLoader (d_byte s) (d_prot s) (fun fd => if fd =? 3 then Some data else d_file s fd), 3);
  sys_close s _ := (s, 0);
  sys_mmap s addr len prot flags fd off :=
    if has_flag flags MAP_ANONYMOUS then (demo_map s addr len prot (fun _ => Some 0), addr)
    else match d_file s fd with
         | Some data => (demo_map s addr len prot (fun k => file_byte page_size data (Z.shiftl off (MMAP_OFFSET_SHIFT w) + k)), addr)
         | None => (s, wrapw w (-1))
         end;
  sys_mprotect s _ _ _ := s;
  sys_set_name s _ := s
}.

#[local] Instance demo_loader_laws w page_size data : LoaderVmLaws DemoLoader (demo_loader w page_size data) w page_size d_byte d_prot d_file (fun _ => data).
Proof.
  split; cbn.
  - intros s a b Hb Hr. by rewrite Hr.
  - intros s a b v Hb Hw _. rewrite Hb, Hw. eexists. by split.
  - intros s a p s' fd _ _ [= <- <-]. by split_and!.
  - intros s fd s' r [= <- _]. done.
  - intros s addr len pr fd off s' d H Hf _ _ _. rewrite Hf in H. injection H as <-. by split_and!.
  - intros s addr len pr flags fd off s' r H c Hc. assert (E : (addr <=? c) && (c <? addr + len) = false) by (apply andb_false_iff; rewrite Z.leb_gt, Z.ltb_ge; lia).
    case_bool_in H; [injection H as <- _; unfold demo_map; cbn; by rewrite E|]. destruct (d_file s fd); injection H as <- _; [unfold demo_map; cbn; by rewrite E|done].
  - intros s addr len pr s' fd [= <-] _ _ _. by split_and!.
  - done.
  - done.
Qed.

#[local] Existing Instance demo_memory.
#[local] Existing Instance demo_strings.
#[local] Existing Instance demo_contents.
#[local] Instance demo_loader_here : LoaderVm DemoLoader := demo_loader 8 4096 demo_elf.

(** A program and its interpreter, both position-independent. *)
Definition demo_object (base : Z) (user_path : string) : LoadObject :=
  add_load_base (mkObject (bs "/data/root") (bs user_path) (l_mappings demo_info) (parse_header demo_elf) false) base.
Definition demo_load : LoadInfo := mkLoad (demo_object EXEC_PIC_ADDRESS "/p") None (Some (demo_object INTERP_PIC_ADDRESS "/bin/ld")).

(** Its stack: argv[] is { "/p" }, and there are three auxiliary vectors. *)
Definition demo_argv : list Z := [8320].
Definition demo_vectors : list (Z * Z) := [(AT_PHDR, 64); (6, 4096); (AT_BASE, 0)].
Definition demo_exec : SysState unit DemoVm := execve_state (stack_words demo_argv [] demo_vectors) "/p" "arg".
Definition demo_transferred : SysState unit DemoVm * res unit := transfer_load_script false 4096 demo_load demo_exec.
Definition demo_space_of (m : DemoVm) : DemoLoader :=
  mkLoader (fun a => m !! a) (fun a => if (7168 <=? a) && (a <? 9216) then PROT_READ + PROT_WRITE else 0) (fun _ => None).
Definition demo_start : DemoLoader := demo_space_of (x_mem (fst demo_transferred)).
Definition demo_buffer : list Z := match load_buffer false false 4096 8192 demo_load with Ok l => l | _ => [] end.

Lemma demo_transfer_ok : transfer_load_script false 4096 demo_load demo_exec = (fst demo_transferred, Ok ()).
Proof. unfold demo_transferred. apply pair_of. by vm_compute. Qed.

Lemma demo_loadable base path : base = EXEC_PIC_ADDRESS \/ base = INTERP_PIC_ADDRESS -> nul_free (bs path) ->
  loadable (w := 8) (page_size := 4096) (contents := fun _ => demo_elf) 7168 9216 (demo_object base path).
Proof.
  intros Hb Hp. assert (Hc : forall m : Mapping, m_clear_length m = 0 -> clearable (page_size := 4096) demo_elf m) by (by intros m H0 H).
  assert (Hl : zlen demo_elf = 240) by (by vm_compute).
  assert (Hclear : forall base', clearable (page_size := 4096) demo_elf (mkMapping (base' + 4096) 4096 3856 (PROT_READ + PROT_WRITE) (MAP_PRIVATE + MAP_FIXED) 0)).
  { intros base' _. split; [done|]. intros c. cbn. intros Hr. unfold file_byte. rewrite Hl, (proj2 (Z.ltb_ge _ _)) by lia. change (240 + - (240) mod 4096) with 4096. by rewrite (proj2 (Z.ltb_lt _ _)) by lia. }
  split.
  - destruct Hb as [-> | ->]; (constructor; [|constructor; [|constructor; [|constructor]]]); (split; [by vm_compute|by vm_compute|by vm_compute|by vm_compute|first [by left|by right]]).
  - destruct Hb as [-> | ->]; (constructor; [|constructor; [|constructor; [|constructor]]]); (split; [by repeat (constructor; [by vm_compute|]); constructor|by vm_compute]).
  - destruct Hb as [-> | ->]; (constructor; [by apply Hc|constructor; [|constructor; [by apply Hc|constructor]]]).
    + exact (Hclear EXEC_PIC_ADDRESS).
    + exact (Hclear INTERP_PIC_ADDRESS).
  - destruct Hb as [-> | ->]; (constructor; [|constructor; [|constructor; [|constructor]]]); right; by vm_compute.
  - exact Hp.
Qed.

Lemma demo_shows (x : SysState unit DemoVm) : shows (byte := d_byte) (prot := d_prot) 7168 9216 (demo_space_of (x_mem x)) x.
Proof.
  intros a bytes H Ha Hn k b Hk. split; [exact (H k b Hk)|]. apply lookup_lt_Some in Hk. unfold zlen in Hn. cbn [d_prot demo_space_of].
  by rewrite (proj2 (Z.leb_le _ _)), (proj2 (Z.ltb_lt _ _)) by lia.
Qed.

Lemma demo_stack_ready (x : SysState unit DemoVm) : demo_readv (x_mem x) 8192 88 = pod_array 8 (stack_words demo_argv [] demo_vectors) ->
  stack_ready (w := 8) (byte := d_byte) (prot := d_prot) 9216 (demo_space_of (x_mem x)) 8192 demo_argv [] demo_vectors.
Proof.
  intros Hx. assert (Hn : length (pod_array 8 (stack_words demo_argv [] demo_vectors)) = 88%nat) by (by vm_compute).
  assert (Hr : readable (byte := d_byte) (prot := d_prot) (demo_space_of (x_mem x)) 8192 (pod_array 8 (stack_words demo_argv [] demo_vectors))).
  { apply demo_shows; [apply demo_holds; by rewrite Hn|done|by vm_compute]. }
  split.
  - split; [|done]. constructor; [by vm_compute|constructor].
  - constructor.
  - split; [|done]. repeat (constructor; [split; [by vm_compute|done]|]). constructor.
  - by vm_compute.
  - exact Hr.
  - intros c Hc. change (8224 <= c < 8272) in Hc. split; [cbn [d_prot demo_space_of]; by rewrite (proj2 (Z.leb_le _ _)), (proj2 (Z.ltb_lt _ _)) by lia|].
    destruct (lookup_lt_is_Some_2 (pod_array 8 (stack_words demo_argv [] demo_vectors)) (Z.to_nat (c - 8192))) as [b Hb]; [rewrite Hn; lia|].
    destruct (Hr _ _ Hb) as [E _]. replace (8192 + Z.of_nat (Z.to_nat (c - 8192))) with c in E by lia. by rewrite E.
Qed.

Lemma demo_stack_kept : demo_readv (x_mem (fst demo_transferred)) 8192 88 = pod_array 8 (stack_words demo_argv [] demo_vectors).
Proof. by vm_compute. Qed.

(** The loader is executed. *)
Lemma demo_run : (_start 8 600 (peek_reg (x_regs (fst demo_transferred)) CURRENT USERARG_1) demo_start).2 = Ends (Branch 8192 (INTERP_PIC_ADDRESS + 64)).
Proof. by vm_compute. Qed.

Lemma program_loaded_witness :
  let cursor := peek_reg (x_regs (fst demo_transferred)) CURRENT USERARG_1 in
  let r := _start 8 600 cursor demo_start in
  cursor mod 16 = 0
  /\ (r.2 = Ends (Exited 182) \/ started (w := 8) (page_size := 4096) (byte := d_byte) (prot := d_prot) (contents := fun _ => demo_elf) false 8192 demo_load demo_argv [] demo_vectors demo_start r).
Proof.
  assert (Hp : program_ready (w := 8) (page_size := 4096) (contents := fun _ => demo_elf) 7168 9216 demo_load).
  { split; [done|apply demo_loadable; [by left|by repeat constructor]|apply demo_loadable; [by right|by repeat constructor]|done|]. by repeat (constructor; [by vm_compute|]); constructor. }
  assert (Hg : regs_ok (x_regs demo_exec)) by apply enter_regs_ok.
  assert (Hsp : peek_reg (x_regs demo_exec) CURRENT STACK_POINTER = 8192) by (by vm_compute). assert (Hw : 8 = sizeof_word (x_regs demo_exec)) by (by vm_compute).
  assert (Hb : load_buffer false (is_32on64_mode (x_regs demo_exec)) 4096 8192 demo_load = Ok demo_buffer) by (by vm_compute).
  assert (Hn : 7168 + zlen demo_buffer <= 8192) by (by vm_compute). assert (Hf : (length demo_buffer + length (@nil Z) + length demo_vectors < 600)%nat) by (apply Nat.ltb_lt; by vm_compute).
  pose proof (program_loaded demo_memory demo_strings demo_contents (mem_contents_laws (demo_vm true) demo_byte (demo_vm_laws true))
    demo_loader_here 8 4096 d_byte d_prot d_file (fun _ => demo_elf) (demo_loader_laws 8 4096 demo_elf) 7168 9216 false demo_load demo_buffer demo_exec (fst demo_transferred)
    demo_start demo_argv [] demo_vectors 600) as H. cbv zeta in H. rewrite Hsp in H.
  destruct (H Hw page_ok_4096 eq_refl Hg Hp Hb Hn demo_transfer_ok (demo_shows (fst demo_transferred)) (demo_stack_ready (fst demo_transferred) demo_stack_kept) Hf) as (_ & Hal & _ & Hr).
  split; [exact Hal|exact Hr].
Defined.

(** ** Flaws *)

(** A range that begins and ends in the same word: the word is cleared from its
    beginning to its end (the ranges of load scripts end with a page). *)
Lemma clear_same_word : let s := fst (clear 8 8197 8198 (demo_space_of (demo_put ∅ 8192 (replicate 8 65)))) in
  d_byte s <$> [8192; 8193; 8194; 8195; 8196; 8197; 8198; 8199] = replicate 8 (Some 0).
Proof. by vm_compute. Qed.

(** The name of a program of the root directory keeps its slash. *)
Lemma root_program_name : snd (basename 8 8 8192 (demo_space_of (demo_put ∅ 8192 (bs "/init" ++ [0])))) = Done 8192
  /\ snd (basename 8 16 8192 (demo_space_of (demo_put ∅ 8192 (bs "/bin/sh" ++ [0])))) = Done 8197.
Proof. by split; vm_compute. Qed.

(** Without an interpreter AT_BASE is the address of the program; it is null on
    Linux. *)
Lemma static_program_base l m ms : interp l = None -> mappings (object l) = m :: ms -> has_flag (m_flags m) MAP_ANONYMOUS = false -> program_base l = m_addr m.
Proof.
  intros Hi Hm Hf. unfold program_base, object_base. rewrite Hi, Hm. cbn [fold_left]. unfold next_base at 2. rewrite Hf. cbn [fst snd].
  assert (H : forall ms base, (fold_left next_base ms (false, base)).2 = base); [|apply H].
  clear. intros ms. induction ms as [|m ms IH]; intros base; [done|]. cbn [fold_left]. unfold next_base at 2. case_bool; apply IH.
Qed.
