(* ===== verification/Ldso.v ===== *)
(** * The runner and the libraries of the host (src/execve/ldso.c, src/execve/enter.c)

    With a runner (proot -q qemu-arm) a program of another architecture is replaced
    with the runner, which gets the program as an argument.  The runner is a program
    of the host: LD_LIBRARY_PATH has to name directories of the host, as its ELF file
    asks for, and the variables of the dynamic linker are passed to the program
    through options of the runner.  This file also has the state of a tracee that
    only execve(2) changes. *)

From S2P Require Import Prelude Mem Memory Paths Binding ProcLinks Canon Lookup Sysnum Regs Translate SysArgs Mounts Netlink Enter Sockets Aoxp Shebang Elf.

Definition HOST_ROOTFS := bs "/host-rootfs".
Definition LD_LIBRARY_PATH := bs "LD_LIBRARY_PATH".
Definition HOST_ELF_MACHINE : list Z := [183].
Definition PT_DYNAMIC := 2.
Definition DT_STRTAB := 5.
Definition DT_RPATH := 15.
Definition DT_RUNPATH := 29.

(** ** State *)

(** A heap, and how many other tracees refer to it (talloc_reference_count()). *)
Record Heap := mkHeap { base : Z; size : Z; disabled : bool; references : Z }.

(** What execve(2) changes in a tracee: the fields of struct tracee of these names,
    and the static variables of get_loader_path().  The heap is a pointer, since a
    child may share the one of its parent: [heaps] is the store of all of them. *)
Record ExecState := mkExec {
  exe : option cstr;
  new_exe : option cstr;
  host_exe : option cstr;
  load_info : option LoadInfo;
  skip_proot_loader : bool;
  ignore_loader_syscalls : bool;
  heap : nat;
  heaps : list Heap;
  guest_ldso_paths : option cstr;
  host_ldso_paths : option cstr;
  loader_path : option cstr;
  loader32_path : option cstr
}.

Definition set_exe (p : option cstr) (e : ExecState) : ExecState :=
  mkExec p (new_exe e) (host_exe e) (load_info e) (skip_proot_loader e) (ignore_loader_syscalls e) (heap e) (heaps e) (guest_ldso_paths e) (host_ldso_paths e) (loader_path e) (loader32_path e).
Definition set_new_exe (p : option cstr) (e : ExecState) : ExecState :=
  mkExec (exe e) p (host_exe e) (load_info e) (skip_proot_loader e) (ignore_loader_syscalls e) (heap e) (heaps e) (guest_ldso_paths e) (host_ldso_paths e) (loader_path e) (loader32_path e).
Definition set_host_exe (p : option cstr) (e : ExecState) : ExecState :=
  mkExec (exe e) (new_exe e) p (load_info e) (skip_proot_loader e) (ignore_loader_syscalls e) (heap e) (heaps e) (guest_ldso_paths e) (host_ldso_paths e) (loader_path e) (loader32_path e).
Definition set_load_info (l : option LoadInfo) (e : ExecState) : ExecState :=
  mkExec (exe e) (new_exe e) (host_exe e) l (skip_proot_loader e) (ignore_loader_syscalls e) (heap e) (heaps e) (guest_ldso_paths e) (host_ldso_paths e) (loader_path e) (loader32_path e).
Definition set_skip (b : bool) (e : ExecState) : ExecState :=
  mkExec (exe e) (new_exe e) (host_exe e) (load_info e) b (ignore_loader_syscalls e) (heap e) (heaps e) (guest_ldso_paths e) (host_ldso_paths e) (loader_path e) (loader32_path e).
Definition set_ignore (b : bool) (e : ExecState) : ExecState :=
  mkExec (exe e) (new_exe e) (host_exe e) (load_info e) (skip_proot_loader e) b (heap e) (heaps e) (guest_ldso_paths e) (host_ldso_paths e) (loader_path e) (loader32_path e).
Definition set_heap (h : nat) (hs : list Heap) (e : ExecState) : ExecState :=
  mkExec (exe e) (new_exe e) (host_exe e) (load_info e) (skip_proot_loader e) (ignore_loader_syscalls e) h hs (guest_ldso_paths e) (host_ldso_paths e) (loader_path e) (loader32_path e).
Definition set_ldso_paths (guest host : option cstr) (e : ExecState) : ExecState :=
  mkExec (exe e) (new_exe e) (host_exe e) (load_info e) (skip_proot_loader e) (ignore_loader_syscalls e) (heap e) (heaps e) guest host (loader_path e) (loader32_path e).
Definition set_loader_path (p : option cstr) (e : ExecState) : ExecState :=
  mkExec (exe e) (new_exe e) (host_exe e) (load_info e) (skip_proot_loader e) (ignore_loader_syscalls e) (heap e) (heaps e) (guest_ldso_paths e) (host_ldso_paths e) p (loader32_path e).
Definition set_loader32_path (p : option cstr) (e : ExecState) : ExecState :=
  mkExec (exe e) (new_exe e) (host_exe e) (load_info e) (skip_proot_loader e) (ignore_loader_syscalls e) (heap e) (heaps e) (guest_ldso_paths e) (host_ldso_paths e) (loader_path e) p.

(** The monad of execve(2): that of the handlers, with this state. *)
Definition XM (W Mem A : Type) : Type := ExecState -> SysState W Mem -> ExecState * SysState W Mem * res A.

Section ExecMonad.

Context {W Mem : Type}.

Definition xret {A} (a : A) : XM W Mem A := fun e x => (e, x, Ok a).
Definition xfail {A} (n : Z) : XM W Mem A := fun e x => (e, x, Err n).
Definition xlift {A} (r : res A) : XM W Mem A := fun e x => (e, x, r).
Definition xget {A} (f : ExecState -> A) : XM W Mem A := fun e x => (e, x, Ok (f e)).
Definition xset (f : ExecState -> ExecState) : XM W Mem unit := fun e x => (f e, x, Ok ()).
Definition on_sys {A} (m : HM W Mem A) : XM W Mem A := fun e x => let '(x, r) := m x in (e, x, r).
Definition xbind {A B} (m : XM W Mem A) (k : A -> XM W Mem B) : XM W Mem B :=
  fun e x => match m e x with
             | (e, x, Ok a) => k a e x
             | (e, x, Err n) => (e, x, Err n)
             | (e, x, Stuck w) => (e, x, Stuck w)
             end.

End ExecMonad.

Notation "'do&' x ':=' m 'in' k" := (xbind m (fun x => k))
  (at level 10, x pattern, m at level 100, k at level 200) : res_scope.

(** ** Environment variables *)

Definition is_env_name (variable name : cstr) : bool :=
  (chr variable 0 =? chr name 0) && (length name <? length variable)%nat && (chr variable (length name) =? 61)
  && str_eqb (take (length name) variable) name.

(** The variables of the dynamic linker that are passed to the program. *)
Definition PASSTHRU : list cstr :=
  [LD_LIBRARY_PATH; bs "LD_PRELOAD"; bs "LD_BIND_NOW"; bs "LD_TRACE_LOADED_OBJECTS"; bs "LD_AOUT_LIBRARY_PATH"; bs "LD_AOUT_PRELOAD"; bs "LD_AUDIT";
   bs "LD_BIND_NOT"; bs "LD_DEBUG"; bs "LD_DEBUG_OUTPUT"; bs "LD_DYNAMIC_WEAK"; bs "LD_HWCAP_MASK"; bs "LD_KEEPDIR"; bs "LD_NOWARN"; bs "LD_ORIGIN_PATH";
   bs "LD_POINTER_GUARD"; bs "LD_PROFILE"; bs "LD_PROFILE_OUTPUT"; bs "LD_SHOW_AUXV"; bs "LD_USE_LOAD_BIAS"; bs "LD_VERBOSE"; bs "LD_WARN"].

(** The value of LD_LIBRARY_PATH is the one of the guest, when PRoot set it. *)
Definition guest_value (guest host : option cstr) (env : cstr) : cstr :=
  match host, guest with
  | Some host, Some guest => if is_env_name env LD_LIBRARY_PATH && str_eqb env host then guest else env
  | _, _ => env
  end.

Section Ldso.

Context {W Mem : Type} {TM : TraceeMemory Mem} {TS : TraceeStrings Mem}.
Abbreviation H A := (HM W Mem A).

Definition compare_xpointee_env (envp : ArrayOfXPointers) (index : nat) (reference : cstr) : H (ArrayOfXPointers * bool) :=
  do$ (envp, value) := read_xpointee_as_string envp index in
  hret (envp, match value with None => false | Some value => is_env_name value reference end).

(** An option of the runner and its argument are put before the index. *)
Definition insert_option (argv : ArrayOfXPointers) (offset : nat) (name value : cstr) : res ArrayOfXPointers :=
  let! argv := resize_array_of_xpointers argv offset 2 in
  write_xpointees argv offset [name; value].

(** [n] variables are left. *)
Fixpoint passthru_loop (guest host : option cstr) (define : cstr) (offset n i : nat) (envp argv : ArrayOfXPointers) (has_seen_library_path : bool)
  : H (ArrayOfXPointers * ArrayOfXPointers * bool) :=
  match n with
  | O => hret (envp, argv, has_seen_library_path)
  | S n =>
      do$ (envp, env) := read_xpointee_as_string envp i in
      match env with
      | None => passthru_loop guest host define offset n (S i) envp argv has_seen_library_path
      | Some env =>
          if negb (str_eqb (take 3 env) (bs "LD_")) then passthru_loop guest host define offset n (S i) envp argv has_seen_library_path
          else
            let env := guest_value guest host env in
            let has_seen_library_path := has_seen_library_path || is_env_name env LD_LIBRARY_PATH in
            if existsb (is_env_name env) PASSTHRU then
              do$ argv := hlift (insert_option argv offset define env) in
              do$ envp := hlift (write_xpointee_as_string envp i []) in
              passthru_loop guest host define offset n (S i) envp argv has_seen_library_path
            else passthru_loop guest host define offset n (S i) envp argv has_seen_library_path
      end
  end.

Definition ldso_env_passthru (guest host : option cstr) (envp argv : ArrayOfXPointers) (define undefine : cstr) (offset : nat) : H (ArrayOfXPointers * ArrayOfXPointers) :=
  do$ (envp, argv, has_seen_library_path) := passthru_loop guest host define offset (length envp) 0 envp argv false in
  if has_seen_library_path : bool then hret (envp, argv)
  else do$ argv := hlift (insert_option argv offset undefine LD_LIBRARY_PATH) in hret (envp, argv).

(** ** Lists of directories *)

(** The parts of a list of paths, between its colons. *)
Fixpoint parts (paths : cstr) : list cstr :=
  match paths with
  | [] => [[]]
  | c :: paths =>
      match parts paths with
      | p :: ps => if c =? 58 then [] :: p :: ps else (c :: p) :: ps
      | [] => [[]]
      end
  end.

Fixpoint add_parts (host_ldso_paths : cstr) (paths : list cstr) : res cstr :=
  match paths with
  | [] => Ok host_ldso_paths
  | part :: paths =>
      let is_absolute := absolute part in
      let length1 := 1 + zlen part + (if is_absolute then zlen HOST_ROOTFS else 0) in
      if ARG_MAX <=? zlen host_ldso_paths + length1 then Err ENOEXEC
      else
        let host_ldso_paths := if str_eqb host_ldso_paths [] then [] else host_ldso_paths ++ [58] in
        add_parts (host_ldso_paths ++ (if is_absolute then HOST_ROOTFS else []) ++ part) paths
  end.
Definition add_host_ldso_paths (host_ldso_paths paths : cstr) : res cstr := add_parts host_ldso_paths (parts paths).

(** ** The paths that an ELF file asks for *)

(** An uninitialised buffer: the byte at each of its indexes, for each of the times
    the buffer is used. *)
Context (uninit : nat -> nat -> Z).
Context {K : Kernel W} {E : Extensions W} {V : PathEvents W} {N : PathPolicy W} {EH : ExecHost W}.

(** read(2) of [n] bytes at an offset into a buffer: what the buffer has afterwards,
    when the read does not fail.  The status of a failure is -1. *)
Definition read_into (file : FileBytes) (offset : Z) (n time : nat) : res (list Z) :=
  match drop (Z.to_nat offset) (fst file), snd file with
  | [], Some e => Err EPERM
  | rest, _ => Ok (take n rest ++ (uninit time <$> seq (length (take n rest)) (n - length (take n rest))))
  end.

(** lseek(2), whose result is converted to an int; [early] is what is returned when
    errno was null. *)
Definition seek {A} (last_errno offset : Z) (early : A) (k : res A) : res A :=
  if 2 ^ 63 <=? offset then Err EINVAL
  else if sgn 32 offset <? 0 then (if last_errno =? 0 then Ok early else Err last_errno)
  else k.

(** A header of the type, and whether it has the address (or any one does). *)
Definition find_program_header (type address : Z) (p : ProgramHeader) (found : option ProgramHeader) : M W (bool * option ProgramHeader) :=
  if p_type p =? type then
    let start := p_vaddr p in
    let end_ := wrap64 (start + p_memsz p) in
    ret ((address =? 2 ^ 64 - 1) || ((start <? end_) && (start <=? address) && (address <=? end_)), Some p)
  else ret (false, found).

(** The string at an offset: 1024 more bytes are read as long as it does not end. *)
Fixpoint read_paths (fuel time : nat) (file : FileBytes) (offset : Z) : res (list Z) :=
  match fuel with
  | O => Stuck NoFuel
  | S fuel =>
      let! buffer := read_into file offset 1024 time in
      let paths := until_nul 1024 buffer in
      if (length paths =? 1024)%nat
      then let! rest := read_paths fuel (S time) file (offset + Z.of_nat (Nat.min 1024 (length (drop (Z.to_nat offset) (fst file))))) in Ok (paths ++ rest)
      else Ok paths
  end.

Definition add_xpaths (fuel : nat) (last_errno : Z) (file : FileBytes) (offset : Z) (xpaths : option cstr) : res (option cstr) :=
  seek last_errno offset xpaths
    (let! paths := read_paths fuel 0 file offset in
     Ok (Some (match xpaths with None => paths | Some xpaths => xpaths ++ [58] ++ paths end))).

(** The tag and the value of a dynamic entry. *)
Definition parse_dynamic_entry (class64 : bool) (data : list Z) : Z * Z :=
  if class64 then (sgn 64 (field 0 8 data), field 8 8 data) else (sgn 32 (field 0 4 data), field 4 4 data).

(** FOREACH_DYNAMIC_ENTRY: [n] entries are left; the code tells whether it stops.  The
    result tells whether the whole function returned. *)
Fixpoint foreach_dynamic_entry {A} (last_errno : Z) (file : FileBytes) (class64 : bool) (offset type : Z) (code : Z -> A -> res (bool * A)) (n i : nat) (acc : A) : res (bool * A) :=
  match n with
  | O => Ok (false, acc)
  | S n =>
      let size := if class64 then 16 else 8 in
      let entry := wrap64 (offset + Z.of_nat i * size) in
      seek last_errno entry (true, acc)
        (let! data := read_into file entry (Z.to_nat size) i in
         let '(tag, value) := parse_dynamic_entry class64 data in
         if negb (tag =? type) then foreach_dynamic_entry last_errno file class64 offset type code n (S i) acc
         else
           let! (stops, acc) := code value acc in
           if stops : bool then Ok (false, acc) else foreach_dynamic_entry last_errno file class64 offset type code n (S i) acc)
  end.

(** The paths of DT_RPATH and DT_RUNPATH.  When no segment has the address of the
    table of strings the last one is used; when there is no segment at all the
    variable is not initialised. *)
Definition read_ldso_rpaths (fuel : nat) (last_errno : Z) (file : FileBytes) (header : ElfHeader) : M W (option cstr * option cstr) :=
  do! (found, dynamic_segment) := iterate_program_headers last_errno file header (find_program_header PT_DYNAMIC (2 ^ 64 - 1)) None in
  match found, dynamic_segment with
  | true, Some dynamic_segment =>
      let sizeof_dynamic_entry := if class64 header then 16 else 8 in
      if negb (p_filesz dynamic_segment mod sizeof_dynamic_entry =? 0) then fail ENOEXEC
      else
        let foreach {A} type (code : Z -> A -> res (bool * A)) (acc : A) : res (bool * A) :=
          foreach_dynamic_entry last_errno file (class64 header) (p_offset dynamic_segment) type code (Z.to_nat (p_filesz dynamic_segment / sizeof_dynamic_entry)) 0 acc in
        do! (returned, strtab_address) := lift (foreach DT_STRTAB (fun value _ => Ok (true, value)) (2 ^ 64 - 1)) in
        if returned || (strtab_address =? 2 ^ 64 - 1) then ret (None, None)
        else
          do! (_, strtab_segment) := iterate_program_headers last_errno file header (find_program_header PT_LOAD strtab_address) None in
          match strtab_segment with
          | None => lift (Stuck OutOfBounds)
          | Some strtab_segment =>
              let strtab_offset := sgn 64 (wrap64 (p_offset strtab_segment + (strtab_address - p_vaddr strtab_segment))) in
              let add value xpaths :=
                if (strtab_offset <? 0) || (2 ^ 64 - 1 - value <? strtab_offset) then Err ENOEXEC
                else let! xpaths := add_xpaths fuel last_errno file (strtab_offset + value) xpaths in Ok (false, xpaths) in
              do! (returned, rpaths) := lift (foreach DT_RPATH add None) in
              if returned : bool then ret (rpaths, None)
              else
                do! (_, runpaths) := lift (foreach DT_RUNPATH add None) in
                ret (rpaths, runpaths)
          end
  | _, _ => ret (None, None)
  end.

(** ** LD_LIBRARY_PATH *)

(** The variables of PRoot's own environment: the value of LD_LIBRARY_PATH when PRoot
    started, or "/"; PROOT_FORCE_FOREIGN_BINARY; PROOT_USE_LOADER_FOR_QEMU.  [android]
    when PRoot is built for Android. *)
Context (initial_ldso_paths : cstr) (force_foreign use_loader_for_qemu android : bool).

Definition default_paths (class64 : bool) : cstr :=
  if class64
  then bs "/lib/aarch64-linux-gnu:/usr/lib/aarch64-linux-gnu:/lib64:/usr/lib64:/usr/local/lib64:/lib:/usr/lib:/usr/local/lib" ++ (if android then bs ":/system/lib64" else [])
  else bs "/lib32:/usr/lib32:/usr/local/lib32:/lib:/usr/lib:/usr/local/lib" ++ (if android then bs ":/system/lib" else []).

Definition search_paths (class64 : bool) (rpaths runpaths : option cstr) : res cstr :=
  let! paths := match rpaths, runpaths with Some rpaths, None => add_host_ldso_paths [] rpaths | _, _ => Ok [] end in
  let! paths := if str_eqb initial_ldso_paths [] then Ok paths else add_host_ldso_paths paths initial_ldso_paths in
  let! paths := match runpaths with Some runpaths => add_host_ldso_paths paths runpaths | None => Ok paths end in
  add_host_ldso_paths paths (default_paths class64).

(** The entry of LD_LIBRARY_PATH: a new one before the null pointer, or the one of the
    guest, which is remembered. *)
Definition ldso_entry (envp : ArrayOfXPointers) (index : nat) : XM W Mem (ArrayOfXPointers * nat) :=
  if (index =? length envp)%nat then
    let index := (length envp - 1)%nat in
    do& envp := xlift (resize_array_of_xpointers envp index 1) in
    xret (envp, index)
  else
    do& guest := xget guest_ldso_paths in
    match guest with
    | Some _ => xret (envp, index)
    | None =>
        do& env := on_sys (hattempt (read_xpointee_as_string envp index)) in
        match env with
        | inr _ => xret (envp, index)
        | inl (envp, env) =>
            do& host := xget host_ldso_paths in
            do& _ := xset (set_ldso_paths env host) in
            xret (envp, index)
        end
    end.

(** The environment, and whether the ELF file has paths. *)
Definition rebuild_host_ldso_paths (fuel : nat) (last_errno : Z) (host_path : cstr) (envp : ArrayOfXPointers) : XM W Mem (ArrayOfXPointers * bool) :=
  do& w := on_sys (on_path (get world)) in
  match open_file w host_path with
  | inr e => xfail e
  | inl file =>
      do& header := xlift (read_elf file) in
      do& (rpaths, runpaths) := on_sys (on_path (read_ldso_rpaths fuel last_errno file header)) in
      match search_paths (class64 header) rpaths runpaths with
      | Stuck w => xlift (Stuck w)
      | Err _ => xret (envp, false)
      | Ok host_paths =>
          do& (envp, index) := on_sys (find_xpointee compare_xpointee_env envp LD_LIBRARY_PATH) in
          match index with
          | inr _ => xret (envp, false)
          | inl index =>
              do& (envp, index) := ldso_entry envp index in
              if ARG_MAX - zlen host_paths - 1 <? zlen LD_LIBRARY_PATH + 1 then xret (envp, false)
              else
                let host_paths := LD_LIBRARY_PATH ++ [61] ++ host_paths in
                do& envp := xlift (write_xpointee_as_string envp index host_paths) in
                do& guest := xget guest_ldso_paths in
                do& host := xget host_ldso_paths in
                do& _ := xset (set_ldso_paths guest (match host with None => Some host_paths | Some host => Some host end)) in
                xret (envp, bool_decide (rpaths <> None) || bool_decide (runpaths <> None))
          end
      end
  end.

(** ** The runner *)

(** With a runner. *)
Definition is_host_elf (w : W) (host_path : cstr) : bool :=
  if force_foreign then false
  else match open_file w host_path with
       | inr _ => false
       | inl file => match read_elf file with
                     | Ok header => existsb (Z.eqb (e_machine header)) HOST_ELF_MACHINE
                     | _ => false
                     end
       end.

(** The runner and its options, then -0 with the name of the program and its path,
    in place of its name. *)
Definition runner_argv (qemu : list cstr) (argv : ArrayOfXPointers) (argv0 : option cstr) (user_path : cstr) : res ArrayOfXPointers :=
  let! argv := resize_array_of_xpointers argv 1 (zlen qemu + 2) in
  let! argv := write_xpointees argv 0 qemu in
  match argv0 with
  | None => Err ENOMEM
  | Some argv0 => write_xpointees argv (length qemu) [bs "-0"; argv0; user_path]
  end.

(** [qemu] is the runner and its options.  The result is the program to execute, as a
    host path and as a guest path. *)
Definition expand_runner (fuel : nat) (last_errno : Z) (qemu : list cstr) (host_path user_path : cstr) : XM W Mem (cstr * cstr) :=
  do& envp := on_sys (fetch_array_of_xpointers fuel SYSARG_3 0) in
  do& w := on_sys (on_path (get world)) in
  do& (host_path, user_path, envp) :=
    (if is_host_elf w host_path then xret (host_path, user_path, envp)
     else
       do& _ := (if use_loader_for_qemu then xret () else xset (set_skip true)) in
       do& argv := on_sys (fetch_array_of_xpointers fuel SYSARG_2 0) in
       do& (argv, argv0) := on_sys (read_xpointee_as_string argv 0) in
       do& argv := xlift (runner_argv qemu argv argv0 user_path) in
       do& guest := xget guest_ldso_paths in
       do& host := xget host_ldso_paths in
       do& (envp, argv) := on_sys (ldso_env_passthru guest host envp argv (bs "-E") (bs "-U") (length qemu)) in
       do& _ := on_sys (push_array_of_xpointers argv SYSARG_2) in
       let runner := nth 0 qemu [] in
       if negb (zlen runner + zlen HOST_ROOTFS <? PATH_MAX) || negb (absolute runner) then xlift (Stuck AssertFailed)
       else
         do& skip := xget skip_proot_loader in
         xret (runner, if skip then runner else HOST_ROOTFS ++ runner, envp)) in
  do& (envp, _) := rebuild_host_ldso_paths fuel last_errno host_path envp in
  do& _ := on_sys (push_array_of_xpointers envp SYSARG_3) in
  xret (host_path, user_path).

End Ldso.

(** ** The list of directories as a list *)

(** What a part of a list of the host becomes. *)
Definition host_part (part : cstr) : cstr := (if absolute part then HOST_ROOTFS else []) ++ part.

(** The empty parts at the beginning are lost. *)
Fixpoint drop_empty (l : list cstr) : list cstr :=
  match l with
  | [] :: ((_ :: _) as l) => drop_empty l
  | l => l
  end.

Definition no_colon (p : cstr) : Prop := Forall (fun c => c <> 58) p.

Lemma parts_cons paths : exists p ps, parts paths = p :: ps.
Proof. destruct paths as [|c paths]; cbn; [by eexists _, _|]. destruct (parts paths); [by eexists _, _|]. case_bool; by eexists _, _. Qed.

Lemma parts_no_colon paths : Forall no_colon (parts paths).
Proof.
  induction paths as [|c paths IH]; cbn; [repeat constructor|]. destruct (parts_cons paths) as (p & ps & E). rewrite E in *.
  case_bool; bool_facts; [constructor; [constructor|done]|]. apply Forall_cons in IH as [Hp IH]. constructor; [by constructor|done].
Qed.

Lemma parts_part p : no_colon p -> parts p = [p].
Proof. induction 1 as [|c p Hc Hp IH]; [done|]. cbn. rewrite IH. by rewrite (proj2 (Z.eqb_neq c 58)). Qed.

Lemma parts_app a : forall p, no_colon p -> parts (a ++ [58] ++ p) = parts a ++ [p].
Proof.
  induction a as [|c a IH]; intros p Hp; cbn [app parts]; [by rewrite (parts_part p Hp)|]. specialize (IH p Hp). cbn [app parts] in IH. rewrite IH.
  destruct (parts_cons a) as (q & qs & E). rewrite E. cbn. by case_bool.
Qed.

Lemma add_parts_spec l : forall acc r, Forall no_colon l -> zlen acc < ARG_MAX -> add_parts acc l = Ok r ->
  zlen r < ARG_MAX /\ parts r = if str_eqb acc [] then drop_empty ([] :: (host_part <$> l)) else parts acc ++ (host_part <$> l).
Proof.
  induction l as [|p l IH]; intros acc r Hl Ha H; cbn [add_parts] in H.
  { injection H as <-. split; [done|]. cbn [fmap list_fmap]. rewrite app_nil_r. destruct (str_eqb acc []) eqn:E; [|done]. by bool_facts; subst. }
  case_bool_in H; [done|]. bool_facts. apply Forall_cons in Hl as [Hp Hl]. fold (host_part p) in H. rewrite fmap_cons.
  assert (Hh : no_colon (host_part p)) by (apply Forall_app; split; [case_bool; [by repeat constructor|constructor]|done]).
  assert (Hz : zlen (host_part p) = zlen p + if absolute p then zlen HOST_ROOTFS else 0) by (unfold host_part; rewrite zlen_app; destruct (absolute p); [lia|by change (zlen []) with 0; lia]).
  apply IH in H as [H1 H2]; [|done|rewrite zlen_app, Hz; pose proof (zlen_nonneg acc); case_bool; [change (zlen []) with 0|rewrite zlen_app; change (zlen [58]) with 1]; lia]. split; [done|]. rewrite H2.
  destruct (str_eqb acc []) eqn:E; cbn [app].
  - rewrite parts_part by done. cbn [drop_empty]. destruct (host_part p) eqn:Eh; [done|]. by case_bool.
  - rewrite <- app_assoc, parts_app by done. rewrite <- app_assoc. case_bool; [|done]. bool_facts. by destruct acc.
Qed.

Lemma add_host_ldso_paths_spec acc paths r : zlen acc < ARG_MAX -> add_host_ldso_paths acc paths = Ok r ->
  zlen r < ARG_MAX /\ parts r = if str_eqb acc [] then drop_empty (host_part <$> parts paths) else parts acc ++ (host_part <$> parts paths).
Proof.
  intros Ha H. apply add_parts_spec in H as [H1 H2]; [|apply parts_no_colon|done]. split; [done|]. rewrite H2. destruct (parts_cons paths) as (p & ps & ->). by case_bool.
Qed.

(** ** What the runner is given *)

(** A variable of the dynamic linker that is passed to the program, and its value. *)
Definition passed (guest host : option cstr) (env : cstr) : bool :=
  str_eqb (take 3 env) (bs "LD_") && existsb (is_env_name (guest_value guest host env)) PASSTHRU.
Definition library_path (guest host : option cstr) (env : cstr) : bool :=
  str_eqb (take 3 env) (bs "LD_") && is_env_name (guest_value guest host env) LD_LIBRARY_PATH.

(** The options of the runner: the last variable comes first. *)
Definition defines (define : cstr) (guest host : option cstr) (env : list cstr) : list cstr :=
  fold_left (fun l e => if passed guest host e then define :: guest_value guest host e :: l else l) env [].
Definition options (define undefine : cstr) (guest host : option cstr) (env : list cstr) : list cstr :=
  (if existsb (library_path guest host) env then [] else [undefine; LD_LIBRARY_PATH]) ++ defines define guest host env.

Definition blanked (guest host : option cstr) (env : list cstr) : list cstr :=
  (fun e => if passed guest host e then [] else e) <$> env.

Section Runner.

Context {W Mem : Type} {TM : TraceeMemory Mem} {TS : TraceeStrings Mem} {MC : MemoryContents Mem}.
Context {ML : MemoryContentsLaws Mem TM TS MC} {MR : MemoryReadsLaws Mem TM MC}.

Abbreviation State := (SysState W Mem).
Abbreviation sp x := (peek_reg (x_regs x) CURRENT STACK_POINTER).
Abbreviation reg x r := (peek_reg (x_regs x) CURRENT r).
Abbreviation untouched array := (Forall (fun p => local p = None) array).

Lemma option_inserted lo (x : State) argv pre post offset name value argv' : length pre = offset -> nul_free name -> nul_free value ->
  argv_denotes lo x argv (pre ++ post) -> insert_option argv offset name value = Ok argv' ->
  argv_denotes lo x argv' (pre ++ [name; value] ++ post) /\ ~ untouched argv'.
Proof.
  intros <- Hn Hv Hd H. unfold insert_option in H. apply res_bind_ok in H as (argv1 & H1 & H2).
  destruct (insert_denotes lo x argv (pre ++ post) (length pre) [name; value] argv1 argv') as [Hd' Hu]; try done.
  - by repeat constructor.
  - cbn. lia.
  - rewrite length_app. lia.
  - split; [|done]. by rewrite take_app_length, drop_app_length in Hd'.
Qed.

(** A list of strings once the first [i] variables are blanked. *)
Definition blanked_to (guest host : option cstr) (i : nat) (env : list cstr) : list cstr := blanked guest host (take i env) ++ drop i env.

Lemma blanked_step guest host i env e : env !! i = Some e ->
  blanked_to guest host (S i) env = (if passed guest host e then <[i := []]> else id) (blanked_to guest host i env).
Proof.
  intros He. unfold blanked_to, blanked. pose proof (lookup_lt_Some _ _ _ He). rewrite (take_S_r _ _ _ He), fmap_app. cbn [fmap list_fmap].
  rewrite (drop_S _ _ _ He), <- app_assoc. cbn [app]. case_bool; [|done].
  assert (L : length ((fun e => if passed guest host e then [] else e) <$> take i env) = i) by (rewrite length_fmap, length_take; lia).
  by rewrite insert_app_r_alt, L, Nat.sub_diag by lia.
Qed.

Lemma passthru_loop_inv lo guest host define offset env pre post : length pre = offset -> nul_free define -> Forall nul_free env -> Forall (fun s => zlen s < ARG_MAX) env ->
  match guest with Some g => nul_free g | None => True end ->
  forall n i envp argv seen (x x' : State) envp' argv' seen', (n + i = length env + 1)%nat ->
  argv_denotes lo x envp (blanked_to guest host i env) -> argv_denotes lo x argv (pre ++ defines define guest host (take i env) ++ post) ->
  seen = existsb (library_path guest host) (take i env) -> (untouched envp -> take i env = []) -> ~ untouched argv ->
  passthru_loop guest host define offset n i envp argv seen x = (x', Ok (envp', argv', seen')) ->
  x' = x /\ argv_denotes lo x envp' (blanked guest host env) /\ argv_denotes lo x argv' (pre ++ defines define guest host env ++ post)
  /\ seen' = existsb (library_path guest host) env /\ (untouched envp' -> env = []) /\ ~ untouched argv'.
Proof.
  intros Hpre Hdef Henv Hlen Hg n. induction n as [|n IH]; intros i envp argv seen x x' envp' argv' seen' Hi He Ha Hs Hu Hua H; cbn [passthru_loop] in H.
  { injection H as <- <- <- <-. assert (Ei : (length env <= i)%nat) by lia. unfold blanked_to in He. rewrite take_ge in * by done. rewrite drop_ge, app_nil_r in He by done. done. }
  assert (Hlen' : Forall (fun s => zlen s < ARG_MAX) (blanked_to guest host i env)).
  { apply Forall_app. split; [|by apply Forall_drop]. apply Forall_fmap. eapply Forall_impl; [by apply Forall_take|]. intros s Hs'. cbn. case_bool; [done|exact Hs']. }
  assert (Hlk : blanked_to guest host i env !! i = env !! i).
  { unfold blanked_to, blanked. destruct (decide (i < length env)%nat) as [Hlt|Hge].
    - rewrite lookup_app_r by (rewrite length_fmap, length_take; lia). rewrite length_fmap, length_take, lookup_drop. f_equal. lia.
    - rewrite !lookup_ge_None_2; [done|lia|]. rewrite length_app, length_fmap, length_take, length_drop. lia. }
  hstep H x1 r. destruct r as [envp1 e]. destruct (read_denotes _ _ _ _ _ _ _ _ He Hlen' E) as (-> & -> & He1 & _ & Hu1 & _).
  rewrite Hlk in H, Hu1. destruct (env !! i) as [e|] eqn:Ee.
  2: { subst envp1. apply lookup_ge_None in Ee. rewrite take_ge in * by lia. eapply IH in H; [exact H|lia|..]; rewrite ?take_ge by lia; try done.
       unfold blanked_to in *. rewrite take_ge, drop_ge in * by lia. done. }
  pose proof (lookup_lt_Some _ _ _ Ee) as Hlt. pose proof (take_S_r _ _ _ Ee) as Et.
  assert (Hnul : nul_free e) by (rewrite Forall_lookup in Henv; by eapply Henv).
  assert (Hval : nul_free (guest_value guest host e)) by (unfold guest_value; destruct host, guest; try done; by case_bool).
  assert (Hdefs : defines define guest host (take (S i) env) = if passed guest host e then define :: guest_value guest host e :: defines define guest host (take i env) else defines define guest host (take i env))
    by (unfold defines; by rewrite Et, fold_left_app).
  assert (Hseen : existsb (library_path guest host) (take (S i) env) = existsb (library_path guest host) (take i env) || library_path guest host e)
    by (rewrite Et, existsb_app; cbn; by rewrite orb_false_r).
  assert (Hskip : passed guest host e = false -> forall seen1, seen1 = existsb (library_path guest host) (take (S i) env) ->
    passthru_loop guest host define offset n (S i) envp1 argv seen1 x = (x', Ok (envp', argv', seen')) ->
    x' = x /\ argv_denotes lo x envp' (blanked guest host env) /\ argv_denotes lo x argv' (pre ++ defines define guest host env ++ post)
    /\ seen' = existsb (library_path guest host) env /\ (untouched envp' -> env = []) /\ ~ untouched argv').
  { intros Hp seen1 Hs1 H1. eapply IH; [|..|exact H1]; [lia| | |done|done|done].
    - by rewrite (blanked_step _ _ _ _ _ Ee), Hp.
    - by rewrite Hdefs, Hp. }
  change (passed guest host e) with (str_eqb (take 3 e) (bs "LD_") && existsb (is_env_name (guest_value guest host e)) PASSTHRU) in Hskip, Hdefs.
  change (library_path guest host e) with (str_eqb (take 3 e) (bs "LD_") && is_env_name (guest_value guest host e) LD_LIBRARY_PATH) in Hseen.
  destruct (str_eqb (take 3 e) (bs "LD_")) eqn:E3; cbn [negb andb] in *.
  2: { apply Hskip in H; [done|done|]. by rewrite Hseen, orb_false_r. }
  destruct (existsb (is_env_name (guest_value guest host e)) PASSTHRU) eqn:Ep.
  2: { apply Hskip in H; [done|done|]. by rewrite Hseen, Hs. }
  assert (Hpass : passed guest host e = true) by (unfold passed; by rewrite E3).
  hstep H x1 argv1. unfold hlift in E0. injection E0 as <- E0. destruct (option_inserted _ _ _ _ _ _ _ _ _ Hpre Hdef Hval Ha E0) as [Ha1 Hua1].
  hstep H x1 envp2. unfold hlift in E1. injection E1 as <- E1.
  assert (Hib : (i < length (blanked_to guest host i env))%nat) by (apply lookup_lt_is_Some; by rewrite Hlk).
  destruct (set_denotes _ _ _ _ _ _ _ He1 ltac:(constructor) Hib E1) as (He2 & _ & Hu2).
  eapply IH in H; [exact H|lia|..]; try done.
  - by rewrite (blanked_step _ _ _ _ _ Ee), Hpass.
  - by rewrite Hdefs.
  - by rewrite Hseen, Hs.
Qed.

Lemma ldso_env_passthru_inv lo guest host define undefine offset env pre post envp argv (x x' : State) envp' argv' :
  length pre = offset -> nul_free define -> nul_free undefine -> Forall nul_free env -> Forall (fun s => zlen s < ARG_MAX) env -> match guest with Some g => nul_free g | None => True end ->
  argv_denotes lo x envp env -> argv_denotes lo x argv (pre ++ post) -> ~ untouched argv ->
  ldso_env_passthru guest host envp argv define undefine offset x = (x', Ok (envp', argv')) ->
  x' = x /\ argv_denotes lo x envp' (blanked guest host env) /\ (untouched envp' -> env = [])
  /\ argv_denotes lo x argv' (pre ++ options define undefine guest host env ++ post) /\ ~ untouched argv'.
Proof.
  intros Hpre Hd Hun Henv Hlen Hg He Ha Hu H. unfold ldso_env_passthru in H. hstep H x1 r. destruct r as [[envp1 argv1] seen].
  assert (Hl : length envp = (length env + 1)%nat) by (destruct He as (entries & last & -> & _ & _ & Hf); rewrite length_app, (Forall2_length _ _ _ Hf); done).
  eapply (passthru_loop_inv lo guest host define offset env pre post) in E as (-> & He1 & Ha1 & -> & Hu1 & Hua1); try done; [|lia].
  unfold options. destruct (existsb _ env).
  - injection H as <- <- <-. done.
  - hstep H x2 argv2. unfold hlift in E. injection E as <- E. injection H as <- <- <-.
    destruct (option_inserted _ _ _ _ _ _ _ LD_LIBRARY_PATH _ Hpre Hun ltac:(by repeat constructor) Ha1 E) as [Ha2 Hua2]. split; [done|]. split; [done|]. split; [done|]. by rewrite <- app_assoc.
Qed.

Lemma write_xpointees_app l k : forall array i, write_xpointees array i (l ++ k) = res_bind (write_xpointees array i l) (fun array => write_xpointees array (i + length l) k).
Proof.
  induction l as [|s l IH]; intros array i; cbn [app write_xpointees length res_bind]; [by rewrite Nat.add_0_r|].
  destruct (write_xpointee_as_string array i s); cbn [res_bind]; [|done|done]. by rewrite IH, Nat.add_succ_comm.
Qed.

(** The name of the program is replaced with the runner, its options and the program. *)
Lemma runner_argv_inv lo (x : State) argv args qemu user argv' : argv_denotes lo x argv args -> Forall nul_free qemu -> nul_free user -> Forall nul_free args -> qemu <> [] ->
  runner_argv qemu argv (args !! 0%nat) user = Ok argv' ->
  exists argv0 rest, args = argv0 :: rest /\ argv_denotes lo x argv' (qemu ++ [bs "-0"; argv0; user] ++ rest) /\ ~ untouched argv'.
Proof.
  intros (entries & last & -> & Hl & Hr & Hd) Hq Hu Ha Hne H. unfold runner_argv in H. apply res_bind_ok in H as (argv1 & H1 & H). apply res_bind_ok in H as (argv2 & H2 & H).
  destruct Hd as [|p a0 entries args Hp Hd]; [done|]. cbn [lookup list_lookup] in H. exists a0, args. split; [done|].
  unfold resize_array_of_xpointers in H1. case_bool_in H1; [|done]. pose proof (zlen_nonneg qemu). rewrite (proj2 (Z.eqb_neq _ _)), (proj2 (Z.ltb_lt _ _)) in H1 by lia. injection H1 as <-. cbn [app take drop] in H2.
  assert (Hw : write_xpointees (p :: replicate (Z.to_nat (zlen qemu + 2)) (mkX 0 None) ++ entries ++ [last]) 0 (qemu ++ [bs "-0"; a0; user]) = Ok argv') by (rewrite write_xpointees_app, drop_0 in *; by rewrite H2).
  destruct (write_block (qemu ++ [bs "-0"; a0; user]) [] (p :: replicate (Z.to_nat (zlen qemu + 2)) (mkX 0 None)) (entries ++ [last])) as (mid & E & Hm).
  { cbn [length]. rewrite length_replicate, length_app. cbn [length]. unfold zlen. lia. }
  cbn [app length] in E. rewrite E in Hw. injection Hw as <-. apply Forall_cons in Ha as [Ha0 _].
  split.
  - exists (mid ++ entries), last. split; [by rewrite app_assoc|]. split; [done|]. split; [done|]. rewrite app_assoc. apply Forall2_app; [|done]. apply block_denotes; [done|].
    apply Forall_app. split; [done|]. by repeat constructor.
  - intros Hf. apply Forall_app in Hf as [Hf _]. destruct qemu as [|q qs]; [done|]. destruct mid as [|m mid]; [by apply Forall2_nil_inv_l in Hm|]. apply Forall2_cons in Hm as [Hm _]. apply Forall_inv in Hf. congruence.
Qed.

(** ** The environment of the runner *)

(** The index of a variable; the one past the null pointer when there is none. *)
Fixpoint name_index (name : cstr) (env : list cstr) : nat :=
  match env with
  | [] => 1
  | e :: env => if is_env_name e name then 0 else S (name_index name env)
  end.
(** A variable takes a value, or comes last. *)
Definition with_variable (name value : cstr) (env : list cstr) : list cstr :=
  if existsb (fun e => is_env_name e name) env then <[name_index name env := value]> env else env ++ [value].

Lemma name_index_bound name env : (name_index name env < length env \/ name_index name env = length env + 1)%nat
  /\ (name_index name env < length env <-> existsb (fun e => is_env_name e name) env = true)%nat.
Proof.
  induction env as [|e env [IH1 IH2]]; cbn; [split; [lia|split; [lia|done]]|]. destruct (is_env_name e name); cbn; [split; [lia|split; [done|lia]]|].
  split; [lia|]. rewrite <- IH2. lia.
Qed.

Lemma compare_env_state name envp i (x : State) : fst (compare_xpointee_env envp i name x) = x.
Proof. unfold compare_xpointee_env, hbind. pose proof (read_state envp i x) as H. by destruct (read_xpointee_as_string envp i x) as [y [[a s]|e|w]]. Qed.

(** A variable of the environment that the tracee has and that is not read. *)
Definition unread (x : State) (env : list cstr) : Prop :=
  exists s p, s ∈ env /\ holds_at (x_mem x) (x_me x) p (s ++ [0])
    /\ ((exists e, read_string (x_mem x) (x_me x) p ARG_MAX = inr e) \/ ARG_MAX <= zlen s + 1).

Lemma read_error lo (x x' : State) array strings i e : argv_denotes lo x array strings -> Forall (fun s => zlen s < ARG_MAX) strings ->
  read_xpointee_as_string array i x = (x', Err e) -> unread x strings.
Proof.
  intros (entries & last & -> & Hl & Hr & Hd) Hlen H. unfold read_xpointee_as_string in H. destruct (_ !! i) as [p|] eqn:Ei; [|done].
  destruct (local p) eqn:El; [done|]. case_bool_in H; [done|]. bool_facts. destruct (decide (i < length entries)%nat) as [Hie|Hie].
  - rewrite lookup_app_l in Ei by done. destruct (Forall2_lookup_l _ _ _ _ _ Hd Ei) as (s & Hs & Hds). unfold denotes in Hds. rewrite El in Hds. destruct Hds as (D1 & D2 & D3 & D4).
    exists s, (remote p). split; [by eapply list_elem_of_lookup_2|]. split; [done|]. unfold hbind, hget in H. destruct (read_string _ _ _ _) as [t|n] eqn:Et; [right|left; by exists n].
    case_bool_in H; [|done]. bool_facts. rewrite Forall_lookup in Hlen. assert (t = s) as -> by (eapply read_string_held; [exact D3|done| |exact Et]; by eapply Hlen). done.
  - exfalso. pose proof (lookup_lt_Some _ _ _ Ei) as Hi. rewrite length_app in Hi. cbn in Hi. rewrite lookup_app_r in Ei by lia. replace (i - length entries)%nat with 0%nat in Ei by lia. by injection Ei as <-.
Qed.

Lemma find_env_inv lo env name : Forall (fun s => zlen s < ARG_MAX) env -> forall n i envp (x x' : State) envp' r, argv_denotes lo x envp env -> (n + i = length env + 1)%nat ->
  find_loop compare_xpointee_env n envp i name x = (x', Ok (envp', r)) ->
  x' = x /\ argv_denotes lo x envp' env /\ (untouched envp' -> envp' = envp) /\ match r with inl index => index = (i + if (i <=? length env)%nat then name_index name (drop i env) else 0)%nat | inr _ => unread x env end.
Proof.
  intros Hlen n. induction n as [|n IH]; intros i envp x x' envp' r Hd Hi H; cbn [find_loop] in H.
  { injection H as <- <- <-. split; [done|]. split; [done|]. split; [done|]. rewrite (proj2 (Nat.leb_gt _ _)) by lia. lia. }
  unfold hbind at 1, hattempt in H. destruct (compare_xpointee_env envp i name x) as [x1 [[envp1 equal]|e|w]] eqn:E; [| |done].
  2: { pose proof (compare_env_state name envp i x) as Ex. rewrite E in Ex. cbn in Ex. subst x1. injection H as <- <- <-. split; [done|]. split; [done|]. split; [done|].
       unfold compare_xpointee_env, hbind in E. destruct (read_xpointee_as_string envp i x) as [x2 [[a s]|e2|w]] eqn:Er; [done| |done]. by eapply read_error. }
  unfold compare_xpointee_env in E. unfold hbind in E. destruct (read_xpointee_as_string envp i x) as [x2 [[a s]|e2|w]] eqn:Er; [|done|done]. injection E as <- <- <-.
  destruct (read_denotes _ _ _ _ _ _ _ _ Hd Hlen Er) as (-> & -> & Hd1 & _ & Hu & Hie).
  assert (Hl : length envp = (length env + 1)%nat) by (destruct Hd as (entries & last & -> & _ & _ & Hf); rewrite length_app, (Forall2_length _ _ _ Hf); done).
  rewrite (proj2 (Nat.leb_le i (length env))) by lia.
  assert (Hnext : forall y, find_loop compare_xpointee_env n a (S i) name x = y -> y = (x', Ok (envp', r)) -> (match env !! i with None => True | Some e => is_env_name e name = false end) ->
    x' = x /\ argv_denotes lo x envp' env /\ (untouched envp' -> envp' = envp) /\ match r with inl index => index = (i + name_index name (drop i env))%nat | inr _ => unread x env end).
  { intros y <- H1 He. apply IH in H1 as (-> & H2 & H3 & H4); [|done|lia]. split; [done|]. split; [done|]. split.
    - intros Hf. specialize (H3 Hf). subst a. destruct (env !! i); [done|]. done.
    - destruct r as [index|]; [|done]. subst index. destruct (env !! i) as [e|] eqn:Ee.
      + pose proof (lookup_lt_Some _ _ _ Ee). rewrite (drop_S _ _ _ Ee). cbn [name_index]. rewrite He, (proj2 (Nat.leb_le _ _)) by lia. lia.
      + apply lookup_ge_None in Ee. rewrite (drop_ge env i), (proj2 (Nat.leb_gt (S i) _)) by lia. cbn. lia. }
  destruct (env !! i) as [e|] eqn:Ee; [|by eapply Hnext; [reflexivity|exact H|]]. destruct (is_env_name e name) eqn:En; [|by eapply Hnext; [reflexivity|exact H|]].
  injection H as <- <- <-. split; [done|]. split; [done|]. split; [done|]. rewrite (drop_S _ _ _ Ee). cbn. rewrite En. lia.
Qed.

End Runner.

(** ** The paths that are read are strings *)

Definition paths_ok (paths : option cstr) : Prop := match paths with Some paths => nul_free paths | None => True end.

Lemma parts_nul_free paths : nul_free paths -> Forall nul_free (parts paths).
Proof.
  induction 1 as [|c paths Hc Hp IH]; cbn; [repeat constructor|]. destruct (parts_cons paths) as (p & ps & E). rewrite E in *. apply Forall_cons in IH as [H1 H2].
  case_bool; repeat constructor; done.
Qed.

Lemma add_host_ldso_paths_nul_free acc paths r : nul_free acc -> nul_free paths -> add_host_ldso_paths acc paths = Ok r -> nul_free r.
Proof.
  intros Ha Hp. unfold add_host_ldso_paths. apply parts_nul_free in Hp. revert acc Ha. induction Hp as [|p l Hp Hl IH]; intros acc Ha H; cbn [add_parts] in H; [by injection H as <-|].
  case_bool_in H; [done|]. apply IH in H; [done|]. apply Forall_app. split; [case_bool; [constructor|apply Forall_app; split; [done|by repeat constructor]]|].
  apply Forall_app. split; [|done]. case_bool; [by repeat constructor|constructor].
Qed.

Lemma search_paths_nul_free initial android class64 rpaths runpaths r : nul_free initial -> paths_ok rpaths -> paths_ok runpaths ->
  search_paths initial android class64 rpaths runpaths = Ok r -> nul_free r /\ zlen r < ARG_MAX.
Proof.
  intros Hi H1 H2 H. unfold search_paths in H. apply res_bind_ok in H as (p1 & E1 & H). apply res_bind_ok in H as (p2 & E2 & H). apply res_bind_ok in H as (p3 & E3 & H).
  assert (Hnil : nul_free [] /\ zlen (@nil Z) < ARG_MAX) by (split; [constructor|done]).
  assert (A1 : nul_free p1 /\ zlen p1 < ARG_MAX).
  { destruct rpaths as [rp|]; [destruct runpaths|]; try (by injection E1 as <-). destruct Hnil. split; [by eapply add_host_ldso_paths_nul_free; [..|exact E1]|]. by eapply add_host_ldso_paths_spec; [|exact E1]. }
  assert (A2 : nul_free p2 /\ zlen p2 < ARG_MAX).
  { case_bool_in E2; [by injection E2 as <-|]. destruct A1. split; [by eapply add_host_ldso_paths_nul_free; [..|exact E2]|by eapply add_host_ldso_paths_spec; [|exact E2]]. }
  assert (A3 : nul_free p3 /\ zlen p3 < ARG_MAX).
  { destruct runpaths; [|by injection E3 as <-]. destruct A2. split; [by eapply add_host_ldso_paths_nul_free; [..|exact E3]|by eapply add_host_ldso_paths_spec; [|exact E3]]. }
  destruct A3. split; [|by eapply add_host_ldso_paths_spec; [|exact H]]. eapply add_host_ldso_paths_nul_free; [..|exact H]; [done|].
  destruct class64, android; by repeat constructor.
Qed.

Section Read.

Context {W : Type} {K : Kernel W} {E : Extensions W} {V : PathEvents W} {N : PathPolicy W} {EH : ExecHost W} (uninit : nat -> nat -> Z).

Lemma read_paths_nul_free fuel : forall time file offset r, read_paths uninit fuel time file offset = Ok r -> nul_free r.
Proof.
  induction fuel as [|fuel IH]; intros time file offset r H; [done|]. cbn [read_paths] in H. apply res_bind_ok in H as (b & _ & H).
  pose proof (proj1 (until_nul_spec 1024 b)) as Hb. case_bool_in H; [|by injection H as <-]. apply res_bind_ok in H as (r1 & H1 & H). injection H as <-.
  apply Forall_app. split; [done|by eapply IH].
Qed.

Lemma foreach_inv {A} (P : A -> Prop) last_errno file class64 offset type (code : Z -> A -> res (bool * A)) :
  (forall v a b a', P a -> code v a = Ok (b, a') -> P a') -> forall n i a b a', P a -> foreach_dynamic_entry uninit last_errno file class64 offset type code n i a = Ok (b, a') -> P a'.
Proof.
  intros Hc n. induction n as [|n IH]; intros i a b a' Ha H; cbn [foreach_dynamic_entry] in H; [by injection H as _ <-|]. unfold seek in H.
  case_bool_in H; [done|]. case_bool_in H; [case_bool_in H; [by injection H as _ <-|done]|]. apply res_bind_ok in H as (d & _ & H). destruct (parse_dynamic_entry class64 d) as [tag value].
  case_bool_in H; [by eapply IH|]. apply res_bind_ok in H as ([s a1] & H1 & H). destruct s; [injection H as _ <-; by eapply Hc|]. eapply IH; [|exact H]. by eapply Hc.
Qed.

Lemma add_xpaths_ok fuel last_errno file offset xpaths r : paths_ok xpaths -> add_xpaths uninit fuel last_errno file offset xpaths = Ok r -> paths_ok r.
Proof.
  intros Hx H. unfold add_xpaths, seek in H. case_bool_in H; [done|]. case_bool_in H; [case_bool_in H; [by injection H as <-|done]|]. apply res_bind_ok in H as (p & Hp & H). injection H as <-.
  apply read_paths_nul_free in Hp. destruct xpaths as [x|]; [|done]. cbn. apply Forall_app. split; [done|]. by constructor.
Qed.

(** The iteration over program headers leaves the tracee. *)
Lemma find_header_tracee {A} (callback : ProgramHeader -> A -> M W (bool * A)) n class64 size err : (forall p a t, fst (callback p a t) = t) ->
  forall data a t, fst (iterate_loop n class64 size data err callback a t) = t.
Proof.
  intros Hc. induction n as [|n IH]; intros data a t; cbn [iterate_loop]; [done|]. case_bool; [by destruct data, err|].
  unfold bind. specialize (Hc (parse_program_header class64 (take (Z.to_nat size) data)) a t). destruct (callback _ a t) as [t1 [[s a1]|e|w]]; cbn in *; subst; [|done|done].
  destruct s; [done|]. apply IH.
Qed.

Lemma iterate_tracee last_errno file header type address (t : Tracee W) : fst (iterate_program_headers last_errno file header (find_program_header type address) None t) = t.
Proof.
  unfold iterate_program_headers. repeat (case_bool; [done|]). case_bool; [by case_bool|]. apply find_header_tracee. intros p a t'. unfold find_program_header. by case_bool.
Qed.

Lemma read_ldso_rpaths_inv fuel last_errno file header (t t' : Tracee W) rpaths runpaths : read_ldso_rpaths uninit fuel last_errno file header t = (t', Ok (rpaths, runpaths)) ->
  t' = t /\ paths_ok rpaths /\ paths_ok runpaths.
Proof.
  unfold read_ldso_rpaths. intros H. apply bind_inv in H as (t1 & [found dynamic] & H1 & H). pose proof (f_equal fst H1) as Ht. rewrite iterate_tracee in Ht. cbn in Ht. subst t1.
  destruct found; [|by injection H as <- <- <-]. destruct dynamic as [dynamic|]; [|by injection H as <- <- <-].
  case_bool_in H; [done|]. apply bind_inv in H as (t1 & [returned strtab] & H2 & H). unfold lift in H2. injection H2 as <- _. case_bool_in H; [by injection H as <- <- <-|].
  apply bind_inv in H as (t1 & [f2 segment] & H3 & H). pose proof (f_equal fst H3) as Ht. rewrite iterate_tracee in Ht. cbn in Ht. subst t1.
  destruct segment as [segment|]; [|done]. apply bind_inv in H as (t1 & [b1 rp] & H4 & H). unfold lift in H4. injection H4 as <- H4.
  set (add := fun value xpaths => _) in H4.
  assert (Hadd : forall v a b a', paths_ok a -> add v a = Ok (b, a') -> paths_ok a').
  { intros v a b a' Ha Hv. unfold add in Hv. case_bool_in Hv; [done|]. apply res_bind_ok in Hv as (x & Hx & Hv). injection Hv as _ <-. by eapply add_xpaths_ok. }
  assert (Hr1 : paths_ok rp) by (by eapply (foreach_inv paths_ok); [exact Hadd| |exact H4]).
  destruct b1; [by injection H as <- <- <-|]. apply bind_inv in H as (t1 & [b2 rn] & H5 & H). unfold lift in H5. injection H5 as <- H5. injection H as <- <- <-.
  split; [done|]. split; [done|]. by eapply (foreach_inv paths_ok); [exact Hadd| |exact H5].
Qed.

End Read.

(** ** The runner, as a whole *)

Section Expanded.

Context {W Mem : Type} {TM : TraceeMemory Mem} {TS : TraceeStrings Mem} {MC : MemoryContents Mem}.
Context {ML : MemoryContentsLaws Mem TM TS MC} {MR : MemoryReadsLaws Mem TM MC}.
Context {K : Kernel W} {E : Extensions W} {V : PathEvents W} {N : PathPolicy W} {EH : ExecHost W}.
Context (uninit : nat -> nat -> Z) (initial : cstr) (force_foreign use_loader android : bool).

Abbreviation State := (SysState W Mem).
Abbreviation sp x := (peek_reg (x_regs x) CURRENT STACK_POINTER).
Abbreviation reg x r := (peek_reg (x_regs x) CURRENT r).
Abbreviation untouched array := (Forall (fun p => local p = None) array).

Lemma xbind_inv {A B} (m : XM W Mem A) (k : A -> XM W Mem B) e x e' x' b : xbind m k e x = (e', x', Ok b) ->
  exists e1 x1 a, m e x = (e1, x1, Ok a) /\ k a e1 x1 = (e', x', Ok b).
Proof. unfold xbind. destruct (m e x) as [[e1 x1] [a|n|w]]; [|done|done]. intros H. by exists e1, x1, a. Qed.

Lemma on_sys_inv {A} (m : HM W Mem A) e x e' x' a : on_sys m e x = (e', x', Ok a) -> e' = e /\ m x = (x', Ok a).
Proof. unfold on_sys. destruct (m x) as [x1 r]. intros H. by injection H as -> -> ->. Qed.

Lemma on_sys_world e (x : State) e' x' w : on_sys (on_path (get world)) e x = (e', x', Ok w) -> e' = e /\ x' = x /\ w = world (x_path x).
Proof. intros H. apply on_sys_inv in H as [-> H]. unfold on_path, get in H. injection H as <- <-. by destruct x. Qed.

(** The environment of a host program.  It is left when the lists of directories are
    too long, or when it cannot be searched for the variable. *)
Definition host_environment (w : W) (last_errno : Z) (fuel : nat) (t : Tracee W) (host_path : cstr) (x : State) (env env' : list cstr) : Prop :=
  exists file header rpaths runpaths, open_file w host_path = inl file /\ read_elf file = Ok header
    /\ read_ldso_rpaths uninit fuel last_errno file header t = (t, Ok (rpaths, runpaths))
    /\ match search_paths initial android (class64 header) rpaths runpaths with
       | Ok paths => env' = with_variable LD_LIBRARY_PATH (LD_LIBRARY_PATH ++ [61] ++ paths) env \/ env' = env /\ unread x env
       | Err _ => env' = env
       | Stuck _ => False
       end.

(** The variable that is made of its directories fits. *)
Definition room (w : W) (last_errno : Z) (fuel : nat) (t : Tracee W) (host_path : cstr) : Prop :=
  forall file header rpaths runpaths paths, open_file w host_path = inl file -> read_elf file = Ok header ->
    read_ldso_rpaths uninit fuel last_errno file header t = (t, Ok (rpaths, runpaths)) ->
    search_paths initial android (class64 header) rpaths runpaths = Ok paths -> zlen paths + zlen LD_LIBRARY_PATH + 2 <= ARG_MAX.

Lemma ldso_paths_id e : e = set_ldso_paths (guest_ldso_paths e) (host_ldso_paths e) e.
Proof. by destruct e. Qed.

(** The entry that is found, or added, is written. *)
Lemma entry_written lo env envp index value e (x : State) e' x' envp' index' envp2 :
  argv_denotes lo x envp env -> Forall nul_free env -> Forall (fun s => zlen s < ARG_MAX) env -> nul_free value -> paths_ok (guest_ldso_paths e) ->
  index = name_index LD_LIBRARY_PATH env -> ldso_entry envp index e x = (e', x', Ok (envp', index')) ->
  write_xpointee_as_string envp' index' value = Ok envp2 ->
  x' = x /\ (exists g, e' = set_ldso_paths g (host_ldso_paths e) e /\ paths_ok g) /\ argv_denotes lo x envp2 (with_variable LD_LIBRARY_PATH value env) /\ ~ untouched envp2.
Proof.
  intros Hd Hnul Hlen Hv Hg -> H Hw. assert (Hl : length envp = (length env + 1)%nat) by (destruct Hd as (entries & last & -> & _ & _ & Hf); rewrite length_app, (Forall2_length _ _ _ Hf); done).
  destruct (name_index_bound LD_LIBRARY_PATH env) as [B1 B2]. unfold ldso_entry in H. unfold with_variable. case_bool_in H; [apply Nat.eqb_eq in Hb|apply Nat.eqb_neq in Hb].
  - apply xbind_inv in H as (e1 & x1 & envp1 & H1 & H). injection H1 as <- <- H1. injection H as <- <- <- <-.
    assert (Ex : existsb (fun e => is_env_name e LD_LIBRARY_PATH) env = false) by (apply not_true_is_false; rewrite <- B2; lia). rewrite Ex.
    rewrite Hl in *. replace (length env + 1 - 1)%nat with (length env) in * by lia.
    destruct (insert_denotes lo x envp env (length env) [value] envp1 envp2 Hd) as [Hd' Hu]; try done; [by repeat constructor|cbn; lia|cbn [write_xpointees]; by rewrite Hw|].
    rewrite take_ge, drop_ge, app_nil_r in Hd' by lia. split; [done|]. split; [|done]. exists (guest_ldso_paths e). split; [apply ldso_paths_id|done].
  - assert (Hi : (name_index LD_LIBRARY_PATH env < length env)%nat) by lia. pose proof (proj1 B2 Hi) as ->. set (i := name_index LD_LIBRARY_PATH env) in *.
    assert (Hdone : forall g e1 envp1, e1 = set_ldso_paths g (host_ldso_paths e) e -> paths_ok g -> argv_denotes lo x envp1 env -> write_xpointee_as_string envp1 i value = Ok envp2 ->
      x = x /\ (exists g', e1 = set_ldso_paths g' (host_ldso_paths e) e /\ paths_ok g') /\ argv_denotes lo x envp2 (<[i:=value]> env) /\ ~ untouched envp2).
    { intros g e1 envp1 He1 Hg1 Hd1 Hw1. destruct (set_denotes _ _ _ _ _ _ _ Hd1 Hv Hi Hw1) as (Hd2 & _ & Hu2). split; [done|]. split; [by exists g|done]. }
    apply xbind_inv in H as (e1 & x1 & guest & H1 & H). injection H1 as <- <- Eg.
    destruct guest as [g|].
    { injection H as <- <- <- <-. by eapply Hdone; [apply ldso_paths_id|..]. }
    apply xbind_inv in H as (e1 & x1 & r & H1 & H). apply on_sys_inv in H1 as [-> H1]. unfold hattempt in H1. destruct (read_xpointee_as_string envp i x) as [x2 [[envp1 string]|n|w]] eqn:Er; [| |done].
    + injection H1 as <- <-. destruct (read_denotes _ _ _ _ _ _ _ _ Hd Hlen Er) as (-> & -> & Hd1 & _). injection H as <- <- <- <-.
      eapply Hdone; [reflexivity| |exact Hd1|exact Hw]. destruct (env !! i) as [s|] eqn:Es; [|done]. cbn. rewrite Forall_lookup in Hnul. by eapply Hnul.
    + injection H1 as <- <-. injection H as <- <- <- <-.
      pose proof (read_state envp i x) as Ex. rewrite Er in Ex. cbn in Ex. subst x2.
      by eapply Hdone; [apply ldso_paths_id|..].
Qed.

(** The tracee is left, whatever its memory has. *)
Lemma entry_state envp index e (x : State) e' x' r : ldso_entry envp index e x = (e', x', Ok r) -> x' = x.
Proof.
  intros H. unfold ldso_entry in H. case_bool_in H; apply xbind_inv in H as (e1 & x1 & a & H1 & H); injection H1 as <- <- _; [by injection H|].
  destruct a; [by injection H|]. apply xbind_inv in H as (e1 & x1 & s & H1 & H). apply on_sys_inv in H1 as [-> H1]. unfold hattempt in H1. pose proof (read_state envp index x) as Ex.
  destruct (read_xpointee_as_string envp index x) as [y [[a s1]|n|w]]; [| |done]; cbn in Ex; subst y; injection H1 as <- <-; by injection H.
Qed.

Lemma rebuild_state fuel last_errno host_path envp e (x : State) e' x' r :
  rebuild_host_ldso_paths uninit initial android fuel last_errno host_path envp e x = (e', x', Ok r) -> x' = x.
Proof.
  intros H. unfold rebuild_host_ldso_paths in H. apply xbind_inv in H as (e1 & x1 & w & H1 & H). apply on_sys_world in H1 as (-> & -> & ->).
  destruct (open_file _ _) as [file|n]; [|done]. apply xbind_inv in H as (e1 & x1 & header & H1 & H). injection H1 as <- <- _.
  apply xbind_inv in H as (e1 & x1 & [rpaths runpaths] & H1 & H). apply on_sys_inv in H1 as [-> H1]. apply on_path_inv in H1 as (t & Ht & ->). apply read_ldso_rpaths_inv in Ht as (-> & _).
  assert (Ex : mkSys (x_regs x) (x_mem x) (x_me x) (x_sysenter x) (x_path x) (x_flags x) (x_netlink x) = x) by (by destruct x). rewrite Ex in H.
  destruct (search_paths _ _ _ _ _) as [paths|n|w]; [|by injection H|done]. apply xbind_inv in H as (e1 & x1 & [envp1 r1] & H1 & H). apply on_sys_inv in H1 as [-> H1].
  pose proof (find_state compare_xpointee_env LD_LIBRARY_PATH (fun a i y => compare_env_state LD_LIBRARY_PATH a i y) (length envp) envp 0 x) as Ef. unfold find_xpointee in H1. rewrite H1 in Ef. cbn in Ef. subst x1.
  destruct r1; [|by injection H]. apply xbind_inv in H as (e1 & x1 & [envp2 i2] & H2 & H). apply entry_state in H2 as ->. cbv zeta in H. case_bool_in H; [by injection H|].
  apply xbind_inv in H as (e2 & x2 & envp3 & H2 & H). injection H2 as <- <- _. by injection H.
Qed.

Lemma rebuild_inv lo fuel last_errno host_path env envp e (x : State) e' x' envp' found :
  argv_denotes lo x envp env -> Forall nul_free env -> Forall (fun s => zlen s < ARG_MAX) env -> nul_free initial -> paths_ok (guest_ldso_paths e) ->
  room (world (x_path x)) last_errno fuel (x_path x) host_path ->
  rebuild_host_ldso_paths uninit initial android fuel last_errno host_path envp e x = (e', x', Ok (envp', found)) ->
  x' = x /\ (exists g h, e' = set_ldso_paths g h e /\ paths_ok g)
  /\ exists env', argv_denotes lo x envp' env' /\ (untouched envp' -> untouched envp /\ env' = env)
     /\ host_environment (world (x_path x)) last_errno fuel (x_path x) host_path x env env'.
Proof.
  intros Hd Hnul Hlen Hi Hg Hroom H. unfold rebuild_host_ldso_paths in H. apply xbind_inv in H as (e1 & x1 & w & H1 & H). apply on_sys_world in H1 as (-> & -> & ->).
  destruct (open_file _ _) as [file|n] eqn:Ef; [|done]. apply xbind_inv in H as (e1 & x1 & header & H1 & H). injection H1 as <- <- Eh.
  apply xbind_inv in H as (e1 & x1 & [rpaths runpaths] & H1 & H). apply on_sys_inv in H1 as [-> H1]. apply on_path_inv in H1 as (t & Ht & ->).
  pose proof Ht as Hrd. apply read_ldso_rpaths_inv in Ht as (-> & Hrp & Hrn).
  assert (Ex : mkSys (x_regs x) (x_mem x) (x_me x) (x_sysenter x) (x_path x) (x_flags x) (x_netlink x) = x) by (by destruct x). rewrite Ex in H.
  assert (Hsame : forall envp1, argv_denotes lo x envp1 env -> (untouched envp1 -> envp1 = envp) ->
    match search_paths initial android (class64 header) rpaths runpaths with Ok _ => unread x env | Err _ => True | Stuck _ => False end ->
    x = x /\ (exists g h, e = set_ldso_paths g h e /\ paths_ok g)
    /\ exists env', argv_denotes lo x envp1 env' /\ (untouched envp1 -> untouched envp /\ env' = env) /\ host_environment (world (x_path x)) last_errno fuel (x_path x) host_path x env env').
  { intros envp1 Hd1 Hu1 Hs. split; [done|]. split; [eexists _, _; split; [apply ldso_paths_id|done]|]. exists env. split; [done|]. split.
    - intros Hu. split; [|done]. by rewrite <- (Hu1 Hu).
    - exists file, header, rpaths, runpaths. do 3 (split; [done|]). destruct (search_paths _ _ _ _ _); [by right|done..]. }
  destruct (search_paths _ _ _ _ _) as [paths|n|w] eqn:Es; [|injection H as <- <- <- <-; by apply Hsame|done].
  apply xbind_inv in H as (e1 & x1 & [envp1 r] & H1 & H). apply on_sys_inv in H1 as [-> H1]. unfold find_xpointee in H1.
  assert (Hl : length envp = (length env + 1)%nat) by (destruct Hd as (entries & last & -> & _ & _ & Hf); rewrite length_app, (Forall2_length _ _ _ Hf); done).
  apply (find_env_inv lo env _ Hlen) in H1 as (-> & Hd1 & Hu1 & Hr); [|done|lia]. destruct r as [index|n]; [|injection H as <- <- <- <-; by apply Hsame].
  cbn [Nat.leb] in Hr. rewrite drop_0 in Hr. cbn [Nat.add] in Hr. apply xbind_inv in H as (e1 & x1 & [envp2 index'] & H1 & H).
  specialize (Hroom _ _ _ _ _ Ef Eh Hrd Es). rewrite (proj2 (Z.ltb_ge _ _)) in H by lia.
  apply xbind_inv in H as (e2 & x2 & envp3 & H2 & H). injection H2 as <- <- Hw.
  destruct (search_paths_nul_free _ _ _ _ _ _ Hi Hrp Hrn Es) as [Hps _].
  assert (Hv : nul_free (LD_LIBRARY_PATH ++ [61] ++ paths)) by (apply Forall_app; split; [by repeat constructor|by constructor]).
  destruct (entry_written _ _ _ _ _ _ _ _ _ _ _ _ Hd1 Hnul Hlen Hv Hg Hr H1 Hw) as (-> & (g & -> & Hg') & Hd3 & Hu3).
  injection H as <- <- <- <-. split; [done|]. split.
  { eexists _, _. split; [|exact Hg']. by destruct e. }
  eexists. split; [exact Hd3|]. split; [by intros Hu|]. exists file, header, rpaths, runpaths. do 3 (split; [done|]). rewrite Es. by left.
Qed.

(** An array that stands for strings, or that is the one of the tracee. *)
Lemma pushed lo array strings r (x x' : State) : lo <= sp x' -> regs_ok (x_regs x) -> is_arg r = true -> argv_denotes lo x array strings ->
  (untouched array -> argv_held lo x (reg x r) strings /\ clear_of_stack lo x (reg x r) ((zlen strings + 1) * sizeof_word (x_regs x))) -> push_array_of_xpointers array r x = (x', Ok ()) ->
  argv_held lo x' (reg x' r) strings /\ clear_of_stack lo x' (reg x' r) ((zlen strings + 1) * sizeof_word (x_regs x')) /\ lowered r x x' /\ x_path x' = x_path x.
Proof.
  intros Hlo Hg Hr Hd Hu H. destruct (push_array_held _ _ _ _ _ _ Hlo Hg Hr Hd H) as [[H1 ->]|(H1 & H2 & H3 & H5 & H4)].
  - destruct (Hu H1). split; [done|]. split; [done|]. split; [|done]. by split.
  - split; [done|]. split; [by right|done].
Qed.

Lemma held_nul_free lo (x : State) a strings : argv_held lo x a strings -> Forall nul_free strings.
Proof. intros (ps & _ & _ & H). clear -H. induction H as [|p s ps strings (_ & Hs & _) _ IH]; by constructor. Qed.

Lemma blanked_ok (P : cstr -> Prop) guest host env : P [] -> Forall P env -> Forall P (blanked guest host env).
Proof. intros H0 H. apply Forall_fmap. eapply Forall_impl; [exact H|]. intros s Hs. cbn. by case_bool. Qed.

(** The arguments, the environment and the program, once the runner is there. *)
Definition runner_arguments (qemu : list cstr) (user_path : cstr) (guest host : option cstr) (args env : list cstr) : list cstr :=
  qemu ++ options (bs "-E") (bs "-U") guest host env ++ [bs "-0"; nth 0 args []; user_path] ++ tail args.

Definition room_for (w : W) (last_errno : Z) (fuel : nat) (t : Tracee W) (qemu : list cstr) (host : cstr) : Prop :=
  room w last_errno fuel t (if is_host_elf force_foreign w host then host else nth 0 qemu []).

Lemma runner_argv_pushed lo fuel qemu user args env envp e (x : State) e1 x1 host1 user1 envp1 :
  regs_ok (x_regs x) -> argv_held lo x (reg x SYSARG_2) args -> argv_denotes lo x envp env ->
  Forall nul_free env -> Forall (fun s => zlen s < ARG_MAX) args -> Forall (fun s => zlen s < ARG_MAX) env -> Forall nul_free qemu -> qemu <> [] -> nul_free user -> paths_ok (guest_ldso_paths e) ->
  (do& _ := (if use_loader then xret () else xset (set_skip true)) in
   do& argv := on_sys (fetch_array_of_xpointers fuel SYSARG_2 0) in
   do& (argv, argv0) := on_sys (read_xpointee_as_string argv 0) in
   do& argv := xlift (runner_argv qemu argv argv0 user) in
   do& guest := xget guest_ldso_paths in
   do& hostp := xget host_ldso_paths in
   do& (envp, argv) := on_sys (ldso_env_passthru guest hostp envp argv (bs "-E") (bs "-U") (length qemu)) in
   do& _ := on_sys (push_array_of_xpointers argv SYSARG_2) in
   let runner := nth 0 qemu [] in
   if negb (zlen runner + zlen HOST_ROOTFS <? PATH_MAX) || negb (absolute runner) then xlift (Stuck AssertFailed)
   else
     do& skip := xget skip_proot_loader in
     xret (runner, if skip then runner else HOST_ROOTFS ++ runner, envp))%res e x = (e1, x1, Ok (host1, user1, envp1)) ->
  regs_ok (x_regs x1) /\ (lo <= sp x1 -> args <> [] /\ e1 = (if use_loader then e else set_skip true e) /\ host1 = nth 0 qemu [] /\ user1 = (if skip_proot_loader e1 then nth 0 qemu [] else HOST_ROOTFS ++ nth 0 qemu [])
  /\ argv_held lo x1 (reg x1 SYSARG_2) (runner_arguments qemu user (guest_ldso_paths e) (host_ldso_paths e) args env)
  /\ clear_of_stack lo x1 (reg x1 SYSARG_2) ((zlen (runner_arguments qemu user (guest_ldso_paths e) (host_ldso_paths e) args env) + 1) * sizeof_word (x_regs x1))
  /\ lowered SYSARG_2 x x1 /\ x_path x1 = x_path x
  /\ argv_denotes lo x envp1 (blanked (guest_ldso_paths e) (host_ldso_paths e) env) /\ (untouched envp1 -> env = [])).
Proof.
  intros Hg Ha He Hen Hal Hel Hq Hqn Hu Hgp H. pose proof (held_nul_free _ _ _ _ Ha) as Han.
  apply xbind_inv in H as (e2 & x2 & u & H1 & H).
  assert (Ee : e2 = (if use_loader then e else set_skip true e) /\ x2 = x /\ guest_ldso_paths e2 = guest_ldso_paths e /\ host_ldso_paths e2 = host_ldso_paths e).
  { destruct use_loader; injection H1 as <- <-; done. }
  clear H1. destruct Ee as (Ee & -> & Eg & Eh). rewrite <- Eg in Hgp |- *. rewrite <- Eh. apply xbind_inv in H as (e3 & x3 & argv & H1 & H). apply on_sys_inv in H1 as [-> H1]. destruct (fetch_denotes _ _ _ _ _ _ _ Ha H1) as [-> Hd]. clear H1.
  apply xbind_inv in H as (e3 & x3 & [argv1 argv0] & H1 & H). apply on_sys_inv in H1 as [-> H1]. destruct (read_denotes _ _ _ _ _ _ _ _ Hd Hal H1) as (-> & -> & Hd1 & _). clear H1.
  apply xbind_inv in H as (e3 & x3 & argv2 & H1 & H). injection H1 as <- <- H1. destruct (runner_argv_inv _ _ _ _ _ _ _ Hd1 Hq Hu Han Hqn H1) as (a0 & rest & -> & Hd2 & Hu2). clear H1.
  apply xbind_inv in H as (e3 & x3 & guest & H1 & H). injection H1 as <- <- <-. apply xbind_inv in H as (e3 & x3 & hostp & H1 & H). injection H1 as <- <- <-.
  apply xbind_inv in H as (e3 & x3 & [envp2 argv3] & H1 & H). apply on_sys_inv in H1 as [-> H1].
  assert (Hopt : nul_free (bs "-E") /\ nul_free (bs "-U")) by (split; by repeat constructor). destruct Hopt as [HE HU].
  eapply (ldso_env_passthru_inv lo _ _ _ _ _ env qemu ([bs "-0"; a0; user] ++ rest) _ _ _ _ _ _ eq_refl HE HU) in H1 as (-> & He2 & Hue & Hd3 & Hu3); try done.
  apply xbind_inv in H as (e3 & x3 & u2 & H1 & H). apply on_sys_inv in H1 as [-> H1]. cbv zeta in H. case_bool_in H; [done|]. apply xbind_inv in H as (e3 & x4 & skip & H2 & H). injection H2 as <- <- <-. injection H as <- <- <- <- <-. destruct u2.
  destruct (push_lowers _ _ _ _ Hg (eq_refl : is_arg SYSARG_2 = true) H1) as (_ & Hg1 & _). split; [done|]. intros Hlo.
  destruct (pushed _ _ _ _ _ _ Hlo Hg (eq_refl : is_arg SYSARG_2 = true) Hd3 ltac:(done) H1) as (P1 & P2 & P3 & P4). by repeat (split; [done|]).
Qed.

End Expanded.

(** ** Property *)

(** C9: the runner.  When expand_runner() succeeds, a program of another architecture
    is replaced with the runner: its arguments are the runner and its options, -E or
    -U for the variables of the dynamic linker, -0 with the name the program was
    given and its path, then its other arguments; these variables are blanked in its
    environment.  A program of the host keeps its arguments.  In both cases
    LD_LIBRARY_PATH is, in place or at the end of the environment, the list of
    directories that the ELF file which is executed asks for; the environment is
    left only when this list does not fit ARG_MAX, or when one of its strings could
    not be read.  What the new arrays do not occupy of the memory is left.  It is
    assumed that the strings of the tracee are shorter than ARG_MAX and are not in
    the part of the stack that is used, and that a list that fits ARG_MAX does so
    with the name of the variable. *)
Theorem runner_expanded {W Mem} (TM : TraceeMemory Mem) (TS : TraceeStrings Mem) (MC : MemoryContents Mem) (ML : MemoryContentsLaws Mem TM TS MC) (MR : MemoryReadsLaws Mem TM MC)
    (K : Kernel W) (E : Extensions W) (V : PathEvents W) (N : PathPolicy W) (EH : ExecHost W)
    uninit initial force_foreign use_loader android fuel last_errno qemu lo e (x : SysState W Mem) e' x' host user host' user' args env :
  let reg x r := peek_reg (x_regs x) CURRENT r in
  let w := world (x_path x) in
  let guest_paths := guest_ldso_paths e in
  let host_paths := host_ldso_paths e in
  let foreign := negb (is_host_elf force_foreign w host) in
  regs_ok (x_regs x) -> argv_held lo x (reg x SYSARG_2) args -> argv_held lo x (reg x SYSARG_3) env ->
  clear_of_stack lo x (reg x SYSARG_2) ((zlen args + 1) * sizeof_word (x_regs x)) -> clear_of_stack lo x (reg x SYSARG_3) ((zlen env + 1) * sizeof_word (x_regs x)) ->
  Forall (fun s => zlen s < ARG_MAX) args -> Forall (fun s => zlen s < ARG_MAX) env -> Forall nul_free qemu -> qemu <> [] -> nul_free user -> nul_free initial -> paths_ok guest_paths ->
  room_for uninit initial force_foreign android w last_errno fuel (x_path x) qemu host -> lo <= reg x' STACK_POINTER ->
  expand_runner uninit initial force_foreign use_loader android fuel last_errno qemu host user e x = (e', x', Ok (host', user')) ->
  exists env' y,
    host' = (if foreign then nth 0 qemu [] else host)
    /\ skip_proot_loader e' = (foreign && negb use_loader || skip_proot_loader e)
    /\ user' = (if foreign then (if skip_proot_loader e' then [] else HOST_ROOTFS) ++ nth 0 qemu [] else user)
    /\ argv_held lo x' (reg x' SYSARG_2) (if foreign then runner_arguments qemu user guest_paths host_paths args env else args)
    /\ (foreign = true -> args <> [])
    /\ argv_held lo x' (reg x' SYSARG_3) env'
    /\ host_environment uninit initial android w last_errno fuel (x_path x) host' y (if foreign then blanked guest_paths host_paths env else env) env'
    /\ (if foreign then lowered SYSARG_2 x y else y = x)
    /\ (forall b l, clear_of_stack (reg x' STACK_POINTER) x b (zlen l) -> holds_at (x_mem x) (x_me x) b l -> holds_at (x_mem x') (x_me x) b l)
    /\ (forall r, is_arg r = true -> r <> SYSARG_2 -> r <> SYSARG_3 -> reg x' r = reg x r) /\ x_path x' = x_path x /\ x_me x' = x_me x /\ regs_ok (x_regs x').
Proof.
  intros reg w guest_paths host_paths foreign Hg Ha He Hca Hce Hal Hel Hq Hqn Hu Hi Hgp Hroom Hlo H. unfold expand_runner in H.
  pose proof (held_nul_free _ _ _ _ He) as Hen.
  apply xbind_inv in H as (e1 & x1 & envp & H1 & H). apply on_sys_inv in H1 as [-> H1]. destruct (fetch_denotes _ _ _ _ _ _ _ He H1) as [-> Hd]. clear H1.
  apply xbind_inv in H as (e1 & x1 & w1 & H1 & H). apply on_sys_world in H1 as (-> & -> & ->). fold w in H.
  apply xbind_inv in H as (e1 & x1 & [[host1 user1] envp1] & H1 & H). apply xbind_inv in H as (e2 & x2 & [envp2 found] & H2 & H). apply xbind_inv in H as (e3 & x3 & u & H3 & H). injection H as <- <- <- <-.
  apply on_sys_inv in H3 as [-> H3]. destruct u.
  (* the first part *)
  assert (Hfirst : regs_ok (x_regs x1) /\ (lo <= reg x1 STACK_POINTER -> lowered SYSARG_2 x x1 /\ x_path x1 = x_path x /\ host1 = (if foreign then nth 0 qemu [] else host)
    /\ skip_proot_loader e1 = (foreign && negb use_loader || skip_proot_loader e) /\ user1 = (if foreign then (if skip_proot_loader e1 then [] else HOST_ROOTFS) ++ nth 0 qemu [] else user)
    /\ guest_ldso_paths e1 = guest_paths /\ argv_held lo x1 (reg x1 SYSARG_2) (if foreign then runner_arguments qemu user guest_paths host_paths args env else args)
    /\ clear_of_stack lo x1 (reg x1 SYSARG_2) ((zlen (if foreign then runner_arguments qemu user guest_paths host_paths args env else args) + 1) * sizeof_word (x_regs x1))
    /\ (foreign = true -> args <> []) /\ argv_denotes lo x envp1 (if foreign then blanked guest_paths host_paths env else env)
    /\ (Forall (fun p => local p = None) envp1 -> (if foreign then blanked guest_paths host_paths env else env) = env) /\ (foreign = false -> x1 = x))).
  { unfold foreign. destruct (is_host_elf force_foreign w host); cbn [negb] in *.
    - injection H1 as <- <- <- <- <-. split; [done|]. intros _. split; [by split|]. by split_and!.
    - eapply (runner_argv_pushed use_loader lo fuel qemu user args env envp e x) in H1 as [Hg1 A]; try done. split; [done|]. intros Hlo1. destruct (A Hlo1) as (A1 & A2 & A3 & A4 & A5 & A7 & A6 & A8 & A9 & A10).
      split; [done|]. split; [done|]. split; [done|]. split; [rewrite A2; by destruct use_loader|]. split; [rewrite A4; by case_bool|].
      split; [rewrite A2; by destruct use_loader|]. split; [done|]. split; [done|]. split; [done|]. split; [done|]. split; [|done]. intros Hf. by rewrite (A10 Hf). }
  pose proof (rebuild_state _ _ _ _ _ _ _ _ _ _ _ _ H2) as ->. destruct Hfirst as [Hg1 Hfirst].
  destruct (push_lowers _ _ _ _ Hg1 (eq_refl : is_arg SYSARG_3 = true) H3) as (Hsp & Hg3 & _).
  destruct (Hfirst ltac:(unfold reg; unfold reg in Hlo; lia)) as (Hl1 & Hp1 & B1 & B2 & B3 & B4 & B5 & B9 & B6 & B7 & B8 & B10). clear Hfirst H1.
  set (env1 := if foreign then blanked guest_paths host_paths env else env) in *.
  assert (Hn1 : Forall nul_free env1) by (unfold env1; case_bool; [apply blanked_ok; [constructor|done]|done]).
  assert (Hz1 : Forall (fun s => zlen s < ARG_MAX) env1) by (unfold env1; case_bool; [by apply blanked_ok|done]).
  assert (Hlo1 : lo <= peek_reg (x_regs x1) CURRENT STACK_POINTER) by (unfold reg in Hlo; lia).
  pose proof (lowered_denotes _ _ _ _ _ _ Hl1 Hlo1 B7) as Hd1.
  assert (Hroom1 : room uninit initial android (world (x_path x1)) last_errno fuel (x_path x1) host1).
  { rewrite Hp1, B1. unfold room_for, foreign in *. by destruct (is_host_elf force_foreign w host). }
  destruct (rebuild_inv uninit initial android lo fuel last_errno host1 env1 envp1 e1 x1 e2 x1 envp2 found Hd1 Hn1 Hz1 Hi ltac:(by rewrite B4) Hroom1 H2) as (_ & (g & h & -> & _) & env' & Hd2 & Hu2 & Henv).
  rewrite Hp1 in Henv. exists env', x1.
  assert (Hheld1 : argv_held lo x1 (reg x1 SYSARG_3) env).
  { unfold reg. rewrite (lw_regs _ _ _ Hl1) by done. by eapply lowered_held. }
  assert (Hclear1 : clear_of_stack lo x1 (reg x1 SYSARG_3) ((zlen env + 1) * sizeof_word (x_regs x1))).
  { unfold reg. rewrite (lw_regs _ _ _ Hl1), (lw_word _ _ _ Hl1) by done. unfold clear_of_stack, reg in *. pose proof (lw_sp _ _ _ Hl1). lia. }
  destruct (pushed _ _ _ _ _ _ Hlo Hg1 (eq_refl : is_arg SYSARG_3 = true) Hd2 ltac:(intros Hf; destruct (Hu2 Hf) as [Hf1 ->]; by rewrite (B8 Hf1)) H3) as (C1 & _ & C2 & C3).
  split; [done|]. split; [done|]. split; [done|]. split.
  { unfold reg. rewrite (lw_regs _ _ _ C2) by done. by eapply lowered_held. }
  split; [done|]. split; [done|]. split; [done|]. split; [destruct foreign; [done|by apply B10]|].
  destruct Hl1 as [L1 L2 L3 L4 L5], C2 as [M1 M2 M3 M4 M5]. split.
  { intros b k Hc Hh. unfold clear_of_stack, reg in *. rewrite <- L1. apply M4; [unfold clear_of_stack; lia|]. rewrite L1. apply L4; [unfold clear_of_stack; lia|done]. }
  split; [intros r Hr H2' H3'; unfold reg; rewrite M5, L5; done|]. split; [by rewrite C3|]. split; [by rewrite M1|done].
Qed.

(** ** A program to compute with *)

#[local] Existing Instance demo_memory.
#[local] Existing Instance demo_strings.
#[local] Existing Instance demo_contents.
#[local] Existing Instance quiet_extensions.
#[local] Existing Instance quiet_events.
#[local] Existing Instance static_policy.
#[local] Instance ldso_kernel : Kernel unit := demo_kernel demo_links.

(** The runner is a program of the host, the other files are of another machine. *)
#[local] Instance runner_files : ExecHost unit := {
  set_exec_path_translation w _ := w;
  access_exists _ _ := true;
  access_executable _ _ := true;
  open_file _ p := inl (if str_eqb p (bs "/usr/bin/qemu") then demo_elf else take 18 demo_elf ++ [62; 0] ++ drop 20 demo_elf, None)
}.

(** execve("/s", { "/s", "arg" }, { "LD_DEBUG=all", "A=b" }) *)
Definition runner_memory : DemoVm :=
  demo_put (demo_put (demo_put (execve_memory [8320; 8384; 0] "/s" "arg") 8224 (concat (to_le 8 <$> [8448; 8480; 0]))) 8448 (bs "LD_DEBUG=all" ++ [0])) 8480 (bs "A=b" ++ [0]).
Definition runner_state : SysState unit DemoVm :=
  mkSys (enter_regs 221 [(SYSARG_1, 8320); (SYSARG_2, 8192); (SYSARG_3, 8224)]) runner_memory 0 true demo_tracee
    (mkFlags false false false false 0 (-1) true) (mkNetlink [] [] 0 false).
Definition no_exec : ExecState := mkExec None None None None false false 0%nat [mkHeap 0 0 false 0] None None None None.
Definition demo_qemu : list cstr := [bs "/usr/bin/qemu"; bs "-s"].
Abbreviation demo_expanded := (expand_runner (fun _ _ => 0) (bs "/") false false false 8 0 demo_qemu (bs "/data/root/s") (bs "/s") no_exec runner_state).

Lemma demo_expands : snd demo_expanded = Ok (bs "/usr/bin/qemu", bs "/usr/bin/qemu").
Proof. by vm_compute. Qed.

Definition read_strings (x : SysState unit DemoVm) (r : Reg) : list (list Z) :=
  match snd (fetch_array_of_xpointers 16 r 0 x) with
  | Ok array => (fun p => match read_string (x_mem x) (x_me x) (remote p) 256 with inl s => s | inr _ => [] end) <$> removelast array
  | _ => []
  end.
Lemma demo_runner_arguments : read_strings (snd (fst demo_expanded)) SYSARG_2 =
  [bs "/usr/bin/qemu"; bs "-s"; bs "-U"; bs "LD_LIBRARY_PATH"; bs "-E"; bs "LD_DEBUG=all"; bs "-0"; bs "/s"; bs "/s"; bs "arg"].
Proof. by vm_compute. Qed.

Lemma triple_of {A B C} (m : A * B * C) c : snd m = c -> m = (fst (fst m), snd (fst m), c).
Proof. destruct m as [[a b] c']. by intros <-. Qed.

Lemma demo_room : room_for (fun _ _ => 0) (bs "/") false false (world (x_path runner_state)) 0 8 (x_path runner_state) demo_qemu (bs "/data/root/s").
Proof.
  intros file header rpaths runpaths paths Hf Hh Hr Hs.
  assert (Ef : is_host_elf false (world (x_path runner_state)) (bs "/data/root/s") = false) by (by vm_compute). rewrite Ef in Hf.
  assert (Eo : open_file (world (x_path runner_state)) (nth 0 demo_qemu []) = inl (demo_elf, None)) by (by vm_compute). rewrite Eo in Hf. injection Hf as <-.
  assert (Eh : read_elf (demo_elf, None) = Ok (parse_header demo_elf)) by (by vm_compute). rewrite Eh in Hh. injection Hh as <-.
  assert (Er : snd (read_ldso_rpaths (fun _ _ => 0) 8 0 (demo_elf, None) (parse_header demo_elf) (x_path runner_state)) = Ok (None, None)) by (by vm_compute).
  rewrite Hr in Er. injection Er as -> ->.
  assert (Es : (match search_paths (bs "/") false (class64 (parse_header demo_elf)) None None with Ok p => zlen p + zlen LD_LIBRARY_PATH + 2 <=? ARG_MAX | _ => false end) = true) by (by vm_compute).
  rewrite Hs in Es. by apply Z.leb_le in Es.
Qed.

Lemma demo_strings_held strings ps a : (length ps =? length strings)%nat = true -> 0 <= a <= 2 ^ 64 - (zlen ps + 1) * 8 ->
  demo_readv runner_memory a (length (pod_array 8 (ps ++ [0]))) = pod_array 8 (ps ++ [0]) ->
  Forall2 (fun p s => 8192 <= p < 256 ^ 8 /\ nul_free s /\ demo_readv runner_memory p (length (s ++ [0])) = s ++ [0]) ps strings ->
  argv_held 7168 runner_state a strings.
Proof.
  intros _ Ha Hp Hs. exists ps. split; [by apply demo_holds|]. split; [done|]. eapply Forall2_impl; [exact Hs|]. intros p s (H1 & H2 & H3).
  split; [change (sizeof_word (x_regs runner_state)) with 8; lia|]. split; [done|]. split; [by apply demo_holds|]. right. assert (E : peek_reg (x_regs runner_state) CURRENT STACK_POINTER = 8192) by (by vm_compute). lia.
Qed.

Lemma runner_state_regs : peek_reg (x_regs runner_state) CURRENT STACK_POINTER = 8192 /\ peek_reg (x_regs runner_state) CURRENT SYSARG_2 = 8192 /\ peek_reg (x_regs runner_state) CURRENT SYSARG_3 = 8224
  /\ is_host_elf false (world (x_path runner_state)) (bs "/data/root/s") = false.
Proof. by repeat split; vm_compute. Qed.

Lemma runner_state_held : argv_held 7168 runner_state 8192 [bs "/s"; bs "arg"] /\ argv_held 7168 runner_state 8224 [bs "LD_DEBUG=all"; bs "A=b"].
Proof.
  split.
  - apply (demo_strings_held _ [8320; 8384]); [done|by vm_compute|by vm_compute|].
    constructor; [|constructor; [|constructor]]; (split; [by vm_compute|]); (split; [by repeat constructor|by vm_compute]).
  - apply (demo_strings_held _ [8448; 8480]); [done|by vm_compute|by vm_compute|].
    constructor; [|constructor; [|constructor]]; (split; [by vm_compute|]); (split; [by repeat constructor|by vm_compute]).
Qed.

Lemma runner_state_clear : clear_of_stack 7168 runner_state 8192 ((zlen [bs "/s"; bs "arg"] + 1) * sizeof_word (x_regs runner_state))
  /\ clear_of_stack 7168 runner_state 8224 ((zlen [bs "LD_DEBUG=all"; bs "A=b"] + 1) * sizeof_word (x_regs runner_state))
  /\ 7168 <= peek_reg (x_regs (snd (fst demo_expanded))) CURRENT STACK_POINTER.
Proof. destruct runner_state_regs as (Hsp & _). split; [right; rewrite Hsp; lia|]. split; [right; rewrite Hsp; lia|]. apply Z.leb_le. by vm_compute. Qed.

Lemma runner_expanded_witness :
  let x' := snd (fst demo_expanded) in
  exists env' y,
    skip_proot_loader (fst (fst demo_expanded)) = true
    /\ argv_held 7168 x' (peek_reg (x_regs x') CURRENT SYSARG_2)
         (runner_arguments demo_qemu (bs "/s") None None [bs "/s"; bs "arg"] [bs "LD_DEBUG=all"; bs "A=b"])
    /\ argv_held 7168 x' (peek_reg (x_regs x') CURRENT SYSARG_3) env'
    /\ host_environment (fun _ _ => 0) (bs "/") false (world (x_path runner_state)) 0 8 (x_path runner_state) (bs "/usr/bin/qemu") y (blanked None None [bs "LD_DEBUG=all"; bs "A=b"]) env'.
Proof.
  assert (Hal : Forall (fun s => zlen s < ARG_MAX) [bs "/s"; bs "arg"]) by (by repeat constructor).
  assert (Hel : Forall (fun s => zlen s < ARG_MAX) [bs "LD_DEBUG=all"; bs "A=b"]) by (by repeat constructor).
  assert (Hq : Forall nul_free demo_qemu) by (by repeat constructor). assert (Hu : nul_free (bs "/s")) by (by repeat constructor). assert (Hi : nul_free (bs "/")) by (by repeat constructor).
  destruct runner_state_regs as (_ & H2 & H3 & Hf). destruct runner_state_held as [Ha He]. destruct runner_state_clear as (Hca & Hce & Hlo).
  pose proof (runner_expanded demo_memory demo_strings demo_contents (mem_contents_laws (demo_vm true) demo_byte (demo_vm_laws true)) (mem_reads_laws (demo_vm true) demo_byte (demo_vm_laws true))
    ldso_kernel quiet_extensions quiet_events static_policy runner_files (fun _ _ => 0) (bs "/") false false false 8 0 demo_qemu 7168 no_exec runner_state
    (fst (fst demo_expanded)) (snd (fst demo_expanded)) (bs "/data/root/s") (bs "/s") (bs "/usr/bin/qemu") (bs "/usr/bin/qemu") [bs "/s"; bs "arg"] [bs "LD_DEBUG=all"; bs "A=b"]) as H.
  cbv beta zeta in H. rewrite H2, H3, Hf in H.
  destruct (H (enter_regs_ok _ _) Ha He Hca Hce Hal Hel Hq ltac:(discriminate) Hu Hi I demo_room Hlo (triple_of _ _ demo_expands)) as (env' & y & _ & Hs & _ & Hargs & _ & Henv & Hh & _).
  exists env', y. split; [exact Hs|]. split; [exact Hargs|]. split; [exact Henv|exact Hh].
Defined.

(** ** Flaws *)

(** A program that is executed without any argument, not even its name, aborts
    PRoot when it needs the runner. *)
Lemma runner_needs_argv0 qemu user : runner_argv qemu [mkX 0 None] None user = Stuck AssertFailed.
Proof. done. Qed.

(** The file has a dynamic segment that gives the address of a table of strings, and
    no segment to load: the header of the segment of the table is not initialised. *)
Definition dynamic_elf (loads : list (list Z)) : list Z :=
  take 56 demo_elf ++ to_le 2 (1 + zlen loads) ++ drop 58 (take 64 demo_elf) ++ demo_program_header PT_DYNAMIC PF_R (64 + 56 * (1 + zlen loads)) 0 16 16 ++ concat loads
  ++ to_le 8 DT_STRTAB ++ to_le 8 4096.
Lemma segment_of_strings_unset (t : Tracee unit) : snd (read_ldso_rpaths (fun _ _ => 0) 8 0 (dynamic_elf [], None) (parse_header (dynamic_elf [])) t) = Stuck OutOfBounds.
Proof. by vm_compute. Qed.

(** The table of strings may be at the end of the segment: its first byte is not in
    memory. *)
Lemma end_of_segment_found (W : Type) (t : Tracee W) p : p_type p = PT_LOAD -> 0 <= p_vaddr p -> 0 < p_memsz p -> p_vaddr p + p_memsz p < 2 ^ 64 ->
  find_program_header PT_LOAD (p_vaddr p + p_memsz p) p None t = (t, Ok (true, Some p)).
Proof.
  intros Ht Hv Hm Hn. unfold find_program_header. rewrite Ht. cbn. unfold wrap64. rewrite wrap_small by lia.
  rewrite (proj2 (Z.ltb_lt _ _)), (proj2 (Z.leb_le _ _)), (proj2 (Z.leb_le _ _)), orb_true_r by lia. done.
Qed.
