(* ===== verification/Execve.v ===== *)
(** * execve(2) (src/execve/enter.c, src/execve/exit.c, src/execve/auxv.c)

    translate_execve_enter() and translate_execve_exit(), which compose the scripts,
    the runner, the reading of ELF files and the load script: the kernel is asked to
    execute the loader, and the loader to load the program.  The program of a ptracer
    is told about once it is loaded, with a second execve(2) that the loader makes as a
    notification.

    mem_prepare_after_execve(), which records the address that writes of memory fall
    back to on AArch64, belongs to the interface of the memory, and the warnings of
    apply_mem_limit_to_tracee() are left out. *)

From S2P Require Import Prelude Mem Memory Paths Binding ProcLinks Canon Lookup Sysnum Regs Translate SysArgs Mounts Netlink Enter Sockets Sigsys Exit Aoxp Shebang Elf Loader Ldso.

Definition EISDIR := 21.
Definition SIGTRAP := 5.

(** ** Interfaces *)

(** What the host does: temporary files, files that are written, signals and limits.
    The extension that is notified may give another value to /proc/self/exe. *)
Class ExecFiles (W : Type) := {
  notify_EXECVE_PROC_EXE : W -> cstr -> W * option cstr;
  create_temp_file : W -> W * option cstr;
  open_temp_file : W -> W * option Z;
  open_write : W -> cstr -> W * option Z;
  write_fd : W -> Z -> list Z -> W * Z;
  fchmod_user : W -> Z -> W * bool;
  close_fd : W -> Z -> W;
  kill : W -> Z -> Z -> W;
  prlimit_as : W -> Z -> Z -> W
}.

(** The command line and the environment of PRoot, its own pid, the bytes of its
    loaders; whether the tracee has a ptracer, which asked for PTRACE_O_TRACEEXEC.
    [fuel] bounds the arrays of the tracee, and errno is the one of an earlier call. *)
Record ExecConfig := mkConfig {
  fuel : nat;
  qemu : option (list cstr);
  page_size : Z;
  last_errno : Z;
  uninit : nat -> nat -> Z;
  initial_ldso_paths : cstr;
  force_foreign : bool;
  use_loader_for_qemu : bool;
  android : bool;
  PROOT_LOADER : option cstr;
  PROOT_LOADER_32 : option cstr;
  loader_exe : bool -> list Z;
  self_pid : Z;
  mem_limit_bytes : Z;
  ptraced : bool;
  traceexec : bool
}.

Definition set_seen_execve (b : bool) (f : SysFlags) : SysFlags :=
  mkFlags (sysexit_pending f) (restart_syscall f) (clone_stripped_newns f) (no_new_privs f) (execfn_addr f) (auxv_fd f) b.

(** tracee->is_aarch32 *)
Definition set_aarch32 (t : Regs) (b : bool) : Regs :=
  mkRegs (banks t) b (regs_were_changed t) (restore_original_regs t) (restore_original_regs_after_seccomp_event t) (syscall_change_unsupported t).

Section Execve.

Context {W Mem : Type} {TM : TraceeMemory Mem} {TS : TraceeStrings Mem}.
Context {K : Kernel W} {E : Extensions W} {V : PathEvents W} {N : PathPolicy W} {EH : ExecHost W} {EF : ExecFiles W}.
Context (c : ExecConfig).

Abbreviation H A := (HM W Mem A).
Abbreviation X A := (XM W Mem A).

(** The arguments of the notification are 1, a stack pointer, an entry point, 2, 3
    and 4. *)
Definition IS_NOTIFICATION_PTRACED_LOAD_DONE (g : Regs) : bool :=
  ptraced c && (peek_reg g ORIGINAL SYSARG_1 =? 1) && (peek_reg g ORIGINAL SYSARG_4 =? 2)
  && (peek_reg g ORIGINAL SYSARG_5 =? 3) && (peek_reg g ORIGINAL SYSARG_6 =? 4).

Definition of_world {A} (f : W -> W * A) : M W A := on_world (fun w => let '(w, a) := f w in (w, inl a)).

(** ** The loader *)

Definition loader_file (wants_32bit_version : bool) (fd : Z) : M W cstr :=
  let bytes := loader_exe c wants_32bit_version in
  do! n := of_world (fun w => write_fd w fd bytes) in
  if negb (n =? zlen bytes) then fail EPERM
  else
    do! allowed := of_world (fun w => fchmod_user w fd) in
    if negb allowed then fail EPERM
    else
      do! path := readlink_proc_pid_fd (self_pid c) fd in
      do! w := get world in
      if access_executable w path then ret path else fail EPERM.

Definition extract_loader (wants_32bit_version : bool) : M W (option cstr) :=
  do! fd := of_world open_temp_file in
  match fd with
  | None => ret None
  | Some fd =>
      do! r := attempt (loader_file wants_32bit_version fd) in
      do! _ := of_world (fun w => (close_fd w fd, ())) in
      ret (match r with inl path => Some path | inr _ => None end)
  end.

Definition get_loader_path (class32 : bool) : X (option cstr) :=
  do& cached := xget (if class32 then loader32_path else loader_path) in
  do& path := (match cached, (if class32 then PROOT_LOADER_32 c else PROOT_LOADER c) with
               | Some path, _ => xret (Some path)
               | None, Some path => xret (Some path)
               | None, None => on_sys (on_path (extract_loader class32))
               end) in
  do& _ := xset ((if class32 then set_loader32_path else set_loader_path) path) in
  xret path.

(** ** translate_execve_enter() *)

(** The new value of /proc/self/exe. *)
Definition detranslated (host_path : cstr) : M W cstr :=
  do! v := get view in
  do! f := get fs in
  do! (_, path) := lift (detranslate_path v f host_path None) in
  ret path.

Definition remember_exe (host_path : cstr) : X unit :=
  do& _ := xset (set_host_exe (Some host_path)) in
  do& substituted := on_sys (on_path (of_world (fun w => notify_EXECVE_PROC_EXE w host_path))) in
  do& path := (match substituted with
               | Some guest_path => xret (inl guest_path)
               | None => on_sys (hattempt (on_path (detranslated host_path)))
               end) in
  xset (set_new_exe (match path with inl path => Some path | inr _ => None end)).

(** The program is left to the kernel. *)
Definition skip_loader (host_path : cstr) : X unit :=
  do& _ := xset (set_load_info None) in
  do& _ := xset (fun e => set_heap (heap e) (alter (fun h => mkHeap (base h) (size h) true (references h)) (heap e) (heaps e)) e) in
  on_sys (set_sysarg_path host_path SYSARG_1).

Definition extract_object (host_path user_path : cstr) : H (LoadObject * option (cstr * cstr)) :=
  do$ regs := hget x_regs in
  do$ (header, o) := on_path (extract_load_info regs (bool_decide (qemu c <> None)) (page_size c) (last_errno c) host_path) in
  hret (mkObject host_path user_path (l_mappings o) header (l_stack o), l_interp o).

(** The interpreter of an interpreter is forgotten. *)
Definition load_objects (host_path user_path : cstr) (raw_path : option cstr) : H LoadInfo :=
  do$ (object, interp) := extract_object host_path user_path in
  do$ interp := (match interp with
                 | None => hret None
                 | Some (host_path, user_path) => do$ (interp, _) := extract_object host_path user_path in hret (Some interp)
                 end) in
  hlift (compute_load_addresses (mkLoad object raw_path interp)).

(** When the extraction fails what is left in load_info, an object that is not
    complete, is not used by the exit of this system call; here it stays empty. *)
Definition use_loader (host_path user_path : cstr) (raw_path : option cstr) : X unit :=
  do& _ := xset (set_load_info (Some (mkLoad (mkObject host_path user_path [] (mkElf false 0 0 0 0 0 0) false) raw_path None))) in
  do& l := on_sys (load_objects host_path user_path raw_path) in
  do& _ := xset (set_load_info (Some l)) in
  do& path := get_loader_path (negb (class64 (elf_header (object l)))) in
  match path with
  | None => xfail ENOENT
  | Some path =>
      do& _ := on_sys (set_sysarg_path path SYSARG_1) in
      xset (set_ignore true)
  end.

Definition translate_execve_enter : X unit :=
  do& g := on_sys (hget x_regs) in
  if IS_NOTIFICATION_PTRACED_LOAD_DONE g then
    do& _ := xset (set_ignore false) in
    on_sys (change_sysnum PR_void)
  else
    do& raw := on_sys (get_sysarg_path SYSARG_1) in
    do& expanded := on_sys (hattempt (expand_shebang (fuel c) raw)) in
    match expanded with
    | inr e => xfail (if e =? EISDIR then EACCES else e)
    | inl (status, host_path, user_path) =>
        let raw_path := if (status =? 0) && negb (bool_decide (qemu c <> None)) then None else Some raw in
        do& _ := remember_exe host_path in
        do& _ := xset (set_skip false) in
        do& (host_path, user_path) :=
          (match qemu c with
           | None => xret (host_path, user_path)
           | Some qemu => expand_runner (uninit c) (initial_ldso_paths c) (force_foreign c) (use_loader_for_qemu c) (android c) (fuel c) (last_errno c) qemu host_path user_path
           end) in
        do& skip := xget skip_proot_loader in
        if skip : bool then skip_loader host_path else use_loader host_path user_path raw_path
    end.

(** ** auxv.c: the auxiliary vectors on the stack *)

(** The words up to a null one are skipped; the address is null after an error. *)
Fixpoint skip_words (n : nat) (address : Z) : H Z :=
  match n with
  | O => hlift (Stuck NoFuel)
  | S n =>
      do$ w := word_size in
      do$ (data, e) := peek_word address in
      match e with
      | Some _ => hret 0
      | None =>
          let address := wrap64 (address + w) in
          if data =? 0 then hret address else skip_words n address
      end
  end.

Definition get_elf_aux_vectors_address : H Z :=
  do$ sysenter := hget x_sysenter in
  do$ sysnum := sysnum_of ORIGINAL in
  if (sysenter : bool) || negb (sysnum =? PR_execve) then hlift (Stuck AssertFailed)
  else
    do$ address := peek CURRENT STACK_POINTER in
    do$ w := word_size in
    do$ (argc, e) := peek_word address in
    match e with
    | Some _ => hret 0
    | None => skip_words (fuel c) (wrap64 (address + (1 + argc + 1) * w))
    end.

(** Without the sentinel. *)
Fixpoint fetch_elf_aux_vectors (n : nat) (address : Z) : H (list (Z * Z)) :=
  match n with
  | O => hlift (Stuck NoFuel)
  | S n =>
      do$ w := word_size in
      do$ (type, e) := peek_word address in
      match e with
      | Some _ => hfail EPERM
      | None =>
          if type =? AT_NULL then hret []
          else
            do$ (value, e) := peek_word (wrap64 (address + w)) in
            match e with
            | Some _ => hfail EPERM
            | None =>
                do$ vectors := fetch_elf_aux_vectors n (wrap64 (address + w + w)) in
                hret ((type, value) :: vectors)
            end
      end
  end.

(** ** translate_execve_exit() *)

Fixpoint write_words (fd size : Z) (words : list Z) : M W unit :=
  match words with
  | [] => ret ()
  | v :: words =>
      do! status := of_world (fun w => write_fd w fd (to_le (Z.to_nat size) v)) in
      if status <? size then fail EPERM else write_words fd size words
  end.

Definition fill_file_with_auxv (size : Z) (path : cstr) (vectors : list (Z * Z)) : M W unit :=
  do! fd := of_world (fun w => open_write w path) in
  match fd with
  | None => fail EPERM
  | Some fd =>
      do! r := attempt (write_words fd size (flat vectors ++ [AT_NULL; 0])) in
      do! _ := of_world (fun w => (close_fd w fd, ())) in
      match r with inl _ => ret () | inr e => fail e end
  end.

Definition auxv_path (pid : Z) : cstr := bs "/proc/" ++ itoa pid ++ bs "/auxv".

Definition remove_auxv_binding (guest_path : cstr) : M W unit :=
  do! f := get fs in
  do! binding := lift (get_binding f GUEST guest_path) in
  match binding with
  | None => ret ()
  | Some binding =>
      do! comparison := lift (compare_paths (path (guest binding)) guest_path) in
      if bool_decide (comparison = PATHS_ARE_EQUAL) then remove_binding_m binding else ret ()
  end.

Definition bind_auxv (size : Z) (vectors : list (Z * Z)) : M W unit :=
  do! v := get view in
  let guest_path := auxv_path (pid v) in
  do! _ := remove_auxv_binding guest_path in
  do! host_path := of_world create_temp_file in
  match host_path with
  | None => fail EPERM
  | Some host_path =>
      do! _ := fill_file_with_auxv size host_path vectors in
      insort_with_mode_m host_path guest_path BINDING_ACCESS_RW
  end.

Definition bind_proc_pid_auxv : H unit :=
  do$ vectors_address := get_elf_aux_vectors_address in
  if vectors_address =? 0 then hfail EPERM
  else
    do$ vectors := fetch_elf_aux_vectors (fuel c) vectors_address in
    do$ w := word_size in
    on_path (bind_auxv w vectors).

(** The registers of the program, once it is loaded. *)
Definition start_registers : H unit :=
  do$ _ := poke SYSARG_RESULT 0 in
  do$ _ := change_sysnum PR_execve in
  do$ stack_pointer := peek ORIGINAL SYSARG_2 in
  do$ _ := poke STACK_POINTER stack_pointer in
  do$ entry_point := peek ORIGINAL SYSARG_3 in
  do$ _ := poke INSTR_POINTER entry_point in
  do$ _ := poke RTLD_FINI 0 in
  do$ _ := poke STATE_FLAGS 0 in
  hset (fun x => set_regs (set_changed (save_current_regs (x_regs x) ORIGINAL) true) x).

Definition on_pid (f : W -> Z -> W) : M W unit :=
  do! v := get view in on_world (fun w => (f w (pid v), inl ())).

(** The warnings apart. *)
Definition apply_mem_limit_to_tracee : M W unit :=
  if mem_limit_bytes c =? 0 then ret () else on_pid (fun w pid => prlimit_as w pid (mem_limit_bytes c)).

Definition load_done : H unit :=
  do$ _ := start_registers in
  do$ _ := hattempt bind_proc_pid_auxv in
  do$ _ := (if traceexec c then hret () else on_path (on_pid (fun w pid => kill w pid SIGTRAP))) in
  on_path apply_mem_limit_to_tracee.

(** New processes have no heap: a shared one is left to the others. *)
Definition fresh_heap : X unit :=
  do& h := xget heap in
  do& hs := xget heaps in
  match hs !! h with
  | None => xlift (Stuck OutOfBounds)
  | Some hp =>
      if 1 <=? references hp
      then xset (set_heap (length hs) (<[h := mkHeap (base hp) (size hp) (disabled hp) (references hp - 1)]> hs ++ [mkHeap 0 0 false 0]))
      else xset (set_heap h (<[h := mkHeap 0 0 false (references hp)]> hs))
  end.

(** The program is executed. *)
Definition commit_execve (l : LoadInfo) : X unit :=
  do& _ := on_sys (set_flag (set_seen_execve true)) in
  do& _ := on_sys (on_path apply_mem_limit_to_tracee) in
  do& _ := xset (fun e => match new_exe e with Some p => set_exe (Some p) e | None => e end) in
  do& _ := fresh_heap in
  do& _ := on_sys (hattempt (transfer_load_script (ptraced c) (page_size c) l)) in
  xret ().

(** The ABI follows the program whatever the result; the load information is read
    through a null pointer when there is none. *)
Definition translate_execve_exit : X unit :=
  do& _ := on_sys (set_flag (set_auxv_fd (-1))) in
  do& skip := xget skip_proot_loader in
  if skip : bool then
    do& _ := on_sys (hset (fun x => set_regs (set_restore (x_regs x) false) x)) in
    on_sys (set_flag (set_seen_execve true))
  else
    do& g := on_sys (hget x_regs) in
    if IS_NOTIFICATION_PTRACED_LOAD_DONE g then on_sys load_done
    else
      do& l := xget load_info in
      match l with
      | None => xlift (Stuck OutOfBounds)
      | Some l =>
          do& _ := on_sys (hset (fun x => set_regs (set_aarch32 (x_regs x) (negb (class64 (elf_header (object l))))) x)) in
          do& syscall_result := on_sys (peek CURRENT SYSARG_RESULT) in
          if sgn 32 syscall_result <? 0 then xret () else commit_execve l
      end.

End Execve.

(** ** What is prepared at the entry *)

Section Prepared.

Context {W Mem : Type} {TM : TraceeMemory Mem} {TS : TraceeStrings Mem} {MC : MemoryContents Mem}.
Context {ML : MemoryContentsLaws Mem TM TS MC} {MR : MemoryReadsLaws Mem TM MC}.
Context {K : Kernel W} {E : Extensions W} {L : KernelLaws W K}.
Context {V : PathEvents W} {N : PathPolicy W} {TE : TransparentEvents W V} {EH : ExecHost W} {EF : ExecFiles W}.
Context (c : ExecConfig).
Context (f : FileSystemNameSpace) (root : list cstr) (l k : list Binding) (v : ProcView).
Hypothesis Hroot : rooted f root.
Hypothesis Hwf : fs_wf f.
Hypothesis Hsz : fs_sized f.
Hypothesis Hl : bindings_guest f = Some l.
Hypothesis Hk : bindings_host f = Some k.
Hypothesis Hv : view_ok v.
Hypothesis Hcwd : nul_free (cwd f) /\ cwd f <> [].

Abbreviation State := (SysState W Mem).
Abbreviation sp x := (peek_reg (x_regs x) CURRENT STACK_POINTER).
Abbreviation reg x r := (peek_reg (x_regs x) CURRENT r).
Abbreviation has_qemu := (bool_decide (qemu c <> None)).

(** An object is what its file says, and so is the interpreter it asks for. *)
Definition object_read (host_path user_path : cstr) (o : LoadObject) (interp : option (cstr * cstr)) : Prop :=
  exists w file part, open_file w host_path = inl file /\ read_elf file = Ok (elf_header o)
    /\ (e_type (elf_header o) = ET_EXEC \/ e_type (elf_header o) = ET_DYN)
    /\ (0 <= sgn 32 (e_phoff (elf_header o)) -> described f l v has_qemu (page_size c) file (segments (elf_header o) (fst file)) part)
    /\ o = mkObject host_path user_path (l_mappings part) (elf_header o) (l_stack part) /\ interp = l_interp part.

(** The program and its interpreter, at the addresses that are chosen for them. *)
Definition program_read (host_path user_path : cstr) (raw_path : option cstr) (li : LoadInfo) : Prop :=
  exists o i, object_read host_path user_path o i
    /\ match i with
       | None => compute_load_addresses (mkLoad o raw_path None) = Ok li
       | Some (host_path, user_path) => exists oi j, object_read host_path user_path oi j /\ compute_load_addresses (mkLoad o raw_path (Some oi)) = Ok li
       end.

(** The value of /proc/self/exe: the one of an extension, or the guest path. *)
Definition guest_exe (host_path : cstr) (path : option cstr) : Prop :=
  exists w, path = match snd (notify_EXECVE_PROC_EXE w host_path) with
                   | Some guest_path => Some guest_path
                   | None => match detranslate_path v f host_path None with Ok (_, path) => Some path | _ => None end
                   end.

Lemma of_world_inv {A} (g : W -> W * A) (t t' : Tracee W) a : of_world g t = (t', Ok a) ->
  t' = mkTracee (fs t) (glue t) (glue_type t) (next_addr t) (view t) (fst (g (world t))) /\ a = snd (g (world t)).
Proof. unfold of_world, on_world. destruct (g (world t)) as [w b]. intros [= <- <-]. done. Qed.

Lemma steady_inv {A} (m : M W A) (t t' : Tracee W) r : steady m -> stable f v t -> m t = (t', r) -> stable f v t'.
Proof. intros Hm Ht H. destruct (Hm f v t Ht) as [Hs _]. by rewrite H in Hs. Qed.

Lemma on_path_with {A} (m : M W A) (x x' : State) r : on_path m x = (x', r) -> m (x_path x) = (x_path x', r) /\ x' = with_path x (x_path x').
Proof. intros H. apply on_path_inv in H as (t & Ht & ->). done. Qed.

Lemma with_path_twice (x : State) t t' : with_path (with_path x t) t' = with_path x t'.
Proof. done. Qed.

Lemma extract_object_inv host user s (x x' : State) o i : get_sysnum (x_regs x) CURRENT = Ok s -> stable f v (x_path x) ->
  extract_object c host user x = (x', Ok (o, i)) -> stable f v (x_path x') /\ x' = with_path x (x_path x') /\ object_read host user o i.
Proof.
  intros Hs Hst H. unfold extract_object in H. hstep H x1 regs. hstep H x2 r. destruct r as [header part]. injection H as <- <- <-.
  apply on_path_with in E0 as [Et Hx]. pose proof Et as Ho. unfold extract_load_info in Ho. apply bind_inv in Ho as (t1 & w & Hw & Ho). injection Hw as <- <-.
  destruct (open_file (world (x_path x)) host) as [file|n] eqn:Ef; [|done]. clear Ho.
  destruct (extract_load_info_inv f root l k v Hroot Hwf Hsz Hl Hk Hv Hcwd _ s has_qemu (page_size c) file Hs _ _ _ _ _ _ Hst Ef Et) as (Ht' & Hr & Hty & Hd).
  split; [done|]. split; [done|]. by exists (world (x_path x)), file, part.
Qed.

Lemma load_objects_inv host user raw s (x x' : State) li : get_sysnum (x_regs x) CURRENT = Ok s -> stable f v (x_path x) ->
  load_objects c host user raw x = (x', Ok li) -> stable f v (x_path x') /\ x' = with_path x (x_path x') /\ program_read host user raw li.
Proof.
  intros Hs Hst H. unfold load_objects in H. hstep H x1 r. destruct r as [o i]. apply (extract_object_inv _ _ s) in E0 as (Ht1 & Hx1 & Ho); [|done..].
  hstep H x2 ir. unfold hlift in H. injection H as <- H. destruct i as [[h u]|].
  - hstep E0 x3 r. destruct r as [oi j]. injection E0 as <- <-. apply (extract_object_inv _ _ s) in E1 as (Ht2 & Hx2 & Hoi); [|by rewrite Hx1|done].
    split; [done|]. split; [by rewrite Hx1, with_path_twice in Hx2|]. exists o, (Some (h, u)). split; [done|]. by exists oi, j.
  - injection E0 as <- <-. split; [done|]. split; [done|]. by exists o, None.
Qed.

Lemma extract_loader_steady b : steady (extract_loader c b).
Proof. unfold extract_loader, loader_file, of_world, readlink_proc_pid_fd. steady. Qed.

Lemma get_loader_path_inv class32 e (x : State) e' x' p : get_loader_path c class32 e x = (e', x', Ok p) ->
  (stable f v (x_path x) -> stable f v (x_path x')) /\ x' = with_path x (x_path x') /\ e' = (if class32 then set_loader32_path else set_loader_path) p e.
Proof.
  intros H. unfold get_loader_path in H. apply xbind_inv in H as (e1 & x1 & cached & H1 & H). injection H1 as <- <- _.
  apply xbind_inv in H as (e1 & x1 & path & H1 & H). apply xbind_inv in H as (e2 & x2 & u & H2 & H). injection H2 as <- <-. injection H as <- <- <-.
  assert (Hsame : (x = x1 /\ e = e1) \/ exists b, e1 = e /\ on_path (extract_loader c b) x = (x1, Ok path)).
  { destruct cached; [injection H1; intros; by left|]. destruct (if class32 then _ else _); [injection H1; intros; by left|]. right. exists class32. by apply on_sys_inv in H1 as [-> H1]. }
  destruct Hsame as [[<- <-]|(b & -> & Hb)]; [split; [done|]; split; [by destruct x|done]|]. apply on_path_with in Hb as [Ht Hx].
  split; [|done]. intros Hst. eapply steady_inv; [apply extract_loader_steady|exact Hst|exact Ht].
Qed.

Lemma remember_exe_inv host e (x : State) e' x' : stable f v (x_path x) -> remember_exe host e x = (e', x', Ok ()) ->
  stable f v (x_path x') /\ x' = with_path x (x_path x') /\ exists p, e' = set_new_exe p (set_host_exe (Some host) e) /\ guest_exe host p.
Proof.
  intros Hst H. unfold remember_exe in H. apply xbind_inv in H as (e1 & x1 & u & H1 & H). injection H1 as <- <-.
  apply xbind_inv in H as (e1 & x1 & sub & H1 & H). apply on_sys_inv in H1 as [-> H1]. apply on_path_with in H1 as [Ht Hx]. apply of_world_inv in Ht as [Ht Hsub].
  assert (Hst1 : stable f v (x_path x1)) by (rewrite Ht; destruct Hst as (? & ? & ?); by split_and!).
  apply xbind_inv in H as (e1 & x2 & r & H1 & H). injection H as <- <-.
  destruct sub as [g|].
  - injection H1 as <- <- <-. split; [done|]. split; [done|]. exists (Some g). split; [done|]. exists (world (x_path x)). by rewrite <- Hsub.
  - apply on_sys_inv in H1 as [-> H1]. unfold hattempt in H1. destruct (on_path (detranslated host) x1) as [x3 r3] eqn:Ed. apply on_path_with in Ed as [Et Hx3].
    destruct Hst1 as (F1 & F2 & F3). unfold detranslated, bind, get, lift, ret in Et. rewrite F1, F2 in Et.
    assert (Hd : x_path x3 = x_path x1 /\ r = match detranslate_path v f host None with Ok (_, p) => inl p | Err n => inr n | _ => r end /\ (forall w, detranslate_path v f host None <> Stuck w)).
    { destruct (detranslate_path v f host None) as [[n p]|n|w]; injection Et as <- <-; [..|done]; injection H1 as <- <-; done. }
    destruct Hd as (P1 & P2 & P3).
    assert (x2 = x3) as -> by (destruct r3; [by injection H1|by injection H1|done]). split; [by rewrite P1|]. split; [by rewrite Hx3, P1, Hx|].
    exists (match r with inl p => Some p | inr _ => None end). split; [done|]. exists (world (x_path x)). rewrite <- Hsub. destruct (detranslate_path v f host None) as [[n p]|n|w]; [by rewrite P2|by rewrite P2|by destruct (P3 w)].
Qed.

(** What use_loader() leaves in the tracee. *)
Definition loader_of (li : LoadInfo) (e : ExecState) : option cstr := (if class64 (elf_header (object li)) then loader_path else loader32_path) e.

Lemma use_loader_inv host user raw s e (x : State) e' x' : get_sysnum (x_regs x) CURRENT = Ok s -> stable f v (x_path x) -> regs_ok (x_regs x) ->
  use_loader c host user raw e x = (e', x', Ok ()) ->
  exists li loader, load_info e' = Some li /\ program_read host user raw li /\ loader_of li e' = Some loader
    /\ stable f v (x_path x') /\ placed x' SYSARG_1 loader /\ lowered SYSARG_1 x x' /\ ignore_loader_syscalls e' = true
    /\ (exe e', new_exe e', host_exe e', skip_proot_loader e', heap e', heaps e') = (exe e, new_exe e, host_exe e, skip_proot_loader e, heap e, heaps e).
Proof.
  intros Hs Hst Hg H. unfold use_loader in H. apply xbind_inv in H as (e1 & x1 & u1 & H1 & H). injection H1 as <- <- _.
  apply xbind_inv in H as (e1 & x1 & li & H1 & H). apply on_sys_inv in H1 as [-> H1]. apply (load_objects_inv _ _ _ s) in H1 as (Hst1 & Hx1 & Hli); [|done..].
  apply xbind_inv in H as (e1 & x2 & u2 & H1 & H). injection H1 as <- <- _. apply xbind_inv in H as (e1 & x2 & p & H1 & H). apply get_loader_path_inv in H1 as (Hst2 & Hx2 & He1).
  destruct p as [loader|]; [|done]. apply xbind_inv in H as (e2 & x3 & u3 & H1 & H). apply on_sys_inv in H1 as [-> H1]. injection H as <- <-. destruct u3.
  assert (Hx : x2 = with_path x (x_path x2)) by (rewrite Hx2, Hx1; done). clear Hx2.
  apply set_sysarg_path_lowers in H1 as (Hlow & Hp & Hg3 & Hpath); [|by rewrite Hx|done].
  exists li, loader. rewrite He1. unfold loader_of. split; [by destruct (class64 _)|]. split; [done|]. split; [by destruct (class64 _)|].
  split; [rewrite Hpath; by apply Hst2|]. split; [done|]. split; [|by destruct (class64 _)].
  destruct Hlow as [A1 A2 A3 A4 A5]. rewrite Hx in A1, A2, A3, A4, A5. by split.
Qed.

Lemma enter_inv lo s args e (x : State) e' x' : regs_ok (x_regs x) -> get_sysnum (x_regs x) CURRENT = Ok s -> stable f v (x_path x) ->
  qemu c = None -> IS_NOTIFICATION_PTRACED_LOAD_DONE c (x_regs x) = false ->
  argv_held lo x (reg x SYSARG_2) args -> clear_of_stack lo x (reg x SYSARG_2) ((zlen args + 1) * sizeof_word (x_regs x)) -> lo <= sp x' ->
  translate_execve_enter c e x = (e', x', Ok ()) ->
  exists raw scripts program host li loader path,
    get_sysarg_path SYSARG_1 x = (x, Ok raw) /\ (length scripts < MAXSYMLINKS)%nat
    /\ interpreted f l v scripts raw program /\ program_of f l v program host NoShebang
    /\ load_info e' = Some li /\ program_read host program (if decide (scripts = []) then None else Some raw) li
    /\ argv_held lo x' (reg x' SYSARG_2) (kernel_argv scripts args) /\ reg x' SYSARG_3 = reg x SYSARG_3
    /\ loader_of li e' = Some loader /\ placed x' SYSARG_1 loader
    /\ guest_exe host path /\ (exe e', new_exe e', host_exe e', skip_proot_loader e', ignore_loader_syscalls e', heap e', heaps e') = (exe e, path, Some host, false, true, heap e, heaps e)
    /\ (forall b bytes, clear_of_stack (sp x') x b (zlen bytes) -> holds_at (x_mem x) (x_me x) b bytes -> holds_at (x_mem x') (x_me x) b bytes)
    /\ stable f v (x_path x').
Proof.
  intros Hg Hs Hst Hq Hn Hargs Hclear Hlo H. unfold translate_execve_enter in H. apply xbind_inv in H as (e1 & x1 & g & H1 & H). injection H1 as <- <- <-. rewrite Hn in H.
  apply xbind_inv in H as (e1 & x1 & raw & H1 & H). apply on_sys_inv in H1 as [-> H1]. pose proof H1 as Hraw. apply get_sysarg_path_inv in H1 as [-> Hnul].
  apply xbind_inv in H as (e1 & x1 & r & H1 & H). apply on_sys_inv in H1 as [-> H1]. apply hattempt_inv in H1. destruct r as [[[status host] program]|n]; [|done].
  destruct (expand_shebang_inv f root l k v Hroot Hwf Hsz Hl Hk Hv Hcwd lo s _ _ _ _ _ _ _ _ Hs Hst Hg Hnul Hargs H1) as (Hg1 & Hs1 & Hst1 & Hsp1 & Hex). clear H1.
  rewrite Hq in H. apply xbind_inv in H as (e1 & x2 & u & H1 & H). destruct u. apply remember_exe_inv in H1 as (Hst2 & Hx2 & path & -> & Hpath); [|done].
  apply xbind_inv in H as (e1 & x3 & u & H1 & H). injection H1 as <- <- _. apply xbind_inv in H as (e1 & x3 & [h u2] & H1 & H). injection H1 as <- <- <- <-.
  apply xbind_inv in H as (e1 & x3 & skip & H1 & H). injection H1 as <- <- <-. cbn [skip_proot_loader set_skip] in H.
  apply (use_loader_inv _ _ _ s) in H as (li & loader & A1 & A2 & A3 & A4 & A5 & A6 & A7 & A8); [|by rewrite Hx2|done|by rewrite Hx2].
  assert (Hlow : lowered SYSARG_1 x1 x') by (destruct A6 as [B1 B2 B3 B4 B5]; rewrite Hx2 in B1, B2, B3, B4, B5; by split).
  destruct (Hex ltac:(pose proof (lw_sp _ _ _ Hlow); lia)) as (scripts & S1 & S2 & S3 & S4 & S5 & S6 & S7).
  exists raw, scripts, program, host, li, loader, path. split; [done|]. split; [done|]. split; [done|]. split; [done|]. split; [done|]. split.
  { rewrite S4 in A2. by destruct (decide (scripts = [])). }
  destruct Hlow as [B1 B2 B3 B4 B5]. split; [rewrite B5 by done; eapply lowered_held; [by split|done|by apply S7|done]|].
  destruct S6 as [C1 C2 C3 C4 C5]. split; [by rewrite B5, C5|]. split; [done|]. split; [done|]. split; [done|].
  split; [injection A8 as ? ? ? ? ? ?; congruence|]. split; [|done].
  intros b bytes Hc Hh. rewrite <- C1. apply B4; [unfold clear_of_stack in *; lia|]. rewrite C1. apply C4; [unfold clear_of_stack in *; lia|done].
Qed.

End Prepared.

(** ** What the loader maps is the image of the files *)

Section Image.

Context {w page_size lo hi : Z}.
Hypothesis Hpage : page_ok page_size.
Hypothesis Hw : w = 4 \/ w = 8.

Abbreviation up x := (x + page_size - x mod page_size).

Lemma word_values : 0 < w /\ 256 ^ w = 2 ^ (8 * w) /\ 2 ^ 32 <= 256 ^ w <= 2 ^ 64.
Proof. by destruct Hw as [-> | ->]. Qed.

(** What the loader asks of a segment, in addition to [segment_ok]: words can tell
    where it is, what is cleared can be written and is in the file, the stack is
    elsewhere. *)
Record segment_loads (base : Z) (data : list Z) (p : ProgramHeader) : Prop := {
  sl_word : base + p_vaddr p + p_memsz p + page_size < 256 ^ w /\ p_offset p < 256 ^ w;
  sl_clear : p_filesz p < p_memsz p -> has_flag (p_flags p) PF_W = true
    /\ ((p_offset p + p_filesz p) mod page_size <> 0 \/ p_offset p + p_filesz p < zlen data);
  sl_away : base + p_vaddr p + p_memsz p + page_size <= lo \/ hi <= base + page_of page_size (p_vaddr p)
}.

(** A mapping is within the pages of a segment, the last one included. *)
Definition within (base : Z) (p : ProgramHeader) (m : Mapping) : Prop :=
  base + page_of page_size (p_vaddr p) <= m_addr m /\ m_addr m + m_length m <= base + p_vaddr p + p_memsz p + page_size.

Definition maps (base : Z) (data : list Z) (p : ProgramHeader) (m : Mapping) : Prop :=
  mapping_ok page_size m /\ fits (w := w) m /\ clearable (page_size := page_size) data m /\ away lo hi m /\ within base p m.

Lemma prot_range flags : 0 <= prot_of flags < 256 ^ w /\ (has_flag flags PF_W = true -> has_flag (prot_of flags) PROT_WRITE = true).
Proof.
  pose proof word_values. unfold prot_of, PROT_READ, PROT_WRITE, PROT_EXEC.
  split; [destruct (has_flag flags PF_R), (has_flag flags PF_W), (has_flag flags PF_X); lia|]. intros ->. by destruct (has_flag flags PF_R), (has_flag flags PF_X).
Qed.

Lemma word_below base data p : segment_loads base data p -> below page_size base p.
Proof. intros [[H _] _ _]. pose proof word_values. unfold below. lia. Qed.

(** What is cleared at the end of a mapping is in a page of the file. *)
Lemma cleared_in_file data p k : segment_ok page_size data p -> (p_offset p + p_filesz p) mod page_size <> 0 \/ p_offset p + p_filesz p < zlen data ->
  p_offset p + p_filesz p <= k < up (p_offset p + p_filesz p) -> file_byte page_size data k <> None.
Proof.
  intros [_ Hs [Ho _] Hf] Hc Hk. pose proof (page_bounds _ Hpage). set (e := p_offset p + p_filesz p) in *. unfold file_byte. destruct (Z.ltb_spec k (zlen data)) as [Hlt|Hge].
  - destruct (lookup_lt_is_Some_2 data (Z.to_nat k)) as [b ->]; [unfold zlen in Hlt; lia|done].
  - assert (Hend : up e <= zlen data + (- zlen data) mod page_size); [|by rewrite (proj2 (Z.ltb_lt _ _)) by lia].
    assert (Hd : (zlen data + (- zlen data) mod page_size) mod page_size = 0) by (rewrite Z.add_mod_idemp_r by lia; rewrite Z.add_opp_diag_r; by apply Z.mod_0_l; lia).
    assert (Hu : up e mod page_size = 0) by (by apply up_multiple). set (d := zlen data + (- zlen data) mod page_size) in *.
    assert (Hdd : zlen data <= d < zlen data + page_size) by (unfold d; pose proof (Z.mod_pos_bound (- zlen data) page_size ltac:(lia)); lia).
    pose proof (Z.mod_pos_bound e page_size ltac:(lia)). pose proof (Z.div_mod d page_size ltac:(lia)). pose proof (Z.div_mod (up e) page_size ltac:(lia)). rewrite Hd in *. rewrite Hu in *.
    assert (Hlt : up e - page_size < d) by lia. set (qu := up e / page_size) in *. set (qd := d / page_size) in *. assert (qu - 1 < qd) by nia. nia.
Qed.

Lemma segment_maps data base p : segment_ok page_size data p -> 0 <= base -> base mod page_size = 0 -> segment_loads base data p ->
  Forall (maps base data p) (moved base <$> add_mapping page_size [] p).
Proof.
  intros Hok Hb0 Hb Hsl. pose proof (word_below _ _ _ Hsl) as Hbelow. pose proof (segment_mappings_ok _ Hpage data base p Hok Hb0 Hb Hbelow) as Hms.
  apply Forall_lookup. intros i m Hm. pose proof (Forall_lookup_1 _ _ _ _ Hms Hm) as [Hmok Hlow]. clear Hms. pose proof (page_bounds _ Hpage) as Hp. pose proof word_values as Hwr.
  destruct Hsl as [[Hword Hoff] Hclear Haway]. unfold below in Hbelow. pose proof (prot_range (p_flags p)) as [Hprot Hpw]. destruct Hok as [Hv Hs [Ho Heq] Hf].
  rewrite (segment_mappings _ Hpage data) in Hm by done.
  pose proof (Z.mod_pos_bound (p_vaddr p) page_size ltac:(lia)). pose proof (Z.mod_le (p_vaddr p) page_size ltac:(lia) ltac:(lia)).
  pose proof (Z.mod_pos_bound (p_vaddr p + p_filesz p) page_size ltac:(lia)). pose proof (Z.mod_pos_bound (p_vaddr p + p_memsz p) page_size ltac:(lia)).
  pose proof (Z.mod_le (p_offset p) page_size ltac:(lia) ltac:(lia)). pose proof (Z.mod_pos_bound (p_offset p) page_size ltac:(lia)).
  assert (Epage : page_of page_size (p_vaddr p) = p_vaddr p - p_vaddr p mod page_size) by (apply page_of_eq; [done|lia]). rewrite Epage in Haway.
  assert (Hin : within base p m /\ Forall (fun v => 0 <= v < 256 ^ w) [m_prot m; m_offset m] /\ (m_clear_length m <> 0 -> m_prot m = prot_of (p_flags p) /\ p_filesz p < p_memsz p /\ m_offset m = p_offset p - p_offset p mod page_size
    /\ m_addr m = base + p_vaddr p - p_vaddr p mod page_size /\ m_addr m + m_length m - m_clear_length m = base + p_vaddr p + p_filesz p /\ m_addr m + m_length m = base + up (p_vaddr p + p_filesz p))).
  { unfold within. rewrite Epage. clear Hlow Hmok. destruct (Z.ltb_spec (p_filesz p) (p_memsz p)); [destruct (Z.ltb_spec (base + up (p_vaddr p + p_filesz p)) (base + up (p_vaddr p + p_memsz p)))|];
      (destruct i as [|[|i]]; cbn in Hm; try done; injection Hm as <-; cbn [m_addr m_length m_clear_length m_prot m_offset];
       (split; [lia|split; [constructor; [done|constructor; [lia|constructor]]|intros Hc; by split_and!; lia || done]])). }
  destruct Hin as (Hin & Hpo & Hcl). pose proof Hmok as [[Ha0 _] [Hl0 [_ _]] Hc0 _ _]. unfold within in Hin. rewrite Epage in Hin.
  split; [done|]. split; [|split; [|split; [unfold away; lia|by unfold within; rewrite Epage]]].
  - split; [|lia]. apply Forall_cons in Hpo as [P1 Hpo]. apply Forall_inv in Hpo as P2. repeat (constructor; [done || lia|]). constructor.
  - intros Hne. destruct (Hcl Hne) as (C1 & C2 & C3 & C4 & C5 & C6). destruct (Hclear C2) as [D1 D2]. split; [rewrite C1; by apply Hpw|]. intros a Ha.
    apply (cleared_in_file data p); [by split|done|]. rewrite C3, C4. rewrite C5, C6 in Ha.
    assert (E : (p_offset p + p_filesz p) mod page_size = (p_vaddr p + p_filesz p) mod page_size) by (rewrite Z.add_mod, Heq, <- Z.add_mod by lia; done).
    rewrite E. lia.
Qed.

Lemma segments_maps data base l : 0 <= base -> base mod page_size = 0 -> Forall (segment_ok page_size data) l -> Forall (segment_loads base data) l ->
  Forall (fun m => exists p, p ∈ l /\ maps base data p m) (moved base <$> mappings_of page_size l).
Proof.
  intros Hb0 Hb Hok. induction Hok as [|p l Hp Hok IH]; intros Hl; [constructor|]. apply Forall_cons in Hl as [Hpl Hl]. rewrite mappings_of_cons, fmap_app. apply Forall_app. split.
  - eapply Forall_impl; [by apply segment_maps|]. intros m Hm. exists p. split; [apply list_elem_of_here|done].
  - eapply Forall_impl; [by apply IH|]. intros m (q & Hq & Hm). exists q. split; [by apply list_elem_of_further|done].
Qed.

Lemma image_outside data ms : forall memory a, Forall (fun m => a < m_addr m \/ m_addr m + m_length m <= a) ms -> image page_size data ms memory a = memory a.
Proof.
  unfold image. induction ms as [|m ms IH]; intros memory a Hms; [done|]. apply Forall_cons in Hms as [Hm Hms]. cbn [fold_left]. rewrite IH by done. unfold mapped.
  case_bool; [bool_facts; lia|done].
Qed.

Lemma page_of_range x : 0 <= page_of page_size x < 2 ^ 64.
Proof.
  unfold page_of. assert (Hm : 0 <= wrap64 (Z.lnot (page_size - 1)) < 2 ^ 64) by (apply Z.mod_pos_bound; lia).
  rewrite <- (Z.mod_small _ _ Hm), <- Z.land_ones, Z.land_assoc, Z.land_ones by lia. apply Z.mod_pos_bound. lia.
Qed.

(** A program that is not moved. *)
Lemma moved_zero m : 0 <= m_addr m < 2 ^ 64 -> moved 0 m = m.
Proof. intros Hm. unfold moved, wrap64. rewrite Z.add_0_r, wrap_small by done. by destruct m. Qed.

Lemma moved_nowhere l : moved 0 <$> mappings_of page_size l = mappings_of page_size l.
Proof.
  induction l as [|p l IH]; [done|]. rewrite mappings_of_cons, fmap_app, IH. f_equal. unfold add_mapping.
  repeat case_bool; cbn [app fmap list_fmap]; by rewrite !moved_zero by apply page_of_range.
Qed.

End Image.

(** ** What the loader is given *)

Section Ready.

Context {W : Type} {K : Kernel W} {E : Extensions W} {V : PathEvents W} {N : PathPolicy W} {EH : ExecHost W}.
Context (c : ExecConfig) (f : FileSystemNameSpace) (l : list Binding) (v : ProcView).
Context {w lo hi : Z} (contents : cstr -> list Z).
Hypothesis Hpage : page_ok (page_size c).
Hypothesis Hw : w = 4 \/ w = 8.

(** The segments of an object and the address it is moved by: [pic] when it is
    position-independent and asks for no address. *)
Definition loads_of (o : LoadObject) : list ProgramHeader := of_type PT_LOAD (segments (elf_header o) (contents (o_user_path o))).
Definition base_of_object (pic : Z) (o : LoadObject) : Z :=
  match loads_of o with
  | [] => 0
  | p :: _ => if IS_POSITION_INDEPENDENT (elf_header o) && (page_of (page_size c) (p_vaddr p) =? 0) then pic else 0
  end.
Definition pic_address (li : LoadInfo) : Z := if class64 (elf_header (object li)) then EXEC_PIC_ADDRESS else EXEC_PIC_ADDRESS_32.
Definition interp_pic_address (li : LoadInfo) : Z := if class64 (elf_header (object li)) then INTERP_PIC_ADDRESS else INTERP_PIC_ADDRESS_32.

(** The file of an object is as the ELF specification asks, and its segments are
    where the loader can map them. *)
Record elf_loads (pic : Z) (o : LoadObject) : Prop := {
  el_offset : 0 <= sgn 32 (e_phoff (elf_header o));
  el_ok : Forall (segment_ok (page_size c) (contents (o_user_path o))) (loads_of o);
  el_order : ascending (page_size c) (loads_of o);
  el_loads : Forall (segment_loads (w := w) (page_size := page_size c) (lo := lo) (hi := hi) (base_of_object pic o) (contents (o_user_path o))) (loads_of o);
  el_pic : 0 <= pic /\ pic mod page_size c = 0
}.

(** The loader opens the file that PRoot read. *)
Definition same_file (o : LoadObject) : Prop := forall (world : W) file, open_file world (o_host_path o) = inl file -> contents (o_user_path o) = fst file.

Lemma base_of_object_ok pic o : 0 <= pic /\ pic mod page_size c = 0 -> 0 <= base_of_object pic o /\ base_of_object pic o mod page_size c = 0.
Proof.
  intros Hp. pose proof (page_bounds _ Hpage). unfold base_of_object. assert (H0 : 0 <= 0 /\ 0 mod page_size c = 0) by (split; [lia|by apply Z.mod_0_l; lia]).
  destruct (loads_of o); [done|]. by case_bool.
Qed.

Lemma add_mapping_first p : exists m ms, add_mapping (page_size c) [] p = m :: ms /\ m_addr m = page_of (page_size c) (p_vaddr p).
Proof. unfold add_mapping. repeat case_bool; by eexists _, _. Qed.

Lemma object_based host user o i pic o' : object_read c f l v host user o i -> based o pic = Ok o' -> same_file o' -> elf_loads pic o' ->
  mappings o' = moved (base_of_object pic o') <$> mappings_of (page_size c) (loads_of o') /\ o_user_path o' = user /\ o_host_path o' = host.
Proof.
  intros (wd & file & part & Hf & Hr & _ & Hd & Ho & _) Hb Hsame Hl.
  assert (Hhead : e_phoff (elf_header o') = e_phoff (elf_header o) /\ o_user_path o' = user /\ o_host_path o' = host
    /\ segments (elf_header o') (contents user) = segments (elf_header o) (contents user) /\ e_type (elf_header o') = e_type (elf_header o)).
  { unfold based in Hb. rewrite Ho in Hb |- *. case_bool_in Hb; [|by injection Hb as <-]. cbn [mappings] in Hb. destruct (l_mappings part); [done|]. case_bool_in Hb; by injection Hb as <-. }
  destruct Hhead as (H1 & H2 & H3 & H4 & H5). assert (Hdata : contents user = fst file) by (rewrite <- H2; apply (Hsame wd); by rewrite H3).
  destruct (Hd ltac:(rewrite <- H1; apply Hl)) as (Hm & _). assert (Em : mappings o = mappings_of (page_size c) (loads_of o')).
  { rewrite Ho. cbn [mappings]. rewrite Hm. unfold loads_of. by rewrite H2, H4, Hdata. }
  split; [|done]. unfold base_of_object, IS_POSITION_INDEPENDENT. rewrite H5. unfold based, IS_POSITION_INDEPENDENT in Hb. rewrite Em in Hb.
  destruct (loads_of o') as [|p ps] eqn:El.
  - cbn [mappings_of fold_left] in *. destruct (e_type (elf_header o) =? ET_DYN); [done|]. injection Hb as <-. by rewrite Em.
  - rewrite mappings_of_cons in Hb. destruct (add_mapping_first p) as (m & ms & Ea & Eaddr). rewrite Ea in Hb. cbn [app] in Hb. rewrite Eaddr in Hb.
    destruct (e_type (elf_header o) =? ET_DYN); cbn [andb]; [|injection Hb as <-; by rewrite Em, moved_nowhere].
    destruct (page_of (page_size c) (p_vaddr p) =? 0); injection Hb as <-; [|by rewrite Em, moved_nowhere]. cbn [add_load_base mappings]. by rewrite Em.
Qed.

Lemma object_ready host user o i pic o' : object_read c f l v host user o i -> based o pic = Ok o' -> same_file o' -> elf_loads pic o' -> nul_free user ->
  loadable (w := w) (page_size := page_size c) (contents := contents) lo hi o'.
Proof.
  intros Hread Hb Hsame Hl Hn. destruct (object_based _ _ _ _ _ _ Hread Hb Hsame Hl) as (Em & Eu & _). destruct Hl as [_ L1 L2 L3 L4].
  destruct (base_of_object_ok pic o' L4) as [Hb0 Hb1]. pose proof (segments_maps Hpage Hw _ _ _ Hb0 Hb1 L1 L3) as Hms. rewrite <- Em in Hms.
  assert (Hall : forall P : Mapping -> Prop, (forall m, (exists p, p ∈ loads_of o' /\ maps (w := w) (page_size := page_size c) (lo := lo) (hi := hi) (base_of_object pic o') (contents (o_user_path o')) p m) -> P m) -> Forall P (mappings o'))
    by (intros P HP; by eapply Forall_impl).
  split; [..|by rewrite Eu]; apply Hall; by intros m (p & _ & M1 & M2 & M3 & M4 & _).
Qed.

(** The image of an object: the bytes of its segments, and nothing else changes. *)
Lemma object_image_segments host user o i pic o' memory : object_read c f l v host user o i -> based o pic = Ok o' -> same_file o' -> elf_loads pic o' ->
  (forall p j, p ∈ loads_of o' -> 0 <= j < p_memsz p ->
     object_image (page_size := page_size c) (contents := contents) o' memory (base_of_object pic o' + p_vaddr p + j)
     = if j <? p_filesz p then contents (o_user_path o') !! Z.to_nat (p_offset p + j) else Some 0)
  /\ (forall a, (forall p, p ∈ loads_of o' -> a < base_of_object pic o' + page_of (page_size c) (p_vaddr p) \/ base_of_object pic o' + p_vaddr p + p_memsz p + page_size c <= a) ->
        object_image (page_size := page_size c) (contents := contents) o' memory a = memory a).
Proof.
  intros Hread Hb Hsame Hl. destruct (object_based _ _ _ _ _ _ Hread Hb Hsame Hl) as (Em & Eu & _). destruct Hl as [_ L1 L2 L3 L4].
  destruct (base_of_object_ok pic o' L4) as [Hb0 Hb1]. unfold object_image. rewrite Em. split.
  - intros p j Hp Hj. apply segments_image; try done. eapply Forall_impl; [exact L3|]. intros q Hq. by eapply word_below.
  - intros a Ha. apply image_outside. eapply Forall_impl; [by apply (segments_maps (w := w) (lo := lo) (hi := hi) Hpage Hw)|]. intros m (p & Hp & _ & _ & _ & _ & Hin). specialize (Ha p Hp). unfold within in Hin. lia.
Qed.

End Ready.

(** ** The exit, as a function *)

Section Exit.

Context {W Mem : Type} {TM : TraceeMemory Mem} {TS : TraceeStrings Mem}.
Context {K : Kernel W} {E : Extensions W} {V : PathEvents W} {N : PathPolicy W} {EF : ExecFiles W}.
Context (c : ExecConfig).

Abbreviation State := (SysState W Mem).

(** The tracee before the script is transferred. *)
Definition limited (t : Tracee W) : Tracee W :=
  mkTracee (fs t) (glue t) (glue_type t) (next_addr t) (view t)
    (if mem_limit_bytes c =? 0 then world t else prlimit_as (world t) (pid (view t)) (mem_limit_bytes c)).
Definition executed (li : LoadInfo) (x : State) : State :=
  mkSys (set_aarch32 (x_regs x) (negb (class64 (elf_header (object li))))) (x_mem x) (x_me x) (x_sysenter x) (limited (x_path x))
    (set_seen_execve true (set_auxv_fd (-1) (x_flags x))) (x_netlink x).

(** The heap is new, those of the other tracees are what they were. *)
Definition heap_renewed (e e' : ExecState) : Prop :=
  (exists n, heaps e' !! heap e' = Some (mkHeap 0 0 false n))
  /\ forall i h, heaps e !! i = Some h -> i <> heap e \/ 1 <= references h ->
       exists n, heaps e' !! i = Some (mkHeap (base h) (size h) (disabled h) n) /\ i <> heap e' /\ (i <> heap e -> n = references h).

(** The program is the current one. *)
Definition committed (e e' : ExecState) : Prop :=
  exe e' = (match new_exe e with Some p => Some p | None => exe e end) /\ heap_renewed e e'
  /\ (new_exe e', host_exe e', load_info e', skip_proot_loader e', ignore_loader_syscalls e') = (new_exe e, host_exe e, load_info e, skip_proot_loader e, ignore_loader_syscalls e).

Lemma fresh_heap_inv e (x : State) h : heaps e !! heap e = Some h -> exists e', fresh_heap e x = (e', x, Ok ()) /\ heap_renewed e e'
  /\ (exe e', new_exe e', host_exe e', load_info e', skip_proot_loader e', ignore_loader_syscalls e') = (exe e, new_exe e, host_exe e, load_info e, skip_proot_loader e, ignore_loader_syscalls e).
Proof.
  intros Hh. unfold fresh_heap, xbind, xget. rewrite Hh. pose proof (lookup_lt_Some _ _ _ Hh) as Hlt.
  destruct (Z.leb_spec 1 (references h)); (eexists; split; [reflexivity|]; split; [|done]); unfold heap_renewed; cbn [set_heap heap heaps].
  - split; [exists 0; by rewrite lookup_app_r, length_insert, Nat.sub_diag by (rewrite length_insert; lia)|]. intros i g Hg Hor.
    pose proof (lookup_lt_Some _ _ _ Hg). rewrite lookup_app_l by (rewrite length_insert; lia). destruct (decide (i = heap e)) as [->|Hne].
    + rewrite list_lookup_insert_eq by lia. rewrite Hh in Hg. injection Hg as <-. exists (references h - 1). split; [done|]. split; [lia|done].
    + rewrite list_lookup_insert_ne by done. exists (references g). split; [by destruct g|]. split; [lia|done].
  - split; [exists (references h); by rewrite list_lookup_insert_eq|]. intros i g Hg Hor. destruct (decide (i = heap e)) as [->|Hne].
    + rewrite Hh in Hg. injection Hg as <-. lia.
    + rewrite list_lookup_insert_ne by done. exists (references g). split; [by destruct g|done].
Qed.

Lemma limit_run (x : State) : on_path (apply_mem_limit_to_tracee c) x = (with_path x (limited (x_path x)), Ok ()).
Proof.
  unfold on_path, apply_mem_limit_to_tracee, limited, on_pid, bind, get, on_world. destruct x as [g m i b t fl n]. cbn [x_path]. case_bool; [by destruct t|done].
Qed.

Lemma exit_failed e (x : State) li : skip_proot_loader e = false -> IS_NOTIFICATION_PTRACED_LOAD_DONE c (x_regs x) = false -> load_info e = Some li ->
  sgn 32 (peek_reg (x_regs (executed li x)) CURRENT SYSARG_RESULT) < 0 ->
  translate_execve_exit c e x = (e, set_regs (x_regs (executed li x)) (set_flags (set_auxv_fd (-1) (x_flags x)) x), Ok ()).
Proof.
  intros Hs Hn Hl Hr. unfold translate_execve_exit, xbind, on_sys, xget, set_flag, hset, hget, peek. rewrite Hs. cbn [set_flags x_regs]. rewrite Hn, Hl.
  unfold hset, hget. cbv beta iota zeta. cbn [set_regs x_regs]. by rewrite (proj2 (Z.ltb_lt _ _)) by exact Hr.
Qed.

Lemma exit_executed e (x : State) li h : skip_proot_loader e = false -> IS_NOTIFICATION_PTRACED_LOAD_DONE c (x_regs x) = false -> load_info e = Some li ->
  heaps e !! heap e = Some h -> 0 <= sgn 32 (peek_reg (x_regs (executed li x)) CURRENT SYSARG_RESULT) ->
  exists e', committed e e' /\ translate_execve_exit c e x
    = let '(x', r) := transfer_load_script (ptraced c) (page_size c) li (executed li x) in (e', x', match r with Stuck w => Stuck w | _ => Ok () end).
Proof.
  intros Hs Hn Hl Hh Hr. set (e1 := match new_exe e with Some p => set_exe (Some p) e | None => e end).
  destruct (fresh_heap_inv e1 (executed li x) h) as (e' & He' & Hf & Hsame); [unfold e1; by destruct (new_exe e)|]. exists e'.
  split.
  - injection Hsame as A1 A2 A3 A4 A5 A6. unfold committed. rewrite A1, A2, A3, A4, A5, A6. unfold heap_renewed in *. unfold e1 in *. destruct (new_exe e) eqn:En; cbn in *; by rewrite ?En.
  - unfold translate_execve_exit, xbind, on_sys, xget, set_flag, hset, hget, peek. rewrite Hs. cbn [set_flags x_regs]. rewrite Hn, Hl.
    unfold hset, hget. cbv beta iota zeta. cbn [set_regs x_regs]. rewrite (proj2 (Z.ltb_ge _ _)) by exact Hr. unfold commit_execve, xbind, on_sys, set_flag, hset, hget, hattempt, xset, xret.
    rewrite limit_run. fold e1. change (with_path _ _) with (executed li x). rewrite He'.
    by destruct (transfer_load_script (ptraced c) (page_size c) li (executed li x)) as [x' [u|n|s]].
Qed.

End Exit.

(** ** From execve(2) to the program *)

Section Program.

Context {W Mem : Type} {TM : TraceeMemory Mem} {TS : TraceeStrings Mem} {MC : MemoryContents Mem}.
Context {ML : MemoryContentsLaws Mem TM TS MC} {MR : MemoryReadsLaws Mem TM MC}.
Context {K : Kernel W} {E : Extensions W} {V : PathEvents W} {N : PathPolicy W} {EH : ExecHost W} {EF : ExecFiles W}.
Context {Vm : Type} {LV : LoaderVm Vm} (c : ExecConfig) (f : FileSystemNameSpace) (l : list Binding) (v : ProcView).
Context {w : Z} {byte : Vm -> Z -> option Z} {prot : Vm -> Z -> Z} {file : Vm -> Z -> option (list Z)} {contents : cstr -> list Z}.
Context {VL : LoaderVmLaws Vm LV w (page_size c) byte prot file contents}.

Abbreviation State := (SysState W Mem).
Abbreviation loads o := (loads_of contents o).

(** The program and its interpreter are in files that can be loaded, away from the
    stack, from [lo] to [hi], and from each other. *)
Record program_fits (lo hi : Z) (li : LoadInfo) : Prop := {
  pf_region : 0 <= lo /\ hi <= 256 ^ w;
  pf_object : same_file (W := W) contents (object li) /\ elf_loads c (w := w) (lo := lo) (hi := hi) contents (pic_address li) (object li);
  pf_interp : match interp li with
              | None => True
              | Some i => same_file (W := W) contents i /\ elf_loads c (w := w) (lo := lo) (hi := hi) contents (interp_pic_address li) i /\ nul_free (o_user_path i)
                  /\ forall p q, p ∈ loads (object li) -> q ∈ loads i ->
                       let a := base_of_object c contents (pic_address li) (object li) in
                       let b := base_of_object c contents (interp_pic_address li) i in
                       a + p_vaddr p + p_memsz p + page_size c <= b + page_of (page_size c) (p_vaddr q) \/ b + p_vaddr q + p_memsz q + page_size c <= a + page_of (page_size c) (p_vaddr p)
              end;
  pf_paths : nul_free (o_user_path (object li)) /\ match raw_path li with Some p => nul_free p | None => True end;
  pf_words : Forall (word_ok (w := w)) (tail (start_words (start_of 0 0 li)))
}.

(** The bytes of the segments are in memory. *)
Definition loaded (pic : Z) (o : LoadObject) (memory : Z -> option Z) : Prop :=
  forall p j, p ∈ loads o -> 0 <= j < p_memsz p ->
    memory (base_of_object c contents pic o + p_vaddr p + j) = if j <? p_filesz p then contents (o_user_path o) !! Z.to_nat (p_offset p + j) else Some 0.

(** The program starts: the segments of both objects are loaded, and the vectors of
    the kernel describe it. *)
Definition program_starts (sp : Z) (li : LoadInfo) (argv envp : list Z) (vectors : list (Z * Z)) (r : Vm * out Empty_set) : Prop :=
  r.2 = Ends (if ptraced c then Execve [1; sp; final_entry li; 2; 3; 4] else Branch sp (final_entry li))
  /\ loaded (pic_address li) (object li) (byte r.1)
  /\ match interp li with None => True | Some i => loaded (interp_pic_address li) i (byte r.1) end
  /\ readable (byte := byte) (prot := prot) r.1 (vectors_address (w := w) sp argv envp)
       (pod_array w (flat (adjusted (start_of sp 0 li) (program_base li) (nth 0 argv 0) <$> vectors))).

Hypothesis Hpage : page_ok (page_size c).
Hypothesis Hw : w = 4 \/ w = 8.
Context (lo hi : Z) (host user : cstr) (raw : option cstr) (li : LoadInfo).
Hypothesis Hread : program_read c f l v host user raw li.
Hypothesis Hfits : program_fits lo hi li.

Lemma read_objects : exists o i, object_read c f l v host user o i /\ based o (pic_address li) = Ok (object li) /\ raw_path li = raw
  /\ match i, interp li with
     | None, None => True
     | Some (h, u), Some ii => exists oi j, object_read c f l v h u oi j /\ based oi (interp_pic_address li) = Ok ii
     | _, _ => False
     end.
Proof.
  destruct Hread as (o & i & Ho & Hi). exists o, i.
  assert (Hclass : forall pic o', based o pic = Ok o' -> class64 (elf_header o') = class64 (elf_header o)).
  { intros pic o' Hb. unfold based in Hb. case_bool_in Hb; [|by injection Hb as <-]. destruct (mappings o); [done|]. case_bool_in Hb; by injection Hb as <-. }
  unfold pic_address, interp_pic_address. destruct i as [[h u]|].
  - destruct Hi as (oi & j & Hoi & Hi). unfold compute_load_addresses in Hi. cbn [object interp raw_path] in Hi.
    apply res_bind_ok in Hi as (o1 & H1 & Hi). apply res_bind_ok in Hi as (o2 & H2 & Hi). injection Hi as <-. cbn [object interp raw_path].
    rewrite (Hclass _ _ H1). destruct (class64 (elf_header o)); cbn [negb] in *; split_and!; try done; by exists oi, j.
  - unfold compute_load_addresses in Hi. cbn [object interp raw_path] in Hi. apply res_bind_ok in Hi as (o1 & H1 & Hi). injection Hi as <-. cbn [object interp raw_path].
    rewrite (Hclass _ _ H1). by destruct (class64 (elf_header o)).
Qed.

Lemma program_ready_read : program_ready (w := w) (page_size := page_size c) (contents := contents) lo hi li.
Proof.
  destruct read_objects as (o & i & Ho & Hb & _ & Hi). destruct Hfits as [F1 [F2 F3] F4 [F5 F6] F7].
  assert (Hu : o_user_path (object li) = user) by (by destruct (object_based c f l v contents _ _ _ _ _ _ Ho Hb F2 F3) as (_ & ? & _)).
  split; [done| | |done|done].
  - eapply (object_ready c f l v contents Hpage Hw); [exact Ho|exact Hb|done|exact F3|by rewrite <- Hu].
  - destruct i as [[h u]|], (interp li) as [ii|]; try done. destruct F4 as (G1 & G2 & G3 & _), Hi as (oi & j & Hoi & Hbi).
    assert (Hui : o_user_path ii = u) by (by destruct (object_based c f l v contents _ _ _ _ _ _ Hoi Hbi G1 G2) as (_ & ? & _)).
    eapply (object_ready c f l v contents Hpage Hw); [exact Hoi|exact Hbi|done|exact G2|by rewrite <- Hui].
Qed.

(** The image of the program has both objects. *)
Lemma program_image_loaded memory memory' (lo' hi' : Z) : lo <= lo' -> hi' <= hi ->
  (forall a, a < lo' \/ hi' <= a -> memory' a = program_image (page_size := page_size c) (contents := contents) li memory a) ->
  loaded (pic_address li) (object li) memory' /\ match interp li with None => True | Some i => loaded (interp_pic_address li) i memory' end.
Proof.
  intros Hlo Hhi Hm. destruct read_objects as (o & i & Ho & Hb & _ & Hi). destruct Hfits as [_ [F2 F3] F4 _ _]. pose proof (page_bounds _ Hpage) as Hp.
  assert (Hout : forall pic o' p j, elf_loads c (w := w) (lo := lo) (hi := hi) contents pic o' -> p ∈ loads o' -> 0 <= j < p_memsz p ->
    let a := base_of_object c contents pic o' + p_vaddr p + j in
    (a < lo' \/ hi' <= a) /\ base_of_object c contents pic o' + page_of (page_size c) (p_vaddr p) <= a < base_of_object c contents pic o' + p_vaddr p + p_memsz p + page_size c).
  { intros pic o' p j Hl Hin Hj a. destruct Hl as [_ L1 _ L3 L4]. rewrite Forall_forall in L1, L3. destruct (L1 p Hin) as [Hv _ _ _]. pose proof (L3 p Hin) as Hs.
    pose proof (word_below Hw _ _ _ Hs) as Hbe. unfold below in Hbe. destruct Hs as [_ _ Haw]. destruct (base_of_object_ok c contents Hpage pic o' L4) as [B1 _].
    pose proof (Z.mod_pos_bound (p_vaddr p) (page_size c) ltac:(lia)). assert (Ep : page_of (page_size c) (p_vaddr p) = p_vaddr p - p_vaddr p mod page_size c) by (apply page_of_eq; [done|lia]).
    rewrite Ep in *. unfold a. lia. }
  destruct (object_image_segments c f l v contents Hpage Hw _ _ _ _ _ _ memory Ho Hb F2 F3) as [I1 _]. unfold program_image in Hm.
  destruct i as [[h u]|], (interp li) as [ii|]; try done.
  - destruct F4 as (G1 & G2 & _ & G4), Hi as (oi & j & Hoi & Hbi).
    destruct (object_image_segments c f l v contents Hpage Hw _ _ _ _ _ _ (object_image (page_size := page_size c) (contents := contents) (object li) memory) Hoi Hbi G1 G2) as [J1 J2]. split.
    + intros p k Hin Hk. destruct (Hout _ _ p k F3 Hin Hk) as [O1 O2]. rewrite Hm by done. rewrite J2; [by apply I1|]. intros q Hq. specialize (G4 p q Hin Hq). cbn in G4. lia.
    + intros p k Hin Hk. destruct (Hout _ _ p k G2 Hin Hk) as [O1 O2]. rewrite Hm by done. by apply J1.
  - split; [|done]. intros p k Hin Hk. destruct (Hout _ _ p k F3 Hin Hk) as [O1 O2]. rewrite Hm by done. by apply I1.
Qed.

Lemma transfer_ends (x : State) buffer : load_buffer (ptraced c) (is_32on64_mode (x_regs x)) (page_size c) (peek_reg (x_regs x) CURRENT STACK_POINTER) li = Ok buffer ->
  (exists n, snd (transfer_load_script (ptraced c) (page_size c) li x) = Err n) \/ exists x', transfer_load_script (ptraced c) (page_size c) li x = (x', Ok ()).
Proof.
  intros Hb. assert (St : forall A B (m : HM W Mem A) (q : A -> HM W Mem B) y z a, m y = (z, Ok a) -> hbind m q y = q a z) by (intros A B m q y z a Hm; unfold hbind; by rewrite Hm).
  unfold transfer_load_script. erewrite St by reflexivity. erewrite St by reflexivity. erewrite St by reflexivity.
  destruct (match read_data _ _ _ _ with inl _ => _ | inr _ => _ end) as [execfn e]. erewrite St by reflexivity. erewrite St by reflexivity. cbn [set_flags x_regs].
  erewrite St by (unfold hlift; by rewrite Hb). erewrite St by reflexivity. erewrite St by reflexivity. unfold hbind, poke_data.
  destruct (write_data _ _ _ _) as [m [n|]]; [left; by exists n|right; by eexists].
Qed.

Lemma program_started (x : State) s buffer x' argv envp vectors n : let sp := peek_reg (x_regs x) CURRENT STACK_POINTER in
  page_size c mod 2 ^ MMAP_OFFSET_SHIFT w = 0 -> w = sizeof_word (x_regs x) -> regs_ok (x_regs x) ->
  load_buffer (ptraced c) (is_32on64_mode (x_regs x)) (page_size c) sp li = Ok buffer -> lo + zlen buffer <= sp ->
  transfer_load_script (ptraced c) (page_size c) li x = (x', Ok ()) ->
  shows (byte := byte) (prot := prot) lo hi s x' -> stack_ready (w := w) (byte := byte) (prot := prot) hi s sp argv envp vectors ->
  (length buffer + length envp + length vectors < n)%nat ->
  let r := _start w n (peek_reg (x_regs x') CURRENT USERARG_1) s in r.2 = Ends (Exited 182) \/ program_starts sp li argv envp vectors r.
Proof.
  intros sp Hunit Hws Hg Hb Hlo H Hsh Hst Hn r.
  destruct (transferred_started Hw Hpage Hunit lo hi (ptraced c) li buffer x x' s argv envp vectors n Hws Hg program_ready_read Hb Hlo H Hsh Hst Hn) as [_ [Hr|(R1 & R2 & R3)]]; [by left|right].
  fold r in R1, R2, R3. pose proof (zlen_nonneg buffer). pose proof (zlen_nonneg argv). pose proof (zlen_nonneg envp). pose proof (zlen_nonneg vectors). pose proof (word_values Hw).
  assert (Hlen : zlen (stack_words argv envp vectors) = zlen argv + zlen envp + 2 * zlen vectors + 4).
  { unfold stack_words. rewrite zlen_cons, zlen_app, zlen_cons, zlen_app, zlen_cons, zlen_app, (flat_length (w := w)). change (zlen [AT_NULL]) with 1. lia. }
  pose proof (sr_stack _ _ _ _ _ _ Hst) as Hend. rewrite Hlen in Hend.
  destruct (program_image_loaded (byte s) (byte r.1) (vectors_address (w := w) sp argv envp) (vectors_address (w := w) sp argv envp + 2 * zlen vectors * w)) as [L1 L2]; [unfold vectors_address; nia|unfold vectors_address; nia|exact R3|].
  by split.
Qed.

End Program.

(** ** Properties *)


(** C4: from execve(2) to the program.  The load information is the one that
    translate_execve_enter() prepared, without skipping the loader; its files are
    still the ones that were read and are as the ELF specification asks, each with a
    segment, with addresses that are apart, off the stack and within the words of the
    class, and with what is to be cleared writable and in the file (program_fits); the kernel executed the loader, and the load script has
    room below the stack pointer.  Then translate_execve_exit() succeeds: the program
    becomes the current one, it gets a new heap and the ones of the other tracees are
    left.  Unless the script could not be written, the loader, whatever the stack
    that it is given as the ABI asks (stack_ready) and in an address space that has
    what PRoot wrote, either exits because a system call failed or starts the program:
    every byte of the segments of the program and of its interpreter is in memory at
    its address, from the file or null, and the jump is to the entry point of the
    interpreter, or of the program without one, with the vectors of the kernel that
    describe the program. *)
Theorem program_executed {W Mem Vm} (TM : TraceeMemory Mem) (TS : TraceeStrings Mem) (MC : MemoryContents Mem)
    (ML : MemoryContentsLaws Mem TM TS MC) (MR : MemoryReadsLaws Mem TM MC) (K : Kernel W) (E : Extensions W)
    (V : PathEvents W) (N : PathPolicy W) (EH : ExecHost W) (EF : ExecFiles W) (LV : LoaderVm Vm)
    (c : ExecConfig) w byte prot file contents (VL : LoaderVmLaws Vm LV w (page_size c) byte prot file contents)
    f l v lo hi host user raw li e (x : SysState W Mem) h buffer :
  let x1 := executed c li x in
  let sp := peek_reg (x_regs x1) CURRENT STACK_POINTER in
  page_ok (page_size c) -> page_size c mod 2 ^ MMAP_OFFSET_SHIFT w = 0 -> w = (if class64 (elf_header (object li)) then 8 else 4) -> regs_ok (x_regs x) ->
  skip_proot_loader e = false -> IS_NOTIFICATION_PTRACED_LOAD_DONE c (x_regs x) = false -> heaps e !! heap e = Some h ->
  load_info e = Some li -> program_read c f l v host user raw li -> program_fits (W := W) c (w := w) (contents := contents) lo hi li ->
  0 <= sgn 32 (peek_reg (x_regs x1) CURRENT SYSARG_RESULT) ->
  load_buffer (ptraced c) (is_32on64_mode (x_regs x1)) (page_size c) sp li = Ok buffer -> lo + zlen buffer <= sp ->
  exists e' x', translate_execve_exit c e x = (e', x', Ok ()) /\ committed e e'
    /\ ((exists n, snd (transfer_load_script (ptraced c) (page_size c) li x1) = Err n)
        \/ forall s argv envp vectors n, shows (byte := byte) (prot := prot) lo hi s x' -> stack_ready (w := w) (byte := byte) (prot := prot) hi s sp argv envp vectors ->
             (length buffer + length envp + length vectors < n)%nat ->
             let r := _start w n (peek_reg (x_regs x') CURRENT USERARG_1) s in
             r.2 = Ends (Exited 182) \/ program_starts c (w := w) (byte := byte) (prot := prot) (contents := contents) sp li argv envp vectors r).
Proof.
  intros x1 sp Hpage Hunit Hword Hg Hs Hn Hh Hl Hread Hfits Hres Hb Hlo. assert (Hw : w = 4 \/ w = 8) by (rewrite Hword; case_bool; auto).
  destruct (exit_executed c e x li h Hs Hn Hl Hh Hres) as (e' & Hc & Hx). fold x1 in Hx. exists e'.
  destruct (transfer_ends c li x1 buffer Hb) as [(n & Hf)|(x' & Hx')].
  - destruct (transfer_load_script (ptraced c) (page_size c) li x1) as [x' r] eqn:Ht. cbn in Hf. subst r. exists x'. split; [done|]. split; [done|]. left. by exists n.
  - rewrite Hx' in Hx. exists x'. split; [done|]. split; [done|]. right. intros s argv envp vectors n Hsh Hst Hfuel.
    eapply (program_started c f l v Hpage Hw lo hi host user raw li Hread Hfits x1 s buffer x' argv envp vectors n); try done.
    unfold sizeof_word, is_32on64_mode. cbn. rewrite Hword. by destruct (class64 _).
Qed.

(** ** A program to compute with *)

#[local] Existing Instance demo_memory.
#[local] Existing Instance demo_strings.
#[local] Existing Instance demo_contents.
#[local] Existing Instance quiet_extensions.
#[local] Existing Instance quiet_events.
#[local] Existing Instance static_policy.
#[local] Existing Instance demo_loader_here.
#[local] Instance exec_kernel : Kernel unit := demo_kernel demo_links.

(** /s is a script whose interpreter is a program, as the other files are. *)
#[local] Instance exec_files : ExecHost unit := {
  set_exec_path_translation w _ := w;
  access_exists _ _ := true;
  access_executable _ _ := true;
  open_file _ p := inl (if str_eqb p (bs "/data/root/s") then bs "#!/bin/sh -x" ++ [10] else demo_elf, None)
}.

#[local] Instance exec_host : ExecFiles unit := {
  notify_EXECVE_PROC_EXE w _ := (w, None);
  create_temp_file w := (w, Some (bs "/tmp/auxv"));
  open_temp_file w := (w, Some 3);
  open_write w _ := (w, Some 4);
  write_fd w _ l := (w, zlen l);
  fchmod_user w _ := (w, true);
  close_fd w _ := w;
  kill w _ _ := w;
  prlimit_as w _ _ := w
}.

Definition demo_config : ExecConfig :=
  mkConfig 8 None 4096 0 (fun _ _ => 0) (bs "/") false false false (Some (bs "/loader")) None (fun _ => []) 1 0 false false.
Abbreviation demo_entered := (translate_execve_enter demo_config no_exec demo_execve).

Lemma demo_enters : snd demo_entered = Ok ().
Proof. by vm_compute. Qed.

Lemma demo_enter_room : 7168 <= peek_reg (x_regs (snd (fst demo_entered))) CURRENT STACK_POINTER.
Proof. apply Z.leb_le. by vm_compute. Qed.

Lemma demo_execve_regs : get_sysnum (x_regs demo_execve) CURRENT = Ok PR_execve
  /\ clear_of_stack 7168 demo_execve (peek_reg (x_regs demo_execve) CURRENT SYSARG_2) ((zlen [bs "/s"; bs "arg"] + 1) * sizeof_word (x_regs demo_execve)).
Proof. split; [by vm_compute|]. right. by vm_compute. Qed.

Lemma demo_execve_path : snd (get_sysarg_path SYSARG_1 demo_execve) = Ok (bs "/s").
Proof. by vm_compute. Qed.

Lemma ok_eq {A} (a b : A) : Ok a = Ok b -> a = b.
Proof. by intros [= ->]. Qed.

Lemma tuple_ignored {A B C D E F G} {a a' : A} {b b' : B} {c c' : C} {d d' : D} {i i' : E} {h h' : F} {hs hs' : G} :
  (a, b, c, d, i, h, hs) = (a', b', c', d', i', h', hs') -> i = i'.
Proof. by intros [= _ _ _ _ -> _ _]. Qed.


(** The system call is over: the program is /p, and its stack is the one of
    [demo_exec]. *)
Abbreviation demo_loading := (load_objects demo_config (bs "/data/root/p") (bs "/p") None demo_execve).
Definition exec_load : LoadInfo := match snd demo_loading with Ok li => li | _ => demo_load end.
Definition exec_before : ExecState := set_load_info (Some exec_load) (set_new_exe (Some (bs "/p")) no_exec).
Abbreviation demo_left := (translate_execve_exit demo_config exec_before demo_exec).

Lemma exec_load_read : program_read demo_config (fs demo_tracee) [demo_tmp; demo_sd; demo_root] (view demo_tracee) (bs "/data/root/p") (bs "/p") None exec_load.
Proof.
  destruct demo_tracee_ok as ((root & Hr) & Hwf & Hsz & (k & Hk) & Hv & Hg0).
  assert (E : demo_loading = (fst demo_loading, Ok exec_load)) by (apply pair_of; by vm_compute).
  assert (Hst : stable (fs demo_tracee) (view demo_tracee) (x_path demo_execve)) by (split_and!; [reflexivity|reflexivity|exact Hg0]).
  destruct (load_objects_inv (L := demo_laws demo_links ltac:(by repeat constructor)) (TE := quiet_transparent) demo_config (fs demo_tracee) root [demo_tmp; demo_sd; demo_root] k (view demo_tracee)
    Hr Hwf Hsz eq_refl Hk Hv demo_cwd_ok _ _ _ _ _ _ _ (proj1 demo_execve_regs) Hst E) as (_ & _ & Hp). exact Hp.
Qed.

(** [demo_elf] at an address. *)
Definition exec_object (base : Z) (host_path user_path : string) : LoadObject :=
  let o := demo_object base user_path in mkObject (bs host_path) (bs user_path) (mappings o) (elf_header o) false.

Lemma exec_object_loads pic host user : pic = EXEC_PIC_ADDRESS \/ pic = INTERP_PIC_ADDRESS -> let o := exec_object pic host user in
  elf_loads demo_config (w := 8) (lo := 7168) (hi := 9216) (fun _ => demo_elf) pic o
  /\ loads_of (fun _ => demo_elf) o = demo_loads /\ base_of_object demo_config (fun _ => demo_elf) pic o = pic.
Proof.
  intros Hpic o. assert (El : loads_of (fun _ => demo_elf) o = demo_loads) by (by destruct Hpic as [-> | ->]; vm_compute).
  assert (Eb : base_of_object demo_config (fun _ => demo_elf) pic o = pic) by (by destruct Hpic as [-> | ->]; vm_compute).
  split; [|done]. destruct (demo_loads_ok 0 ltac:(by left)) as (H1 & H2 & _).
  split; rewrite ?El; [by destruct Hpic as [-> | ->]; vm_compute|done|done| |by destruct Hpic as [-> | ->]; vm_compute].
  rewrite Eb. constructor; [|constructor; [|constructor]]; (split; [by destruct Hpic as [-> | ->]; vm_compute| |right; by destruct Hpic as [-> | ->]; vm_compute]).
  - by vm_compute.
  - intros _. split; [by vm_compute|left; by vm_compute].
Qed.

Lemma exec_object_same pic host user : str_eqb (bs host) (bs "/data/root/s") = false -> same_file (W := unit) (fun _ => demo_elf) (exec_object pic host user).
Proof. intros Hp world file. cbn [open_file exec_files o_host_path exec_object]. rewrite Hp. by intros [= <-]. Qed.

Lemma exec_load_fits : program_fits (W := unit) demo_config (w := 8) (contents := fun _ => demo_elf) 7168 9216 exec_load.
Proof.
  assert (E : exec_load = mkLoad (exec_object EXEC_PIC_ADDRESS "/data/root/p" "/p") None (Some (exec_object INTERP_PIC_ADDRESS "/data/root/bin/sh" "/bin/sh"))) by (by vm_compute).
  rewrite E. clear E. destruct (exec_object_loads EXEC_PIC_ADDRESS "/data/root/p" "/p" ltac:(by left)) as (A1 & A2 & A3).
  destruct (exec_object_loads INTERP_PIC_ADDRESS "/data/root/bin/sh" "/bin/sh" ltac:(by right)) as (B1 & B2 & B3).
  split; cbn [object interp raw_path].
  - done.
  - split; [by apply exec_object_same; vm_compute|exact A1].
  - split; [by apply exec_object_same; vm_compute|]. split; [exact B1|]. split; [by repeat constructor|]. unfold pic_address, interp_pic_address. cbn [object].
    change (class64 (elf_header (exec_object EXEC_PIC_ADDRESS "/data/root/p" "/p"))) with true. cbv iota. rewrite A2, A3, B2, B3. intros p q Hp Hq.
    assert (Hall : Forall (fun p => Forall (fun q => EXEC_PIC_ADDRESS + p_vaddr p + p_memsz p + 4096 <= INTERP_PIC_ADDRESS + page_of 4096 (p_vaddr q)) demo_loads) demo_loads)
      by (repeat (constructor; [repeat (constructor; [by vm_compute|]); constructor|]); constructor).
    rewrite Forall_forall in Hall. specialize (Hall p Hp). rewrite Forall_forall in Hall. left. exact (Hall q Hq).
  - split; [by repeat constructor|done].
  - by repeat (constructor; [by vm_compute|]); constructor.
Qed.

Definition exec_buffer : list Z := match load_buffer false false 4096 8192 exec_load with Ok l => l | _ => [] end.

Lemma exec_read_facts : snd demo_left = Ok () /\ peek_reg (x_regs (executed demo_config exec_load demo_exec)) CURRENT STACK_POINTER = 8192
  /\ load_buffer false false 4096 8192 exec_load = Ok exec_buffer /\ (7168 + zlen exec_buffer <=? 8192) = true
  /\ (length exec_buffer + length (@nil Z) + length demo_vectors <? 600)%nat = true.
Proof. by repeat split; vm_compute. Qed.

Lemma exec_transferred : snd (transfer_load_script (ptraced demo_config) (page_size demo_config) exec_load (executed demo_config exec_load demo_exec)) = Ok ().
Proof. by vm_compute. Qed.

Lemma exec_stack_kept : demo_readv (x_mem (snd (fst demo_left))) 8192 88 = pod_array 8 (stack_words demo_argv [] demo_vectors).
Proof. by vm_compute. Qed.

(** The loader is executed. *)
Lemma exec_run : (_start 8 600 (peek_reg (x_regs (snd (fst demo_left))) CURRENT USERARG_1) (demo_space_of (x_mem (snd (fst demo_left))))).2
  = Ends (Branch 8192 (INTERP_PIC_ADDRESS + 64)).
Proof. by vm_compute. Qed.

Lemma exec_result : 0 <= sgn 32 (peek_reg (x_regs (executed demo_config exec_load demo_exec)) CURRENT SYSARG_RESULT).
Proof. apply Z.leb_le. by vm_compute. Qed.

Lemma exec_notification : IS_NOTIFICATION_PTRACED_LOAD_DONE demo_config (x_regs demo_exec) = false /\ class64 (elf_header (object exec_load)) = true
  /\ is_32on64_mode (x_regs (executed demo_config exec_load demo_exec)) = false.
Proof. by repeat split; vm_compute. Qed.

Lemma program_executed_witness :
  exists e' x', demo_left = (e', x', Ok ()) /\ committed exec_before e'
    /\ program_starts demo_config (w := 8) (byte := d_byte) (prot := d_prot) (contents := fun _ => demo_elf) 8192 exec_load demo_argv [] demo_vectors
         (_start 8 600 (peek_reg (x_regs x') CURRENT USERARG_1) (demo_space_of (x_mem x'))).
Proof.
  destruct exec_read_facts as (F1 & F2 & F3 & F4 & F5). destruct exec_notification as (N1 & N2 & N3). apply Z.leb_le in F4. apply Nat.ltb_lt in F5.
  pose proof (program_executed demo_memory demo_strings demo_contents (mem_contents_laws (demo_vm true) demo_byte (demo_vm_laws true))
    (mem_reads_laws (demo_vm true) demo_byte (demo_vm_laws true)) exec_kernel quiet_extensions quiet_events static_policy exec_files exec_host demo_loader_here
    demo_config 8 d_byte d_prot d_file (fun _ => demo_elf) (demo_loader_laws 8 4096 demo_elf)
    (fs demo_tracee) [demo_tmp; demo_sd; demo_root] (view demo_tracee) 7168 9216 (bs "/data/root/p") (bs "/p") None exec_load exec_before demo_exec (mkHeap 0 0 false 0) exec_buffer) as H.
  cbv zeta in H. rewrite F2, N2, N3 in H.
  destruct (H page_ok_4096 eq_refl eq_refl (enter_regs_ok _ _) eq_refl N1 eq_refl eq_refl exec_load_read exec_load_fits exec_result F3 F4) as (e' & x' & H1 & H2 & H3).
  exists e', x'. split; [exact H1|]. split; [exact H2|]. clear H.
  assert (Ex : snd (fst demo_left) = x') by exact (f_equal (fun r => snd (fst r)) H1). pose proof exec_run as Hrun. pose proof exec_stack_kept as Hk. rewrite Ex in Hrun, Hk.
  destruct H3 as [(n & H3)|H3]; [discriminate (eq_trans (eq_sym H3) exec_transferred)|].
  destruct (H3 (demo_space_of (x_mem x')) demo_argv [] demo_vectors 600%nat (demo_shows x') (demo_stack_ready x' Hk) F5) as [H4|H4]; [|exact H4].
  discriminate (eq_trans (eq_sym Hrun) H4).
Defined.
